(* ===== verification/_CoqProject ===== *)
-Q . S2P
Prelude.v
Util.v
Buf.v
Value.v
Record.v
Cnum.v
CnumSpec.v
ValueText.v
Geom.v
GeomSpec.v
Crypto.v
CryptoFn.v
CryptoSpec.v
Lock.v
Mvcc.v
Txn.v
File.v
Wal.v
WalSpec.v
Pager.v
PagerSpec.v
PagerFree.v
PagerCommit.v
Btree.v
Cursor.v
BtreePage.v
BtreeStore.v
BtreeLeaf.v
BtreePager.v
PinStore.v
Rtree.v
RtreeBox.v
RtreeNode.v
RtreeTree.v
RtreeSearch.v
RtreeEdit.v
RtreeInsert.v
RtreeSpec.v
Schema.v
Sqltype.v
Coerce.v
CoerceSpec.v
EngineRow.v
EngineSpec.v
EngineDemo.v
EngineCol.v
Engine.v
EngineColSpec.v
EngineAgree.v
EngineColDemo.v
Acl.v
Catalog.v
CatalogScan.v
CatalogSpec.v
CatalogOps.v
CatalogDemo.v
Lexer.v
LexerSpec.v
Ast.v
Parser.v
ParserStmt.v
ParserTerm.v
ParserSpec.v
Pattern.v
Eval.v
Resolve.v
EvalSpec.v
Join.v
JoinSpec.v
Exec.v
ExecSpec.v
Analyze.v
