(* ===== verification/Prelude.v ===== *)
(** * TransactionDB: a verification development

    TransactionDB is an embedded transactional SQL database in C.  SQL text is
    split into tokens, parsed and run by an executor that works on tables.  A
    storage engine keeps a table as B-trees of encoded records, with the older
    versions of its rows, row by row or column by column; spatial indexes are
    R-trees.  The trees live in pages handed out by a pager; the pager caches
    pages, keeps a free-list and writes committed pages to a write-ahead log in
    front of the main file.  Above the pager a transaction manager gives out ids
    and snapshots, a lock manager grants shared and exclusive locks, and row
    versions are filtered by MVCC visibility.  This development models these
    parts and proves what each promises the others.

    ** Files

    Each file models one component with the names of the C code, or holds its
    properties.

    Common code and values (src/src/common, src/src/value).
    - Prelude: status codes, fixed-width integers, byte buffers, C strings,
      and the tactics and lemmas the files share.
    - Util (tdb_util.c): varints, big-endian integers, CRC32C, FNV-1a.
    - Buf (tdb_buf.c, tdb_mem.c): growable buffer and arena allocator; a
      predicate on sizes says which allocations succeed.
    - Cnum, CnumSpec: what the sources use of the C library to read and print
      numbers, and that seventeen digits identify a double.
    - Value, ValueText (tdb_value.c, tdb_type.c): runtime values, comparison,
      conversions, affinity, text forms.
    - Record (tdb_record.c): the record codec, the comparison of encoded
      records, composite values.
    - Geom, GeomSpec (tdb_geom.c): geometries as blobs and as text.
    - Sqltype, Coerce, CoerceSpec (tdb_sqltype.c): declared types and the
      coercion of values to them.
    - Crypto, CryptoFn, CryptoSpec (src/src/ext/tdb_crypto.c, and accessors of
      src/src/api/tdb_api.c): hash functions, encodings, the SQL functions over
      them; OpenSSL is a set of parameters.

    Transactions (src/src/txn).
    - Lock (tdb_lock.c): the lock table and wait-die.
    - Mvcc, Txn (tdb_mvcc.c, tdb_txn.c; writer slot of src/src/api/tdb_env.c):
      visibility, the transaction manager, savepoints.  The manager reaches the
      pager through the classes [PagerTxn] and [PagerTxnLaws].

    Storage (src/src/storage).
    - File (tdb_file.c, tdb_compress.c): the table of file operations as classes
      [Vfs] and [VfsLaws] with the memory file system as an instance, and the
      page codec, with Zstandard as a parameter.
    - Wal, WalSpec (tdb_wal.c): the log in both formats, and its specification
      as a list of frames.
    - Pager, PagerSpec, PagerFree, PagerCommit (tdb_pager.c): page cache,
      free-list, transactions, savepoints, vacuum, open and close; the
      invariants; the free-list as a partition of page numbers; commit, rollback
      and savepoints, which make the pager an instance of [PagerTxn] and
      [PagerTxnLaws].
    - Btree, Cursor (tdb_btree.c): page layout, search, splits, insertion and
      removal, overflow chains, and cursors, over the class [PagerPages];
      BtreePage: a page as a list of cells; BtreeStore: the laws [PageStore] the
      tree relies on and overflow chains over them; BtreeLeaf: tables of one
      leaf as maps from rowids to values, which implement the interface
      [TableStore]; BtreePager: the tree over the modelled pager, which is a
      [PageStore].
    - PinStore: the laws of pages that stay pinned, which the pager has; Rtree
      (tdb_rtree.c) with RtreeBox (areas, unions and splits), RtreeNode (a page
      as a list of entries), RtreeTree (the tree of pages), RtreeSearch,
      RtreeEdit, RtreeInsert and RtreeSpec (the tree as a bag of boxes).
    - EngineRow (engine_row.c): the row engine: versions, history, index
      maintenance, scans, DROP COLUMN; EngineSpec: the engine as a map from
      rowids to lists of versions, over [TableStore]; EngineDemo: the engine,
      the tree, the pager and the log run together.
    - EngineCol (engine_col.c): the column engine; EngineColSpec: it implements
      the same map; Engine (tdb_engine.c): the dispatcher over both;
      EngineAgree: the two engines answer alike; EngineColDemo: the column
      engine and the dispatcher over the pager.

    Catalog (src/src/catalog).
    - Schema (tdb_schema.c): columns, indexes and tables.
    - Acl (tdb_acl.c): GRANT, REVOKE, the check, and the storage form.
    - Catalog (tdb_catalog.c), with CatalogScan (scans and removals of a table),
      CatalogSpec (codecs, opening), CatalogOps (every operation as a step on a
      list of objects), CatalogDemo (over the pager).

    SQL (src/src/sql).
    - Lexer, LexerSpec (tdb_lexer.c, tdb_token.h): the lexer; bounds,
      termination, and the inverse of printing.
    - Ast, Parser, ParserStmt (tdb_ast.h, tdb_parser.c): the tree and the
      parser; ParserTerm: it terminates; ParserSpec: the grammar it reads.
    - Pattern, Resolve, Eval, EvalSpec, Join, JoinSpec, Exec, ExecSpec
      (tdb_exec.c): LIKE and GLOB, names, expressions, scans and joins,
      statements and their transactions, with their properties.
    - Analyze (tdb_analyze.c, tdb_ast.c): tables from CREATE TABLE, and the
      printer of expressions.

    ** How the code is modelled

    A C function is a function on explicit states; an error is a [tdb_status]
    next to the state, which keeps what the code did before it failed.  A
    machine integer is a [Z] with its cast written out; memory is a list of
    bytes; a double is its bits or a [spec_float].  A page pointer is the page
    number: the cache holds one page per number ([cache_wf]).  Functions run
    under a mutex are single steps, and runs of the lock and transaction
    managers are sequences of steps.  The allocator is a predicate [alloc_ok] on
    the requested size; where a file does not check an allocation, its header
    says that allocations succeed.  [None] is a step outside the language: a
    write out of bounds, a read of released memory, or fuel that is used up.

    Fuel.  Loops over a buffer take as fuel the bytes left, the search in a
    page the number of cells; both are proved enough ([lex_next_ok],
    [find_loop_ok]), as is the length of a value for its overflow chain
    ([write_loop_ok], [read_loop_ok]), and the number of versions for the
    walk along them ([resolve_loop_ok], [history_loop_ok]).  The parser takes
    the length of its input as depth, which [parser_terminates] proves enough.
    The buffer doubling takes 64 rounds, enough for any 64-bit size.  Descents
    of a B-tree take the depth as fuel and those of an R-tree the height, and
    answer [None] when it is used up, as do walks along page chains that a
    corrupt file could make cyclic; the R-tree theorems ask for fuel above the
    height, and for tables of one leaf any positive depth is enough.

    ** What the theorems show

    - Durability and recovery: a log cut at any byte recovers exactly the
      whole transactions; a checkpoint changes no page a reader sees; a
      committed pager that is closed and opened again shows the committed
      pages; rollback and savepoint rollback give back the earlier pages.
    - Isolation: a snapshot sees the versions committed when it was taken and
      its own; the manager's lists agree in every reachable state; a write
      outside a transaction, whose body leaves the transaction and the counters
      of the connection alone, commits or is rolled back as a whole and leaves
      nothing behind; a write without the writer slot is refused.
    - Locks: an exclusive holder is alone; waiting requests never form a cycle.
    - Space: the page allocator refines a partition of the page numbers; a
      page edited by insertions and deletions holds the cells of the
      corresponding list; a value written to an overflow chain is read back
      whatever happens to other pages.
    - Row versions: on tables without indexes both engines implement INSERT,
      UPDATE, DELETE and lookup on lists of versions, so that tables of either
      kind answer alike behind the dispatcher, and a transaction keeps reading
      its snapshot through the writes of transactions it does not see, as long
      as they neither insert at a rowid of which it sees a version nor write a
      row it sees deleted ([op_unseen]).  The theorems assume that what is
      written fits ([op_fits], [col_fits]); tables of one leaf provide it.
      What happens otherwise is run in EngineDemo and EngineColDemo.
    - Spatial index: any sequence of insertions and deletions has its effect on
      a bag of boxes, and a search visits exactly the boxes that intersect.
    - Catalog: every operation, on disk and in memory, is a step on a list of
      objects; access follows the history of grants and revokes.
    - SQL: the lexer inverts printing; the parser ends on every input and reads
      every text of the grammar back to its tree; names are resolved to the
      column they denote; joins are the relational joins; LIKE decides its
      pattern language; NULL spreads through operators; CREATE TABLE builds the
      declared table.
    - Values: records, numbers as text, geometries and encrypted blobs
      round-trip; coercion decides what a declared type takes; streaming
      SHA-256 does not depend on how the message is cut; decoders stay inside
      their input.
    - Faults: lemmas named after them run the places where the code does not do
      what it means to, such as [btree_split_loses_rows],
      [index_scan_repeats_row], [reinsert_hides_row], [begin_breaks_isolation],
      [call_that_commits], [column_drop_keeps_history].

    Specifications are stated without the functions they are about: pages are
    those of the list of log frames and of the file bytes, precedences are a
    relation of their own, names are compared as words, joins are given kind by
    kind, declared columns field by field, types on the bytes of a value.

    ** Not modelled

    - The drivers of SELECT, DML and DDL and the function library
      (src/src/sql/tdb_exec_*.inc), apart from the transaction control and LOCK
      TABLE: they are parameters of the executor, with which they share its
      whole state.
    - The B-tree as a map through splits: a split that does not fit loses rows,
      so that trees of more than one leaf have no such contract without a bound
      on the sizes of values; the operations themselves are modelled.
    - PL/SQL, Lua and the JIT (src/src/plsql, src/src/lua, src/src/jit): front
      ends and interpreters over external runtimes.
    - System calls of the OS files, and Zstandard: outside the repository.
    - The public interface and the command line (src/src/api/tdb_api.c,
      src/cli): glue around the parts above and terminal input and output. *)
From stdpp Require Export base numbers list list_numbers strings.
From Stdlib Require Export ZArith Lia.
From Stdlib Require Import Zbitwise.
From Stdlib Require Ascii String.

#[global] Open Scope Z_scope.

(** ** Status codes (include/transactiondb.h, [enum tdb_status]) *)
Inductive tdb_status :=
| TDB_OK | TDB_ERROR | TDB_BUSY | TDB_LOCKED | TDB_NOMEM | TDB_READONLY
| TDB_IOERR | TDB_CORRUPT | TDB_NOTFOUND | TDB_FULL | TDB_CONSTRAINT
| TDB_MISMATCH | TDB_MISUSE | TDB_RANGE | TDB_ABORT | TDB_UNSUPPORTED
| TDB_DONE | TDB_ROW.

#[global] Instance tdb_status_eq_dec : EqDecision tdb_status.
Proof. solve_decision. Defined.

(** ** Fixed-width machine integers

    A [w]-bit unsigned integer is a [Z] in [[0, 2^w)]; a cast is the
    remainder, a signed cast the symmetric remainder. *)
Definition u8 (z : Z) : Z := z mod 256.
Definition u16 (z : Z) : Z := z mod 65536.
Definition u32 (z : Z) : Z := z mod 4294967296.
Definition u64 (z : Z) : Z := z mod 18446744073709551616.
Definition s32 (z : Z) : Z := (z + 2147483648) mod 4294967296 - 2147483648.
Definition s64 (z : Z) : Z :=
  (z + 9223372036854775808) mod 18446744073709551616 - 9223372036854775808.

(** ** Byte buffers

    A buffer is the list of its bytes.  [bget] is [p[i]], [bsub] the [n]
    bytes from [p + off], [bfrom] the pointer [p + off] itself, [bput] is [memcpy(p + off, src, n)], [bzero] is
    a [memset] block. *)
Definition blen (l : list Z) : Z := Z.of_nat (length l).
Definition bfrom (l : list Z) (off : Z) : list Z := drop (Z.to_nat off) l.
Definition bget (l : list Z) (i : Z) : Z := nth (Z.to_nat i) l 0.
Definition bsub (l : list Z) (off n : Z) : list Z :=
  take (Z.to_nat n) (drop (Z.to_nat off) l).
Definition bput (l : list Z) (off : Z) (src : list Z) : list Z :=
  take (Z.to_nat off) l ++ src ++ drop (Z.to_nat off + length src) l.
Definition bzero (n : Z) : list Z := replicate (Z.to_nat n) 0.

Arguments blen : simpl never.
Arguments bsub : simpl never.
Arguments bput : simpl never.
Arguments bzero : simpl never.
Arguments u8 : simpl never.
Arguments u16 : simpl never.
Arguments u32 : simpl never.
Arguments u64 : simpl never.
Arguments s32 : simpl never.
Arguments s64 : simpl never.

(** The capacity-doubling loop [while (cap < want) cap *= 2] of the growable
    buffers, at the width of [wrap]. *)
Fixpoint grow_cap (wrap : Z -> Z) (fuel : nat) (cap want : Z) : Z :=
  match fuel with
  | O => cap
  | S f => if cap <? want then grow_cap wrap f (wrap (cap * 2)) want else cap
  end.

(** The allocator that never refuses, for examples. *)
Definition ok_alloc : Z -> bool := fun _ => true.

(** Bytes are in range. *)
Definition is_byte (b : Z) : Prop := 0 <= b < 256.
Definition bytes_ok (l : list Z) : Prop := Forall is_byte l.

(** ** C string and memory comparison

    Strings and memory blocks are byte lists.  [memcmp] and the [strcasecmp]
    family return the sign of the C result. *)
Fixpoint memcmp (a b : list Z) (n : nat) : Z :=
  match n, a, b with
  | S n, x :: a, y :: b => if x <? y then -1 else if y <? x then 1 else memcmp a b n
  | _, _, _ => 0
  end.

(** The bytes of a string literal. *)
Definition str (s : String.string) : list Z :=
  map (fun c => Z.of_N (Ascii.N_of_ascii c)) (String.list_ascii_of_string s).
Arguments str _%_string.

(** A [char *]: [None] is the NULL pointer. *)
Definition cstring := option (list Z).
(** [tolower] and [toupper] in the C locale. *)
Definition tolower (c : Z) : Z := if (65 <=? c) && (c <=? 90) then c + 32 else c.
Definition toupper (c : Z) : Z := if (97 <=? c) && (c <=? 122) then c - 32 else c.

(** The bytes of a C string: those before the first NUL. *)
Fixpoint cstr (s : list Z) : list Z :=
  match s with
  | [] => []
  | c :: s => if c =? 0 then [] else c :: cstr s
  end.
Definition strlen (s : list Z) : Z := blen (cstr s).

(** [strncasecmp(a, b, n)] on NUL-terminated strings: the end of a list reads
    as the terminator. *)
Fixpoint strncasecmp (a b : list Z) (n : nat) : Z :=
  match n with
  | O => 0
  | S n =>
      let x := tolower (hd 0 a) in
      let y := tolower (hd 0 b) in
      if x <? y then -1 else if y <? x then 1
      else if x =? 0 then 0 else strncasecmp (tl a) (tl b) n
  end.
Definition strcasecmp (a b : list Z) : Z :=
  strncasecmp a b (S (Nat.max (length a) (length b))).

(** The same word up to letter case: what [strcasecmp] decides. *)
Definition same_word (a b : list Z) : Prop := map tolower (cstr a) = map tolower (cstr b).

(** Lexicographic comparison, the order the byte comparisons implement. *)
Fixpoint lex_cmp (a b : list Z) : Z :=
  match a, b with
  | [], [] => 0
  | [], _ :: _ => -1
  | _ :: _, [] => 1
  | x :: a, y :: b => if x <? y then -1 else if y <? x then 1 else lex_cmp a b
  end.

(** ** Arithmetic of casts and bit fields *)

Ltac unfold_casts := unfold u8, u16, u32, u64, s32, s64, is_byte in *.

Lemma u8_range z : is_byte (u8 z).
Proof. apply Z.mod_pos_bound; lia. Qed.
Lemma u16_range z : 0 <= u16 z < 65536.
Proof. apply Z.mod_pos_bound; lia. Qed.
Lemma u32_range z : 0 <= u32 z < 4294967296.
Proof. apply Z.mod_pos_bound; lia. Qed.
Lemma u64_range z : 0 <= u64 z < 18446744073709551616.
Proof. apply Z.mod_pos_bound; lia. Qed.
Lemma u8_small z : 0 <= z < 256 -> u8 z = z.
Proof. apply Z.mod_small. Qed.
Lemma u16_small z : 0 <= z < 65536 -> u16 z = z.
Proof. apply Z.mod_small. Qed.
Lemma u32_small z : 0 <= z < 4294967296 -> u32 z = z.
Proof. apply Z.mod_small. Qed.
Lemma u64_small z : 0 <= z < 18446744073709551616 -> u64 z = z.
Proof. apply Z.mod_small. Qed.
Lemma s32_small z : -2147483648 <= z < 2147483648 -> s32 z = z.
Proof. intros. unfold s32. rewrite Z.mod_small; lia. Qed.

Lemma testbit_small a n i : 0 <= a < 2 ^ n -> 0 <= n <= i -> Z.testbit a i = false.
Proof. intros Ha Hn. rewrite <- (Z.mod_small a (2 ^ n)) by lia. apply Z.mod_pow2_bits_high; lia. Qed.

Lemma land_shiftl_small a b n :
  0 <= n -> 0 <= a < 2 ^ n -> Z.land a (Z.shiftl b n) = 0.
Proof.
  intros Hn Ha. apply Z.bits_inj'. intros i Hi. rewrite Z.land_spec, Z.bits_0.
  destruct (Z.lt_ge_cases i n).
  - rewrite Z.shiftl_spec_low by lia. apply andb_false_r.
  - rewrite (testbit_small a n i) by lia. done.
Qed.

(** Or-ing a shifted field above a field that fits is addition. *)
Lemma lor_shiftl_add a b n :
  0 <= n -> 0 <= a < 2 ^ n -> Z.lor a (Z.shiftl b n) = a + b * 2 ^ n.
Proof.
  intros Hn Ha. rewrite <- Z.shiftl_mul_pow2 by lia.
  pose proof (land_shiftl_small a b n Hn Ha) as H0.
  rewrite Z.add_nocarry_lxor by done. by rewrite Z.lxor_lor.
Qed.

(** ** Buffer lemmas *)

Create Rewrite HintDb blen.

Lemma blen_nonneg l : 0 <= blen l.
Proof. unfold blen; lia. Qed.
Lemma blen_nil : blen [] = 0.
Proof. done. Qed.
Lemma blen_cons x l : blen (x :: l) = 1 + blen l.
Proof. unfold blen; cbn [length]; lia. Qed.
Lemma blen_app l1 l2 : blen (l1 ++ l2) = blen l1 + blen l2.
Proof. unfold blen; rewrite length_app; lia. Qed.
Lemma blen_bzero n : 0 <= n -> blen (bzero n) = n.
Proof. intros; unfold blen, bzero; rewrite length_replicate; lia. Qed.
Lemma blen_bsub l off n :
  0 <= off -> 0 <= n -> off + n <= blen l -> blen (bsub l off n) = n.
Proof. unfold blen, bsub; intros; rewrite length_take, length_drop; lia. Qed.
Lemma blen_bfrom l off : 0 <= off <= blen l -> blen (bfrom l off) = blen l - off.
Proof. unfold blen, bfrom; intros; rewrite length_drop; lia. Qed.
Lemma blen_bput l off src :
  0 <= off -> off + blen src <= blen l -> blen (bput l off src) = blen l.
Proof.
  unfold blen, bput; intros. rewrite !length_app, length_take, length_drop. lia.
Qed.
#[export] Hint Rewrite blen_nil blen_cons blen_app : blen.
#[export] Hint Rewrite blen_bzero blen_bsub blen_bfrom blen_bput
  using (autorewrite with blen; lia) : blen.

(** [blia]: arithmetic goals that mention buffer lengths. *)
Ltac blia := autorewrite with blen in *; lia.

(** [kill_eqb]: the integer tests of the goal that cannot hold. *)
Ltac kill_eqb :=
  repeat match goal with
  | |- context [?a =? ?b] => destruct (Z.eqb_spec a b); [exfalso; lia|]
  end.

(** [bdec]: case analysis on every comparison of the goal. *)
Ltac bdec :=
  repeat match goal with
  | |- context [?a <=? ?b] => destruct (Z.leb_spec a b)
  | |- context [?a <? ?b] => destruct (Z.ltb_spec a b)
  | |- context [?a =? ?b] => destruct (Z.eqb_spec a b)
  end; cbn [andb orb negb]; try (exfalso; lia).

Lemma bsub_app_l l1 l2 off n :
  0 <= off -> 0 <= n -> off + n <= blen l1 -> bsub (l1 ++ l2) off n = bsub l1 off n.
Proof.
  unfold bsub, blen; intros. rewrite drop_app_le by lia.
  apply take_app_le. rewrite length_drop; lia.
Qed.
Lemma bsub_app_r l1 l2 off n :
  blen l1 <= off -> bsub (l1 ++ l2) off n = bsub l2 (off - blen l1) n.
Proof.
  unfold bsub, blen; intros. rewrite drop_app_ge by lia. do 2 f_equal. lia.
Qed.
Lemma bsub_all l n : n = blen l -> bsub l 0 n = l.
Proof. unfold bsub, blen; intros ->. cbn [Z.to_nat drop]. apply take_ge. lia. Qed.
Lemma bsub_app_exact l1 l2 off n :
  off = blen l1 -> n = blen l2 -> bsub (l1 ++ l2) off n = l2.
Proof.
  intros -> ->. rewrite bsub_app_r by lia. rewrite Z.sub_diag. by apply bsub_all.
Qed.
Lemma bsub_bsub l o1 n1 o2 n2 :
  0 <= o1 -> 0 <= o2 -> 0 <= n2 -> o2 + n2 <= n1 ->
  bsub (bsub l o1 n1) o2 n2 = bsub l (o1 + o2) n2.
Proof.
  intros. unfold bsub. rewrite skipn_firstn_comm, firstn_firstn, skipn_skipn. f_equal; [lia|]. f_equal. lia.
Qed.
Lemma bsub_app_split l1 l2 n :
  blen l1 <= n -> bsub (l1 ++ l2) 0 n = l1 ++ bsub l2 0 (n - blen l1).
Proof.
  unfold bsub, blen; intros. cbn [Z.to_nat]. rewrite !drop_0, take_app_ge by lia. do 2 f_equal. lia.
Qed.
Lemma bfrom_app l1 l2 off : off = blen l1 -> bfrom (l1 ++ l2) off = l2.
Proof. unfold bfrom, blen; intros ->. rewrite Nat2Z.id. apply drop_app_length. Qed.
Lemma bfrom_0 l : bfrom l 0 = l.
Proof. done. Qed.
Lemma bfrom_bfrom l a b : 0 <= a -> 0 <= b -> bfrom (bfrom l a) b = bfrom l (a + b).
Proof. intros; unfold bfrom. rewrite drop_drop. f_equal. lia. Qed.
Lemma bfrom_split l off n :
  0 <= off -> 0 <= n -> bfrom l off = bsub l off n ++ bfrom l (off + n).
Proof.
  intros. unfold bfrom, bsub. rewrite <- (take_drop (Z.to_nat n) (drop (Z.to_nat off) l)) at 1.
  f_equal. rewrite drop_drop. f_equal. lia.
Qed.

Lemma bget_app_mid pre x l : bget (pre ++ x :: l) (blen pre) = x.
Proof. unfold bget, blen. by rewrite Nat2Z.id, app_nth2, Nat.sub_diag by lia. Qed.

Lemma bput_split l off src :
  0 <= off -> off + blen src <= blen l ->
  bput l off src = bsub l 0 off ++ src ++ bfrom l (off + blen src).
Proof.
  intros. unfold bput, bsub, bfrom, blen. rewrite drop_0. do 2 f_equal. f_equal. lia.
Qed.
Lemma bsub_bput_eq l off src n :
  0 <= off -> off + blen src <= blen l -> n = blen src ->
  bsub (bput l off src) off n = src.
Proof.
  intros ? ? ->. rewrite bput_split by done.
  pose proof (blen_nonneg src).
  rewrite bsub_app_r by blia. rewrite blen_bsub, Z.sub_diag by lia.
  rewrite bsub_app_l by lia. by apply bsub_all.
Qed.
Lemma bsub_bput_before l off src o n :
  0 <= o -> 0 <= n -> o + n <= off -> off + blen src <= blen l ->
  bsub (bput l off src) o n = bsub l o n.
Proof.
  intros. pose proof (blen_nonneg src). rewrite bput_split by lia.
  rewrite bsub_app_l by blia. rewrite bsub_bsub by lia. f_equal; lia.
Qed.
Lemma bsub_bput_after l off src o n :
  0 <= off -> off + blen src <= o -> off + blen src <= blen l -> 0 <= n ->
  bsub (bput l off src) o n = bsub l o n.
Proof.
  intros. pose proof (blen_nonneg src). rewrite bput_split by lia.
  rewrite bsub_app_r by blia. rewrite blen_bsub by lia. rewrite bsub_app_r by lia.
  unfold bfrom, bsub. rewrite drop_drop. do 2 f_equal. lia.
Qed.

Lemma lor_high_low a b n : 0 <= n -> 0 <= b < 2 ^ n -> Z.lor (a * 2 ^ n) b = a * 2 ^ n + b.
Proof.
  intros. rewrite <- Z.shiftl_mul_pow2, Z.lor_comm, lor_shiftl_add, Z.shiftl_mul_pow2 by lia. lia.
Qed.
Definition bytes_okb (l : list Z) : bool := forallb (fun b => (0 <=? b) && (b <? 256)) l.
Lemma bytes_okb_ok l : bytes_okb l = true -> bytes_ok l.
Proof.
  intros H. apply Forall_forall. intros b Hb. unfold bytes_okb in H. rewrite forallb_forall in H.
  apply list_elem_of_In in Hb. apply H in Hb. unfold is_byte. lia.
Qed.
Lemma bytes_ok_app l1 l2 : bytes_ok (l1 ++ l2) <-> bytes_ok l1 /\ bytes_ok l2.
Proof. apply Forall_app. Qed.
Lemma bytes_ok_bget l i : bytes_ok l -> is_byte (bget l i).
Proof.
  intros Hl. unfold bget. destruct (nth_in_or_default (Z.to_nat i) l 0) as [Hin | ->]; [|split; lia].
  by apply (proj1 (List.Forall_forall _ _) Hl).
Qed.
Lemma bytes_ok_bsub l off n : bytes_ok l -> bytes_ok (bsub l off n).
Proof. intros. by apply Forall_take, Forall_drop. Qed.
Lemma bytes_ok_bfrom l off : bytes_ok l -> bytes_ok (bfrom l off).
Proof. intros. by apply Forall_drop. Qed.
Lemma bytes_ok_bput l off src : bytes_ok l -> bytes_ok src -> bytes_ok (bput l off src).
Proof. intros. unfold bput. rewrite !bytes_ok_app. split; [|split]; [by apply Forall_take|done|by apply Forall_drop]. Qed.
Lemma bytes_ok_bzero n : bytes_ok (bzero n).
Proof. apply Forall_replicate. split; lia. Qed.

Create HintDb bytes.
#[export] Hint Resolve bytes_ok_bget bytes_ok_bsub bytes_ok_bfrom bytes_ok_bput bytes_ok_bzero
  u8_range : bytes.

(** ** The capacity-doubling loop *)

Lemma grow_cap_spec wrap w f cap want :
  (forall z, 0 <= z < 2 ^ w -> wrap z = z) -> 0 < w ->
  0 < cap -> want <= 2 ^ (w - 1) -> want <= cap * 2 ^ Z.of_nat f ->
  want <= grow_cap wrap f cap want
  /\ (cap < want -> grow_cap wrap f cap want < 2 * want)
  /\ (want <= cap -> grow_cap wrap f cap want = cap).
Proof.
  intros Hw Hpos. revert cap. induction f as [|f IH]; intros cap Hc Hwant Hf.
  { change (2 ^ Z.of_nat 0) with 1 in Hf. cbn [grow_cap]. repeat split; lia. }
  cbn [grow_cap]. destruct (Z.ltb_spec cap want); [|repeat split; lia].
  assert (2 ^ w = 2 * 2 ^ (w - 1)) by (rewrite <- Z.pow_succ_r by lia; f_equal; lia).
  rewrite Hw by lia.
  rewrite Nat2Z.inj_succ, Z.pow_succ_r in Hf by lia.
  destruct (IH (cap * 2)) as (H1 & H2 & H3); [lia|lia|lia|].
  repeat split; [done| |lia].
  intros _. destruct (Z.lt_ge_cases (cap * 2) want); [auto|]. rewrite H3 by done. lia.
Qed.
Arguments grow_cap : simpl never.

(** ** Lexicographic order *)

Lemma lex_cmp_refl a : lex_cmp a a = 0.
Proof. induction a as [|x a IH]; [done|]. simpl. by rewrite Z.ltb_irrefl. Qed.
Lemma lex_cmp_eq a b : lex_cmp a b = 0 -> a = b.
Proof.
  revert b. induction a as [|x a IH]; intros [|y b]; simpl; try done.
  destruct (Z.ltb_spec x y); [done|]. destruct (Z.ltb_spec y x); [done|].
  intros E. f_equal; [lia|auto].
Qed.
Lemma lex_cmp_antisym a b : lex_cmp b a = - lex_cmp a b.
Proof.
  revert b. induction a as [|x a IH]; intros [|y b]; simpl; try done.
  destruct (Z.ltb_spec x y), (Z.ltb_spec y x); first [lia | apply IH].
Qed.
Lemma lex_cmp_sign a b : lex_cmp a b = -1 \/ lex_cmp a b = 0 \/ lex_cmp a b = 1.
Proof.
  revert b. induction a as [|x a IH]; intros [|y b]; simpl; auto.
  destruct (x <? y); [auto|]. destruct (y <? x); auto.
Qed.
Lemma lex_cmp_trans a b c : lex_cmp a b <= 0 -> lex_cmp b c <= 0 -> lex_cmp a c <= 0.
Proof.
  revert b c. induction a as [|x a IH]; intros [|y b] [|z c]; simpl; try lia.
  destruct (Z.ltb_spec x y), (Z.ltb_spec y z), (Z.ltb_spec y x), (Z.ltb_spec z y),
    (Z.ltb_spec x z), (Z.ltb_spec z x); try lia. apply IH.
Qed.

(** Comparing the common prefix and then the lengths is lexicographic
    comparison. *)
Lemma memcmp_lex a b :
  lex_cmp a b =
  let c := memcmp a b (Nat.min (length a) (length b)) in
  if negb (c =? 0) then (if c <? 0 then -1 else 1)
  else if blen a =? blen b then 0 else if blen a <? blen b then -1 else 1.
Proof.
  revert b. induction a as [|x a IH]; intros [|y b]; cbn [lex_cmp memcmp length Nat.min].
  - done.
  - done.
  - done.
  - destruct (x <? y); [done|]. destruct (y <? x); [done|]. rewrite IH, !blen_cons. cbv zeta.
    destruct (memcmp a b _ =? 0); [|done]. cbn [negb].
    destruct (Z.eqb_spec (blen a) (blen b)), (Z.eqb_spec (1 + blen a) (1 + blen b)); try lia.
    destruct (Z.ltb_spec (blen a) (blen b)), (Z.ltb_spec (1 + blen a) (1 + blen b)); lia.
Qed.
Lemma memcmp_exact a b : length a = length b -> memcmp a b (length a) = lex_cmp a b.
Proof.
  revert b. induction a as [|x a IH]; intros [|y b]; simpl; try done. intros H.
  destruct (x <? y); [done|]. destruct (y <? x); [done|]. apply IH. lia.
Qed.

(** ** Lists by index *)

Lemma nth_insert {A} (l : list A) i j x d :
  (i < length l)%nat -> nth j (<[i := x]> l) d = if decide (i = j) then x else nth j l d.
Proof.
  intros Hi. rewrite !nth_lookup. destruct (decide (i = j)) as [->|Hne].
  - by rewrite list_lookup_insert_eq.
  - by rewrite list_lookup_insert_ne.
Qed.
