(* ===== verification/Util.v ===== *)
(** * Low-level encodings (src/src/common/tdb_util.c)

    LEB128-style varints, big-endian fixed-width integers, CRC32C and
    FNV-1a, translated function by function.  The first part holds the
    definitions, the second the codec lemmas the storage layers use and the
    properties of the component. *)
From S2P Require Import Prelude.
From Stdlib Require Import Zbitwise.

(** ** Varints *)

(** [tdb_varint_len]: the loop runs at most nine times on a 64-bit value, so
    a fuel of ten iterations is never exhausted (see [varint_len_loop_eq]). *)
Fixpoint varint_len_loop (fuel : nat) (v n : Z) : Z :=
  match fuel with
  | O => n
  | S f => if 128 <=? v then varint_len_loop f (Z.shiftr v 7) (n + 1) else n
  end.
Definition tdb_varint_len (v : Z) : Z := varint_len_loop 10 v 1.

(** [tdb_put_varint]: the bytes written at [p]; the C function returns their
    number. *)
Fixpoint put_varint_loop (fuel : nat) (v : Z) : list Z :=
  match fuel with
  | O => [u8 v]
  | S f => if 128 <=? v
           then u8 (Z.lor v 128) :: put_varint_loop f (Z.shiftr v 7)
           else [u8 v]
  end.
Definition tdb_put_varint (v : Z) : list Z := put_varint_loop 10 v.

(** [tdb_get_varint p avail]: [Some (n, v)] when the C function returns [n]
    and stores [v]; [None] when it returns 0 (truncated or malformed).  The
    fuel is the code's own bound [i < 10]. *)
Fixpoint get_varint_loop (fuel : nat) (p : list Z) (avail i shift result : Z)
  : option (Z * Z) :=
  match fuel with
  | O => None
  | S f =>
      if i <? avail then
        let b := bget p i in
        let result := Z.lor result (u64 (Z.shiftl (Z.land b 127) shift)) in
        if Z.land b 128 =? 0 then Some (i + 1, result)
        else get_varint_loop f p avail (i + 1) (shift + 7) result
      else None
  end.
Definition tdb_get_varint (p : list Z) (avail : Z) : option (Z * Z) :=
  get_varint_loop 10 p avail 0 0 0.

(** ** Big-endian integers *)

Definition tdb_put_u16 (v : Z) : list Z := [u8 (Z.shiftr v 8); u8 v].
Definition tdb_put_u32 (v : Z) : list Z :=
  [u8 (Z.shiftr v 24); u8 (Z.shiftr v 16); u8 (Z.shiftr v 8); u8 v].
Definition tdb_put_u64 (v : Z) : list Z :=
  tdb_put_u32 (u32 (Z.shiftr v 32)) ++ tdb_put_u32 (u32 v).

Definition tdb_get_u16 (p : list Z) : Z :=
  u16 (Z.lor (Z.shiftl (bget p 0) 8) (bget p 1)).
Definition tdb_get_u32 (p : list Z) : Z :=
  Z.lor (Z.lor (Z.lor (u32 (Z.shiftl (bget p 0) 24)) (u32 (Z.shiftl (bget p 1) 16)))
               (u32 (Z.shiftl (bget p 2) 8))) (bget p 3).
Definition tdb_get_u64 (p : list Z) : Z :=
  Z.lor (u64 (Z.shiftl (tdb_get_u32 p) 32)) (tdb_get_u32 (drop 4 p)).

(** ** CRC32C *)

Definition crc32c_poly : Z := 0x82F63B78.

(** One iteration of the inner loop of [tdb_crc32c_init]. *)
Definition crc32c_bitstep (crc : Z) : Z :=
  if Z.land crc 1 =? 0 then Z.shiftr crc 1
  else Z.lxor (Z.shiftr crc 1) crc32c_poly.

(** [tdb_crc32c_init]: the 256-entry table. *)
Definition tdb_crc32c_init : list Z :=
  map (fun i => Nat.iter 8 crc32c_bitstep i) (seqZ 0 256).
Definition tdb__crc32c_table : list Z := Eval vm_compute in tdb_crc32c_init.

Definition crc32c_step (crc b : Z) : Z :=
  Z.lxor (bget tdb__crc32c_table (Z.land (Z.lxor crc b) 255)) (Z.shiftr crc 8).
Definition not32 (z : Z) : Z := u32 (Z.lnot z).
Definition tdb_crc32c (seed : Z) (data : list Z) : Z :=
  not32 (foldl crc32c_step (not32 seed) data).

(** The bitwise definition of CRC32C the table is an optimisation of. *)
Definition crc32c_ref_step (crc b : Z) : Z :=
  Nat.iter 8 crc32c_bitstep (Z.lxor crc b).
Definition crc32c_ref (seed : Z) (data : list Z) : Z :=
  not32 (foldl crc32c_ref_step (not32 seed) data).

(** ** FNV-1a *)

Definition fnv1a_step (h b : Z) : Z := u64 (Z.lxor h b * 1099511628211).
Definition tdb_fnv1a (data : list Z) : Z :=
  foldl fnv1a_step 1469598103934665603 data.

(** ** Varint lemmas *)

Lemma land_127 b : Z.land b 127 = b mod 128.
Proof. apply (Z.land_ones b 7); lia. Qed.
Lemma land_255 b : Z.land b 255 = u8 b.
Proof. apply (Z.land_ones b 8); lia. Qed.

Lemma u8_lor_128 v : u8 (Z.lor v 128) = v mod 128 + 128.
Proof.
  replace (v mod 128 + 128) with (Z.lor (v mod 2 ^ 7) (Z.shiftl 1 7))
    by (rewrite lor_shiftl_add; [done|lia|apply Z.mod_pos_bound; lia]).
  change 128 with (Z.shiftl 1 7). unfold u8. change 256 with (2 ^ 8).
  apply Z.bits_inj'. intros i Hi. destruct (Z.lt_ge_cases i 8).
  - rewrite Z.mod_pow2_bits_low, !Z.lor_spec by lia.
    destruct (Z.lt_ge_cases i 7); [by rewrite Z.mod_pow2_bits_low by lia|].
    replace i with 7 by lia. rewrite Z.shiftl_spec by lia. by rewrite !orb_true_r.
  - rewrite Z.mod_pow2_bits_high, Z.lor_spec, Z.mod_pow2_bits_high by lia.
    change (Z.shiftl 1 7) with 128. by rewrite (testbit_small 128 8) by lia.
Qed.

Lemma more_bit x : 0 <= x < 128 -> (Z.land (x + 128) 128 =? 0) = false.
Proof.
  intros. replace (x + 128) with (Z.lor x (Z.shiftl 1 7)) by (rewrite lor_shiftl_add; lia).
  change 128 with (Z.shiftl 1 7). rewrite Z.land_lor_distr_l, land_shiftl_small by lia. done.
Qed.
Lemma last_bit x : 0 <= x < 128 -> (Z.land x 128 =? 0) = true.
Proof. intros. change 128 with (Z.shiftl 1 7). by rewrite land_shiftl_small by lia. Qed.

(** Unfolding the encoder on a value that needs one more byte. *)
Lemma put_varint_loop_S f v :
  0 <= v -> put_varint_loop (S f) v =
  if 128 <=? v then (v mod 128 + 128) :: put_varint_loop f (v / 128) else [v].
Proof.
  intros Hv. cbn [put_varint_loop]. rewrite u8_lor_128, Z.shiftr_div_pow2 by lia.
  change (2 ^ 7) with 128. destruct (Z.leb_spec 128 v); [done|]. by rewrite u8_small by lia.
Qed.

Lemma div128_range n v :
  0 <= v < 128 ^ Z.of_nat (S n) -> 0 <= v / 128 < 128 ^ Z.of_nat n.
Proof.
  rewrite Nat2Z.inj_succ, Z.pow_succ_r by lia. intros.
  split; [apply Z.div_pos; lia|]. apply Z.div_lt_upper_bound; lia.
Qed.

Lemma put_varint_loop_len f v :
  0 <= v < 128 ^ Z.of_nat (S f) ->
  1 <= blen (put_varint_loop f v) <= Z.of_nat f + 1.
Proof.
  revert v. induction f as [|f IH]; intros v Hv; [simpl in *; blia|].
  rewrite put_varint_loop_S by lia. destruct (Z.leb_spec 128 v); [|blia].
  rewrite blen_cons. specialize (IH _ (div128_range _ _ Hv)). lia.
Qed.

Lemma varint_len_loop_eq f v n :
  0 <= v < 128 ^ Z.of_nat (S f) ->
  varint_len_loop f v n = n - 1 + blen (put_varint_loop f v).
Proof.
  revert v n. induction f as [|f IH]; intros v n Hv; [simpl; blia|].
  rewrite put_varint_loop_S by lia. cbn [varint_len_loop].
  rewrite Z.shiftr_div_pow2 by lia. change (2 ^ 7) with 128.
  destruct (Z.leb_spec 128 v); [|blia]. rewrite IH; [blia|].
  by apply div128_range.
Qed.

(** Decoding the encoder's output from position [blen pre], with [result] and
    [shift] as the decoder's accumulator. *)
Lemma get_put_varint_loop f v pre rest avail shift result :
  (0 < f)%nat -> 0 <= v < 128 ^ Z.of_nat f -> v * 2 ^ shift < 2 ^ 64 ->
  0 <= shift -> 0 <= result < 2 ^ shift ->
  blen pre + blen (put_varint_loop f v) <= avail ->
  get_varint_loop f (pre ++ put_varint_loop f v ++ rest) avail (blen pre) shift result
  = Some (blen pre + blen (put_varint_loop f v), result + v * 2 ^ shift).
Proof.
  revert v pre shift result. induction f as [|f IH]; intros v pre shift result Hf Hv Hov Hs Hr Hav; [lia|].
  assert (0 < 2 ^ shift) by (apply Z.pow_pos_nonneg; lia).
  pose proof (blen_nonneg pre). rewrite put_varint_loop_S in * by lia.
  cbn [get_varint_loop].
  destruct (Z.leb_spec 128 v).
  - assert (blen pre < avail) as -> %Z.ltb_lt by (pose proof (blen_nonneg (put_varint_loop f (v / 128))); blia).
    cbn [app]. rewrite bget_app_mid.
    assert (0 <= v mod 128 < 128) by (apply Z.mod_pos_bound; lia).
    rewrite more_bit, land_127 by lia.
    replace ((v mod 128 + 128) mod 128) with (v mod 128)
      by (replace (v mod 128 + 128) with (v mod 128 + 1 * 128) by lia; rewrite Z.mod_add, Z.mod_mod; lia).
    assert (v = 128 * (v / 128) + v mod 128) by (apply Z.div_mod; lia).
    assert (0 <= v / 128) by (apply Z.div_pos; lia).
    rewrite u64_small.
    2: { rewrite Z.shiftl_mul_pow2 by lia. nia. }
    rewrite lor_shiftl_add by lia.
    replace (pre ++ (v mod 128 + 128) :: put_varint_loop f (v / 128) ++ rest)
      with ((pre ++ [v mod 128 + 128]) ++ put_varint_loop f (v / 128) ++ rest)
      by (by rewrite <- app_assoc).
    replace (blen pre + 1) with (blen (pre ++ [v mod 128 + 128])) by blia.
    assert (2 ^ (shift + 7) = 128 * 2 ^ shift) as Hp by (rewrite Z.pow_add_r; lia).
    rewrite IH; [| | |nia|lia|nia|blia].
    + f_equal. f_equal; [blia|]. rewrite Hp. nia.
    + destruct f; [simpl in Hv|]; lia.
    + by apply div128_range.
  - assert (blen pre < avail) as ->%Z.ltb_lt by blia.
    cbn [app]. rewrite bget_app_mid.
    rewrite last_bit, land_127, Z.mod_small by lia.
    rewrite u64_small by (rewrite Z.shiftl_mul_pow2 by lia; nia).
    rewrite lor_shiftl_add by lia. f_equal.
Qed.

(** ** Big-endian lemmas *)

Lemma get_u16_bytes a b rest :
  is_byte a -> is_byte b -> tdb_get_u16 (a :: b :: rest) = a * 256 + b.
Proof.
  unfold is_byte; intros. unfold tdb_get_u16. change (bget _ 0) with a. change (bget _ 1) with b.
  rewrite Z.shiftl_mul_pow2, lor_high_low by lia. apply u16_small. lia.
Qed.
Lemma get_u32_bytes a b c d rest :
  is_byte a -> is_byte b -> is_byte c -> is_byte d ->
  tdb_get_u32 (a :: b :: c :: d :: rest) = a * 2 ^ 24 + b * 2 ^ 16 + c * 2 ^ 8 + d.
Proof.
  unfold is_byte; intros. unfold tdb_get_u32. change (bget _ 0) with a. change (bget _ 1) with b.
  change (bget _ 2) with c. change (bget _ 3) with d.
  rewrite !Z.shiftl_mul_pow2, !u32_small by lia.
  rewrite (lor_high_low a) by lia.
  replace (a * 2 ^ 24 + b * 2 ^ 16) with ((a * 2 ^ 8 + b) * 2 ^ 16) by lia.
  rewrite lor_high_low by lia.
  replace ((a * 2 ^ 8 + b) * 2 ^ 16 + c * 2 ^ 8) with (((a * 2 ^ 8 + b) * 2 ^ 8 + c) * 2 ^ 8) by lia.
  rewrite lor_high_low by lia. lia.
Qed.

Ltac div_lia := Z.div_mod_to_equations; lia.

Lemma get_put_u16 v rest : tdb_get_u16 (tdb_put_u16 v ++ rest) = u16 v.
Proof.
  unfold tdb_put_u16. cbn [app]. rewrite get_u16_bytes by apply u8_range.
  unfold_casts. rewrite Z.shiftr_div_pow2 by lia. change (2 ^ 8) with 256. div_lia.
Qed.
Lemma get_put_u32 v rest : tdb_get_u32 (tdb_put_u32 v ++ rest) = u32 v.
Proof.
  unfold tdb_put_u32. cbn [app]. rewrite get_u32_bytes by apply u8_range.
  unfold_casts. rewrite !Z.shiftr_div_pow2 by lia.
  change (2 ^ 8) with 256. change (2 ^ 16) with 65536. change (2 ^ 24) with 16777216. div_lia.
Qed.
Lemma length_put_u32 v : length (tdb_put_u32 v) = 4%nat.
Proof. done. Qed.
Lemma get_put_u64 v rest : tdb_get_u64 (tdb_put_u64 v ++ rest) = u64 v.
Proof.
  unfold tdb_put_u64, tdb_get_u64. rewrite <- app_assoc, get_put_u32.
  change (drop 4 (tdb_put_u32 (u32 (Z.shiftr v 32)) ++ tdb_put_u32 (u32 v) ++ rest))
    with (tdb_put_u32 (u32 v) ++ rest).
  rewrite get_put_u32. pose proof (u32_range v). pose proof (u32_range (u32 (Z.shiftr v 32))).
  rewrite Z.shiftl_mul_pow2, u64_small, lor_high_low by (rewrite ?(u32_small (u32 v)); lia).
  unfold_casts. rewrite Z.shiftr_div_pow2 by lia. change (2 ^ 32) with 4294967296. div_lia.
Qed.

(** ** CRC32C lemmas *)

Lemma crc32c_bitstep_alt c :
  crc32c_bitstep c = Z.lxor (Z.shiftr c 1) (if Z.odd c then crc32c_poly else 0).
Proof.
  unfold crc32c_bitstep. change 1 with (Z.ones 1) at 1. rewrite Z.land_ones by lia.
  change (2 ^ 1) with 2. rewrite Zmod_odd. destruct (Z.odd c); [done|]. by rewrite Z.lxor_0_r.
Qed.

Lemma crc32c_bitstep_lxor a b :
  crc32c_bitstep (Z.lxor a b) = Z.lxor (crc32c_bitstep a) (crc32c_bitstep b).
Proof.
  rewrite !crc32c_bitstep_alt, Z.shiftr_lxor.
  rewrite <- !Z.bit0_odd, Z.lxor_spec. apply Z.bits_inj'. intros i _.
  destruct (Z.testbit a 0), (Z.testbit b 0); cbn [xorb]; rewrite !Z.lxor_spec, ?Z.bits_0;
    destruct (Z.testbit (Z.shiftr a 1) i), (Z.testbit (Z.shiftr b 1) i), (Z.testbit crc32c_poly i); done.
Qed.

Lemma crc32c_iter_lxor n a b :
  Nat.iter n crc32c_bitstep (Z.lxor a b) =
  Z.lxor (Nat.iter n crc32c_bitstep a) (Nat.iter n crc32c_bitstep b).
Proof. induction n as [|n IH]; [done|]. simpl. by rewrite IH, crc32c_bitstep_lxor. Qed.

Lemma crc32c_iter_shiftl n x :
  Nat.iter n crc32c_bitstep (Z.shiftl x (Z.of_nat n)) = x.
Proof.
  revert x. induction n as [|n IH]; intros x; [apply Z.shiftl_0_r|].
  rewrite Nat.iter_succ_r, crc32c_bitstep_alt, Z.shiftr_shiftl_l by lia.
  rewrite <- Z.bit0_odd, Z.shiftl_spec_low, Z.lxor_0_r by lia.
  replace (Z.of_nat (S n) - 1) with (Z.of_nat n) by lia. apply IH.
Qed.

Lemma lt_pow2_of_bits n z :
  0 <= n -> (forall i, n <= i -> Z.testbit z i = false) -> 0 <= z < 2 ^ n.
Proof.
  intros Hn Hz. replace z with (z mod 2 ^ n); [apply Z.mod_pos_bound; lia|].
  apply Z.bits_inj'. intros i Hi. destruct (Z.lt_ge_cases i n).
  - by apply Z.mod_pow2_bits_low.
  - rewrite Z.mod_pow2_bits_high by lia. symmetry. apply Hz. lia.
Qed.
Lemma lxor_range n a b : 0 <= n -> 0 <= a < 2 ^ n -> 0 <= b < 2 ^ n -> 0 <= Z.lxor a b < 2 ^ n.
Proof.
  intros Hn Ha Hb. apply lt_pow2_of_bits; [done|]. intros i Hi.
  by rewrite Z.lxor_spec, !(testbit_small _ n i) by lia.
Qed.
Lemma lor_range n a b : 0 <= n -> 0 <= a < 2 ^ n -> 0 <= b < 2 ^ n -> 0 <= Z.lor a b < 2 ^ n.
Proof.
  intros Hn Ha Hb. apply lt_pow2_of_bits; [done|]. intros i Hi.
  by rewrite Z.lor_spec, !(testbit_small _ n i) by lia.
Qed.
Lemma bget_bfrom d off i : 0 <= off -> 0 <= i -> bget (bfrom d off) i = bget d (off + i).
Proof. intros. unfold bget, bfrom. rewrite nth_skipn. f_equal. lia. Qed.
Lemma bget_bput_in d off src i :
  0 <= off -> off + blen src <= blen d -> off <= i < off + blen src -> bget (bput d off src) i = bget src (i - off).
Proof.
  intros H1 H2 H3. unfold bget, bput, blen in *. rewrite app_nth2 by (rewrite length_take; lia).
  rewrite length_take, app_nth1 by lia. f_equal. lia.
Qed.
Lemma bget_bput_out d off src i :
  0 <= off -> off + blen src <= blen d -> 0 <= i -> i < off \/ off + blen src <= i -> bget (bput d off src) i = bget d i.
Proof.
  intros H1 H2 H3 Hi. unfold bget, bput, blen in *. destruct (Z.lt_ge_cases i off) as [Hlt|Hge].
  - rewrite app_nth1 by (rewrite length_take; lia). rewrite nth_firstn. destruct (Nat.ltb_spec (Z.to_nat i) (Z.to_nat off)); [done|lia].
  - rewrite app_nth2 by (rewrite length_take; lia). rewrite length_take, app_nth2 by lia. rewrite nth_skipn. f_equal. lia.
Qed.

(** Big-endian fields of a buffer after a [memcpy] into it. *)
Lemma bfrom_bput_same d off src :
  0 <= off -> off + blen src <= blen d -> bfrom (bput d off src) off = src ++ bfrom d (off + blen src).
Proof.
  intros. rewrite bput_split by done. rewrite bfrom_app; [done|]. symmetry. apply blen_bsub; [lia..|]. pose proof (blen_nonneg src). lia.
Qed.
Lemma get_u32_put d off v :
  0 <= off -> off + 4 <= blen d -> 0 <= v < 2 ^ 32 -> tdb_get_u32 (bfrom (bput d off (tdb_put_u32 v)) off) = v.
Proof. intros. rewrite bfrom_bput_same by done. rewrite get_put_u32, u32_small; lia. Qed.
Lemma get_u16_put d off v :
  0 <= off -> off + 2 <= blen d -> 0 <= v < 2 ^ 16 -> tdb_get_u16 (bfrom (bput d off (tdb_put_u16 v)) off) = v.
Proof. intros. rewrite bfrom_bput_same by done. rewrite get_put_u16, u16_small; lia. Qed.
Lemma get_u32_out d off src o :
  0 <= off -> off + blen src <= blen d -> 0 <= o -> o + 4 <= off \/ off + blen src <= o ->
  tdb_get_u32 (bfrom (bput d off src) o) = tdb_get_u32 (bfrom d o).
Proof. intros. unfold tdb_get_u32. rewrite !bget_bfrom, !bget_bput_out by lia. done. Qed.
Lemma get_u16_out d off src o :
  0 <= off -> off + blen src <= blen d -> 0 <= o -> o + 2 <= off \/ off + blen src <= o ->
  tdb_get_u16 (bfrom (bput d off src) o) = tdb_get_u16 (bfrom d o).
Proof. intros. unfold tdb_get_u16. rewrite !bget_bfrom, !bget_bput_out by lia. done. Qed.
Lemma get_u16_range p : 0 <= tdb_get_u16 p < 65536.
Proof. apply u16_range. Qed.
Lemma get_u32_range p : bytes_ok p -> 0 <= tdb_get_u32 p < 2 ^ 32.
Proof.
  intros Hp. pose proof (bytes_ok_bget p 3 Hp) as H3. unfold is_byte in H3. unfold tdb_get_u32.
  repeat apply lor_range; try lia; apply u32_range.
Qed.
Lemma shiftr_range n k a : 0 <= n -> 0 <= k -> 0 <= a < 2 ^ (n + k) -> 0 <= Z.shiftr a k < 2 ^ n.
Proof.
  intros Hn Hk Ha. rewrite Z.shiftr_div_pow2 by lia. rewrite Z.pow_add_r in Ha by lia.
  assert (0 < 2 ^ k) by (apply Z.pow_pos_nonneg; lia).
  split; [apply Z.div_pos; lia|]. apply Z.div_lt_upper_bound; lia.
Qed.

Lemma crc32c_bitstep_range c : 0 <= c < 2 ^ 32 -> 0 <= crc32c_bitstep c < 2 ^ 32.
Proof.
  intros. rewrite crc32c_bitstep_alt. apply lxor_range; [lia| |by destruct (Z.odd c)].
  pose proof (shiftr_range 31 1 c). lia.
Qed.
Lemma crc32c_bitstep_inj a b :
  0 <= a < 2 ^ 32 -> 0 <= b < 2 ^ 32 -> crc32c_bitstep a = crc32c_bitstep b -> a = b.
Proof.
  intros Ha Hb. rewrite !crc32c_bitstep_alt. intros E.
  assert (Z.odd a = Z.odd b) as Ho.
  { apply (f_equal (fun z => Z.testbit z 31)) in E. rewrite !Z.lxor_spec in E.
    rewrite !(testbit_small (Z.shiftr _ _) 31 31) in E by (try apply shiftr_range; lia).
    by destruct (Z.odd a), (Z.odd b). }
  rewrite Ho in E. apply (f_equal (fun z => Z.lxor z (if Z.odd b then crc32c_poly else 0))) in E.
  rewrite !Z.lxor_assoc, !Z.lxor_nilpotent, !Z.lxor_0_r in E.
  rewrite !Z.shiftr_div_pow2 in E by lia. change (2 ^ 1) with 2 in E.
  rewrite (Z.div_mod a 2), (Z.div_mod b 2), !Zmod_odd, Ho, E by lia. done.
Qed.
Lemma crc32c_iter_range n c : 0 <= c < 2 ^ 32 -> 0 <= Nat.iter n crc32c_bitstep c < 2 ^ 32.
Proof. intros. induction n; [done|]. by apply crc32c_bitstep_range. Qed.
Lemma crc32c_iter_inj n a b :
  0 <= a < 2 ^ 32 -> 0 <= b < 2 ^ 32 ->
  Nat.iter n crc32c_bitstep a = Nat.iter n crc32c_bitstep b -> a = b.
Proof.
  intros. induction n as [|n IH]; [done|]. apply IH.
  apply crc32c_bitstep_inj; [by apply crc32c_iter_range..|done].
Qed.

Lemma crc32c_table_lookup i :
  is_byte i -> bget tdb__crc32c_table i = Nat.iter 8 crc32c_bitstep i.
Proof.
  intros Hi. assert (tdb__crc32c_table = tdb_crc32c_init) as -> by (vm_compute; done).
  unfold tdb_crc32c_init, bget.
  rewrite nth_indep with (d' := Nat.iter 8 crc32c_bitstep 0) by (rewrite length_map, length_seqZ; unfold is_byte in Hi; lia).
  rewrite map_nth. f_equal. unfold is_byte in Hi.
  rewrite nth_lookup. by rewrite lookup_seqZ_lt by lia; simpl; lia.
Qed.

(** The table-driven step is eight bitwise steps. *)
Lemma crc32c_step_ref c b :
  0 <= c < 2 ^ 32 -> is_byte b -> crc32c_step c b = crc32c_ref_step c b.
Proof.
  intros Hc Hb. unfold crc32c_step, crc32c_ref_step. set (y := Z.lxor c b).
  rewrite crc32c_table_lookup by (rewrite land_255; apply u8_range).
  assert (Z.shiftr y 8 = Z.shiftr c 8) as <-.
  { unfold y. rewrite Z.shiftr_lxor, (Z.shiftr_div_pow2 b), Z.div_small, Z.lxor_0_r by (unfold is_byte in Hb; lia). done. }
  rewrite <- (crc32c_iter_shiftl 8 (Z.shiftr y 8)), <- crc32c_iter_lxor. f_equal.
  apply Z.bits_inj'. intros i Hi. rewrite Z.lxor_spec, Z.land_spec.
  change 255 with (Z.ones 8). change (Z.of_nat 8) with 8. rewrite Z.testbit_ones_nonneg by lia.
  destruct (Z.ltb_spec i 8).
  - by rewrite Z.shiftl_spec_low, andb_true_r, xorb_false_r by lia.
  - rewrite Z.shiftl_spec, Z.shiftr_spec by lia. rewrite andb_false_r. cbn. f_equal. lia.
Qed.

Lemma crc32c_ref_step_range c b :
  0 <= c < 2 ^ 32 -> is_byte b -> 0 <= crc32c_ref_step c b < 2 ^ 32.
Proof.
  unfold is_byte; intros. apply crc32c_iter_range, lxor_range; lia.
Qed.
Lemma crc32c_fold_ref data c :
  0 <= c < 2 ^ 32 -> bytes_ok data ->
  foldl crc32c_step c data = foldl crc32c_ref_step c data
  /\ 0 <= foldl crc32c_step c data < 2 ^ 32.
Proof.
  intros Hc Hd. revert c Hc. induction Hd as [|b data Hb Hd IH]; intros c Hc; [done|].
  simpl. rewrite crc32c_step_ref by done. apply IH. by apply crc32c_ref_step_range.
Qed.
Lemma crc32c_fold_inj data c1 c2 :
  0 <= c1 < 2 ^ 32 -> 0 <= c2 < 2 ^ 32 -> bytes_ok data ->
  foldl crc32c_ref_step c1 data = foldl crc32c_ref_step c2 data -> c1 = c2.
Proof.
  intros H1 H2 Hd. revert c1 c2 H1 H2. induction Hd as [|b data Hb Hd IH]; intros c1 c2 H1 H2 E; [done|].
  simpl in E. apply IH in E; [|by apply crc32c_ref_step_range..].
  unfold is_byte in Hb. apply crc32c_iter_inj in E; [|apply lxor_range; lia..].
  apply (f_equal (fun z => Z.lxor z b)) in E. by rewrite !Z.lxor_assoc, Z.lxor_nilpotent, !Z.lxor_0_r in E.
Qed.

Lemma not32_eq z : 0 <= z < 2 ^ 32 -> not32 z = 2 ^ 32 - 1 - z.
Proof.
  intros. unfold not32, u32. pose proof (Z.add_lnot_diag z).
  replace (Z.lnot z) with (2 ^ 32 - 1 - z + (-1) * 4294967296) by lia.
  rewrite Z.mod_add by lia. apply Z.mod_small. lia.
Qed.
Lemma not32_range z : 0 <= not32 z < 2 ^ 32.
Proof. apply u32_range. Qed.
Lemma not32_involutive z : 0 <= z < 2 ^ 32 -> not32 (not32 z) = z.
Proof. intros. pose proof (not32_range z). rewrite !not32_eq in * by lia. lia. Qed.
Lemma tdb_crc32c_range seed data : 0 <= tdb_crc32c seed data < 2 ^ 32.
Proof. apply not32_range. Qed.

Lemma crc_one_byte seed pre x y post :
  bytes_ok pre -> bytes_ok post -> is_byte x -> is_byte y -> x <> y ->
  tdb_crc32c seed (pre ++ x :: post) <> tdb_crc32c seed (pre ++ y :: post).
Proof.
  intros Hpre Hpost Hx Hy Hne E. unfold tdb_crc32c in E.
  rewrite !foldl_app in E. cbn [foldl] in E.
  pose proof (crc32c_fold_ref pre (not32 seed) (not32_range _) Hpre) as [_ R].
  set (c := foldl crc32c_step (not32 seed) pre) in *.
  rewrite !crc32c_step_ref in E by done.
  pose proof (crc32c_ref_step_range c x R Hx) as Rx.
  pose proof (crc32c_ref_step_range c y R Hy) as Ry.
  pose proof (crc32c_fold_ref post _ Rx Hpost) as [E1 R1].
  pose proof (crc32c_fold_ref post _ Ry Hpost) as [E2 R2].
  apply (f_equal not32) in E. rewrite !not32_involutive, E1, E2 in E by assumption.
  apply crc32c_fold_inj in E; [|assumption..]. apply crc32c_iter_inj in E.
  - apply (f_equal (Z.lxor c)) in E. by rewrite <- !Z.lxor_assoc, Z.lxor_nilpotent, !Z.lxor_0_l in E.
  - unfold is_byte in Hx. apply lxor_range; lia.
  - unfold is_byte in Hy. apply lxor_range; lia.
Qed.
(** Different seeds give different CRCs of the same bytes. *)
Lemma crc_seed_inj s1 s2 data :
  0 <= s1 < 2 ^ 32 -> 0 <= s2 < 2 ^ 32 -> bytes_ok data ->
  tdb_crc32c s1 data = tdb_crc32c s2 data -> s1 = s2.
Proof.
  intros H1 H2 Hd E. unfold tdb_crc32c in E.
  pose proof (crc32c_fold_ref data (not32 s1) (not32_range _) Hd) as [E1 R1].
  pose proof (crc32c_fold_ref data (not32 s2) (not32_range _) Hd) as [E2 R2].
  apply (f_equal not32) in E. rewrite !not32_involutive, E1, E2 in E by assumption.
  apply crc32c_fold_inj in E; [|apply not32_range..|done].
  apply (f_equal not32) in E. by rewrite !not32_involutive in E.
Qed.

(** ** The codec interface used by the other components *)

Lemma put_varint_loop_fuel f g v :
  0 <= v < 128 ^ Z.of_nat (S f) -> (f <= g)%nat -> put_varint_loop g v = put_varint_loop f v.
Proof.
  revert g v. induction f as [|f IH]; intros g v Hv Hg.
  - destruct g; [done|]. rewrite put_varint_loop_S by lia. change (128 ^ Z.of_nat 1) with 128 in Hv.
    destruct (Z.leb_spec 128 v); [lia|]. simpl. by rewrite u8_small by lia.
  - destruct g as [|g]; [lia|]. rewrite !put_varint_loop_S by lia.
    destruct (Z.leb_spec 128 v); [|done]. f_equal. apply IH; [by apply div128_range|lia].
Qed.
Lemma put_varint_9 v : 0 <= v < 2 ^ 64 -> tdb_put_varint v = put_varint_loop 9 v.
Proof. intros. apply put_varint_loop_fuel; simpl; lia. Qed.
Lemma put_varint_len v : 0 <= v < 2 ^ 64 -> 1 <= blen (tdb_put_varint v) <= 10.
Proof. intros. rewrite put_varint_9 by done. apply (put_varint_loop_len 9). simpl; lia. Qed.
Lemma varint_len_eq v : 0 <= v < 2 ^ 64 -> tdb_varint_len v = blen (tdb_put_varint v).
Proof. intros. unfold tdb_varint_len. rewrite varint_len_loop_eq by (simpl; lia). unfold tdb_put_varint. lia. Qed.

Lemma put_varint_loop_bytes f v : bytes_ok (put_varint_loop f v).
Proof.
  revert v. induction f as [|f IH]; intros v; simpl; [|destruct (128 <=? v)];
    repeat constructor; try apply u8_range. apply IH.
Qed.
Lemma put_varint_bytes v : bytes_ok (tdb_put_varint v).
Proof. apply put_varint_loop_bytes. Qed.

Lemma get_put_varint v rest avail :
  0 <= v < 2 ^ 64 -> blen (tdb_put_varint v) <= avail ->
  tdb_get_varint (tdb_put_varint v ++ rest) avail = Some (blen (tdb_put_varint v), v).
Proof.
  intros Hv Ha. unfold tdb_get_varint, tdb_put_varint in *.
  pose proof (get_put_varint_loop 10 v [] rest avail 0 0) as H. change (blen []) with 0 in H.
  cbn [app] in H. rewrite H; [do 2 f_equal; lia|lia|simpl; lia|lia..].
Qed.

(** What [tdb_get_varint] returns stays inside the bytes it was given. *)
Lemma get_varint_loop_bounds f p avail i shift result n v :
  0 <= i -> 0 <= result < 2 ^ 64 -> bytes_ok p ->
  get_varint_loop f p avail i shift result = Some (n, v) ->
  i < n <= avail /\ n <= i + Z.of_nat f /\ 0 <= v < 2 ^ 64.
Proof.
  revert i shift result. induction f as [|f IH]; intros i shift result Hi Hr Hp E; [done|].
  cbn [get_varint_loop] in E. destruct (Z.ltb_spec i avail); [|done].
  assert (0 <= Z.lor result (u64 (Z.shiftl (Z.land (bget p i) 127) shift)) < 2 ^ 64) as Hb.
  { pose proof (u64_range (Z.shiftl (Z.land (bget p i) 127) shift)).
    apply lt_pow2_of_bits; [lia|]. intros j Hj.
    by rewrite Z.lor_spec, !(testbit_small _ 64 j) by lia. }
  destruct (Z.land (bget p i) 128 =? 0).
  - injection E as <- <-. lia.
  - apply IH in E; [lia|lia|done|done].
Qed.

Lemma get_varint_loop_ext f p q avail i shift result :
  (forall j, i <= j < avail -> bget p j = bget q j) ->
  get_varint_loop f p avail i shift result = get_varint_loop f q avail i shift result.
Proof.
  revert i shift result. induction f as [|f IH]; intros i shift result H; [done|].
  cbn [get_varint_loop]. destruct (Z.ltb_spec i avail); [|done].
  rewrite (H i) by lia. destruct (Z.land (bget q i) 128 =? 0); [done|]. apply IH. intros; apply H; lia.
Qed.

Lemma get_varint_loop_trunc f v pre rest avail shift result :
  0 <= v < 128 ^ Z.of_nat (S f) -> avail < blen pre + blen (put_varint_loop f v) ->
  get_varint_loop f (pre ++ put_varint_loop f v ++ rest) avail (blen pre) shift result = None.
Proof.
  revert v pre shift result. induction f as [|f IH]; intros v pre shift result Hv Hav; [done|].
  rewrite put_varint_loop_S in * by lia. cbn [get_varint_loop].
  destruct (Z.ltb_spec (blen pre) avail); [|done].
  destruct (Z.leb_spec 128 v); [|blia]. cbn [app]. rewrite bget_app_mid.
  rewrite more_bit by (apply Z.mod_pos_bound; lia).
  replace (pre ++ (v mod 128 + 128) :: put_varint_loop f (v / 128) ++ rest)
    with ((pre ++ [v mod 128 + 128]) ++ put_varint_loop f (v / 128) ++ rest) by (by rewrite <- app_assoc).
  replace (blen pre + 1) with (blen (pre ++ [v mod 128 + 128])) by blia.
  apply IH; [by apply div128_range|blia].
Qed.

(** ** Properties *)

(** Varint codec: every 64-bit value encodes into [tdb_varint_len] bytes
    (between one and ten), all in byte range, and decoding that encoding,
    whatever follows it, returns the value and its length. *)
Theorem varint_codec_correct v rest avail :
  0 <= v < 2 ^ 64 -> tdb_varint_len v <= avail ->
  tdb_get_varint (tdb_put_varint v ++ rest) avail = Some (tdb_varint_len v, v)
  /\ blen (tdb_put_varint v) = tdb_varint_len v
  /\ 1 <= tdb_varint_len v <= 10 /\ bytes_ok (tdb_put_varint v).
Proof.
  intros Hv Ha. rewrite varint_len_eq in * by done.
  split; [by apply get_put_varint|]. split; [done|].
  split; [by apply put_varint_len|apply put_varint_bytes].
Qed.
Lemma varint_codec_correct_witness :
  tdb_get_varint (tdb_put_varint 18446744073709551615 ++ [7]) 11
  = Some (tdb_varint_len 18446744073709551615, 18446744073709551615).
Proof. apply (varint_codec_correct 18446744073709551615 [7] 11); vm_compute; intuition congruence. Defined.

(** Varint decoding is total on arbitrary bytes and never leaves its
    window: on success it consumed between one and [min 10 avail] bytes and
    produced a 64-bit value, the answer does not depend on bytes at or beyond
    [avail], and an encoding cut short by any amount is refused. *)
Theorem varint_decode_safe p avail :
  bytes_ok p ->
  (forall n v, tdb_get_varint p avail = Some (n, v) ->
     1 <= n <= avail /\ n <= 10 /\ 0 <= v < 2 ^ 64)
  /\ (forall q, (forall j, 0 <= j < avail -> bget p j = bget q j) ->
     tdb_get_varint q avail = tdb_get_varint p avail)
  /\ (forall v rest, 0 <= v < 2 ^ 64 -> avail < tdb_varint_len v ->
     tdb_get_varint (tdb_put_varint v ++ rest) avail = None).
Proof.
  intros Hp. split; [|split].
  - intros n v E. apply get_varint_loop_bounds in E; [lia|lia|lia|done].
  - intros q Hq. symmetry. by apply get_varint_loop_ext.
  - intros v rest Hv Ha. rewrite varint_len_eq in Ha by done.
    apply (get_varint_loop_trunc 10 v [] rest); [simpl; lia|done].
Qed.
Lemma varint_decode_safe_witness :
  tdb_get_varint (tdb_put_varint 300 ++ [1; 2; 3]) 1 = None.
Proof. apply (varint_decode_safe [] 1); [constructor|lia|vm_compute; congruence]. Defined.

(** CRC32C: the table-driven [tdb_crc32c] computes the bitwise
    Castagnoli CRC, and chaining it over two buffers is the CRC of their
    concatenation. *)
Theorem crc32c_table_is_bitwise seed a b :
  0 <= seed < 2 ^ 32 -> bytes_ok a -> bytes_ok b ->
  tdb_crc32c seed a = crc32c_ref seed a
  /\ tdb_crc32c (tdb_crc32c seed a) b = crc32c_ref seed (a ++ b).
Proof.
  intros Hs Ha Hb. pose proof (crc32c_fold_ref a (not32 seed) (not32_range _) Ha) as [E1 R1].
  unfold tdb_crc32c, crc32c_ref. split; [by rewrite E1|].
  rewrite not32_involutive by done. rewrite foldl_app.
  pose proof (crc32c_fold_ref b _ R1 Hb) as [E2 _]. by rewrite E2, E1.
Qed.
Lemma crc32c_table_is_bitwise_witness :
  tdb_crc32c 0 [0x31; 0x32; 0x33; 0x34; 0x35; 0x36; 0x37; 0x38; 0x39] = 0xE3069283
  /\ tdb_crc32c (tdb_crc32c 7 [1; 2]) [3] = crc32c_ref 7 ([1; 2] ++ [3]).
Proof.
  split; [vm_compute; done|].
  apply (crc32c_table_is_bitwise 7 [1; 2] [3]); [lia|repeat constructor; lia..].
Defined.

(** CRC32C detects every corruption confined to one byte: two buffers of
    the same length that differ in exactly one byte have different CRCs,
    whatever the seed. *)
Theorem crc32c_detects_one_byte seed pre x y post :
  bytes_ok pre -> bytes_ok post -> is_byte x -> is_byte y -> x <> y ->
  tdb_crc32c seed (pre ++ x :: post) <> tdb_crc32c seed (pre ++ y :: post).
Proof. apply crc_one_byte. Qed.
Lemma crc32c_detects_one_byte_witness :
  tdb_crc32c 5 ([1] ++ 2 :: [3]) <> tdb_crc32c 5 ([1] ++ 4 :: [3]).
Proof. apply crc32c_detects_one_byte; try (repeat constructor; lia); lia. Defined.
