(* ===== verification/Buf.v ===== *)
(** * Growable byte buffers and the arena allocator
    (src/src/common/tdb_buf.c and src/src/common/tdb_mem.c)

    The allocator [realloc]/[malloc] is the C library's: it is modelled by a
    predicate [alloc_ok] on the requested size that says whether the request
    is served, so that the out-of-memory branches are part of the model. *)
From S2P Require Import Prelude Util.

(** ** Growable buffer *)

(** [tdb_buf]: [b_data] is the prefix [data[0..len)], [b_cap] the capacity. *)
Record tdb_buf := mk_buf { b_data : list Z; b_cap : Z }.
Definition b_len (b : tdb_buf) : Z := blen (b_data b).

Definition tdb_buf_init : tdb_buf := mk_buf [] 0.
Definition tdb_buf_free (b : tdb_buf) : tdb_buf := mk_buf [] 0.
Definition tdb_buf_reset (b : tdb_buf) : tdb_buf := mk_buf [] (b_cap b).

Section Buf.
Context (alloc_ok : Z -> bool).

(** The doubling loop runs on [size_t]; 64 rounds from 64 exceed any 64-bit
    request that does not wrap (see [buf_reserve_spec]). *)
Definition tdb_buf_reserve (b : tdb_buf) (need : Z) : tdb_status * tdb_buf :=
  if u64 (b_len b + need) <=? b_cap b then (TDB_OK, b)
  else
    let cap := if b_cap b =? 0 then 64 else b_cap b in
    let cap := grow_cap u64 64 cap (u64 (b_len b + need)) in
    if alloc_ok cap then (TDB_OK, mk_buf (b_data b) cap) else (TDB_NOMEM, b).

Definition tdb_buf_append (b : tdb_buf) (p : list Z) : tdb_status * tdb_buf :=
  match tdb_buf_reserve b (blen p) with
  | (TDB_OK, b) => (TDB_OK, mk_buf (b_data b ++ p) (b_cap b))
  | (rc, b) => (rc, b)
  end.

Definition tdb_buf_putc (b : tdb_buf) (c : Z) : tdb_status * tdb_buf :=
  match tdb_buf_reserve b 1 with
  | (TDB_OK, b) => (TDB_OK, mk_buf (b_data b ++ [c]) (b_cap b))
  | (rc, b) => (rc, b)
  end.

Definition tdb_buf_put_varint (b : tdb_buf) (v : Z) : tdb_status * tdb_buf :=
  match tdb_buf_reserve b 10 with
  | (TDB_OK, b) => (TDB_OK, mk_buf (b_data b ++ tdb_put_varint v) (b_cap b))
  | (rc, b) => (rc, b)
  end.

End Buf.

(** Buffer invariant: the contents fit the capacity, the capacity is 0 or at
    least 64 and below half the address space. *)
Definition buf_wf (b : tdb_buf) : Prop :=
  b_len b <= b_cap b /\ (b_cap b = 0 \/ 64 <= b_cap b) /\ b_cap b < 2 ^ 64.

(** ** Arena *)

(** A block of the arena: [blk_id] stands for its address. *)
Record tdb_arena_block := mk_block { blk_id : nat; blk_used : Z; blk_cap : Z }.
(** [ar_blocks] is the chain from [head] along [next]. *)
Record tdb_arena := mk_arena { ar_blocks : list tdb_arena_block; ar_block_size : Z }.

(** [(n + 15) & ~15] on [size_t]. *)
Definition tdb_align_up (n : Z) : Z :=
  Z.land (u64 (n + 15)) (u64 (Z.lnot 15)).

Section Arena.
Context (alloc_ok : Z -> bool).

(** [sizeof(tdb_arena_block)] is 24 on a 64-bit target. *)
Definition arena_block_new (id : nat) (cap : Z) : option tdb_arena_block :=
  if alloc_ok (u64 (24 + cap)) then Some (mk_block id 0 cap) else None.

(** [sizeof(tdb_arena)] is 16. *)
Definition tdb_arena_new (block_size : Z) : option tdb_arena :=
  if alloc_ok 16 then
    let block_size := if block_size <? 4096 then 4096 else block_size in
    match arena_block_new 0 block_size with
    | Some b => Some (mk_arena [b] block_size)
    | None => None
    end
  else None.

(** [tdb_arena_alloc]: the pointer returned is a block and an offset in it. *)
Definition tdb_arena_alloc (a : tdb_arena) (n : Z) : option (nat * Z) * tdb_arena :=
  let n := tdb_align_up (if n =? 0 then 1 else n) in
  match ar_blocks a with
  | [] => (None, a)
  | b :: rest =>
      if blk_cap b <? u64 (blk_used b + n) then
        let cap := if ar_block_size a <? n then n else ar_block_size a in
        match arena_block_new (length (ar_blocks a)) cap with
        | None => (None, a)
        | Some nb =>
            (Some (blk_id nb, 0),
             mk_arena (mk_block (blk_id nb) (blk_used nb + n) (blk_cap nb) :: b :: rest)
                      (ar_block_size a))
        end
      else
        (Some (blk_id b, blk_used b),
         mk_arena (mk_block (blk_id b) (blk_used b + n) (blk_cap b) :: rest)
                  (ar_block_size a))
  end.

(** A sequence of requests, with the regions [(block, offset, bytes)] the
    caller was given, most recent first. *)
Fixpoint arena_run (a : tdb_arena) (reqs : list Z) (got : list (nat * Z * Z))
  : list (nat * Z * Z) * tdb_arena :=
  match reqs with
  | [] => (got, a)
  | n :: reqs =>
      match tdb_arena_alloc a n with
      | (Some (blk, off), a) => arena_run a reqs ((blk, off, n) :: got)
      | (None, a) => arena_run a reqs got
      end
  end.

End Arena.

(** ** String duplication *)

Section Strings.
Context (alloc_ok : Z -> bool).

Definition tdb_strndup (s : list Z) : cstring := if alloc_ok (blen s + 1) then Some s else None.
Definition tdb_strdup (s : cstring) : cstring := match s with Some s => tdb_strndup s | None => None end.
End Strings.

(** ** Buffer lemmas *)

(** The outcome of an operation that adds [bytes] at the end of [b]: they are
    appended within the capacity, or the buffer is untouched and the status
    is [TDB_NOMEM]. *)
Definition buf_adds (alloc_ok : Z -> bool) (b : tdb_buf) (bytes : list Z) (r : tdb_status * tdb_buf) : Prop :=
  (r.1 = TDB_OK /\ b_data r.2 = b_data b ++ bytes /\ buf_wf r.2)
  \/ (r.1 = TDB_NOMEM /\ r.2 = b /\ exists n, alloc_ok n = false).

Lemma buf_init_wf : buf_wf tdb_buf_init.
Proof. unfold buf_wf; simpl. unfold b_len, blen; simpl. lia. Qed.
Lemma buf_reset_wf b : buf_wf b -> buf_wf (tdb_buf_reset b).
Proof. unfold buf_wf, b_len; simpl. pose proof (blen_nonneg (b_data b)). autorewrite with blen. lia. Qed.

Lemma buf_reserve_spec alloc_ok b need :
  buf_wf b -> 0 <= need -> b_len b + need <= 2 ^ 63 ->
  let r := tdb_buf_reserve alloc_ok b need in
  (r.1 = TDB_OK /\ b_data r.2 = b_data b /\ buf_wf r.2 /\ b_len b + need <= b_cap r.2)
  \/ (r.1 = TDB_NOMEM /\ r.2 = b /\ exists n, alloc_ok n = false).
Proof.
  intros (H1 & H2 & H3) Hn Hb. pose proof (blen_nonneg (b_data b)) as Hl. fold (b_len b) in Hl.
  unfold tdb_buf_reserve. rewrite u64_small by lia.
  destruct (Z.leb_spec (b_len b + need) (b_cap b)); [left; repeat split; simpl; auto|].
  set (cap := if b_cap b =? 0 then 64 else b_cap b).
  assert (64 <= cap) by (unfold cap; destruct (Z.eqb_spec (b_cap b) 0); lia).
  pose proof (grow_cap_spec u64 64 64 cap (b_len b + need)) as (G1 & G2 & G3);
    [apply u64_small|lia|lia|lia|simpl; lia|].
  destruct (alloc_ok (grow_cap u64 64 cap (b_len b + need))) eqn:E; [left|right; eauto].
  split; [done|]. split; [done|]. unfold buf_wf, b_len in *; cbn [b_data b_cap snd] in *.
  destruct (Z.lt_ge_cases cap (blen (b_data b) + need)) as [Hlt|Hge]; [specialize (G2 Hlt)|specialize (G3 Hge)]; 
    [lia|]. unfold cap in *. destruct (Z.eqb_spec (b_cap b) 0); lia.
Qed.

(** Reserve [need] bytes and store [bytes] at the end: how every appending
    routine is built. *)
Lemma buf_extend_spec alloc_ok b bytes need :
  buf_wf b -> 0 <= need -> b_len b + need <= 2 ^ 63 -> blen bytes <= need ->
  buf_adds alloc_ok b bytes (match tdb_buf_reserve alloc_ok b need with
                    | (TDB_OK, b) => (TDB_OK, mk_buf (b_data b ++ bytes) (b_cap b))
                    | (rc, b) => (rc, b) end).
Proof.
  intros Hwf Hneed Hmax Hlen.
  destruct (buf_reserve_spec alloc_ok b need Hwf Hneed Hmax) as [(E & Hd & (W1 & W2 & W3) & Hc)|(E & Hb & [n En])];
    destruct (tdb_buf_reserve alloc_ok b need) as [rc b']; simpl in *; subst rc.
  - left. simpl. rewrite Hd. repeat split; [|done|done].
    unfold b_len in *; simpl. rewrite Hd in *. blia.
  - right. eauto.
Qed.
Lemma buf_append_adds alloc_ok b p :
  buf_wf b -> b_len b + blen p <= 2 ^ 63 -> buf_adds alloc_ok b p (tdb_buf_append alloc_ok b p).
Proof. intros. pose proof (blen_nonneg p). apply (buf_extend_spec alloc_ok b p (blen p)); [done|lia..]. Qed.
Lemma buf_putc_adds alloc_ok b c :
  buf_wf b -> b_len b + 1 <= 2 ^ 63 -> buf_adds alloc_ok b [c] (tdb_buf_putc alloc_ok b c).
Proof. intros. apply (buf_extend_spec alloc_ok b [c] 1); blia || done. Qed.
Lemma buf_put_varint_adds alloc_ok b v :
  buf_wf b -> b_len b + 10 <= 2 ^ 63 -> 0 <= v < 2 ^ 64 ->
  buf_adds alloc_ok b (tdb_put_varint v) (tdb_buf_put_varint alloc_ok b v).
Proof.
  intros. pose proof (put_varint_len v). apply (buf_extend_spec alloc_ok b _ 10); [done|lia..].
Qed.

(** ** Arena lemmas *)

Lemma align_up_eq n : 0 <= n < 2 ^ 63 -> tdb_align_up n = (n + 15) / 16 * 16.
Proof.
  intros Hn. unfold tdb_align_up. rewrite (u64_small (n + 15)) by lia.
  change (u64 (Z.lnot 15)) with (Z.shiftl (Z.ones 60) 4).
  replace ((n + 15) / 16 * 16) with (Z.shiftl (Z.shiftr (n + 15) 4) 4)
    by (rewrite Z.shiftl_mul_pow2, Z.shiftr_div_pow2 by lia; done).
  apply Z.bits_inj'. intros i Hi. rewrite Z.land_spec.
  destruct (Z.lt_ge_cases i 4).
  - by rewrite !Z.shiftl_spec_low, andb_false_r by lia.
  - rewrite !Z.shiftl_spec, Z.shiftr_spec, Z.testbit_ones_nonneg by lia.
    replace (i - 4 + 4) with i by lia.
    destruct (Z.ltb_spec (i - 4) 60); [apply andb_true_r|].
    rewrite (testbit_small (n + 15) 64 i) by lia. done.
Qed.

Definition region_disjoint (r s : nat * Z * Z) : Prop :=
  let '(b1, o1, n1) := r in
  let '(b2, o2, n2) := s in
  b1 <> b2 \/ o1 + n1 <= o2 \/ o2 + n2 <= o1.
Fixpoint pairwise {A} (R : A -> A -> Prop) (l : list A) : Prop :=
  match l with
  | [] => True
  | x :: l => Forall (R x) l /\ pairwise R l
  end.

(** A region lies inside the used part of a block and starts 16-byte aligned. *)
Definition region_in (blocks : list tdb_arena_block) (r : nat * Z * Z) : Prop :=
  let '(blk, off, n) := r in
  exists b, b ∈ blocks /\ blk_id b = blk /\ 0 <= off /\ off mod 16 = 0 /\ off + n <= blk_used b.

Definition block_ok (b : tdb_arena_block) : Prop :=
  0 <= blk_used b <= blk_cap b /\ blk_used b mod 16 = 0 /\ blk_cap b < 2 ^ 63.

Record arena_wf (a : tdb_arena) (got : list (nat * Z * Z)) : Prop := {
  awf_nonempty : ar_blocks a <> [];
  awf_size : 4096 <= ar_block_size a < 2 ^ 62;
  awf_ids : map blk_id (ar_blocks a) = reverse (seq 0 (length (ar_blocks a)));
  awf_blocks : Forall block_ok (ar_blocks a);
  awf_in : Forall (region_in (ar_blocks a)) got;
  awf_disj : pairwise region_disjoint got }.

Lemma arena_ids_nodup a got : arena_wf a got -> NoDup (map blk_id (ar_blocks a)).
Proof. intros H. rewrite (awf_ids _ _ H). rewrite reverse_Permutation. apply NoDup_seq. Qed.
Lemma arena_id_lt a got b :
  arena_wf a got -> b ∈ ar_blocks a -> (blk_id b < length (ar_blocks a))%nat.
Proof.
  intros H Hb. apply list_elem_of_In, (in_map blk_id), list_elem_of_In in Hb.
  rewrite (awf_ids _ _ H), elem_of_reverse, elem_of_seq in Hb. lia.
Qed.

(** Extending the used part of the head block keeps every earlier region
    inside, and the new region is disjoint from all of them. *)
Lemma region_in_grow b rest n r :
  0 <= n -> region_in (b :: rest) r ->
  region_in (mk_block (blk_id b) (blk_used b + n) (blk_cap b) :: rest) r.
Proof.
  destruct r as [[blk off] k]. intros Hn (b' & Hb & Hid & H1 & H2 & H3).
  apply elem_of_cons in Hb as [->|Hb].
  - eexists. split; [left|]. simpl. repeat split; [done|done|done|lia].
  - exists b'. split; [by right|]. auto.
Qed.

Lemma arena_alloc_wf alloc_ok a got n :
  arena_wf a got -> 0 <= n < 2 ^ 62 ->
  match tdb_arena_alloc alloc_ok a n with
  | (Some (blk, off), a') => arena_wf a' ((blk, off, n) :: got)
  | (None, a') => a' = a
  end.
Proof.
  intros Hwf Hn. pose proof (arena_ids_nodup _ _ Hwf) as Hnd.
  pose proof (fun b => arena_id_lt _ _ b Hwf) as Hlt.
  destruct Hwf as [Hne Hsz Hids Hbl Hin Hdj]. unfold tdb_arena_alloc.
  set (n0 := if n =? 0 then 1 else n).
  assert (n <= n0 /\ 1 <= n0 < 2 ^ 62) by (unfold n0; destruct (Z.eqb_spec n 0); lia).
  rewrite align_up_eq by lia. set (m := (n0 + 15) / 16 * 16).
  assert (n <= m < 2 ^ 62 + 16 /\ m mod 16 = 0) as [Hm Hm16].
  { unfold m. split; [|apply Z.mod_mul; lia]. pose proof (Z.div_mod (n0 + 15) 16).
    pose proof (Z.mod_pos_bound (n0 + 15) 16). lia. }
  destruct a as [blocks bsz]; simpl in *. destruct blocks as [|b rest]; [done|].
  apply Forall_cons in Hbl as [Hb Hrest]. destruct Hb as (Hu & Hu16 & Hcap).
  rewrite u64_small by lia.
  assert (forall u, u mod 16 = 0 -> (u + m) mod 16 = 0) as Hadd.
  { intros u Hu0. rewrite Z.add_mod, Hu0, Hm16 by lia. done. }
  destruct (Z.ltb_spec (blk_cap b) (blk_used b + m)).
  - unfold arena_block_new. destruct (alloc_ok _); [|done]. cbn [blk_id blk_used blk_cap].
    split; cbn [ar_blocks ar_block_size].
    + done.
    + done.
    + change (length (_ :: b :: rest)) with (S (length (b :: rest))).
      rewrite seq_S, reverse_app, <- Hids. done.
    + constructor; [|constructor; [repeat split; lia|done]]. split; simpl; [|split].
      * destruct (Z.ltb_spec bsz m); lia.
      * by apply (Hadd 0).
      * destruct (Z.ltb_spec bsz m); lia.
    + constructor.
      * eexists. split; [left|]. simpl. repeat split; lia.
      * eapply Forall_impl; [exact Hin|]. intros [[blk off] k] (b' & Hb' & ?). exists b'.
        split; [by right|done].
    + split; [|done]. eapply Forall_impl; [exact Hin|].
      intros [[blk off] k] (b' & Hb' & Hid & _). left. specialize (Hlt b' Hb'). simpl in *. lia.
  - split; simpl.
    + done.
    + done.
    + done.
    + constructor; [|done]. repeat split; simpl; [lia|lia|by apply Hadd|lia].
    + constructor.
      * eexists. split; [left|]. simpl. repeat split; [lia|done|lia].
      * eapply Forall_impl; [exact Hin|]. intros r. apply region_in_grow. lia.
    + split; [|done]. eapply Forall_impl; [exact Hin|].
      intros [[blk off] k] (b' & Hb' & Hid & Ho & _ & Hle).
      apply elem_of_cons in Hb' as [->|Hb']; [right; right; lia|left].
      apply NoDup_cons in Hnd as [Hnot _]. intros E. apply Hnot. rewrite E, <- Hid.
      apply list_elem_of_In, in_map. by apply list_elem_of_In.
Qed.

Lemma arena_new_wf alloc_ok bs a :
  0 <= bs < 2 ^ 62 -> tdb_arena_new alloc_ok bs = Some a -> arena_wf a [].
Proof.
  unfold tdb_arena_new, arena_block_new. intros Hbs E.
  destruct (alloc_ok 16); [|done]. destruct (alloc_ok (u64 _)); [|done].
  injection E as <-. destruct (Z.ltb_spec bs 4096); split; simpl; try done; try lia;
    repeat constructor; simpl; lia.
Qed.
Lemma arena_run_wf alloc_ok reqs a got :
  arena_wf a got -> Forall (fun n => 0 <= n < 2 ^ 62) reqs ->
  arena_wf (arena_run alloc_ok a reqs got).2 (arena_run alloc_ok a reqs got).1.
Proof.
  intros Ha Hr. revert a got Ha. induction Hr as [|n reqs Hn Hr IH]; intros a got Ha; [done|].
  simpl. pose proof (arena_alloc_wf alloc_ok a got n Ha Hn) as Hstep.
  destruct (tdb_arena_alloc alloc_ok a n) as [[[blk off]|] a']; [by apply IH|]. subst. by apply IH.
Qed.

(** ** Properties *)

(** Growable buffer: appending bytes, one byte or a varint keeps the
    contents inside the allocated capacity and adds exactly those bytes, or
    reports [TDB_NOMEM], which happens only when the allocator refused a
    request, and leaves the buffer as it was. *)
Theorem buf_operations_correct alloc_ok b p c v :
  buf_wf b -> b_len b + blen p <= 2 ^ 63 -> b_len b + 10 <= 2 ^ 63 -> 0 <= v < 2 ^ 64 ->
  buf_adds alloc_ok b p (tdb_buf_append alloc_ok b p)
  /\ buf_adds alloc_ok b [c] (tdb_buf_putc alloc_ok b c)
  /\ buf_adds alloc_ok b (tdb_put_varint v) (tdb_buf_put_varint alloc_ok b v).
Proof.
  intros Hwf Hp H10 Hv.
  split; [by apply buf_append_adds|]. split; [apply buf_putc_adds; done || lia|].
  by apply buf_put_varint_adds.
Qed.
Lemma buf_operations_correct_witness :
  buf_adds (fun _ => true) tdb_buf_init [1; 2; 3] (tdb_buf_append (fun _ => true) tdb_buf_init [1; 2; 3]).
Proof.
  apply (buf_operations_correct (fun _ => true) tdb_buf_init [1; 2; 3] 0 0);
    [apply buf_init_wf|vm_compute; congruence|vm_compute; congruence|lia].
Defined.

(** Arena: whatever requests are made of a fresh arena, and whichever of
    them the system allocator refuses, the regions handed out are 16-byte
    aligned, lie inside their block, and never overlap one another. *)
Theorem arena_regions_disjoint alloc_ok bs a reqs :
  0 <= bs < 2 ^ 62 -> tdb_arena_new alloc_ok bs = Some a ->
  Forall (fun n => 0 <= n < 2 ^ 62) reqs ->
  pairwise region_disjoint (arena_run alloc_ok a reqs []).1
  /\ Forall (region_in (ar_blocks (arena_run alloc_ok a reqs []).2)) (arena_run alloc_ok a reqs []).1
  /\ Forall block_ok (ar_blocks (arena_run alloc_ok a reqs []).2).
Proof.
  intros Hbs Hnew Hreq.
  destruct (arena_run_wf alloc_ok reqs a [] (arena_new_wf _ _ _ Hbs Hnew) Hreq). auto.
Qed.
Lemma arena_regions_disjoint_witness :
  pairwise region_disjoint
    (arena_run (fun _ => true) (mk_arena [mk_block 0 0 4096] 4096) [1; 4090; 20] []).1.
Proof.
  apply (arena_regions_disjoint (fun _ => true) 10 (mk_arena [mk_block 0 0 4096] 4096) [1; 4090; 20]);
    [lia|reflexivity|repeat constructor; lia].
Defined.
