(* ===== verification/Value.v ===== *)
(** * Dynamically typed values and their comparison
    (src/src/value/tdb_value.[ch], src/src/value/tdb_type.[ch])

    A value is one constructor of [tdb_value] per [tdb_valtype].  A [double]
    is its 64-bit IEEE-754 pattern; comparisons decode it with the Standard
    Library's [SpecFloat].  Ownership of text and blob storage is not part of
    the model: a text or blob is its bytes. *)
From S2P Require Import Prelude.
From Stdlib Require Import SpecFloat.

(** ** Data *)

Inductive tdb_value :=
| VNull
| VInt (i : Z)
| VReal (bits : Z)
| VText (s : list Z)
| VBlob (s : list Z)
| VComposite (s : list Z).

Inductive tdb_collation := TDB_COLL_BINARY | TDB_COLL_NOCASE.
Inductive tdb_affinity :=
| TDB_AFF_BLOB | TDB_AFF_TEXT | TDB_AFF_NUMERIC | TDB_AFF_INTEGER | TDB_AFF_REAL.

#[global] Instance tdb_value_eq_dec : EqDecision tdb_value.
Proof. solve_decision. Defined.
#[global] Instance tdb_collation_eq_dec : EqDecision tdb_collation.
Proof. solve_decision. Defined.

Inductive tdb_valtype := TDB_VAL_NULL | TDB_VAL_INT | TDB_VAL_REAL | TDB_VAL_TEXT | TDB_VAL_BLOB | TDB_VAL_COMPOSITE.
Definition value_type (v : tdb_value) : tdb_valtype :=
  match v with
  | VNull => TDB_VAL_NULL | VInt _ => TDB_VAL_INT | VReal _ => TDB_VAL_REAL
  | VText _ => TDB_VAL_TEXT | VBlob _ => TDB_VAL_BLOB | VComposite _ => TDB_VAL_COMPOSITE
  end.

(** ** Setters and copies *)

Definition tdb_value_init : tdb_value := VNull.
Definition tdb_value_clear (v : tdb_value) : tdb_value := VNull.
Definition tdb_value_set_null (v : tdb_value) : tdb_value := VNull.
Definition tdb_value_set_int (v : tdb_value) (i : Z) : tdb_value := VInt i.
Definition tdb_value_set_real (v : tdb_value) (r : Z) : tdb_value := VReal r.

Section Setters.
Context (alloc_ok : Z -> bool).

(** [value_set_bytes]: [p] are the bytes at the pointer, [n] of them are
    taken; a copy can run out of memory and then leaves a NULL value. *)
Definition value_set_bytes (mk : list Z -> tdb_value) (p : list Z) (n : Z) (copy : bool)
  : tdb_status * tdb_value :=
  let n := if n <? 0 then 0 else n in
  if copy then
    if alloc_ok (n + 1) then (TDB_OK, mk (bsub p 0 n)) else (TDB_NOMEM, VNull)
  else (TDB_OK, mk (bsub p 0 n)).

(** [(int)strlen(p)] for a negative [n]: a text here is shorter than 2^31
    bytes. *)
Definition tdb_value_set_text (p : list Z) (n : Z) (copy : bool) : tdb_status * tdb_value :=
  let n := if n <? 0 then strlen p else n in
  value_set_bytes VText p n copy.
Definition tdb_value_set_blob (p : list Z) (n : Z) (copy : bool) : tdb_status * tdb_value :=
  value_set_bytes VBlob p n copy.
Definition tdb_value_set_composite (p : list Z) (n : Z) (copy : bool) : tdb_status * tdb_value :=
  value_set_bytes VComposite p n copy.

Definition tdb_value_copy (src : tdb_value) : tdb_status * tdb_value :=
  match src with
  | VNull => (TDB_OK, VNull)
  | VInt i => (TDB_OK, tdb_value_set_int VNull i)
  | VReal r => (TDB_OK, tdb_value_set_real VNull r)
  | VText s => tdb_value_set_text s (blen s) true
  | VBlob s => tdb_value_set_blob s (blen s) true
  | VComposite s => tdb_value_set_composite s (blen s) true
  end.

End Setters.

(** ** Floating point *)

(** Decoding of an IEEE-754 binary64 pattern. *)
Definition f64_of_bits (b : Z) : spec_float :=
  let s := Z.testbit b 63 in
  let e := Z.land (Z.shiftr b 52) 2047 in
  let m := Z.land b (Z.ones 52) in
  if e =? 2047 then (if m =? 0 then S754_infinity s else S754_nan)
  else if e =? 0 then
    match m with Zpos p => S754_finite s p (-1074) | _ => S754_zero s end
  else S754_finite s (Z.to_pos (m + 2 ^ 52)) (e - 1075).

(** The bit pattern of a canonical [spec_float] of binary64. *)
Definition bits_of_f64 (f : spec_float) : Z :=
  let sign (s : bool) := if s then 2 ^ 63 else 0 in
  match f with
  | S754_zero s => sign s
  | S754_infinity s => sign s + 2047 * 2 ^ 52
  | S754_nan => 2047 * 2 ^ 52 + 2 ^ 51
  | S754_finite s m e => sign s + (if Zpos m <? 2 ^ 52 then Zpos m else (e + 1075) * 2 ^ 52 + (Zpos m - 2 ^ 52))
  end.

(** The conversion [(double)i] of a 64-bit integer: round to nearest even. *)
Definition f64_of_int (i : Z) : spec_float := binary_normalize 53 1024 i 0 false.

(** [tdb_value_as_real] on the numeric types, the only ones
    [tdb_value_compare] applies it to. *)
Definition value_num_real (v : tdb_value) : spec_float :=
  match v with
  | VInt i => f64_of_int i
  | VReal r => f64_of_bits r
  | _ => S754_zero false
  end.

(** ** Comparison *)

Definition type_class (v : tdb_value) : Z :=
  match v with
  | VNull => 0
  | VInt _ | VReal _ => 1
  | VText _ => 2
  | VBlob _ => 3
  | VComposite _ => 4
  end.

Definition cmp_text (a b : list Z) (coll : tdb_collation) : Z :=
  let na := blen a in
  let nb := blen b in
  let n := if na <? nb then na else nb in
  let c := match coll with
           | TDB_COLL_NOCASE => strncasecmp a b (Z.to_nat n)
           | TDB_COLL_BINARY => memcmp a b (Z.to_nat n)
           end in
  if negb (c =? 0) then (if c <? 0 then -1 else 1)
  else if na =? nb then 0
  else if na <? nb then -1 else 1.

(** The BLOB and COMPOSITE branch of [tdb_value_compare]. *)
Definition cmp_blob (a b : list Z) : Z :=
  let n := if blen a <? blen b then blen a else blen b in
  let c := memcmp a b (Z.to_nat n) in
  if negb (c =? 0) then (if c <? 0 then -1 else 1)
  else if blen a =? blen b then 0
  else if blen a <? blen b then -1 else 1.

(** The numeric branch: exact on two integers, through [double] otherwise. *)
Definition cmp_num (a b : tdb_value) : Z :=
  match a, b with
  | VInt i, VInt j => if i <? j then -1 else if j <? i then 1 else 0
  | _, _ =>
      let da := value_num_real a in
      let db := value_num_real b in
      if SFltb da db then -1 else if SFltb db da then 1 else 0
  end.

Definition tdb_value_compare (a b : tdb_value) (coll : tdb_collation) : Z :=
  let ca := type_class a in
  let cb := type_class b in
  if negb (ca =? cb) then (if ca <? cb then -1 else 1)
  else
    match a, b with
    | VText s, VText t => cmp_text s t coll
    | VBlob s, VBlob t | VComposite s, VComposite t => cmp_blob s t
    | VNull, _ => 0
    | _, _ => cmp_num a b
    end.

(** ** Conversions *)

(** [snprintf("%lld")]: decimal digits, most significant first; 20 rounds
    cover a 64-bit magnitude. *)
Fixpoint dec_digits (fuel : nat) (n : Z) (acc : list Z) : list Z :=
  match fuel with
  | O => acc
  | S f => let acc := (48 + n mod 10) :: acc in
           if n <? 10 then acc else dec_digits f (n / 10) acc
  end.
Definition fmt_lld (i : Z) : list Z :=
  if i <? 0 then 45 :: dec_digits 20 (- i) [] else dec_digits 20 i [].

(** [strtoll(s, NULL, 10)]: white space, a sign, digits; saturating. *)
Definition isspace (c : Z) : bool := (c =? 32) || ((9 <=? c) && (c <=? 13)).
Definition isdigit (c : Z) : bool := (48 <=? c) && (c <=? 57).
Fixpoint skip_space (s : list Z) : list Z :=
  match s with
  | c :: t => if isspace c then skip_space t else s
  | [] => []
  end.
Fixpoint scan_digits (s : list Z) (acc : Z) : Z * list Z :=
  match s with
  | c :: t => if isdigit c then scan_digits t (acc * 10 + (c - 48)) else (acc, s)
  | [] => (acc, [])
  end.
Definition clamp64 (z : Z) : Z :=
  Z.max (- 2 ^ 63) (Z.min z (2 ^ 63 - 1)).
Definition strtoll (s : list Z) : Z :=
  let s := skip_space (cstr s) in
  match s with
  | 45 :: t => clamp64 (- (scan_digits t 0).1)
  | 43 :: t => clamp64 (scan_digits t 0).1
  | _ => clamp64 (scan_digits s 0).1
  end.

(** [(int64_t)r]: truncation toward zero; a NaN, an infinity or a value out
    of range yields [INT64_MIN], as the x86-64 conversion does. *)
Definition f64_trunc (f : spec_float) : Z :=
  match f with
  | S754_finite s m e =>
      let a := Z.shiftl (Zpos m) e in
      let z := if s then - a else a in
      if (- 2 ^ 63 <=? z) && (z <? 2 ^ 63) then z else - 2 ^ 63
  | S754_zero _ => 0
  | _ => - 2 ^ 63
  end.

Definition tdb_value_as_int (v : tdb_value) : Z :=
  match v with
  | VInt i => i
  | VReal r => f64_trunc (f64_of_bits r)
  | VText s => strtoll s
  | _ => 0
  end.

(** ** Affinity *)

(** [strncasecmp(p, needle, strlen needle) == 0] at every position of [hay]. *)
Fixpoint ci_contains (hay needle : list Z) : bool :=
  match hay with
  | [] => false
  | _ :: t => (strncasecmp hay needle (length needle) =? 0) || ci_contains t needle
  end.

Definition s_INT : list Z := [73; 78; 84].
Definition s_CHAR : list Z := [67; 72; 65; 82].
Definition s_CLOB : list Z := [67; 76; 79; 66].
Definition s_TEXT : list Z := [84; 69; 88; 84].
Definition s_BLOB : list Z := [66; 76; 79; 66].
Definition s_REAL : list Z := [82; 69; 65; 76].
Definition s_FLOA : list Z := [70; 76; 79; 65].
Definition s_DOUB : list Z := [68; 79; 85; 66].

Definition tdb_affinity_from_decltype (decltype : list Z) : tdb_affinity :=
  match decltype with
  | [] => TDB_AFF_BLOB
  | _ =>
      if ci_contains decltype s_INT then TDB_AFF_INTEGER
      else if ci_contains decltype s_CHAR || ci_contains decltype s_CLOB
              || ci_contains decltype s_TEXT then TDB_AFF_TEXT
      else if ci_contains decltype s_BLOB then TDB_AFF_BLOB
      else if ci_contains decltype s_REAL || ci_contains decltype s_FLOA
              || ci_contains decltype s_DOUB then TDB_AFF_REAL
      else TDB_AFF_NUMERIC
  end.

(** ** Order lemmas *)

(** A key whose lexicographic order is the order of the non-NaN doubles. *)
Definition sf_key (f : spec_float) : list Z :=
  match f with
  | S754_infinity true => [-2; 0; 0]
  | S754_finite true m e => [-1; - e; - Zpos m]
  | S754_zero _ => [0; 0; 0]
  | S754_finite false m e => [1; e; Zpos m]
  | S754_infinity false => [2; 0; 0]
  | S754_nan => [0; 0; 0]
  end.
Definition sf_cmp (a b : spec_float) : Z :=
  if SFltb a b then -1 else if SFltb b a then 1 else 0.

Lemma sf_cmp_antisym a b : sf_cmp b a = - sf_cmp a b.
Proof.
  unfold sf_cmp, SFltb.
  assert (SFcompare b a = option_map CompOpp (SFcompare a b)) as ->.
  { destruct a as [[]|[]| |[] m1 e1], b as [[]|[]| |[] m2 e2]; try done; simpl;
      change (PosDef.Pos.compare_cont Eq) with Pos.compare;
      rewrite (Z.compare_antisym e1 e2), (Pos.compare_antisym m1 m2);
      destruct (e1 ?= e2)%Z, (m1 ?= m2)%positive; done. }
  destruct (SFcompare a b) as [[]|]; done.
Qed.

Lemma sf_cmp_key a b :
  a <> S754_nan -> b <> S754_nan -> sf_cmp a b = lex_cmp (sf_key a) (sf_key b).
Proof.
  intros Ha Hb. unfold sf_cmp, SFltb.
  destruct a as [[]|[]| |[] m1 e1], b as [[]|[]| |[] m2 e2]; try done;
    cbn [SFcompare sf_key lex_cmp];
    change (PosDef.Pos.compare_cont Eq) with Pos.compare;
    rewrite (Z.compare_antisym e1 e2), (Pos.compare_antisym m1 m2), !Z.ltb_irrefl;
    destruct (Z.compare_spec e1 e2), (Pos.compare_spec m1 m2); cbn [CompOpp];
    repeat match goal with |- context [?x <? ?y] => destruct (Z.ltb_spec x y) end; lia.
Qed.

(** [strncasecmp] on NUL-free text is [memcmp] of the lower-cased text. *)
Definition nul_free (s : list Z) : Prop := Forall (fun c => 0 < c < 256) s.
Lemma cstr_nul_free s : nul_free s -> cstr s = s.
Proof. induction 1 as [|c s Hc Hs IH]; [done|]. cbn. destruct (Z.eqb_spec c 0); [lia|]. by rewrite IH. Qed.
Lemma tolower_pos c : 0 < c -> tolower c <> 0.
Proof. unfold tolower. destruct (_ && _); lia. Qed.
Lemma tolower_zero c : tolower c = 0 <-> c = 0.
Proof. unfold tolower. destruct (Z.leb_spec 65 c), (Z.leb_spec c 90); cbn [andb]; lia. Qed.
Lemma strncasecmp_same a b n : (length a < n)%nat -> (length b < n)%nat -> strncasecmp a b n = 0 <-> same_word a b.
Proof.
  unfold same_word. revert a b. induction n as [|n IH]; intros a b Ha Hb; [lia|]. cbn [strncasecmp].
  assert (forall (l : list Z), map tolower (cstr l) = if tolower (hd 0 l) =? 0 then [] else tolower (hd 0 l) :: map tolower (cstr (tl l))) as Hl.
  { intros [|c l]; [done|]. cbn [cstr hd tl]. destruct (Z.eqb_spec c 0) as [->|Hc]; [done|]. destruct (Z.eqb_spec (tolower c) 0) as [E|_]; [by apply (proj1 (tolower_zero c)) in E|done]. }
  rewrite (Hl a), (Hl b). destruct (Z.ltb_spec (tolower (hd 0 a)) (tolower (hd 0 b))); [split; [lia|]; destruct (Z.eqb_spec (tolower (hd 0 a)) 0), (Z.eqb_spec (tolower (hd 0 b)) 0); intros Hx; try discriminate Hx; try (injection Hx as Hx _); lia|].
  destruct (Z.ltb_spec (tolower (hd 0 b)) (tolower (hd 0 a))); [split; [lia|]; destruct (Z.eqb_spec (tolower (hd 0 a)) 0), (Z.eqb_spec (tolower (hd 0 b)) 0); intros Hx; try discriminate Hx; try (injection Hx as Hx _); lia|].
  assert (tolower (hd 0 b) = tolower (hd 0 a)) as -> by lia. destruct (Z.eqb_spec (tolower (hd 0 a)) 0) as [E|E]; [done|].
  rewrite (IH (tl a) (tl b)); [split; [by intros ->|by intros [=]]| |].
  - destruct a; cbn in *; lia.
  - destruct b; cbn in *; lia.
Qed.
Lemma strcasecmp_same a b : (strcasecmp a b =? 0) = true <-> same_word a b.
Proof. rewrite Z.eqb_eq. apply strncasecmp_same; lia. Qed.
Lemma strncasecmp_memcmp a b n :
  nul_free a -> nul_free b -> (n <= length a)%nat -> (n <= length b)%nat ->
  strncasecmp a b n = memcmp (map tolower a) (map tolower b) n.
Proof.
  intros Ha. revert b n. induction Ha as [|x a Hx Ha IH]; intros b n Hb Hla Hlb.
  { destruct n; [done|]. simpl in Hla; lia. }
  destruct n as [|n]; [done|]. destruct Hb as [|y b Hy Hb]; [simpl in Hlb; lia|].
  cbn [strncasecmp map memcmp hd tl].
  destruct (tolower x <? tolower y); [done|]. destruct (tolower y <? tolower x); [done|].
  destruct (Z.eqb_spec (tolower x) 0) as [E|_]; [by apply tolower_pos in E; lia|].
  apply IH; [done|simpl in *; lia..].
Qed.
Lemma strncasecmp_antisym a b n : strncasecmp b a n = - strncasecmp a b n.
Proof.
  revert a b. induction n as [|n IH]; intros a b; [done|]. cbn [strncasecmp].
  destruct (Z.ltb_spec (tolower (hd 0 a)) (tolower (hd 0 b))),
    (Z.ltb_spec (tolower (hd 0 b)) (tolower (hd 0 a))); try lia.
  assert (tolower (hd 0 b) = tolower (hd 0 a)) as -> by lia.
  destruct (tolower (hd 0 a) =? 0); [done|apply IH].
Qed.
Lemma memcmp_antisym a b n : memcmp b a n = - memcmp a b n.
Proof.
  revert a b. induction n as [|n IH]; intros [|x a] [|y b]; try done. cbn [memcmp].
  destruct (Z.ltb_spec x y), (Z.ltb_spec y x); try lia. apply IH.
Qed.

Lemma min_len_nat (a b : list Z) :
  Z.to_nat (if blen a <? blen b then blen a else blen b) = Nat.min (length a) (length b).
Proof. unfold blen. destruct (Z.ltb_spec (Z.of_nat (length a)) (Z.of_nat (length b))); lia. Qed.

Lemma cmp_blob_lex a b : cmp_blob a b = lex_cmp a b.
Proof. unfold cmp_blob. by rewrite memcmp_lex, min_len_nat. Qed.
Lemma cmp_text_binary_lex a b : cmp_text a b TDB_COLL_BINARY = lex_cmp a b.
Proof. unfold cmp_text. by rewrite memcmp_lex, min_len_nat. Qed.
Lemma cmp_text_nocase_lex a b :
  nul_free a -> nul_free b ->
  cmp_text a b TDB_COLL_NOCASE = lex_cmp (map tolower a) (map tolower b).
Proof.
  intros Ha Hb. unfold cmp_text. rewrite memcmp_lex, min_len_nat, !length_map.
  rewrite strncasecmp_memcmp by (done || lia). unfold blen. by rewrite !length_map.
Qed.

(** The sign pattern both branches share is odd when its inputs are. *)
Lemma sign_then_len_antisym c c' na nb :
  c' = - c ->
  (if negb (c' =? 0) then (if c' <? 0 then -1 else 1)
   else if nb =? na then 0 else if nb <? na then -1 else 1)
  = - (if negb (c =? 0) then (if c <? 0 then -1 else 1)
       else if na =? nb then 0 else if na <? nb then -1 else 1).
Proof.
  intros ->. destruct (Z.eqb_spec c 0), (Z.eqb_spec (- c) 0); try lia; simpl.
  - destruct (Z.eqb_spec na nb), (Z.eqb_spec nb na), (Z.ltb_spec na nb), (Z.ltb_spec nb na); lia.
  - destruct (Z.ltb_spec c 0), (Z.ltb_spec (- c) 0); lia.
Qed.
Lemma cmp_text_antisym a b coll : cmp_text b a coll = - cmp_text a b coll.
Proof.
  unfold cmp_text. rewrite !min_len_nat, (Nat.min_comm (length b)).
  apply sign_then_len_antisym. destruct coll; [apply memcmp_antisym|apply strncasecmp_antisym].
Qed.
Lemma cmp_num_sf a b :
  (forall i j, a = VInt i -> b <> VInt j) -> cmp_num a b = sf_cmp (value_num_real a) (value_num_real b).
Proof. intros H. destruct a, b; try done. by destruct (H i i0). Qed.
Lemma cmp_num_antisym a b : cmp_num b a = - cmp_num a b.
Proof.
  destruct a as [|i| | | |], b as [|j| | | |];
    try (rewrite !cmp_num_sf by done; apply sf_cmp_antisym).
  cbn [cmp_num]. destruct (Z.ltb_spec i j), (Z.ltb_spec j i); lia.
Qed.

(** ** The comparison as an order *)

(** The sort key of a value under a collation. *)
Definition value_key (coll : tdb_collation) (v : tdb_value) : list Z :=
  match v with
  | VNull => [0]
  | VInt i => [1; i]
  | VReal r => 1 :: sf_key (f64_of_bits r)
  | VText s => 2 :: match coll with TDB_COLL_BINARY => s | TDB_COLL_NOCASE => map tolower s end
  | VBlob s => 3 :: s
  | VComposite s => 4 :: s
  end.

(** Values whose comparison is not subject to the two exceptions of the code:
    NaN (equal to every number) and, under NOCASE, embedded NUL bytes. *)
Definition value_sane (coll : tdb_collation) (v : tdb_value) : Prop :=
  match v with
  | VReal r => f64_of_bits r <> S754_nan
  | VText s => coll = TDB_COLL_NOCASE -> nul_free s
  | _ => True
  end.
(** Two values of the same numeric representation (or not both numbers). *)
Definition same_num_type (a b : tdb_value) : Prop :=
  match a, b with
  | VInt _, VReal _ | VReal _, VInt _ => False
  | _, _ => True
  end.

Lemma value_compare_key coll a b :
  value_sane coll a -> value_sane coll b -> same_num_type a b ->
  tdb_value_compare a b coll = lex_cmp (value_key coll a) (value_key coll b).
Proof.
  intros Ha Hb Hn. unfold tdb_value_compare.
  destruct a as [|i|r|s|s|s], b as [|j|q|t|t|t];
    cbn [type_class value_key lex_cmp same_num_type value_sane] in *; try contradiction;
    rewrite ?Z.eqb_refl, ?Z.ltb_irrefl; try reflexivity; cbn [negb].
  - rewrite cmp_num_sf by (intros ? ? [=]). cbn [value_num_real]. by apply sf_cmp_key.
  - destruct coll; [apply cmp_text_binary_lex|]. apply cmp_text_nocase_lex; auto.
  - apply cmp_blob_lex.
  - apply cmp_blob_lex.
Qed.
Lemma value_compare_antisym coll a b :
  tdb_value_compare b a coll = - tdb_value_compare a b coll.
Proof.
  unfold tdb_value_compare.
  destruct a as [|i|r|s|s|s], b as [|j|q|t|t|t]; cbn [type_class];
    rewrite ?Z.eqb_refl; try reflexivity; cbn [negb];
    first [apply cmp_num_antisym | apply cmp_text_antisym | rewrite !cmp_blob_lex; apply lex_cmp_antisym].
Qed.

(** ** Decimal text *)

Lemma scan_digits_app l acc rest :
  Forall (fun c => 48 <= c <= 57) l ->
  scan_digits (l ++ rest) acc = scan_digits rest (foldl (fun a c => a * 10 + (c - 48)) acc l).
Proof.
  intros H. revert acc. induction H as [|c l Hc Hl IH]; intros acc; [done|].
  cbn [app scan_digits foldl]. unfold isdigit.
  assert ((48 <=? c) && (c <=? 57) = true) as -> by lia. apply IH.
Qed.
Lemma dec_digits_spec f n acc :
  0 <= n < 10 ^ Z.of_nat f -> Forall (fun c => 48 <= c <= 57) acc ->
  Forall (fun c => 48 <= c <= 57) (dec_digits f n acc)
  /\ (forall base, foldl (fun a c => a * 10 + (c - 48)) base (dec_digits f n acc) =
        foldl (fun a c => a * 10 + (c - 48)) (foldl (fun a c => a * 10 + (c - 48)) base (dec_digits f n [])) acc)
  /\ (f <> 0%nat -> foldl (fun a c => a * 10 + (c - 48)) 0 (dec_digits f n []) = n)
  /\ (f <> 0%nat -> exists d l, dec_digits f n acc = d :: l).
Proof.
  revert n acc. induction f as [|f IH]; intros n acc Hn Hacc.
  { simpl in *. repeat split; try done; auto. }
  rewrite Nat2Z.inj_succ, Z.pow_succ_r in Hn by lia.
  assert (0 <= n mod 10 < 10) by (apply Z.mod_pos_bound; lia).
  cbn [dec_digits]. destruct (Z.ltb_spec n 10).
  { rewrite (Z.mod_small n) by lia. repeat split; try done; [constructor; [lia|done]|simpl; lia|eauto]. }
  assert (0 <= n / 10 < 10 ^ Z.of_nat f) by (split; [apply Z.div_pos; lia|apply Z.div_lt_upper_bound; lia]).
  assert (f <> 0%nat) as Hf0 by (intros ->; simpl in *; lia).
  destruct (IH (n / 10) ((48 + n mod 10) :: acc)) as (A1 & A2 & A3 & A4); [done|constructor; [lia|done]|].
  destruct (IH (n / 10) [48 + n mod 10]) as (B1 & B2 & B3 & B4); [done|repeat constructor; lia|].
  repeat split; [done| | |auto].
  - intros base. rewrite A2, B2. done.
  - intros _. rewrite B2. cbn [foldl]. rewrite B3 by done. pose proof (Z.div_mod n 10). lia.
Qed.
Lemma scan_dec_digits n : 0 <= n < 10 ^ 20 -> (scan_digits (dec_digits 20 n []) 0).1 = n.
Proof.
  intros Hn. destruct (dec_digits_spec 20 n []) as (H1 & _ & H3 & _); [simpl; lia|constructor|].
  rewrite <- (app_nil_r (dec_digits 20 n [])), scan_digits_app by done. cbn [scan_digits fst]. by apply H3.
Qed.

Lemma dec_digits_cstr f n acc :
  0 <= n < 10 ^ Z.of_nat f -> Forall (fun c => 48 <= c <= 57) acc ->
  cstr (dec_digits f n acc) = dec_digits f n acc.
Proof.
  intros Hn Ha. destruct (dec_digits_spec f n acc Hn Ha) as (H & _).
  induction H as [|c l Hc Hl IH]; [done|]. simpl. destruct (Z.eqb_spec c 0); [lia|]. by rewrite IH.
Qed.
Lemma strtoll_digits d l :
  48 <= d <= 57 -> cstr (d :: l) = d :: l ->
  strtoll (d :: l) = clamp64 (scan_digits (d :: l) 0).1.
Proof.
  intros Hd E. unfold strtoll. rewrite E. cbn [skip_space]. unfold isspace.
  assert ((d =? 32) || (9 <=? d) && (d <=? 13) = false) as -> by lia.
  destruct d as [|p|p]; [lia| |lia].
  repeat (destruct p as [p|p|]; try (lia || reflexivity)).
Qed.

(** ** Properties *)

(** Value ordering: on values without the code's two exceptions (NaN, and
    NUL bytes under NOCASE) and of one numeric representation,
    [tdb_value_compare] is a total order: it is reflexive, antisymmetric and
    transitive, answers 0 exactly on equal sort keys, and orders NULL before
    numbers before text before blobs before composites. *)
Theorem value_compare_total_order coll a b c :
  value_sane coll a -> value_sane coll b -> value_sane coll c ->
  same_num_type a b -> same_num_type b c -> same_num_type a c ->
  tdb_value_compare a a coll = 0
  /\ tdb_value_compare b a coll = - tdb_value_compare a b coll
  /\ (tdb_value_compare a b coll <= 0 -> tdb_value_compare b c coll <= 0 ->
      tdb_value_compare a c coll <= 0)
  /\ (tdb_value_compare a b coll = 0 <-> value_key coll a = value_key coll b)
  /\ (type_class a < type_class b -> tdb_value_compare a b coll = -1).
Proof.
  intros Ha Hb Hc Hab Hbc Hac.
  assert (same_num_type a a) by (by destruct a).
  split; [by rewrite value_compare_key, lex_cmp_refl|].
  split; [apply value_compare_antisym|].
  split; [rewrite !value_compare_key by done; apply lex_cmp_trans|].
  split; [rewrite value_compare_key by done; split; [apply lex_cmp_eq|intros ->; apply lex_cmp_refl]|].
  intros Hlt. unfold tdb_value_compare.
  destruct (Z.eqb_spec (type_class a) (type_class b)); [lia|].
  cbn [negb]. destruct (Z.ltb_spec (type_class a) (type_class b)); [done|lia].
Qed.
Lemma value_compare_total_order_witness :
  tdb_value_compare (VText [65]) (VText [97]) TDB_COLL_NOCASE = 0
  <-> value_key TDB_COLL_NOCASE (VText [65]) = value_key TDB_COLL_NOCASE (VText [97]).
Proof.
  apply (value_compare_total_order TDB_COLL_NOCASE (VText [65]) (VText [97]) VNull);
    simpl; try (intros _; repeat constructor; lia); exact I.
Defined.

(** Comparison is antisymmetric on all values, NaN and mixed integer and
    real operands included. *)
Theorem value_compare_antisymmetric coll a b :
  tdb_value_compare b a coll = - tdb_value_compare a b coll.
Proof. apply value_compare_antisym. Qed.

(** Transitivity fails when integers and reals are mixed beyond 2^53:
    2^53+1 (INT) equals 2^53 (REAL), which equals 2^53 (INT), yet 2^53 is
    less than 2^53+1.  Keys of one index compared this way have no consistent
    sort order. *)
Theorem value_compare_mixed_not_transitive :
  let a := VInt (2 ^ 53 + 1) in
  let b := VReal 0x4340000000000000 in
  let c := VInt (2 ^ 53) in
  tdb_value_compare a b TDB_COLL_BINARY = 0
  /\ tdb_value_compare b c TDB_COLL_BINARY = 0
  /\ tdb_value_compare a c TDB_COLL_BINARY = 1.
Proof. vm_compute. auto. Qed.

(** Integer and text: the decimal text of a 64-bit integer reads back as
    that integer. *)
Lemma as_int_fmt_lld i :
  - 2 ^ 63 <= i < 2 ^ 63 -> tdb_value_as_int (VText (fmt_lld i)) = i.
Proof.
  intros Hi. cbn [tdb_value_as_int]. unfold fmt_lld.
  assert (forall n, 0 <= n <= 2 ^ 63 -> exists d l, dec_digits 20 n [] = d :: l /\ 48 <= d <= 57) as Hd.
  { intros n Hn. destruct (dec_digits_spec 20 n []) as (F & _ & _ & E); [simpl; lia|constructor|].
    destruct (E ltac:(done)) as (d & l & Edl). exists d, l. rewrite Edl in F |- *.
    by inversion F. }
  destruct (Z.ltb_spec i 0).
  - pose proof (scan_dec_digits (- i)) as Hs. pose proof (dec_digits_cstr 20 (- i) []) as Hc.
    unfold strtoll. cbn [cstr]. change (45 =? 0) with false. cbv iota.
    rewrite Hc by (simpl; lia || constructor). cbn [skip_space].
    change (isspace 45) with false. cbv iota. rewrite Hs by lia. unfold clamp64. lia.
  - destruct (Hd i) as (d & l & E & Hdig); [lia|]. rewrite E.
    rewrite strtoll_digits; [|done|rewrite <- E; apply dec_digits_cstr; [simpl; lia|constructor]].
    rewrite <- E, scan_dec_digits by lia. unfold clamp64. lia.
Qed.
