(* ===== verification/Record.v ===== *)
(** * The record codec (src/src/value/tdb_record.[ch]) and composite values
    (the [tdb_value_composite_*] functions of src/src/value/tdb_value.c)

    A record is a varint column count, a varint serial type per column and
    the packed bodies.  [tdb_record_encode] appends to a growable buffer and
    can run out of memory; [tdb_record_decode] validates an arbitrary byte
    string. *)
From S2P Require Import Prelude Util Buf Value.

(** ** Serial types *)

(** [serial_body_len]: the cast to [int] of the length of a text or blob is
    kept. *)
Definition serial_body_len (st : Z) : Z :=
  if st =? 0 then 0 else if st =? 1 then 1 else if st =? 2 then 2
  else if st =? 3 then 3 else if st =? 4 then 4 else if st =? 5 then 6
  else if st =? 6 then 8 else if st =? 7 then 8 else if st =? 8 then 0
  else if st =? 9 then 0
  else if 12 <=? st then s32 ((st - 12) / 2) else -1.

(** [int_serial_type v] = (serial type, body length). *)
Definition int_serial_type (v : Z) : Z * Z :=
  if v =? 0 then (8, 0)
  else if v =? 1 then (9, 0)
  else if (-128 <=? v) && (v <=? 127) then (1, 1)
  else if (-32768 <=? v) && (v <=? 32767) then (2, 2)
  else if (-8388608 <=? v) && (v <=? 8388607) then (3, 3)
  else if (-2147483648 <=? v) && (v <=? 2147483647) then (4, 4)
  else if (-140737488355328 <=? v) && (v <=? 140737488355327) then (5, 6)
  else (6, 8).

(** [put_be_signed(p, v, n)]: the loop fills [p] from its last byte. *)
Fixpoint put_be_signed (v : Z) (n : nat) : list Z :=
  match n with
  | O => []
  | S n => put_be_signed (Z.shiftr v 8) n ++ [u8 (Z.land v 255)]
  end.

(** [get_be_signed(p, n)]. *)
Definition get_be_signed (p : list Z) (n : nat) : Z :=
  match n with
  | O => 0
  | _ =>
      let v := if Z.land (bget p 0) 128 =? 0 then 0 else -1 in
      foldl (fun v b => s64 (Z.lor (Z.shiftl v 8) b)) v (take n p)
  end.

(** ** Encoding *)

Definition value_serial (v : tdb_value) : Z * Z :=
  match v with
  | VNull => (0, 0)
  | VInt i => int_serial_type i
  | VReal _ => (7, 8)
  | VText s => (u64 (13 + 2 * u32 (blen s)), blen s)
  | VBlob s | VComposite s => (u64 (12 + 2 * u32 (blen s)), blen s)
  end.

(** The bytes the body loop stores for a value of body length [bl]. *)
Definition value_body (v : tdb_value) (bl : Z) : list Z :=
  match v with
  | VInt i => put_be_signed i (Z.to_nat bl)
  | VReal bits => tdb_put_u64 bits
  | VText s | VBlob s | VComposite s => bsub s 0 bl
  | VNull => []
  end.

(** The test [bl[i] == 0 && type is not TEXT/BLOB/COMPOSITE] that skips a
    column in the body loop. *)
Definition body_skipped (v : tdb_value) (bl : Z) : bool :=
  (bl =? 0) && match v with VText _ | VBlob _ | VComposite _ => false | _ => true end.

Section Encode.
Context (alloc_ok : Z -> bool).

Fixpoint encode_serials (vals : list tdb_value) (out : tdb_buf) : tdb_status * tdb_buf :=
  match vals with
  | [] => (TDB_OK, out)
  | v :: vals =>
      match tdb_buf_put_varint alloc_ok out (value_serial v).1 with
      | (TDB_OK, out) => encode_serials vals out
      | (rc, out) => (rc, out)
      end
  end.

Fixpoint encode_bodies (vals : list tdb_value) (out : tdb_buf) : tdb_status * tdb_buf :=
  match vals with
  | [] => (TDB_OK, out)
  | v :: vals =>
      let bl := (value_serial v).2 in
      if body_skipped v bl then encode_bodies vals out
      else
        match tdb_buf_reserve alloc_ok out (bl + 8) with
        | (TDB_OK, out) =>
            encode_bodies vals (mk_buf (b_data out ++ value_body v bl) (b_cap out))
        | (rc, out) => (rc, out)
        end
  end.

(** [tdb_record_encode]; more than 16 columns allocate two scratch arrays. *)
Definition tdb_record_encode (vals : list tdb_value) (out : tdb_buf) : tdb_status * tdb_buf :=
  let n := Z.of_nat (length vals) in
  if (16 <? n) && negb (alloc_ok (8 * n) && alloc_ok (4 * n)) then (TDB_NOMEM, out)
  else
    match tdb_buf_put_varint alloc_ok out n with
    | (TDB_OK, out) =>
        match encode_serials vals out with
        | (TDB_OK, out) => encode_bodies vals out
        | (rc, out) => (rc, out)
        end
    | (rc, out) => (rc, out)
    end.

End Encode.

(** ** Decoding *)

(** The serial-type loop: [n] varints from [off].  Every round consumes a
    byte, so [S (length p)] rounds are never exhausted (see
    [decode_serials_fuel]). *)
Fixpoint decode_serials (fuel : nat) (p : list Z) (off n : Z) : option (list Z * Z) :=
  if n =? 0 then Some ([], off)
  else
    match fuel with
    | O => None
    | S f =>
        match tdb_get_varint (bfrom p off) (blen p - off) with
        | None => None
        | Some (adv, st) =>
            match decode_serials f p (off + adv) (n - 1) with
            | Some (sts, off') => Some (st :: sts, off')
            | None => None
            end
        end
    end.

(** One column: the value of serial type [st] whose body starts at [body]. *)
Definition decode_value (st : Z) (body : list Z) (bl : Z) : tdb_value :=
  if st =? 0 then VNull
  else if st =? 8 then VInt 0
  else if st =? 9 then VInt 1
  else if (1 <=? st) && (st <=? 6) then VInt (get_be_signed body (Z.to_nat bl))
  else if st =? 7 then VReal (tdb_get_u64 body)
  else if (12 <=? st) && (st mod 2 =? 0) then VBlob (bsub body 0 bl)
  else VText (bsub body 0 bl).

(** The body loop; [room] is what is left of [max - i]. *)
Fixpoint decode_bodies (sts : list Z) (p : list Z) (off room : Z)
  : tdb_status * list tdb_value :=
  match sts with
  | [] => (TDB_OK, [])
  | st :: sts =>
      let bl := serial_body_len st in
      if (bl <? 0) || (blen p <? off + bl) then (TDB_CORRUPT, [])
      else
        let v := decode_value st (bfrom p off) bl in
        let '(rc, vs) := decode_bodies sts p (off + bl) (room - 1) in
        (rc, if 0 <? room then v :: vs else vs)
  end.

Section Decode.
Context (alloc_ok : Z -> bool).

(** [tdb_record_decode p len out max ncols]: status, decoded values (at most
    [max]) and column count.  More than 16 columns allocate the array of
    serial types, whose size is computed in [size_t]. *)
Definition tdb_record_decode (p : list Z) (max : Z) : tdb_status * list tdb_value * Z :=
  match tdb_get_varint p (blen p) with
  | None => (TDB_CORRUPT, [], 0)
  | Some (adv, n) =>
      if (16 <? n) && negb (alloc_ok (u64 (8 * n))) then (TDB_NOMEM, [], 0)
      else match decode_serials (S (length p)) p adv n with
      | None => (TDB_CORRUPT, [], 0)
      | Some (sts, off) =>
          match decode_bodies sts p off max with
          | (TDB_OK, vs) => (TDB_OK, vs, s32 n)
          | (rc, vs) => (rc, vs, 0)
          end
      end
  end.

End Decode.

(** ** Key comparison *)

Record tdb_keyinfo := mk_keyinfo {
  ki_ncol : Z;
  ki_coll : option (list tdb_collation);
  ki_desc : option (list bool) }.

(** The column loop of [tdb_record_compare] over the first [n] columns. *)
Fixpoint compare_cols (va vb : list tdb_value) (ki : option tdb_keyinfo) (i n : nat) : Z :=
  match n with
  | O => 0
  | S n =>
      let coll := match ki with
                  | Some k => match ki_coll k with
                              | Some cs => nth i cs TDB_COLL_BINARY
                              | None => TDB_COLL_BINARY
                              end
                  | None => TDB_COLL_BINARY
                  end in
      let c := tdb_value_compare (nth i va VNull) (nth i vb VNull) coll in
      let c := match ki with
               | Some k => match ki_desc k with
                           | Some ds => if nth i ds false then - c else c
                           | None => c
                           end
               | None => c
               end in
      if negb (c =? 0) then c else compare_cols va vb ki (S i) n
  end.

Definition tdb_record_compare (alloc_ok : Z -> bool) (a b : list Z) (ki : option tdb_keyinfo) : Z :=
  let maxa := match ki with
              | Some k => if (0 <? ki_ncol k) && (ki_ncol k <=? 16) then ki_ncol k else 16
              | None => 16
              end in
  match tdb_record_decode alloc_ok a maxa with
  | (TDB_OK, va, ca) =>
      match tdb_record_decode alloc_ok b maxa with
      | (TDB_OK, vb, cb) =>
          let n := if ca <? cb then ca else cb in
          let result := compare_cols va vb ki 0 (Z.to_nat n) in
          if (result =? 0) && negb (ca =? cb) then (if ca <? cb then -1 else 1) else result
      | _ => 0
      end
  | _ => 0
  end.

(** ** Composite values *)

Section Composite.
Context (alloc_ok : Z -> bool).

Definition tdb_value_composite_pack (fields : list tdb_value) : tdb_status * tdb_value :=
  match tdb_record_encode alloc_ok fields tdb_buf_init with
  | (TDB_OK, b) => tdb_value_set_composite alloc_ok (b_data b) (s32 (b_len b)) true
  | (rc, _) => (rc, VNull)
  end.

Definition tdb_value_composite_count (v : tdb_value) : Z :=
  match v with
  | VComposite s =>
      match tdb_record_decode alloc_ok s 0 with
      | (TDB_OK, _, nc) => nc
      | _ => 0
      end
  | _ => 0
  end.

(** [sizeof(tdb_value)] is 24. *)
Definition tdb_value_composite_field (v : tdb_value) (i : Z) : tdb_status * tdb_value :=
  match v with
  | VComposite s =>
      if i <? 0 then (TDB_RANGE, VNull)
      else
        let want := i + 1 in
        if alloc_ok (24 * want) then
          match tdb_record_decode alloc_ok s want with
          | (TDB_OK, fs, nc) =>
              if i <? nc then tdb_value_copy alloc_ok (nth (Z.to_nat i) fs VNull)
              else (TDB_RANGE, VNull)
          | (rc, _, _) => (rc, VNull)
          end
        else (TDB_NOMEM, VNull)
  | _ => (TDB_RANGE, VNull)
  end.

End Composite.

(** ** Big-endian signed integers *)

Lemma s64_mod z : exists k, s64 z = z + k * 18446744073709551616.
Proof.
  unfold s64. exists (- ((z + 9223372036854775808) / 18446744073709551616)).
  pose proof (Z.div_mod (z + 9223372036854775808) 18446744073709551616). lia.
Qed.
Lemma s64_small z : - 2 ^ 63 <= z < 2 ^ 63 -> s64 z = z.
Proof. intros. unfold s64. rewrite Z.mod_small; lia. Qed.
Lemma s64_cong a b k : a = b + k * 18446744073709551616 -> s64 a = s64 b.
Proof.
  intros ->. unfold s64. f_equal.
  replace (b + k * 18446744073709551616 + 9223372036854775808)
    with (b + 9223372036854775808 + k * 18446744073709551616) by lia.
  apply Z.mod_add. lia.
Qed.

Definition be_value (l : list Z) : Z := foldl (fun v b => v * 256 + b) 0 l.
Lemma be_value_acc l v : foldl (fun v b => v * 256 + b) v l = v * 256 ^ blen l + be_value l.
Proof.
  unfold be_value. revert v. induction l as [|b l IH]; intros v; [change (blen []) with 0; simpl; lia|].
  cbn [foldl]. rewrite IH, (IH (0 * 256 + b)), blen_cons, Z.pow_add_r by (pose proof (blen_nonneg l); lia).
  rewrite Z.pow_1_r. ring.
Qed.
Lemma foldl_s64 l v :
  bytes_ok l ->
  foldl (fun v b => s64 (Z.lor (Z.shiftl v 8) b)) (s64 v) l = s64 (v * 256 ^ blen l + be_value l).
Proof.
  intros Hl. revert v. induction Hl as [|b l Hb Hl IH]; intros v.
  { change (be_value []) with 0. change (blen []) with 0. simpl. f_equal. lia. }
  cbn [foldl]. unfold is_byte in Hb.
  rewrite Z.lor_comm, lor_shiftl_add by lia.
  destruct (s64_mod v) as [k Hk]. rewrite Hk.
  rewrite (s64_cong (b + (v + k * 18446744073709551616) * 2 ^ 8) (v * 256 + b) (k * 256)) by lia.
  rewrite IH. f_equal. unfold be_value at 2. cbn [foldl]. rewrite be_value_acc, blen_cons.
  rewrite Z.pow_add_r by (pose proof (blen_nonneg l); lia). rewrite Z.pow_1_r. ring.
Qed.

Lemma length_put_be_signed v n : length (put_be_signed v n) = n.
Proof. revert v. induction n as [|n IH]; intros v; [done|]. simpl. rewrite length_app, IH. simpl. lia. Qed.
Lemma put_be_signed_bytes v n : bytes_ok (put_be_signed v n).
Proof.
  revert v. induction n as [|n IH]; intros v; [constructor|]. simpl. apply bytes_ok_app.
  split; [apply IH|repeat constructor; apply u8_range].
Qed.
Lemma pow256_pos n : 0 < 256 ^ Z.of_nat n.
Proof. apply Z.pow_pos_nonneg; lia. Qed.
Lemma put_be_signed_head v n :
  put_be_signed v (S n) = u8 (v / 256 ^ Z.of_nat n) :: put_be_signed v n.
Proof.
  revert v. induction n as [|n IH]; intros v.
  { simpl. rewrite land_255. unfold u8. rewrite Z.mod_mod by lia. do 2 f_equal. by rewrite Z.div_1_r. }
  change (put_be_signed v (S (S n))) with (put_be_signed (Z.shiftr v 8) (S n) ++ [u8 (Z.land v 255)]).
  rewrite IH. cbn [app]. f_equal. rewrite Z.shiftr_div_pow2, Z.div_div by (pose proof (pow256_pos n); lia).
  do 2 f_equal. rewrite Nat2Z.inj_succ, Z.pow_succ_r by lia. lia.
Qed.
Lemma be_value_put v n : be_value (put_be_signed v n) = v mod 256 ^ Z.of_nat n.
Proof.
  revert v. induction n as [|n IH]; intros v; [symmetry; apply Z.mod_1_r|].
  cbn [put_be_signed]. unfold be_value in *. rewrite foldl_app. cbn [foldl]. rewrite IH.
  rewrite land_255. unfold u8. rewrite Z.mod_mod, Z.shiftr_div_pow2 by lia. change (2 ^ 8) with 256.
  rewrite Nat2Z.inj_succ, Z.pow_succ_r, Z.rem_mul_r by (try (pose proof (pow256_pos n)); lia). lia.
Qed.

Lemma get_put_be_signed v n rest :
  (0 < n <= 8)%nat -> - 2 ^ (8 * Z.of_nat n - 1) <= v < 2 ^ (8 * Z.of_nat n - 1) ->
  get_be_signed (put_be_signed v n ++ rest) n = v.
Proof.
  intros Hn Hv. destruct n as [|m]; [lia|]. unfold get_be_signed.
  rewrite take_app_le, take_ge by (rewrite length_put_be_signed; lia).
  pose proof (pow256_pos m) as Hp.
  assert (2 ^ (8 * Z.of_nat (S m) - 1) = 128 * 256 ^ Z.of_nat m) as E.
  { replace (8 * Z.of_nat (S m) - 1) with (7 + 8 * Z.of_nat m) by lia.
    rewrite Z.pow_add_r, Z.pow_mul_r by lia. done. }
  assert (256 ^ Z.of_nat m <= 256 ^ 7) by (apply Z.pow_le_mono_r; lia).
  rewrite E in Hv.
  assert (bget (put_be_signed v (S m) ++ rest) 0 = u8 (v / 256 ^ Z.of_nat m)) as ->
    by (by rewrite put_be_signed_head).
  set (v0 := if Z.land (u8 (v / 256 ^ Z.of_nat m)) 128 =? 0 then 0 else -1).
  assert (v0 = if v <? 0 then -1 else 0) as Hv0.
  { unfold v0. destruct (Z.ltb_spec v 0).
    - assert (-128 <= v / 256 ^ Z.of_nat m < 0) as Hq
        by (split; [apply Z.div_le_lower_bound; lia|apply Z.div_lt_upper_bound; lia]).
      replace (u8 (v / 256 ^ Z.of_nat m)) with (v / 256 ^ Z.of_nat m + 128 + 128)
        by (unfold u8; rewrite <- (Z.mod_add _ 1), Z.mod_small by lia; lia).
      by rewrite more_bit by lia.
    - assert (0 <= v / 256 ^ Z.of_nat m < 128) as Hq
        by (split; [apply Z.div_pos; lia|apply Z.div_lt_upper_bound; lia]).
      rewrite u8_small by lia. by rewrite last_bit by lia. }
  rewrite <- (s64_small v0) by (rewrite Hv0; destruct (v <? 0); lia).
  rewrite foldl_s64, be_value_put by apply put_be_signed_bytes.
  unfold blen. rewrite length_put_be_signed, Nat2Z.inj_succ, Z.pow_succ_r by lia.
  rewrite Hv0. destruct (Z.ltb_spec v 0).
  - replace (v mod (256 * 256 ^ Z.of_nat m)) with (v + 256 * 256 ^ Z.of_nat m).
    + rewrite s64_small; lia.
    + rewrite <- (Z.mod_add v 1) by lia. rewrite Z.mod_small; lia.
  - rewrite Z.mod_small by lia. rewrite s64_small; lia.
Qed.

(** ** The layout of a record *)

(** A value the C struct can hold. *)
Definition value_ok (v : tdb_value) : Prop :=
  match v with
  | VNull => True
  | VInt i => - 2 ^ 63 <= i < 2 ^ 63
  | VReal b => 0 <= b < 2 ^ 64
  | VText s | VBlob s | VComposite s => blen s < 2 ^ 31
  end.

(** What a column reads back as: composites are stored as blobs. *)
Definition stored_value (v : tdb_value) : tdb_value :=
  match v with VComposite s => VBlob s | v => v end.

Definition serials_bytes (vals : list tdb_value) : list Z :=
  flat_map (fun v => tdb_put_varint (value_serial v).1) vals.
Definition bodies_bytes (vals : list tdb_value) : list Z :=
  flat_map (fun v => value_body v (value_serial v).2) vals.
Definition record_bytes (vals : list tdb_value) : list Z :=
  tdb_put_varint (Z.of_nat (length vals)) ++ serials_bytes vals ++ bodies_bytes vals.

(** The room the encoder may ask for. *)
Definition bodies_room (vals : list tdb_value) : Z :=
  foldr (fun v a => (value_serial v).2 + 8 + a) 0 vals.

(** Serial type, body length and body of a value agree with each other and
    with the decoder. *)
Definition serial_sound (v : tdb_value) : Prop :=
  0 <= (value_serial v).1 < 2 ^ 64 /\ 0 <= (value_serial v).2 < 2 ^ 31
  /\ serial_body_len (value_serial v).1 = (value_serial v).2
  /\ blen (value_body v (value_serial v).2) = (value_serial v).2
  /\ forall rest, decode_value (value_serial v).1 (value_body v (value_serial v).2 ++ rest) (value_serial v).2
                  = stored_value v.

Lemma int_body_spec i st bl :
  1 <= st <= 6 -> 0 < bl <= 8 -> - 2 ^ (8 * bl - 1) <= i < 2 ^ (8 * bl - 1) ->
  blen (put_be_signed i (Z.to_nat bl)) = bl
  /\ forall rest, decode_value st (put_be_signed i (Z.to_nat bl) ++ rest) bl = VInt i.
Proof.
  intros Hst Hn Hi. split; [unfold blen; rewrite length_put_be_signed; lia|].
  intros rest. unfold decode_value. kill_eqb.
  replace ((1 <=? st) && (st <=? 6)) with true by lia.
  rewrite get_put_be_signed by (rewrite ?Z2Nat.id; lia). done.
Qed.
Lemma int_serial_spec i : - 2 ^ 63 <= i < 2 ^ 63 -> serial_sound (VInt i).
Proof.
  intros Hi. unfold serial_sound, value_serial, int_serial_type, value_body, stored_value.
  destruct (Z.eqb_spec i 0) as [->|]; [repeat split; cbn; lia || done|].
  destruct (Z.eqb_spec i 1) as [->|]; [repeat split; cbn; lia || done|].
  repeat match goal with
  | |- context [if ?b then _ else _] => destruct b eqn:?
  end;
  (split; [cbn; lia|]; split; [cbn; lia|]; split; [reflexivity|]; apply int_body_spec; cbn; lia).
Qed.
Lemma bytes_serial_spec s (t : Z) :
  t = 12 \/ t = 13 -> blen s < 2 ^ 31 ->
  let st := u64 (t + 2 * u32 (blen s)) in
  0 <= st < 2 ^ 64 /\ 0 <= blen s < 2 ^ 31 /\ serial_body_len st = blen s
  /\ blen (bsub s 0 (blen s)) = blen s
  /\ forall rest, decode_value st (bsub s 0 (blen s) ++ rest) (blen s) = if t =? 12 then VBlob s else VText s.
Proof.
  intros Ht Hs st. pose proof (blen_nonneg s).
  assert (st = t + 2 * blen s) as Est by (unfold st; rewrite u32_small, u64_small; rewrite ?u32_small; lia).
  clearbody st. rewrite bsub_all by done. split; [lia|]. split; [lia|].
  repeat split.
  - unfold serial_body_len. kill_eqb.
    replace (12 <=? st) with true by lia.
    replace ((st - 12) / 2) with (blen s); [apply s32_small; lia|].
    apply (Z.div_unique _ 2 _ (t - 12)); lia.
  - intros rest. unfold decode_value. kill_eqb.
    replace ((1 <=? st) && (st <=? 6)) with false by lia.
    replace (12 <=? st) with true by lia. cbn [andb].
    rewrite bsub_app_l, bsub_all by lia.
    assert (st mod 2 = t - 12) as -> by (symmetry; apply (Z.mod_unique _ 2 (blen s + 6)); lia).
    destruct Ht as [-> | ->]; done.
Qed.
Lemma value_serial_spec v : value_ok v -> serial_sound v.
Proof.
  destruct v as [|i|b|s|s|s]; intros Hv; simpl in Hv.
  - repeat split; cbn; lia || done.
  - by apply int_serial_spec.
  - unfold serial_sound. cbn [value_serial fst snd value_body stored_value].
    repeat split; try lia; try done. intros rest. unfold decode_value. cbn [Z.eqb Pos.eqb Z.leb Z.compare Pos.compare Pos.compare_cont andb].
    by rewrite get_put_u64, u64_small.
  - apply (bytes_serial_spec s 13); auto.
  - apply (bytes_serial_spec s 12); auto.
  - apply (bytes_serial_spec s 12); auto.
Qed.

(** ** Encoding writes the layout *)
(** What encoding leaves: the bytes appended, or NOMEM on a buffer that is
    still well formed and still starts with what it held. *)
Definition enc_result (alloc_ok : Z -> bool) (out : tdb_buf) (bytes : list Z) (r : tdb_status * tdb_buf) : Prop :=
  buf_wf r.2 /\
  ((r.1 = TDB_OK /\ b_data r.2 = b_data out ++ bytes)
   \/ (r.1 = TDB_NOMEM /\ b_data out `prefix_of` b_data r.2 /\ exists n, alloc_ok n = false)).

Lemma enc_result_adds alloc_ok out bytes r : buf_wf out -> buf_adds alloc_ok out bytes r -> enc_result alloc_ok out bytes r.
Proof. intros Hw [(E & D & W)|(E & D & n)]; destruct r as [rc b]; simpl in *; subst; split; simpl; auto. Qed.
Lemma enc_result_then alloc_ok out b1 b2 r k :
  enc_result alloc_ok out b1 r ->
  (forall o, buf_wf o -> b_data o = b_data out ++ b1 -> enc_result alloc_ok o b2 (k o)) ->
  enc_result alloc_ok out (b1 ++ b2) (match r with (TDB_OK, o) => k o | (rc, o) => (rc, o) end).
Proof.
  intros [W [(E & D)|(E & D)]] Hk; destruct r as [rc o]; simpl in *; subst rc.
  - destruct (Hk o W D) as [W' [(E' & D')|(E' & D')]]; split; auto.
    + left. rewrite D', D, app_assoc. done.
    + right. split; [done|]. destruct D' as [D' ?]. split; [|done]. rewrite D in D'. eapply prefix_app_l. done.
  - split; auto.
Qed.

Lemma serials_bytes_len vals :
  Forall value_ok vals -> blen (serials_bytes vals) <= 10 * Z.of_nat (length vals).
Proof.
  induction 1 as [|v vals Hv _ IH]; [done|]. unfold serials_bytes in *. cbn [flat_map length].
  pose proof (put_varint_len _ (proj1 (value_serial_spec v Hv))). blia.
Qed.
Lemma encode_serials_spec alloc_ok vals out :
  Forall value_ok vals -> buf_wf out -> b_len out + 10 * Z.of_nat (length vals) + 10 <= 2 ^ 63 ->
  enc_result alloc_ok out (serials_bytes vals) (encode_serials alloc_ok vals out).
Proof.
  intros Hv. revert out. induction Hv as [|v vals Hv _ IH]; intros out Hw Hr.
  - split; [done|]. left. by rewrite app_nil_r.
  - cbn [encode_serials]. destruct (value_serial_spec v Hv) as (Hst & _).
    pose proof (put_varint_len _ Hst).
    cbn [length] in Hr. unfold serials_bytes. cbn [flat_map]. apply enc_result_then.
    + apply enc_result_adds; [done|]. apply buf_put_varint_adds; [done|lia..].
    + intros o Ho Hd. apply IH; [done|]. unfold b_len in *. rewrite Hd. blia.
Qed.

Lemma bodies_room_nonneg vals : Forall value_ok vals -> 0 <= bodies_room vals.
Proof.
  induction 1 as [|v vals Hv _ IH]; cbn [bodies_room foldr]; [lia|]. fold (bodies_room vals).
  destruct (value_serial_spec v Hv) as (_ & Hbl & _). lia.
Qed.
Lemma body_skipped_nil v : body_skipped v (value_serial v).2 = true -> value_body v (value_serial v).2 = [].
Proof.
  unfold body_skipped. intros [H1%Z.eqb_eq H2]%andb_prop. destruct v; try done. cbn [value_body]. by rewrite H1.
Qed.
Lemma encode_bodies_spec alloc_ok vals out :
  Forall value_ok vals -> buf_wf out -> b_len out + bodies_room vals <= 2 ^ 63 ->
  enc_result alloc_ok out (bodies_bytes vals) (encode_bodies alloc_ok vals out).
Proof.
  intros Hv. revert out. induction Hv as [|v vals Hv Hvs IH]; intros out Hw Hr.
  - split; [done|]. left. by rewrite app_nil_r.
  - destruct (value_serial_spec v Hv) as (_ & Hbl & _ & Hlen & _).
    pose proof (bodies_room_nonneg vals Hvs).
    cbn [bodies_room foldr] in Hr. fold (bodies_room vals) in Hr.
    cbn [encode_bodies]. unfold bodies_bytes. cbn [flat_map].
    destruct (body_skipped v (value_serial v).2) eqn:Hs.
    + rewrite body_skipped_nil by done. apply IH; [done|lia].
    + pose proof (buf_extend_spec alloc_ok out (value_body v (value_serial v).2) ((value_serial v).2 + 8) Hw ltac:(lia) ltac:(lia) ltac:(lia)) as Hx.
      pose proof (enc_result_then alloc_ok out _ (bodies_bytes vals) _ (encode_bodies alloc_ok vals)
        (enc_result_adds _ _ _ _ Hw Hx)) as Ht.
      destruct (tdb_buf_reserve _ _ _) as [[] b']; apply Ht; intros o Ho Hd; apply IH; try done;
        unfold b_len in *; rewrite Hd; blia.
Qed.

Lemma record_encode_spec alloc_ok vals out :
  Forall value_ok vals -> buf_wf out ->
  b_len out + 20 + 10 * Z.of_nat (length vals) + bodies_room vals <= 2 ^ 63 ->
  enc_result alloc_ok out (record_bytes vals) (tdb_record_encode alloc_ok vals out).
Proof.
  intros Hv Hw Hr. unfold tdb_record_encode. pose proof (bodies_room_nonneg vals Hv).
  pose proof (blen_nonneg (b_data out)) as Hb0. fold (b_len out) in Hb0.
  destruct ((16 <? _) && _) eqn:Ha.
  { split; [done|right]. split; [done|]. split; [done|]. apply andb_prop in Ha as [_ Ha%negb_true_iff].
    apply andb_false_iff in Ha as [Ha|Ha]; eauto. }
  set (n := Z.of_nat (length vals)) in *.
  assert (0 <= n < 2 ^ 64) as Hn by lia. pose proof (put_varint_len n Hn) as Hnl.
  unfold record_bytes. fold n. apply enc_result_then.
  { apply enc_result_adds; [done|]. apply buf_put_varint_adds; [done|lia..]. }
  intros o Ho Hd. apply enc_result_then.
  { apply encode_serials_spec; [done..|]. unfold b_len in *. rewrite Hd. blia. }
  intros o2 Ho2 Hd2. apply encode_bodies_spec; [done..|]. unfold b_len in *. rewrite Hd2, Hd.
  pose proof (serials_bytes_len vals Hv). blia.
Qed.

(** ** Decoding reads the layout back *)

Lemma get_varint_bounds p avail n v :
  bytes_ok p -> tdb_get_varint p avail = Some (n, v) -> 1 <= n <= avail /\ n <= 10 /\ 0 <= v < 2 ^ 64.
Proof. intros Hp E. destruct (get_varint_loop_bounds 10 p avail 0 0 0 n v) as (? & ? & ?); auto; lia. Qed.

Lemma decode_serials_layout fuel vals pre rest :
  Forall value_ok vals -> (length vals <= fuel)%nat ->
  decode_serials fuel (pre ++ serials_bytes vals ++ rest) (blen pre) (Z.of_nat (length vals))
  = Some (map (fun v => (value_serial v).1) vals, blen pre + blen (serials_bytes vals)).
Proof.
  intros Hv. revert fuel pre. induction Hv as [|v vals Hv Hvs IH]; intros fuel pre Hf.
  { destruct fuel; cbn; rewrite Z.add_0_r; done. }
  destruct fuel as [|fuel]; cbn [length] in *; [lia|].
  destruct (value_serial_spec v Hv) as (Hst & _).
  pose proof (put_varint_len _ Hst). pose proof (blen_nonneg rest).
  pose proof (blen_nonneg (serials_bytes vals)).
  change (serials_bytes (v :: vals)) with (tdb_put_varint (value_serial v).1 ++ serials_bytes vals).
  cbn [decode_serials]. kill_eqb.
  rewrite <- app_assoc, bfrom_app by done.
  rewrite get_put_varint by blia.
  replace (Z.of_nat (S (length vals)) - 1) with (Z.of_nat (length vals)) by lia.
  rewrite (app_assoc pre). rewrite <- blen_app, IH by lia.
  do 2 f_equal. blia.
Qed.

Lemma decode_bodies_layout vals pre rest room :
  Forall value_ok vals ->
  decode_bodies (map (fun v => (value_serial v).1) vals) (pre ++ bodies_bytes vals ++ rest) (blen pre) room
  = (TDB_OK, map stored_value (take (Z.to_nat room) vals)).
Proof.
  intros Hv. revert pre room. induction Hv as [|v vals Hv Hvs IH]; intros pre room.
  { cbn. by rewrite take_nil. }
  destruct (value_serial_spec v Hv) as (Hst & Hbl & Eb & Hlen & Hdec).
  pose proof (blen_nonneg rest). pose proof (blen_nonneg pre). pose proof (blen_nonneg (bodies_bytes vals)).
  change (bodies_bytes (v :: vals)) with (value_body v (value_serial v).2 ++ bodies_bytes vals).
  rewrite <- app_assoc. cbn [map decode_bodies]. rewrite Eb.
  replace (_ || _) with false by (rewrite !blen_app, Hlen; lia).
  rewrite bfrom_app, Hdec by done.
  replace (blen pre + (value_serial v).2) with (blen (pre ++ value_body v (value_serial v).2)) by blia.
  rewrite (app_assoc pre), IH.
  destruct (Z.ltb_spec 0 room).
  - replace (Z.to_nat room) with (S (Z.to_nat (room - 1))) by lia. done.
  - replace (Z.to_nat room) with O by lia. replace (Z.to_nat (room - 1)) with O by lia. done.
Qed.

Lemma record_decode_layout alloc_ok vals rest max :
  Forall value_ok vals -> Z.of_nat (length vals) < 2 ^ 31 ->
  (Z.of_nat (length vals) <= 16 \/ alloc_ok (8 * Z.of_nat (length vals)) = true) ->
  tdb_record_decode alloc_ok (record_bytes vals ++ rest) max
  = (TDB_OK, map stored_value (take (Z.to_nat max) vals), Z.of_nat (length vals)).
Proof.
  intros Hv Hn Ha. unfold tdb_record_decode. set (n := Z.of_nat (length vals)) in *.
  pose proof (put_varint_len n). pose proof (blen_nonneg rest). pose proof (blen_nonneg (serials_bytes vals)).
  pose proof (blen_nonneg (bodies_bytes vals)).
  unfold record_bytes. fold n. rewrite <- !app_assoc.
  rewrite get_put_varint by blia.
  replace ((16 <? n) && negb (alloc_ok (u64 (8 * n)))) with false.
  2: { rewrite u64_small by lia. destruct Ha as [|Ha]; [lia|]. by rewrite Ha, andb_false_r. }
  assert (length vals <= length (serials_bytes vals))%nat as Hf.
  { clear -Hv. induction Hv as [|v vals Hv _ IH]; [done|]. unfold serials_bytes in *. cbn [flat_map length].
    pose proof (put_varint_len _ (proj1 (value_serial_spec v Hv))) as Hl. rewrite length_app. unfold blen in Hl. lia. }
  rewrite decode_serials_layout; [|done|rewrite !length_app; lia].
  rewrite app_assoc, <- blen_app, decode_bodies_layout by done.
  by rewrite s32_small by lia.
Qed.

(** ** Arbitrary input *)

(** The loop of the serial types consumes at least one byte a round: more
    fuel than there are bytes changes nothing. *)
Lemma decode_serials_fuel f g p off n :
  bytes_ok p -> 0 <= off -> blen p - off < Z.of_nat f -> (f <= g)%nat ->
  decode_serials g p off n = decode_serials f p off n.
Proof.
  intros Hp. revert g off n. induction f as [|f IH]; intros g off n Ho Hf Hg.
  { destruct g; [done|]. cbn [decode_serials]. destruct (n =? 0); [done|].
    destruct (tdb_get_varint _ _) as [[adv st]|] eqn:E; [|done].
    apply get_varint_bounds in E; [lia|by apply bytes_ok_bfrom]. }
  destruct g as [|g]; [lia|]. cbn [decode_serials]. destruct (n =? 0); [done|].
  destruct (tdb_get_varint _ _) as [[adv st]|] eqn:E; [|done].
  apply get_varint_bounds in E; [|by apply bytes_ok_bfrom]. rewrite (IH g) by lia. done.
Qed.
Lemma decode_serials_bounds f p off n sts off' :
  bytes_ok p -> 0 <= off <= blen p -> 0 <= n -> decode_serials f p off n = Some (sts, off') ->
  off + n <= off' <= blen p /\ Z.of_nat (length sts) = n /\ Forall (fun st => 0 <= st < 2 ^ 64) sts.
Proof.
  intros Hp. revert off n sts. induction f as [|f IH]; intros off n sts Ho Hn E; cbn [decode_serials] in E;
    destruct (Z.eqb_spec n 0); simplify_eq/=; try (repeat split; auto; lia).
  destruct (tdb_get_varint _ _) as [[adv st]|] eqn:Ev; [|done].
  apply get_varint_bounds in Ev; [|by apply bytes_ok_bfrom].
  destruct (decode_serials f _ _ _) as [[sts' o]|] eqn:Er; [|done]. simplify_eq.
  apply IH in Er; [|lia..]. destruct Er as (? & ? & ?). cbn [length]. repeat split; try lia. constructor; auto. lia.
Qed.

(** A decoded value whose bytes, if it has any, are bytes of the record. *)
Definition decoded_within (p : list Z) (v : tdb_value) : Prop :=
  match v with
  | VNull | VInt _ | VReal _ => True
  | VText s | VBlob s => exists o, 0 <= o /\ o + blen s <= blen p /\ s = bsub p o (blen s)
  | VComposite _ => False
  end.
Lemma decode_bodies_within sts p off room :
  0 <= off <= blen p ->
  Forall (decoded_within p) (decode_bodies sts p off room).2
  /\ ((decode_bodies sts p off room).1 = TDB_OK ->
      length (decode_bodies sts p off room).2 = (length sts `min` Z.to_nat room)%nat)
  /\ ((decode_bodies sts p off room).1 = TDB_OK \/ (decode_bodies sts p off room).1 = TDB_CORRUPT).
Proof.
  revert off room. induction sts as [|st sts IH]; intros off room Ho; [repeat split; auto|].
  cbn [decode_bodies]. set (bl := serial_body_len st).
  destruct ((bl <? 0) || (blen p <? off + bl)) eqn:Eb; [cbn; repeat split; auto; done|].
  apply orb_false_iff in Eb as [H1%Z.ltb_ge H2%Z.ltb_ge].
  specialize (IH (off + bl) (room - 1)) as (I1 & I2 & I3); [lia|].
  destruct (decode_bodies sts p (off + bl) (room - 1)) as [rc vs]; cbn [fst snd] in *.
  assert (decoded_within p (decode_value st (bfrom p off) bl)) as Hd.
  { unfold decode_value.
    repeat match goal with |- context [if ?b then _ else _] => destruct b; [exact I || idtac|] end; try exact I;
      exists off; change (bsub (bfrom p off) 0 bl) with (bsub p off bl); (rewrite blen_bsub by lia; auto with lia). }
  destruct (Z.ltb_spec 0 room); cbn [fst snd length]; (split; [try constructor; auto|]); (split; [|done]);
    intros Hrc; rewrite I2 by done; lia.
Qed.

(** ** Comparison *)

Lemma compare_cols_antisym va vb ki i n :
  compare_cols vb va ki i n = - compare_cols va vb ki i n.
Proof.
  revert i. induction n as [|n IH]; intros i; [done|]. cbn [compare_cols].
  rewrite (value_compare_antisym _ (nth i va VNull)). rewrite IH.
  set (c := tdb_value_compare (nth i va VNull) _ _). clearbody c.
  set (d := fun c => match ki with
                     | Some k => match ki_desc k with
                                 | Some ds => if nth i ds false then - c else c
                                 | None => c
                                 end
                     | None => c
                     end).
  assert (d (- c) = - d c) as Hd by (unfold d; repeat case_match; lia).
  change (match ki with Some _ => _ | None => c end) with (d c).
  change (match ki with Some _ => _ | None => - c end) with (d (- c)).
  rewrite Hd. destruct (Z.eqb_spec (d c) 0) as [->|]; [done|].
  destruct (Z.eqb_spec (- d c) 0); [lia|done].
Qed.

(** The order the comparison of encoded rows should be: the first column that
    differs under its collation and direction decides, then the shorter row
    comes first. *)
Definition row_compare (ki : option tdb_keyinfo) (a b : list tdb_value) : Z :=
  let c := compare_cols a b ki 0 (length a `min` length b) in
  if c =? 0 then Z.sgn (Z.of_nat (length a) - Z.of_nat (length b)) else c.

Lemma compare_cols_ext va vb va' vb' ki i n :
  (forall j, (i <= j < i + n)%nat -> nth j va VNull = nth j va' VNull /\ nth j vb VNull = nth j vb' VNull) ->
  compare_cols va vb ki i n = compare_cols va' vb' ki i n.
Proof.
  revert i. induction n as [|n IH]; intros i H; [done|]. cbn [compare_cols].
  destruct (H i) as [-> ->]; [lia|]. rewrite (IH (S i)) by (intros; apply H; lia). done.
Qed.

(** ** Composite values and sizes *)

Lemma value_copy_ok alloc_ok v :
  value_ok v -> (forall n, alloc_ok n = true) -> tdb_value_copy alloc_ok v = (TDB_OK, v).
Proof.
  intros Hv Ha. destruct v as [|i|b|s|s|s]; try done; cbn [tdb_value_copy];
    unfold tdb_value_set_text, tdb_value_set_blob, tdb_value_set_composite, value_set_bytes;
    pose proof (blen_nonneg s); rewrite !(proj2 (Z.ltb_ge (blen s) 0)), Ha, bsub_all by done; done.
Qed.
Lemma stored_value_ok v : value_ok v -> value_ok (stored_value v).
Proof. by destruct v. Qed.
Lemma bodies_bytes_len vals : Forall value_ok vals -> blen (bodies_bytes vals) <= bodies_room vals.
Proof.
  induction 1 as [|v vals Hv _ IH]; [done|]. unfold bodies_bytes in *. cbn [flat_map bodies_room foldr].
  fold (bodies_room vals). destruct (value_serial_spec v Hv) as (_ & ? & _ & ? & _). blia.
Qed.
Lemma record_bytes_len vals :
  Forall value_ok vals -> Z.of_nat (length vals) < 2 ^ 64 ->
  blen (record_bytes vals) <= 10 + 10 * Z.of_nat (length vals) + bodies_room vals.
Proof.
  intros Hv Hn. unfold record_bytes. pose proof (put_varint_len (Z.of_nat (length vals))).
  pose proof (serials_bytes_len vals Hv). pose proof (bodies_bytes_len vals Hv). blia.
Qed.

(** ** Properties *)

(** C36. Record round trip: when the buffer has room below 2^63 bytes, encoding
    a row appends a record to the buffer, or reports [TDB_NOMEM] because the
    allocator refused a request; decoding the appended bytes, whatever follows
    them, returns the first [max] columns as stored and the column count. *)
Theorem record_roundtrip alloc_ok vals out rest max :
  Forall value_ok vals -> buf_wf out -> Z.of_nat (length vals) <= 2 ^ 31 - 1 ->
  b_len out + 20 + 10 * Z.of_nat (length vals) + bodies_room vals <= 2 ^ 63 ->
  (forall n, alloc_ok n = true) ->
  exists enc,
    (tdb_record_encode alloc_ok vals out).1 = TDB_OK
    /\ b_data (tdb_record_encode alloc_ok vals out).2 = b_data out ++ enc
    /\ buf_wf (tdb_record_encode alloc_ok vals out).2
    /\ tdb_record_decode alloc_ok (enc ++ rest) max
       = (TDB_OK, map stored_value (take (Z.to_nat max) vals), Z.of_nat (length vals)).
Proof.
  intros Hv Hw Hn Hr Ha. exists (record_bytes vals).
  destruct (record_encode_spec alloc_ok vals out Hv Hw Hr) as [W [(E & D)|(E & _ & n & En)]].
  - repeat split; try done; try apply W. apply record_decode_layout; [done|lia|auto].
  - by rewrite Ha in En.
Qed.
Lemma record_roundtrip_witness :
  exists enc,
    b_data (tdb_record_encode (fun _ => true) [VInt (-300); VText [104; 105]; VNull] tdb_buf_init).2 = enc
    /\ tdb_record_decode (fun _ => true) (enc ++ [7; 7]) 2 = (TDB_OK, [VInt (-300); VText [104; 105]], 3).
Proof.
  destruct (record_roundtrip (fun _ => true) [VInt (-300); VText [104; 105]; VNull] tdb_buf_init [7; 7] 2)
    as (enc & _ & D & _ & R).
  - repeat constructor; cbn; lia.
  - apply buf_init_wf.
  - cbn; lia.
  - vm_compute; congruence.
  - done.
  - exists enc. split; [exact D|exact R].
Defined.

(** Decoding an arbitrary byte string never reads outside it: it reports
    [TDB_CORRUPT] (or [TDB_NOMEM] when the column array cannot be allocated),
    or it succeeds with [min(columns, max)] values, every text or blob of
    which is a slice of the input, and a column count below the input's
    length; and giving the serial-type loop more rounds than the model does
    changes nothing, so it always terminates. *)
Theorem record_decode_safe alloc_ok p max g n off :
  bytes_ok p -> blen p < 2 ^ 31 -> 0 <= off -> (S (length p) <= g)%nat ->
  decode_serials g p off n = decode_serials (S (length p)) p off n
  /\ ((tdb_record_decode alloc_ok p max).1.1 = TDB_CORRUPT
      \/ (tdb_record_decode alloc_ok p max).1.1 = TDB_NOMEM
      \/ (tdb_record_decode alloc_ok p max).1.1 = TDB_OK
         /\ 0 <= (tdb_record_decode alloc_ok p max).2 < blen p
         /\ Z.of_nat (length (tdb_record_decode alloc_ok p max).1.2)
            = Z.max 0 (Z.min (tdb_record_decode alloc_ok p max).2 max))
  /\ Forall (decoded_within p) (tdb_record_decode alloc_ok p max).1.2.
Proof.
  intros Hp Hl Ho Hg. split.
  { apply decode_serials_fuel; try done. unfold blen. lia. }
  unfold tdb_record_decode.
  destruct (tdb_get_varint p (blen p)) as [[adv m]|] eqn:Ev; [|cbn; auto].
  apply get_varint_bounds in Ev; [|done].
  destruct (_ && _); [cbn; auto|].
  destruct (decode_serials _ p adv m) as [[sts o]|] eqn:Es; [|cbn; auto].
  apply decode_serials_bounds in Es as (Hb & Hc & _); [|done|lia..].
  destruct (decode_bodies_within sts p o max) as (I1 & I2 & I3); [lia|].
  destruct (decode_bodies sts p o max) as [rc vs]; cbn [fst snd] in *.
  destruct I3 as [-> | ->]; cbn [fst snd]; [|auto]. split; [|done]. right; right.
  rewrite s32_small by lia. rewrite I2 by done. split; [done|]. lia.
Qed.
Lemma record_decode_safe_witness :
  Forall (decoded_within [2; 15; 1; 65; 200]) (tdb_record_decode (fun _ => true) [2; 15; 1; 65; 200] 9).1.2.
Proof.
  apply (record_decode_safe (fun _ => true) [2; 15; 1; 65; 200] 9 6 1 0);
    [by apply bytes_okb_ok|reflexivity|lia|cbn; lia].
Defined.

(** Key comparison on encoded rows is row comparison: two rows of at most
    16 columns are ordered by the first column that differs under its
    collation and direction, then by length; and on any two byte strings,
    valid or not, swapping the operands negates the result. *)
Theorem record_compare_rows alloc_ok ki a b p q :
  Forall value_ok a -> Forall value_ok b ->
  Z.of_nat (length a) <= 16 -> Z.of_nat (length b) <= 16 ->
  (forall k, ki = Some k -> Z.of_nat (length a `min` length b) <= ki_ncol k) ->
  tdb_record_compare alloc_ok (record_bytes a) (record_bytes b) ki
  = row_compare ki (map stored_value a) (map stored_value b)
  /\ tdb_record_compare alloc_ok q p ki = - tdb_record_compare alloc_ok p q ki.
Proof.
  intros Ha Hb Hna Hnb Hki. split.
  - unfold tdb_record_compare.
    set (maxa := match ki with Some _ => _ | None => 16 end).
    assert (Z.of_nat (length a `min` length b) <= maxa) as Hmax.
    { unfold maxa. destruct ki as [k|]; [|lia]. specialize (Hki k eq_refl). destruct (_ && _); lia. }
    clearbody maxa. rewrite <- (app_nil_r (record_bytes a)), <- (app_nil_r (record_bytes b)).
    rewrite !record_decode_layout by (auto; lia).
    unfold row_compare. rewrite !length_map.
    replace (Z.to_nat (if Z.of_nat (length a) <? Z.of_nat (length b) then Z.of_nat (length a) else Z.of_nat (length b)))
      with (length a `min` length b)%nat by (destruct (Z.ltb_spec (Z.of_nat (length a)) (Z.of_nat (length b))); lia).
    rewrite (compare_cols_ext _ _ (map stored_value a) (map stored_value b)).
    + destruct (Z.eqb_spec (compare_cols (map stored_value a) (map stored_value b) ki 0 (length a `min` length b)) 0) as [->|]; [|done].
      cbn [andb]. destruct (Z.eqb_spec (Z.of_nat (length a)) (Z.of_nat (length b))) as [->|]; cbn [negb]; [by rewrite Z.sub_diag|].
      destruct (Z.ltb_spec (Z.of_nat (length a)) (Z.of_nat (length b))); lia.
    + intros j Hj. rewrite <- !(firstn_map stored_value), !nth_firstn. destruct (Nat.ltb_spec j (Z.to_nat maxa)); [done|lia].
  - unfold tdb_record_compare.
    destruct (tdb_record_decode alloc_ok p _) as [[[] va] ca]; destruct (tdb_record_decode alloc_ok q _) as [[[] vb] cb]; try done.
    rewrite (compare_cols_antisym va vb).
    replace (if cb <? ca then cb else ca) with (if ca <? cb then ca else cb)
      by (destruct (Z.ltb_spec ca cb); destruct (Z.ltb_spec cb ca); lia).
    destruct (Z.eqb_spec (compare_cols va vb ki 0 (Z.to_nat (if ca <? cb then ca else cb))) 0) as [->|Hne].
    + change (- 0) with 0. rewrite !Z.eqb_refl, (Z.eqb_sym cb ca). cbn [andb].
      destruct (Z.eqb_spec ca cb); cbn [negb]; [done|].
      destruct (Z.ltb_spec ca cb); destruct (Z.ltb_spec cb ca); lia.
    + destruct (Z.eqb_spec (- compare_cols va vb ki 0 (Z.to_nat (if ca <? cb then ca else cb))) 0); [lia|]. done.
Qed.
Lemma record_compare_rows_witness :
  tdb_record_compare (fun _ => true) (record_bytes [VInt 5; VText [98]]) (record_bytes [VInt 5; VText [97]]) None = 1.
Proof.
  apply (record_compare_rows (fun _ => true) None [VInt 5; VText [98]] [VInt 5; VText [97]] [] []);
    [repeat constructor; cbn; lia|repeat constructor; cbn; lia|cbn; lia|cbn; lia|done].
Defined.

(** Composite values: packing fields that fit an [int] length builds a
    composite whose field count and fields are the ones packed; a field index
    outside the composite is [TDB_RANGE].  A field that is itself a composite
    comes back as a blob of the same bytes: the nested type is lost. *)
Theorem composite_fields alloc_ok fields i :
  Forall value_ok fields -> 10 + 10 * Z.of_nat (length fields) + bodies_room fields < 2 ^ 31 ->
  (forall n, alloc_ok n = true) ->
  exists c,
    tdb_value_composite_pack alloc_ok fields = (TDB_OK, VComposite c)
    /\ tdb_value_composite_count alloc_ok (VComposite c) = Z.of_nat (length fields)
    /\ tdb_value_composite_field alloc_ok (VComposite c) i
       = (if (0 <=? i) && (i <? Z.of_nat (length fields))
          then (TDB_OK, stored_value (nth (Z.to_nat i) fields VNull)) else (TDB_RANGE, VNull)).
Proof.
  intros Hv Hr Ha. pose proof (bodies_room_nonneg fields Hv) as Hr0.
  pose proof (record_bytes_len fields Hv ltac:(lia)) as Hlen. pose proof (blen_nonneg (record_bytes fields)).
  exists (record_bytes fields).
  assert (forall max, tdb_record_decode alloc_ok (record_bytes fields) max
    = (TDB_OK, map stored_value (take (Z.to_nat max) fields), Z.of_nat (length fields))) as Hdec.
  { intros max. rewrite <- (app_nil_r (record_bytes fields)). apply record_decode_layout; [done|lia|auto]. }
  split; [|split].
  - unfold tdb_value_composite_pack.
    destruct (record_encode_spec alloc_ok fields tdb_buf_init Hv buf_init_wf) as [W [(E & D)|(E & _ & n & En)]].
    + change (b_len tdb_buf_init) with 0. lia.
    + destruct (tdb_record_encode alloc_ok fields tdb_buf_init) as [rc b]. cbn [fst snd] in E, D. subst rc.
      unfold b_len. rewrite D. cbn [app b_data tdb_buf_init].
      rewrite s32_small by lia. unfold tdb_value_set_composite, value_set_bytes.
      rewrite (proj2 (Z.ltb_ge (blen (record_bytes fields)) 0)), Ha, bsub_all by done. done.
    + by rewrite Ha in En.
  - unfold tdb_value_composite_count. by rewrite Hdec.
  - unfold tdb_value_composite_field. destruct (Z.ltb_spec i 0).
    { replace (0 <=? i) with false by lia. done. }
    rewrite Ha, Hdec. replace (0 <=? i) with true by lia. cbn [andb].
    destruct (Z.ltb_spec i (Z.of_nat (length fields))); [|done].
    rewrite <- (firstn_map stored_value), nth_firstn.
    destruct (Nat.ltb_spec (Z.to_nat i) (Z.to_nat (i + 1))); [|lia].
    change VNull with (stored_value VNull) at 1. rewrite map_nth.
    apply value_copy_ok; [|done]. apply stored_value_ok. eapply Forall_forall; [exact Hv|].
    apply list_elem_of_In, nth_In. lia.
Qed.
Lemma composite_fields_witness :
  exists c,
    tdb_value_composite_pack (fun _ => true) [VInt 7; VComposite [1; 8]] = (TDB_OK, VComposite c)
    /\ tdb_value_composite_field (fun _ => true) (VComposite c) 1 = (TDB_OK, VBlob [1; 8]).
Proof.
  destruct (composite_fields (fun _ => true) [VInt 7; VComposite [1; 8]] 1) as (c & P & _ & F);
    [repeat constructor; cbn; lia|vm_compute; reflexivity|done|].
  exists c. split; [exact P|exact F].
Defined.
