(* ===== verification/Cnum.v ===== *)
(** * Numbers as text

    What the sources use of the C library to read and print numbers:
    [strtoll] and [strtod] with their end pointer, and [%g].  A binary64
    number is a [spec_float]; both directions round to nearest, ties to even,
    from the exact value. *)
From Stdlib Require Import SpecFloat.
From S2P Require Import Prelude Value.

(** ** [strtoll(s, &end, 10)]

    The number, and the string from [end] on. *)
Definition strtoll_end (s : list Z) : Z * list Z :=
  let '(neg, t) :=
    match skip_space s with
    | c :: t => if c =? 45 then (true, t) else if c =? 43 then (false, t) else (false, c :: t)
    | [] => (false, [])
    end in
  match t with
  | c :: _ => if isdigit c then let '(v, r) := scan_digits t 0 in (clamp64 (if neg : bool then - v else v), r) else (0, s)
  | [] => (0, s)
  end.

(** ** Exact values rounded *)

(** [m * 2^e].  Exponents beyond the range are cut off before the power is
    computed. *)
Definition f64_of_bin (m e : Z) : spec_float :=
  if m =? 0 then S754_zero false
  else if 1100 <? Z.log2 m + e then S754_infinity false
  else if Z.log2 m + e <? -1100 then S754_zero false
  else binary_normalize 53 1024 m e false.
(** [m * 10^e].  A quotient keeps at least 64 bits and a sticky bit below
    them. *)
Definition f64_of_dec (m e : Z) : spec_float :=
  if m =? 0 then S754_zero false
  else if 400 <? e then S754_infinity false
  else if (e <? 0) && (Z.log2 m + 1 + 3 * e <? -1100) then S754_zero false
  else if 0 <=? e then binary_normalize 53 1024 (m * 10 ^ e) 0 false
  else
    let den := 10 ^ (- e) in
    let k := Z.max 0 (Z.log2 den - Z.log2 m + 66) in
    let q := Z.shiftl m k / den in
    let sticky := if Z.shiftl m k mod den =? 0 then 0 else 1 in
    binary_normalize 53 1024 (2 * q + sticky) (- k - 1) false.

(** ** [strtod(s, &end)] *)

Definition isxdigit (c : Z) : bool := isdigit c || ((65 <=? c) && (c <=? 70)) || ((97 <=? c) && (c <=? 102)).
Definition xdigit (c : Z) : Z := if isdigit c then c - 48 else if 97 <=? c then c - 87 else c - 55.
Fixpoint scan_xdigits (s : list Z) (acc : Z) : Z * list Z :=
  match s with
  | c :: t => if isxdigit c then scan_xdigits t (acc * 16 + xdigit c) else (acc, s)
  | [] => (acc, [])
  end.
(** Digits, then a point and more digits: the number they make, how many of
    them follow the point, how many there are, and the rest. *)
Definition scan_point (scan : list Z -> Z -> Z * list Z) (s : list Z) : Z * Z * Z * list Z :=
  let '(i, r) := scan s 0 in
  let n := blen s - blen r in
  match r with
  | c :: t =>
      if c =? 46 then let '(m, r') := scan t i in let fr := blen t - blen r' in (m, fr, n + fr, if n + fr =? 0 then r else r')
      else (i, 0, n, r)
  | [] => (i, 0, n, r)
  end.
(** An exponent behind one of two letters; without digits it is not one. *)
Definition scan_exp (lower upper : Z) (s : list Z) : Z * list Z :=
  match s with
  | c :: t =>
      if (c =? lower) || (c =? upper) then
        let '(neg, u) :=
          match t with
          | d :: u => if d =? 45 then (true, u) else if d =? 43 then (false, u) else (false, t)
          | [] => (false, [])
          end in
        match u with
        | d :: _ => if isdigit d then let '(v, r) := scan_digits u 0 in ((if neg : bool then - v else v), r) else (0, s)
        | [] => (0, s)
        end
      else (0, s)
  | [] => (0, s)
  end.
Definition sf_neg (neg : bool) (f : spec_float) : spec_float := if neg then SFopp f else f.
(** [None]: no conversion. *)
Definition strtod_dec (s : list Z) : option (spec_float * list Z) :=
  let '(m, fr, n, r) := scan_point scan_digits s in
  if n =? 0 then None else let '(e, r) := scan_exp 101 69 r in Some (f64_of_dec m (e - fr), r).
Definition strtod_hex (s : list Z) : option (spec_float * list Z) :=
  let '(m, fr, n, r) := scan_point scan_xdigits s in
  if n =? 0 then None else let '(e, r) := scan_exp 112 80 r in Some (f64_of_bin m (e - 4 * fr), r).
Definition has_prefix (p s : list Z) : bool := (length p <=? length s)%nat && (strncasecmp s p (length p) =? 0).
Definition isalnum_ (c : Z) : bool := isdigit c || ((97 <=? c) && (c <=? 122)) || ((65 <=? c) && (c <=? 90)) || (c =? 95).
(** The sequence in parentheses that may follow NAN. *)
Fixpoint nan_chars (s : list Z) : option (list Z) :=
  match s with
  | c :: t => if c =? 41 then Some t else if isalnum_ c then nan_chars t else None
  | [] => None
  end.
Definition strtod_special (s : list Z) : option (spec_float * list Z) :=
  if has_prefix (str "INFINITY") s then Some (S754_infinity false, drop 8 s)
  else if has_prefix (str "INF") s then Some (S754_infinity false, drop 3 s)
  else if has_prefix (str "NAN") s then
    let r := drop 3 s in
    Some (S754_nan, match r with c :: t => if c =? 40 then default r (nan_chars t) else r | [] => r end)
  else None.
Definition strtod_number (s : list Z) : option (spec_float * list Z) :=
  match strtod_special s with
  | Some x => Some x
  | None =>
      match (if has_prefix (str "0X") s then strtod_hex (drop 2 s) else None) with
      | Some x => Some x
      | None => strtod_dec s
      end
  end.
Definition strtod_end (s : list Z) : spec_float * list Z :=
  let '(neg, t) :=
    match skip_space s with
    | c :: t => if c =? 45 then (true, t) else if c =? 43 then (false, t) else (false, c :: t)
    | [] => (false, [])
    end in
  match strtod_number t with
  | Some (f, r) => (sf_neg neg f, r)
  | None => (S754_zero false, s)
  end.
Definition strtod (s : list Z) : spec_float := (strtod_end (cstr s)).1.

(** ** [%g] *)

(** [a / b] rounded to nearest, ties to even. *)
Definition div_round (a b : Z) : Z :=
  let q := a / b in
  let r := a mod b in
  if 2 * r <? b then q else if b <? 2 * r then q + 1 else if Z.even q then q else q + 1.
(** [num / den * 10^(- e)] as a fraction. *)
Definition scale10 (num den e : Z) : Z * Z := if 0 <=? e then (num, den * 10 ^ e) else (num * 10 ^ (- e), den).
(** The decimal exponent [X] of a positive fraction: [10^X <= num/den < 10^(X+1)].
    The estimate from the binary exponent [l] is off by one at most. *)
Definition dec_exp (num den l : Z) : Z :=
  let x := l * 30103 / 100000 in
  let '(a, b) := scale10 num den (x + 1) in
  if b <=? a then x + 1
  else let '(a, b) := scale10 num den x in if a <? b then x - 1 else x.
(** The [p] significant digits of the number and its exponent. *)
Definition sig_digits (p num den l : Z) : Z * Z :=
  let x := dec_exp num den l in
  let '(a, b) := scale10 num den (x - (p - 1)) in
  let d := div_round a b in
  if d =? 10 ^ p then (10 ^ (p - 1), x + 1) else (d, x).

(** Exactly [n] digits. *)
Fixpoint fixed_digits (n : nat) (v : Z) (acc : list Z) : list Z :=
  match n with O => acc | S n => fixed_digits n (v / 10) ((48 + v mod 10) :: acc) end.
(** Trailing zeros, and then a trailing point, are dropped. *)
Fixpoint strip_zeros (s : list Z) : list Z :=
  match s with
  | [] => []
  | c :: t => match strip_zeros t with
              | [] => if c =? 48 then [] else [c]
              | t => c :: t
              end
  end.
Definition with_fraction (ip fr : list Z) : list Z := match strip_zeros fr with [] => ip | fr => ip ++ 46 :: fr end.
(** The exponent has a sign and at least two digits. *)
Definition fmt_exp (x : Z) : list Z :=
  101 :: (if x <? 0 then 45 else 43) :: (let a := Z.abs x in if a <? 10 then [48; 48 + a] else dec_digits 20 a []).
Definition fmt_digits (p d x : Z) : list Z :=
  let ds := fixed_digits (Z.to_nat p) d [] in
  if (x <? -4) || (p <=? x) then with_fraction (take 1 ds) (drop 1 ds) ++ fmt_exp x
  else if 0 <=? x then with_fraction (take (Z.to_nat (x + 1)) ds) (drop (Z.to_nat (x + 1)) ds)
  else with_fraction [48] (replicate (Z.to_nat (- x - 1)) 48 ++ ds).
(** A finite positive number [m * 2^e]. *)
Definition fmt_finite (p : Z) (m : positive) (e : Z) : list Z :=
  let '(num, den) := if 0 <=? e then (Zpos m * 2 ^ e, 1) else (Zpos m, 2 ^ (- e)) in
  let '(d, x) := sig_digits p num den (Z.log2 (Zpos m) + e) in
  fmt_digits p d x.
(** [snprintf("%.<p>g")] of the number with the pattern [bits]. *)
Definition fmt_g (p : Z) (bits : Z) : list Z :=
  let sign := if Z.testbit bits 63 then [45] else [] in
  sign ++ match f64_of_bits bits with
          | S754_nan => str "nan"
          | S754_infinity _ => str "inf"
          | S754_zero _ => [48]
          | S754_finite _ m e => fmt_finite p m e
          end.
