(* ===== verification/CnumSpec.v ===== *)
(** * Numbers as text: properties

    Seventeen significant digits identify a binary64 number: what [%.17g]
    prints, [strtod] reads back. *)
From Stdlib Require Import SpecFloat.
From S2P Require Import Prelude Value Cnum.

(** ** Rounding to nearest *)

Abbreviation fexp64 := (fexp 53 1024).
Lemma fexp_eq e : fexp64 e = Z.max (e - 53) (-1074).
Proof. reflexivity. Qed.
Lemma digits_bounds m : 2 ^ (Zpos (digits2_pos m) - 1) <= Zpos m < 2 ^ Zpos (digits2_pos m).
Proof.
  induction m as [m IH|m IH|]; cbn [digits2_pos]; [| |done].
  - rewrite Pos2Z.inj_succ. replace (Z.succ (Zpos (digits2_pos m)) - 1) with (Z.succ (Zpos (digits2_pos m) - 1)) by lia.
    rewrite !Z.pow_succ_r by lia. lia.
  - rewrite Pos2Z.inj_succ. replace (Z.succ (Zpos (digits2_pos m)) - 1) with (Z.succ (Zpos (digits2_pos m) - 1)) by lia.
    rewrite !Z.pow_succ_r by lia. lia.
Qed.
Lemma digits_unique m d : 0 < d -> 2 ^ (d - 1) <= Zpos m < 2 ^ d -> Zpos (digits2_pos m) = d.
Proof.
  intros Hd Hm. pose proof (digits_bounds m) as Hb. destruct (Z.lt_trichotomy (Zpos (digits2_pos m)) d) as [H|[H|H]]; [|done|].
  - pose proof (Z.pow_le_mono_r 2 (Zpos (digits2_pos m)) (d - 1) ltac:(lia) ltac:(lia)). lia.
  - pose proof (Z.pow_le_mono_r 2 d (Zpos (digits2_pos m) - 1) ltac:(lia) ltac:(lia)). lia.
Qed.
Lemma iter_pos_nat {A} (f : A -> A) n x : SpecFloat.iter_pos f n x = Nat.iter (Pos.to_nat n) f x.
Proof.
  revert x. induction n as [n IH|n IH|]; intros x; cbn [SpecFloat.iter_pos].
  - rewrite !IH, <- Nat.iter_add, <- Nat.iter_succ_r. f_equal. lia.
  - rewrite !IH, <- Nat.iter_add. f_equal. lia.
  - done.
Qed.

(** [n] bits are shifted out of [M]: the last one is [shr_r], [shr_s] says
    whether one of the others is set. *)
Definition shifted (M : Z) (n : nat) (r : shr_record) : Prop :=
  0 <= shr_m r /\ exists k, 0 <= k < 2 ^ Z.of_nat n /\ shr_s r = negb (k =? 0)
    /\ 2 * M = shr_m r * (2 * 2 ^ Z.of_nat n) + Z.b2z (shr_r r) * 2 ^ Z.of_nat n + k.
Lemma shifted_step M n r : shifted M n r -> shifted M (S n) (shr_1 r).
Proof.
  destruct r as [m r s]. intros (Hm & k & Hk & Hs & HM). cbn [shr_m shr_r shr_s] in *.
  pose proof (Z.pow_pos_nonneg 2 (Z.of_nat n) ltac:(lia) ltac:(lia)). unfold shifted. rewrite Nat2Z.inj_succ, Z.pow_succ_r by lia.
  set (P := 2 ^ Z.of_nat n) in *. assert (exists m1 r1, shr_1 {| shr_m := m; shr_r := r; shr_s := s |} = {| shr_m := m1; shr_r := r1; shr_s := r || s |}
    /\ 0 <= m1 /\ m = 2 * m1 + Z.b2z r1) as (m1 & r1 & -> & H1 & E1).
  { destruct m as [|[p|p|]|p]; cbn; [by exists 0, false|by exists (Zpos p), true|by exists (Zpos p), false|by exists 0, true|lia]. }
  cbn [shr_m shr_r shr_s]. split; [done|]. exists (Z.b2z r * P + k). split; [destruct r; cbn; lia|]. split.
  - subst s. destruct r; cbn [Z.b2z orb]; [|by rewrite Z.mul_0_l]. destruct (Z.eqb_spec (1 * P + k) 0); [lia|done].
  - rewrite HM, E1. lia.
Qed.
Lemma shifted_iter M n : 0 <= M -> shifted M n (Nat.iter n shr_1 {| shr_m := M; shr_r := false; shr_s := false |}).
Proof.
  intros HM. induction n as [|n IH]; [|cbn [Nat.iter]; by apply shifted_step]. split; [done|]. exists 0. cbn. lia.
Qed.
(** The rounded quotient is at most half a unit away. *)
Lemma shifted_round M n r :
  shifted M n r -> let R := round_nearest_even (shr_m r) (loc_of_shr_record r) in
  0 <= R /\ Z.abs (2 * (R * 2 ^ Z.of_nat n) - 2 * M) <= 2 ^ Z.of_nat n.
Proof.
  destruct r as [m r s]. intros (Hm & k & Hk & Hs & HM). cbn [shr_m shr_r shr_s] in *. cbv zeta. set (P := 2 ^ Z.of_nat n) in *.
  destruct r, s; cbn [loc_of_shr_record round_nearest_even Z.b2z] in *.
  - split; [lia|]. nia.
  - destruct (Z.eqb_spec k 0); [|done]. destruct (Z.even m); (split; [lia|nia]).
  - split; [lia|]. nia.
  - destruct (Z.eqb_spec k 0); [|done]. split; [lia|nia].
Qed.

(** Scaling by a power of two that is not negative. *)
Lemma pow2_split a b c : a <= b <= c -> 2 ^ (c - a) = 2 ^ (c - b) * 2 ^ (b - a).
Proof. intros H. rewrite <- Z.pow_add_r by lia. f_equal. lia. Qed.
(** The end of a rounding, where a carry is taken back. *)
Definition finish (R f : Z) : spec_float :=
  let '(r, e) := shr_fexp 53 1024 R f loc_Exact in
  match shr_m r with
  | Z0 => S754_zero false
  | Zpos m => if e <=? 1024 - 53 then S754_finite false m e else S754_infinity false
  | Zneg _ => S754_nan
  end.
Lemma finish_canonical m e : bounded 53 1024 m e = true -> finish (Zpos m) e = S754_finite false m e.
Proof.
  intros [H1 H2]%andb_prop. apply Z.eqb_eq in H1. unfold finish, shr_fexp. cbn [Zdigits2]. rewrite H1, Z.sub_diag. cbn [shr shr_record_of_loc shr_m].
  by rewrite H2.
Qed.
Lemma finish_carry e : -1074 <= e <= 971 -> finish (2 ^ 53) (e - 1) = S754_finite false (2 ^ 52) e.
Proof.
  intros He. unfold finish, shr_fexp. change (Zdigits2 (2 ^ 53)) with 54. rewrite fexp_eq. replace (Z.max _ _ - (e - 1)) with 1 by lia.
  cbn [shr]. change (shr_m _) with (2 ^ 52). replace (e - 1 + 1) with e by lia. destruct (Z.leb_spec e (1024 - 53)); [done|lia].
Qed.
(** [binary_round] rounds [M * 2^E] to a multiple [R] of the unit [2^f] of its
    binade. *)
Lemma binary_round_near M E :
  let f := fexp64 (Zpos (digits2_pos M) + E) in
  exists R, binary_round 53 1024 false M E = finish R f /\ 0 <= R
    /\ forall g, g <= E -> g <= f -> Z.abs (2 * (R * 2 ^ (f - g)) - 2 * (Zpos M * 2 ^ (E - g))) <= 2 ^ (f - g).
Proof.
  intros f. unfold binary_round. fold f. unfold shl_align. destruct (f - E) as [|n|n] eqn:En.
  - exists (Zpos M). unfold binary_round_aux, shr_fexp at 1. cbn [Zdigits2]. fold f. rewrite En. cbn [shr].
    replace E with f by lia. split; [done|]. split; [done|]. intros g H1 H2. pose proof (Z.pow_pos_nonneg 2 (f - g)). lia.
  - unfold binary_round_aux, shr_fexp at 1. cbn [Zdigits2]. fold f. rewrite En. cbn [shr shr_record_of_loc]. rewrite iter_pos_nat.
    pose proof (shifted_round _ _ _ (shifted_iter (Zpos M) (Pos.to_nat n) ltac:(lia))) as [HR Hd]. set (r := Nat.iter _ _ _) in *.
    exists (round_nearest_even (shr_m r) (loc_of_shr_record r)). replace (E + Zpos n) with f by lia. split; [done|]. split; [done|].
    intros g H1 H2. rewrite positive_nat_Z, <- En in Hd. rewrite (pow2_split g E f) by lia. pose proof (Z.pow_pos_nonneg 2 (E - g)). nia.
  - change (Pos.iter xO M n) with (shift_pos n M). unfold binary_round_aux, shr_fexp at 1. cbn [Zdigits2].
    assert (Zpos (shift_pos n M) = Zpos M * 2 ^ (E - f)) as Es by (rewrite shift_pos_correct, Z.pow_pos_fold; replace (E - f) with (Zpos n) by lia; lia).
    assert (Zpos (digits2_pos (shift_pos n M)) = Zpos (digits2_pos M) + (E - f)) as Ed.
    { apply digits_unique; [lia|]. rewrite Es. pose proof (digits_bounds M).
      replace (Zpos (digits2_pos M) + (E - f) - 1) with (Zpos (digits2_pos M) - 1 + (E - f)) by lia. rewrite !Z.pow_add_r by lia. nia. }
    rewrite Ed. replace (Zpos (digits2_pos M) + (E - f) + f) with (Zpos (digits2_pos M) + E) by lia. fold f. rewrite Z.sub_diag. cbn [shr shr_record_of_loc].
    exists (Zpos (shift_pos n M)). split; [done|]. split; [done|]. intros g H1 H2. rewrite Es. rewrite (pow2_split g f E) by lia.
    pose proof (Z.pow_pos_nonneg 2 (f - g)). nia.
Qed.
Lemma bounded_digits m e : bounded 53 1024 m e = true ->
  fexp64 (Zpos (digits2_pos m) + e) = e /\ -1074 <= e <= 971 /\ Zpos m < 2 ^ 53.
Proof.
  intros [H1 H2]%andb_prop. apply Z.eqb_eq in H1. apply Z.leb_le in H2. split; [done|]. rewrite fexp_eq in H1. split; [lia|].
  pose proof (digits_bounds m). pose proof (Z.pow_le_mono_r 2 (Zpos (digits2_pos m)) 53 ltac:(lia) ltac:(lia)). lia.
Qed.
(** A value less than a quarter of a unit away from a number is in its binade,
    or just below the smallest number of it. *)
Lemma near_binade M E m e g :
  bounded 53 1024 m e = true -> g <= E -> g <= e - 1 ->
  Z.abs (Zpos M * 2 ^ (E - g) - Zpos m * 2 ^ (e - g)) * 2 ^ 54 < Zpos m * 2 ^ (e - g) ->
  let f := fexp64 (Zpos (digits2_pos M) + E) in f = e \/ (f = e - 1 /\ Zpos m = 2 ^ 52).
Proof.
  intros Hb Hg1 Hg2 Hn f. destruct (bounded_digits m e Hb) as (Hf & He & Hm). pose proof (digits_bounds M) as HM. pose proof (digits_bounds m) as Hmm.
  set (dM := Zpos (digits2_pos M)) in *. set (dm := Zpos (digits2_pos m)) in *. assert (0 < dM /\ 0 < dm) as [HdM Hdm] by lia.
  set (V := Zpos M * 2 ^ (E - g)) in *. set (X := Zpos m * 2 ^ (e - g)) in *.
  assert (2 ^ (dM - 1 + (E - g)) <= V < 2 ^ (dM + (E - g))) as HV by (unfold V; rewrite !Z.pow_add_r by lia; pose proof (Z.pow_pos_nonneg 2 (E - g)); nia).
  assert (2 ^ (dm - 1 + (e - g)) <= X < 2 ^ (dm + (e - g))) as HX by (unfold X; rewrite !Z.pow_add_r by lia; pose proof (Z.pow_pos_nonneg 2 (e - g)); nia).
  rewrite fexp_eq in Hf. unfold f. rewrite fexp_eq. pose proof (Z.pow_pos_nonneg 2 (e - g) ltac:(lia) ltac:(lia)) as Hu.
  destruct (Z.lt_trichotomy (dM + E) (dm + e)) as [Hlt|[Heq|Hgt]].
  - assert (dm + e - 2 < dM + E) as Hge.
    { destruct (Z.le_gt_cases (dM + E) (dm + e - 2)) as [Hle|]; [|lia]. exfalso.
      pose proof (Z.pow_le_mono_r 2 (dM + (E - g)) (dm + (e - g) - 2) ltac:(lia) ltac:(lia)).
      assert (2 ^ (dm - 1 + (e - g)) = 2 * 2 ^ (dm + (e - g) - 2)) by (rewrite <- Z.pow_succ_r by lia; f_equal; lia). lia. }
    destruct (Z.eq_dec dm 53) as [Ed|Ed]; [|left; lia]. destruct (Z.eq_dec e (-1074)) as [Ee|Ee]; [left; lia|]. right. split; [lia|].
    pose proof (Z.pow_le_mono_r 2 (dM + (E - g)) (dm - 1 + (e - g)) ltac:(lia) ltac:(lia)) as Hle. rewrite Ed in *. rewrite (Z.pow_add_r 2 (53 - 1)) in Hle by lia.
    unfold X in *. change (53 - 1) with 52 in *. nia.
  - left. lia.
  - exfalso. pose proof (Z.pow_le_mono_r 2 (dm + (e - g)) (dM - 1 + (E - g)) ltac:(lia) ltac:(lia)) as Hle.
    rewrite (Z.pow_add_r 2 dm) in Hle by lia. unfold X in *. nia.
Qed.
Lemma normalize_near M E m e g :
  bounded 53 1024 m e = true -> g <= E -> g <= e - 1 ->
  Z.abs (Zpos M * 2 ^ (E - g) - Zpos m * 2 ^ (e - g)) * 2 ^ 54 < Zpos m * 2 ^ (e - g) ->
  binary_normalize 53 1024 (Zpos M) E false = S754_finite false m e.
Proof.
  intros Hb Hg1 Hg2 Hn. cbn [binary_normalize]. destruct (bounded_digits m e Hb) as (_ & He & Hm).
  pose proof (near_binade M E m e g Hb Hg1 Hg2 Hn) as Hf. cbv zeta in Hf. destruct (binary_round_near M E) as (R & -> & HR & Hd).
  set (f := fexp64 _) in *. specialize (Hd g Hg1 ltac:(lia)). pose proof (Z.pow_pos_nonneg 2 (e - g) ltac:(lia) ltac:(lia)) as Hu.
  set (V := Zpos M * 2 ^ (E - g)) in *. destruct Hf as [Ef|[Ef Em]].
  - rewrite Ef in *. assert (R = Zpos m) as -> by nia. by apply finish_canonical.
  - assert (2 ^ (e - g) = 2 * 2 ^ (f - g)) as Ep by (rewrite <- Z.pow_succ_r by lia; f_equal; lia). rewrite Ep, Em in *.
    pose proof (Z.pow_pos_nonneg 2 (f - g) ltac:(lia) ltac:(lia)). assert (R = 2 ^ 53) as -> by nia. rewrite Ef.
    assert (m = (2 ^ 52)%positive) as -> by lia. by apply finish_carry.
Qed.

(** ** Fractions *)

(** The number [m * 2^e] as a fraction. *)
Definition frac_num (m : positive) (e : Z) : Z := Zpos m * 2 ^ Z.max e 0.
Definition frac_den (e : Z) : Z := 2 ^ Z.max (- e) 0.
Lemma frac_pos m e : 0 < frac_num m e /\ 0 < frac_den e.
Proof. unfold frac_num, frac_den. pose proof (Z.pow_pos_nonneg 2 (Z.max e 0)). pose proof (Z.pow_pos_nonneg 2 (Z.max (- e) 0)). nia. Qed.
Lemma normalize_frac N k m e :
  bounded 53 1024 m e = true -> 0 < N -> 0 <= k ->
  Z.abs (N * frac_den e - frac_num m e * 2 ^ k) * 2 ^ 54 < frac_num m e * 2 ^ k ->
  binary_normalize 53 1024 N (- k) false = S754_finite false m e.
Proof.
  intros Hb HN Hk Hn. destruct N as [|M|]; [lia| |lia]. set (g := Z.min (- k) (e - 1)).
  apply (normalize_near M (- k) m e g Hb ltac:(lia) ltac:(lia)). unfold frac_num, frac_den in Hn. set (t := - k - g - Z.max (- e) 0).
  destruct (Z.le_gt_cases 0 t) as [Ht|Ht].
  - replace (- k - g) with (Z.max (- e) 0 + t) by lia. replace (e - g) with (Z.max e 0 + k + t) by lia.
    rewrite !Z.pow_add_r in * by lia. pose proof (Z.pow_pos_nonneg 2 t ltac:(lia) ltac:(lia)).
    set (A := Zpos M * 2 ^ Z.max (- e) 0) in *. set (B := Zpos m * 2 ^ Z.max e 0 * 2 ^ k) in *.
    replace (Zpos M * (2 ^ Z.max (- e) 0 * 2 ^ t)) with (A * 2 ^ t) by (unfold A; lia).
    replace (Zpos m * (2 ^ Z.max e 0 * 2 ^ k * 2 ^ t)) with (B * 2 ^ t) by (unfold B; lia). nia.
  - assert (0 <= - t) as Ht' by lia. replace (Z.max (- e) 0) with (- k - g + - t) in Hn by lia. replace k with (e - g - Z.max e 0 + - t) in Hn at 2 3 by lia.
    rewrite Z.pow_add_r in Hn by lia. assert (0 <= e - g - Z.max e 0 \/ e - g - Z.max e 0 < 0) as [Hx|Hx] by lia.
    + rewrite Z.pow_add_r in Hn by lia. pose proof (Z.pow_pos_nonneg 2 (- t) ltac:(lia) ltac:(lia)).
      assert (2 ^ (e - g) = 2 ^ Z.max e 0 * 2 ^ (e - g - Z.max e 0)) as Ep by (rewrite <- Z.pow_add_r by lia; f_equal; lia). rewrite Ep.
      set (A := Zpos M * 2 ^ (- k - g)) in *. set (B := Zpos m * (2 ^ Z.max e 0 * 2 ^ (e - g - Z.max e 0))) in *. nia.
    + lia.
Qed.

(** [m10 * 10^e10] as a fraction, close to a number. *)
Definition dec_num (m10 e10 : Z) : Z := m10 * 10 ^ Z.max e10 0.
Definition dec_den (e10 : Z) : Z := 10 ^ Z.max (- e10) 0.
Lemma log2_bounds m : 0 < m -> 2 ^ Z.log2 m <= m < 2 ^ (Z.log2 m + 1).
Proof. intros H. pose proof (Z.log2_spec m H). rewrite <- Z.add_1_r in *. done. Qed.
Lemma pow10_pow8 n : 0 <= n -> 2 ^ (3 * n) <= 10 ^ n.
Proof. intros Hn. rewrite Z.pow_mul_r by lia. apply Z.pow_le_mono_l. lia. Qed.
(** The quotient with its sticky bit. *)
Lemma sticky_quotient W d :
  0 < d -> 0 <= W -> let N := 2 * (W / d) + (if W mod d =? 0 then 0 else 1) in Z.abs (N * d - 2 * W) < d /\ 0 <= N.
Proof.
  intros Hd HW. pose proof (Z.div_mod W d ltac:(lia)). pose proof (Z.mod_pos_bound W d Hd). pose proof (Z.div_pos W d HW Hd).
  destruct (Z.eqb_spec (W mod d) 0); nia.
Qed.
Section Near.
Context (m10 e10 : Z) (m : positive) (e : Z).
Context (Hb : bounded 53 1024 m e = true) (Hm10 : 0 < m10).
Context (Hn : Z.abs (dec_num m10 e10 * frac_den e - frac_num m e * dec_den e10) * (2 * 10 ^ 16) <= frac_num m e * dec_den e10).

Lemma near_not_huge : e10 <= 400.
Proof using All.
  destruct (frac_pos m e) as [Hx Hy]. destruct (bounded_digits m e Hb) as (_ & He & Hm). destruct (Z.le_gt_cases e10 400) as [|H]; [done|]. exfalso.
  unfold dec_num, dec_den in Hn. rewrite (Z.max_l e10 0), (Z.max_r (- e10) 0) in Hn by lia. change (10 ^ 0) with 1 in Hn.
  assert (10 ^ 401 <= 10 ^ e10) as H1 by (apply Z.pow_le_mono_r; lia). assert (2 ^ 1025 < 10 ^ 401) as H2 by (vm_compute; reflexivity).
  assert (frac_num m e <= 2 ^ 1024) as H3.
  { unfold frac_num. pose proof (Z.pow_le_mono_r 2 (Z.max e 0) 971 ltac:(lia) ltac:(lia)) as H4.
    assert (2 ^ 53 * 2 ^ 971 = 2 ^ 1024) as H5 by (vm_compute; reflexivity). rewrite <- H5. apply Z.mul_le_mono_nonneg; lia. }
  assert (2 ^ 1025 = 2 * 2 ^ 1024) as H6 by (vm_compute; reflexivity). rewrite H6 in H2. clear H6. revert H1 H2 H3.
  generalize (10 ^ 401), (2 ^ 1024). intros P Q H1 H2 H3. set (T := m10 * 10 ^ e10) in *. assert (P <= T) by (unfold T; nia).
  assert (T <= T * frac_den e) by nia. lia.
Qed.
Lemma near_not_tiny : (e10 <? 0) && (Z.log2 m10 + 1 + 3 * e10 <? -1100) = false.
Proof using All.
  destruct (frac_pos m e) as [Hx Hy]. destruct (bounded_digits m e Hb) as (_ & He & Hm). apply andb_false_iff.
  destruct (Z.ltb_spec e10 0) as [H|H]; [right|by left]. apply Z.ltb_ge. destruct (Z.le_gt_cases (-1100) (Z.log2 m10 + 1 + 3 * e10)) as [|Hlt]; [done|]. exfalso.
  unfold dec_num, dec_den in Hn. rewrite (Z.max_r e10 0), (Z.max_l (- e10) 0) in Hn by lia. change (10 ^ 0) with 1 in Hn.
  pose proof (log2_bounds m10 Hm10) as [_ Hm2]. pose proof (pow10_pow8 (- e10) ltac:(lia)) as Hp.
  assert (frac_den e <= 2 ^ 1074) as Hd by (apply Z.pow_le_mono_r; lia).
  assert (2 * (2 ^ (Z.log2 m10 + 1) * 2 ^ 1074) <= 2 ^ (3 * - e10)) as Hc.
  { pose proof (Z.log2_nonneg m10). rewrite <- Z.pow_add_r, <- Z.pow_succ_r by lia. apply Z.pow_le_mono_r; lia. }
  revert Hd Hc. generalize (2 ^ 1074). intros P Hd Hc. set (D := 10 ^ (- e10)) in *.
  assert (m10 * frac_den e < 2 ^ (Z.log2 m10 + 1) * P) by nia. nia.
Qed.
Lemma f64_of_dec_near : f64_of_dec m10 e10 = S754_finite false m e.
Proof using All.
  pose proof near_not_huge as H1. pose proof near_not_tiny as H2. destruct (frac_pos m e) as [Hx Hy]. unfold f64_of_dec. rewrite H2.
  destruct (Z.eqb_spec m10 0); [lia|]. destruct (Z.ltb_spec 400 e10); [lia|]. clear H1 H2. destruct (Z.leb_spec 0 e10) as [He|He].
  - change 0 with (- 0) at 1. unfold dec_num, dec_den in Hn. rewrite (Z.max_l e10 0), (Z.max_r (- e10) 0) in Hn by lia. change (10 ^ 0) with 1 in Hn.
    apply normalize_frac; [done| |lia|change (2 ^ 0) with 1; lia]. pose proof (Z.pow_pos_nonneg 10 e10). nia.
  - unfold dec_num, dec_den in Hn. rewrite (Z.max_r e10 0), (Z.max_l (- e10) 0) in Hn by lia. change (10 ^ 0) with 1 in Hn. rewrite Z.mul_1_r in Hn.
    set (d := 10 ^ (- e10)) in *. assert (0 < d) as Hd by (apply Z.pow_pos_nonneg; lia). set (k := Z.max 0 _). cbv zeta.
    assert (0 <= k) as Hk by lia. set (W := Z.shiftl m10 k). assert (W = m10 * 2 ^ k) as EW by (apply Z.shiftl_mul_pow2; lia).
    pose proof (Z.pow_pos_nonneg 2 k ltac:(lia) Hk) as Hpk.
    assert (d * 2 ^ 65 <= W) as HW.
    { pose proof (log2_bounds d Hd) as [_ Hd2]. pose proof (log2_bounds m10 Hm10) as [Hm2 _]. pose proof (Z.log2_nonneg d). pose proof (Z.log2_nonneg m10).
      assert (2 ^ (Z.log2 d + 1) * 2 ^ 65 <= 2 ^ Z.log2 m10 * 2 ^ k) as Hp by (rewrite <- !Z.pow_add_r by lia; apply Z.pow_le_mono_r; lia). rewrite EW. nia. }
    destruct (sticky_quotient W d Hd ltac:(lia)) as [Hq HN]. set (N := 2 * (W / d) + _) in *. replace (- k - 1) with (- (k + 1)) by lia.
    assert (0 < N) as HN' by nia. apply normalize_frac; [done|done|lia|]. rewrite Z.pow_add_r by lia. change (2 ^ 1) with 2.
    set (num := frac_num m e) in *. set (den := frac_den e) in *.
    assert (Z.abs (2 * W * den - num * d * (2 ^ k * 2)) * (2 * 10 ^ 16) <= num * d * (2 ^ k * 2)) as H3.
    { rewrite EW. replace (2 * (m10 * 2 ^ k) * den - num * d * (2 ^ k * 2)) with ((m10 * den - num * d) * (2 ^ k * 2)) by lia.
      rewrite Z.abs_mul, (Z.abs_eq (2 ^ k * 2)) by lia. nia. }
    assert (Z.abs (N * d * den - 2 * W * den) * 2 ^ 66 <= 2 * W * den) as H4.
    { replace (N * d * den - 2 * W * den) with ((N * d - 2 * W) * den) by lia. rewrite Z.abs_mul, (Z.abs_eq den) by lia. nia. }
    assert (Z.abs (N * d * den - num * d * (2 ^ k * 2)) * 2 ^ 54 < num * d * (2 ^ k * 2)) as H5.
    { assert (0 < num * d * (2 ^ k * 2)) as HC by nia. clear - H3 H4 HC. set (A := N * d * den) in *. set (B := 2 * W * den) in *.
      set (C := num * d * (2 ^ k * 2)) in *. clearbody A B C. lia. }
    replace (N * d * den - num * d * (2 ^ k * 2)) with ((N * den - num * (2 ^ k * 2)) * d) in H5 by lia. rewrite Z.abs_mul, (Z.abs_eq d) in H5 by lia. nia.
Qed.
End Near.

(** ** Seventeen digits *)

(** Powers are compared multiplied by [10^400] and [2^1100]. *)
Definition K10 : Z := 400.
Definition K2 : Z := 1100.
Lemma K10_eq : K10 = 400.
Proof. reflexivity. Qed.
Lemma K2_eq : K2 = 1100.
Proof. reflexivity. Qed.
#[local] Opaque K10 K2.
Lemma scale10_spec num den e a b :
  0 < num -> 0 < den -> - 400 <= e -> scale10 num den e = (a, b) ->
  0 < a /\ 0 < b /\ a * (den * 10 ^ (e + K10)) = b * (num * 10 ^ K10).
Proof.
  pose proof K10_eq as EK. intros Hn Hd He. unfold scale10. destruct (Z.leb_spec 0 e); intros [= <- <-].
  - rewrite Z.pow_add_r by lia. pose proof (Z.pow_pos_nonneg 10 e). split; [done|]. split; [nia|]. lia.
  - pose proof (Z.pow_pos_nonneg 10 (- e)). split; [nia|]. split; [done|].
    assert (10 ^ K10 = 10 ^ (- e) * 10 ^ (e + K10)) as -> by (rewrite <- Z.pow_add_r by lia; f_equal; lia). lia.
Qed.
Lemma scale10_le num den e a b k :
  0 < num -> 0 < den -> - 400 <= e -> 0 < k -> scale10 num den e = (a, b) -> k * b <= a <-> k * (den * 10 ^ (e + K10)) <= num * 10 ^ K10.
Proof.
  pose proof K10_eq as EK. intros Hn Hd He Hk E. destruct (scale10_spec num den e a b Hn Hd He E) as (Ha & Hb & Eq).
  pose proof (Z.pow_pos_nonneg 10 (e + K10) ltac:(lia) ltac:(lia)). pose proof (Z.pow_pos_nonneg 10 K10 ltac:(lia) ltac:(lia)).
  set (P := den * 10 ^ (e + K10)) in *. set (Q := num * 10 ^ K10) in *. assert (0 < P /\ 0 < Q) as [HP HQ] by (unfold P, Q; nia).
  clearbody P Q. split; intros H1; nia.
Qed.
Lemma div_round_spec a b : 0 < b -> Z.abs (div_round a b * b - a) * 2 <= b.
Proof.
  intros Hb. unfold div_round. pose proof (Z.div_mod a b ltac:(lia)). pose proof (Z.mod_pos_bound a b Hb). set (q := a / b) in *. set (r := a mod b) in *.
  destruct (Z.ltb_spec (2 * r) b); [nia|]. destruct (Z.ltb_spec b (2 * r)); [nia|]. destruct (Z.even q); nia.
Qed.
(** [log2 5] lies between 65/28 and 137/59. *)
Lemma pow5_upper n k : 0 <= n -> 0 <= k -> 137 * n <= 59 * k -> 5 ^ n <= 2 ^ k.
Proof.
  intros Hn Hk H. apply (Z.pow_le_mono_l_iff (5 ^ n) (2 ^ k) 59); [apply Z.pow_nonneg; lia|apply Z.pow_nonneg; lia|lia|]. rewrite <- !Z.pow_mul_r by lia.
  rewrite (Z.mul_comm n), (Z.mul_comm k), Z.pow_mul_r by lia. transitivity ((2 ^ 137) ^ n); [apply Z.pow_le_mono_l; lia|].
  rewrite <- Z.pow_mul_r by lia. apply Z.pow_le_mono_r; lia.
Qed.
Lemma pow5_lower n k : 0 <= n -> 0 <= k -> 28 * k <= 65 * n -> 2 ^ k <= 5 ^ n.
Proof.
  intros Hn Hk H. apply (Z.pow_le_mono_l_iff (2 ^ k) (5 ^ n) 28); [apply Z.pow_nonneg; lia|apply Z.pow_nonneg; lia|lia|]. rewrite <- !Z.pow_mul_r by lia.
  rewrite (Z.mul_comm n), (Z.mul_comm k), (Z.pow_mul_r 5) by lia. transitivity ((2 ^ 65) ^ n); [|apply Z.pow_le_mono_l; lia].
  rewrite <- Z.pow_mul_r by lia. apply Z.pow_le_mono_r; lia.
Qed.
Lemma pow10_split n : 10 ^ n = 5 ^ n * 2 ^ n.
Proof. by rewrite <- Z.pow_mul_l. Qed.
(** [10^x <= 2^l] and the converse, scaled. *)
Lemma pow10_le_pow2 x l :
  -400 <= x -> -1100 <= l -> 137 * x <= 59 * (l - x) -> 65 * x <= 28 * (l - x) -> 10 ^ (x + K10) * 2 ^ K2 <= 2 ^ (l + K2) * 10 ^ K10.
Proof.
  intros Hx Hl H1 H2. pose proof K10_eq as EK. pose proof K2_eq as EK2. rewrite !pow10_split.
  assert (5 ^ (x + K10) * 2 ^ (x + K10 + K2) <= 5 ^ K10 * 2 ^ (l + K2 + K10)) as H; [|rewrite !(Z.pow_add_r 2 (_ + _)) in H by lia; lia].
  destruct (Z.le_gt_cases 0 x) as [Hp|Hp].
  - pose proof (pow5_upper x (l - x) Hp ltac:(lia) ltac:(lia)) as H5. replace (l + K2 + K10) with (l - x + (x + K10 + K2)) by lia.
    rewrite (Z.pow_add_r 5), (Z.pow_add_r 2 (l - x)) by lia.
    rewrite (Z.mul_comm (5 ^ x)), <- Z.mul_assoc. apply Z.mul_le_mono_nonneg_l; [apply Z.pow_nonneg; lia|].
    apply Z.mul_le_mono_nonneg_r; [apply Z.pow_nonneg; lia|done].
  - assert (5 ^ K10 = 5 ^ (x + K10) * 5 ^ (- x)) as -> by (rewrite <- Z.pow_add_r by lia; f_equal; lia). rewrite <- Z.mul_assoc.
    apply Z.mul_le_mono_nonneg_l; [apply Z.pow_nonneg; lia|]. destruct (Z.le_gt_cases (x - l) 0) as [Hq|Hq].
    + transitivity (1 * 2 ^ (l + K2 + K10)); [rewrite Z.mul_1_l; apply Z.pow_le_mono_r; lia|].
      apply Z.mul_le_mono_nonneg_r; [apply Z.pow_nonneg; lia|]. pose proof (Z.pow_pos_nonneg 5 (- x) ltac:(lia) ltac:(lia)). lia.
    + pose proof (pow5_lower (- x) (x - l) ltac:(lia) ltac:(lia) ltac:(lia)) as H5.
      replace (x + K10 + K2) with (x - l + (l + K2 + K10)) by lia. rewrite (Z.pow_add_r 2 (x - l)) by lia.
      apply Z.mul_le_mono_nonneg_r; [apply Z.pow_nonneg; lia|done].
Qed.
Lemma pow2_le_pow10 x l :
  -400 <= x -> -1100 <= l -> 28 * (l - x) <= 65 * x -> 59 * (l - x) <= 137 * x -> 2 ^ (l + K2) * 10 ^ K10 <= 10 ^ (x + K10) * 2 ^ K2.
Proof.
  intros Hx Hl H1 H2. pose proof K10_eq as EK. pose proof K2_eq as EK2. rewrite !pow10_split.
  assert (5 ^ K10 * 2 ^ (l + K2 + K10) <= 5 ^ (x + K10) * 2 ^ (x + K10 + K2)) as H; [|rewrite !(Z.pow_add_r 2 (_ + _)) in H by lia; lia].
  destruct (Z.le_gt_cases 0 x) as [Hp|Hp].
  - rewrite (Z.add_comm x K10), (Z.pow_add_r 5), <- Z.mul_assoc by lia. apply Z.mul_le_mono_nonneg_l; [apply Z.pow_nonneg; lia|].
    destruct (Z.le_gt_cases (l - x) 0) as [Hq|Hq].
    + transitivity (1 * 2 ^ (K10 + x + K2)); [rewrite Z.mul_1_l; apply Z.pow_le_mono_r; lia|].
      apply Z.mul_le_mono_nonneg_r; [apply Z.pow_nonneg; lia|]. pose proof (Z.pow_pos_nonneg 5 x ltac:(lia) ltac:(lia)). lia.
    + pose proof (pow5_lower x (l - x) Hp ltac:(lia) ltac:(lia)) as H5. replace (l + K2 + K10) with (l - x + (K10 + x + K2)) by lia.
      rewrite (Z.pow_add_r 2 (l - x)) by lia. apply Z.mul_le_mono_nonneg_r; [apply Z.pow_nonneg; lia|done].
  - pose proof (pow5_upper (- x) (x - l) ltac:(lia) ltac:(lia) ltac:(lia)) as H5.
    assert (5 ^ K10 = 5 ^ (x + K10) * 5 ^ (- x)) as -> by (rewrite <- Z.pow_add_r by lia; f_equal; lia). rewrite <- Z.mul_assoc.
    apply Z.mul_le_mono_nonneg_l; [apply Z.pow_nonneg; lia|].
    replace (x + K10 + K2) with (x - l + (l + K2 + K10)) by lia. rewrite (Z.pow_add_r 2 (x - l)) by lia.
    apply Z.mul_le_mono_nonneg_r; [apply Z.pow_nonneg; lia|done].
Qed.
Lemma cross_le A P L T den num : 0 < P -> 0 < T -> 0 < den -> A * P <= L * T -> den * L <= num * P -> den * A <= num * T.
Proof.
  intros HP HT Hd H1 H2. apply (Z.mul_le_mono_pos_r _ _ P HP). replace (num * T * P) with (num * P * T) by lia.
  transitivity (den * L * T); [|by apply Z.mul_le_mono_pos_r]. replace (den * A * P) with (den * (A * P)) by lia.
  replace (den * L * T) with (den * (L * T)) by lia. by apply Z.mul_le_mono_pos_l.
Qed.
Lemma cross_lt A P L T den num : 0 < P -> 0 < T -> 0 < den -> L * T <= A * P -> num * P < den * L -> num * T < den * A.
Proof.
  intros HP HT Hd H1 H2. apply (Z.mul_lt_mono_pos_r P _ _ HP). replace (num * T * P) with (num * P * T) by lia.
  apply (Z.lt_le_trans _ (den * L * T)); [by apply Z.mul_lt_mono_pos_r|]. replace (den * A * P) with (den * (A * P)) by lia.
  replace (den * L * T) with (den * (L * T)) by lia. by apply Z.mul_le_mono_pos_l.
Qed.
Lemma round_range d a b : 0 < b -> 10 ^ 16 * b <= a -> a < 10 ^ 17 * b -> Z.abs (d * b - a) * 2 <= b -> 10 ^ 16 <= d <= 10 ^ 17.
Proof. intros. nia. Qed.
Lemma round_error d a b P Q :
  0 < b -> 0 < P -> a * P = b * Q -> 10 ^ 16 * b <= a -> Z.abs (d * b - a) * 2 <= b -> Z.abs (d * P - Q) * (2 * 10 ^ 16) <= Q.
Proof.
  intros Hb HP Eq Ha Hr. apply (Z.mul_le_mono_pos_l _ _ b Hb). rewrite <- Eq.
  replace (b * (Z.abs (d * P - Q) * (2 * 10 ^ 16))) with (Z.abs (d * b - a) * (2 * 10 ^ 16) * P).
  - apply Z.mul_le_mono_pos_r; [done|]. lia.
  - assert (b * Z.abs (d * P - Q) = Z.abs (d * b - a) * P) as Ha2; [|lia].
    pose proof (Z.abs_mul b (d * P - Q)) as E1. pose proof (Z.abs_mul (d * b - a) P) as E2. rewrite (Z.abs_eq b) in E1 by lia.
    rewrite (Z.abs_eq P) in E2 by lia. replace (b * (d * P - Q)) with ((d * b - a) * P) in E1 by lia. lia.
Qed.
Section Digits.
Context (num den l : Z) (Hnum : 0 < num) (Hden : 0 < den) (Hl : -1074 <= l <= 1023).
Context (Hlo : den * 2 ^ (l + K2) <= num * 2 ^ K2) (Hhi : num * 2 ^ K2 < den * 2 ^ (l + 1 + K2)).
Lemma dec_exp_spec :
  let x := dec_exp num den l in
  - 340 <= x <= 340 /\ den * 10 ^ (x + K10) <= num * 10 ^ K10 < den * 10 ^ (x + 1 + K10).
Proof using All.
  pose proof K10_eq as EK. pose proof K2_eq as EK2. unfold dec_exp. set (x := l * 30103 / 100000) in *.
  assert (100000 * x <= 30103 * l < 100000 * x + 100000) as Hx by (unfold x; Z.div_mod_to_equations; lia). clearbody x.
  pose proof (pow10_le_pow2 (x - 1) l ltac:(lia) ltac:(lia) ltac:(lia) ltac:(lia)) as C1.
  pose proof (pow2_le_pow10 (x + 2) (l + 1) ltac:(lia) ltac:(lia) ltac:(lia) ltac:(lia)) as C2.
  assert (den * 10 ^ (x - 1 + K10) <= num * 10 ^ K10) as L1.
  { apply (cross_le _ (2 ^ K2) (2 ^ (l + K2))); (done || lia || (apply Z.pow_pos_nonneg; lia)). }
  assert (num * 10 ^ K10 < den * 10 ^ (x + 2 + K10)) as L2.
  { apply (cross_lt _ (2 ^ K2) (2 ^ (l + 1 + K2))); (done || lia || (apply Z.pow_pos_nonneg; lia)). }
  destruct (scale10 num den (x + 1)) as [a b] eqn:E1. pose proof (scale10_le num den (x + 1) a b 1 Hnum Hden ltac:(lia) ltac:(lia) E1) as S1.
  rewrite !Z.mul_1_l in S1. destruct (Z.leb_spec b a) as [Hba|Hba].
  - split; [lia|]. split; [by apply S1|]. by replace (x + 1 + 1 + K10) with (x + 2 + K10) by lia.
  - destruct (scale10 num den x) as [a' b'] eqn:E2. pose proof (scale10_le num den x a' b' 1 Hnum Hden ltac:(lia) ltac:(lia) E2) as S2.
    rewrite !Z.mul_1_l in S2. destruct (Z.ltb_spec a' b').
    + split; [lia|]. split; [done|]. replace (x - 1 + 1 + K10) with (x + K10) by lia. destruct (Z.le_gt_cases (den * 10 ^ (x + K10)) (num * 10 ^ K10)); [|done].
      apply S2 in H0. lia.
    + split; [lia|]. split; [by apply S2|]. destruct (Z.le_gt_cases (den * 10 ^ (x + 1 + K10)) (num * 10 ^ K10)) as [H0|]; [|done]. apply S1 in H0. lia.
Qed.
(** Seventeen digits with a relative error of half a unit of the last. *)
Lemma sig_digits_spec :
  let '(d, x) := sig_digits 17 num den l in
  10 ^ 16 <= d < 10 ^ 17 /\ - 340 <= x <= 341
  /\ Z.abs (d * (den * 10 ^ (x - 16 + K10)) - num * 10 ^ K10) * (2 * 10 ^ 16) <= num * 10 ^ K10.
Proof using All.
  pose proof K10_eq as EK. unfold sig_digits. destruct dec_exp_spec as (Hx & L1 & L2). set (x := dec_exp num den l) in *. change (17 - 1) with 16.
  destruct (scale10 num den (x - 16)) as [a b] eqn:E. destruct (scale10_spec num den (x - 16) a b Hnum Hden ltac:(lia) E) as (Ha & Hb & Eq).
  pose proof (div_round_spec a b Hb) as Hr. set (d := div_round a b) in *.
  assert (10 ^ 16 * b <= a) as A1.
  { apply (scale10_le num den (x - 16) a b (10 ^ 16) Hnum Hden ltac:(lia) ltac:(lia) E).
    replace (10 ^ 16 * (den * 10 ^ (x - 16 + K10))) with (den * 10 ^ (x + K10)); [done|].
    replace (x + K10) with (16 + (x - 16 + K10)) by lia. rewrite (Z.pow_add_r 10 16) by lia. lia. }
  assert (a < 10 ^ 17 * b) as A2.
  { destruct (Z.le_gt_cases (10 ^ 17 * b) a) as [H|]; [|done]. apply (scale10_le num den (x - 16) a b (10 ^ 17) Hnum Hden ltac:(lia) ltac:(lia) E) in H.
    replace (10 ^ 17 * (den * 10 ^ (x - 16 + K10))) with (den * 10 ^ (x + 1 + K10)) in H; [lia|].
    replace (x + 1 + K10) with (17 + (x - 16 + K10)) by lia. rewrite (Z.pow_add_r 10 17) by lia. lia. }
  pose proof (round_range d a b Hb A1 A2 Hr) as Hd.
  assert (Z.abs (d * (den * 10 ^ (x - 16 + K10)) - num * 10 ^ K10) * (2 * 10 ^ 16) <= num * 10 ^ K10) as Hn.
  { apply (round_error d a b); try done. apply Z.mul_pos_pos; [done|apply Z.pow_pos_nonneg; lia]. }
  destruct (Z.eqb_spec d (10 ^ 17)) as [Ed|Ed]; [|split; [lia|split; [lia|done]]].
  split; [lia|]. split; [lia|]. replace (10 ^ 16 * (den * 10 ^ (x + 1 - 16 + K10))) with (d * (den * 10 ^ (x - 16 + K10))); [done|].
  rewrite Ed. replace (x + 1 - 16 + K10) with (1 + (x - 16 + K10)) by lia. rewrite (Z.pow_add_r 10 1) by lia. lia.
Qed.
End Digits.

(** ** The text *)

Abbreviation digit := (fun c => 48 <= c <= 57).
Abbreviation dval := (foldl (fun a c => a * 10 + (c - 48))).
Lemma fixed_digits_spec n v acc :
  0 <= v -> Forall digit acc ->
  Forall digit (fixed_digits n v acc) /\ length (fixed_digits n v acc) = (n + length acc)%nat
  /\ (forall base, dval base (fixed_digits n v acc) = dval (base * 10 ^ Z.of_nat n + v mod 10 ^ Z.of_nat n) acc).
Proof.
  revert v acc. induction n as [|n IH]; intros v acc Hv Ha; cbn [fixed_digits].
  - split; [done|]. split; [done|]. intros base. cbn. rewrite Z.mod_1_r. f_equal. lia.
  - pose proof (Z.mod_pos_bound v 10 ltac:(lia)). destruct (IH (v / 10) ((48 + v mod 10) :: acc)) as (H1 & H2 & H3).
    + apply Z.div_pos; lia.
    + constructor; [lia|done].
    + split; [done|]. split; [rewrite H2; cbn; lia|]. intros base. rewrite H3. cbn [foldl]. f_equal. rewrite Nat2Z.inj_succ, Z.pow_succ_r by lia.
      pose proof (Z.pow_pos_nonneg 10 (Z.of_nat n) ltac:(lia) ltac:(lia)). rewrite (Z.rem_mul_r v 10 (10 ^ Z.of_nat n)) by lia. lia.
Qed.
Lemma strip_zeros_split s : exists j, s = strip_zeros s ++ replicate j 48.
Proof.
  induction s as [|c s [j IH]]; [by exists 0%nat|]. cbn [strip_zeros]. destruct (strip_zeros s) as [|y t] eqn:E.
  - destruct (Z.eqb_spec c 48) as [->|]; [exists (S j)|exists j]; cbn in *; by rewrite IH at 1.
  - exists j. rewrite IH at 1. done.
Qed.
Lemma dval_zeros j a : dval a (replicate j 48) = a * 10 ^ Z.of_nat j.
Proof.
  revert a. induction j as [|j IH]; intros a; [cbn; lia|]. cbn [replicate foldl]. rewrite IH, Nat2Z.inj_succ, Z.pow_succ_r by lia. lia.
Qed.
Lemma dval_nonneg l a : Forall digit l -> 0 <= a -> 0 <= dval a l.
Proof. intros H. revert a. induction H as [|c l Hc Hl IH]; intros a Ha; [done|]. cbn. apply IH. lia. Qed.
(** What follows the digits: nothing or an exponent. *)
Definition ends (t : list Z) : Prop := match t with [] => True | c :: _ => c = 101 end.
Lemma scan_digits_ends l a t : Forall digit l -> ends t -> scan_digits (l ++ t) a = (dval a l, t).
Proof. intros Hl Ht. rewrite scan_digits_app by done. destruct t as [|c t]; [done|]. cbn in Ht. by subst c. Qed.
Lemma scan_point_spec ip fr t :
  Forall digit ip -> Forall digit fr -> ip <> [] -> ends t ->
  exists m j n, 0 < n /\ dval 0 (ip ++ fr) = m * 10 ^ Z.of_nat j /\ (j <= length fr)%nat
    /\ scan_point scan_digits (with_fraction ip fr ++ t) = (m, blen fr - Z.of_nat j, n, t).
Proof.
  intros Hi Hf Hne Ht. destruct (strip_zeros_split fr) as [j Ej]. unfold with_fraction. set (fr' := strip_zeros fr) in *.
  assert (Forall digit fr') as Hf' by (rewrite Ej in Hf; apply Forall_app in Hf; apply Hf). assert (0 < blen ip) as Hl by (destruct ip; [done|unfold blen; cbn; lia]).
  assert (blen fr = blen fr' + Z.of_nat j) as El by (rewrite Ej, blen_app at 1; f_equal; unfold blen; by rewrite length_replicate).
  exists (dval 0 (ip ++ fr')), j, (blen ip + blen fr'). pose proof (blen_nonneg fr'). split; [lia|]. split; [by rewrite Ej at 1; rewrite app_assoc, foldl_app, dval_zeros|].
  split; [unfold blen in *; lia|]. replace (blen fr - Z.of_nat j) with (blen fr') by lia. unfold scan_point. destruct fr' as [|c fr'].
  - rewrite scan_digits_ends by done. rewrite app_nil_r, blen_app. change (blen []) with 0. replace (blen ip + blen t - blen t) with (blen ip + 0) by lia.
    destruct t as [|c t]; [done|]. cbn in Ht. by subst c.
  - set (f := c :: fr') in *. replace (ip ++ 46 :: f) with (ip ++ [46] ++ f) by done. rewrite <- !app_assoc. rewrite scan_digits_app by done.
    cbn [app scan_digits]. change (isdigit 46) with false. cbn iota. change (46 =? 46) with true. cbn iota.
    rewrite scan_digits_ends by done. rewrite foldl_app. rewrite !blen_app. replace (blen ip + blen (46 :: f ++ t) - blen (46 :: f ++ t)) with (blen ip) by lia.
    replace (blen f + blen t - blen t) with (blen f) by lia. destruct (Z.eqb_spec (blen ip + blen f) 0); [lia|done].
Qed.
Lemma scan_exp_fmt x : -10 ^ 19 < x < 10 ^ 19 -> scan_exp 101 69 (fmt_exp x) = (x, []).
Proof.
  intros Hx. unfold fmt_exp, scan_exp. change ((101 =? 101) || (101 =? 69)) with true. cbn iota.
  set (ds := if Z.abs x <? 10 then _ else _). assert (exists c l, ds = c :: l /\ isdigit c = true /\ scan_digits ds 0 = (Z.abs x, [])) as (c & l & Ed & Hc & Hs).
  { unfold ds. destruct (Z.ltb_spec (Z.abs x) 10) as [Ha|Ha].
    - exists 48, [48 + Z.abs x]. split; [done|]. split; [done|]. cbn. assert (isdigit (48 + Z.abs x) = true) as -> by (unfold isdigit; lia). f_equal. lia.
    - destruct (dec_digits_spec 20 (Z.abs x) []) as (H1 & _ & H3 & H4); [cbn; lia|constructor|]. destruct (H4 ltac:(done)) as (c & l & E). exists c, l. split; [done|].
      split; [rewrite E in H1; apply Forall_cons in H1 as [H1 _]; unfold isdigit; lia|].
      rewrite <- (app_nil_r (dec_digits _ _ _)), scan_digits_ends by done. by rewrite H3. }
  destruct (Z.ltb_spec x 0).
  - change (45 =? 45) with true. cbn iota. rewrite Ed in *. rewrite Hc, Hs. f_equal. lia.
  - change (43 =? 45) with false. change (43 =? 43) with true. cbn iota. rewrite Ed in *. rewrite Hc, Hs. f_equal. lia.
Qed.

(** The characters of a number are digits, a point, an exponent and signs. *)
Definition num_char (c : Z) : Prop := 48 <= c <= 57 \/ c = 46 \/ c = 101 \/ c = 43 \/ c = 45.
Lemma digit_char l : Forall digit l -> Forall num_char l.
Proof. intros H. eapply Forall_impl; [exact H|]. intros c Hc. by left. Qed.
Lemma with_fraction_chars ip fr : Forall digit ip -> Forall digit fr -> Forall num_char (with_fraction ip fr).
Proof.
  intros Hi Hf. unfold with_fraction. destruct (strip_zeros_split fr) as [j E]. destruct (strip_zeros fr) as [|c l]; [by apply digit_char|].
  rewrite E in Hf. apply Forall_app in Hf as [Hf _]. apply Forall_app. split; [by apply digit_char|]. constructor; [by right; left|]. by apply digit_char.
Qed.
Lemma fmt_exp_chars x : -10 ^ 19 < x < 10 ^ 19 -> Forall num_char (fmt_exp x).
Proof.
  intros Hx. unfold fmt_exp. constructor; [by right; right; left|]. constructor; [destruct (x <? 0); unfold num_char; lia|]. apply digit_char.
  destruct (Z.ltb_spec (Z.abs x) 10); [repeat constructor; lia|]. apply dec_digits_spec; [cbn; lia|constructor].
Qed.
(** The printed digits are read as a decimal fraction of the same value. *)
Lemma fmt_digits_read d x :
  10 ^ 16 <= d < 10 ^ 17 -> -400 < x < 400 ->
  Forall num_char (fmt_digits 17 d x) /\ exists m j, (j <= 20)%nat /\ d = m * 10 ^ Z.of_nat j
    /\ strtod_dec (fmt_digits 17 d x) = Some (f64_of_dec m (x - 16 + Z.of_nat j), []).
Proof.
  intros Hd Hx. unfold fmt_digits. change (Z.to_nat 17) with 17%nat. destruct (fixed_digits_spec 17 d []) as (D1 & D2 & D3); [lia|constructor|].
  set (ds := fixed_digits 17 d []) in *. assert (dval 0 ds = d) as Dv by (rewrite D3; cbn [foldl]; change (Z.of_nat 17) with 17; rewrite Z.mod_small; lia).
  cbn [length] in D2. replace (17 + 0)%nat with 17%nat in D2 by lia. clearbody ds.
  assert (forall ip fr t e, Forall digit ip -> Forall digit fr -> ip <> [] -> ends t -> scan_exp 101 69 t = (e, []) -> dval 0 (ip ++ fr) = d ->
    (length fr <= 20)%nat -> e - blen fr = x - 16 -> exists m j, (j <= 20)%nat /\ d = m * 10 ^ Z.of_nat j
    /\ strtod_dec (with_fraction ip fr ++ t) = Some (f64_of_dec m (x - 16 + Z.of_nat j), [])) as Hread.
  { intros ip fr t e H1 H2 H3 H4 H5 H6 H7 H8. destruct (scan_point_spec ip fr t H1 H2 H3 H4) as (m & j & n & Hn & Em & Hj & E). exists m, j.
    split; [lia|]. split; [congruence|]. unfold strtod_dec. rewrite E. destruct (Z.eqb_spec n 0); [lia|]. rewrite H5. do 3 f_equal. lia. }
  assert (forall k, Forall digit (take k ds) /\ Forall digit (drop k ds)) as Hk by (intros k; split; [by apply Forall_take|by apply Forall_drop]).
  destruct ((x <? -4) || (17 <=? x)) eqn:Ex; [|destruct (Z.leb_spec 0 x) as [H0|H0]].
  - split; [apply Forall_app; split; [apply with_fraction_chars; apply Hk|apply fmt_exp_chars; lia]|].
    apply (Hread _ _ _ x); [apply Hk|apply Hk| |done| | | |].
    + intros E. apply (f_equal length) in E. rewrite length_take, D2 in E. done.
    + apply scan_exp_fmt. lia.
    + by rewrite take_drop.
    + rewrite length_drop, D2. lia.
    + unfold blen. rewrite length_drop, D2. lia.
  - split; [apply with_fraction_chars; apply Hk|]. rewrite <- (app_nil_r (with_fraction _ _)). apply (Hread _ _ _ 0); [apply Hk|apply Hk| |done|done| | |].
    + intros E. apply (f_equal length) in E. rewrite length_take, D2 in E. cbn in E. lia.
    + by rewrite take_drop.
    + rewrite length_drop, D2. lia.
    + unfold blen. rewrite length_drop, D2. lia.
  - assert (Forall digit (replicate (Z.to_nat (- x - 1)) 48 ++ ds)) as Hz by (apply Forall_app; split; [apply Forall_replicate; lia|done]).
    split; [apply with_fraction_chars; [repeat constructor; lia|done]|]. rewrite <- (app_nil_r (with_fraction _ _)).
    apply (Hread _ _ _ 0); [|done|done|done|done| | |].
    + repeat constructor; lia.
    + rewrite !foldl_app, dval_zeros. change (dval 0 [48]) with 0. by rewrite Z.mul_0_l.
    + rewrite length_app, length_replicate, D2. lia.
    + unfold blen. rewrite length_app, length_replicate, D2. lia.
Qed.
Lemma near_dec m10 e num den :
  -400 <= e -> Z.abs (m10 * (den * 10 ^ (e + K10)) - num * 10 ^ K10) * (2 * 10 ^ 16) <= num * 10 ^ K10 ->
  Z.abs (dec_num m10 e * den - num * dec_den e) * (2 * 10 ^ 16) <= num * dec_den e.
Proof.
  intros He Hn. pose proof K10_eq as EK. unfold dec_num, dec_den. set (t := K10 - Z.max (- e) 0).
  assert (10 ^ (e + K10) = 10 ^ Z.max e 0 * 10 ^ t) as E1 by (rewrite <- Z.pow_add_r by lia; f_equal; lia).
  assert (10 ^ K10 = 10 ^ Z.max (- e) 0 * 10 ^ t) as E2 by (rewrite <- Z.pow_add_r by lia; f_equal; lia). rewrite E1, E2 in Hn. clear E1 E2.
  assert (0 < 10 ^ t) as Ht by (apply Z.pow_pos_nonneg; lia). set (A := 10 ^ Z.max e 0) in *. set (B := 10 ^ Z.max (- e) 0) in *.
  apply (Z.mul_le_mono_pos_r _ _ (10 ^ t) Ht).
  replace (m10 * (den * (A * 10 ^ t)) - num * (B * 10 ^ t)) with ((m10 * A * den - num * B) * 10 ^ t) in Hn by lia.
  rewrite Z.abs_mul, (Z.abs_eq (10 ^ t)) in Hn by lia. lia.
Qed.
Lemma fmt_finite_read m e :
  bounded 53 1024 m e = true ->
  Forall num_char (fmt_finite 17 m e) /\ strtod_dec (fmt_finite 17 m e) = Some (S754_finite false m e, []).
Proof.
  intros Hb. destruct (bounded_digits m e Hb) as (_ & He & Hm). destruct (frac_pos m e) as [Hx Hy]. pose proof K2_eq as EK2. unfold fmt_finite.
  assert ((if 0 <=? e then (Zpos m * 2 ^ e, 1) else (Zpos m, 2 ^ (- e))) = (frac_num m e, frac_den e)) as ->.
  { unfold frac_num, frac_den. destruct (Z.leb_spec 0 e); [by rewrite (Z.max_l e 0), (Z.max_r (- e) 0) by lia|].
    rewrite (Z.max_r e 0), (Z.max_l (- e) 0) by lia. change (2 ^ 0) with 1. by rewrite Z.mul_1_r. }
  set (l := Z.log2 (Zpos m) + e). pose proof (log2_bounds (Zpos m) ltac:(lia)) as Hlog. pose proof (Z.log2_nonneg (Zpos m)).
  assert (Z.log2 (Zpos m) < 53) as Hl2 by (apply Z.log2_lt_pow2; lia).
  assert (frac_den e * 2 ^ (l + K2) <= frac_num m e * 2 ^ K2 /\ frac_num m e * 2 ^ K2 < frac_den e * 2 ^ (l + 1 + K2)) as [B1 B2].
  { unfold frac_num, frac_den. assert (forall y, 0 <= y -> 2 ^ Z.max (- e) 0 * 2 ^ (y + e + K2) = 2 ^ y * (2 ^ Z.max e 0 * 2 ^ K2)) as Ep.
    { intros y Hy0. rewrite <- !Z.pow_add_r by lia. f_equal. lia. }
    unfold l. rewrite Ep by lia. replace (Z.log2 (Zpos m) + e + 1 + K2) with (Z.log2 (Zpos m) + 1 + e + K2) by lia. rewrite Ep by lia.
    assert (0 < 2 ^ Z.max e 0 * 2 ^ K2) by (apply Z.mul_pos_pos; apply Z.pow_pos_nonneg; lia). rewrite <- !Z.mul_assoc.
    split; [apply Z.mul_le_mono_pos_r|apply Z.mul_lt_mono_pos_r]; lia. }
  pose proof (sig_digits_spec (frac_num m e) (frac_den e) l Hx Hy ltac:(lia) B1 B2) as Hs.
  destruct (sig_digits 17 (frac_num m e) (frac_den e) l) as [d x]. destruct Hs as (Hd & Hxx & Hn).
  destruct (fmt_digits_read d x Hd ltac:(lia)) as (Hc & m10 & j & Hj & Em & ->). split; [done|]. do 2 f_equal.
  assert (0 < m10) as Hpos by (pose proof (Z.pow_pos_nonneg 10 (Z.of_nat j) ltac:(lia) ltac:(lia)); nia).
  apply f64_of_dec_near; [done|done|]. apply near_dec; [lia|]. pose proof K10_eq as EK.
  replace (m10 * (frac_den e * 10 ^ (x - 16 + Z.of_nat j + K10))) with (d * (frac_den e * 10 ^ (x - 16 + K10))); [done|].
  rewrite Em. replace (x - 16 + Z.of_nat j + K10) with (Z.of_nat j + (x - 16 + K10)) by lia. rewrite (Z.pow_add_r 10 (Z.of_nat j)) by lia. lia.
Qed.

Lemma f64_of_bits_bounded b s m e : f64_of_bits b = S754_finite s m e -> s = Z.testbit b 63 /\ bounded 53 1024 m e = true.
Proof.
  unfold f64_of_bits. pose proof (Z.land_ones b 52 ltac:(lia)) as E1. pose proof (Z.land_ones (Z.shiftr b 52) 11 ltac:(lia)) as E2.
  change (Z.ones 11) with 2047 in E2. pose proof (Z.mod_pos_bound b (2 ^ 52) ltac:(lia)). pose proof (Z.mod_pos_bound (Z.shiftr b 52) (2 ^ 11) ltac:(lia)).
  rewrite E1, E2. set (fr := b mod 2 ^ 52) in *. set (ex := Z.shiftr b 52 mod 2 ^ 11) in *. clearbody fr ex.
  destruct (Z.eqb_spec ex 2047); [by destruct (fr =? 0)|]. destruct (Z.eqb_spec ex 0).
  - destruct fr as [|p|p]; [done| |lia]. intros [= <- <- <-]. split; [done|]. unfold bounded, canonical_mantissa. rewrite fexp_eq.
    pose proof (digits_bounds p). assert (Zpos (digits2_pos p) <= 52).
    { destruct (Z.le_gt_cases (Zpos (digits2_pos p)) 52); [done|]. pose proof (Z.pow_le_mono_r 2 52 (Zpos (digits2_pos p) - 1) ltac:(lia) ltac:(lia)). lia. }
    lia.
  - intros [= <- <- <-]. split; [done|]. unfold bounded, canonical_mantissa. rewrite fexp_eq.
    rewrite (digits_unique (Z.to_pos (fr + 2 ^ 52)) 53) by lia. lia.
Qed.
Lemma num_char_not c x : num_char c -> In x [105; 110; 120] -> tolower c <> x.
Proof. intros Hc Hx. cbn in Hx. unfold tolower. destruct ((65 <=? c) && (c <=? 90)) eqn:E; unfold num_char in Hc; lia. Qed.
Lemma prefix_first p ps s : has_prefix (p :: ps) s = true -> exists c t, s = c :: t /\ tolower c = tolower p.
Proof.
  unfold has_prefix. intros [H1 H2]%andb_prop. destruct s as [|c t]; [done|]. exists c, t. split; [done|]. cbn [strncasecmp hd] in H2. cbn [length strncasecmp hd] in H2.
  destruct (Z.ltb_spec (tolower c) (tolower p)); [done|]. destruct (Z.ltb_spec (tolower p) (tolower c)); [done|]. lia.
Qed.
Lemma num_number s x : Forall num_char s -> strtod_dec s = x -> strtod_number s = x.
Proof.
  intros Hs Hx. assert (forall p ps, In (tolower p) [105; 110; 120] -> has_prefix (p :: ps) s = false) as Hp.
  { intros p ps Hin. destruct (has_prefix (p :: ps) s) eqn:E; [|done]. destruct (prefix_first _ _ _ E) as (c & t & -> & Ec). apply Forall_cons in Hs as [Hc _].
    exfalso. by apply (num_char_not c (tolower p)). }
  unfold strtod_number, strtod_special. change (str "INFINITY") with (73 :: str "NFINITY"). change (str "INF") with (73 :: str "NF").
  change (str "NAN") with (78 :: str "AN"). rewrite !Hp by (cbn; auto). assert (has_prefix (str "0X") s = false) as ->; [|done].
  destruct (has_prefix (str "0X") s) eqn:E; [|done]. exfalso. unfold has_prefix in E. apply andb_prop in E as [E1 E2].
  destruct s as [|c [|c' t]]; [done|done|]. apply Forall_cons in Hs as [Hc Hs]. apply Forall_cons in Hs as [Hc' _].
  apply (num_char_not c' 120 Hc' ltac:(cbn; auto)). change (str "0X") with [48; 88] in E2. cbn [length strncasecmp hd tl] in E2. change (tolower 48) with 48 in E2.
  change (tolower 88) with 120 in E2. destruct (tolower c <? 48); [done|]. destruct (48 <? tolower c) eqn:E3; [done|].
  destruct (Z.eqb_spec (tolower c) 0) as [E0|]; [unfold tolower, num_char in *; destruct ((65 <=? c) && (c <=? 90)) eqn:E4; lia|].
  destruct (Z.ltb_spec (tolower c') 120); [done|]. destruct (Z.ltb_spec 120 (tolower c')); [done|]. lia.
Qed.
Lemma num_nul_free s : Forall num_char s -> nul_free s.
Proof. intros H. eapply Forall_impl; [exact H|]. intros c Hc. unfold num_char in Hc. lia. Qed.
Lemma strtod_end_signed s body f :
  Forall num_char body -> strtod_dec body = Some (f, []) -> strtod_end (cstr ((if s : bool then [45] else []) ++ body)) = (sf_neg s f, []).
Proof.
  intros Hc Hd. rewrite cstr_nul_free.
  2: { apply num_nul_free, Forall_app. split; [|done]. destruct s; [|constructor]. constructor; [unfold num_char; lia|constructor]. }
  pose proof (num_number body _ Hc Hd) as Hn. destruct s; cbn [app]; unfold strtod_end.
  - change (skip_space (45 :: body)) with (45 :: body). cbn iota. change (45 =? 45) with true. cbn iota. by rewrite Hn.
  - destruct body as [|c t]; [done|]. apply Forall_cons in Hc as [Hc _]. assert (isspace c = false) as Hs by (unfold isspace, num_char in *; lia).
    cbn [skip_space]. rewrite Hs. assert (c <> 45 /\ c <> 43) as [H1 H2].
    { split; intros ->; unfold strtod_dec, scan_point in Hd; cbn [scan_digits] in Hd; change (isdigit 45) with false in Hd; change (isdigit 43) with false in Hd;
        cbn iota in Hd; rewrite Z.sub_diag in Hd; done. }
    destruct (Z.eqb_spec c 45); [done|]. destruct (Z.eqb_spec c 43); [done|]. by rewrite Hn.
Qed.
Lemma strtod_signed s body f :
  Forall num_char body -> strtod_dec body = Some (f, []) -> strtod ((if s : bool then [45] else []) ++ body) = sf_neg s f.
Proof. intros Hc Hd. unfold strtod. by rewrite (strtod_end_signed s body f Hc Hd). Qed.
(** Seventeen significant digits identify a number: for every pattern of
    64 bits, [strtod] of what [%.17g] prints is the number of the pattern,
    subnormal numbers, zeros of both signs, infinities and NaN included. *)
Lemma real_text_read bits : strtod_end (cstr (fmt_g 17 bits)) = (f64_of_bits bits, []).
Proof.
  unfold fmt_g. destruct (f64_of_bits bits) as [s|s| |s m e] eqn:E.
  - assert (s = Z.testbit bits 63) as ->.
    { revert E. unfold f64_of_bits. destruct (_ =? 2047); [by destruct (_ =? 0)|]. destruct (_ =? 0); [|done]. destruct (Z.land _ _); congruence. }
    by destruct (Z.testbit bits 63); vm_compute.
  - assert (s = Z.testbit bits 63) as ->.
    { revert E. unfold f64_of_bits. destruct (_ =? 2047); [destruct (_ =? 0); congruence|]. destruct (_ =? 0); [|done]. by destruct (Z.land _ _). }
    by destruct (Z.testbit bits 63); vm_compute.
  - by destruct (Z.testbit bits 63); vm_compute.
  - destruct (f64_of_bits_bounded bits s m e E) as [-> Hb]. destruct (fmt_finite_read m e Hb) as [Hc Hr]. rewrite (strtod_end_signed _ _ _ Hc Hr).
    by destruct (Z.testbit bits 63).
Qed.
Lemma real_text_roundtrip bits : strtod (fmt_g 17 bits) = f64_of_bits bits.
Proof. unfold strtod. by rewrite real_text_read. Qed.

(** ** Every double that is read is a binary64 number *)

Abbreviation valid64 := (valid_binary 53 1024).
Lemma finish_valid R f : 0 <= R <= 2 ^ 53 -> -1074 <= f -> (-1074 < f -> 2 ^ 52 <= R) -> valid64 (finish R f) = true.
Proof.
  intros HR Hf Hn. destruct R as [|m|m]; [| |lia].
  { unfold finish, shr_fexp. cbn [shr_record_of_loc]. destruct (fexp64 _ - f) as [|n|n]; cbn [shr shr_m]; [done| |done].
    rewrite iter_pos_nat. assert (forall k, shr_m (Nat.iter k shr_1 {| shr_m := 0; shr_r := false; shr_s := false |}) = 0) as ->; [|done].
    intros k. induction k as [|k IH]; [done|]. rewrite Nat.iter_succ. destruct (Nat.iter k shr_1 _) as [mm r1 s1]. cbn in IH. subst mm. reflexivity. }
  destruct (Z.eq_dec (Zpos m) (2 ^ 53)) as [Em|Em].
  { rewrite Em. destruct (Z.le_gt_cases (f + 1) 971).
    - replace f with (f + 1 - 1) by lia. rewrite finish_carry by lia. cbn [valid_binary]. unfold bounded, canonical_mantissa.
      rewrite fexp_eq. change (Zpos (digits2_pos (2 ^ 52))) with 53. lia.
    - unfold finish, shr_fexp. change (Zdigits2 (2 ^ 53)) with 54. rewrite fexp_eq. replace (Z.max _ _ - f) with 1 by lia.
      cbn [shr]. change (shr_m _) with (2 ^ 52). destruct (Z.leb_spec (f + 1) (1024 - 53)); [lia|done]. }
  pose proof (digits_bounds m) as Hd. assert (Zpos (digits2_pos m) <= 53).
  { destruct (Z.le_gt_cases (Zpos (digits2_pos m)) 53); [done|]. pose proof (Z.pow_le_mono_r 2 53 (Zpos (digits2_pos m) - 1) ltac:(lia) ltac:(lia)). lia. }
  assert (fexp64 (Zpos (digits2_pos m) + f) = f) as Hc.
  { rewrite fexp_eq. destruct (Z.eq_dec f (-1074)); [lia|]. rewrite (digits_unique m 53) by lia. lia. }
  unfold finish, shr_fexp. cbn [Zdigits2]. rewrite Hc, Z.sub_diag. cbn [shr shr_record_of_loc shr_m].
  destruct (Z.leb_spec f (1024 - 53)); [|done]. cbn [valid_binary]. unfold bounded, canonical_mantissa. rewrite Hc. lia.
Qed.
Lemma binary_round_valid M E : valid64 (binary_round 53 1024 false M E) = true.
Proof.
  destruct (binary_round_near M E) as (R & -> & HR & Hd). set (f := fexp64 _) in *. pose proof (digits_bounds M) as HM.
  set (d := Zpos (digits2_pos M)) in *. set (g := Z.min E f). specialize (Hd g ltac:(lia) ltac:(lia)).
  assert (f = Z.max (d + E - 53) (-1074)) as Ef by (unfold f; apply fexp_eq). pose proof (Z.pow_pos_nonneg 2 (f - g) ltac:(lia) ltac:(lia)) as Hp.
  pose proof (Z.pow_pos_nonneg 2 (E - g) ltac:(lia) ltac:(lia)) as Hq. assert (0 < d) by lia.
  assert (Zpos M * 2 ^ (E - g) < 2 ^ 53 * 2 ^ (f - g)) as Hu.
  { apply Z.lt_le_trans with (2 ^ d * 2 ^ (E - g)); [nia|]. rewrite <- !Z.pow_add_r by lia. apply Z.pow_le_mono_r; lia. }
  apply finish_valid; [nia|lia|]. intros Hf. assert (2 ^ 52 * 2 ^ (f - g) <= Zpos M * 2 ^ (E - g)); [|nia].
  apply Z.le_trans with (2 ^ (d - 1) * 2 ^ (E - g)); [|nia]. rewrite <- !Z.pow_add_r by lia. apply Z.pow_le_mono_r; lia.
Qed.
Lemma valid_opp f : valid64 (SFopp f) = valid64 f.
Proof. by destruct f. Qed.
Lemma binary_round_opp sx mx ex : binary_round 53 1024 (negb sx) mx ex = SFopp (binary_round 53 1024 sx mx ex).
Proof.
  unfold binary_round, binary_round_aux. destruct (shl_align _ _ _) as [mz ez].
  destruct (shr_fexp _ _ _ _ _) as [r e]. destruct (shr_fexp _ _ _ _ _) as [r' e'].
  destruct (shr_m r'); [done| |done]. by destruct (e' <=? 1024 - 53).
Qed.
Lemma normalize_valid m e : valid64 (binary_normalize 53 1024 m e false) = true.
Proof.
  destruct m as [|p|p]; [done|apply binary_round_valid|]. cbn [binary_normalize].
  change true with (negb false) at 1. rewrite binary_round_opp, valid_opp. apply binary_round_valid.
Qed.
Lemma f64_of_dec_valid m e : valid64 (f64_of_dec m e) = true.
Proof. unfold f64_of_dec. repeat case_match; apply normalize_valid || done. Qed.
Lemma f64_of_bin_valid m e : valid64 (f64_of_bin m e) = true.
Proof. unfold f64_of_bin. repeat case_match; apply normalize_valid || done. Qed.
Lemma f64_of_int_valid i : valid64 (f64_of_int i) = true.
Proof. apply normalize_valid. Qed.
Lemma strtod_number_valid s f r : strtod_number s = Some (f, r) -> valid64 f = true.
Proof.
  unfold strtod_number, strtod_special, strtod_hex, strtod_dec. intros H.
  repeat (case_match; simplify_eq; try done); apply f64_of_dec_valid || apply f64_of_bin_valid.
Qed.
Lemma strtod_end_valid s : valid64 (strtod_end s).1 = true.
Proof.
  unfold strtod_end. destruct (match skip_space s with [] => _ | _ => _ end) as [neg t].
  destruct (strtod_number t) as [[f r]|] eqn:E; [|done]. pose proof (strtod_number_valid _ _ _ E).
  unfold sf_neg. destruct neg; cbn [fst]; [by rewrite valid_opp|done].
Qed.
Lemma f64_of_bits_valid b : valid64 (f64_of_bits b) = true.
Proof. destruct (f64_of_bits b) as [| | |s m e] eqn:E; try done. apply (f64_of_bits_bounded b s m e E). Qed.

(** The bit pattern and the number determine each other. *)
Lemma pattern_fields s ex fr : 0 <= ex < 2048 -> 0 <= fr < 2 ^ 52 ->
  let b := (if s : bool then 2 ^ 63 else 0) + (ex * 2 ^ 52 + fr) in
  Z.testbit b 63 = s /\ Z.land (Z.shiftr b 52) 2047 = ex /\ Z.land b (Z.ones 52) = fr.
Proof.
  intros He Hf b. change 2047 with (Z.ones 11). rewrite !Z.land_ones, Z.shiftr_div_pow2 by lia.
  split; [|split].
  - rewrite Z.testbit_eqb by lia. unfold b. destruct s.
    + replace (_ / 2 ^ 63) with 1; [done|]. apply Z.div_unique with (ex * 2 ^ 52 + fr); lia.
    + rewrite Z.div_small by lia. done.
  - replace (b / 2 ^ 52) with ((if s then 2 ^ 11 else 0) + ex).
    + destruct s; [rewrite Z.add_comm, <- (Z.mul_1_l (2 ^ 11)) at 1; rewrite Z.mod_add by lia|]; apply Z.mod_small; lia.
    + apply Z.div_unique with fr; [lia|]. unfold b. destruct s; lia.
  - unfold b. symmetry. apply Z.mod_unique with ((if s then 2 ^ 11 else 0) + ex); [lia|]. destruct s; lia.
Qed.
Lemma bits_roundtrip f : valid64 f = true -> f64_of_bits (bits_of_f64 f) = f.
Proof.
  destruct f as [s|s| |s m e]; [by destruct s..|done|]. cbn [valid_binary]. intros Hb. pose proof (bounded_digits m e Hb) as (Hf & He & Hm).
  rewrite fexp_eq in Hf. pose proof (digits_bounds m) as Hd. unfold bits_of_f64. destruct (Z.ltb_spec (Zpos m) (2 ^ 52)).
  - assert (e = -1074) as ->.
    { destruct (Z.eq_dec e (-1074)); [done|]. assert (Zpos (digits2_pos m) = 53) as Ed by lia. rewrite Ed in Hd. lia. }
    destruct (pattern_fields s 0 (Zpos m)) as (E1 & E2 & E3); [lia..|]. rewrite Z.mul_0_l, Z.add_0_l in E1, E2, E3. unfold f64_of_bits. by rewrite E1, E2, E3.
  - destruct (pattern_fields s (e + 1075) (Zpos m - 2 ^ 52)) as (E1 & E2 & E3); [lia..|]. unfold f64_of_bits. rewrite E1, E2, E3.
    destruct (Z.eqb_spec (e + 1075) 2047); [lia|]. destruct (Z.eqb_spec (e + 1075) 0); [lia|]. f_equal; lia.
Qed.
Lemma bits_range f : valid64 f = true -> 0 <= bits_of_f64 f < 2 ^ 64.
Proof.
  destruct f as [s|s| |s m e]; [by destruct s..|done|]. cbn [valid_binary]. intros Hb. pose proof (bounded_digits m e Hb) as (Hf & He & Hm).
  unfold bits_of_f64. destruct (Z.ltb_spec (Zpos m) (2 ^ 52)); destruct s; lia.
Qed.
