(* ===== verification/ValueText.v ===== *)
(** * Text forms of values and affinity

    The rest of src/src/value/tdb_value.c and src/src/value/tdb_type.c: the
    conversions of a value to a number and to text, and the column affinity
    that is applied to it. *)
From Stdlib Require Import SpecFloat.
From S2P Require Import Prelude Util Buf Value Record Cnum CnumSpec.

Definition tdb_value_as_real (v : tdb_value) : spec_float :=
  match v with
  | VInt i => f64_of_int i
  | VReal r => f64_of_bits r
  | VText s => strtod s
  | _ => S754_zero false
  end.

Section Alloc.
Context (alloc_ok : Z -> bool).

(** The text is stored in the value; the pointer is NULL when that fails. *)
Definition materialize (s : list Z) (n : Z) : tdb_value * cstring :=
  match tdb_value_set_text alloc_ok s n true with
  | (TDB_OK, v) => (v, Some (bsub s 0 (if n <? 0 then strlen s else n)))
  | (_, v) => (v, None)
  end.
(** The text of a field of a composite; a decoded field is not a composite. *)
Definition field_text (f : tdb_value) : cstring :=
  match f with
  | VText s | VBlob s => Some s
  | VInt i => (materialize (fmt_lld i) (-1)).2
  | VReal r => (materialize (fmt_g 17 r) (-1)).2
  | VNull | VComposite _ => None
  end.
(** [(field, field, ...)]; the results of the buffer routines are ignored. *)
Fixpoint composite_loop (k : nat) (v : tdb_value) (i : Z) (b : tdb_buf) : tdb_buf :=
  match k with
  | O => b
  | S k =>
      let b := if i =? 0 then b else (tdb_buf_append alloc_ok b (str ", ")).2 in
      let b :=
        match tdb_value_composite_field alloc_ok v i with
        | (TDB_OK, VNull) => (tdb_buf_append alloc_ok b (str "NULL")).2
        | (TDB_OK, f) => match field_text f with Some t => (tdb_buf_append alloc_ok b (cstr t)).2 | None => b end
        | _ => b
        end in
      composite_loop k v (i + 1) b
  end.
(** The value, in which a number or a composite is replaced by its text, and
    the text; [None] is the NULL pointer.  A text is read by the callers up to
    its first NUL. *)
Definition tdb_value_as_text (v : tdb_value) : tdb_value * cstring :=
  match v with
  | VText s | VBlob s => (v, Some s)
  | VNull => (v, None)
  | VInt i => materialize (fmt_lld i) (-1)
  | VReal r => materialize (fmt_g 17 r) (-1)
  | VComposite _ =>
      let b := (tdb_buf_putc alloc_ok tdb_buf_init 40).2 in
      let b := composite_loop (Z.to_nat (tdb_value_composite_count alloc_ok v)) v 0 b in
      let b := (tdb_buf_putc alloc_ok b 41).2 in
      materialize (b_data b) (s32 (b_len b))
  end.

(** ** Affinity *)

(** An integer or a real that the whole text denotes. *)
Definition looks_numeric (s : list Z) : option (Z + spec_float) :=
  match cstr s with
  | [] => None
  | s =>
      match strtoll_end s with
      | (ll, []) => Some (inl ll)
      | _ => match strtod_end s with (d, []) => Some (inr d) | _ => None end
      end
  end.
(** [(double)(int64_t)r == r] *)
Definition integral (r : spec_float) : bool := SFeqb (f64_of_int (f64_trunc r)) r.
Definition tdb_apply_affinity (v : tdb_value) (aff : tdb_affinity) : tdb_value :=
  match v with
  | VNull | VBlob _ => v
  | _ =>
      match aff with
      | TDB_AFF_INTEGER | TDB_AFF_NUMERIC =>
          match v with
          | VText s =>
              match looks_numeric s with
              | Some (inl iv) => VInt iv
              | Some (inr rv) =>
                  if match aff with TDB_AFF_INTEGER => integral rv | _ => false end then VInt (f64_trunc rv) else VReal (bits_of_f64 rv)
              | None => v
              end
          | VReal r =>
              if match aff with TDB_AFF_INTEGER => integral (f64_of_bits r) | _ => false end then VInt (f64_trunc (f64_of_bits r)) else v
          | _ => v
          end
      | TDB_AFF_REAL =>
          match v with
          | VInt i => VReal (bits_of_f64 (f64_of_int i))
          | VText s =>
              match looks_numeric s with
              | Some (inl iv) => VReal (bits_of_f64 (f64_of_int iv))
              | Some (inr rv) => VReal (bits_of_f64 rv)
              | None => v
              end
          | _ => v
          end
      | TDB_AFF_TEXT => match v with VInt _ | VReal _ => (tdb_value_as_text v).1 | _ => v end
      | TDB_AFF_BLOB => v
      end
  end.
End Alloc.

(** ** Properties *)

Lemma digits_nul_free l : Forall (fun c => 48 <= c <= 57) l -> nul_free l.
Proof. intros H. eapply Forall_impl; [exact H|]. intros c Hc. cbn beta in *. lia. Qed.
Lemma fmt_lld_nul_free i : - 2 ^ 63 <= i < 2 ^ 63 -> nul_free (fmt_lld i).
Proof.
  intros Hi. unfold fmt_lld. destruct (Z.ltb_spec i 0).
  - destruct (dec_digits_spec 20 (- i) []) as (H1 & _); [cbn; lia|constructor|]. constructor; [lia|by apply digits_nul_free].
  - destruct (dec_digits_spec 20 i []) as (H1 & _); [cbn; lia|constructor|]. by apply digits_nul_free.
Qed.
Lemma fmt_g_nul_free bits : nul_free (fmt_g 17 bits).
Proof.
  unfold fmt_g. apply Forall_app. split; [destruct (Z.testbit bits 63); repeat constructor; lia|].
  destruct (f64_of_bits bits) as [s|s| |s m e] eqn:E; [repeat constructor; cbn; lia..|].
  destruct (f64_of_bits_bounded bits s m e E) as [_ Hb]. apply num_nul_free, (fmt_finite_read m e Hb).
Qed.
Lemma materialize_spec alloc_ok s : nul_free s ->
  (materialize alloc_ok s (-1) = (VText s, Some s)) \/ materialize alloc_ok s (-1) = (VNull, None) /\ alloc_ok (blen s + 1) = false.
Proof.
  intros H. pose proof (blen_nonneg s). unfold materialize, tdb_value_set_text, value_set_bytes, strlen. cbn [Z.ltb Z.compare].
  rewrite (cstr_nul_free s H). destruct (Z.ltb_spec (blen s) 0); [lia|].
  destruct (alloc_ok (blen s + 1)); [left|by right]. by rewrite bsub_all.
Qed.

Lemma f64_of_int_opp i : 0 < i -> f64_of_int (- i) = SFopp (f64_of_int i).
Proof. intros H. destruct i as [|p|p]; [lia| |lia]. exact (binary_round_opp false p 0). Qed.
Lemma f64_of_dec_int n : f64_of_dec n 0 = f64_of_int n.
Proof.
  unfold f64_of_dec. destruct (Z.eqb_spec n 0) as [->|Hn]; [done|].
  change (400 <? 0) with false. change (0 <? 0) with false. cbn [andb]. change (0 <=? 0) with true. cbv iota.
  unfold f64_of_int. f_equal. change (10 ^ 0) with 1. lia.
Qed.
Lemma strtod_dec_digits n : 0 <= n < 10 ^ 20 ->
  Forall num_char (dec_digits 20 n []) /\ strtod_dec (dec_digits 20 n []) = Some (f64_of_int n, []).
Proof.
  intros Hn. destruct (dec_digits_spec 20 n []) as (H1 & _ & H3 & H4); [cbn; lia|constructor|].
  split; [by apply digit_char|]. destruct (H4 ltac:(done)) as (d & l & E).
  unfold strtod_dec, scan_point. rewrite <- (app_nil_r (dec_digits 20 n [])) at 1.
  rewrite scan_digits_ends by done. rewrite H3 by done.
  rewrite blen_nil, Z.sub_0_r. rewrite E at 1. destruct (Z.eqb_spec (blen (d :: l)) 0) as [Hz|_]; [rewrite blen_cons in Hz; pose proof (blen_nonneg l); lia|].
  cbn. by rewrite f64_of_dec_int.
Qed.
Lemma strtod_fmt_lld i : - 2 ^ 63 <= i < 2 ^ 63 -> strtod (fmt_lld i) = f64_of_int i.
Proof.
  intros Hi. unfold fmt_lld. destruct (Z.ltb_spec i 0).
  - destruct (strtod_dec_digits (- i)) as [H1 H2]; [lia|].
    etransitivity; [exact (strtod_signed true _ _ H1 H2)|]. unfold sf_neg. rewrite <- f64_of_int_opp by lia. by rewrite Z.opp_involutive.
  - destruct (strtod_dec_digits i) as [H1 H2]; [lia|]. exact (strtod_signed false _ _ H1 H2).
Qed.

(** A number within its machine width. *)
Definition numeric (v : tdb_value) : Prop :=
  match v with VInt i => - 2 ^ 63 <= i < 2 ^ 63 | VReal _ => True | _ => False end.

(** C24. Numbers as text: converting a number to text replaces it by a text
    without NUL bytes that is also the result, or, when the copy cannot be
    allocated, by NULL with no result; the text reads back as the same double
    (every finite value, signed zero, infinity and NaN; an integer as its own
    conversion to double), and the text of an integer as the same integer. *)
Theorem value_text_roundtrip alloc_ok v :
  numeric v ->
  (exists s, tdb_value_as_text alloc_ok v = (VText s, Some s) /\ nul_free s
     /\ tdb_value_as_real (VText s) = tdb_value_as_real v
     /\ (value_type v = TDB_VAL_INT -> tdb_value_as_int (VText s) = tdb_value_as_int v))
  \/ (tdb_value_as_text alloc_ok v = (VNull, None) /\ exists n, alloc_ok n = false).
Proof.
  intros Hv. destruct v as [|i|r|s|s|s]; try done; cbn [tdb_value_as_text].
  - pose proof (fmt_lld_nul_free i Hv) as Hn. destruct (materialize_spec alloc_ok _ Hn) as [->|[-> ?]]; [left|right; eauto].
    exists (fmt_lld i). split; [done|]. split; [done|]. split; [by apply strtod_fmt_lld|]. intros _. by apply as_int_fmt_lld.
  - pose proof (fmt_g_nul_free r) as Hn. destruct (materialize_spec alloc_ok _ Hn) as [->|[-> ?]]; [left|right; eauto].
    exists (fmt_g 17 r). split; [done|]. split; [done|]. split; [apply real_text_roundtrip|done].
Qed.
Lemma value_text_roundtrip_witness :
  exists s, tdb_value_as_text ok_alloc (VReal 0x3FB999999999999A) = (VText s, Some s) /\ tdb_value_as_real (VText s) = f64_of_bits 0x3FB999999999999A.
Proof.
  destruct (value_text_roundtrip ok_alloc (VReal 0x3FB999999999999A) I) as [(s & E & _ & H & _)|(_ & n & H)];
    [exact (ex_intro _ s (conj E H))|discriminate H].
Defined.

(** ** What affinity leaves *)

Lemma looks_numeric_range s i : looks_numeric s = Some (inl i) -> - 2 ^ 63 <= i < 2 ^ 63.
Proof.
  unfold looks_numeric, strtoll_end. intros H. destruct (cstr s) as [|c t]; [done|].
  destruct (match skip_space (c :: t) with [] => _ | _ => _ end) as [neg u].
  assert (forall z, - 2 ^ 63 <= clamp64 z < 2 ^ 63) as Hc by (intros z; unfold clamp64; lia).
  destruct u as [|d u]; [by destruct (strtod_end (c :: t)) as [? [|]]|].
  destruct (isdigit d); [|by destruct (strtod_end (c :: t)) as [? [|]]].
  destruct (scan_digits (d :: u) 0) as [v [|]]; [by inversion H; subst|by destruct (strtod_end (c :: t)) as [? [|]]].
Qed.
(** What a column of an affinity holds: an INTEGER column no text that denotes
    a number and no real that is an integer, a NUMERIC column no text that
    denotes a number, a REAL column no integer and no such text, a TEXT column
    no number, a BLOB column anything. *)
Definition fits (aff : tdb_affinity) (v : tdb_value) : Prop :=
  match v, aff with
  | VText s, (TDB_AFF_INTEGER | TDB_AFF_NUMERIC | TDB_AFF_REAL) => looks_numeric s = None
  | VReal r, TDB_AFF_INTEGER => integral (f64_of_bits r) = false
  | VInt _, (TDB_AFF_REAL | TDB_AFF_TEXT) | VReal _, TDB_AFF_TEXT => False
  | _, _ => True
  end.

Lemma looks_numeric_valid s f : looks_numeric s = Some (inr f) -> valid64 f = true.
Proof.
  unfold looks_numeric. destruct (cstr s) as [|c t]; [done|]. intros H. pose proof (strtod_end_valid (c :: t)) as Hv.
  destruct (strtod_end (c :: t)) as [d r]. destruct (strtoll_end (c :: t)) as [ll [|]]; [done|]. destruct r; [|done]. by simplify_eq/=.
Qed.
Ltac trivial_case := try (lazymatch goal with |- True => exact I end).
Lemma as_text_fits alloc_ok v : numeric v -> fits TDB_AFF_TEXT (tdb_value_as_text alloc_ok v).1.
Proof.
  intros Hv. destruct v as [|i|r| | |]; try (destruct Hv; fail); cbn [tdb_value_as_text].
  - destruct (materialize_spec alloc_ok _ (fmt_lld_nul_free i Hv)) as [->|[-> _]]; exact I.
  - destruct (materialize_spec alloc_ok _ (fmt_g_nul_free r)) as [->|[-> _]]; exact I.
Qed.

(** Affinity typing: whatever value is stored under an affinity, the value
    that affinity application leaves is of the column's type: no integer in a
    REAL column, no number in a TEXT column, no integral real in an INTEGER
    column, and no text that denotes a number in any numeric column; NULL and
    blobs are kept. *)
Theorem affinity_type alloc_ok v aff :
  (value_type v = TDB_VAL_INT -> numeric v) ->
  fits aff (tdb_apply_affinity alloc_ok v aff)
  /\ (v = VNull \/ value_type v = TDB_VAL_BLOB -> tdb_apply_affinity alloc_ok v aff = v).
Proof.
  intros Hv. split; [|destruct v; intros [|]; done]. destruct aff; [by destruct v| | | |].
  - destruct v as [|i|r|s|s|s]; trivial_case; cbn [tdb_apply_affinity]; [exact I|apply as_text_fits..| | |]; [auto|exact I..].
  - destruct v as [|i|r|s|s|s]; cbn [tdb_apply_affinity fits]; trivial_case.
    destruct (looks_numeric s) as [[i|f]|] eqn:E; [exact I..|exact E].
  - destruct v as [|i|r|s|s|s]; cbn [tdb_apply_affinity fits]; trivial_case.
    + destruct (integral (f64_of_bits r)) eqn:E; [exact I|exact E].
    + destruct (looks_numeric s) as [[i|f]|] eqn:E; [exact I| |exact E].
      destruct (integral f) eqn:Ei; [exact I|]. cbn [fits]. by rewrite bits_roundtrip by (by apply (looks_numeric_valid s)).
  - destruct v as [|i|r|s|s|s]; cbn [tdb_apply_affinity fits]; trivial_case.
    destruct (looks_numeric s) as [[i|f]|] eqn:E; [exact I..|exact E].
Qed.
Lemma affinity_type_witness : fits TDB_AFF_INTEGER (VInt 12) /\ tdb_apply_affinity ok_alloc (VText (str "12.0")) TDB_AFF_INTEGER = VInt 12.
Proof.
  split; [|vm_compute; reflexivity].
  apply (affinity_type ok_alloc (VText (str "12.0")) TDB_AFF_INTEGER). discriminate.
Defined.

(** An integer text beyond 64 bits is taken for the largest integer: the
    saturated result of [strtoll] is used without a range check, although the
    text denotes a double. *)
Lemma affinity_saturates :
  tdb_apply_affinity ok_alloc (VText (str "99999999999999999999")) TDB_AFF_NUMERIC = VInt (2 ^ 63 - 1)
  /\ SFcompare (strtod (str "99999999999999999999")) (f64_of_int (2 ^ 63 - 1)) = Some Gt.
Proof. vm_compute. auto. Qed.
