(* ===== verification/Geom.v ===== *)
(** * Geometries (src/src/value/tdb_geom.c)

    A geometry is a blob: a type byte, then big-endian doubles and counts.  The
    readers take the blob and check every length against its end; a pointer
    into the blob is an offset.  The parser of the text form works on the rest
    of a C string and appends to a buffer whose allocation can fail; the code
    ignores that, so a count that is patched after a failed append can lie
    outside the buffer.  [None] is the result of such a write. *)
From Stdlib Require Import SpecFloat.
From S2P Require Import Prelude Util Buf Value Cnum.

Definition TDB_GEOM_POINT : Z := 1.
Definition TDB_GEOM_LINESTRING : Z := 2.
Definition TDB_GEOM_POLYGON : Z := 3.
Record tdb_bbox := mk_bbox { minx : spec_float; miny : spec_float; maxx : spec_float; maxy : spec_float }.

(** ** Doubles and counts *)

Definition get_dbl (blob : list Z) (off : Z) : spec_float := f64_of_bits (tdb_get_u64 (bfrom blob off)).

Section Writer.
Context (alloc_ok : Z -> bool).

Definition put_dbl (b : tdb_buf) (d : spec_float) : tdb_buf := (tdb_buf_append alloc_ok b (tdb_put_u64 (bits_of_f64 d))).2.
Definition put_u32b (b : tdb_buf) (v : Z) : tdb_buf := (tdb_buf_append alloc_ok b (tdb_put_u32 v)).2.
(** [tdb_put_u32(out->data + at, v)] *)
Definition patch_u32 (b : tdb_buf) (at_ v : Z) : option tdb_buf :=
  if at_ + 4 <=? b_len b then Some (mk_buf (bput (b_data b) at_ (tdb_put_u32 v)) (b_cap b)) else None.

(** ** Parsing of text *)

Record wkt := mk_wkt { w_p : list Z; w_err : cstring }.
Definition wskip (w : wkt) : wkt := mk_wkt (skip_space (w_p w)) (w_err w).
Definition wkeyword (w : wkt) (kw : list Z) : bool * wkt :=
  let w := wskip w in
  if strncasecmp (w_p w) kw (length kw) =? 0 then (true, mk_wkt (drop (length kw) (w_p w)) (w_err w)) else (false, w).
Definition wchar (w : wkt) (c : Z) : bool * wkt :=
  let w := wskip w in
  match w_p w with
  | d :: t => if d =? c then (true, mk_wkt t (w_err w)) else (false, w)
  | [] => (false, w)
  end.
Definition wnum (w : wkt) : option spec_float * wkt :=
  let w := wskip w in
  let '(v, e) := strtod_end (w_p w) in
  if blen e =? blen (w_p w) then (None, mk_wkt (w_p w) (Some (str "expected a number"))) else (Some v, mk_wkt e (w_err w)).

(** The pairs of a coordinate list and their number; a pair takes at least two
    characters, so the length of the text and one is enough fuel. *)
Fixpoint coords_loop (fuel : nat) (w : wkt) (out : tdb_buf) (n : Z) : bool * wkt * tdb_buf * Z :=
  match fuel with
  | O => (false, w, out, n)
  | S fuel =>
      match wnum w with
      | (None, w) => (false, w, out, n)
      | (Some x, w) =>
          match wnum w with
          | (None, w) => (false, w, out, n)
          | (Some y, w) =>
              let out := put_dbl (put_dbl out x) y in
              let n := u32 (n + 1) in
              match wchar w 44 with
              | (true, w) => coords_loop fuel w out n
              | (false, w) => (true, w, out, n)
              end
          end
      end
  end.
Definition parse_coords (w : wkt) (out : tdb_buf) : option (bool * wkt * tdb_buf) :=
  match wchar w 40 with
  | (false, w) => Some (false, mk_wkt (w_p w) (Some (str "expected '('")), out)
  | (true, w) =>
      let count_at := b_len out in
      let out := put_u32b out 0 in
      match coords_loop (S (length (w_p w))) w out 0 with
      | (false, w, out, _) => Some (false, w, out)
      | (true, w, out, n) =>
          match wchar w 41 with
          | (false, w) => Some (false, mk_wkt (w_p w) (Some (str "expected ')'")), out)
          | (true, w) => out ← patch_u32 out count_at n; Some (true, w, out)
          end
      end
  end.
(** The rings of a polygon: one character or more each. *)
Fixpoint rings_loop (fuel : nat) (w : wkt) (out : tdb_buf) (nrings : Z) : option (bool * wkt * tdb_buf * Z) :=
  match fuel with
  | O => Some (false, w, out, nrings)
  | S fuel =>
      '(ok, w, out) ← parse_coords w out;
      if ok : bool then
        let nrings := u32 (nrings + 1) in
        match wchar w 44 with
        | (true, w) => rings_loop fuel w out nrings
        | (false, w) => Some (true, w, out, nrings)
        end
      else Some (false, w, out, nrings)
  end.

Definition werr (w : wkt) (d : list Z) : cstring := match w_err w with Some e => Some e | None => Some d end.
(** The status, the buffer and the reason. *)
Definition wkt_out := (tdb_status * tdb_buf * cstring)%type.
Definition fail (out : tdb_buf) (why : cstring) : wkt_out := (TDB_MISMATCH, out, why).
Definition wkt_point (w : wkt) (out : tdb_buf) : wkt * tdb_buf + wkt_out :=
  match wchar w 40 with
  | (false, _) => inr (fail out (Some (str "expected '(' after POINT")))
  | (true, w) =>
      match wnum w with
      | (None, w) => inr (fail out (werr w (str "bad POINT")))
      | (Some x, w) =>
          match wnum w with
          | (None, w) => inr (fail out (werr w (str "bad POINT")))
          | (Some y, w) =>
              match wchar w 41 with
              | (false, _) => inr (fail out (Some (str "expected ')'")))
              | (true, w) => inl (w, put_dbl (put_dbl (tdb_buf_putc alloc_ok out TDB_GEOM_POINT).2 x) y)
              end
          end
      end
  end.
Definition wkt_linestring (w : wkt) (out : tdb_buf) : option (wkt * tdb_buf + wkt_out) :=
  let out := (tdb_buf_putc alloc_ok out TDB_GEOM_LINESTRING).2 in
  '(ok, w, out) ← parse_coords w out;
  Some (if ok : bool then inl (w, out) else inr (fail out (werr w (str "bad LINESTRING")))).
Definition wkt_polygon (w : wkt) (out : tdb_buf) : option (wkt * tdb_buf + wkt_out) :=
  let out := (tdb_buf_putc alloc_ok out TDB_GEOM_POLYGON).2 in
  match wchar w 40 with
  | (false, _) => Some (inr (fail out (Some (str "expected '(' after POLYGON"))))
  | (true, w) =>
      let nring_at := b_len out in
      let out := put_u32b out 0 in
      '(ok, w, out, nrings) ← rings_loop (S (length (w_p w))) w out 0;
      if ok : bool then
        match wchar w 41 with
        | (false, _) => Some (inr (fail out (Some (str "expected ')'"))))
        | (true, w) => out ← patch_u32 out nring_at nrings; Some (inl (w, out))
        end
      else Some (inr (fail out (werr w (str "bad ring"))))
  end.
Definition tdb_geom_from_wkt (wktstr : list Z) (out : tdb_buf) : option wkt_out :=
  let out := tdb_buf_reset out in
  let w := mk_wkt (cstr wktstr) None in
  r ← match wkeyword w (str "POINT") with
      | (true, w) => Some (wkt_point w out)
      | (false, w) =>
          match wkeyword w (str "LINESTRING") with
          | (true, w) => wkt_linestring w out
          | (false, w) =>
              match wkeyword w (str "POLYGON") with
              | (true, w) => wkt_polygon w out
              | (false, w) => Some (inr (fail out (Some (str "unrecognized geometry (expected POINT/LINESTRING/POLYGON)"))))
              end
          end
      end;
  match r with
  | inr e => Some e
  | inl (w, out) =>
      match w_p (wskip w) with
      | [] => Some (TDB_OK, out, None)
      | _ => Some (fail out (Some (str "trailing characters after geometry")))
      end
  end.

(** ** Formatting *)

Definition fmt_num (out : tdb_buf) (blob : list Z) (off : Z) : tdb_buf :=
  (tdb_buf_append alloc_ok out (fmt_g 6 (tdb_get_u64 (bfrom blob off)))).2.
Definition fmt_pair (out : tdb_buf) (blob : list Z) (off : Z) : tdb_buf :=
  fmt_num (tdb_buf_putc alloc_ok (fmt_num out blob off) 32).2 blob (off + 8).
(** [fuel] bounds the points that the rest of the blob can hold. *)
Fixpoint fmt_points (fuel : nat) (out : tdb_buf) (blob : list Z) (q i npts : Z) : option Z * tdb_buf :=
  if npts <=? i then (Some q, out)
  else
    match fuel with
    | O => (None, out)
    | S fuel =>
        if blen blob <? q + 16 then (None, out)
        else
          let out := if i =? 0 then out else (tdb_buf_append alloc_ok out (str ", ")).2 in
          fmt_points fuel (fmt_pair out blob q) blob (q + 16) (i + 1) npts
    end.
(** The offset behind the list, [None] for the result -1. *)
Definition fmt_coords (out : tdb_buf) (blob : list Z) (p : Z) : option Z * tdb_buf :=
  if blen blob <? p + 4 then (None, out)
  else
    let npts := tdb_get_u32 (bfrom blob p) in
    match fmt_points (S (length blob)) (tdb_buf_putc alloc_ok out 40).2 blob (p + 4) 0 npts with
    | (None, out) => (None, out)
    | (Some q, out) => (Some q, (tdb_buf_putc alloc_ok out 41).2)
    end.
Fixpoint fmt_rings (fuel : nat) (out : tdb_buf) (blob : list Z) (p i nrings : Z) : bool * tdb_buf :=
  if nrings <=? i then (true, out)
  else
    match fuel with
    | O => (false, out)
    | S fuel =>
        let out := if i =? 0 then out else (tdb_buf_append alloc_ok out (str ", ")).2 in
        match fmt_coords out blob p with
        | (None, out) => (false, out)
        | (Some p, out) => fmt_rings fuel out blob p (i + 1) nrings
        end
    end.
(** [tdb_buf_putc(out, '\0'); out->len--]: [None] when the length wraps. *)
Definition terminate (out : tdb_buf) : option tdb_buf :=
  let out := (tdb_buf_putc alloc_ok out 0).2 in
  if b_len out =? 0 then None else Some (mk_buf (bsub (b_data out) 0 (b_len out - 1)) (b_cap out)).
Definition tdb_geom_to_wkt (blob : list Z) (out : tdb_buf) : option (tdb_status * tdb_buf) :=
  let out := tdb_buf_reset out in
  if blen blob <? 1 then Some (TDB_MISMATCH, out)
  else
    let t := bget blob 0 in
    let done_ (r : bool * tdb_buf) := let '(ok, out) := r in
      if ok : bool then out ← terminate out; Some (TDB_OK, out) else Some (TDB_MISMATCH, out) in
    if t =? TDB_GEOM_POINT then
      if blen blob <? 17 then Some (TDB_MISMATCH, out)
      else
        let out := (tdb_buf_append alloc_ok out (str "POINT(")).2 in
        done_ (true, (tdb_buf_putc alloc_ok (fmt_pair out blob 1) 41).2)
    else if t =? TDB_GEOM_LINESTRING then
      let out := (tdb_buf_append alloc_ok out (str "LINESTRING")).2 in
      let '(q, out) := fmt_coords out blob 1 in
      done_ (match q with Some _ => true | None => false end, out)
    else if t =? TDB_GEOM_POLYGON then
      if blen blob <? 5 then Some (TDB_MISMATCH, out)
      else
        let nrings := tdb_get_u32 (bfrom blob 1) in
        let out := (tdb_buf_append alloc_ok out (str "POLYGON(")).2 in
        let '(ok, out) := fmt_rings (S (length blob)) out blob 5 0 nrings in
        done_ (ok, if ok then (tdb_buf_putc alloc_ok out 41).2 else out)
    else Some (TDB_MISMATCH, out).
End Writer.

(** ** Validation *)

Definition tdb_geom_type_of (blob : list Z) : Z := if 1 <=? blen blob then bget blob 0 else 0.
Definition skip_coords (blob : list Z) (p : Z) : option Z :=
  if blen blob <? p + 4 then None
  else
    let q := p + 4 + tdb_get_u32 (bfrom blob p) * 16 in
    if blen blob <? q then None else Some q.
(** A ring takes four bytes or more, which bounds the rounds. *)
Fixpoint skip_rings (fuel : nat) (blob : list Z) (p nr : Z) : option Z :=
  if nr <=? 0 then Some p
  else
    match fuel with
    | O => None
    | S fuel => p ← skip_coords blob p; skip_rings fuel blob p (nr - 1)
    end.
Definition tdb_geom_valid (blob : list Z) : bool :=
  if blen blob <? 1 then false
  else
    let t := bget blob 0 in
    let ends (p : option Z) := match p with Some p => p =? blen blob | None => false end in
    if t =? TDB_GEOM_POINT then 17 =? blen blob
    else if t =? TDB_GEOM_LINESTRING then ends (skip_coords blob 1)
    else if t =? TDB_GEOM_POLYGON then
      if blen blob <? 5 then false else ends (skip_rings (length blob) blob 5 (tdb_get_u32 (bfrom blob 1)))
    else false.

(** ** Bounding box and predicates *)

Definition grow_box (bb : tdb_bbox) (x y : spec_float) : tdb_bbox :=
  mk_bbox (if SFltb x (minx bb) then x else minx bb) (if SFltb y (miny bb) then y else miny bb)
    (if SFltb (maxx bb) x then x else maxx bb) (if SFltb (maxy bb) y then y else maxy bb).
Fixpoint bbox_pts (blob : list Z) (p : Z) (npts : nat) (bb : tdb_bbox) : tdb_bbox :=
  match npts with
  | O => bb
  | S k => bbox_pts blob (p + 16) k (grow_box bb (get_dbl blob p) (get_dbl blob (p + 8)))
  end.
Fixpoint bbox_rings (blob : list Z) (p : Z) (nr : nat) (bb : tdb_bbox) : tdb_bbox :=
  match nr with
  | O => bb
  | S k =>
      let np := tdb_get_u32 (bfrom blob p) in
      bbox_rings blob (p + 4 + np * 16) k (bbox_pts blob (p + 4) (Z.to_nat np) bb)
  end.
(** The doubles 1e308 and -1e308. *)
Definition d1e308 : spec_float := Eval vm_compute in f64_of_dec 1 308.
Definition bbox_empty : tdb_bbox := mk_bbox d1e308 d1e308 (SFopp d1e308) (SFopp d1e308).
Definition tdb_geom_bbox (blob : list Z) : option tdb_bbox :=
  if tdb_geom_valid blob then
    let t := bget blob 0 in
    Some (if t =? TDB_GEOM_POINT then
            let x := get_dbl blob 1 in let y := get_dbl blob 9 in mk_bbox x y x y
          else if t =? TDB_GEOM_LINESTRING then
            bbox_pts blob 5 (Z.to_nat (tdb_get_u32 (bfrom blob 1))) bbox_empty
          else bbox_rings blob 5 (Z.to_nat (tdb_get_u32 (bfrom blob 1))) bbox_empty)
  else None.
Definition tdb_geom_point_xy (blob : list Z) : option (spec_float * spec_float) :=
  if (blen blob <? 17) || negb (bget blob 0 =? TDB_GEOM_POINT) then None else Some (get_dbl blob 1, get_dbl blob 9).

Definition dadd := SFadd 53 1024.
Definition dsub := SFsub 53 1024.
Definition dmul := SFmul 53 1024.
Definition ddiv := SFdiv 53 1024.
Definition dsqrt := SFsqrt 53 1024.
Definition d0_5 : spec_float := Eval vm_compute in f64_of_dec 5 (-1).

Definition rep_point (b : list Z) : option (spec_float * spec_float) :=
  match tdb_geom_point_xy b with
  | Some p => Some p
  | None => bb ← tdb_geom_bbox b; Some (dmul (dadd (minx bb) (maxx bb)) d0_5, dmul (dadd (miny bb) (maxy bb)) d0_5)
  end.
Definition tdb_geom_distance (a b : list Z) : option spec_float :=
  '(ax, ay) ← rep_point a;
  '(bx, by_) ← rep_point b;
  let dx := dsub ax bx in
  let dy := dsub ay by_ in
  Some (dsqrt (dadd (dmul dx dx) (dmul dy dy))).
Definition tdb_bbox_intersects (a b : tdb_bbox) : bool :=
  negb (SFltb (maxx a) (minx b) || SFltb (maxx b) (minx a) || SFltb (maxy a) (miny b) || SFltb (maxy b) (miny a)).

(** The points [i] and [j] of the ring at [p]; [k] points are left. *)
Definition edge_crosses (blob : list Z) (p i j : Z) (px py : spec_float) : bool :=
  let xi := get_dbl blob (p + i * 16) in let yi := get_dbl blob (p + i * 16 + 8) in
  let xj := get_dbl blob (p + j * 16) in let yj := get_dbl blob (p + j * 16 + 8) in
  negb (Bool.eqb (SFltb py yi) (SFltb py yj))
  && SFltb px (dadd (ddiv (dmul (dsub xj xi) (dsub py yi)) (dsub yj yi)) xi).
Fixpoint ring_loop (k : nat) (blob : list Z) (p i j : Z) (px py : spec_float) (inside : bool) : bool :=
  match k with
  | O => inside
  | S k => ring_loop k blob p (i + 1) i px py (if edge_crosses blob p i j px py then negb inside else inside)
  end.
Definition point_in_ring (blob : list Z) (p npts : Z) (px py : spec_float) : bool :=
  ring_loop (Z.to_nat npts) blob p 0 (u32 (npts - 1)) px py false.
Fixpoint in_holes (k : nat) (blob : list Z) (p : Z) (px py : spec_float) : bool :=
  match k with
  | O => false
  | S k =>
      let hn := tdb_get_u32 (bfrom blob p) in
      point_in_ring blob (p + 4) hn px py || in_holes k blob (p + 4 + hn * 16) px py
  end.
Definition tdb_geom_contains_point (blob : list Z) (px py : spec_float) : bool :=
  if negb (tdb_geom_valid blob) then false
  else if bget blob 0 =? TDB_GEOM_POLYGON then
    let nr := tdb_get_u32 (bfrom blob 1) in
    if nr =? 0 then false
    else
      let np := tdb_get_u32 (bfrom blob 5) in
      if negb (point_in_ring blob 9 np px py) then false
      else negb (in_holes (Z.to_nat (nr - 1)) blob (9 + np * 16) px py)
  else
    match tdb_geom_bbox blob with
    | None => false
    | Some bb => SFleb (minx bb) px && SFleb px (maxx bb) && SFleb (miny bb) py && SFleb py (maxy bb)
    end.
