(* ===== verification/GeomSpec.v ===== *)
(** * Geometries: properties

    The abstract geometry and its encoding; the readers of the blob compute on
    the geometry that it encodes, and the parser writes such blobs only. *)
From Stdlib Require Import SpecFloat.
From S2P Require Import Prelude Util Buf Value Cnum CnumSpec Geom.

(** ** Geometries *)

(** A coordinate is the bit pattern of a double. *)
Abbreviation pt := (Z * Z)%type.
Inductive geom := GPoint (p : pt) | GLine (ps : list pt) | GPolygon (rings : list (list pt)).
Definition pt_ok (p : pt) : Prop := 0 <= p.1 < 2 ^ 64 /\ 0 <= p.2 < 2 ^ 64.
Definition pts_ok (ps : list pt) : Prop := Forall pt_ok ps /\ Z.of_nat (length ps) < 2 ^ 32.
Definition geom_ok (g : geom) : Prop :=
  match g with
  | GPoint p => pt_ok p
  | GLine ps => pts_ok ps
  | GPolygon rs => Forall pts_ok rs /\ Z.of_nat (length rs) < 2 ^ 32
  end.
Definition enc_pt (p : pt) : list Z := tdb_put_u64 p.1 ++ tdb_put_u64 p.2.
Definition enc_pts (ps : list pt) : list Z := concat (map enc_pt ps).
Definition enc_coords (ps : list pt) : list Z := tdb_put_u32 (Z.of_nat (length ps)) ++ enc_pts ps.
Definition enc_rings (rs : list (list pt)) : list Z := concat (map enc_coords rs).
Definition encode (g : geom) : list Z :=
  match g with
  | GPoint p => TDB_GEOM_POINT :: enc_pt p
  | GLine ps => TDB_GEOM_LINESTRING :: enc_coords ps
  | GPolygon rs => TDB_GEOM_POLYGON :: tdb_put_u32 (Z.of_nat (length rs)) ++ enc_rings rs
  end.

(** The vertices, and the functions of the code on them. *)
Definition vertices (g : geom) : list pt :=
  match g with GPoint p => [p] | GLine ps => ps | GPolygon rs => concat rs end.
Definition px_of (p : pt) : spec_float := f64_of_bits p.1.
Definition py_of (p : pt) : spec_float := f64_of_bits p.2.
Definition box_of (ps : list pt) (bb : tdb_bbox) : tdb_bbox := foldl (fun bb p => grow_box bb (px_of p) (py_of p)) bb ps.
Definition geom_bbox (g : geom) : tdb_bbox :=
  match g with
  | GPoint p => mk_bbox (px_of p) (py_of p) (px_of p) (py_of p)
  | _ => box_of (vertices g) bbox_empty
  end.
(** Does the horizontal ray from the point cross the edge from [a] to [b]? *)
Definition crosses (x y : spec_float) (a b : pt) : bool :=
  negb (Bool.eqb (SFltb y (py_of b)) (SFltb y (py_of a)))
  && SFltb x (dadd (ddiv (dmul (dsub (px_of a) (px_of b)) (dsub y (py_of b))) (dsub (py_of a) (py_of b))) (px_of b)).
Fixpoint crossings (x y : spec_float) (prev : pt) (ps : list pt) : bool :=
  match ps with
  | [] => false
  | p :: ps => xorb (crosses x y prev p) (crossings x y p ps)
  end.
(** An odd number of edges of the closed ring is crossed. *)
Definition in_ring (ps : list pt) (x y : spec_float) : bool := crossings x y (List.last ps (0, 0)) ps.
Definition box_contains (bb : tdb_bbox) (x y : spec_float) : bool :=
  SFleb (minx bb) x && SFleb x (maxx bb) && SFleb (miny bb) y && SFleb y (maxy bb).
Definition geom_contains (g : geom) (x y : spec_float) : bool :=
  match g with
  | GPolygon [] => false
  | GPolygon (outer :: holes) => in_ring outer x y && negb (existsb (fun h => in_ring h x y) holes)
  | _ => box_contains (geom_bbox g) x y
  end.

(** ** Reading an encoded geometry *)

Lemma blen_put_u32 v : blen (tdb_put_u32 v) = 4.
Proof. reflexivity. Qed.
Lemma blen_put_u64 v : blen (tdb_put_u64 v) = 8.
Proof. reflexivity. Qed.
#[local] Hint Rewrite blen_put_u32 blen_put_u64 : blen.
Lemma blen_enc_pt p : blen (enc_pt p) = 16.
Proof. reflexivity. Qed.
Lemma blen_enc_pts ps : blen (enc_pts ps) = 16 * Z.of_nat (length ps).
Proof. induction ps as [|p ps IH]; [done|]. unfold enc_pts in *. cbn [map concat]. rewrite blen_app, IH, blen_enc_pt. simpl length. lia. Qed.
Lemma blen_enc_coords ps : blen (enc_coords ps) = 4 + 16 * Z.of_nat (length ps).
Proof. unfold enc_coords. by rewrite blen_app, blen_enc_pts, blen_put_u32. Qed.
#[local] Hint Rewrite blen_enc_pt blen_enc_pts blen_enc_coords : blen.

Lemma u64_at pre v rest : 0 <= v < 2 ^ 64 -> tdb_get_u64 (bfrom (pre ++ tdb_put_u64 v ++ rest) (blen pre)) = v.
Proof. intros. rewrite bfrom_app by done. rewrite get_put_u64. by apply u64_small. Qed.
Lemma u32_at pre v rest : 0 <= v < 2 ^ 32 -> tdb_get_u32 (bfrom (pre ++ tdb_put_u32 v ++ rest) (blen pre)) = v.
Proof. intros. rewrite bfrom_app by done. rewrite get_put_u32. by apply u32_small. Qed.
Lemma pt_at pre p rest : pt_ok p ->
  get_dbl (pre ++ enc_pt p ++ rest) (blen pre) = px_of p /\ get_dbl (pre ++ enc_pt p ++ rest) (blen pre + 8) = py_of p.
Proof.
  intros [H1 H2]. unfold get_dbl, enc_pt. rewrite <- app_assoc. split; [by rewrite u64_at|].
  replace (blen pre + 8) with (blen (pre ++ tdb_put_u64 p.1)) by (by rewrite blen_app, blen_put_u64).
  rewrite app_assoc, u64_at by done. done.
Qed.
Lemma coords_at pre ps rest : pts_ok ps -> tdb_get_u32 (bfrom (pre ++ enc_coords ps ++ rest) (blen pre)) = Z.of_nat (length ps).
Proof. intros [_ H]. unfold enc_coords. rewrite <- app_assoc. apply u32_at. lia. Qed.

Lemma bbox_pts_at pre ps rest bb : Forall pt_ok ps -> bbox_pts (pre ++ enc_pts ps ++ rest) (blen pre) (length ps) bb = box_of ps bb.
Proof.
  intros H. revert pre bb. induction H as [|p ps Hp Hps IH]; intros pre bb; [done|]. cbn [length bbox_pts box_of foldl]. 
  unfold enc_pts. cbn [map concat]. fold (enc_pts ps). rewrite <- app_assoc. destruct (pt_at pre p (enc_pts ps ++ rest) Hp) as [-> ->].
  replace (blen pre + 16) with (blen (pre ++ enc_pt p)) by (by rewrite blen_app, blen_enc_pt). rewrite (app_assoc pre). apply IH.
Qed.
Lemma bbox_rings_at pre rs rest bb : Forall pts_ok rs -> bbox_rings (pre ++ enc_rings rs ++ rest) (blen pre) (length rs) bb = box_of (concat rs) bb.
Proof.
  intros H. revert pre bb. induction H as [|ps rs Hp Hps IH]; intros pre bb; [done|]. cbn [length bbox_rings concat].
  unfold box_of. rewrite foldl_app. fold (box_of ps bb). unfold enc_rings. cbn [map concat]. fold (enc_rings rs). rewrite <- app_assoc, coords_at by done.
  replace (blen pre + 4 + Z.of_nat (length ps) * 16) with (blen (pre ++ enc_coords ps)) by (rewrite blen_app, blen_enc_coords; lia).
  rewrite Nat2Z.id. replace (bbox_pts _ (blen pre + 4) _ _) with (box_of ps bb).
  - rewrite (app_assoc pre). apply IH.
  - symmetry. unfold enc_coords. rewrite <- (app_assoc (tdb_put_u32 _)), app_assoc.
    replace (blen pre + 4) with (blen (pre ++ tdb_put_u32 (Z.of_nat (length ps)))) by (by rewrite blen_app). apply bbox_pts_at. apply Hp.
Qed.
Lemma pt_nth pre ps rest i p : Forall pt_ok ps -> ps !! i = Some p ->
  get_dbl (pre ++ enc_pts ps ++ rest) (blen pre + Z.of_nat i * 16) = px_of p
  /\ get_dbl (pre ++ enc_pts ps ++ rest) (blen pre + Z.of_nat i * 16 + 8) = py_of p.
Proof.
  intros H Hi. assert (pt_ok p) as Hp by (by eapply Forall_lookup_1). pose proof (lookup_lt_Some _ _ _ Hi).
  rewrite <- (take_drop_middle ps i p Hi). unfold enc_pts. rewrite map_app, concat_app. cbn [map concat]. fold (enc_pts (take i ps)) (enc_pts (drop (S i) ps)).
  rewrite <- !app_assoc. replace (blen pre + Z.of_nat i * 16) with (blen (pre ++ enc_pts (take i ps))).
  - rewrite app_assoc. by apply pt_at.
  - rewrite blen_app, blen_enc_pts, length_take. lia.
Qed.
Lemma ring_loop_at pre rest x y don todo prev j inside :
  Forall pt_ok (don ++ todo) -> (don ++ todo) !! j = Some prev ->
  ring_loop (length todo) (pre ++ enc_pts (don ++ todo) ++ rest) (blen pre) (Z.of_nat (length don)) (Z.of_nat j) x y inside
  = xorb inside (crossings x y prev todo).
Proof.
  revert don prev j inside. induction todo as [|p todo IH]; intros don prev j inside H Hj; [by destruct inside|].
  cbn [length ring_loop crossings]. assert ((don ++ p :: todo) !! length don = Some p) as Hp by (by rewrite lookup_app_r, Nat.sub_diag).
  unfold edge_crosses. destruct (pt_nth pre _ rest _ _ H Hj) as [-> ->]. destruct (pt_nth pre _ rest _ _ H Hp) as [-> ->].
  fold (crosses x y prev p). specialize (IH (don ++ [p]) p (length don)).
  replace (Z.of_nat (length don) + 1) with (Z.of_nat (length (don ++ [p]))) by (rewrite length_app; simpl; lia).
  replace (don ++ p :: todo) with ((don ++ [p]) ++ todo) in * by (by rewrite <- app_assoc). rewrite IH by done.
  destruct inside, (crosses x y prev p), (crossings x y p todo); reflexivity.
Qed.
Lemma point_in_ring_at pre ps rest x y : pts_ok ps ->
  point_in_ring (pre ++ enc_pts ps ++ rest) (blen pre) (Z.of_nat (length ps)) x y = in_ring ps x y.
Proof.
  intros [H Hl]. unfold point_in_ring, in_ring. rewrite Nat2Z.id. destruct ps as [|q ps'] eqn:E; [done|]. rewrite <- E in *.
  assert (0 < length ps)%nat by (rewrite E; simpl; lia). rewrite u32_small by lia.
  replace (Z.of_nat (length ps) - 1) with (Z.of_nat (length ps - 1)) by lia.
  rewrite (ring_loop_at pre rest x y [] ps (List.last ps (0, 0))); [by destruct (crossings _ _ _ _)|done|].
  cbn [app]. destruct (exists_last (l := ps)) as (l & z & ->); [by rewrite E|]. rewrite List.last_last, length_app. cbn [length].
  replace (length l + 1 - 1)%nat with (length l) by lia. by rewrite lookup_app_r, Nat.sub_diag.
Qed.
Lemma ring_at pre ps rest x y : pts_ok ps ->
  point_in_ring (pre ++ enc_coords ps ++ rest) (blen pre + 4) (Z.of_nat (length ps)) x y = in_ring ps x y.
Proof.
  intros H. unfold enc_coords. rewrite <- (app_assoc (tdb_put_u32 _)), app_assoc.
  replace (blen pre + 4) with (blen (pre ++ tdb_put_u32 (Z.of_nat (length ps)))) by (by rewrite blen_app). by apply point_in_ring_at.
Qed.
Lemma in_holes_at pre rs rest x y : Forall pts_ok rs ->
  in_holes (length rs) (pre ++ enc_rings rs ++ rest) (blen pre) x y = existsb (fun h => in_ring h x y) rs.
Proof.
  intros H. revert pre. induction H as [|ps rs Hp Hps IH]; intros pre; [done|]. cbn [length in_holes existsb].
  unfold enc_rings. cbn [map concat]. fold (enc_rings rs). rewrite <- app_assoc, coords_at, ring_at by done. f_equal.
  replace (blen pre + 4 + Z.of_nat (length ps) * 16) with (blen (pre ++ enc_coords ps)) by (rewrite blen_app, blen_enc_coords; lia).
  rewrite app_assoc. apply IH.
Qed.

(** ** Validation accepts the encodings exactly *)

Lemma skip_coords_at pre ps rest : pts_ok ps -> skip_coords (pre ++ enc_coords ps ++ rest) (blen pre) = Some (blen (pre ++ enc_coords ps)).
Proof.
  intros H. unfold skip_coords. rewrite coords_at by done. pose proof (blen_nonneg rest).
  autorewrite with blen. destruct (Z.ltb_spec (blen pre + (4 + 16 * Z.of_nat (length ps) + blen rest)) (blen pre + 4)); [lia|].
  destruct (Z.ltb_spec (blen pre + (4 + 16 * Z.of_nat (length ps) + blen rest)) (blen pre + 4 + Z.of_nat (length ps) * 16)); [lia|]. f_equal. lia.
Qed.
Lemma skip_rings_at fuel pre rs rest : Forall pts_ok rs -> (length rs <= fuel)%nat ->
  skip_rings fuel (pre ++ enc_rings rs ++ rest) (blen pre) (Z.of_nat (length rs)) = Some (blen (pre ++ enc_rings rs)).
Proof.
  intros H. revert fuel pre. induction H as [|ps rs Hp Hps IH]; intros fuel pre Hf.
  { unfold enc_rings. cbn [map concat]. rewrite app_nil_r. by destruct fuel. }
  destruct fuel as [|fuel]; [simpl in Hf; lia|]. cbn [skip_rings length]. destruct (Z.leb_spec (Z.of_nat (S (length rs))) 0); [lia|].
  unfold enc_rings. cbn [map concat]. fold (enc_rings rs). rewrite <- app_assoc, skip_coords_at by done. cbn [mbind option_bind].
  replace (Z.of_nat (S (length rs)) - 1) with (Z.of_nat (length rs)) by lia. rewrite !(app_assoc pre). apply IH. simpl in Hf. lia.
Qed.
Lemma blen_enc_rings_ge rs : 4 * Z.of_nat (length rs) <= blen (enc_rings rs).
Proof.
  induction rs as [|ps rs IH]; [done|]. unfold enc_rings in *. cbn [map concat length]. rewrite blen_app, blen_enc_coords. lia.
Qed.
Lemma encode_valid g : geom_ok g -> tdb_geom_valid (encode g) = true.
Proof.
  intros H. unfold tdb_geom_valid. destruct g as [p|ps|rs]; cbn [encode].
  - reflexivity.
  - rewrite blen_cons. pose proof (blen_nonneg (enc_coords ps)). destruct (Z.ltb_spec (1 + blen (enc_coords ps)) 1); [lia|].
    change (bget _ 0) with TDB_GEOM_LINESTRING. change (TDB_GEOM_LINESTRING =? TDB_GEOM_POINT) with false. cbn iota. rewrite Z.eqb_refl.
    pose proof (skip_coords_at [TDB_GEOM_LINESTRING] ps [] H) as E. rewrite app_nil_r in E. cbn [app] in E. change (blen [TDB_GEOM_LINESTRING]) with 1 in E.
    rewrite E, blen_cons. apply Z.eqb_refl.
  - destruct H as [H1 H2]. rewrite blen_cons, blen_app, blen_put_u32. pose proof (blen_nonneg (enc_rings rs)).
    destruct (Z.ltb_spec (1 + (4 + blen (enc_rings rs))) 1); [lia|]. change (bget _ 0) with TDB_GEOM_POLYGON.
    change (TDB_GEOM_POLYGON =? TDB_GEOM_POINT) with false. change (TDB_GEOM_POLYGON =? TDB_GEOM_LINESTRING) with false. cbn iota. rewrite Z.eqb_refl.
    destruct (Z.ltb_spec (1 + (4 + blen (enc_rings rs))) 5); [lia|].
    pose proof (u32_at [TDB_GEOM_POLYGON] (Z.of_nat (length rs)) (enc_rings rs) ltac:(lia)) as E1. cbn [app] in E1. change (blen [TDB_GEOM_POLYGON]) with 1 in E1. rewrite E1.
    pose proof (skip_rings_at (length (TDB_GEOM_POLYGON :: tdb_put_u32 (Z.of_nat (length rs)) ++ enc_rings rs)) (TDB_GEOM_POLYGON :: tdb_put_u32 (Z.of_nat (length rs))) rs [] H1) as E.
    rewrite app_nil_r in E. cbn [app] in E. change (blen (TDB_GEOM_POLYGON :: tdb_put_u32 _)) with 5 in E. rewrite E.
    + rewrite blen_cons, blen_app, blen_put_u32. apply Z.eqb_refl.
    + pose proof (blen_enc_rings_ge rs) as Hg. unfold blen in Hg. simpl length. rewrite ?length_app. lia.
Qed.

Lemma put_get_u32 l : bytes_ok l -> 4 <= blen l -> tdb_put_u32 (tdb_get_u32 l) = bsub l 0 4.
Proof.
  intros H Hl. destruct l as [|a [|b [|c [|d l]]]]; try (unfold blen in Hl; simpl in Hl; lia).
  apply Forall_cons in H as [Ha H]. apply Forall_cons in H as [Hb H]. apply Forall_cons in H as [Hc H]. apply Forall_cons in H as [Hd _].
  rewrite get_u32_bytes by done. unfold is_byte in *. unfold tdb_put_u32. rewrite !Z.shiftr_div_pow2 by lia.
  change (2 ^ 8) with 256. change (2 ^ 16) with 65536. change (2 ^ 24) with 16777216. unfold u8. change (bsub _ 0 4) with [a; b; c; d]. repeat f_equal; div_lia.
Qed.
Lemma put_get_u64 l : bytes_ok l -> 8 <= blen l -> tdb_put_u64 (tdb_get_u64 l) = bsub l 0 8 /\ 0 <= tdb_get_u64 l < 2 ^ 64.
Proof.
  intros H Hl. assert (bytes_ok (drop 4 l) /\ 4 <= blen (drop 4 l)) as [H4 L4].
  { split; [by apply Forall_drop|]. unfold blen in *. rewrite length_drop. lia. }
  pose proof (get_u32_range l H) as R1. pose proof (get_u32_range _ H4) as R2. unfold tdb_put_u64, tdb_get_u64.
  set (x := tdb_get_u32 l) in *. set (y := tdb_get_u32 (drop 4 l)) in *. rewrite Z.shiftl_mul_pow2, u64_small, lor_high_low by lia.
  split; [|lia]. replace (u32 (Z.shiftr (x * 2 ^ 32 + y) 32)) with x by (rewrite Z.shiftr_div_pow2 by lia; unfold_casts; change (2 ^ 32) with 4294967296 in *; div_lia).
  replace (u32 (x * 2 ^ 32 + y)) with y by (unfold_casts; change (2 ^ 32) with 4294967296 in *; div_lia).
  unfold x, y. rewrite !put_get_u32 by (done || lia). unfold bsub. cbn [Z.to_nat Pos.to_nat]. rewrite !drop_0.
  change (Z.to_nat 8) with (4 + 4)%nat. change (Z.to_nat 4) with 4%nat. by rewrite take_take_drop.
Qed.
Lemma bsub_split l o a b : 0 <= o -> 0 <= a -> 0 <= b -> bsub l o (a + b) = bsub l o a ++ bsub l (o + a) b.
Proof.
  intros. unfold bsub. rewrite !Z2Nat.inj_add by lia. rewrite <- drop_drop. by rewrite take_take_drop.
Qed.
Lemma bsub_bfrom l o n : 0 <= o -> bsub (bfrom l o) 0 n = bsub l o n.
Proof. done. Qed.
(** [n] points anywhere in a blob are the encoding of points. *)
Lemma pts_of_bytes blob p n : bytes_ok blob -> 0 <= p -> p + Z.of_nat n * 16 <= blen blob ->
  exists ps, length ps = n /\ Forall pt_ok ps /\ bsub blob p (Z.of_nat n * 16) = enc_pts ps.
Proof.
  intros H. revert p. induction n as [|n IH]; intros p Hp Hl; [by exists []|].
  destruct (IH (p + 16)) as (ps & E1 & E2 & E3); [lia..|].
  assert (forall o, 0 <= o -> o + 8 <= blen blob -> bytes_ok (bfrom blob o) /\ 8 <= blen (bfrom blob o)) as Hb.
  { intros o Ho1 Ho2. split; [by apply bytes_ok_bfrom|rewrite blen_bfrom; lia]. }
  destruct (put_get_u64 (bfrom blob p)) as [X1 X2]; [apply Hb; lia..|]. destruct (put_get_u64 (bfrom blob (p + 8))) as [Y1 Y2]; [apply Hb; lia..|].
  exists ((tdb_get_u64 (bfrom blob p), tdb_get_u64 (bfrom blob (p + 8))) :: ps). simpl length. split; [lia|]. split; [by constructor|].
  replace (Z.of_nat (S n) * 16) with (16 + Z.of_nat n * 16) by lia. rewrite bsub_split, E3 by lia. unfold enc_pts. cbn [map concat]. f_equal.
  unfold enc_pt. cbn [fst snd]. rewrite X1, Y1. change 16 with (8 + 8). rewrite bsub_split by lia. done.
Qed.
Lemma skip_coords_enc blob p q : bytes_ok blob -> 0 <= p -> skip_coords blob p = Some q ->
  exists ps, pts_ok ps /\ bsub blob p (q - p) = enc_coords ps /\ p + 4 <= q <= blen blob.
Proof.
  intros H Hp. unfold skip_coords. destruct (Z.ltb_spec (blen blob) (p + 4)) as [|Hl]; [done|]. set (k := tdb_get_u32 (bfrom blob p)).
  assert (0 <= k < 2 ^ 32) as Hk by (apply get_u32_range; by apply bytes_ok_bfrom).
  destruct (Z.ltb_spec (blen blob) (p + 4 + k * 16)) as [|Hq]; [done|]. intros [= <-].
  destruct (pts_of_bytes blob (p + 4) (Z.to_nat k)) as (ps & E1 & E2 & E3); [done|lia..|]. exists ps. split; [split; [done|lia]|]. split; [|lia].
  replace (p + 4 + k * 16 - p) with (4 + k * 16) by lia. rewrite bsub_split by lia. rewrite Z2Nat.id in E3 by lia. rewrite E3. unfold enc_coords. f_equal.
  rewrite E1, Z2Nat.id by lia. unfold k. rewrite put_get_u32; [done|by apply bytes_ok_bfrom|rewrite blen_bfrom; lia].
Qed.
Lemma skip_rings_enc fuel blob p nr q : bytes_ok blob -> 0 <= p <= blen blob -> 0 <= nr -> skip_rings fuel blob p nr = Some q ->
  exists rs, Forall pts_ok rs /\ Z.of_nat (length rs) = nr /\ bsub blob p (q - p) = enc_rings rs /\ p <= q <= blen blob.
Proof.
  intros H. revert p nr. induction fuel as [|fuel IH]; intros p nr Hp Hnr; cbn [skip_rings]; destruct (Z.leb_spec nr 0); try done.
  1, 2: intros [= <-]; exists []; rewrite Z.sub_diag; split; [done|]; split; [simpl; lia|]; split; [done|lia].
  destruct (skip_coords blob p) as [p'|] eqn:E; [|done]. cbn [mbind option_bind]. intros Hr.
  destruct (skip_coords_enc blob p p') as (ps & P1 & P2 & P3); [done|lia|done|].
  destruct (IH p' (nr - 1)) as (rs & R1 & R2 & R3 & R4); [lia..|done|]. exists (ps :: rs). split; [by constructor|]. split; [simpl; lia|]. split; [|lia].
  replace (q - p) with ((p' - p) + (q - p')) by lia. rewrite bsub_split by lia. unfold enc_rings. cbn [map concat]. rewrite P2. f_equal.
  replace (p + (p' - p)) with p' by lia. done.
Qed.
Lemma valid_encode blob : bytes_ok blob -> tdb_geom_valid blob = true -> exists g, geom_ok g /\ blob = encode g.
Proof.
  intros H. unfold tdb_geom_valid. destruct (Z.ltb_spec (blen blob) 1) as [|Hl]; [done|].
  assert (blob = bget blob 0 :: bsub blob 1 (blen blob - 1)) as Eb.
  { pose proof (bsub_split blob 0 1 (blen blob - 1) ltac:(lia) ltac:(lia) ltac:(lia)) as E. rewrite bsub_all in E by lia.
    destruct blob as [|a l]; [unfold blen in Hl; simpl in Hl; lia|exact E]. }
  destruct (Z.eqb_spec (bget blob 0) TDB_GEOM_POINT) as [E|_].
  { intros Hn%Z.eqb_eq. destruct (pts_of_bytes blob 1 1) as (ps & P1 & P2 & P3); [done|lia..|]. destruct ps as [|p [|]]; try done.
    exists (GPoint p). split; [by inversion P2|]. rewrite Eb, E, <- Hn. cbn [encode]. f_equal. change (17 - 1) with (Z.of_nat 1 * 16). rewrite P3. unfold enc_pts. cbn [map concat]. apply app_nil_r. }
  destruct (Z.eqb_spec (bget blob 0) TDB_GEOM_LINESTRING) as [E|_].
  { destruct (skip_coords blob 1) as [q|] eqn:Es; [|done]. intros Hn%Z.eqb_eq. destruct (skip_coords_enc blob 1 q H ltac:(lia) Es) as (ps & P1 & P2 & _).
    exists (GLine ps). split; [done|]. rewrite Eb, E, <- Hn, P2. done. }
  destruct (Z.eqb_spec (bget blob 0) TDB_GEOM_POLYGON) as [E|_]; [|done]. destruct (Z.ltb_spec (blen blob) 5) as [|H5]; [done|].
  set (nr := tdb_get_u32 (bfrom blob 1)). assert (0 <= nr < 2 ^ 32) as Hk by (apply get_u32_range; by apply bytes_ok_bfrom).
  destruct (skip_rings _ blob 5 nr) as [q|] eqn:Es; [|done]. intros Hn%Z.eqb_eq.
  destruct (skip_rings_enc _ blob 5 nr q H ltac:(lia) ltac:(lia) Es) as (rs & P1 & P2 & P3 & _). exists (GPolygon rs). split; [split; [done|lia]|].
  rewrite Eb, E. cbn [encode]. f_equal. replace (blen blob - 1) with (4 + (q - 5)) by lia. rewrite bsub_split by lia. change (1 + 4) with 5. rewrite P3. f_equal.
  rewrite P2. unfold nr. rewrite put_get_u32; [done|by apply bytes_ok_bfrom|rewrite blen_bfrom; lia].
Qed.

(** ** Bounding boxes *)

Lemma encode_bbox g : geom_ok g -> tdb_geom_bbox (encode g) = Some (geom_bbox g).
Proof.
  intros H. unfold tdb_geom_bbox. rewrite encode_valid by done. f_equal. destruct g as [p|ps|rs]; cbn [encode].
  - change (bget _ 0) with TDB_GEOM_POINT. rewrite Z.eqb_refl. pose proof (pt_at [TDB_GEOM_POINT] p [] H) as [E1 E2].
    rewrite app_nil_r in E1, E2. cbn [app] in E1, E2. change (blen [TDB_GEOM_POINT]) with 1 in E1, E2. change (1 + 8) with 9 in E2. cbv zeta. by rewrite E1, E2.
  - change (bget _ 0) with TDB_GEOM_LINESTRING. change (TDB_GEOM_LINESTRING =? TDB_GEOM_POINT) with false. rewrite Z.eqb_refl. cbn iota.
    pose proof (coords_at [TDB_GEOM_LINESTRING] ps [] H) as E. rewrite app_nil_r in E. cbn [app] in E. change (blen [TDB_GEOM_LINESTRING]) with 1 in E. rewrite E, Nat2Z.id.
    pose proof (bbox_pts_at (TDB_GEOM_LINESTRING :: tdb_put_u32 (Z.of_nat (length ps))) ps [] bbox_empty (proj1 H)) as E2. rewrite app_nil_r in E2. exact E2.
  - destruct H as [H1 H2]. change (bget _ 0) with TDB_GEOM_POLYGON. change (TDB_GEOM_POLYGON =? TDB_GEOM_POINT) with false.
    change (TDB_GEOM_POLYGON =? TDB_GEOM_LINESTRING) with false. cbn iota.
    pose proof (u32_at [TDB_GEOM_POLYGON] (Z.of_nat (length rs)) (enc_rings rs) ltac:(lia)) as E1. cbn [app] in E1. change (blen [TDB_GEOM_POLYGON]) with 1 in E1. rewrite E1, Nat2Z.id.
    pose proof (bbox_rings_at (TDB_GEOM_POLYGON :: tdb_put_u32 (Z.of_nat (length rs))) rs [] bbox_empty H1) as E2. rewrite app_nil_r in E2. exact E2.
Qed.
Lemma encode_contains g x y : geom_ok g -> tdb_geom_contains_point (encode g) x y = geom_contains g x y.
Proof.
  intros H. unfold tdb_geom_contains_point. rewrite encode_valid, encode_bbox by done. cbn [negb]. destruct g as [p|ps|rs]; cbn [encode].
  - by change (bget _ 0) with TDB_GEOM_POINT.
  - by change (bget _ 0) with TDB_GEOM_LINESTRING.
  - change (bget _ 0) with TDB_GEOM_POLYGON. rewrite Z.eqb_refl. destruct H as [H1 H2].
    pose proof (u32_at [TDB_GEOM_POLYGON] (Z.of_nat (length rs)) (enc_rings rs) ltac:(lia)) as E1. cbn [app] in E1. change (blen [TDB_GEOM_POLYGON]) with 1 in E1. rewrite E1.
    destruct rs as [|outer holes]; [done|]. destruct (Z.eqb_spec (Z.of_nat (length (outer :: holes))) 0); [simpl in *; lia|]. cbn [geom_contains].
    apply Forall_cons in H1 as [Ho Hh]. set (pre := TDB_GEOM_POLYGON :: tdb_put_u32 (Z.of_nat (length (outer :: holes)))).
    change (TDB_GEOM_POLYGON :: tdb_put_u32 (Z.of_nat (length (outer :: holes))) ++ enc_rings (outer :: holes)) with (pre ++ enc_coords outer ++ enc_rings holes).
    change 5 with (blen pre). rewrite coords_at by done. change 9 with (blen pre + 4). rewrite ring_at by done.
    destruct (in_ring outer x y); [|done]. cbn [negb andb]. f_equal.
    pose proof (in_holes_at (pre ++ enc_coords outer) holes [] x y Hh) as E. rewrite app_nil_r, <- app_assoc, blen_app, blen_enc_coords in E.
    replace (Z.to_nat (Z.of_nat (length (outer :: holes)) - 1)) with (length holes) by (simpl length; lia).
    replace (blen pre + 4 + Z.of_nat (length outer) * 16) with (blen pre + (4 + 16 * Z.of_nat (length outer))) by lia. exact E.
Qed.

(** The running minimum of a list under the order of the doubles that are
    numbers, or under its reverse. *)
Definition nnan (f : spec_float) : Prop := f <> S754_nan.
Definition keeps (lt : spec_float -> spec_float -> bool) : Prop :=
  (forall a b c, nnan a -> nnan b -> nnan c -> lt b a = false -> lt c b = false -> lt c a = false)
  /\ (forall a b, lt a b = true -> nnan a /\ nnan b /\ lt b a = false) /\ (forall a, lt a a = false).
Lemma SFltb_nan a b : SFltb a b = true -> nnan a /\ nnan b.
Proof. destruct a, b; done. Qed.
Lemma SFltb_key a b : nnan a -> nnan b -> SFltb a b = (lex_cmp (sf_key a) (sf_key b) =? -1).
Proof. intros Ha Hb. rewrite <- sf_cmp_key by done. unfold sf_cmp. destruct (SFltb a b); [done|]. by destruct (SFltb b a). Qed.
Lemma lt_keeps : keeps SFltb.
Proof.
  split; [|split].
  - intros a b c Ha Hb Hc. rewrite !SFltb_key by done. rewrite !Z.eqb_neq. intros H1 H2 H3.
    pose proof (lex_cmp_trans (sf_key a) (sf_key b) (sf_key c)) as Ht. pose proof (lex_cmp_antisym (sf_key a) (sf_key b)). pose proof (lex_cmp_antisym (sf_key b) (sf_key c)).
    pose proof (lex_cmp_antisym (sf_key a) (sf_key c)). pose proof (lex_cmp_sign (sf_key a) (sf_key b)). pose proof (lex_cmp_sign (sf_key b) (sf_key c)). lia.
  - intros a b H. destruct (SFltb_nan a b H) as [Ha Hb]. split; [done|]. split; [done|]. revert H. rewrite !SFltb_key by done.
    rewrite Z.eqb_eq, Z.eqb_neq, (lex_cmp_antisym (sf_key a)). lia.
  - intros a. destruct a as [| | |s m e]; [by destruct s..|done|]. rewrite SFltb_key by done. by rewrite lex_cmp_refl.
Qed.
Lemma gt_keeps : keeps (fun a b => SFltb b a).
Proof.
  destruct lt_keeps as (H1 & H2 & H3). split; [intros a b c Ha Hb Hc Hab Hbc; by apply (H1 c b a)|]. split; [|done].
  intros a b H. destruct (H2 b a H) as (A & B & C). done.
Qed.
Definition least (lt : spec_float -> spec_float -> bool) (m : spec_float) (xs : list spec_float) : spec_float := foldl (fun m x => if lt x m then x else m) m xs.
Lemma least_spec lt m xs : keeps lt -> nnan m ->
  let r := least lt m xs in nnan r /\ lt m r = false /\ (forall x, x ∈ xs -> nnan x -> lt x r = false) /\ (r = m \/ r ∈ xs).
Proof.
  intros (H1 & H2 & H3) Hm. cbv zeta. unfold least. revert m Hm. induction xs as [|x xs IH]; intros m Hm; cbn [foldl].
  { split; [done|]. split; [apply H3|]. split; [intros x Hx; by apply not_elem_of_nil in Hx|by left]. }
  destruct (lt x m) eqn:E.
  - destruct (H2 x m E) as (Hx & _ & Hl). destruct (IH x Hx) as (R1 & R2 & R3 & R4). split; [done|]. split; [by apply (H1 _ x m)|].
    split; [|right; destruct R4 as [->|R4]; [by left|by right]]. intros z [Hz|Hz]%elem_of_cons Hn; [by subst z|by apply R3].
  - destruct (IH m Hm) as (R1 & R2 & R3 & R4). split; [done|]. split; [done|].
    split; [|destruct R4 as [->|R4]; [by left|right; by right]]. intros z [Hz|Hz]%elem_of_cons Hn; [subst z; by apply (H1 _ m x)|by apply R3].
Qed.
Lemma box_of_least ps bb :
  box_of ps bb = mk_bbox (least SFltb (minx bb) (map px_of ps)) (least SFltb (miny bb) (map py_of ps))
    (least (fun a b => SFltb b a) (maxx bb) (map px_of ps)) (least (fun a b => SFltb b a) (maxy bb) (map py_of ps)).
Proof. revert bb. induction ps as [|p ps IH]; intros [a b c d]; [done|]. cbn [box_of foldl map least]. unfold box_of in IH. rewrite IH. done. Qed.
Lemma SFleb_ltb a b : nnan a -> nnan b -> SFltb b a = false -> SFleb a b = true.
Proof.
  unfold SFltb, SFleb. destruct a as [[]|[]| |[] m1 e1], b as [[]|[]| |[] m2 e2]; try done; intros _ _; cbn [SFcompare];
    change (PosDef.Pos.compare_cont Eq) with Pos.compare; rewrite (Z.compare_antisym e1 e2), (Pos.compare_antisym m1 m2);
    by destruct (e1 ?= e2)%Z, (m1 ?= m2)%positive.
Qed.

(** The box holds every coordinate that is a number. *)
Lemma geom_bbox_covers g p : p ∈ vertices g ->
  (nnan (px_of p) -> SFleb (minx (geom_bbox g)) (px_of p) = true /\ SFleb (px_of p) (maxx (geom_bbox g)) = true)
  /\ (nnan (py_of p) -> SFleb (miny (geom_bbox g)) (py_of p) = true /\ SFleb (py_of p) (maxy (geom_bbox g)) = true).
Proof.
  intros Hp. assert (forall f, nnan f -> SFleb f f = true) as Hrefl by (intros f Hf; apply SFleb_ltb; [done..|apply lt_keeps]).
  assert (forall ps, p ∈ ps ->
    (nnan (px_of p) -> SFleb (minx (box_of ps bbox_empty)) (px_of p) = true /\ SFleb (px_of p) (maxx (box_of ps bbox_empty)) = true)
    /\ (nnan (py_of p) -> SFleb (miny (box_of ps bbox_empty)) (py_of p) = true /\ SFleb (py_of p) (maxy (box_of ps bbox_empty)) = true)) as Hb.
  { intros ps Hps. rewrite box_of_least. cbn [minx miny maxx maxy]. assert (px_of p ∈ map px_of ps /\ py_of p ∈ map py_of ps) as [Hx Hy] by (split; by apply list_elem_of_fmap_2).
    split; intros Hn.
    - destruct (least_spec SFltb (minx bbox_empty) (map px_of ps) lt_keeps) as (A1 & _ & A2 & _); [done|].
      destruct (least_spec _ (maxx bbox_empty) (map px_of ps) gt_keeps) as (B1 & _ & B2 & _); [done|].
      split; apply SFleb_ltb; [done|done|by apply A2|done|done|by apply B2].
    - destruct (least_spec SFltb (miny bbox_empty) (map py_of ps) lt_keeps) as (A1 & _ & A2 & _); [done|].
      destruct (least_spec _ (maxy bbox_empty) (map py_of ps) gt_keeps) as (B1 & _ & B2 & _); [done|].
      split; apply SFleb_ltb; [done|done|by apply A2|done|done|by apply B2]. }
  destruct g as [q|ps|rs]; [|by apply Hb..]. cbn [vertices] in Hp. apply list_elem_of_singleton in Hp as ->. cbn [geom_bbox minx miny maxx maxy]. auto.
Qed.

(** ** The parser consumes its text *)

Lemma skip_space_len s : blen (skip_space s) <= blen s.
Proof. induction s as [|c s IH]; [done|]. cbn [skip_space]. destruct (isspace c); rewrite ?blen_cons; lia. Qed.
Lemma scan_digits_len s a : blen (scan_digits s a).2 <= blen s.
Proof. revert a. induction s as [|c s IH]; intros a; [done|]. cbn [scan_digits]. destruct (isdigit c); [|done]. specialize (IH (a * 10 + (c - 48))). rewrite blen_cons. lia. Qed.
Lemma scan_xdigits_len s a : blen (scan_xdigits s a).2 <= blen s.
Proof. revert a. induction s as [|c s IH]; intros a; [done|]. cbn [scan_xdigits]. destruct (isxdigit c); [|done]. specialize (IH (a * 16 + xdigit c)). rewrite blen_cons. lia. Qed.
Lemma scan_point_len scan s m fr n r : (forall s a, blen (scan s a).2 <= blen s) -> scan_point scan s = (m, fr, n, r) -> blen r <= blen s.
Proof.
  intros H. unfold scan_point. pose proof (H s 0) as H0. destruct (scan s 0) as [i r0]. cbn [snd] in H0. destruct r0 as [|c t]; [intros; simplify_eq; done|].
  destruct (c =? 46); [|intros; simplify_eq; done]. pose proof (H t i) as H1. destruct (scan t i) as [m' r']. cbn [snd] in H1. rewrite blen_cons in H0.
  intros ?; simplify_eq. destruct (_ =? 0); rewrite ?blen_cons; lia.
Qed.
Lemma scan_exp_len lo up s : blen (scan_exp lo up s).2 <= blen s.
Proof.
  unfold scan_exp. destruct s as [|c t]; [done|]. destruct (_ || _); [|done]. assert (forall d u, d :: u = t -> blen u <= blen t) as Ht by (intros d u <-; rewrite blen_cons; lia).
  destruct (match t with [] => _ | _ => _ end) as [neg u] eqn:E. assert (blen u <= blen t) as Hu.
  { destruct t as [|d t']; [by simplify_eq|]. rewrite blen_cons. repeat case_match; simplify_eq; rewrite ?blen_cons; lia. }
  destruct u as [|d u']; [done|]. destruct (isdigit d); [|done]. pose proof (scan_digits_len (d :: u') 0) as Hs. destruct (scan_digits (d :: u') 0) as [v r]. cbn [snd] in *. rewrite (blen_cons c). lia.
Qed.
Lemma blen_drop k (s : list Z) : blen (drop k s) <= blen s.
Proof. unfold blen. rewrite length_drop. lia. Qed.
Lemma nan_chars_len s r : nan_chars s = Some r -> blen r <= blen s.
Proof.
  induction s as [|c s IH]; [done|]. cbn [nan_chars]. rewrite blen_cons. destruct (c =? 41); [intros [= <-]; lia|]. destruct (isalnum_ c); [|done].
  intros H. specialize (IH H). lia.
Qed.
Lemma strtod_number_len s f r : strtod_number s = Some (f, r) -> blen r <= blen s.
Proof.
  unfold strtod_number. destruct (strtod_special s) as [[f' r']|] eqn:E1.
  { intros [= -> ->]. revert E1. unfold strtod_special. destruct (has_prefix _ s); [intros [= <- <-]; apply blen_drop|].
    destruct (has_prefix _ s); [intros [= <- <-]; apply blen_drop|]. destruct (has_prefix _ s); [|done]. intros [= <- <-]. pose proof (blen_drop 3 s) as Hd.
    destruct (drop 3 s) as [|c t]; [done|]. destruct (c =? 40); [|done]. destruct (nan_chars t) as [u|] eqn:En; [|done]. apply nan_chars_len in En. rewrite blen_cons in Hd. change (default (c :: t) (Some u)) with u. lia. }
  assert (forall scan s lo up m fr n r0, (forall s a, blen (scan s a).2 <= blen s) -> scan_point scan s = (m, fr, n, r0) -> blen (scan_exp lo up r0).2 <= blen s) as Hs.
  { intros scan s0 lo up m fr n r0 Hl Hp. pose proof (scan_point_len _ _ _ _ _ _ Hl Hp). pose proof (scan_exp_len lo up r0). lia. }
  destruct (if has_prefix (str "0X") s then strtod_hex (drop 2 s) else None) as [[f' r']|] eqn:E2.
  - intros [= -> ->]. destruct (has_prefix (str "0X") s); [|done]. unfold strtod_hex in E2. destruct (scan_point scan_xdigits (drop 2 s)) as [[[m fr] n] r0] eqn:Ep.
    destruct (n =? 0); [done|]. pose proof (Hs _ _ 112 80 _ _ _ _ scan_xdigits_len Ep) as Hl. destruct (scan_exp 112 80 r0) as [e r1]. simplify_eq. pose proof (blen_drop 2 s). cbn [snd] in Hl. lia.
  - unfold strtod_dec. destruct (scan_point scan_digits s) as [[[m fr] n] r0] eqn:Ep. destruct (n =? 0); [done|].
    pose proof (Hs _ _ 101 69 _ _ _ _ scan_digits_len Ep) as Hl. destruct (scan_exp 101 69 r0) as [e r1]. intros ?; simplify_eq. exact Hl.
Qed.
Lemma strtod_end_len s : blen (strtod_end s).2 <= blen s.
Proof.
  unfold strtod_end. pose proof (skip_space_len s) as H0. destruct (match skip_space s with [] => _ | _ => _ end) as [neg t] eqn:E.
  assert (blen t <= blen s) as Ht. { destruct (skip_space s) as [|c u]; [simplify_eq; done|]. rewrite blen_cons in H0. repeat case_match; simplify_eq; rewrite ?blen_cons; lia. }
  destruct (strtod_number t) as [[f r]|] eqn:En; [|done]. apply strtod_number_len in En. cbn [snd]. lia.
Qed.

Abbreviation wlen w := (blen (w_p w)).
Lemma wchar_len w c b w' : wchar w c = (b, w') -> wlen w' + (if b then 1 else 0) <= wlen w.
Proof.
  unfold wchar, wskip. cbn [w_p w_err]. pose proof (skip_space_len (w_p w)) as Hs. destruct (skip_space (w_p w)) as [|d t] eqn:E; [intros [= <- <-]; cbn [w_p]; lia|].
  rewrite blen_cons in Hs. destruct (d =? c); intros [= <- <-]; cbn [w_p]; rewrite ?blen_cons; lia.
Qed.
Lemma wnum_len w f w' : wnum w = (Some f, w') -> wlen w' + 1 <= wlen w /\ valid64 f = true.
Proof.
  unfold wnum, wskip. cbn [w_p w_err]. pose proof (skip_space_len (w_p w)). pose proof (strtod_end_len (skip_space (w_p w))) as Hl. pose proof (strtod_end_valid (skip_space (w_p w))) as Hv.
  destruct (strtod_end _) as [v e]. cbn [fst snd] in *. destruct (Z.eqb_spec (blen e) (blen (skip_space (w_p w)))); [done|]. intros [= <- <-]. cbn [w_p]. split; [lia|done].
Qed.
Lemma wkeyword_len w kw b w' : wkeyword w kw = (b, w') -> wlen w' <= wlen w.
Proof.
  unfold wkeyword, wskip. cbn [w_p w_err]. pose proof (skip_space_len (w_p w)). destruct (_ =? 0); intros [= <- <-]; cbn [w_p]; [pose proof (blen_drop (length kw) (skip_space (w_p w)))|]; lia.
Qed.
Lemma wnum_err w w' : wnum w = (None, w') -> w_err w' = Some (str "expected a number").
Proof. unfold wnum. destruct (strtod_end _) as [v e]. case_match; [|done]. by intros [= <-]. Qed.

(** ** What it writes *)

Section Parser.
Context (alloc_ok : Z -> bool) (Halloc : forall n, alloc_ok n = true).

Definition grew (b b' : tdb_buf) (bytes : list Z) : Prop := b_data b' = b_data b ++ bytes /\ buf_wf b'.
Lemma adds_grew b bytes r : buf_adds alloc_ok b bytes r -> grew b r.2 bytes.
Proof. intros [(_ & H1 & H2)|(_ & _ & n & H)]; [done|]. by rewrite Halloc in H. Qed.
Lemma grew_trans b b1 b2 x y : grew b b1 x -> grew b1 b2 y -> grew b b2 (x ++ y).
Proof. intros [H1 _] [H2 H3]. split; [|done]. by rewrite H2, H1, <- app_assoc. Qed.
Lemma grew_len b b' x : grew b b' x -> b_len b' = b_len b + blen x.
Proof. intros [H _]. unfold b_len. by rewrite H, blen_app. Qed.
Lemma put_dbl_grew b d : buf_wf b -> b_len b + 8 <= 2 ^ 63 -> grew b (put_dbl alloc_ok b d) (tdb_put_u64 (bits_of_f64 d)).
Proof. intros. apply adds_grew. by apply buf_append_adds. Qed.
Lemma put_u32b_grew b v : buf_wf b -> b_len b + 4 <= 2 ^ 63 -> grew b (put_u32b alloc_ok b v) (tdb_put_u32 v).
Proof. intros. apply adds_grew. by apply buf_append_adds. Qed.
Lemma putc_grew b c : buf_wf b -> b_len b + 1 <= 2 ^ 63 -> grew b (tdb_buf_putc alloc_ok b c).2 [c].
Proof. intros. apply adds_grew. by apply buf_putc_adds. Qed.
Lemma patch_grew b b' v0 rest v : grew b b' (tdb_put_u32 v0 ++ rest) ->
  exists b'', patch_u32 b' (b_len b) v = Some b'' /\ grew b b'' (tdb_put_u32 v ++ rest).
Proof.
  intros H. pose proof (grew_len _ _ _ H) as Hl. rewrite blen_app, blen_put_u32 in Hl. pose proof (blen_nonneg rest). unfold patch_u32.
  destruct (Z.leb_spec (b_len b + 4) (b_len b')); [|lia]. eexists. split; [done|]. destruct H as [Hd Hw].
  assert (bput (b_data b') (b_len b) (tdb_put_u32 v) = b_data b ++ tdb_put_u32 v ++ rest) as E.
  { rewrite Hd. unfold b_len, bput, blen. rewrite Nat2Z.id, length_put_u32, take_app_length. f_equal. f_equal.
    rewrite app_assoc. apply drop_app_length'. by rewrite length_app, length_put_u32. }
  split; [exact E|]. unfold buf_wf, b_len in *. cbn [b_data b_cap]. rewrite E, !blen_app, blen_put_u32 in *. rewrite Hd, !blen_app, blen_put_u32 in Hw. done.
Qed.
Lemma bits_pt x y : valid64 x = true -> valid64 y = true -> pt_ok (bits_of_f64 x, bits_of_f64 y).
Proof. intros Hx Hy. split; by apply bits_range. Qed.
Lemma enc_pts_cons p ps : enc_pts (p :: ps) = enc_pt p ++ enc_pts ps.
Proof. done. Qed.
Lemma coords_loop_spec fuel w out n ok w' out' n' :
  buf_wf out -> b_len out + 16 * wlen w <= 2 ^ 62 -> 0 <= n -> n + wlen w < 2 ^ 32 -> (length (w_p w) < fuel)%nat ->
  coords_loop alloc_ok fuel w out n = (ok, w', out', n') ->
  if ok then exists ps, ps <> [] /\ Forall pt_ok ps /\ grew out out' (enc_pts ps) /\ n' = n + Z.of_nat (length ps) /\ wlen w' + 2 * Z.of_nat (length ps) <= wlen w
  else w_err w' = Some (str "expected a number").
Proof.
  revert w out n. induction fuel as [|fuel IH]; intros w out n Hw Hb Hn Hc Hf; [lia|]. cbn [coords_loop].
  destruct (wnum w) as [[x|] w1] eqn:E1; [|intros [= <- <- _ _]; by eapply wnum_err]. apply wnum_len in E1 as [L1 V1].
  destruct (wnum w1) as [[y|] w2] eqn:E2; [|intros [= <- <- _ _]; by eapply wnum_err]. apply wnum_len in E2 as [L2 V2].
  pose proof (blen_nonneg (w_p w2)). pose proof (put_dbl_grew out x Hw ltac:(lia)) as G1. pose proof (grew_len _ _ _ G1) as N1. rewrite blen_put_u64 in N1.
  pose proof (put_dbl_grew _ y (proj2 G1) ltac:(lia)) as G2. pose proof (grew_trans _ _ _ _ _ G1 G2) as G. pose proof (grew_len _ _ _ G) as N2.
  fold (enc_pt (bits_of_f64 x, bits_of_f64 y)) in G. change (blen (tdb_put_u64 (bits_of_f64 x) ++ tdb_put_u64 (bits_of_f64 y))) with 16 in N2.
  pose proof (bits_pt x y V1 V2) as Hp. rewrite u32_small by lia. destruct (wchar w2 44) as [[|] w3] eqn:E3; apply wchar_len in E3.
  - intros H'. apply IH in H'; [|apply G2|lia|lia|lia|unfold blen in *; lia]. destruct ok; [|done]. destruct H' as (ps & P1 & P2 & P3 & P4 & P5).
    exists ((bits_of_f64 x, bits_of_f64 y) :: ps). split; [done|]. split; [by constructor|]. split; [rewrite enc_pts_cons; by eapply grew_trans|]. simpl length. lia.
  - intros [= <- <- <- <-]. exists [(bits_of_f64 x, bits_of_f64 y)]. split; [done|]. split; [by constructor|].
    split; [unfold enc_pts; cbn [map concat]; by rewrite app_nil_r|]. simpl length. lia.
Qed.
Lemma parse_coords_spec w out :
  buf_wf out -> b_len out + 4 + 16 * wlen w <= 2 ^ 62 -> wlen w < 2 ^ 32 ->
  exists ok w' out', parse_coords alloc_ok w out = Some (ok, w', out') /\
  if ok : bool then exists ps, ps <> [] /\ pts_ok ps /\ grew out out' (enc_coords ps) /\ wlen w' + 2 * Z.of_nat (length ps) + 2 <= wlen w
  else exists m, w_err w' = Some m.
Proof.
  intros Hw Hb Hl. unfold parse_coords. destruct (wchar w 40) as [[|] w1] eqn:E1; apply wchar_len in E1; [|by do 3 eexists; split; [done|eexists]].
  pose proof (blen_nonneg (w_p w1)). pose proof (put_u32b_grew out 0 Hw ltac:(lia)) as G1. pose proof (grew_len _ _ _ G1) as N1. rewrite blen_put_u32 in N1.
  destruct (coords_loop _ _ w1 _ 0) as [[[ok w2] out2] n2] eqn:E2. apply coords_loop_spec in E2; [|apply G1|lia|lia|lia|lia].
  destruct ok; [|do 3 eexists; split; [done|eexists; exact E2]]. destruct E2 as (ps & P1 & P2 & P3 & P4 & P5).
  destruct (wchar w2 41) as [[|] w3] eqn:E3; apply wchar_len in E3; [|by do 3 eexists; split; [done|eexists]].
  pose proof (grew_trans _ _ _ _ _ G1 P3) as G. destruct (patch_grew _ _ _ _ n2 G) as (b'' & -> & G'). cbn [mbind option_bind].
  pose proof (blen_nonneg (w_p w3)). do 3 eexists. split; [done|]. exists ps. split; [done|]. split; [split; [done|lia]|]. split; [|lia]. rewrite P4, Z.add_0_l in G'. exact G'.
Qed.
Lemma enc_rings_cons ps rs : enc_rings (ps :: rs) = enc_coords ps ++ enc_rings rs.
Proof. done. Qed.
Lemma rings_loop_spec fuel w out n :
  buf_wf out -> b_len out + 4 + 16 * wlen w <= 2 ^ 62 -> 0 <= n -> n + wlen w < 2 ^ 32 -> (length (w_p w) < fuel)%nat ->
  exists ok w' out' n', rings_loop alloc_ok fuel w out n = Some (ok, w', out', n') /\
  if ok : bool then exists rs, rs <> [] /\ Forall pts_ok rs /\ grew out out' (enc_rings rs) /\ n' = n + Z.of_nat (length rs) /\ wlen w' + Z.of_nat (length rs) <= wlen w
      /\ blen (enc_rings rs) <= 8 * (wlen w - wlen w')
  else exists m, w_err w' = Some m.
Proof.
  revert w out n. induction fuel as [|fuel IH]; intros w out n Hw Hb Hn Hc Hf; [lia|]. cbn [rings_loop]. pose proof (blen_nonneg (w_p w)).
  destruct (parse_coords_spec w out Hw ltac:(lia) ltac:(lia)) as (ok & w1 & out1 & -> & Hok). cbn [mbind option_bind]. destruct ok; [|by do 4 eexists].
  destruct Hok as (ps & P1 & P2 & P3 & P4). pose proof (grew_len _ _ _ P3) as N. rewrite blen_enc_coords in N. pose proof (blen_nonneg (w_p w1)). rewrite u32_small by lia.
  assert (0 < length ps)%nat by (destruct ps; [done|simpl; lia]).
  destruct (wchar w1 44) as [[|] w2] eqn:E3; apply wchar_len in E3; pose proof (blen_nonneg (w_p w2)).
  - destruct (IH w2 out1 (n + 1)) as (ok & w3 & out3 & n3 & -> & Hr); [apply P3|lia|lia|lia|unfold blen in *; lia|]. do 4 eexists. split; [done|]. destruct ok; [|done].
    destruct Hr as (rs & R1 & R2 & R3 & R4 & R5 & R6). exists (ps :: rs). split; [done|]. split; [by constructor|].
    split; [rewrite enc_rings_cons; by eapply grew_trans|]. rewrite enc_rings_cons, blen_app, blen_enc_coords. simpl length. lia.
  - do 4 eexists. split; [done|]. exists [ps]. split; [done|]. split; [by constructor|]. change (enc_rings [ps]) with (enc_coords ps ++ []). rewrite app_nil_r, blen_enc_coords.
    split; [done|]. simpl length. lia.
Qed.

(** The outcome of parsing [n] bytes: an encoding, or a mismatch with a reason. *)
Definition parsed (n : Z) (r : option wkt_out) : Prop :=
  exists rc out why, r = Some (rc, out, why) /\
  ((rc = TDB_OK /\ why = None /\ b_len out <= 8 * n + 32 /\ exists g, geom_ok g /\ b_data out = encode g) \/ (rc = TDB_MISMATCH /\ exists m, why = Some m)).
(** The outcome of a geometry, before the trailing characters. *)
Definition parsed_body (n : Z) (r : option (wkt * tdb_buf + wkt_out)) : Prop :=
  (exists w out g, r = Some (inl (w, out)) /\ b_len out <= 8 * n + 32 /\ geom_ok g /\ b_data out = encode g) \/ exists out m, r = Some (inr (fail out (Some m))).
Lemma wkt_point_spec w out : buf_wf out -> b_data out = [] -> parsed_body (wlen w) (Some (wkt_point alloc_ok w out)).
Proof.
  intros Hw Hd. assert (b_len out = 0) as Hl by (unfold b_len; by rewrite Hd). unfold wkt_point.
  destruct (wchar w 40) as [[|] w1]; [|right; by do 2 eexists]. 
  destruct (wnum w1) as [[x|] w2] eqn:E1; [|right; unfold werr; rewrite (wnum_err _ _ E1); by do 2 eexists]. apply wnum_len in E1 as [_ V1].
  destruct (wnum w2) as [[y|] w3] eqn:E2; [|right; unfold werr; rewrite (wnum_err _ _ E2); by do 2 eexists]. apply wnum_len in E2 as [_ V2].
  destruct (wchar w3 41) as [[|] w4]; [|right; by do 2 eexists]. left.
  pose proof (putc_grew out TDB_GEOM_POINT Hw ltac:(lia)) as G0. pose proof (grew_len _ _ _ G0) as N0. change (blen [TDB_GEOM_POINT]) with 1 in N0.
  pose proof (put_dbl_grew _ x (proj2 G0) ltac:(lia)) as G1. pose proof (grew_len _ _ _ G1) as N1. rewrite blen_put_u64 in N1.
  pose proof (put_dbl_grew _ y (proj2 G1) ltac:(lia)) as G2. do 2 eexists. exists (GPoint (bits_of_f64 x, bits_of_f64 y)). split; [done|].
  split; [pose proof (grew_len _ _ _ G2) as N2; rewrite blen_put_u64 in N2; pose proof (blen_nonneg (w_p w)); lia|]. split; [by apply bits_pt|].
  destruct G0 as [D0 _], G1 as [D1 _], G2 as [D2 _]. rewrite D2, D1, D0, Hd. cbn [app encode]. unfold enc_pt. reflexivity.
Qed.
Lemma wkt_linestring_spec w out : buf_wf out -> b_data out = [] -> wlen w < 2 ^ 32 -> parsed_body (wlen w) (wkt_linestring alloc_ok w out).
Proof.
  intros Hw Hd Hlw. assert (b_len out = 0) as Hl by (unfold b_len; by rewrite Hd). unfold wkt_linestring.
  pose proof (putc_grew out TDB_GEOM_LINESTRING Hw ltac:(lia)) as G0. pose proof (grew_len _ _ _ G0) as N0. change (blen [TDB_GEOM_LINESTRING]) with 1 in N0.
  destruct (parse_coords_spec w _ (proj2 G0) ltac:(lia) ltac:(lia)) as (ok & w1 & out1 & -> & Hok). cbn [mbind option_bind].
  destruct ok; [|destruct Hok as [m Em]; right; unfold werr; rewrite Em; by do 2 eexists]. destruct Hok as (ps & _ & P2 & P3 & P4). left. do 2 eexists. exists (GLine ps).
  split; [done|]. pose proof (grew_len _ _ _ P3) as N1. rewrite blen_enc_coords in N1. pose proof (blen_nonneg (w_p w1)). split; [lia|]. split; [done|]. destruct P3 as [P3 _]. destruct G0 as [D0 _]. rewrite P3, D0, Hd. done.
Qed.
Lemma wkt_polygon_spec w out : buf_wf out -> b_data out = [] -> wlen w < 2 ^ 32 -> parsed_body (wlen w) (wkt_polygon alloc_ok w out).
Proof.
  intros Hw Hd Hlw. assert (b_len out = 0) as Hl by (unfold b_len; by rewrite Hd). unfold wkt_polygon.
  pose proof (putc_grew out TDB_GEOM_POLYGON Hw ltac:(lia)) as G0. pose proof (grew_len _ _ _ G0) as N0. change (blen [TDB_GEOM_POLYGON]) with 1 in N0.
  destruct (wchar w 40) as [[|] w1] eqn:E1; apply wchar_len in E1; [|right; by do 2 eexists]. set (b0 := (tdb_buf_putc _ _ _).2) in *.
  pose proof (put_u32b_grew b0 0 (proj2 G0) ltac:(lia)) as G1. pose proof (grew_len _ _ _ G1) as N1. rewrite blen_put_u32 in N1. pose proof (blen_nonneg (w_p w1)).
  destruct (rings_loop_spec (S (length (w_p w1))) w1 _ 0 (proj2 G1) ltac:(lia) ltac:(lia) ltac:(lia) ltac:(lia)) as (ok & w2 & out2 & n2 & -> & Hok). cbn [mbind option_bind].
  destruct ok; [|destruct Hok as [m Em]; right; unfold werr; rewrite Em; by do 2 eexists]. destruct Hok as (rs & _ & P2 & P3 & P4 & P5 & P6).
  destruct (wchar w2 41) as [[|] w3] eqn:E3; apply wchar_len in E3; [|right; by do 2 eexists]. pose proof (blen_nonneg (w_p w3)).
  pose proof (grew_trans _ _ _ _ _ G1 P3) as G. destruct (patch_grew _ _ _ _ n2 G) as (b'' & -> & GD). cbn [mbind option_bind]. left. do 2 eexists. exists (GPolygon rs).
  split; [done|]. pose proof (grew_len _ _ _ GD) as ND. rewrite blen_app, blen_put_u32 in ND. split; [lia|]. destruct GD as [D _]. split; [split; [done|lia]|]. destruct G0 as [D0 _]. rewrite D, D0, Hd, P4, Z.add_0_l. done.
Qed.
Lemma from_wkt_spec s out : buf_wf out -> blen s < 2 ^ 31 -> parsed (blen s) (tdb_geom_from_wkt alloc_ok s out).
Proof.
  intros Hw Hs. unfold tdb_geom_from_wkt. set (b := tdb_buf_reset out). pose proof (buf_reset_wf out Hw) as Hb. fold b in Hb. assert (b_data b = []) as Hd by done.
  assert (blen (cstr s) <= blen s) as Hc.
  { clear. induction s as [|c s IH]; [done|]. cbn [cstr]. destruct (c =? 0); rewrite ?blen_cons; unfold blen in *; simpl; lia. }
  assert (forall n r, n <= blen s -> parsed_body n r -> parsed (blen s) (r ← r; match r with inr e => Some e | inl (w, out) => match w_p (wskip w) with
    [] => Some (TDB_OK, out, None) | _ => Some (fail out (Some (str "trailing characters after geometry"))) end end)) as Hfin.
  { intros n r Hle [(w & o & g & -> & Hlen & Hg & Ho)|(o & m & ->)]; cbn [mbind option_bind].
    - destruct (w_p (wskip w)); do 3 eexists; (split; [done|]); [left; split; [done|]; split; [done|]; split; [lia|]; by exists g|right; by split; [|eexists]].
    - do 3 eexists. split; [done|]. right. by split; [|eexists]. }
  destruct (wkeyword _ (str "POINT")) as [[|] w1] eqn:E1; apply wkeyword_len in E1; cbn [w_p] in E1; [apply (Hfin (wlen w1)); [lia|by apply wkt_point_spec]|].
  destruct (wkeyword w1 _) as [[|] w2] eqn:E2; apply wkeyword_len in E2; [apply (Hfin (wlen w2)); [lia|apply wkt_linestring_spec; [done|done|lia]]|].
  destruct (wkeyword w2 _) as [[|] w3] eqn:E3; apply wkeyword_len in E3; [apply (Hfin (wlen w3)); [lia|apply wkt_polygon_spec; [done|done|lia]]|].
  apply (Hfin 0); [apply blen_nonneg|]. right. by do 2 eexists.
Qed.
End Parser.

(** ** Properties *)

(** C25. Geometry text to binary: for every text below 2 GiB and while memory
    lasts, parsing ends without a write outside the buffer; it either stores
    the encoding of a geometry (a blob that validation accepts, whose
    coordinates are 64-bit patterns and whose counts are the numbers of points
    and rings) or reports a mismatch with a reason. *)
Theorem geom_from_wkt_encodes alloc_ok s out :
  (forall n, alloc_ok n = true) -> buf_wf out -> blen s < 2 ^ 31 ->
  exists rc out' why, tdb_geom_from_wkt alloc_ok s out = Some (rc, out', why)
  /\ ((rc = TDB_OK /\ why = None /\ tdb_geom_valid (b_data out') = true /\ exists g, geom_ok g /\ b_data out' = encode g)
      \/ (rc = TDB_MISMATCH /\ exists m, why = Some m)).
Proof.
  intros Ha Hw Hs. destruct (from_wkt_spec alloc_ok Ha s out Hw Hs) as (rc & out' & why & -> & H). do 3 eexists. split; [done|].
  destruct H as [(-> & -> & _ & g & Hg & E)|H]; [left|by right]. split; [done|]. split; [done|]. split; [|by exists g]. rewrite E. by apply encode_valid.
Qed.
Lemma geom_from_wkt_encodes_witness :
  exists rc out' why, tdb_geom_from_wkt ok_alloc (str "LINESTRING(0 0, 1.5 2)") tdb_buf_init = Some (rc, out', why) /\ rc = TDB_OK /\ tdb_geom_valid (b_data out') = true.
Proof.
  destruct (geom_from_wkt_encodes ok_alloc (str "LINESTRING(0 0, 1.5 2)") tdb_buf_init) as (rc & out' & why & E & H);
    [reflexivity|apply buf_init_wf|vm_compute; reflexivity|].
  exists rc, out', why. split; [exact E|]. destruct H as [(H1 & _ & H2 & _)|(H1 & _)]; [exact (conj H1 H2)|].
  exfalso. subst rc. vm_compute in E. discriminate E.
Defined.

(** C26. Binary geometries: validation accepts exactly the encodings of
    geometries; on an encoding the bounding box and point containment are
    those of the geometry (even-odd crossing count over the closed outer ring,
    minus the holes), and the box contains every coordinate of every vertex
    that is a number; on any other blob there is no box and nothing is
    contained. *)
Theorem geom_blob_refines blob x y :
  bytes_ok blob ->
  (exists g, geom_ok g /\ blob = encode g /\ tdb_geom_valid blob = true
     /\ tdb_geom_bbox blob = Some (geom_bbox g) /\ tdb_geom_contains_point blob x y = geom_contains g x y
     /\ forall p, p ∈ vertices g ->
          (nnan (px_of p) -> SFleb (minx (geom_bbox g)) (px_of p) = true /\ SFleb (px_of p) (maxx (geom_bbox g)) = true)
          /\ (nnan (py_of p) -> SFleb (miny (geom_bbox g)) (py_of p) = true /\ SFleb (py_of p) (maxy (geom_bbox g)) = true))
  \/ ((forall g, geom_ok g -> blob <> encode g) /\ tdb_geom_valid blob = false /\ tdb_geom_bbox blob = None /\ tdb_geom_contains_point blob x y = false).
Proof.
  intros Hb. destruct (tdb_geom_valid blob) eqn:E.
  - left. destruct (valid_encode blob Hb E) as (g & Hg & Eg). exists g. subst blob. split; [done|]. split; [done|]. split; [done|].
    split; [by apply encode_bbox|]. split; [by apply encode_contains|]. intros p Hp. by apply geom_bbox_covers.
  - right. split; [intros g Hg ->; by rewrite encode_valid in E|]. split; [done|]. unfold tdb_geom_bbox, tdb_geom_contains_point. by rewrite E.
Qed.
(** A triangle. *)
Definition triangle : geom := GPolygon [[(0, 0); (0x4010000000000000, 0); (0, 0x4010000000000000)]].
Lemma geom_blob_refines_witness :
  (exists g, encode triangle = encode g /\ tdb_geom_bbox (encode triangle) = Some (geom_bbox g)) /\ tdb_geom_contains_point (encode triangle) (f64_of_int 1) (f64_of_int 1) = true.
Proof.
  destruct (geom_blob_refines (encode triangle) (f64_of_int 1) (f64_of_int 1)) as [(g & _ & E & _ & Hb & Hc & _)|(_ & H & _)];
    [apply bytes_okb_ok; vm_compute; reflexivity| |vm_compute in H; discriminate H].
  split; [exact (ex_intro _ g (conj E Hb))|vm_compute; reflexivity].
Defined.

(** The text form prints six significant digits: a stored coordinate does not
    survive being written and read back. *)
Lemma geom_text_loses_digits :
  let blob := encode (GPoint (0x3FF3C0CA428C59FB, 0)) in
  match tdb_geom_to_wkt ok_alloc blob tdb_buf_init with
  | Some (TDB_OK, t) =>
      b_data t = str "POINT(1.23457 0)"
      /\ match tdb_geom_from_wkt ok_alloc (b_data t) tdb_buf_init with Some (TDB_OK, b, _) => b_data b <> blob | _ => False end
  | _ => False
  end.
Proof. vm_compute. split; [reflexivity|discriminate]. Qed.
