(* ===== verification/Crypto.v ===== *)
(** * Hash functions and encodings (src/src/ext/tdb_crypto.c)

    SHA-256 as the streaming context of the source, HMAC, MD5, SHA-1, CRC-32,
    hexadecimal and base64, and the SQL functions over them.  What the build
    with OpenSSL adds is taken through parameters for the library's calls.
    Memory that the code has not written yet (the block buffer of a context)
    is an argument with arbitrary contents. *)
From S2P Require Import Prelude Util Buf Value Record Cnum CnumSpec ValueText.

(** ** Words *)

Definition rotr32 (x s : Z) : Z := u32 (Z.lor (Z.shiftr x s) (Z.shiftl x (32 - s))).
Definition rotl32 (x s : Z) : Z := u32 (Z.lor (Z.shiftl x s) (Z.shiftr x (32 - s))).
(** The 16 words of a block, in the byte order of the function. *)
Definition be_word (p : list Z) (i : Z) : Z :=
  Z.lor (Z.lor (Z.lor (u32 (Z.shiftl (bget p (i * 4)) 24)) (u32 (Z.shiftl (bget p (i * 4 + 1)) 16))) (u32 (Z.shiftl (bget p (i * 4 + 2)) 8))) (bget p (i * 4 + 3)).
Definition le_word (p : list Z) (i : Z) : Z :=
  Z.lor (Z.lor (Z.lor (bget p (i * 4)) (u32 (Z.shiftl (bget p (i * 4 + 1)) 8))) (u32 (Z.shiftl (bget p (i * 4 + 2)) 16))) (u32 (Z.shiftl (bget p (i * 4 + 3)) 24)).
Definition words (word : list Z -> Z -> Z) (p : list Z) : list Z := map (fun i => word p (Z.of_nat i)) (seq 0 16).
Definition be_bytes (w : Z) : list Z := [u8 (Z.shiftr w 24); u8 (Z.shiftr w 16); u8 (Z.shiftr w 8); u8 w].
Definition le_bytes (w : Z) : list Z := [u8 w; u8 (Z.shiftr w 8); u8 (Z.shiftr w 16); u8 (Z.shiftr w 24)].
(** The message schedule: [k] more words, each from the ones before it. *)
Fixpoint schedule (next : list Z -> Z -> Z) (k : nat) (w : list Z) : list Z :=
  match k with
  | O => w
  | S k => schedule next k (w ++ [next w (blen w)])
  end.
Definition add_words (h l : list Z) : list Z := map (fun '(x, y) => u32 (x + y)) (combine h l).

(** ** SHA-256 *)

(** Eight words of a table, written as one number. *)
Definition words_of_row (x : Z) : list Z := map (fun i => Z.land (Z.shiftr x (32 * (7 - i))) (2 ^ 32 - 1)) (seqZ 0 8).
Definition SHA256_K : list Z := Eval cbv in flat_map words_of_row
  [0x428a2f9871374491b5c0fbcfe9b5dba53956c25b59f111f1923f82a4ab1c5ed5;
   0xd807aa9812835b01243185be550c7dc372be5d7480deb1fe9bdc06a7c19bf174;
   0xe49b69c1efbe47860fc19dc6240ca1cc2de92c6f4a7484aa5cb0a9dc76f988da;
   0x983e5152a831c66db00327c8bf597fc7c6e00bf3d5a7914706ca635114292967;
   0x27b70a852e1b21384d2c6dfc53380d13650a7354766a0abb81c2c92e92722c85;
   0xa2bfe8a1a81a664bc24b8b70c76c51a3d192e819d6990624f40e3585106aa070;
   0x19a4c1161e376c082748774c34b0bcb5391c0cb34ed8aa4a5b9cca4f682e6ff3;
   0x748f82ee78a5636f84c878148cc7020890befffaa4506cebbef9a3f7c67178f2].
Definition sha256_iv : list Z := Eval cbv in flat_map words_of_row
  [0x6a09e667bb67ae853c6ef372a54ff53a510e527f9b05688c1f83d9ab5be0cd19].

(** [sc_buf] is the array of 64 bytes, [sc_n] how many of them are filled. *)
Record sha256_ctx := mk_sha256 { sc_h : list Z; sc_len : Z; sc_buf : list Z; sc_n : Z }.
Definition sha256_init (c : sha256_ctx) : sha256_ctx := mk_sha256 sha256_iv 0 (sc_buf c) 0.

Definition sha256_next (w : list Z) (i : Z) : Z :=
  let w15 := bget w (i - 15) in
  let w2 := bget w (i - 2) in
  let s0 := Z.lxor (Z.lxor (rotr32 w15 7) (rotr32 w15 18)) (Z.shiftr w15 3) in
  let s1 := Z.lxor (Z.lxor (rotr32 w2 17) (rotr32 w2 19)) (Z.shiftr w2 10) in
  u32 (bget w (i - 16) + s0 + bget w (i - 7) + s1).
Definition sha256_round (st : list Z) (kw : Z * Z) : list Z :=
  match st with
  | [a; b; cc; d; e; f; g; h] =>
      let S1 := Z.lxor (Z.lxor (rotr32 e 6) (rotr32 e 11)) (rotr32 e 25) in
      let ch := Z.lxor (Z.land e f) (Z.land (not32 e) g) in
      let t1 := u32 (h + S1 + ch + kw.1 + kw.2) in
      let S0 := Z.lxor (Z.lxor (rotr32 a 2) (rotr32 a 13)) (rotr32 a 22) in
      let maj := Z.lxor (Z.lxor (Z.land a b) (Z.land a cc)) (Z.land b cc) in
      let t2 := u32 (S0 + maj) in
      [u32 (t1 + t2); a; b; cc; u32 (d + t1); e; f; g]
  | _ => st
  end.
Definition sha256_compress (h p : list Z) : list Z :=
  let w := schedule sha256_next 48 (words be_word p) in
  add_words h (foldl sha256_round h (combine SHA256_K w)).
Definition sha256_block (c : sha256_ctx) (p : list Z) : sha256_ctx := mk_sha256 (sha256_compress (sc_h c) p) (sc_len c) (sc_buf c) (sc_n c).

(** [fuel]: a round takes a byte at least, since the buffer is not full. *)
Fixpoint update_loop (fuel : nat) (c : sha256_ctx) (p : list Z) : sha256_ctx :=
  match fuel, p with
  | S fuel, _ :: _ =>
      let take_ := Z.min (64 - sc_n c) (blen p) in
      let c := mk_sha256 (sc_h c) (sc_len c) (bput (sc_buf c) (sc_n c) (bsub p 0 take_)) (sc_n c + take_) in
      let c := if sc_n c =? 64 then let c := sha256_block c (sc_buf c) in mk_sha256 (sc_h c) (sc_len c) (sc_buf c) 0 else c in
      update_loop fuel c (bfrom p take_)
  | _, _ => c
  end.
Definition sha256_update (c : sha256_ctx) (p : list Z) : sha256_ctx :=
  update_loop (length p) (mk_sha256 (sc_h c) (u64 (sc_len c + blen p)) (sc_buf c) (sc_n c)) p.
(** [while (c->n != 56) sha256_update(c, &zero, 1)]: the buffer cycles through
    64 positions. *)
Fixpoint pad_loop (fuel : nat) (c : sha256_ctx) : sha256_ctx :=
  if sc_n c =? 56 then c else match fuel with O => c | S fuel => pad_loop fuel (sha256_update c [0]) end.
Definition sha256_final (c : sha256_ctx) : list Z :=
  let bits := u64 (sc_len c * 8) in
  let c := sha256_update c [0x80] in
  let c := pad_loop 64 c in
  let lb := map (fun i => u8 (Z.shiftr bits (56 - Z.of_nat i * 8))) (seq 0 8) in
  let c := sha256_update c lb in
  concat (map be_bytes (sc_h c)).
(** [junk]: the context on the stack before it is initialised. *)
Definition sha256 (junk : sha256_ctx) (p : list Z) : list Z := sha256_final (sha256_update (sha256_init junk) p).

Definition hmac_sha256 (junk : sha256_ctx) (key msg : list Z) : list Z :=
  let k := bzero 64 in
  let k := if 64 <? blen key then bput k 0 (sha256 junk key) else bput k 0 key in
  let ipad := map (fun b => u8 (Z.lxor b 0x36)) k in
  let opad := map (fun b => u8 (Z.lxor b 0x5c)) k in
  let c := sha256_update (sha256_update (sha256_init junk) ipad) msg in
  let inner := sha256_final c in
  sha256_final (sha256_update (sha256_update (sha256_init c) opad) inner).

(** ** MD5 *)

Definition md5_S : list Z :=
  [7; 12; 17; 22; 7; 12; 17; 22; 7; 12; 17; 22; 7; 12; 17; 22; 5; 9; 14; 20; 5; 9; 14; 20; 5; 9; 14; 20; 5; 9; 14; 20;
   4; 11; 16; 23; 4; 11; 16; 23; 4; 11; 16; 23; 4; 11; 16; 23; 6; 10; 15; 21; 6; 10; 15; 21; 6; 10; 15; 21; 6; 10; 15; 21].
Definition md5_K : list Z :=
  [0xd76aa478; 0xe8c7b756; 0x242070db; 0xc1bdceee; 0xf57c0faf; 0x4787c62a; 0xa8304613; 0xfd469501;
   0x698098d8; 0x8b44f7af; 0xffff5bb1; 0x895cd7be; 0x6b901122; 0xfd987193; 0xa679438e; 0x49b40821;
   0xf61e2562; 0xc040b340; 0x265e5a51; 0xe9b6c7aa; 0xd62f105d; 0x02441453; 0xd8a1e681; 0xe7d3fbc8;
   0x21e1cde6; 0xc33707d6; 0xf4d50d87; 0x455a14ed; 0xa9e3e905; 0xfcefa3f8; 0x676f02d9; 0x8d2a4c8a;
   0xfffa3942; 0x8771f681; 0x6d9d6122; 0xfde5380c; 0xa4beea44; 0x4bdecfa9; 0xf6bb4b60; 0xbebfbc70;
   0x289b7ec6; 0xeaa127fa; 0xd4ef3085; 0x04881d05; 0xd9d4d039; 0xe6db99e5; 0x1fa27cf8; 0xc4ac5665;
   0xf4292244; 0x432aff97; 0xab9423a7; 0xfc93a039; 0x655b59c3; 0x8f0ccc92; 0xffeff47d; 0x85845dd1;
   0x6fa87e4f; 0xfe2ce6e0; 0xa3014314; 0x4e0811a1; 0xf7537e82; 0xbd3af235; 0x2ad7d2bb; 0xeb86d391].
Definition md5_round (m : list Z) (st : list Z) (i : nat) : list Z :=
  match st with
  | [a; b; c; d] =>
      let i := Z.of_nat i in
      let '(f, g) :=
        if i <? 16 then (Z.lor (Z.land b c) (Z.land (not32 b) d), i)
        else if i <? 32 then (Z.lor (Z.land d b) (Z.land (not32 d) c), Z.land (5 * i + 1) 15)
        else if i <? 48 then (Z.lxor (Z.lxor b c) d, Z.land (3 * i + 5) 15)
        else (Z.lxor c (Z.lor b (not32 d)), Z.land (7 * i) 15) in
      let f := u32 (f + a + bget md5_K i + bget m g) in
      [d; u32 (b + rotl32 f (bget md5_S i)); b; c]
  | _ => st
  end.
Definition md5_block (h p : list Z) : list Z := add_words h (foldl (md5_round (words le_word p)) h (seq 0 64)).

(** The blocks at [p + i*64] for [i < full]. *)
Fixpoint blocks (block : list Z -> list Z -> list Z) (full : nat) (h p : list Z) : list Z :=
  match full with
  | O => h
  | S k => blocks block k (block h (bsub p 0 64)) (bfrom p 64)
  end.
(** The whole blocks, then the tail with the mark, the zeros and the length. *)
Definition digest (block : list Z -> list Z -> list Z) (len_byte : Z -> nat -> Z) (h0 p : list Z) : list Z :=
  let n := blen p in
  let full := n / 64 in
  let h := blocks block (Z.to_nat full) h0 p in
  let tail := bfrom p (full * 64) ++ [0x80] in
  let r := blen tail in
  let padto := if r <=? 56 then 56 else 120 in
  let tail := tail ++ bzero (padto - r) in
  let bits := u64 (n * 8) in
  let tail := tail ++ map (len_byte bits) (seq 0 8) in
  blocks block (Z.to_nat (blen tail / 64)) h tail.
Definition md5_iv : list Z := [0x67452301; 0xefcdab89; 0x98badcfe; 0x10325476].
Definition md5 (p : list Z) : list Z :=
  concat (map le_bytes (digest md5_block (fun bits i => u8 (Z.shiftr bits (Z.of_nat i * 8))) md5_iv p)).

(** ** SHA-1 *)

Definition sha1_next (w : list Z) (i : Z) : Z :=
  let v := Z.lxor (Z.lxor (Z.lxor (bget w (i - 3)) (bget w (i - 8))) (bget w (i - 14))) (bget w (i - 16)) in
  Z.lor (u32 (Z.shiftl v 1)) (Z.shiftr v 31).
Definition sha1_round (w : list Z) (st : list Z) (i : nat) : list Z :=
  match st with
  | [a; b; cc; d; e] =>
      let i := Z.of_nat i in
      let '(f, k) :=
        if i <? 20 then (Z.lor (Z.land b cc) (Z.land (not32 b) d), 0x5a827999)
        else if i <? 40 then (Z.lxor (Z.lxor b cc) d, 0x6ed9eba1)
        else if i <? 60 then (Z.lor (Z.lor (Z.land b cc) (Z.land b d)) (Z.land cc d), 0x8f1bbcdc)
        else (Z.lxor (Z.lxor b cc) d, 0xca62c1d6) in
      let t := u32 (Z.lor (u32 (Z.shiftl a 5)) (Z.shiftr a 27) + f + e + k + bget w i) in
      [t; a; Z.lor (u32 (Z.shiftl b 30)) (Z.shiftr b 2); cc; d]
  | _ => st
  end.
Definition sha1_block (h p : list Z) : list Z :=
  let w := schedule sha1_next 64 (words be_word p) in
  add_words h (foldl (sha1_round w) h (seq 0 80)).
Definition sha1_iv : list Z := [0x67452301; 0xefcdab89; 0x98badcfe; 0x10325476; 0xc3d2e1f0].
Definition sha1 (p : list Z) : list Z :=
  concat (map be_bytes (digest sha1_block (fun bits i => u8 (Z.shiftr bits (56 - Z.of_nat i * 8))) sha1_iv p)).

(** ** CRC-32 *)

Definition crc32_bit (crc : Z) : Z := Z.lxor (Z.shiftr crc 1) (Z.land 0xedb88320 (u32 (- Z.land crc 1))).
Definition crc32_bytes (p : list Z) : Z := Z.lxor (foldl (fun crc b => Nat.iter 8 crc32_bit (Z.lxor crc b)) 0xffffffff p) 0xffffffff.
