(* ===== verification/CryptoFn.v ===== *)
(** * The SQL functions of the crypto extension

    The accessors of arguments and results (src/src/api/tdb_api.c) and the
    functions of src/src/ext/tdb_crypto.c.  A function is called with the
    context of the call and its arguments, whose number the registration
    fixes; the argument values are temporaries of the call.  Lengths are
    [int]s, as the code computes them.  The calls of OpenSSL are parameters. *)
From S2P Require Import Prelude Util Buf Value Record Cnum CnumSpec ValueText Crypto.

(** ** Arguments and results *)

Inductive tdb_datatype := TDB_INTEGER | TDB_FLOAT | TDB_TEXT | TDB_BLOB | TDB_NULL.
Definition tdb_value_type (v : tdb_value) : tdb_datatype :=
  match v with VInt _ => TDB_INTEGER | VReal _ => TDB_FLOAT | VText _ => TDB_TEXT | VBlob _ | VComposite _ => TDB_BLOB | VNull => TDB_NULL end.
Definition tdb_value_int64 (v : tdb_value) : Z := tdb_value_as_int v.
Definition tdb_value_blob (v : tdb_value) : cstring := match v with VBlob s | VText s => Some s | _ => None end.
Definition tdb_value_bytes (v : tdb_value) : Z := match v with VBlob s | VText s => blen s | _ => 0 end.

(** The result of a call: the value, and the message of an error. *)
Record tdb_context := mk_context { cx_out : tdb_value; cx_error : cstring }.
Definition tdb_result_int64 (c : tdb_context) (v : Z) : tdb_context := mk_context (tdb_value_set_int (cx_out c) v) (cx_error c).
Definition tdb_result_null (c : tdb_context) : tdb_context := mk_context (tdb_value_set_null (cx_out c)) (cx_error c).
(** The message is cut to the 255 bytes of the field. *)
Definition tdb_result_error (c : tdb_context) (m : list Z) : tdb_context := mk_context (cx_out c) (Some (bsub (cstr m) 0 255)).

Section Functions.
Context (alloc_ok : Z -> bool) (junk : sha256_ctx).

(** A negative length is [strlen] as an [int], and no byte when that is negative too. *)
Definition tdb_result_text (c : tdb_context) (v : list Z) (n : Z) : tdb_context :=
  mk_context (tdb_value_set_text alloc_ok v (if n <? 0 then Z.max 0 (s32 (strlen v)) else n) true).2 (cx_error c).
Definition tdb_result_blob (c : tdb_context) (v : list Z) (n : Z) : tdb_context := mk_context (tdb_value_set_blob alloc_ok v n true).2 (cx_error c).
Definition tdb_value_text (v : tdb_value) : cstring := (tdb_value_as_text alloc_ok v).2.

Definition arg_bytes (v : tdb_value) : list Z :=
  match tdb_value_type v with
  | TDB_BLOB => bsub (default [] (tdb_value_blob v)) 0 (tdb_value_bytes v)
  | _ => match tdb_value_text v with Some s => cstr s | None => [] end
  end.

(** ** Hexadecimal *)

Definition hexd : list Z := str "0123456789abcdef".
Definition hex_byte (b : Z) : list Z := [bget hexd (Z.land (Z.shiftr b 4) 15); bget hexd (Z.land b 15)].
Definition oom (c : tdb_context) : tdb_context := tdb_result_error c (str "out of memory").
(** The length is an [int]: from 2^30 bytes on it wraps, the array of 129 bytes
    on the stack is taken and overrun, which is the result [None]. *)
Definition result_hex (c : tdb_context) (p : list Z) : option tdb_context :=
  let n := blen p in
  if s32 (n * 2 + 1) <=? 129 then
    if n * 2 + 1 <=? 129 then Some (tdb_result_text c (concat (map hex_byte p)) (s32 (n * 2))) else None
  else if alloc_ok (n * 2 + 1) then Some (tdb_result_text c (concat (map hex_byte p)) (s32 (n * 2)))
  else Some (oom c).
Definition hexval (c : Z) : Z :=
  if (48 <=? c) && (c <=? 57) then c - 48 else if (97 <=? c) && (c <=? 102) then c - 97 + 10 else if (65 <=? c) && (c <=? 70) then c - 65 + 10 else -1.
Fixpoint unhex_loop (s : list Z) : option (list Z) :=
  match s with
  | h :: l :: s =>
      let hi := hexval h in
      let lo := hexval l in
      if (hi <? 0) || (lo <? 0) then None else t ← unhex_loop s; Some (u8 (Z.lor (Z.shiftl hi 4) lo) :: t)
  | _ => Some []
  end.
Definition fn_hex (c : tdb_context) (a : tdb_value) : option tdb_context := result_hex c (arg_bytes a).
Definition fn_unhex (c : tdb_context) (a : tdb_value) : tdb_context :=
  match tdb_value_text a with
  | None => tdb_result_null c
  | Some s =>
      let s := cstr s in
      let len := blen s in
      if negb (len mod 2 =? 0) then tdb_result_error c (str "unhex: odd-length string")
      else if negb (alloc_ok (len / 2 + 1)) then oom c
      else
        match unhex_loop s with
        | None => tdb_result_error c (str "unhex: invalid hex digit")
        | Some out => tdb_result_blob c out (s32 (len / 2))
        end
  end.

(** ** Hashes *)

Definition fn_sha1 (c : tdb_context) (a : tdb_value) : option tdb_context := result_hex c (sha1 (arg_bytes a)).
Definition fn_sha256 (c : tdb_context) (a : tdb_value) : option tdb_context := result_hex c (sha256 junk (arg_bytes a)).
Definition fn_md5 (c : tdb_context) (a : tdb_value) : option tdb_context := result_hex c (md5 (arg_bytes a)).
Definition fn_hmac_sha256 (c : tdb_context) (k m : tdb_value) : option tdb_context := result_hex c (hmac_sha256 junk (arg_bytes k) (arg_bytes m)).
Definition fn_crc32 (c : tdb_context) (a : tdb_value) : tdb_context := tdb_result_int64 c (crc32_bytes (arg_bytes a)).

(** ** Base64 *)

Definition k_b64 : list Z := str "ABCDEFGHIJKLMNOPQRSTUVWXYZabcdefghijklmnopqrstuvwxyz0123456789+/".
Definition b64val (c : Z) : Z :=
  if (65 <=? c) && (c <=? 90) then c - 65
  else if (97 <=? c) && (c <=? 122) then c - 97 + 26
  else if (48 <=? c) && (c <=? 57) then c - 48 + 52
  else if c =? 43 then 62 else if c =? 47 then 63 else -1.
Definition b64_digit (v s : Z) : Z := bget k_b64 (Z.land (Z.shiftr v s) 63).
Fixpoint b64_encode (p : list Z) : list Z :=
  match p with
  | a :: b :: d :: p =>
      let v := Z.lor (Z.lor (Z.shiftl a 16) (Z.shiftl b 8)) d in
      b64_digit v 18 :: b64_digit v 12 :: b64_digit v 6 :: b64_digit v 0 :: b64_encode p
  | [a; b] =>
      let v := Z.lor (Z.shiftl a 16) (Z.shiftl b 8) in
      [b64_digit v 18; b64_digit v 12; b64_digit v 6; 61]
  | [a] =>
      let v := Z.shiftl a 16 in
      [b64_digit v 18; b64_digit v 12; 61; 61]
  | [] => []
  end.
Definition fn_base64_encode (c : tdb_context) (a : tdb_value) : tdb_context :=
  let p := arg_bytes a in
  let olen := u64 (u64 (Z.quot (s32 (blen p + 2)) 3) * 4) in
  if negb (alloc_ok (u64 (olen + 1))) then oom c else let out := b64_encode p in tdb_result_text c out (s32 (blen out)).
Fixpoint b64_decode (s : list Z) (v bits : Z) : option (list Z) :=
  match s with
  | [] => Some []
  | c :: s =>
      if (c =? 61) || (c =? 10) || (c =? 13) || (c =? 32) then b64_decode s v bits
      else
        let d := b64val c in
        if d <? 0 then None
        else
          let v := Z.lor (u32 (Z.shiftl v 6)) d in
          let bits := bits + 6 in
          if 8 <=? bits then t ← b64_decode s v (bits - 8); Some (Z.land (Z.shiftr v (bits - 8)) 255 :: t) else b64_decode s v bits
  end.
Definition fn_base64_decode (c : tdb_context) (a : tdb_value) : tdb_context :=
  match tdb_value_text a with
  | None => tdb_result_null c
  | Some s =>
      let s := cstr s in
      if negb (alloc_ok (blen s + 1)) then oom c
      else
        match b64_decode s 0 0 with
        | None => tdb_result_error c (str "base64: invalid character")
        | Some out => tdb_result_blob c out (s32 (blen out))
        end
  end.

(** ** Random bytes *)

(** [xorshift64*]; the state is static and seeded once from the clock. *)
Definition xorshift (st : Z) : Z :=
  let st := Z.lxor st (Z.shiftr st 12) in
  let st := Z.lxor st (u64 (Z.shiftl st 25)) in
  Z.lxor st (Z.shiftr st 27).
Fixpoint xorshift_bytes (n : nat) (st : Z) : list Z * Z :=
  match n with
  | O => ([], st)
  | S n =>
      let st := xorshift st in
      let '(l, st') := xorshift_bytes n st in
      (u8 (Z.shiftr (u64 (st * 0x2545f4914f6cdd1d)) 56) :: l, st')
  end.
(** [RAND_bytes]: the call of a build with OpenSSL, [None] in the others. *)
Definition fn_randomblob (RAND_bytes : option (Z -> option (list Z))) (time : Z) (c : tdb_context) (a : tdb_value) (st : Z) : tdb_context * Z :=
  let n := tdb_value_int64 a in
  if (n <=? 0) || (2 ^ 24 <? n) then (tdb_result_error c (str "randomblob: bad length"), st)
  else if negb (alloc_ok n) then (oom c, st)
  else
    match RAND_bytes with
    | Some rand =>
        match rand n with
        | Some out => (tdb_result_blob c out n, st)
        | None => (tdb_result_error c (str "RAND_bytes failed"), st)
        end
    | None =>
        let st := if st =? 0 then Z.lxor (u64 time) 0x9e3779b97f4a7c15 else st in
        let '(out, st) := xorshift_bytes (Z.to_nat n) st in
        (tdb_result_blob c out n, st)
    end.

(** ** Ciphers *)

Section OpenSSL.
(** [EVP_CIPHER_CTX_new] succeeds; AES-256-CBC in both directions; a digest;
    AES-256-GCM with a 12-byte nonce: ciphertext and tag, and back; the random
    bytes; PBKDF2.  [None] is a failing call. *)
Context (cipher_new : bool) (evp_cbc : bool -> list Z -> list Z -> list Z -> option (list Z)).
Context (gcm_seal : list Z -> list Z -> list Z -> option (list Z * list Z)) (gcm_open : list Z -> list Z -> list Z -> list Z -> option (list Z)).
Context (rand_bytes : Z -> option (list Z)) (evp_pbkdf2 : list Z -> list Z -> Z -> Z -> option (list Z)).

Definition aes_keyiv (kv : tdb_value) : list Z * list Z :=
  let key := sha256 junk (arg_bytes kv) in
  (key, bsub (sha256 junk (bsub key 0 32 ++ [1])) 0 16).
Definition fn_aes (enc : bool) (c : tdb_context) (data kv : tdb_value) : tdb_context :=
  let p := arg_bytes data in
  let '(key, iv) := aes_keyiv kv in
  if negb cipher_new then tdb_result_error c (str "EVP_CIPHER_CTX_new failed")
  else
    match (if alloc_ok (blen p + 32) then evp_cbc enc key iv p else None) with
    | Some out => tdb_result_blob c out (s32 (blen out))
    | None => tdb_result_error c (if enc then str "aes_encrypt failed" else str "aes_decrypt failed")
    end.
Definition fn_aes_encrypt := fn_aes true.
Definition fn_aes_decrypt := fn_aes false.
Definition fn_sha_evp (evp_digest : list Z -> option (list Z)) (dlen : Z) (c : tdb_context) (a : tdb_value) : option tdb_context :=
  match evp_digest (arg_bytes a) with
  | Some d => result_hex c (bsub d 0 (if blen d <? dlen then blen d else dlen))
  | None => Some (tdb_result_error c (str "EVP digest failed"))
  end.
Definition fn_sha512 (evp_sha512 : list Z -> option (list Z)) := fn_sha_evp evp_sha512 64.
Definition fn_sha384 (evp_sha384 : list Z -> option (list Z)) := fn_sha_evp evp_sha384 48.
Definition fn_aes_gcm_encrypt (c : tdb_context) (data kv : tdb_value) : tdb_context :=
  let p := arg_bytes data in
  let key := sha256 junk (arg_bytes kv) in
  match rand_bytes 12 with
  | None => tdb_result_error c (str "RAND_bytes failed")
  | Some iv =>
      match (if cipher_new && alloc_ok (blen p + 12 + 16) then gcm_seal key iv p else None) with
      | Some (ct, tag) => tdb_result_blob c (iv ++ ct ++ tag) (s32 (12 + blen ct + 16))
      | None => tdb_result_error c (str "aes_gcm_encrypt failed")
      end
  end.
Definition fn_aes_gcm_decrypt (c : tdb_context) (data kv : tdb_value) : tdb_context :=
  let d := arg_bytes data in
  let dn := blen d in
  if dn <? 12 + 16 then tdb_result_error c (str "aes_gcm_decrypt: input too short")
  else
    let key := sha256 junk (arg_bytes kv) in
    let ctlen := dn - 12 - 16 in
    match (if cipher_new && alloc_ok (ctlen + 16) then gcm_open key (bsub d 0 12) (bsub d 12 ctlen) (bsub d (12 + ctlen) 16) else None) with
    | Some out => tdb_result_blob c out (s32 (blen out))
    | None => tdb_result_null c
    end.
Definition fn_pbkdf2 (c : tdb_context) (pw salt iters dklen : tdb_value) : tdb_context :=
  let p := match tdb_value_text pw with Some p => cstr p | None => [] end in
  let s := arg_bytes salt in
  let it := tdb_value_int64 iters in
  let dk := tdb_value_int64 dklen in
  if (it <=? 0) || (10000000 <? it) || (dk <=? 0) || (4096 <? dk) then tdb_result_error c (str "pbkdf2: bad iters/dklen")
  else if negb (alloc_ok dk) then oom c
  else
    match evp_pbkdf2 p s it dk with
    | Some out => tdb_result_blob c out dk
    | None => tdb_result_error c (str "PKCS5_PBKDF2_HMAC failed")
    end.
End OpenSSL.
End Functions.
