(* ===== verification/CryptoSpec.v ===== *)
(** * Hash functions and encodings: properties *)
From S2P Require Import Prelude Util Buf Value Record Cnum CnumSpec ValueText Crypto CryptoFn.

(** ** Iterated compression *)

(** The message, the mark, zeros and the length of the message in bits make
    whole blocks of 64 bytes. *)
Definition padded (len_byte : Z -> nat -> Z) (m : list Z) : list Z :=
  m ++ 0x80 :: bzero ((55 - blen m) mod 64) ++ map (len_byte (u64 (blen m * 8))) (seq 0 8).
Definition be_len (bits : Z) (i : nat) : Z := u8 (Z.shiftr bits (56 - Z.of_nat i * 8)).
Definition le_len (bits : Z) (i : nat) : Z := u8 (Z.shiftr bits (Z.of_nat i * 8)).
(** The blocks of a text. *)
Definition is_blocks (bs : list (list Z)) (l : list Z) : Prop := Forall (fun b => blen b = 64) bs /\ concat bs = l.

Lemma blocks_app block j k h a b : blen a = 64 * Z.of_nat j -> blocks block (j + k) h (a ++ b) = blocks block k (blocks block j h a) b.
Proof.
  revert h a. induction j as [|j IH]; intros h a Ha.
  { destruct a as [|x a]; [done|rewrite blen_cons in Ha; pose proof (blen_nonneg a); lia]. }
  cbn [Nat.add blocks]. rewrite bsub_app_l by lia. rewrite <- (IH _ (bfrom a 64)) by (rewrite blen_bfrom; lia).
  assert (bfrom (a ++ b) 64 = bfrom a 64 ++ b) as ->; [|done]. unfold bfrom. apply drop_app_le. unfold blen in Ha. lia.
Qed.
Lemma blocks_foldl block bs h l : is_blocks bs l -> blocks block (length bs) h l = foldl block h bs.
Proof.
  intros [H <-]. revert h. induction H as [|b bs Hb Hbs IH]; intros h; [done|]. cbn [length concat blocks foldl].
  rewrite (bsub_app_l b) by lia. rewrite bsub_all by lia. rewrite bfrom_app by lia. apply IH.
Qed.
Lemma is_blocks_exists n l : blen l = 64 * Z.of_nat n -> exists bs, is_blocks bs l /\ length bs = n.
Proof.
  revert l. induction n as [|n IH]; intros l Hl.
  { exists []. destruct l; [done|]. rewrite blen_cons in Hl. pose proof (blen_nonneg l). lia. }
  destruct (IH (bfrom l 64)) as (bs & [B1 B2] & B3); [rewrite blen_bfrom; lia|]. exists (bsub l 0 64 :: bs). split; [|simpl; lia].
  split; [constructor; [rewrite blen_bsub; lia|done]|]. cbn [concat]. rewrite B2. unfold bsub, bfrom. apply take_drop.
Qed.
Lemma blen_padded lb m : exists k, blen (padded lb m) = 64 * k /\ 0 < k.
Proof.
  unfold padded. pose proof (Z.mod_pos_bound (55 - blen m) 64 ltac:(lia)). pose proof (blen_nonneg m).
  rewrite blen_app, blen_cons, blen_app, blen_bzero by lia. change (blen (map (lb (u64 (blen m * 8))) (seq 0 8))) with 8.
  exists (blen m / 64 + (if blen m mod 64 <=? 55 then 1 else 2)). destruct (Z.leb_spec (blen m mod 64) 55); div_lia.
Qed.

(** The functions that process the message at once. *)
Lemma digest_blocks block lb h0 p : digest block lb h0 p = blocks block (Z.to_nat (blen (padded lb p) / 64)) h0 (padded lb p).
Proof.
  unfold digest. set (full := blen p / 64). pose proof (blen_nonneg p). assert (0 <= full /\ full * 64 <= blen p < full * 64 + 64) as [Hf Hb] by (unfold full; div_lia).
  assert (p = bsub p 0 (full * 64) ++ bfrom p (full * 64)) as Ep by (symmetry; apply take_drop).
  set (rest := bfrom p (full * 64)) in *. assert (blen rest = blen p - full * 64) as Er by (unfold rest; rewrite blen_bfrom; lia).
  set (r := blen (rest ++ [0x80])). assert (r = blen rest + 1) as Hr by (unfold r; rewrite blen_app; done).
  assert ((if r <=? 56 then 56 else 120) - r = (55 - blen p) mod 64) as -> by (destruct (Z.leb_spec r 56); [rewrite <- (Z.mod_unique (55 - blen p) 64 (- full) (56 - r)); lia|rewrite <- (Z.mod_unique (55 - blen p) 64 (- full - 1) (120 - r)); lia]).
  set (tail := ((rest ++ [0x80]) ++ bzero _) ++ _). assert (padded lb p = bsub p 0 (full * 64) ++ tail) as Et.
  { unfold padded, tail. rewrite Ep at 1. by rewrite <- !app_assoc. }
  assert (blen (bsub p 0 (full * 64)) = 64 * full) as Hpre by (rewrite blen_bsub; lia).
  destruct (blen_padded lb p) as (k & Hk & _). rewrite Et, blen_app, Hpre in Hk |- *. pose proof (blen_nonneg tail).
  replace (Z.to_nat ((64 * full + blen tail) / 64)) with (Z.to_nat full + Z.to_nat (blen tail / 64))%nat by div_lia.
  rewrite blocks_app by lia. f_equal. rewrite Ep at 1. rewrite <- (Nat.add_0_r (Z.to_nat full)) at 1. by rewrite blocks_app by lia.
Qed.
Lemma digest_iterates block lb h0 p : exists bs, is_blocks bs (padded lb p) /\ digest block lb h0 p = foldl block h0 bs.
Proof.
  destruct (blen_padded lb p) as (k & Hk & Hp). destruct (is_blocks_exists (Z.to_nat k) (padded lb p)) as (bs & Hbs & Hl); [lia|].
  exists bs. split; [done|]. rewrite digest_blocks. replace (Z.to_nat (blen (padded lb p) / 64)) with (length bs) by div_lia. by apply blocks_foldl.
Qed.

(** ** The streaming context *)

(** The context has taken in the bytes [m]: the whole blocks are compressed,
    the rest is in the buffer. *)
Definition absorbed (c : sha256_ctx) (m : list Z) : Prop :=
  let q := blen m / 64 in
  blen (sc_buf c) = 64 /\ sc_n c = blen m mod 64
  /\ sc_h c = blocks sha256_compress (Z.to_nat q) sha256_iv m /\ bsub (sc_buf c) 0 (sc_n c) = bfrom m (q * 64).
Lemma absorbed_init c : blen (sc_buf c) = 64 -> absorbed (sha256_init c) [].
Proof. intros H. by split. Qed.
(** One round of the loop: a piece that fits the buffer. *)
Definition absorb (c : sha256_ctx) (q : list Z) : sha256_ctx :=
  let c := mk_sha256 (sc_h c) (sc_len c) (bput (sc_buf c) (sc_n c) q) (sc_n c + blen q) in
  if sc_n c =? 64 then let c := sha256_block c (sc_buf c) in mk_sha256 (sc_h c) (sc_len c) (sc_buf c) 0 else c.
Lemma absorb_spec c m q : absorbed c m -> blen q <= 64 - sc_n c -> absorbed (absorb c q) (m ++ q) /\ sc_len (absorb c q) = sc_len c.
Proof.
  intros (Hb & Hn & Hh & Hr) Hq. pose proof (blen_nonneg q). pose proof (blen_nonneg m). set (k := blen m / 64) in *.
  assert (blen m = k * 64 + sc_n c /\ 0 <= sc_n c < 64 /\ 0 <= k) as (Em & Hn2 & Hk) by (unfold k; rewrite Hn; div_lia).
  assert (bput (sc_buf c) (sc_n c) q = bfrom m (k * 64) ++ q ++ bfrom (sc_buf c) (sc_n c + blen q)) as Ebuf.
  { unfold bput. rewrite <- Hr. unfold bsub, bfrom. rewrite drop_0. unfold blen. do 3 f_equal. lia. }
  assert (blen (bfrom m (k * 64)) = sc_n c) as Hrest by (rewrite blen_bfrom; lia).
  assert (m = bsub m 0 (k * 64) ++ bfrom m (k * 64)) as Ed by (symmetry; apply take_drop). assert (blen (bsub m 0 (k * 64)) = 64 * k) as Hpre by (rewrite blen_bsub; lia).
  unfold absorb. cbn [sc_n sc_h sc_len sc_buf sha256_block]. destruct (Z.eqb_spec (sc_n c + blen q) 64) as [E|E].
  - split; [|done]. unfold absorbed. cbv zeta. cbn [sc_n sc_h sc_len sc_buf]. rewrite blen_app. replace ((blen m + blen q) / 64) with (k + 1) by (rewrite Em; div_lia).
    assert (bput (sc_buf c) (sc_n c) q = bfrom m (k * 64) ++ q) as Efull.
    { rewrite Ebuf. f_equal. unfold bfrom at 1. rewrite drop_ge by (unfold blen in *; lia). apply app_nil_r. }
    split; [rewrite blen_bput; lia|]. split; [rewrite Em; div_lia|]. split.
    + rewrite Efull, Hh. rewrite Z2Nat.inj_add by lia. change (Z.to_nat 1) with 1%nat. rewrite Ed at 3. rewrite <- app_assoc, blocks_app by lia. cbn [blocks].
      rewrite (bsub_all (bfrom m (k * 64) ++ q)) by (rewrite blen_app; lia). f_equal. rewrite Ed at 1. rewrite <- (Nat.add_0_r (Z.to_nat k)) at 1. by rewrite blocks_app by lia.
    + unfold bfrom. rewrite drop_ge; [done|]. rewrite length_app. unfold blen in *. lia.
  - split; [|done]. unfold absorbed. cbv zeta. cbn [sc_n sc_h sc_len sc_buf]. rewrite blen_app. replace ((blen m + blen q) / 64) with k by (rewrite Em; div_lia).
    split; [rewrite blen_bput; lia|]. split; [rewrite Em; div_lia|]. split.
    + rewrite Hh. rewrite Ed at 2. rewrite <- app_assoc. rewrite Ed at 1. rewrite <- (Nat.add_0_r (Z.to_nat k)). by rewrite !blocks_app by lia.
    + rewrite Ebuf. rewrite app_assoc, bsub_app_l by (rewrite ?blen_app; lia). rewrite bsub_all by (rewrite blen_app; lia).
      unfold bfrom. rewrite drop_app_le; [done|]. unfold blen in *. lia.
Qed.
Lemma update_loop_spec fuel c m p : absorbed c m -> (length p <= fuel)%nat ->
  absorbed (update_loop fuel c p) (m ++ p) /\ sc_len (update_loop fuel c p) = sc_len c.
Proof.
  revert c m p. induction fuel as [|fuel IH]; intros c m p H Hf.
  { destruct p; [|simpl in Hf; lia]. by rewrite app_nil_r. }
  destruct p as [|x p']; [by rewrite app_nil_r|]. set (p := x :: p') in *. cbn [update_loop]. set (t := Z.min (64 - sc_n c) (blen p)).
  assert (0 <= sc_n c < 64) as Hn by (destruct H as (_ & -> & _); div_lia). assert (1 <= blen p) as Hp by (unfold p; rewrite blen_cons; pose proof (blen_nonneg p'); lia).
  assert (blen (bsub p 0 t) = t) as Ht by (rewrite blen_bsub; lia).
  destruct (absorb_spec c m (bsub p 0 t) H ltac:(lia)) as [A1 A2]. unfold absorb in A1, A2. rewrite Ht in A1, A2.
  destruct (IH _ _ (bfrom p t) A1) as [B1 B2].
  { unfold bfrom. rewrite length_drop. assert (1 <= t) by lia. unfold blen in *. lia. }
  rewrite <- app_assoc in B1. assert (bsub p 0 t ++ bfrom p t = p) as Ep by apply take_drop. rewrite Ep in B1. split; [exact B1|exact (eq_trans B2 A2)].
Qed.
Lemma update_spec c m p : absorbed c m -> sc_len c = u64 (blen m) -> absorbed (sha256_update c p) (m ++ p) /\ sc_len (sha256_update c p) = u64 (blen (m ++ p)).
Proof.
  intros H Hl. unfold sha256_update. destruct (update_loop_spec (length p) (mk_sha256 (sc_h c) (u64 (sc_len c + blen p)) (sc_buf c) (sc_n c)) m p) as [A B]; [done|done|].
  split; [done|]. rewrite B. cbn [sc_len]. rewrite Hl, blen_app. unfold_casts. apply Zplus_mod_idemp_l.
Qed.
Lemma pad_loop_spec fuel c m : absorbed c m -> (56 - blen m) mod 64 <= Z.of_nat fuel -> sc_len c = u64 (blen m) -> absorbed (pad_loop fuel c) (m ++ bzero ((56 - blen m) mod 64)).
Proof.
  revert c m. induction fuel as [|fuel IH]; intros c m H Hf Hl; cbn [pad_loop]; destruct (Z.eqb_spec (sc_n c) 56) as [E|E]; pose proof H as (_ & Hn & _).
  1, 3: rewrite E in Hn; replace ((56 - blen m) mod 64) with 0 by div_lia; by rewrite app_nil_r.
  - exfalso. div_lia.
  - destruct (update_spec c m [0] H Hl) as [A1 A2]. assert ((56 - blen (m ++ [0])) mod 64 = (56 - blen m) mod 64 - 1) as Em by (rewrite blen_app; change (blen [0]) with 1; div_lia).
    specialize (IH _ _ A1). rewrite Em in IH. specialize (IH ltac:(lia) A2). rewrite <- app_assoc in IH.
    replace (bzero ((56 - blen m) mod 64)) with ([0] ++ bzero ((56 - blen m) mod 64 - 1)); [exact IH|]. unfold bzero.
    assert (0 < (56 - blen m) mod 64) by div_lia. replace (Z.to_nat ((56 - blen m) mod 64)) with (S (Z.to_nat ((56 - blen m) mod 64 - 1))) by lia. done.
Qed.
(** The digest as a fold of the compression over the padded message. *)
Definition sha256_spec (m : list Z) : list Z := concat (map be_bytes (blocks sha256_compress (Z.to_nat (blen (padded be_len m) / 64)) sha256_iv (padded be_len m))).
Lemma final_spec c m : absorbed c m -> sc_len c = u64 (blen m) -> sha256_final c = sha256_spec m.
Proof.
  intros H Hl. unfold sha256_final, sha256_spec. do 2 f_equal. destruct (update_spec c m [0x80] H Hl) as [A1 A2].
  pose proof (pad_loop_spec 64 _ _ A1) as A3. assert ((56 - blen (m ++ [128])) mod 64 = (55 - blen m) mod 64) as Em by (rewrite blen_app; change (blen [128]) with 1; div_lia).
  rewrite Em in A3. specialize (A3 ltac:(change (Z.of_nat 64) with 64; div_lia) A2).
  set (c2 := pad_loop 64 _) in *. set (lb := map _ (seq 0 8)).
  assert (lb = map (be_len (u64 (blen m * 8))) (seq 0 8)) as Elb.
  { unfold lb. rewrite Hl. replace (u64 (u64 (blen m) * 8)) with (u64 (blen m * 8)); [done|]. unfold_casts. by rewrite Zmult_mod_idemp_l. }
  destruct (update_loop_spec (length lb) (mk_sha256 (sc_h c2) (u64 (sc_len c2 + blen lb)) (sc_buf c2) (sc_n c2)) _ lb A3) as [(_ & _ & Hh & _) _]; [done|].
  unfold sha256_update. rewrite Hh. rewrite Elb. by rewrite <- !app_assoc.
Qed.
Lemma sha256_is_spec junk m : blen (sc_buf junk) = 64 -> sha256 junk m = sha256_spec m.
Proof. intros H. unfold sha256. destruct (update_spec (sha256_init junk) [] m (absorbed_init junk H)) as [A1 A2]; [done|]. by apply final_spec. Qed.
Lemma sha256_spec_iterates m : exists bs, is_blocks bs (padded be_len m) /\ sha256_spec m = concat (map be_bytes (foldl sha256_compress sha256_iv bs)).
Proof. destruct (digest_iterates sha256_compress be_len sha256_iv m) as (bs & H & E). exists bs. split; [done|]. unfold sha256_spec. by rewrite <- digest_blocks, E. Qed.
Lemma updates_absorbed ms c m : absorbed c m -> sc_len c = u64 (blen m) ->
  absorbed (foldl sha256_update c ms) (m ++ concat ms) /\ sc_len (foldl sha256_update c ms) = u64 (blen (m ++ concat ms)).
Proof.
  revert c m. induction ms as [|p ms IH]; intros c m H Hl; [by rewrite app_nil_r|]. destruct (update_spec c m p H Hl) as [A1 A2].
  cbn [foldl concat]. rewrite app_assoc. by apply IH.
Qed.

(** ** Hexadecimal and base64 *)

(** A property of all bytes, by evaluation. *)
Lemma all_bytes (P : Z -> bool) : forallb (fun k => P (Z.of_nat k)) (seq 0 256) = true -> forall b, is_byte b -> P b = true.
Proof.
  intros H b Hb. rewrite forallb_forall in H. unfold is_byte in Hb. specialize (H (Z.to_nat b)). rewrite Z2Nat.id in H by lia. apply H. apply in_seq. lia.
Qed.
Definition hex_ok (b : Z) : bool :=
  match hex_byte b with
  | [h; l] => (0 <? h) && (h <? 256) && (0 <? l) && (l <? 256) && negb ((hexval h <? 0) || (hexval l <? 0)) && (u8 (Z.lor (Z.shiftl (hexval h) 4) (hexval l)) =? b)
  | _ => false
  end.
Lemma unhex_hex p : bytes_ok p -> unhex_loop (concat (map hex_byte p)) = Some p /\ nul_free (concat (map hex_byte p)) /\ blen (concat (map hex_byte p)) = 2 * blen p.
Proof.
  induction 1 as [|b p Hb Hp (IH1 & IH2 & IH3)]; [split; [done|]; split; [constructor|done]|].
  pose proof (all_bytes hex_ok eq_refl b Hb) as Hok. unfold hex_ok, hex_byte in Hok. cbn [map concat hex_byte app unhex_loop].
  set (h := bget hexd (Z.land (Z.shiftr b 4) 15)) in *. set (l := bget hexd (Z.land b 15)) in *. clearbody h l.
  destruct ((hexval h <? 0) || (hexval l <? 0)) eqn:E; [lia|]. rewrite IH1. cbn [mbind option_bind]. split; [do 2 f_equal; lia|].
  split; [constructor; [lia|]; constructor; [lia|done]|]. rewrite !blen_cons, IH3. lia.
Qed.

(** Base64 digits: 64 values. *)
Definition b64_ok (d : Z) : bool :=
  let c := bget k_b64 d in
  (0 <? c) && (c <? 256) && negb ((c =? 61) || (c =? 10) || (c =? 13) || (c =? 32)) && (b64val c =? d).
Lemma b64_digit_ok v s : 0 <= s -> let d := Z.shiftr v s mod 64 in
  b64_digit v s = bget k_b64 d /\ 0 <= d < 64 /\ b64_ok d = true.
Proof.
  intros Hs. cbv zeta. unfold b64_digit. change 63 with (Z.ones 6). rewrite Z.land_ones by lia. change (2 ^ 6) with 64. set (d := Z.shiftr v s mod 64).
  assert (0 <= d < 64) as Hd by (unfold d; apply Z.mod_pos_bound; lia). split; [done|]. split; [done|].
  assert (forallb (fun k => b64_ok (Z.of_nat k)) (seq 0 64) = true) as H by reflexivity. rewrite forallb_forall in H. specialize (H (Z.to_nat d)). rewrite Z2Nat.id in H by lia. apply H, in_seq. lia.
Qed.
(** One digit is read: [d] joins the bits on the right. *)
Lemma b64_decode_digit d s v bits : 0 <= d < 64 -> b64_ok d = true ->
  b64_decode (bget k_b64 d :: s) v bits =
  let v := Z.lor (u32 (Z.shiftl v 6)) d in
  if 8 <=? bits + 6 then t ← b64_decode s v (bits + 6 - 8); Some (Z.land (Z.shiftr v (bits + 6 - 8)) 255 :: t) else b64_decode s v (bits + 6).
Proof.
  intros Hd Hok. unfold b64_ok in Hok. cbn [b64_decode]. set (c := bget k_b64 d) in *. clearbody c.
  destruct ((c =? 61) || (c =? 10) || (c =? 13) || (c =? 32)) eqn:E; [lia|]. assert (b64val c = d) as -> by lia. destruct (Z.ltb_spec d 0); [lia|done].
Qed.

(** The bits taken in: the low ones are those of the last digits. *)
Lemma b64_push v d : 0 <= d < 64 -> let w := Z.lor (u32 (Z.shiftl v 6)) d in w mod 64 = d /\ w / 64 mod 64 = v mod 64 /\ w / 4096 mod 64 = v / 64 mod 64.
Proof.
  intros Hd. cbv zeta. rewrite Z.shiftl_mul_pow2 by lia. replace (u32 (v * 2 ^ 6)) with ((v mod 67108864) * 2 ^ 6) by (unfold_casts; div_lia).
  rewrite lor_high_low by lia. change (2 ^ 6) with 64. split; [|split]; div_lia.
Qed.
Lemma land_255_mod x k : 0 <= k -> Z.land (Z.shiftr x k) 255 = x / 2 ^ k mod 256.
Proof. intros. change 255 with (Z.ones 8). by rewrite Z.land_ones, Z.shiftr_div_pow2 by lia. Qed.
Lemma b64_pad s v bits : b64_decode (61 :: s) v bits = b64_decode s v bits.
Proof. done. Qed.
(** The digits of 24 bits give back the three bytes. *)
Lemma b64_four a b d s1 s2 s3 v : is_byte a -> is_byte b -> is_byte d -> let w := Z.lor (Z.lor (Z.shiftl a 16) (Z.shiftl b 8)) d in
  exists v2 v3 v4, b64_decode (b64_digit w 18 :: b64_digit w 12 :: s1) v 0 = (t ← b64_decode s1 v2 4; Some (a :: t))
  /\ b64_decode (b64_digit w 6 :: s2) v2 4 = (t ← b64_decode s2 v3 2; Some (b :: t))
  /\ b64_decode (b64_digit w 0 :: s3) v3 2 = (t ← b64_decode s3 v4 0; Some (d :: t)).
Proof.
  unfold is_byte. intros Ha Hb Hd. cbv zeta. set (w := Z.lor _ _). assert (w = a * 65536 + b * 256 + d) as Ew.
  { unfold w. rewrite !Z.shiftl_mul_pow2 by lia. rewrite (lor_high_low a) by lia. replace (a * 2 ^ 16 + b * 2 ^ 8) with ((a * 256 + b) * 2 ^ 8) by lia. rewrite lor_high_low by lia. lia. }
  destruct (b64_digit_ok w 18 ltac:(lia)) as (-> & R1 & O1). destruct (b64_digit_ok w 12 ltac:(lia)) as (-> & R2 & O2).
  destruct (b64_digit_ok w 6 ltac:(lia)) as (-> & R3 & O3). destruct (b64_digit_ok w 0 ltac:(lia)) as (-> & R4 & O4).
  assert (Z.shiftr w 18 mod 64 = a / 4 /\ Z.shiftr w 12 mod 64 = a mod 4 * 16 + b / 16 /\ Z.shiftr w 6 mod 64 = b mod 16 * 4 + d / 64 /\ Z.shiftr w 0 mod 64 = d mod 64) as (E1 & E2 & E3 & E4).
  { rewrite !Z.shiftr_div_pow2, Ew by lia. change (2 ^ 18) with 262144. change (2 ^ 12) with 4096. change (2 ^ 6) with 64. change (2 ^ 0) with 1. repeat split; div_lia. }
  set (d1 := Z.shiftr w 18 mod 64) in *. set (d2 := Z.shiftr w 12 mod 64) in *. set (d3 := Z.shiftr w 6 mod 64) in *. set (d4 := Z.shiftr w 0 mod 64) in *. clearbody d1 d2 d3 d4. clear w Ew.
  set (v1 := Z.lor (u32 (Z.shiftl v 6)) d1). set (v2 := Z.lor (u32 (Z.shiftl v1 6)) d2). set (v3 := Z.lor (u32 (Z.shiftl v2 6)) d3). set (v4 := Z.lor (u32 (Z.shiftl v3 6)) d4).
  destruct (b64_push v d1 R1) as (P1 & _ & _). destruct (b64_push v1 d2 R2) as (P2 & P2' & _). destruct (b64_push v2 d3 R3) as (P3 & P3' & _). destruct (b64_push v3 d4 R4) as (P4 & P4' & _).
  fold v1 in P1. fold v2 in P2, P2'. fold v3 in P3, P3'. fold v4 in P4, P4'.
  assert (v2 / 16 mod 256 = a /\ v3 / 4 mod 256 = b /\ v4 mod 256 = d) as (A & B & D) by (clearbody v4 v3 v2; repeat split; div_lia).
  exists v2, v3, v4. split; [|split].
  - rewrite b64_decode_digit by done. cbv zeta. fold v1. change (8 <=? 0 + 6) with false. cbn iota. rewrite b64_decode_digit by done. cbv zeta. fold v2.
    change (8 <=? 0 + 6 + 6) with true. cbn iota. change (0 + 6 + 6 - 8) with 4. rewrite land_255_mod by lia. change (2 ^ 4) with 16. by rewrite A.
  - rewrite b64_decode_digit by done. cbv zeta. fold v3. change (8 <=? 4 + 6) with true. cbn iota. change (4 + 6 - 8) with 2. rewrite land_255_mod by lia. change (2 ^ 2) with 4. by rewrite B.
  - rewrite b64_decode_digit by done. cbv zeta. fold v4. change (8 <=? 2 + 6) with true. cbn iota. change (2 + 6 - 8) with 0. rewrite land_255_mod by lia. change (2 ^ 0) with 1. by rewrite Z.div_1_r, D.
Qed.
Lemma b64_digit_char v s : 0 <= s -> 0 < b64_digit v s < 256.
Proof. intros Hs. destruct (b64_digit_ok v s Hs) as (-> & _ & H). unfold b64_ok in H. lia. Qed.
Lemma b64_roundtrip p v : bytes_ok p -> b64_decode (b64_encode p) v 0 = Some p /\ nul_free (b64_encode p).
Proof.
  revert v. remember (length p) as n eqn:Hn. assert (length p <= n)%nat as Hle by lia. clear Hn. revert p Hle.
  induction n as [|n IH]; intros p Hle v Hp; (destruct p as [|a [|b [|d p]]]; [by split; [|constructor]|..]); try (simpl in Hle; lia).
  - apply Forall_cons in Hp as [Ha _]. cbn [b64_encode]. replace (Z.shiftl a 16) with (Z.lor (Z.lor (Z.shiftl a 16) (Z.shiftl 0 8)) 0) by (by rewrite Z.shiftl_0_l, !Z.lor_0_r).
    destruct (b64_four a 0 0 [61; 61] [] [] v Ha ltac:(done) ltac:(done)) as (v2 & v3 & v4 & E1 & _). rewrite E1. split; [done|].
    repeat (constructor; [first [by apply b64_digit_char|lia]|]). constructor.
  - apply Forall_cons in Hp as [Ha Hp]. apply Forall_cons in Hp as [Hb _]. cbn [b64_encode].
    replace (Z.lor (Z.shiftl a 16) (Z.shiftl b 8)) with (Z.lor (Z.lor (Z.shiftl a 16) (Z.shiftl b 8)) 0) by (by rewrite Z.lor_0_r). set (w := Z.lor _ 0).
    destruct (b64_four a b 0 [b64_digit w 6; 61] [61] [] v Ha Hb ltac:(done)) as (v2 & v3 & v4 & E1 & E2 & _). fold w in E1, E2. rewrite E1, E2. split; [done|].
    repeat (constructor; [first [by apply b64_digit_char|lia]|]). constructor.
  - apply Forall_cons in Hp as [Ha Hp]. apply Forall_cons in Hp as [Hb Hp]. apply Forall_cons in Hp as [Hd Hp]. cbn [b64_encode]. set (w := Z.lor _ d).
    destruct (b64_four a b d (b64_digit w 6 :: b64_digit w 0 :: b64_encode p) (b64_digit w 0 :: b64_encode p) (b64_encode p) v Ha Hb Hd) as (v2 & v3 & v4 & E1 & E2 & E3). fold w in E1, E2, E3.
    destruct (IH p ltac:(simpl in Hle; lia) v4 Hp) as [IH1 IH2]. rewrite E1, E2, E3, IH1. split; [done|].
    repeat (constructor; [by apply b64_digit_char|]). done.
Qed.

(** ** HMAC *)

Lemma round_len st kw : length st = 8%nat -> length (sha256_round st kw) = 8%nat.
Proof. intros H. do 8 (destruct st as [|? st]; [discriminate H|]). destruct st; [reflexivity|discriminate H]. Qed.
Lemma rounds_len ws st : length st = 8%nat -> length (foldl sha256_round st ws) = 8%nat.
Proof. revert st. induction ws as [|x ws IH]; intros st H; [exact H|]. cbn [foldl]. apply IH, round_len, H. Qed.
Lemma compress_len h p : length h = 8%nat -> length (sha256_compress h p) = 8%nat.
Proof. intros H. unfold sha256_compress, add_words. rewrite length_map, length_combine, rounds_len, H by exact H. reflexivity. Qed.
Lemma blocks_len n h l : length h = 8%nat -> length (blocks sha256_compress n h l) = 8%nat.
Proof. revert h l. induction n as [|n IH]; intros h l H; [exact H|]. cbn [blocks]. apply IH, compress_len, H. Qed.
Lemma be_bytes_len h : blen (concat (map be_bytes h)) = 4 * Z.of_nat (length h).
Proof. induction h as [|x h IH]; [reflexivity|]. cbn [map concat length]. rewrite blen_app, IH. change (blen (be_bytes x)) with 4. lia. Qed.
Lemma sha256_spec_len m : blen (sha256_spec m) = 32.
Proof. unfold sha256_spec. rewrite be_bytes_len, blocks_len by reflexivity. reflexivity. Qed.
Lemma stream_spec junk ms : blen (sc_buf junk) = 64 ->
  let c := foldl sha256_update (sha256_init junk) ms in sha256_final c = sha256_spec (concat ms) /\ blen (sc_buf c) = 64.
Proof.
  intros H. destruct (updates_absorbed ms (sha256_init junk) []) as [A1 A2]; [by apply absorbed_init|reflexivity|].
  split; [by apply final_spec|]. apply A1.
Qed.
Lemma stream_one junk m : blen (sc_buf junk) = 64 -> sha256_final (foldl sha256_update (sha256_init junk) [m]) = sha256_spec m.
Proof. intros H. destruct (stream_spec junk [m] H) as [E _]. cbn [concat] in E. by rewrite app_nil_r in E. Qed.
Definition key_block (key : list Z) : list Z := let k := if 64 <? blen key then sha256_spec key else key in k ++ bzero (64 - blen k).
Definition key_xor (key : list Z) (x : Z) : list Z := map (fun b => u8 (Z.lxor b x)) (key_block key).
Lemma bput_zero k : blen k <= 64 -> bput (bzero 64) 0 k = k ++ bzero (64 - blen k).
Proof.
  intros Hk. change (bput (bzero 64) 0 k) with (k ++ drop (length k) (replicate 64 0)). rewrite drop_replicate. f_equal. unfold bzero, blen in *. f_equal. lia.
Qed.
Lemma hmac_spec junk key msg : blen (sc_buf junk) = 64 ->
  hmac_sha256 junk key msg = sha256_spec (key_xor key 0x5c ++ sha256_spec (key_xor key 0x36 ++ msg)).
Proof.
  intros H. unfold hmac_sha256. rewrite sha256_is_spec by done.
  assert ((if 64 <? blen key then bput (bzero 64) 0 (sha256_spec key) else bput (bzero 64) 0 key) = key_block key) as ->.
  { unfold key_block. destruct (Z.ltb_spec 64 (blen key)); rewrite bput_zero; [reflexivity|rewrite sha256_spec_len; lia|reflexivity|lia]. }
  cbv zeta. fold (key_xor key 0x36) (key_xor key 0x5c).
  destruct (stream_spec junk [key_xor key 0x36; msg] H) as [E1 E2]. cbn [foldl concat] in E1, E2. rewrite app_nil_r in E1. rewrite E1.
  destruct (stream_spec _ [key_xor key 0x5c; sha256_spec (key_xor key 0x36 ++ msg)] E2) as [E3 _]. cbn [foldl concat] in E3. rewrite app_nil_r in E3. exact E3.
Qed.

(** ** Properties *)

(** C27. SHA-256: whatever the context held before, and however a message is cut
    into the pieces handed to [sha256_update], the digest is the compression
    function folded over the blocks of the padded message (the message, one
    bit, zeros, and its length in 64 bits); HMAC is the construction of
    RFC 2104 over that hash, for keys of any length. *)
Theorem sha256_streaming junk ms key msg :
  blen (sc_buf junk) = 64 ->
  let H (m : list Z) := sha256_final (foldl sha256_update (sha256_init junk) [m]) in
  let K0 := let k := if 64 <? blen key then H key else key in k ++ bzero (64 - blen k) in
  let xor (x : Z) := map (fun b => u8 (Z.lxor b x)) K0 in
  (exists bs, is_blocks bs (padded be_len (concat ms))
     /\ sha256_final (foldl sha256_update (sha256_init junk) ms) = concat (map be_bytes (foldl sha256_compress sha256_iv bs)))
  /\ hmac_sha256 junk key msg = H (xor 0x5c ++ H (xor 0x36 ++ msg)).
Proof.
  intros Hj. cbv zeta beta. rewrite !stream_one by done. split; [|by rewrite hmac_spec].
  destruct (stream_spec junk ms Hj) as [-> _]. apply sha256_spec_iterates.
Qed.
Definition stack_junk : sha256_ctx := mk_sha256 [] 5 (replicate 64 0xaa) 9.
Lemma sha256_streaming_witness :
  exists bs, is_blocks bs (padded be_len (str "abc")) /\ sha256 stack_junk (str "abc") = concat (map be_bytes (foldl sha256_compress sha256_iv bs)).
Proof. exact (proj1 (sha256_streaming stack_junk [str "abc"] [] [] eq_refl)). Defined.

(** The digests of the standards' test messages. *)
Example digests_of_abc :
  foldl (fun a b => a * 256 + b) 0 (sha256 stack_junk (str "abc")) = 0xba7816bf8f01cfea414140de5dae2223b00361a396177a9cb410ff61f20015ad
  /\ foldl (fun a b => a * 256 + b) 0 (sha1 (str "abc")) = 0xa9993e364706816aba3e25717850c26c9cd0d89d
  /\ foldl (fun a b => a * 256 + b) 0 (md5 (str "abc")) = 0x900150983cd24fb0d6963f7d28e17f72
  /\ foldl (fun a b => a * 256 + b) 0 (hmac_sha256 stack_junk (str "key") (str "The quick brown fox jumps over the lazy dog"))
     = 0xf7bc83f430538424b13298e6aa6fb143ef4d59a14946175997479dbc2d1a3cd8
  /\ crc32_bytes (str "123456789") = 0xcbf43926.
Proof. vm_compute. auto. Qed.

(** MD5 and SHA-1: the digest is the compression function folded over the
    blocks of the padded message, with the length in little-endian order for
    MD5 and in big-endian order for SHA-1, although the code compresses the
    whole blocks of the message in place and builds one or two blocks of
    padding on the side. *)
Theorem digests_iterate p :
  (exists bs, is_blocks bs (padded le_len p) /\ md5 p = concat (map le_bytes (foldl md5_block md5_iv bs)))
  /\ (exists bs, is_blocks bs (padded be_len p) /\ sha1 p = concat (map be_bytes (foldl sha1_block sha1_iv bs))).
Proof.
  split.
  - destruct (digest_iterates md5_block le_len md5_iv p) as (bs & H & E). exists bs. split; [exact H|]. unfold md5. fold le_len. by rewrite E.
  - destruct (digest_iterates sha1_block be_len sha1_iv p) as (bs & H & E). exists bs. split; [exact H|]. unfold sha1. fold be_len. by rewrite E.
Qed.

Lemma blob_bytes alloc_ok p : arg_bytes alloc_ok (VBlob p) = p.
Proof. unfold arg_bytes. cbn. by apply bsub_all. Qed.
Lemma set_text_all alloc_ok s n : (forall n, alloc_ok n = true) -> n = blen s -> (tdb_value_set_text alloc_ok s n true).2 = VText s.
Proof.
  intros Ha ->. pose proof (blen_nonneg s). unfold tdb_value_set_text, value_set_bytes. destruct (Z.ltb_spec (blen s) 0); [lia|].
  destruct (Z.ltb_spec (blen s) 0); [lia|]. rewrite Ha. cbn [snd]. by rewrite bsub_all.
Qed.
Lemma set_blob_all alloc_ok s n : (forall n, alloc_ok n = true) -> n = blen s -> (tdb_value_set_blob alloc_ok s n true).2 = VBlob s.
Proof.
  intros Ha ->. pose proof (blen_nonneg s). unfold tdb_value_set_blob, value_set_bytes. destruct (Z.ltb_spec (blen s) 0); [lia|]. rewrite Ha. cbn [snd]. by rewrite bsub_all.
Qed.
Lemma result_text_all alloc_ok c s n : (forall n, alloc_ok n = true) -> n = blen s -> blen s < 2 ^ 31 -> tdb_result_text alloc_ok c s (s32 n) = mk_context (VText s) (cx_error c).
Proof.
  intros Ha -> Hs. pose proof (blen_nonneg s). unfold tdb_result_text. rewrite s32_small by lia. destruct (Z.ltb_spec (blen s) 0); [lia|]. by rewrite set_text_all.
Qed.
Lemma result_blob_all alloc_ok c s n : (forall n, alloc_ok n = true) -> n = blen s -> blen s < 2 ^ 31 -> tdb_result_blob alloc_ok c s (s32 n) = mk_context (VBlob s) (cx_error c).
Proof. intros Ha -> Hs. pose proof (blen_nonneg s). unfold tdb_result_blob. rewrite s32_small by lia. by rewrite set_blob_all. Qed.
(** A length that wraps below zero stores the empty blob. *)
Lemma result_blob_wraps alloc_ok c s n : (forall n, alloc_ok n = true) -> 2 ^ 31 <= n < 2 ^ 32 -> tdb_result_blob alloc_ok c s (s32 n) = mk_context (VBlob []) (cx_error c).
Proof.
  intros Ha Hn. assert (s32 n < 0) by (unfold s32; div_lia). unfold tdb_result_blob, tdb_value_set_blob, value_set_bytes.
  destruct (Z.ltb_spec (s32 n) 0); [|lia]. by rewrite Ha.
Qed.
Lemma b64_encode_len p : 3 * blen (b64_encode p) <= 4 * blen p + 8.
Proof.
  induction p as [p IH] using (induction_ltof1 _ length). unfold ltof in IH. destruct p as [|a [|b [|d p]]]; [done..|].
  cbn [b64_encode]. rewrite !blen_cons. specialize (IH p ltac:(cbn; lia)). lia.
Qed.
(** Encodings: while memory lasts, [unhex(hex(b))] and
    [base64_decode(base64_encode(b))] are the blob [b], for every blob of less
    than 2^30 bytes, and no error is set; from 2^30 bytes on [hex] overruns its
    array on the stack. *)
Theorem encodings_roundtrip alloc_ok c p :
  (forall n, alloc_ok n = true) -> bytes_ok p ->
  (blen p < 2 ^ 30 ->
   (exists h, fn_hex alloc_ok c (VBlob p) = Some (mk_context (VText h) (cx_error c)) /\ fn_unhex alloc_ok c (VText h) = mk_context (VBlob p) (cx_error c))
   /\ exists b, fn_base64_encode alloc_ok c (VBlob p) = mk_context (VText b) (cx_error c) /\ fn_base64_decode alloc_ok c (VText b) = mk_context (VBlob p) (cx_error c))
  /\ (2 ^ 30 <= blen p < 2 ^ 31 -> fn_hex alloc_ok c (VBlob p) = None).
Proof.
  intros Ha Hp. destruct (unhex_hex p Hp) as (U1 & U2 & U3). pose proof (blen_nonneg p). unfold fn_hex, fn_unhex, fn_base64_encode, fn_base64_decode, result_hex, tdb_value_text. rewrite !blob_bytes.
  split; [intros Hl; split|].
  - exists (concat (map hex_byte p)). cbn [tdb_value_as_text snd]. rewrite (s32_small (blen p * 2 + 1)) by lia. rewrite !Ha, (cstr_nul_free _ U2), U1, U3.
    rewrite result_text_all by (done || lia). split; [by destruct (_ <=? 129)|].
    replace (2 * blen p mod 2) with 0 by div_lia. cbn [negb Z.eqb]. apply result_blob_all; [done|div_lia|lia].
  - destruct (b64_roundtrip p 0 Hp) as [B1 B2]. pose proof (b64_encode_len p). exists (b64_encode p). cbn [tdb_value_as_text snd]. rewrite !Ha, (cstr_nul_free _ B2), B1. cbn [negb].
    split; [by apply result_text_all; [| |lia]|by apply result_blob_all; [| |lia]].
  - intros Hl. assert (s32 (blen p * 2 + 1) = blen p * 2 + 1 - 4294967296) as -> by (unfold s32; div_lia). destruct (Z.leb_spec (blen p * 2 + 1 - 4294967296) 129); [|lia].
    destruct (Z.leb_spec (blen p * 2 + 1) 129); [lia|done].
Qed.
Lemma encodings_roundtrip_witness :
  exists b, fn_base64_encode ok_alloc (mk_context VNull None) (VBlob [0; 255; 7]) = mk_context (VText b) None
  /\ fn_base64_decode ok_alloc (mk_context VNull None) (VText b) = mk_context (VBlob [0; 255; 7]) None.
Proof. apply (encodings_roundtrip ok_alloc (mk_context VNull None) [0; 255; 7]); [reflexivity|apply bytes_okb_ok; reflexivity|reflexivity]. Defined.

(** A composite argument is read as no bytes: its digest is that of the empty
    text. *)
Lemma composite_hashes_as_empty alloc_ok junk c s : fn_sha256 alloc_ok junk c (VComposite s) = fn_sha256 alloc_ok junk c (VText []).
Proof. unfold fn_sha256. assert (arg_bytes alloc_ok (VComposite s) = arg_bytes alloc_ok (VText [])) as -> by reflexivity. reflexivity. Qed.

Section Gcm.
(** Of AES-256-GCM and the random generator: a nonce has 12 bytes, a tag 16, a
    ciphertext as many as the text, and opening a sealed text with its key,
    nonce and tag gives the text. *)
Context (gcm_seal : list Z -> list Z -> list Z -> option (list Z * list Z)) (gcm_open : list Z -> list Z -> list Z -> list Z -> option (list Z)).
Context (rand_bytes : Z -> option (list Z)).
Hypothesis nonce_len : forall n l, rand_bytes n = Some l -> blen l = n.
Hypothesis tag_len : forall k iv p ct tag, gcm_seal k iv p = Some (ct, tag) -> blen tag = 16.
Hypothesis ct_len : forall k iv p ct tag, gcm_seal k iv p = Some (ct, tag) -> blen ct = blen p.
Hypothesis open_seal : forall k iv p ct tag, gcm_seal k iv p = Some (ct, tag) -> gcm_open k iv ct tag = Some p.

Lemma sealed_parts iv ct tag : blen iv = 12 -> blen tag = 16 ->
  bsub (iv ++ ct ++ tag) 0 12 = iv /\ bsub (iv ++ ct ++ tag) 12 (blen ct) = ct /\ bsub (iv ++ ct ++ tag) (12 + blen ct) 16 = tag.
Proof.
  intros Hi Ht. pose proof (blen_nonneg ct). split; [|split].
  - rewrite bsub_app_l by lia. by apply bsub_all.
  - rewrite bsub_app_r by lia. replace (12 - blen iv) with 0 by lia. rewrite bsub_app_l by lia. by apply bsub_all.
  - rewrite app_assoc. apply bsub_app_exact; [rewrite blen_app; lia|done].
Qed.
(** What an encryption that reports no error returned. *)
Lemma gcm_encrypted alloc_ok junk c p kv out :
  (forall n, alloc_ok n = true) -> fn_aes_gcm_encrypt alloc_ok junk true gcm_seal rand_bytes c (VBlob p) kv = mk_context out None ->
  exists iv ct tag, gcm_seal (sha256 junk (arg_bytes alloc_ok kv)) iv p = Some (ct, tag) /\ blen iv = 12 /\ blen tag = 16 /\ blen ct = blen p
    /\ mk_context out None = tdb_result_blob alloc_ok c (iv ++ ct ++ tag) (s32 (12 + blen ct + 16)).
Proof.
  intros Ha He. unfold fn_aes_gcm_encrypt in He. rewrite blob_bytes, Ha in He. cbn [andb] in He.
  destruct (rand_bytes 12) as [iv|] eqn:Er; [|unfold tdb_result_error in He; congruence]. apply nonce_len in Er.
  destruct (gcm_seal _ iv p) as [[ct tag]|] eqn:Es; [|unfold tdb_result_error in He; congruence].
  exists iv, ct, tag. repeat split; eauto.
Qed.

(** C28. Authenticated encryption of a blob of less than 2^31 bytes, while
    memory lasts and the library's calls succeed: up to 2^31 - 29 bytes,
    decrypting what encryption returned, with the same key, gives the data: the
    nonce, the ciphertext and the tag are found where they were stored.  For
    the 28 sizes above, the length of the result wraps: encryption returns the
    empty blob without an error, and decryption refuses it as too short. *)
Theorem aes_gcm_roundtrip alloc_ok junk c p kv out :
  (forall n, alloc_ok n = true) -> blen p < 2 ^ 31 ->
  fn_aes_gcm_encrypt alloc_ok junk true gcm_seal rand_bytes c (VBlob p) kv = mk_context (VBlob out) None -> cx_error c = None -> cx_out c = VNull ->
  if blen p <? 2 ^ 31 - 28 then fn_aes_gcm_decrypt alloc_ok junk true gcm_open c (VBlob out) kv = mk_context (VBlob p) None
  else out = [] /\ fn_aes_gcm_decrypt alloc_ok junk true gcm_open c (VBlob out) kv = mk_context VNull (Some (str "aes_gcm_decrypt: input too short")).
Proof.
  intros Ha Hp He Hc Ho. destruct (gcm_encrypted _ _ _ _ _ _ Ha He) as (iv & ct & tag & Es & Hi & Ht & Hl & Eo). pose proof (blen_nonneg ct).
  destruct (Z.ltb_spec (blen p) (2 ^ 31 - 28)).
  - rewrite result_blob_all in Eo by (done || rewrite !blen_app; lia). injection Eo as -> _.
    unfold fn_aes_gcm_decrypt. rewrite blob_bytes, Ha, !blen_app, Hi, Ht.
    destruct (Z.ltb_spec (12 + (blen ct + 16)) (12 + 16)); [lia|]. replace (12 + (blen ct + 16) - 12 - 16) with (blen ct) by lia. cbn [andb].
    destruct (sealed_parts iv ct tag Hi Ht) as (-> & -> & ->). rewrite (open_seal _ _ _ _ _ Es), <- Hc. by apply result_blob_all; [| |lia].
  - rewrite result_blob_wraps in Eo by (done || lia). injection Eo as -> _. split; [done|].
    unfold fn_aes_gcm_decrypt. rewrite blob_bytes. cbn. unfold tdb_result_error. by rewrite Ho.
Qed.
End Gcm.
(** A cipher that adds nothing, for the statement to be applied. *)
Definition toy_seal (k iv p : list Z) : option (list Z * list Z) := Some (p, bzero 16).
Definition toy_open (k iv ct tag : list Z) : option (list Z) := Some ct.
Definition toy_rand (n : Z) : option (list Z) := if 0 <=? n then Some (bzero n) else None.
Lemma aes_gcm_roundtrip_witness :
  fn_aes_gcm_decrypt ok_alloc stack_junk true toy_open (mk_context VNull None) (VBlob (bzero 12 ++ [1; 2; 3] ++ bzero 16)) (VText (str "k")) = mk_context (VBlob [1; 2; 3]) None.
Proof.
  apply (aes_gcm_roundtrip toy_seal toy_open toy_rand) with (p := [1; 2; 3]); [| | | |reflexivity|reflexivity|vm_compute; reflexivity|reflexivity|reflexivity].
  - unfold toy_rand. intros n l. destruct (Z.leb_spec 0 n); [|done]. intros [= <-]. by apply blen_bzero.
  - unfold toy_seal. intros k iv p ct tag [= <- <-]. reflexivity.
  - unfold toy_seal. intros k iv p ct tag [= <- <-]. reflexivity.
  - unfold toy_seal, toy_open. intros k iv p ct tag [= <- <-]. reflexivity.
Defined.
