(* ===== verification/Lock.v ===== *)
(** * The lock manager (src/src/txn/tdb_lock.[ch])

    The table of 256 hash buckets, each a chain of resources, each with its
    chain of holders.  [lock_view] is what the table promises its clients: a
    map from resources to holder lists, which hashing and collisions do not
    disturb.  Every operation runs under the manager's mutex, so a run of the
    system is a sequence of whole operations ([lock_step]). *)
From stdpp Require Import relations.
From S2P Require Import Prelude Util.

(** ** Data *)

Inductive tdb_lockmode := TDB_LOCK_NONE | TDB_LOCK_SHARED | TDB_LOCK_EXCL.
Inductive tdb_restype := TDB_RES_TABLE | TDB_RES_ROW.

#[global] Instance tdb_lockmode_eq_dec : EqDecision tdb_lockmode.
Proof. solve_decision. Defined.
#[global] Instance tdb_restype_eq_dec : EqDecision tdb_restype.
Proof. solve_decision. Defined.

Record holder := mk_holder { h_txn : Z; h_mode : tdb_lockmode }.
(** The key of a resource: its type, id and sub-id. *)
Record reskey := mk_key { k_type : tdb_restype; k_id : Z; k_sub : Z }.
Record resource := mk_res { r_key : reskey; r_holders : list holder }.
Record tdb_lockmgr := mk_lockmgr { lm_buckets : list (list resource) }.

#[global] Instance reskey_eq_dec : EqDecision reskey.
Proof. solve_decision. Defined.

Definition LOCK_BUCKETS : Z := 256.
Definition tdb_lockmgr_new : tdb_lockmgr := mk_lockmgr (replicate 256 []).

(** ** Hashing and lookup *)

(** The bytes of a [uint64_t] in memory (little-endian). *)
Definition mem_u64 (v : Z) : list Z :=
  [u8 v; u8 (Z.shiftr v 8); u8 (Z.shiftr v 16); u8 (Z.shiftr v 24);
   u8 (Z.shiftr v 32); u8 (Z.shiftr v 40); u8 (Z.shiftr v 48); u8 (Z.shiftr v 56)].
Definition restype_num (t : tdb_restype) : Z :=
  match t with TDB_RES_TABLE => 0 | TDB_RES_ROW => 1 end.
Definition res_hash (k : reskey) : nat :=
  Z.to_nat (tdb_fnv1a (mem_u64 (restype_num (k_type k)) ++ mem_u64 (k_id k) ++ mem_u64 (k_sub k))
            mod LOCK_BUCKETS).

(** The chain walk of [res_find]. *)
Fixpoint chain_find (c : list resource) (k : reskey) : option resource :=
  match c with
  | [] => None
  | r :: c => if decide (r_key r = k) then Some r else chain_find c k
  end.
Definition res_lookup (m : tdb_lockmgr) (k : reskey) : option resource :=
  chain_find (nth (res_hash k) (lm_buckets m) []) k.

(** A write through the [resource *] that [res_find] returned. *)
Fixpoint chain_set (c : list resource) (k : reskey) (hs : list holder) : list resource :=
  match c with
  | [] => []
  | r :: c => if decide (r_key r = k) then mk_res k hs :: c else r :: chain_set c k hs
  end.
Definition res_set (m : tdb_lockmgr) (k : reskey) (hs : list holder) : tdb_lockmgr :=
  let b := res_hash k in
  mk_lockmgr (<[b := chain_set (nth b (lm_buckets m) []) k hs]> (lm_buckets m)).

Section Lock.
Context (alloc_ok : Z -> bool).

(** [res_find m type id sub create]; [sizeof(resource)] is 40. *)
Definition res_find (m : tdb_lockmgr) (k : reskey) (create : bool)
  : option resource * tdb_lockmgr :=
  match res_lookup m k with
  | Some r => (Some r, m)
  | None =>
      if create && alloc_ok 40 then
        let b := res_hash k in
        let r := mk_res k [] in
        (Some r, mk_lockmgr (<[b := r :: nth b (lm_buckets m) []]> (lm_buckets m)))
      else (None, m)
  end.

Definition mode_conflict (a b : tdb_lockmode) : bool :=
  bool_decide (a = TDB_LOCK_EXCL) || bool_decide (b = TDB_LOCK_EXCL).

(** The scan for our own holder and the count of the others; the last match
    wins as in the code. *)
Fixpoint scan_self (hs : list holder) (txn : Z) (self : option holder) (others : Z)
  : option holder * Z :=
  match hs with
  | [] => (self, others)
  | h :: hs => if h_txn h =? txn then scan_self hs txn (Some h) others
               else scan_self hs txn self (others + 1)
  end.
(** The first holder other than [txn] / the first one in conflict. *)
Fixpoint first_other (hs : list holder) (txn : Z) : option holder :=
  match hs with
  | [] => None
  | h :: hs => if negb (h_txn h =? txn) then Some h else first_other hs txn
  end.
Fixpoint first_conflict (hs : list holder) (mode : tdb_lockmode) : option holder :=
  match hs with
  | [] => None
  | h :: hs => if mode_conflict mode (h_mode h) then Some h else first_conflict hs mode
  end.
(** [self->mode = TDB_LOCK_EXCL]: [self] is the last holder with that id. *)
Fixpoint upgrade_self (hs : list holder) (txn : Z) : list holder :=
  match hs with
  | [] => []
  | h :: hs =>
      if (h_txn h =? txn) && negb (existsb (fun h => h_txn h =? txn) hs)
      then mk_holder txn TDB_LOCK_EXCL :: hs else h :: upgrade_self hs txn
  end.
Definition wait_die (txn : Z) (h : holder) : tdb_status :=
  if txn <? h_txn h then TDB_BUSY else TDB_ABORT.

(** The body of [tdb_lock_acquire] on the holders of the resource;
    [sizeof(holder)] is 24. *)
Definition acquire_holders (hs : list holder) (txn : Z) (mode : tdb_lockmode)
  : tdb_status * list holder :=
  match scan_self hs txn None 0 with
  | (Some self, others) =>
      if bool_decide (mode = TDB_LOCK_EXCL) && negb (bool_decide (h_mode self = TDB_LOCK_EXCL)) then
        match (if 0 <? others then first_other hs txn else None) with
        | Some h => (wait_die txn h, hs)
        | None => (TDB_OK, upgrade_self hs txn)
        end
      else (TDB_OK, hs)
  | (None, _) =>
      match first_conflict hs mode with
      | Some h => (wait_die txn h, hs)
      | None => if alloc_ok 24 then (TDB_OK, mk_holder txn mode :: hs) else (TDB_NOMEM, hs)
      end
  end.

Definition tdb_lock_acquire (m : tdb_lockmgr) (txn : Z) (k : reskey) (mode : tdb_lockmode)
  : tdb_status * tdb_lockmgr :=
  match res_find m k true with
  | (None, m) => (TDB_NOMEM, m)
  | (Some r, m) =>
      let '(rc, hs) := acquire_holders (r_holders r) txn mode in (rc, res_set m k hs)
  end.

Definition tdb_lock_release_all (m : tdb_lockmgr) (txn : Z) : tdb_lockmgr :=
  mk_lockmgr (map (map (fun r =>
    mk_res (r_key r) (List.filter (fun h => negb (h_txn h =? txn)) (r_holders r)))) (lm_buckets m)).

Definition tdb_lock_holder_count (m : tdb_lockmgr) (k : reskey) : Z :=
  match (res_find m k false).1 with
  | Some r => Z.of_nat (length (r_holders r))
  | None => 0
  end.

End Lock.

(** ** Specification: a map from resources to holders *)

Definition lock_view (m : tdb_lockmgr) (k : reskey) : list holder :=
  match res_lookup m k with Some r => r_holders r | None => [] end.

Definition table_wf (m : tdb_lockmgr) : Prop :=
  length (lm_buckets m) = 256%nat.

(** At most one entry per transaction, and an exclusive holder is alone. *)
Definition holders_ok (hs : list holder) : Prop :=
  NoDup (map h_txn hs)
  /\ forall h, h ∈ hs -> h_mode h = TDB_LOCK_EXCL -> hs = [h].

(** ** Steps *)
(** One whole operation; the allocator may behave differently each time. *)
Inductive lock_step : tdb_lockmgr -> tdb_lockmgr -> Prop :=
| step_acquire alloc_ok m txn k mode rc m' :
    tdb_lock_acquire alloc_ok m txn k mode = (rc, m') -> lock_step m m'
| step_release m txn : lock_step m (tdb_lock_release_all m txn).
Definition lock_reachable : tdb_lockmgr -> Prop := rtc lock_step tdb_lockmgr_new.

(** ** The table implements the map *)

Lemma res_hash_lt k : (res_hash k < 256)%nat.
Proof. unfold res_hash, LOCK_BUCKETS. pose proof (Z.mod_pos_bound (tdb_fnv1a (mem_u64 (restype_num (k_type k)) ++ mem_u64 (k_id k) ++ mem_u64 (k_sub k))) 256). lia. Qed.

Lemma chain_find_set c k hs k' :
  chain_find (chain_set c k hs) k'
  = if decide (k = k') then match chain_find c k with Some _ => Some (mk_res k hs) | None => None end
    else chain_find c k'.
Proof.
  induction c as [|r c IH]; cbn [chain_set chain_find]; [by destruct (decide _)|].
  destruct (decide (r_key r = k)) as [E|E]; cbn [chain_find r_key].
  - repeat destruct (decide _); congruence.
  - rewrite IH. repeat destruct (decide _); congruence.
Qed.
Lemma chain_find_map c k f :
  (forall r, r_key (f r) = r_key r) -> chain_find (map f c) k = option_map f (chain_find c k).
Proof.
  intros Hf. induction c as [|r c IH]; [done|]. cbn [map chain_find]. rewrite Hf.
  by destruct (decide _).
Qed.

Lemma res_set_view m k hs k' :
  table_wf m -> is_Some (res_lookup m k) ->
  lock_view (res_set m k hs) k' = if decide (k = k') then hs else lock_view m k'.
Proof.
  intros Hwf [r Hr]. pose proof (res_hash_lt k). unfold lock_view, res_lookup, res_set in *. cbn [lm_buckets].
  rewrite nth_insert by (rewrite Hwf; done).
  destruct (decide (res_hash k = res_hash k')) as [E|E].
  - rewrite chain_find_set, Hr. destruct (decide (k = k')); [done|]. by rewrite E.
  - destruct (decide (k = k')); [congruence|done].
Qed.
Lemma res_find_view alloc_ok m k create r m' :
  table_wf m -> res_find alloc_ok m k create = (r, m') ->
  table_wf m' /\ (forall k', lock_view m' k' = lock_view m k')
  /\ (forall r', r = Some r' -> is_Some (res_lookup m' k) /\ r_holders r' = lock_view m k).
Proof.
  intros Hwf E. pose proof (res_hash_lt k). unfold res_find in E. unfold lock_view at 3.
  destruct (res_lookup m k) as [r0|] eqn:Hr; [simplify_eq; rewrite Hr; naive_solver|].
  destruct (create && alloc_ok 40); simplify_eq; [|naive_solver].
  unfold table_wf in *. cbn [lm_buckets]. rewrite length_insert. split; [done|].
  unfold lock_view, res_lookup in *. cbn [lm_buckets]. split.
  - intros k'. rewrite nth_insert by lia.
    destruct (decide (res_hash k = res_hash k')) as [Eh|Eh]; [|done]. cbn [chain_find r_key].
    destruct (decide (k = k')) as [<-|]; [by rewrite Hr|]. by rewrite Eh.
  - intros r' [= <-]. rewrite nth_insert by lia. destruct (decide _); [|done]. cbn [chain_find r_key].
    rewrite decide_True by done. eauto.
Qed.
Lemma lock_acquire_view alloc_ok m txn k mode :
  table_wf m ->
  let r := tdb_lock_acquire alloc_ok m txn k mode in
  let s := acquire_holders alloc_ok (lock_view m k) txn mode in
  table_wf r.2 /\
  ((r.1 = s.1 /\ forall k', lock_view r.2 k' = if decide (k = k') then s.2 else lock_view m k')
   \/ (r.1 = TDB_NOMEM /\ alloc_ok 40 = false /\ forall k', lock_view r.2 k' = lock_view m k')).
Proof.
  intros Hwf. unfold tdb_lock_acquire.
  destruct (res_find alloc_ok m k true) as [o m'] eqn:E. pose proof E as E0.
  apply res_find_view in E as (W & V & R); [|done].
  destruct o as [r|].
  - destruct (R r eq_refl) as [Hs ->].
    destruct (acquire_holders alloc_ok (lock_view m k) txn mode) as [rc hs]. cbn [fst snd].
    split; [unfold table_wf, res_set in *; cbn; by rewrite length_insert|]. left. split; [done|].
    intros k'. rewrite res_set_view by done. by rewrite V.
  - split; [done|]. right. split; [done|]. split; [|done].
    unfold res_find in E0. destruct (res_lookup m k); [done|]. cbn [andb] in E0. by destruct (alloc_ok 40).
Qed.
Lemma release_all_view m txn :
  table_wf m ->
  table_wf (tdb_lock_release_all m txn)
  /\ forall k, lock_view (tdb_lock_release_all m txn) k
               = List.filter (fun h => negb (h_txn h =? txn)) (lock_view m k).
Proof.
  intros Hwf. split; [unfold table_wf; cbn; by rewrite length_map|]. intros k.
  unfold lock_view, res_lookup, tdb_lock_release_all. cbn [lm_buckets].
  change [] with (map (fun r => mk_res (r_key r) (List.filter (fun h => negb (h_txn h =? txn)) (r_holders r))) []) at 1.
  rewrite map_nth, chain_find_map by done. by destruct (chain_find _ _).
Qed.

(** ** Acquisition on one resource *)

Lemma scan_self_spec hs txn self n o n' :
  scan_self hs txn self n = (o, n') ->
  (o = self /\ Forall (fun h => h_txn h <> txn) hs \/ exists h, h ∈ hs /\ o = Some h /\ h_txn h = txn)
  /\ n <= n' /\ (n' = n -> Forall (fun h => h_txn h = txn) hs).
Proof.
  revert self n. induction hs as [|h hs IH]; intros self n; cbn [scan_self].
  { intros [= <- <-]. split; [left; auto|]. split; [lia|constructor]. }
  destruct (Z.eqb_spec (h_txn h) txn); intros E; apply IH in E as ([(-> & Hf)|(g & Hg & -> & Eg)] & Hle & Heq).
  - split; [right; exists h; split; [by left|done]|]. split; [lia|]. intros ->. constructor; auto.
  - split; [right; exists g; split; [by right|done]|]. split; [lia|]. intros ->. constructor; auto.
  - split; [left; auto|]. split; [lia|]. lia.
  - split; [right; exists g; split; [by right|done]|]. split; [lia|]. lia.
Qed.
Lemma first_other_spec hs txn :
  match first_other hs txn with
  | Some h => h ∈ hs /\ h_txn h <> txn
  | None => Forall (fun h => h_txn h = txn) hs
  end.
Proof.
  induction hs as [|h hs IH]; cbn [first_other]; [constructor|].
  destruct (Z.eqb_spec (h_txn h) txn); cbn [negb].
  - destruct (first_other hs txn); [|by constructor]. destruct IH. split; [by right|done].
  - split; [by left|done].
Qed.
Lemma first_conflict_spec hs mode :
  match first_conflict hs mode with
  | Some h => h ∈ hs /\ mode_conflict mode (h_mode h) = true
  | None => Forall (fun h => mode_conflict mode (h_mode h) = false) hs
  end.
Proof.
  induction hs as [|h hs IH]; cbn [first_conflict]; [constructor|].
  destruct (mode_conflict mode (h_mode h)) eqn:E.
  - split; [by left|done].
  - destruct (first_conflict hs mode); [|by constructor]. destruct IH. split; [by right|done].
Qed.

(** What an acquisition does, whatever the holders. *)
Definition acquire_outcome (hs : list holder) (txn : Z) (mode : tdb_lockmode)
    (r : tdb_status * list holder) : Prop :=
  (r.1 = TDB_OK
   /\ (exists h, h ∈ r.2 /\ h_txn h = txn /\ (mode = TDB_LOCK_EXCL -> h_mode h = TDB_LOCK_EXCL))
   /\ List.filter (fun h => negb (h_txn h =? txn)) r.2 = List.filter (fun h => negb (h_txn h =? txn)) hs)
  \/ (r.1 = TDB_NOMEM /\ r.2 = hs)
  \/ (exists h, h ∈ hs /\ h_txn h <> txn /\ mode_conflict mode (h_mode h) = true /\ r.2 = hs
       /\ (r.1 = TDB_BUSY /\ txn < h_txn h \/ r.1 = TDB_ABORT /\ h_txn h < txn)).

Lemma wait_die_cases txn h :
  h_txn h <> txn ->
  wait_die txn h = TDB_BUSY /\ txn < h_txn h \/ wait_die txn h = TDB_ABORT /\ h_txn h < txn.
Proof. intros. unfold wait_die. destruct (Z.ltb_spec txn (h_txn h)); [left|right]; split; done || lia. Qed.

Lemma all_self_singleton hs h :
  NoDup (map h_txn hs) -> h ∈ hs -> Forall (fun g => h_txn g = h_txn h) hs -> hs = [h].
Proof.
  intros Hnd Hin Hall. destruct hs as [|g [|g' hs]]; [by apply elem_of_nil in Hin| |].
  - by apply list_elem_of_singleton in Hin as ->.
  - exfalso. inversion Hall as [|? ? E1 Hall']; inversion Hall' as [|? ? E2 _]; subst.
    cbn in Hnd. rewrite E1, E2 in Hnd. apply NoDup_cons in Hnd as [Hn _]. apply Hn. left.
Qed.

Lemma acquire_holders_outcome alloc_ok hs txn mode :
  holders_ok hs ->
  acquire_outcome hs txn mode (acquire_holders alloc_ok hs txn mode)
  /\ holders_ok (acquire_holders alloc_ok hs txn mode).2.
Proof.
  intros Hok. pose proof Hok as [Hnd Hex]. unfold acquire_holders.
  destruct (scan_self hs txn None 0) as [o n] eqn:Es.
  apply scan_self_spec in Es as ([(-> & Hnone)|(self & Hin & -> & Et)] & Hn & Hn0).
  - pose proof (first_conflict_spec hs mode) as Hc. destruct (first_conflict hs mode) as [h|].
    + destruct Hc as [Hh Hc]. split; [|done]. right; right. exists h.
      assert (h_txn h <> txn) as Hne by (eapply Forall_forall in Hnone; done).
      repeat split; try done. by apply wait_die_cases.
    + destruct (alloc_ok 24); [|split; [right; left; done|done]]. split.
      * left. split; [done|]. cbn [snd]. split.
        -- exists (mk_holder txn mode). split; [left|done].
        -- cbn [List.filter h_txn]. by rewrite Z.eqb_refl.
      * cbn [snd]. split.
        -- cbn [map h_txn]. apply NoDup_cons. split; [|done]. intros Hi.
           apply list_elem_of_In, in_map_iff in Hi as (g & Eg & Hg%list_elem_of_In).
           eapply Forall_forall in Hnone; [|exact Hg]. done.
        -- intros h Hh Hm. assert (hs = []) as ->.
           { destruct hs as [|g hs]; [done|exfalso]. inversion Hc as [|? ? Hg Hrest]; subst.
             unfold mode_conflict in Hg. apply orb_false_iff in Hg as [E1 E2].
             apply elem_of_cons in Hh as [->|Hh]; [by rewrite bool_decide_eq_false in E1|].
             eapply Forall_forall in Hc; [|exact Hh]. unfold mode_conflict in Hc.
             rewrite Hm in Hc. by rewrite orb_true_r in Hc. }
           by apply list_elem_of_singleton in Hh as ->.
  - destruct (bool_decide (mode = TDB_LOCK_EXCL)) eqn:Em; cbn [andb].
    2: { split; [|done]. left. split; [done|]. split; [|done]. exists self. split; [done|]. split; [done|].
         intros ->. by rewrite bool_decide_eq_false in Em. }
    apply bool_decide_eq_true in Em. subst mode.
    destruct (bool_decide (h_mode self = TDB_LOCK_EXCL)) eqn:Eh; cbn [negb].
    { apply bool_decide_eq_true in Eh. split; [|done]. left. split; [done|]. split; [by exists self|done]. }
    assert (Forall (fun h => h_txn h = txn) hs -> hs = [self]) as Hsing
      by (intros Hall; rewrite <- Et in Hall; by apply all_self_singleton).
    pose proof (first_other_spec hs txn) as Ho.
    assert (match (if 0 <? n then first_other hs txn else None) with
            | Some h => h ∈ hs /\ h_txn h <> txn | None => hs = [self] end) as Hcase.
    { destruct (Z.ltb_spec 0 n); [destruct (first_other hs txn); auto|apply Hsing, Hn0; lia]. }
    destruct (if 0 <? n then first_other hs txn else None) as [h|].
    + split; [|done]. right; right. exists h. destruct Hcase. repeat split; try done. by apply wait_die_cases.
    + rewrite Hcase. cbn [upgrade_self existsb]. rewrite Et, Z.eqb_refl. cbn [andb negb fst snd].
      split.
      * left. split; [done|]. cbn [snd]. split; [eexists; split; [by left|done]|].
        cbn [List.filter h_txn]. by rewrite Et, Z.eqb_refl.
      * split; [cbn; apply NoDup_singleton|]. intros g Hg _. by apply list_elem_of_singleton in Hg as ->.
Qed.

Definition table_ok (m : tdb_lockmgr) : Prop :=
  table_wf m /\ forall k, holders_ok (lock_view m k).

Lemma table_new_ok : table_ok tdb_lockmgr_new.
Proof.
  split; [done|]. intros k. unfold lock_view, res_lookup, tdb_lockmgr_new. cbn [lm_buckets].
  assert (nth (res_hash k) (replicate 256 []) ([] : list resource) = []) as ->.
  { rewrite nth_lookup. destruct (replicate 256 [] !! res_hash k) as [c|] eqn:E; [|done].
    by apply lookup_replicate in E as [-> _]. }
  split; [constructor|]. intros h Hh. by apply elem_of_nil in Hh.
Qed.
Lemma holders_ok_filter hs f : holders_ok hs -> holders_ok (List.filter f hs).
Proof.
  intros [Hnd Hex]. split.
  - clear Hex. induction hs as [|h hs IH]; [done|]. cbn [map List.filter] in *. apply NoDup_cons in Hnd as [Hn Hnd].
    destruct (f h); [|by apply IH]. cbn [map]. apply NoDup_cons. split; [|by apply IH].
    intros Hi. apply Hn. apply list_elem_of_In, in_map_iff in Hi as (g & Eg & Hg). apply filter_In in Hg as [Hg _].
    apply list_elem_of_In, in_map_iff. eauto.
  - intros h Hh Hm. apply list_elem_of_In, filter_In in Hh as [Hh Hf]. apply list_elem_of_In in Hh.
    rewrite (Hex h Hh Hm). cbn. by rewrite Hf.
Qed.
Lemma table_step_ok m m' : table_ok m -> lock_step m m' -> table_ok m'.
Proof.
  intros [Hwf Hok] Hs. destruct Hs as [alloc_ok m txn k mode rc m' E|m txn].
  - pose proof (lock_acquire_view alloc_ok m txn k mode Hwf) as [W V]. rewrite E in W, V. cbn [fst snd] in W, V.
    split; [done|]. intros k'. destruct V as [[_ V]|(_ & _ & V)]; rewrite V; [|done].
    destruct (decide (k = k')); [|done]. by apply acquire_holders_outcome.
  - destruct (release_all_view m txn Hwf) as [W V]. split; [done|]. intros k. rewrite V. by apply holders_ok_filter.
Qed.
Lemma table_reachable_ok m : lock_reachable m -> table_ok m.
Proof.
  intros H. unfold lock_reachable in H. remember tdb_lockmgr_new as m0 eqn:E0.
  assert (table_ok m0) as H0 by (subst; apply table_new_ok). clear E0.
  induction H as [|x y z Hs _ IH]; [done|]. apply IH. by eapply table_step_ok.
Qed.

(** A list of requests has a youngest. *)
Lemma youngest_exists {A} (f : A -> Z) (l : list A) :
  l <> [] -> exists x, x ∈ l /\ forall y, y ∈ l -> f y <= f x.
Proof.
  induction l as [|a l IH]; [done|]. intros _. destruct l as [|b l].
  - exists a. split; [left|]. intros y ->%list_elem_of_singleton. lia.
  - destruct IH as (x & Hx & Hmax); [done|]. destruct (Z.le_gt_cases (f a) (f x)).
    + exists x. split; [by right|]. intros y [->|Hy]%elem_of_cons; [done|by apply Hmax].
    + exists a. split; [left|]. intros y [->|Hy]%elem_of_cons; [lia|]. specialize (Hmax y Hy). lia.
Qed.

(** ** Properties *)

(** C37. Single writer, many readers: in every state the lock manager can
    reach, by any interleaving of acquisitions (granted, upgraded, refused or
    out of memory) and releases, a transaction appears at most once among the
    holders of a resource, and an exclusive holder is the only holder. *)
Theorem lock_single_writer m k :
  lock_reachable m ->
  NoDup (map h_txn (lock_view m k))
  /\ (forall h, h ∈ lock_view m k -> h_mode h = TDB_LOCK_EXCL -> lock_view m k = [h])
  /\ tdb_lock_holder_count (fun _ => true) m k = Z.of_nat (length (lock_view m k)).
Proof.
  intros [_ Hok]%table_reachable_ok. destruct (Hok k) as [Hn He]. split; [done|]. split; [done|].
  unfold tdb_lock_holder_count, res_find, lock_view. by destruct (res_lookup m k).
Qed.
Definition lock_row (i : Z) : reskey := mk_key TDB_RES_ROW 1 i.
Definition lock_demo : tdb_lockmgr :=
  (tdb_lock_acquire (fun _ => true) tdb_lockmgr_new 7 (lock_row 3) TDB_LOCK_EXCL).2.
Lemma lock_demo_reachable : lock_reachable lock_demo.
Proof.
  apply rtc_once, (step_acquire (fun _ => true) _ 7 (lock_row 3) TDB_LOCK_EXCL TDB_OK).
  unfold lock_demo. vm_compute. reflexivity.
Qed.
Lemma lock_single_writer_witness : lock_view lock_demo (lock_row 3) = [mk_holder 7 TDB_LOCK_EXCL].
Proof.
  destruct (lock_single_writer lock_demo (lock_row 3) lock_demo_reachable) as (_ & H & _).
  apply H; [|reflexivity]. apply list_elem_of_In. vm_compute. auto.
Defined.

(** The hash table refines a map from resources to holders: acquiring a
    lock changes the holders of that resource only, whatever resources share
    its bucket.  The outcome is a grant (the requester holds the resource, in
    exclusive mode if it asked for it, and the other holders are unchanged),
    or out of memory, or a conflict with another holder that leaves the table
    as it was: [TDB_BUSY] against a younger one, [TDB_ABORT] against an older
    one.  Releasing removes the transaction from every resource and touches
    nothing else. *)
Theorem lock_table_refines_map alloc_ok m txn k mode k' :
  lock_reachable m ->
  acquire_outcome (lock_view m k) txn mode
    ((tdb_lock_acquire alloc_ok m txn k mode).1, lock_view (tdb_lock_acquire alloc_ok m txn k mode).2 k)
  /\ (k' <> k -> lock_view (tdb_lock_acquire alloc_ok m txn k mode).2 k' = lock_view m k')
  /\ lock_view (tdb_lock_release_all m txn) k'
     = List.filter (fun h => negb (h_txn h =? txn)) (lock_view m k').
Proof.
  intros [Hwf Hok]%table_reachable_ok.
  pose proof (lock_acquire_view alloc_ok m txn k mode Hwf) as [W V].
  pose proof (acquire_holders_outcome alloc_ok (lock_view m k) txn mode (Hok k)) as [Ho _].
  destruct (tdb_lock_acquire alloc_ok m txn k mode) as [rc m']. cbn [fst snd] in *.
  split; [|split].
  - destruct V as [[-> V]|(-> & _ & V)]; rewrite V.
    + rewrite decide_True by done. by destruct (acquire_holders alloc_ok (lock_view m k) txn mode).
    + right; left. done.
  - intros Hne. destruct V as [[_ V]|(_ & _ & V)]; rewrite V; [|done]. by rewrite decide_False by congruence.
  - by apply release_all_view.
Qed.
Lemma lock_table_refines_map_witness :
  lock_view (tdb_lock_release_all lock_demo 7) (lock_row 3)
  = List.filter (fun h => negb (h_txn h =? 7)) (lock_view lock_demo (lock_row 3)).
Proof.
  destruct (lock_table_refines_map (fun _ => true) lock_demo 7 (lock_row 4) TDB_LOCK_SHARED (lock_row 3)
              lock_demo_reachable) as (_ & _ & H). exact H.
Defined.

(** C39. Wait-die is free of deadlock: take any non-empty collection of
    pending requests all of which are told to wait ([TDB_BUSY]) in a reachable
    state.  One of them waits for a holder that is younger than every waiting
    transaction, hence not itself waiting: the collection is not a deadlock. *)
Theorem wait_die_deadlock_free alloc_ok m (waiting : list (Z * reskey * tdb_lockmode)) :
  lock_reachable m -> waiting <> [] ->
  (forall w, w ∈ waiting -> (tdb_lock_acquire alloc_ok m w.1.1 w.1.2 w.2).1 = TDB_BUSY) ->
  exists w h, w ∈ waiting /\ h ∈ lock_view m w.1.2 /\ mode_conflict w.2 (h_mode h) = true
              /\ forall w', w' ∈ waiting -> w'.1.1 < h_txn h.
Proof.
  intros [Hwf Hok]%table_reachable_ok Hne Hbusy.
  destruct (youngest_exists (fun w : Z * reskey * tdb_lockmode => w.1.1) waiting Hne) as (w & Hw & Hmax).
  specialize (Hbusy w Hw). destruct w as [[txn k] mode]. cbn [fst snd] in *.
  pose proof (lock_acquire_view alloc_ok m txn k mode Hwf) as [_ V].
  pose proof (acquire_holders_outcome alloc_ok (lock_view m k) txn mode (Hok k)) as [Ho _].
  destruct V as [[E _]|(E & _)]; [|congruence]. rewrite E in Hbusy.
  destruct Ho as [(E' & _)|[(E' & _)|(h & Hh & _ & Hc & _ & [[_ Hlt]|[E' _]])]]; [congruence| | |congruence].
  { rewrite E' in Hbusy. done. }
  exists (txn, k, mode), h. repeat split; try done. intros w' Hw'. specialize (Hmax w' Hw'). cbn in Hmax. lia.
Qed.
Lemma wait_die_deadlock_free_witness :
  exists w h, w ∈ [(5, lock_row 3, TDB_LOCK_SHARED)] /\ h ∈ lock_view lock_demo w.1.2
              /\ mode_conflict w.2 (h_mode h) = true
              /\ forall w', w' ∈ [(5, lock_row 3, TDB_LOCK_SHARED)] -> w'.1.1 < h_txn h.
Proof.
  apply (wait_die_deadlock_free (fun _ => true) lock_demo).
  - apply lock_demo_reachable.
  - done.
  - intros w ->%list_elem_of_singleton. vm_compute. reflexivity.
Defined.
