(* ===== verification/Mvcc.v ===== *)
(** * Snapshot visibility (src/src/txn/tdb_mvcc.[ch])

    A version of a row carries the id of the transaction that created it
    ([xmin]) and of the one that deleted it ([xmax], 0 when none).  The commit
    state of an id comes from a callback, here the function [fn]. *)
From S2P Require Import Prelude.

Inductive tdb_xstate := TDB_XACT_ACTIVE | TDB_XACT_COMMITTED | TDB_XACT_ABORTED.

#[global] Instance tdb_xstate_eq_dec : EqDecision tdb_xstate.
Proof. solve_decision. Defined.

Record tdb_snapshot := mk_snapshot {
  sn_self : Z;
  sn_xmax : Z;
  sn_active : list Z }.

Fixpoint in_active (active : list Z) (xid : Z) : bool :=
  match active with
  | [] => false
  | a :: active => if a =? xid then true else in_active active xid
  end.
Definition tdb_snapshot_in_active (s : tdb_snapshot) (xid : Z) : bool :=
  in_active (sn_active s) xid.

Section Visible.
Context (fn : Z -> tdb_xstate).

Definition xid_visible (s : tdb_snapshot) (xid : Z) : bool :=
  if xid =? sn_self s then true
  else if negb (bool_decide (fn xid = TDB_XACT_COMMITTED)) then false
  else if sn_xmax s <=? xid then false
  else if tdb_snapshot_in_active s xid then false
  else true.

Definition tdb_mvcc_visible (s : tdb_snapshot) (xmin xmax : Z) : bool :=
  if negb (xid_visible s xmin) then false
  else if xmax =? 0 then true
  else if xmax =? sn_self s then false
  else if negb (xid_visible s xmax) then true
  else false.

End Visible.

(** ** Lemmas *)

Lemma in_active_spec l x : in_active l x = true <-> x ∈ l.
Proof.
  induction l as [|a l IH]; cbn [in_active]; [split; [done|by intros ?%elem_of_nil]|].
  rewrite elem_of_cons. destruct (Z.eqb_spec a x); naive_solver.
Qed.

(** Visibility of an id, as a proposition. *)
Lemma xid_visible_spec fn s x :
  xid_visible fn s x = true
  <-> x = sn_self s \/ (fn x = TDB_XACT_COMMITTED /\ x < sn_xmax s /\ x ∉ sn_active s).
Proof.
  unfold xid_visible, tdb_snapshot_in_active.
  destruct (Z.eqb_spec x (sn_self s)); [naive_solver|].
  destruct (bool_decide_reflect (fn x = TDB_XACT_COMMITTED)); cbn [negb]; [|naive_solver].
  destruct (Z.leb_spec (sn_xmax s) x); [naive_solver lia|].
  destruct (in_active (sn_active s) x) eqn:E.
  - apply in_active_spec in E. naive_solver.
  - assert (x ∉ sn_active s) by (rewrite <- in_active_spec, E; done). naive_solver.
Qed.

(** The visibility of a version depends on the visibility of its two ids. *)
Lemma mvcc_visible_ext f g s s' xmin xmax :
  sn_self s = sn_self s' ->
  (forall x, x = xmin \/ x = xmax -> xid_visible f s x = xid_visible g s' x) ->
  tdb_mvcc_visible f s xmin xmax = tdb_mvcc_visible g s' xmin xmax.
Proof. intros Hs H. unfold tdb_mvcc_visible. rewrite Hs, !H by auto. done. Qed.
Lemma mvcc_visible_spec fn s xmin xmax :
  tdb_mvcc_visible fn s xmin xmax = true
  <-> xid_visible fn s xmin = true
      /\ (xmax = 0 \/ (xmax <> sn_self s /\ xid_visible fn s xmax = false)).
Proof.
  unfold tdb_mvcc_visible. destruct (xid_visible fn s xmin); cbn [negb]; [|naive_solver].
  destruct (Z.eqb_spec xmax 0); [naive_solver|]. destruct (Z.eqb_spec xmax (sn_self s)); [naive_solver|].
  destruct (xid_visible fn s xmax); naive_solver.
Qed.
