(* ===== verification/Txn.v ===== *)
(** * The transaction manager (src/src/txn/tdb_txn.[ch]) and the writer slot of
    the environment (src/src/api/tdb_env.c)

    The manager hands out ids, records the commit state of the transactions
    of the session, and takes snapshots.  It drives the pager only through
    the operations of [PagerTxn]; what it needs of them is [PagerTxnLaws].
    Open transactions are the [tdb_txn] objects callers hold: a state of the
    system is the manager and the list of open transactions, and a run is a
    sequence of whole calls (each runs under the manager's mutex).  The arrays
    of commit states, active ids and savepoints grow by reallocations whose
    result the code does not check (tdb_txn.c:60, 81, 154), and the copy of the
    active ids into a snapshot is not checked either: they succeed here. *)
From stdpp Require Import relations.
From S2P Require Import Prelude Mvcc Lock.

(** ** What the manager calls of the pager *)

Class PagerTxn (P : Type) := {
  pager_begin : P -> tdb_status * P;
  pager_commit : P -> tdb_status * P;
  pager_rollback : P -> tdb_status * P;
  pager_savepoint : P -> Z * P;
  pager_savepoint_release : P -> Z -> tdb_status * P;
  pager_savepoint_rollback : P -> Z -> tdb_status * P;
  pager_max_txnid : P -> Z;
  pager_set_max_txnid : P -> Z -> P }.

(** What the pager promises: [pg_view] is the content a transaction sees and
    [pg_saved] the contents its open savepoints recorded. *)
Class PagerTxnLaws (P V : Type) `{PagerTxn P} := {
  pg_ok : P -> Prop;
  pg_view : P -> V;
  pg_saved : P -> list V;
  pg_savepoint_law p :
    pg_ok p ->
    (pager_savepoint p = (-1, p))
    \/ ((pager_savepoint p).1 = Z.of_nat (length (pg_saved p))
        /\ pg_saved (pager_savepoint p).2 = pg_saved p ++ [pg_view p]
        /\ pg_view (pager_savepoint p).2 = pg_view p /\ pg_ok (pager_savepoint p).2);
  pg_release_law p level :
    pg_ok p -> 0 <= level < Z.of_nat (length (pg_saved p)) ->
    (pager_savepoint_release p level).1 = TDB_OK
    /\ pg_saved (pager_savepoint_release p level).2 = take (Z.to_nat level) (pg_saved p)
    /\ pg_view (pager_savepoint_release p level).2 = pg_view p
    /\ pg_ok (pager_savepoint_release p level).2;
  pg_rollback_law p level v :
    pg_ok p -> 0 <= level -> pg_saved p !! Z.to_nat level = Some v ->
    (pager_savepoint_rollback p level).1 = TDB_OK
    /\ pg_saved (pager_savepoint_rollback p level).2 = take (S (Z.to_nat level)) (pg_saved p)
    /\ pg_view (pager_savepoint_rollback p level).2 = v
    /\ pg_ok (pager_savepoint_rollback p level).2 }.

(** ** Data *)

Inductive tdb_isolation := TDB_ISO_READ_COMMITTED | TDB_ISO_SNAPSHOT | TDB_ISO_SERIALIZABLE.

Record xrec := mk_xrec { x_id : Z; x_state : tdb_xstate }.

Record tdb_txnmgr (P : Type) := mk_txnmgr {
  tm_pager : P;
  tm_locks : option tdb_lockmgr;
  tm_base : Z;
  tm_next : Z;
  tm_recs : list xrec;
  tm_active : list Z }.
Arguments mk_txnmgr {P}. Arguments tm_pager {P}. Arguments tm_locks {P}. Arguments tm_base {P}.
Arguments tm_next {P}. Arguments tm_recs {P}. Arguments tm_active {P}.

(** The savepoint stack [sp_names]/[sp_levels] is one list, oldest first. *)
Record tdb_txn := mk_txn {
  t_id : Z;
  t_iso : tdb_isolation;
  t_snap : tdb_snapshot;
  t_state : tdb_xstate;
  t_writable : bool;
  t_sps : list (list Z * Z) }.

Section Txn.
Context {P : Type} `{PagerTxn P}.
Abbreviation mgr := (tdb_txnmgr P).

Definition set_pager (m : mgr) (p : P) : mgr :=
  mk_txnmgr p (tm_locks m) (tm_base m) (tm_next m) (tm_recs m) (tm_active m).

Definition tdb_txnmgr_open (p : P) (lm : option tdb_lockmgr) : mgr :=
  mk_txnmgr p lm (pager_max_txnid p) (u64 (pager_max_txnid p + 1)) [] [].

Definition tdb_txnmgr_peek_next (m : mgr) : Z := tm_next m.

Fixpoint recs_set (rs : list xrec) (id : Z) (st : tdb_xstate) : list xrec :=
  match rs with
  | [] => [mk_xrec id st]
  | r :: rs => if x_id r =? id then mk_xrec (x_id r) st :: rs else r :: recs_set rs id st
  end.
Definition set_state (m : mgr) (id : Z) (st : tdb_xstate) : mgr :=
  mk_txnmgr (tm_pager m) (tm_locks m) (tm_base m) (tm_next m) (recs_set (tm_recs m) id st) (tm_active m).

Fixpoint recs_find (rs : list xrec) (id : Z) : tdb_xstate :=
  match rs with
  | [] => TDB_XACT_ABORTED
  | r :: rs => if x_id r =? id then x_state r else recs_find rs id
  end.
Definition tdb_txnmgr_state (m : mgr) (xid : Z) : tdb_xstate :=
  if xid =? 0 then TDB_XACT_ABORTED
  else if xid <=? tm_base m then TDB_XACT_COMMITTED
  else recs_find (tm_recs m) xid.

Definition active_add (m : mgr) (id : Z) : mgr :=
  mk_txnmgr (tm_pager m) (tm_locks m) (tm_base m) (tm_next m) (tm_recs m) (tm_active m ++ [id]).

(** [active[i] = active[--nactive]]: the last entry takes the place of the
    removed one. *)
Fixpoint swap_remove (l : list Z) (id : Z) : list Z :=
  match l with
  | [] => []
  | a :: l =>
      if a =? id then match l with [] => [] | b :: l' => List.last l b :: removelast l end
      else a :: swap_remove l id
  end.
Definition active_remove (m : mgr) (id : Z) : mgr :=
  mk_txnmgr (tm_pager m) (tm_locks m) (tm_base m) (tm_next m) (tm_recs m) (swap_remove (tm_active m) id).

Definition take_snapshot (m : mgr) (t : tdb_txn) : tdb_txn :=
  mk_txn (t_id t) (t_iso t) (mk_snapshot (t_id t) (tm_next m) (tm_active m)) (t_state t) (t_writable t) (t_sps t).

Definition release_locks (m : mgr) (id : Z) : mgr :=
  match tm_locks m with
  | Some lm => mk_txnmgr (tm_pager m) (Some (tdb_lock_release_all lm id)) (tm_base m) (tm_next m)
                 (tm_recs m) (tm_active m)
  | None => m
  end.

(** Commit and rollback free the transaction object. *)
Definition tdb_txn_commit (m : mgr) (t : tdb_txn) : tdb_status * mgr :=
  let '(rc, m) :=
    if t_writable t then
      let '(rc, p) := pager_commit (pager_set_max_txnid (tm_pager m) (t_id t)) in (rc, set_pager m p)
    else (TDB_OK, m) in
  let m := set_state m (t_id t) (if bool_decide (rc = TDB_OK) then TDB_XACT_COMMITTED else TDB_XACT_ABORTED) in
  (rc, release_locks (active_remove m (t_id t)) (t_id t)).

Definition tdb_txn_rollback (m : mgr) (t : tdb_txn) : tdb_status * mgr :=
  let '(rc, m) :=
    if t_writable t then let '(rc, p) := pager_rollback (tm_pager m) in (rc, set_pager m p)
    else (TDB_OK, m) in
  (rc, release_locks (active_remove (set_state m (t_id t) TDB_XACT_ABORTED) (t_id t)) (t_id t)).

(** [sizeof(tdb_txn)] is 96. *)
Definition tdb_txn_begin (alloc_ok : Z -> bool) (m : mgr) (iso : tdb_isolation) (writable : bool)
  : tdb_status * option tdb_txn * mgr :=
  if negb (alloc_ok 96) then (TDB_NOMEM, None, m)
  else
    let id := tm_next m in
    let m := mk_txnmgr (tm_pager m) (tm_locks m) (tm_base m) (u64 (id + 1)) (tm_recs m) (tm_active m) in
    let m := active_add (set_state m id TDB_XACT_ACTIVE) id in
    let t := take_snapshot m (mk_txn id iso (mk_snapshot 0 0 []) TDB_XACT_ACTIVE writable []) in
    if writable then
      let '(rc, p) := pager_begin (tm_pager m) in
      let m := set_pager m p in
      if bool_decide (rc = TDB_OK) then (TDB_OK, Some t, m)
      else (rc, None, (tdb_txn_rollback m t).2)
    else (TDB_OK, Some t, m).

Definition tdb_txn_refresh_snapshot (m : mgr) (t : tdb_txn) : tdb_txn := take_snapshot m t.

Definition tdb_txn_visible (m : mgr) (t : tdb_txn) (xmin xmax : Z) : bool :=
  tdb_mvcc_visible (tdb_txnmgr_state m) (t_snap t) xmin xmax.

Definition tdb_txn_visible_asof (m : mgr) (t : tdb_txn) (xmin xmax asof : Z) : bool :=
  if negb (bool_decide (tdb_txnmgr_state m xmin = TDB_XACT_COMMITTED)) then false
  else if asof <? xmin then false
  else if xmax =? 0 then true
  else if bool_decide (tdb_txnmgr_state m xmax = TDB_XACT_COMMITTED) && (xmax <=? asof) then false
  else true.

(** ** Named savepoints *)

(** [find_sp]: the innermost savepoint of that name (case-insensitive). *)
Fixpoint find_sp_from (sps : list (list Z * Z)) (name : list Z) (i : nat) : option nat :=
  match i with
  | O => None
  | S i => match sps !! i with
           | Some (n, _) => if strcasecmp n name =? 0 then Some i else find_sp_from sps name i
           | None => find_sp_from sps name i
           end
  end.
Definition find_sp (t : tdb_txn) (name : list Z) : option nat :=
  find_sp_from (t_sps t) name (length (t_sps t)).
Definition set_sps (t : tdb_txn) (sps : list (list Z * Z)) : tdb_txn :=
  mk_txn (t_id t) (t_iso t) (t_snap t) (t_state t) (t_writable t) sps.
Definition sp_level (t : tdb_txn) (i : nat) : Z :=
  match t_sps t !! i with Some (_, l) => l | None => -1 end.

Definition tdb_txn_savepoint (m : mgr) (t : tdb_txn) (name : list Z) : tdb_status * tdb_txn * mgr :=
  if negb (t_writable t) then (TDB_READONLY, t, m)
  else
    let '(level, p) := pager_savepoint (tm_pager m) in
    let m := set_pager m p in
    if level <? 0 then (TDB_ERROR, t, m)
    else (TDB_OK, set_sps t (t_sps t ++ [(cstr name, level)]), m).

Definition tdb_txn_release (m : mgr) (t : tdb_txn) (name : list Z) : tdb_status * tdb_txn * mgr :=
  match find_sp t name with
  | None => (TDB_NOTFOUND, t, m)
  | Some i =>
      let '(rc, p) := pager_savepoint_release (tm_pager m) (sp_level t i) in
      (rc, set_sps t (take i (t_sps t)), set_pager m p)
  end.

Definition tdb_txn_rollback_to (m : mgr) (t : tdb_txn) (name : list Z) : tdb_status * tdb_txn * mgr :=
  match find_sp t name with
  | None => (TDB_NOTFOUND, t, m)
  | Some i =>
      let '(rc, p) := pager_savepoint_rollback (tm_pager m) (sp_level t i) in
      (rc, set_sps t (take (S i) (t_sps t)), set_pager m p)
  end.

End Txn.

(** ** The environment's writer slot (src/src/api/tdb_env.c) *)
Definition tdb_env_acquire_writer (writer txn : Z) : tdb_status * Z :=
  if (writer =? 0) || (writer =? txn) then (TDB_OK, txn)
  else (if txn <? writer then TDB_BUSY else TDB_ABORT, writer).
Definition tdb_env_release_writer (writer txn : Z) : Z :=
  if writer =? txn then 0 else writer.

(** ** Runs of the system *)

Section Runs.
Context {P : Type} `{PagerTxn P}.
Abbreviation mgr := (tdb_txnmgr P).

Record world := mk_world { w_mgr : mgr; w_open : list tdb_txn }.

(** One call.  [ws_pager] and [ws_locks] are the other components at work:
    page writes between calls, lock requests.  Ids are 64-bit; a run stops
    short of the last one. *)
Inductive txn_step : world -> world -> Prop :=
| ws_begin alloc_ok m ts iso wr rc t m' :
    tm_next m + 1 < 2 ^ 64 -> tdb_txn_begin alloc_ok m iso wr = (rc, Some t, m') ->
    txn_step (mk_world m ts) (mk_world m' (t :: ts))
| ws_begin_fail alloc_ok m ts iso wr rc m' :
    tm_next m + 1 < 2 ^ 64 -> tdb_txn_begin alloc_ok m iso wr = (rc, None, m') ->
    txn_step (mk_world m ts) (mk_world m' ts)
| ws_commit m l1 t l2 rc m' :
    tdb_txn_commit m t = (rc, m') -> txn_step (mk_world m (l1 ++ t :: l2)) (mk_world m' (l1 ++ l2))
| ws_rollback m l1 t l2 rc m' :
    tdb_txn_rollback m t = (rc, m') -> txn_step (mk_world m (l1 ++ t :: l2)) (mk_world m' (l1 ++ l2))
| ws_refresh m l1 t l2 :
    txn_step (mk_world m (l1 ++ t :: l2)) (mk_world m (l1 ++ tdb_txn_refresh_snapshot m t :: l2))
| ws_savepoint m l1 t l2 name rc t' m' :
    tdb_txn_savepoint m t name = (rc, t', m') ->
    txn_step (mk_world m (l1 ++ t :: l2)) (mk_world m' (l1 ++ t' :: l2))
| ws_release m l1 t l2 name rc t' m' :
    tdb_txn_release m t name = (rc, t', m') ->
    txn_step (mk_world m (l1 ++ t :: l2)) (mk_world m' (l1 ++ t' :: l2))
| ws_rollback_to m l1 t l2 name rc t' m' :
    tdb_txn_rollback_to m t name = (rc, t', m') ->
    txn_step (mk_world m (l1 ++ t :: l2)) (mk_world m' (l1 ++ t' :: l2))
| ws_pager m ts p : txn_step (mk_world m ts) (mk_world (set_pager m p) ts)
| ws_locks m ts lm :
    txn_step (mk_world m ts)
      (mk_world (mk_txnmgr (tm_pager m) lm (tm_base m) (tm_next m) (tm_recs m) (tm_active m)) ts).

(** Sessions start with a manager opened on a pager. *)
Definition txn_reachable (w : world) : Prop :=
  exists p lm, 0 <= pager_max_txnid p < 2 ^ 64 - 1
  /\ rtc txn_step (mk_world (tdb_txnmgr_open p lm) []) w.

(** ** The invariant *)

(** What a snapshot remembers: every id below its bound that was not in
    flight then is settled for good. *)
Definition snap_ok (m : mgr) (t : tdb_txn) : Prop :=
  sn_self (t_snap t) = t_id t /\ sn_xmax (t_snap t) <= tm_next m
  /\ t_id t ∈ sn_active (t_snap t)
  /\ (forall x, x ∈ sn_active (t_snap t) -> x < sn_xmax (t_snap t))
  /\ (forall x, x < sn_xmax (t_snap t) -> x ∉ sn_active (t_snap t) -> x ∉ tm_active m).

Record mgr_inv (m : mgr) (ts : list tdb_txn) : Prop := {
  mi_ids : 0 <= tm_base m < tm_next m /\ tm_next m < 2 ^ 64;
  mi_recs : forall r, r ∈ tm_recs m -> tm_base m < x_id r < tm_next m;
  mi_active : forall x, x ∈ tm_active m <-> recs_find (tm_recs m) x = TDB_XACT_ACTIVE;
  mi_nodup : NoDup (tm_active m);
  mi_open : Permutation (map t_id ts) (tm_active m);
  mi_snaps : forall t, t ∈ ts -> snap_ok m t /\ t_state t = TDB_XACT_ACTIVE }.
Definition world_inv (w : world) : Prop := mgr_inv (w_mgr w) (w_open w).

Lemma recs_find_set rs id st x :
  recs_find (recs_set rs id st) x = if x =? id then st else recs_find rs x.
Proof.
  induction rs as [|r rs IH]; cbn [recs_set recs_find].
  { cbn. rewrite Z.eqb_sym. done. }
  destruct (Z.eqb_spec (x_id r) id) as [<-|]; cbn [recs_find x_id x_state].
  - rewrite (Z.eqb_sym x). by destruct (x_id r =? x).
  - rewrite IH. destruct (Z.eqb_spec (x_id r) x); destruct (Z.eqb_spec x id); congruence.
Qed.
Lemma recs_set_ids rs id st r :
  r ∈ recs_set rs id st -> x_id r = id \/ exists r', r' ∈ rs /\ x_id r' = x_id r.
Proof.
  induction rs as [|r0 rs IH]; cbn [recs_set]; [intros ->%list_elem_of_singleton; auto|].
  destruct (Z.eqb_spec (x_id r0) id); rewrite !elem_of_cons.
  - intros [->|Hr]; [auto|]. right. exists r. split; [by right|done].
  - intros [->|Hr]; [right; exists r0; split; [left|done]|].
    destruct (IH Hr) as [?|(r' & ? & ?)]; [auto|]. right. exists r'. split; [by right|done].
Qed.
Lemma recs_find_in rs x : recs_find rs x <> TDB_XACT_ABORTED -> exists r, r ∈ rs /\ x_id r = x.
Proof.
  induction rs as [|r rs IH]; [done|]. cbn [recs_find].
  destruct (Z.eqb_spec (x_id r) x) as [<-|]; [exists r; split; [left|done]|].
  intros (r' & Hr & E)%IH. exists r'. split; [by right|done].
Qed.

Lemma swap_remove_perm l id : id ∈ l -> Permutation l (id :: swap_remove l id).
Proof.
  induction l as [|a l IH]; [by intros ?%elem_of_nil|]. intros Hin. cbn [swap_remove].
  destruct (Z.eqb_spec a id) as [->|Hne].
  - destruct l as [|b l]; [done|]. constructor.
    rewrite (app_removelast_last b (l := b :: l)) at 1 by done. rewrite Permutation_app_comm. done.
  - apply elem_of_cons in Hin as [->|Hin]; [done|]. rewrite (IH Hin) at 1. constructor.
Qed.

(** The part of the manager that ids and snapshots depend on. *)
Definition core (m : mgr) := (tm_base m, tm_next m, tm_recs m, tm_active m).
Lemma core_state m m' x : core m = core m' -> tdb_txnmgr_state m x = tdb_txnmgr_state m' x.
Proof. unfold core, tdb_txnmgr_state. intros [= -> _ -> _]. done. Qed.
Lemma core_inv m m' ts : core m' = core m -> mgr_inv m ts -> mgr_inv m' ts.
Proof.
  unfold core. intros [= E1 E2 E3 E4] [I1 I2 I3 I4 I5 I6].
  split; rewrite ?E1, ?E2, ?E3, ?E4; try done. intros t Ht. destruct (I6 t Ht) as [Hs ?]. split; [|done].
  unfold snap_ok. by rewrite E2, E4.
Qed.
Lemma core_set_pager m p : core (set_pager m p) = core m.
Proof. done. Qed.
Lemma core_release_locks m id : core (release_locks m id) = core m.
Proof. unfold release_locks. by destruct (tm_locks m). Qed.

(** Ending a transaction. *)
Definition finish (m : mgr) (id : Z) (st : tdb_xstate) : mgr := active_remove (set_state m id st) id.
Lemma commit_core m t rc m' :
  tdb_txn_commit m t = (rc, m') ->
  core m' = core (finish m (t_id t) (if bool_decide (rc = TDB_OK) then TDB_XACT_COMMITTED else TDB_XACT_ABORTED)).
Proof.
  unfold tdb_txn_commit. destruct (t_writable t).
  - destruct (pager_commit _) as [rc' p']. intros [= <- <-]. rewrite core_release_locks. done.
  - intros [= <- <-]. rewrite core_release_locks. done.
Qed.
Lemma rollback_core m t : core (tdb_txn_rollback m t).2 = core (finish m (t_id t) TDB_XACT_ABORTED).
Proof.
  unfold tdb_txn_rollback. destruct (t_writable t); [destruct (pager_rollback _) as [rc' p']|];
    cbn [snd]; rewrite core_release_locks; done.
Qed.
Lemma savepoint_ops_core m t name :
  core (tdb_txn_savepoint m t name).2 = core m /\ core (tdb_txn_release m t name).2 = core m
  /\ core (tdb_txn_rollback_to m t name).2 = core m.
Proof.
  unfold tdb_txn_savepoint, tdb_txn_release, tdb_txn_rollback_to. split; [|split].
  - destruct (t_writable t); cbn; [|done]. destruct (pager_savepoint _) as [l p]. by destruct (l <? 0).
  - destruct (find_sp t name); [|done]. by destruct (pager_savepoint_release _ _).
  - destruct (find_sp t name); [|done]. by destruct (pager_savepoint_rollback _ _).
Qed.
(** The fields a savepoint operation leaves alone. *)
Definition txn_same (t t' : tdb_txn) : Prop :=
  t_id t' = t_id t /\ t_snap t' = t_snap t /\ t_state t' = t_state t.
Lemma savepoint_ops_txn m t name :
  txn_same t (tdb_txn_savepoint m t name).1.2 /\ txn_same t (tdb_txn_release m t name).1.2
  /\ txn_same t (tdb_txn_rollback_to m t name).1.2.
Proof.
  unfold tdb_txn_savepoint, tdb_txn_release, tdb_txn_rollback_to. split; [|split].
  - destruct (t_writable t); cbn; [|done]. destruct (pager_savepoint _) as [l p]. by destruct (l <? 0).
  - destruct (find_sp t name); [|done]. by destruct (pager_savepoint_release _ _).
  - destruct (find_sp t name); [|done]. by destruct (pager_savepoint_rollback _ _).
Qed.

(** An id that was handed out and is not in flight. *)
Definition settled (m : mgr) (x : Z) : Prop := x < tm_next m /\ x ∉ tm_active m.

Lemma open_active m l1 t l2 : mgr_inv m (l1 ++ t :: l2) -> t_id t ∈ tm_active m.
Proof. intros I. rewrite <- (mi_open _ _ I), map_app. set_solver. Qed.

Lemma finish_inv m l1 t l2 st :
  mgr_inv m (l1 ++ t :: l2) -> st <> TDB_XACT_ACTIVE -> mgr_inv (finish m (t_id t) st) (l1 ++ l2).
Proof.
  intros I Hst. pose proof (open_active _ _ _ _ I) as Hact. destruct I as [I1 I2 I3 I4 I5 I6].
  pose proof (swap_remove_perm _ _ Hact) as Hp. rewrite Hp in I4. apply NoDup_cons in I4 as [Hn Hnd].
  assert (forall x, x ∈ swap_remove (tm_active m) (t_id t) <-> x ∈ tm_active m /\ x <> t_id t) as Hsr.
  { intros x. rewrite Hp at 2. rewrite elem_of_cons. naive_solver. }
  split; cbn [finish active_remove set_state tm_base tm_next tm_recs tm_active]; try done.
  - intros r Hr. apply recs_set_ids in Hr as [->|(r' & Hr & <-)]; [|by apply I2].
    apply I3 in Hact. destruct (recs_find_in (tm_recs m) (t_id t)) as (r0 & Hr0 & <-); [by rewrite Hact|].
    by apply I2.
  - intros x. rewrite recs_find_set, Hsr. destruct (Z.eqb_spec x (t_id t)) as [->|]; [naive_solver|].
    rewrite I3. naive_solver.
  - rewrite map_app in *. cbn [map] in I5. rewrite <- Permutation_middle, Hp in I5. by apply Permutation_cons_inv in I5.
  - intros t' Ht'. destruct (I6 t') as [(S1 & S2 & S3 & S4 & S5) Hs]; [set_solver|]. split; [|done].
    repeat split; try done. intros x Hx Hxn. cbn. rewrite Hsr. intros [Hx' _]. by apply (S5 x).
Qed.

Lemma mgr_active_range m ts x : mgr_inv m ts -> x ∈ tm_active m -> tm_base m < x < tm_next m.
Proof.
  intros I Hx%(mi_active _ _ I). destruct (recs_find_in (tm_recs m) x) as (r & Hr & <-); [by rewrite Hx|].
  by apply (mi_recs _ _ I).
Qed.

(** The manager and transaction [tdb_txn_begin] builds. *)
Definition begun (m : mgr) (iso : tdb_isolation) (wr : bool) : mgr * tdb_txn :=
  let id := tm_next m in
  let m1 := active_add (set_state (mk_txnmgr (tm_pager m) (tm_locks m) (tm_base m) (u64 (id + 1)) (tm_recs m) (tm_active m))
                 id TDB_XACT_ACTIVE) id in
  (m1, take_snapshot m1 (mk_txn id iso (mk_snapshot 0 0 []) TDB_XACT_ACTIVE wr [])).
Lemma begun_inv m ts iso wr :
  mgr_inv m ts -> tm_next m + 1 < 2 ^ 64 -> mgr_inv (begun m iso wr).1 ((begun m iso wr).2 :: ts).
Proof.
  intros I Hn. pose proof (fun x => mgr_active_range m ts x I) as Hr. destruct I as [I1 I2 I3 I4 I5 I6].
  assert (recs_find (tm_recs m) (tm_next m) <> TDB_XACT_ACTIVE) as Hno.
  { rewrite <- I3. intros ?%Hr. lia. }
  unfold begun. split; cbn [fst snd active_add set_state tm_base tm_next tm_recs tm_active take_snapshot t_id map];
    rewrite ?u64_small by lia.
  - lia.
  - intros r Hr'. apply recs_set_ids in Hr' as [->|(r' & Hr' & <-)]; [lia|]. apply I2 in Hr'. lia.
  - intros x. rewrite recs_find_set, elem_of_app, list_elem_of_singleton, I3.
    destruct (Z.eqb_spec x (tm_next m)) as [->|]; naive_solver.
  - apply NoDup_app. split; [done|]. split; [|apply NoDup_singleton].
    intros x Hx ->%list_elem_of_singleton. apply Hr in Hx. lia.
  - rewrite <- I5. apply Permutation_cons_append.
  - intros t [->|Ht]%elem_of_cons.
    + split; [|done]. unfold snap_ok; cbn. rewrite ?u64_small by lia. repeat split; try done; try lia.
      * set_solver.
      * intros x [Hx|Hx]%elem_of_app; [apply Hr in Hx; lia|]. apply list_elem_of_singleton in Hx. lia.
    + destruct (I6 t Ht) as [(S1 & S2 & S3 & S4 & S5) Hs]. split; [|done].
      unfold snap_ok; cbn. rewrite ?u64_small by lia. repeat split; try done; try lia.
      intros x Hx Hxn [Hx'|Hx']%elem_of_app; [by apply (S5 x)|]. apply list_elem_of_singleton in Hx'. lia.
Qed.
Lemma begin_cases alloc_ok m iso wr rc o m' :
  tdb_txn_begin alloc_ok m iso wr = (rc, o, m') ->
  (o = None /\ m' = m)
  \/ (o = Some (begun m iso wr).2 /\ core m' = core (begun m iso wr).1)
  \/ (o = None /\ core m' = core (finish (begun m iso wr).1 (tm_next m) TDB_XACT_ABORTED)).
Proof.
  unfold tdb_txn_begin. destruct (alloc_ok 96); cbn [negb]; [|intros [= <- <- <-]; auto].
  fold (begun m iso wr). change (take_snapshot _ _) with (begun m iso wr).2.
  destruct wr; [|intros [= <- <- <-]; right; left; done].
  destruct (pager_begin _) as [rc' p]. case_bool_decide; intros [= <- <- <-]; right; [left|right]; (split; [done|]).
  - done.
  - rewrite rollback_core. done.
Qed.
Lemma finish_settled m ts id st x :
  mgr_inv m ts -> id ∈ tm_active m -> settled m x ->
  settled (finish m id st) x /\ tdb_txnmgr_state (finish m id st) x = tdb_txnmgr_state m x.
Proof.
  intros I Hid [H1 H2]. pose proof (swap_remove_perm _ _ Hid) as Hp. split; [split; [done|]|].
  - cbn. intros Hx. apply H2. rewrite Hp. by right.
  - unfold tdb_txnmgr_state. cbn. rewrite recs_find_set.
    destruct (Z.eqb_spec x id) as [->|]; [done|done].
Qed.
Lemma begun_settled m ts iso wr x :
  mgr_inv m ts -> tm_next m + 1 < 2 ^ 64 -> settled m x ->
  settled (begun m iso wr).1 x /\ tdb_txnmgr_state (begun m iso wr).1 x = tdb_txnmgr_state m x.
Proof.
  intros [I1 _ _ _ _ _] Hn [H1 H2]. unfold settled, tdb_txnmgr_state. cbn. rewrite u64_small by lia. split.
  - split; [lia|]. rewrite elem_of_app, list_elem_of_singleton. naive_solver lia.
  - rewrite recs_find_set. destruct (Z.eqb_spec x (tm_next m)); [lia|done].
Qed.

Lemma snap_same_inv m l1 t t' l2 :
  txn_same t t' -> mgr_inv m (l1 ++ t :: l2) -> mgr_inv m (l1 ++ t' :: l2).
Proof.
  intros (E1 & E2 & E3) [I1 I2 I3 I4 I5 I6]. split; try done.
  - by rewrite map_app in *; cbn in *; rewrite E1.
  - intros s Hs. apply elem_of_app in Hs as [Hs|[->|Hs]%elem_of_cons]; [apply I6; set_solver| |apply I6; set_solver].
    destruct (I6 t) as [Hk Hst]; [set_solver|]. unfold snap_ok. rewrite E1, E2, E3. done.
Qed.
Lemma refresh_inv m l1 t l2 :
  mgr_inv m (l1 ++ t :: l2) -> mgr_inv m (l1 ++ tdb_txn_refresh_snapshot m t :: l2).
Proof.
  intros I. pose proof (open_active _ _ _ _ I) as Ha. pose proof (fun x => mgr_active_range m _ x I) as Hr.
  destruct I as [I1 I2 I3 I4 I5 I6]. split; try done.
  - by rewrite map_app in *.
  - intros s Hs. apply elem_of_app in Hs as [Hs|[->|Hs]%elem_of_cons]; [apply I6; set_solver| |apply I6; set_solver].
    destruct (I6 t) as [_ Hst]; [set_solver|]. split; [|done]. unfold snap_ok; cbn. repeat split; try done.
    intros x Hx%Hr. lia.
Qed.

Lemma txn_step_inv w w' : world_inv w -> txn_step w w' -> world_inv w'.
Proof.
  intros I Hs. unfold world_inv in *.
  destruct Hs as [a m ts iso wr rc t m' Hn E|a m ts iso wr rc m' Hn E|m l1 t l2 rc m' E|m l1 t l2 rc m' E
    |m l1 t l2|m l1 t l2 name rc t' m' E|m l1 t l2 name rc t' m' E|m l1 t l2 name rc t' m' E|m ts p|m ts lm];
    cbn [w_mgr w_open] in *.
  - apply begin_cases in E as [[? _]|[[[= ->] Ec]|[? _]]]; [done| |done].
    eapply core_inv; [exact Ec|]. by apply begun_inv.
  - apply begin_cases in E as [[_ ->]|[[? _]|[_ Ec]]]; [done|done|].
    eapply core_inv; [exact Ec|]. apply (finish_inv _ [] (begun m iso wr).2 ts); [by apply begun_inv|done].
  - apply commit_core in E. eapply core_inv; [exact E|]. apply finish_inv; [done|]. by case_bool_decide.
  - pose proof (rollback_core m t) as Ec. rewrite E in Ec. eapply core_inv; [exact Ec|]. by apply finish_inv.
  - by apply refresh_inv.
  - pose proof (savepoint_ops_core m t name) as (Ec & _). pose proof (savepoint_ops_txn m t name) as (Et & _).
    rewrite E in Ec, Et. eapply core_inv; [exact Ec|]. by eapply snap_same_inv.
  - pose proof (savepoint_ops_core m t name) as (_ & Ec & _). pose proof (savepoint_ops_txn m t name) as (_ & Et & _).
    rewrite E in Ec, Et. eapply core_inv; [exact Ec|]. by eapply snap_same_inv.
  - pose proof (savepoint_ops_core m t name) as (_ & _ & Ec). pose proof (savepoint_ops_txn m t name) as (_ & _ & Et).
    rewrite E in Ec, Et. eapply core_inv; [exact Ec|]. by eapply snap_same_inv.
  - by apply (core_inv m).
  - by apply (core_inv m).
Qed.

(** The state of a settled id never changes. *)
Lemma core_settled (m m' m'' : mgr) x :
  core m' = core m'' -> settled m'' x /\ tdb_txnmgr_state m'' x = tdb_txnmgr_state m x ->
  settled m' x /\ tdb_txnmgr_state m' x = tdb_txnmgr_state m x.
Proof. intros Ec [Hs He]. rewrite (core_state m' m'') by done. split; [|done].
  injection Ec as E1 E2 E3 E4. unfold settled in *. by rewrite E2, E4. Qed.
Lemma txn_step_settled w w' x :
  world_inv w -> txn_step w w' -> settled (w_mgr w) x ->
  settled (w_mgr w') x /\ tdb_txnmgr_state (w_mgr w') x = tdb_txnmgr_state (w_mgr w) x.
Proof.
  intros I Hs Hx. unfold world_inv in *.
  destruct Hs as [a m ts iso wr rc t m' Hn E|a m ts iso wr rc m' Hn E|m l1 t l2 rc m' E|m l1 t l2 rc m' E
    |m l1 t l2|m l1 t l2 name rc t' m' E|m l1 t l2 name rc t' m' E|m l1 t l2 name rc t' m' E|m ts p|m ts lm];
    cbn [w_mgr w_open] in *; try done.
  - apply begin_cases in E as [[? _]|[[[= ->] Ec]|[? _]]]; [done| |done].
    eapply core_settled; [exact Ec|]. by eapply begun_settled.
  - apply begin_cases in E as [[_ ->]|[[? _]|[_ Ec]]]; [done|done|].
    eapply core_settled; [exact Ec|]. pose proof (begun_inv m ts iso wr I Hn) as I'.
    destruct (begun_settled m ts iso wr x I Hn Hx) as [Hs' <-].
    eapply finish_settled; [exact I'| |done]. apply (open_active _ [] _ _ I').
  - apply commit_core in E. eapply core_settled; [exact E|]. eapply finish_settled; [done| |done]. by eapply open_active.
  - pose proof (rollback_core m t) as Ec. rewrite E in Ec. eapply core_settled; [exact Ec|].
    eapply finish_settled; [done| |done]. by eapply open_active.
  - pose proof (savepoint_ops_core m t name) as (Ec & _). rewrite E in Ec. by eapply core_settled.
  - pose proof (savepoint_ops_core m t name) as (_ & Ec & _). rewrite E in Ec. by eapply core_settled.
  - pose proof (savepoint_ops_core m t name) as (_ & _ & Ec). rewrite E in Ec. by eapply core_settled.
Qed.

Lemma txn_steps_settled w w' x :
  world_inv w -> rtc txn_step w w' -> settled (w_mgr w) x ->
  world_inv w' /\ settled (w_mgr w') x /\ tdb_txnmgr_state (w_mgr w') x = tdb_txnmgr_state (w_mgr w) x.
Proof.
  intros I Hs. revert I. induction Hs as [w|w1 w2 w3 H12 _ IH]; intros I Hx; [done|].
  destruct (txn_step_settled _ _ _ I H12 Hx) as [Hx2 E2].
  destruct (IH (txn_step_inv _ _ I H12) Hx2) as (I3 & Hx3 & E3). by rewrite E3, E2.
Qed.
Lemma txn_steps_inv w w' : world_inv w -> rtc txn_step w w' -> world_inv w'.
Proof. intros I Hs. revert I. induction Hs as [w|w1 w2 w3 H12 _ IH]; eauto using txn_step_inv. Qed.
Lemma txn_reachable_inv w : txn_reachable w -> world_inv w.
Proof.
  intros (p & lm & Hp & Hs). eapply txn_steps_inv; [|exact Hs].
  unfold world_inv, tdb_txnmgr_open. cbn [w_mgr w_open]. split; cbn; rewrite ?u64_small by lia; try lia; try done.
  - intros r Hr. by apply elem_of_nil in Hr.
  - intros x. split; [by intros ?%elem_of_nil|done].
  - constructor.
  - intros t Ht. by apply elem_of_nil in Ht.
Qed.

(** The specification of a snapshot taken by [self] in state [m0]: the
    versions created by [self] or by a transaction committed in [m0], and not
    deleted by one of those. *)
Definition snapshot_sees (m0 : mgr) (self x : Z) : Prop :=
  x = self \/ tdb_txnmgr_state m0 x = TDB_XACT_COMMITTED.
Definition snapshot_spec (m0 : mgr) (self xmin xmax : Z) : Prop :=
  snapshot_sees m0 self xmin /\ (xmax = 0 \/ ~ snapshot_sees m0 self xmax).

Lemma state_unassigned m ts x : mgr_inv m ts -> tm_next m <= x -> tdb_txnmgr_state m x = TDB_XACT_ABORTED.
Proof.
  intros I Hx. pose proof (mi_ids _ _ I). unfold tdb_txnmgr_state.
  destruct (Z.eqb_spec x 0); [done|]. destruct (Z.leb_spec x (tm_base m)); [lia|].
  destruct (recs_find (tm_recs m) x) eqn:E; try done;
    destruct (recs_find_in (tm_recs m) x) as (r & Hr & <-); try (by rewrite E); apply (mi_recs _ _ I) in Hr; lia.
Qed.
Lemma state_active m ts x : mgr_inv m ts -> x ∈ tm_active m -> tdb_txnmgr_state m x = TDB_XACT_ACTIVE.
Proof.
  intros I Hx. pose proof (mgr_active_range _ _ _ I Hx). pose proof (mi_ids _ _ I).
  apply (mi_active _ _ I) in Hx. unfold tdb_txnmgr_state.
  destruct (Z.eqb_spec x 0); [lia|]. destruct (Z.leb_spec x (tm_base m)); [lia|done].
Qed.

Lemma begun_sees m ts iso wr w x :
  mgr_inv m ts -> tm_next m + 1 < 2 ^ 64 ->
  rtc txn_step (mk_world (begun m iso wr).1 ((begun m iso wr).2 :: ts)) w ->
  xid_visible (tdb_txnmgr_state (w_mgr w)) (t_snap (begun m iso wr).2) x = true
  <-> snapshot_sees m (tm_next m) x.
Proof.
  intros I Hn Hrun. rewrite xid_visible_spec. unfold snapshot_sees. cbn -[u64].
  pose proof (mi_ids _ _ I). rewrite u64_small by lia. rewrite elem_of_app, list_elem_of_singleton.
  destruct (decide (x = tm_next m)) as [->|Hne]; [naive_solver|].
  destruct (decide (x ∈ tm_active m)) as [Hact|Hact].
  { rewrite (state_active m ts x I Hact). naive_solver. }
  destruct (Z.lt_ge_cases x (tm_next m)).
  - assert (settled m x) as Hx by done.
    destruct (begun_settled m ts iso wr x I Hn Hx) as [Hx1 E1].
    destruct (txn_steps_settled (mk_world (begun m iso wr).1 ((begun m iso wr).2 :: ts)) w x
      (begun_inv m ts iso wr I Hn) Hrun Hx1) as (_ & _ & E2).
    cbn [w_mgr] in E2. rewrite E2, E1. naive_solver lia.
  - rewrite (state_unassigned m ts x I) by lia. naive_solver lia.
Qed.

(** The run after a [tdb_txn_begin] starts, up to the pager and the locks,
    from [begun]. *)
Lemma begin_run alloc_ok m ts iso wr rc t m1 :
  tdb_txn_begin alloc_ok m iso wr = (rc, Some t, m1) ->
  t = (begun m iso wr).2 /\ txn_step (mk_world (begun m iso wr).1 (t :: ts))
       (mk_world (set_pager (begun m iso wr).1 (tm_pager m1)) (t :: ts))
  /\ txn_step (mk_world (set_pager (begun m iso wr).1 (tm_pager m1)) (t :: ts)) (mk_world m1 (t :: ts)).
Proof.
  intros E. apply begin_cases in E as [[? _]|[[[= ->] Ec]|[? _]]]; [done| |done].
  split; [done|]. split; [apply ws_pager|].
  destruct m1 as [p lm b n rs ac]. unfold core in Ec. cbn [tm_base tm_next tm_recs tm_active] in Ec.
  injection Ec as -> -> -> ->. apply (ws_locks (set_pager (begun m iso wr).1 p) ((begun m iso wr).2 :: ts) lm).
Qed.

(** ** Savepoints *)

Section Savepoints.
Context {V : Type} `{!PagerTxnLaws P V}.

(** Savepoint levels of the transaction are the positions of the pager's
    stack. *)
Definition sp_sync (m : mgr) (t : tdb_txn) : Prop :=
  pg_ok (tm_pager m) /\ length (t_sps t) = length (pg_saved (tm_pager m))
  /\ forall i n l, t_sps t !! i = Some (n, l) -> l = Z.of_nat i.

(** What a transaction does with [k] savepoints it does not touch: change
    pages, and open, release or roll back to savepoints above them. *)
Inductive sp_step (k : nat) : mgr * tdb_txn -> mgr * tdb_txn -> Prop :=
| sp_write m t p :
    pg_ok p -> pg_saved p = pg_saved (tm_pager m) -> sp_step k (m, t) (set_pager m p, t)
| sp_open m t name rc t' m' :
    tdb_txn_savepoint m t name = (rc, t', m') -> sp_step k (m, t) (m', t')
| sp_release m t name rc t' m' i :
    find_sp t name = Some i -> (k <= i)%nat ->
    tdb_txn_release m t name = (rc, t', m') -> sp_step k (m, t) (m', t')
| sp_back m t name rc t' m' i :
    find_sp t name = Some i -> (k <= i)%nat ->
    tdb_txn_rollback_to m t name = (rc, t', m') -> sp_step k (m, t) (m', t').

Lemma find_sp_lt t name i : find_sp t name = Some i -> exists x, t_sps t !! i = Some x.
Proof.
  unfold find_sp. generalize (length (t_sps t)). intros n. induction n as [|n IH]; cbn [find_sp_from]; [done|].
  destruct (t_sps t !! n) as [[nm l]|] eqn:E; [|done]. destruct (strcasecmp nm name =? 0); [|done].
  intros [= <-]. eauto.
Qed.
Lemma sp_savepoint_spec m t name rc t' m' :
  sp_sync m t -> tdb_txn_savepoint m t name = (rc, t', m') ->
  sp_sync m' t'
  /\ ((t' = t /\ pg_saved (tm_pager m') = pg_saved (tm_pager m))
      \/ (rc = TDB_OK /\ t_sps t' = t_sps t ++ [(cstr name, Z.of_nat (length (t_sps t)))]
          /\ pg_saved (tm_pager m') = pg_saved (tm_pager m) ++ [pg_view (tm_pager m)]
          /\ pg_view (tm_pager m') = pg_view (tm_pager m))).
Proof.
  intros (Hok & Hl & Hi). unfold tdb_txn_savepoint. destruct (t_writable t); cbn [negb].
  2: { intros [= <- <- <-]. repeat split; auto. }
  destruct (pg_savepoint_law (tm_pager m) Hok) as [E|(E1 & E2 & E3 & E4)].
  { rewrite E. intros [= <- <- <-]. repeat split; auto. }
  destruct (pager_savepoint (tm_pager m)) as [lv p]. cbn [fst snd] in *. subst lv.
  destruct (Z.ltb_spec (Z.of_nat (length (pg_saved (tm_pager m)))) 0); [lia|].
  intros [= <- <- <-]. cbn. rewrite E2, <- Hl. split; [|right; auto].
  split; [done|]. cbn. rewrite E2, !length_app. cbn. split; [lia|].
  intros i n l. destruct (decide (i < length (t_sps t))%nat).
  - rewrite lookup_app_l by done. apply Hi.
  - rewrite lookup_app_r by lia. intros [Hz [= <- <-]]%list_lookup_singleton_Some. lia.
Qed.
Lemma sp_sync_level m t i : sp_sync m t -> (i < length (t_sps t))%nat -> sp_level t i = Z.of_nat i.
Proof.
  intros (_ & _ & Hi) Hlt. unfold sp_level. destruct (lookup_lt_is_Some_2 _ _ Hlt) as [[n l] E]. rewrite E. eauto.
Qed.
Lemma sp_sync_take m t p i :
  sp_sync m t -> pg_ok p -> pg_saved p = take i (pg_saved (tm_pager m)) ->
  sp_sync (set_pager m p) (set_sps t (take i (t_sps t))).
Proof.
  intros (_ & Hl & Hi) Hok Hs. split; [done|]. cbn. rewrite Hs, !length_take, Hl. split; [done|].
  intros j n l. rewrite lookup_take_Some. intros [E _]. eauto.
Qed.
Lemma sp_release_spec m t name rc t' m' i :
  sp_sync m t -> find_sp t name = Some i -> tdb_txn_release m t name = (rc, t', m') ->
  sp_sync m' t' /\ rc = TDB_OK /\ t_sps t' = take i (t_sps t)
  /\ pg_saved (tm_pager m') = take i (pg_saved (tm_pager m)) /\ pg_view (tm_pager m') = pg_view (tm_pager m).
Proof.
  intros Hs Hf. pose proof (find_sp_lt _ _ _ Hf) as [x Hx%lookup_lt_Some]. unfold tdb_txn_release. rewrite Hf.
  pose proof Hs as (Hok & Hl & _). rewrite (sp_sync_level m) by done.
  destruct (pg_release_law (tm_pager m) (Z.of_nat i) Hok) as (E1 & E2 & E3 & E4); [lia|].
  destruct (pager_savepoint_release (tm_pager m) (Z.of_nat i)) as [rc' p]. cbn [fst snd] in *.
  rewrite Nat2Z.id in E2. intros [= <- <- <-]. split; [by apply sp_sync_take|done].
Qed.
Lemma sp_back_spec m t name rc t' m' i :
  sp_sync m t -> find_sp t name = Some i -> tdb_txn_rollback_to m t name = (rc, t', m') ->
  sp_sync m' t' /\ rc = TDB_OK /\ t_sps t' = take (S i) (t_sps t)
  /\ pg_saved (tm_pager m') = take (S i) (pg_saved (tm_pager m))
  /\ pg_saved (tm_pager m) !! i = Some (pg_view (tm_pager m')).
Proof.
  intros Hs Hf. pose proof (find_sp_lt _ _ _ Hf) as [x Hx%lookup_lt_Some]. unfold tdb_txn_rollback_to. rewrite Hf.
  pose proof Hs as (Hok & Hl & _). rewrite (sp_sync_level m) by done.
  destruct (lookup_lt_is_Some_2 (pg_saved (tm_pager m)) i) as [v Hv]; [lia|].
  destruct (pg_rollback_law (tm_pager m) (Z.of_nat i) v Hok) as (E1 & E2 & E3 & E4); [lia|by rewrite Nat2Z.id|].
  destruct (pager_savepoint_rollback (tm_pager m) (Z.of_nat i)) as [rc' p]. cbn [fst snd] in *.
  rewrite Nat2Z.id in E2. intros [= <- <- <-]. split; [by apply sp_sync_take|]. cbn. rewrite E3. done.
Qed.

(** The lower [k] savepoints, and what the pager saved for them, stay. *)
Lemma sp_step_keeps k m t m' t' :
  sp_step k (m, t) (m', t') -> sp_sync m t -> (k <= length (t_sps t))%nat ->
  sp_sync m' t' /\ (k <= length (t_sps t'))%nat /\ take k (t_sps t') = take k (t_sps t)
  /\ take k (pg_saved (tm_pager m')) = take k (pg_saved (tm_pager m)).
Proof.
  intros Hst Hs Hk. pose proof Hs as (_ & Hl & _).
  inversion Hst as [? ? p Hok Hsv|? ? name rc ? ? E|? ? name rc ? ? i Hf Hi E|? ? name rc ? ? i Hf Hi E]; subst.
  - destruct Hs as (? & ? & ?). repeat split; cbn; rewrite ?Hsv; auto.
  - destruct (sp_savepoint_spec _ _ _ _ _ _ Hs E) as [Hs' [(-> & E')|(_ & E1 & E2 & _)]].
    + by rewrite E'.
    + rewrite E1, E2, !take_app_le, length_app by lia. split; [done|]. split; [lia|done].
  - pose proof (find_sp_lt _ _ _ Hf) as [x Hx%lookup_lt_Some].
    destruct (sp_release_spec _ _ _ _ _ _ _ Hs Hf E) as (Hs' & _ & E1 & E2 & _).
    rewrite E1, E2, !take_take, length_take, !Nat.min_l by lia. split; [exact Hs'|]. split; [lia|done].
  - pose proof (find_sp_lt _ _ _ Hf) as [x Hx%lookup_lt_Some].
    destruct (sp_back_spec _ _ _ _ _ _ _ Hs Hf E) as (Hs' & _ & E1 & E2 & _).
    rewrite E1, E2, !take_take, length_take, !Nat.min_l by lia. split; [exact Hs'|]. split; [lia|done].
Qed.
Lemma sp_steps_keep k s s' :
  rtc (sp_step k) s s' -> sp_sync s.1 s.2 -> (k <= length (t_sps s.2))%nat ->
  sp_sync s'.1 s'.2 /\ take k (t_sps s'.2) = take k (t_sps s.2)
  /\ take k (pg_saved (tm_pager s'.1)) = take k (pg_saved (tm_pager s.1)).
Proof.
  induction 1 as [|[m t] [m2 t2] s3 H12 _ IH]; intros Hs Hk; [done|]. cbn [fst snd] in *.
  apply sp_step_keeps in H12 as (Hs2 & Hk2 & E1 & E2); [|done..].
  destruct (IH Hs2 Hk2) as (Hs3 & E3 & E4). by rewrite E3, E4, E1, E2.
Qed.
End Savepoints.

(** ** Properties *)

(** Visibility to a transaction in every state after it began. *)
Lemma begin_visible alloc_ok m0 ts iso wr rc t m1 w t' xmin xmax :
  txn_reachable (mk_world m0 ts) -> tm_next m0 + 1 < 2 ^ 64 ->
  tdb_txn_begin alloc_ok m0 iso wr = (rc, Some t, m1) ->
  rtc txn_step (mk_world m1 (t :: ts)) w -> t_snap t' = t_snap t ->
  tdb_txn_visible (w_mgr w) t' xmin xmax = true <-> snapshot_spec m0 (t_id t) xmin xmax.
Proof.
  intros I%txn_reachable_inv Hn Hb Hrun Hsnap. destruct (begin_run _ _ ts _ _ _ _ _ Hb) as (-> & S1 & S2).
  assert (rtc txn_step (mk_world (begun m0 iso wr).1 ((begun m0 iso wr).2 :: ts)) w) as Hr
    by (eapply rtc_l; [exact S1|]; eapply rtc_l; [exact S2|exact Hrun]).
  pose proof (fun x => begun_sees m0 ts iso wr w x I Hn Hr) as Hv.
  unfold tdb_txn_visible, snapshot_spec. rewrite Hsnap, mvcc_visible_spec, Hv.
  change (t_id (begun m0 iso wr).2) with (tm_next m0).
  change (sn_self (t_snap (begun m0 iso wr).2)) with (tm_next m0).
  rewrite <- (Hv xmax), not_true_iff_false. split; [naive_solver|]. intros [H1 [H2|H2]]; [auto|].
  split; [done|]. right. split; [|done]. intros ->.
  assert (xid_visible (tdb_txnmgr_state (w_mgr w)) (t_snap (begun m0 iso wr).2) (tm_next m0) = true) as E
    by (apply Hv; by left). by rewrite E in H2.
Qed.
(** C2. Snapshot isolation: a transaction begun in state [m0] sees, as long as
    it keeps its snapshot and whatever other transactions do meanwhile
    (begin, commit, roll back, refresh, fail), exactly the row versions that
    were created by itself or by transactions committed in [m0] and not
    deleted by one of those: no dirty reads, no non-repeatable reads, no
    phantoms. *)
Theorem snapshot_isolation alloc_ok m0 ts iso wr rc t m1 w t' xmin xmax :
  txn_reachable (mk_world m0 ts) -> tm_next m0 + 1 < 2 ^ 64 ->
  tdb_txn_begin alloc_ok m0 iso wr = (rc, Some t, m1) ->
  rtc txn_step (mk_world m1 (t :: ts)) w -> t_snap t' = t_snap t ->
  tdb_txn_visible (w_mgr w) t' xmin xmax = true <-> snapshot_spec m0 (t_id t) xmin xmax.
Proof. apply begin_visible. Qed.

(** C40. The bookkeeping of the manager is right in every reachable state: the
    active list holds exactly the ids of the open transactions, each once; an
    open transaction is in state ACTIVE; ids of the next transactions are
    unused; and the state of an id that is not in flight never changes again
    in any continuation. *)
Theorem txn_manager_invariant w w' x :
  txn_reachable w -> rtc txn_step w w' ->
  NoDup (tm_active (w_mgr w')) /\ Permutation (map t_id (w_open w')) (tm_active (w_mgr w'))
  /\ (forall t, t ∈ w_open w' -> tdb_txnmgr_state (w_mgr w') (t_id t) = TDB_XACT_ACTIVE)
  /\ (tm_next (w_mgr w') <= x -> tdb_txnmgr_state (w_mgr w') x = TDB_XACT_ABORTED)
  /\ (x < tm_next (w_mgr w) -> x ∉ tm_active (w_mgr w) ->
      tdb_txnmgr_state (w_mgr w') x = tdb_txnmgr_state (w_mgr w) x).
Proof.
  intros I%txn_reachable_inv Hr. pose proof (txn_steps_inv _ _ I Hr) as I'.
  split; [apply (mi_nodup _ _ I')|]. split; [apply (mi_open _ _ I')|]. split; [|split].
  - intros t Ht. apply (state_active _ _ _ I'). rewrite <- (mi_open _ _ I').
    apply list_elem_of_In, in_map, list_elem_of_In, Ht.
  - by apply (state_unassigned _ _ _ I').
  - intros H1 H2. by apply (txn_steps_settled w w').
Qed.

(** C38. Savepoints: after [SAVEPOINT name], whatever the transaction then
    writes and whatever nested savepoints it opens, releases or rolls back
    to, [ROLLBACK TO name] (when it designates that savepoint) succeeds and
    gives back the pager contents of the moment the savepoint was opened,
    keeping that savepoint and discarding the nested ones.  The pager is any
    one that satisfies [PagerTxnLaws]. *)
Theorem savepoint_rollback_restores {V} `{!PagerTxnLaws P V} m t name t1 m1 m2 t2 rc t3 m3 :
  sp_sync m t -> tdb_txn_savepoint m t name = (TDB_OK, t1, m1) ->
  rtc (sp_step (S (length (t_sps t)))) (m1, t1) (m2, t2) ->
  find_sp t2 name = Some (length (t_sps t)) ->
  tdb_txn_rollback_to m2 t2 name = (rc, t3, m3) ->
  rc = TDB_OK /\ pg_view (tm_pager m3) = pg_view (tm_pager m) /\ t_sps t3 = t_sps t1 /\ sp_sync m3 t3.
Proof.
  intros Hs Ho Hrun Hf Hb. pose proof Hs as (_ & Hl & _). set (k := length (t_sps t)) in *.
  destruct (sp_savepoint_spec _ _ _ _ _ _ Hs Ho) as [Hs1 [(-> & E)|(_ & E1 & E2 & _)]].
  { unfold tdb_txn_savepoint in Ho. destruct (t_writable t); cbn in Ho; [|done].
    destruct (pager_savepoint _) as [lv p]. destruct (lv <? 0); [done|]. injection Ho as Ht _.
    apply (f_equal t_sps) in Ht. cbn in Ht. apply (f_equal length) in Ht. rewrite length_app in Ht. cbn in Ht. lia. }
  assert (length (t_sps t1) = S k) as Hk by (rewrite E1, length_app; cbn; lia).
  destruct (sp_steps_keep (S k) _ _ Hrun) as (Hs2 & K1 & K2); [done|cbn; lia|]. cbn [fst snd] in *.
  destruct (sp_back_spec _ _ _ _ _ _ _ Hs2 Hf Hb) as (Hs3 & -> & B1 & B2 & B3).
  split; [done|]. split; [|split; [|done]].
  - assert (pg_saved (tm_pager m1) !! k = Some (pg_view (tm_pager m))) as Hv.
    { rewrite E2, lookup_app_r by lia. replace (k - length (pg_saved (tm_pager m)))%nat with O by lia. done. }
    rewrite <- (lookup_take_lt (pg_saved (tm_pager m1)) (S k)) in Hv by lia.
    rewrite <- (lookup_take_lt (pg_saved (tm_pager m2)) (S k)), K2 in B3 by lia. congruence.
  - rewrite B1, K1. apply take_ge. lia.
Qed.
End Runs.
Arguments world : clear implicits.

(** ** A one-cell pager, to run the definitions on *)

Module CellPager.
Record cell := mk_cell { c_now : Z; c_durable : Z; c_max : Z; c_sps : list Z }.
#[global] Instance cell_ops : PagerTxn cell := {
  pager_begin c := (TDB_OK, c);
  pager_commit c := (TDB_OK, mk_cell (c_now c) (c_now c) (c_max c) []);
  pager_rollback c := (TDB_OK, mk_cell (c_durable c) (c_durable c) (c_max c) []);
  pager_savepoint c :=
    (Z.of_nat (length (c_sps c)), mk_cell (c_now c) (c_durable c) (c_max c) (c_sps c ++ [c_now c]));
  pager_savepoint_release c l :=
    (TDB_OK, mk_cell (c_now c) (c_durable c) (c_max c) (take (Z.to_nat l) (c_sps c)));
  pager_savepoint_rollback c l :=
    (TDB_OK, mk_cell (nth (Z.to_nat l) (c_sps c) 0) (c_durable c) (c_max c) (take (S (Z.to_nat l)) (c_sps c)));
  pager_max_txnid := c_max;
  pager_set_max_txnid c v := mk_cell (c_now c) (c_durable c) v (c_sps c) }.
#[global] Instance cell_laws : PagerTxnLaws cell Z.
Proof.
  refine {| pg_ok := fun _ => True; pg_view := c_now; pg_saved := c_sps |}.
  - intros p _. right. auto.
  - intros p level _ _. auto.
  - intros p level v _ _ Hv. repeat split. cbn. rewrite nth_lookup, Hv. done.
Defined.

Definition all_ok : Z -> bool := fun _ => true.
Definition m0 : tdb_txnmgr cell := tdb_txnmgr_open (mk_cell 10 10 4 []) None.
Definition b1 := tdb_txn_begin all_ok m0 TDB_ISO_SNAPSHOT true.
Definition t1 : tdb_txn := match b1.1.2 with Some t => t | None => mk_txn 0 TDB_ISO_SNAPSHOT (mk_snapshot 0 0 []) TDB_XACT_ABORTED false [] end.
Definition b2 := tdb_txn_begin all_ok b1.2 TDB_ISO_SNAPSHOT true.
Definition t2 : tdb_txn := match b2.1.2 with Some t => t | None => t1 end.
Definition m3 := (tdb_txn_commit b2.2 t1).2.
Lemma m0_reachable : txn_reachable (mk_world m0 []).
Proof. exists (mk_cell 10 10 4 []), None. split; [cbn; lia|]. apply rtc_refl. Qed.
Lemma b1_reachable : txn_reachable (mk_world b1.2 [t1]).
Proof.
  exists (mk_cell 10 10 4 []), None. split; [cbn; lia|].
  apply rtc_once, (ws_begin all_ok m0 [] TDB_ISO_SNAPSHOT true TDB_OK); [reflexivity|reflexivity].
Qed.
Lemma b2_begin : tdb_txn_begin all_ok b1.2 TDB_ISO_SNAPSHOT true = (TDB_OK, Some t2, b2.2).
Proof. vm_compute. reflexivity. Qed.
Lemma m3_commit : tdb_txn_commit b2.2 t1 = (TDB_OK, m3).
Proof. vm_compute. reflexivity. Qed.
Definition w3 : world cell := mk_world m3 [t2].
Lemma b2_to_w3 : rtc txn_step (mk_world b2.2 [t2; t1]) w3.
Proof. apply rtc_once. exact (ws_commit b2.2 [t2] t1 [] TDB_OK m3 m3_commit). Qed.
End CellPager.

(** Transaction 6 begins while 5 is in flight; 5 commits; a row created by 5
    stays invisible to 6. *)
Lemma snapshot_isolation_witness :
  tdb_txn_visible (w_mgr CellPager.w3) CellPager.t2 5 0 = true
  <-> snapshot_spec CellPager.b1.2 (t_id CellPager.t2) 5 0.
Proof.
  exact (snapshot_isolation CellPager.all_ok CellPager.b1.2 [CellPager.t1] TDB_ISO_SNAPSHOT true TDB_OK
    CellPager.t2 CellPager.b2.2 CellPager.w3 CellPager.t2 5 0
    CellPager.b1_reachable eq_refl CellPager.b2_begin CellPager.b2_to_w3 eq_refl).
Defined.
Lemma txn_manager_invariant_witness :
  tdb_txnmgr_state CellPager.b1.2 4 = tdb_txnmgr_state CellPager.m0 4.
Proof.
  destruct (txn_manager_invariant (mk_world CellPager.m0 []) (mk_world CellPager.b1.2 [CellPager.t1]) 4
              CellPager.m0_reachable) as (_ & _ & _ & _ & H).
  - apply rtc_once, (ws_begin CellPager.all_ok CellPager.m0 [] TDB_ISO_SNAPSHOT true TDB_OK); reflexivity.
  - apply H; [reflexivity|by intros ?%elem_of_nil].
Defined.
(** The name "a"; the cell is overwritten by 77 and restored to 10. *)
Lemma savepoint_rollback_restores_witness :
  let sp := tdb_txn_savepoint CellPager.b1.2 CellPager.t1 [97] in
  let w := set_pager sp.2 (CellPager.mk_cell 77 10 4 [10]) in
  CellPager.c_now (tm_pager (tdb_txn_rollback_to w sp.1.2 [97]).2) = 10.
Proof.
  destruct (savepoint_rollback_restores (V := Z) CellPager.b1.2 CellPager.t1 [97]
    (tdb_txn_savepoint CellPager.b1.2 CellPager.t1 [97]).1.2 (tdb_txn_savepoint CellPager.b1.2 CellPager.t1 [97]).2
    (set_pager (tdb_txn_savepoint CellPager.b1.2 CellPager.t1 [97]).2 (CellPager.mk_cell 77 10 4 [10]))
    (tdb_txn_savepoint CellPager.b1.2 CellPager.t1 [97]).1.2 TDB_OK
    (tdb_txn_savepoint CellPager.b1.2 CellPager.t1 [97]).1.2
    (tdb_txn_rollback_to (set_pager (tdb_txn_savepoint CellPager.b1.2 CellPager.t1 [97]).2 (CellPager.mk_cell 77 10 4 [10]))
       (tdb_txn_savepoint CellPager.b1.2 CellPager.t1 [97]).1.2 [97]).2)
    as (_ & H & _).
  - split; [done|]. split; [done|]. intros i n l E. cbn in E. done.
  - reflexivity.
  - apply rtc_once, sp_write; reflexivity || done.
  - reflexivity.
  - reflexivity.
  - exact H.
Defined.
