(* ===== verification/File.v ===== *)
(** * Files (src/src/storage/tdb_file.[ch]) and the page codec
    (src/src/storage/tdb_compress.[ch])

    All storage goes through a table of file operations.  [Vfs] is that table
    and [VfsLaws] what the log and the pager rely on; the in-memory file
    system is an instance. *)
From S2P Require Import Prelude.

(** ** The interface *)

Class Vfs (F : Type) := {
  vfs_read : F -> Z -> Z -> tdb_status * list Z;       (* n, off *)
  vfs_write : F -> list Z -> Z -> tdb_status * F;      (* bytes, off *)
  vfs_sync : F -> tdb_status * F;
  vfs_truncate : F -> Z -> tdb_status * F;
  vfs_filesize : F -> tdb_status * Z }.

(** [n] bytes at [off]; a read past the end of the file is zero-filled. *)
Definition read_at (c : list Z) (n off : Z) : list Z :=
  bsub c off n ++ bzero (n - blen (bsub c off n)).

(** The promises: operations that report [TDB_OK] have done their work.  A
    write may start inside the file or at its end, truncation shortens a file;
    operations may fail.  The POSIX operations and the in-memory ones keep
    these promises; the truncation of the stdio fallback (Windows), which does
    nothing and reports success, does not, and a development over that table
    has no instance. *)
Class VfsLaws (F : Type) `{Vfs F} := {
  vfs_contents : F -> list Z;
  vfs_wf : F -> Prop;
  vfs_read_law f n off :
    vfs_wf f -> 0 <= n -> 0 <= off -> (vfs_read f n off).1 = TDB_OK ->
    (vfs_read f n off).2 = read_at (vfs_contents f) n off;
  vfs_write_law f src off :
    vfs_wf f -> 0 <= off <= blen (vfs_contents f) -> off + blen src < 2 ^ 62 ->
    (vfs_write f src off).1 = TDB_OK ->
    vfs_wf (vfs_write f src off).2
    /\ vfs_contents (vfs_write f src off).2 = bput (vfs_contents f) off src;
  vfs_sync_law f :
    vfs_wf f -> vfs_wf (vfs_sync f).2 /\ vfs_contents (vfs_sync f).2 = vfs_contents f;
  vfs_truncate_law f size :
    vfs_wf f -> 0 <= size <= blen (vfs_contents f) -> (vfs_truncate f size).1 = TDB_OK ->
    vfs_wf (vfs_truncate f size).2
    /\ vfs_contents (vfs_truncate f size).2 = bsub (vfs_contents f) 0 size;
  vfs_filesize_law f :
    vfs_wf f -> (vfs_filesize f).1 = TDB_OK -> (vfs_filesize f).2 = blen (vfs_contents f);
  (** A device without faults: every operation succeeds. *)
  vfs_good : F -> Prop;
  vfs_good_wf f : vfs_good f -> vfs_wf f;
  vfs_good_read f n off : vfs_good f -> (vfs_read f n off).1 = TDB_OK;
  vfs_good_filesize f : vfs_good f -> (vfs_filesize f).1 = TDB_OK;
  vfs_good_write f src off :
    vfs_good f -> 0 <= off <= blen (vfs_contents f) -> off + blen src < 2 ^ 62 ->
    (vfs_write f src off).1 = TDB_OK /\ vfs_good (vfs_write f src off).2;
  vfs_good_sync f : vfs_good f -> (vfs_sync f).1 = TDB_OK /\ vfs_good (vfs_sync f).2;
  vfs_good_truncate f size :
    vfs_good f -> 0 <= size <= blen (vfs_contents f) -> (vfs_truncate f size).1 = TDB_OK /\ vfs_good (vfs_truncate f size).2 }.

Section Good.
Context {F : Type} `{VfsLaws F}.
(** Operations on a file without faults. *)
Lemma good_read f n off :
  vfs_good f -> 0 <= n -> 0 <= off -> vfs_read f n off = (TDB_OK, read_at (vfs_contents f) n off).
Proof.
  intros Hg Hn Ho. pose proof (vfs_good_read f n off Hg) as Hr.
  pose proof (vfs_read_law f n off (vfs_good_wf _ Hg) Hn Ho Hr).
  destruct (vfs_read f n off); naive_solver.
Qed.
Lemma good_size f : vfs_good f -> vfs_filesize f = (TDB_OK, blen (vfs_contents f)).
Proof.
  intros Hg. pose proof (vfs_good_filesize f Hg) as Hs. pose proof (vfs_filesize_law f (vfs_good_wf _ Hg) Hs).
  destruct (vfs_filesize f); naive_solver.
Qed.
Lemma good_write f src off :
  vfs_good f -> 0 <= off <= blen (vfs_contents f) -> off + blen src < 2 ^ 62 ->
  exists f', vfs_write f src off = (TDB_OK, f') /\ vfs_good f' /\ vfs_contents f' = bput (vfs_contents f) off src.
Proof.
  intros Hg Ho Hl. destruct (vfs_good_write f src off Hg Ho Hl) as [Hr Hg'].
  destruct (vfs_write_law f src off (vfs_good_wf _ Hg) Ho Hl Hr) as [_ Hc].
  destruct (vfs_write f src off) as [rc f']. cbn in *. subst rc. eauto.
Qed.
Lemma good_sync f :
  vfs_good f -> exists f', vfs_sync f = (TDB_OK, f') /\ vfs_good f' /\ vfs_contents f' = vfs_contents f.
Proof.
  intros Hg. destruct (vfs_good_sync f Hg) as [Hr Hg']. destruct (vfs_sync_law f (vfs_good_wf _ Hg)) as [_ Hc].
  destruct (vfs_sync f) as [rc f']. cbn in *. subst rc. eauto.
Qed.
Lemma good_truncate f size :
  vfs_good f -> 0 <= size <= blen (vfs_contents f) ->
  exists f', vfs_truncate f size = (TDB_OK, f') /\ vfs_good f' /\ vfs_contents f' = bsub (vfs_contents f) 0 size.
Proof.
  intros Hg Hz. destruct (vfs_good_truncate f size Hg Hz) as [Hr Hg'].
  destruct (vfs_truncate_law f size (vfs_good_wf _ Hg) Hz Hr) as [_ Hc].
  destruct (vfs_truncate f size) as [rc f']. cbn in *. subst rc. eauto.
Qed.

End Good.

(** ** The in-memory file system *)

(** [mh_data] has [cap] bytes, the file is the first [mh_size] of them. *)
Record mem_handle := mk_mem { mh_data : list Z; mh_size : Z }.
Definition mh_cap (h : mem_handle) : Z := blen (mh_data h).

Definition mem_open : mem_handle := mk_mem [] 0.

Section Mem.
Context (alloc_ok : Z -> bool).

Definition mem_grow (h : mem_handle) (need : Z) : tdb_status * mem_handle :=
  if need <=? mh_cap h then (TDB_OK, h)
  else
    let cap := if mh_cap h =? 0 then 4096 else mh_cap h in
    let cap := grow_cap u64 64 cap need in
    if alloc_ok cap then (TDB_OK, mk_mem (mh_data h ++ bzero (cap - mh_cap h)) (mh_size h))
    else (TDB_NOMEM, h).

Definition mem_read (h : mem_handle) (n off : Z) : tdb_status * list Z :=
  if mh_size h <=? off then (TDB_OK, bzero n)
  else
    let avail := mh_size h - off in
    let copy := if avail <? n then avail else n in
    (TDB_OK, bsub (mh_data h) off copy ++ bzero (n - copy)).

Definition mem_write (h : mem_handle) (src : list Z) (off : Z) : tdb_status * mem_handle :=
  match mem_grow h (u64 (off + blen src)) with
  | (TDB_OK, h) =>
      let size := if mh_size h <? off + blen src then off + blen src else mh_size h in
      (TDB_OK, mk_mem (bput (mh_data h) off src) size)
  | (rc, h) => (rc, h)
  end.

Definition mem_sync (h : mem_handle) : tdb_status * mem_handle := (TDB_OK, h).
Definition mem_truncate (h : mem_handle) (size : Z) : tdb_status * mem_handle :=
  (TDB_OK, if size <? mh_size h then mk_mem (mh_data h) size else h).
Definition mem_filesize (h : mem_handle) : tdb_status * Z := (TDB_OK, mh_size h).

End Mem.

(** ** The page codec

    Zstandard is outside the sources: [ZSTD_*] are parameters.  [None] is the
    build without it. *)
Record zstd := mk_zstd {
  ZSTD_compressBound : Z -> Z;
  ZSTD_compress : list Z -> Z -> option (list Z);     (* source, capacity *)
  ZSTD_decompress : list Z -> Z -> option (list Z) }.

Definition TDB_COMP_NONE : Z := 0.
Definition TDB_COMP_ZSTD : Z := 1.

Section Codec.
Context (lib : option zstd).

Definition tdb_compress_codec : Z :=
  match lib with Some _ => TDB_COMP_ZSTD | None => TDB_COMP_NONE end.
Definition tdb_compress_bound (src_n : Z) : Z :=
  match lib with Some z => ZSTD_compressBound z src_n | None => src_n end.
Definition tdb_compress (src : list Z) (dst_n : Z) : tdb_status * list Z :=
  match lib with
  | Some z => match ZSTD_compress z src dst_n with
              | Some out => (TDB_OK, out)
              | None => (TDB_ERROR, [])
              end
  | None => if dst_n <? blen src then (TDB_NOMEM, []) else (TDB_OK, src)
  end.
Definition tdb_decompress (src : list Z) (dst_n : Z) : tdb_status * list Z :=
  match lib with
  | Some z => match ZSTD_decompress z src dst_n with
              | Some out => (TDB_OK, out)
              | None => (TDB_ERROR, [])
              end
  | None => if dst_n <? blen src then (TDB_NOMEM, []) else (TDB_OK, src)
  end.

(** Documented behaviour of Zstandard: a frame decompresses to its source. *)
Definition codec_sound : Prop :=
  match lib with
  | Some z => forall src cap out,
      ZSTD_compress z src cap = Some out -> ZSTD_decompress z out (blen src) = Some src
  | None => True
  end.
Lemma decompress_compress src cap out :
  codec_sound -> tdb_compress src cap = (TDB_OK, out) -> tdb_decompress out (blen src) = (TDB_OK, src).
Proof.
  unfold codec_sound, tdb_compress, tdb_decompress. destruct lib as [z|].
  - intros Hs. destruct (ZSTD_compress z src cap) eqn:E; intros [= <-]. by rewrite (Hs _ _ _ E).
  - intros _. destruct (cap <? blen src); intros [= <-]. by rewrite Z.ltb_irrefl.
Qed.
End Codec.

(** ** The memory files satisfy the interface *)

Lemma blen_read_at c n off : 0 <= n -> blen (read_at c n off) = n.
Proof.
  intros Hn. unfold read_at. rewrite blen_app. unfold bsub, blen, bzero.
  rewrite length_replicate, length_take, length_drop. lia.
Qed.
Lemma read_at_inside c n off :
  0 <= off -> 0 <= n -> off + n <= blen c -> read_at c n off = bsub c off n.
Proof.
  intros. unfold read_at. rewrite blen_bsub by lia. rewrite Z.sub_diag. apply app_nil_r.
Qed.

Definition mem_wf (h : mem_handle) : Prop :=
  0 <= mh_size h <= mh_cap h /\ (mh_cap h = 0 \/ 4096 <= mh_cap h).
Definition mem_contents (h : mem_handle) : list Z := bsub (mh_data h) 0 (mh_size h).

Lemma mem_grow_spec alloc_ok h need :
  mem_wf h -> 0 <= need < 2 ^ 62 -> (mem_grow alloc_ok h need).1 = TDB_OK ->
  mem_wf (mem_grow alloc_ok h need).2 /\ mem_contents (mem_grow alloc_ok h need).2 = mem_contents h
  /\ mh_size (mem_grow alloc_ok h need).2 = mh_size h /\ need <= mh_cap (mem_grow alloc_ok h need).2.
Proof.
  intros [Hs Hc] Hn. unfold mem_grow. destruct (Z.leb_spec need (mh_cap h)); [done|].
  set (cap0 := if mh_cap h =? 0 then 4096 else mh_cap h).
  assert (4096 <= cap0 /\ mh_cap h <= cap0) as (H1 & H2)
    by (unfold cap0; destruct (Z.eqb_spec (mh_cap h) 0); lia).
  clearbody cap0. pose proof (grow_cap_spec u64 64 64 cap0 need) as (G1 & G2 & G3);
    [apply u64_small|lia|lia|lia|simpl; lia|].
  assert (mh_cap h <= grow_cap u64 64 cap0 need /\ 4096 <= grow_cap u64 64 cap0 need) as (H3 & H4)
    by (destruct (Z.lt_ge_cases cap0 need) as [Hlt|Hge]; [|rewrite G3; lia]; lia).
  set (cap := grow_cap u64 64 cap0 need) in *. clearbody cap.
  destruct (alloc_ok cap); [|done]. intros _. cbn [fst snd].
  assert (mh_cap (mk_mem (mh_data h ++ bzero (cap - mh_cap h)) (mh_size h)) = cap) as Hcap.
  { unfold mh_cap in *. cbn [mh_data]. rewrite blen_app, blen_bzero; lia. }
  split; [split; rewrite Hcap; cbn [mh_size]; lia|]. rewrite Hcap. split; [|split; [done|lia]].
  unfold mem_contents. cbn [mh_data mh_size]. apply bsub_app_l; unfold mh_cap in *; lia.
Qed.
Lemma mem_write_spec alloc_ok h src off :
  mem_wf h -> 0 <= off <= blen (mem_contents h) -> off + blen src < 2 ^ 62 ->
  (mem_write alloc_ok h src off).1 = TDB_OK ->
  mem_wf (mem_write alloc_ok h src off).2
  /\ mem_contents (mem_write alloc_ok h src off).2 = bput (mem_contents h) off src.
Proof.
  intros Hwf Hoff Hlen Hok. pose proof (blen_nonneg src) as Hsrc. unfold mem_write in *.
  rewrite u64_small in * by lia.
  pose proof (mem_grow_spec alloc_ok h (off + blen src) Hwf ltac:(lia)) as Hg.
  destruct (mem_grow alloc_ok h (off + blen src)) as [rc g]. cbn [fst snd] in Hg.
  destruct rc; try done. destruct (Hg eq_refl) as ([Gs Gc] & Ec & Es & Hcap). cbn [fst snd].
  assert (blen (mem_contents g) = mh_size g) as El by (unfold mem_contents; unfold mh_cap in *; rewrite blen_bsub; lia).
  rewrite <- Ec in *. rewrite El in Hoff. unfold mem_wf, mh_cap, mem_contents in *. cbn [mh_data mh_size].
  rewrite blen_bput by lia. set (d := mh_data g) in *. set (n := mh_size g) in *.
  split; [destruct (Z.ltb_spec n (off + blen src)); lia|].
  rewrite (bput_split d) by lia.
  destruct (Z.ltb_spec n (off + blen src)) as [Hx|Hx].
  - rewrite app_assoc, bsub_app_l by blia. rewrite bsub_all by blia.
    unfold bput. rewrite (drop_ge (bsub d 0 n)) by (unfold blen, bsub in *; rewrite length_take; lia).
    rewrite app_nil_r. f_equal. unfold bsub. rewrite !drop_0, take_take. f_equal. lia.
  - rewrite (bput_split (bsub d 0 n)) by blia. rewrite app_assoc, bsub_app_split by blia.
    rewrite app_assoc. f_equal; [f_equal; rewrite bsub_bsub by lia; f_equal; lia|].
    rewrite blen_app, blen_bsub by lia. unfold bfrom, bsub. rewrite !drop_0, skipn_firstn_comm. f_equal. lia.
Qed.

#[global] Instance mem_vfs (alloc_ok : Z -> bool) : Vfs mem_handle := {
  vfs_read := mem_read;
  vfs_write := mem_write alloc_ok;
  vfs_sync := mem_sync;
  vfs_truncate := mem_truncate;
  vfs_filesize := mem_filesize }.

Lemma mem_read_spec h n off :
  mem_wf h -> 0 <= n -> 0 <= off -> (mem_read h n off).2 = read_at (mem_contents h) n off.
Proof.
  intros [Hs _] Hn Ho. unfold mh_cap in Hs.
  assert (blen (mem_contents h) = mh_size h) as El by (unfold mem_contents; rewrite blen_bsub; lia).
  assert (forall k, 0 <= k -> k <= mh_size h - off -> off < mh_size h -> bsub (mem_contents h) off k = bsub (mh_data h) off k) as Hk
    by (intros; unfold mem_contents; rewrite bsub_bsub by lia; f_equal; lia).
  unfold mem_read. destruct (Z.leb_spec (mh_size h) off); cbn [snd].
  - unfold read_at. assert (bsub (mem_contents h) off n = []) as ->.
    { unfold bsub. rewrite drop_ge by (unfold blen in El; lia). apply take_nil. }
    rewrite blen_nil, Z.sub_0_r. done.
  - destruct (Z.ltb_spec (mh_size h - off) n).
    + unfold read_at. assert (bsub (mem_contents h) off n = bsub (mem_contents h) off (mh_size h - off)) as ->.
      { unfold bsub. rewrite !take_ge by (rewrite length_drop; unfold blen in El; lia). done. }
      rewrite Hk, blen_bsub by lia. done.
    + rewrite read_at_inside, Hk by lia. rewrite Z.sub_diag. apply app_nil_r.
Qed.

#[global] Instance mem_vfs_laws alloc_ok : @VfsLaws mem_handle (mem_vfs alloc_ok).
Proof.
  refine (Build_VfsLaws mem_handle (mem_vfs alloc_ok) mem_contents mem_wf _ _ _ _ _
            (fun h => mem_wf h /\ forall n, alloc_ok n = true) _ _ _ _ _ _).
  - intros f n off Hw Hn Ho _. by apply mem_read_spec.
  - intros f src off. apply mem_write_spec.
  - done.
  - intros f size [Hs Hc] Hz _. cbn. unfold mem_truncate. cbn [fst snd].
    assert (blen (mem_contents f) = mh_size f) as El by (unfold mem_contents, mh_cap in *; rewrite blen_bsub; lia).
    destruct (Z.ltb_spec size (mh_size f)).
    + split; [split; unfold mh_cap in *; cbn [mh_data mh_size]; lia|]. unfold mem_contents at 1. cbn [mh_data mh_size].
      unfold mem_contents. rewrite bsub_bsub by lia. f_equal.
    + split; [split; lia|]. unfold bsub at 1. rewrite drop_0, take_ge; [done|]. unfold blen in El. lia.
  - intros f [Hs Hc] _. cbn. unfold mem_contents, mh_cap in *. rewrite blen_bsub; lia.
  - by intros f [Hw _].
  - intros f n off _. cbn. unfold mem_read. by destruct (_ <=? _).
  - done.
  - intros f src off [Hw Ha] Ho Hl. assert ((mem_write alloc_ok f src off).1 = TDB_OK) as Hok.
    { unfold mem_write, mem_grow. rewrite Ha. by destruct (_ <=? _). }
    split; [done|]. split; [|done]. by apply (mem_write_spec alloc_ok f src off).
  - done.
  - intros f size [[Hs Hc] Ha] Hz. split; [done|]. split; [|done]. cbn. unfold mem_wf, mh_cap in *.
    destruct (Z.ltb_spec size (mh_size f)); cbn [mh_size mh_data]; lia.
Defined.
