(* ===== verification/Wal.v ===== *)
(** * The write-ahead log (src/src/storage/tdb_wal.[ch])

    The log is a 32-byte header and a chain of frames, each the image of one
    page with a rolling checksum; the last frame of a transaction carries the
    database size.  Both formats are modelled: fixed-size frames (v1) and
    frames with a physical size and a codec (v2).  Files are reached through
    [Vfs]; every call that can fail is followed by the code's own exit. *)
From S2P Require Import Prelude Util File.

(** ** Layout *)

Definition TDB_WAL_MAGIC : Z := 0x7764424B.
Definition TDB_WAL_HDR_SIZE : Z := 32.
Definition TDB_WAL_FRAME_HDR_SIZE : Z := 24.
Definition TDB_WAL_V2_PAYLOAD_HDR : Z := 5.
Definition TDB_WAL_VERSION_V1 : Z := 1.
Definition TDB_WAL_VERSION_V2 : Z := 2.

(** [map] and [offsets] are arrays; their lengths are [map_cap] and
    [offsets_cap].  [map[p]] is the index plus one of the latest frame of page
    [p], 0 when there is none. *)
Record tdb_wal (F : Type) := mk_wal {
  w_file : F;
  w_page_size : Z;
  w_frame_stride : Z;
  w_version : Z;
  w_salt1 : Z;
  w_salt2 : Z;
  w_ckpt_seq : Z;
  w_nframe : Z;
  w_db_size : Z;
  w_map : list Z;
  w_offsets : list Z;
  w_end_off : Z }.
Arguments mk_wal {F}. Arguments w_file {F}. Arguments w_page_size {F}. Arguments w_frame_stride {F}.
Arguments w_version {F}. Arguments w_salt1 {F}. Arguments w_salt2 {F}. Arguments w_ckpt_seq {F}.
Arguments w_nframe {F}. Arguments w_db_size {F}. Arguments w_map {F}. Arguments w_offsets {F}.
Arguments w_end_off {F}.

Section Wal.
Context {F : Type} `{Vfs F} (lib : option zstd) (alloc_ok : Z -> bool).
Abbreviation wal := (tdb_wal F).

(** Field updates. *)
Definition wset_file (w : wal) (f : F) : wal :=
  mk_wal f (w_page_size w) (w_frame_stride w) (w_version w) (w_salt1 w) (w_salt2 w) (w_ckpt_seq w)
    (w_nframe w) (w_db_size w) (w_map w) (w_offsets w) (w_end_off w).
Definition wset_map (w : wal) (m : list Z) : wal :=
  mk_wal (w_file w) (w_page_size w) (w_frame_stride w) (w_version w) (w_salt1 w) (w_salt2 w) (w_ckpt_seq w)
    (w_nframe w) (w_db_size w) m (w_offsets w) (w_end_off w).
Definition wset_offsets (w : wal) (o : list Z) : wal :=
  mk_wal (w_file w) (w_page_size w) (w_frame_stride w) (w_version w) (w_salt1 w) (w_salt2 w) (w_ckpt_seq w)
    (w_nframe w) (w_db_size w) (w_map w) o (w_end_off w).
Definition wset_tail (w : wal) (nframe db_size end_off : Z) : wal :=
  mk_wal (w_file w) (w_page_size w) (w_frame_stride w) (w_version w) (w_salt1 w) (w_salt2 w) (w_ckpt_seq w)
    nframe db_size (w_map w) (w_offsets w) end_off.
Definition wset_hdr (w : wal) (version salt1 salt2 ckpt_seq : Z) : wal :=
  mk_wal (w_file w) (w_page_size w) (w_frame_stride w) version salt1 salt2 ckpt_seq
    (w_nframe w) (w_db_size w) (w_map w) (w_offsets w) (w_end_off w).

(** ** Arrays *)

(** The memory [realloc] adds to [offsets] is uninitialised; every slot is
    written before it is read. *)
Definition offsets_ensure (w : wal) (want : Z) : tdb_status * wal :=
  if want <=? blen (w_offsets w) then (TDB_OK, w)
  else
    let cap := if blen (w_offsets w) =? 0 then 64 else blen (w_offsets w) in
    let cap := grow_cap u64 64 cap want in
    if alloc_ok (8 * cap) then (TDB_OK, wset_offsets w (w_offsets w ++ bzero (cap - blen (w_offsets w))))
    else (TDB_NOMEM, w).

Definition frame_offset (w : wal) (idx : Z) : Z :=
  if (w_version w =? TDB_WAL_VERSION_V2) && negb (blen (w_offsets w) =? 0)
  then bget (w_offsets w) idx
  else TDB_WAL_HDR_SIZE + idx * w_frame_stride w.

(** The loop [while (cap <= pgno) cap *= 2] on 32 bits; it ends for page
    numbers below 2^31. *)
Definition map_ensure (w : wal) (pgno : Z) : tdb_status * wal :=
  if pgno <? blen (w_map w) then (TDB_OK, w)
  else
    let cap := if blen (w_map w) =? 0 then 64 else blen (w_map w) in
    let cap := grow_cap u32 32 cap (pgno + 1) in
    if alloc_ok (8 * cap) then (TDB_OK, wset_map w (w_map w ++ bzero (cap - blen (w_map w))))
    else (TDB_NOMEM, w).

(** ** Checksums and the header *)

Definition frame_checksum (seed : Z) (hdr16 page : list Z) : Z * Z :=
  (tdb_crc32c (tdb_crc32c seed hdr16) page, tdb_crc32c (tdb_crc32c 0 hdr16) page).

Definition wal_header (w : wal) : list Z :=
  let h := tdb_put_u32 TDB_WAL_MAGIC ++ tdb_put_u32 (w_version w) ++ tdb_put_u32 (w_page_size w)
           ++ tdb_put_u32 (w_ckpt_seq w) ++ tdb_put_u32 (w_salt1 w) ++ tdb_put_u32 (w_salt2 w) in
  h ++ tdb_put_u32 (tdb_crc32c (w_salt1 w) h) ++ tdb_put_u32 (tdb_crc32c 0 h).
Definition write_header (w : wal) : tdb_status * wal :=
  let '(rc, f) := vfs_write (w_file w) (wal_header w) 0 in (rc, wset_file w f).

(** ** Recovery *)

(** The body of the scan loop, up to the checksum test: [None] is [break]. *)
Definition scan_frame (w : wal) (ver fsize off rolling : Z) : option (Z * Z * Z) :=
  let ps := w_page_size w in
  match vfs_read (w_file w) TDB_WAL_FRAME_HDR_SIZE off with
  | (TDB_OK, fhdr) =>
      let payload_off := off + TDB_WAL_FRAME_HDR_SIZE in
      match
        (if ver =? TDB_WAL_VERSION_V2 then
           if fsize <? off + TDB_WAL_FRAME_HDR_SIZE + TDB_WAL_V2_PAYLOAD_HDR then None
           else match vfs_read (w_file w) TDB_WAL_V2_PAYLOAD_HDR payload_off with
                | (TDB_OK, pfx) =>
                    let phys := tdb_get_u32 pfx in
                    let codec := bget pfx 4 in
                    let payload_off := payload_off + TDB_WAL_V2_PAYLOAD_HDR in
                    if (ps <? phys) || (fsize <? payload_off + phys) then None
                    else Some (phys, codec, payload_off)
                | _ => None
                end
         else if fsize <? off + TDB_WAL_FRAME_HDR_SIZE + ps then None
         else Some (ps, TDB_COMP_NONE, payload_off))
      with
      | None => None
      | Some (phys, codec, payload_off) =>
          match vfs_read (w_file w) phys payload_off with
          | (TDB_OK, scratch) =>
              match
                (if (ver =? TDB_WAL_VERSION_V2) && negb (codec =? TDB_COMP_NONE) then
                   match tdb_decompress lib scratch ps with
                   | (TDB_OK, page) => if blen page =? ps then Some page else None
                   | _ => None
                   end
                 else Some (scratch ++ bzero (ps - phys)))
              with
              | None => None
              | Some page =>
                  if negb (tdb_get_u32 (bfrom fhdr 8) =? w_salt1 w)
                     || negb (tdb_get_u32 (bfrom fhdr 12) =? w_salt2 w) then None
                  else
                    let '(c1, c2) := frame_checksum rolling (bsub fhdr 0 16) page in
                    if negb (c1 =? tdb_get_u32 (bfrom fhdr 16))
                       || negb (c2 =? tdb_get_u32 (bfrom fhdr 20)) then None
                    else Some (c1, tdb_get_u32 (bfrom fhdr 4), payload_off + phys)
              end
          | _ => None
          end
      end
  | _ => None
  end.

(** What the scan loop keeps: frames seen, frames up to the last commit, its
    database size and the offset after it. *)
Record scan_state := mk_scan {
  sc_idx : Z; sc_committed : Z; sc_dbsize : Z; sc_end : Z }.

(** The loop; a frame takes at least 24 bytes, so [fsize] rounds are enough
    ([scan_frames_fuel]). *)
Fixpoint scan_frames (fuel : nat) (w : wal) (ver fsize off rolling : Z) (s : scan_state)
  : tdb_status * wal * scan_state :=
  match fuel with
  | O => (TDB_OK, w, s)
  | S fuel =>
      if off + TDB_WAL_FRAME_HDR_SIZE <=? fsize then
        match scan_frame w ver fsize off rolling with
        | None => (TDB_OK, w, s)
        | Some (c1, dbsz, off') =>
            match
              (if ver =? TDB_WAL_VERSION_V2 then
                 match offsets_ensure w (sc_idx s + 1) with
                 | (TDB_OK, w) => (TDB_OK, wset_offsets w (bput (w_offsets w) (sc_idx s) [off]))
                 | (_, w) => (TDB_NOMEM, w)
                 end
               else (TDB_OK, w))
            with
            | (TDB_OK, w) =>
                let idx := sc_idx s + 1 in
                let s := if negb (dbsz =? 0) then mk_scan idx idx dbsz off'
                         else mk_scan idx (sc_committed s) (sc_dbsize s) (sc_end s) in
                scan_frames fuel w ver fsize off' c1 s
            | (rc, w) => (rc, w, s)
            end
        end
      else (TDB_OK, w, s)
  end.

(** Rebuilding the page map from frames [i .. committed-1], [n] of them. *)
Fixpoint rebuild_map (n : nat) (w : wal) (i : Z) : tdb_status * wal :=
  match n with
  | O => (TDB_OK, w)
  | S n =>
      match vfs_read (w_file w) TDB_WAL_FRAME_HDR_SIZE (frame_offset w i) with
      | (TDB_OK, fhdr) =>
          let pgno := tdb_get_u32 fhdr in
          match map_ensure w pgno with
          | (TDB_OK, w) => rebuild_map n (wset_map w (bput (w_map w) pgno [i + 1])) (i + 1)
          | (_, w) => (TDB_NOMEM, w)
          end
      | _ => (TDB_OK, w)
      end
  end.

Definition recover (w : wal) : tdb_status * wal :=
  match vfs_filesize (w_file w) with
  | (TDB_OK, fsize) =>
      if fsize <? TDB_WAL_HDR_SIZE then (TDB_OK, w)
      else match vfs_read (w_file w) TDB_WAL_HDR_SIZE 0 with
      | (TDB_OK, hdr) =>
          let ver := tdb_get_u32 (bfrom hdr 4) in
          if negb (tdb_get_u32 hdr =? TDB_WAL_MAGIC) then (TDB_OK, w)
          else if negb (ver =? TDB_WAL_VERSION_V1) && negb (ver =? TDB_WAL_VERSION_V2) then (TDB_OK, w)
          else if negb (tdb_get_u32 (bfrom hdr 8) =? w_page_size w) then (TDB_OK, w)
          else
            let w := wset_hdr w ver (tdb_get_u32 (bfrom hdr 16)) (tdb_get_u32 (bfrom hdr 20))
                       (tdb_get_u32 (bfrom hdr 12)) in
            if negb (alloc_ok (w_page_size w) && alloc_ok (w_page_size w + 64)) then (TDB_NOMEM, w)
            else
              match scan_frames (Z.to_nat fsize) w ver fsize TDB_WAL_HDR_SIZE (w_salt1 w)
                      (mk_scan 0 0 0 TDB_WAL_HDR_SIZE) with
              | (TDB_OK, w, s) =>
                  let w := wset_map w (bzero (blen (w_map w))) in
                  match rebuild_map (Z.to_nat (sc_committed s)) w 0 with
                  | (TDB_OK, w) => (TDB_OK, wset_tail w (sc_committed s) (sc_dbsize s) (sc_end s))
                  | (rc, w) => (rc, w)
                  end
              | (rc, w, _) => (rc, w)
              end
      | (rc, _) => (rc, w)
      end
  | (rc, _) => (rc, w)
  end.

(** The bytes of a [uint32_t] in memory (little-endian), hashed for the first
    salt. *)
Definition mem_u32 (v : Z) : list Z :=
  [u8 v; u8 (Z.shiftr v 8); u8 (Z.shiftr v 16); u8 (Z.shiftr v 24)].
Definition wal_init (file : F) (page_size : Z) : wal :=
  mk_wal file page_size (u32 (TDB_WAL_FRAME_HDR_SIZE + page_size))
    (if negb (tdb_compress_codec lib =? TDB_COMP_NONE) then TDB_WAL_VERSION_V2 else TDB_WAL_VERSION_V1)
    (Z.lxor (u32 (tdb_fnv1a (mem_u32 page_size))) 0x9E3779B9) 0x1234567 0 0 0 [] [] TDB_WAL_HDR_SIZE.

(** [sizeof(tdb_wal)] is 96. *)
Definition tdb_wal_open (file : F) (page_size : Z) : tdb_status * option wal :=
  if negb (alloc_ok 96) then (TDB_NOMEM, None)
  else match recover (wal_init file page_size) with
  | (TDB_OK, w) =>
      if w_nframe w =? 0 then
        match write_header w with
        | (TDB_OK, w) => (TDB_OK, Some (wset_tail w (w_nframe w) (w_db_size w) TDB_WAL_HDR_SIZE))
        | (rc, _) => (rc, None)
        end
      else (TDB_OK, Some w)
  | (rc, _) => (rc, None)
  end.

(** ** Reading a page *)

(** [Some page] when [*found] is set. *)
Definition tdb_wal_read_page (w : wal) (pgno : Z) : tdb_status * option (list Z) :=
  let ps := w_page_size w in
  if (blen (w_map w) <=? pgno) || (bget (w_map w) pgno =? 0) then (TDB_OK, None)
  else
    let idx := bget (w_map w) pgno - 1 in
    if w_nframe w <=? idx then (TDB_OK, None)
    else
      let off := frame_offset w idx + TDB_WAL_FRAME_HDR_SIZE in
      if w_version w =? TDB_WAL_VERSION_V2 then
        match vfs_read (w_file w) TDB_WAL_V2_PAYLOAD_HDR off with
        | (TDB_OK, pfx) =>
            let phys := tdb_get_u32 pfx in
            let off := off + TDB_WAL_V2_PAYLOAD_HDR in
            if bget pfx 4 =? TDB_COMP_NONE then
              match vfs_read (w_file w) phys off with
              | (TDB_OK, out) => (TDB_OK, Some (out ++ bzero (ps - phys)))
              | (rc, _) => (rc, None)
              end
            else if negb (alloc_ok phys) then (TDB_NOMEM, None)
            else
              match vfs_read (w_file w) phys off with
              | (TDB_OK, buf) =>
                  match tdb_decompress lib buf ps with
                  | (TDB_OK, out) => if blen out =? ps then (TDB_OK, Some out) else (TDB_CORRUPT, None)
                  | (rc, _) => (rc, None)
                  end
              | (rc, _) => (rc, None)
              end
        | (rc, _) => (rc, None)
        end
      else
        match vfs_read (w_file w) ps off with
        | (TDB_OK, out) => (TDB_OK, Some out)
        | (rc, _) => (rc, None)
        end.

(** ** Appending a frame *)

(** The checksum seed: the first salt, or the rolling checksum stored in the
    previous frame. *)
Definition append_seed (w : wal) : tdb_status * Z :=
  if w_nframe w =? 0 then (TDB_OK, w_salt1 w)
  else
    match vfs_read (w_file w) TDB_WAL_FRAME_HDR_SIZE (frame_offset w (w_nframe w - 1)) with
    | (TDB_OK, prev) => (TDB_OK, tdb_get_u32 (bfrom prev 16))
    | (rc, _) => (rc, 0)
    end.

Definition frame_hdr16 (w : wal) (pgno dbsz : Z) : list Z :=
  tdb_put_u32 pgno ++ tdb_put_u32 dbsz ++ tdb_put_u32 (w_salt1 w) ++ tdb_put_u32 (w_salt2 w).

(** The payload: (codec, bytes), or [None] when the buffer for the
    compressed page cannot be allocated. *)
Definition frame_body (w : wal) (page : list Z) : option (Z * list Z) :=
  if (w_version w =? TDB_WAL_VERSION_V2) && negb (tdb_compress_codec lib =? TDB_COMP_NONE) then
    let bound := tdb_compress_bound lib (w_page_size w) in
    if negb (alloc_ok bound) then None
    else match tdb_compress lib page bound with
         | (TDB_OK, c) =>
             if blen c <? w_page_size w then Some (u8 (tdb_compress_codec lib), c)
             else Some (TDB_COMP_NONE, page)
         | _ => Some (TDB_COMP_NONE, page)
         end
  else Some (TDB_COMP_NONE, page).

(** Writing the payload at [off], after the frame header: prefix (v2) and
    body; the result is the offset after the frame. *)
Definition append_payload (w : wal) (codec : Z) (body : list Z) (off : Z) : tdb_status * wal * Z :=
  let payload_off := off + TDB_WAL_FRAME_HDR_SIZE in
  let '(rc, w, payload_off) :=
    if w_version w =? TDB_WAL_VERSION_V2 then
      let '(rc, f) := vfs_write (w_file w) (tdb_put_u32 (u32 (blen body)) ++ [codec]) payload_off in
      (rc, wset_file w f, payload_off + TDB_WAL_V2_PAYLOAD_HDR)
    else (TDB_OK, w, payload_off) in
  match rc with
  | TDB_OK => let '(rc, f) := vfs_write (w_file w) body payload_off in
              (rc, wset_file w f, payload_off + blen body)
  | _ => (rc, w, payload_off)
  end.

(** The index update that ends an append. *)
Definition append_index (w : wal) (pgno : Z) (is_commit : bool) (db_size off end_off : Z)
  : tdb_status * wal :=
  let idx := w_nframe w in
  let '(rc, w) :=
    if w_version w =? TDB_WAL_VERSION_V2 then
      match offsets_ensure w (idx + 1) with
      | (TDB_OK, w) =>
          (TDB_OK, wset_tail (wset_offsets w (bput (w_offsets w) idx [off])) (w_nframe w) (w_db_size w) end_off)
      | (_, w) => (TDB_NOMEM, w)
      end
    else (TDB_OK, wset_tail w (w_nframe w) (w_db_size w) end_off) in
  match rc with
  | TDB_OK =>
      match map_ensure w pgno with
      | (TDB_OK, w) =>
          (TDB_OK, wset_tail (wset_map w (bput (w_map w) pgno [idx + 1])) (idx + 1)
                     (if is_commit then db_size else w_db_size w) (w_end_off w))
      | (_, w) => (TDB_NOMEM, w)
      end
  | _ => (rc, w)
  end.

Definition tdb_wal_append (w : wal) (pgno : Z) (page : list Z) (is_commit : bool) (db_size : Z)
  : tdb_status * wal :=
  let hdr16 := frame_hdr16 w pgno (if is_commit then db_size else 0) in
  match append_seed w with
  | (TDB_OK, seed) =>
      let '(c1, c2) := frame_checksum seed hdr16 page in
      let off := if w_version w =? TDB_WAL_VERSION_V2 then w_end_off w else frame_offset w (w_nframe w) in
      match vfs_write (w_file w) (hdr16 ++ tdb_put_u32 c1 ++ tdb_put_u32 c2) off with
      | (TDB_OK, f) =>
          let w := wset_file w f in
          match frame_body w page with
          | None => (TDB_NOMEM, w)
          | Some (codec, body) =>
              match append_payload w codec body off with
              | (TDB_OK, w, end_off) => append_index w pgno is_commit db_size off end_off
              | (rc, w, _) => (rc, w)
              end
          end
      | (rc, f) => (rc, wset_file w f)
      end
  | (rc, _) => (rc, w)
  end.

Definition tdb_wal_sync (w : wal) : tdb_status * wal :=
  let '(rc, f) := vfs_sync (w_file w) in (rc, wset_file w f).
Definition tdb_wal_db_size (w : wal) : Z := w_db_size w.
Definition tdb_wal_frame_count (w : wal) : Z := w_nframe w.

(** ** Checkpoint *)

(** The copy loop over page numbers [p .. p+n-1]. *)
Fixpoint checkpoint_copy (n : nat) (w : wal) (db : F) (p : Z) : tdb_status * F :=
  match n with
  | O => (TDB_OK, db)
  | S n =>
      let slot := bget (w_map w) p in
      if (slot =? 0) || (w_nframe w <? slot) then checkpoint_copy n w db (p + 1)
      else
        match tdb_wal_read_page w p with
        | (TDB_OK, Some page) =>
            match vfs_write db page (u32 (p - 1) * w_page_size w) with
            | (TDB_OK, db) => checkpoint_copy n w db (p + 1)
            | (rc, db) => (rc, db)
            end
        | (TDB_OK, None) => checkpoint_copy n w db (p + 1)
        | (rc, _) => (rc, db)
        end
  end.

Definition tdb_wal_checkpoint (w : wal) (db : F) : tdb_status * wal * F :=
  if negb (alloc_ok (w_page_size w)) then (TDB_NOMEM, w, db)
  else
    match checkpoint_copy (length (w_map w)) w db 0 with
    | (TDB_OK, db) =>
        match vfs_sync db with
        | (TDB_OK, db) =>
            let w := wset_hdr w (w_version w) (u32 (w_salt1 w + 0x9E3779B9))
                       (Z.lxor (w_salt2 w) 0xA5A5A5A5) (u32 (w_ckpt_seq w + 1)) in
            let w := wset_map (wset_tail w 0 (w_db_size w) (w_end_off w)) (bzero (blen (w_map w))) in
            match vfs_truncate (w_file w) 0 with
            | (TDB_OK, f) =>
                match write_header (wset_file w f) with
                | (TDB_OK, w) =>
                    let '(rc, w) := tdb_wal_sync (wset_tail w (w_nframe w) (w_db_size w) TDB_WAL_HDR_SIZE) in
                    (rc, w, db)
                | (rc, w) => (rc, w, db)
                end
            | (rc, f) => (rc, wset_file w f, db)
            end
        | (rc, db) => (rc, w, db)
        end
    | (rc, db) => (rc, w, db)
    end.

End Wal.
