(* ===== verification/WalSpec.v ===== *)
(** * The write-ahead log: what it guarantees

    A log is a list of [frame]s; [wal_rep] relates it to the bytes of the log
    file and the in-memory index of Wal.v.  Every operation is proved to act
    on that list: open, append, read, checkpoint, and recovery of a file cut
    at any byte or with a corrupted byte. *)
From S2P Require Import Prelude Util File Wal.
#[local] Opaque tdb_crc32c.

(** ** The log as a value *)

Record frame := mk_frame { fr_pgno : Z; fr_dbsize : Z; fr_page : list Z }.

(** The latest frame of page [p] in a log, as index plus one. *)
Fixpoint last_idx (i : Z) (fs : list frame) (p acc : Z) : Z :=
  match fs with
  | [] => acc
  | f :: fs => last_idx (i + 1) fs p (if fr_pgno f =? p then i + 1 else acc)
  end.
Fixpoint latest (fs : list frame) (p : Z) (acc : option (list Z)) : option (list Z) :=
  match fs with
  | [] => acc
  | f :: fs => latest fs p (if fr_pgno f =? p then Some (fr_page f) else acc)
  end.
(** The database size of the last commit frame. *)
Fixpoint last_dbsize (fs : list frame) (acc : Z) : Z :=
  match fs with
  | [] => acc
  | f :: fs => last_dbsize fs (if fr_dbsize f =? 0 then acc else fr_dbsize f)
  end.
(** How many frames up to and including the last commit frame. *)
Fixpoint ncommitted (i : nat) (fs : list frame) (acc : nat) : nat :=
  match fs with
  | [] => acc
  | f :: fs => ncommitted (S i) fs (if fr_dbsize f =? 0 then acc else S i)
  end.
Definition committed (fs : list frame) : list frame := take (ncommitted 0 fs 0) fs.

Section Log.
Context {F : Type} `{VfsLaws F} (lib : option zstd).
Abbreviation wal := (tdb_wal F).

Definition frame_ok (w : wal) (f : frame) : Prop :=
  0 <= fr_pgno f < 2 ^ 31 /\ 0 <= fr_dbsize f < 2 ^ 32 /\ blen (fr_page f) = w_page_size w.

(** Bytes that encode frame [f] after the rolling checksum [seed]; [c1] is the
    new rolling checksum. *)
Definition payload_ok (w : wal) (page : list Z) (payload : list Z) : Prop :=
  if w_version w =? TDB_WAL_VERSION_V2 then
    exists codec body, payload = tdb_put_u32 (blen body) ++ [codec] ++ body
      /\ 0 <= blen body <= w_page_size w
      /\ ((codec = TDB_COMP_NONE /\ body = page)
          \/ (codec <> TDB_COMP_NONE /\ tdb_decompress lib body (w_page_size w) = (TDB_OK, page)))
  else payload = page.
Definition frame_enc (w : wal) (seed : Z) (f : frame) (b : list Z) (c1 : Z) : Prop :=
  exists payload c2,
    b = frame_hdr16 w (fr_pgno f) (fr_dbsize f) ++ tdb_put_u32 c1 ++ tdb_put_u32 c2 ++ payload
    /\ (c1, c2) = frame_checksum seed (frame_hdr16 w (fr_pgno f) (fr_dbsize f)) (fr_page f)
    /\ payload_ok w (fr_page f) payload.
Inductive log_enc (w : wal) : Z -> list frame -> list (list Z) -> Z -> Prop :=
| log_nil seed : log_enc w seed [] [] seed
| log_cons seed f b c1 fs bs seed' :
    frame_ok w f -> frame_enc w seed f b c1 -> log_enc w c1 fs bs seed' ->
    log_enc w seed (f :: fs) (b :: bs) seed'.

(** Parameters of a log file that never change while it grows. *)
Record wal_params (w : wal) : Prop := {
  wp_ps : 0 < w_page_size w <= 65536;
  wp_ver : w_version w = TDB_WAL_VERSION_V1 \/ w_version w = TDB_WAL_VERSION_V2;
  wp_stride : w_frame_stride w = TDB_WAL_FRAME_HDR_SIZE + w_page_size w;
  wp_salt1 : 0 <= w_salt1 w < 2 ^ 32;
  wp_salt2 : 0 <= w_salt2 w < 2 ^ 32;
  wp_seq : 0 <= w_ckpt_seq w < 2 ^ 32 }.

(** Reading a block in the middle of a file. *)
Lemma read_at_mid pre b rest n off :
  off = blen pre -> n = blen b -> read_at (pre ++ b ++ rest) n off = b.
Proof.
  intros -> ->. pose proof (blen_nonneg pre). pose proof (blen_nonneg b). pose proof (blen_nonneg rest).
  rewrite read_at_inside by blia. rewrite bsub_app_r by lia. rewrite Z.sub_diag, bsub_app_l by lia.
  by apply bsub_all.
Qed.

Lemma put_u32_len v : blen (tdb_put_u32 v) = 4.
Proof. done. Qed.
Lemma frame_hdr16_len (w : wal) p d : blen (frame_hdr16 w p d) = 16.
Proof. done. Qed.
Lemma wal_header_len (w : wal) : blen (wal_header w) = 32.
Proof. done. Qed.

(** The 24 bytes of a frame header and their fields. *)
Definition frame_hdr24 (w : wal) (f : frame) (c1 c2 : Z) : list Z :=
  frame_hdr16 w (fr_pgno f) (fr_dbsize f) ++ tdb_put_u32 c1 ++ tdb_put_u32 c2.
Lemma frame_hdr24_fields w f c1 c2 :
  wal_params w -> frame_ok w f -> 0 <= c1 < 2 ^ 32 -> 0 <= c2 < 2 ^ 32 ->
  tdb_get_u32 (frame_hdr24 w f c1 c2) = fr_pgno f
  /\ tdb_get_u32 (bfrom (frame_hdr24 w f c1 c2) 4) = fr_dbsize f
  /\ tdb_get_u32 (bfrom (frame_hdr24 w f c1 c2) 8) = w_salt1 w
  /\ tdb_get_u32 (bfrom (frame_hdr24 w f c1 c2) 12) = w_salt2 w
  /\ tdb_get_u32 (bfrom (frame_hdr24 w f c1 c2) 16) = c1
  /\ tdb_get_u32 (bfrom (frame_hdr24 w f c1 c2) 20) = c2
  /\ bsub (frame_hdr24 w f c1 c2) 0 16 = frame_hdr16 w (fr_pgno f) (fr_dbsize f).
Proof.
  intros Hw (Hp & Hd & _) H1 H2. pose proof (wp_salt1 _ Hw). pose proof (wp_salt2 _ Hw).
  unfold frame_hdr24, frame_hdr16. repeat split.
  - rewrite <- !app_assoc. rewrite get_put_u32, u32_small; lia.
  - change (bfrom _ 4) with (tdb_put_u32 (fr_dbsize f) ++ tdb_put_u32 (w_salt1 w) ++ tdb_put_u32 (w_salt2 w) ++ tdb_put_u32 c1 ++ tdb_put_u32 c2).
    rewrite get_put_u32, u32_small; lia.
  - change (bfrom _ 8) with (tdb_put_u32 (w_salt1 w) ++ tdb_put_u32 (w_salt2 w) ++ tdb_put_u32 c1 ++ tdb_put_u32 c2).
    rewrite get_put_u32, u32_small; lia.
  - change (bfrom _ 12) with (tdb_put_u32 (w_salt2 w) ++ tdb_put_u32 c1 ++ tdb_put_u32 c2).
    rewrite get_put_u32, u32_small; lia.
  - change (bfrom _ 16) with (tdb_put_u32 c1 ++ tdb_put_u32 c2). rewrite get_put_u32, u32_small; lia.
  - change (bfrom _ 20) with (tdb_put_u32 c2 ++ []). rewrite get_put_u32, u32_small; lia.
Qed.
Lemma frame_enc_hdr w seed f b c1 :
  frame_enc w seed f b c1 ->
  exists c2 payload, b = frame_hdr24 w f c1 c2 ++ payload /\ payload_ok w (fr_page f) payload
    /\ (c1, c2) = frame_checksum seed (frame_hdr16 w (fr_pgno f) (fr_dbsize f)) (fr_page f)
    /\ 0 <= c1 < 2 ^ 32 /\ 0 <= c2 < 2 ^ 32.
Proof.
  intros (payload & c2 & -> & Hc & Hp). exists c2, payload. unfold frame_hdr24. rewrite <- !app_assoc.
  repeat split; try done; injection Hc as -> ->; apply tdb_crc32c_range.
Qed.

(** The payload of a frame found at [off] of a file. *)
Lemma payload_v1_len w page payload :
  blen page = w_page_size w -> w_version w = TDB_WAL_VERSION_V1 -> payload_ok w page payload ->
  payload = page /\ blen payload = w_page_size w.
Proof. unfold payload_ok. intros Hp Hv. rewrite Hv. cbn. intros ->. done. Qed.

(** A read that falls on a block of the file. *)
Lemma read_mid f pre b rest n off :
  vfs_good f -> vfs_contents f = pre ++ b ++ rest -> off = blen pre -> n = blen b ->
  vfs_read f n off = (TDB_OK, b).
Proof.
  intros Hr Hc -> ->. pose proof (blen_nonneg pre). pose proof (blen_nonneg b).
  rewrite (good_read _ _ _ Hr), Hc, read_at_mid by lia. done.
Qed.

Lemma scan_frame_ok w seed f b c1 pre rest fsize :
  wal_params w -> frame_ok w f -> frame_enc w seed f b c1 ->
  vfs_good (w_file w) -> vfs_contents (w_file w) = pre ++ b ++ rest -> blen pre + blen b <= fsize ->
  scan_frame lib w (w_version w) fsize (blen pre) seed = Some (c1, fr_dbsize f, blen pre + blen b).
Proof.
  intros Hw Hf Hb Hr Hc Hfs. pose proof Hf as (_ & _ & Hlen). pose proof (wp_ps _ Hw) as Hps.
  apply frame_enc_hdr in Hb as (c2 & payload & -> & Hpay & Hck & Hc1 & Hc2).
  destruct (frame_hdr24_fields w f c1 c2 Hw Hf Hc1 Hc2) as (_ & F4 & F8 & F12 & F16 & F20 & F0).
  set (h := frame_hdr24 w f c1 c2) in *. assert (blen h = 24) as Hh by done. clearbody h.
  rewrite <- app_assoc in Hc. rewrite blen_app in Hfs.
  unfold scan_frame, TDB_WAL_FRAME_HDR_SIZE, TDB_WAL_V2_PAYLOAD_HDR.
  rewrite (read_mid _ pre h (payload ++ rest)) by done.
  rewrite F8, F12, F16, F20, F4, F0, !Z.eqb_refl. cbn [negb orb].
  assert (forall b1 b2 r2 n off, payload ++ rest = b1 ++ b2 ++ r2 -> off = blen pre + 24 + blen b1 -> n = blen b2 ->
    vfs_read (w_file w) n off = (TDB_OK, b2)) as Hread.
  { intros b1 b2 r2 n off E -> ->. apply (read_mid _ (pre ++ h ++ b1) b2 r2); [done| |blia|done].
    rewrite Hc, E, <- !app_assoc. done. }
  destruct (wp_ver _ Hw) as [Hv|Hv]; rewrite Hv; cbn [TDB_WAL_VERSION_V1 TDB_WAL_VERSION_V2 Z.eqb Pos.eqb andb].
  - destruct (payload_v1_len w (fr_page f) payload Hlen Hv Hpay) as [-> Hpl].
    destruct (Z.ltb_spec fsize (blen pre + 24 + w_page_size w)); [lia|].
    rewrite (Hread [] (fr_page f) rest) by (done || (rewrite blen_nil; lia)).
    rewrite Z.sub_diag, app_nil_r, <- Hck, !Z.eqb_refl. cbn [negb orb]. do 2 f_equal. rewrite blen_app. lia.
  - unfold payload_ok in Hpay. rewrite Hv, Z.eqb_refl in Hpay. destruct Hpay as (codec & body & -> & Hbl & Hcase).
    assert (blen (tdb_put_u32 (blen body) ++ [codec] ++ body) = 5 + blen body) as Hpl by (unfold blen; cbn; lia).
    rewrite Hpl in Hfs.
    destruct (Z.ltb_spec fsize (blen pre + 24 + 5)); [lia|].
    rewrite (Hread [] (tdb_put_u32 (blen body) ++ [codec]) (body ++ rest)) by (rewrite <- ?app_assoc, ?blen_nil; done || lia).
    rewrite get_put_u32, u32_small by lia.
    change (bget (tdb_put_u32 (blen body) ++ [codec]) 4) with codec.
    replace ((w_page_size w <? blen body) || (fsize <? blen pre + 24 + 5 + blen body)) with false by lia.
    rewrite (Hread (tdb_put_u32 (blen body) ++ [codec]) body rest)
      by (rewrite <- ?app_assoc; done || (change (blen (tdb_put_u32 (blen body) ++ [codec])) with 5; lia)).
    rewrite (blen_app h), Hpl, Hh.
    replace (blen pre + (24 + (5 + blen body))) with (blen pre + 24 + 5 + blen body) by lia.
    destruct Hcase as [[-> ->]|[Hne Hd]].
    + cbn [TDB_COMP_NONE Z.eqb negb andb].
      rewrite Hlen, Z.sub_diag, app_nil_r, <- Hck, !Z.eqb_refl. cbn [negb orb]. done.
    + rewrite (proj2 (Z.eqb_neq _ _) Hne), Hd, Hlen, Z.eqb_refl. cbn [negb]. rewrite <- Hck, !Z.eqb_refl. done.
Qed.

(** A frame cut short is rejected by the size tests. *)
Lemma frame_enc_len w seed f b c1 :
  frame_ok w f -> frame_enc w seed f b c1 -> 24 <= blen b.
Proof.
  intros Hf (c2 & payload & -> & _)%frame_enc_hdr. rewrite blen_app. change (blen (frame_hdr24 w f c1 c2)) with 24.
  pose proof (blen_nonneg payload). lia.
Qed.
Lemma scan_frame_torn w seed f b c1 pre k :
  wal_params w -> frame_ok w f -> frame_enc w seed f b c1 -> vfs_good (w_file w) ->
  0 <= k < blen b -> vfs_contents (w_file w) = pre ++ bsub b 0 k ->
  blen pre + 24 <= blen (vfs_contents (w_file w)) ->
  scan_frame lib w (w_version w) (blen (vfs_contents (w_file w))) (blen pre) seed = None.
Proof.
  intros Hw Hf Hb Hr Hk Hc H24. pose proof Hf as (_ & _ & Hlen). pose proof (wp_ps _ Hw) as Hps.
  apply frame_enc_hdr in Hb as (c2 & payload & -> & Hpay & Hck & Hc1 & Hc2).
  set (h := frame_hdr24 w f c1 c2) in *. assert (blen h = 24) as Hh by done. clearbody h.
  assert (blen (vfs_contents (w_file w)) = blen pre + k) as Hsz by (rewrite Hc, blen_app, blen_bsub; lia).
  pose proof (blen_nonneg pre).
  assert (vfs_contents (w_file w) = pre ++ h ++ bsub payload 0 (k - 24)) as Hc'.
  { rewrite Hc. f_equal. rewrite bsub_app_split by lia. by rewrite Hh. }
  rewrite Hsz in *. clear Hc Hsz. rewrite blen_app, Hh in Hk.
  unfold scan_frame, TDB_WAL_FRAME_HDR_SIZE, TDB_WAL_V2_PAYLOAD_HDR.
  rewrite (read_mid _ pre h (bsub payload 0 (k - 24))) by done.
  destruct (wp_ver _ Hw) as [Hv|Hv]; rewrite Hv; cbn [TDB_WAL_VERSION_V1 TDB_WAL_VERSION_V2 Z.eqb Pos.eqb andb].
  - destruct (payload_v1_len w (fr_page f) payload Hlen Hv Hpay) as [-> Hpl].
    destruct (Z.ltb_spec (blen pre + k) (blen pre + 24 + w_page_size w)); [done|lia].
  - unfold payload_ok in Hpay. rewrite Hv, Z.eqb_refl in Hpay. destruct Hpay as (codec & body & -> & Hbl & _).
    assert (blen (tdb_put_u32 (blen body) ++ [codec] ++ body) = 5 + blen body) as Hpl by (unfold blen; cbn; lia).
    rewrite Hpl in Hk. destruct (Z.ltb_spec (blen pre + k) (blen pre + 24 + 5)); [done|].
    rewrite (read_mid _ (pre ++ h) (tdb_put_u32 (blen body) ++ [codec]) (bsub body 0 (k - 29)) 5 (blen pre + 24)); try done.
    + rewrite get_put_u32, u32_small by lia.
      destruct (Z.ltb_spec (w_page_size w) (blen body)); [done|].
      destruct (Z.ltb_spec (blen pre + k) (blen pre + 24 + 5 + blen body)); [done|lia].
    + rewrite Hc', (app_assoc (tdb_put_u32 _)), bsub_app_split by (change (blen (tdb_put_u32 (blen body) ++ [codec])) with 5; lia).
      change (blen (tdb_put_u32 (blen body) ++ [codec])) with 5. replace (k - 24 - 5) with (k - 29) by lia.
      by rewrite <- !app_assoc.
    + blia.
Qed.

(** ** The scan loop *)

Fixpoint frame_offs (off : Z) (bs : list (list Z)) : list Z :=
  match bs with
  | [] => []
  | b :: bs => off :: frame_offs (off + blen b) bs
  end.
Fixpoint scan_spec (fs : list frame) (bs : list (list Z)) (off : Z) (s : scan_state) : scan_state :=
  match fs, bs with
  | f :: fs, b :: bs =>
      let idx := sc_idx s + 1 in
      scan_spec fs bs (off + blen b)
        (if negb (fr_dbsize f =? 0) then mk_scan idx idx (fr_dbsize f) (off + blen b)
         else mk_scan idx (sc_committed s) (sc_dbsize s) (sc_end s))
  | _, _ => s
  end.
(** The scan stops at [off]: no room for a header, or an invalid frame. *)
Definition scan_stops (w : wal) (fsize off seed : Z) : Prop :=
  fsize < off + 24 \/ scan_frame lib w (w_version w) fsize off seed = None.

Section Alloc.
Context (alloc_ok : Z -> bool) (Halloc : forall n, alloc_ok n = true).

(** Both arrays grow the same way. *)
Lemma grow_array (l : list Z) want wrap wd fuel :
  (forall z, 0 <= z < 2 ^ wd -> wrap z = z) -> 0 < wd -> (Z.to_nat wd <= fuel)%nat -> 0 <= want <= 2 ^ (wd - 1) ->
  blen l < want -> 
  exists k, l ++ bzero (grow_cap wrap fuel (if blen l =? 0 then 64 else blen l) want - blen l) = l ++ bzero k
            /\ want <= blen (l ++ bzero k) /\ 0 <= k /\ blen (l ++ bzero k) <= Z.max 64 (2 * want).
Proof.
  intros Hw Hwd Hfuel Hwant Hl. pose proof (blen_nonneg l). set (cap := if blen l =? 0 then 64 else blen l).
  assert (0 < cap /\ blen l <= cap /\ (cap = 64 \/ cap < want)) as (Hc1 & Hc2 & Hc3) by (unfold cap; destruct (Z.eqb_spec (blen l) 0); lia).
  clearbody cap. eexists. split; [reflexivity|].
  assert (2 ^ (wd - 1) <= 2 ^ Z.of_nat fuel) by (apply Z.pow_le_mono_r; lia).
  pose proof (grow_cap_spec wrap wd fuel cap want Hw Hwd Hc1 ltac:(lia) ltac:(nia)) as (G1 & G2 & G3).
  assert (blen l <= grow_cap wrap fuel cap want) by lia.
  rewrite blen_app, blen_bzero by lia. lia.
Qed.
Lemma offsets_ensure_ok (w : wal) want :
  0 <= want <= 2 ^ 63 ->
  exists k, offsets_ensure alloc_ok w want = (TDB_OK, wset_offsets w (w_offsets w ++ bzero k))
            /\ want <= blen (w_offsets w ++ bzero k) /\ 0 <= k.
Proof.
  intros Hw. unfold offsets_ensure. destruct (Z.leb_spec want (blen (w_offsets w))).
  - exists 0. change (bzero 0) with (@nil Z). rewrite app_nil_r. split; [by destruct w|done].
  - rewrite Halloc. destruct (grow_array (w_offsets w) want u64 64 64) as (k & -> & Hk & Hk' & _); [apply u64_small|lia..|].
    exists k. done.
Qed.
Lemma map_ensure_ok (w : wal) pgno :
  0 <= pgno < 2 ^ 31 ->
  exists k, map_ensure alloc_ok w pgno = (TDB_OK, wset_map w (w_map w ++ bzero k))
            /\ pgno < blen (w_map w ++ bzero k) /\ 0 <= k
            /\ blen (w_map w ++ bzero k) <= Z.max (blen (w_map w)) (2 ^ 32).
Proof.
  intros Hw. unfold map_ensure. destruct (Z.ltb_spec pgno (blen (w_map w))).
  - exists 0. change (bzero 0) with (@nil Z). rewrite app_nil_r. split; [by destruct w|]. lia.
  - rewrite Halloc. destruct (grow_array (w_map w) (pgno + 1) u32 32 32) as (k & -> & Hk & Hk' & Hk''); [apply u32_small|lia..|].
    exists k. split; [done|]. lia.
Qed.

Lemma take_bput (l : list Z) (n : nat) x :
  (n < length l)%nat -> take (S n) (bput l (Z.of_nat n) [x]) = take n l ++ [x] /\ length (bput l (Z.of_nat n) [x]) = length l.
Proof.
  intros Hn. unfold bput. rewrite Nat2Z.id. split.
  - rewrite take_app_ge, length_take_le by (rewrite ?length_take; lia).
    replace (S n - n)%nat with 1%nat by lia. done.
  - rewrite !length_app, length_take, length_drop. cbn. lia.
Qed.

Lemma scan_frames_log w seed fs bs seed' pre tail fuel fsize s o offs :
  wal_params w -> log_enc w seed fs bs seed' -> vfs_good (w_file w) ->
  vfs_contents (w_file w) = pre ++ concat bs ++ tail -> fsize < 2 ^ 62 ->
  blen pre + blen (concat bs) <= fsize ->
  scan_stops w fsize (blen pre + blen (concat bs)) seed' -> (length fs < fuel)%nat ->
  sc_idx s = Z.of_nat (length offs) -> Z.of_nat (length offs) <= blen pre ->
  (w_version w = TDB_WAL_VERSION_V2 -> take (length offs) o = offs) ->
  exists o', scan_frames lib alloc_ok fuel (wset_offsets w o) (w_version w) fsize (blen pre) seed s
             = (TDB_OK, wset_offsets w o', scan_spec fs bs (blen pre) s)
    /\ (w_version w = TDB_WAL_VERSION_V2 ->
         take (length offs + length fs) o' = offs ++ frame_offs (blen pre) bs).
Proof.
  intros Hw Hlog Hr Hc Hfs. revert pre fuel s o offs Hc.
  induction Hlog as [seed|seed f b c1 fs bs seed' Hf Hb _ IH]; intros pre fuel s o offs Hc Hle Hstop Hfuel Hidx Hoffs Ho.
  - destruct fuel as [|fuel]; [cbn in Hfuel; lia|]. cbn [concat length] in *. rewrite blen_nil, Z.add_0_r in Hstop.
    exists o. rewrite Nat.add_0_r. cbn [frame_offs]. rewrite app_nil_r. split; [|done]. cbn [scan_frames]. unfold TDB_WAL_FRAME_HDR_SIZE.
    destruct Hstop as [Hs|Hs]; [destruct (Z.leb_spec (blen pre + 24) fsize); [lia|done]|].
    change (scan_frame lib (wset_offsets w o)) with (scan_frame lib w). rewrite Hs. by destruct (_ <=? _).
  - destruct fuel as [|fuel]; [cbn in Hfuel; lia|]. cbn [concat length] in *.
    pose proof (frame_enc_len _ _ _ _ _ Hf Hb) as H24. pose proof (blen_nonneg (concat bs)).
    rewrite blen_app in Hle, Hstop. rewrite <- app_assoc in Hc.
    cbn [scan_frames]. unfold TDB_WAL_FRAME_HDR_SIZE.
    destruct (Z.leb_spec (blen pre + 24) fsize); [|lia].
    change (scan_frame lib (wset_offsets w o)) with (scan_frame lib w).
    rewrite (scan_frame_ok w seed f b c1 pre (concat bs ++ tail)) by (done || lia).
    rewrite app_assoc in Hc. rewrite <- blen_app.
    set (s' := if negb (fr_dbsize f =? 0) then _ else _).
    assert (sc_idx s' = Z.of_nat (S (length offs))) as Hidx'
      by (unfold s'; destruct (fr_dbsize f =? 0); cbn; lia).
    assert (scan_spec (f :: fs) (b :: bs) (blen pre) s = scan_spec fs bs (blen (pre ++ b)) s') as ->
      by (cbn [scan_spec]; rewrite <- blen_app; done).
    assert (forall o1, (w_version w = TDB_WAL_VERSION_V2 -> take (S (length offs)) o1 = offs ++ [blen pre]) ->
      exists o', scan_frames lib alloc_ok fuel (wset_offsets w o1) (w_version w) fsize (blen (pre ++ b)) c1 s'
             = (TDB_OK, wset_offsets w o', scan_spec fs bs (blen (pre ++ b)) s')
        /\ (w_version w = TDB_WAL_VERSION_V2 ->
            take (length offs + S (length fs)) o' = offs ++ frame_offs (blen pre) (b :: bs))) as IH'.
    { intros o1 Ho1. assert (length (offs ++ [blen pre]) = S (length offs)) as Hl by (rewrite length_app; cbn; lia).
      destruct (IH (pre ++ b) fuel s' o1 (offs ++ [blen pre])) as (o' & E & Ho');
        [done|blia|by rewrite blen_app, <- Z.add_assoc|lia|by rewrite Hl|rewrite Hl, blen_app; lia|by rewrite Hl|].
      exists o'. split; [done|]. intros Hv. specialize (Ho' Hv). rewrite Hl in Ho'.
      replace (length offs + S (length fs))%nat with (S (length offs) + length fs)%nat by lia.
      rewrite Ho', <- app_assoc. cbn [frame_offs app]. by rewrite blen_app. }
    destruct (wp_ver _ Hw) as [Hv|Hv]; rewrite Hv in *; cbn [TDB_WAL_VERSION_V1 TDB_WAL_VERSION_V2 Z.eqb Pos.eqb].
    + apply IH'. done.
    + specialize (Ho eq_refl).
      destruct (offsets_ensure_ok (wset_offsets w o) (sc_idx s + 1)) as (k & E & Hk1 & Hk2); [lia|].
      rewrite E. apply IH'. intros _.
      change (w_offsets (wset_offsets w o)) with o in *. cbn [wset_offsets w_offsets].
      rewrite Hidx in *. unfold blen in Hk1.
      destruct (take_bput (o ++ bzero k) (length offs) (blen pre)) as [-> _]; [lia|].
      f_equal. assert (length offs <= length o)%nat by (rewrite <- Ho, length_take at 1; lia).
      rewrite take_app_le by done. done.
Qed.

(** ** Finding frames by index *)

Lemma log_enc_length w seed fs bs seed' : log_enc w seed fs bs seed' -> length bs = length fs.
Proof. induction 1; cbn; lia. Qed.
Lemma log_enc_lookup w seed fs bs seed' i f b :
  log_enc w seed fs bs seed' -> fs !! i = Some f -> bs !! i = Some b ->
  frame_ok w f /\ exists s c1, frame_enc w s f b c1.
Proof.
  intros Hl. revert i. induction Hl as [|seed f0 b0 c1 fs bs seed' Hf Hb _ IH]; intros i; [done|].
  destruct i as [|i]; cbn; [intros [= <-] [= <-]; eauto|apply IH].
Qed.
Lemma frame_offs_nth bs off i :
  (i < length bs)%nat -> nth i (frame_offs off bs) 0 = off + blen (concat (take i bs)).
Proof.
  revert off i. induction bs as [|b bs IH]; intros off i Hi; cbn [length] in Hi; [lia|].
  destruct i as [|i]; cbn [frame_offs nth take concat]; [rewrite blen_nil; lia|].
  rewrite IH by lia. rewrite blen_app. lia.
Qed.
Lemma log_v1_len w seed fs bs seed' i :
  wal_params w -> w_version w = TDB_WAL_VERSION_V1 -> log_enc w seed fs bs seed' -> (i <= length bs)%nat ->
  blen (concat (take i bs)) = Z.of_nat i * (24 + w_page_size w).
Proof.
  intros Hw Hv Hl. revert i. induction Hl as [|seed f b c1 fs bs seed' Hf Hb _ IH]; intros i Hi; cbn [length] in Hi.
  { destruct i; [done|lia]. }
  destruct i as [|i]; [done|]. cbn [take concat]. rewrite blen_app, IH by lia.
  apply frame_enc_hdr in Hb as (c2 & payload & -> & Hp & _). destruct Hf as (_ & _ & Hlen).
  destruct (payload_v1_len w (fr_page f) payload Hlen Hv Hp) as [_ Hpl].
  rewrite blen_app, Hpl. change (blen (frame_hdr24 w f c1 c2)) with 24. lia.
Qed.
Definition offsets_ok (w : wal) (bs : list (list Z)) : Prop :=
  w_version w = TDB_WAL_VERSION_V2 -> take (length bs) (w_offsets w) = frame_offs 32 bs.
Lemma frame_offs_snoc off bs b : frame_offs off (bs ++ [b]) = frame_offs off bs ++ [off + blen (concat bs)].
Proof.
  revert off. induction bs as [|c bs IH]; intros off; cbn [frame_offs app concat].
  - by rewrite blen_nil, Z.add_0_r.
  - by rewrite IH, blen_app, Z.add_assoc.
Qed.
Lemma length_frame_offs off bs : length (frame_offs off bs) = length bs.
Proof. revert off. induction bs; intros; cbn; auto. Qed.
Lemma frame_offset_eq w seed fs bs seed' i :
  wal_params w -> log_enc w seed fs bs seed' -> offsets_ok w bs -> (i < length bs)%nat ->
  frame_offset w (Z.of_nat i) = 32 + blen (concat (take i bs)).
Proof.
  intros Hw Hl Ho Hi. unfold frame_offset. destruct (wp_ver _ Hw) as [Hv|Hv]; rewrite Hv.
  - cbn [TDB_WAL_VERSION_V1 TDB_WAL_VERSION_V2 Z.eqb Pos.eqb andb].
    rewrite (log_v1_len w seed fs bs seed' i) by (done || lia). rewrite (wp_stride _ Hw). done.
  - cbn [TDB_WAL_VERSION_V2 Z.eqb Pos.eqb andb]. specialize (Ho Hv).
    assert (length bs <= length (w_offsets w))%nat.
    { apply (f_equal length) in Ho. rewrite length_frame_offs, length_take in Ho. lia. }
    destruct (Z.eqb_spec (blen (w_offsets w)) 0); [unfold blen in *; lia|]. cbn [negb].
    rewrite <- frame_offs_nth by done. rewrite <- Ho. unfold bget. rewrite Nat2Z.id, nth_firstn.
    destruct (Nat.ltb_spec i (length bs)); [done|lia].
Qed.
Lemma concat_split (bs : list (list Z)) i b :
  bs !! i = Some b -> concat bs = concat (take i bs) ++ b ++ concat (drop (S i) bs).
Proof.
  intros Hb. rewrite <- (take_drop_middle bs i b Hb) at 1. rewrite concat_app. done.
Qed.
Lemma frame_at w seed fs bs seed' pre tail i f :
  wal_params w -> log_enc w seed fs bs seed' -> offsets_ok w bs -> blen pre = 32 ->
  vfs_contents (w_file w) = pre ++ concat bs ++ tail -> fs !! i = Some f ->
  exists b s c1 pre' rest, frame_ok w f /\ frame_enc w s f b c1
    /\ vfs_contents (w_file w) = pre' ++ b ++ rest /\ frame_offset w (Z.of_nat i) = blen pre'.
Proof.
  intros Hw Hl Ho Hpre Hc Hf. pose proof (log_enc_length _ _ _ _ _ Hl) as Hlen.
  pose proof (lookup_lt_Some _ _ _ Hf) as Hi. destruct (lookup_lt_is_Some_2 bs i) as [b Hb]; [lia|].
  destruct (log_enc_lookup _ _ _ _ _ _ _ _ Hl Hf Hb) as (Hfo & s & c1 & He).
  exists b, s, c1, (pre ++ concat (take i bs)), (concat (drop (S i) bs) ++ tail). repeat split; try apply Hfo; try done.
  - rewrite Hc, (concat_split bs i b Hb), <- !app_assoc. done.
  - rewrite (frame_offset_eq w seed fs bs seed') by (done || lia). rewrite blen_app. lia.
Qed.

(** ** The page map *)

Lemma bget_app_zero l k p : 0 <= p -> bget (l ++ bzero k) p = bget l p.
Proof.
  intros Hp. unfold bget, bzero. destruct (Nat.lt_ge_cases (Z.to_nat p) (length l)).
  - by rewrite app_nth1.
  - rewrite app_nth2, nth_overflow with (l := l) by lia. rewrite nth_lookup.
    destruct (replicate (Z.to_nat k) 0 !! (Z.to_nat p - length l)%nat) eqn:E; [|done].
    by apply lookup_replicate in E as [-> _].
Qed.
Lemma bget_bput l p x q :
  0 <= p < blen l -> 0 <= q -> bget (bput l p [x]) q = if p =? q then x else bget l q.
Proof.
  intros Hp Hq. unfold bget, bput, blen in *. destruct (Z.eqb_spec p q) as [<-|Hne].
  - rewrite app_nth2 by (rewrite length_take; lia). rewrite length_take, Nat.min_l, Nat.sub_diag by lia. done.
  - destruct (Z.lt_ge_cases q p).
    + rewrite app_nth1 by (rewrite length_take; lia). rewrite nth_firstn.
      destruct (Nat.ltb_spec (Z.to_nat q) (Z.to_nat p)); [done|lia].
    + rewrite app_nth2 by (rewrite length_take; lia). rewrite length_take, Nat.min_l by lia.
      destruct (Z.to_nat q - Z.to_nat p)%nat as [|j] eqn:E; [lia|]. cbn [app nth length].
      rewrite nth_skipn. f_equal. lia.
Qed.
Lemma last_idx_snoc i fs f p acc :
  last_idx i (fs ++ [f]) p acc = if fr_pgno f =? p then i + Z.of_nat (length fs) + 1 else last_idx i fs p acc.
Proof.
  revert i acc. induction fs as [|g fs IH]; intros i acc; cbn [app last_idx length].
  - destruct (fr_pgno f =? p); lia.
  - rewrite IH. destruct (fr_pgno f =? p); lia.
Qed.
Definition map_ok (m : list Z) (fs : list frame) : Prop :=
  (forall p, 0 <= p -> bget m p = last_idx 0 fs p 0) /\ blen m <= 2 ^ 32.
Lemma map_ok_snoc m fs f k :
  map_ok m fs -> 0 <= fr_pgno f -> fr_pgno f < blen (m ++ bzero k) ->
  blen (m ++ bzero k) <= Z.max (blen m) (2 ^ 32) ->
  map_ok (bput (m ++ bzero k) (fr_pgno f) [Z.of_nat (length fs) + 1]) (fs ++ [f]).
Proof.
  intros [Hm Hb] Hp Hl Hk. split.
  - intros p Hp0. rewrite bget_bput, last_idx_snoc by lia. rewrite bget_app_zero, Hm by lia.
    destruct (fr_pgno f =? p); lia.
  - rewrite blen_bput; [lia|lia|]. rewrite blen_cons, blen_nil. lia.
Qed.
Lemma rebuild_map_log w seed fs bs seed' pre tail n i m :
  wal_params w -> log_enc w seed fs bs seed' -> offsets_ok w bs -> blen pre = 32 -> vfs_good (w_file w) ->
  vfs_contents (w_file w) = pre ++ concat bs ++ tail -> (i + n <= length fs)%nat -> map_ok m (take i fs) ->
  exists m', rebuild_map alloc_ok n (wset_map w m) (Z.of_nat i) = (TDB_OK, wset_map w m')
             /\ map_ok m' (take (i + n) fs).
Proof.
  intros Hw Hl Ho Hpre Hr Hc. revert i m. induction n as [|n IH]; intros i m Hin Hm.
  { exists m. rewrite Nat.add_0_r. done. }
  destruct (lookup_lt_is_Some_2 fs i) as [f Hf]; [lia|].
  destruct (frame_at w seed fs bs seed' pre tail i f) as (b & s & c1 & pre' & rest & Hfo & He & Hc' & Hoff); try done.
  apply frame_enc_hdr in He as (c2 & payload & -> & _ & _ & Hc1 & Hc2).
  destruct (frame_hdr24_fields w f c1 c2 Hw Hfo Hc1 Hc2) as (F0 & _). rewrite <- app_assoc in Hc'.
  cbn [rebuild_map]. change (frame_offset (wset_map w m)) with (frame_offset w). cbn [wset_map w_file].
  rewrite (read_mid _ pre' (frame_hdr24 w f c1 c2) (payload ++ rest)) by done. rewrite F0.
  destruct Hfo as (Hp & _).
  destruct (map_ensure_ok (wset_map w m) (fr_pgno f)) as (k & E & Hk1 & Hk2 & Hk3); [lia|]. rewrite E.
  change (w_map (wset_map w m)) with m in *. cbn [wset_map w_map].
  replace (i + S n)%nat with (S i + n)%nat by lia. replace (Z.of_nat i + 1) with (Z.of_nat (S i)) by lia.
  apply IH; [lia|]. rewrite (take_S_r _ _ _ Hf).
  assert (length (take i fs) = i) as Hti by (rewrite length_take; apply lookup_lt_Some in Hf; lia).
  pose proof (map_ok_snoc m (take i fs) f k Hm) as Hs. rewrite Hti in Hs.
  replace (Z.of_nat (S i)) with (Z.of_nat i + 1) by lia. apply Hs; lia.
Qed.

(** ** Committed prefixes *)

Lemma ncommitted_snoc i fs f acc :
  ncommitted i (fs ++ [f]) acc = if fr_dbsize f =? 0 then ncommitted i fs acc else (i + length fs + 1)%nat.
Proof.
  revert i acc. induction fs as [|g fs IH]; intros i acc; cbn [app ncommitted length].
  - destruct (fr_dbsize f =? 0); lia.
  - rewrite IH. destruct (fr_dbsize f =? 0); lia.
Qed.
Lemma ncommitted_le fs : (ncommitted 0 fs 0 <= length fs)%nat.
Proof.
  induction fs as [|f fs IH] using rev_ind; [done|]. rewrite ncommitted_snoc, length_app. cbn.
  destruct (fr_dbsize f =? 0); lia.
Qed.
Lemma last_dbsize_snoc fs f acc :
  last_dbsize (fs ++ [f]) acc = if fr_dbsize f =? 0 then last_dbsize fs acc else fr_dbsize f.
Proof. revert acc. induction fs as [|g fs IH]; intros acc; cbn [app last_dbsize]; [done|apply IH]. Qed.
Lemma committed_snoc fs f :
  committed (fs ++ [f]) = if fr_dbsize f =? 0 then committed fs else fs ++ [f].
Proof.
  unfold committed. rewrite ncommitted_snoc. destruct (fr_dbsize f =? 0).
  - rewrite take_app_le; [done|]. apply ncommitted_le.
  - apply take_ge. rewrite length_app. cbn. lia.
Qed.
Lemma log_enc_take w seed fs bs seed' n :
  log_enc w seed fs bs seed' -> exists s, log_enc w seed (take n fs) (take n bs) s.
Proof.
  intros Hl. revert n. induction Hl as [seed|seed f b c1 fs bs seed' Hf Hb _ IH]; intros n.
  { exists seed. rewrite !take_nil. constructor. }
  destruct n as [|n]; [exists seed; constructor|]. destruct (IH n) as [s Hs]. exists s. by econstructor.
Qed.
Lemma scan_spec_result fs bs0 bs off s :
  length bs = length fs -> sc_idx s = Z.of_nat (length bs0) ->
  off = 32 + blen (concat bs0) -> sc_end s = 32 + blen (concat (take (Z.to_nat (sc_committed s)) (bs0 ++ bs))) ->
  0 <= sc_committed s ->
  let r := scan_spec fs bs off s in
  sc_committed r = Z.of_nat (ncommitted (length bs0) fs (Z.to_nat (sc_committed s)))
  /\ sc_dbsize r = last_dbsize fs (sc_dbsize s)
  /\ sc_end r = 32 + blen (concat (take (Z.to_nat (sc_committed r)) (bs0 ++ bs))).
Proof.
  revert bs0 bs off s. induction fs as [|f fs IH]; intros bs0 bs off s Hlen Hidx Hoff Hend Hc;
    destruct bs as [|b bs]; try done; cbn [scan_spec ncommitted last_dbsize].
  { cbn. split; [lia|]. done. }
  cbn [length] in Hlen. set (s' := if negb (fr_dbsize f =? 0) then _ else _).
  assert (length (bs0 ++ [b]) = S (length bs0)) as Hl by (rewrite length_app; cbn; lia).
  assert (concat (bs0 ++ [b]) = concat bs0 ++ b) as Hcc by (rewrite concat_app; cbn; by rewrite app_nil_r).
  replace (bs0 ++ b :: bs) with ((bs0 ++ [b]) ++ bs) in * by (by rewrite <- app_assoc).
  specialize (IH (bs0 ++ [b]) bs (off + blen b) s'). rewrite Hl in IH.
  destruct (Z.eqb_spec (fr_dbsize f) 0) as [E|E]; subst s'; cbn [negb sc_idx sc_committed sc_dbsize sc_end] in *.
  - apply IH; [lia|lia|rewrite Hcc, blen_app; lia|done|done].
  - replace (Z.to_nat (sc_idx s + 1)) with (S (length bs0)) in IH by lia. apply IH; [lia|lia| | |lia].
    + rewrite Hcc, blen_app. lia.
    + rewrite take_app_le, take_ge by lia. rewrite Hcc, blen_app. lia.
Qed.

(** ** The representation of a log *)

(** [wal_rep w fs]: the open log [w] stores the frames [fs]. *)
Definition wal_rep (w : wal) (fs : list frame) : Prop :=
  wal_params w /\ vfs_good (w_file w) /\ map_ok (w_map w) fs
  /\ w_nframe w = Z.of_nat (length fs)
  /\ exists bs tail seed',
       log_enc w (w_salt1 w) fs bs seed' /\ offsets_ok w bs
       /\ w_end_off w = 32 + blen (concat bs)
       /\ vfs_contents (w_file w) = wal_header w ++ concat bs ++ tail.

(** A file that holds the header of [w0], frames [fs] and a tail the scan
    rejects. *)
Definition log_file (w0 : wal) (fs : list frame) (f : F) : Prop :=
  vfs_good f /\ wal_params w0 /\ blen (vfs_contents f) < 2 ^ 62
  /\ exists bs tail seed',
       log_enc w0 (w_salt1 w0) fs bs seed' /\ vfs_contents f = wal_header w0 ++ concat bs ++ tail
       /\ scan_stops (wset_file w0 f) (blen (vfs_contents f)) (32 + blen (concat bs)) seed'.

Lemma log_enc_params w w' seed fs bs seed' :
  w_page_size w' = w_page_size w -> w_version w' = w_version w -> w_salt1 w' = w_salt1 w -> w_salt2 w' = w_salt2 w ->
  log_enc w seed fs bs seed' -> log_enc w' seed fs bs seed'.
Proof.
  intros E1 E2 E3 E4 Hl. induction Hl as [seed|seed f b c1 fs bs seed' Hf Hb _ IH]; [constructor|].
  econstructor; [| |exact IH].
  - unfold frame_ok in *. by rewrite E1.
  - destruct Hb as (payload & c2 & Eb & Ec & Hp). exists payload, c2. unfold frame_hdr16, payload_ok in *.
    by rewrite E1, E2, E3, E4.
Qed.
Lemma scan_frame_params w w' :
  w_page_size w' = w_page_size w -> w_salt1 w' = w_salt1 w -> w_salt2 w' = w_salt2 w -> w_file w' = w_file w ->
  scan_frame lib w' = scan_frame lib w.
Proof. intros E1 E2 E3 E4. unfold scan_frame. by rewrite E1, E2, E3, E4. Qed.
Lemma log_enc_concat_len w seed fs bs seed' :
  log_enc w seed fs bs seed' -> 24 * Z.of_nat (length fs) <= blen (concat bs).
Proof.
  induction 1 as [|seed f b c1 fs bs seed' Hf Hb _ IH]; cbn [concat length]; [done|].
  pose proof (frame_enc_len _ _ _ _ _ Hf Hb). rewrite blen_app. lia.
Qed.

Lemma wal_header_fields (w : wal) :
  wal_params w ->
  tdb_get_u32 (wal_header w) = TDB_WAL_MAGIC /\ tdb_get_u32 (bfrom (wal_header w) 4) = w_version w
  /\ tdb_get_u32 (bfrom (wal_header w) 8) = w_page_size w /\ tdb_get_u32 (bfrom (wal_header w) 12) = w_ckpt_seq w
  /\ tdb_get_u32 (bfrom (wal_header w) 16) = w_salt1 w /\ tdb_get_u32 (bfrom (wal_header w) 20) = w_salt2 w.
Proof.
  intros [H1 H2 H3 H4 H5 H6]. unfold wal_header. cbv zeta.
  generalize (tdb_crc32c (w_salt1 w)). intros g1. generalize (tdb_crc32c 0). intros g2.
  match goal with |- context [(?h ++ tdb_put_u32 (g1 ?h) ++ tdb_put_u32 (g2 ?h))] =>
    set (rest := tdb_put_u32 (g1 h) ++ tdb_put_u32 (g2 h)); clearbody rest end.
  assert (0 <= w_version w < 2 ^ 32) by (unfold TDB_WAL_VERSION_V1, TDB_WAL_VERSION_V2 in *; lia).
  rewrite <- !app_assoc. split; [by rewrite get_put_u32|]. repeat split.
  - change (bfrom _ 4) with (tdb_put_u32 (w_version w) ++ tdb_put_u32 (w_page_size w) ++ tdb_put_u32 (w_ckpt_seq w) ++ tdb_put_u32 (w_salt1 w) ++ tdb_put_u32 (w_salt2 w) ++ rest).
    rewrite get_put_u32, u32_small; lia.
  - change (bfrom _ 8) with (tdb_put_u32 (w_page_size w) ++ tdb_put_u32 (w_ckpt_seq w) ++ tdb_put_u32 (w_salt1 w) ++ tdb_put_u32 (w_salt2 w) ++ rest).
    rewrite get_put_u32, u32_small; lia.
  - change (bfrom _ 12) with (tdb_put_u32 (w_ckpt_seq w) ++ tdb_put_u32 (w_salt1 w) ++ tdb_put_u32 (w_salt2 w) ++ rest).
    rewrite get_put_u32, u32_small; lia.
  - change (bfrom _ 16) with (tdb_put_u32 (w_salt1 w) ++ tdb_put_u32 (w_salt2 w) ++ rest).
    rewrite get_put_u32, u32_small; lia.
  - change (bfrom _ 20) with (tdb_put_u32 (w_salt2 w) ++ rest). rewrite get_put_u32, u32_small; lia.
Qed.

(** ** Recovery *)

Lemma recover_log w w0 fs f :
  log_file w0 fs f -> w_file w = f -> w_page_size w = w_page_size w0 ->
  w_frame_stride w = TDB_WAL_FRAME_HDR_SIZE + w_page_size w -> w_map w = [] ->
  exists w', recover lib alloc_ok w = (TDB_OK, w') /\ wal_rep w' (committed fs)
             /\ w_file w' = f /\ wal_header w' = wal_header w0 /\ w_db_size w' = last_dbsize fs 0.
Proof.
  intros (Hg & Hp0 & Hsz & bs & tail & seed' & Hl & Hc & Hstop) Hf Hps Hst Hmap.
  destruct (wal_header_fields w0 Hp0) as (F0 & F4 & F8 & F12 & F16 & F20).
  pose proof (log_enc_length _ _ _ _ _ Hl) as Hlen. pose proof (log_enc_concat_len _ _ _ _ _ Hl) as H24.
  pose proof (blen_nonneg tail) as Htail. pose proof (blen_nonneg (concat bs)) as Hcb.
  assert (32 + blen (concat bs) <= blen (vfs_contents f)) as Hfs
    by (rewrite Hc, !blen_app, wal_header_len; lia).
  set (w1 := wset_hdr w (w_version w0) (w_salt1 w0) (w_salt2 w0) (w_ckpt_seq w0)).
  assert (w_file w1 = f) as Hf1 by (subst w1; done).
  assert (wal_params w1) as Hp1.
  { destruct Hp0. split; cbn; rewrite ?Hps; auto. by rewrite Hst, Hps. }
  assert (log_enc w1 (w_salt1 w1) fs bs seed') as Hl1 by (by apply (log_enc_params w0 w1)).
  assert (scan_stops w1 (blen (vfs_contents f)) (32 + blen (concat bs)) seed') as Hstop1.
  { unfold scan_stops in *. rewrite (scan_frame_params (wset_file w0 f) w1) by (subst w1; done). done. }
  unfold recover. rewrite Hf, (good_size f Hg). unfold TDB_WAL_HDR_SIZE.
  destruct (Z.ltb_spec (blen (vfs_contents f)) 32); [lia|].
  rewrite (read_mid f [] (wal_header w0) (concat bs ++ tail)) by done.
  rewrite F0, F4, F8, F12, F16, F20, Hps, !Z.eqb_refl. cbn [negb].
  replace (negb (w_version w0 =? TDB_WAL_VERSION_V1) && negb (w_version w0 =? TDB_WAL_VERSION_V2)) with false
    by (destruct (wp_ver _ Hp0) as [-> | ->]; done).
  fold w1. rewrite !Halloc. cbn [andb negb].
  destruct (scan_frames_log w1 (w_salt1 w1) fs bs seed' (wal_header w0) tail (Z.to_nat (blen (vfs_contents f)))
     (blen (vfs_contents f)) (mk_scan 0 0 0 32) (w_offsets w1) []) as (o & Es & Hoff);
    rewrite ?Hf1, ?wal_header_len; try done; [lia|].
  rewrite wal_header_len in Es. replace (wset_offsets w1 (w_offsets w1)) with w1 in Es by (by destruct w1).
  change (w_version w1) with (w_version w0) in Es. rewrite Es.
  destruct (scan_spec_result fs [] bs 32 (mk_scan 0 0 0 32)) as (R1 & R2 & R3); try done. cbn [app length sc_committed sc_dbsize] in R1, R2, R3.
  change (Z.to_nat 0) with O in R1. set (r := scan_spec fs bs 32 (mk_scan 0 0 0 32)) in *. rewrite R1, Nat2Z.id in *.
  set (n := ncommitted 0 fs 0) in *. assert (n <= length fs)%nat as Hn by apply ncommitted_le.
  set (w2 := wset_offsets w1 o).
  assert (offsets_ok w2 bs) as Hoff2 by (intros Hv; rewrite Hlen; by apply Hoff).
  assert (w_map w2 = []) as Hm2 by (subst w2 w1; done). rewrite Hm2. change (bzero (blen [])) with (@nil Z).
  destruct (rebuild_map_log w2 (w_salt1 w1) fs bs seed' (wal_header w0) tail n 0 []) as (m & Erb & Hm); try done.
  { by destruct Hp1; split. }
  { by apply (log_enc_params w1). }
  { change (w_file w2) with (w_file w1). by rewrite Hf1. }
  { change (w_file w2) with (w_file w1). by rewrite Hf1. }
  { split; [|vm_compute; congruence]. intros p Hp. unfold bget. by destruct (Z.to_nat p). }
  change (Z.of_nat 0) with 0 in Erb. rewrite Erb. cbn [Nat.add] in Hm. eexists. split; [reflexivity|]. split; [|split; [done|split; [|by cbn [wset_tail w_db_size]]]].
  2: { unfold wal_header. subst w2 w1. cbn [wset_hdr wset_offsets wset_map wset_tail w_version w_page_size w_ckpt_seq w_salt1 w_salt2]. by rewrite Hps. }
  unfold wal_rep. cbn [wset_tail wset_map w_map w_nframe w_end_off w_file w_salt1].
  split; [by destruct Hp1; split|]. split; [by rewrite Hf1 || (subst w2 w1; cbn; by rewrite Hf)|].
  split; [done|]. split; [unfold committed; fold n; rewrite length_take; lia|].
  destruct (log_enc_take w1 (w_salt1 w1) fs bs seed' n Hl1) as [sn Hln].
  exists (take n bs), (concat (drop n bs) ++ tail), sn. split; [|split; [|split]].
  - by apply (log_enc_params w1).
  - intros Hv. specialize (Hoff2 Hv). cbn [wset_tail wset_map w_offsets]. rewrite length_take, Nat.min_l by lia.
    assert (forall l off k, take k (frame_offs off l) = frame_offs off (take k l)) as Htk.
    { clear. induction l as [|b l IH]; intros off [|k]; cbn; [done..|]. by rewrite IH. }
    rewrite <- Htk, <- Hoff2, take_take. f_equal. lia.
  - rewrite R3. done.
  - subst w2 w1. cbn [wset_hdr wset_offsets w_file]. rewrite Hf, Hc.
    rewrite (app_assoc (concat (take n bs))), <- concat_app, take_drop.
    apply (f_equal (fun h => h ++ concat bs ++ tail)).
    unfold wal_header. cbn [wset_hdr wset_offsets wset_map wset_tail w_version w_page_size w_ckpt_seq w_salt1 w_salt2]. by rewrite Hps.
Qed.

Lemma bput_app pre tail src off :
  off = blen pre -> bput (pre ++ tail) off src = pre ++ src ++ drop (length src) tail.
Proof.
  intros ->. unfold bput, blen. rewrite Nat2Z.id, take_app_length, drop_app_ge by lia. do 3 f_equal. lia.
Qed.
Lemma wal_init_stride (f : F) ps :
  0 < ps <= 65536 -> w_frame_stride (wal_init lib f ps) = TDB_WAL_FRAME_HDR_SIZE + ps.
Proof. intros. unfold wal_init, TDB_WAL_FRAME_HDR_SIZE. cbn [w_frame_stride]. rewrite u32_small; lia. Qed.

(** Rewriting the header of a log with no frame. *)
Lemma write_header_rep (w : wal) rest :
  wal_params w -> vfs_good (w_file w) -> w_nframe w = 0 -> map_ok (w_map w) [] ->
  vfs_contents (w_file w) = rest -> (rest = [] \/ exists t, rest = wal_header w ++ t) ->
  exists w', write_header w = (TDB_OK, w') /\ w_nframe w' = 0 /\ wal_header w' = wal_header w
    /\ w_db_size w' = w_db_size w /\ w_page_size w' = w_page_size w /\ w_map w' = w_map w /\ w_version w' = w_version w
    /\ wal_rep (wset_tail w' (w_nframe w') (w_db_size w') TDB_WAL_HDR_SIZE) []
    /\ vfs_contents (w_file w') = wal_header w ++ drop 32 rest.
Proof.
  intros Hp Hg Hn Hm Hc Hrest. unfold write_header.
  destruct (good_write (w_file w) (wal_header w) 0 Hg) as (f' & -> & Hg' & Hc');
    [pose proof (blen_nonneg (vfs_contents (w_file w))); lia|rewrite wal_header_len; lia|].
  assert (vfs_contents f' = wal_header w ++ drop 32 rest) as Hcf.
  { rewrite Hc', Hc. unfold bput. cbn [Z.to_nat take Nat.add]. done. }
  exists (wset_file w f'). do 7 (split; [done|]). split; [|done].
  unfold wal_rep. cbn [wset_tail wset_file w_map w_nframe w_db_size w_file w_salt1 w_end_off].
  split; [by destruct Hp; split|]. split; [done|]. split; [done|]. split; [done|].
  exists [], (drop 32 rest), (w_salt1 w). split; [constructor|]. split; [by intros _|]. split; [done|].
  exact Hcf.
Qed.
Lemma wal_open_log w0 fs f :
  log_file w0 fs f ->
  exists w, tdb_wal_open lib alloc_ok f (w_page_size w0) = (TDB_OK, Some w) /\ wal_rep w (committed fs)
            /\ wal_header w = wal_header w0 /\ w_db_size w = last_dbsize fs 0.
Proof.
  intros Hlog. pose proof Hlog as (Hg & Hp0 & Hsz & bs & tail & seed' & Hl & Hc & Hstop).
  destruct (recover_log (wal_init lib f (w_page_size w0)) w0 fs f Hlog) as (w & Er & Hrep & Hf & Hh & Hd);
    [reflexivity|reflexivity|apply wal_init_stride, Hp0|reflexivity|].
  unfold tdb_wal_open. rewrite Halloc, Er. cbn [negb].
  destruct (Z.eqb_spec (w_nframe w) 0) as [Hn|Hn].
  2: { exists w. split; [reflexivity|]. split; [exact Hrep|]. split; [exact Hh|exact Hd]. }
  pose proof Hrep as (Hp & Hgw & Hm & Hnf & _).
  assert (committed fs = []) as Hc0 by (destruct (committed fs); [done|cbn in Hnf; lia]). rewrite Hc0 in *.
  destruct (write_header_rep w (wal_header w ++ concat bs ++ tail)) as (w' & -> & Hn' & Hh' & Hd' & _ & _ & _ & Hrep' & _);
    [exact Hp|exact Hgw|exact Hn|exact Hm|rewrite Hf, Hc, Hh; reflexivity|right; eexists; reflexivity|].
  eexists. split; [reflexivity|]. split; [exact Hrep'|]. change (wal_header (wset_tail w' (w_nframe w') (w_db_size w') TDB_WAL_HDR_SIZE)) with (wal_header w').
  cbn [wset_tail w_db_size]. rewrite Hh', Hd'. split; [exact Hh|exact Hd].
Qed.
Lemma wal_open_fresh f ps :
  vfs_good f -> vfs_contents f = [] -> 0 < ps <= 65536 ->
  exists w, tdb_wal_open lib alloc_ok f ps = (TDB_OK, Some w) /\ wal_rep w [] /\ w_page_size w = ps /\ w_db_size w = 0
    /\ w_version w = w_version (wal_init lib f ps) /\ w_end_off w = 32.
Proof.
  intros Hg Hc Hps. assert (recover lib alloc_ok (wal_init lib f ps) = (TDB_OK, wal_init lib f ps)) as Er.
  { unfold recover. cbn [wal_init w_file]. rewrite (good_size f Hg), Hc. done. }
  unfold tdb_wal_open. rewrite Halloc, Er. cbn [negb wal_init w_nframe]. fold (wal_init lib f ps).
  change (mk_wal f ps _ _ _ _ _ _ _ _ _ _) with (wal_init lib f ps). cbn [Z.eqb].
  destruct (write_header_rep (wal_init lib f ps) []) as (w' & E & Hn' & Hh' & Hd' & Hps' & _ & Hv' & Hrep' & _).
  - split; cbn [wal_init w_page_size w_version w_salt1 w_salt2 w_ckpt_seq]; try lia.
    + destruct (negb _); auto.
    + by apply wal_init_stride.
    + apply lxor_range; [lia|apply u32_range|lia].
  - exact Hg.
  - reflexivity.
  - split; [|vm_compute; congruence]. intros p Hp. unfold bget. cbn. by destruct (Z.to_nat p).
  - exact Hc.
  - left. reflexivity.
  - rewrite E. eexists. split; [reflexivity|]. split; [exact Hrep'|].
    cbn [wset_tail w_page_size w_db_size w_version w_end_off]. rewrite Hps', Hd', Hv'. repeat split.
Qed.

(** ** Reading *)

Lemma latest_snoc fs f p acc :
  latest (fs ++ [f]) p acc = if fr_pgno f =? p then Some (fr_page f) else latest fs p acc.
Proof. revert acc. induction fs as [|g fs IH]; intros acc; cbn [app latest]; [done|apply IH]. Qed.
Lemma last_idx_latest fs p :
  (last_idx 0 fs p 0 = 0 /\ latest fs p None = None)
  \/ exists i f, last_idx 0 fs p 0 = Z.of_nat i + 1 /\ fs !! i = Some f /\ fr_pgno f = p
                 /\ latest fs p None = Some (fr_page f).
Proof.
  induction fs as [|f fs IH] using rev_ind; [by left|]. rewrite last_idx_snoc, latest_snoc.
  destruct (Z.eqb_spec (fr_pgno f) p).
  - right. exists (length fs), f. split; [lia|]. split; [|done]. by rewrite lookup_app_r, Nat.sub_diag.
  - destruct IH as [?|(i & g & E & Hi & Hp & Hl)]; [by left|]. right. exists i, g. split; [done|]. split; [|done].
    rewrite lookup_app_l; [done|]. by eapply lookup_lt_Some.
Qed.
Lemma wal_read_log w fs p :
  wal_rep w fs -> 0 <= p -> tdb_wal_read_page lib alloc_ok w p = (TDB_OK, latest fs p None).
Proof.
  intros (Hp & Hg & Hm & Hn & bs & tail & seed' & Hl & Ho & _ & Hc) Hp0. unfold tdb_wal_read_page.
  destruct Hm as [Hm _]. specialize (Hm p Hp0). destruct (last_idx_latest fs p) as [[E ->]|(i & f & E & Hi & Hf & ->)]; rewrite E in Hm.
  { rewrite Hm. cbn [Z.eqb]. by rewrite orb_true_r. }
  destruct (Z.leb_spec (blen (w_map w)) p).
  { unfold bget in Hm. rewrite nth_overflow in Hm by (unfold blen in *; lia). lia. }
  rewrite Hm. destruct (Z.eqb_spec (Z.of_nat i + 1) 0); [lia|]. cbn [orb].
  replace (Z.of_nat i + 1 - 1) with (Z.of_nat i) by lia. pose proof (lookup_lt_Some _ _ _ Hi).
  destruct (Z.leb_spec (w_nframe w) (Z.of_nat i)); [lia|].
  destruct (frame_at w (w_salt1 w) fs bs seed' (wal_header w) tail i f) as (b & s & c1 & pre & rest & Hfo & He & Hc' & ->); try done.
  pose proof Hfo as (_ & _ & Hlen). pose proof (wp_ps _ Hp).
  apply frame_enc_hdr in He as (c2 & payload & -> & Hpay & _).
  set (h := frame_hdr24 w f c1 c2) in *. assert (blen h = 24) as Hh by done. clearbody h.
  unfold TDB_WAL_FRAME_HDR_SIZE, TDB_WAL_V2_PAYLOAD_HDR. rewrite <- app_assoc in Hc'.
  assert (forall b1 b2 r2 n off, payload ++ rest = b1 ++ b2 ++ r2 -> off = blen pre + 24 + blen b1 -> n = blen b2 ->
    vfs_read (w_file w) n off = (TDB_OK, b2)) as Hread.
  { intros b1 b2 r2 n' off E' -> ->. apply (read_mid _ (pre ++ h ++ b1) b2 r2); [done| |blia|done].
    rewrite Hc', E', <- !app_assoc. done. }
  destruct (wp_ver _ Hp) as [Hv|Hv]; rewrite Hv; cbn [TDB_WAL_VERSION_V1 TDB_WAL_VERSION_V2 Z.eqb Pos.eqb].
  - destruct (payload_v1_len w (fr_page f) payload Hlen Hv Hpay) as [-> Hpl].
    rewrite (Hread [] (fr_page f) rest) by (done || (rewrite blen_nil; lia)). done.
  - unfold payload_ok in Hpay. rewrite Hv, Z.eqb_refl in Hpay. destruct Hpay as (codec & body & -> & Hbl & Hcase).
    rewrite (Hread [] (tdb_put_u32 (blen body) ++ [codec]) (body ++ rest)) by (rewrite <- ?app_assoc, ?blen_nil; done || lia).
    rewrite get_put_u32, u32_small by lia.
    change (bget (tdb_put_u32 (blen body) ++ [codec]) 4) with codec.
    rewrite (Hread (tdb_put_u32 (blen body) ++ [codec]) body rest)
      by (rewrite <- ?app_assoc; done || (change (blen (tdb_put_u32 (blen body) ++ [codec])) with 5; lia)).
    destruct Hcase as [[-> ->]|[Hne Hd]].
    + cbn [TDB_COMP_NONE Z.eqb]. rewrite Hlen, Z.sub_diag, app_nil_r. done.
    + rewrite (proj2 (Z.eqb_neq _ _) Hne), Halloc, Hd, Hlen, Z.eqb_refl. done.
Qed.

(** ** Appending *)

Lemma log_enc_snoc w seed fs bs s f b c1 :
  log_enc w seed fs bs s -> frame_ok w f -> frame_enc w s f b c1 ->
  log_enc w seed (fs ++ [f]) (bs ++ [b]) c1.
Proof. induction 1; intros Hf Hb; cbn [app]; econstructor; eauto. constructor. Qed.
Lemma log_enc_snoc_inv w seed fs f bs seed' :
  log_enc w seed (fs ++ [f]) bs seed' ->
  exists bs0 b s, bs = bs0 ++ [b] /\ log_enc w seed fs bs0 s /\ frame_ok w f /\ frame_enc w s f b seed'.
Proof.
  revert seed bs. induction fs as [|g fs IH]; intros seed bs Hl; cbn [app] in Hl.
  - inversion Hl as [|? ? b c1 ? bs' ? Hf Hb Hrest]; subst. inversion Hrest; subst.
    exists [], b, seed. repeat split; try apply Hf; try done. constructor.
  - inversion Hl as [|? ? b c1 ? bs' ? Hf Hb Hrest]; subst.
    destruct (IH _ _ Hrest) as (bs0 & b' & s & -> & Hl0 & Hf' & Hb'). exists (b :: bs0), b', s.
    repeat split; try apply Hf'; try done. by econstructor.
Qed.
Lemma append_seed_log w fs bs tail seed' :
  wal_params w -> vfs_good (w_file w) -> w_nframe w = Z.of_nat (length fs) ->
  log_enc w (w_salt1 w) fs bs seed' -> offsets_ok w bs ->
  vfs_contents (w_file w) = wal_header w ++ concat bs ++ tail ->
  append_seed w = (TDB_OK, seed').
Proof.
  intros Hp Hg Hn Hl Ho Hc. unfold append_seed. destruct fs as [|f fs _] using rev_ind.
  { inversion Hl; subst. by rewrite Hn. }
  rewrite length_app in Hn. cbn in Hn. destruct (Z.eqb_spec (w_nframe w) 0); [lia|].
  pose proof (log_enc_length _ _ _ _ _ Hl) as Hlen.
  destruct (log_enc_snoc_inv _ _ _ _ _ _ Hl) as (bs0 & b & s & -> & _ & Hf & Hb).
  rewrite !length_app in Hlen. cbn in Hlen.
  replace (w_nframe w - 1) with (Z.of_nat (length bs0)) by lia.
  rewrite (frame_offset_eq w (w_salt1 w) (fs ++ [f]) (bs0 ++ [b]) seed') by (done || (rewrite length_app; cbn; lia)).
  rewrite take_app_length.
  apply frame_enc_hdr in Hb as (c2 & payload & -> & _ & _ & Hc1 & Hc2).
  destruct (frame_hdr24_fields w f seed' c2 Hp Hf Hc1 Hc2) as (_ & _ & _ & _ & F16 & _).
  rewrite (read_mid _ (wal_header w ++ concat bs0) (frame_hdr24 w f seed' c2) (payload ++ tail)); [by rewrite F16|done| | |done].
  - rewrite Hc, concat_app. cbn [concat]. rewrite app_nil_r, <- !app_assoc. done.
  - rewrite blen_app, wal_header_len. lia.
Qed.
Lemma frame_body_ok w page :
  wal_params w -> codec_sound lib -> blen page = w_page_size w ->
  exists codec body, frame_body lib alloc_ok w page = Some (codec, body) /\ blen body <= w_page_size w
    /\ (w_version w = TDB_WAL_VERSION_V1 -> body = page)
    /\ payload_ok w page (if w_version w =? TDB_WAL_VERSION_V2 then tdb_put_u32 (blen body) ++ [codec] ++ body else body).
Proof.
  intros Hp Hs Hlen. pose proof (blen_nonneg page).
  assert (forall c b, w_version w = TDB_WAL_VERSION_V2 -> blen b <= w_page_size w ->
     (c = TDB_COMP_NONE /\ b = page \/ c <> TDB_COMP_NONE /\ tdb_decompress lib b (w_page_size w) = (TDB_OK, page)) ->
     payload_ok w page (tdb_put_u32 (blen b) ++ [c] ++ b)) as Hpo.
  { intros c b Hv Hb Hx. unfold payload_ok. rewrite Hv, Z.eqb_refl. exists c, b. pose proof (blen_nonneg b). auto. }
  unfold frame_body. destruct (wp_ver _ Hp) as [Hv|Hv].
  { rewrite Hv. cbn [TDB_WAL_VERSION_V1 TDB_WAL_VERSION_V2 Z.eqb Pos.eqb andb].
    exists TDB_COMP_NONE, page. split; [done|]. split; [lia|]. split; [done|]. unfold payload_ok. by rewrite Hv. }
  rewrite Hv, Z.eqb_refl. cbn [andb].
  assert (exists codec body, Some (TDB_COMP_NONE, page) = Some (codec, body) /\ blen body <= w_page_size w
    /\ (TDB_WAL_VERSION_V2 = TDB_WAL_VERSION_V1 -> body = page)
    /\ payload_ok w page (tdb_put_u32 (blen body) ++ [codec] ++ body)) as Hplain.
  { exists TDB_COMP_NONE, page. split; [done|]. split; [lia|]. split; [done|]. apply Hpo; auto. lia. }
  destruct (negb (tdb_compress_codec lib =? TDB_COMP_NONE)) eqn:Ec; [|done].
  rewrite Halloc. cbn [negb]. destruct (tdb_compress lib page _) as [[] c] eqn:E; try done.
  destruct (Z.ltb_spec (blen c) (w_page_size w)); [|done].
  exists (u8 (tdb_compress_codec lib)), c. split; [done|]. split; [lia|]. split; [done|].
  apply Hpo; [done|lia|right]. split.
  - unfold tdb_compress_codec in *. by destruct lib.
  - rewrite <- Hlen. by eapply decompress_compress.
Qed.
Lemma append_payload_ok (w : wal) codec body pre t off :
  vfs_good (w_file w) -> vfs_contents (w_file w) = pre ++ t -> blen pre = off + 24 -> 0 <= off ->
  blen body < 2 ^ 32 -> off + 29 + blen body < 2 ^ 62 ->
  exists f t', append_payload w codec body off
      = (TDB_OK, wset_file w f, blen pre + blen (if w_version w =? TDB_WAL_VERSION_V2 then tdb_put_u32 (blen body) ++ [codec] ++ body else body))
    /\ vfs_good f
    /\ vfs_contents f = pre ++ (if w_version w =? TDB_WAL_VERSION_V2 then tdb_put_u32 (blen body) ++ [codec] ++ body else body) ++ t'.
Proof.
  intros Hg Hc Hpre Hoff Hb Hsz. pose proof (blen_nonneg t). pose proof (blen_nonneg body).
  unfold append_payload, TDB_WAL_FRAME_HDR_SIZE, TDB_WAL_V2_PAYLOAD_HDR.
  destruct (w_version w =? TDB_WAL_VERSION_V2) eqn:Ev.
  - rewrite u32_small by lia.
    destruct (good_write (w_file w) (tdb_put_u32 (blen body) ++ [codec]) (off + 24) Hg) as (f1 & -> & Hg1 & Hc1);
      [rewrite Hc, blen_app; lia|change (blen (tdb_put_u32 (blen body) ++ [codec])) with 5; lia|].
    rewrite Hc, bput_app in Hc1 by lia. rewrite app_assoc in Hc1.
    assert (blen (pre ++ tdb_put_u32 (blen body) ++ [codec]) = off + 29) as Hl1
      by (rewrite blen_app; change (blen (tdb_put_u32 (blen body) ++ [codec])) with 5; lia).
    cbn [wset_file w_file].
    destruct (good_write f1 body (off + 24 + 5) Hg1) as (f2 & -> & Hg2 & Hc2);
      [rewrite Hc1, blen_app, Hl1; pose proof (blen_nonneg (drop (length (tdb_put_u32 (blen body) ++ [codec])) t)); lia|lia|].
    rewrite Hc1, bput_app in Hc2 by lia. eexists f2, _. split; [|split; [done|]].
    + f_equal. rewrite app_assoc, (blen_app (tdb_put_u32 (blen body) ++ [codec])).
      change (blen (tdb_put_u32 (blen body) ++ [codec])) with 5. lia.
    + rewrite Hc2, <- !app_assoc. done.
  - destruct (good_write (w_file w) body (off + 24) Hg) as (f2 & -> & Hg2 & Hc2); [rewrite Hc, blen_app; lia|lia|].
    rewrite Hc, bput_app in Hc2 by lia. eexists f2, _. split; [f_equal; lia|done].
Qed.
Lemma wal_append_log w fs pgno page is_commit dbsz :
  wal_rep w fs -> codec_sound lib ->
  let f := mk_frame pgno (if is_commit : bool then dbsz else 0) page in
  frame_ok w f -> (is_commit = true -> 0 < dbsz) -> w_end_off w + 29 + w_page_size w < 2 ^ 62 ->
  exists w', tdb_wal_append lib alloc_ok w pgno page is_commit dbsz = (TDB_OK, w')
    /\ wal_rep w' (fs ++ [f]) /\ wal_header w' = wal_header w /\ w_page_size w' = w_page_size w
    /\ w_end_off w' <= w_end_off w + 29 + w_page_size w
    /\ w_db_size w' = (if is_commit then dbsz else w_db_size w).
Proof.
  intros (Hp & Hg & Hm & Hn & bs & tail & seed' & Hl & Ho & He & Hc) Hs f Hf Hcm Hsz.
  pose proof Hf as (Hpg & Hdb & Hlen). cbn [f fr_page fr_pgno fr_dbsize] in *. pose proof (wp_ps _ Hp) as Hps.
  pose proof (log_enc_length _ _ _ _ _ Hl) as Hlb. pose proof (blen_nonneg (concat bs)) as Hcb. pose proof (blen_nonneg tail) as Htl.
  unfold tdb_wal_append. rewrite (append_seed_log w fs bs tail seed') by done.
  destruct (frame_checksum seed' (frame_hdr16 w pgno (if is_commit then dbsz else 0)) page) as [c1 c2] eqn:Eck.
  assert ((if w_version w =? TDB_WAL_VERSION_V2 then w_end_off w else frame_offset w (w_nframe w)) = w_end_off w) as ->.
  { destruct (wp_ver _ Hp) as [Hv|Hv]; rewrite Hv; [|done]. cbn [TDB_WAL_VERSION_V1 TDB_WAL_VERSION_V2 Z.eqb Pos.eqb].
    unfold frame_offset. rewrite Hv. cbn [TDB_WAL_VERSION_V1 TDB_WAL_VERSION_V2 Z.eqb Pos.eqb andb].
    rewrite He, Hn, <- Hlb, (wp_stride _ Hp). unfold TDB_WAL_HDR_SIZE, TDB_WAL_FRAME_HDR_SIZE.
    rewrite <- (log_v1_len w _ _ _ _ (length bs) Hp Hv Hl) by done. by rewrite firstn_all. }
  set (h := frame_hdr24 w f c1 c2). fold f in Hl |- *.
  change (frame_hdr16 w pgno (if is_commit then dbsz else 0) ++ tdb_put_u32 c1 ++ tdb_put_u32 c2) with h.
  assert (blen h = 24) as Hh by done.
  assert (blen (wal_header w ++ concat bs) = w_end_off w) as Hpre by (rewrite blen_app, wal_header_len; lia).
  destruct (good_write (w_file w) h (w_end_off w) Hg) as (f1 & -> & Hg1 & Hc1);
    [rewrite Hc, app_assoc, blen_app; lia|lia|].
  rewrite Hc, app_assoc, bput_app, app_assoc in Hc1 by done. set (t1 := drop (length h) tail) in *.
  destruct (frame_body_ok (wset_file w f1) page) as (codec & body & -> & Hbl & _ & Hpay);
    [by destruct Hp; split|done|done|]. cbn [wset_file w_version w_page_size] in Hbl, Hpay.
  destruct (append_payload_ok (wset_file w f1) codec body ((wal_header w ++ concat bs) ++ h) t1 (w_end_off w))
    as (f2 & t2 & -> & Hg2 & Hc2); [done|done|rewrite blen_app; lia|lia|lia|lia|].
  cbn [wset_file w_version] in Hc2 |- *.
  set (payload := if w_version w =? TDB_WAL_VERSION_V2 then _ else body) in *.
  assert (frame_enc w seed' f (h ++ payload) c1) as Henc.
  { exists payload, c2. split; [|split; [exact (eq_sym Eck)|done]]. unfold h, frame_hdr24. by rewrite <- !app_assoc. }
  pose proof (log_enc_snoc _ _ _ _ _ _ _ _ Hl Hf Henc) as Hl'.
  assert (blen payload <= 5 + w_page_size w) as Hpl.
  { unfold payload. destruct (w_version w =? _); [|lia]. rewrite app_assoc, blen_app.
    change (blen (tdb_put_u32 (blen body) ++ [codec])) with 5. lia. }
  set (end_off := blen ((wal_header w ++ concat bs) ++ h) + blen payload).
  assert (end_off = 32 + blen (concat (bs ++ [h ++ payload]))) as Hend.
  { unfold end_off. rewrite concat_app. cbn [concat]. rewrite app_nil_r, !blen_app, wal_header_len. lia. }
  clearbody payload end_off.
  assert (forall o, (w_version w = TDB_WAL_VERSION_V2 -> take (length bs + 1) o = frame_offs 32 (bs ++ [h ++ payload])) ->
    exists w', (let '(rc, w1) := map_ensure alloc_ok (wset_tail (wset_offsets (wset_file w f2) o) (w_nframe w) (w_db_size w) end_off) pgno in
       match rc with
       | TDB_OK => (TDB_OK, wset_tail (wset_map w1 (bput (w_map w1) pgno [w_nframe w + 1])) (w_nframe w + 1)
                     (if is_commit then dbsz else w_db_size w1) (w_end_off w1))
       | _ => (TDB_NOMEM, w1) end) = (TDB_OK, w') /\ wal_rep w' (fs ++ [f]) /\ wal_header w' = wal_header w
       /\ w_page_size w' = w_page_size w /\ w_end_off w' <= w_end_off w + 29 + w_page_size w
       /\ w_db_size w' = (if is_commit then dbsz else w_db_size w)) as Hfin.
  { intros o Hoo.
    destruct (map_ensure_ok (wset_tail (wset_offsets (wset_file w f2) o) (w_nframe w) (w_db_size w) end_off) pgno)
      as (k & -> & Hk1 & Hk2 & Hk3); [lia|].
    cbn [wset_map wset_tail wset_offsets wset_file w_map w_db_size w_end_off] in *.
    eexists. split; [reflexivity|]. split; [|split; [done|split; [done|rewrite concat_app in Hend; cbn [concat w_end_off] in *; rewrite app_nil_r, !blen_app in Hend; cbn; split; [lia|done]]]].
    unfold wal_rep. cbn [wset_map wset_tail wset_offsets wset_file w_map w_nframe w_db_size w_end_off w_file w_salt1].
    split; [by destruct Hp; split|]. split; [done|].
    split; [rewrite Hn; apply (map_ok_snoc (w_map w) fs f k); [done|cbn; lia|cbn [f fr_pgno]; lia|lia]|]. split; [rewrite length_app; cbn; lia|].
    exists (bs ++ [h ++ payload]), t2, c1. split; [by apply (log_enc_params w)|].
    split; [|split; [done|]].
    - intros Hv. cbn [w_offsets]. rewrite length_app. cbn [length]. by apply Hoo.
    - rewrite Hc2, concat_app. cbn [concat]. rewrite app_nil_r, <- !app_assoc. done. }
  change (mk_wal f1 _ _ _ _ _ _ _ _ _ _ _) with (wset_file w f1).
  change (wset_file (wset_file w f1) f2) with (wset_file w f2).
  unfold append_index. cbn [wset_file w_version w_nframe w_db_size]. fold (wset_file w f2).
  destruct (wp_ver _ Hp) as [Hv|Hv]; rewrite Hv in *; cbn [TDB_WAL_VERSION_V1 TDB_WAL_VERSION_V2 Z.eqb Pos.eqb] in *.
  - destruct (Hfin (w_offsets w)) as (w' & E & Hw'); [done|]. exists w'. split; [|done].
    rewrite <- E. cbn [wset_tail wset_file wset_offsets w_nframe w_db_size].
    by destruct (map_ensure _ _ _) as [[] ?].
  - destruct (offsets_ensure_ok (wset_file w f2) (w_nframe w + 1)) as (k & -> & Hk1 & Hk2); [pose proof (log_enc_concat_len _ _ _ _ _ Hl); lia|].
    cbn [wset_offsets wset_file w_offsets] in Hk1 |- *. specialize (Ho Hv).
    assert (length bs <= length (w_offsets w))%nat as Hob.
    { apply (f_equal length) in Ho. rewrite length_frame_offs, length_take in Ho. lia. }
    destruct (Hfin (bput (w_offsets w ++ bzero k) (w_nframe w) [w_end_off w])) as (w' & E & Hw').
    { intros _. rewrite Hn in Hk1 |- *. rewrite <- Hlb in *. unfold blen in Hk1. rewrite Nat.add_1_r.
      destruct (take_bput (w_offsets w ++ bzero k) (length bs) (w_end_off w)) as [-> _]; [lia|].
      rewrite take_app_le, Ho by done. by rewrite He, frame_offs_snoc. }
    exists w'. split; [|done]. rewrite <- E. cbn [wset_tail wset_file wset_offsets w_nframe w_db_size].
    by destruct (map_ensure _ _ _) as [[] ?].
Qed.

(** ** Truncated logs *)

(** How many frames fit whole in [m] bytes. *)
Fixpoint nfit (m : Z) (bs : list (list Z)) : nat :=
  match bs with
  | [] => 0
  | b :: bs => if blen b <=? m then S (nfit (m - blen b) bs) else 0
  end.
Lemma nfit_split m bs :
  0 <= m ->
  exists t, bsub (concat bs) 0 m = concat (take (nfit m bs) bs) ++ t
    /\ (t = [] \/ exists b k, bs !! nfit m bs = Some b /\ 0 <= k < blen b /\ t = bsub b 0 k).
Proof.
  revert m. induction bs as [|b bs IH]; intros m Hm; cbn [nfit concat].
  { exists []. split; [|by left]. unfold bsub. rewrite drop_nil, take_nil. done. }
  destruct (Z.leb_spec (blen b) m).
  - destruct (IH (m - blen b)) as (t & E & Ht); [lia|]. exists t. split; [|done].
    cbn [take concat]. rewrite bsub_app_split, E by done. by rewrite app_assoc.
  - exists (bsub b 0 m). split; [|right; exists b, m; cbn; auto]. cbn [take concat app]. rewrite bsub_app_l by lia. done.
Qed.
Lemma log_enc_at w seed fs bs seed' n :
  log_enc w seed fs bs seed' ->
  exists s, log_enc w seed (take n fs) (take n bs) s
    /\ forall b, bs !! n = Some b -> exists f c1, frame_ok w f /\ frame_enc w s f b c1.
Proof.
  intros Hl. revert n. induction Hl as [seed|seed f b c1 fs bs seed' Hf Hb _ IH]; intros n.
  { exists seed. rewrite !take_nil. split; [constructor|]. intros b Hb. by rewrite lookup_nil in Hb. }
  destruct n as [|n].
  { exists seed. split; [constructor|]. intros b' [= <-]. eauto. }
  destruct (IH n) as (s & Hs & Hb'). exists s. split; [by econstructor|done].
Qed.
Lemma torn_log_file w0 fs bs seed' f m :
  wal_params w0 -> log_enc w0 (w_salt1 w0) fs bs seed' -> vfs_good f -> 32 <= m < 2 ^ 62 ->
  vfs_contents f = bsub (wal_header w0 ++ concat bs) 0 m ->
  log_file w0 (take (nfit (m - 32) bs) fs) f.
Proof.
  intros Hp Hl Hg Hm Hc. destruct (nfit_split (m - 32) bs) as (t & Et & Ht); [lia|].
  set (n := nfit (m - 32) bs) in *.
  rewrite bsub_app_split, wal_header_len, Et in Hc by (rewrite wal_header_len; lia).
  destruct (log_enc_at _ _ _ _ _ n Hl) as (s & Hln & Hb).
  assert (blen (vfs_contents f) = 32 + blen (concat (take n bs)) + blen t) as Hsz
    by (rewrite Hc, !blen_app, wal_header_len; lia).
  assert (blen (vfs_contents f) <= m) as Hsm.
  { rewrite Hc, <- Et, blen_app, wal_header_len. unfold bsub, blen. rewrite length_take. lia. }
  split; [done|]. split; [done|]. split; [lia|]. exists (take n bs), t, s. split; [done|]. split; [done|].
  destruct Ht as [->|(b & k & Hbn & Hk & ->)].
  { left. rewrite blen_nil in Hsz. lia. }
  destruct (Hb b Hbn) as (fr & c1 & Hfo & Henc). rewrite blen_bsub in Hsz by lia.
  destruct (Z.lt_ge_cases (blen (vfs_contents f)) (32 + blen (concat (take n bs)) + 24)); [by left|right].
  replace (32 + blen (concat (take n bs))) with (blen (wal_header w0 ++ concat (take n bs))) by (rewrite blen_app, wal_header_len; lia).
  apply (scan_frame_torn (wset_file w0 f) s fr b c1 (wal_header w0 ++ concat (take n bs)) k); try done.
  - by destruct Hp; split.
  - cbn [wset_file w_file]. rewrite blen_app, wal_header_len. lia.
Qed.

(** ** Corrupted frames *)

Lemma frame_bytes_v1 (w : wal) f c1 c2 :
  bytes_ok (fr_page f) -> bytes_ok (frame_hdr24 w f c1 c2 ++ fr_page f).
Proof.
  intros Hp. apply bytes_ok_app. split; [|done]. unfold frame_hdr24, frame_hdr16, tdb_put_u32.
  cbn [app]. repeat (constructor; [apply u8_range|]). constructor.
Qed.
Lemma u32_field_inj a b :
  bytes_ok a -> bytes_ok b -> length a = 4%nat -> length b = 4%nat -> tdb_get_u32 a = tdb_get_u32 b -> a = b.
Proof.
  intros Ha Hb La Lb.
  destruct a as [|a0 [|a1 [|a2 [|a3 [|]]]]]; try done. destruct b as [|b0 [|b1 [|b2 [|b3 [|]]]]]; try done.
  unfold bytes_ok in *. repeat match goal with H : Forall is_byte (_ :: _) |- _ => apply Forall_cons in H as [? H] end.
  rewrite !get_u32_bytes by done. unfold is_byte in *. intros E.
  assert (a0 = b0) by lia. assert (a1 = b1) by lia. assert (a2 = b2) by lia. assert (a3 = b3) by lia. congruence.
Qed.
(** Two byte strings that differ in one place, cut at [n]: one half is equal,
    the other differs in one place. *)
Definition one_diff (a b : list Z) : Prop :=
  exists l x y r, a = l ++ x :: r /\ b = l ++ y :: r /\ x <> y.
Lemma one_diff_split a b n :
  one_diff a b -> 0 <= n <= blen a ->
  (one_diff (bsub a 0 n) (bsub b 0 n) /\ bfrom a n = bfrom b n)
  \/ (bsub a 0 n = bsub b 0 n /\ one_diff (bfrom a n) (bfrom b n)).
Proof.
  intros (l & x & y & r & -> & -> & Hne) Hn. unfold bsub, bfrom, blen in *. rewrite !drop_0.
  rewrite length_app in Hn. cbn in Hn. destruct (Nat.lt_ge_cases (length l) (Z.to_nat n)).
  - left. rewrite !take_app_ge, !drop_app_ge by lia.
    destruct (Z.to_nat n - length l)%nat as [|k] eqn:E; [lia|]. cbn [take drop]. split; [|done].
    exists l, x, y, (take k r). done.
  - right. rewrite !take_app_le, !drop_app_le by lia. split; [done|].
    exists (drop (Z.to_nat n) l), x, y, r. done.
Qed.
Lemma one_diff_neq a b : one_diff a b -> a <> b.
Proof. intros (l & x & y & r & -> & -> & Hne) E. apply app_inv_head in E. congruence. Qed.
Lemma one_diff_len a b : one_diff a b -> blen b = blen a.
Proof. intros (l & x & y & r & -> & -> & _). rewrite !blen_app, !blen_cons. lia. Qed.
Lemma crc_one_diff seed a b : bytes_ok a -> bytes_ok b -> one_diff a b -> tdb_crc32c seed a <> tdb_crc32c seed b.
Proof.
  intros Ha Hb (l & x & y & r & -> & -> & Hne). apply bytes_ok_app in Ha as [Hl Ha]. apply bytes_ok_app in Hb as [_ Hb].
  apply Forall_cons in Ha as [Hx Hr]. apply Forall_cons in Hb as [Hy _]. by apply crc_one_byte.
Qed.

Lemma scan_frame_corrupt w seed f b c1 b' pre rest fsize :
  wal_params w -> w_version w = TDB_WAL_VERSION_V1 -> frame_ok w f -> bytes_ok (fr_page f) ->
  frame_enc w seed f b c1 -> vfs_good (w_file w) ->
  one_diff b b' -> bytes_ok b' -> vfs_contents (w_file w) = pre ++ b' ++ rest ->
  scan_frame lib w (w_version w) fsize (blen pre) seed = None.
Proof.
  intros Hw Hv Hf Hpb Hb Hg Hd Hb' Hc. pose proof Hf as (_ & _ & Hlen). pose proof (wp_ps _ Hw) as Hps.
  apply frame_enc_hdr in Hb as (c2 & payload & -> & Hpay & Hck & Hc1 & Hc2).
  destruct (payload_v1_len w (fr_page f) payload Hlen Hv Hpay) as [-> _].
  destruct (frame_hdr24_fields w f c1 c2 Hw Hf Hc1 Hc2) as (_ & _ & _ & _ & F16 & F20 & F0).
  pose proof (frame_bytes_v1 w f c1 c2 Hpb) as Hbb.
  set (h := frame_hdr24 w f c1 c2) in *. assert (blen h = 24) as Hh by done. clearbody h.
  pose proof (one_diff_len _ _ Hd) as Hl'. rewrite blen_app, Hh, Hlen in Hl'.
  set (h' := bsub b' 0 24). set (page' := bfrom b' 24).
  assert (b' = h' ++ page') as Eb' by (unfold h', page', bsub, bfrom; by rewrite drop_0, take_drop).
  assert (blen h' = 24) as Hh' by (unfold h'; rewrite blen_bsub; lia).
  assert (blen page' = w_page_size w) as Hp' by (unfold page'; rewrite blen_bfrom; lia).
  assert (one_diff h h' /\ page' = fr_page f \/ h' = h /\ one_diff (fr_page f) page') as Hcase.
  { destruct (one_diff_split _ _ 24 Hd) as [[H1 H2]|[H1 H2]]; [rewrite blen_app; lia| |];
      rewrite bfrom_app in H2 by done; rewrite bsub_app_l, bsub_all in H1 by lia; [left|right]; auto. }
  rewrite Eb' in Hb', Hc. apply bytes_ok_app in Hb' as [Hbh' Hbp']. apply bytes_ok_app in Hbb as [Hbh Hbp].
  clear Hd Eb'. rewrite <- app_assoc in Hc. clearbody h' page'.
  unfold scan_frame, TDB_WAL_FRAME_HDR_SIZE. rewrite (read_mid _ pre h' (page' ++ rest)) by done.
  rewrite Hv. cbn [TDB_WAL_VERSION_V1 TDB_WAL_VERSION_V2 Z.eqb Pos.eqb andb].
  destruct (fsize <? blen pre + 24 + w_page_size w); [done|].
  rewrite (read_mid _ (pre ++ h') page' rest) by (done || (rewrite ?blen_app, <- ?app_assoc; done || lia)).
  rewrite Z.sub_diag, app_nil_r. destruct (_ || _); [done|].
  unfold frame_checksum in *. injection Hck as E1 E2.
  set (c1' := tdb_crc32c (tdb_crc32c seed (bsub h' 0 16)) page').
  set (c2' := tdb_crc32c (tdb_crc32c 0 (bsub h' 0 16)) page').
  assert (~ (c1' = tdb_get_u32 (bfrom h' 16) /\ c2' = tdb_get_u32 (bfrom h' 20))) as Hbad.
  2: { destruct (Z.eqb_spec c1' (tdb_get_u32 (bfrom h' 16))); cbn [negb orb]; [|done].
       destruct (Z.eqb_spec c2' (tdb_get_u32 (bfrom h' 20))); cbn [negb]; [tauto|done]. }
  intros [G1 G2]. destruct Hcase as [[Hd Ep]|[Eh Hd]].
  - subst page'. destruct (one_diff_split _ _ 16 Hd) as [[D1 D2]|[D1 D2]]; [lia| |].
    + (* a byte of the 16-byte prefix *)
      rewrite F0 in D1. replace (bfrom h' 20) with (bfrom h 20) in G2.
      2: { replace 20 with (16 + 4) by lia. rewrite <- !bfrom_bfrom by lia. by rewrite D2. }
      rewrite F20, E2 in G2. unfold c2' in G2. apply crc_seed_inj in G2; [|apply tdb_crc32c_range..|done].
      symmetry in G2. revert G2. apply crc_one_diff; [|by apply bytes_ok_bsub|done].
      rewrite <- F0. by apply bytes_ok_bsub.
    + unfold c1' in G1. unfold c2' in G2. rewrite F0 in D1. rewrite <- D1, <- E1 in G1. rewrite <- D1, <- E2 in G2.
      assert (forall k, k = 16 \/ k = 20 -> bytes_ok (bsub h k 4) /\ bytes_ok (bsub h' k 4)) as Hbs
        by (intros; split; by apply bytes_ok_bsub).
      assert (forall k l, k = 16 \/ k = 20 -> blen l = 24 -> tdb_get_u32 (bfrom l k) = tdb_get_u32 (bsub l k 4)) as Hg4.
      { intros k l Hk Hl24. rewrite (bfrom_split l k 4) by lia. assert (blen (bsub l k 4) = 4) as L4 by (rewrite blen_bsub; lia).
        generalize (bfrom l (k + 4)). intros q. unfold blen in L4.
        destruct (bsub l k 4) as [|x0 [|x1 [|x2 [|x3 [|]]]]]; cbn in L4; try lia. done. }
      apply (one_diff_neq _ _ D2). rewrite (bfrom_split h 16 4), (bfrom_split h' 16 4) by lia.
      assert (forall l, blen l = 24 -> bfrom l (16 + 4) = bsub l 20 4) as H20.
      { intros l L. unfold bfrom, bsub. rewrite take_ge; [done|]. rewrite length_drop. unfold blen in L. lia. }
      rewrite !H20 by done. rewrite !Hg4 in F16, F20, G1, G2 by auto.
      f_equal; (apply u32_field_inj; [by apply bytes_ok_bsub..| | |congruence]);
        apply Nat2Z.inj; fold (blen (bsub h 16 4)) (blen (bsub h' 16 4)) (blen (bsub h 20 4)) (blen (bsub h' 20 4));
        rewrite blen_bsub; lia.
  - subst h'. unfold c2' in G2. rewrite F20, E2, F0 in G2. symmetry in G2. revert G2.
    by apply crc_one_diff.
Qed.

(** ** Checkpoint *)

Lemma bsub_bput_other c o src off n :
  0 <= o <= blen c -> 0 <= off -> 0 <= n -> off + n <= o \/ o + blen src <= off ->
  bsub (bput c o src) off n = bsub c off n.
Proof.
  intros Ho Hoff Hn Hd. unfold bsub, bput, blen in *. destruct Hd as [Hd|Hd].
  - destruct (Z.eq_dec n 0) as [->|]; [done|].
    rewrite drop_app_le by (rewrite length_take; lia).
    rewrite take_app_le by (rewrite length_drop, length_take; lia).
    rewrite skipn_firstn_comm, take_take. f_equal. lia.
  - rewrite !drop_app_ge by (rewrite ?length_take; lia).
    rewrite !length_take, drop_drop. do 2 f_equal. lia.
Qed.
Lemma read_at_bput c o src off n :
  0 <= o <= blen c -> 0 <= off -> n = blen src -> off = o \/ off + n <= o \/ o + n <= off ->
  read_at (bput c o src) n off = if off =? o then src else read_at c n off.
Proof.
  intros Ho Hoff -> Hd. pose proof (blen_nonneg src). destruct (Z.eqb_spec off o) as [->|Hne].
  - rewrite read_at_inside.
    + assert (blen (take (Z.to_nat o) c) = o) as Hl by (unfold blen in *; rewrite length_take; lia).
      rewrite <- (take_drop (Z.to_nat o) c) at 1. rewrite bput_app by done.
      rewrite bsub_app_r by lia. rewrite Hl, Z.sub_diag, bsub_app_l by lia. by apply bsub_all.
    + lia.
    + lia.
    + unfold bput, blen in *. rewrite !length_app, length_take, length_drop. lia.
  - unfold read_at. rewrite bsub_bput_other; [done|lia..].
Qed.
Lemma blen_bput_ge c o src : 0 <= o <= blen c -> Z.max (blen c) (o + blen src) = blen (bput c o src).
Proof. intros. unfold bput, blen in *. rewrite !length_app, length_take, length_drop. lia. Qed.

(** Page [q] of a database file. *)
Definition file_page (ps : Z) (c : list Z) (q : Z) : list Z := read_at c ps ((q - 1) * ps).

(** The pages in the log can be written back in order without a hole. *)
Definition no_holes (ps : Z) (fs : list frame) (c : list Z) : Prop :=
  forall q, 0 <= q -> latest fs q None <> None ->
    1 <= q < 2 ^ 31 /\ ((q - 1) * ps <= blen c \/ latest fs (q - 1) None <> None).

Lemma latest_page_len w seed fs bs seed' p page :
  log_enc w seed fs bs seed' -> latest fs p None = Some page -> blen page = w_page_size w.
Proof.
  intros Hl E. destruct (last_idx_latest fs p) as [[_ E0]|(i & f & _ & Hi & _ & E1)]; [congruence|].
  rewrite E1 in E. injection E as <-. pose proof (lookup_lt_Some _ _ _ Hi).
  destruct (lookup_lt_is_Some_2 bs i) as [b Hb]; [rewrite (log_enc_length _ _ _ _ _ Hl); done|].
  by destruct (log_enc_lookup _ _ _ _ _ _ _ _ Hl Hi Hb) as ((_ & _ & ?) & _).
Qed.
Lemma checkpoint_copy_log w fs n db p :
  wal_rep w fs -> vfs_good db -> 0 <= p -> 65536 * (p + Z.of_nat n) < 2 ^ 61 -> p + Z.of_nat n <= 2 ^ 32 ->
  (forall q, 0 <= q -> latest fs q None <> None -> 1 <= q) ->
  (forall q, p <= q -> latest fs q None <> None ->
     (q - 1) * w_page_size w <= blen (vfs_contents db) \/ (p <= q - 1 /\ latest fs (q - 1) None <> None)) ->
  exists db', checkpoint_copy lib alloc_ok n w db p = (TDB_OK, db') /\ vfs_good db'
    /\ blen (vfs_contents db) <= blen (vfs_contents db')
    /\ (forall q, p <= q < p + Z.of_nat n -> latest fs q None <> None -> q * w_page_size w <= blen (vfs_contents db'))
    /\ forall q, 1 <= q ->
       file_page (w_page_size w) (vfs_contents db') q
       = match (if (p <=? q) && (q <? p + Z.of_nat n) then latest fs q None else None) with
         | Some page => page
         | None => file_page (w_page_size w) (vfs_contents db) q
         end.
Proof.
  intros Hrep Hg0 Hp0 Hsz Hsz2 Hpos Hh. pose proof Hrep as (Hp & _ & Hm & Hn & bs & tail & seed' & Hl & _).
  pose proof (wp_ps _ Hp) as Hps. revert db p Hg0 Hp0 Hsz Hsz2 Hh. induction n as [|n IH]; intros db p Hg Hp0 Hsz Hsz2 Hh.
  { exists db. split; [done|]. split; [done|]. split; [done|]. split; [lia|]. intros q Hq.
    bdec; done. }
  cbn [checkpoint_copy]. rewrite (proj1 Hm p Hp0).
  assert (latest fs p None = None -> exists db', checkpoint_copy lib alloc_ok n w db (p + 1) = (TDB_OK, db') /\ vfs_good db'
    /\ blen (vfs_contents db) <= blen (vfs_contents db')
    /\ (forall q, p <= q < p + Z.of_nat (S n) -> latest fs q None <> None -> q * w_page_size w <= blen (vfs_contents db'))
    /\ forall q, 1 <= q ->
       file_page (w_page_size w) (vfs_contents db') q
       = match (if (p <=? q) && (q <? p + Z.of_nat (S n)) then latest fs q None else None) with
         | Some page => page
         | None => file_page (w_page_size w) (vfs_contents db) q
         end) as Hskip.
  { intros Hno. destruct (IH db (p + 1)) as (db' & E & Hg' & Hle & Hin & Hq); [done|lia|lia|lia| |].
    - intros q Hq Hl'. destruct (Hh q) as [?|[? ?]]; [lia|done|by left|]. right. split; [|done].
      destruct (Z.eq_dec (q - 1) p) as [Eq|]; [rewrite Eq in *; done|lia].
    - exists db'. split; [done|]. split; [done|]. split; [done|].
      split; [intros q Hq0 Hl'; apply Hin; [|done]; destruct (Z.eq_dec q p) as [->|]; [done|lia]|]. intros q Hq0. rewrite Hq by done.
      destruct (Z.eq_dec q p) as [->|].
      + bdec. by rewrite Hno.
      + bdec; done. }
  destruct (last_idx_latest fs p) as [[-> Hno]|(i & f & -> & Hi & _ & Hlat)]; [by apply Hskip|].
  pose proof (lookup_lt_Some _ _ _ Hi). replace ((_ =? 0) || _) with false by lia.
  rewrite (wal_read_log w fs p Hrep Hp0), Hlat.
  assert (1 <= p) as Hp1 by (apply Hpos; [done|by rewrite Hlat]).
  assert (blen (fr_page f) = w_page_size w) as Hpl by (by eapply latest_page_len).
  assert ((p - 1) * w_page_size w <= blen (vfs_contents db)) as Hoff.
  { destruct (Hh p) as [?|[? ?]]; [lia|by rewrite Hlat|done|lia]. }
  rewrite u32_small by lia.
  destruct (good_write db (fr_page f) ((p - 1) * w_page_size w) Hg) as (db1 & -> & Hg1 & Hc1); [nia|nia|].
  pose proof (blen_bput_ge (vfs_contents db) ((p - 1) * w_page_size w) (fr_page f)) as Hge.
  rewrite <- Hc1, Hpl in Hge. specialize (Hge ltac:(nia)).
  destruct (IH db1 (p + 1)) as (db' & E & Hg' & Hle & Hin & Hq); [done|lia|lia|lia| |].
  { intros q Hq Hl'. destruct (Z.eq_dec q (p + 1)) as [->|].
    - left. replace (p + 1 - 1) with p by lia. nia.
    - destruct (Hh q) as [?|[? ?]]; [lia|done|left; lia|right; split; [lia|done]]. }
  exists db'. split; [done|]. split; [done|]. split; [lia|].
  split; [intros q Hq0 Hl'; destruct (Z.eq_dec q p) as [->|]; [nia|apply Hin; [lia|done]]|]. intros q Hq0. rewrite Hq by done.
  assert (file_page (w_page_size w) (vfs_contents db1) q
    = if q =? p then fr_page f else file_page (w_page_size w) (vfs_contents db) q) as Hfp.
  { assert ((q - 1) * w_page_size w = (p - 1) * w_page_size w \/ (q - 1) * w_page_size w + w_page_size w <= (p - 1) * w_page_size w
      \/ (p - 1) * w_page_size w + w_page_size w <= (q - 1) * w_page_size w) as Hdis
      by (destruct (Z.lt_trichotomy q p) as [|[->|]]; [right; left; nia|by left|right; right; nia]).
    unfold file_page. rewrite Hc1, read_at_bput by (lia || nia).
    destruct (Z.eqb_spec q p) as [->|]; [by rewrite Z.eqb_refl|].
    destruct (Z.eqb_spec ((q - 1) * w_page_size w) ((p - 1) * w_page_size w)); [nia|done]. }
  rewrite Hfp. destruct (Z.eqb_spec q p) as [->|].
  - bdec. by rewrite Hlat.
  - bdec; done.
Qed.

Lemma wal_checkpoint_log w fs db :
  wal_rep w fs -> vfs_good db -> no_holes (w_page_size w) fs (vfs_contents db) ->
  exists w' db', tdb_wal_checkpoint lib alloc_ok w db = (TDB_OK, w', db') /\ wal_rep w' [] /\ vfs_good db'
    /\ w_page_size w' = w_page_size w /\ w_map w' = bzero (blen (w_map w))
    /\ (forall q, 0 <= q -> latest fs q None <> None -> q * w_page_size w <= blen (vfs_contents db')) /\ vfs_contents (w_file w') = wal_header w'
    /\ forall q, 1 <= q ->
       file_page (w_page_size w) (vfs_contents db') q
       = match latest fs q None with
         | Some page => page
         | None => file_page (w_page_size w) (vfs_contents db) q
         end.
Proof.
  intros Hrep Hg Hno. pose proof Hrep as (Hp & Hgw & [Hm Hmap] & _). pose proof (blen_nonneg (w_map w)).
  destruct (checkpoint_copy_log w fs (length (w_map w)) db 0 Hrep Hg) as (db1 & E & Hg1 & Hle & Hin & Hq);
    [lia|unfold blen in *; lia|unfold blen in *; lia| | |].
  { intros q G1 G2. by apply Hno. }
  { intros q G1 G2. destruct (Hno q G1 G2) as [? [?|?]]; [by left|right; split; [lia|done]]. }
  unfold tdb_wal_checkpoint. rewrite Halloc, E. cbn [negb].
  destruct (good_sync db1 Hg1) as (db2 & -> & Hg2 & Hc2).
  destruct (good_truncate (w_file w) 0 Hgw) as (f1 & Et & Hgf1 & Hcf1); [pose proof (blen_nonneg (vfs_contents (w_file w))); lia|].
  cbn [wset_map wset_tail wset_hdr w_file]. rewrite Et.
  set (w1 := wset_file _ f1).
  destruct (write_header_rep w1 []) as (w2 & -> & Hn2 & Hh2 & _ & Hps2 & Hm2 & _ & Hrep2 & Hcon2).
  - destruct Hp. split; cbn; auto; try apply u32_range. apply lxor_range; lia.
  - done.
  - done.
  - split; [|cbn [w1 wset_file wset_map w_map]; by rewrite blen_bzero]. intros q Hq0. cbn. unfold bget, bzero. rewrite nth_lookup.
    destruct (replicate _ 0 !! Z.to_nat q) eqn:E'; [|done]. by apply lookup_replicate in E' as [-> _].
  - done.
  - by left.
  - destruct Hrep2 as (Hp3 & Hg3 & Hm3 & Hnf3 & bs & tail & s & Hl & Ho & He & Hc).
    set (w3 := wset_tail w2 _ _ _) in *. unfold tdb_wal_sync. destruct (good_sync (w_file w3) Hg3) as (f4 & -> & Hg4 & Hc4).
    exists (wset_file w3 f4), db2. split; [done|]. split; [|split; [done|]].
    + split; [by destruct Hp3; split|]. split; [done|]. split; [done|]. split; [done|].
      exists bs, tail, s. split; [by apply (log_enc_params w3)|]. split; [done|]. split; [done|].
      cbn [wset_file w_file]. by rewrite Hc4, Hc.
    + split; [done|]. split; [done|]. rewrite Hc2.
      assert (forall q, Z.of_nat (length (w_map w)) <= q -> latest fs q None = None) as Hout.
      { intros q Hx. destruct (last_idx_latest fs q) as [[_ ?]|(i & f & Ei & _)]; [done|].
        rewrite <- (Hm q) in Ei by lia. unfold bget in Ei. rewrite nth_overflow in Ei by lia. lia. }
      split; [intros q Hq0 Hl'; apply Hin; [|done]; destruct (Z.lt_ge_cases q (Z.of_nat (length (w_map w)))); [lia|by rewrite Hout in Hl']|].
      split; [cbn [wset_file w_file]; rewrite Hc4; change (w_file w3) with (w_file w2); rewrite Hcon2, app_nil_r; exact (eq_sym Hh2)|].
      intros q Hq0. rewrite Hq by done.
      destruct (Z.leb_spec 0 q); [|lia]. cbn [andb].
      destruct (Z.ltb_spec q (0 + Z.of_nat (length (w_map w)))) as [|Hx]; [done|].
      rewrite Hout by lia. done.
Qed.
End Alloc.

(** ** Properties *)

(** The log stores pages: appending a frame succeeds on a sound file and
    afterwards reading that page gives the appended image, while every other
    page, and the pages of both formats (plain and compressed), reads as
    before; a commit frame sets the database size. *)
Theorem wal_append_read alloc_ok w fs pgno page is_commit dbsz :
  (forall n, alloc_ok n = true) -> codec_sound lib -> wal_rep w fs ->
  0 <= pgno < 2 ^ 31 -> blen page = w_page_size w -> 0 <= dbsz < 2 ^ 32 ->
  (is_commit = true -> 0 < dbsz) -> w_end_off w + 29 + w_page_size w < 2 ^ 62 ->
  exists w', tdb_wal_append lib alloc_ok w pgno page is_commit dbsz = (TDB_OK, w')
    /\ wal_rep w' (fs ++ [mk_frame pgno (if is_commit : bool then dbsz else 0) page])
    /\ (forall p, 0 <= p ->
          tdb_wal_read_page lib alloc_ok w' p
          = if p =? pgno then (TDB_OK, Some page) else tdb_wal_read_page lib alloc_ok w p)
    /\ tdb_wal_frame_count w' = tdb_wal_frame_count w + 1
    /\ tdb_wal_db_size w' = (if is_commit then dbsz else tdb_wal_db_size w).
Proof.
  intros Ha Hs Hrep Hp Hl Hd Hc Hsz.
  assert (frame_ok w (mk_frame pgno (if is_commit then dbsz else 0) page)) as Hf.
  { split; [done|]. split; [cbn; destruct is_commit; lia|done]. }
  destruct (wal_append_log alloc_ok Ha w fs pgno page is_commit dbsz Hrep Hs Hf Hc Hsz) as (w' & E & Hrep' & _ & _ & _ & Hdb).
  exists w'. split; [done|]. split; [done|]. split; [|split].
  - intros p Hp0. rewrite (wal_read_log alloc_ok Ha w' _ p Hrep' Hp0), (wal_read_log alloc_ok Ha w fs p Hrep Hp0), latest_snoc.
    cbn [fr_pgno fr_page]. rewrite Z.eqb_sym. by destruct (p =? pgno).
  - destruct Hrep as (_ & _ & _ & Hn & _). destruct Hrep' as (_ & _ & _ & Hn' & _). unfold tdb_wal_frame_count.
    rewrite Hn, Hn', length_app. cbn. lia.
  - exact Hdb.
Qed.

(** C1. Crash recovery is atomic and durable: cut a log file at any byte [m]
    after its header, wherever in a frame that is.  Opening what is left
    succeeds and gives exactly the frames of the transactions whose commit
    frame was entirely inside the first [m] bytes: every page reads as its
    latest image among those, and a half-written transaction leaves no
    trace. *)
Theorem wal_crash_recovery alloc_ok w0 fs bs seed' f m :
  (forall n, alloc_ok n = true) -> wal_params w0 -> log_enc w0 (w_salt1 w0) fs bs seed' ->
  vfs_good f -> 32 <= m < 2 ^ 62 -> vfs_contents f = bsub (wal_header w0 ++ concat bs) 0 m ->
  exists w, tdb_wal_open lib alloc_ok f (w_page_size w0) = (TDB_OK, Some w)
    /\ (forall p, 0 <= p ->
          tdb_wal_read_page lib alloc_ok w p = (TDB_OK, latest (committed (take (nfit (m - 32) bs) fs)) p None))
    /\ tdb_wal_frame_count w = Z.of_nat (length (committed (take (nfit (m - 32) bs) fs)))
    /\ tdb_wal_db_size w = last_dbsize (take (nfit (m - 32) bs) fs) 0.
Proof.
  intros Ha Hp Hl Hg Hm Hc. pose proof (torn_log_file w0 fs bs seed' f m Hp Hl Hg Hm Hc) as Hlog.
  destruct (wal_open_log alloc_ok Ha w0 _ f Hlog) as (w & E & Hrep & _ & Hd). exists w. split; [done|].
  split; [intros p Hp0; by apply wal_read_log|]. destruct Hrep as (_ & _ & _ & Hn & _). done.
Qed.

(** C35. Checkpoint: copying the log back into the database file leaves every
    page of the database as the log and file together had it (the latest
    frame of a page wins over the file), empties the log and gives it new
    salts, so what a reader sees does not change. *)
Theorem wal_checkpoint_preserves alloc_ok w fs db :
  (forall n, alloc_ok n = true) -> wal_rep w fs -> vfs_good db ->
  no_holes (w_page_size w) fs (vfs_contents db) ->
  exists w' db', tdb_wal_checkpoint lib alloc_ok w db = (TDB_OK, w', db') /\ wal_rep w' []
    /\ tdb_wal_frame_count w' = 0
    /\ (forall p, 0 <= p -> tdb_wal_read_page lib alloc_ok w' p = (TDB_OK, None))
    /\ forall p, 1 <= p ->
         file_page (w_page_size w) (vfs_contents db') p
         = match (tdb_wal_read_page lib alloc_ok w p).2 with
           | Some page => page
           | None => file_page (w_page_size w) (vfs_contents db) p
           end.
Proof.
  intros Ha Hrep Hg Hno.
  destruct (wal_checkpoint_log alloc_ok Ha w fs db Hrep Hg Hno) as (w' & db' & E & Hrep' & _ & _ & _ & _ & _ & Hq).
  exists w', db'. split; [done|]. split; [done|]. split; [by destruct Hrep' as (_ & _ & _ & Hn & _)|]. split.
  - intros p Hp. by apply (wal_read_log alloc_ok Ha w' []).
  - intros p Hp. rewrite (wal_read_log alloc_ok Ha w fs p Hrep) by lia. cbn [snd]. by apply Hq.
Qed.

(** A frame with one corrupted byte, anywhere in its header, its stored
    checksums or its page image, is rejected by recovery (fixed-size format):
    the scan stops there instead of replaying it. *)
Theorem wal_corrupt_frame_rejected w seed f b c1 b' pre rest fsize :
  wal_params w -> w_version w = TDB_WAL_VERSION_V1 -> frame_ok w f -> bytes_ok (fr_page f) ->
  frame_enc w seed f b c1 -> vfs_good (w_file w) -> one_diff b b' -> bytes_ok b' ->
  vfs_contents (w_file w) = pre ++ b' ++ rest ->
  scan_frame lib w (w_version w) fsize (blen pre) seed = None.
Proof. apply scan_frame_corrupt. Qed.
End Log.

(** ** Witnesses on memory files *)

#[local] Instance demo_vfs : Vfs mem_handle := mem_vfs ok_alloc.
#[local] Instance demo_laws : VfsLaws mem_handle := mem_vfs_laws ok_alloc.
Definition demo_page : list Z := replicate 512 7.

Lemma mem_good_open : vfs_good mem_open.
Proof. split; [|done]. split; [split; reflexivity || (vm_compute; congruence)|by left]. Qed.
(** An empty log, then one committed page. *)
Lemma demo_log :
  exists w, tdb_wal_open None ok_alloc mem_open 512 = (TDB_OK, Some w)
    /\ wal_rep None w [] /\ w_page_size w = 512 /\ w_end_off w = 32 /\ w_version w = TDB_WAL_VERSION_V1.
Proof.
  destruct (wal_open_fresh None ok_alloc (fun _ => eq_refl) mem_open 512 mem_good_open eq_refl)
    as (w & E & Hrep & Hps & _ & Hv & He); [lia|]. exists w. done.
Qed.
Lemma demo_log_one :
  exists w, wal_rep None w [mk_frame 1 1 demo_page] /\ w_page_size w = 512 /\ w_version w = TDB_WAL_VERSION_V1.
Proof.
  destruct demo_log as (w & _ & Hrep & Hps & He & Hv).
  destruct (wal_append_log None ok_alloc (fun _ => eq_refl) w [] 1 demo_page true 1 Hrep I) as (w' & _ & Hrep' & Hh & Hps' & _).
  - split; [cbn; lia|]. split; [cbn; lia|]. by rewrite Hps.
  - lia.
  - rewrite Hps, He. lia.
  - exists w'. split; [exact Hrep'|]. split; [by rewrite Hps'|].
    destruct Hrep as [Hp _]. destruct Hrep' as [Hp' _].
    destruct (wal_header_fields w Hp) as (_ & F4 & _). destruct (wal_header_fields w' Hp') as (_ & F4' & _).
    rewrite <- F4', Hh, F4. exact Hv.
Qed.
Lemma wal_append_read_witness :
  exists w w', tdb_wal_append None ok_alloc w 3 demo_page true 5 = (TDB_OK, w')
    /\ tdb_wal_read_page None ok_alloc w' 3 = (TDB_OK, Some demo_page).
Proof.
  destruct demo_log as (w & _ & Hrep & Hps & He & _). exists w.
  destruct (wal_append_read None ok_alloc w [] 3 demo_page true 5 (fun _ => eq_refl) I Hrep) as (w' & E & _ & Hr & _);
    [lia|by rewrite Hps|lia|lia|rewrite Hps, He; lia|].
  exists w'. split; [exact E|]. exact (Hr 3 ltac:(lia)).
Defined.
(** A memory file with given contents. *)
Definition mem_with (c : list Z) : mem_handle := mk_mem (c ++ bzero 4096) (blen c).
Lemma mem_with_good c : vfs_good (mem_with c) /\ vfs_contents (mem_with c) = c.
Proof.
  pose proof (blen_nonneg c). split; [split; [|done]|].
  - unfold mem_wf, mem_with, mh_cap. cbn [mh_data mh_size]. rewrite blen_app, blen_bzero by lia. lia.
  - cbn. unfold mem_contents, mem_with. cbn [mh_data mh_size]. rewrite bsub_app_l by lia. by apply bsub_all.
Qed.
(** The log of one committed page cut 10 bytes into its frame. *)
Lemma wal_crash_recovery_witness :
  exists f w, tdb_wal_open None ok_alloc f 512 = (TDB_OK, Some w)
    /\ tdb_wal_read_page None ok_alloc w 1 = (TDB_OK, None).
Proof.
  destruct demo_log_one as (w0 & Hrep & Hps & _). pose proof Hrep as (Hp & _ & _ & _ & bs & tail & seed' & Hl & _).
  assert (nfit 10 bs = 0%nat) as Hn.
  { inversion Hl as [|? ? b c1 ? bs' ? Hf Hb Hrest]; subst. pose proof (frame_enc_len _ _ _ _ _ _ Hf Hb).
    cbn [nfit]. destruct (Z.leb_spec (blen b) 10); [lia|done]. }
  destruct (mem_with_good (bsub (wal_header w0 ++ concat bs) 0 42)) as [Hg Hc].
  destruct (wal_crash_recovery None ok_alloc w0 _ bs seed' _ 42 (fun _ => eq_refl) Hp Hl Hg ltac:(lia) Hc) as (w & E & Hr & _).
  rewrite Hps in E. exists (mem_with (bsub (wal_header w0 ++ concat bs) 0 42)), w. split; [exact E|].
  specialize (Hr 1 ltac:(lia)). change (42 - 32) with 10 in Hr. rewrite Hn in Hr. exact Hr.
Defined.
Lemma wal_checkpoint_preserves_witness :
  exists w w' db', tdb_wal_checkpoint None ok_alloc w mem_open = (TDB_OK, w', db')
    /\ file_page 512 (vfs_contents db') 1 = demo_page.
Proof.
  destruct demo_log_one as (w & Hrep & Hps & _). exists w.
  destruct (wal_checkpoint_preserves None ok_alloc w _ mem_open (fun _ => eq_refl) Hrep mem_good_open)
    as (w' & db' & E & _ & _ & _ & Hq).
  - intros q Hq Hl. cbn [latest fr_pgno] in Hl. destruct (Z.eqb_spec 1 q) as [<-|]; [|done]. split; [lia|]. left.
    rewrite Hps. vm_compute. congruence.
  - exists w', db'. split; [exact E|]. specialize (Hq 1 ltac:(lia)). rewrite Hps in Hq. rewrite Hq.
    by rewrite (wal_read_log None ok_alloc (fun _ => eq_refl) w _ 1 Hrep).
Defined.
Lemma wal_corrupt_frame_rejected_witness :
  exists w seed, w_version w = TDB_WAL_VERSION_V1 /\ blen (vfs_contents (w_file w)) = 536
    /\ scan_frame None w (w_version w) 536 0 seed = None.
Proof.
  destruct demo_log_one as (w & Hrep & Hps & Hv). pose proof Hrep as (Hp & _ & _ & _ & bs & tail & seed' & Hl & _).
  pose proof (log_v1_len None w _ _ _ _ 1 Hp Hv Hl) as Hlen.
  inversion Hl as [|? f b c1 ? bs' ? Hf Hb Hrest]; subst. inversion Hrest; subst.
  specialize (Hlen ltac:(cbn; lia)). cbn [take concat] in Hlen. rewrite app_nil_r, Hps in Hlen.
  pose proof Hb as Hb0. apply frame_enc_hdr in Hb0 as (c2 & payload & Eb & Hpay & _).
  destruct (payload_v1_len None w _ payload ltac:(apply Hf) Hv Hpay) as [-> _].
  assert (bytes_ok demo_page) as Hdp by (by apply bytes_okb_ok).
  pose proof (frame_bytes_v1 w (mk_frame 1 1 demo_page) seed' c2 Hdp) as Hbb. rewrite <- Eb in Hbb.
  destruct b as [|x r]; [done|]. set (y := if x =? 0 then 1 else 0).
  assert (x <> y /\ is_byte y) as [Hxy Hy] by (unfold y, is_byte; destruct (Z.eqb_spec x 0); lia).
  destruct (mem_with_good (y :: r)) as [Hg Hc].
  exists (wset_file w (mem_with (y :: r))), (w_salt1 w). split; [exact Hv|]. split; [cbn [wset_file w_file]; rewrite Hc, blen_cons in *; lia|].
  apply (wal_corrupt_frame_rejected None (wset_file w (mem_with (y :: r))) (w_salt1 w) (mk_frame 1 1 demo_page)
           (x :: r) seed' (y :: r) [] [] 536); try assumption.
  - by destruct Hp; split.
  - exists [], x, y, r. done.
  - apply Forall_cons in Hbb as [_ Hbb]. by constructor.
  - cbn [wset_file w_file app]. by rewrite app_nil_r.
Defined.
