(* ===== verification/Pager.v ===== *)
(** * The pager (src/src/storage/tdb_pager.[ch])

    The pager presents the database as numbered pages: a hash table of cached
    pages with an LRU list, a free-list kept in pages of the database, write
    transactions that end in the log, and savepoints that keep before-images.

    A [tdb_page *] is identified by its page number: the cache never holds two
    pages with one number ([cache_wf]).  The chains of the hash table are
    lists in chain order, the LRU list is the list of page numbers, most recent
    first.  Writing through a page pointer is [page_set]. *)
From S2P Require Import Prelude Util File Wal.

(** ** Layout (src/src/storage/tdb_format.h) *)

Definition TDB_CACHE_BUCKETS : Z := 1024.
Definition TDB_CACHE_SOFT_MAX : Z := 2048.
(** "TransactionDB" and its NUL. *)
Definition TDB_MAGIC : list Z := [84; 114; 97; 110; 115; 97; 99; 116; 105; 111; 110; 68; 66; 0].
Definition TDB_FORMAT_VERSION : Z := 1.
Definition TDB_DEFAULT_PAGE_SIZE : Z := 4096.
Definition TDB_HEADER_SIZE : Z := 100.
Definition TDB_CATALOG_PGNO : Z := 1.
Definition TDB_HDR_PAGE_SIZE : Z := 16.
Definition TDB_HDR_CHANGE_COUNTER : Z := 24.
Definition TDB_HDR_DB_SIZE : Z := 28.
Definition TDB_HDR_FREELIST_HEAD : Z := 32.
Definition TDB_HDR_FREELIST_COUNT : Z := 36.
Definition TDB_HDR_CATALOG_ROOT : Z := 40.
Definition TDB_HDR_SCHEMA_COOKIE : Z := 44.
Definition TDB_HDR_TEXT_ENCODING : Z := 48.
Definition TDB_HDR_MAX_TXNID : Z := 52.
Definition TDB_HDR_RESERVED_PER_PG : Z := 60.
Definition TDB_TEXT_ENC_UTF8 : Z := 1.
Definition TDB_PAGE_FREELIST_TRUNK : Z := 0xFE.
Definition TDB_FL_TYPE : Z := 0.
Definition TDB_FL_NEXT_TRUNK : Z := 1.
Definition TDB_FL_LEAF_COUNT : Z := 5.
Definition TDB_FL_LEAVES : Z := 9.

(** ** Data *)

Record tdb_dbhdr := mk_dbhdr {
  h_page_size : Z;
  h_change_counter : Z;
  h_db_size : Z;
  h_freelist_head : Z;
  h_freelist_count : Z;
  h_catalog_root : Z;
  h_schema_cookie : Z;
  h_text_encoding : Z;
  h_max_txnid : Z;
  h_reserved_per_page : Z }.

Record tdb_page := mk_page { pg_pgno : Z; pg_data : list Z; pg_dirty : bool; pg_refs : Z }.

(** A savepoint: the header and the before-images of the dirty pages. *)
Record pager_sp := mk_sp { sp_hdr : tdb_dbhdr; sp_imgs : list (Z * list Z) }.

(** [walfile] is the file inside [p_wal]. *)
Record tdb_pager (F : Type) := mk_pager {
  p_file : F;
  p_wal : tdb_wal F;
  p_readonly : bool;
  p_in_txn : bool;
  p_page_size : Z;
  p_hdr : tdb_dbhdr;
  p_hdr_dirty : bool;
  p_buckets : list (list tdb_page);
  p_ncached : Z;
  p_lru : list Z;
  p_sps : list pager_sp }.
Arguments mk_pager {F}. Arguments p_file {F}. Arguments p_wal {F}. Arguments p_readonly {F}.
Arguments p_in_txn {F}. Arguments p_page_size {F}. Arguments p_hdr {F}. Arguments p_hdr_dirty {F}.
Arguments p_buckets {F}. Arguments p_ncached {F}. Arguments p_lru {F}. Arguments p_sps {F}.

(** ** Header codec *)

Definition hdr_parse (b : list Z) : tdb_dbhdr :=
  let ps := tdb_get_u16 (bfrom b TDB_HDR_PAGE_SIZE) in
  mk_dbhdr (if ps =? 0 then 65536 else ps)
    (tdb_get_u32 (bfrom b TDB_HDR_CHANGE_COUNTER))
    (tdb_get_u32 (bfrom b TDB_HDR_DB_SIZE))
    (tdb_get_u32 (bfrom b TDB_HDR_FREELIST_HEAD))
    (tdb_get_u32 (bfrom b TDB_HDR_FREELIST_COUNT))
    (tdb_get_u32 (bfrom b TDB_HDR_CATALOG_ROOT))
    (tdb_get_u32 (bfrom b TDB_HDR_SCHEMA_COOKIE))
    (tdb_get_u32 (bfrom b TDB_HDR_TEXT_ENCODING))
    (tdb_get_u64 (bfrom b TDB_HDR_MAX_TXNID))
    (tdb_get_u32 (bfrom b TDB_HDR_RESERVED_PER_PG)).

(** The 96 bytes before the checksum, field by field, and the header written
    over the start of page [b]. *)
Definition hdr_fields (h : tdb_dbhdr) : list Z :=
  TDB_MAGIC ++ bzero 2
  ++ tdb_put_u16 (if 65536 <=? h_page_size h then 0 else u16 (h_page_size h))
  ++ [1] ++ [1]
  ++ tdb_put_u32 TDB_FORMAT_VERSION
  ++ tdb_put_u32 (h_change_counter h)
  ++ tdb_put_u32 (h_db_size h)
  ++ tdb_put_u32 (h_freelist_head h)
  ++ tdb_put_u32 (h_freelist_count h)
  ++ tdb_put_u32 (h_catalog_root h)
  ++ tdb_put_u32 (h_schema_cookie h)
  ++ tdb_put_u32 (h_text_encoding h)
  ++ tdb_put_u64 (h_max_txnid h)
  ++ tdb_put_u32 (h_reserved_per_page h)
  ++ bzero 32.
Definition hdr_serialize (h : tdb_dbhdr) (b : list Z) : list Z :=
  bput b 0 (hdr_fields h ++ tdb_put_u32 (tdb_crc32c 0 (hdr_fields h))).

(** [memcmp(b, TDB_MAGIC, sizeof(TDB_MAGIC)) == 0] *)
Definition has_magic (b : list Z) : bool := bool_decide (bsub b 0 14 = TDB_MAGIC).

(** Header updates. *)
Definition hset_freelist (h : tdb_dbhdr) (head count : Z) : tdb_dbhdr :=
  mk_dbhdr (h_page_size h) (h_change_counter h) (h_db_size h) head count (h_catalog_root h)
    (h_schema_cookie h) (h_text_encoding h) (h_max_txnid h) (h_reserved_per_page h).
Definition hset_db_size (h : tdb_dbhdr) (n : Z) : tdb_dbhdr :=
  mk_dbhdr (h_page_size h) (h_change_counter h) n (h_freelist_head h) (h_freelist_count h) (h_catalog_root h)
    (h_schema_cookie h) (h_text_encoding h) (h_max_txnid h) (h_reserved_per_page h).
Definition hset_change (h : tdb_dbhdr) (n : Z) : tdb_dbhdr :=
  mk_dbhdr (h_page_size h) n (h_db_size h) (h_freelist_head h) (h_freelist_count h) (h_catalog_root h)
    (h_schema_cookie h) (h_text_encoding h) (h_max_txnid h) (h_reserved_per_page h).
Definition hset_meta (h : tdb_dbhdr) (root cookie txnid : Z) : tdb_dbhdr :=
  mk_dbhdr (h_page_size h) (h_change_counter h) (h_db_size h) (h_freelist_head h) (h_freelist_count h) root
    cookie (h_text_encoding h) txnid (h_reserved_per_page h).

Section Pager.
Context {F : Type} `{Vfs F} (lib : option zstd) (alloc_ok : Z -> bool).
Abbreviation pager := (tdb_pager F).

(** Field updates. *)
Definition pset_cache (p : pager) (bs : list (list tdb_page)) (n : Z) (lru : list Z) : pager :=
  mk_pager (p_file p) (p_wal p) (p_readonly p) (p_in_txn p) (p_page_size p) (p_hdr p) (p_hdr_dirty p)
    bs n lru (p_sps p).
Definition pset_hdr (p : pager) (h : tdb_dbhdr) (d : bool) : pager :=
  mk_pager (p_file p) (p_wal p) (p_readonly p) (p_in_txn p) (p_page_size p) h d
    (p_buckets p) (p_ncached p) (p_lru p) (p_sps p).
Definition pset_store (p : pager) (f : F) (w : tdb_wal F) : pager :=
  mk_pager f w (p_readonly p) (p_in_txn p) (p_page_size p) (p_hdr p) (p_hdr_dirty p)
    (p_buckets p) (p_ncached p) (p_lru p) (p_sps p).
Definition pset_txn (p : pager) (b : bool) (sps : list pager_sp) : pager :=
  mk_pager (p_file p) (p_wal p) (p_readonly p) b (p_page_size p) (p_hdr p) (p_hdr_dirty p)
    (p_buckets p) (p_ncached p) (p_lru p) sps.

(** ** Cache *)

Definition bucket_of (pgno : Z) : nat := Z.to_nat (pgno mod TDB_CACHE_BUCKETS).
Definition bucket (p : pager) (b : nat) : list tdb_page := nth b (p_buckets p) [].
(** Every cached page, bucket by bucket in chain order. *)
Definition cache_pages (p : pager) : list tdb_page := concat (p_buckets p).

Fixpoint list_unlink (l : list Z) (g : Z) : list Z :=
  match l with
  | [] => []
  | x :: l => if x =? g then l else x :: list_unlink l g
  end.
Definition lru_unlink (p : pager) (g : Z) : pager :=
  pset_cache p (p_buckets p) (p_ncached p) (list_unlink (p_lru p) g).
Definition lru_push_front (p : pager) (g : Z) : pager :=
  pset_cache p (p_buckets p) (p_ncached p) (g :: p_lru p).

Fixpoint bucket_find (l : list tdb_page) (g : Z) : option tdb_page :=
  match l with
  | [] => None
  | pg :: l => if pg_pgno pg =? g then Some pg else bucket_find l g
  end.
Definition cache_lookup (p : pager) (pgno : Z) : option tdb_page := bucket_find (bucket p (bucket_of pgno)) pgno.

Fixpoint bucket_remove (l : list tdb_page) (g : Z) : list tdb_page :=
  match l with
  | [] => []
  | pg :: l => if pg_pgno pg =? g then l else pg :: bucket_remove l g
  end.
Definition cache_remove (p : pager) (g : Z) : pager :=
  let b := bucket_of g in
  let p := pset_cache p (<[b := bucket_remove (bucket p b) g]> (p_buckets p)) (p_ncached p) (p_lru p) in
  let p := lru_unlink p g in
  pset_cache p (p_buckets p) (p_ncached p - 1) (p_lru p).

(** An assignment to fields of the page [g] points to. *)
Fixpoint bucket_update (l : list tdb_page) (g : Z) (f : tdb_page -> tdb_page) : list tdb_page :=
  match l with
  | [] => []
  | pg :: l => if pg_pgno pg =? g then f pg :: l else pg :: bucket_update l g f
  end.
Definition page_update (p : pager) (g : Z) (f : tdb_page -> tdb_page) : pager :=
  let b := bucket_of g in
  pset_cache p (<[b := bucket_update (bucket p b) g f]> (p_buckets p)) (p_ncached p) (p_lru p).
Definition page_set (p : pager) (g : Z) (d : list Z) : pager :=
  page_update p g (fun pg => mk_page (pg_pgno pg) d (pg_dirty pg) (pg_refs pg)).
Definition set_dirty (b : bool) (pg : tdb_page) : tdb_page := mk_page (pg_pgno pg) (pg_data pg) b (pg_refs pg).
Definition set_refs (n : Z) (pg : tdb_page) : tdb_page := mk_page (pg_pgno pg) (pg_data pg) (pg_dirty pg) n.

(** Eviction walks the LRU list from its tail. *)
Fixpoint trim_loop (p : pager) (l : list Z) : pager :=
  match l with
  | [] => p
  | g :: l =>
      if TDB_CACHE_SOFT_MAX <? p_ncached p then
        match cache_lookup p g with
        | Some pg => if (pg_refs pg =? 0) && negb (pg_dirty pg) then trim_loop (cache_remove p g) l
                     else trim_loop p l
        | None => trim_loop p l
        end
      else p
  end.
Definition cache_trim (p : pager) : pager := trim_loop p (rev (p_lru p)).

Definition read_page_image (p : pager) (pgno : Z) : tdb_status * list Z :=
  match tdb_wal_read_page lib alloc_ok (p_wal p) pgno with
  | (TDB_OK, Some d) => (TDB_OK, d)
  | (TDB_OK, None) => vfs_read (p_file p) (p_page_size p) (u32 (pgno - 1) * p_page_size p)
  | (rc, _) => (rc, [])
  end.

(** [sizeof(tdb_page)] is 48. *)
Definition page_new (p : pager) (pgno : Z) : option pager :=
  if negb (alloc_ok 48 && alloc_ok (p_page_size p)) then None
  else
    let b := bucket_of pgno in
    let p1 := pset_cache p (<[b := mk_page pgno (bzero (p_page_size p)) false 0 :: bucket p b]> (p_buckets p))
                (p_ncached p) (p_lru p) in
    let p2 := lru_push_front p1 pgno in
    Some (pset_cache p2 (p_buckets p2) (p_ncached p2 + 1) (p_lru p2)).

Definition tdb_pager_get (p : pager) (pgno : Z) : tdb_status * pager :=
  if pgno =? 0 then (TDB_MISUSE, p)
  else
    match cache_lookup p pgno with
    | Some pg =>
        let p := lru_push_front (lru_unlink p pgno) pgno in
        (TDB_OK, page_update p pgno (fun pg => set_refs (pg_refs pg + 1) pg))
    | None =>
        match page_new p pgno with
        | None => (TDB_NOMEM, p)
        | Some p =>
            match read_page_image p pgno with
            | (TDB_OK, d) =>
                let p := page_update p pgno (fun pg => mk_page (pg_pgno pg) d (pg_dirty pg) 1) in
                (TDB_OK, cache_trim p)
            | (rc, _) => (rc, cache_remove p pgno)
            end
        end
    end.

Definition tdb_pager_unref (p : pager) (g : Z) : pager :=
  page_update p g (fun pg => if 0 <? pg_refs pg then set_refs (pg_refs pg - 1) pg else pg).

Definition tdb_pager_write (p : pager) (g : Z) : tdb_status * pager :=
  if p_readonly p then (TDB_READONLY, p) else (TDB_OK, page_update p g (set_dirty true)).

(** [pg->data] of a pinned page. *)
Definition page_data (p : pager) (g : Z) : list Z :=
  match cache_lookup p g with Some pg => pg_data pg | None => [] end.

Definition tdb_pager_page_size (p : pager) : Z := p_page_size p.
Definition tdb_pager_db_size (p : pager) : Z := h_db_size (p_hdr p).
Definition tdb_pager_freelist_count (p : pager) : Z := h_freelist_count (p_hdr p).
Definition tdb_pager_is_readonly (p : pager) : bool := p_readonly p.
Definition tdb_pager_max_txnid (p : pager) : Z := h_max_txnid (p_hdr p).
Definition tdb_pager_set_max_txnid (p : pager) (v : Z) : pager :=
  pset_hdr p (hset_meta (p_hdr p) (h_catalog_root (p_hdr p)) (h_schema_cookie (p_hdr p)) v) true.
Definition tdb_pager_schema_cookie (p : pager) : Z := h_schema_cookie (p_hdr p).
Definition tdb_pager_set_schema_cookie (p : pager) (v : Z) : pager :=
  pset_hdr p (hset_meta (p_hdr p) (h_catalog_root (p_hdr p)) v (h_max_txnid (p_hdr p))) true.
Definition tdb_pager_catalog_root (p : pager) : Z := h_catalog_root (p_hdr p).
Definition tdb_pager_set_catalog_root (p : pager) (pgno : Z) : pager :=
  pset_hdr p (hset_meta (p_hdr p) pgno (h_schema_cookie (p_hdr p)) (h_max_txnid (p_hdr p))) true.

(** ** Free-list *)

(** [*(u32 * )(data + off) = v] through a page pointer. *)
Definition page_put_u32 (p : pager) (g off v : Z) : pager :=
  page_set p g (bput (page_data p g) off (tdb_put_u32 v)).
Definition page_u32 (p : pager) (g off : Z) : Z := tdb_get_u32 (bfrom (page_data p g) off).

(** Taking a page from the free-list: the number is 0 when it is empty. *)
Definition freelist_pop (p : pager) : tdb_status * pager * Z :=
  let head := h_freelist_head (p_hdr p) in
  if head =? 0 then (TDB_OK, p, 0)
  else
    match tdb_pager_get p head with
    | (TDB_OK, p) =>
        let leaf_count := page_u32 p head TDB_FL_LEAF_COUNT in
        let '(p, pgno) :=
          if 0 <? leaf_count then
            let idx := leaf_count - 1 in
            let pgno := page_u32 p head (TDB_FL_LEAVES + u32 (idx * 4)) in
            let p := page_put_u32 p head TDB_FL_LEAF_COUNT (leaf_count - 1) in
            let '(_, p) := tdb_pager_write p head in
            (tdb_pager_unref p head, pgno)
          else
            let p := pset_hdr p (hset_freelist (p_hdr p) (page_u32 p head TDB_FL_NEXT_TRUNK)
                                   (h_freelist_count (p_hdr p))) (p_hdr_dirty p) in
            (tdb_pager_unref p head, head) in
        (TDB_OK, pset_hdr p (hset_freelist (p_hdr p) (h_freelist_head (p_hdr p))
                               (u32 (h_freelist_count (p_hdr p) - 1))) true, pgno)
    | (rc, p) => (rc, p, 0)
    end.

Definition tdb_pager_alloc (p : pager) : tdb_status * pager * Z :=
  if p_readonly p then (TDB_READONLY, p, 0)
  else
    match freelist_pop p with
    | (TDB_OK, p, pgno) =>
        let '(p, pgno) :=
          if pgno =? 0 then
            let n := u32 (h_db_size (p_hdr p) + 1) in
            (pset_hdr p (hset_db_size (p_hdr p) n) true, n)
          else (p, pgno) in
        let p := match cache_lookup p pgno with Some _ => cache_remove p pgno | None => p end in
        match page_new p pgno with
        | None => (TDB_NOMEM, p, 0)
        | Some p => (TDB_OK, page_update p pgno (fun pg => set_refs 1 (set_dirty true pg)), pgno)
        end
    | (rc, p, _) => (rc, p, 0)
    end.

(** [pgno] becomes a new, empty trunk page. *)
Definition freelist_new_trunk (p : pager) (pgno : Z) : tdb_status * pager :=
  match tdb_pager_get p pgno with
  | (TDB_OK, p) =>
      let p := page_set p pgno (bput (bzero (p_page_size p)) TDB_FL_TYPE [TDB_PAGE_FREELIST_TRUNK]) in
      let p := page_put_u32 p pgno TDB_FL_NEXT_TRUNK (h_freelist_head (p_hdr p)) in
      let p := page_put_u32 p pgno TDB_FL_LEAF_COUNT 0 in
      let '(_, p) := tdb_pager_write p pgno in
      let p := tdb_pager_unref p pgno in
      (TDB_OK, pset_hdr p (hset_freelist (p_hdr p) pgno (u32 (h_freelist_count (p_hdr p) + 1))) true)
  | (rc, p) => (rc, p)
  end.
Definition tdb_pager_free (p : pager) (pgno : Z) : tdb_status * pager :=
  if p_readonly p then (TDB_READONLY, p)
  else if (pgno =? 0) || (pgno =? TDB_CATALOG_PGNO) then (TDB_MISUSE, p)
  else
    let per_trunk := u32 (p_page_size p - TDB_FL_LEAVES) / 4 in
    let head := h_freelist_head (p_hdr p) in
    if head =? 0 then freelist_new_trunk p pgno
    else
      match tdb_pager_get p head with
      | (TDB_OK, p) =>
          let leaf_count := page_u32 p head TDB_FL_LEAF_COUNT in
          if leaf_count <? per_trunk then
            let p := page_put_u32 p head (TDB_FL_LEAVES + u32 (leaf_count * 4)) pgno in
            let p := page_put_u32 p head TDB_FL_LEAF_COUNT (leaf_count + 1) in
            let '(_, p) := tdb_pager_write p head in
            let p := tdb_pager_unref p head in
            (TDB_OK, pset_hdr p (hset_freelist (p_hdr p) (h_freelist_head (p_hdr p))
                                   (u32 (h_freelist_count (p_hdr p) + 1))) true)
          else freelist_new_trunk (tdb_pager_unref p head) pgno
      | (rc, p) => (rc, p)
      end.

(** ** Transactions *)

Definition tdb_pager_begin (p : pager) : tdb_status * pager :=
  if p_readonly p then (TDB_READONLY, p) else (TDB_OK, pset_txn p true (p_sps p)).

Definition flush_header (p : pager) : tdb_status * pager :=
  match tdb_pager_get p TDB_CATALOG_PGNO with
  | (TDB_OK, p) =>
      let h := hset_change (p_hdr p) (u32 (h_change_counter (p_hdr p) + 1)) in
      let p := page_update p TDB_CATALOG_PGNO
                 (fun pg => mk_page (pg_pgno pg) (hdr_serialize h (pg_data pg)) true (pg_refs pg)) in
      (TDB_OK, pset_hdr (tdb_pager_unref p TDB_CATALOG_PGNO) h false)
  | (rc, p) => (rc, p)
  end.

(** The dirty pages in bucket order; the array of the code has 2112 places
    and pages beyond it are not collected. *)
Definition dirty_cap : nat := 2112.
Definition collect_dirty (p : pager) : list tdb_page := take dirty_cap (filter pg_dirty (cache_pages p)).

Fixpoint append_dirty (w : tdb_wal F) (l : list tdb_page) (db_size : Z) : tdb_status * tdb_wal F :=
  match l with
  | [] => (TDB_OK, w)
  | pg :: l =>
      let is_commit := match l with [] => true | _ => false end in
      match tdb_wal_append lib alloc_ok w (pg_pgno pg) (pg_data pg) is_commit (if is_commit then db_size else 0) with
      | (TDB_OK, w) => append_dirty w l db_size
      | (rc, w) => (rc, w)
      end
  end.

Definition sp_clear_all (p : pager) : pager := pset_txn p (p_in_txn p) [].

Definition tdb_pager_checkpoint (p : pager) : tdb_status * pager :=
  if p_readonly p then (TDB_OK, p)
  else if tdb_wal_frame_count (p_wal p) =? 0 then (TDB_OK, p)
  else let '(rc, w, f) := tdb_wal_checkpoint lib alloc_ok (p_wal p) (p_file p) in (rc, pset_store p f w).

(** The end of a commit whose pages are in the log. *)
Definition commit_done (p : pager) : tdb_status * pager :=
  let p := sp_clear_all (pset_txn p false (p_sps p)) in
  if 1000 <? tdb_wal_frame_count (p_wal p) then (TDB_OK, (tdb_pager_checkpoint p).2) else (TDB_OK, p).
Definition tdb_pager_commit (p : pager) : tdb_status * pager :=
  if p_readonly p then (TDB_READONLY, p)
  else
    match flush_header p with
    | (TDB_OK, p) =>
        let dirty := collect_dirty p in
        match append_dirty (p_wal p) dirty (h_db_size (p_hdr p)) with
        | (TDB_OK, w) =>
            match dirty with
            | [] => commit_done (pset_store p (p_file p) w)
            | _ =>
                match tdb_wal_sync w with
                | (TDB_OK, w) =>
                    let p := pset_store p (p_file p) w in
                    commit_done (fold_left (fun p pg => page_update p (pg_pgno pg) (set_dirty false)) dirty p)
                | (rc, w) => (rc, pset_store p (p_file p) w)
                end
            end
        | (rc, w) => (rc, pset_store p (p_file p) w)
        end
    | (rc, p) => (rc, p)
    end.

Definition tdb_pager_rollback (p : pager) : tdb_status * pager :=
  let p := fold_left (fun p pg => cache_remove p (pg_pgno pg)) (filter pg_dirty (cache_pages p)) p in
  let p :=
    if alloc_ok (p_page_size p) then
      match read_page_image p TDB_CATALOG_PGNO with
      | (TDB_OK, full) => if has_magic full then pset_hdr p (hdr_parse full) (p_hdr_dirty p) else p
      | _ => p
      end
    else p in
  (TDB_OK, sp_clear_all (pset_txn (pset_hdr p (p_hdr p) false) false (p_sps p))).

(** ** Savepoints *)

(** The arrays of savepoints and of images grow by [realloc], whose result the
    code uses unchecked: allocation is taken to succeed here. *)
Definition tdb_pager_savepoint (p : pager) : Z * pager :=
  if p_readonly p then (-1, p)
  else
    let sp := mk_sp (p_hdr p) (map (fun pg => (pg_pgno pg, pg_data pg)) (filter pg_dirty (cache_pages p))) in
    (Z.of_nat (length (p_sps p)), pset_txn p (p_in_txn p) (p_sps p ++ [sp])).

Definition tdb_pager_savepoint_release (p : pager) (level : Z) : tdb_status * pager :=
  if (level <? 0) || (Z.of_nat (length (p_sps p)) <=? level) then (TDB_MISUSE, p)
  else (TDB_OK, pset_txn p (p_in_txn p) (take (Z.to_nat level) (p_sps p))).

Fixpoint img_find (l : list (Z * list Z)) (g : Z) : option (list Z) :=
  match l with
  | [] => None
  | (n, d) :: l => if n =? g then Some d else img_find l g
  end.
Definition tdb_pager_savepoint_rollback (p : pager) (level : Z) : tdb_status * pager :=
  if (level <? 0) || (Z.of_nat (length (p_sps p)) <=? level) then (TDB_MISUSE, p)
  else
    let p := pset_txn p (p_in_txn p) (take (S (Z.to_nat level)) (p_sps p)) in
    let sp := nth (Z.to_nat level) (p_sps p) (mk_sp (p_hdr p) []) in
    let p :=
      fold_left (fun p pg =>
        match img_find (sp_imgs sp) (pg_pgno pg) with
        | Some d => page_set p (pg_pgno pg) d
        | None => cache_remove p (pg_pgno pg)
        end) (collect_dirty p) p in
    (TDB_OK, pset_hdr p (sp_hdr sp) true).

(** ** Vacuum *)

Definition evict_above (p : pager) (maxkeep : Z) : pager :=
  fold_left (fun p pg => cache_remove p (pg_pgno pg))
    (filter (fun pg => (maxkeep <? pg_pgno pg) && (pg_refs pg =? 0)) (cache_pages p)) p.

(** Marking the leaves [i .. i+n-1] of a trunk, and the walk over the trunks:
    [None] when the walk has not ended after [fuel] trunks (a free-list that
    is not a cycle has at most [db_size] of them). *)
Fixpoint mark_leaves (n : nat) (d : list Z) (dbsize i : Z) (isfree : list Z) : list Z :=
  match n with
  | O => isfree
  | S n =>
      let leaf := tdb_get_u32 (bfrom d (TDB_FL_LEAVES + u32 (i * 4))) in
      mark_leaves n d dbsize (i + 1) (if leaf <=? dbsize then bput isfree leaf [1] else isfree)
  end.
Fixpoint mark_free (fuel : nat) (p : pager) (trunk dbsize : Z) (isfree : list Z)
  : option (tdb_status * pager * list Z) :=
  match fuel with
  | O => None
  | S fuel =>
      if trunk =? 0 then Some (TDB_OK, p, isfree)
      else
        let isfree := if trunk <=? dbsize then bput isfree trunk [1] else isfree in
        match tdb_pager_get p trunk with
        | (TDB_OK, p) =>
            let d := page_data p trunk in
            let lc := page_u32 p trunk TDB_FL_LEAF_COUNT in
            let isfree := mark_leaves (Z.to_nat lc) d dbsize 0 isfree in
            let next := page_u32 p trunk TDB_FL_NEXT_TRUNK in
            mark_free fuel (tdb_pager_unref p trunk) next dbsize isfree
        | (rc, p) => Some (rc, p, isfree)
        end
  end.

(** [while (newsize >= 2 && isfree[newsize]) newsize--] *)
Fixpoint shrink (fuel : nat) (isfree : list Z) (newsize : Z) : Z :=
  match fuel with
  | O => newsize
  | S fuel => if (2 <=? newsize) && negb (bget isfree newsize =? 0) then shrink fuel isfree (newsize - 1) else newsize
  end.
Fixpoint free_all (p : pager) (l : list Z) : tdb_status * pager :=
  match l with
  | [] => (TDB_OK, p)
  | g :: l => match tdb_pager_free p g with
              | (TDB_OK, p) => free_all p l
              | (rc, p) => (rc, p)
              end
  end.
Definition kept_pages (isfree : list Z) (newsize : Z) : list Z :=
  filter (fun g => negb (bget isfree g =? 0) : bool) (seqZ 2 (newsize - 1)).

Definition tdb_pager_vacuum (fuel : nat) (p : pager) : option (tdb_status * pager) :=
  if p_readonly p then Some (TDB_READONLY, p)
  else if p_in_txn p then Some (TDB_MISUSE, p)
  else if (h_db_size (p_hdr p) <=? 1) || (h_freelist_count (p_hdr p) =? 0) then Some (TDB_OK, p)
  else
    match tdb_pager_checkpoint p with
    | (TDB_OK, p) =>
        match tdb_pager_begin p with
        | (TDB_OK, p) =>
            let dbsize := h_db_size (p_hdr p) in
            if negb (alloc_ok (dbsize + 1)) then Some (TDB_NOMEM, (tdb_pager_rollback p).2)
            else
              match mark_free fuel p (h_freelist_head (p_hdr p)) dbsize (bzero (dbsize + 1)) with
              | None => None
              | Some (TDB_OK, p, isfree) =>
                  let newsize := shrink (Z.to_nat dbsize) isfree dbsize in
                  if newsize =? dbsize then Some (TDB_OK, (tdb_pager_rollback p).2)
                  else
                    let p := pset_hdr p (hset_freelist (p_hdr p) 0 0) true in
                    match free_all p (kept_pages isfree newsize) with
                    | (TDB_OK, p) =>
                        let p := pset_hdr p (hset_db_size (p_hdr p) newsize) true in
                        match tdb_pager_commit p with
                        | (TDB_OK, p) =>
                            match tdb_pager_checkpoint p with
                            | (TDB_OK, p) =>
                                let p := evict_above p newsize in
                                let '(rc, f) := vfs_truncate (p_file p) (newsize * p_page_size p) in
                                Some (rc, pset_store p f (p_wal p))
                            | (rc, p) => Some (rc, p)
                            end
                        | (rc, p) => Some (rc, p)
                        end
                    | (rc, p) => Some (rc, (tdb_pager_rollback p).2)
                    end
              | Some (rc, p, _) => Some (rc, (tdb_pager_rollback p).2)
              end
        | (rc, p) => Some (rc, p)
        end
    | (rc, p) => Some (rc, p)
    end.

(** ** Open and close *)

(** "-wal" *)
Definition wal_path (path : list Z) : list Z := path ++ [45; 119; 97; 108].

Definition TDB_OPEN_READONLY : Z := 1.
Definition TDB_OPEN_CREATE : Z := 4.
Definition TDB_OPEN_MEMORY : Z := 8.

Definition memory_db (path : option (list Z)) (flags : Z) : bool :=
  negb (Z.land flags TDB_OPEN_MEMORY =? 0)
  || match path with
     | None => true
     | Some s => bool_decide (s = [58; 109; 101; 109; 111; 114; 121; 58])
     end.

(** The header found at the start of the main file. *)
Definition probe_header (f : F) : option tdb_dbhdr :=
  let fsize := (vfs_filesize f).2 in
  if TDB_HEADER_SIZE <=? fsize then
    match vfs_read f TDB_HEADER_SIZE 0 with
    | (TDB_OK, probe) => if has_magic probe then Some (hdr_parse probe) else None
    | _ => None
    end
  else None.
(** The page size of a log left by a crash before the first checkpoint. *)
Definition probe_wal_page_size (wf : F) : option Z :=
  let wsize := (vfs_filesize wf).2 in
  if TDB_WAL_HDR_SIZE <=? wsize then
    match vfs_read wf TDB_WAL_HDR_SIZE 0 with
    | (TDB_OK, wh) => if tdb_get_u32 wh =? TDB_WAL_MAGIC then Some (tdb_get_u32 (bfrom wh 8)) else None
    | _ => None
    end
  else None.

Definition new_header (page_size : Z) : tdb_dbhdr :=
  mk_dbhdr page_size 0 1 0 0 0 0 TDB_TEXT_ENC_UTF8 0 0.
Definition fresh_pager (f : F) (w : tdb_wal F) (readonly : bool) (page_size : Z) (h : tdb_dbhdr) : pager :=
  mk_pager f w readonly false page_size h false (replicate (Z.to_nat TDB_CACHE_BUCKETS) []) 0 [] [].

Definition tdb_pager_close (p : pager) : tdb_status * F * F :=
  let p := if negb (p_readonly p) then (tdb_pager_checkpoint p).2 else p in
  (TDB_OK, p_file p, w_file (p_wal p)).

(** The part after both files are open.  [sizeof(tdb_pager)] is 8328. *)
Definition pager_open_files (f wf : F) (readonly : bool) : tdb_status * option pager :=
  let found := probe_header f in
  let page_size :=
    match found with
    | Some h => h_page_size h
    | None => match probe_wal_page_size wf with Some ps => ps | None => TDB_DEFAULT_PAGE_SIZE end
    end in
  match tdb_wal_open lib alloc_ok wf page_size with
  | (TDB_OK, Some w) =>
      let use_header h :=
        (TDB_OK, Some (fresh_pager f w readonly page_size
           (if negb (tdb_wal_db_size w =? 0) then hset_db_size h (tdb_wal_db_size w) else h))) in
      match found with
      | Some h => use_header h
      | None =>
          if negb (alloc_ok page_size) then (TDB_NOMEM, None)
          else
            let recovered :=
              match tdb_wal_read_page lib alloc_ok w TDB_CATALOG_PGNO with
              | (TDB_OK, Some full) => if has_magic full then Some (hdr_parse full) else None
              | _ => None
              end in
            match recovered with
            | Some h => use_header h
            | None =>
                let p := fresh_pager f w readonly page_size (new_header page_size) in
                if readonly then (TDB_OK, Some p)
                else
                  match tdb_pager_begin p with
                  | (TDB_OK, p) =>
                      match tdb_pager_commit p with
                      | (TDB_OK, p) => (TDB_OK, Some p)
                      | (rc, _) => (rc, None)
                      end
                  | (rc, _) => (rc, None)
                  end
            end
      end
  | (rc, _) => (rc, None)
  end.
(** [vopen memory path flags] is the [open] entry of the table the caller or
    the code selects. *)
Definition tdb_pager_open (vopen : bool -> list Z -> Z -> tdb_status * F) (path : option (list Z)) (flags : Z)
  : tdb_status * option pager :=
  let memory := memory_db path flags in
  let name := if memory then [] else default [] path in
  if negb (alloc_ok 8328) then (TDB_NOMEM, None)
  else
    let readonly := negb (Z.land flags TDB_OPEN_READONLY =? 0) in
    match vopen memory name flags with
    | (TDB_OK, f) =>
        match (if memory then vopen memory [] TDB_OPEN_CREATE
               else vopen memory (wal_path name) (Z.lor flags TDB_OPEN_CREATE)) with
        | (TDB_OK, wf) => pager_open_files f wf readonly
        | (rc, _) => (rc, None)
        end
    | (rc, _) => (rc, None)
    end.
End Pager.
