(* ===== verification/PagerSpec.v ===== *)
(** * Properties of the pager

    [cache_wf] is the invariant of the hash table and the LRU list; [page_view]
    the content of a page a client sees and [disk] the committed one.  The
    free-list, transactions and savepoints are specified on these views. *)
From Stdlib Require Import FunctionalExtensionality.
From S2P Require Import Prelude Util File Wal WalSpec Pager Mvcc Lock Txn.

(** ** Header codec *)

Definition hdr_ok (h : tdb_dbhdr) : Prop :=
  0 < h_page_size h <= 65536 /\ 0 <= h_change_counter h < 2 ^ 32 /\ 0 <= h_db_size h < 2 ^ 32
  /\ 0 <= h_freelist_head h < 2 ^ 32 /\ 0 <= h_freelist_count h < 2 ^ 32 /\ 0 <= h_catalog_root h < 2 ^ 32
  /\ 0 <= h_schema_cookie h < 2 ^ 32 /\ 0 <= h_text_encoding h < 2 ^ 32 /\ 0 <= h_max_txnid h < 2 ^ 64
  /\ 0 <= h_reserved_per_page h < 2 ^ 32.

Lemma hdr_fields_len h : blen (hdr_fields h) = 96.
Proof. reflexivity. Qed.
(** A 32-bit field of the header, at the end of a known prefix. *)
Lemma field_u32 pre v rest off :
  off = blen pre -> 0 <= v < 2 ^ 32 -> tdb_get_u32 (bfrom (pre ++ tdb_put_u32 v ++ rest) off) = v.
Proof. intros -> Hv. rewrite bfrom_app, get_put_u32, u32_small; done || lia. Qed.
Lemma field_u64 pre v rest off :
  off = blen pre -> 0 <= v < 2 ^ 64 -> tdb_get_u64 (bfrom (pre ++ tdb_put_u64 v ++ rest) off) = v.
Proof. intros -> Hv. rewrite bfrom_app, get_put_u64, u64_small; done || lia. Qed.

Lemma bput_0 b src : blen src <= blen b -> bput b 0 src = src ++ bfrom b (blen src).
Proof. intros Hl. rewrite bput_split by lia. cbn [Z.add]. done. Qed.
(** A field of the serialized header is found at its offset. *)
Lemma hdr_field_u32 h t off v :
  0 <= v < 2 ^ 32 ->
  hdr_fields h = take (Z.to_nat off) (hdr_fields h) ++ tdb_put_u32 v ++ drop (Z.to_nat off + 4) (hdr_fields h) ->
  0 <= off <= 92 -> tdb_get_u32 (bfrom (hdr_fields h ++ t) off) = v.
Proof.
  intros Hv E Ho. rewrite E, <- !app_assoc. apply field_u32; [|done].
  pose proof (hdr_fields_len h) as Hl. unfold blen in *. rewrite length_take. lia.
Qed.
Lemma hdr_parse_fields h t : hdr_ok h -> hdr_parse (hdr_fields h ++ t) = h.
Proof.
  intros (H1 & H2 & H3 & H4 & H5 & H6 & H7 & H8 & H9 & H10). unfold hdr_parse.
  assert (tdb_get_u16 (bfrom (hdr_fields h ++ t) TDB_HDR_PAGE_SIZE)
          = if 65536 <=? h_page_size h then 0 else h_page_size h) as ->.
  { change (bfrom (hdr_fields h ++ t) TDB_HDR_PAGE_SIZE)
      with (tdb_put_u16 (if 65536 <=? h_page_size h then 0 else u16 (h_page_size h))
            ++ drop 18 (hdr_fields h) ++ t).
    rewrite get_put_u16. destruct (Z.leb_spec 65536 (h_page_size h)); [done|]. rewrite (u16_small (h_page_size h)), u16_small by lia. done. }
  rewrite (hdr_field_u32 h t _ (h_change_counter h)), (hdr_field_u32 h t _ (h_db_size h)),
    (hdr_field_u32 h t _ (h_freelist_head h)), (hdr_field_u32 h t _ (h_freelist_count h)),
    (hdr_field_u32 h t _ (h_catalog_root h)), (hdr_field_u32 h t _ (h_schema_cookie h)),
    (hdr_field_u32 h t _ (h_text_encoding h)), (hdr_field_u32 h t _ (h_reserved_per_page h));
    try done; try reflexivity.
  change (bfrom (hdr_fields h ++ t) TDB_HDR_MAX_TXNID)
    with (tdb_put_u64 (h_max_txnid h) ++ drop 60 (hdr_fields h) ++ t).
  rewrite get_put_u64, u64_small by lia. destruct h as [ps cc db fh fc cr sc te mx rp]. cbn in *. f_equal.
  destruct (Z.leb_spec 65536 ps); [cbn; lia|]. destruct (Z.eqb_spec ps 0); lia.
Qed.
Lemma hdr_serialize_app h b :
  100 <= blen b ->
  hdr_serialize h b = hdr_fields h ++ tdb_put_u32 (tdb_crc32c 0 (hdr_fields h)) ++ bfrom b 100.
Proof. intros Hb. unfold hdr_serialize. rewrite bput_0 by (change (_ <= blen b) with (100 <= blen b); lia). by rewrite <- app_assoc. Qed.
Lemma has_magic_fields h t : has_magic (hdr_fields h ++ t) = true.
Proof. unfold has_magic. apply bool_decide_eq_true. reflexivity. Qed.
Lemma hdr_serialize_len h b : 100 <= blen b -> blen (hdr_serialize h b) = blen b.
Proof. intros Hb. apply blen_bput; [lia|]. change (0 + 100 <= blen b). lia. Qed.

(** ** Chains *)

Lemma bucket_find_split l g pg :
  bucket_find l g = Some pg ->
  pg_pgno pg = g /\ exists l1 l2, l = l1 ++ pg :: l2 /\ bucket_remove l g = l1 ++ l2
    /\ forall f, bucket_update l g f = l1 ++ f pg :: l2.
Proof.
  induction l as [|x l IH]; cbn [bucket_find bucket_remove bucket_update]; [done|].
  destruct (Z.eqb_spec (pg_pgno x) g) as [E|E].
  - intros [= <-]. split; [done|]. by exists [], l.
  - intros Hf. destruct (IH Hf) as (Hg & l1 & l2 & -> & Hr & Hu). split; [done|].
    exists (x :: l1), l2. rewrite Hr. split; [done|]. split; [done|]. intros f. by rewrite Hu.
Qed.
Lemma bucket_find_none l g : bucket_find l g = None <-> g ∉ (pg_pgno <$> l).
Proof.
  induction l as [|x l IH]; cbn [bucket_find]; [split; [by intros _ ?%elem_of_nil|done]|].
  rewrite fmap_cons, not_elem_of_cons, <- IH. destruct (Z.eqb_spec (pg_pgno x) g); naive_solver.
Qed.
Lemma bucket_find_some l g : is_Some (bucket_find l g) <-> g ∈ (pg_pgno <$> l).
Proof.
  pose proof (bucket_find_none l g). destruct (bucket_find l g) as [pg|] eqn:E.
  - split; [|done]. intros _. destruct (decide (g ∈ (pg_pgno <$> l))); naive_solver.
  - split; [by intros []|]. naive_solver.
Qed.
Lemma bucket_find_app l1 l2 g :
  bucket_find (l1 ++ l2) g = match bucket_find l1 g with Some pg => Some pg | None => bucket_find l2 g end.
Proof. induction l1 as [|x l1 IH]; cbn [app bucket_find]; [done|]. by destruct (_ =? _). Qed.
Lemma bucket_find_elem l g pg : bucket_find l g = Some pg -> pg ∈ l /\ pg_pgno pg = g.
Proof. intros (Hg & l1 & l2 & -> & _)%bucket_find_split. split; [|done]. apply elem_of_app. right. by constructor. Qed.
Lemma elem_bucket_find l pg : NoDup (pg_pgno <$> l) -> pg ∈ l -> bucket_find l (pg_pgno pg) = Some pg.
Proof.
  induction l as [|x l IH]; [by intros _ ?%elem_of_nil|]. rewrite fmap_cons, NoDup_cons. intros [Hx Hl].
  rewrite elem_of_cons. cbn [bucket_find]. intros [->|Hin]; [by rewrite Z.eqb_refl|].
  destruct (Z.eqb_spec (pg_pgno x) (pg_pgno pg)) as [E|]; [|by apply IH].
  exfalso. apply Hx. rewrite E. apply list_elem_of_fmap. by exists pg.
Qed.
(** The lookup over a list of pages with one number each does not depend on
    its order. *)
Lemma bucket_find_Permutation l l' g :
  NoDup (pg_pgno <$> l) -> l ≡ₚ l' -> bucket_find l g = bucket_find l' g.
Proof.
  intros Hn Hp. assert (NoDup (pg_pgno <$> l')) as Hn' by (by rewrite <- Hp).
  destruct (bucket_find l g) as [pg|] eqn:E.
  - apply bucket_find_elem in E as [Hin <-]. symmetry. apply elem_bucket_find; [done|]. by rewrite <- Hp.
  - symmetry. apply bucket_find_none. apply bucket_find_none in E. by rewrite <- Hp.
Qed.
Lemma list_unlink_perm l g : g ∈ l -> l ≡ₚ g :: list_unlink l g.
Proof.
  induction l as [|x l IH]; [by intros ?%elem_of_nil|]. rewrite elem_of_cons. cbn [list_unlink]. intros Hin.
  destruct (Z.eqb_spec x g) as [->|Hne]; [done|]. destruct Hin as [->|Hin]; [done|].
  rewrite (IH Hin) at 1. constructor.
Qed.

Section Cache.
Context {F : Type}.
Abbreviation pager := (tdb_pager F).

(** The invariant: pages hang in the bucket of their number, a number is
    cached once, the LRU list has exactly the cached numbers, the count is
    right. *)
Record cache_wf (p : pager) : Prop := {
  cw_len : length (p_buckets p) = 1024%nat;
  cw_place : forall b l pg, p_buckets p !! b = Some l -> pg ∈ l -> bucket_of (pg_pgno pg) = b;
  cw_nodup : NoDup (pg_pgno <$> cache_pages p);
  cw_lru : p_lru p ≡ₚ pg_pgno <$> cache_pages p;
  cw_count : p_ncached p = Z.of_nat (length (cache_pages p)) }.

Lemma bucket_of_lt g : (bucket_of g < 1024)%nat.
Proof. unfold bucket_of, TDB_CACHE_BUCKETS. pose proof (Z.mod_pos_bound g 1024). lia. Qed.
Lemma bucket_some p g : cache_wf p -> p_buckets p !! bucket_of g = Some (bucket p (bucket_of g)).
Proof.
  intros Hw. unfold bucket. rewrite nth_lookup. pose proof (bucket_of_lt g). pose proof (cw_len p Hw).
  destruct (p_buckets p !! bucket_of g) as [l|] eqn:E; [done|]. apply lookup_ge_None in E. lia.
Qed.
(** Replacing one chain. *)
Lemma concat_insert {A} (bs : list (list A)) b l :
  bs !! b = Some l -> exists X Y, concat bs = X ++ l ++ Y /\ forall l', concat (<[b := l']> bs) = X ++ l' ++ Y.
Proof.
  intros Hb. exists (concat (take b bs)), (concat (drop (S b) bs)). pose proof (lookup_lt_Some _ _ _ Hb). split.
  - rewrite <- (take_drop_middle bs b l Hb) at 1. rewrite concat_app. done.
  - intros l'. rewrite insert_take_drop by done. rewrite concat_app. done.
Qed.
(** A page of the cache is found under its number and conversely. *)
Lemma cache_lookup_find p g : cache_wf p -> cache_lookup p g = bucket_find (cache_pages p) g.
Proof.
  intros Hw. unfold cache_lookup. pose proof (bucket_some p g Hw) as Hb.
  destruct (concat_insert _ _ _ Hb) as (X & Y & E & _). fold (cache_pages p) in E.
  destruct (bucket_find (bucket p (bucket_of g)) g) as [pg|] eqn:Ef.
  - apply bucket_find_elem in Ef as [Hin <-]. symmetry. apply elem_bucket_find; [apply Hw|].
    rewrite E. apply elem_of_app. right. apply elem_of_app. by left.
  - symmetry. apply bucket_find_none. intros (pg & -> & Hin)%list_elem_of_fmap.
    apply list_elem_of_In, in_concat in Hin as (l & Hl & Hin). apply list_elem_of_In, list_elem_of_lookup in Hl as (b & Hl).
    apply list_elem_of_In in Hin. pose proof (cw_place p Hw _ _ _ Hl Hin) as <-. rewrite Hb in Hl. injection Hl as <-.
    apply bucket_find_none in Ef. apply Ef, list_elem_of_fmap. by exists pg.
Qed.

(** A chain replaced in bucket [b] by pages that belong there. *)
Lemma cache_wf_insert p b l l' n lru :
  cache_wf p -> p_buckets p !! b = Some l ->
  (forall pg, pg ∈ l' -> bucket_of (pg_pgno pg) = b) ->
  (forall X Y, cache_pages p = X ++ l ++ Y -> NoDup (pg_pgno <$> (X ++ l' ++ Y))
     /\ lru ≡ₚ pg_pgno <$> (X ++ l' ++ Y) /\ n = Z.of_nat (length (X ++ l' ++ Y))) ->
  cache_wf (pset_cache p (<[b := l']> (p_buckets p)) n lru).
Proof.
  intros Hw Hb Hl' Hx. destruct (concat_insert _ _ _ Hb) as (X & Y & E & E').
  destruct (Hx X Y E) as (H1 & H2 & H3). split; cbn [pset_cache p_buckets p_lru p_ncached]; unfold cache_pages; cbn [pset_cache p_buckets].
  - rewrite length_insert. apply Hw.
  - intros b' l0 pg Hb' Hin. destruct (decide (b = b')) as [<-|Hne].
    + rewrite list_lookup_insert_eq in Hb' by (by eapply lookup_lt_Some). injection Hb' as <-. auto.
    + rewrite list_lookup_insert_ne in Hb' by done. by eapply cw_place.
  - by rewrite E'.
  - by rewrite E'.
  - by rewrite E'.
Qed.

(** Where the page [g] is, and what the cache is without it or with it
    changed. *)
Lemma cache_split p g pg :
  cache_wf p -> cache_lookup p g = Some pg ->
  pg_pgno pg = g /\ exists A B, cache_pages p = A ++ pg :: B /\ cache_pages (cache_remove p g) = A ++ B
    /\ forall f, cache_pages (page_update p g f) = A ++ f pg :: B.
Proof.
  intros Hw Hl. unfold cache_lookup in Hl. pose proof (bucket_some p g Hw) as Hb.
  destruct (bucket_find_split _ _ _ Hl) as (Hg & l1 & l2 & E & Er & Eu). split; [done|].
  destruct (concat_insert _ _ _ Hb) as (X & Y & E1 & E2). exists (X ++ l1), (l2 ++ Y).
  unfold cache_remove, page_update, cache_pages. cbn [lru_unlink pset_cache p_buckets].
  split; [by rewrite E1, E, <- !app_assoc|]. split; [by rewrite E2, Er, <- !app_assoc|].
  intros f. by rewrite E2, Eu, <- !app_assoc.
Qed.
Lemma cache_remove_wf p g pg : cache_wf p -> cache_lookup p g = Some pg -> cache_wf (cache_remove p g).
Proof.
  intros Hw Hl. pose proof Hl as Hl0. unfold cache_lookup in Hl. pose proof (bucket_some p g Hw) as Hb.
  destruct (bucket_find_split _ _ _ Hl) as (Hg & l1 & l2 & E & Er & _).
  unfold cache_remove. cbn [lru_unlink pset_cache p_buckets p_ncached p_lru].
  change (cache_wf (pset_cache p (<[bucket_of g := bucket_remove (bucket p (bucket_of g)) g]> (p_buckets p))
            (p_ncached p - 1) (list_unlink (p_lru p) g))).
  apply (cache_wf_insert _ _ _ _ _ _ Hw Hb).
  - intros x Hx. apply (cw_place p Hw _ _ _ Hb). rewrite E. rewrite Er in Hx. revert Hx. rewrite !elem_of_app, elem_of_cons. naive_solver.
  - intros X Y Ec. rewrite E in Ec. rewrite Er. pose proof (cw_nodup p Hw) as Hn. pose proof (cw_lru p Hw) as Hr. pose proof (cw_count p Hw) as Hc.
    assert (cache_pages p ≡ₚ pg :: X ++ (l1 ++ l2) ++ Y) as Hp by (rewrite Ec; solve_Permutation).
    rewrite Hp, fmap_cons in Hn, Hr. rewrite Hp in Hc. cbn [length] in Hc. rewrite NoDup_cons in Hn.
    split; [apply Hn|]. split; [|lia].
    apply (Permutation_cons_inv (a := g)). rewrite <- list_unlink_perm; [by rewrite Hr, Hg|]. rewrite Hr, Hg. by constructor.
Qed.
Lemma page_update_wf p g f :
  (forall pg, pg_pgno (f pg) = pg_pgno pg) -> cache_wf p -> cache_wf (page_update p g f).
Proof.
  intros Hf Hw. unfold page_update. pose proof (bucket_some p g Hw) as Hb.
  assert (forall l, pg_pgno <$> bucket_update l g f = pg_pgno <$> l) as Hm.
  { induction l as [|x l IH]; [done|]. cbn [bucket_update]. destruct (_ =? _); rewrite !fmap_cons; [by rewrite Hf|by rewrite IH]. }
  assert (forall l, length (bucket_update l g f) = length l) as Hlen.
  { intros l. rewrite <- (length_fmap pg_pgno (bucket_update l g f)), Hm. apply length_fmap. }
  apply (cache_wf_insert _ _ _ _ _ _ Hw Hb).
  - intros x Hx. assert (pg_pgno x ∈ (pg_pgno <$> bucket p (bucket_of g))) as Hx'.
    { rewrite <- Hm. apply list_elem_of_fmap. by exists x. }
    apply list_elem_of_fmap in Hx' as (y & -> & Hy). by apply (cw_place p Hw _ _ _ Hb).
  - intros X Y Ec. pose proof (cw_nodup p Hw) as Hn. pose proof (cw_lru p Hw) as Hr. pose proof (cw_count p Hw) as Hc.
    rewrite Ec in Hn, Hr, Hc. rewrite !fmap_app in *. rewrite !length_app in *. rewrite Hm, Hlen. done.
Qed.
Lemma page_new_wf alloc_ok p g p' :
  cache_wf p -> cache_lookup p g = None -> page_new alloc_ok p g = Some p' -> cache_wf p'.
Proof.
  intros Hw Hl. unfold page_new. destruct (negb _); [done|]. intros [= <-]. pose proof (bucket_some p g Hw) as Hb.
  rewrite cache_lookup_find in Hl by done. apply bucket_find_none in Hl.
  set (n := mk_page g _ _ _).
  change (cache_wf (pset_cache p (<[bucket_of g := n :: bucket p (bucket_of g)]> (p_buckets p))
            (p_ncached p + 1) (g :: p_lru p))).
  apply (cache_wf_insert _ _ _ _ _ _ Hw Hb).
  - intros x. rewrite elem_of_cons. intros [->|Hx]; [done|]. by apply (cw_place p Hw _ _ _ Hb).
  - intros X Y Ec. assert (X ++ (n :: bucket p (bucket_of g)) ++ Y ≡ₚ n :: cache_pages p) as Hp by (rewrite Ec; solve_Permutation).
    rewrite Hp, fmap_cons, (cw_lru p Hw), (cw_count p Hw). cbn [length n pg_pgno].
    split; [constructor; [done|apply Hw]|]. split; [done|lia].
Qed.

(** What a lookup finds after each change. *)
Lemma lookup_remove p g pg g' :
  cache_wf p -> cache_lookup p g = Some pg ->
  cache_lookup (cache_remove p g) g' = if g' =? g then None else cache_lookup p g'.
Proof.
  intros Hw Hl. pose proof (cache_remove_wf _ _ _ Hw Hl) as Hw'. rewrite !cache_lookup_find by done.
  destruct (cache_split _ _ _ Hw Hl) as (Hg & A & B & E1 & E2 & _).
  pose proof (cw_nodup p Hw) as Hn. rewrite E1 in Hn. rewrite E1, E2, !bucket_find_app. cbn [bucket_find].
  rewrite fmap_app, fmap_cons, NoDup_app, NoDup_cons in Hn. destruct Hn as (_ & Hn2 & Hn3 & _).
  destruct (Z.eqb_spec g' g) as [->|Hne].
  - assert (bucket_find A g = None) as ->.
    { apply bucket_find_none. intros Hin. apply (Hn2 _ Hin). rewrite Hg. by constructor. }
    apply bucket_find_none. by rewrite <- Hg.
  - by destruct (bucket_find A g'), (Z.eqb_spec (pg_pgno pg) g'); try congruence.
Qed.
Lemma lookup_update p g f g' :
  (forall pg, pg_pgno (f pg) = pg_pgno pg) -> cache_wf p ->
  cache_lookup (page_update p g f) g'
  = if g' =? g then f <$> cache_lookup p g else cache_lookup p g'.
Proof.
  intros Hf Hw. pose proof (page_update_wf p g f Hf Hw) as Hw'.
  assert (forall l, bucket_find (bucket_update l g f) g' = if g' =? g then f <$> bucket_find l g else bucket_find l g') as Hc.
  { induction l as [|x l IH]; cbn [bucket_update bucket_find]; [by destruct (_ =? _)|].
    destruct (Z.eqb_spec (pg_pgno x) g) as [E|E]; cbn [bucket_find].
    - rewrite Hf, E, (Z.eqb_sym g g'). by destruct (g' =? g).
    - rewrite IH. destruct (Z.eqb_spec (pg_pgno x) g') as [<-|]; [|done]. by destruct (Z.eqb_spec (pg_pgno x) g). }
  unfold cache_lookup, page_update, bucket. cbn [pset_cache p_buckets].
  pose proof (bucket_of_lt g). pose proof (cw_len p Hw).
  rewrite nth_insert by lia. destruct (decide (bucket_of g = bucket_of g')) as [E|E]; [rewrite Hc, <- E; done|].
  destruct (Z.eqb_spec g' g) as [->|]; done.
Qed.
Lemma lookup_new alloc_ok p g p' g' :
  cache_wf p -> page_new alloc_ok p g = Some p' ->
  cache_lookup p' g' = if g' =? g then Some (mk_page g (bzero (p_page_size p)) false 0) else cache_lookup p g'.
Proof.
  intros Hw. unfold page_new. destruct (negb _); [done|]. intros [= <-].
  unfold cache_lookup, bucket. cbn [pset_cache lru_push_front p_buckets].
  pose proof (bucket_of_lt g). pose proof (cw_len p Hw).
  rewrite nth_insert by lia. destruct (decide (bucket_of g = bucket_of g')) as [E|E]; cbn [bucket_find pg_pgno].
  - rewrite <- E. destruct (Z.eqb_spec g g'), (Z.eqb_spec g' g); try congruence; done.
  - destruct (Z.eqb_spec g' g) as [->|]; done.
Qed.
End Cache.

(** The empty cache. *)
Section Fresh.
Context {F : Type} (f : F) (w : tdb_wal F) (ro : bool) (ps : Z) (h : tdb_dbhdr).
Lemma concat_replicate_nil {A} n : concat (replicate n (@nil A)) = [].
Proof. by induction n. Qed.
Lemma fresh_lookup g : cache_lookup (fresh_pager f w ro ps h) g = None.
Proof.
  unfold cache_lookup, bucket. cbn [fresh_pager p_buckets]. generalize (Z.to_nat TDB_CACHE_BUCKETS). intros n.
  rewrite nth_lookup. destruct (replicate n [] !! bucket_of g) as [l|] eqn:E; [|done]. by apply lookup_replicate in E as [-> _].
Qed.
Lemma fresh_wf : cache_wf (fresh_pager f w ro ps h).
Proof.
  assert (cache_pages (fresh_pager f w ro ps h) = []) as Hnil by apply concat_replicate_nil.
  split; rewrite ?Hnil; try done.
  - cbn [fresh_pager p_buckets]. generalize (Z.to_nat TDB_CACHE_BUCKETS). intros n b l pg Hb Hin.
    apply lookup_replicate in Hb as [-> _]. by apply elem_of_nil in Hin.
  - constructor.
Qed.
End Fresh.

(** ** Passes over the cache *)

Section Passes.
Context {F : Type}.
Abbreviation pager := (tdb_pager F).

(** The loops over the cache change or remove pages one by one: [phi g] is
    what happens to page [g]. *)
Definition cache_pass (phi : Z -> option (tdb_page -> tdb_page)) (p : pager) (l : list Z) : pager :=
  fold_left (fun p g => match phi g with Some f => page_update p g f | None => cache_remove p g end) l p.
Lemma cache_pass_ok phi l p :
  cache_wf p -> NoDup l -> (forall g, g ∈ l -> is_Some (cache_lookup p g)) ->
  (forall g f pg, phi g = Some f -> pg_pgno (f pg) = pg_pgno pg) ->
  let p' := cache_pass phi p l in
  cache_wf p' /\ p' = pset_cache p (p_buckets p') (p_ncached p') (p_lru p')
  /\ forall g, cache_lookup p' g
       = if bool_decide (g ∈ l) then match phi g with Some f => f <$> cache_lookup p g | None => None end
         else cache_lookup p g.
Proof.
  intros Hw Hn Hin Hphi. revert p Hw Hin. induction l as [|x l IH]; intros p Hw Hin; cbn [cache_pass fold_left].
  { split; [done|]. split; [by destruct p|]. intros g. by rewrite bool_decide_eq_false_2 by apply not_elem_of_nil. }
  apply NoDup_cons in Hn as [Hx Hn]. destruct (Hin x) as [pg Hpg]; [apply elem_of_cons; by left|].
  set (q := match phi x with Some f => page_update p x f | None => cache_remove p x end).
  assert (cache_wf q /\ q = pset_cache p (p_buckets q) (p_ncached q) (p_lru q)
    /\ forall g, cache_lookup q g = if g =? x then match phi x with Some f => f <$> cache_lookup p x | None => None end
                                    else cache_lookup p g) as (Hwq & Hfq & Hlq).
  { unfold q. destruct (phi x) as [f|] eqn:Ef.
    - split; [apply page_update_wf; [intros; by eapply Hphi|done]|]. split; [done|]. intros g.
      apply lookup_update; [intros; by eapply Hphi|done].
    - split; [by eapply cache_remove_wf|]. split; [done|]. intros g. by eapply lookup_remove. }
  destruct (IH Hn q Hwq) as (Hw' & Hf' & Hl').
  { intros g Hg. rewrite Hlq. destruct (Z.eqb_spec g x) as [->|]; [done|]. apply Hin, elem_of_cons. by right. }
  split; [done|]. split; [unfold cache_pass in *; rewrite Hf', Hfq; done|]. intros g. unfold cache_pass in *. rewrite Hl', Hlq.
  destruct (Z.eqb_spec g x) as [->|Hne].
  - rewrite (bool_decide_eq_false_2 (x ∈ l)), bool_decide_eq_true_2 by (done || apply elem_of_cons; by left). done.
  - destruct (bool_decide_reflect (g ∈ l)) as [Hg|Hg].
    + rewrite bool_decide_eq_true_2; [done|]. apply elem_of_cons. by right.
    + rewrite bool_decide_eq_false_2; [done|]. rewrite elem_of_cons. naive_solver.
Qed.

(** The numbers of the dirty pages. *)
Definition dirty_pgnos (p : pager) : list Z := pg_pgno <$> filter pg_dirty (cache_pages p).
Lemma dirty_pgnos_spec p g :
  cache_wf p -> g ∈ dirty_pgnos p <-> exists pg, cache_lookup p g = Some pg /\ pg_dirty pg = true.
Proof.
  intros Hw. unfold dirty_pgnos. rewrite list_elem_of_fmap. setoid_rewrite list_elem_of_filter. split.
  - intros (pg & -> & Hd & Hin). exists pg. rewrite cache_lookup_find by done.
    split; [by apply elem_bucket_find; [apply Hw|]|]. by destruct (pg_dirty pg).
  - intros (pg & Hl & Hd). rewrite cache_lookup_find in Hl by done. apply bucket_find_elem in Hl as [Hin <-].
    exists pg. split; [done|]. split; [by rewrite Hd|done].
Qed.
Lemma dirty_pgnos_nodup p : cache_wf p -> NoDup (dirty_pgnos p).
Proof.
  intros Hw. unfold dirty_pgnos. apply (sublist_NoDup _ (pg_pgno <$> cache_pages p)); [apply Hw|].
  apply fmap_sublist, sublist_filter.
Qed.
Lemma fold_pass (phi : Z -> option (tdb_page -> tdb_page)) (l : list tdb_page) (p : pager) step :
  (forall q pg, step q pg = match phi (pg_pgno pg) with Some f => page_update q (pg_pgno pg) f | None => cache_remove q (pg_pgno pg) end) ->
  fold_left step l p = cache_pass phi p (pg_pgno <$> l).
Proof.
  intros Hs. revert p. induction l as [|x l IH]; intros p; [done|]. cbn [fold_left]. rewrite Hs, IH. done.
Qed.
End Passes.

(** ** Views *)

Section Views.
Context {F : Type} `{VfsLaws F} (lib : option zstd) (alloc_ok : Z -> bool).
Abbreviation pager := (tdb_pager F).

(** The committed content of a page, for a log with the frames [fs]: the page of
    the latest frame for it, else the bytes of the main file at its place, with
    zeros after the end of the file. *)
Definition stored_page (p : pager) (fs : list frame) (g : Z) : list Z :=
  match latest fs g None with
  | Some d => d
  | None => file_page (p_page_size p) (vfs_contents (p_file p)) g
  end.
(** What the pager reads for the page; [disk_stored] says that it is the
    committed content. *)
Definition disk (p : pager) (g : Z) : list Z := (read_page_image lib alloc_ok p g).2.
(** The content a client sees. *)
Definition page_view (p : pager) (g : Z) : list Z :=
  match cache_lookup p g with Some pg => pg_data pg | None => disk p g end.
Definition is_dirty (p : pager) (g : Z) : bool :=
  match cache_lookup p g with Some pg => pg_dirty pg | None => false end.
Definition is_pgno (g : Z) : Prop := 1 <= g < 2 ^ 31.

Definition store_ok (p : pager) : Prop :=
  (exists fs, wal_rep lib (p_wal p) fs) /\ vfs_good (p_file p) /\ w_page_size (p_wal p) = p_page_size p
  /\ 512 <= p_page_size p.
(** The invariant of the pager: pages have the page size, a clean page is the
    committed one. *)
Record pager_ok (p : pager) : Prop := {
  po_cache : cache_wf p;
  po_store : store_ok p;
  po_page : forall g pg, cache_lookup p g = Some pg ->
    is_pgno g /\ blen (pg_data pg) = p_page_size p /\ 0 <= pg_refs pg
    /\ (pg_dirty pg = false -> pg_data pg = disk p g) }.

(** [p'] differs from [p] in the cache only, and shows the same pages. *)
Record cache_ext (p p' : pager) : Prop := {
  ce_frame : p' = pset_cache p (p_buckets p') (p_ncached p') (p_lru p');
  ce_view : forall g, page_view p' g = page_view p g;
  ce_dirty : forall g, is_dirty p' g = is_dirty p g }.
#[global] Instance cache_ext_preorder : PreOrder cache_ext.
Proof.
  split.
  - intros p. split; [by destruct p|done|done].
  - intros p q r [F1 V1 D1] [F2 V2 D2]. split; [rewrite F2, F1; done|intros g; by rewrite V2|intros g; by rewrite D2].
Qed.

Lemma disk_frame p bs n lru g : disk (pset_cache p bs n lru) g = disk p g.
Proof. done. Qed.

Context (Halloc : forall n, alloc_ok n = true).
Lemma read_image_ok p g :
  store_ok p -> is_pgno g -> read_page_image lib alloc_ok p g = (TDB_OK, disk p g) /\ blen (disk p g) = p_page_size p.
Proof.
  intros ((fs & Hr) & Hg & Hps & Hmin) Hp. unfold disk, read_page_image.
  rewrite (wal_read_log lib alloc_ok Halloc (p_wal p) fs g Hr) by (unfold is_pgno in *; lia).
  destruct (latest fs g None) as [d|] eqn:El; cbn [snd].
  - split; [done|]. destruct Hr as (_ & _ & _ & _ & bs & tail & seed' & Hl & _).
    rewrite (latest_page_len lib _ _ _ _ _ _ _ Hl El). done.
  - rewrite good_read; [|done|lia|]; cbn [snd].
    + split; [done|]. apply blen_read_at. lia.
    + pose proof (u32_range (g - 1)). nia.
Qed.
Lemma disk_stored p fs g :
  wal_rep lib (p_wal p) fs -> vfs_good (p_file p) -> 0 < p_page_size p -> is_pgno g -> disk p g = stored_page p fs g.
Proof.
  intros Hr Hg Hps Hp. unfold disk, stored_page, read_page_image. unfold is_pgno in Hp. rewrite (wal_read_log lib alloc_ok Halloc _ fs) by (done || lia).
  destruct (latest fs g None); [done|]. rewrite u32_small by lia. rewrite good_read; [done|done|lia|nia].
Qed.
Lemma ok_stored p fs g : pager_ok p -> wal_rep lib (p_wal p) fs -> is_pgno g -> disk p g = stored_page p fs g.
Proof. intros Hp Hr Hg. destruct (po_store p Hp) as (_ & Hf & _ & Hps). apply disk_stored; (done || lia). Qed.
Lemma view_len p g : pager_ok p -> is_pgno g -> blen (page_view p g) = p_page_size p.
Proof.
  intros Hp Hg. unfold page_view. destruct (cache_lookup p g) as [pg|] eqn:E; [by apply (po_page p Hp) in E as (_ & ? & _)|].
  apply read_image_ok; [apply Hp|done].
Qed.
(** A page that is not dirty shows the committed content. *)
Lemma clean_view p g : pager_ok p -> is_dirty p g = false -> page_view p g = disk p g.
Proof.
  intros Hp. unfold page_view, is_dirty. destruct (cache_lookup p g) as [pg|] eqn:E; [|done].
  by apply (po_page p Hp) in E as (_ & _ & _ & ?).
Qed.

(** Evicting a clean page. *)
Lemma remove_clean p g pg :
  pager_ok p -> cache_lookup p g = Some pg -> pg_dirty pg = false ->
  pager_ok (cache_remove p g) /\ cache_ext p (cache_remove p g)
  /\ forall g', g' <> g -> cache_lookup (cache_remove p g) g' = cache_lookup p g'.
Proof.
  intros Hp Hl Hd. pose proof (po_cache p Hp) as Hw.
  pose proof (fun g' => lookup_remove p g pg g' Hw Hl) as Hlk.
  destruct (po_page p Hp g pg Hl) as (_ & _ & _ & Hcl).
  assert (forall g', g' <> g -> cache_lookup (cache_remove p g) g' = cache_lookup p g') as Ho.
  { intros g' Hne. rewrite Hlk. destruct (Z.eqb_spec g' g); done. }
  split; [|split; [|done]].
  - split; [by eapply cache_remove_wf|apply Hp|]. intros g' pg'. rewrite Hlk.
    destruct (Z.eqb_spec g' g); [done|]. apply (po_page p Hp).
  - split; [done| |]; intros g'; [unfold page_view|unfold is_dirty]; rewrite Hlk; destruct (Z.eqb_spec g' g) as [->|]; try done.
    + rewrite Hl. by rewrite Hcl.
    + by rewrite Hl.
Qed.
Lemma trim_loop_ok p l :
  pager_ok p ->
  pager_ok (trim_loop p l) /\ cache_ext p (trim_loop p l)
  /\ forall g pg, cache_lookup p g = Some pg -> 0 < pg_refs pg -> cache_lookup (trim_loop p l) g = Some pg.
Proof.
  revert p. induction l as [|g l IH]; intros p Hp; cbn [trim_loop]; [done|].
  destruct (_ <? _); [|done]. destruct (cache_lookup p g) as [pg|] eqn:E; [|by apply IH].
  destruct (Z.eqb_spec (pg_refs pg) 0) as [Hr|]; [|by apply IH]. destruct (pg_dirty pg) eqn:Hd; [by apply IH|]. cbn [negb andb].
  destruct (remove_clean p g pg Hp E Hd) as (Hp' & He & Ho). destruct (IH _ Hp') as (Hp2 & He2 & Hk).
  split; [done|]. split; [by etrans|]. intros g' pg' Hl' Hr'. apply Hk; [|done].
  rewrite Ho; [done|]. intros ->. rewrite E in Hl'. injection Hl' as <-. lia.
Qed.
(** A change of a cached page that keeps its content and its dirty flag. *)
Lemma update_quiet p g f :
  pager_ok p ->
  (forall pg, pg_pgno (f pg) = pg_pgno pg /\ pg_data (f pg) = pg_data pg /\ pg_dirty (f pg) = pg_dirty pg
     /\ (0 <= pg_refs pg -> 0 <= pg_refs (f pg))) ->
  pager_ok (page_update p g f) /\ cache_ext p (page_update p g f).
Proof.
  intros Hp Hf. pose proof (po_cache p Hp) as Hw.
  pose proof (fun g' => lookup_update p g f g' (fun pg => proj1 (Hf pg)) Hw) as Hlk.
  split.
  - split; [apply page_update_wf; [apply Hf|done]|apply Hp|]. intros g' pg'. rewrite Hlk.
    destruct (Z.eqb_spec g' g) as [->|]; [|apply (po_page p Hp)].
    destruct (cache_lookup p g) as [pg|] eqn:E; [|done]. intros [= <-].
    destruct (Hf pg) as (_ & F2 & F3 & F4). destruct (po_page p Hp g pg E) as (? & ? & ? & ?). rewrite F2, F3. naive_solver.
  - split; [done| |]; intros g'; [unfold page_view|unfold is_dirty]; rewrite Hlk;
      destruct (Z.eqb_spec g' g) as [->|]; try done; destruct (cache_lookup p g) as [pg|] eqn:E; cbn; try done; apply Hf.
Qed.
Lemma unref_ok p g : pager_ok p -> pager_ok (tdb_pager_unref p g) /\ cache_ext p (tdb_pager_unref p g).
Proof.
  intros Hp. apply update_quiet; [done|]. intros pg. destruct (Z.ltb_spec 0 (pg_refs pg)); cbn; repeat split; lia.
Qed.

(** *** Fetching a page *)

Lemma lru_touch_wf (p : pager) g pg :
  cache_wf p -> cache_lookup p g = Some pg -> cache_wf (lru_push_front (lru_unlink p g) g).
Proof.
  intros [W1 W2 W3 W4 W5] Hl. split; try done. cbn. rewrite <- list_unlink_perm; [done|]. rewrite W4.
  apply bucket_find_some. rewrite <- cache_lookup_find by done. by exists pg.
Qed.
Lemma get_ok p g :
  pager_ok p -> is_pgno g ->
  exists p', tdb_pager_get lib alloc_ok p g = (TDB_OK, p') /\ pager_ok p' /\ cache_ext p p'
    /\ exists pg, cache_lookup p' g = Some pg /\ pg_data pg = page_view p g /\ pg_dirty pg = is_dirty p g
                  /\ 0 < pg_refs pg.
Proof.
  intros Hp Hg. pose proof (po_cache p Hp) as Hw. unfold tdb_pager_get.
  destruct (Z.eqb_spec g 0); [unfold is_pgno in *; lia|]. destruct (cache_lookup p g) as [pg|] eqn:E.
  - set (p1 := lru_push_front (lru_unlink p g) g).
    assert (pager_ok p1 /\ cache_ext p p1) as [Hp1 He1].
    { split; [split; [by eapply lru_touch_wf|apply Hp|apply (po_page p Hp)]|by split]. }
    destruct (update_quiet p1 g (fun pg => set_refs (pg_refs pg + 1) pg) Hp1) as [Hp2 He2]; [cbn; intros; repeat split; lia|].
    eexists. split; [reflexivity|]. split; [done|]. split; [by etrans|].
    rewrite lookup_update by (done || apply Hp1). rewrite Z.eqb_refl. change (cache_lookup p1 g) with (cache_lookup p g).
    rewrite E. eexists. split; [reflexivity|]. unfold page_view, is_dirty. rewrite E. cbn.
    destruct (po_page p Hp g pg E) as (_ & _ & ? & _). split; [done|]. split; [done|lia].
  - destruct (page_new alloc_ok p g) as [p1|] eqn:En; [|unfold page_new in En; by rewrite !Halloc in En].
    pose proof (page_new_wf _ _ _ _ Hw E En) as Hw1. pose proof (fun g' => lookup_new _ _ _ _ g' Hw En) as Hl1.
    assert (p1 = pset_cache p (p_buckets p1) (p_ncached p1) (p_lru p1)) as Hfr
      by (unfold page_new in En; destruct (negb _); [done|]; by injection En as <-).
    assert (read_page_image lib alloc_ok p1 g = read_page_image lib alloc_ok p g) as -> by (by rewrite Hfr).
    destruct (read_image_ok p g (po_store p Hp) Hg) as [-> Hlen].
    set (f := fun pg => mk_page (pg_pgno pg) (disk p g) (pg_dirty pg) 1).
    pose proof (fun g' => lookup_update p1 g f g' (fun _ => eq_refl) Hw1) as Hl2. set (p2 := page_update p1 g f) in *.
    assert (p2 = pset_cache p (p_buckets p2) (p_ncached p2) (p_lru p2)) as Hfr2 by (unfold p2; rewrite Hfr; done).
    assert (forall g', cache_lookup p2 g' = if g' =? g then Some (mk_page g (disk p g) false 1) else cache_lookup p g') as Hl.
    { intros g'. rewrite Hl2, !Hl1, Z.eqb_refl. by destruct (g' =? g). }
    assert (pager_ok p2) as Hp2.
    { split; [by apply page_update_wf|rewrite Hfr2; apply Hp|]. intros g' pg'. rewrite Hl, Hfr2.
      destruct (Z.eqb_spec g' g) as [->|]; [|apply (po_page p Hp)]. by intros [= <-]. }
    destruct (trim_loop_ok p2 (rev (p_lru p2)) Hp2) as (Hp3 & He3 & Hk).
    eexists. split; [reflexivity|]. split; [done|]. split.
    + etrans; [|done]. split; [done| |]; intros g'; [unfold page_view|unfold is_dirty]; rewrite Hl;
        destruct (Z.eqb_spec g' g) as [->|]; rewrite ?E; try done; by rewrite Hfr2.
    + eexists. split; [apply Hk; [by rewrite Hl, Z.eqb_refl|done]|]. unfold page_view, is_dirty. by rewrite E.
Qed.

(** *** Writing a page *)

(** [p'] is [p] with page [g] changed to [d] and dirty. *)
Record page_mod (p p' : pager) (g : Z) (d : list Z) : Prop := {
  pm_frame : p' = pset_cache p (p_buckets p') (p_ncached p') (p_lru p');
  pm_ok : pager_ok p';
  pm_view : forall g', page_view p' g' = if g' =? g then d else page_view p g';
  pm_dirty : forall g', is_dirty p' g' = if g' =? g then true else is_dirty p g' }.

Lemma modify_ok p g pg f d :
  pager_ok p -> cache_lookup p g = Some pg -> (forall x, pg_pgno (f x) = pg_pgno x) ->
  pg_data (f pg) = d -> pg_dirty (f pg) = true -> 0 <= pg_refs (f pg) -> blen d = p_page_size p ->
  page_mod p (page_update p g f) g d.
Proof.
  intros Hp Hl Hf Hd Hdi Hr Hlen. pose proof (po_cache p Hp) as Hw.
  assert (forall g', cache_lookup (page_update p g f) g' = if g' =? g then Some (f pg) else cache_lookup p g') as Hlk
    by (intros g'; by rewrite lookup_update, Hl by done).
  split; [done| | |].
  - split; [by apply page_update_wf|apply Hp|]. intros g' pg'. rewrite Hlk.
    destruct (Z.eqb_spec g' g) as [->|]; [|apply (po_page p Hp)]. intros [= <-].
    destruct (po_page p Hp g pg Hl) as (? & ? & ? & ?). rewrite Hd, Hdi. done.
  - intros g'. unfold page_view. rewrite Hlk. by destruct (Z.eqb_spec g' g).
  - intros g'. unfold is_dirty. rewrite Hlk. by destruct (Z.eqb_spec g' g).
Qed.
(** Two assignments through one pointer are one. *)
Lemma page_update_fuse (p : pager) g f1 f2 :
  cache_wf p -> (forall x, pg_pgno (f1 x) = pg_pgno x) ->
  page_update (page_update p g f1) g f2 = page_update p g (fun x => f2 (f1 x)).
Proof.
  intros Hw H1. unfold page_update, bucket. cbn [pset_cache p_buckets]. unfold pset_cache. cbn.
  pose proof (bucket_of_lt g). pose proof (cw_len p Hw). rewrite nth_insert by lia.
  destruct (decide (bucket_of g = bucket_of g)); [|done]. rewrite list_insert_insert_eq. do 2 f_equal.
  generalize (nth (bucket_of g) (p_buckets p) []) as l. induction l as [|x l IH]; [done|]. cbn [bucket_update].
  destruct (Z.eqb_spec (pg_pgno x) g) as [E|E]; cbn [bucket_update].
  - by rewrite H1, E, Z.eqb_refl.
  - destruct (Z.eqb_spec (pg_pgno x) g); [done|]. by rewrite IH.
Qed.
Lemma page_data_update (p : pager) g pg f :
  cache_wf p -> cache_lookup p g = Some pg -> (forall x, pg_pgno (f x) = pg_pgno x) ->
  page_data (page_update p g f) g = pg_data (f pg).
Proof. intros Hw Hl Hf. unfold page_data. rewrite lookup_update, Z.eqb_refl, Hl by done. done. Qed.

(** The sequence the code uses: assignments to the page's bytes, then
    [tdb_pager_write], then [tdb_pager_unref]. *)
Lemma page_set_set (p : pager) g d1 d2 :
  cache_wf p -> page_set (page_set p g d1) g d2 = page_set p g d2.
Proof. intros Hw. unfold page_set. by rewrite page_update_fuse. Qed.
Lemma page_data_set (p : pager) g pg d :
  cache_wf p -> cache_lookup p g = Some pg -> page_data (page_set p g d) g = d.
Proof. intros Hw Hl. unfold page_set. by rewrite (page_data_update p g pg). Qed.
Lemma write_seq_ok p g pg d :
  pager_ok p -> cache_lookup p g = Some pg -> blen d = p_page_size p ->
  page_mod p (tdb_pager_unref (page_update (page_set p g d) g (set_dirty true)) g) g d.
Proof.
  intros Hp Hl Hd. pose proof (po_cache p Hp) as Hw. unfold tdb_pager_unref, page_set.
  assert (forall (b : bool) (x y : tdb_page), pg_pgno x = pg_pgno y -> pg_pgno (if b then x else y) = pg_pgno y) as Hif
    by (by intros [] x y).
  rewrite !page_update_fuse; try done.
  eapply modify_ok; try done.
  - intros x. cbn. destruct (_ <? _); done.
  - cbn. by destruct (_ <? _).
  - cbn. by destruct (_ <? _).
  - destruct (po_page p Hp g pg Hl) as (_ & _ & ? & _). cbn. destruct (Z.ltb_spec 0 (pg_refs pg)); cbn; lia.
  - by apply page_update_wf.
Qed.
(** Header fields do not matter for the views. *)
Lemma pager_ok_hdr p h b : pager_ok p -> pager_ok (pset_hdr p h b).
Proof. intros [P1 P2 P3]. split; [by destruct P1; split|done|done]. Qed.
Lemma view_hdr (p : pager) h b g : page_view (pset_hdr p h b) g = page_view p g.
Proof. done. Qed.

(** Replacing whatever the cache holds for [g] by a zeroed dirty page. *)
Lemma install_ok p g :
  pager_ok p -> is_pgno g ->
  exists p2, page_new alloc_ok (match cache_lookup p g with Some _ => cache_remove p g | None => p end) g = Some p2
    /\ page_mod p (page_update p2 g (fun pg => set_refs 1 (set_dirty true pg))) g (bzero (p_page_size p))
    /\ cache_lookup (page_update p2 g (fun pg => set_refs 1 (set_dirty true pg))) g
       = Some (mk_page g (bzero (p_page_size p)) true 1).
Proof.
  intros Hp Hg. pose proof (po_cache p Hp) as Hw. pose proof (po_store p Hp) as Hst.
  set (p1 := match cache_lookup p g with Some _ => _ | None => _ end).
  assert (cache_wf p1 /\ p1 = pset_cache p (p_buckets p1) (p_ncached p1) (p_lru p1)
          /\ (forall g', cache_lookup p1 g' = if g' =? g then None else cache_lookup p g')) as (Hw1 & Hf1 & Hl1).
  { unfold p1. destruct (cache_lookup p g) as [pg|] eqn:E.
    - split; [by eapply cache_remove_wf|]. split; [done|]. intros g'. by eapply lookup_remove.
    - split; [done|]. split; [by destruct p|]. intros g'. by destruct (Z.eqb_spec g' g) as [->|]. }
  destruct (page_new alloc_ok p1 g) as [p2|] eqn:En; [|unfold page_new in En; by rewrite !Halloc in En].
  assert (cache_lookup p1 g = None) as Hn by (rewrite Hl1; by rewrite Z.eqb_refl).
  pose proof (page_new_wf _ _ _ _ Hw1 Hn En) as Hw2. pose proof (fun g' => lookup_new _ _ _ _ g' Hw1 En) as Hl2.
  assert (p2 = pset_cache p (p_buckets p2) (p_ncached p2) (p_lru p2)) as Hf2.
  { unfold page_new in En. destruct (negb _); [done|]. injection En as <-. rewrite Hf1. done. }
  assert (p_page_size p1 = p_page_size p) as Eps by (by rewrite Hf1).
  set (f := fun pg => set_refs 1 (set_dirty true pg)). exists p2. split; [done|].
  assert (forall g', cache_lookup (page_update p2 g f) g'
    = if g' =? g then Some (mk_page g (bzero (p_page_size p)) true 1) else cache_lookup p g') as Hlk.
  { intros g'. rewrite lookup_update by done. rewrite !Hl2, Z.eqb_refl, Eps, Hl1. by destruct (g' =? g). }
  split; [|rewrite Hlk; by rewrite Z.eqb_refl].
  pose proof Hst as (_ & _ & _ & Hmin).
  assert (page_update p2 g f = pset_cache p (p_buckets (page_update p2 g f)) (p_ncached p2) (p_lru p2)) as Hf3
    by (rewrite Hf2; done).
  split; [rewrite Hf2; done| | |].
  - split; [by apply page_update_wf|rewrite Hf2; apply Hst|]. intros g' pg'. rewrite Hlk.
    assert (p_page_size (page_update p2 g f) = p_page_size p) as -> by (by rewrite Hf2).
    assert (disk (page_update p2 g f) g' = disk p g') as -> by (by rewrite Hf2).
    destruct (Z.eqb_spec g' g) as [->|]; [|apply (po_page p Hp)]. intros [= <-]. split; [done|].
    split; [cbn; apply blen_bzero; lia|]. done.
  - intros g'. unfold page_view. rewrite Hlk. destruct (Z.eqb_spec g' g); [done|].
    by rewrite (eq_refl : disk (page_update p2 g f) g' = disk p2 g'), Hf2.
  - intros g'. unfold is_dirty. rewrite Hlk. by destruct (Z.eqb_spec g' g).
Qed.

(** [p'] differs from [p] in the cache and the header only. *)
Definition same_base (p p' : pager) : Prop :=
  p' = mk_pager (p_file p) (p_wal p) (p_readonly p) (p_in_txn p) (p_page_size p) (p_hdr p') (p_hdr_dirty p')
         (p_buckets p') (p_ncached p') (p_lru p') (p_sps p).
#[global] Instance same_base_preorder : PreOrder same_base.
Proof. split; [intros []; done|]. unfold same_base. intros p q r -> ->. done. Qed.
Lemma same_base_cache p p' : p' = pset_cache p (p_buckets p') (p_ncached p') (p_lru p') -> same_base p p'.
Proof. unfold same_base, pset_cache. intros ->. done. Qed.
Lemma same_base_hdr p h b : same_base p (pset_hdr p h b).
Proof. done. Qed.
Lemma same_base_disk p p' g : same_base p p' -> disk p' g = disk p g.
Proof. by intros ->. Qed.
Lemma store_ps p : store_ok p -> 512 <= p_page_size p <= 65536.
Proof. intros ((fs & [Hp _]) & _ & Hps & Hm). pose proof (wp_ps _ Hp). lia. Qed.
End Views.

(** ** Claims on the header, the cache and the error paths *)

(** The database header round-trips: written over a page of at least 100
    bytes it carries the magic string and parses back to the same header, the
    rest of the page is untouched, and the stored checksum is the CRC32C of
    the 96 bytes before it. *)
Theorem header_roundtrip h b :
  hdr_ok h -> 100 <= blen b ->
  has_magic (hdr_serialize h b) = true /\ hdr_parse (hdr_serialize h b) = h
  /\ blen (hdr_serialize h b) = blen b /\ bfrom (hdr_serialize h b) 100 = bfrom b 100
  /\ tdb_get_u32 (bfrom (hdr_serialize h b) 96) = tdb_crc32c 0 (bsub (hdr_serialize h b) 0 96).
Proof.
  intros Hh Hb. rewrite hdr_serialize_len by done. rewrite hdr_serialize_app by done.
  split; [apply has_magic_fields|]. split; [by apply hdr_parse_fields|]. split; [done|]. split.
  - rewrite app_assoc. by apply bfrom_app.
  - rewrite bfrom_app by done. rewrite get_put_u32, bsub_app_l, bsub_all by done.
    apply u32_small. pose proof (tdb_crc32c_range 0 (hdr_fields h)). lia.
Qed.

Section Claims.
Context {F : Type} `{VfsLaws F} (lib : option zstd) (alloc_ok : Z -> bool) (Halloc : forall n, alloc_ok n = true).
Abbreviation pager := (tdb_pager F).

(** The content of a page: the cached one, else the committed one. *)
Definition shown_page (p : pager) (fs : list frame) (g : Z) : list Z :=
  match cache_lookup p g with Some pg => pg_data pg | None => stored_page p fs g end.
Lemma view_shown p fs g : pager_ok lib alloc_ok p -> wal_rep lib (p_wal p) fs -> is_pgno g -> page_view lib alloc_ok p g = shown_page p fs g.
Proof using All. intros Hp Hr Hg. unfold page_view, shown_page. destruct (cache_lookup p g); [done|]. by apply ok_stored. Qed.

(** C11. The cache is transparent: in a well-formed pager on files without
    faults, fetching a page succeeds and pins a page whose content is the
    uncommitted one of the cache if the page is dirty, else that of the latest
    frame of the page among the frames [fs] of the log, else the bytes of the
    main file at (page number - 1) * page size; it keeps the invariant of hash
    table, LRU list and count, writes neither file, and changes the content or
    the dirty flag of no page, whatever is evicted. *)
Theorem pager_cache_transparent (p : pager) fs g :
  pager_ok lib alloc_ok p -> wal_rep lib (p_wal p) fs -> is_pgno g ->
  exists p' pg, tdb_pager_get lib alloc_ok p g = (TDB_OK, p') /\ cache_lookup p' g = Some pg
    /\ pg_data pg = shown_page p fs g /\ (is_dirty p g = false -> pg_data pg = stored_page p fs g)
    /\ 0 < pg_refs pg /\ pager_ok lib alloc_ok p' /\ p_file p' = p_file p /\ p_wal p' = p_wal p
    /\ (forall g', is_pgno g' -> shown_page p' fs g' = shown_page p fs g' /\ is_dirty p' g' = is_dirty p g').
Proof.
  intros Hp Hr Hg. destruct (get_ok lib alloc_ok Halloc p g Hp Hg) as (p' & E & Hp' & He & pg & Hl & Hd & _ & Hrefs).
  assert (p_file p' = p_file p /\ p_wal p' = p_wal p) as [Ef Ew] by (rewrite (ce_frame _ _ _ _ He); done).
  exists p', pg. split; [done|]. split; [done|]. rewrite Hd. split; [by apply view_shown|].
  split; [intros Hc; rewrite (clean_view lib alloc_ok p g Hp Hc); by apply ok_stored|].
  repeat (split; [done|]). intros g' Hg'. split; [|apply He].
  rewrite <- (view_shown p' fs g' Hp'), <- (view_shown p fs g' Hp); [apply He|done|done|by rewrite Ew|done].
Qed.

(** Error paths: a fetch whose read fails reports the failure and leaves
    the same pages cached; page 0 cannot be fetched, pages 0 and 1 cannot be
    freed, a savepoint that does not exist cannot be released or rolled back
    to, and a read-only pager refuses every change; in all these cases the
    pager is unchanged. *)
Theorem pager_error_paths (p : pager) g rc d level fuel :
  cache_wf p ->
  (g <> 0 -> cache_lookup p g = None -> read_page_image lib alloc_ok p g = (rc, d) -> rc <> TDB_OK ->
   exists p', tdb_pager_get lib alloc_ok p g = (rc, p') /\ cache_wf p'
     /\ forall g', cache_lookup p' g' = cache_lookup p g')
  /\ tdb_pager_get lib alloc_ok p 0 = (TDB_MISUSE, p)
  /\ (p_readonly p = false ->
      tdb_pager_free lib alloc_ok p 0 = (TDB_MISUSE, p) /\ tdb_pager_free lib alloc_ok p 1 = (TDB_MISUSE, p)
      /\ (p_in_txn p = true -> tdb_pager_vacuum lib alloc_ok fuel p = Some (TDB_MISUSE, p)))
  /\ (level < 0 \/ Z.of_nat (length (p_sps p)) <= level ->
      tdb_pager_savepoint_release p level = (TDB_MISUSE, p)
      /\ tdb_pager_savepoint_rollback p level = (TDB_MISUSE, p))
  /\ (p_readonly p = true ->
      tdb_pager_alloc lib alloc_ok p = (TDB_READONLY, p, 0) /\ tdb_pager_free lib alloc_ok p g = (TDB_READONLY, p)
      /\ tdb_pager_write p g = (TDB_READONLY, p) /\ tdb_pager_begin p = (TDB_READONLY, p)
      /\ tdb_pager_commit lib alloc_ok p = (TDB_READONLY, p) /\ tdb_pager_savepoint p = (-1, p)
      /\ tdb_pager_checkpoint lib alloc_ok p = (TDB_OK, p)
      /\ tdb_pager_vacuum lib alloc_ok fuel p = Some (TDB_READONLY, p)).
Proof.
  intros Hw. split; [|split; [done|split; [|split]]].
  - intros Hg Hn Hr Hrc. unfold tdb_pager_get. destruct (Z.eqb_spec g 0); [done|]. rewrite Hn.
    destruct (page_new alloc_ok p g) as [p1|] eqn:En; [|unfold page_new in En; by rewrite !Halloc in En].
    pose proof (page_new_wf _ _ _ _ Hw Hn En) as Hw1. pose proof (fun g' => lookup_new _ _ _ _ g' Hw En) as Hl1.
    assert (p1 = pset_cache p (p_buckets p1) (p_ncached p1) (p_lru p1)) as Hfr
      by (unfold page_new in En; destruct (negb _); [done|]; by injection En as <-).
    assert (read_page_image lib alloc_ok p1 g = (rc, d)) as -> by (rewrite <- Hr; by rewrite Hfr).
    assert (cache_lookup p1 g = Some (mk_page g (bzero (p_page_size p)) false 0)) as Hlg by (by rewrite Hl1, Z.eqb_refl).
    exists (cache_remove p1 g). split; [by destruct rc|]. split; [by eapply cache_remove_wf|].
    intros g'. rewrite (lookup_remove p1 g _ g' Hw1 Hlg), Hl1. by destruct (Z.eqb_spec g' g) as [->|].
  - intros Hro. unfold tdb_pager_free, tdb_pager_vacuum. rewrite Hro. split; [done|]. split; [done|]. by intros ->.
  - intros Hl. unfold tdb_pager_savepoint_release, tdb_pager_savepoint_rollback.
    replace ((level <? 0) || (Z.of_nat (length (p_sps p)) <=? level)) with true; [done|]. symmetry. apply orb_true_iff.
    destruct Hl; [left; by apply Z.ltb_lt|right; by apply Z.leb_le].
  - intros Hro. unfold tdb_pager_alloc, tdb_pager_free, tdb_pager_write, tdb_pager_begin, tdb_pager_commit,
      tdb_pager_savepoint, tdb_pager_checkpoint, tdb_pager_vacuum. rewrite Hro. done.
Qed.
End Claims.

(** ** Witnesses: a new database in memory, pages of 512 bytes *)

#[local] Instance pdemo_vfs : Vfs mem_handle := mem_vfs ok_alloc.
#[local] Instance pdemo_laws : VfsLaws mem_handle := mem_vfs_laws ok_alloc.

Definition demo_fresh (w : tdb_wal mem_handle) : tdb_pager mem_handle :=
  fresh_pager mem_open w false 512 (new_header 512).
Lemma demo_fresh_ok :
  exists w, wal_rep None w [] /\ w_end_off w = 32 /\ pager_ok None ok_alloc (demo_fresh w).
Proof.
  destruct (wal_open_fresh None ok_alloc (fun _ => eq_refl) mem_open 512 mem_good_open eq_refl ltac:(lia))
    as (w & _ & Hr & Hps & _ & _ & He).
  exists w. split; [exact Hr|]. split; [exact He|]. unfold demo_fresh. split; [apply fresh_wf| |].
  - split; [by exists []|]. split; [exact mem_good_open|]. split; [exact Hps|]. cbn. lia.
  - intros g pg. by rewrite fresh_lookup.
Qed.
Lemma header_roundtrip_witness :
  hdr_parse (hdr_serialize (mk_dbhdr 512 7 3 2 1 1 4 1 9 0) (bzero 512)) = mk_dbhdr 512 7 3 2 1 1 4 1 9 0.
Proof.
  refine (proj1 (proj2 (header_roundtrip (mk_dbhdr 512 7 3 2 1 1 4 1 9 0) (bzero 512) _ _))).
  - unfold hdr_ok. cbn. lia.
  - vm_compute. congruence.
Defined.
Lemma pager_cache_transparent_witness :
  exists w p' pg, tdb_pager_get None ok_alloc (demo_fresh w) 3 = (TDB_OK, p') /\ cache_lookup p' 3 = Some pg /\ pg_data pg = bzero 512.
Proof.
  destruct demo_fresh_ok as (w & Hr & _ & Hp). exists w.
  destruct (pager_cache_transparent None ok_alloc (fun _ => eq_refl) (demo_fresh w) [] 3 Hp Hr) as (p' & pg & E & Hl & Hd & _).
  - unfold is_pgno. lia.
  - exists p', pg. split; [exact E|]. split; [exact Hl|]. rewrite Hd. vm_compute. reflexivity.
Defined.
Lemma pager_error_paths_witness :
  exists w, tdb_pager_savepoint_rollback (demo_fresh w) 0 = (TDB_MISUSE, demo_fresh w).
Proof.
  destruct demo_fresh_ok as (w & _ & _ & Hp). exists w.
  destruct (pager_error_paths None ok_alloc (fun _ => eq_refl) (demo_fresh w) 3 TDB_OK [] 0 0 (po_cache _ _ _ Hp))
    as (_ & _ & _ & H & _). apply H. right. cbn. lia.
Defined.
