(* ===== verification/PagerFree.v ===== *)
(** * The free-list of the pager

    The free pages form a chain of trunk pages, each with an array of leaf
    page numbers.  [free_ok] relates the pages to the list of free page
    numbers; allocation takes a number out of it (or grows the database) and
    freeing puts one in. *)
From stdpp Require Import relations.
From S2P Require Import Prelude Util File Wal WalSpec Pager PagerSpec.

(** A trunk page with next trunk [next] and leaves [ls]. *)
Definition trunk_page (ps : Z) (d : list Z) (next : Z) (ls : list Z) : Prop :=
  tdb_get_u32 (bfrom d TDB_FL_NEXT_TRUNK) = next
  /\ tdb_get_u32 (bfrom d TDB_FL_LEAF_COUNT) = Z.of_nat (length ls)
  /\ TDB_FL_LEAVES + 4 * Z.of_nat (length ls) <= ps
  /\ forall i l, ls !! i = Some l -> tdb_get_u32 (bfrom d (TDB_FL_LEAVES + 4 * Z.of_nat i)) = l.

Inductive freelist (view : Z -> list Z) (ps : Z) : Z -> list (Z * list Z) -> Prop :=
| fl_nil : freelist view ps 0 []
| fl_cons t next ls rest :
    t <> 0 -> trunk_page ps (view t) next ls -> freelist view ps next rest ->
    freelist view ps t ((t, ls) :: rest).

Definition fl_pages (chain : list (Z * list Z)) : list Z := concat (map (fun '(t, ls) => t :: ls) chain).

Lemma fl_pages_cons t ls rest : fl_pages ((t, ls) :: rest) = t :: ls ++ fl_pages rest.
Proof. done. Qed.
Lemma freelist_view_ext view view' ps t chain :
  (forall g, g ∈ fl_pages chain -> view' g = view g) -> freelist view ps t chain -> freelist view' ps t chain.
Proof.
  intros Hv Hf. induction Hf as [|t next ls rest Ht Hp Hf IH]; [constructor|].
  econstructor; [done| |apply IH].
  - rewrite Hv; [done|]. rewrite fl_pages_cons, elem_of_cons. by left.
  - intros g Hg. apply Hv. rewrite fl_pages_cons, elem_of_cons, elem_of_app. auto.
Qed.

Lemma freelist_inv view ps t chain :
  freelist view ps t chain -> chain <> [] ->
  exists next ls rest, chain = (t, ls) :: rest /\ t <> 0 /\ trunk_page ps (view t) next ls /\ freelist view ps next rest.
Proof. intros [|u next ls rest H1 H2 H3] Hne; [done|]. by exists next, ls, rest. Qed.

Section Free.
Context {F : Type} `{VfsLaws F} (lib : option zstd) (alloc_ok : Z -> bool) (Halloc : forall n, alloc_ok n = true).
Abbreviation pager := (tdb_pager F).
Abbreviation view := (page_view lib alloc_ok).

(** The free pages of [p] are those of [chain]: each once, inside the
    database, and counted. *)
Record free_ok (p : pager) (chain : list (Z * list Z)) : Prop := {
  fo_list : freelist (view p) (p_page_size p) (h_freelist_head (p_hdr p)) chain;
  fo_nodup : NoDup (fl_pages chain);
  fo_range : forall g, g ∈ fl_pages chain -> 2 <= g <= h_db_size (p_hdr p);
  fo_count : h_freelist_count (p_hdr p) = Z.of_nat (length (fl_pages chain));
  fo_size : 1 <= h_db_size (p_hdr p) < 2 ^ 31 }.

Lemma fo_pgno p chain g : free_ok p chain -> g ∈ fl_pages chain -> is_pgno g.
Proof. intros Hf Hg. pose proof (fo_range _ _ Hf g Hg). pose proof (fo_size _ _ Hf). unfold is_pgno. lia. Qed.

Lemma NoDup_range_length (l : list Z) lo hi :
  NoDup l -> (forall g, g ∈ l -> lo <= g <= hi) -> Z.of_nat (length l) <= Z.max 0 (hi - lo + 1).
Proof.
  intros Hn Hr. assert (l ⊆+ seqZ lo (hi - lo + 1)) as Hs.
  { apply NoDup_submseteq; [done|]. intros g Hg. apply elem_of_seqZ. specialize (Hr g Hg). lia. }
  apply submseteq_length in Hs. rewrite length_seqZ in Hs. lia.
Qed.
Lemma fo_length p chain : free_ok p chain -> Z.of_nat (length (fl_pages chain)) < 2 ^ 31.
Proof.
  intros Hf. pose proof (NoDup_range_length _ _ _ (fo_nodup _ _ Hf) (fo_range _ _ Hf)). pose proof (fo_size _ _ Hf). lia.
Qed.

(** The data of a page just fetched. *)
Lemma fetched_data (p' : pager) g pg d :
  cache_lookup p' g = Some pg -> pg_data pg = d -> page_data p' g = d.
Proof. intros E Hd. unfold page_data. by rewrite E. Qed.

Lemma trunk_pop ps d next ls l :
  blen d = ps -> ps < 2 ^ 31 -> trunk_page ps d next (ls ++ [l]) ->
  tdb_get_u32 (bfrom d (TDB_FL_LEAVES + u32 (Z.of_nat (length ls) * 4))) = l
  /\ trunk_page ps (bput d TDB_FL_LEAF_COUNT (tdb_put_u32 (Z.of_nat (length ls)))) next ls.
Proof.
  unfold TDB_FL_LEAVES, TDB_FL_LEAF_COUNT, TDB_FL_NEXT_TRUNK.
  intros Hd Hps (H1 & H2 & H3 & H4). rewrite length_app in H2, H3. cbn [length] in H2, H3.
  unfold TDB_FL_LEAVES, TDB_FL_LEAF_COUNT, TDB_FL_NEXT_TRUNK in *. split.
  - rewrite u32_small by lia. replace (Z.of_nat (length ls) * 4) with (4 * Z.of_nat (length ls)) by lia.
    apply H4. by rewrite lookup_app_r, Nat.sub_diag.
  - unfold trunk_page, TDB_FL_LEAVES, TDB_FL_LEAF_COUNT, TDB_FL_NEXT_TRUNK.
    assert (blen (tdb_put_u32 (Z.of_nat (length ls))) = 4) as H5 by done.
    split; [rewrite get_u32_out by lia; done|]. split; [rewrite get_u32_put by lia; done|]. split; [lia|].
    intros i l' Hi. pose proof (lookup_lt_Some _ _ _ Hi). rewrite get_u32_out by lia. apply H4.
    by rewrite lookup_app_l.
Qed.
Lemma trunk_push ps d next ls l :
  blen d = ps -> ps < 2 ^ 31 -> is_pgno l -> trunk_page ps d next ls ->
  TDB_FL_LEAVES + 4 * Z.of_nat (length ls) + 4 <= ps ->
  trunk_page ps (bput (bput d (TDB_FL_LEAVES + u32 (Z.of_nat (length ls) * 4)) (tdb_put_u32 l))
                   TDB_FL_LEAF_COUNT (tdb_put_u32 (Z.of_nat (length ls) + 1))) next (ls ++ [l]).
Proof.
  unfold TDB_FL_LEAVES, TDB_FL_LEAF_COUNT, TDB_FL_NEXT_TRUNK, is_pgno.
  intros Hd Hps Hl (H1 & H2 & H3 & H4) H5. unfold TDB_FL_LEAVES, TDB_FL_LEAF_COUNT, TDB_FL_NEXT_TRUNK in *.
  rewrite u32_small by lia. remember (Z.of_nat (length ls)) as n eqn:En. remember (9 + n * 4) as off eqn:Eoff.
  assert (forall v, blen (tdb_put_u32 v) = 4) as Hb by done.
  assert (blen (bput d off (tdb_put_u32 l)) = ps) as Hd1 by (rewrite blen_bput; rewrite ?Hb; lia).
  unfold trunk_page, TDB_FL_LEAVES, TDB_FL_LEAF_COUNT, TDB_FL_NEXT_TRUNK. rewrite length_app. cbn [length].
  pose proof (Hb l) as Hb1. pose proof (Hb (n + 1)) as Hb2.
  split; [rewrite !get_u32_out by lia; done|]. split; [rewrite get_u32_put by lia; lia|]. split; [lia|].
  intros i l' Hi. apply lookup_app_Some in Hi as [Hi|[Hi1 Hi]].
  - pose proof (lookup_lt_Some _ _ _ Hi). rewrite !get_u32_out by (lia). by apply H4.
  - destruct (i - length ls)%nat as [|k] eqn:Ek; [|done].
    cbn in Hi. injection Hi as <-. rewrite get_u32_out by (lia).
    replace (9 + 4 * Z.of_nat i) with off by (lia). apply get_u32_put; lia.
Qed.

(** Taking a page out of the chain. *)
Lemma freelist_pop_ok p chain :
  pager_ok lib alloc_ok p -> p_readonly p = false -> free_ok p chain -> chain <> [] ->
  exists p' g chain', freelist_pop lib alloc_ok p = (TDB_OK, p', g) /\ pager_ok lib alloc_ok p' /\ same_base p p'
    /\ h_db_size (p_hdr p') = h_db_size (p_hdr p) /\ free_ok p' chain' /\ fl_pages chain ≡ₚ g :: fl_pages chain'
    /\ (forall g', g' ∉ fl_pages chain' -> view p' g' = view p g').
Proof.
  intros Hp Hro Hf Hne. pose proof (fo_length _ _ Hf) as Hfl. pose proof (store_ps _ _ (po_store _ _ _ Hp)) as Hps.
  pose proof Hf as [Hl Hnd Hrg Hct Hsz].
  destruct (freelist_inv _ _ _ _ Hl Hne) as (next & ls & rest & -> & Ht & Htr & Hrest). clear Hl.
  unfold freelist_pop. set (t := h_freelist_head (p_hdr p)) in *. destruct (Z.eqb_spec t 0) as [|_]; [done|].
  assert (is_pgno t) as Hpg by (apply (fo_pgno p _ t Hf); rewrite fl_pages_cons, elem_of_cons; by left).
  destruct (get_ok lib alloc_ok Halloc p t Hp Hpg) as (p1 & -> & Hp1 & He1 & pg & Hlk & Hd & _ & Hr).
  pose proof (view_len lib alloc_ok Halloc p t Hp Hpg) as Hvl. pose proof (fetched_data _ _ _ _ Hlk Hd) as Hdata.
  pose proof (same_base_cache _ _ (ce_frame _ _ _ _ He1)) as Hb1.
  assert (p_page_size p1 = p_page_size p /\ p_readonly p1 = false /\ p_hdr p1 = p_hdr p) as (Eps & Ero & Eh)
    by (rewrite (ce_frame _ _ _ _ He1); cbn; auto).
  unfold page_u32. rewrite !Hdata. destruct Htr as (T1 & T2 & T3 & T4). rewrite !T2.
  rewrite fl_pages_cons in Hnd. apply NoDup_cons in Hnd as [Hnt Hnd].
  destruct ls as [|l ls' _] using rev_ind.
  - (* the trunk itself *)
    cbn [length Z.of_nat Z.ltb Z.compare]. rewrite T1.
    set (p2 := tdb_pager_unref _ t). destruct (unref_ok lib alloc_ok (pset_hdr p1 (hset_freelist (p_hdr p1) next (h_freelist_count (p_hdr p1))) (p_hdr_dirty p1)) t)
      as [Hp2 He2]; [by apply pager_ok_hdr|]. fold p2 in Hp2, He2.
    eexists _, t, rest. split; [reflexivity|]. assert (p_hdr p2 = hset_freelist (p_hdr p) next (h_freelist_count (p_hdr p))) as Eh2
      by (rewrite (ce_frame _ _ _ _ He2); cbn; by rewrite Eh).
    assert (forall g, view p2 g = view p g) as Hv by (intros g; rewrite (ce_view _ _ _ _ He2), view_hdr; apply He1).
    split; [by apply pager_ok_hdr|]. split; [etrans; [apply Hb1|]; etrans; [|apply same_base_hdr]; etrans; [apply same_base_hdr|apply same_base_cache, He2]|].
    cbn [pset_hdr p_hdr]. rewrite Eh2. cbn [hset_freelist h_db_size]. split; [done|].
    split; [|split; [by rewrite fl_pages_cons|intros g' _; apply Hv]].
    rewrite fl_pages_cons in Hct, Hrg, Hfl. cbn [app] in *.
    split; cbn [pset_hdr p_hdr hset_freelist h_freelist_head h_db_size h_freelist_count p_page_size].
    + replace (p_page_size p2) with (p_page_size p) by (rewrite (ce_frame _ _ _ _ He2); cbn; congruence).
      eapply freelist_view_ext; [|exact Hrest]. intros g _. apply Hv.
    + done.
    + intros g Hg. apply Hrg, elem_of_cons. by right.
    + rewrite Hct, u32_small; cbn [length] in *; [lia|]. lia.
    + done.
  - (* the last leaf *)
    set (n := Z.of_nat (length ls')). assert (Z.of_nat (length (ls' ++ [l])) = n + 1) as En by (rewrite length_app; cbn; lia).
    rewrite En. destruct (Z.ltb_spec 0 (n + 1)); [|lia]. rewrite !Z.add_simpl_r. unfold page_put_u32. rewrite Hdata.
    destruct (trunk_pop (p_page_size p) (view p t) next ls' l) as [Hleaf Htr']; [done|lia|by repeat split|].
    unfold n. rewrite Hleaf. fold n in Htr' |- *. unfold tdb_pager_write.
    change (p_readonly (page_set p1 t _)) with (p_readonly p1). rewrite Ero.
    set (d := bput (view p t) _ _) in *. assert (blen d = p_page_size p) as Hdl by (unfold d; rewrite blen_bput; [done|done|rewrite Hvl; change (5 + 4 <= p_page_size p); lia]).
    destruct (write_seq_ok lib alloc_ok p1 t pg d Hp1 Hlk) as [M1 M2 M3 M4]; [congruence|].
    set (p2 := tdb_pager_unref _ t) in *. assert (p_hdr p2 = p_hdr p) as Eh2 by (rewrite M1; cbn; congruence).
    assert (forall g, view p2 g = if g =? t then d else view p g) as Hv by (intros g; rewrite M3, (ce_view _ _ _ _ He1); done).
    eexists _, l, ((t, ls') :: rest). split; [reflexivity|]. split; [by apply pager_ok_hdr|].
    split; [etrans; [apply Hb1|]; etrans; [apply same_base_cache, M1|apply same_base_hdr]|].
    cbn [pset_hdr p_hdr]. rewrite Eh2. cbn [hset_freelist h_db_size]. split; [done|].
    rewrite fl_pages_cons in Hct, Hrg, Hfl. rewrite length_cons, !length_app in Hct, Hfl. cbn [length] in Hct, Hfl.
    assert (fl_pages ((t, ls' ++ [l]) :: rest) ≡ₚ l :: fl_pages ((t, ls') :: rest)) as Hperm
      by (rewrite !fl_pages_cons; solve_Permutation).
    rewrite fl_pages_cons in Hperm. split; [|split; [by rewrite fl_pages_cons|]].
    + split; cbn [pset_hdr p_hdr hset_freelist h_freelist_head h_db_size h_freelist_count p_page_size].
      * replace (p_page_size p2) with (p_page_size p) by (rewrite M1; cbn; congruence).
        econstructor; [done| |]; [rewrite view_hdr, Hv, Z.eqb_refl; exact Htr'|].
        eapply freelist_view_ext; [|exact Hrest]. intros g Hg. rewrite view_hdr, Hv. destruct (Z.eqb_spec g t) as [->|]; [|done].
        exfalso. apply Hnt, elem_of_app. by right.
      * assert (NoDup (t :: (ls' ++ [l]) ++ fl_pages rest)) as Hall by (by constructor). rewrite Hperm in Hall.
        by apply NoDup_cons in Hall as [_ Hall].
      * intros g Hg. apply Hrg. rewrite Hperm. apply elem_of_cons. by right.
      * rewrite Hct, u32_small, fl_pages_cons by lia. rewrite length_cons, length_app. lia.
      * done.
    + intros g Hg. rewrite view_hdr, Hv. destruct (Z.eqb_spec g t) as [->|]; [|done].
      exfalso. apply Hg. rewrite fl_pages_cons, elem_of_cons. by left.
Qed.

Lemma alloc_ok_spec p chain :
  pager_ok lib alloc_ok p -> p_readonly p = false -> free_ok p chain ->
  h_db_size (p_hdr p) + 1 < 2 ^ 31 ->
  exists p' g chain', tdb_pager_alloc lib alloc_ok p = (TDB_OK, p', g)
    /\ pager_ok lib alloc_ok p' /\ same_base p p' /\ free_ok p' chain'
    /\ ((chain = [] /\ chain' = [] /\ g = h_db_size (p_hdr p) + 1 /\ h_db_size (p_hdr p') = g)
        \/ (fl_pages chain ≡ₚ g :: fl_pages chain' /\ h_db_size (p_hdr p') = h_db_size (p_hdr p)))
    /\ view p' g = bzero (p_page_size p) /\ is_dirty p' g = true
    /\ (forall g', g' <> g -> g' ∉ fl_pages chain' -> view p' g' = view p g').
Proof.
  intros Hp Hro Hf Hroom. pose proof (fo_size _ _ Hf) as Hsz.
  assert (exists p1 g chain',
    (let '(rc, q, pgno) := freelist_pop lib alloc_ok p in
     match rc with
     | TDB_OK => Some (if pgno =? 0 then
            let n := u32 (h_db_size (p_hdr q) + 1) in (pset_hdr q (hset_db_size (p_hdr q) n) true, n)
          else (q, pgno))
     | _ => None end) = Some (p1, g)
    /\ pager_ok lib alloc_ok p1 /\ same_base p p1 /\ is_pgno g /\ free_ok (pset_hdr p1 (p_hdr p1) true) chain' /\ (g ∉ fl_pages chain')
    /\ ((chain = [] /\ chain' = [] /\ g = h_db_size (p_hdr p) + 1 /\ h_db_size (p_hdr p1) = g)
        \/ (fl_pages chain ≡ₚ g :: fl_pages chain' /\ h_db_size (p_hdr p1) = h_db_size (p_hdr p)))
    /\ (forall g', g' ∉ fl_pages chain' -> view p1 g' = view p g')) as (p1 & g & chain' & E & Hp1 & Hb1 & Hg & Hf1 & Hng & Hor & Hv).
  { destruct chain as [|[t ls] rest] eqn:Ec.
    - exists (pset_hdr p (hset_db_size (p_hdr p) (h_db_size (p_hdr p) + 1)) true), (h_db_size (p_hdr p) + 1), [].
      pose proof (fo_list _ _ Hf) as Hl. inversion Hl as [Eh|]. unfold freelist_pop. rewrite <- Eh. cbn [Z.eqb].
      rewrite u32_small by lia. split; [done|]. split; [by apply pager_ok_hdr|]. split; [done|]. split; [unfold is_pgno; lia|].
      split; [|split; [apply not_elem_of_nil|split; [by left|done]]].
      destruct Hf as [F1 F2 F3 F4 F5]. split; cbn [pset_hdr p_hdr hset_db_size h_db_size h_freelist_head h_freelist_count]; try done.
      + intros g Hg. apply F3 in Hg. lia.
      + lia.
    - destruct (freelist_pop_ok p _ Hp Hro Hf) as (p1 & g & chain' & -> & Hp1 & Hb1 & Hd1 & Hf1 & Hperm & Hv); [done|].
      assert (g ∈ fl_pages ((t, ls) :: rest)) as Hgin by (rewrite Hperm; apply elem_of_cons; by left).
      pose proof (fo_range _ _ Hf g Hgin). destruct (Z.eqb_spec g 0); [lia|].
      exists p1, g, chain'. split; [done|]. split; [done|]. split; [done|]. split; [exact (fo_pgno _ _ _ Hf Hgin)|].
      split; [by destruct Hf1; split|]. pose proof (fo_nodup _ _ Hf) as Hnd. rewrite Hperm in Hnd. apply NoDup_cons in Hnd as [Hnd _].
      split; [done|]. split; [by right|]. done. }
  destruct (install_ok lib alloc_ok Halloc p1 g Hp1 Hg) as (p2 & En & [M1 M2 M3 M4] & Hl2).
  unfold tdb_pager_alloc. rewrite Hro. destruct (freelist_pop lib alloc_ok p) as [[rc q] pgno]. destruct rc; try done.
  injection E as E. rewrite E. rewrite En. set (p3 := page_update p2 g _) in *.
  assert (p_hdr p3 = p_hdr p1 /\ p_page_size p3 = p_page_size p1) as [Eh3 Eps3] by (rewrite M1; done).
  assert (p_page_size p1 = p_page_size p) as Eps by (rewrite Hb1; done).
  exists p3, g, chain'. split; [done|]. split; [done|]. split; [etrans; [exact Hb1|by apply same_base_cache]|].
  split.
  { destruct Hf1 as [F1 F2 F3 F4 F5]. split; rewrite ?Eh3; try done. rewrite Eps3.
    eapply freelist_view_ext; [|exact F1]. intros g' Hg'. rewrite M3. destruct (Z.eqb_spec g' g) as [->|]; done. }
  rewrite Eh3, <- Eps. split; [done|]. rewrite M3, M4, Z.eqb_refl. split; [done|]. split; [done|].
  intros g' Hne Hg'. rewrite M3. destruct (Z.eqb_spec g' g); [done|]. by apply Hv.
Qed.

(** A page made into an empty trunk in front of the chain. *)
Lemma new_trunk_ok p chain g :
  pager_ok lib alloc_ok p -> p_readonly p = false -> free_ok p chain ->
  2 <= g <= h_db_size (p_hdr p) -> g ∉ fl_pages chain ->
  exists p', freelist_new_trunk lib alloc_ok p g = (TDB_OK, p') /\ pager_ok lib alloc_ok p' /\ same_base p p'
    /\ free_ok p' ((g, []) :: chain) /\ h_db_size (p_hdr p') = h_db_size (p_hdr p)
    /\ (forall g', g' <> g -> view p' g' = view p g').
Proof.
  intros Hp Hro Hf Hg Hng. pose proof (store_ps _ _ (po_store _ _ _ Hp)) as Hps. pose proof (fo_size _ _ Hf) as Hsz.
  pose proof (fo_length _ _ Hf) as Hfl. assert (is_pgno g) as Hpg by (unfold is_pgno; lia).
  destruct (get_ok lib alloc_ok Halloc p g Hp Hpg) as (p1 & E & Hp1 & He1 & pg & Hlk & Hd & _ & Hr).
  pose proof (po_cache _ _ _ Hp1) as Hw1. pose proof (same_base_cache _ _ (ce_frame _ _ _ _ He1)) as Hb1.
  assert (p_page_size p1 = p_page_size p /\ p_readonly p1 = false /\ p_hdr p1 = p_hdr p) as (Eps & Ero & Eh)
    by (rewrite (ce_frame _ _ _ _ He1); cbn; auto).
  unfold freelist_new_trunk. rewrite E. unfold page_put_u32.
  assert (forall d d', page_set (page_set p1 g d) g d' = page_set p1 g d') as Hss by (intros; by apply page_set_set).
  assert (forall d, page_data (page_set p1 g d) g = d) as Hds by (intros; by eapply page_data_set).
  repeat first [rewrite Hds | rewrite Hss].
  change (p_hdr (page_set p1 g _)) with (p_hdr p1). rewrite Eh, Eps. set (head := h_freelist_head (p_hdr p)).
  set (d1 := bput (bzero (p_page_size p)) TDB_FL_TYPE [TDB_PAGE_FREELIST_TRUNK]).
  set (d2 := bput d1 TDB_FL_NEXT_TRUNK (tdb_put_u32 head)). set (d := bput d2 TDB_FL_LEAF_COUNT (tdb_put_u32 0)).
  assert (blen d1 = p_page_size p) as L1 by (unfold d1; rewrite blen_bput; [by apply blen_bzero; lia|done|rewrite blen_bzero by lia; change (0 + 1 <= p_page_size p); lia]).
  assert (blen d2 = p_page_size p) as L2 by (unfold d2; rewrite blen_bput; [done|done|rewrite L1; change (1 + 4 <= p_page_size p); lia]).
  assert (blen d = p_page_size p) as L3 by (unfold d; rewrite blen_bput; [done|done|rewrite L2; change (5 + 4 <= p_page_size p); lia]).
  unfold tdb_pager_write. change (p_readonly (page_set p1 g d)) with (p_readonly p1). rewrite Ero.
  destruct (write_seq_ok lib alloc_ok p1 g pg d Hp1 Hlk) as [M1 M2 M3 M4]; [congruence|].
  set (p2 := tdb_pager_unref _ g) in *. assert (p_hdr p2 = p_hdr p) as Eh2 by (rewrite M1; cbn; congruence).
  assert (forall g', view p2 g' = if g' =? g then d else view p g') as Hv by (intros g'; rewrite M3, (ce_view _ _ _ _ He1); done).
  assert (0 <= head < 2 ^ 32) as Hh.
  { destruct (fo_list _ _ Hf) as [|t next ls rest]; [lia|].
    assert (is_pgno t) as Ht by (apply (fo_pgno p _ t Hf); rewrite fl_pages_cons, elem_of_cons; by left). unfold is_pgno in Ht. lia. }
  eexists. split; [reflexivity|]. split; [by apply pager_ok_hdr|].
  split; [etrans; [apply Hb1|]; etrans; [apply same_base_cache, M1|apply same_base_hdr]|].
  cbn [pset_hdr p_hdr]. rewrite Eh2. cbn [hset_freelist h_db_size]. split; [|split; [done|]].
  - pose proof Hf as [F1 F2 F3 F4 F5]. split; cbn [pset_hdr p_hdr hset_freelist h_freelist_head h_db_size h_freelist_count p_page_size].
    + replace (p_page_size p2) with (p_page_size p) by (rewrite M1; cbn; congruence).
      econstructor; [lia| |].
      * rewrite view_hdr, Hv, Z.eqb_refl. unfold trunk_page, d, d2, TDB_FL_NEXT_TRUNK, TDB_FL_LEAF_COUNT, TDB_FL_LEAVES in *.
        assert (forall v, blen (tdb_put_u32 v) = 4) as Hb4 by done. pose proof (Hb4 0). pose proof (Hb4 head).
        split; [rewrite get_u32_out, get_u32_put by lia; reflexivity|]. split; [rewrite get_u32_put by lia; done|].
        split; [cbn; lia|]. intros i l Hi. by rewrite lookup_nil in Hi.
      * eapply freelist_view_ext; [|exact F1]. intros g' Hg'. rewrite view_hdr, Hv. destruct (Z.eqb_spec g' g) as [->|]; done.
    + rewrite fl_pages_cons. by constructor.
    + intros g'. rewrite fl_pages_cons, elem_of_cons. intros [->|Hg']; [lia|]. by apply F3.
    + rewrite F4, u32_small, fl_pages_cons by lia. cbn [app length]. lia.
    + done.
  - intros g' Hne. rewrite view_hdr, Hv. destruct (Z.eqb_spec g' g); done.
Qed.
Lemma free_ok_spec p chain g :
  pager_ok lib alloc_ok p -> p_readonly p = false -> free_ok p chain ->
  2 <= g <= h_db_size (p_hdr p) -> g ∉ fl_pages chain ->
  exists p' chain', tdb_pager_free lib alloc_ok p g = (TDB_OK, p') /\ pager_ok lib alloc_ok p' /\ same_base p p'
    /\ free_ok p' chain' /\ fl_pages chain' ≡ₚ g :: fl_pages chain /\ h_db_size (p_hdr p') = h_db_size (p_hdr p)
    /\ (forall g', g' ∉ fl_pages chain' -> view p' g' = view p g').
Proof.
  intros Hp Hro Hf Hg Hng. unfold tdb_pager_free. rewrite Hro.
  destruct (Z.eqb_spec g 0); [lia|]. destruct (Z.eqb_spec g TDB_CATALOG_PGNO); [unfold TDB_CATALOG_PGNO in *; lia|]. cbn [orb].
  pose proof (store_ps _ _ (po_store _ _ _ Hp)) as Hps. pose proof (fo_length _ _ Hf) as Hfl.
  destruct chain as [|c rest0] eqn:Ec.
  { pose proof (fo_list _ _ Hf) as Hl. inversion Hl as [Eh|]. cbn [Z.eqb].
    destruct (new_trunk_ok p [] g Hp Hro Hf Hg Hng) as (p' & -> & Hp' & Hb & Hf' & Hd & Hv).
    exists p', [(g, [])]. split; [done|]. split; [done|]. split; [done|]. split; [done|]. split; [done|]. split; [done|].
    intros g' Hg'. apply Hv. intros ->. apply Hg'. apply elem_of_cons. by left. }
  rewrite <- Ec in *. assert (chain <> []) as Hne by (by rewrite Ec). clear Ec.
  pose proof Hf as [Hl Hnd Hrg Hct Hsz].
  destruct (freelist_inv _ _ _ _ Hl Hne) as (next & ls & rest & -> & Ht & Htr & Hrest). clear Hl Hne.
  set (t := h_freelist_head (p_hdr p)) in *. destruct (Z.eqb_spec t 0) as [|_]; [done|].
  assert (is_pgno t) as Hpg by (apply (fo_pgno p _ t Hf); rewrite fl_pages_cons, elem_of_cons; by left).
  destruct (get_ok lib alloc_ok Halloc p t Hp Hpg) as (p1 & -> & Hp1 & He1 & pg & Hlk & Hd & _ & Hr).
  pose proof (view_len lib alloc_ok Halloc p t Hp Hpg) as Hvl. pose proof (fetched_data _ _ _ _ Hlk Hd) as Hdata.
  pose proof (po_cache _ _ _ Hp1) as Hw1. pose proof (same_base_cache _ _ (ce_frame _ _ _ _ He1)) as Hb1.
  assert (p_page_size p1 = p_page_size p /\ p_readonly p1 = false /\ p_hdr p1 = p_hdr p) as (Eps & Ero & Eh)
    by (rewrite (ce_frame _ _ _ _ He1); cbn; auto).
  unfold page_u32. rewrite Hdata. pose proof Htr as (T1 & T2 & T3 & T4). rewrite T2.
  destruct (Z.ltb_spec (Z.of_nat (length ls)) (u32 (p_page_size p - TDB_FL_LEAVES) / 4)) as [Hlt|Hge].
  - (* room in the first trunk *)
    unfold TDB_FL_LEAVES in Hlt. rewrite u32_small in Hlt by lia.
    assert (4 * Z.of_nat (length ls) + 4 <= p_page_size p - 9) as Hroom.
    { pose proof (Z.mul_div_le (p_page_size p - 9) 4). lia. }
    unfold page_put_u32. rewrite Hdata, (page_data_set p1 t pg), page_set_set by done.
    set (d := bput (bput _ _ _) _ _).
    assert (trunk_page (p_page_size p) d next (ls ++ [g])) as Htr'.
    { apply trunk_push; [done|lia|unfold is_pgno in *; lia|done|unfold TDB_FL_LEAVES; lia]. }
    assert (blen d = p_page_size p) as Hdl.
    { unfold d, TDB_FL_LEAVES, TDB_FL_LEAF_COUNT. rewrite u32_small by lia. assert (forall v, blen (tdb_put_u32 v) = 4) as Hb4 by done.
      rewrite !blen_bput; rewrite ?Hb4; try lia. rewrite blen_bput; rewrite ?Hb4; lia. }
    unfold tdb_pager_write. change (p_readonly (page_set p1 t d)) with (p_readonly p1). rewrite Ero.
    destruct (write_seq_ok lib alloc_ok p1 t pg d Hp1 Hlk) as [M1 M2 M3 M4]; [congruence|].
    set (p2 := tdb_pager_unref _ t) in *. assert (p_hdr p2 = p_hdr p) as Eh2 by (rewrite M1; cbn; congruence).
    assert (forall g', view p2 g' = if g' =? t then d else view p g') as Hv by (intros g'; rewrite M3, (ce_view _ _ _ _ He1); done).
    assert (fl_pages ((t, ls ++ [g]) :: rest) ≡ₚ g :: fl_pages ((t, ls) :: rest)) as Hperm
      by (rewrite !fl_pages_cons; solve_Permutation).
    eexists _, ((t, ls ++ [g]) :: rest). split; [reflexivity|]. split; [by apply pager_ok_hdr|].
    split; [etrans; [apply Hb1|]; etrans; [apply same_base_cache, M1|apply same_base_hdr]|].
    split; [|split; [done|split; [cbn [pset_hdr p_hdr hset_freelist h_db_size]; by rewrite Eh2|]]].
    + split; cbn [pset_hdr p_hdr hset_freelist h_freelist_head h_db_size h_freelist_count p_page_size]; rewrite ?Eh2.
      * replace (p_page_size p2) with (p_page_size p) by (rewrite M1; cbn; congruence).
        econstructor; [done| |]; [rewrite view_hdr, Hv, Z.eqb_refl; exact Htr'|].
        eapply freelist_view_ext; [|exact Hrest]. intros g' Hg'. rewrite view_hdr, Hv. destruct (Z.eqb_spec g' t) as [->|]; [|done].
        exfalso. rewrite fl_pages_cons in Hnd. apply NoDup_cons in Hnd as [Hnt _]. apply Hnt, elem_of_app. by right.
      * rewrite Hperm. by constructor.
      * intros g'. rewrite Hperm, elem_of_cons. intros [->|Hg']; [lia|]. by apply Hrg.
      * rewrite Hct, u32_small, Hperm by lia. cbn [length]. lia.
      * done.
    + intros g' Hg'. rewrite view_hdr, Hv. destruct (Z.eqb_spec g' t) as [->|]; [|done].
      exfalso. apply Hg'. rewrite fl_pages_cons, elem_of_cons. by left.
  - (* the first trunk is full *)
    destruct (unref_ok lib alloc_ok p1 t Hp1) as [Hp2 He2].
    assert (cache_ext lib alloc_ok p (tdb_pager_unref p1 t)) as He by (by etrans). set (p2 := tdb_pager_unref p1 t) in *.
    pose proof (ce_frame _ _ _ _ He) as Hfr.
    assert (p_page_size p2 = p_page_size p /\ p_readonly p2 = false /\ p_hdr p2 = p_hdr p) as (Eps2 & Ero2 & Eh2)
      by (rewrite Hfr; cbn; auto).
    assert (free_ok p2 ((t, ls) :: rest)) as Hf2.
    { destruct Hf as [F1 F2 F3 F4 F5]. split; rewrite ?Eh2, ?Eps2; try done.
      eapply freelist_view_ext; [|exact F1]. intros g' _. apply He. }
    destruct (new_trunk_ok p2 ((t, ls) :: rest) g Hp2 Ero2 Hf2) as (p' & -> & Hp' & Hb & Hf' & Hd' & Hv); [by rewrite Eh2|done|].
    eexists p', _. split; [reflexivity|]. split; [done|]. split; [etrans; [by apply same_base_cache|done]|].
    split; [exact Hf'|]. split; [by rewrite fl_pages_cons|]. split; [by rewrite Hd', Eh2|].
    intros g' Hg'. rewrite Hv; [apply He|]. intros ->. apply Hg'. rewrite fl_pages_cons, elem_of_cons. by left.
Qed.

(** ** Runs of the allocator *)

(** A client holds the list [live] of pages it has allocated and not freed. *)
Inductive fl_step : pager * list Z -> pager * list Z -> Prop :=
| fs_alloc p live p' g :
    h_db_size (p_hdr p) + 1 < 2 ^ 31 -> tdb_pager_alloc lib alloc_ok p = (TDB_OK, p', g) ->
    fl_step (p, live) (p', g :: live)
| fs_free p live p' g :
    g ∈ live -> tdb_pager_free lib alloc_ok p g = (TDB_OK, p') -> fl_step (p, live) (p', list_unlink live g).

(** Every page after the first is live or free, and not both. *)
Definition fl_inv (s : pager * list Z) : Prop :=
  pager_ok lib alloc_ok s.1 /\ p_readonly s.1 = false
  /\ exists chain, free_ok s.1 chain /\ fl_pages chain ++ s.2 ≡ₚ seqZ 2 (h_db_size (p_hdr s.1) - 1).

Lemma fl_inv_disjoint s chain :
  fl_pages chain ++ s.2 ≡ₚ seqZ 2 (h_db_size (p_hdr s.1) - 1) ->
  (forall g : Z, g ∈ s.2 -> (g ∉ fl_pages chain) /\ 2 <= g <= h_db_size (p_hdr (F := F) s.1)) /\ NoDup s.2.
Proof.
  intros Hpart. pose proof (NoDup_seqZ 2 (h_db_size (p_hdr s.1) - 1)) as Hn. rewrite <- Hpart in Hn.
  apply NoDup_app in Hn as (_ & Hd & Hn). split; [|done]. intros g Hg. split; [intros Hf; by apply (Hd g Hf)|].
  assert (g ∈ fl_pages chain ++ s.2) as Hin by (apply elem_of_app; by right).
  rewrite Hpart in Hin. apply elem_of_seqZ in Hin. lia.
Qed.
Lemma fl_alloc_inv p live :
  fl_inv (p, live) -> h_db_size (p_hdr p) + 1 < 2 ^ 31 ->
  exists p' g, tdb_pager_alloc lib alloc_ok p = (TDB_OK, p', g) /\ fl_inv (p', g :: live) /\ (g ∉ live)
    /\ view p' g = bzero (p_page_size p) /\ (forall g', g' ∈ live -> view p' g' = view p g')
    /\ is_dirty p' g = true /\ same_base p p' /\ h_db_size (p_hdr p') <= h_db_size (p_hdr p) + 1.
Proof.
  intros (Hp & Hro & chain & Hf & Hpart) Hroom. cbn [fst snd] in *.
  destruct (fl_inv_disjoint (p, live) chain Hpart) as [Hlive Hnl]. cbn [fst snd] in Hlive, Hnl.
  destruct (alloc_ok_spec p chain Hp Hro Hf Hroom) as (p' & g & chain' & E & Hp' & Hb & Hf' & Hor & Hz & Hdir & Hv).
  pose proof (fo_size _ _ Hf) as Hsz.
  assert (p_readonly p' = false) as Hro' by (rewrite Hb; done).
  assert ((g ∉ live) /\ (forall g', g' ∈ live -> g' ∉ fl_pages chain')
          /\ fl_pages chain' ++ g :: live ≡ₚ seqZ 2 (h_db_size (p_hdr p') - 1)) as (H1 & H2 & H3).
  { destruct Hor as [(-> & -> & -> & Ed)|(Hperm & Ed)].
    - split; [intros Hg; apply Hlive in Hg as [_ Hg]; lia|]. split; [intros; by apply not_elem_of_nil|].
      rewrite Ed. cbn [fl_pages map concat app] in Hpart |- *. rewrite Hpart.
      replace (h_db_size (p_hdr p) + 1 - 1) with ((h_db_size (p_hdr p) - 1) + 1) by lia. rewrite seqZ_app by lia.
      rewrite Permutation_app_comm. cbn. replace (2 + (h_db_size (p_hdr p) - 1)) with (h_db_size (p_hdr p) + 1) by lia. done.
    - split; [intros Hg; apply Hlive in Hg as [Hg _]; apply Hg; rewrite Hperm; apply elem_of_cons; by left|].
      split; [intros g' Hg' Hin; apply Hlive in Hg' as [Hg' _]; apply Hg'; rewrite Hperm; apply elem_of_cons; by right|].
      rewrite Ed, <- Hpart, Hperm. solve_Permutation. }
  exists p', g. split; [done|]. split; [by repeat (split; [done|]); exists chain'|]. split; [done|]. split; [done|]. split.
  - intros g' Hg'. apply Hv; [intros ->; done|by apply H2].
  - split; [done|]. split; [done|]. destruct Hor as [(_ & _ & ? & ?)|(_ & ?)]; lia.
Qed.
Lemma fl_free_inv p live g :
  fl_inv (p, live) -> g ∈ live ->
  exists p', tdb_pager_free lib alloc_ok p g = (TDB_OK, p') /\ fl_inv (p', list_unlink live g)
    /\ (forall g', g' ∈ list_unlink live g -> view p' g' = view p g')
    /\ same_base p p' /\ h_db_size (p_hdr p') = h_db_size (p_hdr p).
Proof.
  intros (Hp & Hro & chain & Hf & Hpart) Hg. cbn [fst snd] in *.
  destruct (fl_inv_disjoint (p, live) chain Hpart) as [Hlive Hnl]. cbn [fst snd] in Hlive, Hnl.
  destruct (Hlive g Hg) as [Hgf Hgr].
  destruct (free_ok_spec p chain g Hp Hro Hf Hgr Hgf) as (p' & chain' & E & Hp' & Hb & Hf' & Hperm & Ed & Hv).
  pose proof (list_unlink_perm live g Hg) as Hu.
  exists p'. split; [done|]. split; [|split; [|done]].
  - split; [done|]. split; [cbn; rewrite Hb; done|]. exists chain'. cbn [fst snd]. split; [done|].
    rewrite Ed, <- Hpart, Hperm. generalize dependent (list_unlink live g). intros u Hu. rewrite Hu. solve_Permutation.
  - intros g' Hg'. apply Hv. rewrite Hperm, elem_of_cons. intros [->|Hin].
    + rewrite Hu in Hnl. apply NoDup_cons in Hnl as [Hx _]. exact (Hx Hg').
    + assert (g' ∈ live) as Hl by (rewrite Hu; apply elem_of_cons; by right). destruct (Hlive g' Hl) as [Hx _]. exact (Hx Hin).
Qed.

(** C8. The page allocator refines a partition of the page numbers into live
    and free ones.  In every state reached by allocations and by freeing live
    pages: each page number from 2 to the database size is live or free and
    not both; allocation succeeds, returns a zeroed page that is not live and
    changes no live page; freeing a live page succeeds and changes no other
    live page. *)
Theorem page_allocator_refines_partition p live p' live' :
  fl_inv (p, live) -> rtc fl_step (p, live) (p', live') ->
  fl_inv (p', live')
  /\ (h_db_size (p_hdr p') + 1 < 2 ^ 31 ->
      exists q g, tdb_pager_alloc lib alloc_ok p' = (TDB_OK, q, g) /\ (g ∉ live') /\ fl_inv (q, g :: live')
        /\ view q g = bzero (p_page_size p') /\ forall g', g' ∈ live' -> view q g' = view p' g')
  /\ (forall g, g ∈ live' ->
      exists q, tdb_pager_free lib alloc_ok p' g = (TDB_OK, q) /\ fl_inv (q, list_unlink live' g)
        /\ forall g', g' ∈ list_unlink live' g -> view q g' = view p' g').
Proof.
  intros Hi Hr. assert (fl_inv (p', live')) as Hi'.
  { revert Hi Hr. generalize (p, live) as s, (p', live') as s'. intros s s' Hi Hr.
    induction Hr as [s|s1 s2 s3 Hstep _ IH]; [done|]. apply IH. destruct Hstep as [q l q' g Hroom E|q l q' g Hg E].
    - destruct (fl_alloc_inv q l Hi Hroom) as (q2 & g2 & E2 & Hi2 & _). rewrite E in E2. by injection E2 as -> ->.
    - destruct (fl_free_inv q l g Hi Hg) as (q2 & E2 & Hi2 & _). rewrite E in E2. by injection E2 as ->. }
  split; [done|]. split.
  - intros Hroom. destruct (fl_alloc_inv p' live' Hi' Hroom) as (q & g & E & ? & ? & ? & ? & _). by exists q, g.
  - intros g Hg. destruct (fl_free_inv p' live' g Hi' Hg) as (q & E & ? & ? & _). by exists q.
Qed.
End Free.

(** ** Witness: allocate two pages of a new database and free the first *)

#[local] Instance fdemo_vfs : Vfs mem_handle := mem_vfs ok_alloc.
#[local] Instance fdemo_laws : VfsLaws mem_handle := mem_vfs_laws ok_alloc.

Lemma demo_free_ok w : free_ok None ok_alloc (demo_fresh w) [].
Proof. split; [constructor|constructor|by intros g ?%elem_of_nil|reflexivity|cbn; lia]. Qed.
Lemma demo_fl_inv w : pager_ok None ok_alloc (demo_fresh w) -> fl_inv None ok_alloc (demo_fresh w, []).
Proof.
  intros Hp. split; [exact Hp|]. split; [reflexivity|]. exists []. split; [apply demo_free_ok|reflexivity].
Qed.
Lemma page_allocator_refines_partition_witness :
  exists w p q g, rtc (fl_step None ok_alloc) (demo_fresh w, []) (p, [g; 2]) /\ g <> 2 /\ tdb_pager_free None ok_alloc p 2 = (TDB_OK, q).
Proof.
  destruct demo_fresh_ok as (w & _ & _ & Hp). pose proof (demo_fl_inv w Hp) as Hi. exists w.
  destruct (fl_alloc_inv None ok_alloc (fun _ => eq_refl) (demo_fresh w) [] Hi) as (p1 & g1 & E1 & Hi1 & _); [cbn; lia|].
  assert (g1 = 2 /\ h_db_size (p_hdr p1) = 2) as [-> Hd1].
  { destruct (alloc_ok_spec None ok_alloc (fun _ => eq_refl) (demo_fresh w) [] Hp eq_refl (demo_free_ok w) ltac:(done))
      as (p' & g & c & E & _ & _ & _ & [(_ & _ & Eg & Ed)|[Hx _]] & _); [|by apply Permutation_nil_cons in Hx].
    pose proof (eq_trans (eq_sym E1) E) as Ex. injection Ex as -> ->. rewrite Ed, Eg. done. }
  destruct (fl_alloc_inv None ok_alloc (fun _ => eq_refl) p1 [2] Hi1) as (p2 & g2 & E2 & Hi2 & Hn2 & _); [rewrite Hd1; lia|].
  assert (rtc (fl_step None ok_alloc) (demo_fresh w, []) (p2, [g2; 2])) as Hrun.
  { eapply rtc_l; [apply fs_alloc; [cbn; lia|exact E1]|]. apply rtc_once, fs_alloc; [rewrite Hd1; lia|exact E2]. }
  destruct (page_allocator_refines_partition None ok_alloc (fun _ => eq_refl) (demo_fresh w) [] p2 [g2; 2] Hi Hrun) as (_ & _ & Hfree).
  destruct (Hfree 2) as (q & E & _); [apply elem_of_cons; right; apply elem_of_cons; by left|].
  exists p2, q, g2. split; [exact Hrun|]. split; [|exact E]. intros ->. apply Hn2, elem_of_cons. by left.
Defined.
