(* ===== verification/PagerCommit.v ===== *)
(** * Transactions and savepoints of the pager

    Rollback gives back the committed pages, commit makes the pages a client
    sees the committed ones, a savepoint rollback restores the pages and the
    header of the moment it was opened.  The pager is an instance of
    [PagerTxn] and [PagerTxnLaws], the interface the transaction manager is
    proved against. *)
From Stdlib Require Import FunctionalExtensionality.
From S2P Require Import Prelude Util File Wal WalSpec Mvcc Lock Txn Pager PagerSpec.

Section Commit.
Context {F : Type} `{VfsLaws F} (lib : option zstd) (alloc_ok : Z -> bool) (Halloc : forall n, alloc_ok n = true).
Abbreviation pager := (tdb_pager F).
Abbreviation view := (page_view lib alloc_ok).
Abbreviation disk := (disk lib alloc_ok).
Abbreviation pager_ok := (pager_ok lib alloc_ok).

Lemma is_dirty_spec (p : pager) g :
  cache_wf p -> is_dirty p g = bool_decide (g ∈ dirty_pgnos p).
Proof.
  intros Hw. unfold is_dirty. destruct (bool_decide_reflect (g ∈ dirty_pgnos p)) as [Hg|Hg];
    rewrite dirty_pgnos_spec in Hg by done.
  - by destruct Hg as (pg & -> & ?).
  - destruct (cache_lookup p g) as [pg|] eqn:E; [|done]. destruct (pg_dirty pg) eqn:Ed; [|done]. naive_solver.
Qed.
Lemma dirty_pass (p : pager) phi :
  cache_wf p -> (forall g f pg, phi g = Some f -> pg_pgno (f pg) = pg_pgno pg) ->
  let p' := cache_pass phi p (dirty_pgnos p) in
  cache_wf p' /\ p' = pset_cache p (p_buckets p') (p_ncached p') (p_lru p')
  /\ forall g, cache_lookup p' g
       = if is_dirty p g then match phi g with Some f => f <$> cache_lookup p g | None => None end
         else cache_lookup p g.
Proof.
  intros Hw Hphi. destruct (cache_pass_ok phi (dirty_pgnos p) p Hw) as (H1 & H2 & H3); [by apply dirty_pgnos_nodup| |done|].
  - intros g Hg. apply dirty_pgnos_spec in Hg as (pg & -> & _); [|done]. by exists pg.
  - split; [done|]. split; [done|]. intros g. by rewrite H3, is_dirty_spec.
Qed.

(** ** Rollback *)

Lemma rollback_ok p :
  pager_ok p ->
  exists p', tdb_pager_rollback lib alloc_ok p = (TDB_OK, p') /\ pager_ok p'
    /\ (forall g, view p' g = disk p g) /\ (forall g, disk p' g = disk p g) /\ (forall g, is_dirty p' g = false)
    /\ p_hdr p' = (if has_magic (disk p TDB_CATALOG_PGNO) then hdr_parse (disk p TDB_CATALOG_PGNO) else p_hdr p)
    /\ p_hdr_dirty p' = false /\ p_in_txn p' = false /\ p_sps p' = []
    /\ p_file p' = p_file p /\ p_wal p' = p_wal p /\ p_readonly p' = p_readonly p /\ p_page_size p' = p_page_size p.
Proof.
  intros Hp. pose proof (po_cache _ _ _ Hp) as Hw. unfold tdb_pager_rollback.
  rewrite (fold_pass (fun _ => None)) by done. fold (dirty_pgnos p).
  destruct (dirty_pass p (fun _ => None) Hw) as (Hw1 & Hf1 & Hl1); [done|].
  set (p1 := cache_pass _ _ _) in *. rewrite Halloc.
  assert (pager_ok p1 /\ (forall g, view p1 g = disk p g) /\ (forall g, is_dirty p1 g = false)) as (Hp1 & Hv & Hd).
  { split; [split; [done|rewrite Hf1; apply Hp|]|split].
    - intros g pg. rewrite Hl1, Hf1. destruct (is_dirty p g); [done|]. apply (po_page _ _ _ Hp).
    - intros g. unfold page_view. rewrite Hl1. destruct (is_dirty p g) eqn:E; [by rewrite Hf1|].
      rewrite <- (clean_view lib alloc_ok p g Hp E). unfold page_view. destruct (cache_lookup p g); [done|]. by rewrite Hf1.
    - intros g. unfold is_dirty at 1. rewrite Hl1. destruct (is_dirty p g) eqn:E; [done|].
      unfold is_dirty in E. by destruct (cache_lookup p g). }
  assert (forall g, read_page_image lib alloc_ok p1 g = read_page_image lib alloc_ok p g) as Hr by (intros; by rewrite Hf1).
  rewrite Hr. destruct (read_image_ok lib alloc_ok Halloc p TDB_CATALOG_PGNO (po_store _ _ _ Hp)) as [-> _]; [done|].
  eexists. split; [reflexivity|].
  assert (p_hdr p1 = p_hdr p) as Eh by (by rewrite Hf1).
  set (p2 := if has_magic _ then _ else _).
  assert (p2 = pset_hdr p1 (p_hdr p2) (p_hdr_dirty p1)) as Hf2 by (unfold p2; destruct (has_magic _); [done|by destruct p1]).
  assert (p_hdr p2 = if has_magic (disk p TDB_CATALOG_PGNO) then hdr_parse (disk p TDB_CATALOG_PGNO) else p_hdr p) as Eh2
    by (unfold p2; destruct (has_magic _); [done|exact Eh]).
  clearbody p2. split.
  { destruct Hp1 as [[C1 C2 C3 C4 C5] S1 P1]. rewrite Hf2. split; [split|..]; done. }
  split; [intros g; rewrite <- Hv, Hf2; done|].
  split; [intros g; rewrite Hf2, Hf1; done|]. split; [intros g; rewrite <- (Hd g), Hf2; done|].
  split; [exact Eh2|]. rewrite Hf2, Hf1. done.
Qed.

(** ** Savepoints *)

Lemma bucket_find_filter (l : list tdb_page) g :
  NoDup (pg_pgno <$> l) ->
  bucket_find (filter pg_dirty l) g
  = if match bucket_find l g with Some pg => pg_dirty pg | None => false end then bucket_find l g else None.
Proof.
  induction l as [|x l IH]; [done|]. rewrite fmap_cons, NoDup_cons. intros [Hx Hn]. specialize (IH Hn).
  rewrite filter_cons. destruct (decide (pg_dirty x)) as [Hd|Hd]; cbn [bucket_find]; destruct (Z.eqb_spec (pg_pgno x) g) as [E|]; try done.
  - by destruct (pg_dirty x).
  - rewrite IH. assert (bucket_find l g = None) as -> by (apply bucket_find_none; by rewrite <- E).
    destruct (pg_dirty x); [by exfalso; apply Hd|done].
Qed.
Lemma img_find_map (p : pager) g :
  cache_wf p ->
  img_find (map (fun pg => (pg_pgno pg, pg_data pg)) (filter pg_dirty (cache_pages p))) g
  = if is_dirty p g then pg_data <$> cache_lookup p g else None.
Proof.
  intros Hw. assert (forall l, img_find (map (fun pg => (pg_pgno pg, pg_data pg)) l) g = pg_data <$> bucket_find l g) as E.
  { induction l as [|x l IH]; [done|]. cbn [map img_find bucket_find]. by destruct (_ =? _). }
  rewrite E, bucket_find_filter by apply Hw. unfold is_dirty. rewrite !cache_lookup_find by done.
  destruct (bucket_find (cache_pages p) g) as [pg|]; [by destruct (pg_dirty pg)|done].
Qed.

(** The contents a savepoint stands for. *)
Definition sp_view (p : pager) (sp : pager_sp) : tdb_dbhdr * (Z -> list Z) :=
  (sp_hdr sp, fun g => match img_find (sp_imgs sp) g with Some d => d | None => disk p g end).
(** Images are whole pages, and the pages they replace are still dirty; an
    inner savepoint has an image of every page an outer one has. *)
Definition sp_ok (p : pager) (sp : pager_sp) : Prop :=
  forall g d, img_find (sp_imgs sp) g = Some d -> is_dirty p g = true /\ blen d = p_page_size p.
Definition sp_nested (sps : list pager_sp) : Prop :=
  forall i j a b g, (i <= j)%nat -> sps !! i = Some a -> sps !! j = Some b ->
    is_Some (img_find (sp_imgs a) g) -> is_Some (img_find (sp_imgs b) g).
Definition pager_txn_ok (p : pager) : Prop :=
  pager_ok p /\ (length (dirty_pgnos p) <= dirty_cap)%nat
  /\ Forall (sp_ok p) (p_sps p) /\ sp_nested (p_sps p).

Definition pager_view (p : pager) : tdb_dbhdr * (Z -> list Z) := (p_hdr p, view p).
Definition pager_saved (p : pager) : list (tdb_dbhdr * (Z -> list Z)) := map (sp_view p) (p_sps p).

Lemma savepoint_ok p :
  pager_txn_ok p ->
  tdb_pager_savepoint p = (-1, p)
  \/ ((tdb_pager_savepoint p).1 = Z.of_nat (length (pager_saved p))
      /\ pager_saved (tdb_pager_savepoint p).2 = pager_saved p ++ [pager_view p]
      /\ pager_view (tdb_pager_savepoint p).2 = pager_view p /\ pager_txn_ok (tdb_pager_savepoint p).2).
Proof.
  intros (Hp & Hd & Hs & Hn). pose proof (po_cache _ _ _ Hp) as Hw. unfold tdb_pager_savepoint.
  destruct (p_readonly p); [by left|]. right. cbn [fst snd]. set (sp := mk_sp _ _).
  assert (forall g, img_find (sp_imgs sp) g = if is_dirty p g then pg_data <$> cache_lookup p g else None) as Hi
    by (intros; by apply img_find_map).
  unfold pager_saved. rewrite length_map. split; [done|]. split; [|split; [done|]].
  - cbn [p_sps pset_txn]. rewrite map_app. f_equal. cbn [map]. f_equal. unfold pager_view, sp_view. f_equal.
    apply functional_extensionality. intros g. rewrite Hi. destruct (is_dirty p g) eqn:E.
    + unfold is_dirty in E. unfold page_view. by destruct (cache_lookup p g).
    + exact (eq_sym (clean_view lib alloc_ok p g Hp E)).
  - split; [destruct Hp as [[C1 C2 C3 C4 C5] S1 P1]; split; [split|..]; done|]. split; [done|].
    cbn [p_sps pset_txn]. split.
    + apply Forall_app. split; [exact Hs|]. constructor; [|constructor]. intros g d. rewrite Hi.
      change (is_dirty (pset_txn p (p_in_txn p) (p_sps p ++ [sp])) g) with (is_dirty p g).
      destruct (is_dirty p g); [|done]. destruct (cache_lookup p g) as [pg|] eqn:E; [|done]. intros [= <-].
      split; [done|]. by destruct (po_page _ _ _ Hp g pg E) as (_ & ? & _).
    + intros i j a b g Hij Ha Hb Hg. apply lookup_app_Some in Hb as [Hb|[Hb1 Hb]].
      * rewrite lookup_app_l in Ha by (apply lookup_lt_Some in Hb; lia). by eapply Hn.
      * apply list_lookup_singleton_Some in Hb as [Hb2 <-]. apply lookup_app_Some in Ha as [Ha|[_ Ha]].
        -- destruct Hg as [d Hg]. rewrite Forall_forall in Hs. assert (a ∈ p_sps p) as Hin by (by eapply list_elem_of_lookup_2).
           destruct (Hs a Hin g d Hg) as [Hdg _]. rewrite Hi, Hdg. unfold is_dirty in Hdg. destruct (cache_lookup p g); [by eexists|done].
        -- by apply list_lookup_singleton_Some in Ha as [_ <-].
Qed.
Lemma release_ok p level :
  pager_txn_ok p -> 0 <= level < Z.of_nat (length (pager_saved p)) ->
  (tdb_pager_savepoint_release p level).1 = TDB_OK
  /\ pager_saved (tdb_pager_savepoint_release p level).2 = take (Z.to_nat level) (pager_saved p)
  /\ pager_view (tdb_pager_savepoint_release p level).2 = pager_view p
  /\ pager_txn_ok (tdb_pager_savepoint_release p level).2.
Proof.
  intros (Hp & Hd & Hs & Hn) Hl. unfold pager_saved in Hl. rewrite length_map in Hl. unfold tdb_pager_savepoint_release.
  destruct (Z.ltb_spec level 0); [lia|]. destruct (Z.leb_spec (Z.of_nat (length (p_sps p))) level); [lia|]. cbn [orb fst snd].
  split; [done|]. split; [unfold pager_saved; cbn [p_sps pset_txn]; by rewrite firstn_map|]. split; [done|].
  split; [destruct Hp as [[C1 C2 C3 C4 C5] S1 P1]; split; [split|..]; done|]. split; [done|]. cbn [p_sps pset_txn]. split.
  - exact (Forall_take _ _ _ Hs).
  - intros i j a b g Hij Ha Hb. apply lookup_take_Some in Ha as [Ha _], Hb as [Hb _]. by eapply Hn.
Qed.
Lemma rollback_to_ok p level v :
  pager_txn_ok p -> 0 <= level -> pager_saved p !! Z.to_nat level = Some v ->
  (tdb_pager_savepoint_rollback p level).1 = TDB_OK
  /\ pager_saved (tdb_pager_savepoint_rollback p level).2 = take (S (Z.to_nat level)) (pager_saved p)
  /\ pager_view (tdb_pager_savepoint_rollback p level).2 = v
  /\ pager_txn_ok (tdb_pager_savepoint_rollback p level).2.
Proof.
  intros (Hp & Hd & Hs & Hn) Hl Hv. pose proof (po_cache _ _ _ Hp) as Hw. unfold pager_saved in Hv.
  rewrite list_lookup_fmap in Hv. destruct (p_sps p !! Z.to_nat level) as [sp|] eqn:Esp; [|done]. cbn in Hv. injection Hv as <-.
  pose proof (lookup_lt_Some _ _ _ Esp) as Hlt. unfold tdb_pager_savepoint_rollback.
  destruct (Z.ltb_spec level 0); [lia|]. destruct (Z.leb_spec (Z.of_nat (length (p_sps p))) level); [lia|]. cbn [orb].
  set (sps := take (S (Z.to_nat level)) (p_sps p)). cbn [p_sps pset_txn].
  assert (sps !! Z.to_nat level = Some sp) as Esp' by (unfold sps; by rewrite lookup_take_lt by lia).
  assert (nth (Z.to_nat level) sps (mk_sp (p_hdr (pset_txn p (p_in_txn p) sps)) []) = sp) as -> by (by rewrite nth_lookup, Esp').
  set (p0 := pset_txn p (p_in_txn p) sps). cbn [fst snd].
  assert (cache_wf p0) as Hw0 by (by destruct Hw as [C1 C2 C3 C4 C5]; split).
  set (phi := fun g => (fun d pg => mk_page (pg_pgno pg) d (pg_dirty pg) (pg_refs pg)) <$> img_find (sp_imgs sp) g).
  rewrite (fold_pass phi) by (intros q pg; unfold phi, page_set; by destruct (img_find _ _)).
  assert (pg_pgno <$> collect_dirty p0 = dirty_pgnos p0) as ->.
  { unfold collect_dirty. rewrite take_ge; [done|]. unfold dirty_pgnos in Hd. by rewrite length_fmap in Hd. }
  destruct (dirty_pass p0 phi Hw0) as (Hw1 & Hf1 & Hl1).
  { intros g f pg. unfold phi. destruct (img_find _ _); [|done]. by intros [= <-]. }
  set (p1 := cache_pass _ _ _) in *. rewrite Forall_forall in Hs.
  assert (forall s g d, s ∈ p_sps p -> img_find (sp_imgs s) g = Some d -> is_dirty p g = true /\ blen d = p_page_size p) as Hs' by (intros s g d Hin; by apply Hs).
  assert (sp ∈ p_sps p) as Hsp by (by eapply list_elem_of_lookup_2).
  assert (forall g, is_dirty p1 g = match img_find (sp_imgs sp) g with Some _ => true | None => false end) as Hdirty.
  { intros g. unfold is_dirty at 1. rewrite Hl1. unfold phi. change (is_dirty p0 g) with (is_dirty p g). change (cache_lookup p0 g) with (cache_lookup p g).
    destruct (img_find (sp_imgs sp) g) as [d|] eqn:Ei.
    - destruct (Hs' sp g d Hsp Ei) as [Hdg _]. rewrite Hdg. unfold is_dirty in Hdg. cbn. by destruct (cache_lookup p g).
    - destruct (is_dirty p g) eqn:Ed; [done|]. unfold is_dirty in Ed. by destruct (cache_lookup p g). }
  assert (forall g, disk p1 g = disk p g) as Hdisk by (intros; by rewrite Hf1).
  assert (forall g, view p1 g = match img_find (sp_imgs sp) g with Some d => d | None => disk p g end) as Hview.
  { intros g. unfold page_view. rewrite Hl1, Hdisk. unfold phi. change (is_dirty p0 g) with (is_dirty p g). change (cache_lookup p0 g) with (cache_lookup p g).
    destruct (img_find (sp_imgs sp) g) as [d|] eqn:Ei.
    - destruct (Hs' sp g d Hsp Ei) as [Hdg _]. rewrite Hdg. unfold is_dirty in Hdg. cbn. by destruct (cache_lookup p g).
    - destruct (is_dirty p g) eqn:Ed; [done|]. pose proof (clean_view lib alloc_ok p g Hp Ed) as Hc. unfold page_view in Hc.
      by destruct (cache_lookup p g). }
  assert (p_sps p1 = sps) as Esps by (by rewrite Hf1).
  assert (pager_ok p1) as Hp1.
  { split; [done|rewrite Hf1; apply Hp|]. intros g pg. rewrite Hl1, Hf1. change (is_dirty p0 g) with (is_dirty p g).
    change (cache_lookup p0 g) with (cache_lookup p g). unfold phi. destruct (is_dirty p g) eqn:Ed; [|apply (po_page _ _ _ Hp)].
    destruct (img_find (sp_imgs sp) g) as [d|] eqn:Ei; [|done]. cbn. destruct (cache_lookup p g) as [pg0|] eqn:E; [|done].
    intros [= <-]. destruct (po_page _ _ _ Hp g pg0 E) as (? & ? & ? & _). cbn. destruct (Hs' sp g d Hsp Ei) as [_ ?].
    unfold is_dirty in Ed. rewrite E in Ed. rewrite Ed. done. }
  split; [done|]. split; [|split].
  - unfold pager_saved. cbn [p_sps pset_hdr]. rewrite Esps. unfold sps. rewrite firstn_map. apply map_ext. intros s.
    unfold sp_view. f_equal. apply functional_extensionality. intros g. by rewrite <- Hdisk.
  - unfold pager_view, sp_view. cbn [p_hdr pset_hdr]. f_equal. apply functional_extensionality. intros g. apply Hview.
  - split; [by apply pager_ok_hdr|]. split.
    { change (dirty_pgnos (pset_hdr p1 (sp_hdr sp) true)) with (dirty_pgnos p1). etrans; [|exact Hd]. apply submseteq_length, NoDup_submseteq; [by apply dirty_pgnos_nodup|].
      intros g Hg. assert (is_dirty p1 g = true) as Hdg by (rewrite is_dirty_spec by done; by apply bool_decide_eq_true_2).
      rewrite Hdirty in Hdg. destruct (img_find (sp_imgs sp) g) as [d|] eqn:Ei; [|done].
      destruct (Hs' sp g d Hsp Ei) as [Hdg' _]. rewrite is_dirty_spec in Hdg' by done. by apply bool_decide_eq_true in Hdg'. }
    cbn [p_sps pset_hdr]. rewrite Esps. split.
    + apply Forall_forall. intros s Hin g d Hg. change (is_dirty (pset_hdr p1 (sp_hdr sp) true) g) with (is_dirty p1 g).
      apply list_elem_of_lookup_1 in Hin as [i Hi]. unfold sps in Hi. apply lookup_take_Some in Hi as [Hi Hi'].
      destruct (Hn i (Z.to_nat level) s sp g ltac:(lia) Hi Esp) as [d' Hd']; [by exists d|]. rewrite Hdirty, Hd'. split; [done|].
      cbn [pset_hdr p_page_size]. rewrite Hf1. apply (Hs' s g d); [by eapply list_elem_of_lookup_2|done].
    + intros i j a b g Hij Ha Hb. unfold sps in Ha, Hb. apply lookup_take_Some in Ha as [Ha _], Hb as [Hb _]. by eapply Hn.
Qed.

(** ** Commit *)

Lemma flush_ok p :
  pager_ok p ->
  exists p', flush_header lib alloc_ok p = (TDB_OK, p') /\ pager_ok p' /\ same_base p p'
    /\ p_hdr p' = hset_change (p_hdr p) (u32 (h_change_counter (p_hdr p) + 1)) /\ p_hdr_dirty p' = false
    /\ (forall g, view p' g = if g =? 1 then hdr_serialize (p_hdr p') (view p 1) else view p g)
    /\ (forall g, is_dirty p' g = if g =? 1 then true else is_dirty p g).
Proof.
  intros Hp. assert (is_pgno 1) as Hg by done. pose proof (store_ps _ _ (po_store _ _ _ Hp)) as Hps.
  destruct (get_ok lib alloc_ok Halloc p 1 Hp Hg) as (p1 & E & Hp1 & He1 & pg & Hlk & Hd & _ & Hr).
  assert (p_page_size p1 = p_page_size p /\ p_hdr p1 = p_hdr p) as (Eps & Eh) by (rewrite (ce_frame _ _ _ _ He1); cbn; auto).
  unfold flush_header. change TDB_CATALOG_PGNO with 1. rewrite E, Eh. set (h := hset_change _ _).
  unfold tdb_pager_unref. rewrite page_update_fuse by (done || apply Hp1).
  pose proof (view_len lib alloc_ok Halloc p 1 Hp Hg) as Hvl.
  assert (page_mod lib alloc_ok p1 (page_update p1 1 (fun x =>
     let y := mk_page (pg_pgno x) (hdr_serialize h (pg_data x)) true (pg_refs x) in
     if 0 <? pg_refs y then set_refs (pg_refs y - 1) y else y)) 1 (hdr_serialize h (view p 1))) as [M1 M2 M3 M4].
  { eapply modify_ok; try done.
    - intros x. cbn. by destruct (0 <? pg_refs x).
    - cbn. rewrite <- Hd. by destruct (0 <? pg_refs pg).
    - cbn. by destruct (0 <? pg_refs pg).
    - cbn. destruct (Z.ltb_spec 0 (pg_refs pg)); cbn; lia.
    - rewrite hdr_serialize_len; lia. }
  cbv zeta in M1, M2, M3, M4. eexists. split; [reflexivity|]. split; [by apply pager_ok_hdr|].
  split; [etrans; [apply same_base_cache, He1|]; etrans; [apply same_base_cache, M1|apply same_base_hdr]|].
  split; [done|]. split; [done|]. split.
  - intros g. rewrite view_hdr, M3, (ce_view _ _ _ _ He1). done.
  - intros g. etrans; [apply (M4 g)|]. rewrite (ce_dirty _ _ _ _ He1). done.
Qed.

Fixpoint commit_frames (l : list tdb_page) (db_size : Z) : list frame :=
  match l with
  | [] => []
  | pg :: l => mk_frame (pg_pgno pg) (match l with [] => db_size | _ => 0 end) (pg_data pg) :: commit_frames l db_size
  end.
Lemma append_dirty_ok w fs l db :
  wal_rep lib w fs -> codec_sound lib -> 0 < db < 2 ^ 32 ->
  (forall pg, pg ∈ l -> 0 <= pg_pgno pg < 2 ^ 31 /\ blen (pg_data pg) = w_page_size w) ->
  w_end_off w + Z.of_nat (length l) * (29 + w_page_size w) < 2 ^ 62 ->
  exists w', append_dirty lib alloc_ok w l db = (TDB_OK, w') /\ wal_rep lib w' (fs ++ commit_frames l db)
    /\ w_page_size w' = w_page_size w.
Proof.
  revert w fs. induction l as [|pg l IH]; intros w fs Hr Hc Hdb Hpg Hend; cbn [append_dirty commit_frames].
  { exists w. by rewrite app_nil_r. }
  assert (wal_params w) as Hwp by apply Hr. pose proof (wp_ps _ Hwp) as Hps. cbn [length] in Hend.
  destruct (Hpg pg) as [Hp1 Hp2]; [apply elem_of_cons; by left|].
  set (ic := match l with [] => true | _ => false end).
  destruct (wal_append_log lib alloc_ok Halloc w fs (pg_pgno pg) (pg_data pg) ic (if ic then db else 0)) as (w' & E & Hr' & _ & Hps' & Hend' & _); [done|done| |intros E1; rewrite E1; lia|nia|].
  { split; [done|]. split; [|done]. cbn [fr_dbsize]. destruct ic; lia. }
  rewrite E. destruct (IH w' (fs ++ [mk_frame (pg_pgno pg) (if ic then if ic then db else 0 else 0) (pg_data pg)]) Hr' Hc Hdb) as (w2 & E2 & Hr2 & Hps2).
  - intros x Hx. rewrite Hps'. apply Hpg, elem_of_cons. by right.
  - rewrite Hps'. nia.
  - exists w2. split; [done|]. split; [|congruence]. rewrite <- app_assoc in Hr2. cbn [app] in Hr2.
    replace (if ic then if ic then db else 0 else 0) with (match l with [] => db | _ => 0 end) in Hr2 by (unfold ic; by destruct l). done.
Qed.
Lemma latest_app fs gs g acc : latest (fs ++ gs) g acc = latest gs g (latest fs g acc).
Proof. revert acc. induction fs as [|f fs IH]; intros acc; [done|]. apply IH. Qed.
Lemma latest_commit l db g acc :
  NoDup (pg_pgno <$> l) ->
  latest (commit_frames l db) g acc = match bucket_find l g with Some pg => Some (pg_data pg) | None => acc end.
Proof.
  revert acc. induction l as [|pg l IH]; intros acc Hn; [done|]. rewrite fmap_cons, NoDup_cons in Hn. destruct Hn as [Hx Hn].
  cbn [commit_frames latest fr_pgno fr_page bucket_find]. rewrite IH by done. destruct (Z.eqb_spec (pg_pgno pg) g) as [<-|]; [|done].
  assert (bucket_find l (pg_pgno pg) = None) as -> by (by apply bucket_find_none). done.
Qed.
Lemma wal_sync_rep w fs :
  wal_rep lib w fs -> exists w', tdb_wal_sync w = (TDB_OK, w') /\ wal_rep lib w' fs /\ w_page_size w' = w_page_size w.
Proof.
  intros (H1 & H2 & H3 & H4 & bs & tail & s & H5 & H6 & H7 & H8). unfold tdb_wal_sync.
  destruct (good_sync (w_file w) H2) as (f & -> & Hg & Hc). eexists. split; [reflexivity|]. split; [|done].
  split; [by destruct H1; split|]. split; [done|]. split; [done|]. split; [done|].
  exists bs, tail, s. split; [by apply (log_enc_params lib w)|]. split; [done|]. split; [done|]. cbn [wset_file w_file]. by rewrite Hc, H8.
Qed.

(** A page with a frame in the log. *)
Definition in_log (p : pager) (g : Z) : bool :=
  match (tdb_wal_read_page lib alloc_ok (p_wal p) g).2 with Some _ => true | None => false end.
(** The pages of the log and the dirty ones extend the main file without a
    gap. *)
Definition no_gaps (p : pager) : Prop :=
  in_log p 0 = false
  /\ forall g, 1 < g -> is_pgno g -> in_log p g || is_dirty p g = true ->
     (g - 1) * p_page_size p <= blen (vfs_contents (p_file p)) \/ in_log p (g - 1) || is_dirty p (g - 1) || (g - 1 =? 1) = true.

Lemma in_log_latest p fs g :
  wal_rep lib (p_wal p) fs -> 0 <= g -> in_log p g = match latest fs g None with Some _ => true | None => false end.
Proof. intros Hr Hg. unfold in_log. by rewrite (wal_read_log lib alloc_ok Halloc _ fs). Qed.
Lemma disk_latest p fs g :
  wal_rep lib (p_wal p) fs -> vfs_good (p_file p) -> 0 < p_page_size p -> is_pgno g ->
  disk p g = match latest fs g None with Some d => d | None => file_page (p_page_size p) (vfs_contents (p_file p)) g end.
Proof.
  exact (disk_stored lib alloc_ok Halloc p fs g).
Qed.
Lemma frame_pgno_lt w fs g d : wal_rep lib w fs -> latest fs g None = Some d -> g < 2 ^ 31.
Proof.
  intros (_ & _ & _ & _ & bs & tail & s & Hl & _) Hg. destruct (last_idx_latest fs g) as [[_ E]|(i & f & _ & Hf & <- & _)]; [congruence|].
  pose proof (log_enc_length _ _ _ _ _ _ Hl) as Hlen. destruct (lookup_lt_is_Some_2 bs i) as [b Hb]; [apply lookup_lt_Some in Hf; lia|].
  destruct (log_enc_lookup _ _ _ _ _ _ _ _ _ Hl Hf Hb) as ((? & _) & _). lia.
Qed.

(** A log folded into the main file: nothing but its header is left. *)
Definition log_folded (p : pager) : Prop :=
  wal_rep lib (p_wal p) [] /\ vfs_contents (w_file (p_wal p)) = wal_header (p_wal p)
  /\ p_page_size p <= blen (vfs_contents (p_file p)).
Lemma checkpoint_ok p :
  pager_ok p -> p_readonly p = false -> no_gaps p -> (forall g, is_dirty p g = false) -> in_log p 1 = true ->
  exists f w, tdb_pager_checkpoint lib alloc_ok p = (TDB_OK, pset_store p f w) /\ log_folded (pset_store p f w)
    /\ pager_ok (pset_store p f w) /\ forall g, is_pgno g -> disk (pset_store p f w) g = disk p g.
Proof.
  intros Hp Hro [Hz Hgap] Hclean H1. pose proof (po_store _ _ _ Hp) as ((fs & Hr) & Hg & Eps & Hmin).
  assert (latest fs 1 None <> None) as Hl1 by (rewrite (in_log_latest p fs 1 Hr) in H1 by lia; by destruct (latest fs 1 None)).
  unfold tdb_pager_checkpoint, tdb_wal_frame_count. rewrite Hro. destruct (Z.eqb_spec (w_nframe (p_wal p)) 0) as [Hn0|_].
  { exfalso. destruct Hr as (_ & _ & _ & Hn & _). destruct fs; [by apply Hl1|cbn in Hn; lia]. }
  destruct (wal_checkpoint_log lib alloc_ok Halloc (p_wal p) fs (p_file p)) as (w & f & E & Hr' & Hg' & Hps' & _ & Hin & Hcw & Hq); [done|done| |].
  { intros q Hq0 Hq. rewrite Eps. destruct (latest fs q None) as [d|] eqn:El; [|done]. pose proof (frame_pgno_lt _ _ _ _ Hr El).
    assert (q <> 0) by (intros ->; rewrite (in_log_latest p fs 0 Hr), El in Hz; done). split; [lia|].
    destruct (Z.eq_dec q 1) as [->|]; [left; cbn; apply blen_nonneg|].
    destruct (Hgap q) as [?|Hx]; [lia|unfold is_pgno; lia|rewrite (in_log_latest p fs), El by (done || lia); done|by left|]. right.
    assert (in_log p (q - 1) = true) as Hin.
    { rewrite Hclean, orb_false_r in Hx. apply orb_true_iff in Hx as [?|Hx]; [done|]. apply Z.eqb_eq in Hx. by rewrite Hx. }
    rewrite (in_log_latest p fs) in Hin by (done || lia). by destruct (latest fs (q - 1) None). }
  rewrite E. exists f, w. split; [done|]. rewrite Eps in Hps', Hq, Hin.
  split; [split; [done|split; [done|specialize (Hin 1 ltac:(lia) Hl1); cbn; lia]]|].
  assert (forall g, is_pgno g -> disk (pset_store p f w) g = disk p g) as Hdisk.
  { assert (0 < p_page_size p) as Hp0 by lia. intros g Hg0.
    rewrite (disk_latest (pset_store p f w) [] g), (disk_latest p fs g) by done. cbn [latest].
    change (p_page_size (pset_store p f w)) with (p_page_size p). apply Hq. unfold is_pgno in Hg0. lia. }
  split; [|done]. split; [by destruct (po_cache _ _ _ Hp); split|split; [by exists []|done]|].
  intros g pg Hl. destruct (po_page _ _ _ Hp g pg Hl) as (P1 & P2 & P3 & P4). rewrite (Hdisk g P1). done.
Qed.

(** Marking the logged pages clean: the committed content becomes the content
    seen before. *)
Lemma mark_clean_ok p fs w db :
  pager_ok p -> wal_rep lib (p_wal p) fs ->
  wal_rep lib w (fs ++ commit_frames (filter pg_dirty (cache_pages p)) db) -> w_page_size w = p_page_size p ->
  let p' := cache_pass (fun _ => Some (set_dirty false)) (pset_store p (p_file p) w) (dirty_pgnos p) in
  pager_ok p' /\ p' = pset_cache (pset_store p (p_file p) w) (p_buckets p') (p_ncached p') (p_lru p')
  /\ (forall g, is_pgno g -> disk p' g = view p g) /\ (forall g, is_dirty p' g = false)
  /\ (forall g, 0 <= g -> in_log p' g = in_log p g || is_dirty p g).
Proof.
  intros Hp Hr Hr2 Hwps. pose proof (po_cache _ _ _ Hp) as Hw. pose proof (po_store _ _ _ Hp) as (_ & Hg & _ & Hmin).
  set (l := filter pg_dirty (cache_pages p)) in *. set (p2 := pset_store p (p_file p) w).
  assert (cache_wf p2) as Hw2 by (by destruct Hw; split).
  assert (NoDup (pg_pgno <$> l)) as Hnd by exact (dirty_pgnos_nodup p Hw).
  change (dirty_pgnos p) with (dirty_pgnos p2).
  destruct (dirty_pass p2 (fun _ => Some (set_dirty false)) Hw2) as (Hw3 & Hf3 & Hl3); [by intros g f pg [= <-]|].
  set (p3 := cache_pass _ _ _) in *.
  assert (forall g, bucket_find l g = if is_dirty p g then cache_lookup p g else None) as Hbf.
  { intros g. unfold l. rewrite cache_lookup_find by done. unfold is_dirty. rewrite cache_lookup_find by done.
    apply bucket_find_filter, Hw. }
  assert (forall g, 0 <= g -> latest (fs ++ commit_frames l db) g None
    = if is_dirty p g then pg_data <$> cache_lookup p g else latest fs g None) as Hlat.
  { intros g _. rewrite latest_app, latest_commit, Hbf by done. unfold is_dirty. destruct (cache_lookup p g) as [pg|]; [|done]. by destruct (pg_dirty pg). }
  assert (forall g, is_pgno g -> disk p3 g = view p g) as Hdisk.
  { intros g Hpg. unfold is_pgno in Hpg.
    rewrite (disk_latest p3 (fs ++ commit_frames l db) g); [|rewrite Hf3; done|rewrite Hf3; done|rewrite Hf3; cbn; lia|done].
    rewrite Hlat by lia. destruct (is_dirty p g) eqn:Edg.
    - unfold is_dirty in Edg. unfold page_view. by destruct (cache_lookup p g).
    - rewrite (clean_view lib alloc_ok p g Hp Edg), (disk_latest p fs g); [by rewrite Hf3|done|done|lia|done]. }
  assert (forall g, is_dirty p3 g = false) as Hclean.
  { intros g. unfold is_dirty. rewrite Hl3. destruct (is_dirty p2 g) eqn:Edg.
    - by destruct (cache_lookup p2 g).
    - unfold is_dirty in Edg. by destruct (cache_lookup p2 g). }
  split; [|split; [done|split; [done|split; [done|]]]].
  - split; [done|rewrite Hf3; split; [by eexists|done]|].
    intros g pg. rewrite Hl3. change (cache_lookup p2 g) with (cache_lookup p g). change (is_dirty p2 g) with (is_dirty p g).
    destruct (cache_lookup p g) as [pg0|] eqn:El0; [|by destruct (is_dirty p g)].
    intros Ex. assert (pg_data pg = pg_data pg0 /\ pg_refs pg = pg_refs pg0) as [E1 E2] by (destruct (is_dirty p g); by injection Ex as <-).
    destruct (po_page _ _ _ Hp g pg0 El0) as (P1 & P2 & P3 & _). rewrite E1, E2, Hdisk by done. split; [done|].
    split; [by rewrite Hf3|]. split; [done|]. intros _. unfold page_view. by rewrite El0.
  - intros g Hg0. rewrite (in_log_latest p3 (fs ++ commit_frames l db)) by first [assumption|rewrite Hf3; exact Hr2].
    rewrite (in_log_latest p fs), Hlat by done. unfold is_dirty. destruct (cache_lookup p g) as [pg|]; [|by rewrite orb_false_r].
    destruct (pg_dirty pg); [by rewrite orb_true_r|by rewrite orb_false_r].
Qed.
(** The header flush adds at most page 1 to the dirty pages. *)
Lemma flush_dirty_count (p p1 : pager) :
  cache_wf p -> cache_wf p1 -> (forall g, is_dirty p1 g = if g =? 1 then true else is_dirty p g) ->
  (length (filter pg_dirty (cache_pages p1)) <= S (length (dirty_pgnos p)))%nat.
Proof.
  intros Hw Hw1 Hd. assert (dirty_pgnos p1 ⊆+ 1 :: dirty_pgnos p) as Hs.
  { apply NoDup_submseteq; [by apply dirty_pgnos_nodup|]. intros g Hg. apply elem_of_cons.
    assert (is_dirty p1 g = true) as Hx by (rewrite is_dirty_spec by done; by apply bool_decide_eq_true_2).
    rewrite Hd in Hx. destruct (Z.eqb_spec g 1); [by left|right]. rewrite is_dirty_spec in Hx by done. by apply bool_decide_eq_true in Hx. }
  apply submseteq_length in Hs. unfold dirty_pgnos in Hs at 1. by rewrite length_fmap in Hs.
Qed.
Definition log_settled (p : pager) : Prop := (in_log p 1 = true /\ no_gaps p) \/ log_folded p.
(** The end of a commit, with or without the automatic checkpoint. *)
Lemma commit_done_ok p :
  pager_ok p -> p_readonly p = false -> no_gaps p -> (forall g, is_dirty p g = false) -> in_log p 1 = true ->
  exists p', commit_done lib alloc_ok p = (TDB_OK, p') /\ pager_ok p' /\ log_settled p' /\ p_hdr p' = p_hdr p
    /\ (forall g, is_pgno g -> disk p' g = disk p g) /\ (forall g, is_dirty p' g = false)
    /\ p_hdr_dirty p' = p_hdr_dirty p /\ p_in_txn p' = false /\ p_sps p' = []
    /\ p_page_size p' = p_page_size p /\ p_readonly p' = false.
Proof.
  intros Hp Hro Hgap Hd H1. unfold commit_done. set (p4 := sp_clear_all _).
  assert (pager_ok p4) as Hp4 by (destruct Hp as [[C1 C2 C3 C4 C5] S1 P1]; split; [split|..]; done).
  destruct (1000 <? _).
  - destruct (checkpoint_ok p4 Hp4) as (f & w & E4 & Hfo & Hp5 & Hdisk5); [done|done|done|done|]. rewrite E4. cbn [snd].
    eexists. split; [reflexivity|]. split; [exact Hp5|]. split; [by right|]. split; [done|]. split; [exact Hdisk5|]. done.
  - exists p4. split; [done|]. split; [done|]. split; [by left|]. done.
Qed.
Lemma commit_ok p :
  pager_ok p -> p_readonly p = false -> codec_sound lib -> 0 < h_db_size (p_hdr p) < 2 ^ 32 ->
  (length (dirty_pgnos p) < dirty_cap)%nat -> no_gaps p -> w_end_off (p_wal p) < 2 ^ 61 ->
  exists p', tdb_pager_commit lib alloc_ok p = (TDB_OK, p') /\ pager_ok p' /\ log_settled p'
    /\ p_hdr p' = hset_change (p_hdr p) (u32 (h_change_counter (p_hdr p) + 1))
    /\ (forall g, is_pgno g -> disk p' g = if g =? 1 then hdr_serialize (p_hdr p') (view p 1) else view p g)
    /\ (forall g, is_dirty p' g = false) /\ p_hdr_dirty p' = false /\ p_in_txn p' = false /\ p_sps p' = []
    /\ p_page_size p' = p_page_size p /\ p_readonly p' = false.
Proof.
  intros Hp Hro Hc Hdb Hlen [Hz Hgap] Hend. pose proof (store_ps _ _ (po_store _ _ _ Hp)) as Hps.
  destruct (flush_ok p Hp) as (p1 & Ef & Hp1 & Hb1 & Eh1 & Ed1 & Hv1 & Hd1). pose proof (po_cache _ _ _ Hp1) as Hw1.
  pose proof (po_store _ _ _ Hp1) as ((fs & Hr) & Hg & Eps & Hmin).
  assert (p_page_size p1 = p_page_size p /\ p_wal p1 = p_wal p /\ p_file p1 = p_file p /\ p_readonly p1 = false) as (Eps1 & Ew1 & Efl1 & Ero1)
    by (rewrite Hb1; auto).
  pose proof (flush_dirty_count p p1 (po_cache _ _ _ Hp) Hw1 Hd1) as Hcount. unfold dirty_cap in Hlen.
  unfold tdb_pager_commit. rewrite Hro, Ef.
  assert (collect_dirty p1 = filter pg_dirty (cache_pages p1)) as -> by (unfold collect_dirty, dirty_cap; apply take_ge; lia).
  set (l := filter pg_dirty (cache_pages p1)) in *. assert (h_db_size (p_hdr p1) = h_db_size (p_hdr p)) as -> by (by rewrite Eh1).
  destruct (append_dirty_ok (p_wal p1) fs l (h_db_size (p_hdr p)) Hr Hc Hdb) as (w1 & E1 & Hr1 & Hps1).
  { intros pg Hin. apply list_elem_of_filter in Hin as [_ Hin].
    destruct (po_page _ _ _ Hp1 (pg_pgno pg) pg) as (Hx & ? & _); [|unfold is_pgno in Hx; rewrite Eps; split; [lia|done]].
    rewrite cache_lookup_find by done. apply elem_bucket_find; [apply Hw1|done]. }
  { rewrite Eps, Eps1, Ew1. nia. }
  rewrite E1. destruct (wal_sync_rep w1 _ Hr1) as (w2 & E2 & Hr2 & Hps2). rewrite E2.
  rewrite (fold_pass (fun _ => Some (set_dirty false))) by done. change (pg_pgno <$> l) with (dirty_pgnos p1).
  destruct (mark_clean_ok p1 fs w2 (h_db_size (p_hdr p)) Hp1 Hr Hr2) as (Hp3 & Hf3 & Hdisk & Hclean & Hil); [congruence|].
  set (p3 := cache_pass _ _ _) in *.
  assert (forall g, in_log p1 g = in_log p g) as Hil1 by (intros g; unfold in_log; by rewrite Ew1).
  assert (in_log p3 1 = true) as Hin1 by (rewrite Hil, Hd1 by lia; by rewrite orb_true_r).
  assert (no_gaps p3) as Hgap3.
  { split.
    - rewrite Hil, Hil1, Hz, Hd1 by lia. cbn. unfold is_dirty. destruct (cache_lookup p 0) as [pg|] eqn:E0; [|done].
      destruct (po_page _ _ _ Hp 0 pg E0) as (Hx & _). unfold is_pgno in Hx. lia.
    - intros g Hg1 Hpg. unfold is_pgno in Hpg. rewrite !Hclean, !orb_false_r, !Hil, !Hil1, !Hd1 by lia.
      destruct (Z.eqb_spec g 1); [lia|]. intros Hx. destruct (Hgap g Hg1 Hpg Hx) as [Hy|Hy].
      + left. rewrite Hf3. cbn. by rewrite Efl1, Eps1.
      + right. destruct (g - 1 =? 1); [by rewrite orb_true_r|]. by rewrite !orb_false_r in *. }
  destruct (commit_done_ok p3 Hp3) as (p4 & E4 & Hp4 & Hset & Eh4 & Hdisk4 & Hc4 & Ehd & Et & Es & Eps4 & Ero4); [by rewrite Hf3|done..|].
  assert (match l with [] => commit_done lib alloc_ok (pset_store p1 (p_file p1) w1)
          | _ :: _ => commit_done lib alloc_ok p3 end = commit_done lib alloc_ok p3) as ->.
  { destruct l as [|x l0] eqn:El; [|done]. exfalso. assert (is_dirty p1 1 = true) as Hx by (by rewrite Hd1).
    rewrite is_dirty_spec in Hx by done. apply bool_decide_eq_true in Hx. unfold dirty_pgnos in Hx. fold l in Hx. rewrite El in Hx. by apply elem_of_nil in Hx. }
  exists p4. split; [done|]. split; [done|]. split; [done|]. assert (p_hdr p4 = p_hdr p1) as Eh by (rewrite Eh4, Hf3; done). rewrite Eh.
  split; [done|]. split; [intros g Hpg; rewrite Hdisk4, Hdisk by done; apply Hv1|]. split; [done|].
  split; [by rewrite Ehd, Hf3|]. split; [done|]. split; [done|]. split; [rewrite Eps4, Hf3; done|done].
Qed.

(** ** The interface of the transaction manager *)

#[local] Instance pager_txn_ops : PagerTxn pager := {
  pager_begin := tdb_pager_begin;
  pager_commit := tdb_pager_commit lib alloc_ok;
  pager_rollback := tdb_pager_rollback lib alloc_ok;
  pager_savepoint := tdb_pager_savepoint;
  pager_savepoint_release := tdb_pager_savepoint_release;
  pager_savepoint_rollback := tdb_pager_savepoint_rollback;
  pager_max_txnid := tdb_pager_max_txnid;
  pager_set_max_txnid := tdb_pager_set_max_txnid }.
#[local] Instance pager_txn_laws : PagerTxnLaws pager (tdb_dbhdr * (Z -> list Z)) := {
  pg_ok := pager_txn_ok;
  pg_view := pager_view;
  pg_saved := pager_saved;
  pg_savepoint_law := savepoint_ok;
  pg_release_law := release_ok;
  pg_rollback_law := rollback_to_ok }.

(** ** Close and reopen *)

Lemma bget_bsub_0 b n i : 0 <= i < n -> bget (bsub b 0 n) i = bget b i.
Proof.
  intros Hi. unfold bget, bsub. rewrite drop_0, nth_firstn. destruct (Nat.ltb_spec (Z.to_nat i) (Z.to_nat n)); [done|lia].
Qed.
Lemma hdr_parse_prefix b : hdr_parse (bsub b 0 100) = hdr_parse b /\ has_magic (bsub b 0 100) = has_magic b.
Proof.
  assert (forall o, 0 <= o -> o + 4 <= 100 -> tdb_get_u32 (bfrom (bsub b 0 100) o) = tdb_get_u32 (bfrom b o)) as H32.
  { intros o Ho Hle. unfold tdb_get_u32. rewrite !bget_bfrom, !bget_bsub_0 by lia. done. }
  split.
  - unfold hdr_parse. rewrite !H32 by (vm_compute; split; congruence) || (vm_compute; congruence).
    unfold tdb_get_u16, tdb_get_u64. rewrite !bget_bfrom, !bget_bsub_0 by (unfold TDB_HDR_PAGE_SIZE; lia).
    change (drop 4 (bfrom (bsub b 0 100) TDB_HDR_MAX_TXNID)) with (bfrom (bfrom (bsub b 0 100) TDB_HDR_MAX_TXNID) 4).
    change (drop 4 (bfrom b TDB_HDR_MAX_TXNID)) with (bfrom (bfrom b TDB_HDR_MAX_TXNID) 4).
    rewrite !bfrom_bfrom by (unfold TDB_HDR_MAX_TXNID; lia). rewrite !H32 by (unfold TDB_HDR_MAX_TXNID; lia). done.
  - unfold has_magic. rewrite bsub_bsub by lia. done.
Qed.
Lemma reopen_folded p :
  pager_ok p -> log_folded p -> has_magic (disk p 1) = true -> h_page_size (hdr_parse (disk p 1)) = p_page_size p ->
  exists p2, pager_open_files lib alloc_ok (p_file p) (w_file (p_wal p)) false = (TDB_OK, Some p2)
    /\ pager_ok p2 /\ p_hdr p2 = hdr_parse (disk p 1) /\ forall g, is_pgno g -> view p2 g = disk p g.
Proof.
  intros Hp (Hr & Hc & Hsz) Hm Hps. pose proof (po_store _ _ _ Hp) as (_ & Hg & Eps & Hmin).
  assert (wal_params (p_wal p)) as Hwp by apply Hr.
  assert (file_page (p_page_size p) (vfs_contents (p_file p)) 1 = disk p 1) as Hpage
    by (symmetry; apply (disk_latest p []); [done|done|lia|done]).
  unfold file_page in Hpage. replace ((1 - 1) * p_page_size p) with 0 in Hpage by lia. rewrite read_at_inside in Hpage by lia.
  unfold pager_open_files, probe_header. rewrite (good_size _ Hg). cbn [snd]. unfold TDB_HEADER_SIZE.
  destruct (Z.leb_spec 100 (blen (vfs_contents (p_file p)))); [|lia]. rewrite good_read, read_at_inside by (done || lia).
  assert (bsub (vfs_contents (p_file p)) 0 100 = bsub (disk p 1) 0 100) as ->.
  { rewrite <- Hpage, bsub_bsub by lia. done. }
  destruct (hdr_parse_prefix (disk p 1)) as [-> ->]. rewrite Hm, Hps, <- Eps.
  destruct (wal_open_log lib alloc_ok Halloc (p_wal p) [] (w_file (p_wal p))) as (w2 & E & Hr2 & Hh & Hd).
  { split; [apply Hr|]. split; [done|]. pose proof (wal_header_len (p_wal p)). split; [rewrite Hc; lia|].
    exists [], [], (w_salt1 (p_wal p)). split; [constructor|]. split; [by rewrite Hc, app_nil_r|]. left. rewrite Hc, wal_header_len. cbn [concat]. rewrite blen_nil. lia. }
  rewrite E. unfold tdb_wal_db_size. rewrite Hd. cbn [last_dbsize Z.eqb negb].
  eexists. split; [reflexivity|].
  assert (w_page_size w2 = p_page_size p) as Eps2.
  { destruct (wal_header_fields (p_wal p) Hwp) as (_ & _ & F1 & _). destruct (wal_header_fields w2) as (_ & _ & F2 & _); [apply Hr2|].
    rewrite Hh in F2. congruence. }
  rewrite Eps. set (p2 := fresh_pager _ _ _ _ _). change (committed []) with (@nil frame) in Hr2.
  assert (store_ok lib p2) as Hst by (split; [by exists []|]; split; [done|]; split; [cbn; congruence|cbn; congruence || lia]).
  split; [split; [apply fresh_wf|done|intros g pg; unfold p2; by rewrite fresh_lookup]|].
  split; [done|]. intros g Hpg. unfold page_view, p2. rewrite fresh_lookup. fold p2.
  rewrite (disk_latest p2 [] g Hr2 Hg), (disk_latest p [] g Hr Hg) by (assumption || (change (p_page_size p2) with (p_page_size p); lia)).
  reflexivity.
Qed.
Lemma close_ok p :
  pager_ok p -> p_readonly p = false -> (forall g, is_dirty p g = false) -> log_settled p ->
  exists q, tdb_pager_close lib alloc_ok p = (TDB_OK, p_file q, w_file (p_wal q)) /\ pager_ok q /\ log_folded q
    /\ p_page_size q = p_page_size p /\ forall g, is_pgno g -> disk q g = disk p g.
Proof.
  intros Hp Hro Hc [[H1 Hgap]|Hf]; unfold tdb_pager_close; rewrite Hro; cbn [negb].
  - destruct (checkpoint_ok p Hp Hro Hgap Hc H1) as (f & w & -> & Hfo & Hp' & Hd). by exists (pset_store p f w).
  - pose proof Hf as ((_ & _ & _ & Hn & _) & _). unfold tdb_pager_checkpoint, tdb_wal_frame_count. rewrite Hro, Hn. by exists p.
Qed.

(** C4. Durability: a commit followed by close and reopen.  With fewer dirty
    pages than the commit's array holds and files without faults, commit
    succeeds, close folds the log into the main file, and the reopened pager
    has the committed header (the change counter incremented) and shows, for
    every page, exactly the bytes the committing client saw; on page 1 the
    first 100 bytes are the header. *)
Theorem pager_commit_durable p :
  pager_ok p -> p_readonly p = false -> codec_sound lib -> hdr_ok (p_hdr p) -> 0 < h_db_size (p_hdr p) ->
  h_page_size (p_hdr p) = p_page_size p -> (length (dirty_pgnos p) < dirty_cap)%nat -> no_gaps p ->
  w_end_off (p_wal p) < 2 ^ 61 ->
  exists p' f wf p2,
    tdb_pager_commit lib alloc_ok p = (TDB_OK, p') /\ tdb_pager_close lib alloc_ok p' = (TDB_OK, f, wf)
    /\ pager_open_files lib alloc_ok f wf false = (TDB_OK, Some p2) /\ pager_ok p2
    /\ p_hdr p2 = hset_change (p_hdr p) (u32 (h_change_counter (p_hdr p) + 1))
    /\ bfrom (view p2 1) 100 = bfrom (view p 1) 100
    /\ forall g, is_pgno g -> g <> 1 -> view p2 g = view p g.
Proof.
  intros Hp Hro Hc Hh Hdb Hps Hlen Hgap Hend. pose proof (store_ps _ _ (po_store _ _ _ Hp)) as Hpsz.
  pose proof Hh as (H1 & H2 & H3 & H4 & H5 & H6 & H7 & H8 & H9 & H10).
  destruct (commit_ok p Hp Hro Hc ltac:(lia) Hlen Hgap Hend) as (p' & E & Hp' & Hset & Eh & Hd & Hcl & _ & _ & _ & Eps & Ero).
  destruct (close_ok p' Hp' Ero Hcl Hset) as (q & Ec & Hq & Hfo & Epsq & Hdq).
  pose proof (view_len lib alloc_ok Halloc p 1 Hp ltac:(done)) as Hvl.
  assert (hdr_ok (p_hdr p')) as Hok by (rewrite Eh; pose proof (u32_range (h_change_counter (p_hdr p) + 1)); repeat (split; [done|]); done).
  assert (disk q 1 = hdr_serialize (p_hdr p') (view p 1)) as H1p by (rewrite Hdq, Hd by done; done).
  rewrite hdr_serialize_app in H1p by lia.
  destruct (reopen_folded q Hq Hfo) as (p2 & Eo & Hp2 & Eh2 & Hv2).
  - rewrite H1p. apply has_magic_fields.
  - rewrite H1p, hdr_parse_fields by done. rewrite Eh. cbn. congruence.
  - exists p', (p_file q), (w_file (p_wal q)), p2. split; [done|]. split; [done|]. split; [done|]. split; [done|].
    rewrite H1p, hdr_parse_fields in Eh2 by done. split; [by rewrite Eh2|]. split.
    + rewrite Hv2, H1p by done. rewrite app_assoc. by rewrite bfrom_app.
    + intros g Hg Hne. rewrite Hv2, Hdq, Hd by done. by destruct (Z.eqb_spec g 1).
Qed.

(** C12. Rollback: whatever a transaction did to the cache, after
    [tdb_pager_rollback] no page is dirty, the files are untouched, and a fetch
    of any page gives the committed content, that is the page of its latest
    frame among the frames [fs] of the log, else the bytes of the main file at
    its place; the header is the one stored in that page 1, and the savepoints
    are gone. *)
Theorem pager_rollback_restores p fs :
  pager_ok p -> wal_rep lib (p_wal p) fs -> has_magic (stored_page p fs TDB_CATALOG_PGNO) = true ->
  exists p', tdb_pager_rollback lib alloc_ok p = (TDB_OK, p') /\ pager_ok p' /\ p_file p' = p_file p /\ p_wal p' = p_wal p
    /\ (forall g, is_dirty p' g = false)
    /\ (forall g, is_pgno g -> exists q pg, tdb_pager_get lib alloc_ok p' g = (TDB_OK, q) /\ cache_lookup q g = Some pg /\ pg_data pg = stored_page p fs g)
    /\ p_hdr p' = hdr_parse (stored_page p fs TDB_CATALOG_PGNO) /\ p_in_txn p' = false /\ p_sps p' = [].
Proof.
  intros Hp Hr Hm. destruct (rollback_ok p Hp) as (p' & E & Hp' & Hv & _ & Hd & Hh & _ & Ht & Hs & Ef & Ew & _).
  rewrite (ok_stored lib alloc_ok Halloc p fs TDB_CATALOG_PGNO Hp Hr), Hm in Hh by done.
  exists p'. repeat (split; [done|]). split; [|done]. intros g Hg.
  destruct (get_ok lib alloc_ok Halloc p' g Hp' Hg) as (q & Eq & _ & _ & pg & Hl & Hpg & _). exists q, pg. split; [done|]. split; [done|].
  rewrite Hpg, Hv. by apply ok_stored.
Qed.
Lemma restore_sps imgs l (q : pager) :
  p_sps (fold_left (fun p pg => match img_find imgs (pg_pgno pg) with
           | Some d => page_set p (pg_pgno pg) d
           | None => cache_remove p (pg_pgno pg)
           end) l q) = p_sps q.
Proof. revert q. induction l as [|x l IH]; intros q; [done|]. cbn [fold_left]. rewrite IH. by destruct (img_find _ _). Qed.
(** C10. Savepoints: a savepoint opened in [p] and rolled back to in any later
    state [p2] of the transaction (same committed pages, savepoint still on
    the stack) succeeds and gives back the header and every page as they were
    in [p]; the savepoint stays open. *)
Theorem pager_savepoint_restores p level p1 p2 :
  pager_txn_ok p -> tdb_pager_savepoint p = (level, p1) -> 0 <= level ->
  pager_txn_ok p2 -> take (S (Z.to_nat level)) (p_sps p2) = p_sps p1 -> (forall g, disk p2 g = disk p g) ->
  exists p3, tdb_pager_savepoint_rollback p2 level = (TDB_OK, p3) /\ p_hdr p3 = p_hdr p
    /\ (forall g, view p3 g = view p g) /\ p_sps p3 = p_sps p1 /\ pager_txn_ok p3.
Proof.
  intros Hp E Hl Hp2 Hsp Hdisk. destruct (savepoint_ok p Hp) as [Ex|(E1 & E2 & _ & _)]; rewrite E in *; [injection Ex; lia|].
  cbn [fst snd] in E1, E2.
  assert (length (p_sps p) = Z.to_nat level) as Hlen by (unfold pager_saved in E1; rewrite length_map in E1; lia).
  assert (pager_saved p1 !! Z.to_nat level = Some (pager_view p)) as Hlk.
  { rewrite E2, lookup_app_r by (unfold pager_saved; rewrite length_map; lia).
    unfold pager_saved. rewrite length_map, Hlen, Nat.sub_diag. done. }
  unfold pager_saved in Hlk. rewrite list_lookup_fmap in Hlk. destruct (p_sps p1 !! Z.to_nat level) as [sp|] eqn:Esp; [|done].
  injection Hlk as Hh Hv.
  assert (p_sps p2 !! Z.to_nat level = Some sp) as Esp2 by (rewrite <- Hsp in Esp; by apply lookup_take_Some in Esp as [? _]).
  destruct (rollback_to_ok p2 level (sp_view p2 sp) Hp2 Hl) as (R1 & R2 & R3 & R4).
  { unfold pager_saved. by rewrite list_lookup_fmap, Esp2. }
  assert (p_sps (tdb_pager_savepoint_rollback p2 level).2 = take (S (Z.to_nat level)) (p_sps p2)) as Hs3.
  { unfold tdb_pager_savepoint_rollback. pose proof (lookup_lt_Some _ _ _ Esp2).
    destruct (Z.ltb_spec level 0); [lia|]. destruct (Z.leb_spec (Z.of_nat (length (p_sps p2))) level); [lia|]. cbn [orb snd pset_hdr p_sps].
    by rewrite restore_sps. }
  destruct (tdb_pager_savepoint_rollback p2 level) as [rc p3]. cbn [fst snd] in *. subst rc. exists p3. split; [done|].
  unfold pager_view, sp_view in R3. injection R3 as R5 R6. split; [congruence|]. split; [|by rewrite Hs3].
  intros g. apply (f_equal (fun k => k g)) in R6. apply (f_equal (fun k => k g)) in Hv. rewrite R6, <- Hv.
  assert (disk p1 g = disk p g) as Hd1.
  { unfold tdb_pager_savepoint in E. destruct (p_readonly p); injection E as _ <-; done. }
  by rewrite Hdisk, Hd1.
Qed.
End Commit.

(** ** Witnesses on a new database in memory *)

#[local] Instance cdemo_vfs : Vfs mem_handle := mem_vfs ok_alloc.
#[local] Instance cdemo_laws : VfsLaws mem_handle := mem_vfs_laws ok_alloc.

Lemma demo_clean w : dirty_pgnos (demo_fresh w) = [].
Proof. reflexivity. Qed.
Lemma demo_txn_ok w : pager_ok None ok_alloc (demo_fresh w) -> pager_txn_ok None ok_alloc (demo_fresh w).
Proof.
  intros Hp. split; [exact Hp|]. rewrite demo_clean. split; [cbn; lia|]. split; [constructor|].
  intros i j a b g _ Ha. cbn in Ha. by rewrite lookup_nil in Ha.
Qed.
Lemma demo_no_gaps w : wal_rep None w [] -> no_gaps None ok_alloc (demo_fresh w).
Proof.
  intros Hr. assert (forall g, 0 <= g -> in_log None ok_alloc (demo_fresh w) g = false) as Hno
    by (intros g Hg; rewrite (in_log_latest None ok_alloc (fun _ => eq_refl) (demo_fresh w) [] g Hr Hg); done).
  split; [by apply Hno|]. intros g Hg _ Hx. rewrite Hno in Hx by lia. unfold is_dirty, demo_fresh in Hx. by rewrite fresh_lookup in Hx.
Qed.
Lemma pager_commit_durable_witness :
  exists w p' f wf p2, tdb_pager_commit None ok_alloc (demo_fresh w) = (TDB_OK, p')
    /\ tdb_pager_close None ok_alloc p' = (TDB_OK, f, wf)
    /\ pager_open_files None ok_alloc f wf false = (TDB_OK, Some p2) /\ h_change_counter (p_hdr p2) = 1.
Proof.
  destruct demo_fresh_ok as (w & Hr & He & Hp). exists w.
  destruct (pager_commit_durable None ok_alloc (fun _ => eq_refl) (demo_fresh w) Hp) as (p' & f & wf & p2 & E1 & E2 & E3 & _ & Eh & _).
  - reflexivity.
  - exact I.
  - change (hdr_ok (new_header 512)). unfold hdr_ok, new_header, TDB_TEXT_ENC_UTF8. cbn. lia.
  - reflexivity.
  - reflexivity.
  - rewrite demo_clean. cbn. unfold dirty_cap. lia.
  - exact (demo_no_gaps w Hr).
  - change (w_end_off w < 2 ^ 61). rewrite He. lia.
  - exists p', f, wf, p2. split; [exact E1|]. split; [exact E2|]. split; [exact E3|]. rewrite Eh. reflexivity.
Defined.
(** The database is committed, page 2 is fetched, filled and marked dirty, and the
    transaction is rolled back: page 2 is empty again. *)
Lemma pager_rollback_restores_witness :
  exists p p' q pg, is_dirty p 2 = true /\ page_view None ok_alloc p 2 = replicate 512 7
    /\ tdb_pager_rollback None ok_alloc p = (TDB_OK, p') /\ is_dirty p' 2 = false
    /\ tdb_pager_get None ok_alloc p' 2 = (TDB_OK, q) /\ cache_lookup q 2 = Some pg /\ pg_data pg = bzero 512.
Proof.
  destruct demo_fresh_ok as (w & Hr & He & Hp).
  destruct (commit_ok None ok_alloc (fun _ => eq_refl) (demo_fresh w) Hp) as (p1 & E1 & Hp1 & _ & Eh & Hd & _ & _ & _ & _ & Eps & _).
  { reflexivity. } { exact I. } { change (0 < 1 < 2 ^ 32). lia. } { rewrite demo_clean. cbn. unfold dirty_cap. lia. }
  { exact (demo_no_gaps w Hr). } { change (w_end_off w < 2 ^ 61). rewrite He. lia. }
  destruct (get_ok None ok_alloc (fun _ => eq_refl) p1 2 Hp1 ltac:(done)) as (p2 & _ & Hp2 & Hx & pg & Hl & _).
  destruct (write_seq_ok None ok_alloc p2 2 pg (replicate 512 7) Hp2 Hl) as [Mf Mok Mv Md].
  { rewrite (ce_frame _ _ _ _ Hx). exact (eq_sym Eps). }
  set (p := tdb_pager_unref _ _) in *.
  assert (forall g, disk None ok_alloc p g = disk None ok_alloc p1 g) as Hdisk.
  { intros g. transitivity (disk None ok_alloc p2 g); [rewrite Mf; done|rewrite (ce_frame _ _ _ _ Hx); done]. }
  destruct (po_store _ _ _ Mok) as ((fs & Hfs) & _).
  destruct (pager_rollback_restores None ok_alloc (fun _ => eq_refl) p fs Mok Hfs) as (p' & E & _ & _ & _ & Hc & Hg & _).
  - rewrite <- (ok_stored None ok_alloc (fun _ => eq_refl) p fs TDB_CATALOG_PGNO Mok Hfs), Hdisk, Hd by done. cbn [Z.eqb Pos.eqb].
    pose proof (view_len None ok_alloc (fun _ => eq_refl) (demo_fresh w) 1 Hp ltac:(done)) as Hl1.
    change (p_page_size (demo_fresh w)) with 512 in Hl1. rewrite hdr_serialize_app by lia. apply has_magic_fields.
  - destruct (Hg 2 ltac:(done)) as (q & pg' & Eq & Hlq & Hdq). exists p, p', q, pg'.
    split; [rewrite Md; done|]. split; [rewrite Mv; done|]. split; [exact E|]. split; [apply Hc|]. split; [exact Eq|]. split; [exact Hlq|].
    rewrite Hdq, <- (ok_stored None ok_alloc (fun _ => eq_refl) p fs 2 Mok Hfs), Hdisk, Hd by done.
    transitivity (shown_page (demo_fresh w) [] 2); [|vm_compute; reflexivity].
    apply (view_shown None ok_alloc (fun _ => eq_refl) (demo_fresh w) [] 2 Hp Hr). done.
Defined.
Lemma pager_savepoint_restores_witness :
  exists w p1 p3, tdb_pager_savepoint (demo_fresh w) = (0, p1) /\ tdb_pager_savepoint_rollback p1 0 = (TDB_OK, p3)
    /\ p_hdr p3 = new_header 512.
Proof.
  destruct demo_fresh_ok as (w & _ & _ & Hp). pose proof (demo_txn_ok w Hp) as Ht. exists w.
  destruct (savepoint_ok None ok_alloc (demo_fresh w) Ht) as [Ex|(_ & _ & _ & Hp1)]; [discriminate Ex|].
  destruct (pager_savepoint_restores None ok_alloc (demo_fresh w) 0 (tdb_pager_savepoint (demo_fresh w)).2
              (tdb_pager_savepoint (demo_fresh w)).2 Ht eq_refl ltac:(lia) Hp1) as (p3 & E & Eh & _).
  - reflexivity.
  - reflexivity.
  - exists (tdb_pager_savepoint (demo_fresh w)).2, p3. split; [reflexivity|]. split; [exact E|exact Eh].
Defined.
