(* ===== verification/Btree.v ===== *)
(** * The B-tree (src/src/storage/tdb_btree.[ch])

    One B-tree stores tables (8-byte rowid keys) and indexes (record keys).
    The routines that work inside one page are functions on the page's bytes;
    the others call the pager through [PagerPages], where a page pointer is
    the page number.  Recursion and loops over pages take fuel and answer
    [None] when it is used up.

    A varint that cannot be read leaves the C variable unset: the model takes
    length and value 0 there. *)
From S2P Require Import Prelude Util Value Record.

(** ** What the B-tree calls of the pager *)

Class PagerPages (P : Type) := {
  pp_get : P -> Z -> tdb_status * P;             (* tdb_pager_get *)
  pp_data : P -> Z -> list Z;                    (* pg->data *)
  pp_set : P -> Z -> list Z -> P;                (* writes through pg->data *)
  pp_write : P -> Z -> tdb_status * P;           (* tdb_pager_write *)
  pp_unref : P -> Z -> P;                        (* tdb_pager_unref *)
  pp_alloc : P -> tdb_status * P * Z;            (* tdb_pager_alloc *)
  pp_free : P -> Z -> tdb_status * P;            (* tdb_pager_free *)
  pp_page_size : P -> Z }.                       (* tdb_pager_page_size *)

(** ** Layout *)

Definition TDB_PAGE_INTERIOR_TABLE : Z := 0x05.
Definition TDB_PAGE_LEAF_TABLE : Z := 0x0D.
Definition TDB_PAGE_INTERIOR_INDEX : Z := 0x02.
Definition TDB_PAGE_LEAF_INDEX : Z := 0x0A.
Definition TDB_BT_TYPE : Z := 0.
Definition TDB_BT_NCELL : Z := 3.
Definition TDB_BT_CELL_CONTENT : Z := 5.
Definition TDB_BT_RIGHT_CHILD : Z := 8.
Definition TDB_BT_LEAF_HDR_SIZE : Z := 8.
Definition TDB_BT_INTERIOR_HDR_SIZE : Z := 12.
Definition TDB_MAXDEPTH : nat := 40.

Inductive tdb_btree_kind := TDB_BT_TABLE | TDB_BT_INDEX.

(** The tree without its pager; [bt_ki] is [ki] when [has_ki] is set. *)
Record tdb_btree := mk_btree {
  bt_root : Z;
  bt_kind : tdb_btree_kind;
  bt_ki : option tdb_keyinfo;
  bt_ps : Z }.

(** ** Comparison *)

Definition bt_cmp (alloc_ok : Z -> bool) (bt : tdb_btree) (a b : list Z) : Z :=
  match bt_kind bt with
  | TDB_BT_TABLE => memcmp a b 8
  | TDB_BT_INDEX =>
      match bt_ki bt with
      | Some ki => tdb_record_compare alloc_ok a b (Some ki)
      | None =>
          let n := Nat.min (length a) (length b) in
          let c := memcmp a b n in
          if negb (c =? 0) then (if c <? 0 then -1 else 1)
          else if blen a =? blen b then 0 else if blen a <? blen b then -1 else 1
      end
  end.

Definition rowid_to_key (r : Z) : list Z := tdb_put_u64 r.
Definition key_to_rowid (k : list Z) : Z := tdb_get_u64 k.

(** ** Page accessors *)

Definition is_leaf_type (t : Z) : bool := (t =? TDB_PAGE_LEAF_TABLE) || (t =? TDB_PAGE_LEAF_INDEX).
Definition pg_type (d : list Z) : Z := bget d TDB_BT_TYPE.
Definition pg_is_leaf (d : list Z) : bool := is_leaf_type (pg_type d).
Definition pg_hdrsize (d : list Z) : Z :=
  if pg_is_leaf d then TDB_BT_LEAF_HDR_SIZE else TDB_BT_INTERIOR_HDR_SIZE.
Definition pg_ncell (d : list Z) : Z := tdb_get_u16 (bfrom d TDB_BT_NCELL).
Definition pg_set_ncell (d : list Z) (n : Z) : list Z := bput d TDB_BT_NCELL (tdb_put_u16 (u16 n)).
Definition pg_content (ps : Z) (d : list Z) : Z :=
  let c := tdb_get_u16 (bfrom d TDB_BT_CELL_CONTENT) in if c =? 0 then ps else c.
Definition pg_set_content (ps : Z) (d : list Z) (c : Z) : list Z :=
  bput d TDB_BT_CELL_CONTENT (tdb_put_u16 (u16 (if c =? ps then 0 else c))).
Definition pg_right (d : list Z) : Z := tdb_get_u32 (bfrom d TDB_BT_RIGHT_CHILD).
Definition pg_set_right (d : list Z) (c : Z) : list Z := bput d TDB_BT_RIGHT_CHILD (tdb_put_u32 c).
Definition cellptr_at (d : list Z) (i : Z) : Z := tdb_get_u16 (bfrom d (pg_hdrsize d + i * 2)).
Definition cellptr_set (d : list Z) (i off : Z) : list Z :=
  bput d (pg_hdrsize d + i * 2) (tdb_put_u16 (u16 off)).

Definition init_page (ps : Z) (d : list Z) (type : Z) : list Z :=
  let d := bput d 0 (bzero ps) in
  let d := bput d TDB_BT_TYPE [type] in
  let d := pg_set_ncell d 0 in
  pg_set_content ps d ps.

(** ** Cells *)

(** Offsets are from the start of the page. *)
Record leafcell := mk_leafcell {
  lc_key : list Z; lc_klen : Z; lc_lval_off : Z; lc_local : Z; lc_vlen : Z; lc_ovfl : Z }.

Definition read_varint (p : list Z) : Z * Z :=
  match tdb_get_varint p 10 with Some (n, v) => (n, v) | None => (0, 0) end.

Definition local_val_len (ps klen vlen : Z) : Z :=
  let maxpayload := (ps - 12) / 4 in
  let hdr := tdb_varint_len klen + klen + tdb_varint_len vlen in
  if hdr + vlen <=? maxpayload then vlen
  else
    let budget := maxpayload - hdr - 4 in
    let budget := if budget <? 0 then 0 else budget in
    if vlen <? budget then vlen else budget.

Definition read_leafcell (ps : Z) (d : list Z) (i : Z) : leafcell :=
  let p := cellptr_at d i in
  let '(a, kl) := read_varint (bfrom d p) in
  let key_off := p + a in
  let p := key_off + kl in
  let '(a, vl) := read_varint (bfrom d p) in
  let lval := p + a in
  let klen := s32 kl in
  let vlen := s32 vl in
  let local := local_val_len ps klen vlen in
  mk_leafcell (bsub d key_off klen) klen lval local vlen
    (if local <? vlen then tdb_get_u32 (bfrom d (lval + local)) else 0).
Definition lc_lval (d : list Z) (lc : leafcell) : list Z := bsub d (lc_lval_off lc) (lc_local lc).

Definition intcell_child (d : list Z) (i : Z) : Z := tdb_get_u32 (bfrom d (cellptr_at d i)).
Definition set_intcell_child (d : list Z) (i c : Z) : list Z := bput d (cellptr_at d i) (tdb_put_u32 c).
Definition intcell_key (d : list Z) (i : Z) : list Z :=
  let p := cellptr_at d i + 4 in
  let '(a, l) := read_varint (bfrom d p) in
  bsub d (p + a) (s32 l).

Definition leaf_cell_size (ps : Z) (d : list Z) (i : Z) : Z :=
  let lc := read_leafcell ps d i in
  let prefix := lc_lval_off lc - cellptr_at d i in
  prefix + lc_local lc + (if lc_ovfl lc =? 0 then 0 else 4).
Definition int_cell_size (d : list Z) (i : Z) : Z :=
  let '(a, l) := read_varint (bfrom d (cellptr_at d i + 4)) in 4 + a + s32 l.
Definition cell_size (ps : Z) (d : list Z) (i : Z) : Z :=
  if pg_is_leaf d then leaf_cell_size ps d i else int_cell_size d i.
Definition cell_key (ps : Z) (d : list Z) (i : Z) : list Z :=
  if pg_is_leaf d then lc_key (read_leafcell ps d i) else intcell_key d i.

Definition build_int_cell (child : Z) (key : list Z) : list Z :=
  tdb_put_u32 child ++ tdb_put_varint (blen key) ++ key.

(** ** Page space *)

Definition free_contig (ps : Z) (d : list Z) : Z :=
  let top := pg_hdrsize d + pg_ncell d * 2 in pg_content ps d - top.

(** The copy loop of the defragmentation: cells [i .. i+n-1] packed downwards
    from [write] into [scratch]; the new offsets in order. *)
Fixpoint defrag_copy (n : nat) (ps : Z) (d : list Z) (i write : Z) (scratch : list Z) (offs : list Z)
  : Z * list Z * list Z :=
  match n with
  | O => (write, scratch, offs)
  | S n =>
      let sz := cell_size ps d i in
      let src := cellptr_at d i in
      let write := write - sz in
      defrag_copy n ps d (i + 1) write (bput scratch write (bsub d src sz)) (offs ++ [write])
  end.
Fixpoint set_cellptrs (d : list Z) (i : Z) (offs : list Z) : list Z :=
  match offs with
  | [] => d
  | o :: offs => set_cellptrs (cellptr_set d i o) (i + 1) offs
  end.
Definition pg_defrag (alloc_ok : Z -> bool) (ps : Z) (d : list Z) : list Z :=
  let n := pg_ncell d in
  if negb (alloc_ok ps) then d
  else
    let '(write, scratch, offs) := defrag_copy (Z.to_nat n) ps d 0 ps (bzero ps) [] in
    let d := bput d write (bfrom scratch write) in
    let d := set_cellptrs d 0 offs in
    pg_set_content ps d write.

(** [for (j = n; j > index; j--) cellptr_set(pg, j, cellptr_at(pg, j - 1))] *)
Fixpoint shift_up (k : nat) (d : list Z) (j : Z) : list Z :=
  match k with
  | O => d
  | S k => shift_up k (cellptr_set d j (cellptr_at d (j - 1))) (j - 1)
  end.
(** [for (j = index; j < n - 1; j++) cellptr_set(pg, j, cellptr_at(pg, j + 1))] *)
Fixpoint shift_down (k : nat) (d : list Z) (j : Z) : list Z :=
  match k with
  | O => d
  | S k => shift_down k (cellptr_set d j (cellptr_at d (j + 1))) (j + 1)
  end.

(** The write of a cell that fits. *)
Definition place_cell (ps : Z) (d : list Z) (index : Z) (cell : list Z) : list Z :=
  let off := pg_content ps d - blen cell in
  let d := bput d off cell in
  let d := pg_set_content ps d off in
  let n := pg_ncell d in
  let d := shift_up (Z.to_nat (n - index)) d n in
  let d := cellptr_set d index off in
  pg_set_ncell d (n + 1).
Definition insert_cell (alloc_ok : Z -> bool) (ps : Z) (d : list Z) (index : Z) (cell : list Z)
  : tdb_status * list Z :=
  if free_contig ps d <? blen cell + 2 then
    let d := pg_defrag alloc_ok ps d in
    if free_contig ps d <? blen cell + 2 then (TDB_FULL, d)
    else (TDB_OK, place_cell ps d index cell)
  else (TDB_OK, place_cell ps d index cell).

Definition delete_cell (d : list Z) (index : Z) : list Z :=
  let n := pg_ncell d in
  pg_set_ncell (shift_down (Z.to_nat (n - 1 - index)) d index) (n - 1).

(** [hi - lo] halves in each round: [hi] rounds are enough. *)
Fixpoint find_loop (fuel : nat) (cmp : Z -> Z) (lo hi : Z) : Z :=
  match fuel with
  | O => lo
  | S fuel =>
      if lo <? hi then
        let mid := (lo + hi) / 2 in
        if cmp mid <? 0 then find_loop fuel cmp (mid + 1) hi else find_loop fuel cmp lo mid
      else lo
  end.

Section Tree.
Context {P : Type} `{PagerPages P} (alloc_ok : Z -> bool).

(** The index and [*exact]. *)
Definition pg_find (bt : tdb_btree) (d : list Z) (key : list Z) : Z * bool :=
  let cmp i := bt_cmp alloc_ok bt (cell_key (bt_ps bt) d i) key in
  let lo := find_loop (Z.to_nat (pg_ncell d)) cmp 0 (pg_ncell d) in
  (lo, (lo <? pg_ncell d) && (cmp lo =? 0)).

(** ** Overflow chains *)

Fixpoint overflow_write_loop (fuel : nat) (bt : tdb_btree) (p : P) (data : list Z) (first prev : Z)
  : tdb_status * P * Z :=
  match fuel with
  | O => (TDB_OK, p, first)
  | S fuel =>
      if 0 <? blen data then
        match pp_alloc p with
        | (TDB_OK, p, cur) =>
            let per := bt_ps bt - 4 in
            let chunk := if per <? blen data then per else blen data in
            let d := bput (pp_data p cur) 0 (tdb_put_u32 0) in
            let p := pp_set p cur (bput d 4 (bsub data 0 chunk)) in
            let '(_, p) := pp_write p cur in
            let p := pp_unref p cur in
            let first := if first =? 0 then cur else first in
            let '(rc, p) :=
              if prev =? 0 then (TDB_OK, p)
              else
                match pp_get p prev with
                | (TDB_OK, p) =>
                    let p := pp_set p prev (bput (pp_data p prev) 0 (tdb_put_u32 cur)) in
                    let '(_, p) := pp_write p prev in
                    (TDB_OK, pp_unref p prev)
                | (rc, p) => (rc, p)
                end in
            match rc with
            | TDB_OK => overflow_write_loop fuel bt p (bfrom data chunk) first cur
            | _ => (rc, p, first)
            end
        | (rc, p, _) => (rc, p, first)
        end
      else (TDB_OK, p, first)
  end.
(** Each round writes at least one byte ([ps > 4]). *)
Definition overflow_write (bt : tdb_btree) (p : P) (data : list Z) : tdb_status * P * Z :=
  overflow_write_loop (length data) bt p data 0 0.

Fixpoint overflow_read_loop (fuel : nat) (bt : tdb_btree) (p : P) (pgno len : Z) (dst : list Z)
  : tdb_status * P * list Z :=
  match fuel with
  | O => (TDB_OK, p, dst)
  | S fuel =>
      if (blen dst <? len) && negb (pgno =? 0) then
        match pp_get p pgno with
        | (TDB_OK, p) =>
            let per := bt_ps bt - 4 in
            let chunk := if per <? len - blen dst then per else len - blen dst in
            let d := pp_data p pgno in
            overflow_read_loop fuel bt (pp_unref p pgno) (tdb_get_u32 d) len (dst ++ bsub d 4 chunk)
        | (rc, p) => (rc, p, dst)
        end
      else (TDB_OK, p, dst)
  end.
(** The bytes read; a chain that ends early leaves the rest of the C buffer
    untouched. *)
Definition overflow_read (bt : tdb_btree) (p : P) (first len : Z) : tdb_status * P * list Z :=
  overflow_read_loop (Z.to_nat len) bt p first len [].

Fixpoint overflow_free (fuel : nat) (p : P) (pgno : Z) : option P :=
  match fuel with
  | O => None
  | S fuel =>
      if pgno =? 0 then Some p
      else
        match pp_get p pgno with
        | (TDB_OK, p) =>
            let next := tdb_get_u32 (pp_data p pgno) in
            let p := pp_unref p pgno in
            let '(_, p) := pp_free p pgno in
            overflow_free fuel p next
        | (_, p) => Some p
        end
  end.

Definition build_leaf_cell (bt : tdb_btree) (p : P) (key val : list Z) : tdb_status * P * list Z :=
  let klen := blen key in
  let vlen := blen val in
  let local := local_val_len (bt_ps bt) klen vlen in
  let need := tdb_varint_len klen + klen + tdb_varint_len vlen + local + (if local <? vlen then 4 else 0) in
  if negb (alloc_ok need) then (TDB_NOMEM, p, [])
  else
    let buf := tdb_put_varint klen ++ key ++ tdb_put_varint vlen ++ bsub val 0 local in
    if local <? vlen then
      match overflow_write bt p (bfrom val local) with
      | (TDB_OK, p, first) => (TDB_OK, p, buf ++ tdb_put_u32 first)
      | (rc, p, _) => (rc, p, [])
      end
    else (TDB_OK, p, buf).

(** ** Splits *)

Record splitinfo := mk_split { si_split : bool; si_sep : list Z; si_right : Z }.
Definition no_split : splitinfo := mk_split false [] 0.

(** The cells of a page with [cell] inserted at [ins]. *)
Definition page_cells (ps : Z) (d : list Z) : list (list Z) :=
  map (fun i => bsub d (cellptr_at d i) (cell_size ps d i)) (seqZ 0 (pg_ncell d)).
(** [insert_cell] of each cell at positions [i, i+1, ...]; its result is not
    looked at. *)
Fixpoint fill_page (ps : Z) (d : list Z) (i : Z) (cells : list (list Z)) : list Z :=
  match cells with
  | [] => d
  | c :: cells => fill_page ps (insert_cell alloc_ok ps d i c).2 (i + 1) cells
  end.

Definition split_leaf (bt : tdb_btree) (p : P) (pgno ins : Z) (cell : list Z) : tdb_status * P * splitinfo :=
  let ps := bt_ps bt in
  let d := pp_data p pgno in
  let n := pg_ncell d in
  let total := n + 1 in
  if negb (alloc_ok (ps * 2) && alloc_ok (4 * total)) then (TDB_NOMEM, p, no_split)
  else
    let old := page_cells ps d in
    let cells := take (Z.to_nat ins) old ++ [cell] ++ drop (Z.to_nat ins) old in
    let left := total / 2 in
    let left := if left <? 1 then 1 else left in
    let left := if total <=? left then total - 1 else left in
    let type := pg_type d in
    match pp_alloc p with
    | (TDB_OK, p, rp) =>
        let rd := fill_page ps (init_page ps (pp_data p rp) type) 0 (drop (Z.to_nat left) cells) in
        let ld := fill_page ps (init_page ps d type) 0 (take (Z.to_nat left) cells) in
        let p := pp_set (pp_set p rp rd) pgno ld in
        let c := nth (Z.to_nat (left - 1)) cells [] in
        let '(a, skl) := read_varint c in
        if negb (alloc_ok skl) then (TDB_NOMEM, p, no_split)
        else
          let '(_, p) := pp_write p pgno in
          let '(_, p) := pp_write p rp in
          (TDB_OK, pp_unref p rp, mk_split true (bsub c a skl) rp)
    | (rc, p, _) => (rc, p, no_split)
    end.

(** The interior cells written by [split_interior]. *)
Definition int_cells (keys : list (list Z)) (children : list Z) : list (list Z) :=
  zip_with build_int_cell children keys.
Definition split_interior (bt : tdb_btree) (p : P) (pgno ins : Z) (newcell : list Z) (new_right : Z)
  : tdb_status * P * splitinfo :=
  let ps := bt_ps bt in
  let d := pp_data p pgno in
  let n := pg_ncell d in
  let nk := n + 1 in
  let nc := nk + 1 in
  if negb (alloc_ok (ps * 2) && alloc_ok (4 * nk) && alloc_ok (4 * nc)) then (TDB_NOMEM, p, no_split)
  else
    let new_left := tdb_get_u32 newcell in
    let '(a, nskl) := read_varint (bfrom newcell 4) in
    let nsk := bsub newcell (4 + a) (s32 nskl) in
    let old_keys := map (intcell_key d) (seqZ 0 n) in
    let old_children := map (intcell_child d) (seqZ 0 n) ++ [pg_right d] in
    let keys := take (Z.to_nat ins) old_keys ++ [nsk] ++ drop (Z.to_nat ins) old_keys in
    let child := take (Z.to_nat ins) old_children ++ [new_left; new_right] ++ drop (S (Z.to_nat ins)) old_children in
    let mid := nk / 2 in
    let m := Z.to_nat mid in
    let type := pg_type d in
    match pp_alloc p with
    | (TDB_OK, p, rp) =>
        let ld := fill_page ps (init_page ps d type) 0 (int_cells (take m keys) child) in
        let ld := pg_set_right ld (nth m child 0) in
        let rd := fill_page ps (init_page ps (pp_data p rp) type) 0 (int_cells (drop (S m) keys) (drop (S m) child)) in
        let rd := pg_set_right rd (nth (Z.to_nat (nc - 1)) child 0) in
        let p := pp_set (pp_set p pgno ld) rp rd in
        let sep := nth m keys [] in
        if negb (alloc_ok (blen sep)) then (TDB_NOMEM, p, no_split)
        else
          let '(_, p) := pp_write p pgno in
          let '(_, p) := pp_write p rp in
          (TDB_OK, pp_unref p rp, mk_split true sep rp)
    | (rc, p, _) => (rc, p, no_split)
    end.

(** ** Insertion *)

(** The leaf case of [insert_rec], page pinned. *)
Definition insert_leaf (fuel : nat) (bt : tdb_btree) (p : P) (pgno : Z) (key cell : list Z)
  : option (tdb_status * P * splitinfo) :=
  let d := pp_data p pgno in
  let '(idx, exact) := pg_find bt d key in
  match
    (if exact then
       let lc := read_leafcell (bt_ps bt) d idx in
       match (if negb (lc_ovfl lc =? 0) then overflow_free fuel p (lc_ovfl lc) else Some p) with
       | Some p => Some (pp_set p pgno (delete_cell (pp_data p pgno) idx))
       | None => None
       end
     else Some p)
  with
  | None => None
  | Some p =>
      let '(rc, d) := insert_cell alloc_ok (bt_ps bt) (pp_data p pgno) idx cell in
      let p := pp_set p pgno d in
      let '(rc, p, si) := match rc with
                          | TDB_FULL => split_leaf bt p pgno idx cell
                          | _ => (rc, p, no_split)
                          end in
      let p := match rc with TDB_OK => (pp_write p pgno).2 | _ => p end in
      Some (rc, pp_unref p pgno, si)
  end.
(** The end of the interior case: the child split into [childpg] and
    [si_right csi]. *)
Definition insert_separator (bt : tdb_btree) (p : P) (pgno ci childpg : Z) (csi : splitinfo)
  : tdb_status * P * splitinfo :=
  let need := 4 + tdb_varint_len (blen (si_sep csi)) + blen (si_sep csi) in
  if negb (alloc_ok need) then (TDB_NOMEM, pp_unref p pgno, no_split)
  else
    let icell := build_int_cell childpg (si_sep csi) in
    let oldn := pg_ncell (pp_data p pgno) in
    let '(rc, d) := insert_cell alloc_ok (bt_ps bt) (pp_data p pgno) ci icell in
    let p := pp_set p pgno d in
    let '(rc, p, si) :=
      match rc with
      | TDB_FULL => split_interior bt p pgno ci icell (si_right csi)
      | TDB_OK =>
          (TDB_OK, pp_set p pgno (if ci <? oldn then set_intcell_child d (ci + 1) (si_right csi)
                                  else pg_set_right d (si_right csi)), no_split)
      | _ => (rc, p, no_split)
      end in
    let p := match rc with TDB_OK => (pp_write p pgno).2 | _ => p end in
    (rc, pp_unref p pgno, si).
Fixpoint insert_rec (fuel : nat) (bt : tdb_btree) (p : P) (pgno : Z) (key cell : list Z)
  : option (tdb_status * P * splitinfo) :=
  match fuel with
  | O => None
  | S fuel =>
      match pp_get p pgno with
      | (TDB_OK, p) =>
          let d := pp_data p pgno in
          if pg_is_leaf d then insert_leaf fuel bt p pgno key cell
          else
            let '(ci, _) := pg_find bt d key in
            let childpg := if ci <? pg_ncell d then intcell_child d ci else pg_right d in
            match insert_rec fuel bt p childpg key cell with
            | None => None
            | Some (TDB_OK, p, csi) =>
                if si_split csi then Some (insert_separator bt p pgno ci childpg csi)
                else Some (TDB_OK, pp_unref p pgno, no_split)
            | Some (rc, p, _) => Some (rc, pp_unref p pgno, no_split)
            end
      | (rc, p) => Some (rc, p, no_split)
      end
  end.

Definition grow_root (bt : tdb_btree) (p : P) (sep : list Z) (right : Z) : tdb_status * P :=
  let ps := bt_ps bt in
  let root := bt_root bt in
  match pp_get p root with
  | (TDB_OK, p) =>
      match pp_alloc p with
      | (TDB_OK, p, nl) =>
          let p := pp_set p nl (bput (pp_data p nl) 0 (bsub (pp_data p root) 0 ps)) in
          let '(_, p) := pp_write p nl in
          let p := pp_unref p nl in
          let itype := match bt_kind bt with
                       | TDB_BT_TABLE => TDB_PAGE_INTERIOR_TABLE
                       | TDB_BT_INDEX => TDB_PAGE_INTERIOR_INDEX
                       end in
          let p := pp_set p root (init_page ps (pp_data p root) itype) in
          if negb (alloc_ok (4 + tdb_varint_len (blen sep) + blen sep)) then (TDB_NOMEM, pp_unref p root)
          else
            let d := (insert_cell alloc_ok ps (pp_data p root) 0 (build_int_cell nl sep)).2 in
            let p := pp_set p root (pg_set_right d right) in
            let '(_, p) := pp_write p root in
            (TDB_OK, pp_unref p root)
      | (rc, p, _) => (rc, pp_unref p root)
      end
  | (rc, p) => (rc, p)
  end.

Definition tdb_btree_insert (fuel : nat) (bt : tdb_btree) (p : P) (key val : list Z) : option (tdb_status * P) :=
  if bt_ps bt / 2 <? blen key + 16 then Some (TDB_FULL, p)
  else
    match build_leaf_cell bt p key val with
    | (TDB_OK, p, cell) =>
        match insert_rec fuel bt p (bt_root bt) key cell with
        | None => None
        | Some (TDB_OK, p, si) =>
            if si_split si then Some (grow_root bt p (si_sep si) (si_right si)) else Some (TDB_OK, p)
        | Some (rc, p, _) => Some (rc, p)
        end
    | (rc, p, _) => Some (rc, p)
    end.

(** ** Removal; the boolean is [*found] *)

Fixpoint remove_loop (fuel : nat) (bt : tdb_btree) (p : P) (pgno : Z) (key : list Z)
  : option (tdb_status * P * bool) :=
  match fuel with
  | O => None
  | S fuel =>
      match pp_get p pgno with
      | (TDB_OK, p) =>
          let d := pp_data p pgno in
          let '(idx, exact) := pg_find bt d key in
          if pg_is_leaf d then
            if exact then
              let lc := read_leafcell (bt_ps bt) d idx in
              match (if negb (lc_ovfl lc =? 0) then overflow_free fuel p (lc_ovfl lc) else Some p) with
              | Some p =>
                  let p := pp_set p pgno (delete_cell (pp_data p pgno) idx) in
                  let '(_, p) := pp_write p pgno in
                  Some (TDB_OK, pp_unref p pgno, true)
              | None => None
              end
            else Some (TDB_OK, pp_unref p pgno, false)
          else
            let child := if idx <? pg_ncell d then intcell_child d idx else pg_right d in
            remove_loop fuel bt (pp_unref p pgno) child key
      | (rc, p) => Some (rc, p, false)
      end
  end.
Definition tdb_btree_remove (fuel : nat) (bt : tdb_btree) (p : P) (key : list Z)
  : option (tdb_status * P * bool) := remove_loop fuel bt p (bt_root bt) key.

(** ** Create, open, destroy *)

Definition tdb_btree_create (p : P) (kind : tdb_btree_kind) : tdb_status * P * Z :=
  match pp_alloc p with
  | (TDB_OK, p, g) =>
      let type := match kind with TDB_BT_TABLE => TDB_PAGE_LEAF_TABLE | TDB_BT_INDEX => TDB_PAGE_LEAF_INDEX end in
      let d := bput (pp_data p g) 0 (bzero (pp_page_size p)) in
      let d := bput d TDB_BT_TYPE [type] in
      let d := bput d TDB_BT_NCELL (tdb_put_u16 0) in
      let d := bput d TDB_BT_CELL_CONTENT (tdb_put_u16 0) in
      let p := pp_set p g d in
      let '(_, p) := pp_write p g in
      (TDB_OK, pp_unref p g, g)
  | (rc, p, _) => (rc, p, 0)
  end.

(** [sizeof(tdb_btree)] is 56. *)
Definition tdb_btree_open (p : P) (root : Z) (kind : tdb_btree_kind) (ki : option tdb_keyinfo)
  : tdb_status * option tdb_btree :=
  if negb (alloc_ok 56) then (TDB_NOMEM, None)
  else (TDB_OK, Some (mk_btree root kind (match kind with TDB_BT_INDEX => ki | TDB_BT_TABLE => None end)
                        (pp_page_size p))).
Definition tdb_btree_root (bt : tdb_btree) : Z := bt_root bt.

(** The overflow chains of the cells [i .. i+n-1] of a leaf. *)
Fixpoint free_leaf_chains (fuel n : nat) (bt : tdb_btree) (p : P) (pgno i : Z) : option P :=
  match n with
  | O => Some p
  | S n =>
      let lc := read_leafcell (bt_ps bt) (pp_data p pgno) i in
      match (if negb (lc_ovfl lc =? 0) then overflow_free fuel p (lc_ovfl lc) else Some p) with
      | Some p => free_leaf_chains fuel n bt p pgno (i + 1)
      | None => None
      end
  end.
Fixpoint free_subtree (fuel : nat) (bt : tdb_btree) (p : P) (pgno : Z) : option (tdb_status * P) :=
  match fuel with
  | O => None
  | S fuel =>
      match pp_get p pgno with
      | (TDB_OK, p) =>
          let d := pp_data p pgno in
          let n := pg_ncell d in
          if pg_is_leaf d then
            match free_leaf_chains fuel (Z.to_nat n) bt p pgno 0 with
            | None => None
            | Some p => Some (pp_free (pp_unref p pgno) pgno)
            end
          else if negb (alloc_ok (4 * (n + 1))) then Some (TDB_NOMEM, pp_unref p pgno)
          else
            let kids := map (intcell_child d) (seqZ 0 n) ++ [pg_right d] in
            let fix free_kids (p : P) (kids : list Z) : option (tdb_status * P) :=
              match kids with
              | [] => Some (TDB_OK, p)
              | k :: kids =>
                  if k =? 0 then free_kids p kids
                  else
                    match free_subtree fuel bt p k with
                    | None => None
                    | Some (TDB_OK, p) => free_kids p kids
                    | Some (rc, p) => Some (rc, p)
                    end
              end in
            match free_kids (pp_unref p pgno) kids with
            | None => None
            | Some (TDB_OK, p) => Some (pp_free p pgno)
            | Some (rc, p) => Some (rc, p)
            end
      | (rc, p) => Some (rc, p)
      end
  end.
Definition tdb_btree_destroy (fuel : nat) (p : P) (root : Z) (kind : tdb_btree_kind) : option (tdb_status * P) :=
  if root =? 0 then Some (TDB_OK, p)
  else
    match tdb_btree_open p root kind None with
    | (TDB_OK, Some bt) => free_subtree fuel bt p root
    | (rc, _) => Some (rc, p)
    end.

(** ** Tables and indexes *)

Definition tdb_btree_put (fuel : nat) (bt : tdb_btree) (p : P) (rowid : Z) (val : list Z) : option (tdb_status * P) :=
  tdb_btree_insert fuel bt p (rowid_to_key rowid) val.
Definition tdb_btree_del (fuel : nat) (bt : tdb_btree) (p : P) (rowid : Z) : option (tdb_status * P * bool) :=
  tdb_btree_remove fuel bt p (rowid_to_key rowid).
Definition tdb_index_put (fuel : nat) (bt : tdb_btree) (p : P) (key : list Z) : option (tdb_status * P) :=
  tdb_btree_insert fuel bt p key [].
Definition tdb_index_del (fuel : nat) (bt : tdb_btree) (p : P) (key : list Z) : option (tdb_status * P * bool) :=
  tdb_btree_remove fuel bt p key.
End Tree.
