(* ===== verification/Cursor.v ===== *)
(** * B-tree cursors (src/src/storage/tdb_btree.c, from [tdb_cursor_open])

    A cursor is a path from the root: the page and child index of each level,
    the pinned leaf and the end-of-data flag.  The arrays of the path have
    [TDB_MAXDEPTH] places; the code stores without checking the level, the
    model drops a store past the end. *)
From S2P Require Import Prelude Util Value Record Btree.

Record tdb_cursor := mk_cursor {
  cur_page : list Z;
  cur_cidx : list Z;
  cur_depth : Z;
  cur_leaf : option Z;
  cur_eof : bool;
  cur_ovcap : Z }.

Definition cset_level (c : tdb_cursor) (level pgno ci : Z) : tdb_cursor :=
  mk_cursor (<[Z.to_nat level := pgno]> (cur_page c)) (<[Z.to_nat level := ci]> (cur_cidx c))
    (cur_depth c) (cur_leaf c) (cur_eof c) (cur_ovcap c).
Definition cset_cidx (c : tdb_cursor) (level ci : Z) : tdb_cursor :=
  mk_cursor (cur_page c) (<[Z.to_nat level := ci]> (cur_cidx c)) (cur_depth c) (cur_leaf c) (cur_eof c) (cur_ovcap c).
Definition cset_leaf (c : tdb_cursor) (depth : Z) (leaf : option Z) (eof : bool) : tdb_cursor :=
  mk_cursor (cur_page c) (cur_cidx c) depth leaf eof (cur_ovcap c).
Definition cidx_at (c : tdb_cursor) (level : Z) : Z := nth (Z.to_nat level) (cur_cidx c) 0.

Section Cursor.
Context {P : Type} `{PagerPages P} (alloc_ok : Z -> bool).

(** [sizeof(tdb_cursor)] is 368. *)
Definition tdb_cursor_open : tdb_status * option tdb_cursor :=
  if negb (alloc_ok 368) then (TDB_NOMEM, None)
  else (TDB_OK, Some (mk_cursor (replicate TDB_MAXDEPTH 0) (replicate TDB_MAXDEPTH 0) 0 None true 0)).
Definition unpin (p : P) (c : tdb_cursor) : P * tdb_cursor :=
  match cur_leaf c with
  | Some g => (pp_unref p g, cset_leaf c (cur_depth c) None (cur_eof c))
  | None => (p, c)
  end.
Definition tdb_cursor_close (p : P) (c : tdb_cursor) : P := (unpin p c).1.
(** [pg_ncell(c->leaf)] *)
Definition leaf_ncell (p : P) (c : tdb_cursor) : Z :=
  match cur_leaf c with Some g => pg_ncell (pp_data p g) | None => 0 end.

Fixpoint descend_leftmost (fuel : nat) (p : P) (c : tdb_cursor) (pgno level : Z)
  : option (tdb_status * P * tdb_cursor) :=
  match fuel with
  | O => None
  | S fuel =>
      match pp_get p pgno with
      | (TDB_OK, p) =>
          let d := pp_data p pgno in
          let c := cset_level c level pgno 0 in
          if pg_is_leaf d then Some (TDB_OK, p, cset_leaf c level (Some pgno) false)
          else
            let child := if 0 <? pg_ncell d then intcell_child d 0 else pg_right d in
            descend_leftmost fuel (pp_unref p pgno) c child (level + 1)
      | (rc, p) => Some (rc, p, cset_level c level pgno (cidx_at c level))
      end
  end.
Fixpoint descend_rightmost (fuel : nat) (p : P) (c : tdb_cursor) (pgno level : Z)
  : option (tdb_status * P * tdb_cursor) :=
  match fuel with
  | O => None
  | S fuel =>
      match pp_get p pgno with
      | (TDB_OK, p) =>
          let d := pp_data p pgno in
          let n := pg_ncell d in
          if pg_is_leaf d then
            let c := cset_level c level pgno (if 0 <? n then n - 1 else 0) in
            Some (TDB_OK, p, cset_leaf c level (Some pgno) (n =? 0))
          else
            descend_rightmost fuel (pp_unref p pgno) (cset_level c level pgno n) (pg_right d) (level + 1)
      | (rc, p) => Some (rc, p, cset_level c level pgno (cidx_at c level))
      end
  end.

(** The climb of [next_leaf] from [level], [n] levels left. *)
Fixpoint climb_next (fuel n : nat) (p : P) (c : tdb_cursor) (level : Z) : option (tdb_status * P * tdb_cursor) :=
  match n with
  | O => Some (TDB_OK, p, cset_leaf c (cur_depth c) (cur_leaf c) true)
  | S n =>
      let g := nth (Z.to_nat level) (cur_page c) 0 in
      match pp_get p g with
      | (TDB_OK, p) =>
          let d := pp_data p g in
          let nextci := cidx_at c level + 1 in
          if nextci <=? pg_ncell d then
            let c := cset_cidx c level nextci in
            let child := if nextci <? pg_ncell d then intcell_child d nextci else pg_right d in
            descend_leftmost fuel (pp_unref p g) c child (level + 1)
          else climb_next fuel n (pp_unref p g) c (level - 1)
      | (rc, p) => Some (rc, p, c)
      end
  end.
Definition next_leaf (fuel : nat) (p : P) (c : tdb_cursor) : option (tdb_status * P * tdb_cursor) :=
  let '(p, c) := unpin p c in climb_next fuel (Z.to_nat (cur_depth c)) p c (cur_depth c - 1).

Fixpoint climb_prev (fuel n : nat) (p : P) (c : tdb_cursor) (level : Z) : option (tdb_status * P * tdb_cursor) :=
  match n with
  | O => Some (TDB_OK, p, cset_leaf c (cur_depth c) (cur_leaf c) true)
  | S n =>
      let g := nth (Z.to_nat level) (cur_page c) 0 in
      match pp_get p g with
      | (TDB_OK, p) =>
          let d := pp_data p g in
          let prevci := cidx_at c level - 1 in
          if 0 <=? prevci then
            let c := cset_cidx c level prevci in
            let child := if prevci <? pg_ncell d then intcell_child d prevci else pg_right d in
            descend_rightmost fuel (pp_unref p g) c child (level + 1)
          else climb_prev fuel n (pp_unref p g) c (level - 1)
      | (rc, p) => Some (rc, p, c)
      end
  end.
Definition prev_leaf (fuel : nat) (p : P) (c : tdb_cursor) : option (tdb_status * P * tdb_cursor) :=
  let '(p, c) := unpin p c in climb_prev fuel (Z.to_nat (cur_depth c)) p c (cur_depth c - 1).

(** [while (!c->eof && pg_ncell(c->leaf) == 0) step(c)] *)
Fixpoint skip_empty (fuel : nat) (step : P -> tdb_cursor -> option (tdb_status * P * tdb_cursor))
    (p : P) (c : tdb_cursor) : option (tdb_status * P * tdb_cursor) :=
  match fuel with
  | O => None
  | S fuel =>
      if negb (cur_eof c) && (leaf_ncell p c =? 0) then
        match step p c with
        | None => None
        | Some (TDB_OK, p, c) => skip_empty fuel step p c
        | Some (rc, p, c) => Some (rc, p, c)
        end
      else Some (TDB_OK, p, c)
  end.

Definition tdb_cursor_first (fuel : nat) (bt : tdb_btree) (p : P) (c : tdb_cursor)
  : option (tdb_status * P * tdb_cursor) :=
  let '(p, c) := unpin p c in
  match descend_leftmost fuel p c (bt_root bt) 0 with
  | Some (TDB_OK, p, c) =>
      match skip_empty fuel (next_leaf fuel) p c with
      | Some (TDB_OK, p, c) =>
          if negb (cur_eof c) && (leaf_ncell p c <=? cidx_at c (cur_depth c))
          then Some (TDB_OK, p, cset_leaf c (cur_depth c) (cur_leaf c) true)
          else Some (TDB_OK, p, c)
      | r => r
      end
  | r => r
  end.

Definition tdb_cursor_next (fuel : nat) (p : P) (c : tdb_cursor) : option (tdb_status * P * tdb_cursor) :=
  if cur_eof c || match cur_leaf c with None => true | Some _ => false end then Some (TDB_OK, p, c)
  else
    let c := cset_cidx c (cur_depth c) (cidx_at c (cur_depth c) + 1) in
    if cidx_at c (cur_depth c) <? leaf_ncell p c then Some (TDB_OK, p, c)
    else
      match next_leaf fuel p c with
      | Some (TDB_OK, p, c) => skip_empty fuel (next_leaf fuel) p c
      | r => r
      end.
Definition tdb_cursor_eof (c : tdb_cursor) : bool := cur_eof c.

(** The last component is [*cmp]. *)
Fixpoint seek_loop (fuel fuel0 : nat) (bt : tdb_btree) (p : P) (c : tdb_cursor) (key : list Z) (pgno level : Z)
  : option (tdb_status * P * tdb_cursor * Z) :=
  match fuel with
  | O => None
  | S fuel =>
      match pp_get p pgno with
      | (TDB_OK, p) =>
          let d := pp_data p pgno in
          let '(idx, exact) := pg_find alloc_ok bt d key in
          let c := cset_level c level pgno idx in
          if pg_is_leaf d then
            let c := cset_leaf c level (Some pgno) false in
            if pg_ncell d <=? idx then
              match next_leaf fuel0 p c with
              | Some (TDB_OK, p, c) =>
                  match skip_empty fuel0 (next_leaf fuel0) p c with
                  | Some (rc, p, c) => Some (rc, p, c, 1)
                  | None => None
                  end
              | Some (rc, p, c) => Some (rc, p, c, 1)
              | None => None
              end
            else Some (TDB_OK, p, c, if exact then 0 else 1)
          else
            let child := if idx <? pg_ncell d then intcell_child d idx else pg_right d in
            seek_loop fuel fuel0 bt (pp_unref p pgno) c key child (level + 1)
      | (rc, p) => Some (rc, p, cset_level c level pgno (cidx_at c level), 1)
      end
  end.
Definition tdb_cursor_seek (fuel : nat) (bt : tdb_btree) (p : P) (c : tdb_cursor) (key : list Z)
  : option (tdb_status * P * tdb_cursor * Z) :=
  let '(p, c) := unpin p c in seek_loop fuel fuel bt p c key (bt_root bt) 0.
Definition tdb_cursor_seek_rowid (fuel : nat) (bt : tdb_btree) (p : P) (c : tdb_cursor) (rowid : Z)
  : option (tdb_status * P * tdb_cursor * bool) :=
  match tdb_cursor_seek fuel bt p c (rowid_to_key rowid) with
  | Some (rc, p, c, cmp) => Some (rc, p, c, negb (cur_eof c) && (cmp =? 0))
  | None => None
  end.

(** The cell under the cursor. *)
Definition cur_cell (bt : tdb_btree) (p : P) (c : tdb_cursor) : option (list Z * leafcell) :=
  if cur_eof c then None
  else match cur_leaf c with
       | None => None
       | Some g => Some (pp_data p g, read_leafcell (bt_ps bt) (pp_data p g) (cidx_at c (cur_depth c)))
       end.
Definition tdb_cursor_key (bt : tdb_btree) (p : P) (c : tdb_cursor) : tdb_status * list Z :=
  match cur_cell bt p c with
  | None => (TDB_NOTFOUND, [])
  | Some (_, lc) => (TDB_OK, lc_key lc)
  end.
Definition tdb_cursor_rowid (bt : tdb_btree) (p : P) (c : tdb_cursor) : tdb_status * Z :=
  match tdb_cursor_key bt p c with
  | (TDB_OK, k) => (TDB_OK, key_to_rowid k)
  | (rc, _) => (rc, 0)
  end.
(** The buffer of overflow values is kept and only grows. *)
Definition tdb_cursor_data (bt : tdb_btree) (p : P) (c : tdb_cursor) : tdb_status * P * tdb_cursor * list Z :=
  match cur_cell bt p c with
  | None => (TDB_NOTFOUND, p, c, [])
  | Some (d, lc) =>
      if lc_ovfl lc =? 0 then (TDB_OK, p, c, bsub d (lc_lval_off lc) (lc_vlen lc))
      else if (cur_ovcap c <? lc_vlen lc) && negb (alloc_ok (lc_vlen lc)) then (TDB_NOMEM, p, c, [])
      else
        let c := mk_cursor (cur_page c) (cur_cidx c) (cur_depth c) (cur_leaf c) (cur_eof c)
                   (if cur_ovcap c <? lc_vlen lc then lc_vlen lc else cur_ovcap c) in
        match overflow_read bt p (lc_ovfl lc) (lc_vlen lc - lc_local lc) with
        | (TDB_OK, p, rest) => (TDB_OK, p, c, lc_lval d lc ++ rest)
        | (rc, p, _) => (rc, p, c, [])
        end
  end.

Definition tdb_cursor_last (fuel : nat) (bt : tdb_btree) (p : P) (c : tdb_cursor)
  : option (tdb_status * P * tdb_cursor) :=
  let '(p, c) := unpin p c in descend_rightmost fuel p c (bt_root bt) 0.
Definition tdb_cursor_prev (fuel : nat) (p : P) (c : tdb_cursor) : option (tdb_status * P * tdb_cursor) :=
  if cur_eof c || match cur_leaf c with None => true | Some _ => false end then Some (TDB_OK, p, c)
  else if 0 <? cidx_at c (cur_depth c)
  then Some (TDB_OK, p, cset_cidx c (cur_depth c) (cidx_at c (cur_depth c) - 1))
  else
    match prev_leaf fuel p c with
    | Some (TDB_OK, p, c) => skip_empty fuel (prev_leaf fuel) p c
    | r => r
    end.

Definition tdb_btree_max_rowid (fuel : nat) (bt : tdb_btree) (p : P) : option (tdb_status * P * Z) :=
  match tdb_cursor_open with
  | (TDB_OK, Some c) =>
      match tdb_cursor_last fuel bt p c with
      | None => None
      | Some (TDB_OK, p, c) =>
          let '(rc, r) := if cur_eof c then (TDB_OK, 0) else tdb_cursor_rowid bt p c in
          Some (rc, tdb_cursor_close p c, r)
      | Some (rc, p, c) => Some (rc, tdb_cursor_close p c, 0)
      end
  | (rc, _) => Some (rc, p, 0)
  end.
Definition tdb_btree_get (fuel : nat) (bt : tdb_btree) (p : P) (c : tdb_cursor) (rowid : Z)
  : option (tdb_status * P * tdb_cursor * list Z) :=
  match tdb_cursor_seek_rowid fuel bt p c rowid with
  | None => None
  | Some (TDB_OK, p, c, found) =>
      if found then Some (tdb_cursor_data bt p c) else Some (TDB_NOTFOUND, p, c, [])
  | Some (rc, p, c, _) => Some (rc, p, c, [])
  end.
End Cursor.
