(* ===== verification/BtreePage.v ===== *)
(** * B-tree pages

    A page is specified by the list of its cells ([page_rep]).  The routines
    that edit a page are shown to be the list operations they stand for, and
    the search inside a page to be the lower bound of the key. *)
From stdpp Require Import sorting.
From S2P Require Import Prelude Util Value Record Btree.

(** ** Bytes that stay the same *)

(** [d'] has the length of [d] and the same bytes in [[lo, hi)]. *)
Definition agree (d d' : list Z) (lo hi : Z) : Prop :=
  blen d' = blen d /\ forall o, 0 <= o -> lo <= o < hi -> bget d' o = bget d o.

Lemma agree_refl d lo hi : agree d d lo hi.
Proof. done. Qed.
Lemma agree_trans d1 d2 d3 lo hi : agree d1 d2 lo hi -> agree d2 d3 lo hi -> agree d1 d3 lo hi.
Proof. intros [H1 H2] [H3 H4]. split; [congruence|]. intros o Ho Hr. by rewrite H4, H2. Qed.
Lemma agree_sub d d' lo hi lo' hi' : lo <= lo' -> hi' <= hi -> agree d d' lo hi -> agree d d' lo' hi'.
Proof. intros Hl Hh [H1 H2]. split; [done|]. intros o Ho Hr. apply H2; lia. Qed.
Lemma agree_bput d off src lo hi :
  0 <= off -> off + blen src <= blen d -> hi <= off \/ off + blen src <= lo -> agree d (bput d off src) lo hi.
Proof.
  intros H1 H2 H3. split; [by apply blen_bput|]. intros o Ho Hr. apply bget_bput_out; lia.
Qed.
Lemma bget_ext (l l' : list Z) :
  blen l' = blen l -> (forall o, 0 <= o < blen l -> bget l' o = bget l o) -> l' = l.
Proof.
  intros Hl Hb. apply (nth_ext _ _ 0 0); [unfold blen in Hl; lia|]. intros n Hn. specialize (Hb (Z.of_nat n)).
  unfold bget, blen in *. rewrite Nat2Z.id in Hb. apply Hb. lia.
Qed.
Lemma bget_bsub d off n o : 0 <= off -> 0 <= o < n -> bget (bsub d off n) o = bget d (off + o).
Proof.
  intros Ho Hn. unfold bget, bsub. rewrite nth_firstn, nth_skipn.
  destruct (Nat.ltb_spec (Z.to_nat o) (Z.to_nat n)); [|lia]. f_equal. lia.
Qed.
Lemma agree_bsub d d' off n :
  0 <= off -> 0 <= n -> off + n <= blen d -> agree d d' off (off + n) -> bsub d' off n = bsub d off n.
Proof.
  intros H1 H2 H3 [H4 H5]. apply bget_ext; [rewrite !blen_bsub; lia|]. rewrite blen_bsub by lia. intros o Ho.
  rewrite !bget_bsub by lia. apply H5; lia.
Qed.
Lemma agree_u16 d d' o : 0 <= o -> agree d d' o (o + 2) -> tdb_get_u16 (bfrom d' o) = tdb_get_u16 (bfrom d o).
Proof. intros Ho [_ Ha]. unfold tdb_get_u16. rewrite !bget_bfrom by lia. rewrite !Ha by lia. done. Qed.

(** ** Fields *)

Lemma put_u16_len v : blen (tdb_put_u16 v) = 2.
Proof. done. Qed.
Lemma pg_hdrsize_range d : 8 <= pg_hdrsize d <= 12.
Proof. unfold pg_hdrsize, TDB_BT_LEAF_HDR_SIZE, TDB_BT_INTERIOR_HDR_SIZE. destruct (pg_is_leaf d); lia. Qed.
Lemma agree_type d d' : agree d d' 0 1 -> pg_type d' = pg_type d.
Proof. intros [_ Ha]. apply Ha; unfold TDB_BT_TYPE; lia. Qed.
Lemma agree_leaf d d' : agree d d' 0 1 -> pg_is_leaf d' = pg_is_leaf d.
Proof. intros Ha. unfold pg_is_leaf. by rewrite (agree_type d d'). Qed.
Lemma agree_hdrsize d d' : agree d d' 0 1 -> pg_hdrsize d' = pg_hdrsize d.
Proof. intros Ha. unfold pg_hdrsize. by rewrite (agree_leaf d d'). Qed.
Lemma agree_ncell d d' : agree d d' 3 5 -> pg_ncell d' = pg_ncell d.
Proof. intros Ha. apply agree_u16; [unfold TDB_BT_NCELL; lia|done]. Qed.
Lemma agree_content ps d d' : agree d d' 5 7 -> pg_content ps d' = pg_content ps d.
Proof. intros Ha. unfold pg_content. by rewrite (agree_u16 d d') by (unfold TDB_BT_CELL_CONTENT; (lia || done)). Qed.
Lemma agree_cellptr d d' i :
  0 <= i -> agree d d' 0 1 -> agree d d' (pg_hdrsize d + i * 2) (pg_hdrsize d + i * 2 + 2) ->
  cellptr_at d' i = cellptr_at d i.
Proof.
  intros Hi H1 H2. unfold cellptr_at. rewrite (agree_hdrsize d d' H1). apply agree_u16; [|done].
  pose proof (pg_hdrsize_range d). lia.
Qed.

Lemma set_ncell_ok d n lo hi :
  16 <= blen d -> 0 <= n < 65536 -> hi <= 3 \/ 5 <= lo ->
  pg_ncell (pg_set_ncell d n) = n /\ agree d (pg_set_ncell d n) lo hi.
Proof.
  intros Hd Hn Hr. unfold pg_ncell, pg_set_ncell, TDB_BT_NCELL. rewrite u16_small by lia.
  split; [apply get_u16_put; lia|]. apply agree_bput; rewrite ?put_u16_len; lia.
Qed.
Lemma set_content_ok ps d c lo hi :
  16 <= blen d -> 0 < c <= ps -> ps <= 65536 -> hi <= 5 \/ 7 <= lo ->
  pg_content ps (pg_set_content ps d c) = c /\ agree d (pg_set_content ps d c) lo hi.
Proof.
  intros Hd Hc Hps Hr. unfold pg_content, pg_set_content, TDB_BT_CELL_CONTENT.
  set (v := if c =? ps then 0 else c). assert (0 <= v < 65536 /\ (v = 0 -> c = ps) /\ (v <> 0 -> c = v)) as (Hv & Hv0 & Hv1)
    by (unfold v; destruct (Z.eqb_spec c ps); lia).
  rewrite (u16_small v) by lia. split; [|apply agree_bput; rewrite ?put_u16_len; lia].
  rewrite get_u16_put by lia. destruct (Z.eqb_spec v 0); [symmetry|]; auto. symmetry. auto.
Qed.
Lemma cellptr_set_ok d i off lo hi :
  0 <= i -> pg_hdrsize d + i * 2 + 2 <= blen d -> 0 <= off < 65536 ->
  hi <= pg_hdrsize d + i * 2 \/ pg_hdrsize d + i * 2 + 2 <= lo ->
  agree d (cellptr_set d i off) lo hi.
Proof.
  intros Hi Hd Hoff Hr. pose proof (pg_hdrsize_range d). unfold cellptr_set. apply agree_bput; rewrite ?put_u16_len; lia.
Qed.
Lemma cellptr_set_at d i off j :
  0 <= i -> 0 <= j -> pg_hdrsize d + i * 2 + 2 <= blen d -> 0 <= off < 65536 ->
  cellptr_at (cellptr_set d i off) j = if j =? i then off else cellptr_at d j.
Proof.
  intros Hi Hj Hd Hoff. pose proof (pg_hdrsize_range d) as Hh.
  assert (agree d (cellptr_set d i off) 0 1) as Ht by (apply cellptr_set_ok; lia).
  destruct (Z.eqb_spec j i) as [->|Hne].
  - unfold cellptr_at. rewrite (agree_hdrsize _ _ Ht). unfold cellptr_set. rewrite u16_small by lia. apply get_u16_put; lia.
  - apply agree_cellptr; [done|done|]. apply cellptr_set_ok; lia.
Qed.
Lemma cellptr_range d i : 0 <= cellptr_at d i < 65536.
Proof. apply get_u16_range. Qed.

(** ** The pointer array *)

(** [shift_up]: slots [j-k+1 .. j] take the value of the slot before. *)
Lemma shift_up_ok k d j :
  Z.of_nat k <= j -> pg_hdrsize d + j * 2 + 2 <= blen d ->
  agree d (shift_up k d j) 0 (pg_hdrsize d) /\ agree d (shift_up k d j) (pg_hdrsize d + j * 2 + 2) (blen d)
  /\ forall i, 0 <= i -> cellptr_at (shift_up k d j) i
       = if (j - Z.of_nat k <? i) && (i <=? j) then cellptr_at d (i - 1) else cellptr_at d i.
Proof.
  revert d j. induction k as [|k IH]; intros d j Hk Hd.
  { split; [apply agree_refl|]. split; [apply agree_refl|]. intros i Hi. cbn [shift_up]. bdec; done. }
  pose proof (pg_hdrsize_range d) as Hh. pose proof (cellptr_range d (j - 1)) as Hr. cbn [shift_up].
  set (d1 := cellptr_set d j (cellptr_at d (j - 1))).
  assert (forall lo hi, hi <= pg_hdrsize d + j * 2 \/ pg_hdrsize d + j * 2 + 2 <= lo -> agree d d1 lo hi) as Ha
    by (intros; apply cellptr_set_ok; lia).
  assert (pg_hdrsize d1 = pg_hdrsize d) as Eh by (apply agree_hdrsize, Ha; lia).
  assert (blen d1 = blen d) as El by (apply (Ha 0 0); lia).
  destruct (IH d1 (j - 1)) as (I1 & I2 & I3); [lia|rewrite Eh, El; lia|]. rewrite Eh, El in *.
  split; [eapply agree_trans; [apply Ha; lia|done]|].
  split; [eapply agree_trans; [apply Ha; lia|]; eapply agree_sub; [| |exact I2]; lia|].
  intros i Hi. rewrite I3 by done. unfold d1. destruct (decide (i = 0)) as [->|Hi0].
  - rewrite (cellptr_set_at d j _ 0) by lia. bdec; done.
  - rewrite !cellptr_set_at by lia.
    bdec; try done; f_equal; lia.
Qed.
(** [shift_down]: slots [j .. j+k-1] take the value of the slot after. *)
Lemma shift_down_ok k d j :
  0 <= j -> pg_hdrsize d + (j + Z.of_nat k) * 2 <= blen d ->
  agree d (shift_down k d j) 0 (pg_hdrsize d)
  /\ agree d (shift_down k d j) (pg_hdrsize d + (j + Z.of_nat k) * 2) (blen d)
  /\ forall i, 0 <= i -> cellptr_at (shift_down k d j) i
       = if (j <=? i) && (i <? j + Z.of_nat k) then cellptr_at d (i + 1) else cellptr_at d i.
Proof.
  revert d j. induction k as [|k IH]; intros d j Hj Hd.
  { split; [apply agree_refl|]. split; [apply agree_refl|]. intros i Hi. cbn [shift_down]. bdec; done. }
  pose proof (pg_hdrsize_range d) as Hh. pose proof (cellptr_range d (j + 1)) as Hr. cbn [shift_down].
  set (d1 := cellptr_set d j (cellptr_at d (j + 1))).
  assert (forall lo hi, hi <= pg_hdrsize d + j * 2 \/ pg_hdrsize d + j * 2 + 2 <= lo -> agree d d1 lo hi) as Ha
    by (intros; apply cellptr_set_ok; lia).
  assert (pg_hdrsize d1 = pg_hdrsize d) as Eh by (apply agree_hdrsize, Ha; lia).
  assert (blen d1 = blen d) as El by (apply (Ha 0 0); lia).
  destruct (IH d1 (j + 1)) as (I1 & I2 & I3); [lia|rewrite Eh, El; lia|]. rewrite Eh, El in *.
  split; [eapply agree_trans; [apply Ha; lia|done]|].
  split; [eapply agree_trans; [apply Ha; lia|]; eapply agree_sub; [| |exact I2]; lia|].
  intros i Hi. rewrite I3 by done. unfold d1. rewrite !cellptr_set_at by lia.
  bdec; try done; f_equal; lia.
Qed.

(** ** Cells *)

(** A leaf cell holds the key, the local part of the value, the length of the
    value and the first page of its overflow chain; an interior cell the left
    child and the separator. *)
Inductive cell :=
  | LeafCell (key lval : list Z) (vlen ovfl : Z)
  | IntCell (child : Z) (key : list Z).
#[export] Instance cell_eq_dec : EqDecision cell.
Proof. solve_decision. Defined.

Definition cell_bytes (ps : Z) (c : cell) : list Z :=
  match c with
  | LeafCell key lval vlen ovfl =>
      tdb_put_varint (blen key) ++ key ++ tdb_put_varint vlen ++ lval
        ++ (if local_val_len ps (blen key) vlen <? vlen then tdb_put_u32 ovfl else [])
  | IntCell child key => build_int_cell child key
  end.
Definition ckey (c : cell) : list Z := match c with LeafCell k _ _ _ => k | IntCell _ k => k end.
(** The cells a leaf ([lf]) or an interior page can hold. *)
Definition cell_wf (ps : Z) (lf : bool) (c : cell) : Prop :=
  match c with
  | LeafCell key lval vlen ovfl =>
      lf = true /\ blen key < 2 ^ 31 /\ 0 <= vlen < 2 ^ 31 /\ blen lval = local_val_len ps (blen key) vlen
      /\ (if blen lval <? vlen then 0 < ovfl < 2 ^ 32 else ovfl = 0)
  | IntCell child key => lf = false /\ 0 <= child < 2 ^ 32 /\ blen key < 2 ^ 31
  end.
Definition csize (ps : Z) (c : cell) : Z := blen (cell_bytes ps c).

Lemma csize_nonneg ps c : 0 <= csize ps c.
Proof. apply blen_nonneg. Qed.
Lemma local_val_len_range ps klen vlen : 0 <= vlen -> 0 <= local_val_len ps klen vlen <= vlen.
Proof. intros Hv. unfold local_val_len. bdec; lia. Qed.

Lemma csize_pos ps lf c : cell_wf ps lf c -> 0 < csize ps c.
Proof.
  unfold csize, cell_wf. destruct c as [key lval vlen ovfl|child key]; intros Hw.
  - cbn [cell_bytes]. rewrite !blen_app. pose proof (put_varint_len vlen ltac:(lia)). pose proof (blen_nonneg key).
    pose proof (blen_nonneg (tdb_put_varint (blen key))). pose proof (blen_nonneg lval).
    pose proof (blen_nonneg (if local_val_len ps (blen key) vlen <? vlen then tdb_put_u32 ovfl else [])). lia.
  - cbn [cell_bytes]. unfold build_int_cell. rewrite blen_app. change (blen (tdb_put_u32 child)) with 4.
    pose proof (blen_nonneg (tdb_put_varint (blen key) ++ key)). lia.
Qed.

(** The bytes of [c] are in [d] at [p]. *)
Definition cell_at (ps : Z) (d : list Z) (p : Z) (c : cell) : Prop :=
  0 <= p /\ p + csize ps c <= blen d /\ bsub d p (csize ps c) = cell_bytes ps c.
Lemma cell_at_from ps d p c : cell_at ps d p c -> bfrom d p = cell_bytes ps c ++ bfrom d (p + csize ps c).
Proof. intros (Hp & _ & E). rewrite <- E. apply bfrom_split; [done|apply csize_nonneg]. Qed.
Lemma cell_at_agree ps d d' p c : cell_at ps d p c -> agree d d' p (p + csize ps c) -> cell_at ps d' p c.
Proof.
  intros (Hp & Hd & E) Ha. pose proof (csize_nonneg ps c). split; [done|].
  split; [rewrite (proj1 Ha); done|]. rewrite <- E. apply agree_bsub; done || lia.
Qed.

Lemma read_varint_put v rest : 0 <= v < 2 ^ 64 -> read_varint (tdb_put_varint v ++ rest) = (blen (tdb_put_varint v), v).
Proof. intros Hv. unfold read_varint. rewrite get_put_varint; [done|done|]. apply put_varint_len. done. Qed.
Lemma bfrom_step d p a b : bfrom d p = a ++ b -> 0 <= p -> bfrom d (p + blen a) = b.
Proof. intros E Hp. pose proof (blen_nonneg a). rewrite <- bfrom_bfrom by done. rewrite E. by apply bfrom_app. Qed.
Lemma bsub_of_from d p a b n : 0 <= p -> bfrom d p = a ++ b -> n = blen a -> bsub d p n = a.
Proof.
  intros Hp E ->. unfold bsub, bfrom in *. rewrite E. unfold blen. rewrite Nat2Z.id. apply take_app_length.
Qed.

(** What [read_leafcell] and the interior accessors find at a cell. *)
Lemma read_leafcell_at ps d i key lval vlen ovfl :
  cell_wf ps true (LeafCell key lval vlen ovfl) ->
  cell_at ps d (cellptr_at d i) (LeafCell key lval vlen ovfl) ->
  exists off, read_leafcell ps d i = mk_leafcell key (blen key) off (blen lval) vlen ovfl
    /\ off = cellptr_at d i + blen (tdb_put_varint (blen key)) + blen key + blen (tdb_put_varint vlen)
    /\ bsub d off (blen lval) = lval.
Proof.
  intros (_ & Hk & Hv & Hl & Ho) Hat. pose proof (cell_at_from _ _ _ _ Hat) as E0. destruct Hat as (Hp & _ & _).
  pose proof (blen_nonneg key) as Hk0. pose proof (put_varint_len (blen key) ltac:(lia)) as Hkl. pose proof (put_varint_len vlen ltac:(lia)) as Hvl.
  cbn [cell_bytes] in E0. rewrite <- !app_assoc in E0. unfold read_leafcell.
  rewrite E0, read_varint_put by lia.
  pose proof (bfrom_step _ _ _ _ E0 Hp) as E1.
  pose proof (bfrom_step _ _ _ _ E1 ltac:(lia)) as E2. rewrite E2, read_varint_put by lia.
  pose proof (bfrom_step _ _ _ _ E2 ltac:(lia)) as E3.
  rewrite !s32_small by lia. rewrite <- Hl in *.
  pose proof (local_val_len_range ps (blen key) vlen ltac:(lia)) as Hr. rewrite <- Hl in Hr.
  rewrite (bsub_of_from d (cellptr_at d i + blen (tdb_put_varint (blen key))) key _ (blen key) ltac:(lia) E1 eq_refl).
  eexists. split; [f_equal|split; [reflexivity|]].
  - destruct (Z.ltb_spec (blen lval) vlen) as [Hlt|]; [|done].
    rewrite (bfrom_step _ _ _ _ E3 ltac:(lia)), get_put_u32. apply u32_small. lia.
  - eapply bsub_of_from; [lia|exact E3|done].
Qed.
Lemma intcell_at ps d i child key :
  cell_wf ps false (IntCell child key) -> cell_at ps d (cellptr_at d i) (IntCell child key) ->
  intcell_child d i = child /\ intcell_key d i = key /\ int_cell_size d i = csize ps (IntCell child key).
Proof.
  intros (_ & Hc & Hk) Hat. pose proof (cell_at_from _ _ _ _ Hat) as E0. destruct Hat as (Hp & _ & _).
  pose proof (blen_nonneg key) as Hk0. pose proof (put_varint_len (blen key) ltac:(lia)) as Hvl.
  cbn [cell_bytes] in E0. unfold build_int_cell in E0. rewrite <- !app_assoc in E0.
  unfold intcell_child, intcell_key, int_cell_size, csize. cbn [cell_bytes]. unfold build_int_cell.
  rewrite E0, get_put_u32, u32_small by lia.
  pose proof (bfrom_step _ _ _ _ E0 Hp) as E1. change (blen (tdb_put_u32 child)) with 4 in E1.
  rewrite E1, read_varint_put by lia. rewrite s32_small by lia.
  pose proof (bfrom_step _ _ _ _ E1 ltac:(lia)) as E2. split; [done|].
  split; [eapply bsub_of_from; [lia|exact E2|done]|]. rewrite !blen_app. change (blen (tdb_put_u32 child)) with 4. lia.
Qed.
Lemma cell_size_at ps d i c :
  cell_wf ps (pg_is_leaf d) c -> cell_at ps d (cellptr_at d i) c -> cell_size ps d i = csize ps c /\ cell_key ps d i = ckey c.
Proof.
  intros Hw Hat. unfold cell_size, cell_key. destruct c as [key lval vlen ovfl|child key].
  - pose proof (proj1 Hw) as El. rewrite El in *. destruct (read_leafcell_at _ _ _ _ _ _ _ Hw Hat) as (off & E & -> & _).
    split; [|by rewrite E]. unfold leaf_cell_size. rewrite E. cbn [lc_lval_off lc_local lc_ovfl].
    destruct Hw as (_ & Hk & Hv & Hl & Ho). unfold csize. cbn [cell_bytes]. rewrite <- Hl, !blen_app.
    destruct (blen lval <? vlen); [|subst; rewrite blen_nil; cbn; lia]. change (blen (tdb_put_u32 ovfl)) with 4. bdec. lia.
  - pose proof (proj1 Hw) as El. rewrite El in *. destruct (intcell_at _ _ _ _ _ Hw Hat) as (_ & E1 & E2). done.
Qed.

(** ** The cells of a page *)

Definition total (ps : Z) (cells : list cell) : Z := foldr (fun c n => csize ps c + n) 0 cells.
Definition ins_at {A} (i : nat) (c : A) (l : list A) : list A := take i l ++ c :: drop i l.

Record page_rep (ps : Z) (d : list Z) (cells : list cell) : Prop := mk_page_rep {
  pr_ps : 512 <= ps <= 65536;
  pr_len : blen d = ps;
  pr_n : pg_ncell d = Z.of_nat (length cells);
  pr_top : pg_hdrsize d + 2 * Z.of_nat (length cells) <= pg_content ps d;
  pr_room : pg_content ps d + total ps cells <= ps;
  pr_cells : forall i c, cells !! i = Some c ->
    cell_wf ps (pg_is_leaf d) c /\ pg_content ps d <= cellptr_at d (Z.of_nat i)
    /\ cell_at ps d (cellptr_at d (Z.of_nat i)) c }.
(** What an edit leaves of the header: the type and, on an interior page, the
    right child. *)
Definition hdr_kept (d d' : list Z) : Prop := agree d d' 0 3 /\ agree d d' 7 (pg_hdrsize d).

Lemma total_app ps l1 l2 : total ps (l1 ++ l2) = total ps l1 + total ps l2.
Proof. unfold total. induction l1 as [|c l1 IH]; cbn [app foldr]; lia. Qed.
Lemma total_nonneg ps l : 0 <= total ps l.
Proof. unfold total. induction l as [|c l IH]; cbn [foldr]; [lia|]. pose proof (csize_nonneg ps c). lia. Qed.
Lemma total_ins ps i c l : total ps (ins_at i c l) = csize ps c + total ps l.
Proof.
  pose proof (total_app ps (take i l) (drop i l)) as E. rewrite take_drop in E.
  unfold ins_at. rewrite total_app, E. unfold total. cbn [foldr]. lia.
Qed.
Lemma total_delete ps i c l : l !! i = Some c -> total ps l = csize ps c + total ps (delete i l).
Proof.
  unfold total. revert i. induction l as [|x l IH]; intros [|i] Hi; try discriminate.
  - by simplify_list_eq.
  - change (csize ps x + foldr (fun c0 n => csize ps c0 + n) 0 l
      = csize ps c + (csize ps x + foldr (fun c0 n => csize ps c0 + n) 0 (delete i l))). rewrite (IH i Hi). lia.
Qed.
Lemma length_ins {A} i (c : A) l : length (ins_at i c l) = S (length l).
Proof. unfold ins_at. rewrite length_app. cbn. rewrite length_take, length_drop. lia. Qed.
Lemma lookup_ins {A} i (c : A) l j :
  (i <= length l)%nat -> ins_at i c l !! j = if decide (j < i)%nat then l !! j else if decide (j = i) then Some c else l !! (j - 1)%nat.
Proof.
  intros Hi. unfold ins_at. destruct (decide (j < i)%nat).
  { rewrite lookup_app_l by (rewrite length_take; lia). by rewrite lookup_take_lt by lia. }
  rewrite lookup_app_r by (rewrite length_take; lia). rewrite length_take.
  destruct (decide (j = i)) as [->|]; [by replace (i - i `min` length l)%nat with 0%nat by lia|].
  replace (j - i `min` length l)%nat with (S (j - i - 1)) by lia.
  transitivity (drop i l !! (j - i - 1)%nat); [done|]. rewrite lookup_drop. f_equal. lia.
Qed.

Lemma page_rep_hdr d d' : hdr_kept d d' -> pg_is_leaf d' = pg_is_leaf d /\ pg_hdrsize d' = pg_hdrsize d.
Proof. intros [H1 _]. apply (agree_sub _ _ _ _ 0 1) in H1; [|lia..]. split; [by apply agree_leaf|by apply agree_hdrsize]. Qed.

(** The write of a cell that fits, byte by byte. *)
Lemma place_cell_frame ps d n index bs :
  512 <= ps <= 65536 -> blen d = ps -> pg_ncell d = n -> 0 <= index <= n -> 0 < blen bs ->
  pg_hdrsize d + n * 2 + 2 + blen bs <= pg_content ps d -> pg_content ps d <= ps ->
  let off := pg_content ps d - blen bs in
  let d' := place_cell ps d index bs in
  hdr_kept d d' /\ agree d d' (pg_content ps d) ps /\ bsub d' off (blen bs) = bs
  /\ pg_content ps d' = off /\ pg_ncell d' = n + 1
  /\ forall j, 0 <= j <= n -> cellptr_at d' j =
       if j <? index then cellptr_at d j else if j =? index then off else cellptr_at d (j - 1).
Proof.
  intros Hps Hlen Hn Hix Hs Hfree Htop off. unfold place_cell. fold off. pose proof (pg_hdrsize_range d) as Hh.
  set (top := pg_content ps d) in *. set (d1 := bput d off bs). set (d2 := pg_set_content ps d1 off).
  assert (forall lo hi, hi <= off \/ top <= lo -> agree d d1 lo hi) as A1 by (intros; apply agree_bput; lia).
  assert (blen d1 = ps) as L1 by (rewrite (proj1 (A1 0 0 ltac:(lia))); done).
  assert (forall lo hi, hi <= 5 \/ 7 <= lo -> agree d1 d2 lo hi) as A2.
  { intros lo hi Hr. apply (set_content_ok ps d1 off); lia. }
  assert (blen d2 = ps) as L2 by (rewrite (proj1 (A2 0 0 ltac:(lia))); done).
  assert (forall lo hi, hi <= off -> hi <= 5 \/ 7 <= lo -> agree d d2 lo hi) as A12.
  { intros lo hi H1 H2. eapply agree_trans; [apply A1|apply A2]; lia. }
  assert (pg_hdrsize d2 = pg_hdrsize d) as E2 by (apply agree_hdrsize, A12; lia).
  assert (pg_ncell d2 = n) as -> by (rewrite <- Hn; apply agree_ncell, A12; lia).
  destruct (shift_up_ok (Z.to_nat (n - index)) d2 n) as (S1 & S2 & S3); [lia|rewrite E2, L2; lia|].
  set (d3 := shift_up _ d2 n) in *. rewrite E2, L2 in *.
  assert (pg_hdrsize d3 = pg_hdrsize d) as E3 by (rewrite <- E2; apply agree_hdrsize; eapply agree_sub; [| |exact S1]; lia).
  assert (blen d3 = ps) as L3 by (rewrite (proj1 S1); done).
  set (d4 := cellptr_set d3 index off).
  assert (forall lo hi, hi <= pg_hdrsize d + index * 2 \/ pg_hdrsize d + index * 2 + 2 <= lo -> agree d3 d4 lo hi) as A4.
  { intros lo hi Hr. apply cellptr_set_ok; rewrite ?E3, ?L3; lia. }
  assert (blen d4 = ps) as L4 by (rewrite (proj1 (A4 0 0 ltac:(lia))); done).
  set (d5 := pg_set_ncell d4 (n + 1)).
  assert (forall lo hi, hi <= 3 \/ 5 <= lo -> agree d4 d5 lo hi) as A5 by (intros lo hi Hr; apply set_ncell_ok; lia).
  assert (agree d2 d5 off ps) as A25.
  { eapply agree_trans; [eapply agree_sub; [| |exact S2]; lia|]. eapply agree_trans; [apply A4|apply A5]; lia. }
  assert (forall lo hi, 0 <= lo -> hi <= 3 \/ 5 <= lo -> hi <= pg_hdrsize d -> agree d2 d5 lo hi) as B25.
  { intros lo hi H0 Hlo Hhi. eapply agree_trans; [eapply agree_sub; [| |exact S1]; lia|].
    eapply agree_trans; [apply A4|apply A5]; lia. }
  split; [split; (eapply agree_trans; [apply A12; lia|apply B25; lia])|].
  split; [eapply agree_trans; [apply A1; lia|]; eapply agree_trans; [apply A2; lia|eapply agree_sub; [| |exact A25]; lia]|].
  split; [transitivity (bsub d1 off (blen bs)); [apply agree_bsub; [lia..|]|apply bsub_bput_eq; lia]|].
  { eapply agree_trans; [apply A2; lia|eapply agree_sub; [| |exact A25]; lia]. }
  split; [rewrite (agree_content ps d2 d5) by (apply B25; lia); apply (set_content_ok ps d1 off 0 0); lia|].
  split; [apply (set_ncell_ok d4 (n + 1) 0 0); lia|].
  intros j Hj. transitivity (cellptr_at d4 j).
  { pose proof (pg_hdrsize_range d4). apply agree_cellptr; [lia|apply A5; lia..]. }
  unfold d4. rewrite cellptr_set_at by (rewrite ?E3, ?L3; lia). rewrite S3 by lia.
  bdec; try done; apply agree_cellptr; (lia || (apply A12; lia)).
Qed.
Lemma place_cell_ok ps d cells index c :
  page_rep ps d cells -> (index <= length cells)%nat -> cell_wf ps (pg_is_leaf d) c -> csize ps c + 2 <= free_contig ps d ->
  page_rep ps (place_cell ps d (Z.of_nat index) (cell_bytes ps c)) (ins_at index c cells)
  /\ hdr_kept d (place_cell ps d (Z.of_nat index) (cell_bytes ps c)).
Proof.
  intros [Hps Hlen Hn Htop Hroom Hc] Hix Hw Hfree. unfold free_contig in Hfree. rewrite Hn in Hfree.
  pose proof (csize_pos _ _ _ Hw) as Hs. pose proof (total_nonneg ps cells) as Ht. pose proof (pg_hdrsize_range d) as Hh.
  destruct (place_cell_frame ps d _ (Z.of_nat index) (cell_bytes ps c) Hps Hlen Hn) as (K5 & A5 & B5 & C5 & N5 & P5);
    [lia|done|fold (csize ps c); lia|lia|].
  set (d' := place_cell _ _ _ _) in *. fold (csize ps c) in *. destruct (page_rep_hdr _ _ K5) as [EL5 EH5].
  assert (blen d' = ps) as L5 by (rewrite (proj1 A5); done).
  split; [|done]. split; [done|done|rewrite length_ins; lia|rewrite length_ins, C5, EH5; lia|rewrite C5, total_ins; lia|].
  intros j cj Hj. rewrite C5, EL5. pose proof (lookup_lt_Some _ _ _ Hj) as Hjl. rewrite length_ins in Hjl.
  rewrite P5 by lia. rewrite lookup_ins in Hj by done.
  assert (forall k ck, cells !! k = Some ck -> cell_wf ps (pg_is_leaf d) ck /\ pg_content ps d - csize ps c <= cellptr_at d (Z.of_nat k)
            /\ cell_at ps d' (cellptr_at d (Z.of_nat k)) ck) as Hold.
  { intros k ck Hk. destruct (Hc k ck Hk) as (W & Hlo & Hat). split; [done|]. split; [lia|].
    eapply cell_at_agree; [exact Hat|]. destruct Hat as (_ & Hhi & _). eapply agree_sub; [| |exact A5]; lia. }
  destruct (decide (j < index)%nat); [destruct (Z.ltb_spec (Z.of_nat j) (Z.of_nat index)); [by apply Hold|lia]|].
  destruct (Z.ltb_spec (Z.of_nat j) (Z.of_nat index)); [lia|].
  destruct (decide (j = index)) as [->|Hne].
  - rewrite Z.eqb_refl. injection Hj as <-. split; [done|]. split; [lia|]. split; [lia|]. rewrite L5. split; [lia|done].
  - destruct (Z.eqb_spec (Z.of_nat j) (Z.of_nat index)); [lia|].
    replace (Z.of_nat j - 1) with (Z.of_nat (j - 1)) by lia. by apply Hold.
Qed.

(** ** Removal *)

Lemma delete_cell_ok ps d cells index c :
  page_rep ps d cells -> cells !! index = Some c ->
  page_rep ps (delete_cell d (Z.of_nat index)) (delete index cells) /\ hdr_kept d (delete_cell d (Z.of_nat index)).
Proof.
  intros [Hps Hlen Hn Htop Hroom Hc] Hix. pose proof (pg_hdrsize_range d) as Hh. pose proof (lookup_lt_Some _ _ _ Hix) as Hl.
  pose proof (total_nonneg ps cells) as Ht. pose proof (total_delete ps _ _ _ Hix) as Hd. pose proof (csize_nonneg ps c) as Hs.
  unfold delete_cell. rewrite Hn. set (n := Z.of_nat (length cells)) in *.
  destruct (shift_down_ok (Z.to_nat (n - 1 - Z.of_nat index)) d (Z.of_nat index)) as (S1 & S2 & S3); [lia|lia|].
  set (d1 := shift_down _ d _) in *. set (d2 := pg_set_ncell d1 (n - 1)).
  assert (blen d1 = ps) as L1 by (rewrite (proj1 S1); done).
  assert (forall lo hi, hi <= 3 \/ 5 <= lo -> agree d1 d2 lo hi) as A2 by (intros; apply set_ncell_ok; lia).
  assert (forall lo hi, 0 <= lo -> hi <= pg_hdrsize d \/ pg_content ps d <= lo -> hi <= ps -> hi <= 3 \/ 5 <= lo -> agree d d2 lo hi) as A02.
  { intros lo hi H1 H2 H3 H4. eapply agree_trans; [|apply A2; lia]. destruct H2; eapply agree_sub; [| |exact S1| | |exact S2]; lia. }
  assert (hdr_kept d d2) as K by (split; apply A02; lia). destruct (page_rep_hdr _ _ K) as [EL EH].
  assert (pg_content ps d2 = pg_content ps d) as EC by (apply agree_content, A02; lia).
  split; [|done]. split; [done|rewrite (proj1 (A2 0 0 ltac:(lia))); done| | |rewrite EC; lia|].
  - rewrite length_delete by eauto. unfold d2. rewrite (proj1 (set_ncell_ok d1 (n - 1) 0 0 ltac:(lia) ltac:(lia) ltac:(lia))). lia.
  - rewrite length_delete by eauto. rewrite EC, EH. lia.
  - intros j cj Hj. rewrite EL, EC.
    assert (exists k, cells !! k = Some cj /\ cellptr_at d2 (Z.of_nat j) = cellptr_at d (Z.of_nat k)) as (k & Hk & ->).
    { assert (cellptr_at d2 (Z.of_nat j) = cellptr_at d1 (Z.of_nat j)) as ->.
      { pose proof (pg_hdrsize_range d1). apply agree_cellptr; [lia|apply A2; lia..]. }
      rewrite S3 by lia. destruct (decide (j < index)%nat).
      - rewrite list_lookup_delete_lt in Hj by done. exists j. split; [done|]. bdec; done.
      - rewrite list_lookup_delete_ge in Hj by lia. exists (S j). pose proof (lookup_lt_Some _ _ _ Hj).
        split; [done|]. bdec. f_equal. lia. }
    destruct (Hc k cj Hk) as (W & Hlo & Hat). split; [done|]. split; [done|].
    eapply cell_at_agree; [exact Hat|]. destruct Hat as (_ & Hhi & _). apply A02; lia.
Qed.

(** ** Defragmentation *)

(** The copy loop packs the cells downwards from [write]. *)
Lemma defrag_copy_ok ps d rest i write scratch offs :
  (forall k c, rest !! k = Some c -> 0 < csize ps c /\ cell_size ps d (i + Z.of_nat k) = csize ps c
     /\ bsub d (cellptr_at d (i + Z.of_nat k)) (csize ps c) = cell_bytes ps c) ->
  blen scratch = ps -> total ps rest <= write <= ps ->
  exists scratch' new,
    defrag_copy (length rest) ps d i write scratch offs = (write - total ps rest, scratch', offs ++ new)
    /\ agree scratch scratch' write ps /\ length new = length rest
    /\ forall k c, rest !! k = Some c -> exists o, new !! k = Some o /\ write - total ps rest <= o /\ o + csize ps c <= write
         /\ bsub scratch' o (csize ps c) = cell_bytes ps c.
Proof.
  revert i write scratch offs. induction rest as [|c rest IH]; intros i write scratch offs Hc Hs Hw.
  { exists scratch, []. cbn [length defrag_copy]. rewrite app_nil_r, Z.sub_0_r. done. }
  cbn [length defrag_copy]. destruct (Hc 0%nat c eq_refl) as (Hpos & Esz & Ebs). rewrite Z.add_0_r in Esz, Ebs.
  change (total ps (c :: rest)) with (csize ps c + total ps rest) in *. pose proof (total_nonneg ps rest) as Ht.
  rewrite Esz, Ebs. set (sc := bput scratch _ _).
  assert (forall hi lo, hi <= write - csize ps c \/ write <= lo -> agree scratch sc lo hi) as Ha
    by (intros; apply agree_bput; fold (csize ps c); lia).
  destruct (IH (i + 1) (write - csize ps c) sc (offs ++ [write - csize ps c])) as (sc' & new & E & A & L & N).
  { intros k ck Hk. specialize (Hc (S k) ck Hk). by replace (i + 1 + Z.of_nat k) with (i + Z.of_nat (S k)) by lia. }
  { rewrite (proj1 (Ha 0 0 ltac:(lia))). done. }
  { lia. }
  exists sc', ((write - csize ps c) :: new). rewrite E, <- app_assoc. cbn [app]. split; [f_equal; f_equal; lia|].
  split; [eapply agree_trans; [apply Ha; lia|eapply agree_sub; [| |exact A]; lia]|].
  split; [cbn; lia|]. intros [|k] ck Hk.
  - injection Hk as <-. eexists. split; [done|]. split; [lia|]. split; [lia|].
    rewrite <- (bsub_bput_eq scratch (write - csize ps c) (cell_bytes ps c) (csize ps c)) by (done || (fold (csize ps c); lia)).
    apply agree_bsub; [lia..| |eapply agree_sub; [| |exact A]; lia]. fold sc. rewrite (proj1 (Ha 0 0 ltac:(lia))). lia.
  - destruct (N k ck Hk) as (o & H1 & H2 & H3 & H4). exists o. split; [done|]. split; [lia|]. split; [lia|done].
Qed.
Lemma set_cellptrs_ok offs d i lo hi :
  0 <= i -> pg_hdrsize d + (i + Z.of_nat (length offs)) * 2 <= blen d -> Forall (fun o => 0 <= o < 65536) offs ->
  hi <= pg_hdrsize d + i * 2 \/ pg_hdrsize d + (i + Z.of_nat (length offs)) * 2 <= lo ->
  agree d (set_cellptrs d i offs) lo hi
  /\ forall k o, offs !! k = Some o -> cellptr_at (set_cellptrs d i offs) (i + Z.of_nat k) = o.
Proof.
  revert d i lo hi. induction offs as [|o offs IH]; intros d i lo hi Hi Hd Hall Hr; [split; [apply agree_refl|done]|].
  cbn [length set_cellptrs] in *. apply Forall_cons in Hall as [Ho Hall]. pose proof (pg_hdrsize_range d) as Hh.
  set (d1 := cellptr_set d i o).
  assert (forall lo hi, hi <= pg_hdrsize d + i * 2 \/ pg_hdrsize d + i * 2 + 2 <= lo -> agree d d1 lo hi) as Ha
    by (intros; apply cellptr_set_ok; lia).
  assert (pg_hdrsize d1 = pg_hdrsize d) as Eh by (apply agree_hdrsize, Ha; lia).
  assert (blen d1 = blen d) as El by (apply (Ha 0 0); lia).
  split; [eapply agree_trans; [apply Ha; lia|apply IH; rewrite ?Eh, ?El; (done || lia)]|].
  intros [|k] x Hk.
  - injection Hk as <-. rewrite Z.add_0_r. transitivity (cellptr_at d1 i).
    + apply agree_cellptr; [done|..]; apply IH; rewrite ?Eh, ?El; (done || lia).
    + unfold d1. rewrite cellptr_set_at by lia. bdec. done.
  - replace (i + Z.of_nat (S k)) with (i + 1 + Z.of_nat k) by lia. revert k x Hk.
    apply (IH d1 (i + 1) 0 0); rewrite ?Eh, ?El; (done || lia).
Qed.

Lemma pg_defrag_ok alloc_ok ps d cells :
  alloc_ok ps = true -> page_rep ps d cells ->
  let d' := pg_defrag alloc_ok ps d in
  page_rep ps d' cells /\ hdr_kept d d' /\ pg_content ps d' = ps - total ps cells.
Proof.
  intros Hal [Hps Hlen Hn Htop Hroom Hc]. cbv zeta. unfold pg_defrag. rewrite Hal. cbn [negb].
  pose proof (total_nonneg ps cells) as Ht. pose proof (pg_hdrsize_range d) as Hh.
  destruct (defrag_copy_ok ps d cells 0 ps (bzero ps) []) as (sc & offs & E & A & L & N).
  { intros k c Hk. destruct (Hc k c Hk) as (W & _ & Hat). rewrite Z.add_0_l.
    split; [by eapply csize_pos|]. split; [by apply cell_size_at|]. apply Hat. }
  { apply blen_bzero. lia. }
  { lia. }
  rewrite Hn, Nat2Z.id, E. cbn [app]. set (write := ps - total ps cells) in *.
  assert (blen sc = ps) as Lsc by (rewrite (proj1 A); apply blen_bzero; lia).
  set (d1 := bput d write (bfrom sc write)).
  assert (blen (bfrom sc write) = ps - write) as Lf by (rewrite blen_bfrom; lia).
  assert (forall lo hi, hi <= write -> agree d d1 lo hi) as A1 by (intros; apply agree_bput; lia).
  assert (blen d1 = ps) as L1 by (rewrite (proj1 (A1 0 0 ltac:(lia))); done).
  assert (pg_hdrsize d1 = pg_hdrsize d) as E1 by (apply agree_hdrsize, A1; lia).
  assert (forall k o, offs !! k = Some o -> write <= o < 65536) as Hoffs.
  { intros k o Hk. pose proof (lookup_lt_Some _ _ _ Hk) as Hl. rewrite L in Hl.
    destruct (lookup_lt_is_Some_2 cells k Hl) as [c Hkc]. destruct (N k c Hkc) as (o' & H1 & H2 & H3 & _).
    pose proof (csize_pos _ _ _ (proj1 (Hc k c Hkc))). simplify_eq. lia. }
  set (d2 := set_cellptrs d1 0 offs).
  assert (forall lo hi, hi <= pg_hdrsize d \/ write <= lo -> agree d1 d2 lo hi
            /\ forall k o, offs !! k = Some o -> cellptr_at d2 (0 + Z.of_nat k) = o) as A2.
  { intros lo hi Hr. apply set_cellptrs_ok; rewrite ?E1, ?L1, ?L; [lia|lia| |lia].
    apply Forall_lookup. intros k o Hk. pose proof (Hoffs k o Hk). lia. }
  destruct (A2 0 0 ltac:(lia)) as [[L2 _] P2]. rewrite L1 in L2.
  set (d3 := pg_set_content ps d2 write).
  assert (forall lo hi, hi <= 5 \/ 7 <= lo -> pg_content ps d3 = write /\ agree d2 d3 lo hi) as A3
    by (intros; apply set_content_ok; lia).
  assert (forall lo hi, hi <= 5 \/ 7 <= lo -> hi <= pg_hdrsize d -> agree d d3 lo hi) as A03.
  { intros lo hi H1 H2. eapply agree_trans; [apply A1; lia|]. eapply agree_trans; [apply A2|apply A3]; lia. }
  assert (hdr_kept d d3) as K by (split; apply A03; lia). destruct (page_rep_hdr _ _ K) as [EL EH].
  destruct (A3 0 0 ltac:(lia)) as [EC [L3 _]]. rewrite L2 in L3.
  split; [|done]. split; [done|done|rewrite <- Hn; apply agree_ncell, A03; lia|rewrite EC, EH; lia|rewrite EC; lia|].
  intros k c Hk. rewrite EC, EL. destruct (N k c Hk) as (o & Ho & H1 & H2 & H3).
  assert (cellptr_at d3 (Z.of_nat k) = o) as ->.
  { rewrite <- (P2 k o Ho), Z.add_0_l. pose proof (pg_hdrsize_range d2). apply agree_cellptr; [lia|apply A3; lia..]. }
  split; [apply (Hc k c Hk)|]. split; [done|]. pose proof (csize_nonneg ps c). split; [lia|]. rewrite L3. split; [lia|].
  rewrite <- H3. transitivity (bsub d1 o (csize ps c)).
  - apply agree_bsub; [lia..|]. eapply agree_trans; [apply A2; lia|apply A3; lia].
  - unfold d1. rewrite bput_split by lia. 
    assert (blen (bsub d 0 write) = write) as Lw by (rewrite blen_bsub; lia).
    rewrite bsub_app_r, Lw by lia. rewrite bsub_app_l by lia. unfold bsub, bfrom. rewrite drop_drop. do 2 f_equal. lia.
Qed.

(** ** Insertion and a fresh page *)

(** The bytes a page with these cells takes. *)
Definition page_used (ps hdr : Z) (cells : list cell) : Z := hdr + 2 * Z.of_nat (length cells) + total ps cells.

Lemma insert_cell_ok alloc_ok ps d cells index c :
  alloc_ok ps = true -> page_rep ps d cells -> (index <= length cells)%nat -> cell_wf ps (pg_is_leaf d) c ->
  let '(rc, d') := insert_cell alloc_ok ps d (Z.of_nat index) (cell_bytes ps c) in
  let fits := page_used ps (pg_hdrsize d) (ins_at index c cells) <=? ps in
  rc = (if fits then TDB_OK else TDB_FULL)
  /\ page_rep ps d' (if fits then ins_at index c cells else cells) /\ hdr_kept d d'.
Proof.
  intros Hal Hd Hix Hw. unfold insert_cell, page_used. fold (csize ps c). rewrite length_ins, total_ins.
  destruct (pg_defrag_ok alloc_ok ps d cells Hal Hd) as (Hd' & K & C). set (d1 := pg_defrag _ _ _) in *.
  destruct (page_rep_hdr _ _ K) as [EL EH].
  pose proof (pr_room _ _ _ Hd) as Hroom. pose proof (pr_n _ _ _ Hd) as Hn. pose proof (pr_n _ _ _ Hd') as Hn'.
  destruct (Z.ltb_spec (free_contig ps d) (csize ps c + 2)) as [Hf|Hf].
  - destruct (Z.ltb_spec (free_contig ps d1) (csize ps c + 2)) as [Hf1|Hf1];
      unfold free_contig in Hf, Hf1; destruct (Z.leb_spec (pg_hdrsize d + 2 * Z.of_nat (S (length cells)) + (csize ps c + total ps cells)) ps); try lia.
    + done.
    + destruct (place_cell_ok ps d1 cells index c Hd' Hix) as [Hp Kp]; [by rewrite EL|unfold free_contig; lia|].
      split; [done|]. split; [done|]. destruct K, Kp. split; (eapply agree_trans; [done|]); rewrite <- ?EH; done.
  - destruct (place_cell_ok ps d cells index c Hd Hix Hw Hf) as [Hp Kp]. unfold free_contig in Hf.
    bdec. done.
Qed.

Lemma init_page_ok ps d type :
  512 <= ps <= 65536 -> blen d = ps -> page_rep ps (init_page ps d type) [] /\ pg_type (init_page ps d type) = type.
Proof.
  intros Hps Hlen. unfold init_page. set (d0 := bput d 0 (bzero ps)).
  assert (blen d0 = ps) as L0 by (unfold d0; rewrite blen_bput; rewrite ?blen_bzero; lia).
  set (d1 := bput d0 TDB_BT_TYPE [type]).
  assert (0 + blen [type] <= blen d0) as Ht by (change (1 <= blen d0); lia).
  assert (blen d1 = ps) as L1 by (unfold d1, TDB_BT_TYPE; rewrite blen_bput by (done || lia); done).
  destruct (set_ncell_ok d1 0 0 1) as [N2 A2]; [lia..|]. set (d2 := pg_set_ncell d1 0) in *.
  assert (blen d2 = ps) as L2 by (rewrite (proj1 A2); done).
  destruct (set_content_ok ps d2 ps 0 5) as [C3 A3]; [lia..|]. set (d3 := pg_set_content ps d2 ps) in *.
  pose proof (pg_hdrsize_range d3) as Hh. split; [split|].
  - done.
  - rewrite (proj1 A3). done.
  - rewrite (agree_ncell d2 d3); [done|]. eapply agree_sub; [| |exact A3]; lia.
  - rewrite C3. cbn. lia.
  - rewrite C3. cbn. lia.
  - intros i c Hi. done.
  - transitivity (pg_type d2); [apply agree_type; eapply agree_sub; [| |exact A3]; lia|].
    transitivity (pg_type d1); [apply agree_type; eapply agree_sub; [| |exact A2]; lia|].
    unfold pg_type, d1. unfold TDB_BT_TYPE. rewrite bget_bput_in; [done|lia|done|]. change (0 <= 0 < 1). lia.
Qed.

Lemma init_page_content ps d type : 512 <= ps <= 65536 -> blen d = ps -> pg_content ps (init_page ps d type) = ps.
Proof.
  intros Hps Hd. unfold init_page. apply (set_content_ok ps _ ps 0 0); [|lia..].
  assert (blen (bput d 0 (bzero ps)) = ps) as L0 by (rewrite blen_bput; rewrite ?blen_bzero; lia).
  assert (blen (bput (bput d 0 (bzero ps)) TDB_BT_TYPE [type]) = ps) as L1.
  { rewrite blen_bput; [done|done|]. rewrite L0. change (0 + 1 <= ps). lia. }
  destruct (set_ncell_ok (bput (bput d 0 (bzero ps)) TDB_BT_TYPE [type]) 0 0 0) as [_ [A _]]; [lia..|]. rewrite A, L1. lia.
Qed.

Lemma page_rep_read ps d cells i c :
  page_rep ps d cells -> cells !! i = Some c ->
  cell_size ps d (Z.of_nat i) = csize ps c /\ cell_key ps d (Z.of_nat i) = ckey c
  /\ bsub d (cellptr_at d (Z.of_nat i)) (cell_size ps d (Z.of_nat i)) = cell_bytes ps c.
Proof.
  intros Hd Hi. destruct (pr_cells _ _ _ Hd i c Hi) as (W & _ & Hat).
  destruct (cell_size_at ps d (Z.of_nat i) c W Hat) as [-> ->]. split; [done|]. split; [done|]. apply Hat.
Qed.
Lemma map_seqZ_lookup {A B} (f : Z -> A) (g : B -> A) (l : list B) :
  (forall i c, l !! i = Some c -> f (Z.of_nat i) = g c) -> map f (seqZ 0 (Z.of_nat (length l))) = map g l.
Proof.
  intros Hf. apply list_eq. intros i. change (map f) with (fmap (M := list) f). change (map g) with (fmap (M := list) g).
  rewrite !list_lookup_fmap. destruct (l !! i) as [c|] eqn:E.
  - pose proof (lookup_lt_Some _ _ _ E). rewrite lookup_seqZ_lt by lia. cbn. f_equal. rewrite Z.add_0_l. by apply Hf.
  - apply lookup_ge_None in E. rewrite lookup_seqZ_ge by lia. done.
Qed.
Lemma page_rep_cells ps d cells :
  page_rep ps d cells ->
  page_cells ps d = map (cell_bytes ps) cells /\ map (cell_key ps d) (seqZ 0 (pg_ncell d)) = map ckey cells.
Proof.
  intros Hd. unfold page_cells. rewrite (pr_n _ _ _ Hd).
  split; apply map_seqZ_lookup; intros i c Hi; by apply (page_rep_read ps d cells i c).
Qed.

(** ** Sequences of edits *)

Inductive page_op := OpInsert (i : nat) (c : cell) | OpDelete (i : nat).
Definition op_valid (ps : Z) (lf : bool) (cells : list cell) (op : page_op) : Prop :=
  match op with
  | OpInsert i c => (i <= length cells)%nat /\ cell_wf ps lf c
  | OpDelete i => (i < length cells)%nat
  end.
(** The page's routines. *)
Definition page_step (alloc_ok : Z -> bool) (ps : Z) (d : list Z) (op : page_op) : tdb_status * list Z :=
  match op with
  | OpInsert i c => insert_cell alloc_ok ps d (Z.of_nat i) (cell_bytes ps c)
  | OpDelete i => (TDB_OK, delete_cell d (Z.of_nat i))
  end.
(** The list operations they stand for: an insertion is refused exactly when
    the cells would not fit the page. *)
Definition list_step (ps hdr : Z) (cells : list cell) (op : page_op) : tdb_status * list cell :=
  match op with
  | OpInsert i c =>
      if page_used ps hdr (ins_at i c cells) <=? ps then (TDB_OK, ins_at i c cells) else (TDB_FULL, cells)
  | OpDelete i => (TDB_OK, delete i cells)
  end.
Fixpoint run {A} (step : A -> page_op -> tdb_status * A) (a : A) (ops : list page_op) : list tdb_status * A :=
  match ops with
  | [] => ([], a)
  | op :: ops => let '(rc, a) := step a op in let '(rcs, a) := run step a ops in (rc :: rcs, a)
  end.
Fixpoint ops_valid (ps : Z) (lf : bool) (hdr : Z) (cells : list cell) (ops : list page_op) : Prop :=
  match ops with
  | [] => True
  | op :: ops => op_valid ps lf cells op /\ ops_valid ps lf hdr (list_step ps hdr cells op).2 ops
  end.

Lemma page_step_ok alloc_ok ps d cells op :
  alloc_ok ps = true -> page_rep ps d cells -> op_valid ps (pg_is_leaf d) cells op ->
  (page_step alloc_ok ps d op).1 = (list_step ps (pg_hdrsize d) cells op).1
  /\ page_rep ps (page_step alloc_ok ps d op).2 (list_step ps (pg_hdrsize d) cells op).2
  /\ hdr_kept d (page_step alloc_ok ps d op).2.
Proof.
  intros Hal Hd Hv. destruct op as [i c|i]; cbn [page_step list_step].
  - destruct Hv as [Hi Hw]. pose proof (insert_cell_ok alloc_ok ps d cells i c Hal Hd Hi Hw) as E.
    destruct (insert_cell _ _ _ _ _) as [rc d']. cbn [fst snd]. by destruct (_ <=? ps).
  - cbn [fst snd]. split; [done|]. destruct (lookup_lt_is_Some_2 cells i Hv) as [c Hc]. by eapply delete_cell_ok.
Qed.
Lemma page_run_ok alloc_ok ps ops d cells :
  alloc_ok ps = true -> page_rep ps d cells -> ops_valid ps (pg_is_leaf d) (pg_hdrsize d) cells ops ->
  (run (page_step alloc_ok ps) d ops).1 = (run (list_step ps (pg_hdrsize d)) cells ops).1
  /\ page_rep ps (run (page_step alloc_ok ps) d ops).2 (run (list_step ps (pg_hdrsize d)) cells ops).2
  /\ pg_type (run (page_step alloc_ok ps) d ops).2 = pg_type d.
Proof.
  intros Hal. revert d cells. induction ops as [|op ops IH]; intros d cells Hd Hv; [done|]. destruct Hv as [Hv Hvs].
  destruct (page_step_ok alloc_ok ps d cells op Hal Hd Hv) as (E & Hd' & K). destruct (page_rep_hdr _ _ K) as [EL EH].
  cbn [run]. destruct (page_step alloc_ok ps d op) as [rc d'], (list_step ps (pg_hdrsize d) cells op) as [rc' cells'].
  cbn [fst snd] in *. subst rc'. destruct (IH d' cells' Hd') as (E1 & E2 & E3); [by rewrite EL, EH|]. rewrite EH in *.
  destruct (run (page_step alloc_ok ps) d' ops), (run (list_step ps (pg_hdrsize d)) cells' ops). cbn [fst snd] in *.
  split; [by f_equal|]. split; [done|]. rewrite E3. apply agree_type. eapply agree_sub; [| |exact (proj1 K)]; lia.
Qed.

(** C9. Any sequence of cell insertions and deletions on a freshly initialised
    page behaves as the same sequence on a list of cells: every status is the
    expected one (an insertion is refused with [TDB_FULL] exactly when the
    header, the pointer array and the cells would exceed the page, the cells
    staying as they were), and the bytes and keys read back from the page are
    those of the list.  Defragmentation happens inside and is invisible. *)
Theorem page_edits_refine_list alloc_ok ps d type ops :
  512 <= ps <= 65536 -> blen d = ps -> alloc_ok ps = true ->
  let d0 := init_page ps d type in
  let hdr := if is_leaf_type type then TDB_BT_LEAF_HDR_SIZE else TDB_BT_INTERIOR_HDR_SIZE in
  ops_valid ps (is_leaf_type type) hdr [] ops ->
  let '(rcs, d') := run (page_step alloc_ok ps) d0 ops in
  let '(rcs', cells) := run (list_step ps hdr) [] ops in
  rcs = rcs' /\ page_cells ps d' = map (cell_bytes ps) cells
  /\ map (cell_key ps d') (seqZ 0 (pg_ncell d')) = map ckey cells
  /\ pg_type d' = type /\ page_used ps hdr cells <= ps.
Proof.
  intros Hps Hlen Hal d0 hdr Hv. destruct (init_page_ok ps d type Hps Hlen) as [Hr Ht]. fold d0 in Hr, Ht.
  assert (pg_hdrsize d0 = hdr) as Eh by (unfold pg_hdrsize, pg_is_leaf; rewrite Ht; done).
  destruct (page_run_ok alloc_ok ps ops d0 [] Hal Hr) as (E1 & E2 & E3).
  { rewrite Eh. unfold pg_is_leaf. by rewrite Ht. }
  rewrite Eh in *. destruct (run (page_step alloc_ok ps) d0 ops) as [rcs d'], (run (list_step ps hdr) [] ops) as [rcs' cells].
  cbn [fst snd] in *. destruct (page_rep_cells _ _ _ E2) as [C1 C2].
  split; [done|]. split; [done|]. split; [done|]. split; [congruence|].
  pose proof (pr_top _ _ _ E2). pose proof (pr_room _ _ _ E2). unfold page_used.
  assert (pg_hdrsize d' = hdr) by (rewrite <- Eh; unfold pg_hdrsize, pg_is_leaf; by rewrite E3). lia.
Qed.

(** ** Search *)

(** The loop finds the first position at which the comparison is not
    negative, whatever the fuel above the width of the range. *)
Lemma find_loop_ok fuel cmp lo hi :
  0 <= lo <= hi -> hi - lo <= Z.of_nat fuel ->
  (forall i j, lo <= i <= j -> j < hi -> cmp j < 0 -> cmp i < 0) ->
  lo <= find_loop fuel cmp lo hi <= hi
  /\ (forall i, lo <= i < find_loop fuel cmp lo hi -> cmp i < 0)
  /\ (forall i, find_loop fuel cmp lo hi <= i < hi -> 0 <= cmp i).
Proof.
  revert lo hi. induction fuel as [|fuel IH]; intros lo hi Hr Hf Hm; cbn [find_loop].
  { split; [lia|]. split; intros i Hi; lia. }
  destruct (Z.ltb_spec lo hi) as [Hlt|]; [|split; [lia|]; split; intros i Hi; lia].
  set (mid := (lo + hi) / 2). assert (lo <= mid < hi) as Hmid.
  { unfold mid. split; [apply Z.div_le_lower_bound; lia|apply Z.div_lt_upper_bound; lia]. }
  destruct (Z.ltb_spec (cmp mid) 0) as [Hc|Hc].
  - destruct (IH (mid + 1) hi) as (H1 & H2 & H3); [lia|lia|intros i j Hij Hj; apply Hm; lia|].
    split; [lia|]. split; [|done]. intros i Hi. destruct (Z.le_gt_cases i mid); [apply (Hm i mid); lia|apply H2; lia].
  - destruct (IH lo mid) as (H1 & H2 & H3); [lia|lia|intros i j Hij Hj; apply Hm; lia|].
    split; [lia|]. split; [done|]. intros i Hi. destruct (Z.lt_ge_cases i mid) as [|Hge]; [apply H3; lia|].
    destruct (Z.lt_ge_cases (cmp i) 0) as [Hn|]; [|done]. pose proof (Hm mid i ltac:(lia) ltac:(lia) Hn). lia.
Qed.

(** Rowid keys compare as the unsigned rowids. *)
Fixpoint be (l : list Z) : Z := match l with [] => 0 | x :: l => x * 256 ^ blen l + be l end.
Lemma be_range l : bytes_ok l -> 0 <= be l < 256 ^ blen l.
Proof.
  induction 1 as [|x l Hx Hl IH]; cbn [be]; [done|]. rewrite blen_cons, Z.pow_add_r by (pose proof (blen_nonneg l); lia).
  unfold is_byte in Hx. nia.
Qed.
Lemma lex_cmp_be a b :
  bytes_ok a -> bytes_ok b -> length a = length b ->
  lex_cmp a b = if be a <? be b then -1 else if be b <? be a then 1 else 0.
Proof.
  intros Ha. revert b. induction Ha as [|x a Hx Ha IH]; intros [|y b] Hb Hl; try discriminate; [done|].
  apply Forall_cons in Hb as [Hy Hb]. injection Hl as Hl. cbn [lex_cmp be]. rewrite (IH b Hb Hl).
  assert (blen a = blen b) as -> by (unfold blen; lia).
  pose proof (be_range b Hb). pose proof (be_range a Ha) as Hra. replace (blen a) with (blen b) in Hra by (unfold blen; lia).
  assert (forall u v, u < v -> u * 256 ^ blen b + 256 ^ blen b <= v * 256 ^ blen b) as Hm by (intros; nia).
  destruct (Z.lt_trichotomy x y) as [Hxy|[->|Hxy]]; [pose proof (Hm x y Hxy)| |pose proof (Hm y x Hxy)]; bdec; lia.
Qed.
Lemma put_u64_bytes v : bytes_ok (tdb_put_u64 v).
Proof. unfold tdb_put_u64, tdb_put_u32. cbn [app]. repeat constructor; apply u8_range. Qed.
Lemma be_put_u64 v : be (tdb_put_u64 v) = u64 v.
Proof.
  unfold tdb_put_u64, tdb_put_u32. cbn [app be blen length]. unfold blen. cbn [length]. unfold_casts. rewrite !Z.shiftr_div_pow2 by lia.
  change (256 ^ Z.of_nat 7) with (2 ^ 56). change (256 ^ Z.of_nat 6) with (2 ^ 48). change (256 ^ Z.of_nat 5) with (2 ^ 40).
  change (256 ^ Z.of_nat 4) with (2 ^ 32). change (256 ^ Z.of_nat 3) with (2 ^ 24). change (256 ^ Z.of_nat 2) with (2 ^ 16).
  change (256 ^ Z.of_nat 1) with 256. change (256 ^ Z.of_nat 0) with 1. div_lia.
Qed.
Lemma rowid_cmp a b :
  0 <= a < 2 ^ 64 -> 0 <= b < 2 ^ 64 ->
  memcmp (rowid_to_key a) (rowid_to_key b) 8 = if a <? b then -1 else if b <? a then 1 else 0.
Proof.
  intros Ha Hb. change 8%nat with (length (rowid_to_key a)). rewrite memcmp_exact by done.
  unfold rowid_to_key. rewrite lex_cmp_be by (done || apply put_u64_bytes). by rewrite !be_put_u64, !u64_small by lia.
Qed.
(** The number of elements below [r] in a sorted list is the position that
    separates them. *)
Lemma sorted_split (rs : list Z) r p :
  (p <= length rs)%nat -> (forall i x, rs !! i = Some x -> (x < r <-> (i < p)%nat)) ->
  length (base.filter (fun x => x < r) rs) = p.
Proof.
  revert p. induction rs as [|x rs IH]; intros p Hp Hs; [cbn in *; lia|].
  pose proof (Hs 0%nat x eq_refl) as H0. rewrite filter_cons. destruct (decide (x < r)) as [Hx|Hx].
  - destruct p as [|p]; [lia|]. cbn in *. f_equal. apply IH; [lia|]. intros i y Hi. rewrite (Hs (S i) y Hi). lia.
  - destruct p as [|p]; [|lia]. apply IH; [lia|]. intros i y Hi. rewrite (Hs (S i) y Hi). lia.
Qed.

Lemma sorted_lookup (rs : list Z) i j x y :
  StronglySorted Z.lt rs -> rs !! i = Some x -> rs !! j = Some y -> (i < j)%nat -> x < y.
Proof.
  intros Hs. revert i j. induction Hs as [|z rs Hs IH Hz]; intros i j Hi Hj Hij; [done|].
  destruct j as [|j]; [lia|]. destruct i as [|i]; [|by apply (IH i j); (done || lia)].
  injection Hi as ->. rewrite Forall_lookup in Hz. by apply (Hz j).
Qed.
(** On sorted rowids a binary search with the comparison of rowids finds the
    lower bound. *)
Lemma find_loop_sorted rs r cmp :
  StronglySorted Z.lt rs ->
  (forall i x, rs !! i = Some x -> cmp (Z.of_nat i) = if x <? r then -1 else if r <? x then 1 else 0) ->
  let n := Z.of_nat (length rs) in
  let p := find_loop (length rs) cmp 0 n in
  p = Z.of_nat (length (base.filter (fun x => x < r) rs))
  /\ (p <? n) && (cmp p =? 0) = bool_decide (r ∈ rs).
Proof.
  intros Hs Hcmp n p.
  assert (forall i, 0 <= i < n -> exists x, rs !! Z.to_nat i = Some x /\ cmp i = if x <? r then -1 else if r <? x then 1 else 0) as Hat.
  { intros i Hi. destruct (lookup_lt_is_Some_2 rs (Z.to_nat i)) as [x Hx]; [lia|]. exists x. split; [done|].
    rewrite <- (Hcmp _ _ Hx). f_equal. lia. }
  destruct (find_loop_ok (length rs) cmp 0 n) as (F1 & F2 & F3); [lia|lia| |].
  { intros i j Hij Hj. destruct (Hat i ltac:(lia)) as (x & Hx & ->), (Hat j ltac:(lia)) as (y & Hy & ->).
    destruct (decide (i = j)) as [->|]; [by simplify_eq|]. pose proof (sorted_lookup _ _ _ _ _ Hs Hx Hy ltac:(lia)). bdec; lia. }
  fold p in F1, F2, F3.
  assert (forall i x, rs !! i = Some x -> x < r <-> (i < Z.to_nat p)%nat) as Hsplit.
  { intros i x Hi. pose proof (Hcmp i x Hi) as Hc. pose proof (lookup_lt_Some _ _ _ Hi).
    split; intros Hx.
    - destruct (decide (i < Z.to_nat p)%nat); [done|]. pose proof (F3 (Z.of_nat i) ltac:(lia)) as Hge.
      rewrite Hc in Hge. destruct (Z.ltb_spec x r); lia.
    - pose proof (F2 (Z.of_nat i) ltac:(lia)) as Hlt. rewrite Hc in Hlt. destruct (Z.ltb_spec x r); [done|].
      destruct (r <? x); lia. }
  split; [rewrite (sorted_split rs r (Z.to_nat p)); [lia|lia|done]|].
  assert (forall j, rs !! j = Some r -> j = Z.to_nat p) as Hpos.
  { intros j Hj. pose proof (Hsplit j r Hj). pose proof (lookup_lt_Some _ _ _ Hj).
    destruct (Hat p ltac:(lia)) as (x & Hx & _). pose proof (Hsplit _ _ Hx).
    destruct (decide (j = Z.to_nat p)); [done|]. pose proof (sorted_lookup _ _ _ _ _ Hs Hx Hj ltac:(lia)). lia. }
  destruct (decide (r ∈ rs)) as [[j Hj]%list_elem_of_lookup_1|Hnot].
  - rewrite bool_decide_eq_true_2 by (by eapply list_elem_of_lookup_2). pose proof (Hpos j Hj) as ->.
    pose proof (lookup_lt_Some _ _ _ Hj). pose proof (Hcmp _ _ Hj) as Hc. rewrite Z2Nat.id, Z.ltb_irrefl in Hc by lia.
    rewrite Hc. bdec. done.
  - rewrite bool_decide_eq_false_2 by done. destruct (Z.ltb_spec p n) as [Hp|]; [|done]. cbn [andb].
    destruct (Hat p ltac:(lia)) as (x & Hx & ->). assert (x <> r) by (intros ->; by eapply Hnot, list_elem_of_lookup_2).
    bdec; done.
Qed.

(** The search in a table page. *)
Lemma pg_find_rows alloc_ok bt d cells rs r :
  bt_kind bt = TDB_BT_TABLE -> page_rep (bt_ps bt) d cells ->
  map ckey cells = map rowid_to_key rs -> StronglySorted Z.lt rs ->
  Forall (fun x => 0 <= x < 2 ^ 64) rs -> 0 <= r < 2 ^ 64 ->
  pg_find alloc_ok bt d (rowid_to_key r)
  = (Z.of_nat (length (base.filter (fun x => x < r) rs)), bool_decide (r ∈ rs)).
Proof.
  intros Hk Hd Hkeys Hs Hall Hr. assert (length cells = length rs) as Hlen by (by rewrite <- (length_map ckey), Hkeys, length_map).
  unfold pg_find. rewrite (pr_n _ _ _ Hd), Hlen, Nat2Z.id.
  set (cmp := fun i => bt_cmp alloc_ok bt (cell_key (bt_ps bt) d i) (rowid_to_key r)).
  destruct (find_loop_sorted rs r cmp Hs) as [E1 E2]; [|by f_equal].
  intros i x Hi. assert (map ckey cells !! i = Some (rowid_to_key x)) as E.
  { rewrite Hkeys. change (map rowid_to_key rs) with (rowid_to_key <$> rs). by rewrite list_lookup_fmap, Hi. }
  change (map ckey cells) with (ckey <$> cells) in E. rewrite list_lookup_fmap in E.
  destruct (cells !! i) as [c|] eqn:Hc; [|done]. injection E as Ec.
  unfold cmp, bt_cmp. rewrite Hk. destruct (page_rep_read _ _ _ _ _ Hd Hc) as (_ & -> & _). rewrite Ec.
  rewrite Forall_lookup in Hall. apply rowid_cmp; eauto.
Qed.
(** In a table page whose rowids are strictly increasing, the search finds
    the number of smaller rowids, and reports an exact match exactly when the
    rowid is there. *)
Theorem pg_find_table_lower_bound alloc_ok bt d cells rs r :
  bt_kind bt = TDB_BT_TABLE -> page_rep (bt_ps bt) d cells ->
  map ckey cells = map rowid_to_key rs -> StronglySorted Z.lt rs ->
  Forall (fun x => 0 <= x < 2 ^ 64) rs -> 0 <= r < 2 ^ 64 ->
  pg_find alloc_ok bt d (rowid_to_key r)
  = (Z.of_nat (length (base.filter (fun x => x < r) rs)), bool_decide (r ∈ rs)).
Proof. apply pg_find_rows. Qed.

(** ** Splits *)

Lemma fill_page_ok alloc_ok ps cells d pre :
  alloc_ok ps = true -> page_rep ps d pre -> Forall (cell_wf ps (pg_is_leaf d)) cells ->
  page_used ps (pg_hdrsize d) (pre ++ cells) <= ps ->
  page_rep ps (fill_page alloc_ok ps d (Z.of_nat (length pre)) (map (cell_bytes ps) cells)) (pre ++ cells).
Proof.
  intros Hal. revert d pre. induction cells as [|c cells IH]; intros d pre Hd Hw Hu; [by rewrite app_nil_r|].
  apply Forall_cons in Hw as [Hc Hw]. cbn [map fill_page].
  pose proof (insert_cell_ok alloc_ok ps d pre (length pre) c Hal Hd ltac:(done) Hc) as H.
  destruct (insert_cell _ _ _ _ _) as [rc d']. cbn [snd]. destruct H as (_ & Hd' & K). destruct (page_rep_hdr _ _ K) as [EL EH].
  assert (ins_at (length pre) c pre = pre ++ [c]) as Ei by (unfold ins_at; by rewrite take_ge, drop_ge by done).
  rewrite Ei in Hd'. rewrite (cons_middle c pre cells), app_assoc in Hu |- *.
  assert (page_used ps (pg_hdrsize d) (pre ++ [c]) <= ps) as Hfit.
  { unfold page_used in *. rewrite (total_app ps (pre ++ [c])), (length_app (pre ++ [c])) in Hu.
    pose proof (total_nonneg ps cells). lia. }
  destruct (Z.leb_spec (page_used ps (pg_hdrsize d) (pre ++ [c])) ps); [|lia].
  replace (Z.of_nat (length pre) + 1) with (Z.of_nat (length (pre ++ [c]))) by (rewrite length_app; cbn; lia).
  apply IH; [done|by rewrite EL|by rewrite EH].
Qed.

(** A split that fits loses nothing: when each half of the cells fits a
    page, the two pages filled by the split hold exactly the cells of the old
    page with the new one in its place. *)
Theorem split_halves_hold_cells alloc_ok ps d cells ins c left d1 d2 :
  alloc_ok ps = true -> page_rep ps d cells -> (ins <= length cells)%nat -> cell_wf ps (pg_is_leaf d) c ->
  blen d1 = ps -> blen d2 = ps ->
  page_used ps (pg_hdrsize d) (take left (ins_at ins c cells)) <= ps ->
  page_used ps (pg_hdrsize d) (drop left (ins_at ins c cells)) <= ps ->
  let old := page_cells ps d in
  let all := take ins old ++ [cell_bytes ps c] ++ drop ins old in
  page_cells ps (fill_page alloc_ok ps (init_page ps d1 (pg_type d)) 0 (take left all))
  ++ page_cells ps (fill_page alloc_ok ps (init_page ps d2 (pg_type d)) 0 (drop left all)) = all.
Proof.
  intros Hal Hd Hi Hc H1 H2 U1 U2 old all. pose proof (pr_ps _ _ _ Hd) as Hps.
  assert (all = map (cell_bytes ps) (ins_at ins c cells)) as Eall.
  { unfold all, old. rewrite (proj1 (page_rep_cells _ _ _ Hd)). unfold ins_at. rewrite map_app. cbn [map].
    change (map (cell_bytes ps)) with (fmap (M := list) (cell_bytes ps)). by rewrite fmap_take, fmap_drop. }
  assert (Forall (cell_wf ps (pg_is_leaf d)) (ins_at ins c cells)) as Hw.
  { assert (Forall (cell_wf ps (pg_is_leaf d)) cells) as Hw by (apply Forall_lookup; intros i x Hx; apply (pr_cells _ _ _ Hd i x Hx)).
    unfold ins_at. apply Forall_app. split; [by apply Forall_take|]. apply Forall_cons. split; [done|by apply Forall_drop]. }
  assert (forall d0 l, blen d0 = ps -> Forall (cell_wf ps (pg_is_leaf d)) l -> page_used ps (pg_hdrsize d) l <= ps ->
            page_cells ps (fill_page alloc_ok ps (init_page ps d0 (pg_type d)) 0 (map (cell_bytes ps) l)) = map (cell_bytes ps) l) as K.
  { intros d0 l H0 Hl Hu. destruct (init_page_ok ps d0 (pg_type d) Hps H0) as [Hr Ht].
    apply page_rep_cells. apply (fill_page_ok alloc_ok ps l _ [] Hal Hr).
    - unfold pg_is_leaf. by rewrite Ht.
    - unfold pg_hdrsize, pg_is_leaf. by rewrite Ht. }
  rewrite Eall. change (map (cell_bytes ps)) with (fmap (M := list) (cell_bytes ps)). rewrite <- fmap_take, <- fmap_drop.
  transitivity ((cell_bytes ps <$> take left (ins_at ins c cells)) ++ (cell_bytes ps <$> drop left (ins_at ins c cells))).
  - f_equal; apply K; first [done | by apply Forall_take | by apply Forall_drop].
  - rewrite <- fmap_app. by rewrite take_drop.
Qed.

(** ** Size of the cells the tree accepts *)

Lemma varint_len_small v : 0 <= v < 2 ^ 35 -> 1 <= tdb_varint_len v <= 5.
Proof.
  intros Hv. rewrite varint_len_eq by lia. unfold tdb_put_varint.
  rewrite (put_varint_loop_fuel 4) by (cbn; lia). pose proof (put_varint_loop_len 4 v). cbn in *. lia.
Qed.

(** The limit on keys keeps cells below half a page: the cell built for a
    key that [tdb_btree_insert] accepts, whatever the value, takes at most
    half a page less four bytes, so that it can always be stored in an empty
    page; the value is cut exactly when it is stored with an overflow chain. *)
Theorem accepted_cell_fits {P} `{PagerPages P} alloc_ok bt p key val p' cell :
  512 <= bt_ps bt <= 65536 -> bt_ps bt / 2 >= blen key + 16 -> blen val < 2 ^ 31 ->
  build_leaf_cell alloc_ok bt p key val = (TDB_OK, p', cell) ->
  blen cell <= bt_ps bt / 2 - 4
  /\ forall d type, blen d = bt_ps bt ->
       (insert_cell alloc_ok (bt_ps bt) (init_page (bt_ps bt) d type) 0 cell).1 = TDB_OK.
Proof.
  intros Hps Hk Hv. set (ps := bt_ps bt) in *. pose proof (blen_nonneg key). pose proof (blen_nonneg val).
  assert (ps / 2 <= 32768) by (apply Z.div_le_upper_bound; lia).
  intros E. assert (blen cell <= ps / 2 - 4) as Hsize.
  { revert E. unfold build_leaf_cell. fold ps. cbv zeta.
    pose proof (local_val_len_range ps (blen key) (blen val) ltac:(lia)) as Hlr.
    pose proof (varint_len_small (blen val) ltac:(lia)) as V1.
    assert (1 <= tdb_varint_len (blen key) <= 3) as V2.
    { rewrite varint_len_eq by lia. unfold tdb_put_varint.
      assert (0 <= blen key < 128 ^ Z.of_nat 3) as Hr by (change (128 ^ Z.of_nat 3) with 2097152; lia).
      rewrite (put_varint_loop_fuel 2) by (done || lia). pose proof (put_varint_loop_len 2 (blen key) Hr). lia. }
    assert (local_val_len ps (blen key) (blen val) + tdb_varint_len (blen key) + blen key + tdb_varint_len (blen val)
            + (if local_val_len ps (blen key) (blen val) <? blen val then 4 else 0) <= ps / 2 - 4) as Hb.
    { assert ((ps - 12) / 4 <= ps / 2 - 4) by (Z.div_mod_to_equations; lia).
      unfold local_val_len. destruct (Z.leb_spec (tdb_varint_len (blen key) + blen key + tdb_varint_len (blen val) + blen val) ((ps - 12) / 4)); [bdec; lia|].
      destruct (Z.ltb_spec ((ps - 12) / 4 - (tdb_varint_len (blen key) + blen key + tdb_varint_len (blen val)) - 4) 0); bdec; lia. }
    set (local := local_val_len _ _ _) in *. destruct (negb _); [done|].
    assert (blen (tdb_put_varint (blen key) ++ key ++ tdb_put_varint (blen val) ++ bsub val 0 local)
            = tdb_varint_len (blen key) + (blen key + (tdb_varint_len (blen val) + local))) as Hlen
      by (rewrite !blen_app, <- !varint_len_eq, blen_bsub by lia; done).
    destruct (local <? blen val).
    - destruct (overflow_write _ _ _) as [[[] p1] first]; try done. intros [= _ <-]. rewrite blen_app, Hlen.
      change (blen (tdb_put_u32 first)) with 4. lia.
    - intros [= _ <-]. rewrite Hlen. lia. }
  split; [done|]. intros d type Hd. destruct (init_page_ok ps d type Hps Hd) as [Hr _].
  unfold insert_cell, free_contig. rewrite (pr_n _ _ _ Hr). pose proof (pr_room _ _ _ Hr). pose proof (pg_hdrsize_range (init_page ps d type)).
  rewrite (init_page_content ps d type Hps Hd).
  assert (ps / 2 <= ps - 100) by (Z.div_mod_to_equations; lia). cbn [length]. bdec. done.
Qed.

(** ** Examples *)

(** A leaf cell of a table with a value that fits the page. *)
Definition row_cell (r : Z) (val : list Z) : cell := LeafCell (rowid_to_key r) val (blen val) 0.
Definition demo_ops : list page_op :=
  [OpInsert 0 (row_cell 3 (bzero 100)); OpInsert 0 (row_cell 1 (bzero 90)); OpInsert 2 (row_cell 7 (bzero 100));
   OpInsert 1 (row_cell 2 (bzero 110)); OpDelete 1; OpInsert 1 (row_cell 2 (bzero 60));
   OpInsert 3 (row_cell 5 (bzero 110)); OpInsert 3 (row_cell 5 (bzero 40))].
Lemma row_cell_wf ps r val : blen val < 2 ^ 31 -> local_val_len ps 8 (blen val) = blen val -> cell_wf ps true (row_cell r val).
Proof.
  intros Hv Hl. pose proof (blen_nonneg val). cbn. change (blen (rowid_to_key r)) with 8.
  rewrite Z.ltb_irrefl. repeat split; try done; lia.
Qed.
Lemma demo_ops_valid : ops_valid 512 true 8 [] demo_ops.
Proof.
  unfold demo_ops. cbn [ops_valid op_valid].
  repeat (split; [first [split; [vm_compute; lia|apply row_cell_wf; vm_compute; reflexivity]|vm_compute; lia]|]). done.
Qed.

Lemma page_edits_refine_list_witness :
  let '(rcs, d') := run (page_step ok_alloc 512) (init_page 512 (bzero 512) TDB_PAGE_LEAF_TABLE) demo_ops in
  rcs = [TDB_OK; TDB_OK; TDB_OK; TDB_OK; TDB_OK; TDB_OK; TDB_FULL; TDB_OK]
  /\ map (cell_key 512 d') (seqZ 0 (pg_ncell d')) = map rowid_to_key [1; 2; 3; 5; 7].
Proof.
  pose proof (page_edits_refine_list ok_alloc 512 (bzero 512) TDB_PAGE_LEAF_TABLE demo_ops
    ltac:(lia) eq_refl eq_refl demo_ops_valid) as H.
  cbv zeta in H. destruct (run (page_step ok_alloc 512) _ demo_ops) as [rcs d'].
  change (run (list_step 512 _) [] demo_ops) with
    ([TDB_OK; TDB_OK; TDB_OK; TDB_OK; TDB_OK; TDB_OK; TDB_FULL; TDB_OK],
     [row_cell 1 (bzero 90); row_cell 2 (bzero 60); row_cell 3 (bzero 100); row_cell 5 (bzero 40); row_cell 7 (bzero 100)]) in H.
  destruct H as (H1 & _ & H2 & _). split; [exact H1|exact H2].
Defined.

Lemma pg_find_table_lower_bound_witness :
  exists d, pg_find ok_alloc (mk_btree 2 TDB_BT_TABLE None 512) d (rowid_to_key 4) = (3, false)
    /\ pg_find ok_alloc (mk_btree 2 TDB_BT_TABLE None 512) d (rowid_to_key 5) = (3, true).
Proof.
  destruct (init_page_ok 512 (bzero 512) TDB_PAGE_LEAF_TABLE) as [H0 _]; [lia|done|].
  destruct (page_run_ok ok_alloc 512 demo_ops _ [] eq_refl H0 demo_ops_valid) as (_ & Hrep & _).
  exists (run (page_step ok_alloc 512) (init_page 512 (bzero 512) TDB_PAGE_LEAF_TABLE) demo_ops).2.
  assert (StronglySorted Z.lt [1; 2; 3; 5; 7]) by (repeat constructor; lia).
  assert (Forall (fun x => 0 <= x < 2 ^ 64) [1; 2; 3; 5; 7]) by (repeat constructor; lia).
  split; rewrite (pg_find_table_lower_bound ok_alloc (mk_btree 2 TDB_BT_TABLE None 512) _ _ [1; 2; 3; 5; 7] _ eq_refl Hrep eq_refl)
    by (done || lia); reflexivity.
Defined.

Lemma split_halves_hold_cells_witness :
  exists d, pg_ncell d = 5 /\
    let all := take 2 (page_cells 512 d) ++ [cell_bytes 512 (row_cell 4 (bzero 50))] ++ drop 2 (page_cells 512 d) in
    page_cells 512 (fill_page ok_alloc 512 (init_page 512 (bzero 512) (pg_type d)) 0 (take 3 all))
    ++ page_cells 512 (fill_page ok_alloc 512 (init_page 512 (bzero 512) (pg_type d)) 0 (drop 3 all)) = all.
Proof.
  destruct (init_page_ok 512 (bzero 512) TDB_PAGE_LEAF_TABLE) as [H0 Ht]; [lia|done|].
  destruct (page_run_ok ok_alloc 512 demo_ops _ [] eq_refl H0 demo_ops_valid) as (_ & Hrep & Hty).
  set (d := (run (page_step ok_alloc 512) _ demo_ops).2) in *. exists d. split; [rewrite (pr_n _ _ _ Hrep); reflexivity|].
  assert (pg_is_leaf d = true) as Hlf by (unfold pg_is_leaf; rewrite Hty, Ht; reflexivity).
  apply (split_halves_hold_cells ok_alloc 512 d _ 2 (row_cell 4 (bzero 50)) 3 (bzero 512) (bzero 512) eq_refl Hrep).
  - vm_compute. lia.
  - rewrite Hlf. apply row_cell_wf; vm_compute; reflexivity.
  - reflexivity.
  - reflexivity.
  - unfold pg_hdrsize. rewrite Hlf. vm_compute. discriminate.
  - unfold pg_hdrsize. rewrite Hlf. vm_compute. discriminate.
Defined.

(** A store of pages without failures, to run the tree's routines on. *)
Definition toy_pages : PagerPages (list (list Z)) := {|
  pp_get p n := (TDB_OK, p); pp_data p n := nth (Z.to_nat n) p [];
  pp_set p n d := <[Z.to_nat n := d]> p; pp_write p n := (TDB_OK, p); pp_unref p n := p;
  pp_alloc p := (TDB_OK, p ++ [bzero 512], Z.of_nat (length p)); pp_free p n := (TDB_OK, p); pp_page_size p := 512 |}.
Lemma accepted_cell_fits_witness :
  exists p' cell,
    build_leaf_cell (H := toy_pages) ok_alloc (mk_btree 0 TDB_BT_TABLE None 512) [bzero 512] (rowid_to_key 7) (bzero 1200)
    = (TDB_OK, p', cell) /\ blen cell <= 252 /\ length p' = 4%nat.
Proof.
  destruct (build_leaf_cell (H := toy_pages) ok_alloc (mk_btree 0 TDB_BT_TABLE None 512) [bzero 512] (rowid_to_key 7) (bzero 1200))
    as [[rc p'] cell] eqn:E.
  assert (rc = TDB_OK /\ length p' = 4%nat) as [-> Hl].
  { pose proof (f_equal (fun r => (r.1.1, length r.1.2)) E) as E'. vm_compute in E'. injection E' as <- Hl. split; [reflexivity|].
    rewrite Hl. reflexivity. }
  exists p', cell. split; [reflexivity|]. split; [|exact Hl].
  apply (accepted_cell_fits (H := toy_pages) ok_alloc (mk_btree 0 TDB_BT_TABLE None 512) [bzero 512] (rowid_to_key 7) (bzero 1200) p' cell);
    [cbn; lia|vm_compute; discriminate|vm_compute; reflexivity|exact E].
Defined.
