(* ===== verification/BtreeStore.v ===== *)
(** * Overflow chains over any page store

    [PageStore] states what the B-tree relies on of the pager: the pages it
    holds keep their contents until it writes them, and allocation gives a
    page it does not hold.  Overflow chains are proved against these laws. *)
From S2P Require Import Prelude Util Value Record Btree.

(** The pages a client holds, their contents, the pinned ones and the number
    of pages that can still be allocated. *)
Class StoreView (P : Type) := {
  st_ok : P -> list Z -> Prop;
  st_view : P -> Z -> list Z;
  st_pinned : P -> Z -> Prop;
  st_room : P -> Z }.

(** [q] shows the pages of [p]. *)
Definition same_store {P} `{PagerPages P, StoreView P} (p q : P) (live : list Z) : Prop :=
  st_ok q live /\ (forall g, st_view q g = st_view p g) /\ st_room q = st_room p /\ pp_page_size q = pp_page_size p.
Lemma same_store_trans {P} `{PagerPages P, StoreView P} (p q r : P) live : same_store p q live -> same_store q r live -> same_store p r live.
Proof. intros (_ & V1 & R1 & S1) (K2 & V2 & R2 & S2). split; [done|]. split; [intros g; by rewrite V2|]. split; congruence. Qed.

Class PageStore (P : Type) `{PagerPages P, StoreView P} : Prop := {
  st_perm : forall p live live', live ≡ₚ live' -> st_ok p live -> st_ok p live';
  st_nodup : forall p live, st_ok p live -> NoDup live;
  st_ps : forall p live, st_ok p live -> 512 <= pp_page_size p <= 65536;
  st_page : forall p live g, st_ok p live -> g ∈ live ->
    0 < g < 2 ^ 32 /\ blen (st_view p g) = pp_page_size p;
  st_data : forall p live g, st_ok p live -> st_pinned p g -> pp_data p g = st_view p g;
  st_set_data : forall p live g d, st_ok p live -> st_pinned p g -> pp_data (pp_set p g d) g = d;
  st_set_set : forall p live g d d', st_ok p live -> pp_set (pp_set p g d) g d' = pp_set p g d';
  st_get : forall p live g, st_ok p live -> g ∈ live ->
    exists q, pp_get p g = (TDB_OK, q) /\ same_store p q live /\ st_pinned q g;
  st_unref : forall p live g, st_ok p live -> same_store p (pp_unref p g) live;
  st_write : forall p live g d, st_ok p live -> g ∈ live -> st_pinned p g -> blen d = pp_page_size p ->
    exists rc q, pp_write (pp_set p g d) g = (rc, q) /\ st_ok q live /\ st_room q = st_room p
      /\ pp_page_size q = pp_page_size p /\ forall g', st_view q g' = if g' =? g then d else st_view p g';
  st_alloc : forall p live, st_ok p live -> 0 < st_room p ->
    exists q g, pp_alloc p = (TDB_OK, q, g) /\ (g ∉ live) /\ st_ok q (g :: live) /\ st_pinned q g
      /\ st_room p - 1 <= st_room q /\ pp_page_size q = pp_page_size p
      /\ forall g', g' ∈ live -> st_view q g' = st_view p g';
  st_free : forall p live g, st_ok p (g :: live) ->
    exists q, pp_free p g = (TDB_OK, q) /\ st_ok q live /\ st_room q = st_room p /\ pp_page_size q = pp_page_size p
      /\ forall g', g' ∈ live -> st_view q g' = st_view p g' }.

(** ** Chains *)

(** [pages] is a chain that holds [data], [per] bytes in each page. *)
Fixpoint ovf (v : Z -> list Z) (per : Z) (pages : list Z) (data : list Z) : Prop :=
  match pages with
  | [] => data = []
  | g :: rest =>
      data <> [] /\ tdb_get_u32 (v g) = hd 0 rest
      /\ bsub (v g) 4 (Z.min per (blen data)) = bsub data 0 (Z.min per (blen data))
      /\ ovf v per rest (bfrom data (Z.min per (blen data)))
  end.
Lemma ovf_ext v v' per pages data : (forall g, g ∈ pages -> v' g = v g) -> ovf v per pages data -> ovf v' per pages data.
Proof.
  revert data. induction pages as [|g pages IH]; intros data Hv; [done|]. intros (H1 & H2 & H3 & H4).
  rewrite <- (Hv g) in H2, H3 by (apply elem_of_cons; by left). split; [done|]. split; [done|]. split; [done|].
  apply IH; [|done]. intros x Hx. apply Hv, elem_of_cons. by right.
Qed.
Lemma blen_pos (l : list Z) : l <> [] -> 0 < blen l.
Proof. destruct l; [done|]. intros _. rewrite blen_cons. pose proof (blen_nonneg l). lia. Qed.
Lemma bfrom_halves (l : list Z) n : 0 <= n -> l = bsub l 0 n ++ bfrom l n.
Proof. intros Hn. rewrite <- (bfrom_0 l) at 1. rewrite (bfrom_split l 0 n), Z.add_0_l by lia. done. Qed.

(** A full chain is extended by one page: the last page is linked to it. *)
Lemma ovf_snoc v v' per pages d1 cur chunk :
  0 < per -> ovf v per pages d1 -> blen d1 = per * Z.of_nat (length pages) -> NoDup pages ->
  chunk <> [] -> blen chunk <= per ->
  tdb_get_u32 (v' cur) = 0 -> bsub (v' cur) 4 (blen chunk) = chunk ->
  (forall g, g ∈ pages -> (forall m, 0 <= m <= per -> bsub (v' g) 4 m = bsub (v g) 4 m)
     /\ tdb_get_u32 (v' g) = if bool_decide (last pages = Some g) then cur else tdb_get_u32 (v g)) ->
  ovf v' per (pages ++ [cur]) (d1 ++ chunk).
Proof.
  intros Hper. revert d1. induction pages as [|g pages IH]; intros d1 Ho Hl Hnd Hc Hcl Hz Hb Hv.
  - cbn in Ho. subst d1. cbn [app ovf hd]. replace (Z.min per (blen chunk)) with (blen chunk) by lia.
    split; [done|]. split; [done|]. split; [by rewrite bsub_all|].
    unfold bfrom, blen. by rewrite Nat2Z.id, drop_ge by lia.
  - destruct Ho as (H1 & H2 & H3 & H4). apply NoDup_cons in Hnd as [Hg Hnd]. cbn [length] in Hl.
    assert (per <= blen d1) as Hge by nia. assert (Z.min per (blen d1) = per) as Em by lia. rewrite Em in *.
    assert (blen (d1 ++ chunk) = blen d1 + blen chunk) as El by apply blen_app. pose proof (blen_pos chunk Hc).
    destruct (Hv g) as [V1 V2]; [apply elem_of_cons; by left|].
    cbn [app ovf]. replace (Z.min per (blen (d1 ++ chunk))) with per by lia.
    split; [by destruct d1|]. split; [|split].
    + rewrite V2. destruct pages as [|x pages].
      * by rewrite bool_decide_eq_true_2.
      * rewrite bool_decide_eq_false_2; [done|]. cbn [last]. intros E.
        apply Hg. change (last (x :: pages) = Some g) in E. apply last_Some in E as [l ->]. apply elem_of_app. right. by apply elem_of_cons; left.
    + rewrite V1 by lia. rewrite H3, bsub_app_l by lia. done.
    + assert (bfrom (d1 ++ chunk) per = bfrom d1 per ++ chunk) as ->.
      { unfold bfrom. rewrite drop_app_le; [done|]. unfold blen in Hge. lia. }
      apply IH; try done.
      * rewrite blen_bfrom by lia. lia.
      * intros x Hx. destruct (Hv x) as [W1 W2]; [apply elem_of_cons; by right|]. split; [done|]. rewrite W2.
        destruct pages as [|y pages]; [by apply not_elem_of_nil in Hx|]. done.
Qed.

(** A chain has as many pages as its data need. *)
Lemma ovf_length v per pages data :
  0 < per -> ovf v per pages data ->
  blen data <= per * Z.of_nat (length pages) < blen data + per.
Proof.
  intros Hper. revert data. induction pages as [|g pages IH]; intros data; [intros ->; change (0 <= per * 0 < 0 + per); lia|].
  intros (Hne & _ & _ & H). apply blen_pos in Hne. apply IH in H. rewrite blen_bfrom in H by lia. 
  rewrite length_cons. destruct (Z.min_spec per (blen data)) as [[? E]|[? E]]; rewrite E in H; [nia|].
  assert (Z.of_nat (length pages) = 0) by nia. nia.
Qed.
Lemma ovf_nil v per data : ovf v per [] data -> data = [].
Proof. done. Qed.

Section Chains.
Context {P : Type} `{PageStore P} (bt : tdb_btree).

(** The bytes of a page of a chain: the next page, then the chunk. *)
Lemma chunk_page d chunk :
  blen chunk + 4 <= blen d ->
  blen (bput (bput d 0 (tdb_put_u32 0)) 4 chunk) = blen d
  /\ tdb_get_u32 (bput (bput d 0 (tdb_put_u32 0)) 4 chunk) = 0
  /\ bsub (bput (bput d 0 (tdb_put_u32 0)) 4 chunk) 4 (blen chunk) = chunk.
Proof.
  intros Hd. pose proof (blen_nonneg chunk). assert (blen (tdb_put_u32 0) = 4) as L4 by done.
  assert (blen (bput d 0 (tdb_put_u32 0)) = blen d) as L0 by (apply blen_bput; lia).
  split; [rewrite blen_bput by lia; done|]. split; [|apply bsub_bput_eq; lia].
  rewrite <- (bfrom_0 (bput _ 4 chunk)), get_u32_out by lia. rewrite (get_u32_put d 0 0) by lia. done.
Qed.
Lemma link_page d cur :
  4 <= blen d -> 0 < cur < 2 ^ 32 ->
  blen (bput d 0 (tdb_put_u32 cur)) = blen d /\ tdb_get_u32 (bput d 0 (tdb_put_u32 cur)) = cur
  /\ forall m, 0 <= m -> bsub (bput d 0 (tdb_put_u32 cur)) 4 m = bsub d 4 m.
Proof.
  intros Hd Hc. assert (blen (tdb_put_u32 cur) = 4) as L by done. split; [apply blen_bput; lia|]. split.
  - rewrite <- (bfrom_0 (bput _ _ _)). apply get_u32_put; lia.
  - intros m Hm. apply bsub_bput_after; lia.
Qed.

(** Writing a chunk to the page just allocated. *)
Lemma write_one p live cur chunk :
  st_ok p live -> cur ∈ live -> st_pinned p cur -> blen chunk + 4 <= pp_page_size p ->
  exists rc q, pp_write (pp_set p cur (bput (bput (pp_data p cur) 0 (tdb_put_u32 0)) 4 chunk)) cur = (rc, q)
    /\ st_ok (pp_unref q cur) live /\ st_room (pp_unref q cur) = st_room p /\ pp_page_size (pp_unref q cur) = pp_page_size p
    /\ (forall g, g <> cur -> st_view (pp_unref q cur) g = st_view p g)
    /\ tdb_get_u32 (st_view (pp_unref q cur) cur) = 0 /\ bsub (st_view (pp_unref q cur) cur) 4 (blen chunk) = chunk.
Proof using All.
  intros Hp Hc Hpin Hl. destruct (st_page p live cur Hp Hc) as [_ Hlen]. rewrite (st_data p live cur Hp Hpin).
  destruct (chunk_page (st_view p cur) chunk) as (L & Hz & Hb); [lia|]. set (d := bput (bput _ _ _) 4 chunk) in *.
  destruct (st_write p live cur d Hp Hc Hpin) as (rc & q & E & Hq & Hr & Hps & Hv); [lia|].
  destruct (st_unref q live cur Hq) as (Hq' & Hv' & Hr' & Hs').
  exists rc, q. split; [done|]. split; [done|]. split; [lia|]. split; [lia|]. split.
  - intros g Hg. rewrite Hv', Hv. by destruct (Z.eqb_spec g cur).
  - rewrite Hv', Hv, Z.eqb_refl. done.
Qed.
(** Linking the page before it. *)
Lemma link_one p live prev cur :
  st_ok p live -> prev ∈ live -> 0 < cur < 2 ^ 32 ->
  exists p1 rc q, pp_get p prev = (TDB_OK, p1)
    /\ pp_write (pp_set p1 prev (bput (pp_data p1 prev) 0 (tdb_put_u32 cur))) prev = (rc, q)
    /\ st_ok (pp_unref q prev) live /\ st_room (pp_unref q prev) = st_room p /\ pp_page_size (pp_unref q prev) = pp_page_size p
    /\ (forall g, g <> prev -> st_view (pp_unref q prev) g = st_view p g)
    /\ tdb_get_u32 (st_view (pp_unref q prev) prev) = cur
    /\ forall m, 0 <= m -> bsub (st_view (pp_unref q prev) prev) 4 m = bsub (st_view p prev) 4 m.
Proof using All.
  intros Hp Hc Hcur. destruct (st_get p live prev Hp Hc) as (p1 & E & (Hp1 & Hv1 & Hr1 & Hs1) & Hpin).
  pose proof (st_ps p live Hp). destruct (st_page p1 live prev Hp1 Hc) as [_ Hlen]. exists p1.
  rewrite (st_data p1 live prev Hp1 Hpin). destruct (link_page (st_view p1 prev) cur) as (L & Hg & Hb); [lia|done|].
  set (d := bput _ 0 _) in *.
  destruct (st_write p1 live prev d Hp1 Hc Hpin) as (rc & q & E2 & Hq & Hr & Hps & Hv); [lia|].
  destruct (st_unref q live prev Hq) as (Hq' & Hv' & Hr' & Hs'). exists rc, q. split; [done|]. split; [done|]. split; [done|].
  split; [lia|]. split; [lia|]. split; [|split].
  - intros g Hne. rewrite Hv', Hv. destruct (Z.eqb_spec g prev); [done|apply Hv1].
  - by rewrite Hv', Hv, Z.eqb_refl.
  - intros m Hm. rewrite Hv', Hv, Z.eqb_refl, <- (Hv1 prev). by apply Hb.
Qed.

(** [q] keeps the pages of [live], and at least [n] pages are left. *)
Definition keeps (p q : P) (live : list Z) (n : Z) : Prop :=
  pp_page_size q = pp_page_size p /\ n <= st_room q /\ forall g, g ∈ live -> st_view q g = st_view p g.

Lemma link_round p pages live cur :
  st_ok p (cur :: pages ++ live) -> NoDup (pages ++ [cur]) -> (forall g, g ∈ pages -> g ∉ live) ->
  exists q,
    (if default 0 (last pages) =? 0 then (TDB_OK, p)
     else match pp_get p (default 0 (last pages)) with
          | (TDB_OK, p) =>
              let p := pp_set p (default 0 (last pages)) (bput (pp_data p (default 0 (last pages))) 0 (tdb_put_u32 cur)) in
              let '(_, p) := pp_write p (default 0 (last pages)) in
              (TDB_OK, pp_unref p (default 0 (last pages)))
          | (rc, p) => (rc, p)
          end) = (TDB_OK, q)
    /\ st_ok q (cur :: pages ++ live) /\ keeps p q (cur :: live) (st_room p)
    /\ forall g, g ∈ pages -> (forall m, 0 <= m -> bsub (st_view q g) 4 m = bsub (st_view p g) 4 m)
         /\ tdb_get_u32 (st_view q g) = if bool_decide (last pages = Some g) then cur else tdb_get_u32 (st_view p g).
Proof using All.
  intros Hp Hnd Hdis. destruct (st_page p _ cur Hp) as [Hcur _]; [apply elem_of_cons; by left|].
  destruct (last pages) as [prev|] eqn:Ep; cbn [from_option id].
  - apply last_Some in Ep as Ep'. destruct Ep' as [l ->].
    assert (prev ∈ cur :: (l ++ [prev]) ++ live) as Hin by (rewrite elem_of_cons, !elem_of_app, list_elem_of_singleton; auto).
    destruct (st_page p _ prev Hp Hin) as [Hprev _]. destruct (Z.eqb_spec prev 0); [lia|].
    destruct (link_one p _ prev cur Hp Hin Hcur) as (p1 & rc & q & E1 & E2 & Hq & Hr & Hs & Hv & Hg & Hb).
    assert (prev ∈ l ++ [prev]) as Hpl by (rewrite elem_of_app, list_elem_of_singleton; auto).
    apply NoDup_app in Hnd as (Hnd & Hnc & _).
    rewrite E1. cbn beta zeta iota. rewrite E2. eexists. split; [reflexivity|]. split; [done|]. split.
    + split; [done|]. split; [lia|]. intros g Hg'. apply Hv. intros ->. apply elem_of_cons in Hg' as [->|Hg'].
      * apply (Hnc cur Hpl). by apply list_elem_of_singleton.
      * exact (Hdis prev Hpl Hg').
    + intros g Hg'. destruct (decide (g = prev)) as [->|Hne].
      * rewrite bool_decide_eq_true_2 by done. split; [intros m Hm; by apply Hb|done].
      * rewrite bool_decide_eq_false_2 by congruence. rewrite Hv by done. done.
  - apply last_None in Ep as ->. exists p. split; [done|]. split; [done|]. split; [split; [done|split; [lia|done]]|].
    intros g Hg. by apply not_elem_of_nil in Hg.
Qed.

(** One round of the loop: the chain gets one more page. *)
Lemma write_round fuel p pages live d1 data :
  let per := bt_ps bt - 4 in
  let chunk := if per <? blen data then per else blen data in
  bt_ps bt = pp_page_size p -> st_ok p (pages ++ live) -> NoDup (pages ++ live) ->
  ovf (st_view p) per pages d1 -> blen d1 = per * Z.of_nat (length pages) -> data <> [] -> 0 < st_room p ->
  exists q cur,
    overflow_write_loop (S fuel) bt p data (hd 0 pages) (default 0 (last pages))
    = overflow_write_loop fuel bt q (bfrom data chunk) (hd 0 (pages ++ [cur])) (default 0 (last (pages ++ [cur])))
    /\ st_ok q ((pages ++ [cur]) ++ live) /\ NoDup ((pages ++ [cur]) ++ live)
    /\ ovf (st_view q) per (pages ++ [cur]) (d1 ++ bsub data 0 chunk) /\ keeps p q live (st_room p - 1).
Proof using All.
  intros per chunk Hps Hp Hnd Ho Hl Hne Hroom. pose proof (blen_pos data Hne) as Hpos. pose proof (st_ps p _ Hp) as Hb.
  destruct (st_alloc p _ Hp Hroom) as (p1 & cur & E1 & Hn1 & Hp1 & Hpin & Hr1 & Hs1 & Hv1).
  destruct (st_page p1 _ cur Hp1) as [Hcur _]; [apply elem_of_cons; by left|].
  assert (0 < chunk <= per /\ chunk <= blen data) as [Hck Hck2] by (unfold chunk; destruct (Z.ltb_spec per (blen data)); lia).
  assert (blen (bsub data 0 chunk) = chunk) as Hcl by (apply blen_bsub; lia).
  destruct (write_one p1 _ cur (bsub data 0 chunk) Hp1) as (rc & q & E2 & Hq & Hr2 & Hs2 & Hv2 & Hz & Hc); [apply elem_of_cons; by left|done|lia|].
  set (p2 := pp_unref q cur) in *.
  assert ((pages ++ [cur]) ++ live ≡ₚ cur :: pages ++ live) as Hperm by (rewrite <- app_assoc; symmetry; apply Permutation_middle).
  assert (NoDup ((pages ++ [cur]) ++ live)) as Hnd' by (rewrite Hperm; by constructor).
  assert (forall g, g ∈ pages ++ live -> st_view p2 g = st_view p g) as Hv.
  { intros g Hg. rewrite Hv2; [by apply Hv1|]. intros ->. done. }
  apply NoDup_app in Hnd as (Hnd & Hdis & _). apply NoDup_app in Hnd' as Hnd2. destruct Hnd2 as (Hnd2 & _ & _).
  destruct (link_round p2 pages live cur Hq Hnd2 Hdis) as (p3 & E3 & Hp3 & (Hs3 & Hr3 & Hv3) & Hpg).
  exists p3, cur. rewrite last_snoc. cbn [from_option id]. split; [|split; [|split; [done|split]]].
  - cbn [overflow_write_loop]. destruct (Z.ltb_spec 0 (blen data)); [|lia]. rewrite E1. fold per chunk. cbn beta zeta iota.
    rewrite E2. fold p2. cbn zeta in E3. rewrite E3. destruct pages as [|g pages]; [done|]. cbn [hd app].
    destruct (st_page p _ g Hp) as [Hg _]; [apply elem_of_cons; by left|]. by destruct (Z.eqb_spec g 0); [lia|].
  - by apply (st_perm p3 _ _ (symmetry Hperm)).
  - apply (ovf_snoc (st_view p)); try done; try lia.
    + intros Hx. rewrite Hx in Hcl. change (0 = chunk) in Hcl. clearbody chunk. lia.
    + rewrite Hv3 by (apply elem_of_cons; by left). done.
    + rewrite Hv3 by (apply elem_of_cons; by left). done.
    + intros g Hg. destruct (Hpg g Hg) as [W1 W2]. rewrite <- (Hv g) by (apply elem_of_app; by left).
      split; [intros m Hm; apply W1; lia|done].
  - split; [lia|]. split; [lia|]. intros g Hg. rewrite Hv3 by (apply elem_of_cons; by right). apply Hv, elem_of_app. by right.
Qed.
Lemma write_loop_ok fuel p pages live d1 data :
  let per := bt_ps bt - 4 in
  bt_ps bt = pp_page_size p -> st_ok p (pages ++ live) ->
  ovf (st_view p) per pages d1 -> (data <> [] -> blen d1 = per * Z.of_nat (length pages)) ->
  blen data <= per * st_room p -> (length data <= fuel)%nat ->
  exists q pages',
    overflow_write_loop fuel bt p data (hd 0 pages) (default 0 (last pages)) = (TDB_OK, q, hd 0 pages')
    /\ st_ok q (pages' ++ live) /\ ovf (st_view q) per pages' (d1 ++ data) /\ pp_page_size q = pp_page_size p
    /\ forall g, g ∈ live -> st_view q g = st_view p g.
Proof using All.
  intros per. revert p pages d1 data. induction fuel as [|fuel IH]; intros p pages d1 data Hps Hp Ho Hl Hroom Hfuel.
  - destruct data; [|cbn in Hfuel; lia]. exists p, pages. rewrite app_nil_r. done.
  - destruct (decide (data = [])) as [->|Hne]; [exists p, pages; rewrite app_nil_r; done|].
    pose proof (st_ps p _ Hp) as Hb. pose proof (blen_pos data Hne) as Hpos. assert (508 <= per) by (unfold per; lia).
    destruct (write_round fuel p pages live d1 data Hps Hp (st_nodup p _ Hp) Ho (Hl Hne) Hne) as (q & cur & -> & Hq & _ & Ho' & Hs & Hr & Hv); [nia|].
    fold per in Ho' |- *. set (chunk := if per <? blen data then per else blen data) in *.
    assert ((chunk = per /\ per < blen data) \/ (chunk = blen data /\ blen data <= per)) as Hck
      by (unfold chunk; destruct (Z.ltb_spec per (blen data)); lia). clearbody chunk.
    assert (blen (bfrom data chunk) = blen data - chunk) as Hbl by (apply blen_bfrom; lia).
    destruct (IH q (pages ++ [cur]) (d1 ++ bsub data 0 chunk) (bfrom data chunk)) as (q' & pages' & E & H1' & H2' & H3' & H4'); try done.
    + lia.
    + intros Hn. pose proof (blen_pos _ Hn). specialize (Hl Hne). rewrite blen_app, blen_bsub by lia. rewrite length_app. cbn [length]. lia.
    + assert (0 < st_room p) by nia. assert (0 <= per * (st_room p - 1)) by nia.
      assert (per * (st_room p - 1) <= per * st_room q) by (apply Z.mul_le_mono_nonneg_l; lia). lia.
    + unfold blen in *. lia.
    + exists q', pages'. split; [done|]. split; [done|]. split; [|split; [lia|intros g Hg; rewrite H4' by done; by apply Hv]].
      rewrite <- app_assoc in H2'. rewrite <- (bfrom_halves data chunk) in H2' by lia. done.
Qed.
Lemma read_loop_ok fuel p live pages data dst len :
  let per := bt_ps bt - 4 in
  bt_ps bt = pp_page_size p -> st_ok p live -> (forall g, g ∈ pages -> g ∈ live) ->
  ovf (st_view p) per pages data -> len = blen dst + blen data -> (length data <= fuel)%nat ->
  exists q, overflow_read_loop fuel bt p (hd 0 pages) len dst = (TDB_OK, q, dst ++ data) /\ same_store p q live.
Proof using All.
  intros per Hps. remember (pp_page_size p) as ps eqn:Eps. symmetry in Eps. revert p pages data dst Eps.
  induction fuel as [|fuel IH]; intros p pages data dst Eps Hp Hin Ho Hl Hfuel.
  { destruct data; [|cbn in Hfuel; lia]. exists p. rewrite app_nil_r. done. }
  destruct pages as [|g pages].
  { apply ovf_nil in Ho as ->. exists p. rewrite app_nil_r. cbn. rewrite andb_false_r. done. }
  destruct Ho as (Hne & Hnx & Hck & Ho). apply blen_pos in Hne as Hpos. pose proof (st_ps p _ Hp).
  assert (g ∈ live) as Hg by (apply Hin, elem_of_cons; by left). destruct (st_page p _ g Hp Hg) as [Hg0 _].
  destruct (st_get p _ g Hp Hg) as (p1 & E1 & (Hp1 & Hv1 & Hr1 & Hs1) & Hpin).
  destruct (st_unref p1 _ g Hp1) as (Hp2 & Hv2 & Hr2 & Hs2). cbn [overflow_read_loop hd].
  destruct (Z.ltb_spec (blen dst) len); [|lia]. destruct (Z.eqb_spec g 0); [lia|]. cbn [andb negb]. rewrite E1.
  rewrite (st_data p1 _ g Hp1 Hpin), Hv1. fold per. cbn zeta.
  replace (if per <? len - blen dst then per else len - blen dst) with (Z.min per (blen data)) by (destruct (Z.ltb_spec per (len - blen dst)); lia).
  rewrite Hck, Hnx. destruct (IH (pp_unref p1 g) pages (bfrom data (Z.min per (blen data))) (dst ++ bsub data 0 (Z.min per (blen data)))) as (q & E & Hq & Hvq & Hrq & Hsq).
  - lia.
  - done.
  - intros x Hx. apply Hin, elem_of_cons. by right.
  - eapply ovf_ext; [|exact Ho]. intros x _. by rewrite Hv2.
  - rewrite blen_app, blen_bsub, blen_bfrom by lia. lia.
  - pose proof (blen_bfrom data (Z.min per (blen data))). unfold blen in *. lia.
  - exists q. rewrite E, <- app_assoc, <- (bfrom_halves data) by lia. split; [done|].
    split; [done|]. split; [intros x; by rewrite Hvq, Hv2|]. split; lia.
Qed.

Lemma free_loop_ok fuel p live pages per data :
  st_ok p (pages ++ live) -> ovf (st_view p) per pages data -> (length pages < fuel)%nat ->
  exists q, overflow_free fuel p (hd 0 pages) = Some q /\ st_ok q live /\ keeps p q live (st_room p).
Proof using All.
  revert p pages data. induction fuel as [|fuel IH]; intros p pages data Hp Ho Hfuel; [lia|].
  destruct pages as [|g pages]; [exists p; repeat split; try done; lia|].
  destruct Ho as (_ & Hnx & _ & Ho).
  assert (g ∈ (g :: pages) ++ live) as Hg by (apply elem_of_cons; by left). destruct (st_page p _ g Hp Hg) as [Hg0 _].
  destruct (st_get p _ g Hp Hg) as (p1 & E1 & (Hp1 & Hv1 & Hr1 & Hs1) & Hpin).
  destruct (st_unref p1 _ g Hp1) as (Hp2 & Hv2 & Hr2 & Hs2).
  destruct (st_free _ _ g Hp2) as (p3 & E3 & Hp3 & Hr3 & Hs3 & Hv3). cbn [overflow_free hd].
  destruct (Z.eqb_spec g 0); [lia|]. rewrite E1. rewrite (st_data p1 _ g Hp1 Hpin), Hv1, Hnx, E3.
  assert (forall x, x ∈ pages ++ live -> st_view p3 x = st_view p x) as Hv by (intros x Hx; by rewrite Hv3, Hv2).
  destruct (IH p3 pages (bfrom data (Z.min per (blen data))) Hp3) as (q & E & Hq & Hsq & Hrq & Hvq).
  - eapply ovf_ext; [|exact Ho]. intros x Hx. apply Hv, elem_of_app. by left.
  - cbn in Hfuel. lia.
  - exists q. split; [done|]. split; [done|]. split; [lia|]. split; [lia|].
    intros x Hx. rewrite Hvq by done. apply Hv, elem_of_app. by right.
Qed.

(** C34. An overflow chain stores a value of any length: writing it succeeds,
    takes exactly the pages the value needs and changes no page held before;
    as long as nobody else writes the pages of the chain, whatever else is
    allocated, written or freed, reading the chain gives the value back, and
    freeing it gives back its pages and leaves the others alone. *)
Theorem overflow_chain_roundtrip p live data :
  bt_ps bt = pp_page_size p -> st_ok p live -> blen data <= (bt_ps bt - 4) * st_room p ->
  exists q pages,
    overflow_write bt p data = (TDB_OK, q, hd 0 pages)
    /\ st_ok q (pages ++ live) /\ pp_page_size q = pp_page_size p /\ (forall g, g ∈ live -> st_view q g = st_view p g)
    /\ blen data <= (bt_ps bt - 4) * Z.of_nat (length pages) < blen data + (bt_ps bt - 4)
    /\ forall r live', st_ok r (pages ++ live') -> pp_page_size r = pp_page_size p ->
         (forall g, g ∈ pages -> st_view r g = st_view q g) ->
         (exists r', overflow_read bt r (hd 0 pages) (blen data) = (TDB_OK, r', data) /\ same_store r r' (pages ++ live'))
         /\ forall fuel, (length pages < fuel)%nat ->
             exists r', overflow_free fuel r (hd 0 pages) = Some r' /\ st_ok r' live' /\ keeps r r' live' (st_room r).
Proof using All.
  intros Hps Hp Hroom. pose proof (st_ps p _ Hp).
  destruct (write_loop_ok (length data) p [] live [] data Hps Hp) as (q & pages & E & Hq & Ho & Hs & Hv); try done; [intros _; change (0 = (bt_ps bt - 4) * 0); lia|].
  exists q, pages. split; [exact E|]. split; [done|]. split; [done|]. split; [done|]. split; [apply (ovf_length (st_view q)); [lia|done]|].
  intros r live' Hr Hsr Hvr. assert (ovf (st_view r) (bt_ps bt - 4) pages data) as Ho' by (by eapply ovf_ext). split.
  - destruct (read_loop_ok (length data) r (pages ++ live') pages data [] (blen data)) as (r' & Er & Hr'); try done; [lia| |].
    + intros g Hg. apply elem_of_app. by left.
    + exists r'. split; [|done]. unfold overflow_read, blen. rewrite Nat2Z.id. exact Er.
  - intros fuel Hf. by apply (free_loop_ok fuel r live' pages (bt_ps bt - 4) data).
Qed.
End Chains.
