(* ===== verification/BtreeLeaf.v ===== *)
(** * Tables of one leaf

    A table B-tree whose root is a leaf, with its values in the page, is a map
    from rowids to values: lookup, insertion that fits, and the largest rowid,
    over any [PageStore].  [TableStore] states these as an interface. *)
From stdpp Require Import sorting gmap.
From S2P Require Import Prelude Util Value Record Btree Cursor BtreePage BtreeStore.

(** ** Rows in order *)

Abbreviation row := (Z * list Z)%type.
Definition pos (rows : list row) (r : Z) : nat := length (base.filter (fun x => x < r) rows.*1).
(** What the leaf insertion does: delete the old cell, insert the new one. *)
Definition row_put (rows : list row) (r : Z) (v : list Z) : list row :=
  ins_at (pos rows r) (r, v) (if bool_decide (r ∈ rows.*1) then delete (pos rows r) rows else rows).

Lemma rows_split (rows : list row) r :
  StronglySorted Z.lt rows.*1 ->
  exists l1 mid l2, rows = l1 ++ mid ++ l2 /\ pos rows r = length l1
    /\ Forall (fun x => x < r) l1.*1 /\ Forall (fun x => r < x) l2.*1
    /\ ((mid = [] /\ r ∉ rows.*1) \/ exists v, mid = [(r, v)]).
Proof.
  unfold pos. induction rows as [|[x w] rows IH]; intros Hs.
  { exists [], [], []. do 2 (split; [done|]). do 2 (split; [constructor|]). left. split; [done|apply not_elem_of_nil]. }
  cbn [fmap list_fmap fst] in Hs. inversion Hs as [|? ? Hs' Hx]; subst. rewrite fmap_cons, filter_cons. cbn [fst].
  assert (forall z, r <= z -> Forall (Z.lt z) rows.*1 -> base.filter (fun x => x < r) rows.*1 = []) as Hnil.
  { intros z Hz Hf. destruct (base.filter _ _) as [|y l] eqn:E; [done|]. exfalso.
    assert (y ∈ base.filter (fun x => x < r) rows.*1) as Hy by (rewrite E; apply elem_of_cons; by left).
    apply list_elem_of_filter in Hy as [Hy1 Hy2]. rewrite Forall_forall in Hf. specialize (Hf y Hy2). lia. }
  destruct (decide (x < r)) as [Hlt|Hge].
  - destruct (IH Hs') as (l1 & mid & l2 & -> & Hp & F1 & F2 & Hm). exists ((x, w) :: l1), mid, l2.
    split; [done|]. split; [cbn; by rewrite Hp|]. split; [by constructor|]. split; [done|].
    destruct Hm as [[-> Hn]|Hm]; [|by right]. left. split; [done|]. rewrite elem_of_cons. intros [->|Hin]; [lia|done].
  - rewrite (Hnil x) by (done || lia). destruct (Z.eq_dec x r) as [->|Hne].
    + exists [], [(r, w)], rows. do 2 (split; [done|]). split; [constructor|]. split; [done|]. right. by exists w.
    + exists [], [], ((x, w) :: rows). split; [done|]. split; [done|]. split; [constructor|].
      assert (Forall (fun y => r < y) rows.*1) as Hall.
      { eapply Forall_impl; [exact Hx|]. cbn. intros; lia. }
      split; [constructor; [cbn; lia|done]|]. left. split; [done|]. rewrite elem_of_cons. intros [->|Hin]; [lia|].
      rewrite Forall_forall in Hall. specialize (Hall r Hin). lia.
Qed.

Lemma sorted_nodup (l : list Z) : StronglySorted Z.lt l -> NoDup l.
Proof.
  induction 1 as [|x l Hl IH Hx]; constructor; [|done].
  intros Hin. rewrite Forall_forall in Hx. specialize (Hx x Hin). lia.
Qed.
Section Split.
Context (rows : list row) (r : Z) (Hs : StronglySorted Z.lt rows.*1).

(** The row found, as the map shows it. *)
Lemma rows_find :
  if bool_decide (r ∈ rows.*1)
  then exists v, rows !! pos rows r = Some (r, v) /\ (list_to_map rows : gmap Z (list Z)) !! r = Some v
  else (list_to_map rows : gmap Z (list Z)) !! r = None /\ (pos rows r <= length rows)%nat.
Proof using Hs.
  destruct (rows_split rows r Hs) as (l1 & mid & l2 & E & Hp & F1 & F2 & Hm).
  case_bool_decide as Hin.
  - destruct Hm as [[-> Hn]|[v ->]]; [done|]. exists v. assert (rows !! pos rows r = Some (r, v)) as Hl.
    { rewrite Hp, E, lookup_app_r, Nat.sub_diag by lia. done. }
    split; [done|]. apply elem_of_list_to_map_1; [by apply sorted_nodup|]. by eapply list_elem_of_lookup_2.
  - split; [by apply not_elem_of_list_to_map_1|]. rewrite Hp, E, length_app. lia.
Qed.
Lemma row_put_eq v :
  exists l1 l2, row_put rows r v = l1 ++ (r, v) :: l2 /\ Forall (fun x => x < r) l1.*1 /\ Forall (fun x => r < x) l2.*1
    /\ (rows = l1 ++ l2 \/ exists v0, rows = l1 ++ (r, v0) :: l2) /\ pos rows r = length l1.
Proof using Hs.
  destruct (rows_split rows r Hs) as (l1 & mid & l2 & E & Hp & F1 & F2 & Hm). exists l1, l2.
  assert (forall x, row_put rows r v = ins_at (length l1) (r, v) x -> x = l1 ++ l2 -> row_put rows r v = l1 ++ (r, v) :: l2) as Hput.
  { intros x -> ->. unfold ins_at. by rewrite take_app_length, drop_app_length. }
  unfold row_put in *. rewrite Hp in *. destruct Hm as [[-> Hn]|[v0 ->]].
  - split; [|split; [done|split; [done|split; [by left|done]]]]. apply (Hput rows); [|done]. by rewrite bool_decide_eq_false_2.
  - split; [|split; [done|split; [done|split; [right; by exists v0|done]]]].
    rewrite bool_decide_eq_true_2 in * by (rewrite E, !fmap_app, !elem_of_app; right; left; by apply list_elem_of_singleton).
    eapply Hput; [done|]. rewrite E. exact (delete_middle l1 l2 (r, v0)).
Qed.
Lemma row_put_sorted v : StronglySorted Z.lt (row_put rows r v).*1.
Proof using Hs.
  destruct (row_put_eq v) as (l1 & l2 & -> & F1 & F2 & Hor & _). rewrite fmap_app, fmap_cons. cbn [fst].
  assert (StronglySorted Z.lt l1.*1 /\ StronglySorted Z.lt l2.*1) as [S1 S2].
  { destruct Hor as [->|[v0 ->]]; rewrite fmap_app in Hs; apply StronglySorted_app in Hs as (_ & S1 & S2); [done|].
    rewrite fmap_cons in S2. by inversion S2. }
  apply StronglySorted_app_2; [|done|by constructor].
  intros x y Hx Hy. rewrite Forall_forall in F1, F2. specialize (F1 x Hx). apply elem_of_cons in Hy as [->|Hy]; [done|].
  specialize (F2 y Hy). lia.
Qed.
Lemma row_put_map v : (list_to_map (row_put rows r v) : gmap Z (list Z)) = <[r := v]> (list_to_map rows).
Proof using Hs.
  destruct (row_put_eq v) as (l1 & l2 & -> & F1 & F2 & Hor & _).
  assert ((list_to_map l1 : gmap Z (list Z)) !! r = None) as Hn.
  { apply not_elem_of_list_to_map_1. intros Hin. rewrite Forall_forall in F1. specialize (F1 r Hin). lia. }
  destruct Hor as [->|[v0 ->]]; rewrite !list_to_map_app, !list_to_map_cons, insert_union_r by done; [done|].
  by rewrite insert_insert_eq.
Qed.
Lemma row_put_forall (Q : row -> Prop) v : Forall Q rows -> Q (r, v) -> Forall Q (row_put rows r v).
Proof using Hs.
  intros Hq Hv. destruct (row_put_eq v) as (l1 & l2 & -> & _ & _ & Hor & _).
  destruct Hor as [->|[v0 ->]]; apply Forall_app in Hq as [Q1 Q2]; apply Forall_app; (split; [done|]); constructor; try done.
  by inversion Q2.
Qed.
End Split.

(** ** The page *)

Definition row_cells (rows : list row) : list cell := (fun x => row_cell x.1 x.2) <$> rows.
(** A value that needs no overflow chain. *)
Definition row_local (ps : Z) (x : row) : Prop :=
  0 <= x.1 < 2 ^ 64 /\ blen x.2 < 2 ^ 31 /\ local_val_len ps 8 (blen x.2) = blen x.2.
Record leaf_rows (ps : Z) (d : list Z) (rows : list row) : Prop := {
  lr_page : page_rep ps d (row_cells rows);
  lr_type : pg_type d = TDB_PAGE_LEAF_TABLE;
  lr_sorted : StronglySorted Z.lt rows.*1;
  lr_local : Forall (row_local ps) rows }.

Lemma lr_leaf ps d rows : leaf_rows ps d rows -> pg_is_leaf d = true /\ pg_hdrsize d = 8.
Proof. intros H. unfold pg_hdrsize, pg_is_leaf. by rewrite (lr_type _ _ _ H). Qed.
Lemma row_cells_key rows : map ckey (row_cells rows) = map rowid_to_key rows.*1.
Proof. unfold row_cells. induction rows as [|x rows IH]; [done|]. cbn. f_equal. apply IH. Qed.
Lemma leaf_find alloc_ok bt d rows r :
  bt_kind bt = TDB_BT_TABLE -> leaf_rows (bt_ps bt) d rows -> 0 <= r < 2 ^ 64 ->
  pg_find alloc_ok bt d (rowid_to_key r) = (Z.of_nat (pos rows r), bool_decide (r ∈ rows.*1)).
Proof.
  intros Hk [H1 H2 H3 H4] Hr. apply (pg_find_rows alloc_ok bt d (row_cells rows)); try done; [apply row_cells_key|].
  apply Forall_fmap. eapply Forall_impl; [exact H4|]. by intros x (? & _).
Qed.
Lemma leaf_read ps d rows i r v :
  leaf_rows ps d rows -> rows !! i = Some (r, v) ->
  exists off, read_leafcell ps d (Z.of_nat i) = mk_leafcell (rowid_to_key r) 8 off (blen v) (blen v) 0
    /\ bsub d off (blen v) = v.
Proof.
  intros H Hi. destruct (pr_cells _ _ _ (lr_page _ _ _ H) i (row_cell r v)) as (Hw & _ & Hat).
  { unfold row_cells. by rewrite list_lookup_fmap, Hi. }
  rewrite (proj1 (lr_leaf _ _ _ H)) in Hw. destruct (read_leafcell_at ps d (Z.of_nat i) _ _ _ _ Hw Hat) as (off & E & _ & Hb).
  by exists off.
Qed.

(** Replacing or adding a row that fits. *)
Lemma leaf_put alloc_ok ps d rows r v :
  alloc_ok ps = true -> leaf_rows ps d rows -> row_local ps (r, v) ->
  page_used ps 8 (row_cells (row_put rows r v)) <= ps ->
  exists d', insert_cell alloc_ok ps (if bool_decide (r ∈ rows.*1) then delete_cell d (Z.of_nat (pos rows r)) else d)
               (Z.of_nat (pos rows r)) (cell_bytes ps (row_cell r v)) = (TDB_OK, d')
    /\ leaf_rows ps d' (row_put rows r v).
Proof.
  intros Hal H Hv Hfit. destruct (lr_leaf _ _ _ H) as [El Eh]. pose proof (rows_find rows r (lr_sorted _ _ _ H)) as Hf.
  set (rows0 := if bool_decide (r ∈ rows.*1) then delete (pos rows r) rows else rows).
  set (d0 := if bool_decide (r ∈ rows.*1) then _ else d).
  assert (page_rep ps d0 (row_cells rows0) /\ hdr_kept d d0 /\ (pos rows r <= length rows0)%nat) as (H0 & K0 & Hp0).
  { unfold d0, rows0. destruct (bool_decide (r ∈ rows.*1)).
    - destruct Hf as (w & Hw & _). pose proof (lookup_lt_Some _ _ _ Hw).
      destruct (delete_cell_ok ps d (row_cells rows) (pos rows r) (row_cell r w) (lr_page _ _ _ H)) as [D1 D2].
      { unfold row_cells. by rewrite list_lookup_fmap, Hw. }
      split; [|split; [done|rewrite length_delete by done; lia]]. unfold row_cells in *. by rewrite list_fmap_delete.
    - split; [apply H|]. split; [split; apply agree_refl|apply Hf]. }
  destruct (page_rep_hdr _ _ K0) as [El0 Eh0].
  assert (cell_wf ps true (row_cell r v)) as Hw by (apply row_cell_wf; apply Hv).
  assert (row_cells (row_put rows r v) = ins_at (pos rows r) (row_cell r v) (row_cells rows0)) as Er.
  { unfold row_put, row_cells, ins_at. fold rows0. by rewrite fmap_app, fmap_cons, fmap_take, fmap_drop. }
  pose proof (insert_cell_ok alloc_ok ps d0 (row_cells rows0) (pos rows r) (row_cell r v) Hal H0) as Hi.
  destruct (insert_cell alloc_ok ps d0 _ _) as [rc d'] eqn:E. rewrite Eh0, Eh, <- Er in Hi.
  destruct Hi as (-> & Hrep & Hk); [unfold row_cells; by rewrite length_fmap|by rewrite El0, El|].
  rewrite (proj2 (Z.leb_le _ _) Hfit) in *. exists d'. split; [done|]. split.
  - by rewrite Er in *.
  - unfold pg_type in *. rewrite <- (lr_type _ _ _ H). destruct Hk as [[_ Hk] _], K0 as [[_ K0] _].
    rewrite Hk, K0 by (unfold TDB_BT_TYPE; lia). done.
  - by apply row_put_sorted, H.
  - apply row_put_forall; [apply H|apply H|done].
Qed.

(** ** The interface of a table *)

(** Tables in one pager: when a list of them is sound, the rows of each, and
    when a row can be stored. *)
Class TableView (P : Type) := {
  tv_ok : P -> list tdb_btree -> Prop;
  tv_rows : P -> tdb_btree -> gmap Z (list Z);
  tv_fits : P -> tdb_btree -> Z -> list Z -> Prop }.
(** [q] has the tables of [p]. *)
Definition same_tables {P} `{PagerPages P, TableView P} (p q : P) (ts : list tdb_btree) : Prop :=
  tv_ok q ts /\ (forall bt, bt ∈ ts -> tv_rows q bt = tv_rows p bt)
  /\ (forall bt r v, bt ∈ ts -> tv_fits p bt r v -> tv_fits q bt r v).

Definition fresh_cursor : tdb_cursor := mk_cursor (replicate TDB_MAXDEPTH 0) (replicate TDB_MAXDEPTH 0) 0 None true 0.
Lemma cursor_open_fresh alloc_ok : alloc_ok 368 = true -> tdb_cursor_open alloc_ok = (TDB_OK, Some fresh_cursor).
Proof. unfold tdb_cursor_open. by intros ->. Qed.

(** A cursor that can be moved: its path has places. *)
Definition cursor_wf (c : tdb_cursor) : Prop := length (cur_cidx c) = TDB_MAXDEPTH.
Lemma fresh_wf_cursor : cursor_wf fresh_cursor.
Proof. reflexivity. Qed.

(** What the lookups, the insertion and the largest rowid of a table promise. *)
Class TableStore (P : Type) `{PagerPages P, TableView P} (alloc_ok : Z -> bool) (depth : nat) : Prop := {
  tv_tree : forall p ts bt, tv_ok p ts -> bt ∈ ts -> bt = mk_btree (bt_root bt) TDB_BT_TABLE None (pp_page_size p);
  tv_range : forall p ts bt r v, tv_ok p ts -> bt ∈ ts -> tv_rows p bt !! r = Some v -> 0 <= r < 2 ^ 64;
  tv_seek : forall p ts bt r c0, cursor_wf c0 -> tv_ok (tdb_cursor_close p c0) ts -> bt ∈ ts -> 0 <= r < 2 ^ 64 ->
    let p0 := tdb_cursor_close p c0 in
    exists q c, tdb_cursor_seek_rowid alloc_ok depth bt p c0 r
                = Some (TDB_OK, q, c, match tv_rows p0 bt !! r with Some _ => true | None => false end)
      /\ match tv_rows p0 bt !! r with
         | Some v => exists q' c', tdb_cursor_data alloc_ok bt q c = (TDB_OK, q', c', v) /\ cursor_wf c' /\ same_tables p0 (tdb_cursor_close q' c') ts
         | None => same_tables p0 (tdb_cursor_close q c) ts
         end;
  tv_max : forall p ts bt, tv_ok p ts -> bt ∈ ts ->
    exists q mx, tdb_btree_max_rowid alloc_ok depth bt p = Some (TDB_OK, q, mx) /\ same_tables p q ts
      /\ (forall r, is_Some (tv_rows p bt !! r) -> r <= mx) /\ (mx = 0 \/ is_Some (tv_rows p bt !! mx));
  tv_put : forall p ts bt r v, tv_ok p ts -> bt ∈ ts -> 0 <= r < 2 ^ 64 -> tv_fits p bt r v ->
    exists q, tdb_btree_put alloc_ok depth bt p r v = Some (TDB_OK, q) /\ tv_ok q ts
      /\ tv_rows q bt = <[r := v]> (tv_rows p bt)
      /\ (forall bt', bt' ∈ ts -> bt' <> bt -> tv_rows q bt' = tv_rows p bt')
      /\ (forall bt' r' v', bt' ∈ ts -> bt' <> bt -> tv_fits p bt' r' v' -> tv_fits q bt' r' v') }.

Lemma tables_refl {P} `{PagerPages P, TableView P} (p : P) ts : tv_ok p ts -> same_tables p p ts.
Proof. by repeat split. Qed.
Lemma tables_trans {P} `{PagerPages P, TableView P} (p q r : P) ts : same_tables p q ts -> same_tables q r ts -> same_tables p r ts.
Proof.
  intros (_ & R1 & F1) (K2 & R2 & F2). split; [done|]. split; [intros bt Hbt; by rewrite R2, R1|]. intros bt k v Hbt Hf. by apply F2, F1.
Qed.
Lemma table_opens {P} `{TableStore P alloc_ok depth} (Halloc : forall n, alloc_ok n = true) p ts bt :
  tv_ok p ts -> bt ∈ ts -> tdb_btree_open alloc_ok p (bt_root bt) TDB_BT_TABLE None = (TDB_OK, Some bt).
Proof. intros Hp Hbt. unfold tdb_btree_open. rewrite Halloc. cbn [negb]. by rewrite <- (tv_tree p ts bt Hp Hbt). Qed.
(** A lookup with a new cursor. *)
Lemma tv_get {P} `{TableStore P alloc_ok depth} p ts bt r : tv_ok p ts -> bt ∈ ts -> 0 <= r < 2 ^ 64 ->
  exists q c, tdb_cursor_seek_rowid alloc_ok depth bt p fresh_cursor r
              = Some (TDB_OK, q, c, match tv_rows p bt !! r with Some _ => true | None => false end)
    /\ match tv_rows p bt !! r with
       | Some v => exists q' c', tdb_cursor_data alloc_ok bt q c = (TDB_OK, q', c', v) /\ same_tables p (tdb_cursor_close q' c') ts
       | None => same_tables p (tdb_cursor_close q c) ts
       end.
Proof.
  intros Hp Hbt Hr. destruct (tv_seek p ts bt r fresh_cursor fresh_wf_cursor Hp Hbt Hr) as (q & c & E & Hc). exists q, c. split; [exact E|].
  change (tdb_cursor_close p fresh_cursor) with p in Hc. destruct (tv_rows p bt !! r) as [v|]; [|done].
  destruct Hc as (q' & c' & E' & _ & Hs). by exists q', c'.
Qed.

(** ** Tables of one leaf implement it *)

Section Leaf.
Context {P : Type} `{PageStore P} (alloc_ok : Z -> bool) (Halloc : forall n, alloc_ok n = true).

Lemma key_of_rowid r : 0 <= r < 2 ^ 64 -> key_to_rowid (rowid_to_key r) = r.
Proof.
  intros Hr. unfold key_to_rowid, rowid_to_key. rewrite <- (app_nil_r (tdb_put_u64 r)), get_put_u64. apply u64_small. lia.
Qed.
(** The rows of a page, read off its bytes. *)
Definition rows_of (ps : Z) (d : list Z) : list row :=
  map (fun i => let lc := read_leafcell ps d i in (key_to_rowid (lc_key lc), lc_lval d lc)) (seqZ 0 (pg_ncell d)).
Lemma rows_of_leaf ps d rows : leaf_rows ps d rows -> rows_of ps d = rows.
Proof.
  intros Hl. unfold rows_of. rewrite (pr_n _ _ _ (lr_page _ _ _ Hl)). unfold row_cells at 1. rewrite length_fmap.
  rewrite (map_seqZ_lookup _ (fun x => x)); [apply map_id|]. intros i [r v] Hi.
  destruct (leaf_read _ _ _ _ _ _ Hl Hi) as (off & -> & Hb). cbn. unfold lc_lval. cbn. rewrite Hb. f_equal.
  pose proof (proj1 (Forall_lookup _ _) (lr_local _ _ _ Hl) i _ Hi) as (Hr & _). by apply key_of_rowid.
Qed.

Definition one_leaf (p : P) (bt : tdb_btree) : Prop :=
  bt = mk_btree (bt_root bt) TDB_BT_TABLE None (pp_page_size p)
  /\ leaf_rows (pp_page_size p) (st_view p (bt_root bt)) (rows_of (pp_page_size p) (st_view p (bt_root bt))).
#[global] Instance leaf_tables : TableView P := {
  tv_ok p ts := exists live, st_ok p live /\ NoDup (bt_root <$> ts) /\ forall bt, bt ∈ ts -> bt_root bt ∈ live /\ one_leaf p bt;
  tv_rows p bt := list_to_map (rows_of (pp_page_size p) (st_view p (bt_root bt)));
  tv_fits p bt r v := row_local (pp_page_size p) (r, v)
    /\ page_used (pp_page_size p) 8 (row_cells (row_put (rows_of (pp_page_size p) (st_view p (bt_root bt))) r v)) <= pp_page_size p }.

Lemma same_store_tables p q ts live :
  NoDup (bt_root <$> ts) -> (forall bt, bt ∈ ts -> bt_root bt ∈ live /\ one_leaf p bt) -> same_store p q live -> same_tables p q ts.
Proof.
  intros Hnd Hts (Hq & Hv & _ & Hs). split; [|split].
  - exists live. split; [done|]. split; [done|]. intros bt Hbt. destruct (Hts bt Hbt) as [Hl Ho]. split; [done|].
    unfold one_leaf. by rewrite Hs, Hv.
  - intros bt _. cbn. by rewrite Hs, Hv.
  - intros bt r v _. cbn. by rewrite Hs, Hv.
Qed.

(** The cursor after a seek: on the row, or anywhere when there is none. *)
Lemma leaf_seek depth p0 c0 p live bt r :
  (0 < depth)%nat -> cursor_wf c0 -> tdb_cursor_close p0 c0 = p -> st_ok p live -> bt_root bt ∈ live -> one_leaf p bt -> 0 <= r < 2 ^ 64 ->
  let rows := rows_of (pp_page_size p) (st_view p (bt_root bt)) in
  exists q c, tdb_cursor_seek_rowid alloc_ok depth bt p0 c0 r = Some (TDB_OK, q, c, bool_decide (r ∈ rows.*1))
    /\ same_store p q live
    /\ (r ∈ rows.*1 -> cur_eof c = false /\ cur_leaf c = Some (bt_root bt)
          /\ cidx_at c (cur_depth c) = Z.of_nat (pos rows r) /\ st_pinned q (bt_root bt) /\ cursor_wf c).
Proof using All.
  intros Hd Hc0 Ecl Hp Hin [Ebt Hl] Hr rows. fold rows in Hl. set (g := bt_root bt) in *.
  destruct depth as [|depth]; [lia|]. destruct (st_get p live g Hp Hin) as (p1 & E1 & Hs1 & Hpin).
  pose proof Hs1 as (Hp1 & Hv1 & _ & Ps1). destruct (lr_leaf _ _ _ Hl) as [El _].
  assert (pp_data p1 g = st_view p g) as Ed by (by rewrite (st_data p1 live g Hp1 Hpin)).
  assert (pg_find alloc_ok bt (st_view p g) (rowid_to_key r) = (Z.of_nat (pos rows r), bool_decide (r ∈ rows.*1))) as Ef
    by (apply leaf_find; rewrite ?Ebt; done).
  assert (pg_ncell (st_view p g) = Z.of_nat (length rows)) as En
    by (rewrite (pr_n _ _ _ (lr_page _ _ _ Hl)); unfold row_cells; by rewrite length_fmap).
  pose proof (rows_find rows r (lr_sorted _ _ _ Hl)) as Hf.
  unfold tdb_cursor_seek_rowid, tdb_cursor_seek. destruct (unpin p0 c0) as [p' c1] eqn:Eu.
  assert (p' = p /\ cursor_wf c1) as [-> Hc1].
  { unfold tdb_cursor_close in Ecl. rewrite Eu in Ecl. split; [done|]. unfold unpin in Eu. destruct (cur_leaf c0); by injection Eu as _ <-. }
  fold g. cbn [seek_loop]. rewrite E1, Ed, Ef. cbn iota beta. rewrite El, En.
  destruct (Z.leb_spec (Z.of_nat (length rows)) (Z.of_nat (pos rows r))) as [Hle|Hlt].
  - assert (bool_decide (r ∈ rows.*1) = false) as Eb.
    { destruct (bool_decide (r ∈ rows.*1)); [|done]. destruct Hf as (v & Hv & _). apply lookup_lt_Some in Hv. lia. }
    rewrite Eb. cbn [next_leaf unpin cset_leaf cur_leaf]. eexists _, _. split; [reflexivity|]. split.
    + eapply same_store_trans; [exact Hs1|]. by apply st_unref.
    + intros Hx. by rewrite bool_decide_eq_true_2 in Eb.
  - eexists _, _. split; [|split; [exact Hs1|]].
    + by destruct (bool_decide (r ∈ rows.*1)).
    + intros Hx. split; [done|]. split; [done|]. unfold cursor_wf in *. cbn [cset_leaf cset_level cur_cidx cur_depth cidx_at]. split; [|by rewrite length_insert].
      unfold cidx_at. cbn [cset_leaf cset_level cur_cidx cur_depth]. destruct (cur_cidx c1); [done|]. done.
Qed.
Lemma leaf_get depth p0 c0 p live bt r :
  (0 < depth)%nat -> cursor_wf c0 -> tdb_cursor_close p0 c0 = p -> st_ok p live -> bt_root bt ∈ live -> one_leaf p bt -> 0 <= r < 2 ^ 64 ->
  exists q c, tdb_cursor_seek_rowid alloc_ok depth bt p0 c0 r
              = Some (TDB_OK, q, c, match tv_rows p bt !! r with Some _ => true | None => false end)
    /\ match tv_rows p bt !! r with
       | Some v => exists q' c', tdb_cursor_data alloc_ok bt q c = (TDB_OK, q', c', v) /\ cursor_wf c' /\ same_store p (tdb_cursor_close q' c') live
       | None => same_store p (tdb_cursor_close q c) live
       end.
Proof using All.
  intros Hd Hc0 Ecl Hp Hin Ho Hr. destruct (leaf_seek depth p0 c0 p live bt r Hd Hc0 Ecl Hp Hin Ho Hr) as (q & c & E & Hs & Hc).
  destruct Ho as [Ebt Hl]. pose proof (rows_find _ r (lr_sorted _ _ _ Hl)) as Hf. exists q, c. rewrite E.
  assert (forall q c, same_store p q live -> same_store p (tdb_cursor_close q c) live) as Hclose.
  { intros q' c' Hs'. unfold tdb_cursor_close, unpin. destruct (cur_leaf c'); [|done]. eapply same_store_trans; [done|].
    apply st_unref, Hs'. }
  cbn [tv_rows leaf_tables]. destruct (bool_decide _) eqn:Eb in Hf.
  - destruct Hf as (v & Hv & Em). apply bool_decide_eq_true in Eb. rewrite Em. rewrite bool_decide_eq_true_2 by done.
    split; [done|]. destruct (Hc Eb) as (C1 & C2 & C3 & C4 & C5). destruct Hs as (Hq & Hvq & Hrq & Hsq).
    exists q, c. split; [|by split; [|apply Hclose]]. unfold tdb_cursor_data, cur_cell. rewrite C1, C2, C3.
    rewrite (st_data q live _ Hq C4), Hvq. replace (bt_ps bt) with (pp_page_size p) by (by rewrite Ebt).
    destruct (leaf_read _ _ _ _ _ _ Hl Hv) as (off & -> & Hb). cbn [lc_ovfl lc_lval_off lc_vlen Z.eqb]. by rewrite Hb.
  - destruct Hf as [Em _]. rewrite Em. apply bool_decide_eq_false in Eb. rewrite bool_decide_eq_false_2 by done.
    split; [done|]. by apply Hclose.
Qed.

Lemma cidx_fresh g i leaf eof :
  let c := cset_leaf (cset_level fresh_cursor 0 g i) 0 leaf eof in cidx_at c (cur_depth c) = i.
Proof using Type. reflexivity. Qed.
Lemma leaf_max depth p live bt :
  (0 < depth)%nat -> st_ok p live -> bt_root bt ∈ live -> one_leaf p bt ->
  exists q mx, tdb_btree_max_rowid alloc_ok depth bt p = Some (TDB_OK, q, mx) /\ same_store p q live
    /\ (forall r, is_Some (tv_rows p bt !! r) -> r <= mx) /\ (mx = 0 \/ is_Some (tv_rows p bt !! mx)).
Proof using All.
  intros Hd Hp Hin [Ebt Hl]. cbn [tv_rows leaf_tables]. set (g := bt_root bt) in *. set (rows := rows_of _ _) in *.
  destruct depth as [|depth]; [lia|]. destruct (st_get p live g Hp Hin) as (p1 & E1 & Hs1 & Hpin).
  pose proof Hs1 as (Hp1 & Hv1 & _ & Ps1). destruct (lr_leaf _ _ _ Hl) as [El _].
  assert (pp_data p1 g = st_view p g) as Ed by (by rewrite (st_data p1 live g Hp1 Hpin)).
  assert (pg_ncell (st_view p g) = Z.of_nat (length rows)) as En
    by (rewrite (pr_n _ _ _ (lr_page _ _ _ Hl)); unfold row_cells; by rewrite length_fmap).
  unfold tdb_btree_max_rowid. rewrite cursor_open_fresh by done. unfold tdb_cursor_last.
  change (unpin p fresh_cursor) with (p, fresh_cursor). cbn iota beta. fold g.
  cbn [descend_rightmost]. rewrite E1, Ed, El, En. cbn [cur_eof cset_leaf].
  assert (same_store p (pp_unref p1 g) live) as Hclose by (eapply same_store_trans; [exact Hs1|by apply st_unref]).
  destruct rows as [|x rows' _] eqn:Er using rev_ind.
  - eexists _, 0. split; [reflexivity|]. split; [exact Hclose|]. split; [|by left]. intros r [v Hv]. apply elem_of_list_to_map_2 in Hv. by apply not_elem_of_nil in Hv.
  - rewrite length_app. cbn [length]. destruct (Z.eqb_spec (Z.of_nat (length rows' + 1)) 0); [lia|].
    destruct (Z.ltb_spec 0 (Z.of_nat (length rows' + 1))); [|lia].
    replace (Z.of_nat (length rows' + 1) - 1) with (Z.of_nat (length rows')) by lia.
    unfold tdb_cursor_rowid, tdb_cursor_key, cur_cell. rewrite cidx_fresh. cbn [cur_eof cur_leaf cset_leaf].
    replace (bt_ps bt) with (pp_page_size p) by (by rewrite Ebt). rewrite Ed. destruct x as [r v].
    assert ((rows' ++ [(r, v)]) !! length rows' = Some (r, v)) as Hlast by (by rewrite lookup_app_r, Nat.sub_diag).
    destruct (leaf_read _ _ _ _ _ _ Hl Hlast) as (off & -> & _). cbn [lc_key].
    pose proof (proj1 (Forall_lookup _ _) (lr_local _ _ _ Hl) _ _ Hlast) as (Hr & _). cbn [fst] in Hr. rewrite key_of_rowid by done.
    eexists _, r. split; [reflexivity|]. split; [exact Hclose|]. pose proof (lr_sorted _ _ _ Hl) as Hs. split.
    + intros y [w Hw]. apply elem_of_list_to_map_2 in Hw. apply elem_of_app in Hw as [Hw|Hw].
      * rewrite fmap_app in Hs. assert (y < r); [|lia]. apply (StronglySorted_app_1_elem_of Z.lt rows'.*1 [r]); [done| |by apply list_elem_of_singleton].
        apply list_elem_of_fmap. by exists (y, w).
      * apply list_elem_of_singleton in Hw. injection Hw as -> ->. lia.
    + right. exists v. apply elem_of_list_to_map_1; [by apply sorted_nodup|]. apply elem_of_app. right. by apply list_elem_of_singleton.
Qed.

(** The cell of a row is built without an overflow chain. *)
Lemma build_local (bt : tdb_btree) (p : P) r v :
  row_local (bt_ps bt) (r, v) ->
  build_leaf_cell alloc_ok bt p (rowid_to_key r) v = (TDB_OK, p, cell_bytes (bt_ps bt) (row_cell r v)).
Proof using Halloc.
  intros (Hr & Hb & Hl). cbn [fst snd] in *. unfold build_leaf_cell. change (blen (rowid_to_key r)) with 8 in *.
  rewrite Halloc, Hl, Z.ltb_irrefl. cbn [negb]. f_equal. cbn [cell_bytes row_cell]. change (blen (rowid_to_key r)) with 8.
  by rewrite Hl, Z.ltb_irrefl, app_nil_r, bsub_all.
Qed.
Lemma leaf_put_tree depth p live bt r v :
  (0 < depth)%nat -> st_ok p live -> bt_root bt ∈ live -> one_leaf p bt -> 0 <= r < 2 ^ 64 -> tv_fits p bt r v ->
  exists q d, tdb_btree_put alloc_ok depth bt p r v = Some (TDB_OK, q) /\ st_ok q live /\ pp_page_size q = pp_page_size p
    /\ leaf_rows (pp_page_size p) d (row_put (rows_of (pp_page_size p) (st_view p (bt_root bt))) r v)
    /\ forall g, st_view q g = if g =? bt_root bt then d else st_view p g.
Proof using All.
  intros Hd Hp Hin [Ebt Hl] Hr [Hloc Hfit]. cbn [tv_rows leaf_tables] in *. set (g := bt_root bt) in *. set (rows := rows_of _ _) in *.
  assert (bt_ps bt = pp_page_size p) as Eps by (by rewrite Ebt). assert (bt_kind bt = TDB_BT_TABLE) as Ek by (by rewrite Ebt).
  pose proof (st_ps p live Hp) as Hps. destruct depth as [|depth]; [lia|].
  destruct (st_get p live g Hp Hin) as (p1 & E1 & (Hp1 & Hv1 & _ & Ps1) & Hpin). destruct (lr_leaf _ _ _ Hl) as [El _].
  assert (pp_data p1 g = st_view p g) as Ed by (by rewrite (st_data p1 live g Hp1 Hpin)).
  assert (pg_find alloc_ok bt (st_view p g) (rowid_to_key r) = (Z.of_nat (pos rows r), bool_decide (r ∈ rows.*1))) as Ef
    by (apply leaf_find; rewrite ?Eps; done).
  destruct (leaf_put alloc_ok (pp_page_size p) (st_view p g) rows r v (Halloc _) Hl Hloc Hfit) as (d & Ei & Hd').
  unfold tdb_btree_put, tdb_btree_insert. change (blen (rowid_to_key r)) with 8. rewrite Eps.
  assert (256 <= pp_page_size p / 2) by (apply Z.div_le_lower_bound; lia).
  destruct (Z.ltb_spec (pp_page_size p / 2) (8 + 16)); [lia|].
  rewrite build_local by (rewrite Eps; done). fold g. cbn [insert_rec]. rewrite E1, Ed, El. unfold insert_leaf. rewrite Ed, Ef. cbn iota beta.
  assert (forall p2, p2 = p1 \/ (exists d2, p2 = pp_set p1 g d2) -> pp_set p2 g d = pp_set p1 g d) as Hset.
  { intros p2 [->|[d2 ->]]; [done|]. by apply (st_set_set p1 live). }
  destruct (st_write p1 live g d Hp1 Hin Hpin) as (rc & q & Ew & Hq & _ & Hsq & Hvq).
  { rewrite Ps1. apply (pr_len _ _ _ (lr_page _ _ _ Hd')). }
  destruct (st_unref q live g Hq) as (Hq' & Hv' & _ & Hs'). exists (pp_unref q g), d.
  split; [|split; [done|split; [congruence|split; [done|intros g'; rewrite Hv', Hvq; destruct (g' =? g); [done|apply Hv1]]]]].
  pose proof (rows_find rows r (lr_sorted _ _ _ Hl)) as Hf. rewrite Eps. destruct (bool_decide (r ∈ rows.*1)).
  - destruct Hf as (w & Hw & _). destruct (leaf_read _ _ _ _ _ _ Hl Hw) as (off & -> & _). cbn [lc_ovfl Z.eqb negb].
    rewrite Ed, (st_set_data p1 live) by done. rewrite Ei. cbn iota beta. rewrite Hset by (right; by eexists). by rewrite Ew.
  - rewrite Ed, Ei. cbn iota beta. by rewrite Ew.
Qed.

Lemma leaf_table_store depth : (0 < depth)%nat -> TableStore P alloc_ok depth.
Proof using All.
  intros Hd. split.
  - intros p ts bt (live & Hp & Hnd & Hts) Hbt. apply (Hts bt Hbt).
  - intros p ts bt r v (live & Hp & Hnd & Hts) Hbt Hv. apply elem_of_list_to_map_2 in Hv. destruct (Hts bt Hbt) as (_ & _ & Hl).
    pose proof (lr_local _ _ _ Hl) as Hf. rewrite Forall_forall in Hf. by destruct (Hf _ Hv).
  - intros p ts bt r c0 Hc0 (live & Hp & Hnd & Hts) Hbt Hr p0. destruct (Hts bt Hbt) as [Hin Ho].
    destruct (leaf_get depth p c0 p0 live bt r Hd Hc0 eq_refl Hp Hin Ho Hr) as (q & c & E & Hc). exists q, c. split; [done|].
    destruct (tv_rows p0 bt !! r); [|by eapply same_store_tables]. destruct Hc as (q' & c' & E' & Hw & Hs). exists q', c'.
    split; [done|]. split; [done|]. by eapply same_store_tables.
  - intros p ts bt (live & Hp & Hnd & Hts) Hbt. destruct (Hts bt Hbt) as [Hin Ho].
    destruct (leaf_max depth p live bt Hd Hp Hin Ho) as (q & mx & E & Hs & Hm). exists q, mx. split; [done|]. split; [|done].
    by eapply same_store_tables.
  - intros p ts bt r v (live & Hp & Hnd & Hts) Hbt Hr Hfit. destruct (Hts bt Hbt) as [Hin Ho].
    destruct (leaf_put_tree depth p live bt r v Hd Hp Hin Ho Hr Hfit) as (q & d & E & Hq & Hs & Hl & Hv).
    assert (forall bt', bt' ∈ ts -> bt_root bt' = bt_root bt -> bt' = bt) as Hroot.
    { intros bt' Hbt' Er. destruct (Hts bt' Hbt') as (_ & -> & _), Ho as [-> _]. cbn in Er. by rewrite Er. }
    assert (forall bt', bt' ∈ ts -> bt' <> bt -> st_view q (bt_root bt') = st_view p (bt_root bt')) as Hother.
    { intros bt' Hbt' Hne. rewrite Hv. destruct (Z.eqb_spec (bt_root bt') (bt_root bt)); [|done]. exfalso. by apply Hne, Hroot. }
    assert (rows_of (pp_page_size q) (st_view q (bt_root bt)) = row_put (rows_of (pp_page_size p) (st_view p (bt_root bt))) r v) as Er
      by (rewrite Hs, Hv, Z.eqb_refl; by apply rows_of_leaf).
    exists q. split; [done|]. split; [|split; [|split]].
    + exists live. split; [done|]. split; [done|]. intros bt' Hbt'. destruct (Hts bt' Hbt') as [Hin' Ho']. split; [done|].
      destruct (Z.eq_dec (bt_root bt') (bt_root bt)) as [Eq|Hne]; [apply Hroot in Eq as ->; [|done]|].
      * split; [rewrite Hs; apply Ho|]. rewrite Er, Hs, Hv, Z.eqb_refl. done.
      * unfold one_leaf. rewrite Hother, Hs by (done || by intros ->). done.
    + cbn. rewrite Er. apply row_put_map, (lr_sorted _ _ _ (proj2 Ho)).
    + intros bt' Hbt' Hne. cbn. by rewrite Hother, Hs.
    + intros bt' r' v' Hbt' Hne. cbn. by rewrite Hother, Hs.
Qed.

(** A new table is an empty leaf. *)
Lemma leaf_create p live :
  st_ok p live -> 0 < st_room p ->
  exists q g, tdb_btree_create p TDB_BT_TABLE = (TDB_OK, q, g) /\ (g ∉ live) /\ st_ok q (g :: live)
    /\ st_room p - 1 <= st_room q /\ pp_page_size q = pp_page_size p
    /\ leaf_rows (pp_page_size p) (st_view q g) [] /\ (forall g', g' ∈ live -> st_view q g' = st_view p g').
Proof using All.
  intros Hp Hroom. destruct (st_alloc p live Hp Hroom) as (p1 & g & E & Hn & Hp1 & Hpin & Hr & Hs & Hv).
  pose proof (st_ps p live Hp) as Hps. assert (g ∈ g :: live) as Hg by (apply elem_of_cons; by left).
  destruct (st_page p1 _ g Hp1 Hg) as [_ Hlen]. unfold tdb_btree_create. rewrite E, (st_data p1 _ g Hp1 Hpin).
  set (d := bput _ TDB_BT_CELL_CONTENT _).
  assert (d = init_page (pp_page_size p) (st_view p1 g) TDB_PAGE_LEAF_TABLE) as Ed
    by (unfold d, init_page, pg_set_content, pg_set_ncell; rewrite Z.eqb_refl, Hs; done).
  destruct (init_page_ok (pp_page_size p) (st_view p1 g) TDB_PAGE_LEAF_TABLE Hps) as [Hrep Hty]; [lia|]. rewrite <- Ed in Hrep, Hty.
  destruct (st_write p1 _ g d Hp1 Hg Hpin) as (rc & q & Ew & Hq & Hr2 & Hs2 & Hv2); [rewrite (pr_len _ _ _ Hrep); lia|].
  destruct (st_unref q _ g Hq) as (Hq' & Hv3 & Hr3 & Hs3). rewrite Ew. exists (pp_unref q g), g.
  split; [done|]. split; [done|]. split; [done|]. split; [lia|]. split; [lia|]. split.
  - rewrite Hv3, Hv2, Z.eqb_refl. split; [done|done|constructor|constructor].
  - intros g' Hg'. rewrite Hv3, Hv2. destruct (Z.eqb_spec g' g) as [->|]; [done|]. by apply Hv.
Qed.
End Leaf.
