(* ===== verification/BtreePager.v ===== *)
(** * The B-tree over the pager

    [PagerPages] is implemented by the pager of the development, so that the
    tree, the pager, the log and the memory files run together, and
    [PageStore] by its theorems, so that what is proved of the tree against
    the laws holds of the tree over the pager. *)
From S2P Require Import Prelude Util File Wal WalSpec Value Record Pager PagerSpec PagerFree Btree Cursor BtreeStore.

Section Real.
Context {F : Type} `{Vfs F} (lib : option zstd) (alloc_ok : Z -> bool).

Definition pager_pages : PagerPages (tdb_pager F) := {|
  pp_get := tdb_pager_get lib alloc_ok;
  pp_data := page_data;
  pp_set := page_set;
  pp_write := tdb_pager_write;
  pp_unref := tdb_pager_unref;
  pp_alloc := tdb_pager_alloc lib alloc_ok;
  pp_free := tdb_pager_free lib alloc_ok;
  pp_page_size := tdb_pager_page_size |}.

(** A table whose root is [bt_root bt]: rows are written one after the other,
    and read with a cursor of their own. *)
Definition put_row (bt : tdb_btree) (st : option (tdb_status * tdb_pager F)) (row : Z * list Z)
  : option (tdb_status * tdb_pager F) :=
  match st with
  | Some (TDB_OK, p) => tdb_btree_put (H := pager_pages) alloc_ok TDB_MAXDEPTH bt p row.1 row.2
  | _ => st
  end.
Definition put_rows (bt : tdb_btree) (p : tdb_pager F) (rows : list (Z * list Z)) : option (tdb_status * tdb_pager F) :=
  foldl (put_row bt) (Some (TDB_OK, p)) rows.
Definition get_row (bt : tdb_btree) (p : tdb_pager F) (rowid : Z) : option (list Z) :=
  match (tdb_cursor_open alloc_ok).2 with
  | Some cur =>
      match tdb_btree_get (H := pager_pages) alloc_ok TDB_MAXDEPTH bt p cur rowid with
      | Some (TDB_OK, _, _, v) => Some v
      | _ => None
      end
  | None => None
  end.
End Real.

(** ** The pager is a page store *)

Section Store.
Context {F : Type} `{VfsLaws F} (lib : option zstd) (alloc_ok : Z -> bool) (Halloc : forall n, alloc_ok n = true).
Abbreviation pager := (tdb_pager F).

(** The client holds the allocated pages; a page is pinned while it is in the
    cache, and page numbers stay below 2{^31}. *)
Definition pager_view : StoreView pager := {|
  st_ok := fun p live => fl_inv lib alloc_ok (p, live);
  st_view := page_view lib alloc_ok;
  st_pinned := fun p g => is_Some (cache_lookup p g);
  st_room := fun p => 2 ^ 31 - 1 - h_db_size (p_hdr p) |}.
#[local] Existing Instance pager_view.
#[local] Instance the_pages : PagerPages pager := pager_pages lib alloc_ok.

Lemma fl_inv_cache p p' live :
  fl_inv lib alloc_ok (p, live) -> p' = pset_cache p (p_buckets p') (p_ncached p') (p_lru p') -> pager_ok lib alloc_ok p' ->
  (forall g, g ∉ live -> page_view lib alloc_ok p' g = page_view lib alloc_ok p g) -> fl_inv lib alloc_ok (p', live).
Proof using All.
  intros (Hp & Hro & chain & Hf & Hpart) Hfr Hp' Hv. cbn [fst snd] in *.
  assert (p_hdr p' = p_hdr p /\ p_page_size p' = p_page_size p /\ p_readonly p' = false) as (Eh & Es & Er) by (rewrite Hfr; done).
  destruct (fl_inv_disjoint (p, live) chain Hpart) as [Hlive _].
  split; [done|]. split; [done|]. exists chain. cbn [fst snd]. rewrite Eh. split; [|done].
  destruct Hf as [F1 F2 F3 F4 F5]. split; rewrite ?Eh, ?Es; try done. eapply freelist_view_ext; [|exact F1].
  intros g Hg. apply Hv. intros Hl. by destruct (Hlive g Hl).
Qed.
Lemma fl_inv_live p live g : fl_inv lib alloc_ok (p, live) -> g ∈ live -> is_pgno g.
Proof using All.
  intros (Hp & Hro & chain & Hf & Hpart) Hg. destruct (fl_inv_disjoint (p, live) chain Hpart) as [Hl _].
  pose proof (Hl g Hg) as [_ ?]. pose proof (fo_size _ _ _ _ Hf). cbn [fst] in *. unfold is_pgno. lia.
Qed.
Lemma same_store_cache p p' live :
  fl_inv lib alloc_ok (p, live) -> pager_ok lib alloc_ok p' -> cache_ext lib alloc_ok p p' -> same_store p p' live.
Proof using All.
  intros Hi Hp' [Hfr Hv _]. split; [apply (fl_inv_cache p); [done|done|done|intros g _; apply Hv]|]. split; [exact Hv|].
  cbn. unfold tdb_pager_page_size. rewrite Hfr. done.
Qed.

Lemma pager_store_laws : PageStore pager.
Proof using All.
  split.
  - intros p live live' Hperm (Hp & Hro & chain & Hf & Hpart). split; [done|]. split; [done|]. exists chain.
    cbn [fst snd] in *. by rewrite <- Hperm.
  - intros p live (Hp & Hro & chain & Hf & Hpart). by destruct (fl_inv_disjoint (p, live) chain Hpart).
  - intros p live (Hp & _). apply (store_ps lib), (po_store _ _ _ Hp).
  - intros p live g Hi Hg. pose proof (fl_inv_live p live g Hi Hg) as Hpg. destruct Hi as (Hp & _).
    split; [unfold is_pgno in Hpg; lia|]. by apply view_len.
  - intros p live g _ [pg E]. cbn. unfold page_data, page_view. by rewrite E.
  - intros p live g d (Hp & _) [pg E]. exact (page_data_set p g pg d (po_cache _ _ _ Hp) E).
  - intros p live g d d' (Hp & _). exact (page_set_set p g d d' (po_cache _ _ _ Hp)).
  - intros p live g Hi Hg. destruct (get_ok lib alloc_ok Halloc p g) as (p' & E & Hp' & He & pg & Hl & _);
      [apply Hi|exact (fl_inv_live p live g Hi Hg)|]. exists p'. split; [done|]. split; [by apply same_store_cache|by exists pg].
  - intros p live g Hi. destruct (unref_ok lib alloc_ok p g) as [Hp' He]; [apply Hi|]. by apply same_store_cache.
  - intros p live g d Hi Hg [pg Hl] Hd. pose proof Hi as (Hp & Hro & _). pose proof (po_cache _ _ _ Hp) as Hw. cbn [fst] in *.
    cbn [pp_write pp_set the_pages pager_pages]. unfold tdb_pager_write. change (p_readonly (page_set p g d)) with (p_readonly p). rewrite Hro.
    eexists _, _. split; [reflexivity|]. unfold page_set. rewrite page_update_fuse by done.
    destruct (po_page _ _ _ Hp g pg Hl) as (_ & _ & ? & _).
    destruct (modify_ok lib alloc_ok p g pg (fun x => set_dirty true (mk_page (pg_pgno x) d (pg_dirty x) (pg_refs x))) d) as [M1 M2 M3 M4]; try done.
    split; [|split; [done|split; [done|exact M3]]].
    apply (fl_inv_cache p); [done|done|done|]. intros g' Hg'. rewrite M3. by destruct (Z.eqb_spec g' g) as [->|].
  - intros p live Hi Hroom. cbn [st_room pager_view] in Hroom.
    destruct (fl_alloc_inv lib alloc_ok Halloc p live Hi) as (q & g & E & Hi' & Hn & _ & Hv & Hd & Hb & Hs); [lia|].
    exists q, g. split; [done|]. split; [done|]. split; [done|]. split.
    + cbn. unfold is_dirty in Hd. destruct (cache_lookup q g) as [pg|]; [by exists pg|done].
    + split; [cbn; lia|]. split; [cbn; unfold tdb_pager_page_size; by rewrite Hb|done].
  - intros p live g Hi. destruct (fl_free_inv lib alloc_ok Halloc p (g :: live) g Hi) as (q & E & Hi' & Hv & Hb & Hs); [apply elem_of_cons; by left|].
    cbn [list_unlink] in Hi', Hv. rewrite Z.eqb_refl in Hi', Hv. exists q. split; [done|]. split; [done|].
    split; [cbn; lia|]. split; [cbn; unfold tdb_pager_page_size; by rewrite Hb|done].
Qed.
End Store.

(** ** A table on a fresh memory database with 512-byte pages *)

#[local] Instance demo_mem : Vfs mem_handle := mem_vfs ok_alloc.
Definition demo_pager : tdb_pager mem_handle :=
  fresh_pager mem_open (wal_init None mem_open 512) false 512 (new_header 512).
Definition demo_table : tdb_status * tdb_pager mem_handle * Z :=
  tdb_btree_create (H := pager_pages None ok_alloc) demo_pager TDB_BT_TABLE.
Definition demo_bt : tdb_btree := mk_btree demo_table.2 TDB_BT_TABLE None 512.
Definition demo_put := put_rows None ok_alloc demo_bt.
Definition demo_get := get_row None ok_alloc demo_bt.

(** Thirteen rows: 2, 3 and 4 hold 115 bytes, the others none. *)
Definition demo_rows : list (Z * list Z) :=
  map (fun r => (r, if (2 <=? r) && (r <=? 4) then replicate 115 r else [])) (seqZ 1 13).

(** Rows can be lost on a split: a table holds thirteen rows, every one of
    which is read back; storing a longer value in row 1 reports success, and
    rows 4, 5 and 6 are gone.  [split_leaf] divides the cells by their number
    and ignores the [TDB_FULL] of [insert_cell] when a half does not fit. *)
Theorem btree_split_loses_rows :
  match demo_put demo_table.1.2 demo_rows with
  | Some (TDB_OK, p) =>
      map (fun row => demo_get p row.1) demo_rows = map (fun row => Some row.2) demo_rows
      /\ match demo_put p [(1, replicate 115 1)] with
         | Some (TDB_OK, p') =>
             map (demo_get p') (seqZ 1 13)
             = [Some (replicate 115 1); Some (replicate 115 2); Some (replicate 115 3)]
               ++ [None; None; None] ++ replicate 7 (Some [])
         | _ => False
         end
  | _ => False
  end.
Proof. vm_compute. split; reflexivity. Qed.

(** ** A value of 1200 bytes in a chain of the pager *)

#[local] Instance demo_laws : VfsLaws mem_handle := mem_vfs_laws ok_alloc.
#[local] Instance demo_pages : PagerPages (tdb_pager mem_handle) := pager_pages None ok_alloc.
#[local] Instance demo_view : StoreView (tdb_pager mem_handle) := pager_view None ok_alloc.
#[local] Instance demo_store : PageStore (tdb_pager mem_handle) := pager_store_laws None ok_alloc (fun _ => eq_refl).

Lemma overflow_chain_roundtrip_witness :
  exists w q pages r,
    overflow_write demo_bt (demo_fresh w) (replicate 1200 7) = (TDB_OK, q, hd 0 pages) /\ length pages = 3%nat
    /\ overflow_read demo_bt q (hd 0 pages) 1200 = (TDB_OK, r, replicate 1200 7).
Proof.
  destruct demo_fresh_ok as (w & _ & _ & Hp). pose proof (demo_fl_inv w Hp) as Hi.
  destruct (overflow_chain_roundtrip demo_bt (demo_fresh w) [] (replicate 1200 7)) as (q & pages & E & Hq & Hs & _ & Hl & Hr);
    [reflexivity|exact Hi|change (1200 <= 508 * (2 ^ 31 - 1 - 1)); lia|].
  destruct (Hr q [] Hq) as [(r & Er & _) _]; [exact Hs|done|].
  exists w, q, pages, r. split; [exact E|]. split; [|exact Er].
  change (1200 <= 508 * Z.of_nat (length pages) < 1200 + 508) in Hl. lia.
Defined.
