(* ===== verification/PinStore.v ===== *)
(** * Pages that stay pinned

    A client that keeps a page while it calls others relies on more than
    [PageStore] says: a fetched page stays in memory until it is released as
    often as it was fetched, and bytes written to a page it holds survive the
    allocation and the writing of other pages.  The pager has both. *)
From S2P Require Import Prelude Util File Wal WalSpec Value Record Pager PagerSpec PagerFree Btree Cursor BtreeStore BtreePager.

(** How often a page is held. *)
Class PinView (P : Type) := st_pins : P -> Z -> Z.

Class PinStore (P : Type) `{PageStore P} `{!PinView P} : Prop := {
  pin_nonneg : forall p live g, st_ok p live -> 0 <= st_pins p g;
  pin_pinned : forall p live g, st_ok p live -> 0 < st_pins p g -> st_pinned p g;
  pin_get : forall p q live g x, st_ok p live -> g ∈ live -> pp_get p g = (TDB_OK, q) ->
    st_pins q x = st_pins p x + (if x =? g then 1 else 0);
  pin_unref : forall p live g x, st_ok p live -> 0 < st_pins p g ->
    st_pins (pp_unref p g) x = st_pins p x - (if x =? g then 1 else 0);
  pin_write : forall p live g d x rc q, st_ok p live -> pp_write (pp_set p g d) g = (rc, q) -> st_pins q x = st_pins p x;
  pin_alloc : forall p live q g, st_ok p live -> 0 < st_room p -> pp_alloc p = (TDB_OK, q, g) ->
    0 < st_pins q g /\ forall x, x ∈ live -> st_pins q x = st_pins p x;
  set_size : forall p g d, pp_page_size (pp_set p g d) = pp_page_size p;
  set_other : forall p live g h d, st_ok p live -> h <> g -> pp_data (pp_set p g d) h = pp_data p h;
  set_alloc : forall p live g d, st_ok p live -> g ∈ live -> 0 < st_pins p g -> 0 < st_room p ->
    pp_alloc (pp_set p g d) = let '(rc, q, h) := pp_alloc p in (rc, pp_set q g d, h);
  set_write : forall p live g d h e, st_ok p live -> h <> g ->
    pp_write (pp_set (pp_set p g d) h e) h = let '(rc, q) := pp_write (pp_set p h e) h in (rc, pp_set q g d) }.

(** ** The cache *)

Section Cache.
Context {F : Type} `{Vfs F} (lib : option zstd) (alloc_ok : Z -> bool) (Halloc : forall n, alloc_ok n = true).
Abbreviation pager := (tdb_pager F).
Definition pins (p : pager) (g : Z) : Z := match cache_lookup p g with Some pg => pg_refs pg | None => 0 end.

(** Changes of two buckets. *)
Lemma put_bucket (bs : list (list tdb_page)) b f : <[b := f (nth b bs [])]> bs = alter f b bs.
Proof. revert b. induction bs as [|l bs IH]; intros [|b]; cbn; try done. f_equal. apply IH. Qed.
Lemma put_update (bs : list (list tdb_page)) b g f : <[b := bucket_update (nth b bs []) g f]> bs = alter (fun l => bucket_update l g f) b bs.
Proof. apply (put_bucket bs b (fun l => bucket_update l g f)). Qed.
Lemma put_remove (bs : list (list tdb_page)) b g : <[b := bucket_remove (nth b bs []) g]> bs = alter (fun l => bucket_remove l g) b bs.
Proof. apply (put_bucket bs b (fun l => bucket_remove l g)). Qed.
Lemma put_cons (bs : list (list tdb_page)) b n : <[b := n :: nth b bs []]> bs = alter (fun l => n :: l) b bs.
Proof. apply (put_bucket bs b (fun l => n :: l)). Qed.
Lemma alter_swap (bs : list (list tdb_page)) a b f g : (forall l, f (g l) = g (f l)) -> alter f a (alter g b bs) = alter g b (alter f a bs).
Proof.
  intros Hfg. destruct (decide (a = b)) as [<-|Hne]; [|by apply list_alter_alter_ne]. rewrite !list_alter_alter_eq.
  apply list_alter_ext; [|done]. intros l _. apply Hfg.
Qed.
Abbreviation with_data d := (fun pg => mk_page (pg_pgno pg) d (pg_dirty pg) (pg_refs pg)).
Lemma update_update l g h f k : g <> h -> (forall x, pg_pgno (f x) = pg_pgno x) -> (forall x, pg_pgno (k x) = pg_pgno x) ->
  bucket_update (bucket_update l g f) h k = bucket_update (bucket_update l h k) g f.
Proof.
  intros Hne Hf Hk. induction l as [|x l IH]; [done|]. cbn [bucket_update].
  destruct (Z.eqb_spec (pg_pgno x) g) as [E|E], (Z.eqb_spec (pg_pgno x) h) as [E'|E']; cbn [bucket_update]; rewrite ?Hf, ?Hk.
  - congruence.
  - by destruct (Z.eqb_spec (pg_pgno x) h), (Z.eqb_spec (pg_pgno x) g).
  - by destruct (Z.eqb_spec (pg_pgno x) h), (Z.eqb_spec (pg_pgno x) g).
  - destruct (Z.eqb_spec (pg_pgno x) h), (Z.eqb_spec (pg_pgno x) g); [done|done|done|]. by rewrite IH.
Qed.
Lemma update_remove l g h f : g <> h -> (forall x, pg_pgno (f x) = pg_pgno x) ->
  bucket_remove (bucket_update l g f) h = bucket_update (bucket_remove l h) g f.
Proof.
  intros Hne Hf. induction l as [|x l IH]; [done|]. cbn [bucket_update bucket_remove].
  destruct (Z.eqb_spec (pg_pgno x) g) as [E|E]; cbn [bucket_update bucket_remove]; rewrite ?Hf.
  - destruct (Z.eqb_spec (pg_pgno x) h); [congruence|]. cbn [bucket_update]. by destruct (Z.eqb_spec (pg_pgno x) g).
  - destruct (Z.eqb_spec (pg_pgno x) h); [done|]. cbn [bucket_update]. destruct (Z.eqb_spec (pg_pgno x) g); [done|]. by rewrite IH.
Qed.
(** Writing the bytes of [g] commutes with what happens to other pages. *)
Lemma set_update (p : pager) g d h f : h <> g -> (forall x, pg_pgno (f x) = pg_pgno x) ->
  page_update (page_set p g d) h f = page_set (page_update p h f) g d.
Proof.
  intros Hne Hf. unfold page_set, page_update, bucket. unfold pset_cache. cbn [p_buckets p_ncached p_lru p_file p_wal p_readonly p_in_txn p_page_size p_hdr p_hdr_dirty p_sps]. f_equal.
  rewrite !put_update. apply alter_swap. intros l. by apply update_update.
Qed.
Lemma set_remove (p : pager) g d h : h <> g -> cache_remove (page_set p g d) h = page_set (cache_remove p h) g d.
Proof.
  intros Hne. unfold cache_remove, page_set, page_update, bucket, lru_unlink. unfold pset_cache. cbn [p_buckets p_ncached p_lru p_file p_wal p_readonly p_in_txn p_page_size p_hdr p_hdr_dirty p_sps]. f_equal.
  rewrite !put_update, !put_remove. apply alter_swap. intros l. by apply update_remove.
Qed.
Lemma set_new (p : pager) g d h : h <> g -> page_new alloc_ok (page_set p g d) h = (fun q => page_set q g d) <$> page_new alloc_ok p h.
Proof.
  intros Hne. unfold page_new, page_set, page_update, bucket, lru_push_front. cbn [pset_cache p_page_size]. destruct (negb _); [done|].
  cbn [fmap option_fmap option_map]. f_equal. unfold pset_cache. cbn [p_buckets p_ncached p_lru p_file p_wal p_readonly p_in_txn p_page_size p_hdr p_hdr_dirty p_sps]. f_equal.
  set (n := mk_page h _ _ _). rewrite !put_update, !put_cons.
  apply alter_swap. intros l. cbn [bucket_update n pg_pgno]. by destruct (Z.eqb_spec h g).
Qed.
Lemma set_lookup (p : pager) g d h : cache_wf p -> h <> g -> cache_lookup (page_set p g d) h = cache_lookup p h.
Proof. intros Hw Hne. unfold page_set. rewrite lookup_update by done. by destruct (Z.eqb_spec h g). Qed.
Lemma set_data_other (p : pager) g d h : cache_wf p -> h <> g -> page_data (page_set p g d) h = page_data p h.
Proof. intros Hw Hne. unfold page_data. by rewrite set_lookup. Qed.
Lemma pins_remove (p : pager) g pg x : cache_wf p -> cache_lookup p g = Some pg -> pg_refs pg = 0 -> pins (cache_remove p g) x = pins p x.
Proof.
  intros Hw Hl Hr. unfold pins. rewrite (lookup_remove p g pg) by done. destruct (Z.eqb_spec x g) as [->|]; [|done]. by rewrite Hl.
Qed.
Lemma trim_pins (p : pager) l x : cache_wf p -> cache_wf (trim_loop p l) /\ pins (trim_loop p l) x = pins p x.
Proof.
  revert p. induction l as [|h l IH]; intros p Hw; cbn [trim_loop]; [done|]. destruct (_ <? _); [|done].
  destruct (cache_lookup p h) as [pg|] eqn:E; [|by apply IH]. destruct (Z.eqb_spec (pg_refs pg) 0) as [Hr|]; [|by apply IH].
  destruct (pg_dirty pg); [by apply IH|]. cbn [negb andb]. destruct (IH (cache_remove p h)) as [I1 I2]; [by eapply cache_remove_wf|].
  split; [done|]. rewrite I2. by eapply pins_remove.
Qed.
Lemma set_trim (p : pager) g d l : cache_wf p -> 0 < pins p g -> trim_loop (page_set p g d) l = page_set (trim_loop p l) g d.
Proof.
  revert p. induction l as [|h l IH]; intros p Hw Hg; cbn [trim_loop]; [done|]. change (p_ncached (page_set p g d)) with (p_ncached p).
  destruct (_ <? _); [|done]. destruct (decide (h = g)) as [->|Hne].
  - unfold page_set at 1. rewrite lookup_update, Z.eqb_refl by done. unfold pins in Hg. destruct (cache_lookup p g) as [pg|] eqn:E; [|lia].
    cbn [fmap option_fmap option_map pg_refs pg_dirty]. destruct (Z.eqb_spec (pg_refs pg) 0); [lia|]. cbn [andb]. apply IH; [done|].
    unfold pins. by rewrite E.
  - rewrite set_lookup by done. destruct (cache_lookup p h) as [pg|] eqn:E; [|by apply IH]. destruct (Z.eqb_spec (pg_refs pg) 0) as [Hr|]; [|by apply IH].
    destruct (pg_dirty pg); [by apply IH|]. cbn [negb andb]. rewrite set_remove by done. apply IH; [by eapply cache_remove_wf|].
    by rewrite (pins_remove p h pg).
Qed.
End Cache.

(** ** The pager *)

Section Laws.
Context {F : Type} `{VfsLaws F} (lib : option zstd) (alloc_ok : Z -> bool) (Halloc : forall n, alloc_ok n = true).
Abbreviation pager := (tdb_pager F).
Abbreviation pager_get := (tdb_pager_get lib alloc_ok).

Lemma pins_update (p : pager) g f x : cache_wf p -> (forall pg, pg_pgno (f pg) = pg_pgno pg) ->
  (forall pg, pg_refs (f pg) = pg_refs pg) -> pins (page_update p g f) x = pins p x.
Proof.
  intros Hw Hf Hr. unfold pins. rewrite lookup_update by done. destruct (Z.eqb_spec x g) as [->|]; [|done].
  destruct (cache_lookup p g) as [pg|]; [|done]. apply Hr.
Qed.
Lemma get_pins (p q : pager) g x : pager_ok lib alloc_ok p -> is_pgno g -> pager_get p g = (TDB_OK, q) ->
  pins q x = pins p x + (if x =? g then 1 else 0).
Proof using Halloc.
  intros Hp Hg. pose proof (po_cache _ _ _ Hp) as Hw. unfold tdb_pager_get. destruct (Z.eqb_spec g 0); [unfold is_pgno in Hg; lia|].
  destruct (cache_lookup p g) as [pg|] eqn:E.
  - intros [= <-]. unfold pins. rewrite lookup_update; [|done|by eapply lru_touch_wf].
    change (cache_lookup (lru_push_front (lru_unlink p g) g)) with (cache_lookup p). destruct (Z.eqb_spec x g) as [->|]; [|lia]. by rewrite E.
  - destruct (page_new alloc_ok p g) as [p1|] eqn:En; [|done]. pose proof (page_new_wf _ _ _ _ Hw E En) as Hw1.
    destruct (read_page_image lib alloc_ok p1 g) as [[] d]; try done. intros [= <-].
    set (f := fun pg => mk_page (pg_pgno pg) d (pg_dirty pg) 1). assert (cache_wf (page_update p1 g f)) as Hw2 by (by apply page_update_wf).
    unfold cache_trim. destruct (trim_pins (page_update p1 g f) (rev (p_lru (page_update p1 g f))) x Hw2) as [_ ->].
    unfold pins. rewrite lookup_update, !(lookup_new alloc_ok p g p1) by done. rewrite Z.eqb_refl. destruct (Z.eqb_spec x g) as [->|]; [|lia]. by rewrite E.
Qed.
Lemma unref_pins (p : pager) g x : cache_wf p -> 0 < pins p g -> pins (tdb_pager_unref p g) x = pins p x - (if x =? g then 1 else 0).
Proof.
  intros Hw Hg. unfold tdb_pager_unref, pins in *. rewrite lookup_update; [|by intros pg; destruct (_ <? _)|done].
  destruct (Z.eqb_spec x g) as [->|]; [|lia]. destruct (cache_lookup p g) as [pg|]; [|lia]. cbn. by destruct (Z.ltb_spec 0 (pg_refs pg)); [|lia].
Qed.
Lemma set_get (p : pager) g d h : pager_ok lib alloc_ok p -> h <> g -> 0 < pins p g ->
  pager_get (page_set p g d) h = let '(rc, q) := pager_get p h in (rc, page_set q g d).
Proof.
  intros Hp Hne Hg. pose proof (po_cache _ _ _ Hp) as Hw. unfold tdb_pager_get. destruct (h =? 0); [done|]. rewrite set_lookup by done.
  destruct (cache_lookup p h) as [pg|] eqn:E.
  - change (lru_push_front (lru_unlink (page_set p g d) h) h) with (page_set (lru_push_front (lru_unlink p h) h) g d). by rewrite set_update.
  - rewrite set_new by done. destruct (page_new alloc_ok p h) as [p1|] eqn:En; [|done]. cbn [fmap option_fmap option_map].
    change (read_page_image lib alloc_ok (page_set p1 g d) h) with (read_page_image lib alloc_ok p1 h).
    pose proof (page_new_wf _ _ _ _ Hw E En) as Hw1. destruct (read_page_image lib alloc_ok p1 h) as [[] dd]; try by rewrite set_remove.
    rewrite set_update by done. f_equal. unfold cache_trim. change (p_lru (page_set ?q g d)) with (p_lru q). apply set_trim; [by apply page_update_wf|].
    unfold pins in *. rewrite lookup_update, !(lookup_new alloc_ok p h p1) by done. destruct (Z.eqb_spec g h); [congruence|done].
Qed.

Lemma wf_hdr (p : pager) h b : cache_wf p -> cache_wf (pset_hdr p h b).
Proof. intros [? ? ? ? ?]. by split. Qed.
Lemma pins_nonneg (p : pager) g : pager_ok lib alloc_ok p -> 0 <= pins p g.
Proof. intros Hp. unfold pins. destruct (cache_lookup p g) as [pg|] eqn:E; [|done]. by apply (po_page _ _ _ Hp) in E as (_ & _ & ? & _). Qed.
(** A page that was fetched is released again. *)
Lemma release_pins (p p1 p2 : pager) t x : pager_ok lib alloc_ok p -> is_pgno t -> pager_get p t = (TDB_OK, p1) ->
  cache_wf p2 -> (forall y, pins p2 y = pins p1 y) -> cache_wf (tdb_pager_unref p2 t) /\ pins (tdb_pager_unref p2 t) x = pins p x.
Proof using Halloc.
  intros Hp Ht E Hw Hpp. split; [apply page_update_wf; [by intros ?; destruct (_ <? _)|done]|].
  pose proof (pins_nonneg p t Hp) as Hnn.
  pose proof (get_pins p p1 t t Hp Ht E) as Hg1. rewrite Z.eqb_refl in Hg1. rewrite unref_pins, Hpp, (get_pins p p1 t x) by (done || rewrite ?Hpp; lia). lia.
Qed.

Lemma set_unref (p : pager) g d h : h <> g -> tdb_pager_unref (page_set p g d) h = page_set (tdb_pager_unref p h) g d.
Proof. intros Hne. apply set_update; [done|]. intros pg. by destruct (_ <? _). Qed.

Lemma set_swap (p : pager) g d h e : h <> g -> page_set (page_set p g d) h e = page_set (page_set p h e) g d.
Proof. intros Hne. by apply set_update. Qed.
Lemma set_dirtied (p : pager) g d h : h <> g -> tdb_pager_write (page_set p g d) h = let '(rc, q) := tdb_pager_write p h in (rc, page_set q g d).
Proof. intros Hne. unfold tdb_pager_write. change (p_readonly (page_set p g d)) with (p_readonly p). destruct (p_readonly p); [done|]. by rewrite set_update. Qed.

(** Taking a page from the free-list. *)
Lemma pop_pins (p q : pager) h x : pager_ok lib alloc_ok p -> (h_freelist_head (p_hdr p) <> 0 -> is_pgno (h_freelist_head (p_hdr p))) ->
  freelist_pop lib alloc_ok p = (TDB_OK, q, h) -> cache_wf q /\ pins q x = pins p x.
Proof using Halloc.
  intros Hp Hh. pose proof (po_cache _ _ _ Hp) as Hw. unfold freelist_pop. set (t := h_freelist_head (p_hdr p)) in *.
  destruct (Z.eqb_spec t 0) as [|Ht]; [by intros [= <- <-]|]. destruct (get_ok lib alloc_ok Halloc p t Hp (Hh Ht)) as (p1 & E & Hp1 & _).
  rewrite E. pose proof (po_cache _ _ _ Hp1) as Hw1. destruct (0 <? _).
  - assert (cache_wf (page_put_u32 p1 t TDB_FL_LEAF_COUNT (page_u32 p1 t TDB_FL_LEAF_COUNT - 1))
      /\ forall y, pins (page_put_u32 p1 t TDB_FL_LEAF_COUNT (page_u32 p1 t TDB_FL_LEAF_COUNT - 1)) y = pins p1 y) as [Hw2 Hp2]
      by (split; [by apply page_update_wf|intros y; by apply pins_update]).
    unfold tdb_pager_write. destruct (p_readonly _); intros [= <- <-].
    + destruct (release_pins p p1 _ t x Hp (Hh Ht) E Hw2 Hp2). by split; [apply wf_hdr|].
    + destruct (release_pins p p1 (page_update (page_put_u32 p1 t TDB_FL_LEAF_COUNT (page_u32 p1 t TDB_FL_LEAF_COUNT - 1)) t (set_dirty true)) t x Hp (Hh Ht) E);
        [by apply page_update_wf|intros y; by rewrite pins_update|]. by split; [apply wf_hdr|].
  - intros [= <- <-]. destruct (release_pins p p1 (pset_hdr p1 (hset_freelist (p_hdr p1) (page_u32 p1 t TDB_FL_NEXT_TRUNK) (h_freelist_count (p_hdr p1))) (p_hdr_dirty p1)) t x Hp (Hh Ht) E);
      [by apply wf_hdr|done|]. by split; [apply wf_hdr|].
Qed.
Lemma set_pop (p : pager) g d : pager_ok lib alloc_ok p -> 0 < pins p g -> h_freelist_head (p_hdr p) <> g ->
  (h_freelist_head (p_hdr p) <> 0 -> is_pgno (h_freelist_head (p_hdr p))) ->
  freelist_pop lib alloc_ok (page_set p g d) = let '(rc, q, h) := freelist_pop lib alloc_ok p in (rc, page_set q g d, h).
Proof using Halloc.
  intros Hp Hg Hne Hh. unfold freelist_pop. change (p_hdr (page_set p g d)) with (p_hdr p). set (t := h_freelist_head (p_hdr p)) in *.
  destruct (Z.eqb_spec t 0) as [|Ht]; [done|]. rewrite set_get by done. destruct (get_ok lib alloc_ok Halloc p t Hp (Hh Ht)) as (p1 & -> & Hp1 & _).
  pose proof (po_cache _ _ _ Hp1) as Hw1. unfold page_put_u32, page_u32. rewrite set_data_other by done.
  destruct (0 <? _); [|change (pset_hdr (page_set ?q g d) ?h ?b) with (page_set (pset_hdr q h b) g d); by rewrite set_unref].
  rewrite (set_swap p1 g d t), set_dirtied by done. destruct (tdb_pager_write _ t) as [rc q]. by rewrite set_unref.
Qed.

(** Allocation. *)
Lemma fl_head (p : pager) live : fl_inv lib alloc_ok (p, live) -> h_freelist_head (p_hdr p) <> 0 ->
  is_pgno (h_freelist_head (p_hdr p)) /\ (h_freelist_head (p_hdr p) ∉ live).
Proof.
  intros (Hp & Hro & chain & Hf & Hpart) Hne. cbn [fst snd] in *. destruct (fl_inv_disjoint (p, live) chain Hpart) as [Hlive _].
  assert (h_freelist_head (p_hdr p) ∈ fl_pages chain) as Hin.
  { pose proof (fo_list _ _ _ _ Hf) as Hl. inversion Hl as [Eh|]; [congruence|]. rewrite fl_pages_cons. apply elem_of_cons. by left. }
  split; [exact (fo_pgno _ _ _ _ _ Hf Hin)|]. intros Hin'. by destruct (Hlive _ Hin').
Qed.
(** Allocation after the number is chosen. *)
Definition install (p : pager) (h : Z) : tdb_status * pager * Z :=
  match page_new alloc_ok (match cache_lookup p h with Some _ => cache_remove p h | None => p end) h with
  | None => (TDB_NOMEM, match cache_lookup p h with Some _ => cache_remove p h | None => p end, 0)
  | Some p => (TDB_OK, page_update p h (fun pg => set_refs 1 (set_dirty true pg)), h)
  end.
Lemma install_pins (p q : pager) h g x : cache_wf p -> install p h = (TDB_OK, q, g) -> h = g /\ pins q x = if x =? g then 1 else pins p x.
Proof.
  intros Hw. unfold install. set (p1 := match cache_lookup p h with Some _ => _ | None => _ end).
  assert (cache_wf p1 /\ forall y, cache_lookup p1 y = if y =? h then None else cache_lookup p y) as [Hw1 Hl1].
  { unfold p1. destruct (cache_lookup p h) as [pg|] eqn:E.
    - split; [by eapply cache_remove_wf|]. intros y. by eapply lookup_remove.
    - split; [done|]. intros y. by destruct (Z.eqb_spec y h) as [->|]. }
  destruct (page_new alloc_ok p1 h) as [p2|] eqn:En; [|done]. intros [= <- <-]. split; [done|]. unfold pins.
  assert (cache_lookup p1 h = None) as Hn by (rewrite Hl1; by rewrite Z.eqb_refl).
  rewrite lookup_update, !(lookup_new alloc_ok p1 h p2), Z.eqb_refl, Hl1 by (done || by eapply page_new_wf). by destruct (x =? h).
Qed.
Lemma set_install (p : pager) g d h : cache_wf p -> h <> g -> install (page_set p g d) h = let '(rc, q, n) := install p h in (rc, page_set q g d, n).
Proof.
  intros Hw Hne. unfold install. rewrite set_lookup by done. destruct (cache_lookup p h); rewrite ?set_remove, set_new by done.
  all: destruct (page_new _ _ h) as [q|]; [|done]; cbn [fmap option_fmap option_map]; by rewrite set_update.
Qed.
Lemma alloc_parts (p : pager) : p_readonly p = false -> tdb_pager_alloc lib alloc_ok p =
  match freelist_pop lib alloc_ok p with
  | (TDB_OK, q, h) => if h =? 0 then install (pset_hdr q (hset_db_size (p_hdr q) (u32 (h_db_size (p_hdr q) + 1))) true) (u32 (h_db_size (p_hdr q) + 1)) else install q h
  | (rc, q, _) => (rc, q, 0)
  end.
Proof. intros Hro. unfold tdb_pager_alloc. rewrite Hro. destruct (freelist_pop lib alloc_ok p) as [[[] q] h]; try done. by destruct (h =? 0). Qed.
Lemma alloc_pins (p q : pager) live g : fl_inv lib alloc_ok (p, live) -> tdb_pager_alloc lib alloc_ok p = (TDB_OK, q, g) ->
  forall x, pins q x = if x =? g then 1 else pins p x.
Proof using Halloc.
  intros Hi E x. pose proof (fun H => proj1 (fl_head p live Hi H)) as Hh. destruct Hi as (Hp & Hro & _). cbn [fst] in *. rewrite alloc_parts in E by done.
  destruct (freelist_pop lib alloc_ok p) as [[[] p1] h] eqn:Ep; try done. destruct (pop_pins p p1 h x Hp Hh Ep) as [Hw <-].
  destruct (h =? 0); (eapply install_pins in E as [_ ->]; [done|]); [by apply wf_hdr|done].
Qed.
Lemma set_alloc_real (p : pager) live g d : fl_inv lib alloc_ok (p, live) -> g ∈ live -> 0 < pins p g -> h_db_size (p_hdr p) + 1 < 2 ^ 31 ->
  tdb_pager_alloc lib alloc_ok (page_set p g d) = let '(rc, q, h) := tdb_pager_alloc lib alloc_ok p in (rc, page_set q g d, h).
Proof using Halloc.
  intros Hi Hg Hpin Hroom. destruct (fl_alloc_inv lib alloc_ok Halloc p live Hi Hroom) as (q & n & E & _ & Hn & _).
  pose proof (fl_head p live Hi) as Hh. pose proof (fl_inv_live lib alloc_ok Halloc p live g Hi Hg) as Hpg. destruct Hi as (Hp & Hro & _). cbn [fst] in *. rewrite E.
  rewrite (alloc_parts (page_set p g d)) by done. rewrite alloc_parts in E by done. assert (h_freelist_head (p_hdr p) <> g) as Hne.
  { intros Eg. apply Hh; [|by rewrite Eg]. rewrite Eg. unfold is_pgno in Hpg. lia. }
  rewrite set_pop by (done || intros Hz; by apply Hh). destruct (freelist_pop lib alloc_ok p) as [[[] p1] h] eqn:Ep; try done.
  destruct (pop_pins p p1 h g Hp (fun Hz => proj1 (Hh Hz)) Ep) as [Hw _]. destruct (h =? 0).
  - change (p_hdr (page_set p1 g d)) with (p_hdr p1). change (pset_hdr (page_set p1 g d) ?a ?b) with (page_set (pset_hdr p1 a b) g d).
    pose proof (wf_hdr p1 (hset_db_size (p_hdr p1) (u32 (h_db_size (p_hdr p1) + 1))) true Hw) as Hw'.
    destruct (install_pins _ _ _ _ g Hw' E) as [En _]. rewrite set_install, E by (done || intros Eg; apply Hn; by rewrite <- En, Eg). done.
  - destruct (install_pins _ _ _ _ g Hw E) as [En _]. rewrite set_install, E by (done || intros Eg; apply Hn; by rewrite <- En, Eg). done.
Qed.

Definition pager_pins : PinView pager := pins.
#[local] Instance real_pages : PagerPages pager := pager_pages lib alloc_ok.
#[local] Instance real_view : StoreView pager := pager_view lib alloc_ok.
#[local] Instance real_laws : PageStore pager := pager_store_laws lib alloc_ok Halloc.
#[local] Existing Instance pager_pins.
Lemma pager_pin_store : PinStore pager.
Proof using Halloc.
  split.
  - intros p live g Hi. apply pins_nonneg, Hi.
  - intros p live g _ Hg. cbn. unfold st_pins, pager_pins, pins in Hg. destruct (cache_lookup p g); [done|lia].
  - intros p q live g x Hi Hg E. apply (get_pins p q g x); [apply Hi|exact (fl_inv_live lib alloc_ok Halloc p live g Hi Hg)|done].
  - intros p live g x Hi Hg. apply unref_pins; [|done]. apply (po_cache lib alloc_ok), Hi.
  - intros p live g d x rc q Hi E. pose proof (po_cache _ _ _ (proj1 Hi)) as Hw. cbn in E, Hw. unfold tdb_pager_write in E.
    assert (cache_wf (page_set p g d)) as Hw' by (by apply page_update_wf).
    destruct (p_readonly _); injection E as <- <-; unfold st_pins, pager_pins; rewrite ?pins_update by done; by apply pins_update.
  - intros p live q g Hi Hroom E. pose proof (alloc_pins p q live g Hi E) as Ha. unfold st_pins, pager_pins. split; [rewrite Ha, Z.eqb_refl; lia|].
    intros x Hx. rewrite Ha. destruct (Z.eqb_spec x g) as [->|]; [|done]. cbn in Hroom.
    destruct (fl_alloc_inv lib alloc_ok Halloc p live Hi) as (q' & n & E' & _ & Hn & _); [lia|]. cbn in E. rewrite E in E'. by injection E' as -> ->.
  - done.
  - intros p live g h d Hi Hne. apply set_data_other; [|done]. apply (po_cache lib alloc_ok), Hi.
  - intros p live g d Hi Hg Hpin Hroom. cbn in Hroom. apply (set_alloc_real p live g d Hi Hg Hpin). lia.
  - intros p live g d h e Hi Hne. cbn. rewrite set_swap, set_dirtied by done. done.
Qed.
End Laws.
