(* ===== verification/Rtree.v ===== *)
(** * The R-tree (src/src/storage/tdb_rtree.c)

    A node is a page: a type, a count and entries of a box and a number, which
    is a rowid in a leaf and a page above.  An insertion descends into the entry
    whose box grows least; a full node is split in two by Guttman's quadratic
    method.  Pages are reached through [PagerPages]; the recursion takes fuel for
    the height of the tree and answers [None] without it.  A callback of the
    search stops it with a status other than [TDB_OK]. *)
From Stdlib Require Import SpecFloat.
From S2P Require Import Prelude Util Value Cnum Geom Btree.

Definition TDB_PAGE_RTREE_LEAF : Z := 0x0C.
Definition TDB_PAGE_RTREE_INTERIOR : Z := 0x04.
Definition RT_HDR : Z := 8.
Definition RT_ENT : Z := 40.

Record rtent := mk_rtent { re_bb : tdb_bbox; re_pl : Z }.

(** ** Nodes *)

Definition rd_dbl (d : list Z) (off : Z) : spec_float := f64_of_bits (tdb_get_u64 (bfrom d off)).
Definition wr_dbl (f : spec_float) : list Z := tdb_put_u64 (bits_of_f64 f).
Definition nd_type (d : list Z) : Z := bget d 0.
Definition nd_count (d : list Z) : Z := tdb_get_u16 (bfrom d 2).
Definition nd_set_count (d : list Z) (n : Z) : list Z := bput d 2 (tdb_put_u16 (u16 n)).
Definition nd_is_leaf (d : list Z) : bool := nd_type d =? TDB_PAGE_RTREE_LEAF.
Definition nd_init (d : list Z) (type : Z) : list Z := nd_set_count (bput (bput d 0 (bzero RT_HDR)) 0 [type]) 0.
Definition nd_get (d : list Z) (i : Z) : rtent :=
  let p := RT_HDR + i * RT_ENT in
  mk_rtent (mk_bbox (rd_dbl d p) (rd_dbl d (p + 8)) (rd_dbl d (p + 16)) (rd_dbl d (p + 24))) (tdb_get_u64 (bfrom d (p + 32))).
Definition nd_put (d : list Z) (i : Z) (e : rtent) : list Z :=
  bput d (RT_HDR + i * RT_ENT)
    (wr_dbl (minx (re_bb e)) ++ wr_dbl (miny (re_bb e)) ++ wr_dbl (maxx (re_bb e)) ++ wr_dbl (maxy (re_bb e)) ++ tdb_put_u64 (re_pl e)).
Definition nd_cap (ps : Z) : Z := (ps - RT_HDR) / RT_ENT.

(** ** Boxes *)

Definition dzero : spec_float := S754_zero false.
Definition bb_area (b : tdb_bbox) : spec_float :=
  let w := dsub (maxx b) (minx b) in
  let h := dsub (maxy b) (miny b) in
  let w := if SFltb w dzero then dzero else w in
  let h := if SFltb h dzero then dzero else h in
  dmul w h.
Definition bb_union (a b : tdb_bbox) : tdb_bbox :=
  mk_bbox (if SFltb (minx a) (minx b) then minx a else minx b) (if SFltb (miny a) (miny b) then miny a else miny b)
    (if SFltb (maxx b) (maxx a) then maxx a else maxx b) (if SFltb (maxy b) (maxy a) then maxy a else maxy b).
Definition bb_enlarge (a b : tdb_bbox) : spec_float := dsub (bb_area (bb_union a b)) (bb_area a).
Definition cover (l : list rtent) : tdb_bbox :=
  match l with
  | [] => mk_bbox dzero dzero dzero dzero
  | e :: l => fold_left (fun o e => bb_union o (re_bb e)) l (re_bb e)
  end.
(** The entries of a node, as [nd_get] reads them. *)
Definition nd_entries (d : list Z) : list rtent := map (nd_get d) (seqZ 0 (nd_count d)).
Definition nd_cover (d : list Z) : tdb_bbox := cover (nd_entries d).

(** ** Splitting *)

Definition ent (ents : list rtent) (i : nat) : rtent := nth i ents (mk_rtent (cover []) 0).
(** The pair that wastes the most area. *)
Definition pick_seeds (ents : list rtent) : nat * nat :=
  (fold_left
     (fun st '(i, j) =>
        let '(s1, s2, worst) := st in
        let a := re_bb (ent ents i) in
        let b := re_bb (ent ents j) in
        let d := dsub (dsub (bb_area (bb_union a b)) (bb_area a)) (bb_area b) in
        if SFltb worst d then (i, j, d) else st)
     (flat_map (fun i => map (fun j => (i, j)) (seq (S i) (length ents - S i))) (seq 0 (length ents)))
     (0%nat, 1%nat, SFopp d1e308)).1.
(** The entry with the strongest preference, and whether it is for the first
    group; [None] when no preference compares above the start value. *)
Definition pick_next (ents : list rtent) (assigned : list bool) (ba bb : tdb_bbox) : option (nat * bool) :=
  (fold_left
     (fun st i =>
        let '(pick, best) := st in
        if nth i assigned true then st
        else
          let da := bb_enlarge ba (re_bb (ent ents i)) in
          let db := bb_enlarge bb (re_bb (ent ents i)) in
          let diff := if SFltb db da then dsub da db else dsub db da in
          if SFltb best diff then (Some (i, SFltb da db), diff) else st)
     (seq 0 (length ents)) (None, SFopp d1e308)).1.
(** The indices that are not assigned. *)
Definition unassigned (ents : list rtent) (assigned : list bool) : list nat := List.filter (fun i => negb (nth i assigned true)) (seq 0 (length ents)).
Fixpoint split_loop (ents : list rtent) (min_fill : Z) (remaining : nat) (assigned : list bool) (ga gb : list nat) (ba bb : tdb_bbox)
  : list nat * list nat :=
  match remaining with
  | O => (ga, gb)
  | S rest =>
      if Z.of_nat (length ga) + Z.of_nat remaining =? min_fill then (ga ++ unassigned ents assigned, gb)
      else if Z.of_nat (length gb) + Z.of_nat remaining =? min_fill then (ga, gb ++ unassigned ents assigned)
      else
        match pick_next ents assigned ba bb with
        | None => (ga, gb)
        | Some (pick, to_a) =>
            let assigned := <[pick := true]> assigned in
            let e := re_bb (ent ents pick) in
            if to_a : bool then split_loop ents min_fill rest assigned (ga ++ [pick]) gb (bb_union ba e) bb
            else split_loop ents min_fill rest assigned ga (gb ++ [pick]) ba (bb_union bb e)
        end
  end.
Definition quad_split (ps : Z) (ents : list rtent) : list nat * list nat :=
  let min_fill := nd_cap ps * 2 / 5 in
  let min_fill := if min_fill <? 1 then 1 else min_fill in
  let '(s1, s2) := pick_seeds ents in
  let assigned := <[s2 := true]> (<[s1 := true]> (replicate (length ents) false)) in
  split_loop ents min_fill (length ents - 2) assigned [s1] [s2] (re_bb (ent ents s1)) (re_bb (ent ents s2)).

(** [for (i < n) nd_put(pg, i, &ents[g[i]])] and the count. *)
Fixpoint put_entries (d : list Z) (i : Z) (es : list rtent) : list Z :=
  match es with [] => d | e :: es => put_entries (nd_put d i e) (i + 1) es end.
Definition fill_node (d : list Z) (type : Z) (es : list rtent) : list Z := nd_set_count (put_entries (nd_init d type) 0 es) (Z.of_nat (length es)).

Section Rtree.
Context {P : Type} `{PagerPages P} (alloc_ok : Z -> bool).

Definition child_cover (p : P) (pgno : Z) : tdb_status * P * tdb_bbox :=
  match pp_get p pgno with
  | (TDB_OK, p) => (TDB_OK, pp_unref p pgno, nd_cover (pp_data p pgno))
  | (rc, p) => (rc, p, cover [])
  end.
(** A split is the page and the box of the new sibling. *)
Definition nd_add_or_split (p : P) (pg : Z) (add : rtent) : tdb_status * P * option (Z * tdb_bbox) :=
  let d := pp_data p pg in
  let n := nd_count d in
  if n <? nd_cap (pp_page_size p) then
    let p := pp_set p pg (nd_set_count (nd_put d n add) (n + 1)) in
    (TDB_OK, (pp_write p pg).2, None)
  else
    let total := n + 1 in
    if negb (alloc_ok (40 * total)) then (TDB_NOMEM, p, None)
    else if negb (alloc_ok (4 * total)) then (TDB_NOMEM, p, None)
    else
      let ents := nd_entries d ++ [add] in
      let '(ga, gb) := quad_split (pp_page_size p) ents in
      let type := nd_type d in
      match pp_alloc p with
      | (TDB_OK, p, sib) =>
          let ds := fill_node (pp_data p sib) type (map (ent ents) gb) in
          let p := (pp_write (pp_set p sib ds) sib).2 in
          let p := (pp_write (pp_set p pg (fill_node (pp_data p pg) type (map (ent ents) ga))) pg).2 in
          (TDB_OK, pp_unref p sib, Some (sib, nd_cover (pp_data p sib)))
      | (rc, p, _) => (rc, p, None)
      end.

(** The entry whose box grows least; ties go to the smaller area. *)
Fixpoint choose (es : list rtent) (i : Z) (bb : tdb_bbox) (best : Z) (best_enl best_area : spec_float) : Z :=
  match es with
  | [] => best
  | e :: es =>
      let enl := bb_enlarge (re_bb e) bb in
      let ar := bb_area (re_bb e) in
      if SFltb enl best_enl || (SFeqb enl best_enl && SFltb ar best_area) then choose es (i + 1) bb i enl ar
      else choose es (i + 1) bb best best_enl best_area
  end.
Fixpoint node_insert (fuel : nat) (p : P) (pgno : Z) (bb : tdb_bbox) (payload : Z) : option (tdb_status * P * option (Z * tdb_bbox)) :=
  match fuel with
  | O => None
  | S fuel =>
      match pp_get p pgno with
      | (TDB_OK, p) =>
          let d := pp_data p pgno in
          if nd_is_leaf d then
            let '(rc, p, split) := nd_add_or_split p pgno (mk_rtent bb payload) in
            Some (rc, pp_unref p pgno, split)
          else
            let best := choose (nd_entries d) 0 bb (-1) d1e308 d1e308 in
            if best <? 0 then Some (TDB_CORRUPT, pp_unref p pgno, None)
            else
              let child := u32 (re_pl (nd_get d best)) in
              r ← node_insert fuel p child bb payload;
              match r with
              | (TDB_OK, p, cs) =>
                  match child_cover p child with
                  | (TDB_OK, p, cover) =>
                      let p := pp_set p pgno (nd_put (pp_data p pgno) best (mk_rtent cover (re_pl (nd_get d best)))) in
                      match cs with
                      | Some (sib, box) =>
                          let '(rc, p, split) := nd_add_or_split p pgno (mk_rtent box sib) in
                          Some (rc, pp_unref p pgno, split)
                      | None => Some (TDB_OK, pp_unref (pp_write p pgno).2 pgno, None)
                      end
                  | (rc, p, _) => Some (rc, pp_unref p pgno, None)
                  end
              | (rc, p, _) => Some (rc, pp_unref p pgno, None)
              end
      | (rc, p) => Some (rc, p, None)
      end
  end.
(** The root keeps its page: its entries move to a new child. *)
Definition root_split (p : P) (root sib : Z) (box : tdb_bbox) : tdb_status * P :=
  match pp_get p root with
  | (TDB_OK, p) =>
      match pp_alloc p with
      | (TDB_OK, p, a) =>
          let d := pp_data p root in
          let p := (pp_write (pp_set p a (bput (bput (pp_data p a) 0 (bsub d 0 (pp_page_size p))) 0 [nd_type d])) a).2 in
          let cover_a := nd_cover (pp_data p a) in
          let p := pp_unref p a in
          let d := nd_init (pp_data p root) TDB_PAGE_RTREE_INTERIOR in
          let d := nd_set_count (nd_put (nd_put d 0 (mk_rtent cover_a a)) 1 (mk_rtent box sib)) 2 in
          (TDB_OK, pp_unref (pp_write (pp_set p root d) root).2 root)
      | (rc, p, _) => (rc, pp_unref p root)
      end
  | (rc, p) => (rc, p)
  end.
Definition tdb_rtree_insert (fuel : nat) (p : P) (root : Z) (bb : tdb_bbox) (rowid : Z) : option (tdb_status * P) :=
  r ← node_insert fuel p root bb rowid;
  match r with
  | (TDB_OK, p, Some (sib, box)) => Some (root_split p root sib box)
  | (rc, p, _) => Some (rc, p)
  end.

Definition tdb_rtree_create (p : P) : tdb_status * P * Z :=
  match pp_alloc p with
  | (TDB_OK, p, pg) =>
      let p := (pp_write (pp_set p pg (nd_init (pp_data p pg) TDB_PAGE_RTREE_LEAF)) pg).2 in
      (TDB_OK, pp_unref p pg, pg)
  | (rc, p, _) => (rc, p, 0)
  end.

(** The loop over the entries of [pgno]: [n] entries from [i] on are left, and
    [down] searches a child. *)
Fixpoint search_entries {S} (down : P -> Z -> S -> option (tdb_status * P * S)) (leaf : bool) (pgno : Z) (q : tdb_bbox) (cb : S -> Z -> tdb_status * S)
    (n : nat) (i : Z) (p : P) (s : S) : option (tdb_status * P * S) :=
  match n with
  | O => Some (TDB_OK, pp_unref p pgno, s)
  | Datatypes.S n =>
      let e := nd_get (pp_data p pgno) i in
      if negb (tdb_bbox_intersects (re_bb e) q) then search_entries down leaf pgno q cb n (i + 1) p s
      else
        r ← (if leaf then let '(rc, s) := cb s (re_pl e) in Some (rc, p, s) else down p (u32 (re_pl e)) s);
        match r with
        | (TDB_OK, p, s) => search_entries down leaf pgno q cb n (i + 1) p s
        | (rc, p, s) => Some (rc, pp_unref p pgno, s)
        end
  end.
Fixpoint node_search {S} (fuel : nat) (p : P) (pgno : Z) (q : tdb_bbox) (cb : S -> Z -> tdb_status * S) (s : S) : option (tdb_status * P * S) :=
  match fuel with
  | O => None
  | Datatypes.S fuel =>
      match pp_get p pgno with
      | (TDB_OK, p) =>
          let d := pp_data p pgno in
          search_entries (fun p g s => node_search fuel p g q cb s) (nd_is_leaf d) pgno q cb (Z.to_nat (nd_count d)) 0 p s
      | (rc, p) => Some (rc, p, s)
      end
  end.
Definition tdb_rtree_search {S} (fuel : nat) (p : P) (root : Z) (q : tdb_bbox) (cb : S -> Z -> tdb_status * S) (s : S) := node_search fuel p root q cb s.

(** The entries after the [i]th move down one place, and the count drops. *)
Fixpoint shift_down (d : list Z) (j : Z) (n : nat) : list Z :=
  match n with O => d | S n => shift_down (nd_put d (j - 1) (nd_get d j)) (j + 1) n end.
Fixpoint find_rowid (es : list rtent) (rowid i : Z) : option Z :=
  match es with [] => None | e :: es => if re_pl e =? rowid then Some i else find_rowid es rowid (i + 1) end.
(** The loop over the children: [down] deletes below one. *)
Fixpoint delete_entries (down : P -> Z -> option (tdb_status * P * bool)) (pgno : Z) (bb : tdb_bbox) (n : nat) (i : Z) (p : P) : option (tdb_status * P * bool) :=
  match n with
  | O => Some (TDB_OK, pp_unref p pgno, false)
  | S n =>
      let e := nd_get (pp_data p pgno) i in
      if negb (tdb_bbox_intersects (re_bb e) bb) then delete_entries down pgno bb n (i + 1) p
      else
        r ← down p (u32 (re_pl e));
        match r with
        | (TDB_OK, p, true) =>
            match child_cover p (u32 (re_pl e)) with
            | (TDB_OK, p, cover) =>
                let p := pp_set p pgno (nd_put (pp_data p pgno) i (mk_rtent cover (re_pl e))) in
                Some (TDB_OK, pp_unref (pp_write p pgno).2 pgno, true)
            | (rc, p, _) => Some (rc, pp_unref p pgno, true)
            end
        | (TDB_OK, p, false) => delete_entries down pgno bb n (i + 1) p
        | (rc, p, found) => Some (rc, pp_unref p pgno, found)
        end
  end.
Fixpoint node_delete (fuel : nat) (p : P) (pgno : Z) (bb : tdb_bbox) (rowid : Z) : option (tdb_status * P * bool) :=
  match fuel with
  | O => None
  | S fuel =>
      match pp_get p pgno with
      | (TDB_OK, p) =>
          let d := pp_data p pgno in
          let n := nd_count d in
          if nd_is_leaf d then
            match find_rowid (nd_entries d) rowid 0 with
            | Some i =>
                let d := nd_set_count (shift_down d (i + 1) (Z.to_nat (n - i - 1))) (n - 1) in
                Some (TDB_OK, pp_unref (pp_write (pp_set p pgno d) pgno).2 pgno, true)
            | None => Some (TDB_OK, pp_unref p pgno, false)
            end
          else delete_entries (fun p g => node_delete fuel p g bb rowid) pgno bb (Z.to_nat n) 0 p
      | (rc, p) => Some (rc, p, false)
      end
  end.
Definition tdb_rtree_delete (fuel : nat) (p : P) (root : Z) (bb : tdb_bbox) (rowid : Z) : option (tdb_status * P * bool) := node_delete fuel p root bb rowid.

Fixpoint destroy_list (down : P -> Z -> option (tdb_status * P)) (kids : list Z) (p : P) : option (tdb_status * P) :=
  match kids with
  | [] => Some (TDB_OK, p)
  | g :: kids => r ← down p g; match r with (TDB_OK, p) => destroy_list down kids p | r => Some r end
  end.
(** The children are read before the page is released. *)
Fixpoint node_destroy (fuel : nat) (p : P) (pgno : Z) : option (tdb_status * P) :=
  match fuel with
  | O => None
  | S fuel =>
      match pp_get p pgno with
      | (TDB_OK, p) =>
          let d := pp_data p pgno in
          let kids := if nd_is_leaf d then [] else map (fun e => u32 (re_pl e)) (nd_entries d) in
          let p := pp_unref p pgno in
          r ← destroy_list (node_destroy fuel) kids p;
          match r with
          | (TDB_OK, p) => Some (pp_free p pgno)
          | r => Some r
          end
      | r => Some r
      end
  end.
Definition tdb_rtree_destroy (fuel : nat) (p : P) (root : Z) : option (tdb_status * P) := node_destroy fuel p root.
End Rtree.
