(* ===== verification/RtreeBox.v ===== *)
(** * Boxes and splits of the R-tree

    Areas of boxes with coordinates below 2{^480} are numbers, so that a split
    finds a place for every entry; the union of boxes covers them. *)
From Stdlib Require Import SpecFloat.
From S2P Require Import Prelude Util Value Cnum CnumSpec Geom GeomSpec Btree Rtree.

(** ** Magnitudes *)

(** Zero, or a finite number below 2{^K}. *)
Definition small (K : Z) (f : spec_float) : Prop :=
  match f with S754_zero _ => True | S754_finite _ m e => Zpos (digits2_pos m) + e <= K | _ => False end.
Lemma small_le K K' f : K <= K' -> small K f -> small K' f.
Proof. intros H. destruct f; cbn; lia. Qed.
Lemma small_opp K f : small K (SFopp f) <-> small K f.
Proof. by destruct f. Qed.
Lemma small_nnan K f : small K f -> nnan f.
Proof. by destruct f. Qed.

Lemma shr_fexp_shifted M E : 0 <= M -> exists n r, shr_fexp 53 1024 M E loc_Exact = (r, E + Z.of_nat n) /\ shifted M n r.
Proof.
  intros HM. unfold shr_fexp. set (k := _ - E). assert (shr_record_of_loc M loc_Exact = {| shr_m := M; shr_r := false; shr_s := false |}) as -> by done.
  destruct k as [|n|n]; cbn [shr]; [exists 0%nat| |exists 0%nat].
  - eexists. split; [f_equal; lia|]. by apply (shifted_iter M 0).
  - exists (Pos.to_nat n). eexists. rewrite iter_pos_nat, positive_nat_Z. split; [done|]. by apply shifted_iter.
  - eexists. split; [f_equal; lia|]. by apply (shifted_iter M 0).
Qed.
Lemma round_aux_small s M E K : Zpos (digits2_pos M) + E <= K -> K <= 971 -> small (K + 1) (binary_round_aux 53 1024 s (Zpos M) E loc_Exact).
Proof.
  intros Hd HK. unfold binary_round_aux. destruct (shr_fexp_shifted (Zpos M) E ltac:(lia)) as (n & r & -> & Hr).
  pose proof (shifted_round _ _ _ Hr) as [HR HA]. set (R := round_nearest_even _ _) in *.
  destruct (shr_fexp_shifted R (E + Z.of_nat n) HR) as (n2 & r2 & -> & (Hm2 & k & Hk & _ & Hsum)).
  destruct (shr_m r2) as [|m|m] eqn:Em; [done| |lia]. pose proof (digits_bounds M) as HM. pose proof (digits_bounds m) as Hm.
  set (d := Zpos (digits2_pos M)) in *. set (dm := Zpos (digits2_pos m)) in *. assert (0 < d /\ 0 < dm) as [Hd0 Hdm] by lia.
  pose proof (Z.pow_pos_nonneg 2 (Z.of_nat n) ltac:(lia) ltac:(lia)) as P1. pose proof (Z.pow_pos_nonneg 2 (Z.of_nat n2) ltac:(lia) ltac:(lia)) as P2.
  assert (Zpos m * 2 ^ Z.of_nat n2 <= R) as Hle by (destruct (shr_r r2); cbn [Z.b2z] in Hsum; nia).
  assert (dm - 1 + Z.of_nat n2 + Z.of_nat n <= d) as Hmag.
  { destruct (Z.le_gt_cases (dm - 1 + Z.of_nat n2 + Z.of_nat n) d) as [|Hgt]; [done|exfalso].
    assert (2 ^ (dm - 1) * 2 ^ Z.of_nat n2 <= R) as H1 by nia. rewrite <- Z.pow_add_r in H1 by lia.
    assert (2 ^ (dm - 1 + Z.of_nat n2) * 2 ^ Z.of_nat n <= R * 2 ^ Z.of_nat n) as H2 by nia. rewrite <- Z.pow_add_r in H2 by lia.
    pose proof (Z.pow_le_mono_r 2 (d + 1) (dm - 1 + Z.of_nat n2 + Z.of_nat n) ltac:(lia) ltac:(lia)) as H3. rewrite Z.pow_add_r in H3 by lia. change (2 ^ 1) with 2 in H3.
    assert (2 ^ Z.of_nat n <= R * 2 ^ Z.of_nat n) as H4 by (pose proof (Z.pow_pos_nonneg 2 (dm - 1 + Z.of_nat n2)); nia).
    destruct (Z.le_gt_cases (Z.of_nat n) d) as [Hn|Hn].
    - pose proof (Z.pow_le_mono_r 2 (Z.of_nat n) d ltac:(lia) Hn). lia.
    - pose proof (Z.pow_le_mono_r 2 (d + 1) (Z.of_nat n) ltac:(lia) ltac:(lia)) as H5. rewrite Z.pow_add_r in H5 by lia. change (2 ^ 1) with 2 in H5. lia. }
  destruct (Z.leb_spec (E + Z.of_nat n + Z.of_nat n2) (1024 - 53)); [|lia]. cbn [small]. fold dm. lia.
Qed.
Lemma shl_align_digits M E e : let '(m, f) := shl_align M E e in Zpos (digits2_pos m) + f = Zpos (digits2_pos M) + E /\ f <= E.
Proof.
  unfold shl_align. destruct (e - E) as [|n|n] eqn:En; [split; lia..|]. change (Pos.iter xO M n) with (shift_pos n M). split; [|lia].
  assert (Zpos (shift_pos n M) = Zpos M * 2 ^ (E - e)) as Es by (rewrite shift_pos_correct, Z.pow_pos_fold; replace (E - e) with (Zpos n) by lia; lia).
  rewrite (digits_unique (shift_pos n M) (Zpos (digits2_pos M) + (E - e))); [lia|lia|]. rewrite Es. pose proof (digits_bounds M).
  replace (Zpos (digits2_pos M) + (E - e) - 1) with (Zpos (digits2_pos M) - 1 + (E - e)) by lia. rewrite !Z.pow_add_r by lia. nia.
Qed.
Lemma binary_round_small s M E K : Zpos (digits2_pos M) + E <= K -> K <= 971 -> small (K + 1) (binary_round 53 1024 s M E).
Proof.
  intros Hd HK. unfold binary_round. pose proof (shl_align_digits M E (SpecFloat.fexp 53 1024 (Zpos (digits2_pos M) + E))) as H. destruct (shl_align _ _ _) as [m f].
  apply round_aux_small; lia.
Qed.
Lemma digits_le m k : 0 <= k -> Zpos m < 2 ^ k -> Zpos (digits2_pos m) <= k.
Proof.
  intros Hk Hm. pose proof (digits_bounds m). destruct (Z.le_gt_cases (Zpos (digits2_pos m)) k); [done|].
  pose proof (Z.pow_le_mono_r 2 k (Zpos (digits2_pos m) - 1) ltac:(lia) ltac:(lia)). lia.
Qed.
Lemma align_bound m e z K : Zpos (digits2_pos m) + e <= K -> z <= e -> Zpos (shl_align m e z).1 < 2 ^ (K - z).
Proof.
  intros Hd Hz. pose proof (shl_align_digits m e z) as H. unfold shl_align in *. destruct (z - e) as [|n|n] eqn:En; cbn [fst] in *.
  - pose proof (digits_bounds m). pose proof (Z.pow_le_mono_r 2 (Zpos (digits2_pos m)) (K - z) ltac:(lia) ltac:(lia)). lia.
  - lia.
  - pose proof (digits_bounds (Pos.iter xO m n)). pose proof (Z.pow_le_mono_r 2 (Zpos (digits2_pos (Pos.iter xO m n))) (K - z) ltac:(lia) ltac:(lia)). lia.
Qed.
Lemma dsub_small K a b : small K a -> small K b -> K <= 970 -> small (K + 2) (dsub a b).
Proof.
  intros Ha Hb HK. destruct a as [sa|sa| |sa ma ea], b as [sb|sb| |sb mb eb]; try done; cbn [dsub SFsub small] in *.
  - by destruct sa, sb.
  - cbn. lia.
  - lia.
  - set (z := Z.min ea eb). pose proof (align_bound ma ea z K Ha ltac:(lia)) as H1. pose proof (align_bound mb eb z K Hb ltac:(lia)) as H2.
    set (D := _ - _). assert (Z.abs D < 2 ^ (K + 1 - z)) as HD.
    { replace (K + 1 - z) with (Z.succ (K - z)) by lia. rewrite Z.pow_succ_r by lia. subst D. destruct sa, sb; cbn [cond_Zopp]; lia. }
    clearbody D. destruct D as [|m|m]; cbn [binary_normalize]; [done| |]; apply (small_le (K + 1 + 1)); try lia; (apply binary_round_small; [|lia]);
      pose proof (digits_le m (K + 1 - z) ltac:(lia) ltac:(lia)); lia.
Qed.
Lemma dmul_small K L a b : small K a -> small L b -> K + L <= 971 -> small (K + L + 1) (dmul a b).
Proof.
  intros Ha Hb HK. destruct a as [sa|sa| |sa ma ea], b as [sb|sb| |sb mb eb]; try done; cbn [dmul SFmul small] in *.
  apply round_aux_small; [|done]. pose proof (digits_bounds ma). pose proof (digits_bounds mb).
  assert (Zpos (ma * mb) < 2 ^ (Zpos (digits2_pos ma) + Zpos (digits2_pos mb))) as H1 by (rewrite Z.pow_add_r, Pos2Z.inj_mul by lia; nia).
  pose proof (digits_le (ma * mb) (Zpos (digits2_pos ma) + Zpos (digits2_pos mb)) ltac:(lia) H1). lia.
Qed.
Lemma small_below K f : small K f -> K <= 971 -> SFltb f d1e308 = true /\ SFltb (SFopp d1e308) f = true.
Proof.
  intros Hf HK. destruct f as [s|s| |s m e]; try done; try (by destruct s). cbn [small] in Hf. unfold d1e308, SFltb. cbn [SFopp SFcompare negb].
  destruct s; (split; [try done|try done]); [destruct (Z.compare_spec 971 e)|destruct (Z.compare_spec e 971)]; try lia; done.
Qed.

(** ** Boxes *)

Definition coord_ok (f : spec_float) : Prop := small 480 f /\ valid64 f = true.
Definition box_ok (b : tdb_bbox) : Prop := coord_ok (minx b) /\ coord_ok (miny b) /\ coord_ok (maxx b) /\ coord_ok (maxy b).
(** [a] lies in [b]. *)
Definition box_le (a b : tdb_bbox) : Prop :=
  SFltb (minx a) (minx b) = false /\ SFltb (miny a) (miny b) = false /\ SFltb (maxx b) (maxx a) = false /\ SFltb (maxy b) (maxy a) = false.
Lemma box_ok_area b : box_ok b -> small 965 (bb_area b).
Proof.
  intros ((H1 & _) & (H2 & _) & (H3 & _) & (H4 & _)). unfold bb_area.
  pose proof (dsub_small 480 (maxx b) (minx b) H3 H1 ltac:(lia)) as Hw. pose proof (dsub_small 480 (maxy b) (miny b) H4 H2 ltac:(lia)) as Hh.
  apply (dmul_small 482 482); [| |lia]; destruct (SFltb _ dzero); done.
Qed.
Lemma pick_ok (b : bool) f g : coord_ok f -> coord_ok g -> coord_ok (if b then f else g).
Proof. by destruct b. Qed.
Lemma union_ok a b : box_ok a -> box_ok b -> box_ok (bb_union a b).
Proof. intros (A1 & A2 & A3 & A4) (B1 & B2 & B3 & B4). unfold bb_union. repeat split; cbn [minx miny maxx maxy]; by apply pick_ok. Qed.
Lemma enlarge_small a b : box_ok a -> box_ok b -> small 967 (bb_enlarge a b).
Proof. intros Ha Hb. apply (dsub_small 965); [by apply box_ok_area, union_ok|by apply box_ok_area|lia]. Qed.
Lemma coord_nnan f : coord_ok f -> nnan f.
Proof. intros [H _]. by eapply small_nnan. Qed.
Lemma box_le_refl a : box_le a a.
Proof. destruct lt_keeps as (_ & _ & H). repeat split; apply H. Qed.
Lemma box_le_trans a b c : box_ok a -> box_ok b -> box_ok c -> box_le a b -> box_le b c -> box_le a c.
Proof.
  intros (A1 & A2 & A3 & A4) (B1 & B2 & B3 & B4) (C1 & C2 & C3 & C4) (H1 & H2 & H3 & H4) (I1 & I2 & I3 & I4). destruct lt_keeps as (Ht & _ & _).
  split; [|split; [|split]]; (eapply Ht; [..|eassumption|eassumption]); by apply coord_nnan.
Qed.
Lemma union_covers a b : box_le a (bb_union a b) /\ box_le b (bb_union a b).
Proof.
  destruct lt_keeps as (_ & Ha & Hr). assert (forall x y, SFltb x y = true -> SFltb y x = false) as Hasym by (intros x y E; by apply Ha in E as (_ & _ & ?)).
  unfold box_le, bb_union; cbn [minx miny maxx maxy]; repeat split;
    match goal with |- context [if ?b then _ else _] => destruct b eqn:E end; first [apply Hr|assumption|by apply Hasym].
Qed.
Lemma intersects_le a b q : box_ok a -> box_ok b -> box_le a b -> tdb_bbox_intersects a q = true -> tdb_bbox_intersects b q = true.
Proof.
  intros (A1 & A2 & A3 & A4) (B1 & B2 & B3 & B4) (H1 & H2 & H3 & H4). unfold tdb_bbox_intersects. rewrite !negb_true_iff, !orb_false_iff. intros (((I1 & I2) & I3) & I4).
  destruct lt_keeps as (Ht & Hn & _).
  assert (forall x y z, nnan x -> nnan y -> SFltb y z = false -> SFltb x y = false -> SFltb x z = false) as Hlo.
  { intros x y z Hx Hy E1 E2. destruct z as [s|s| |s m e]; try (eapply (Ht _ y x); [done|done|done|done|done]). by destruct x. }
  assert (forall x y z, nnan x -> nnan y -> SFltb z y = false -> SFltb y x = false -> SFltb z x = false) as Hhi.
  { intros x y z Hx Hy E1 E2. destruct z as [s|s| |s m e]; try (eapply (Ht x y _); [done|done|done|done|done]). by destruct x. }
  apply coord_nnan in A1, A2, A3, A4, B1, B2, B3, B4. repeat split; [by apply (Hlo _ (maxx a))|by apply (Hhi _ (minx a))|by apply (Hlo _ (maxy a))|by apply (Hhi _ (miny a))].
Qed.
Lemma zero_ok : coord_ok dzero.
Proof. done. Qed.
Lemma cover_spec l : Forall (fun e => box_ok (re_bb e)) l -> box_ok (cover l) /\ Forall (fun e => box_le (re_bb e) (cover l)) l.
Proof.
  destruct l as [|e l]; [done|]. intros [He Hl]%Forall_cons. cbn [cover].
  assert (forall o, box_ok o -> box_ok (fold_left (fun o e => bb_union o (re_bb e)) l o) /\ box_le o (fold_left (fun o e => bb_union o (re_bb e)) l o)
    /\ Forall (fun e => box_le (re_bb e) (fold_left (fun o e => bb_union o (re_bb e)) l o)) l) as Hf.
  { clear He. induction Hl as [|x l Hx Hl IH]; intros o Ho; cbn [fold_left]; [split; [done|]; split; [apply box_le_refl|constructor]|].
    destruct (union_covers o (re_bb x)) as [U1 U2]. pose proof (union_ok _ _ Ho Hx) as Hu. destruct (IH _ Hu) as (I1 & I2 & I3).
    split; [done|]. split; [by eapply (box_le_trans _ (bb_union o (re_bb x)))|]. constructor; [by eapply (box_le_trans _ (bb_union o (re_bb x)))|done]. }
  destruct (Hf (re_bb e) He) as (H1 & H2 & H3). split; [done|]. by constructor.
Qed.

(** ** Splits *)

Definition boxes_ok (l : list rtent) : Prop := Forall (fun e => box_ok (re_bb e)) l.
Lemma ent_box_ok l i : boxes_ok l -> box_ok (re_bb (ent l i)).
Proof. intros H. unfold ent. revert i. induction H as [|e l He Hl IH]; intros [|i]; cbn; [done..|apply IH]. Qed.
Lemma unassigned_elem ents asg i : length asg = length ents -> i ∈ unassigned ents asg <-> asg !! i = Some false.
Proof.
  intros Hl. unfold unassigned. rewrite list_elem_of_In, filter_In, in_seq, negb_true_iff. split.
  - intros [Hi Hn]. rewrite nth_lookup in Hn. destruct (lookup_lt_is_Some_2 asg i ltac:(lia)) as [b Hb]. rewrite Hb in *. cbn in Hn. by subst.
  - intros Hi. pose proof (lookup_lt_Some _ _ _ Hi). split; [lia|]. by rewrite nth_lookup, Hi.
Qed.
Lemma unassigned_NoDup ents asg : NoDup (unassigned ents asg).
Proof. apply NoDup_ListNoDup, List.NoDup_filter, seq_NoDup. Qed.
Lemma unassigned_take ents asg i : length asg = length ents -> asg !! i = Some false -> unassigned ents asg ≡ₚ i :: unassigned ents (<[i := true]> asg).
Proof.
  intros Hl Hi. apply NoDup_Permutation; [apply unassigned_NoDup| |].
  - apply NoDup_cons. split; [|apply unassigned_NoDup]. rewrite unassigned_elem by (by rewrite length_insert). rewrite list_lookup_insert_eq by (by eapply lookup_lt_Some). done.
  - intros j. rewrite elem_of_cons, !unassigned_elem by (rewrite ?length_insert; done). destruct (decide (j = i)) as [->|Hne]; [tauto|].
    rewrite list_lookup_insert_ne by done. naive_solver.
Qed.
Lemma pick_next_some ents asg ba bb : length asg = length ents -> boxes_ok ents -> box_ok ba -> box_ok bb -> unassigned ents asg <> [] ->
  exists i to_a, pick_next ents asg ba bb = Some (i, to_a) /\ asg !! i = Some false.
Proof.
  intros Hl He Ha Hb Hne. unfold pick_next. set (f := fun st i => _).
  assert (forall l st, (forall i b, st.1 = Some (i, b) -> asg !! i = Some false) -> (forall i, i ∈ l -> (i < length asg)%nat) -> (st.1 = None -> st.2 = SFopp d1e308) ->
    (forall i b, (fold_left f l st).1 = Some (i, b) -> asg !! i = Some false) /\
    ((st.1 <> None \/ exists i, i ∈ l /\ asg !! i = Some false) -> (fold_left f l st).1 <> None)) as Hloop.
  { induction l as [|i l IH]; intros [pick best] Hs Hin Hbest; cbn [fold_left].
    { split; [exact Hs|]. intros [?|(i & []%elem_of_nil & _)]; done. }
    assert (forall j, j ∈ l -> (j < length asg)%nat) as Hin' by (intros j Hj; apply Hin; by apply elem_of_cons; right).
    assert (i < length asg)%nat as Hi by (apply Hin, elem_of_cons; by left). destruct (lookup_lt_is_Some_2 asg i Hi) as [b Hb'].
    assert (nth i asg true = b) as En by (by rewrite nth_lookup, Hb'). destruct b.
    - assert (f (pick, best) i = (pick, best)) as -> by (unfold f; by rewrite En). destruct (IH (pick, best) Hs Hin' Hbest) as [I1 I2].
      split; [done|]. intros [H|(j & [->|Hj]%elem_of_cons & Hf)]; [by apply I2; left|congruence|apply I2; right; by exists j].
    - set (da := bb_enlarge ba (re_bb (ent ents i))). set (db := bb_enlarge bb (re_bb (ent ents i))).
      set (diff := if SFltb db da then dsub da db else dsub db da).
      assert (small 969 diff) as Hd.
      { pose proof (enlarge_small ba _ Ha (ent_box_ok ents i He)). pose proof (enlarge_small bb _ Hb (ent_box_ok ents i He)). unfold diff. destruct (SFltb db da); apply (dsub_small 967); done || lia. }
      assert (f (pick, best) i = if SFltb best diff then (Some (i, SFltb da db), diff) else (pick, best)) as -> by (unfold f; by rewrite En).
      destruct (SFltb best diff) eqn:Elt.
      + destruct (IH (Some (i, SFltb da db), diff)) as [I1 I2]; [by intros ? ? [= <- _]|done|done|]. split; [done|]. intros _. apply I2. by left.
      + destruct (IH (pick, best) Hs Hin' Hbest) as [I1 I2]. split; [done|]. intros _. apply I2. left. cbn [fst]. intros ->. cbn [fst snd] in Hbest. rewrite Hbest in Elt by done.
        destruct (small_below 969 diff Hd ltac:(lia)) as [_ E]. congruence. }
  destruct (Hloop (seq 0 (length ents)) (None, SFopp d1e308)) as [H1 H2]; [done|intros i Hi%list_elem_of_In%in_seq; lia|done|].
  destruct (fold_left f _ _) as [[[i b]|] best] eqn:Ef; cbn [fst] in *.
  - exists i, b. split; [done|]. by eapply H1.
  - exfalso. apply H2; [|done]. right. destruct (unassigned ents asg) as [|i l] eqn:Eu; [done|]. assert (i ∈ unassigned ents asg) as Hi by (rewrite Eu; by apply elem_of_cons; left).
    exists i. rewrite unassigned_elem in Hi by done. split; [|done]. apply list_elem_of_In, in_seq. apply lookup_lt_Some in Hi. lia.
Qed.
Lemma split_loop_ok ents mf rem asg ga gb ba bb :
  length asg = length ents -> boxes_ok ents -> box_ok ba -> box_ok bb -> length (unassigned ents asg) = rem -> ga ++ gb ++ unassigned ents asg ≡ₚ seq 0 (length ents) ->
  let '(a, b) := split_loop ents mf rem asg ga gb ba bb in
  a ++ b ≡ₚ seq 0 (length ents) /\ (length ga <= length a)%nat /\ (length gb <= length b)%nat.
Proof.
  intros Hl He. revert asg Hl ga gb ba bb. induction rem as [|rem IH]; intros asg Hl ga gb ba bb Ha Hb Hu Hp; cbn [split_loop].
  { destruct (unassigned ents asg); [|done]. rewrite app_nil_r in Hp. done. }
  destruct (_ =? _); [rewrite length_app; split; [|lia]; rewrite <- Hp, <- !app_assoc; apply Permutation_app_head, Permutation_app_comm|].
  destruct (_ =? _); [rewrite length_app; split; [by rewrite <- Hp|lia]|].
  destruct (pick_next_some ents asg ba bb Hl He Ha Hb) as (i & to_a & -> & Hi); [by destruct (unassigned ents asg)|].
  pose proof (unassigned_take ents asg i Hl Hi) as Ht. assert (length (<[i := true]> asg) = length ents) as Hl' by (by rewrite length_insert).
  assert (length (unassigned ents (<[i := true]> asg)) = rem) as Hu' by (apply Permutation_length in Ht; rewrite Hu in Ht; injection Ht as ->; done).
  rewrite Ht in Hp. destruct to_a.
  - specialize (IH (<[i := true]> asg) Hl' (ga ++ [i]) gb (bb_union ba (re_bb (ent ents i))) bb). destruct (split_loop _ _ _ _ _ _ _ _) as [a b].
    destruct IH as (I1 & I2 & I3); [by apply union_ok, ent_box_ok|done|done| |rewrite length_app in I2; split; [done|cbn in I2; lia]].
    rewrite <- Hp, <- app_assoc. apply Permutation_app_head. cbn [app]. apply Permutation_middle.
  - specialize (IH (<[i := true]> asg) Hl' ga (gb ++ [i]) ba (bb_union bb (re_bb (ent ents i)))). destruct (split_loop _ _ _ _ _ _ _ _) as [a b].
    destruct IH as (I1 & I2 & I3); [done|by apply union_ok, ent_box_ok|done| |rewrite length_app in I3; split; [done|cbn in I3; lia]].
    rewrite <- Hp, <- app_assoc. done.
Qed.
Lemma pick_seeds_ok ents : (2 <= length ents)%nat -> let '(s1, s2) := pick_seeds ents in (s1 < s2 < length ents)%nat.
Proof.
  intros Hn. unfold pick_seeds. set (f := fun st '(i, j) => _). set (l := flat_map _ _).
  assert (forall x, In x l -> (x.1 < x.2 < length ents)%nat) as Hl.
  { intros [i j] (k & Hk & Hx)%in_flat_map. apply in_seq in Hk. apply in_map_iff in Hx as (j' & [= <- <-] & Hj%in_seq). cbn. lia. }
  clearbody l. assert (forall st, (st.1.1 < st.1.2 < length ents)%nat -> ((fold_left f l st).1.1 < (fold_left f l st).1.2 < length ents)%nat) as H.
  { induction l as [|[i j] l IH]; intros [[s1 s2] w] Hs; cbn [fold_left]; [done|]. apply IH; [intros x Hx; apply Hl; by right|]. unfold f.
    destruct (SFltb w _); [exact (Hl (i, j) (or_introl eq_refl))|done]. }
  specialize (H (0%nat, 1%nat, SFopp d1e308)). cbn in H. specialize (H ltac:(lia)). by destruct (fold_left f l _) as [[s1 s2] w].
Qed.
(** Every entry goes to exactly one of the two groups, and neither is empty. *)
Lemma quad_split_ok ps ents : (2 <= length ents)%nat -> boxes_ok ents ->
  let '(a, b) := quad_split ps ents in a ++ b ≡ₚ seq 0 (length ents) /\ (0 < length a)%nat /\ (0 < length b)%nat.
Proof.
  intros Hn He. unfold quad_split. pose proof (pick_seeds_ok ents Hn) as Hs. destruct (pick_seeds ents) as [s1 s2].
  set (asg := replicate (length ents) false). assert (length asg = length ents) as Hl by apply length_replicate.
  assert (asg !! s1 = Some false) as H1 by (apply lookup_replicate_2; lia).
  assert (<[s1 := true]> asg !! s2 = Some false) as H2 by (rewrite list_lookup_insert_ne by lia; apply lookup_replicate_2; lia).
  assert (unassigned ents asg = seq 0 (length ents)) as E0.
  { unfold unassigned. assert (forall l, (forall i, In i l -> (i < length ents)%nat) -> List.filter (fun i => negb (nth i asg true)) l = l) as Hf.
    { induction l as [|i l IH]; intros Hi; [done|]. cbn [List.filter]. rewrite nth_lookup. unfold asg. rewrite lookup_replicate_2 by (apply Hi; by left). cbn. f_equal. apply IH. intros j Hj. apply Hi. by right. }
    apply Hf. intros i Hi%in_seq. lia. }
  pose proof (unassigned_take ents asg s1 Hl H1) as T1. pose proof (unassigned_take ents (<[s1 := true]> asg) s2 ltac:(by rewrite length_insert) H2) as T2.
  rewrite T2, E0 in T1. set (asg2 := <[s2 := true]> (<[s1 := true]> asg)) in *.
  pose proof (split_loop_ok ents (if nd_cap ps * 2 / 5 <? 1 then 1 else nd_cap ps * 2 / 5) (length ents - 2) asg2 [s1] [s2] (re_bb (ent ents s1)) (re_bb (ent ents s2))) as H.
  destruct (split_loop _ _ _ _ _ _ _ _) as [a b]. destruct H as (I1 & I2 & I3); [unfold asg2; by rewrite !length_insert|done|by apply ent_box_ok|by apply ent_box_ok| |by rewrite T1|].
  - apply Permutation_length in T1. rewrite length_seq in T1. cbn [length] in T1. lia.
  - cbn in I2, I3. split; [done|lia].
Qed.

(** ** A split of boxes that are too large *)

(** Thirteen boxes whose areas overflow: the differences of infinite areas are
    not numbers, no preference compares, and eleven entries are in no group. *)
Definition huge : spec_float := f64_of_dec 1 200.
Definition huge_ents : list rtent := map (mk_rtent (mk_bbox (SFopp huge) (SFopp huge) huge huge)) (seqZ 1 13).
Lemma huge_split_loses_entries : quad_split 512 huge_ents = ([0%nat], [1%nat]).
Proof. vm_compute. reflexivity. Qed.
