(* ===== verification/RtreeNode.v ===== *)
(** * Nodes of the R-tree as lists of entries *)
From Stdlib Require Import SpecFloat.
From S2P Require Import Prelude Util Value Cnum CnumSpec Geom GeomSpec Btree Rtree RtreeBox.

Definition ent_ok (e : rtent) : Prop := box_ok (re_bb e) /\ 0 <= re_pl e < 2 ^ 64.
Definition enc (e : rtent) : list Z :=
  wr_dbl (minx (re_bb e)) ++ wr_dbl (miny (re_bb e)) ++ wr_dbl (maxx (re_bb e)) ++ wr_dbl (maxy (re_bb e)) ++ tdb_put_u64 (re_pl e).
Definition encs (es : list rtent) : list Z := concat (map enc es).
Definition head_of (ty r n : Z) (res : list Z) : list Z := ty :: r :: tdb_put_u16 n ++ res.
(** A page of type [ty] with the count [n] and the entries [es] in their places. *)
Definition holds_entries (d : list Z) (ty n : Z) (es : list rtent) : Prop :=
  exists r res tl, length res = 4%nat /\ d = head_of ty r n res ++ encs es ++ tl.

Lemma blen_enc e : blen (enc e) = 40.
Proof. unfold enc, wr_dbl. by rewrite !blen_app, !blen_put_u64. Qed.
Lemma blen_encs es : blen (encs es) = 40 * Z.of_nat (length es).
Proof. induction es as [|e es IH]; [done|]. unfold encs in *. cbn [map concat length]. rewrite blen_app, blen_enc, IH. lia. Qed.
Lemma encs_app a b : encs (a ++ b) = encs a ++ encs b.
Proof. unfold encs. by rewrite map_app, concat_app. Qed.
Lemma blen_head ty r n res : length res = 4%nat -> blen (head_of ty r n res) = 8.
Proof. intros H. unfold head_of, blen. cbn. lia. Qed.
Lemma bput_mid (pre mid post src : list Z) : blen src = blen mid -> bput (pre ++ mid ++ post) (blen pre) src = pre ++ src ++ post.
Proof.
  unfold blen, bput. intros H. rewrite Nat2Z.id, take_app_length. do 2 f_equal. rewrite drop_app_add', drop_app_length' by lia. done.
Qed.
Lemma holds_len d ty n es : holds_entries d ty n es -> 8 + 40 * Z.of_nat (length es) <= blen d.
Proof. intros (r & res & tl & Hr & ->). rewrite !blen_app, blen_head, blen_encs by done. pose proof (blen_nonneg tl). lia. Qed.
Lemma holds_type d ty n es : holds_entries d ty n es -> nd_type d = ty.
Proof. by intros (r & res & tl & Hr & ->). Qed.
Lemma holds_count d ty n es : holds_entries d ty n es -> 0 <= n < 65536 -> nd_count d = n.
Proof.
  intros (r & res & tl & Hr & ->) Hn. unfold nd_count, head_of.
  change (bfrom _ 2) with ((tdb_put_u16 n ++ res) ++ encs es ++ tl). rewrite <- app_assoc, get_put_u16. by rewrite u16_small by lia.
Qed.
Lemma dbl_at d off pre f rest : valid64 f = true -> d = pre ++ wr_dbl f ++ rest -> off = blen pre -> rd_dbl d off = f.
Proof. intros Hf -> ->. unfold rd_dbl, wr_dbl. rewrite u64_at by (by apply bits_range). by apply bits_roundtrip. Qed.
Lemma get_at pre e rest i : ent_ok e -> RT_HDR + i * RT_ENT = blen pre -> nd_get (pre ++ enc e ++ rest) i = e.
Proof.
  intros (([_ V1] & [_ V2] & [_ V3] & [_ V4]) & Hpl) Hi. destruct e as [[x0 y0 x1 y1] pl]. cbn [re_bb re_pl minx miny maxx maxy] in *. unfold nd_get. rewrite Hi.
  unfold enc. cbn [re_bb re_pl minx miny maxx maxy]. rewrite <- !app_assoc.
  assert (forall f, blen (wr_dbl f) = 8) as Hw by (intros; apply blen_put_u64). f_equal; [f_equal|].
  - by eapply dbl_at.
  - eapply (dbl_at _ _ (pre ++ wr_dbl x0)); [done|by rewrite <- !app_assoc|rewrite !blen_app, !Hw; lia].
  - eapply (dbl_at _ _ (pre ++ wr_dbl x0 ++ wr_dbl y0)); [done|by rewrite <- !app_assoc|rewrite !blen_app, !Hw; lia].
  - eapply (dbl_at _ _ (pre ++ wr_dbl x0 ++ wr_dbl y0 ++ wr_dbl x1)); [done|by rewrite <- !app_assoc|rewrite !blen_app, !Hw; lia].
  - replace (blen pre + 32) with (blen (pre ++ wr_dbl x0 ++ wr_dbl y0 ++ wr_dbl x1 ++ wr_dbl y1)) by (rewrite !blen_app, !Hw; lia).
    rewrite <- (u64_at (pre ++ wr_dbl x0 ++ wr_dbl y0 ++ wr_dbl x1 ++ wr_dbl y1) pl rest Hpl) at 2. by rewrite <- !app_assoc.
Qed.
Lemma holds_split d ty n es i e : holds_entries d ty n es -> es !! i = Some e ->
  exists pre post, d = pre ++ enc e ++ post /\ blen pre = RT_HDR + Z.of_nat i * RT_ENT /\
    forall f, holds_entries (pre ++ enc f ++ post) ty n (<[i := f]> es).
Proof.
  intros (r & res & tl & Hr & ->) Hi. pose proof (lookup_lt_Some _ _ _ Hi) as Hlt.
  assert (es = take i es ++ e :: drop (S i) es) as E by (symmetry; by apply take_drop_middle).
  exists (head_of ty r n res ++ encs (take i es)), (encs (drop (S i) es) ++ tl). split; [|split].
  - rewrite E at 1. rewrite encs_app. unfold encs at 2. cbn [map concat]. fold (encs (drop (S i) es)). by rewrite <- !app_assoc.
  - rewrite blen_app, blen_head, blen_encs, length_take by done. unfold RT_HDR, RT_ENT. lia.
  - intros f. exists r, res, tl. split; [done|]. rewrite insert_take_drop by done. rewrite encs_app. unfold encs at 4. cbn [map concat]. fold (encs (drop (S i) es)). by rewrite <- !app_assoc.
Qed.
Lemma holds_get d ty n es i e : holds_entries d ty n es -> es !! i = Some e -> ent_ok e -> nd_get d (Z.of_nat i) = e.
Proof. intros H Hi He. destruct (holds_split d ty n es i e H Hi) as (pre & post & -> & Hp & _). apply get_at; [done|by rewrite Hp]. Qed.
Lemma holds_put d ty n es i e f : holds_entries d ty n es -> es !! i = Some e ->
  holds_entries (nd_put d (Z.of_nat i) f) ty n (<[i := f]> es) /\ blen (nd_put d (Z.of_nat i) f) = blen d.
Proof.
  intros H Hi. destruct (holds_split d ty n es i e H Hi) as (pre & post & -> & Hp & Hf). unfold nd_put. rewrite <- Hp. fold (enc f).
  rewrite bput_mid by (by rewrite !blen_enc). split; [apply Hf|]. by rewrite !blen_app, !blen_enc.
Qed.
Lemma holds_push d ty n es e : holds_entries d ty n es -> 8 + 40 * (Z.of_nat (length es) + 1) <= blen d ->
  holds_entries (nd_put d (Z.of_nat (length es)) e) ty n (es ++ [e]) /\ blen (nd_put d (Z.of_nat (length es)) e) = blen d.
Proof.
  intros (r & res & tl & Hr & ->) Hd. rewrite !blen_app, blen_head, blen_encs in Hd by done.
  assert (tl = bsub tl 0 40 ++ bfrom tl 40) as Et by (unfold bsub, bfrom; rewrite drop_0; by rewrite take_drop).
  assert (blen (bsub tl 0 40) = 40) as Hb by (rewrite blen_bsub; lia). unfold nd_put. fold (enc e). rewrite Et.
  rewrite (app_assoc (head_of _ _ _ _)). replace (RT_HDR + Z.of_nat (length es) * RT_ENT) with (blen (head_of ty r n res ++ encs es)) by (rewrite blen_app, blen_head, blen_encs by done; unfold RT_HDR, RT_ENT; lia).
  rewrite bput_mid by (by rewrite blen_enc, Hb). split.
  - exists r, res, (bfrom tl 40). split; [done|]. rewrite encs_app. unfold encs at 3. cbn [map concat]. by rewrite app_nil_r, <- !app_assoc.
  - rewrite !(blen_app _ (_ ++ _)), !blen_app, blen_enc. lia.
Qed.
Lemma holds_set_count d ty n m es : holds_entries d ty n es -> 0 <= m < 65536 -> holds_entries (nd_set_count d m) ty m es /\ blen (nd_set_count d m) = blen d.
Proof.
  intros (r & res & tl & Hr & ->) Hm. unfold nd_set_count. rewrite u16_small by lia. unfold head_of.
  assert (bput ((ty :: r :: tdb_put_u16 n ++ res) ++ encs es ++ tl) 2 (tdb_put_u16 m) = (ty :: r :: tdb_put_u16 m ++ res) ++ encs es ++ tl) as ->.
  { pose proof (bput_mid [ty; r] (tdb_put_u16 n) (res ++ encs es ++ tl) (tdb_put_u16 m) eq_refl) as E. cbn [app] in E |- *. by rewrite <- !app_assoc. }
  split; [by exists r, res, tl|]. by rewrite !blen_app.
Qed.
Lemma holds_init d ty : 8 <= blen d -> holds_entries (nd_init d ty) ty 0 [] /\ blen (nd_init d ty) = blen d.
Proof.
  intros Hd. assert (nd_init d ty = head_of ty 0 0 [0; 0; 0; 0] ++ bfrom d 8) as E.
  { unfold nd_init. assert (d = bsub d 0 8 ++ bfrom d 8) as Ed by (unfold bsub, bfrom; rewrite drop_0; by rewrite take_drop).
    assert (bput d 0 (bzero RT_HDR) = bzero 8 ++ bfrom d 8) as ->.
    { rewrite Ed at 1. change (bzero RT_HDR) with (bzero 8). pose proof (bput_mid [] (bsub d 0 8) (bfrom d 8) (bzero 8)) as E. cbn [app] in E. apply E. rewrite blen_bsub by lia. done. }
    reflexivity. }
  rewrite E. split; [exists 0, [0; 0; 0; 0], (bfrom d 8); done|]. rewrite blen_app, blen_head, blen_bfrom by (done || lia). lia.
Qed.
Lemma holds_shrink d ty n es fs : holds_entries d ty n (es ++ fs) -> holds_entries d ty n es.
Proof. intros (r & res & tl & Hr & ->). exists r, res, (encs fs ++ tl). split; [done|]. by rewrite encs_app, <- app_assoc. Qed.

(** A node of the tree: the page is as long as it must be. *)
Record node (ps : Z) (d : list Z) (leaf : bool) (es : list rtent) : Prop := {
  nd_len : blen d = ps;
  nd_rep : holds_entries d (if leaf then TDB_PAGE_RTREE_LEAF else TDB_PAGE_RTREE_INTERIOR) (Z.of_nat (length es)) es;
  nd_fits : Z.of_nat (length es) <= nd_cap ps;
  nd_ents : Forall ent_ok es }.
Definition type_of (leaf : bool) : Z := if leaf then TDB_PAGE_RTREE_LEAF else TDB_PAGE_RTREE_INTERIOR.
Lemma cap_bounds ps : 512 <= ps <= 65536 -> 12 <= nd_cap ps <= 1638 /\ 8 + 40 * nd_cap ps <= ps.
Proof.
  intros H. unfold nd_cap, RT_HDR, RT_ENT. pose proof (Z.mul_div_le (ps - 8) 40 ltac:(lia)) as H1. pose proof (Z.mul_succ_div_gt (ps - 8) 40 ltac:(lia)) as H2. lia.
Qed.

Section Node.
Context (ps : Z) (Hps : 512 <= ps <= 65536).
Let cap_ok := cap_bounds ps Hps.

Lemma node_type d leaf es : node ps d leaf es -> nd_type d = type_of leaf.
Proof. intros H. apply (holds_type _ _ _ _ (nd_rep _ _ _ _ H)). Qed.
Lemma node_leaf d leaf es : node ps d leaf es -> nd_is_leaf d = leaf.
Proof. intros H. unfold nd_is_leaf. rewrite (node_type _ _ _ H). by destruct leaf. Qed.
Lemma node_count d leaf es : node ps d leaf es -> nd_count d = Z.of_nat (length es).
Proof. intros H. apply (holds_count _ _ _ _ (nd_rep _ _ _ _ H)). pose proof (nd_fits _ _ _ _ H). lia. Qed.
Lemma node_get d leaf es i e : node ps d leaf es -> es !! i = Some e -> nd_get d (Z.of_nat i) = e.
Proof. intros H Hi. apply (holds_get _ _ _ _ _ _ (nd_rep _ _ _ _ H) Hi). exact (Forall_lookup_1 _ _ _ _ (nd_ents _ _ _ _ H) Hi). Qed.
Lemma node_entries d leaf es : node ps d leaf es -> nd_entries d = es.
Proof.
  intros H. unfold nd_entries. rewrite (node_count _ _ _ H). apply list_eq. intros i. rewrite list_lookup_fmap. destruct (decide (i < length es)%nat) as [Hi|Hi].
  - rewrite lookup_seqZ_lt by lia. destruct (lookup_lt_is_Some_2 es i Hi) as [e He]. rewrite He. cbn [fmap option_fmap option_map]. f_equal. rewrite Z.add_0_l. by eapply node_get.
  - rewrite lookup_seqZ_ge by lia. by rewrite lookup_ge_None_2 by lia.
Qed.
Lemma node_cover d leaf es : node ps d leaf es -> nd_cover d = cover es.
Proof. intros H. unfold nd_cover. by rewrite (node_entries _ _ _ H). Qed.
Lemma node_boxes d leaf es : node ps d leaf es -> boxes_ok es.
Proof. intros H. eapply Forall_impl; [exact (nd_ents _ _ _ _ H)|]. by intros e [? _]. Qed.
Lemma node_put d leaf es i f : node ps d leaf es -> (i < length es)%nat -> ent_ok f -> node ps (nd_put d (Z.of_nat i) f) leaf (<[i := f]> es).
Proof.
  intros H Hi Hf. destruct (lookup_lt_is_Some_2 es i Hi) as [e He]. destruct (holds_put _ _ _ _ i e f (nd_rep _ _ _ _ H) He) as [H1 H2].
  split; [by rewrite H2; apply (nd_len _ _ _ _ H)|by rewrite length_insert|rewrite length_insert; apply (nd_fits _ _ _ _ H)|]. apply Forall_insert; [apply (nd_ents _ _ _ _ H)|done].
Qed.
Lemma node_push d leaf es e : node ps d leaf es -> Z.of_nat (length es) < nd_cap ps -> ent_ok e ->
  node ps (nd_set_count (nd_put d (Z.of_nat (length es)) e) (Z.of_nat (length es) + 1)) leaf (es ++ [e]).
Proof.
  intros H Hl He. destruct (holds_push _ _ _ _ e (nd_rep _ _ _ _ H)) as [H1 H2]; [rewrite (nd_len _ _ _ _ H); lia|].
  destruct (holds_set_count _ _ _ (Z.of_nat (length es) + 1) _ H1) as [H3 H4]; [lia|].
  assert (Z.of_nat (length (es ++ [e])) = Z.of_nat (length es) + 1) as El by (rewrite length_app; cbn; lia).
  split; [rewrite H4, H2; apply (nd_len _ _ _ _ H)|by rewrite El|lia|]. apply Forall_app. split; [apply (nd_ents _ _ _ _ H)|by constructor].
Qed.
Lemma put_entries_holds d ty n es fs : holds_entries d ty n es -> 8 + 40 * Z.of_nat (length (es ++ fs)) <= blen d ->
  holds_entries (put_entries d (Z.of_nat (length es)) fs) ty n (es ++ fs) /\ blen (put_entries d (Z.of_nat (length es)) fs) = blen d.
Proof.
  revert d es. induction fs as [|f fs IH]; intros d es H Hd; cbn [put_entries]; [by rewrite app_nil_r|]. rewrite length_app in Hd. cbn [length] in Hd.
  destruct (holds_push _ _ _ _ f H) as [H1 H2]; [lia|]. destruct (IH _ _ H1) as [I1 I2]; [rewrite H2, !length_app; cbn [length]; lia|].
  rewrite length_app in I1, I2. cbn [length] in I1, I2. rewrite Nat2Z.inj_add in I1, I2. change (Z.of_nat 1) with 1 in I1, I2. rewrite <- app_assoc in I1. by rewrite I2.
Qed.
Lemma node_fill d leaf es : blen d = ps -> Z.of_nat (length es) <= nd_cap ps -> Forall ent_ok es -> node ps (fill_node d (type_of leaf) es) leaf es.
Proof.
  intros Hd Hl He. unfold fill_node. destruct (holds_init d (type_of leaf)) as [H1 H2]; [lia|].
  destruct (put_entries_holds _ _ _ [] es H1) as [H3 H4]; [cbn [app]; lia|]. cbn [length app] in H3, H4. change (Z.of_nat 0) with 0 in H3, H4.
  destruct (holds_set_count _ _ _ (Z.of_nat (length es)) _ H3) as [H5 H6]; [lia|]. split; [lia|done|done|done].
Qed.
Lemma node_empty d : blen d = ps -> node ps (nd_init d TDB_PAGE_RTREE_LEAF) true [].
Proof. intros Hd. destruct (holds_init d TDB_PAGE_RTREE_LEAF) as [H1 H2]; [lia|]. split; [lia|done|cbn; lia|constructor]. Qed.
(** The copy of the root into a new page. *)
Lemma node_copy d da leaf es : node ps d leaf es -> blen da = ps -> bput (bput da 0 (bsub d 0 ps)) 0 [nd_type d] = d.
Proof.
  intros H Hd. pose proof (nd_len _ _ _ _ H) as Hl. rewrite bsub_all by done. assert (bput da 0 d = d) as ->.
  { pose proof (bput_mid [] da [] d ltac:(lia)) as E. cbn [app] in E. by rewrite !app_nil_r in E. }
  destruct d as [|x d]; [change (0 = ps) in Hl; lia|]. reflexivity.
Qed.
(** The entries behind the one that goes move down. *)
Lemma shift_down_holds d ty n l1 x l2 : holds_entries d ty n (l1 ++ x :: l2) -> Forall ent_ok l2 ->
  exists z, holds_entries (shift_down d (Z.of_nat (length l1) + 1) (length l2)) ty n (l1 ++ l2 ++ [z]) /\ blen (shift_down d (Z.of_nat (length l1) + 1) (length l2)) = blen d.
Proof.
  revert d l1 x. induction l2 as [|y l2 IH]; intros d l1 x H Ho; cbn [shift_down length]; [by exists x|]. apply Forall_cons in Ho as [Hy Ho].
  assert (nd_get d (Z.of_nat (length l1) + 1) = y) as ->.
  { replace (Z.of_nat (length l1) + 1) with (Z.of_nat (length l1 + 1)) by lia. eapply holds_get; [exact H| |done]. rewrite lookup_app_r by lia. by replace (length l1 + 1 - length l1)%nat with 1%nat by lia. }
  replace (Z.of_nat (length l1) + 1 - 1) with (Z.of_nat (length l1)) by lia.
  destruct (holds_put d ty n (l1 ++ x :: y :: l2) (length l1) x y H) as [H1 H2]; [rewrite lookup_app_r, Nat.sub_diag by lia; done|].
  rewrite insert_app_r_alt, Nat.sub_diag in H1 by lia. cbn [insert list_insert] in H1.
  destruct (IH (nd_put d (Z.of_nat (length l1)) y) (l1 ++ [y]) y) as (z & I1 & I2); [by rewrite <- app_assoc|done|].
  rewrite length_app in I1, I2. cbn [length] in I1, I2. replace (Z.of_nat (length l1 + 1)) with (Z.of_nat (length l1) + 1) in I1, I2 by lia.
  exists z. rewrite <- app_assoc in I1. cbn [app] in *. rewrite I2. done.
Qed.
Lemma node_remove d leaf l1 x l2 : node ps d leaf (l1 ++ x :: l2) ->
  node ps (nd_set_count (shift_down d (Z.of_nat (length l1) + 1) (length l2)) (Z.of_nat (length (l1 ++ x :: l2)) - 1)) leaf (l1 ++ l2).
Proof.
  intros H. pose proof (nd_ents _ _ _ _ H) as [E1 [E2 E3]%Forall_cons]%Forall_app. pose proof (nd_fits _ _ _ _ H) as Hf. rewrite length_app in Hf |- *. cbn [length] in Hf |- *.
  destruct (shift_down_holds d _ _ l1 x l2 (nd_rep _ _ _ _ H) E3) as (z & H1 & H2). rewrite app_assoc in H1. apply holds_shrink in H1.
  destruct (holds_set_count _ _ _ (Z.of_nat (length l1 + S (length l2)) - 1) _ H1) as [H3 H4]; [lia|].
  assert (Z.of_nat (length (l1 ++ l2)) = Z.of_nat (length l1 + S (length l2)) - 1) as El by (rewrite length_app; lia).
  split; [rewrite H4, H2; apply (nd_len _ _ _ _ H)|by rewrite El|lia|]. apply Forall_app. done.
Qed.
Lemma find_rowid_spec es rowid i : match find_rowid es rowid i with
  | Some j => exists l1 x l2, es = l1 ++ x :: l2 /\ j = i + Z.of_nat (length l1) /\ re_pl x = rowid
  | None => Forall (fun e => re_pl e <> rowid) es
  end.
Proof.
  revert i. induction es as [|e es IH]; intros i; cbn [find_rowid]; [constructor|]. destruct (Z.eqb_spec (re_pl e) rowid) as [E|E].
  - exists [], e, es. split; [done|]. split; [cbn; lia|done].
  - specialize (IH (i + 1)). destruct (find_rowid es rowid (i + 1)) as [j|].
    + destruct IH as (l1 & x & l2 & -> & -> & Hx). exists (e :: l1), x, l2. split; [done|]. split; [cbn [length]; lia|done].
    + by constructor.
Qed.
End Node.
