(* ===== verification/RtreeTree.v ===== *)
(** * The tree of pages

    [rtree v h g pages items]: in the contents [v], the tree of height [h] at
    page [g] has the pages [pages] and its leaves hold [items]; the box of every
    entry covers what is below it. *)
From Stdlib Require Import SpecFloat.
From S2P Require Import Prelude Util Value Cnum CnumSpec Geom GeomSpec Btree BtreeStore PinStore Rtree RtreeBox RtreeNode.

Fixpoint rtree (ps : Z) (v : Z -> list Z) (h : nat) (g : Z) (pages : list Z) (items : list rtent) : Prop :=
  match h with
  | O => pages = [g] /\ node ps (v g) true items
  | S h => exists es kids, node ps (v g) false es /\ es <> []
      /\ Forall2 (fun e k => rtree ps v h (re_pl e) k.1 k.2 /\ Forall (fun x => box_le (re_bb x) (re_bb e)) k.2) es kids
      /\ pages = g :: concat (map fst kids) /\ items = concat (map snd kids)
  end.
(** What an entry of an interior node promises of its child. *)
Abbreviation child ps v h := (fun e k => rtree ps v h (re_pl e) k.1 k.2 /\ Forall (fun x => box_le (re_bb x) (re_bb e)) k.2).
Abbreviation forest ps v h := (Forall2 (child ps v h)).
Abbreviation kid_pages kids := (concat (map fst kids)).
Abbreviation kid_items kids := (concat (map (snd (A := list Z) (B := list rtent)) kids)).

Lemma rtree_pages ps v h g pages items : rtree ps v h g pages items -> exists tl, pages = g :: tl.
Proof. destruct h; [intros [-> _]; by exists []|]. intros (es & kids & _ & _ & _ & -> & _). by eexists. Qed.
Lemma rtree_root ps v h g pages items : rtree ps v h g pages items -> g ∈ pages.
Proof. intros [tl ->]%rtree_pages. by left. Qed.
Lemma rtree_ext ps v v' h g pages items : (forall x, x ∈ pages -> v' x = v x) -> rtree ps v h g pages items -> rtree ps v' h g pages items.
Proof.
  revert g pages items. induction h as [|h IH]; intros g pages items Hv; cbn [rtree].
  - intros [-> Hn]. split; [done|]. rewrite Hv by (by left). done.
  - intros (es & kids & Hn & Hne & Hf & -> & ->). exists es, kids. rewrite Hv by (by left). split; [done|]. split; [done|]. split; [|done].
    assert (forall x k, k ∈ kids -> x ∈ k.1 -> v' x = v x) as Hk.
    { intros x k Hk Hx. apply Hv. right. apply list_elem_of_In, in_concat. exists k.1. split; [apply in_map|]; by apply list_elem_of_In. }
    clear Hv Hn Hne. induction Hf as [|e k es kids [H1 H2] Hf IHf]; constructor; [|apply IHf; intros x k' Hk' Hx; apply (Hk x k'); [by right|done]].
    split; [|done]. apply IH; [|done]. intros x Hx. apply (Hk x k); [by left|done].
Qed.
Lemma forest_ext ps v v' h es kids : (forall x, x ∈ kid_pages kids -> v' x = v x) -> forest ps v h es kids -> forest ps v' h es kids.
Proof.
  intros Hv Hf. induction Hf as [|e k es kids [H1 H2] Hf IHf]; constructor; cbn [map concat] in Hv.
  - split; [|done]. eapply rtree_ext; [|done]. intros x Hx. apply Hv, elem_of_app. by left.
  - apply IHf. intros x Hx. apply Hv, elem_of_app. by right.
Qed.
(** The boxes of the root cover the items. *)
Lemma rtree_cover ps v h g pages items : 512 <= ps <= 65536 -> rtree ps v h g pages items ->
  Forall ent_ok items /\ box_ok (nd_cover (v g)) /\ Forall (fun x => box_le (re_bb x) (nd_cover (v g))) items.
Proof.
  intros Hps. revert g pages items. induction h as [|h IH]; intros g pages items; cbn [rtree].
  - intros [_ Hn]. rewrite (node_cover ps Hps _ _ _ Hn). split; [apply (nd_ents _ _ _ _ Hn)|]. exact (cover_spec items (node_boxes ps _ _ _ Hn)).
  - intros (es & kids & Hn & Hne & Hf & _ & ->). rewrite (node_cover ps Hps _ _ _ Hn). destruct (cover_spec es (node_boxes ps _ _ _ Hn)) as [Hc Hall].
    pose proof (node_boxes ps _ _ _ Hn) as Hb. clear Hn Hne. revert Hc Hall Hb. generalize (cover es) as c. intros c Hc.
    induction Hf as [|e k es kids [H1 H2] Hf IHf]; intros Hall Hb; cbn [map concat]; [done|].
    apply Forall_cons in Hall as [Ha Hall], Hb as [Hb1 Hb]. destruct (IHf Hall Hb) as (I1 & _ & I2). destruct (IH _ _ _ H1) as (J1 & _ & _).
    split; [by apply Forall_app|]. split; [done|]. apply Forall_app. split; [|done]. rewrite Forall_forall in H2, J1 |- *.
    intros x Hx. apply (box_le_trans _ (re_bb e)); [by apply J1|done|done|by apply H2|done].
Qed.
(** A tree moves to another page. *)
Lemma rtree_move ps v v' h g a tl items : v' a = v g -> (forall x, x ∈ tl -> v' x = v x) -> rtree ps v h g (g :: tl) items -> rtree ps v' h a (a :: tl) items.
Proof.
  intros Ha Hv. destruct h as [|h]; cbn [rtree].
  - intros [[= ->] Hn]. by rewrite Ha.
  - intros (es & kids & Hn & Hne & Hf & [= ->] & ->). exists es, kids. rewrite Ha. split; [done|]. split; [done|]. split; [by eapply forest_ext|done].
Qed.

(** The entry an insertion follows exists. *)
Lemma choose_range es i bb best be ba : choose es i bb best be ba = best \/ i <= choose es i bb best be ba < i + Z.of_nat (length es).
Proof.
  revert i best be ba. induction es as [|e es IH]; intros i best be ba; cbn [choose length]; [by left|].
  destruct (_ || _); (edestruct IH as [->|Hr]; [|right; lia]); [right; lia|by left].
Qed.
Lemma choose_some es bb : es <> [] -> boxes_ok es -> box_ok bb -> exists i e, choose es 0 bb (-1) d1e308 d1e308 = Z.of_nat i /\ es !! i = Some e.
Proof.
  intros Hne Hb Hbb. assert (0 <= choose es 0 bb (-1) d1e308 d1e308 < Z.of_nat (length es)) as Hr.
  { destruct es as [|e es]; [done|]. apply Forall_cons in Hb as [He _]. cbn [choose length].
    destruct (small_below 967 (bb_enlarge (re_bb e) bb)) as [-> _]; [by apply enlarge_small|lia|]. cbn [orb].
    destruct (choose_range es (0 + 1) bb 0 (bb_enlarge (re_bb e) bb) (bb_area (re_bb e))) as [->|?]; lia. }
  destruct (lookup_lt_is_Some_2 es (Z.to_nat (choose es 0 bb (-1) d1e308 d1e308))) as [e He]; [lia|].
  exists (Z.to_nat (choose es 0 bb (-1) d1e308 d1e308)), e. split; [lia|done].
Qed.
(** The two groups of a split hold the entries. *)
Lemma map_ent_seq (ents : list rtent) : map (ent ents) (seq 0 (length ents)) = ents.
Proof.
  apply list_eq. intros i. rewrite list_lookup_fmap. destruct (decide (i < length ents)%nat) as [Hi|Hi].
  - rewrite lookup_seq_lt by done. destruct (lookup_lt_is_Some_2 ents i Hi) as [e He]. rewrite He. cbn. f_equal. unfold ent. by apply nth_lookup_Some.
  - rewrite lookup_seq_ge by lia. by rewrite lookup_ge_None_2 by lia.
Qed.
Lemma split_groups ps ents : (2 <= length ents)%nat -> boxes_ok ents -> let '(a, b) := quad_split ps ents in
  map (ent ents) a ++ map (ent ents) b ≡ₚ ents /\ (0 < length a)%nat /\ (0 < length b)%nat.
Proof.
  intros Hl Hb. pose proof (quad_split_ok ps ents Hl Hb) as H. destruct (quad_split ps ents) as [a b]. destruct H as (Hp & Ha & Hbb).
  split; [|done]. rewrite <- map_app, Hp. by rewrite map_ent_seq.
Qed.
