(* ===== verification/RtreeSearch.v ===== *)
(** * Searching an R-tree

    A search hands the callback the rowids of exactly the stored boxes that
    intersect the query, in the order of the leaves, and leaves the pages and
    their pins as they were. *)
From Stdlib Require Import SpecFloat.
From S2P Require Import Prelude Util Value Cnum CnumSpec Geom GeomSpec Btree BtreeStore PinStore Rtree RtreeBox RtreeNode RtreeTree.

Section Held.
Context {P : Type} `{PI : PinStore P}.

(** Nothing changed; [g] is held once more. *)
Definition quiet (p q : P) (live : list Z) : Prop := same_store p q live /\ forall x, st_pins q x = st_pins p x.
Definition held (p q : P) (live : list Z) (g : Z) : Prop := same_store p q live /\ forall x, st_pins q x = st_pins p x + (if x =? g then 1 else 0).

Lemma quiet_refl (p : P) live : st_ok p live -> quiet p p live.
Proof. intros Hp. by repeat split. Qed.
Lemma quiet_trans (p q r : P) live : quiet p q live -> quiet q r live -> quiet p r live.
Proof. intros [S1 P1] [S2 P2]. split; [by eapply same_store_trans|]. intros x. by rewrite P2. Qed.
Lemma held_quiet (p q r : P) live g : held p q live g -> quiet q r live -> held p r live g.
Proof. intros [S1 P1] [S2 P2]. split; [by eapply same_store_trans|]. intros x. by rewrite P2. Qed.
Lemma quiet_perm (p q : P) live live' : live ≡ₚ live' -> quiet p q live -> quiet p q live'.
Proof using PI. intros Hl [(Hq & V1 & R1) P1]. split; [|done]. split; [by eapply st_perm|done]. Qed.
Lemma held_ok (p q : P) live g : held p q live g -> st_ok q live.
Proof. by intros [[? _] _]. Qed.
Lemma quiet_ok (p q : P) live : quiet p q live -> st_ok q live.
Proof. by intros [[? _] _]. Qed.
Lemma held_pin (p q : P) live g : st_ok p live -> held p q live g -> 0 < st_pins q g.
Proof using All. intros Hp [_ Hq]. rewrite Hq, Z.eqb_refl. pose proof (pin_nonneg p live g Hp). lia. Qed.
Lemma held_data (p q : P) live g : st_ok p live -> held p q live g -> pp_data q g = st_view p g.
Proof using All.
  intros Hp Hq. pose proof (held_pin _ _ _ _ Hp Hq) as Hpin. pose proof (held_ok _ _ _ _ Hq) as Hok.
  rewrite (st_data q live g Hok) by (by eapply pin_pinned). apply Hq.
Qed.
Lemma fetch (p : P) live g : st_ok p live -> g ∈ live -> exists q, pp_get p g = (TDB_OK, q) /\ held p q live g.
Proof using All.
  intros Hp Hg. destruct (st_get p live g Hp Hg) as (q & E & Hs & _). exists q. split; [done|]. split; [done|]. intros x. by eapply pin_get.
Qed.
Lemma release (p q : P) live g : st_ok p live -> held p q live g -> quiet p (pp_unref q g) live.
Proof using All.
  intros Hp Hq. pose proof (held_pin _ _ _ _ Hp Hq) as Hpin. pose proof (held_ok _ _ _ _ Hq) as Hok. destruct Hq as [Hs Hx].
  split; [eapply same_store_trans; [done|by apply st_unref]|]. intros x. rewrite (pin_unref q live g x Hok Hpin), Hx. lia.
Qed.
End Held.

(** What the callback is shown. *)
Fixpoint visit {S} (cb : S -> Z -> tdb_status * S) (s : S) (l : list rtent) : tdb_status * S :=
  match l with
  | [] => (TDB_OK, s)
  | e :: l => match cb s (re_pl e) with (TDB_OK, s) => visit cb s l | r => r end
  end.
Definition hits (q : tdb_bbox) (items : list rtent) : list rtent := List.filter (fun e => tdb_bbox_intersects (re_bb e) q) items.

Lemma visit_app {S} (cb : S -> Z -> tdb_status * S) s a b : visit cb s (a ++ b) = match visit cb s a with (TDB_OK, s) => visit cb s b | r => r end.
Proof. revert s. induction a as [|e a IH]; intros s; cbn [visit app]; [done|]. destruct (cb s (re_pl e)) as [[] s']; try done. Qed.
Lemma hits_app q a b : hits q (a ++ b) = hits q a ++ hits q b.
Proof. apply List.filter_app. Qed.
Lemma hits_none items e q : Forall ent_ok items -> box_ok (re_bb e) -> Forall (fun x => box_le (re_bb x) (re_bb e)) items ->
  tdb_bbox_intersects (re_bb e) q = false -> hits q items = [].
Proof.
  intros Hok He Hle Hq. unfold hits. induction Hle as [|x l Hx Hle IH]; [done|]. apply Forall_cons in Hok as [[Hb _] Hok]. cbn [List.filter].
  destruct (tdb_bbox_intersects (re_bb x) q) eqn:E; [|by apply IH]. pose proof (intersects_le _ _ _ Hb He Hx E). congruence.
Qed.

Lemma kid_perm (g : Z) (a b : list (list Z * list rtent)) k rest :
  (g :: kid_pages (a ++ k :: b)) ++ rest ≡ₚ k.1 ++ g :: kid_pages a ++ kid_pages b ++ rest.
Proof. rewrite map_app, concat_app. cbn [map concat]. solve_Permutation. Qed.

Section Search.
Context {P : Type} `{PI : PinStore P} {S : Type} (cb : S -> Z -> tdb_status * S) (qb : tdb_bbox).

(** [pre] is done and [suf] is left of the entries of a leaf. *)
Lemma search_leaf (down : P -> Z -> S -> option (tdb_status * P * S)) p q live g d pre suf s :
  st_ok p live -> held p q live g -> st_view p g = d -> node (pp_page_size p) d true (pre ++ suf) ->
  search_entries down true g qb cb (length suf) (Z.of_nat (length pre)) q s
  = Some ((visit cb s (hits qb suf)).1, pp_unref q g, (visit cb s (hits qb suf)).2).
Proof using PI.
  intros Hp Hq Hd. revert pre s. induction suf as [|e suf IH]; intros pre s Hn; [done|]. cbn [length search_entries].
  rewrite (held_data p q _ g Hp Hq), Hd. rewrite (node_get _ _ _ _ (length pre) e Hn) by (rewrite lookup_app_r, Nat.sub_diag by lia; done).
  specialize (IH (pre ++ [e])). rewrite length_app, <- app_assoc in IH. cbn [length app] in IH. rewrite Nat2Z.inj_add in IH. change (Z.of_nat 1) with 1 in IH.
  unfold hits in *. cbn [List.filter]. destruct (tdb_bbox_intersects (re_bb e) qb); cbn [negb visit]; [|by apply IH].
  destruct (cb s (re_pl e)) as [[] s']; cbn [mbind option_bind]; try done. by apply IH.
Qed.
(** [down] searches a tree of height [h]. *)
Definition searches (h : nat) (down : P -> Z -> S -> option (tdb_status * P * S)) : Prop :=
  forall p g pages items rest s, st_ok p (pages ++ rest) -> rtree (pp_page_size p) (st_view p) h g pages items ->
  exists q, down p g s = Some ((visit cb s (hits qb items)).1, q, (visit cb s (hits qb items)).2) /\ quiet p q (pages ++ rest).
(** The same for the entries of an interior node. *)
Lemma search_kids down h p p2 g rest pre kpre suf ks s :
  searches h down -> let live := (g :: kid_pages (kpre ++ ks)) ++ rest in
  st_ok p live -> held p p2 live g -> node (pp_page_size p) (st_view p g) false (pre ++ suf) -> forest (pp_page_size p) (st_view p) h suf ks ->
  exists q, search_entries down false g qb cb (length suf) (Z.of_nat (length pre)) p2 s
      = Some ((visit cb s (hits qb (kid_items ks))).1, q, (visit cb s (hits qb (kid_items ks))).2) /\ quiet p q live.
Proof using PI.
  intros Hdown live Hp. pose proof (st_ps p _ Hp) as Hps. revert p2 pre kpre ks s live Hp.
  induction suf as [|e suf IH]; intros p2 pre kpre ks s live Hp Hh Hn Hf.
  { inversion Hf; subst ks. eexists. split; [reflexivity|]. by apply release. }
  inversion Hf as [|? k ? ks' [Hk Hle] Hf' E1 E2]. subst. cbn [length search_entries map concat].
  assert ((pre ++ e :: suf) !! length pre = Some e) as Hlk by (rewrite lookup_app_r, Nat.sub_diag by lia; done).
  rewrite (held_data p p2 _ g Hp Hh), (node_get _ _ _ _ (length pre) e Hn Hlk).
  specialize (fun p' s' => IH p' (pre ++ [e]) (kpre ++ [k]) ks' s'). rewrite length_app, <- !app_assoc in IH. cbn [length app] in IH.
  rewrite Nat2Z.inj_add in IH. change (Z.of_nat 1) with 1 in IH. fold live in IH.
  rewrite hits_app, visit_app. destruct (rtree_cover _ _ _ _ _ _ Hps Hk) as (Hok & _). pose proof (Forall_lookup_1 _ _ _ _ (nd_ents _ _ _ _ Hn) Hlk) as [He _].
  destruct (tdb_bbox_intersects (re_bb e) qb) eqn:Eq; cbn [negb]; [|rewrite (hits_none k.2 e qb) by done; cbn [visit]; by apply IH].
  assert (st_ok p2 (k.1 ++ g :: kid_pages kpre ++ kid_pages ks' ++ rest)) as Hp2 by (eapply st_perm; [apply kid_perm|by eapply held_ok]).
  pose proof (rtree_root _ _ _ _ _ _ Hk) as Hroot. destruct (st_page p2 _ (re_pl e) Hp2) as [Hpl _]; [apply elem_of_app; by left|]. rewrite u32_small by lia.
  pose proof Hh as [(_ & V2 & R2 & Z2) _]. destruct (Hdown p2 (re_pl e) k.1 k.2 _ s Hp2) as (p3 & -> & Hq3).
  { rewrite Z2. eapply rtree_ext; [|exact Hk]. intros x _. apply V2. }
  cbn [mbind option_bind]. destruct (visit cb s (hits qb k.2)) as [rc s3]. cbn [fst snd].
  apply (quiet_perm _ _ _ live) in Hq3; [|symmetry; apply kid_perm]. pose proof (held_quiet _ _ _ _ _ Hh Hq3) as Hh3.
  destruct rc; try (eexists; split; [reflexivity|by apply release]). by apply IH.
Qed.
Lemma node_search_ok fuel h : (h < fuel)%nat -> searches h (fun p g s => node_search fuel p g qb cb s).
Proof using PI.
  revert h. induction fuel as [|fuel IH]; intros h Hf p g pages items rest s Hp Ht; [lia|].
  pose proof (st_ps p _ Hp) as Hps. destruct (fetch p _ g Hp) as (p1 & E & Hh); [apply elem_of_app; left; by eapply rtree_root|].
  cbn [node_search]. rewrite E. rewrite (held_data p p1 _ g Hp Hh). destruct h as [|h]; cbn [rtree] in Ht.
  - destruct Ht as [-> Hn]. rewrite (node_leaf _ _ _ _ Hn), (node_count _ Hps _ _ _ Hn), Nat2Z.id.
    eexists. split; [|by apply release]. by apply (search_leaf _ p p1 _ g _ [] items s Hp Hh eq_refl).
  - destruct Ht as (es & kids & Hn & _ & Hfo & -> & ->). rewrite (node_leaf _ _ _ _ Hn), (node_count _ Hps _ _ _ Hn), Nat2Z.id.
    apply (search_kids _ h p p1 g rest [] [] es kids s); try done. apply IH. lia.
Qed.
End Search.
