(* ===== verification/RtreeEdit.v ===== *)
(** * Deletion and insertion in an R-tree *)
From Stdlib Require Import SpecFloat.
From S2P Require Import Prelude Util Value Cnum CnumSpec Geom GeomSpec Btree BtreeStore PinStore Rtree RtreeBox RtreeNode RtreeTree RtreeSearch.

Section Evolves.
Context {P : Type} `{PI : PinStore P}.

(** The pages [old] became [new] and at most [n] pages were allocated; the pages
    [rest] are as they were, and no page is held longer. *)
Definition evolves (p q : P) (old new rest : list Z) (n : Z) : Prop :=
  st_ok q (new ++ rest) /\ st_room p - n <= st_room q /\ pp_page_size q = pp_page_size p
  /\ (forall x, x ∈ rest -> st_view q x = st_view p x) /\ (forall x, x ∈ old -> x ∈ new)
  /\ forall x, x ∈ old ++ rest -> st_pins q x = st_pins p x.

Lemma evolves_ok (p q : P) old new rest n : evolves p q old new rest n -> st_ok q (new ++ rest).
Proof. by intros [? _]. Qed.
Lemma evolves_refl (p : P) old rest n : 0 <= n -> st_ok p (old ++ rest) -> evolves p p old old rest n.
Proof. intros Hn Hp. split; [done|]. split; [lia|done]. Qed.
Lemma evolves_trans (p q r : P) a b c rest n m : evolves p q a b rest n -> evolves q r b c rest m -> evolves p r a c rest (n + m).
Proof.
  intros (O1 & R1 & Z1 & V1 & S1 & P1) (O2 & R2 & Z2 & V2 & S2 & P2). split; [done|]. split; [lia|]. split; [lia|].
  split; [intros x Hx; by rewrite V2, V1|]. split; [auto|]. intros x Hx. rewrite P2, P1; [done|done|].
  revert Hx. rewrite !elem_of_app. intros [Hx|Hx]; [left; by apply S1|by right].
Qed.
Lemma evolves_le (p q : P) old new rest n m : n <= m -> evolves p q old new rest n -> evolves p q old new rest m.
Proof. intros Hle (O1 & R1 & ?). split; [done|]. split; [lia|done]. Qed.
Lemma evolves_new (p q : P) old new new' rest n : new ≡ₚ new' -> evolves p q old new rest n -> evolves p q old new' rest n.
Proof using PI.
  intros Hl (O1 & R1 & Z1 & V1 & S1 & P1). split; [eapply st_perm; [|exact O1]; by rewrite Hl|]. repeat (split; [done|]). split; [|done].
  intros x Hx. rewrite <- Hl. by apply S1.
Qed.
Lemma evolves_quiet (p q r : P) old new rest n : evolves p q old new rest n -> quiet q r (new ++ rest) -> evolves p r old new rest n.
Proof.
  intros (O1 & R1 & Z1 & V1 & S1 & P1) [(O2 & V2 & R2 & Z2) P2]. split; [done|]. split; [lia|]. split; [lia|].
  split; [intros x Hx; by rewrite V2, V1|]. split; [done|]. intros x Hx. rewrite P2. by apply P1.
Qed.
Lemma quiet_evolves (p q r : P) old new rest n : quiet p q (old ++ rest) -> evolves q r old new rest n -> evolves p r old new rest n.
Proof.
  intros [(O2 & V2 & R2 & Z2) P2] (O1 & R1 & Z1 & V1 & S1 & P1). split; [done|]. split; [lia|]. split; [lia|].
  split; [intros x Hx; by rewrite V1, V2|]. split; [done|]. intros x Hx. rewrite P1 by done. apply P2.
Qed.
(** A change below one child is a change of the node. *)
Lemma evolves_kid (p q : P) g a b (k k' : list Z * list rtent) rest n :
  evolves p q k.1 k'.1 (g :: kid_pages a ++ kid_pages b ++ rest) n ->
  evolves p q (g :: kid_pages (a ++ k :: b)) (g :: kid_pages (a ++ k' :: b)) rest n
  /\ (forall x, x = g \/ x ∈ kid_pages a \/ x ∈ kid_pages b -> st_view q x = st_view p x).
Proof using PI.
  intros (O1 & R1 & Z1 & V1 & S1 & P1). split.
  - split; [eapply st_perm; [|exact O1]; symmetry; apply kid_perm|]. split; [done|]. split; [done|].
    split; [intros x Hx; apply V1; rewrite !elem_of_cons, !elem_of_app; auto|].
    split; [intros x; rewrite !elem_of_cons, !map_app, !concat_app; cbn [map concat]; rewrite !elem_of_app; naive_solver|].
    intros x Hx. apply P1. by rewrite <- (kid_perm g a b k rest).
  - intros x Hx. apply V1. rewrite !elem_of_cons, !elem_of_app. naive_solver.
Qed.

(** Writing a page that is held, and letting it go. *)
Lemma write_held (p : P) live g d : st_ok p live -> g ∈ live -> 0 < st_pins p g -> blen d = pp_page_size p ->
  let q := (pp_write (pp_set p g d) g).2 in
  st_ok q live /\ st_room q = st_room p /\ pp_page_size q = pp_page_size p
  /\ (forall x, st_view q x = if x =? g then d else st_view p x) /\ forall x, st_pins q x = st_pins p x.
Proof using PI.
  intros Hp Hg Hpin Hd. destruct (st_write p live g d Hp Hg (pin_pinned p live g Hp Hpin) Hd) as (rc & q & E & Hq & Hr & Hz & Hv). rewrite E. cbn [snd].
  repeat (split; [done|]). intros x. by eapply pin_write.
Qed.
Lemma let_go (p p1 p3 : P) g old new rest n : st_ok p (old ++ rest) -> g ∈ old -> held p p1 (old ++ rest) g -> evolves p1 p3 old new rest n ->
  evolves p (pp_unref p3 g) old new rest n /\ forall x, st_view (pp_unref p3 g) x = st_view p3 x.
Proof using PI.
  intros Hp Hg Hh (O1 & R1 & Z1 & V1 & S1 & P1). pose proof (held_pin _ _ _ _ Hp Hh) as Hpin. destruct Hh as [(_ & V2 & R2 & Z2) P2].
  assert (0 < st_pins p3 g) as Hpin3 by (rewrite P1; [done|apply elem_of_app; by left]).
  destruct (st_unref p3 _ g O1) as (O3 & V3 & R3 & Z3). split; [|done]. split; [done|]. split; [lia|]. split; [lia|].
  split; [intros x Hx; by rewrite V3, V1, V2|]. split; [done|]. intros x Hx. rewrite (pin_unref p3 _ g x O1 Hpin3), P1, P2 by done. lia.
Qed.
Lemma close_node (p p1 p3 : P) g old new rest n d : st_ok p (old ++ rest) -> g ∈ old -> held p p1 (old ++ rest) g -> evolves p1 p3 old new rest n ->
  blen d = pp_page_size p -> let q := pp_unref (pp_write (pp_set p3 g d) g).2 g in
  evolves p q old new rest n /\ forall x, st_view q x = if x =? g then d else st_view p3 x.
Proof using PI.
  intros Hp Hg Hh He Hd. pose proof (held_pin _ _ _ _ Hp Hh) as Hpin. pose proof He as (O1 & R1 & Z1 & V1 & S1 & P1).
  pose proof (proj2 (proj2 (proj2 (proj1 Hh)))) as Z2. assert (g ∈ new) as Hgn by auto.
  destruct (write_held p3 (new ++ rest) g d O1) as (O2 & R2 & Z3 & V2 & P2); [apply elem_of_app; by left|rewrite P1; [done|apply elem_of_app; by left]|lia|].
  set (p4 := (pp_write (pp_set p3 g d) g).2) in *. assert (evolves p1 p4 old new rest n) as He4.
  { split; [done|]. split; [lia|]. split; [lia|]. split; [|split; [done|intros x Hx; rewrite P2; by apply P1]].
    intros x Hx. rewrite V2, V1 by done. destruct (Z.eqb_spec x g) as [->|]; [|done].
    pose proof (st_nodup _ _ O1) as Hnd. apply NoDup_app in Hnd as (_ & Hnd & _). by destruct (Hnd g Hgn). }
  destruct (let_go p p1 p4 g old new rest n Hp Hg Hh He4) as [H5 V5]. split; [done|]. intros x. by rewrite V5, V2.
Qed.
(** The box of a child is read. *)
Lemma child_cover_ok (p : P) live g : st_ok p live -> g ∈ live -> exists q, child_cover p g = (TDB_OK, q, nd_cover (st_view p g)) /\ quiet p q live.
Proof using PI.
  intros Hp Hg. destruct (fetch p live g Hp Hg) as (q & E & Hh). unfold child_cover. rewrite E, (held_data p q live g Hp Hh).
  eexists. split; [reflexivity|]. by apply release.
Qed.
(** A child of the held node [g] changed, and its box is read. *)
Lemma after_child (p p1 p2 : P) g a b (k k' : list Z * list rtent) c rest n :
  let pages := g :: kid_pages (a ++ k :: b) in let pages' := g :: kid_pages (a ++ k' :: b) in
  st_ok p (pages ++ rest) -> held p p1 (pages ++ rest) g -> evolves p1 p2 k.1 k'.1 (g :: kid_pages a ++ kid_pages b ++ rest) n -> c ∈ k'.1 ->
  exists p3, child_cover p2 c = (TDB_OK, p3, nd_cover (st_view p2 c)) /\ evolves p1 p3 pages pages' rest n /\ (forall x, st_view p3 x = st_view p2 x)
    /\ pp_data p3 g = st_view p g /\ 0 < st_pins p3 g /\ forall x, x = g \/ x ∈ kid_pages a \/ x ∈ kid_pages b -> st_view p2 x = st_view p x.
Proof using PI.
  intros pages pages' Hp Hh He Hc. pose proof Hh as [(_ & V1 & R1 & Z1) _]. destruct (evolves_kid p1 p2 g a b k k' rest n He) as [He2 V2].
  destruct (child_cover_ok p2 _ c (evolves_ok _ _ _ _ _ _ He2)) as (p3 & E & Hq).
  { apply elem_of_app. left. right. rewrite map_app, concat_app. cbn [map concat]. rewrite !elem_of_app. auto. }
  pose proof (evolves_quiet _ _ _ _ _ _ _ He2 Hq) as He3. exists p3. split; [done|]. split; [done|]. destruct Hq as [(O3 & V3 & _ & _) _]. split; [done|].
  assert (0 < st_pins p3 g) as Hpin by (rewrite (proj2 (proj2 (proj2 (proj2 (proj2 He3))))) by (by left); exact (held_pin _ _ _ _ Hp Hh)).
  split; [|split; [done|intros x Hx; by rewrite V2, V1]]. rewrite (st_data p3 _ g O3) by (by eapply pin_pinned). by rewrite V3, V2, V1 by auto.
Qed.
End Evolves.

(** ** Deletion *)

(** One entry with the rowid went. *)
Definition removed (rowid : Z) (items items' : list rtent) : Prop := exists l1 e l2, items = l1 ++ e :: l2 /\ items' = l1 ++ l2 /\ re_pl e = rowid.
(** No entry with the rowid is in reach of [bb]. *)
Definition absent (rowid : Z) (bb : tdb_bbox) (items : list rtent) : Prop :=
  Forall (fun e => re_pl e = rowid -> tdb_bbox_intersects (re_bb e) bb = false) items.

Lemma removed_in rowid a items items' b : removed rowid items items' -> removed rowid (a ++ items ++ b) (a ++ items' ++ b).
Proof. intros (l1 & e & l2 & -> & -> & He). exists (a ++ l1), e, (l2 ++ b). by rewrite <- !app_assoc. Qed.
Lemma absent_below rowid bb items e : Forall ent_ok items -> box_ok (re_bb e) -> Forall (fun x => box_le (re_bb x) (re_bb e)) items ->
  tdb_bbox_intersects (re_bb e) bb = false -> absent rowid bb items.
Proof.
  intros Hok He Hle Hq. eapply Forall_impl; [apply Forall_and; split; [exact Hok|exact Hle]|]. intros x [[Hb _] Hx] _.
  destruct (tdb_bbox_intersects (re_bb x) bb) eqn:E; [|done]. pose proof (intersects_le _ _ _ Hb He Hx E). congruence.
Qed.

Section Delete.
Context {P : Type} `{PI : PinStore P} (bb : tdb_bbox) (rowid : Z).

Definition deletes (h : nat) (down : P -> Z -> option (tdb_status * P * bool)) : Prop :=
  forall p g pages items rest, st_ok p (pages ++ rest) -> rtree (pp_page_size p) (st_view p) h g pages items ->
  exists q found, down p g = Some (TDB_OK, q, found) /\
    if found : bool then exists items', evolves p q pages pages rest 0 /\ rtree (pp_page_size p) (st_view q) h g pages items' /\ removed rowid items items'
    else quiet p q (pages ++ rest) /\ absent rowid bb items.

(** The box of the changed child is refreshed. *)
Lemma node_refresh ps d leaf pre e f suf : node ps d leaf (pre ++ e :: suf) -> ent_ok f -> node ps (nd_put d (Z.of_nat (length pre)) f) leaf (pre ++ f :: suf).
Proof.
  intros Hn Hf. pose proof (node_put ps _ _ _ (length pre) f Hn) as Hn'. rewrite insert_app_r_alt, Nat.sub_diag in Hn' by lia.
  apply Hn'; [rewrite length_app; cbn; lia|done].
Qed.
Lemma refresh_node ps v v' h g pre kpre e k suf ks c :
  512 <= ps <= 65536 -> node ps (v g) false (pre ++ e :: suf) -> forest ps v h pre kpre -> forest ps v h suf ks ->
  (forall x, x ∈ kid_pages kpre \/ x ∈ kid_pages ks -> v' x = v x) -> rtree ps v' h (re_pl e) k.1 k.2 -> c = nd_cover (v' (re_pl e)) ->
  v' g = nd_put (v g) (Z.of_nat (length pre)) (mk_rtent c (re_pl e)) ->
  rtree ps v' (S h) g (g :: kid_pages (kpre ++ k :: ks)) (kid_items (kpre ++ k :: ks)).
Proof.
  intros Hps Hn Hf1 Hf2 Hv Hk -> Hg. destruct (rtree_cover _ _ _ _ _ _ Hps Hk) as (_ & Hc & Hle).
  pose proof (nd_ents _ _ _ _ Hn) as [_ [[_ Hpl] _]%Forall_cons]%Forall_app.
  assert (node ps (v' g) false (pre ++ mk_rtent (nd_cover (v' (re_pl e))) (re_pl e) :: suf)) as Hn'.
  { rewrite Hg. by apply node_refresh with e. }
  exists (pre ++ mk_rtent (nd_cover (v' (re_pl e))) (re_pl e) :: suf), (kpre ++ k :: ks). split; [done|]. split; [by destruct pre|]. split; [|done].
  apply Forall2_app; [eapply forest_ext; [|exact Hf1]; auto|]. constructor; [done|]. eapply forest_ext; [|exact Hf2]. auto.
Qed.
(** An entry was found below [e]. *)
Lemma delete_found h p p2 p3 g rest pre kpre e k suf ks its :
  let pages := g :: kid_pages (kpre ++ k :: ks) in let ps := pp_page_size p in
  st_ok p (pages ++ rest) -> held p p2 (pages ++ rest) g -> node ps (st_view p g) false (pre ++ e :: suf) ->
  forest ps (st_view p) h pre kpre -> forest ps (st_view p) h suf ks -> re_pl e ∈ k.1 ->
  evolves p2 p3 k.1 k.1 (g :: kid_pages kpre ++ kid_pages ks ++ rest) 0 -> rtree ps (st_view p3) h (re_pl e) k.1 its -> removed rowid k.2 its ->
  exists q, (match child_cover p3 (re_pl e) with
    | (TDB_OK, p, cover) =>
        let p := pp_set p g (nd_put (pp_data p g) (Z.of_nat (length pre)) (mk_rtent cover (re_pl e))) in
        Some (TDB_OK, pp_unref (pp_write p g).2 g, true)
    | (rc, p, _) => Some (rc, pp_unref p g, true)
    end) = Some (TDB_OK, q, true)
  /\ exists items', evolves p q pages pages rest 0 /\ rtree ps (st_view q) (S h) g pages items' /\ removed rowid (kid_items (kpre ++ k :: ks)) items'.
Proof using PI.
  intros pages ps Hp Hh Hn Hf1 Hf2 Hroot He3 Ht3 Hrem. pose proof (st_ps p _ Hp) as Hps.
  assert ((pre ++ e :: suf) !! length pre = Some e) as Hlk by (rewrite lookup_app_r, Nat.sub_diag by lia; done).
  destruct (after_child p p2 p3 g kpre ks k (k.1, its) (re_pl e) rest 0 Hp Hh He3 Hroot) as (p4 & -> & He4 & V4 & -> & _ & V3).
  replace (kid_pages (kpre ++ (k.1, its) :: ks)) with (kid_pages (kpre ++ k :: ks)) in He4 by (by rewrite !map_app).
  set (d := nd_put _ _ _). assert (blen d = ps) as Hd.
  { unfold d. destruct (holds_put _ _ _ _ _ _ (mk_rtent (nd_cover (st_view p3 (re_pl e))) (re_pl e)) (nd_rep _ _ _ _ Hn) Hlk) as [_ ->]. apply (nd_len _ _ _ _ Hn). }
  destruct (close_node p p2 p4 g _ _ rest 0 d Hp ltac:(by left) Hh He4 Hd) as [He5 V5]. eexists. split; [reflexivity|].
  exists (kid_items (kpre ++ (k.1, its) :: ks)). split; [exact He5|]. split; [|rewrite !map_app, !concat_app; cbn [map concat]; by apply removed_in].
  pose proof (st_nodup _ _ Hp) as [[Hng _]%NoDup_cons _]%NoDup_app.
  assert (forall x, x ∈ kid_pages (kpre ++ k :: ks) -> st_view (pp_unref (pp_write (pp_set p4 g d) g).2 g) x = st_view p3 x) as V6.
  { intros x Hx. rewrite V5, V4. destruct (Z.eqb_spec x g) as [->|]; done. }
  rewrite map_app, concat_app in V6. cbn [map concat] in V6. setoid_rewrite elem_of_app in V6. setoid_rewrite elem_of_app in V6.
  replace pages with (g :: kid_pages (kpre ++ (k.1, its) :: ks)) by (unfold pages; by rewrite !map_app).
  eapply (refresh_node ps (st_view p) _ h g pre kpre e (k.1, its) suf ks); try done.
  - intros x Hx. rewrite V6 by naive_solver. by apply V3; right.
  - eapply rtree_ext; [|exact Ht3]. intros x Hx. apply V6. auto.
  - rewrite (V5 g), Z.eqb_refl. unfold d. do 3 f_equal. symmetry. apply V6. right. by left.
Qed.
Lemma delete_kids down h p p2 g rest pre kpre suf ks :
  deletes h down -> let pages := g :: kid_pages (kpre ++ ks) in
  st_ok p (pages ++ rest) -> held p p2 (pages ++ rest) g -> node (pp_page_size p) (st_view p g) false (pre ++ suf) ->
  forest (pp_page_size p) (st_view p) h pre kpre -> forest (pp_page_size p) (st_view p) h suf ks ->
  exists q found, delete_entries down g bb (length suf) (Z.of_nat (length pre)) p2 = Some (TDB_OK, q, found) /\
    if found : bool then exists items', evolves p q pages pages rest 0
      /\ rtree (pp_page_size p) (st_view q) (S h) g pages items' /\ removed rowid (kid_items (kpre ++ ks)) items'
    else quiet p q (pages ++ rest) /\ absent rowid bb (kid_items ks).
Proof using PI.
  intros Hdown pages Hp. pose proof (st_ps p _ Hp) as Hps. revert p2 pre kpre ks pages Hp.
  induction suf as [|e suf IH]; intros p2 pre kpre ks pages Hp Hh Hn Hf1 Hf.
  { inversion Hf; subst ks. eexists _, false. split; [reflexivity|]. split; [by apply release|constructor]. }
  inversion Hf as [|? k ? ks' [Hk Hle] Hf' E1 E2]. subst. cbn [length delete_entries].
  assert ((pre ++ e :: suf) !! length pre = Some e) as Hlk by (rewrite lookup_app_r, Nat.sub_diag by lia; done).
  rewrite (held_data p p2 _ g Hp Hh), (node_get _ _ _ _ (length pre) e Hn Hlk).
  destruct (rtree_cover _ _ _ _ _ _ Hps Hk) as (Hok & _). pose proof (Forall_lookup_1 _ _ _ _ (nd_ents _ _ _ _ Hn) Hlk) as [He _].
  assert (forall p', held p p' (pages ++ rest) g -> absent rowid bb k.2 -> exists q found,
    delete_entries down g bb (length suf) (Z.of_nat (length pre) + 1) p' = Some (TDB_OK, q, found) /\
    if found : bool then exists items', evolves p q pages pages rest 0
      /\ rtree (pp_page_size p) (st_view q) (S h) g pages items' /\ removed rowid (kid_items (kpre ++ k :: ks')) items'
    else quiet p q (pages ++ rest) /\ absent rowid bb (kid_items (k :: ks'))) as Hnext.
  { intros p' Hh' Habs. specialize (IH p' (pre ++ [e]) (kpre ++ [k]) ks'). rewrite length_app, <- !app_assoc in IH. cbn [length app] in IH.
    rewrite Nat2Z.inj_add in IH. change (Z.of_nat 1) with 1 in IH. destruct IH as (q & found & E & Hres); try done; [by apply Forall2_app; [|repeat constructor]|].
    exists q, found. split; [done|]. destruct found; [done|]. destruct Hres as [Hq Ha]. split; [done|]. by apply Forall_app. }
  destruct (tdb_bbox_intersects (re_bb e) bb) eqn:Eq; cbn [negb]; [|apply Hnext; [done|by eapply absent_below]]. clear IH.
  assert (st_ok p2 (k.1 ++ g :: kid_pages kpre ++ kid_pages ks' ++ rest)) as Hp2 by (eapply st_perm; [apply kid_perm|by eapply held_ok]).
  pose proof (rtree_root _ _ _ _ _ _ Hk) as Hroot. destruct (st_page p2 _ (re_pl e) Hp2) as [Hpl _]; [apply elem_of_app; by left|]. rewrite u32_small by lia.
  pose proof Hh as [(_ & V2 & R2 & Z2) _]. destruct (Hdown p2 (re_pl e) k.1 k.2 _ Hp2) as (p3 & found & -> & Hres).
  { rewrite Z2. eapply rtree_ext; [|exact Hk]. intros x _. apply V2. }
  cbn [mbind option_bind]. destruct found.
  - destruct Hres as (its & He3 & Ht3 & Hrem). rewrite Z2 in Ht3.
    destruct (delete_found h p p2 p3 g rest pre kpre e k suf ks' its) as (q & E & Hq); try done. exists q, true. by split.
  - destruct Hres as [Hq3 Habs]. apply Hnext; [|done]. eapply held_quiet; [exact Hh|]. eapply quiet_perm; [symmetry; apply kid_perm|exact Hq3].
Qed.
Lemma delete_leaf p p1 g rest items :
  st_ok p ([g] ++ rest) -> held p p1 ([g] ++ rest) g -> node (pp_page_size p) (st_view p g) true items ->
  exists q found, (match find_rowid items rowid 0 with
    | Some i => Some (TDB_OK, pp_unref (pp_write (pp_set p1 g (nd_set_count (shift_down (st_view p g) (i + 1) (Z.to_nat (Z.of_nat (length items) - i - 1)))
                  (Z.of_nat (length items) - 1))) g).2 g, true)
    | None => Some (TDB_OK, pp_unref p1 g, false)
    end) = Some (TDB_OK, q, found)
  /\ if found : bool then exists items', evolves p q [g] [g] rest 0 /\ rtree (pp_page_size p) (st_view q) 0 g [g] items' /\ removed rowid items items'
    else quiet p q ([g] ++ rest) /\ absent rowid bb items.
Proof using PI.
  intros Hp Hh Hn. pose proof (st_ps p _ Hp) as Hps. pose proof (find_rowid_spec items rowid 0) as Hfind. destruct (find_rowid items rowid 0) as [i|].
  - destruct Hfind as (l1 & x & l2 & -> & -> & Hx). rewrite Z.add_0_l. pose proof (node_remove _ Hps _ _ _ _ _ Hn) as Hn'.
    replace (Z.to_nat (Z.of_nat (length (l1 ++ x :: l2)) - Z.of_nat (length l1) - 1)) with (length l2) by (rewrite length_app; cbn [length]; lia).
    set (d := nd_set_count _ _) in *. destruct (close_node p p1 p1 g [g] [g] rest 0 d Hp ltac:(by left) Hh) as [He V]; [apply evolves_refl; [done|by eapply held_ok]|apply (nd_len _ _ _ _ Hn')|].
    eexists _, true. split; [reflexivity|]. exists (l1 ++ l2). split; [done|]. split; [|by exists l1, x, l2]. split; [done|]. by rewrite V, Z.eqb_refl.
  - eexists _, false. split; [reflexivity|]. split; [by apply release|]. eapply Forall_impl; [exact Hfind|]. by intros e Hne He.
Qed.
Lemma node_delete_ok fuel h : (h < fuel)%nat -> deletes h (fun p g => node_delete fuel p g bb rowid).
Proof using PI.
  revert h. induction fuel as [|fuel IH]; intros h Hf p g pages items rest Hp Ht; [lia|].
  pose proof (st_ps p _ Hp) as Hps. destruct (fetch p _ g Hp) as (p1 & E & Hh); [apply elem_of_app; left; by eapply rtree_root|].
  cbn [node_delete]. rewrite E. rewrite (held_data p p1 _ g Hp Hh). destruct h as [|h]; cbn [rtree] in Ht.
  - destruct Ht as [-> Hn]. rewrite (node_leaf _ _ _ _ Hn), (node_count _ Hps _ _ _ Hn), (node_entries _ Hps _ _ _ Hn). by apply delete_leaf.
  - destruct Ht as (es & kids & Hn & _ & Hfo & -> & ->). rewrite (node_leaf _ _ _ _ Hn), (node_count _ Hps _ _ _ Hn), Nat2Z.id.
    apply (delete_kids _ h p p1 g rest [] [] es kids); try done. apply IH. lia.
Qed.
End Delete.
