(* ===== verification/RtreeInsert.v ===== *)
(** * Insertion in an R-tree *)
From Stdlib Require Import SpecFloat.
From S2P Require Import Prelude Util Value Cnum CnumSpec Geom GeomSpec Btree BtreeStore PinStore Rtree RtreeBox RtreeNode RtreeTree RtreeSearch RtreeEdit.

Section Pending.
Context {P : Type} `{PI : PinStore P}.

(** Page [g] is held and has the bytes [d], which may not be written yet: [p0] is
    the state without them. *)
Definition pending (p0 p : P) (live : list Z) (g : Z) (d : list Z) : Prop :=
  st_ok p0 live /\ g ∈ live /\ 0 < st_pins p0 g /\ (p = p0 /\ st_view p0 g = d \/ p = pp_set p0 g d).

Lemma pend_data p0 p live g d : pending p0 p live g d -> pp_data p g = d.
Proof using PI.
  intros (Hp & Hg & Hpin & Hor). pose proof (pin_pinned p0 live g Hp Hpin) as Hpp. destruct Hor as [[-> <-]| ->]; [by eapply st_data|by eapply st_set_data].
Qed.
Lemma pend_size p0 p live g d : pending p0 p live g d -> pp_page_size p = pp_page_size p0.
Proof using PI. intros (Hp & Hg & Hpin & [[-> _]| ->]); [done|apply set_size]. Qed.
Lemma pend_set p0 p live g d e : pending p0 p live g d -> pp_set p g e = pp_set p0 g e.
Proof using PI. intros (Hp & Hg & Hpin & [[-> _]| ->]); [done|by eapply st_set_set]. Qed.
Lemma pend_other p0 p live g d h : pending p0 p live g d -> h <> g -> pp_data p h = pp_data p0 h.
Proof using PI. intros (Hp & Hg & Hpin & [[-> _]| ->]) Hne; [done|by eapply set_other]. Qed.
Lemma pend_write p0 p live g d h e : pending p0 p live g d -> h <> g -> h ∈ live -> 0 < st_pins p0 h -> blen e = pp_page_size p0 ->
  pending (pp_write (pp_set p0 h e) h).2 (pp_write (pp_set p h e) h).2 live g d.
Proof using PI.
  intros (Hp & Hg & Hpin & Hor) Hne Hh Hph He. destruct (write_held p0 live h e Hp Hh Hph He) as (O1 & R1 & Z1 & V1 & P1).
  split; [done|]. split; [done|]. split; [by rewrite P1|]. destruct Hor as [[-> Hv]| ->].
  - left. split; [done|]. rewrite V1. by destruct (Z.eqb_spec g h).
  - right. rewrite (set_write p0 live g d h e Hp Hne). by destruct (pp_write (pp_set p0 h e) h).
Qed.
Lemma pend_alloc p0 p live g d : pending p0 p live g d -> 0 < st_room p0 ->
  exists q0 q s, pp_alloc p = (TDB_OK, q, s) /\ pending q0 q (s :: live) g d /\ (s ∉ live) /\ 0 < st_pins q0 s
    /\ st_room p0 - 1 <= st_room q0 /\ pp_page_size q0 = pp_page_size p0
    /\ (forall x, x ∈ live -> st_view q0 x = st_view p0 x) /\ forall x, x ∈ live -> st_pins q0 x = st_pins p0 x.
Proof using PI.
  intros (Hp & Hg & Hpin & Hor) Hroom. destruct (st_alloc p0 live Hp Hroom) as (q0 & s & E & Hs & O1 & _ & R1 & Z1 & V1).
  destruct (pin_alloc p0 live q0 s Hp Hroom E) as [Ps P1].
  assert (exists q, pp_alloc p = (TDB_OK, q, s) /\ (q = q0 /\ st_view q0 g = d \/ q = pp_set q0 g d)) as (q & Eq & Hq).
  { destruct Hor as [[-> Hv]| ->]; [exists q0; split; [done|left; split; [done|]; by rewrite V1]|]. exists (pp_set q0 g d). split; [|by right].
    rewrite (set_alloc p0 live g d) by done. by rewrite E. }
  exists q0, q, s. split; [done|]. split; [|done]. split; [done|]. split; [by right|]. split; [by rewrite P1|done].
Qed.
End Pending.

Section Grow.
Context {P : Type} `{PI : PinStore P} (alloc_ok : Z -> bool) (Halloc : forall n, alloc_ok n = true).

(** The node took the entry, or was split in two. *)
Definition grown_node (ps : Z) (q : P) (live : list Z) (g : Z) (leaf : bool) (es : list rtent) (split : option (Z * tdb_bbox)) : Prop :=
  match split with
  | None => st_ok q live /\ node ps (st_view q g) leaf es
  | Some (s, box) => (s ∉ live) /\ st_ok q (s :: live) /\ box = nd_cover (st_view q s) /\
      exists ea eb, ea ++ eb ≡ₚ es /\ ea <> [] /\ eb <> [] /\ node ps (st_view q g) leaf ea /\ node ps (st_view q s) leaf eb
  end.
Lemma split_node_ok p0 p live g d leaf ents :
  let ps := pp_page_size p0 in
  pending p0 p live g d -> Forall ent_ok ents -> (2 <= length ents)%nat -> Z.of_nat (length ents) <= nd_cap ps + 1 -> blen d = ps -> 0 < st_room p0 ->
  exists q split, (let '(ga, gb) := quad_split ps ents in
      match pp_alloc p with
      | (TDB_OK, p, sib) =>
          let ds := fill_node (pp_data p sib) (type_of leaf) (map (ent ents) gb) in
          let p := (pp_write (pp_set p sib ds) sib).2 in
          let p := (pp_write (pp_set p g (fill_node (pp_data p g) (type_of leaf) (map (ent ents) ga))) g).2 in
          (TDB_OK, pp_unref p sib, Some (sib, nd_cover (pp_data p sib)))
      | (rc, p, _) => (rc, p, None)
      end) = (TDB_OK, q, split)
    /\ pp_page_size q = ps /\ st_room p0 - 1 <= st_room q
    /\ (forall x, x ∈ live -> st_pins q x = st_pins p0 x) /\ (forall x, x ∈ live -> x <> g -> st_view q x = st_view p0 x)
    /\ grown_node ps q live g leaf ents split.
Proof using All.
  intros ps Hpe Hents Hlen Hcap Hd Hroom. pose proof Hpe as (Hp & Hg & Hpin & _). pose proof (st_ps p0 _ Hp) as Hps.
  pose proof (split_groups ps ents Hlen ltac:(eapply Forall_impl; [exact Hents|by intros ? [? _]])) as Hsp. destruct (quad_split ps ents) as [ga gb].
  destruct Hsp as (Hperm & Ha & Hb). pose proof (Permutation_length Hperm) as Hl. rewrite length_app, !length_map in Hl.
  assert (Forall ent_ok (map (ent ents) ga) /\ Forall ent_ok (map (ent ents) gb)) as [Hea Heb] by (apply Forall_app; by rewrite Hperm).
  destruct (pend_alloc _ _ _ _ _ Hpe Hroom) as (q0 & q & s & -> & Hq & Hs & Ps & R1 & Z1 & V1 & P1). pose proof Hq as (O1 & _ & _ & _). fold ps in Z1.
  assert (s <> g) as Hne by congruence. assert (s ∈ s :: live) as Hsl by (by left). cbn beta zeta iota.
  rewrite (pend_other _ _ _ _ _ s Hq Hne), (st_data q0 _ s O1) by (by eapply pin_pinned). destruct (st_page q0 _ s O1 Hsl) as [_ Hsv].
  assert (node ps (fill_node (st_view q0 s) (type_of leaf) (map (ent ents) gb)) leaf (map (ent ents) gb)) as Hns by (apply node_fill; [done|lia|rewrite length_map; lia|done]).
  set (ds := fill_node (st_view q0 s) _ _) in *. pose proof (nd_len _ _ _ _ Hns) as Hds.
  pose proof (pend_write _ _ _ _ _ s ds Hq Hne Hsl Ps ltac:(lia)) as Hr. destruct (write_held q0 (s :: live) s ds O1 Hsl Ps) as (O2 & R2 & Z2 & V2 & P2); [lia|].
  set (r0 := (pp_write (pp_set q0 s ds) s).2) in *. set (r := (pp_write (pp_set q s ds) s).2) in *. rewrite (pend_data _ _ _ _ _ Hr), (pend_set _ _ _ _ _ _ Hr).
  assert (node ps (fill_node d (type_of leaf) (map (ent ents) ga)) leaf (map (ent ents) ga)) as Hna by (apply node_fill; [done|done|rewrite length_map; lia|done]).
  set (da := fill_node d _ _) in *. destruct (write_held r0 (s :: live) g da O2 ltac:(by right)) as (O3 & R3 & Z3 & V3 & P3); [apply Hr|rewrite (nd_len _ _ _ _ Hna); lia|].
  set (p4 := (pp_write (pp_set r0 g da) g).2) in *. assert (0 < st_pins p4 s) as Ps4 by (by rewrite P3, P2).
  assert (st_view p4 s = ds) as Vs by (rewrite V3, V2, Z.eqb_refl; by destruct (Z.eqb_spec s g)).
  destruct (st_unref p4 _ s O3) as (O5 & V5 & R5 & Z5). rewrite (st_data p4 _ s O3) by (by eapply pin_pinned).
  eexists _, _. split; [reflexivity|]. split; [lia|]. split; [lia|].
  split; [intros x Hx; rewrite (pin_unref p4 _ s x O3 Ps4), P3, P2, P1 by done; destruct (Z.eqb_spec x s) as [->|]; [done|lia]|].
  split; [intros x Hx Hxg; rewrite V5, V3, V2, <- V1 by done; destruct (Z.eqb_spec x g), (Z.eqb_spec x s) as [->|]; done|].
  split; [done|]. split; [done|]. rewrite V5. split; [done|]. exists (map (ent ents) ga), (map (ent ents) gb). split; [done|].
  split; [destruct ga; [cbn in Ha; lia|done]|]. split; [destruct gb; [cbn in Hb; lia|done]|]. rewrite !V5, Vs. split; [|done]. rewrite V3, Z.eqb_refl. done.
Qed.
Lemma add_or_split_ok p0 p live g d leaf es e :
  pending p0 p live g d -> node (pp_page_size p0) d leaf es -> ent_ok e -> 0 < st_room p0 ->
  exists q split, nd_add_or_split alloc_ok p g e = (TDB_OK, q, split) /\ pp_page_size q = pp_page_size p0 /\ st_room p0 - 1 <= st_room q
    /\ (forall x, x ∈ live -> st_pins q x = st_pins p0 x) /\ (forall x, x ∈ live -> x <> g -> st_view q x = st_view p0 x)
    /\ grown_node (pp_page_size p0) q live g leaf (es ++ [e]) split.
Proof using All.
  intros Hpe Hn He Hroom. pose proof Hpe as (Hp & Hg & Hpin & _). pose proof (st_ps p0 _ Hp) as Hps. unfold nd_add_or_split.
  rewrite (pend_data _ _ _ _ _ Hpe), (pend_size _ _ _ _ _ Hpe), (node_count _ Hps _ _ _ Hn), (node_type _ _ _ _ Hn), (node_entries _ Hps _ _ _ Hn), !Halloc.
  set (ps := pp_page_size p0) in *. destruct (Z.ltb_spec (Z.of_nat (length es)) (nd_cap ps)) as [Hl|Hl].
  - pose proof (node_push _ Hps _ _ _ _ Hn Hl He) as Hn'. rewrite (pend_set _ _ _ _ _ _ Hpe). set (d' := nd_set_count _ _) in *.
    destruct (write_held p0 live g d' Hp Hg Hpin) as (O1 & R1 & Z1 & V1 & P1); [apply (nd_len _ _ _ _ Hn')|].
    eexists _, None. split; [reflexivity|]. split; [done|]. split; [lia|]. split; [by intros x _|].
    split; [intros x _ Hne; rewrite V1; by destruct (Z.eqb_spec x g)|]. split; [done|]. by rewrite V1, Z.eqb_refl.
  - cbn [negb]. apply (split_node_ok p0 p live g d); [done|apply Forall_app; split; [apply (nd_ents _ _ _ _ Hn)|by constructor]| | |apply (nd_len _ _ _ _ Hn)|done].
    + pose proof (cap_bounds ps Hps). rewrite length_app. cbn [length]. lia.
    + pose proof (nd_fits _ _ _ _ Hn). rewrite length_app. cbn [length]. fold ps. lia.
Qed.
End Grow.

(** ** The tree *)

Lemma kids_perm (a b : list (list Z * list rtent)) : a ≡ₚ b -> kid_pages a ≡ₚ kid_pages b /\ kid_items a ≡ₚ kid_items b.
Proof.
  induction 1 as [|k a b _ [IH1 IH2]|k k' a|a b c _ [IH1 IH2] _ [IH3 IH4]]; cbn [map concat].
  - done.
  - split; [by rewrite IH1|by rewrite IH2].
  - split; solve_Permutation.
  - split; [by rewrite IH1|by rewrite IH2].
Qed.
Lemma split_forest ps v h es kids ea eb : forest ps v h es kids -> ea ++ eb ≡ₚ es ->
  exists ka kb, forest ps v h ea ka /\ forest ps v h eb kb /\ ka ++ kb ≡ₚ kids.
Proof.
  intros Hf Hp. symmetry in Hp. destruct (Permutation_Forall2 Hp Hf) as (kids' & Hk & Hf').
  apply Forall2_app_inv_l in Hf' as (ka & kb & H1 & H2 & ->). exists ka, kb. by rewrite Hk.
Qed.
(** The tree took an entry, or was split in two. *)
Definition grown (ps : Z) (v : Z -> list Z) (h : nat) (g : Z) (split : option (Z * tdb_bbox)) (pages : list Z) (items : list rtent) : Prop :=
  match split with
  | None => rtree ps v h g pages items
  | Some (s, box) => box = nd_cover (v s) /\
      exists pa ia pb ib, pages ≡ₚ pa ++ pb /\ items ≡ₚ ia ++ ib /\ rtree ps v h g pa ia /\ rtree ps v h s pb ib
  end.
Lemma grown_root ps v h g split pages items : grown ps v h g split pages items -> g ∈ pages.
Proof.
  destruct split as [[s box]|]; [|apply rtree_root]. intros (_ & pa & ia & pb & ib & -> & _ & Ha & _). apply elem_of_app. left. by eapply rtree_root.
Qed.
Lemma grown_ext ps v v' h g split pages items : (forall x, x ∈ pages -> v' x = v x) -> grown ps v h g split pages items -> grown ps v' h g split pages items.
Proof.
  intros Hv. destruct split as [[s box]|]; [|by apply rtree_ext]. intros (-> & pa & ia & pb & ib & Hp & Hi & Ha & Hb). setoid_rewrite Hp in Hv. setoid_rewrite elem_of_app in Hv.
  split; [f_equal; symmetry; apply Hv; right; by eapply rtree_root|]. exists pa, ia, pb, ib. split; [done|]. split; [done|]. split; (eapply rtree_ext; [|done]); auto.
Qed.
Lemma grown_leaf {P} `{StoreView P} ps (q : P) live g es split : grown_node ps q live g true es split ->
  exists items, grown ps (st_view q) 0 g split (match split with None => [] | Some (s, _) => [s] end ++ [g]) items /\ items ≡ₚ es.
Proof.
  destruct split as [[s box]|]; cbn [grown_node grown rtree app].
  - intros (_ & _ & -> & ea & eb & Hp & _ & _ & Ha & Hb). exists (ea ++ eb). split; [|done]. split; [done|]. exists [g], ea, [s], eb. split; [solve_Permutation|done].
  - intros [_ Hn]. by exists es.
Qed.
Lemma grown_interior {P} `{StoreView P} ps v (q : P) live h g es kids split :
  es <> [] -> grown_node ps q live g false es split -> forest ps v h es kids -> (forall x, x ∈ kid_pages kids -> st_view q x = v x) ->
  exists items, grown ps (st_view q) (S h) g split (match split with None => [] | Some (s, _) => [s] end ++ g :: kid_pages kids) items /\ items ≡ₚ kid_items kids.
Proof.
  intros Hne Hg Hf Hv. apply (forest_ext _ _ (st_view q)) in Hf; [|done]. destruct split as [[s box]|]; cbn [grown_node grown app] in *.
  - destruct Hg as (_ & _ & -> & ea & eb & Hp & Hna & Hnb & Ha & Hb). destruct (split_forest _ _ _ _ _ _ _ Hf Hp) as (ka & kb & Hfa & Hfb & Hk).
    destruct (kids_perm _ _ Hk) as [Hkp Hki]. rewrite !map_app, !concat_app in Hkp, Hki. exists (kid_items ka ++ kid_items kb). split; [|done]. split; [done|].
    exists (g :: kid_pages ka), (kid_items ka), (s :: kid_pages kb), (kid_items kb). split; [rewrite <- Hkp; solve_Permutation|]. split; [done|].
    split; [by exists ea, ka|by exists eb, kb].
  - destruct Hg as [_ Hn]. exists (kid_items kids). split; [|done]. by exists es, kids.
Qed.

Section Insert.
Context {P : Type} `{PI : PinStore P} (alloc_ok : Z -> bool) (Halloc : forall n, alloc_ok n = true) (bb : tdb_bbox) (payload : Z).
Abbreviation fresh split := (match split with None => [] | Some (s, _) => [s] end).

Lemma grown_evolves p0 q old rest g leaf es split : st_ok p0 (old ++ rest) -> g ∈ old -> pp_page_size q = pp_page_size p0 -> st_room p0 - 1 <= st_room q ->
  (forall x, x ∈ old ++ rest -> st_pins q x = st_pins p0 x) -> (forall x, x ∈ old ++ rest -> x <> g -> st_view q x = st_view p0 x) ->
  grown_node (pp_page_size p0) q (old ++ rest) g leaf es split -> evolves p0 q old (fresh split ++ old) rest 1.
Proof using PI.
  intros Hp Hg Hz Hr HP HV Hgn. split; [destruct split as [[s box]|]; apply Hgn|]. split; [done|]. split; [done|].
  split; [|split; [intros x Hx; apply elem_of_app; by right|done]]. intros x Hx. apply HV; [apply elem_of_app; by right|]. intros ->.
  pose proof (st_nodup _ _ Hp) as Hnd. apply NoDup_app in Hnd as (_ & Hnd & _). by destruct (Hnd g Hg).
Qed.
(** [down] inserts in a tree of height [h]. *)
Definition inserts (h : nat) (down : P -> Z -> option (tdb_status * P * option (Z * tdb_bbox))) : Prop :=
  forall p g pages items rest, st_ok p (pages ++ rest) -> rtree (pp_page_size p) (st_view p) h g pages items -> Z.of_nat h + 1 <= st_room p ->
  exists q split pages' items', down p g = Some (TDB_OK, q, split) /\ evolves p q pages pages' rest (Z.of_nat h + 1)
    /\ grown (pp_page_size p) (st_view q) h g split pages' items' /\ items' ≡ₚ mk_rtent bb payload :: items.

Lemma insert_leaf p p1 g rest items : ent_ok (mk_rtent bb payload) ->
  st_ok p ([g] ++ rest) -> held p p1 ([g] ++ rest) g -> node (pp_page_size p) (st_view p g) true items -> 1 <= st_room p ->
  exists q split pages' items', (let '(rc, p, split) := nd_add_or_split alloc_ok p1 g (mk_rtent bb payload) in Some (rc, pp_unref p g, split)) = Some (TDB_OK, q, split)
    /\ evolves p q [g] pages' rest 1 /\ grown (pp_page_size p) (st_view q) 0 g split pages' items' /\ items' ≡ₚ mk_rtent bb payload :: items.
Proof using All.
  intros He Hp Hh Hn Hroom. pose proof (held_pin _ _ _ _ Hp Hh) as Hpin. pose proof (held_ok _ _ _ _ Hh) as O1. pose proof Hh as [(_ & V1 & R1 & Z1) _].
  assert (pending p1 p1 ([g] ++ rest) g (st_view p g)) as Hpe by (split; [done|]; split; [by left|]; split; [done|]; left; by rewrite V1).
  destruct (add_or_split_ok alloc_ok Halloc p1 p1 _ g _ true items (mk_rtent bb payload) Hpe) as (q & split & E & Zq & Rq & Pq & Vq & Hg); [by rewrite Z1|done|lia|].
  rewrite E. pose proof (grown_evolves p1 q [g] rest g true _ split O1 ltac:(by left) Zq Rq Pq Vq Hg) as Hev.
  destruct (let_go p p1 q g [g] _ rest 1 Hp ltac:(by left) Hh Hev) as [He2 V2]. destruct (grown_leaf _ _ _ _ _ _ Hg) as (its & Hgr & Hits).
  exists (pp_unref q g), split, (fresh split ++ [g]), its. split; [done|]. split; [done|]. split; [|rewrite Hits; solve_Permutation]. rewrite Z1 in Hgr.
  eapply grown_ext; [|exact Hgr]. intros x _. apply V2.
Qed.
(** The child was not split: its box is refreshed. *)
Lemma insert_refresh h p p1 p2 p3 g rest pre kpre e k suf ks pk ik n :
  let pages := g :: kid_pages (kpre ++ k :: ks) in let pages' := g :: kid_pages (kpre ++ (pk, ik) :: ks) in let ps := pp_page_size p in
  st_ok p (pages ++ rest) -> held p p1 (pages ++ rest) g -> node ps (st_view p g) false (pre ++ e :: suf) ->
  forest ps (st_view p) h pre kpre -> forest ps (st_view p) h suf ks -> rtree ps (st_view p2) h (re_pl e) pk ik ->
  evolves p1 p3 pages pages' rest n -> (forall x, st_view p3 x = st_view p2 x) -> (forall x, x = g \/ x ∈ kid_pages kpre \/ x ∈ kid_pages ks -> st_view p2 x = st_view p x) ->
  let q := pp_unref (pp_write (pp_set p3 g (nd_put (st_view p g) (Z.of_nat (length pre)) (mk_rtent (nd_cover (st_view p2 (re_pl e))) (re_pl e)))) g).2 g in
  evolves p q pages pages' rest n /\ rtree ps (st_view q) (S h) g pages' (kid_items (kpre ++ (pk, ik) :: ks)).
Proof using All.
  intros pages pages' ps Hp Hh Hn Hf1 Hf2 Ht He V3 V2 q. pose proof (st_ps p _ Hp) as Hps. destruct (rtree_cover _ _ _ _ _ _ Hps Ht) as (_ & Hc & _).
  pose proof (nd_ents _ _ _ _ Hn) as [_ [[_ Hpl] _]%Forall_cons]%Forall_app.
  pose proof (node_refresh ps _ _ _ _ (mk_rtent (nd_cover (st_view p2 (re_pl e))) (re_pl e)) _ Hn ltac:(done)) as Hn'.
  destruct (close_node p p1 p3 g pages pages' rest n _ Hp ltac:(by left) Hh He (nd_len _ _ _ _ Hn')) as [He5 V5]. fold q in He5, V5. split; [done|].
  pose proof (st_nodup _ _ (evolves_ok _ _ _ _ _ _ He)) as [[Hng _]%NoDup_cons _]%NoDup_app.
  assert (forall x, x ∈ kid_pages (kpre ++ (pk, ik) :: ks) -> st_view q x = st_view p2 x) as V6.
  { intros x Hx. rewrite V5, V3. destruct (Z.eqb_spec x g) as [->|]; done. }
  rewrite map_app, concat_app in V6. cbn [map concat fst] in V6. setoid_rewrite elem_of_app in V6. setoid_rewrite elem_of_app in V6.
  pose proof (rtree_root _ _ _ _ _ _ Ht) as Hroot.
  apply (refresh_node ps (st_view p) _ h g pre kpre e (pk, ik) suf ks (nd_cover (st_view p2 (re_pl e)))); try done.
  - intros x Hx. rewrite V6 by naive_solver. apply V2. by right.
  - eapply rtree_ext; [|exact Ht]. intros x Hx. apply V6. auto.
  - f_equal. symmetry. apply V6. auto.
  - by rewrite V5, Z.eqb_refl.
Qed.
(** The child was split: the new sibling gets an entry. *)
Lemma insert_sibling h p p1 p2 p3 g rest pre kpre e k suf ks pk ik n sib box :
  let pages := g :: kid_pages (kpre ++ k :: ks) in let pages2 := g :: kid_pages (kpre ++ (pk, ik) :: ks) in let ps := pp_page_size p in
  st_ok p (pages ++ rest) -> held p p1 (pages ++ rest) g -> node ps (st_view p g) false (pre ++ e :: suf) ->
  forest ps (st_view p) h pre kpre -> forest ps (st_view p) h suf ks -> grown ps (st_view p2) h (re_pl e) (Some (sib, box)) pk ik ->
  evolves p1 p3 pages pages2 rest n -> (forall x, st_view p3 x = st_view p2 x) -> 0 < st_pins p3 g -> n < st_room p ->
  (forall x, x = g \/ x ∈ kid_pages kpre \/ x ∈ kid_pages ks -> st_view p2 x = st_view p x) ->
  exists q split pages' items', (let '(rc, p, split) := nd_add_or_split alloc_ok
      (pp_set p3 g (nd_put (st_view p g) (Z.of_nat (length pre)) (mk_rtent (nd_cover (st_view p2 (re_pl e))) (re_pl e)))) g (mk_rtent box sib) in
      Some (rc, pp_unref p g, split)) = Some (TDB_OK, q, split)
    /\ evolves p q pages pages' rest (n + 1) /\ grown ps (st_view q) (S h) g split pages' items' /\ items' ≡ₚ kid_items (kpre ++ (pk, ik) :: ks).
Proof using All.
  intros pages pages2 ps Hp Hh Hn Hf1 Hf2 (-> & pa & ia & pb & ib & Hpk & Hik & Ha & Hb) He V3 Hpin Hroom V2. pose proof (st_ps p _ Hp) as Hps.
  destruct (rtree_cover _ _ _ _ _ _ Hps Ha) as (_ & Hca & Hla). destruct (rtree_cover _ _ _ _ _ _ Hps Hb) as (_ & Hcb & Hlb).
  pose proof (nd_ents _ _ _ _ Hn) as [_ [[_ Hpl] _]%Forall_cons]%Forall_app. pose proof He as (O3 & R3 & Z3 & _). pose proof Hh as [(_ & _ & R1 & Z1) _].
  set (e1 := mk_rtent (nd_cover (st_view p2 (re_pl e))) (re_pl e)). set (e2 := mk_rtent (nd_cover (st_view p2 sib)) sib).
  pose proof (node_refresh ps _ _ _ _ e1 _ Hn ltac:(done)) as Hn'. set (d := nd_put _ _ e1) in *.
  set (kids := (kpre ++ (pa, ia) :: ks) ++ [(pb, ib)]).
  assert (kid_pages (kpre ++ (pk, ik) :: ks) ≡ₚ kid_pages kids /\ kid_items (kpre ++ (pk, ik) :: ks) ≡ₚ kid_items kids) as [Hkp Hki]
    by (unfold kids; rewrite !map_app, !concat_app; cbn [map concat fst snd]; rewrite Hpk, Hik; split; solve_Permutation).
  assert (forest ps (st_view p3) h ((pre ++ e1 :: suf) ++ [e2]) kids) as Hfo.
  { assert (forall v k pp, v = st_view p3 -> forest ps (st_view p) h pp k -> (forall x, x ∈ kid_pages k -> x ∈ kid_pages kpre \/ x ∈ kid_pages ks) -> forest ps v h pp k) as Hmv.
    { intros v k0 pp -> Hf0 Hx. eapply forest_ext; [|exact Hf0]. intros x Hin. rewrite V3. apply V2. right. by apply Hx. }
    assert (forall c pgs its, rtree ps (st_view p2) h c pgs its -> rtree ps (st_view p3) h c pgs its) as Hmt by (intros c pgs its Ht; eapply rtree_ext; [|exact Ht]; auto).
    unfold kids. apply Forall2_app; [|constructor; [split; [by apply Hmt|done]|constructor]]. apply Forall2_app; [apply (Hmv _ kpre); auto|].
    constructor; [split; [by apply Hmt|done]|]. apply (Hmv _ ks); auto. }
  assert (0 <= sib < 2 ^ 32) as Hsib.
  { destruct (st_page p3 _ sib O3) as [? _]; [|lia]. apply elem_of_app. left. right. rewrite Hkp. unfold kids. rewrite map_app, concat_app. cbn [map concat fst].
    rewrite !elem_of_app. right. left. by eapply rtree_root. }
  assert (pending p3 (pp_set p3 g d) (pages2 ++ rest) g d) as Hpe by (split; [done|]; split; [by left|]; split; [done|by right]).
  destruct (add_or_split_ok alloc_ok Halloc p3 _ _ g d false (pre ++ e1 :: suf) e2 Hpe) as (q & sp & E & Zq & Rq & Pq & Vq & Hg);
    [by rewrite Z3, Z1|split; [done|cbn [re_pl e2]; lia]|lia|].
  rewrite E. pose proof (grown_evolves p3 q pages2 rest g false _ sp O3 ltac:(by left) Zq Rq Pq Vq Hg) as Hev.
  destruct (let_go p p1 q g pages _ rest (n + 1) Hp ltac:(by left) Hh (evolves_trans _ _ _ _ _ _ _ _ _ He Hev)) as [He5 V5].
  rewrite Z3, Z1 in Hg. destruct (grown_interior ps (st_view p3) q _ h g ((pre ++ e1 :: suf) ++ [e2]) kids sp ltac:(by destruct pre) Hg Hfo) as (its & Hgr & Hits).
  { pose proof (st_nodup _ _ O3) as [[Hng _]%NoDup_cons _]%NoDup_app. intros x Hx. rewrite <- Hkp in Hx. apply Vq; [right; apply elem_of_app; by left|]. by intros ->. }
  exists (pp_unref q g), sp, (fresh sp ++ g :: kid_pages kids), its. split; [done|]. split; [|split; [|by rewrite Hits]].
  - eapply evolves_new; [|exact He5]. unfold pages2. by rewrite Hkp.
  - eapply grown_ext; [|exact Hgr]. intros x _. apply V5.
Qed.
Lemma node_insert_ok fuel h : (h < fuel)%nat -> ent_ok (mk_rtent bb payload) -> inserts h (fun p g => node_insert alloc_ok fuel p g bb payload).
Proof using All.
  intros Hf Hent. revert h Hf. induction fuel as [|fuel IH]; intros h Hf p g pages items rest Hp Ht Hroom; [lia|].
  pose proof (st_ps p _ Hp) as Hps. destruct (fetch p _ g Hp) as (p1 & E & Hh); [apply elem_of_app; left; by eapply rtree_root|].
  cbn [node_insert]. rewrite E. rewrite (held_data p p1 _ g Hp Hh). destruct h as [|h]; cbn [rtree] in Ht.
  { destruct Ht as [-> Hn]. rewrite (node_leaf _ _ _ _ Hn). by apply insert_leaf. }
  destruct Ht as (es & kids & Hn & Hne & Hfo & -> & ->). rewrite (node_leaf _ _ _ _ Hn), (node_entries _ Hps _ _ _ Hn).
  destruct (choose_some es bb Hne (node_boxes _ _ _ _ Hn) (proj1 Hent)) as (i & e & -> & Hi). destruct (Z.ltb_spec (Z.of_nat i) 0); [lia|].
  rewrite (node_get _ _ _ _ i e Hn Hi). apply list_elem_of_split_length in Hi as (pre & suf & -> & ->).
  apply Forall2_app_inv_l in Hfo as (kpre & ks0 & Hf1 & Hf2 & ->). apply Forall2_cons_inv_l in Hf2 as (k & ks & [Hk Hle] & Hf2 & ->).
  assert (st_ok p1 (k.1 ++ g :: kid_pages kpre ++ kid_pages ks ++ rest)) as Hp1 by (eapply st_perm; [apply kid_perm|by eapply held_ok]).
  pose proof (rtree_root _ _ _ _ _ _ Hk) as Hroot. destruct (st_page p1 _ (re_pl e) Hp1) as [Hpl _]; [apply elem_of_app; by left|]. rewrite u32_small by lia.
  pose proof Hh as [(_ & V1 & R1 & Z1) _]. destruct (IH h ltac:(lia) p1 (re_pl e) k.1 k.2 _ Hp1) as (p2 & cs & pk & ik & E2 & He2 & Hg2 & Hi2); [|lia|].
  { rewrite Z1. eapply rtree_ext; [|exact Hk]. intros x _. apply V1. }
  rewrite E2. cbn [mbind option_bind]. rewrite Z1 in Hg2.
  destruct (after_child p p1 p2 g kpre ks k (pk, ik) (re_pl e) rest _ Hp Hh He2 (grown_root _ _ _ _ _ _ _ Hg2)) as (p3 & -> & He3 & V3 & -> & Hpin & V2).
  assert (kid_items (kpre ++ (pk, ik) :: ks) ≡ₚ mk_rtent bb payload :: kid_items (kpre ++ k :: ks)) as Hitems
    by (rewrite !map_app, !concat_app; cbn [map concat snd]; rewrite Hi2; solve_Permutation).
  destruct cs as [[sib box]|].
  - destruct (insert_sibling h p p1 p2 p3 g rest pre kpre e k suf ks pk ik (Z.of_nat h + 1) sib box) as (q & split & pgs & its & Eq & Hev & Hgr & Hits); try done; [lia|].
    exists q, split, pgs, its. split; [done|]. split; [eapply evolves_le; [|done]; lia|]. split; [done|]. by rewrite Hits.
  - destruct (insert_refresh h p p1 p2 p3 g rest pre kpre e k suf ks pk ik (Z.of_nat h + 1)) as [Hev Hgr]; try done.
    eexists _, None, _, _. split; [reflexivity|]. split; [eapply evolves_le; [|done]; lia|]. split; [exact Hgr|done].
Qed.
End Insert.
