(* ===== verification/RtreeSpec.v ===== *)
(** * Correctness of the R-tree

    The tree is a bag of boxes with rowids: [tdb_rtree_create] makes an empty
    one, [tdb_rtree_insert] adds an entry, [tdb_rtree_delete] takes one out,
    [tdb_rtree_search] visits those that intersect a box, [tdb_rtree_destroy]
    gives all pages back.  The theorems are proved against [PinStore], which the
    pager satisfies, for trees of any height, with fuel above the height. *)
From Stdlib Require Import SpecFloat.
From S2P Require Import Prelude Util File Wal WalSpec Value Cnum CnumSpec Geom GeomSpec Pager PagerSpec PagerFree Btree BtreeStore BtreePager PinStore Rtree RtreeBox RtreeNode RtreeTree RtreeSearch RtreeEdit RtreeInsert.

Section Root.
Context {P : Type} `{PI : PinStore P} (alloc_ok : Z -> bool) (Halloc : forall n, alloc_ok n = true).

(** A new page with given bytes, let go at once. *)
Lemma new_page p old rest f : st_ok p (old ++ rest) -> 0 < st_room p -> (forall d, blen d = pp_page_size p -> blen (f d) = pp_page_size p) ->
  exists q a, pp_alloc p = (TDB_OK, q, a) /\ (a ∉ old ++ rest) /\ blen (pp_data q a) = pp_page_size p /\ pp_page_size q = pp_page_size p
    /\ (forall x, x ∈ old ++ rest -> 0 < st_pins p x -> pp_data q x = st_view p x)
    /\ let r := (pp_write (pp_set q a (f (pp_data q a))) a).2 in
       pp_data r a = f (pp_data q a) /\ evolves p (pp_unref r a) old (a :: old) rest 1
       /\ st_view (pp_unref r a) a = f (pp_data q a) /\ forall x, x ∈ old ++ rest -> st_view (pp_unref r a) x = st_view p x.
Proof using PI.
  intros Hp Hroom Hf. destruct (st_alloc p _ Hp Hroom) as (q & a & E & Ha & O1 & _ & R1 & Z1 & V1). destruct (pin_alloc p _ q a Hp Hroom E) as [Pa P1].
  exists q, a. assert (a ∈ a :: old ++ rest) as Hal by (by left). destruct (st_page q _ a O1 Hal) as [_ Hlen].
  assert (pp_data q a = st_view q a) as Ed by (eapply st_data; [done|by eapply pin_pinned]). split; [done|]. split; [done|]. rewrite Ed. split; [lia|]. split; [done|].
  split; [intros x Hx Hpx; rewrite (st_data q _ x O1); [by apply V1|]; eapply pin_pinned; [exact O1|]; by rewrite P1|].
  destruct (write_held q _ a (f (st_view q a)) O1 Hal Pa) as (O2 & R2 & Z2 & V2 & P2); [rewrite Hf; lia|]. set (r := (pp_write _ a).2) in *.
  assert (0 < st_pins r a) as Pr by (by rewrite P2). split; [rewrite (st_data r _ a O2), V2, Z.eqb_refl by (by eapply pin_pinned); done|].
  destruct (st_unref r _ a O2) as (O3 & V3 & R3 & Z3). assert (forall x, x ∈ old ++ rest -> st_view (pp_unref r a) x = st_view p x) as V4.
  { intros x Hx. rewrite V3, V2. destruct (Z.eqb_spec x a) as [->|]; [done|by apply V1]. }
  split; [|split; [by rewrite V3, V2, Z.eqb_refl|done]]. split; [done|]. split; [lia|]. split; [lia|].
  split; [intros x Hx; apply V4, elem_of_app; by right|]. split; [intros x Hx; by right|]. intros x Hx.
  rewrite (pin_unref r _ a x O2 Pr), P2, P1 by done. destruct (Z.eqb_spec x a) as [->|]; [done|lia].
Qed.
Lemma root_split_ok p h root pa ia sib pb ib rest : st_ok p ((pa ++ pb) ++ rest) -> 1 <= st_room p ->
  rtree (pp_page_size p) (st_view p) h root pa ia -> rtree (pp_page_size p) (st_view p) h sib pb ib ->
  exists q pages, root_split p root sib (nd_cover (st_view p sib)) = (TDB_OK, q) /\ evolves p q (pa ++ pb) pages rest 1
    /\ rtree (pp_page_size p) (st_view q) (S h) root pages (ia ++ ib).
Proof using PI.
  intros Hp Hroom Ha Hb. pose proof (st_ps p _ Hp) as Hps. set (ps := pp_page_size p) in *. destruct (rtree_pages _ _ _ _ _ _ Ha) as [tl ->].
  assert (root ∈ ((root :: tl) ++ pb) ++ rest) as Hr by (by left).
  destruct (fetch p _ root Hp Hr) as (p1 & E & Hh). pose proof (held_ok _ _ _ _ Hh) as O1. pose proof (held_pin _ _ _ _ Hp Hh) as Hpin.
  pose proof Hh as [(_ & V1 & R1 & Z1) _]. unfold root_split. rewrite E.
  assert (exists leaf es, node ps (st_view p root) leaf es) as (leaf & es & Hn) by (destruct h; [destruct Ha as [_ Ha]; eauto|destruct Ha as (es & kids & Hn & _); eauto]).
  destruct (new_page p1 ((root :: tl) ++ pb) rest (fun d => bput (bput d 0 (bsub (st_view p root) 0 ps)) 0 [nd_type (st_view p root)]) O1) as
    (q & a & -> & Hna & Hla & Zq & Vq & Hda & He & Va & Vo); [lia|intros d Hd; rewrite (node_copy ps Hps _ d _ _ Hn) by lia; rewrite (nd_len _ _ _ _ Hn); unfold ps; lia|].
  rewrite Z1 in Zq, Hla. fold ps in Zq, Hla. rewrite (Vq root Hr Hpin), V1, Zq. rewrite (node_copy ps Hps _ _ _ _ Hn Hla) in *.
  cbn beta zeta iota. set (r := (pp_write _ a).2) in *. rewrite Hda. set (p4 := pp_unref r a) in *. pose proof He as (O4 & R4 & Z4 & _ & _ & P4).
  assert (pp_data p4 root = st_view p root) as ->.
  { rewrite (st_data p4 _ root O4), Vo, V1; [done|done|]. eapply pin_pinned; [exact O4|]. by rewrite P4. }
  destruct (rtree_cover _ _ _ _ _ _ Hps Ha) as (_ & Hca & Hla'). destruct (rtree_cover _ _ _ _ _ _ Hps Hb) as (_ & Hcb & Hlb).
  destruct (st_page p4 _ a O4) as [Hapg _]; [by left|]. destruct (st_page p _ sib Hp) as [Hspg _]; [apply elem_of_app; left; apply elem_of_app; right; by eapply rtree_root|].
  set (es2 := [mk_rtent (nd_cover (st_view p root)) a; mk_rtent (nd_cover (st_view p sib)) sib]).
  assert (node ps (fill_node (st_view p root) (type_of false) es2) false es2) as Hn2.
  { apply node_fill; [done|apply (nd_len _ _ _ _ Hn)|pose proof (cap_bounds ps Hps); cbn; lia|]. constructor; [split; [done|cbn; lia]|]. constructor; [split; [done|cbn; lia]|constructor]. }
  destruct (close_node p p1 p4 root _ _ rest 1 _ Hp ltac:(by left) Hh He (nd_len _ _ _ _ Hn2)) as [He5 V5]. eexists _, (root :: kid_pages [(a :: tl, ia); (pb, ib)]).
  split; [reflexivity|]. split; [eapply evolves_new; [|exact He5]; cbn [map concat fst]; solve_Permutation|].
  set (v := st_view (pp_unref _ root)) in *. assert (forall x, x ∈ (tl ++ pb) -> v x = st_view p x) as Vt.
  { intros x Hx. unfold v. rewrite V5. destruct (Z.eqb_spec x root) as [->|]; [pose proof (st_nodup _ _ Hp) as [[Hng _]%(NoDup_cons root (tl ++ pb)) _]%NoDup_app; by destruct Hng|].
    rewrite Vo; [apply V1|]. right. apply elem_of_app. by left. }
  assert (a <> root) as Hne by (intros ->; done).
  exists es2, [(a :: tl, ia); (pb, ib)]. split; [unfold v; by rewrite V5, Z.eqb_refl|]. split; [done|]. split; [|split; [done|]; cbn [map concat snd]; by rewrite app_nil_r].
  constructor; [|constructor; [|constructor]]; (split; [|done]); cbn [fst snd re_pl].
  - eapply rtree_move; [| |exact Ha]; [unfold v; rewrite V5; destruct (Z.eqb_spec a root); [done|]; by rewrite Va|]. intros x Hx. apply Vt, elem_of_app. by left.
  - eapply rtree_ext; [|exact Hb]. intros x Hx. apply Vt, elem_of_app. by right.
Qed.
Lemma rtree_create_ok p rest : st_ok p rest -> 0 < st_room p ->
  exists q g, tdb_rtree_create p = (TDB_OK, q, g) /\ evolves p q [] [g] rest 1 /\ rtree (pp_page_size p) (st_view q) 0 g [g] [].
Proof using PI.
  intros Hp Hroom. pose proof (st_ps p _ Hp) as Hps.
  destruct (new_page p [] rest (fun d => nd_init d TDB_PAGE_RTREE_LEAF) Hp Hroom) as (q & g & E & _ & Hl & _ & _ & _ & He & Vg & _).
  { intros d Hd. apply (nd_len _ _ _ _ (node_empty _ Hps d Hd)). }
  unfold tdb_rtree_create. rewrite E. eexists _, g. split; [reflexivity|]. split; [done|]. split; [done|]. rewrite Vg. by apply node_empty.
Qed.
Lemma rtree_insert_ok fuel p root h pages items rest bb rowid :
  (h < fuel)%nat -> ent_ok (mk_rtent bb rowid) -> st_ok p (pages ++ rest) -> rtree (pp_page_size p) (st_view p) h root pages items -> Z.of_nat h + 2 <= st_room p ->
  exists q h' pages' items', tdb_rtree_insert alloc_ok fuel p root bb rowid = Some (TDB_OK, q) /\ (h <= h' <= S h)%nat
    /\ evolves p q pages pages' rest (Z.of_nat h + 2) /\ rtree (pp_page_size p) (st_view q) h' root pages' items' /\ items' ≡ₚ mk_rtent bb rowid :: items.
Proof using All.
  intros Hf He Hp Ht Hroom. destruct (node_insert_ok alloc_ok Halloc bb rowid fuel h Hf He p root pages items rest Hp Ht) as (q & split & pgs & its & E & Hev & Hg & Hi); [lia|].
  unfold tdb_rtree_insert. rewrite E. cbn [mbind option_bind]. destruct split as [[sib box]|]; cbn [grown] in Hg.
  - destruct Hg as (-> & pa & ia & pb & ib & Hpg & Hit & Ha & Hb). apply (evolves_new _ _ _ _ _ _ _ Hpg) in Hev. pose proof Hev as (O1 & R1 & Z1 & _). rewrite <- Z1 in Ha, Hb.
    destruct (root_split_ok q h root pa ia sib pb ib rest O1) as (r & pgs' & -> & Hev2 & Ht2); [lia|done|done|]. exists r, (S h), pgs', (ia ++ ib).
    split; [done|]. split; [lia|]. split; [eapply evolves_le; [|by eapply evolves_trans]; lia|]. rewrite Z1 in Ht2. split; [done|]. by rewrite <- Hit.
  - exists q, h, pgs, its. split; [done|]. split; [lia|]. split; [eapply evolves_le; [|done]; lia|done].
Qed.

(** Destroying a tree gives its pages back. *)
Definition frees (p q : P) (rest : list Z) : Prop :=
  st_ok q rest /\ st_room q = st_room p /\ pp_page_size q = pp_page_size p /\ forall x, x ∈ rest -> st_view q x = st_view p x.
Lemma destroy_list_ok (down : P -> Z -> option (tdb_status * P)) h p es kids rest :
  (forall p g pages items rest, st_ok p (pages ++ rest) -> rtree (pp_page_size p) (st_view p) h g pages items -> exists q, down p g = Some (TDB_OK, q) /\ frees p q rest) ->
  st_ok p (kid_pages kids ++ rest) -> forest (pp_page_size p) (st_view p) h es kids ->
  exists q, destroy_list down (map (fun e => u32 (re_pl e)) es) p = Some (TDB_OK, q) /\ frees p q rest.
Proof using PI.
  intros Hdown Hp Hf. revert p Hp Hf. revert kids. induction es as [|e es IH]; intros kids p Hp Hf; inversion Hf as [|? k ? ks [Hk _] Hf']; subst; cbn [map concat destroy_list] in *.
  { exists p. by repeat split. }
  rewrite <- app_assoc in Hp. destruct (st_page p _ (re_pl e) Hp) as [Hpl _]; [apply elem_of_app; left; by eapply rtree_root|]. rewrite u32_small by lia.
  destruct (Hdown p (re_pl e) k.1 k.2 (kid_pages ks ++ rest) Hp Hk) as (q & -> & O1 & R1 & Z1 & V1). cbn [mbind option_bind].
  destruct (IH ks q O1) as (r & E & O2 & R2 & Z2 & V2); [rewrite Z1; eapply forest_ext; [|exact Hf']; intros x Hx; apply V1, elem_of_app; by left|].
  exists r. split; [done|]. split; [done|]. split; [lia|]. split; [lia|]. intros x Hx. rewrite V2 by done. apply V1, elem_of_app. by right.
Qed.
Lemma rtree_destroy_ok fuel h : (h < fuel)%nat -> forall p g pages items rest, st_ok p (pages ++ rest) -> rtree (pp_page_size p) (st_view p) h g pages items ->
  exists q, tdb_rtree_destroy fuel p g = Some (TDB_OK, q) /\ frees p q rest.
Proof using PI.
  unfold tdb_rtree_destroy. revert h. induction fuel as [|fuel IH]; intros h Hf p g pages items rest Hp Ht; [lia|].
  pose proof (st_ps p _ Hp) as Hps. destruct (fetch p _ g Hp) as (p1 & E & Hh); [apply elem_of_app; left; by eapply rtree_root|].
  cbn [node_destroy]. rewrite E. rewrite (held_data p p1 _ g Hp Hh). destruct (release _ _ _ _ Hp Hh) as [(O1 & V1 & R1 & Z1) _].
  assert (exists q, (r ← destroy_list (node_destroy fuel) (if nd_is_leaf (st_view p g) then [] else map (fun e => u32 (re_pl e)) (nd_entries (st_view p g))) (pp_unref p1 g);
    match r with (TDB_OK, p) => Some (pp_free p g) | r => Some r end) = Some (pp_free q g) /\ frees p q (g :: rest)) as (q & Eq & O2 & R2 & Z2 & V2).
  { destruct h as [|h]; cbn [rtree] in Ht.
    - destruct Ht as [-> Hn]. rewrite (node_leaf _ _ _ _ Hn). eexists. split; [reflexivity|]. by repeat split.
    - destruct Ht as (es & kids & Hn & _ & Hfo & -> & _). rewrite (node_leaf _ _ _ _ Hn), (node_entries _ Hps _ _ _ Hn).
      destruct (destroy_list_ok (node_destroy fuel) h (pp_unref p1 g) es kids (g :: rest)) as (q & -> & O2 & R2 & Z2 & V2).
      + intros p' g' pgs' its' rest' Hp' Ht'. apply (IH h ltac:(lia) p' g' pgs' its' rest' Hp' Ht').
      + eapply st_perm; [|exact O1]. cbn [app]. solve_Permutation.
      + rewrite Z1. eapply forest_ext; [|exact Hfo]. intros x _. apply V1.
      + exists q. split; [done|]. split; [done|]. split; [lia|]. split; [lia|]. intros x Hx. by rewrite V2, V1. }
  rewrite Eq. destruct (st_free q rest g O2) as (r & -> & O3 & R3 & Z3 & V3). exists r. split; [done|]. split; [done|]. split; [lia|]. split; [lia|].
  intros x Hx. rewrite V3 by done. apply V2. by right.
Qed.
End Root.

(** ** The tree is a bag *)

Inductive rt_op := RtInsert (bb : tdb_bbox) (rowid : Z) | RtDelete (bb : tdb_bbox) (rowid : Z).
Definition rt_op_ok (o : rt_op) : Prop := match o with RtInsert bb rowid => ent_ok (mk_rtent bb rowid) | RtDelete _ _ => True end.

(** What an operation does to a bag of entries; the flag is [*found]. *)
Inductive bag_step : rt_op -> list rtent -> bool -> list rtent -> Prop :=
| bag_insert bb rowid items items' : items' ≡ₚ mk_rtent bb rowid :: items -> bag_step (RtInsert bb rowid) items false items'
| bag_delete bb rowid items items' : removed rowid items items' -> bag_step (RtDelete bb rowid) items true items'
| bag_keep bb rowid items : absent rowid bb items -> bag_step (RtDelete bb rowid) items false items.
Inductive bag_run : list rt_op -> list rtent -> list bool -> list rtent -> Prop :=
| bag_nil items : bag_run [] items [] items
| bag_cons o ops items found items1 fs items2 : bag_step o items found items1 -> bag_run ops items1 fs items2 -> bag_run (o :: ops) items (found :: fs) items2.

Section Bag.
Context {P : Type} `{PI : PinStore P} (alloc_ok : Z -> bool) (Halloc : forall n, alloc_ok n = true).

Definition rt_do (fuel : nat) (p : P) (root : Z) (o : rt_op) : option (tdb_status * P * bool) :=
  match o with
  | RtInsert bb rowid => r ← tdb_rtree_insert alloc_ok fuel p root bb rowid; Some (r.1, r.2, false)
  | RtDelete bb rowid => tdb_rtree_delete fuel p root bb rowid
  end.
(** The operations one after the other, until one fails. *)
Fixpoint rt_run (fuel : nat) (p : P) (root : Z) (ops : list rt_op) : option (tdb_status * P * list bool) :=
  match ops with
  | [] => Some (TDB_OK, p, [])
  | o :: ops =>
      r ← rt_do fuel p root o;
      match r with
      | (TDB_OK, p, found) => r ← rt_run fuel p root ops; Some (r.1, found :: r.2)
      | (rc, p, found) => Some (rc, p, [found])
      end
  end.

Lemma rt_do_ok fuel p root h pages items rest o :
  rt_op_ok o -> (h < fuel)%nat -> st_ok p (pages ++ rest) -> rtree (pp_page_size p) (st_view p) h root pages items -> Z.of_nat h + 2 <= st_room p ->
  exists q found h' pages' items', rt_do fuel p root o = Some (TDB_OK, q, found) /\ (h' <= S h)%nat /\ evolves p q pages pages' rest (Z.of_nat h + 2)
    /\ rtree (pp_page_size p) (st_view q) h' root pages' items' /\ bag_step o items found items'.
Proof using All.
  intros Ho Hf Hp Ht Hroom. destruct o as [bb rowid|bb rowid]; cbn [rt_do].
  - destruct (rtree_insert_ok alloc_ok Halloc fuel p root h pages items rest bb rowid Hf Ho Hp Ht Hroom) as (q & h' & pgs & its & E & Hh & Hev & Ht' & Hi).
    rewrite E. exists q, false, h', pgs, its. split; [done|]. split; [lia|]. split; [done|]. split; [done|]. by constructor.
  - destruct (node_delete_ok bb rowid fuel h Hf p root pages items rest Hp Ht) as (q & found & E & Hres). destruct found.
    + destruct Hres as (its & Hev & Ht' & Hrem). exists q, true, h, pages, its. split; [done|]. split; [lia|]. split; [eapply evolves_le; [|done]; lia|]. split; [done|]. by constructor.
    + destruct Hres as [Hq Habs]. exists q, false, h, pages, items. split; [done|]. split; [lia|].
      split; [eapply evolves_quiet; [apply evolves_refl; [lia|done]|done]|]. split; [|by constructor]. eapply rtree_ext; [|exact Ht]. intros x _. apply Hq.
Qed.
Lemma rt_run_ok fuel n ops p root h pages items rest :
  Forall rt_op_ok ops -> (h + length ops <= n)%nat -> (n < fuel)%nat -> st_ok p (pages ++ rest) -> rtree (pp_page_size p) (st_view p) h root pages items ->
  Z.of_nat (length ops) * (Z.of_nat n + 2) <= st_room p ->
  exists q found h' pages' items', rt_run fuel p root ops = Some (TDB_OK, q, found) /\ (h' <= n)%nat /\ st_ok q (pages' ++ rest)
    /\ (forall x, x ∈ rest -> st_view q x = st_view p x) /\ rtree (pp_page_size p) (st_view q) h' root pages' items' /\ bag_run ops items found items'.
Proof using All.
  intros Hops. revert p h pages items. induction Hops as [|o ops Ho Hops IH]; intros p h pages items Hn Hf Hp Ht Hroom; cbn [rt_run length] in *.
  - exists p, [], h, pages, items. split; [done|]. split; [lia|]. split; [done|]. split; [done|]. split; [done|constructor].
  - destruct (rt_do_ok fuel p root h pages items rest o Ho ltac:(lia) Hp Ht) as (q & found & h1 & pgs & its & E & Hh & Hev & Ht' & Hst); [nia|].
    rewrite E. cbn [mbind option_bind]. destruct Hev as (O1 & R1 & Z1 & V1 & _).
    destruct (IH q h1 pgs its) as (r & fs & h2 & pgs2 & its2 & E2 & Hh2 & O2 & V2 & Ht2 & Hrun); [lia|done|done|by rewrite Z1|nia|].
    rewrite E2. exists r, (found :: fs), h2, pgs2, its2. split; [done|]. split; [done|]. split; [done|].
    split; [intros x Hx; by rewrite V2, V1|]. rewrite <- Z1. split; [done|]. by econstructor.
Qed.

(** C13. Any sequence of insertions and deletions on a tree succeeds and does to
    the bag of its entries what [bag_step] says, whatever the nodes that split on
    the way: an insertion adds its entry; a deletion that reports success takes
    out one entry with the rowid, and one that does not leaves a tree in which no
    entry with the rowid intersects the box.  The root keeps its page, the pages of
    others keep their contents, and the boxes above cover what is below.
    Coordinates are below 2{^480}, and pages can be allocated. *)
Theorem rtree_refines_bag fuel p root h pages items rest ops :
  Forall rt_op_ok ops -> (h + length ops < fuel)%nat -> st_ok p (pages ++ rest) -> rtree (pp_page_size p) (st_view p) h root pages items ->
  Z.of_nat (length ops) * (Z.of_nat (h + length ops) + 2) <= st_room p ->
  exists q found h' pages' items', rt_run fuel p root ops = Some (TDB_OK, q, found) /\ bag_run ops items found items'
    /\ st_ok q (pages' ++ rest) /\ rtree (pp_page_size p) (st_view q) h' root pages' items' /\ forall x, x ∈ rest -> st_view q x = st_view p x.
Proof using All.
  intros Hops Hf Hp Ht Hroom.
  destruct (rt_run_ok fuel (h + length ops) ops p root h pages items rest Hops (le_n _) Hf Hp Ht Hroom) as (q & found & h' & pgs & its & E & _ & O & V & Ht' & Hrun).
  by exists q, found, h', pgs, its.
Qed.
(** C14. A search shows the callback the rowids of exactly the stored boxes that
    intersect the query, in the order of the leaves, until the callback stops it,
    and returns what the callback returned; a subtree whose box misses the query
    is not read, and holds no hit.  Pages and pins are as before. *)
Theorem rtree_search_exact {S} fuel p root h pages items rest qb (cb : S -> Z -> tdb_status * S) s :
  (h < fuel)%nat -> st_ok p (pages ++ rest) -> rtree (pp_page_size p) (st_view p) h root pages items ->
  exists q, tdb_rtree_search fuel p root qb cb s = Some ((visit cb s (hits qb items)).1, q, (visit cb s (hits qb items)).2) /\ quiet p q (pages ++ rest).
Proof using PI. intros Hf Hp Ht. by apply (node_search_ok cb qb fuel h Hf p root pages items rest s). Qed.
End Bag.

(** ** An R-tree in a fresh memory database with 512-byte pages *)

#[local] Instance rdemo_vfs : Vfs mem_handle := mem_vfs ok_alloc.
#[local] Instance rdemo_laws : VfsLaws mem_handle := mem_vfs_laws ok_alloc.
#[local] Instance rdemo_pages : PagerPages (tdb_pager mem_handle) := pager_pages None ok_alloc.
#[local] Instance rdemo_view : StoreView (tdb_pager mem_handle) := pager_view None ok_alloc.
#[local] Instance rdemo_store : PageStore (tdb_pager mem_handle) := pager_store_laws None ok_alloc (fun _ => eq_refl).
#[local] Instance rdemo_pins : PinView (tdb_pager mem_handle) := pager_pins.
#[local] Instance rdemo_pin_store : PinStore (tdb_pager mem_handle) := pager_pin_store None ok_alloc (fun _ => eq_refl).

Definition dbl (z : Z) : spec_float := f64_of_dec z 0.
Definition demo_box (x y : Z) : tdb_bbox := mk_bbox (dbl x) (dbl y) (dbl (x + 1)) (dbl (y + 1)).
(** Fourteen boxes along a diagonal: more than a node holds. *)
Definition demo_ops : list rt_op := map (fun i => RtInsert (demo_box (3 * i) (5 * i)) i) (seqZ 1 14) ++ [RtDelete (demo_box 9 15) 3].
Lemma demo_ops_ok : Forall rt_op_ok demo_ops.
Proof.
  apply Forall_app. split; [|by repeat constructor]. apply Forall_map. change (seqZ 1 14) with [1; 2; 3; 4; 5; 6; 7; 8; 9; 10; 11; 12; 13; 14].
  repeat (constructor; [vm_compute; repeat split; discriminate|]). constructor.
Qed.
Lemma demo_tree w : pager_ok None ok_alloc (demo_fresh w) -> exists p root, tdb_rtree_create (demo_fresh w) = (TDB_OK, p, root)
  /\ st_ok p ([root] ++ []) /\ pp_page_size p = 512 /\ 2 ^ 31 - 3 <= st_room p /\ rtree 512 (st_view p) 0 root [root] [].
Proof.
  intros Hp. assert (st_ok (demo_fresh w) []) as Hok by exact (demo_fl_inv w Hp). destruct (rtree_create_ok (demo_fresh w) [] Hok) as (p & root & E & (O & R & Z & _) & Ht); [cbn; lia|].
  exists p, root. split; [exact E|]. split; [exact O|]. split; [exact Z|]. split; [|exact Ht]. cbn in R |- *. lia.
Qed.
Lemma rtree_refines_bag_witness : exists w p root, tdb_rtree_create (demo_fresh w) = (TDB_OK, p, root)
  /\ exists q found h' pages' items', rt_run ok_alloc 16 p root demo_ops = Some (TDB_OK, q, found) /\ bag_run demo_ops [] found items'
    /\ rtree 512 (st_view q) h' root pages' items'.
Proof.
  destruct demo_fresh_ok as (w & _ & _ & Hp). destruct (demo_tree w Hp) as (p & root & E & O & Z & R & Ht). exists w, p, root. split; [exact E|].
  destruct (rtree_refines_bag ok_alloc (fun _ => eq_refl) 16 p root 0 [root] [] [] demo_ops demo_ops_ok) as (q & found & h' & pgs & its & Er & Hr & _ & Ht' & _).
  - vm_compute. lia.
  - exact O.
  - rewrite Z. exact Ht.
  - change (length demo_ops) with 15%nat. lia.
  - exists q, found, h', pgs, its. split; [exact Er|]. split; [exact Hr|]. rewrite Z in Ht'. exact Ht'.
Defined.
(** The same run evaluated: the root is split, the entry is found, and a search
    along the diagonal finds the others. *)
Definition demo_rt_pager : tdb_pager mem_handle := fresh_pager mem_open (wal_init None mem_open 512) false 512 (new_header 512).
Lemma demo_rt_evaluates :
  let '(_, p, root) := tdb_rtree_create demo_rt_pager in
  match rt_run ok_alloc 16 p root demo_ops with
  | Some (rc, q, found) =>
      (rc, nd_is_leaf (page_data (tdb_pager_get None ok_alloc q root).2 root), last found,
       option_map snd (tdb_rtree_search 16 q root (mk_bbox (dbl 0) (dbl 0) (dbl 20) (dbl 30)) (fun s r => (TDB_OK, s ++ [r])) []))
      = (TDB_OK, false, Some true, Some [1; 2; 4; 5; 6])
  | None => False
  end.
Proof. vm_compute. reflexivity. Qed.
Lemma rtree_search_exact_witness : exists w p root p' q, tdb_rtree_create (demo_fresh w) = (TDB_OK, p, root)
  /\ tdb_rtree_insert ok_alloc 2 p root (demo_box 4 4) 7 = Some (TDB_OK, p')
  /\ tdb_rtree_search 2 p' root (demo_box 5 5) (fun s r => (TDB_OK, s ++ [r])) [] = Some (TDB_OK, q, [7]).
Proof.
  destruct demo_fresh_ok as (w & _ & _ & Hp). destruct (demo_tree w Hp) as (p & root & E & O & Z & R & Ht).
  destruct (rtree_insert_ok ok_alloc (fun _ => eq_refl) 2 p root 0 [root] [] [] (demo_box 4 4) 7) as (p' & h & pgs & its & Ei & Hh & (O' & _ & Z' & _) & Ht' & Hi);
    [lia|vm_compute; repeat split; discriminate|exact O|rewrite Z; exact Ht|lia|]. apply Permutation_singleton_r in Hi as ->.
  destruct (rtree_search_exact 2 p' root h pgs [mk_rtent (demo_box 4 4) 7] [] (demo_box 5 5) (fun s r => (TDB_OK, s ++ [r])) []) as (q & Es & Hq);
    [lia|exact O'|rewrite Z'; exact Ht'|].
  exists w, p, root, p', q. split; [exact E|]. split; [exact Ei|exact Es].
Defined.
