(* ===== verification/Schema.v ===== *)
(** * Schema objects (src/src/catalog/tdb_schema.[ch])

    Columns, indexes, foreign keys and tables as the catalog keeps them in
    memory.  An array and its count are one list; [tdb_table_free] and the
    other destructors only release memory and are not part of the model. *)
From S2P Require Import Prelude Util Buf Value.

Inductive tdb_typeid :=
| TDB_T_UNKNOWN | TDB_T_BOOLEAN | TDB_T_TINYINT | TDB_T_SMALLINT | TDB_T_INTEGER | TDB_T_BIGINT | TDB_T_DECIMAL
| TDB_T_REAL | TDB_T_DOUBLE | TDB_T_CHAR | TDB_T_VARCHAR | TDB_T_TEXT | TDB_T_BINARY | TDB_T_VARBINARY | TDB_T_BLOB
| TDB_T_DATE | TDB_T_TIME | TDB_T_TIMESTAMP | TDB_T_BIT | TDB_T_VARBIT | TDB_T_JSON | TDB_T_XML | TDB_T_UUID
| TDB_T_INTERVAL | TDB_T_GEOMETRY | TDB_T_POINT | TDB_T_GEOGRAPHY | TDB_T_COMPOSITE.
Record tdb_typespec := mk_typespec { ty_id : tdb_typeid; ty_length : Z; ty_precision : Z; ty_scale : Z }.

Record tdb_colref := mk_colref { cr_table : cstring; cr_column : cstring }.
Inductive tdb_generated_kind := TDB_GEN_NONE | TDB_GEN_VIRTUAL | TDB_GEN_STORED.

Record tdb_column := mk_column {
  col_name : cstring;
  col_type : tdb_typespec;
  col_coll : tdb_collation;
  col_notnull : bool;
  col_pk : bool;
  col_unique : bool;
  col_hidden : bool;
  col_default_sql : cstring;
  col_check_sql : cstring;
  col_generated : tdb_generated_kind;
  col_generated_sql : cstring;
  col_lua_compute : cstring;
  col_refs : list tdb_colref }.

Record tdb_fkey := mk_fkey {
  fk_name : cstring;
  fk_cols : list cstring;
  fk_ref_table : cstring;
  fk_ref_cols : list cstring;
  fk_on_delete : Z;
  fk_on_update : Z }.

Inductive tdb_index_kind := TDB_IDX_BTREE | TDB_IDX_RTREE.
(** [ncol] is the length of [ix_col_idx]. *)
Record tdb_index := mk_index {
  ix_name : cstring;
  ix_root : Z;
  ix_unique : bool;
  ix_col_idx : list Z;
  ix_desc : option (list bool);
  ix_kind : tdb_index_kind }.

Record tdb_collayout := mk_collayout {
  cl_schema_version : Z;
  cl_names : list cstring;
  cl_types : list tdb_typespec }.
Inductive tdb_versioning := TDB_VERSIONING_NONE | TDB_VERSIONING_SYSTEM.

Record tdb_table := mk_table {
  tb_name : cstring;
  tb_root : Z;
  tb_cols : list tdb_column;
  tb_indexes : list tdb_index;
  tb_fkeys : list tdb_fkey;
  tb_check_sql : cstring;
  tb_schema_version : Z;
  tb_history : list tdb_collayout;
  tb_versioning : tdb_versioning;
  tb_row_start_col : Z;
  tb_row_end_col : Z;
  tb_history_root : Z;
  tb_columnar : bool;
  tb_col_roots : list Z;
  tb_before_insert_lua : cstring;
  tb_before_update_lua : cstring;
  tb_before_delete_lua : cstring;
  tb_tablespace : cstring;
  tb_compression : cstring;
  tb_partition_kind : Z;
  tb_partition_cols : list cstring;
  tb_partition_count : Z }.

(** Assignments to the fields the storage engine and the DDL change. *)
Definition tset_roots (t : tdb_table) (root history_root : Z) : tdb_table :=
  mk_table (tb_name t) root (tb_cols t) (tb_indexes t) (tb_fkeys t) (tb_check_sql t) (tb_schema_version t)
    (tb_history t) (tb_versioning t) (tb_row_start_col t) (tb_row_end_col t) history_root (tb_columnar t)
    (tb_col_roots t) (tb_before_insert_lua t) (tb_before_update_lua t) (tb_before_delete_lua t) (tb_tablespace t)
    (tb_compression t) (tb_partition_kind t) (tb_partition_cols t) (tb_partition_count t).
Definition tset_cols (t : tdb_table) (cols : list tdb_column) (indexes : list tdb_index) (row_start row_end : Z) : tdb_table :=
  mk_table (tb_name t) (tb_root t) cols indexes (tb_fkeys t) (tb_check_sql t) (tb_schema_version t)
    (tb_history t) (tb_versioning t) row_start row_end (tb_history_root t) (tb_columnar t)
    (tb_col_roots t) (tb_before_insert_lua t) (tb_before_update_lua t) (tb_before_delete_lua t) (tb_tablespace t)
    (tb_compression t) (tb_partition_kind t) (tb_partition_cols t) (tb_partition_count t).
Definition iset_root (ix : tdb_index) (root : Z) : tdb_index :=
  mk_index (ix_name ix) root (ix_unique ix) (ix_col_idx ix) (ix_desc ix) (ix_kind ix).
Definition iset_col_idx (ix : tdb_index) (l : list Z) : tdb_index :=
  mk_index (ix_name ix) (ix_root ix) (ix_unique ix) l (ix_desc ix) (ix_kind ix).

Section Schema.
Context (alloc_ok : Z -> bool).

Definition tdb_column_init (name : cstring) (ts : tdb_typespec) : tdb_column :=
  mk_column (tdb_strdup alloc_ok name) ts TDB_COLL_BINARY false false false false None None TDB_GEN_NONE None None [].

(** [sizeof(tdb_table)] is 184, [sizeof(tdb_column)] is 104. *)
Definition tdb_table_new (name : cstring) : option tdb_table :=
  if alloc_ok 184 then
    Some (mk_table (tdb_strdup alloc_ok name) 0 [] [] [] None 0 [] TDB_VERSIONING_NONE (-1) (-1) 0 false []
            None None None None None 0 [] 0)
  else None.

Definition tdb_table_add_column (t : tdb_table) (col : tdb_column) : tdb_status * tdb_table :=
  if alloc_ok (104 * (Z.of_nat (length (tb_cols t)) + 1))
  then (TDB_OK, tset_cols t (tb_cols t ++ [col]) (tb_indexes t) (tb_row_start_col t) (tb_row_end_col t))
  else (TDB_NOMEM, t).

(** A column number after column [ci] is gone. *)
Definition shift_col (ci k : Z) : Z := if ci <? k then k - 1 else k.
Definition tdb_table_drop_column (t : tdb_table) (ci : Z) : tdb_status * tdb_table :=
  if (ci <? 0) || (Z.of_nat (length (tb_cols t)) <=? ci) then (TDB_NOTFOUND, t)
  else
    (TDB_OK, tset_cols t (delete (Z.to_nat ci) (tb_cols t))
               (map (fun ix => iset_col_idx ix (map (shift_col ci) (ix_col_idx ix))) (tb_indexes t))
               (shift_col ci (tb_row_start_col t)) (shift_col ci (tb_row_end_col t))).

Fixpoint find_column (cols : list tdb_column) (name : list Z) (i : Z) : Z :=
  match cols with
  | [] => -1
  | c :: cols =>
      if match col_name c with Some n => strcasecmp n name =? 0 | None => false end then i
      else find_column cols name (i + 1)
  end.
Definition tdb_table_find_column (t : tdb_table) (name : list Z) : Z := find_column (tb_cols t) name 0.

Definition tdb_table_drop_index (t : tdb_table) (pos : Z) : tdb_status * tdb_table :=
  if (pos <? 0) || (Z.of_nat (length (tb_indexes t)) <=? pos) then (TDB_NOTFOUND, t)
  else (TDB_OK, tset_cols t (tb_cols t) (delete (Z.to_nat pos) (tb_indexes t)) (tb_row_start_col t) (tb_row_end_col t)).
End Schema.

(** After DROP COLUMN the column numbers kept by indexes and period columns
    name the same columns as before. *)
Lemma drop_column_keeps t ci t' k :
  tdb_table_drop_column t ci = (TDB_OK, t') -> 0 <= k -> k <> ci ->
  tb_cols t' !! Z.to_nat (shift_col ci k) = tb_cols t !! Z.to_nat k.
Proof.
  unfold tdb_table_drop_column. destruct (Z.ltb_spec ci 0); [done|]. destruct (Z.leb_spec (Z.of_nat (length (tb_cols t))) ci); [done|].
  intros [= <-] Hk Hne. cbn [tset_cols tb_cols]. unfold shift_col. destruct (Z.ltb_spec ci k).
  - rewrite list_lookup_delete_ge by lia. f_equal. lia.
  - apply list_lookup_delete_lt. lia.
Qed.
