(* ===== verification/Sqltype.v ===== *)
(** * Declared SQL types (src/src/value/tdb_sqltype.c)

    Parsing of a declared type, the canonical names, and the storage class of
    a type. *)
From S2P Require Import Prelude Util Value Schema.

(** ** Names *)

Definition k_aliases : list (list Z * tdb_typeid) :=
  map (fun a : string * tdb_typeid => (str a.1, a.2))
  [("BOOLEAN", TDB_T_BOOLEAN); ("BOOL", TDB_T_BOOLEAN); ("TINYINT", TDB_T_TINYINT);
   ("SMALLINT", TDB_T_SMALLINT); ("INT2", TDB_T_SMALLINT); ("BIGINT", TDB_T_BIGINT); ("INT8", TDB_T_BIGINT);
   ("INTERVAL", TDB_T_INTERVAL); ("INTEGER", TDB_T_INTEGER); ("INT4", TDB_T_INTEGER); ("INT", TDB_T_INTEGER);
   ("DECIMAL", TDB_T_DECIMAL); ("NUMERIC", TDB_T_DECIMAL); ("NUMBER", TDB_T_DECIMAL);
   ("DOUBLE", TDB_T_DOUBLE); ("FLOAT8", TDB_T_DOUBLE);
   ("REAL", TDB_T_REAL); ("FLOAT", TDB_T_REAL); ("FLOAT4", TDB_T_REAL);
   ("VARCHAR", TDB_T_VARCHAR); ("NVARCHAR", TDB_T_VARCHAR); ("VARCHAR2", TDB_T_VARCHAR);
   ("CHARACTER VARYING", TDB_T_VARCHAR);
   ("NCHAR", TDB_T_CHAR); ("CHAR", TDB_T_CHAR); ("CHARACTER", TDB_T_CHAR);
   ("CLOB", TDB_T_TEXT); ("TEXT", TDB_T_TEXT); ("STRING", TDB_T_TEXT);
   ("VARBINARY", TDB_T_VARBINARY); ("BYTEA", TDB_T_VARBINARY); ("BINARY", TDB_T_BINARY);
   ("BLOB", TDB_T_BLOB); ("RAW", TDB_T_BLOB);
   ("TIMESTAMP", TDB_T_TIMESTAMP); ("DATETIME", TDB_T_TIMESTAMP); ("DATE", TDB_T_DATE); ("TIME", TDB_T_TIME);
   ("JSON", TDB_T_JSON); ("JSONB", TDB_T_JSON); ("XML", TDB_T_XML);
   ("BIT VARYING", TDB_T_VARBIT); ("VARBIT", TDB_T_VARBIT); ("BIT", TDB_T_BIT);
   ("UUID", TDB_T_UUID); ("GUID", TDB_T_UUID); ("GEOMETRY", TDB_T_GEOMETRY); ("GEOM", TDB_T_GEOMETRY);
   ("POINT", TDB_T_POINT); ("GEOGRAPHY", TDB_T_GEOGRAPHY); ("GEOG", TDB_T_GEOGRAPHY);
   ("COMPOSITE", TDB_T_COMPOSITE); ("STRUCT", TDB_T_COMPOSITE); ("ROW", TDB_T_COMPOSITE)].

Definition tdb_typeid_name (id : tdb_typeid) : list Z :=
  str (match id with
       | TDB_T_BOOLEAN => "BOOLEAN" | TDB_T_TINYINT => "TINYINT" | TDB_T_SMALLINT => "SMALLINT"
       | TDB_T_INTEGER => "INTEGER" | TDB_T_BIGINT => "BIGINT" | TDB_T_DECIMAL => "DECIMAL"
       | TDB_T_REAL => "REAL" | TDB_T_DOUBLE => "DOUBLE" | TDB_T_CHAR => "CHAR" | TDB_T_VARCHAR => "VARCHAR"
       | TDB_T_TEXT => "TEXT" | TDB_T_BINARY => "BINARY" | TDB_T_VARBINARY => "VARBINARY" | TDB_T_BLOB => "BLOB"
       | TDB_T_DATE => "DATE" | TDB_T_TIME => "TIME" | TDB_T_TIMESTAMP => "TIMESTAMP" | TDB_T_JSON => "JSON"
       | TDB_T_XML => "XML" | TDB_T_INTERVAL => "INTERVAL" | TDB_T_BIT => "BIT" | TDB_T_VARBIT => "BIT VARYING"
       | TDB_T_UUID => "UUID" | TDB_T_GEOMETRY => "GEOMETRY" | TDB_T_POINT => "POINT"
       | TDB_T_GEOGRAPHY => "GEOGRAPHY" | TDB_T_COMPOSITE => "COMPOSITE" | TDB_T_UNKNOWN => "UNKNOWN"
       end).

Definition starts_with_ci (s prefix : list Z) : bool := strncasecmp s prefix (length prefix) =? 0.

(** ** Parsing *)

(** [strchr(s, c)]: the rest of the string from the first [c]. *)
Fixpoint strchr (s : list Z) (c : Z) : option (list Z) :=
  match s with
  | [] => None
  | x :: t => if x =? c then Some s else strchr t c
  end.
(** One [%d] of [sscanf]: white space, a sign and digits; the number is read
    as a [long] and stored in an [int]. *)
Definition scan_d (s : list Z) : option (Z * list Z) :=
  let s := skip_space s in
  let '(neg, s) := match s with 45 :: t => (true, t) | 43 :: t => (false, t) | _ => (false, s) end in
  match s with
  | c :: _ =>
      if isdigit c then
        let '(v, r) := scan_digits s 0 in Some (s32 (clamp64 (if neg : bool then - v else v)), r)
      else None
  | [] => None
  end.
(** [sscanf(s, "(%d,%d", &a, &b)] with both variables 0 before: the number
    of conversions and the variables. *)
Definition sscanf_params (s : list Z) : Z * Z * Z :=
  match s with
  | 40 :: s =>
      match scan_d s with
      | Some (a, 44 :: r) => match scan_d r with Some (b, _) => (2, a, b) | None => (1, a, 0) end
      | Some (a, _) => (1, a, 0)
      | None => (0, 0, 0)
      end
  | _ => (0, 0, 0)
  end.

Definition is_decimal (id : tdb_typeid) : bool := match id with TDB_T_DECIMAL => true | _ => false end.
Definition tdb_typespec_parse (decl : cstring) : tdb_typespec :=
  match decl with
  | None => mk_typespec TDB_T_TEXT 0 0 0
  | Some decl =>
      let decl := skip_space (cstr decl) in
      let id := match List.find (fun a => starts_with_ci decl a.1) k_aliases with
                | Some a => a.2
                | None => TDB_T_TEXT
                end in
      match strchr decl 40 with
      | None => mk_typespec id 0 0 0
      | Some lp =>
          let '(got, a, b) := sscanf_params lp in
          if 1 <=? got then
            if is_decimal id then mk_typespec id 0 a (if 2 <=? got then b else 0) else mk_typespec id a 0 0
          else mk_typespec id 0 0 0
      end
  end.

(** ** Storage class *)

Definition tdb_typespec_storage (ts : tdb_typespec) : tdb_valtype :=
  match ty_id ts with
  | TDB_T_BOOLEAN | TDB_T_TINYINT | TDB_T_SMALLINT | TDB_T_INTEGER | TDB_T_BIGINT => TDB_VAL_INT
  | TDB_T_REAL | TDB_T_DOUBLE => TDB_VAL_REAL
  | TDB_T_BINARY | TDB_T_VARBINARY | TDB_T_BLOB | TDB_T_BIT | TDB_T_VARBIT | TDB_T_GEOMETRY | TDB_T_POINT
  | TDB_T_GEOGRAPHY | TDB_T_COMPOSITE => TDB_VAL_BLOB
  | _ => TDB_VAL_TEXT
  end.
