(* ===== verification/Coerce.v ===== *)
(** * Coercion to a declared type (src/src/value/tdb_sqltype.c)

    [tdb_typespec_coerce] checks a value against a declared type and converts
    it in place.  The result is the status, the value and the reason; [None]
    is a step outside the language: bytes of the value that are copied into it
    after they were released, and a NULL pointer that is read when memory runs
    out.  [owned] says whether the value owns its bytes, [stale] is what the
    length field holds after a copy into the value could not be allocated. *)
From Stdlib Require Import SpecFloat.
From S2P Require Import Prelude Util Buf Value Record Cnum CnumSpec ValueText Geom Schema Sqltype.

(** ** Numbers *)

Definition parse_int_exact (s : list Z) : option Z :=
  match cstr s with
  | [] => None
  | s => let '(v, e) := strtoll_end s in match skip_space e with [] => Some v | _ => None end
  end.
Definition parse_real_exact (s : list Z) : option spec_float :=
  match cstr s with
  | [] => None
  | s => let '(v, e) := strtod_end s in match skip_space e with [] => Some v | _ => None end
  end.
Definition int_in_range (v lo hi : Z) : bool := negb ((v <? lo) || (hi <? v)).
(** The significant digits and those behind the point. *)
Fixpoint decimal_loop (s : list Z) (digits frac : Z) (seen_dot started : bool) : Z * Z :=
  match s with
  | [] => (digits, frac)
  | c :: s =>
      if (c =? 45) || (c =? 43) then decimal_loop s digits frac seen_dot started
      else if c =? 46 then decimal_loop s digits frac true started
      else if isdigit c then
        if negb started && (c =? 48) && negb seen_dot then decimal_loop s digits frac seen_dot started
        else decimal_loop s (digits + 1) (if seen_dot then frac + 1 else frac) seen_dot true
      else decimal_loop s digits frac seen_dot started
  end.
Definition decimal_digits (s : list Z) : Z * Z :=
  let '(digits, frac) := decimal_loop (cstr s) 0 0 false false in (if digits =? 0 then 1 else digits, frac).

(** ** Shapes of text *)

Fixpoint xml_depth (s : list Z) (depth : Z) : Z :=
  match s with
  | [] => depth
  | c :: t =>
      let d := match t with d :: _ => d | [] => 0 end in
      xml_depth t
        (if c =? 60 then if d =? 47 then depth - 1 else if negb (d =? 63) && negb (d =? 33) then depth + 1 else depth
         else if (c =? 47) && (d =? 62) then depth - 1 else depth)
  end.
(** A digit, and nothing but digits and the characters of [legal]. *)
Fixpoint shape_loop (legal : list Z) (s : list Z) (has_digit : bool) : bool :=
  match s with
  | [] => has_digit
  | c :: s => if isdigit c then shape_loop legal s true else if existsb (Z.eqb c) legal then shape_loop legal s has_digit else false
  end.
Definition interval_chars : list Z := str "PYMDTHSWnsecmidayhouroweINTERVAL- :.+".
Definition date_chars : list Z := str "-:T.+Z /".

Section Coerce.
Context (alloc_ok : Z -> bool) (owned : bool) (stale : Z).

Definition outcome := option (tdb_status * tdb_value * cstring).
Definition accept (v : tdb_value) : outcome := Some (TDB_OK, v, None).
Definition reject (rc : tdb_status) (v : tdb_value) (why : list Z) : outcome := Some (rc, v, Some why).

Definition coerce_boolean (v : tdb_value) : outcome :=
  let no := reject TDB_MISMATCH v (str "not a boolean") in
  match v with
  | VInt iv => accept (VInt (if iv =? 0 then 0 else 1))
  | VText s =>
      let s := cstr s in
      if (strcasecmp s (str "true") =? 0) || (if decide (s = str "1") then true else false) then accept (VInt 1)
      else if (strcasecmp s (str "false") =? 0) || (if decide (s = str "0") then true else false) then accept (VInt 0)
      else no
  | _ => no
  end.
Definition coerce_int (id : tdb_typeid) (v : tdb_value) : outcome :=
  let ranged (iv : Z) :=
    if match id with
       | TDB_T_TINYINT => int_in_range iv (-128) 127
       | TDB_T_SMALLINT => int_in_range iv (-32768) 32767
       | TDB_T_INTEGER => int_in_range iv (-2147483648) 2147483647
       | _ => true
       end then accept (VInt iv)
    else reject TDB_CONSTRAINT v (str "integer out of range for type") in
  match v with
  | VInt iv => ranged iv
  | VReal r =>
      let r := f64_of_bits r in
      if integral r then ranged (f64_trunc r) else reject TDB_MISMATCH v (str "real has fractional part")
  | VText s => match parse_int_exact s with Some iv => ranged iv | None => reject TDB_MISMATCH v (str "not an integer") end
  | _ => reject TDB_MISMATCH v (str "not an integer")
  end.
Definition coerce_real (v : tdb_value) : outcome :=
  match v with
  | VReal r => accept (VReal r)
  | VInt i => accept (VReal (bits_of_f64 (f64_of_int i)))
  | VText s => match parse_real_exact s with Some r => accept (VReal (bits_of_f64 r)) | None => reject TDB_MISMATCH v (str "not a number") end
  | _ => reject TDB_MISMATCH v (str "not a number")
  end.
Definition coerce_decimal (ts : tdb_typespec) (v : tdb_value) : outcome :=
  if match v with
     | VInt _ | VReal _ => true
     | VText s => match parse_real_exact s with Some _ => true | None => false end
     | _ => false
     end then
    let '(v, txt) := tdb_value_as_text alloc_ok v in
    let finish_ : outcome :=
      match v with
      | VText _ => accept v
      | _ => accept (match txt with Some t => (tdb_value_set_text alloc_ok t (-1) true).2 | None => (tdb_value_set_text alloc_ok [] 0 true).2 end)
      end in
    if 0 <? ty_precision ts then
      t ← txt;
      let '(digits, frac) := decimal_digits t in
      if ty_scale ts <? frac then reject TDB_CONSTRAINT v (str "too many fractional digits")
      else if ty_precision ts <? digits then reject TDB_CONSTRAINT v (str "exceeds numeric precision")
      else finish_
    else finish_
  else reject TDB_MISMATCH v (str "not a numeric value").
Definition coerce_text (ts : tdb_typespec) (v : tdb_value) : outcome :=
  let v' :=
    match v with
    | VBlob s | VText s => VText s
    | _ =>
        let dup := t ← (tdb_value_as_text alloc_ok v).2; tdb_strdup alloc_ok (Some (cstr t)) in
        (tdb_value_set_text alloc_ok (default [] dup) (-1) true).2
    end in
  let n := match v' with VText s => blen s | _ => stale end in
  if (0 <? ty_length ts) && (ty_length ts <? n) then reject TDB_CONSTRAINT v' (str "string longer than declared length") else accept v'.
(** [t = tdb_value_as_text(v); tdb_value_set_text(v, t ? t : "", -1, 1)] of a
    value that is not text: the setter releases the value's bytes, which are
    the text, before it copies them. *)
Definition retext (v : tdb_value) : option tdb_value :=
  match tdb_value_as_text alloc_ok v with
  | (VBlob s, _) => if owned then None else Some (tdb_value_set_text alloc_ok s (-1) true).2
  | (VText _, _) => None
  | _ => Some (tdb_value_set_text alloc_ok [] (-1) true).2
  end.
Definition as_text_value (v : tdb_value) : option tdb_value := match v with VText _ => Some v | _ => retext v end.
Definition coerce_xml (v : tdb_value) : outcome :=
  v ← as_text_value v;
  let s := skip_space (match v with VText s => cstr s | _ => [] end) in
  match s with
  | c :: _ =>
      if negb (c =? 60) then reject TDB_MISMATCH v (str "XML must begin with '<'")
      else if negb (xml_depth s 0 =? 0) then reject TDB_MISMATCH v (str "unbalanced XML tags")
      else accept v
  | [] => reject TDB_MISMATCH v (str "XML must begin with '<'")
  end.
Definition coerce_interval (v : tdb_value) : outcome :=
  match v with
  | VInt _ => accept v
  | _ =>
      v ← as_text_value v;
      match v with
      | VText s => if shape_loop interval_chars (cstr s) false then accept v else reject TDB_MISMATCH v (str "malformed INTERVAL")
      | _ => None
      end
  end.
Definition coerce_bit (ts : tdb_typespec) (v : tdb_value) : outcome :=
  match v with
  | VText s =>
      if negb (forallb (fun c => (c =? 48) || (c =? 49)) s) then reject TDB_MISMATCH v (str "BIT string must contain only 0/1")
      else
        match ty_id ts with
        | TDB_T_BIT => if (0 <? ty_length ts) && negb (blen s =? ty_length ts) then reject TDB_CONSTRAINT v (str "BIT(N) length mismatch") else accept v
        | _ => if (0 <? ty_length ts) && (ty_length ts <? blen s) then reject TDB_CONSTRAINT v (str "BIT VARYING(N) too long") else accept v
        end
  | VBlob _ => accept v
  | _ => reject TDB_MISMATCH v (str "not a bit string")
  end.
Definition coerce_uuid (v : tdb_value) : outcome :=
  match v with
  | VText s => if negb (blen s =? 36) then reject TDB_CONSTRAINT v (str "UUID must be 36 chars") else accept v
  | VBlob s => if negb (blen s =? 16) then reject TDB_CONSTRAINT v (str "UUID blob must be 16 bytes") else accept v
  | _ => reject TDB_MISMATCH v (str "not a UUID")
  end.
Definition coerce_binary (ts : tdb_typespec) (v : tdb_value) : outcome :=
  match v with
  | VBlob s => if (0 <? ty_length ts) && (ty_length ts <? blen s) then reject TDB_CONSTRAINT v (str "binary longer than declared length") else accept v
  | _ => reject TDB_MISMATCH v (str "not binary data")
  end.
Definition coerce_date (v : tdb_value) : outcome :=
  match v with
  | VInt _ => accept v
  | VText s => if shape_loop date_chars (cstr s) false then accept v else reject TDB_MISMATCH v (str "malformed date/time")
  | _ => reject TDB_MISMATCH v (str "not a date/time")
  end.
Definition coerce_geometry (ts : tdb_typespec) (v : tdb_value) : outcome :=
  match v with
  | VText s =>
      '(rc, b, gw) ← tdb_geom_from_wkt alloc_ok s tdb_buf_init;
      match rc with
      | TDB_OK =>
          if match ty_id ts with TDB_T_POINT => negb (tdb_geom_type_of (b_data b) =? TDB_GEOM_POINT) | _ => false end
          then reject TDB_CONSTRAINT v (str "expected a POINT geometry")
          else accept (tdb_value_set_blob alloc_ok (b_data b) (s32 (b_len b)) true).2
      | _ => reject TDB_MISMATCH v (match gw with Some w => w | None => str "invalid geometry WKT" end)
      end
  | VBlob s => if tdb_geom_valid s then accept v else reject TDB_MISMATCH v (str "invalid geometry blob")
  | _ => reject TDB_MISMATCH v (str "not a geometry")
  end.
Definition tdb_typespec_coerce (v : tdb_value) (ts : tdb_typespec) : outcome :=
  match v with
  | VNull => accept v
  | _ =>
      match ty_id ts with
      | TDB_T_BOOLEAN => coerce_boolean v
      | TDB_T_TINYINT | TDB_T_SMALLINT | TDB_T_INTEGER | TDB_T_BIGINT => coerce_int (ty_id ts) v
      | TDB_T_REAL | TDB_T_DOUBLE => coerce_real v
      | TDB_T_DECIMAL => coerce_decimal ts v
      | TDB_T_CHAR | TDB_T_VARCHAR | TDB_T_TEXT | TDB_T_JSON => coerce_text ts v
      | TDB_T_XML => coerce_xml v
      | TDB_T_INTERVAL => coerce_interval v
      | TDB_T_BIT | TDB_T_VARBIT => coerce_bit ts v
      | TDB_T_UUID => coerce_uuid v
      | TDB_T_COMPOSITE =>
          match v with
          | VComposite _ => accept v
          | VBlob s => accept (VComposite s)
          | _ => reject TDB_MISMATCH v (str "not a composite value")
          end
      | TDB_T_BINARY | TDB_T_VARBINARY | TDB_T_BLOB => coerce_binary ts v
      | TDB_T_DATE | TDB_T_TIME | TDB_T_TIMESTAMP => coerce_date v
      | TDB_T_GEOMETRY | TDB_T_POINT | TDB_T_GEOGRAPHY => coerce_geometry ts v
      | TDB_T_UNKNOWN => accept v
      end
  end.
End Coerce.
