(* ===== verification/CoerceSpec.v ===== *)
(** * Coercion to a declared type: properties

    Which values a declared type takes and as what, stated without the code's
    own scanners, and that coercion decides exactly this. *)
From Stdlib Require Import SpecFloat.
From S2P Require Import Prelude Util Buf Value Record Cnum CnumSpec ValueText Geom GeomSpec Schema Sqltype Coerce.

(** ** Texts *)

Definition all_space (s : list Z) : Prop := Forall (fun c => c = 32 \/ 9 <= c <= 13) s.
Definition decimal_digit (c : Z) : Prop := 48 <= c <= 57.
Definition digits_value (ds : list Z) : Z := foldl (fun a c => a * 10 + (c - 48)) 0 ds.
Definition sign_text (neg : bool) (sg : list Z) : Prop := sg = [45] /\ neg = true \/ (sg = [43] \/ sg = []) /\ neg = false.
(** The text of an integer: digits with a sign and white space around, the
    value cut to 64 bits; and, as the code has it, white space alone for 0. *)
Inductive int_text : list Z -> Z -> Prop :=
  | IT_number w1 neg sg ds w2 : all_space w1 -> sign_text neg sg -> ds <> [] -> Forall decimal_digit ds -> all_space w2 ->
      int_text (w1 ++ sg ++ ds ++ w2) (Z.max (- 2 ^ 63) (Z.min (if neg then - digits_value ds else digits_value ds) (2 ^ 63 - 1)))
  | IT_blank w : w <> [] -> all_space w -> int_text w 0.
(** The text of a number: [strtod] leaves nothing but white space of it. *)
Definition real_text (s : list Z) (r : spec_float) : Prop := s <> [] /\ exists rest, strtod_end s = (r, rest) /\ all_space rest.
(** A numeral within a precision and a scale: the digits of its fraction, and
    with them the digits of its integer part from the first that is not 0. *)
Definition decimal_parts (s a b : list Z) : Prop := (s = a /\ b = [] \/ s = a ++ 46 :: b) /\ Forall (fun c => c <> 46) a.
Definition digits_in (s : list Z) : list Z := List.filter (fun c => (48 <=? c) && (c <=? 57)) s.
Fixpoint no_zeros (l : list Z) : list Z := match l with c :: t => if c =? 48 then no_zeros t else l | [] => [] end.
Definition decimal_fits (precision scale : Z) (s : list Z) : Prop :=
  exists a b, decimal_parts s a b /\ blen (digits_in b) <= scale /\ Z.max 1 (blen (no_zeros (digits_in a)) + blen (digits_in b)) <= precision.
(** Tags: as many that open as that close, counted over neighbouring bytes. *)
Definition neighbours (s : list Z) : list (Z * Z) := zip s (tail s ++ [0]).
Definition opens (p : Z * Z) : bool := (p.1 =? 60) && negb (p.2 =? 47) && negb (p.2 =? 63) && negb (p.2 =? 33).
Definition closes (p : Z * Z) : bool := (p.1 =? 60) && (p.2 =? 47) || (p.1 =? 47) && (p.2 =? 62).
Definition count (P : Z * Z -> bool) (l : list (Z * Z)) : Z := Z.of_nat (length (List.filter P l)).
Definition xml_text (s : list Z) : Prop :=
  exists w t, s = w ++ 60 :: t /\ all_space w /\ count opens (neighbours (60 :: t)) = count closes (neighbours (60 :: t)).
(** At least one digit, and otherwise only the characters of [legal]. *)
Definition shaped (legal s : list Z) : Prop := Exists decimal_digit s /\ Forall (fun c => decimal_digit c \/ c ∈ legal) s.

(** ** The values a type takes *)

(** The width of an integer type. *)
Definition int_bits (id : tdb_typeid) : Z :=
  match id with TDB_T_TINYINT => 8 | TDB_T_SMALLINT => 16 | TDB_T_INTEGER => 32 | _ => 64 end.
Definition is_point (g : geom) : Prop := match g with GPoint _ => True | _ => False end.
(** What a value that is no text prints as. *)
Definition printed (alloc_ok : Z -> bool) (v : tdb_value) (t : list Z) : Prop :=
  match v with
  | VInt i => t = fmt_lld i
  | VReal r => t = fmt_g 17 r
  | VComposite _ => t = cstr (default [] (tdb_value_as_text alloc_ok v).2)
  | _ => False
  end.
(** [takes_as ts v w]: the type takes [v], as [w]. *)
Definition takes_as (alloc_ok : Z -> bool) (ts : tdb_typespec) (v w : tdb_value) : Prop :=
  let within (s : list Z) := 0 < ty_length ts -> blen s <= ty_length ts in
  match ty_id ts with
  | TDB_T_BOOLEAN =>
      match v with
      | VInt i => i = 0 /\ w = VInt 0 \/ i <> 0 /\ w = VInt 1
      | VText s => (same_word s (str "true") \/ cstr s = str "1") /\ w = VInt 1 \/ (same_word s (str "false") \/ cstr s = str "0") /\ w = VInt 0
      | _ => False
      end
  | TDB_T_TINYINT | TDB_T_SMALLINT | TDB_T_INTEGER | TDB_T_BIGINT =>
      exists i, w = VInt i /\ - 2 ^ (int_bits (ty_id ts) - 1) <= i < 2 ^ (int_bits (ty_id ts) - 1)
        /\ match v with
           | VInt j => i = j
           | VReal r => i = f64_trunc (f64_of_bits r) /\ SFeqb (f64_of_int i) (f64_of_bits r) = true
           | VText s => int_text (cstr s) i
           | _ => False
           end
  | TDB_T_REAL | TDB_T_DOUBLE =>
      match v with
      | VReal _ => w = v
      | VInt i => w = VReal (bits_of_f64 (f64_of_int i))
      | VText s => exists r, real_text (cstr s) r /\ w = VReal (bits_of_f64 r)
      | _ => False
      end
  | TDB_T_DECIMAL =>
      exists s, w = VText s /\ (0 < ty_precision ts -> decimal_fits (ty_precision ts) (ty_scale ts) (cstr s))
        /\ match v with
           | VText t => s = t /\ exists r, real_text (cstr s) r
           | VInt _ | VReal _ => printed alloc_ok v s
           | _ => False
           end
  | TDB_T_CHAR | TDB_T_VARCHAR | TDB_T_TEXT | TDB_T_JSON =>
      exists s, w = VText s /\ within s /\ match v with VText t | VBlob t => s = t | _ => printed alloc_ok v s end
  | TDB_T_XML =>
      match v with VText s => w = v /\ xml_text (cstr s) | VBlob s => w = VText (cstr s) /\ xml_text (cstr s) | _ => False end
  | TDB_T_INTERVAL =>
      let legal := str "PYMDTHSWnsecmidayhouroweINTERVAL- :.+" in
      match v with
      | VInt _ => w = v
      | VText s => w = v /\ shaped legal (cstr s)
      | VBlob s => w = VText (cstr s) /\ shaped legal (cstr s)
      | _ => False
      end
  | TDB_T_BIT | TDB_T_VARBIT =>
      w = v /\ match v with
               | VText s => Forall (fun c => c = 48 \/ c = 49) s /\ (0 < ty_length ts -> match ty_id ts with TDB_T_BIT => blen s = ty_length ts | _ => blen s <= ty_length ts end)
               | VBlob _ => True
               | _ => False
               end
  | TDB_T_UUID => w = v /\ match v with VText s => blen s = 36 | VBlob s => blen s = 16 | _ => False end
  | TDB_T_COMPOSITE => match v with VComposite _ => w = v | VBlob s => w = VComposite s | _ => False end
  | TDB_T_BINARY | TDB_T_VARBINARY | TDB_T_BLOB => w = v /\ match v with VBlob s => within s | _ => False end
  | TDB_T_DATE | TDB_T_TIME | TDB_T_TIMESTAMP =>
      w = v /\ match v with VInt _ => True | VText s => shaped (str "-:T.+Z /") (cstr s) | _ => False end
  | TDB_T_GEOMETRY | TDB_T_POINT | TDB_T_GEOGRAPHY =>
      exists g, geom_ok g /\ w = VBlob (encode g)
        /\ match v with
           | VBlob _ => w = v
           | VText s => (ty_id ts = TDB_T_POINT -> is_point g) /\ exists b, tdb_geom_from_wkt alloc_ok s tdb_buf_init = Some (TDB_OK, b, None) /\ b_data b = encode g
           | _ => False
           end
  | TDB_T_UNKNOWN => w = v
  end.
(** An integer of 64 bits, a blob of bytes, and for the geometric types a text
    below 128 MiB. *)
Definition geometric (ts : tdb_typespec) : bool := match ty_id ts with TDB_T_GEOMETRY | TDB_T_POINT | TDB_T_GEOGRAPHY => true | _ => false end.
Definition input_ok (ts : tdb_typespec) (v : tdb_value) : Prop :=
  match v with VInt i => - 2 ^ 63 <= i < 2 ^ 63 | VText s => geometric ts = true -> blen s < 2 ^ 27 | VBlob s => bytes_ok s | _ => True end.
(** The verdict on a value is the one of [takes_as]. *)
Definition decided (alloc_ok : Z -> bool) (ts : tdb_typespec) (v : tdb_value) (r : outcome) : Prop :=
  match r with
  | Some (TDB_OK, w, why) => why = None /\ forall w', takes_as alloc_ok ts v w' <-> w' = w
  | Some (rc, _, why) => (rc = TDB_MISMATCH \/ rc = TDB_CONSTRAINT) /\ why <> None /\ forall w', ~ takes_as alloc_ok ts v w'
  | None => (ty_id ts = TDB_T_XML \/ ty_id ts = TDB_T_INTERVAL) /\ value_type v <> TDB_VAL_TEXT
  end.

(** ** The scanners *)

Lemma space_iff c : isspace c = true <-> c = 32 \/ 9 <= c <= 13.
Proof. unfold isspace. lia. Qed.
Lemma digit_iff c : isdigit c = true <-> decimal_digit c.
Proof. unfold isdigit, decimal_digit. lia. Qed.
Lemma skip_space_app w s : all_space w -> skip_space (w ++ s) = skip_space s.
Proof. induction 1 as [|c w Hc _ IH]; [done|]. cbn [app skip_space]. by rewrite (proj2 (space_iff c) Hc). Qed.
Lemma skip_space_split s : exists w, s = w ++ skip_space s /\ all_space w /\ (forall c t, skip_space s = c :: t -> isspace c = false).
Proof.
  induction s as [|c s (w & E & Hw & Hr)]; [exists []; repeat split; [constructor|done]|]. cbn [skip_space]. destruct (isspace c) eqn:Ec.
  - exists (c :: w). split; [cbn; congruence|]. split; [constructor; [by apply space_iff|done]|done].
  - exists []. split; [done|]. split; [constructor|]. by intros c' t [= <- <-].
Qed.
Lemma skip_space_nil s : skip_space s = [] <-> all_space s.
Proof.
  split; [|intros H; rewrite <- (app_nil_r s), skip_space_app by done; done].
  intros H. destruct (skip_space_split s) as (w & E & Hw & _). rewrite H, app_nil_r in E. by subst w.
Qed.
Lemma scan_digits_split s a : exists ds r, s = ds ++ r /\ Forall decimal_digit ds /\ scan_digits s a = (foldl (fun a c => a * 10 + (c - 48)) a ds, r)
  /\ forall c t, s = c :: t -> isdigit c = true -> ds <> [].
Proof.
  revert a. induction s as [|c s IH]; intros a; [exists [], []; repeat split; [constructor|done]|]. cbn [scan_digits]. destruct (isdigit c) eqn:Ec.
  - destruct (IH (a * 10 + (c - 48))) as (ds & r & E & Hd & Es & _). exists (c :: ds), r. split; [cbn; congruence|]. split; [constructor; [by apply digit_iff|done]|]. by split.
  - exists [], (c :: s). split; [done|]. split; [constructor|]. split; [done|]. intros c' t [= <- <-]. congruence.
Qed.
Lemma space_not_digit c : isspace c = true -> isdigit c = false.
Proof. unfold isspace, isdigit. lia. Qed.
Lemma scan_digits_all ds w a : Forall decimal_digit ds -> all_space w -> scan_digits (ds ++ w) a = (foldl (fun a c => a * 10 + (c - 48)) a ds, w).
Proof.
  intros Hd Hw. revert a. induction Hd as [|c ds Hc _ IH]; intros a; cbn [app scan_digits foldl]; [|by rewrite (proj2 (digit_iff c) Hc)].
  destruct Hw as [|c w Hc _]; [done|]. cbn [scan_digits]. by rewrite (space_not_digit c) by (by apply space_iff).
Qed.
Lemma digit_nonspace c : isdigit c = true -> isspace c = false.
Proof. unfold isspace, isdigit. lia. Qed.
(** The number after the white space, with its sign. *)
Lemma signed_digits neg sg ds w : sign_text neg sg -> ds <> [] -> Forall decimal_digit ds -> all_space w ->
  strtoll_end (sg ++ ds ++ w) = (clamp64 (if neg then - digits_value ds else digits_value ds), w).
Proof.
  intros Hs Hn Hd Hw. pose proof (scan_digits_all ds w 0 Hd Hw) as E. destruct ds as [|d ds]; [done|]. apply Forall_cons in Hd as [Hc Hd]. unfold decimal_digit in Hc.
  assert (isdigit d = true) as Ed by (by apply digit_iff). unfold strtoll_end, digits_value.
  destruct Hs as [[-> ->]|[[-> | ->] ->]]; cbn [app skip_space]; rewrite ?(digit_nonspace d Ed); change (isspace 45) with false; change (isspace 43) with false; cbn iota.
  1,2: cbn [Z.eqb Pos.eqb]; rewrite Ed; change (d :: ds ++ w) with ((d :: ds) ++ w); by rewrite E.
  destruct (Z.eqb_spec d 45); [lia|]. destruct (Z.eqb_spec d 43); [lia|]. rewrite Ed. change (d :: ds ++ w) with ((d :: ds) ++ w). by rewrite E.
Qed.
Lemma strtoll_end_spaces w s : all_space w -> (exists c t, s = c :: t /\ isspace c = false) -> (strtoll_end s).2 <> s -> strtoll_end (w ++ s) = strtoll_end s.
Proof.
  intros Hw (c & t & -> & Hc). unfold strtoll_end. rewrite skip_space_app by done. cbn [skip_space]. rewrite Hc.
  destruct (if c =? 45 then _ else _) as [neg u]. destruct u as [|d u]; [done|]. by destruct (isdigit d).
Qed.
Lemma parse_int_text s i : parse_int_exact s = Some i <-> int_text (cstr s) i.
Proof.
  unfold parse_int_exact. set (z := cstr s). clearbody z. split.
  - intros H. assert (z <> []) as Hz by (by destruct z). assert (let '(v, e) := strtoll_end z in skip_space e = [] /\ v = i) as He.
    { destruct z; [done|]. destruct (strtoll_end _) as [v e]. destruct (skip_space e); simplify_eq; auto. }
    clear H. destruct (skip_space_split z) as (w & E & Hw & Hsp). unfold strtoll_end in He.
    assert (forall v, skip_space z = [] /\ v = i -> v = 0 -> int_text z i) as Hblank.
    { intros v [H <-] ->. constructor; [done|by apply skip_space_nil]. }
    assert (exists neg sg t, skip_space z = sg ++ t /\ sign_text neg sg /\ match t with
      | c :: _ => if isdigit c then let '(v, r) := scan_digits t 0 in skip_space r = [] /\ clamp64 (if neg : bool then - v else v) = i else skip_space z = [] /\ 0 = i
      | [] => skip_space z = [] /\ 0 = i end) as (neg & sg & t & Et & Hs & Ht).
    { assert (forall (neg : bool) u, (let '(v, e) := match u with c :: _ => if isdigit c then let '(v, r) := scan_digits u 0 in (clamp64 (if neg then - v else v), r) else (0, z) | [] => (0, z) end
        in skip_space e = [] /\ v = i) -> match u with
        | c :: _ => if isdigit c then let '(v, r) := scan_digits u 0 in skip_space r = [] /\ clamp64 (if neg then - v else v) = i else skip_space z = [] /\ 0 = i
        | [] => skip_space z = [] /\ 0 = i end) as Hu.
      { intros neg [|c u]; [done|]. destruct (isdigit c); [|done]. by destruct (scan_digits (c :: u) 0). }
      destruct (skip_space z) as [|c t] eqn:Ez; [exists false, [], []; split; [done|]; split; [by right; auto|exact (Hu false [] He)]|].
      destruct (Z.eqb_spec c 45) as [->|]; [exists true, [45], t; split; [done|]; split; [by left|exact (Hu true t He)]|].
      destruct (Z.eqb_spec c 43) as [->|]; [exists false, [43], t; split; [done|]; split; [by right; auto|exact (Hu false t He)]|].
      exists false, [], (c :: t). split; [done|]. split; [by right; auto|exact (Hu false (c :: t) He)]. }
    destruct t as [|c t]; [by apply (Hblank 0)|]. destruct (isdigit c) eqn:Ec; [|by apply (Hblank 0)].
    destruct (scan_digits_split (c :: t) 0) as (ds & r & Ed & Hd & Esc & Hne). rewrite Esc in Ht. destruct Ht as [Hr <-].
    rewrite E, Et, Ed. constructor; [done|done|by eapply Hne|done|by apply skip_space_nil].
  - intros [w1 neg sg ds w2 H1 Hs Hn Hd H2|w Hn Hw].
    + assert (exists c t, sg ++ ds ++ w2 = c :: t /\ isspace c = false) as Hc.
      { destruct ds as [|d ds]; [done|]. apply Forall_cons in Hd as [Hd _]. destruct Hs as [[-> _]|[[-> | ->] _]]; cbn [app]; do 2 eexists; (split; [done|]); try done.
        by apply digit_nonspace, digit_iff. }
      pose proof (signed_digits neg sg ds w2 Hs Hn Hd H2) as E.
      assert (strtoll_end (w1 ++ sg ++ ds ++ w2) = (clamp64 (if neg then - digits_value ds else digits_value ds), w2)) as E'.
      { rewrite strtoll_end_spaces; [done|done|done|]. rewrite E. cbn [snd]. intros Ew. apply (f_equal length) in Ew. rewrite !length_app in Ew. destruct ds; [done|cbn in Ew; lia]. }
      destruct (w1 ++ sg ++ ds ++ w2) as [|c t] eqn:Ez; [by destruct w1, sg, ds|]. rewrite E'. by rewrite (proj2 (skip_space_nil w2) H2).
    + destruct w as [|c w]; [done|]. assert (skip_space (c :: w) = []) as E by (by apply skip_space_nil).
      unfold strtoll_end. by rewrite E, E.
Qed.
Lemma int_text_range s i : int_text s i -> - 2 ^ 63 <= i < 2 ^ 63.
Proof. intros [w1 neg sg ds w2 _ _ _ _ _|w _ _]; lia. Qed.
Lemma parse_real_text s r : parse_real_exact s = Some r <-> real_text (cstr s) r.
Proof.
  unfold parse_real_exact, real_text. destruct (cstr s) as [|c t]; [by split; [|intros [? _]]|]. destruct (strtod_end (c :: t)) as [v e]. split.
  - intros H. split; [done|]. exists e. destruct (skip_space e) eqn:E; simplify_eq. split; [done|]. by apply skip_space_nil.
  - intros (_ & rest & [= -> ->] & H). by rewrite (proj2 (skip_space_nil rest) H).
Qed.

(** Digits of a numeral. *)
Lemma parts_exist s : exists a b, decimal_parts s a b.
Proof.
  induction s as [|c s (a & b & H & Ha)]; [exists [], []; split; [by left|constructor]|]. destruct (Z.eqb_spec c 46) as [->|Hc].
  - exists [], s. split; [by right|constructor].
  - exists (c :: a), b. split; [|by constructor]. destruct H as [[-> ->]| ->]; [by left|by right].
Qed.
Lemma loop_fraction b d f st : decimal_loop b d f true st = (d + blen (digits_in b), f + blen (digits_in b)).
Proof.
  revert d f st. induction b as [|c b IH]; intros d f st; cbn [decimal_loop digits_in List.filter]; [rewrite blen_nil; f_equal; lia|].
  rewrite andb_false_r. unfold isdigit. destruct ((48 <=? c) && (c <=? 57)) eqn:Ec.
  - destruct (_ || _) eqn:E1; [lia|]. destruct (Z.eqb_spec c 46); [lia|]. rewrite IH, blen_cons. fold (digits_in b). f_equal; lia.
  - fold (digits_in b). by destruct (_ || _); [|destruct (c =? 46)]; rewrite IH.
Qed.
Lemma loop_integer a rest d (st : bool) : Forall (fun c => c <> 46) a ->
  exists st', decimal_loop (a ++ rest) d 0 false st = decimal_loop rest (d + blen (if st then digits_in a else no_zeros (digits_in a))) 0 false st'.
Proof.
  intros Ha. revert d st. induction Ha as [|c a Hc _ IH]; intros d st; cbn [app decimal_loop digits_in List.filter].
  - exists st. rewrite (Z.add_0_r d) at 1 || idtac. destruct st; cbn [no_zeros]; rewrite blen_nil; by rewrite Z.add_0_r.
  - fold (digits_in a). destruct (Z.eqb_spec c 46); [done|]. unfold isdigit. destruct ((48 <=? c) && (c <=? 57)) eqn:Ec.
    + destruct (_ || _) eqn:E1; [lia|]. rewrite andb_true_r. destruct st; cbn [negb andb no_zeros].
      * destruct (IH (d + 1) true) as [st' ->]. exists st'. rewrite blen_cons. f_equal. lia.
      * destruct (c =? 48); [apply (IH d false)|]. destruct (IH (d + 1) true) as [st' ->]. exists st'. rewrite blen_cons. f_equal. lia.
    + destruct (_ || _); apply IH.
Qed.
Lemma decimal_digits_parts s a b : decimal_parts (cstr s) a b ->
  decimal_digits s = (Z.max 1 (blen (no_zeros (digits_in a)) + blen (digits_in b)), blen (digits_in b)).
Proof.
  intros [H Ha]. unfold decimal_digits. pose proof (blen_nonneg (no_zeros (digits_in a))). pose proof (blen_nonneg (digits_in b)).
  assert (decimal_loop (cstr s) 0 0 false false = (blen (no_zeros (digits_in a)) + blen (digits_in b), blen (digits_in b))) as ->.
  { destruct H as [[-> ->]| ->].
    - destruct (loop_integer a [] 0 false Ha) as [st E]. rewrite app_nil_r in E. rewrite E. cbn [decimal_loop]. change (blen (digits_in [])) with 0. f_equal; lia.
    - destruct (loop_integer a (46 :: b) 0 false Ha) as [st ->]. cbn [decimal_loop Z.eqb Pos.eqb orb]. rewrite loop_fraction. f_equal; lia. }
  destruct (Z.eqb_spec (blen (no_zeros (digits_in a)) + blen (digits_in b)) 0); f_equal; lia.
Qed.
Lemma decimal_fits_digits p sc s : decimal_fits p sc (cstr s) <-> (decimal_digits s).2 <= sc /\ (decimal_digits s).1 <= p.
Proof.
  split.
  - intros (a & b & H & H1 & H2). by rewrite (decimal_digits_parts s a b H).
  - destruct (parts_exist (cstr s)) as (a & b & H). rewrite (decimal_digits_parts s a b H). intros [H1 H2]. by exists a, b.
Qed.
(** Tags and shapes. *)
Lemma xml_depth_count s k : xml_depth s k = k + count opens (neighbours s) - count closes (neighbours s).
Proof.
  revert k. induction s as [|c t IH]; intros k; [by rewrite Z.add_0_r, Z.sub_0_r|]. cbn [xml_depth]. rewrite IH.
  assert (neighbours (c :: t) = (c, match t with d :: _ => d | [] => 0 end) :: neighbours t) as -> by (by destruct t).
  set (d := match t with d :: _ => d | [] => 0 end). unfold count, opens, closes. cbn [List.filter fst snd].
  destruct (Z.eqb_spec c 60) as [->|]; [|destruct ((c =? 47) && (d =? 62)) eqn:E; cbn [andb orb length]; rewrite ?E; cbn [length]; lia].
  cbn [andb orb Z.eqb Pos.eqb]. destruct (d =? 47), (d =? 63), (d =? 33); cbn [negb andb orb length]; lia.
Qed.
Lemma xml_text_iff s : (exists t, skip_space s = 60 :: t /\ xml_depth (60 :: t) 0 = 0) <-> xml_text s.
Proof.
  split.
  - intros (t & E & H). destruct (skip_space_split s) as (w & Es & Hw & _). exists w, t. rewrite xml_depth_count in H. split; [congruence|]. split; [done|lia].
  - intros (w & t & -> & Hw & H). exists t. rewrite skip_space_app by done. split; [done|]. rewrite xml_depth_count. lia.
Qed.
Lemma shape_loop_shaped legal s b : shape_loop legal s b = true <-> (b = true \/ Exists decimal_digit s) /\ Forall (fun c => decimal_digit c \/ c ∈ legal) s.
Proof.
  revert b. induction s as [|c s IH]; intros b; cbn [shape_loop]; [rewrite Exists_nil; intuition|].
  rewrite Exists_cons, Forall_cons. destruct (isdigit c) eqn:Ec; [apply digit_iff in Ec; rewrite IH; tauto|].
  assert (~ decimal_digit c) as Hc by (by rewrite <- digit_iff, Ec). destruct (existsb (Z.eqb c) legal) eqn:El.
  - apply existsb_exists in El as (x & Hx & ->%Z.eqb_eq). apply list_elem_of_In in Hx. rewrite IH. tauto.
  - split; [done|]. intros [_ [[H|H] _]]; [done|]. apply list_elem_of_In in H. assert (existsb (Z.eqb c) legal = true); [|congruence].
    apply existsb_exists. exists c. split; [done|apply Z.eqb_refl].
Qed.
Lemma shape_shaped legal s : shape_loop legal s false = true <-> shaped legal s.
Proof. rewrite shape_loop_shaped. unfold shaped. intuition congruence. Qed.
Lemma bits01 s : forallb (fun c => (c =? 48) || (c =? 49)) s = true <-> Forall (fun c => c = 48 \/ c = 49) s.
Proof.
  induction s as [|c s IH]; cbn [forallb]; [by split|]. rewrite andb_true_iff, IH, Forall_cons. split; intros [H1 H2]; (split; [lia|done]).
Qed.
Lemma f64_trunc_range f : - 2 ^ 63 <= f64_trunc f < 2 ^ 63.
Proof. unfold f64_trunc. destruct f as [| | |s m e]; try lia. cbv zeta. destruct (_ && _) eqn:E; lia. Qed.
Lemma same_text (s t : list Z) : (if decide (s = t) then true else false) = true <-> s = t.
Proof. by destruct (decide (s = t)). Qed.
Lemma cstr_idem s : cstr (cstr s) = cstr s.
Proof. induction s as [|c s IH]; [done|]. cbn [cstr]. destruct (c =? 0) eqn:E; [done|]. cbn [cstr]. by rewrite E, IH. Qed.
Lemma cstr_prefix s : bsub s 0 (strlen s) = cstr s.
Proof.
  unfold bsub, strlen, blen. rewrite Nat2Z.id. change (Z.to_nat 0) with 0%nat. rewrite drop_0. induction s as [|c s IH]; [done|]. cbn [cstr]. destruct (c =? 0); [done|]. cbn [length take]. by rewrite IH.
Qed.

Section Verdict.
Context (alloc_ok : Z -> bool) (Halloc : forall n, alloc_ok n = true) (owned : bool) (stale : Z).
Abbreviation coerce := (tdb_typespec_coerce alloc_ok owned stale).
Abbreviation decided := (decided alloc_ok).

Lemma refused ts v rc v' why : rc = TDB_MISMATCH \/ rc = TDB_CONSTRAINT -> (forall w, ~ takes_as alloc_ok ts v w) -> decided ts v (reject rc v' why).
Proof. intros [-> | ->] H; (split; [auto|]; split; [done|exact H]). Qed.
Lemma taken ts v w : (forall w', takes_as alloc_ok ts v w' <-> w' = w) -> decided ts v (accept w).
Proof. by split. Qed.
(** A test of the code that is the condition of the type. *)
Lemma tested ts v (b : bool) (P : Prop) rc v' why w : (b = true <-> P) -> (forall w', takes_as alloc_ok ts v w' <-> w' = w /\ P) ->
  rc = TDB_MISMATCH \/ rc = TDB_CONSTRAINT -> decided ts v (if b then accept w else reject rc v' why).
Proof.
  intros Hb Ht Hr. destruct b.
  - apply taken. intros w'. rewrite Ht. intuition.
  - apply refused; [done|]. intros w' [_ HP]%Ht. by apply Hb in HP.
Qed.
Lemma tested' ts v (b : bool) (P : Prop) rc v' why w : (b = false <-> P) -> (forall w', takes_as alloc_ok ts v w' <-> w' = w /\ P) ->
  rc = TDB_MISMATCH \/ rc = TDB_CONSTRAINT -> decided ts v (if b then reject rc v' why else accept w).
Proof. intros Hb Ht Hr. replace (if b then _ else _) with (if negb b then accept w else reject rc v' why) by (by destruct b). apply (tested _ _ _ P); [by rewrite negb_true_iff|done..]. Qed.
Ltac by_type Et := intros ?w; unfold takes_as; rewrite ?Et; cbn iota.
Ltac no := apply refused; [by auto|].
Ltac yes := apply taken.
Definition input_ok_int (v : tdb_value) : Prop := match v with VInt i => - 2 ^ 63 <= i < 2 ^ 63 | _ => True end.

Lemma set_text_ok s n : (tdb_value_set_text alloc_ok s n true).2 = VText (bsub s 0 (if n <? 0 then strlen s else n `max` 0)).
Proof.
  unfold tdb_value_set_text, value_set_bytes. rewrite Halloc. cbn [snd]. f_equal. f_equal. destruct (Z.ltb_spec n 0).
  - assert (0 <= strlen s) by apply blen_nonneg. destruct (Z.ltb_spec (strlen s) 0); lia.
  - destruct (Z.ltb_spec n 0); lia.
Qed.
Lemma boolean_decided ts v : ty_id ts = TDB_T_BOOLEAN -> decided ts v (coerce_boolean v).
Proof.
  intros Et. unfold coerce_boolean. destruct v as [|i|r|s|s|s]; try (no; by_type Et; tauto).
  - destruct (Z.eqb_spec i 0); yes; by_type Et; intuition congruence.
  - assert (forall t, (strcasecmp (cstr s) t =? 0) = true <-> same_word s t) as Hw.
    { intros t. rewrite strcasecmp_same. unfold same_word. by rewrite cstr_idem. }
    assert (forall t, (strcasecmp (cstr s) t =? 0) || (if decide (cstr s = str "1") then true else false) = true <-> same_word s t \/ cstr s = str "1") as H1.
    { intros t. by rewrite orb_true_iff, Hw, same_text. }
    assert (forall t, (strcasecmp (cstr s) t =? 0) || (if decide (cstr s = str "0") then true else false) = true <-> same_word s t \/ cstr s = str "0") as H0.
    { intros t. by rewrite orb_true_iff, Hw, same_text. }
    assert (~ ((same_word s (str "true") \/ cstr s = str "1") /\ (same_word s (str "false") \/ cstr s = str "0"))) as Hx.
    { unfold same_word. intros [[E1|E1] [E2|E2]]; first [rewrite E1 in E2; discriminate E2|rewrite E2 in E1; discriminate E1]. }
    destruct ((strcasecmp (cstr s) (str "true") =? 0) || _) eqn:E1.
    + apply H1 in E1. yes. by_type Et. split; [intros [[_ ->]|[H _]]; [done|by destruct Hx]|]. intros ->. by left.
    + assert (~ (same_word s (str "true") \/ cstr s = str "1")) as N1 by (by rewrite <- H1, E1).
      destruct ((strcasecmp (cstr s) (str "false") =? 0) || _) eqn:E0; [apply H0 in E0; yes; by_type Et; split; [by intros [[H _]|[_ ->]]|]; intros ->; by right|].
      assert (~ (same_word s (str "false") \/ cstr s = str "0")) as N0 by (by rewrite <- H0, E0). no. by_type Et. tauto.
Qed.
Definition int_type (id : tdb_typeid) : Prop := match id with TDB_T_TINYINT | TDB_T_SMALLINT | TDB_T_INTEGER | TDB_T_BIGINT => True | _ => False end.
Definition int_reads (v : tdb_value) (i : Z) : Prop :=
  match v with
  | VInt j => i = j
  | VReal r => i = f64_trunc (f64_of_bits r) /\ SFeqb (f64_of_int i) (f64_of_bits r) = true
  | VText s => int_text (cstr s) i
  | _ => False
  end.
Lemma takes_int ts v w : int_type (ty_id ts) ->
  takes_as alloc_ok ts v w <-> exists i, w = VInt i /\ - 2 ^ (int_bits (ty_id ts) - 1) <= i < 2 ^ (int_bits (ty_id ts) - 1) /\ int_reads v i.
Proof. unfold takes_as. by destruct (ty_id ts). Qed.
Lemma ranged ts v i v' why : int_type (ty_id ts) -> - 2 ^ 63 <= i < 2 ^ 63 -> (forall j, int_reads v j <-> j = i) ->
  decided ts v (if match ty_id ts with TDB_T_TINYINT => int_in_range i (-128) 127 | TDB_T_SMALLINT => int_in_range i (-32768) 32767
      | TDB_T_INTEGER => int_in_range i (-2147483648) 2147483647 | _ => true end then accept (VInt i) else reject TDB_CONSTRAINT v' why).
Proof.
  intros Hid Hi Hr. apply (tested _ _ _ (- 2 ^ (int_bits (ty_id ts) - 1) <= i < 2 ^ (int_bits (ty_id ts) - 1))); [| |by auto].
  - destruct (ty_id ts); try done; unfold int_in_range; cbn; rewrite ?negb_true_iff; lia.
  - intros w. rewrite takes_int by done. split; [by intros (j & -> & H & ->%Hr)|]. intros [-> H]. exists i. by rewrite Hr.
Qed.
Lemma int_decided ts v : input_ok ts v -> int_type (ty_id ts) -> decided ts v (coerce_int (ty_id ts) v).
Proof.
  intros Hv Hid. assert (forall v' why, (forall i, ~ int_reads v i) -> decided ts v (reject TDB_MISMATCH v' why)) as Hno.
  { intros v' why H. no. intros w (i & _ & _ & Hi)%takes_int; [|done]. by apply (H i). }
  unfold coerce_int. destruct v as [|i|r|s|s|s]; try (apply Hno; intros i []; fail).
  - by apply ranged.
  - unfold integral. destruct (SFeqb _ _) eqn:E; [apply ranged; [done|apply f64_trunc_range|]|apply Hno].
    + intros j. cbn. split; [tauto|]. by intros ->.
    + cbn. intros i [-> H]. congruence.
  - destruct (parse_int_exact s) as [i|] eqn:E.
    + pose proof (proj1 (parse_int_text s i) E) as Hi. apply ranged; [done|by eapply int_text_range|]. intros j. cbn. rewrite <- parse_int_text, E. split; congruence.
    + apply Hno. cbn. intros i. rewrite <- parse_int_text, E. done.
Qed.
Lemma real_decided ts v : ty_id ts = TDB_T_REAL \/ ty_id ts = TDB_T_DOUBLE -> decided ts v (coerce_real v).
Proof.
  intros Hid. unfold coerce_real. destruct v as [|i|r|s|s|s]; try (destruct Hid as [Et|Et]; no; by_type Et; tauto); try (destruct Hid as [Et|Et]; yes; by_type Et; done).
  destruct (parse_real_exact s) as [r|] eqn:E.
  - assert (forall w, (exists r', real_text (cstr s) r' /\ w = VReal (bits_of_f64 r')) <-> w = VReal (bits_of_f64 r)) as H.
    { intros w. split; [intros (r' & Hr & ->); apply parse_real_text in Hr; congruence|]. intros ->. exists r. by rewrite <- parse_real_text. }
    destruct Hid as [Et|Et]; yes; by_type Et; apply H.
  - assert (forall w, ~ (exists r', real_text (cstr s) r' /\ w = VReal (bits_of_f64 r'))) as H.
    { intros w (r' & Hr & ->). apply parse_real_text in Hr. congruence. }
    destruct Hid as [Et|Et]; no; by_type Et; apply H.
Qed.
Lemma parse_real_lld i : - 2 ^ 63 <= i < 2 ^ 63 -> parse_real_exact (fmt_lld i) <> None.
Proof.
  intros Hi. unfold parse_real_exact. assert (exists f, strtod_end (cstr (fmt_lld i)) = (f, [])) as [f E].
  { unfold fmt_lld. destruct (Z.ltb_spec i 0).
    - destruct (strtod_dec_digits (- i)) as [H1 H2]; [lia|]. eexists. exact (strtod_end_signed true _ _ H1 H2).
    - destruct (strtod_dec_digits i) as [H1 H2]; [lia|]. eexists. exact (strtod_end_signed false _ _ H1 H2). }
  destruct (cstr (fmt_lld i)) as [|c t] eqn:Ec; [|by rewrite E].
  rewrite cstr_nul_free in Ec by (by apply fmt_lld_nul_free). revert Ec. unfold fmt_lld. destruct (Z.ltb_spec i 0); [done|].
  intros Ec. destruct (dec_digits_spec 20 i []) as (_ & _ & _ & H4); [cbn; lia|constructor|]. destruct (H4 ltac:(done)) as (d & l & El). congruence.
Qed.
Lemma parse_real_g r : parse_real_exact (fmt_g 17 r) <> None.
Proof.
  unfold parse_real_exact. pose proof (real_text_read r) as E. destruct (cstr (fmt_g 17 r)) as [|c t] eqn:Ec; [|by rewrite E].
  rewrite cstr_nul_free in Ec by apply fmt_g_nul_free. revert Ec. unfold fmt_g. destruct (Z.testbit r 63); [done|]. cbn [app].
  by destruct (f64_of_bits r).
Qed.
Lemma decimal_decided ts v : input_ok ts v -> ty_id ts = TDB_T_DECIMAL -> decided ts v (coerce_decimal alloc_ok ts v).
Proof.
  intros Hv Et. assert (forall s, (forall w, takes_as alloc_ok ts v w <-> w = VText s /\ (0 < ty_precision ts -> decimal_fits (ty_precision ts) (ty_scale ts) (cstr s))) -> decided ts v
    (if 0 <? ty_precision ts then t ← Some s; let '(digits, frac) := decimal_digits t in
       if ty_scale ts <? frac then reject TDB_CONSTRAINT (VText s) (str "too many fractional digits")
       else if ty_precision ts <? digits then reject TDB_CONSTRAINT (VText s) (str "exceeds numeric precision") else accept (VText s)
     else accept (VText s))) as Hs.
  { intros s H. pose proof (decimal_fits_digits (ty_precision ts) (ty_scale ts) s) as Hf. destruct (Z.ltb_spec 0 (ty_precision ts)); cbn [mbind option_bind].
    - destruct (decimal_digits s) as [d f]. cbn [fst snd] in Hf. destruct (Z.ltb_spec (ty_scale ts) f); [no; intros w [_ Hw]%H; specialize (Hw ltac:(done)); rewrite Hf in Hw; lia|].
      destruct (Z.ltb_spec (ty_precision ts) d); [no; intros w [_ Hw]%H; specialize (Hw ltac:(done)); rewrite Hf in Hw; lia|].
      yes. intros w. rewrite H, Hf. split; [tauto|]. intros ->. split; [done|lia].
    - yes. intros w. rewrite H. split; [tauto|]. intros ->. split; [done|lia]. }
  unfold coerce_decimal. destruct v as [|i|r|s|s|s]; cbn [tdb_value_as_text]; try (no; by_type Et; intros (t & _ & _ & []); fail).
  - destruct (materialize_spec alloc_ok _ (fmt_lld_nul_free i Hv)) as [->|[_ H]]; [|by rewrite Halloc in H]. apply Hs. by_type Et. cbn. split; [by intros (t & -> & H & ->)|]. intros [-> H]. by exists (fmt_lld i).
  - destruct (materialize_spec alloc_ok _ (fmt_g_nul_free r)) as [->|[_ H]]; [|by rewrite Halloc in H]. apply Hs. by_type Et. cbn. split; [by intros (t & -> & H & ->)|]. intros [-> H]. by exists (fmt_g 17 r).
  - destruct (parse_real_exact s) as [r|] eqn:E; [apply Hs|no]; by_type Et.
    + split; [by intros (t & -> & H & -> & _)|]. intros [-> H]. exists s. split; [done|]. split; [done|]. split; [done|]. exists r. by apply parse_real_text.
    + intros (t & _ & _ & -> & r & Hr%parse_real_text). congruence.
Qed.
Lemma materialize_full z n : exists t, materialize alloc_ok z n = (VText t, Some t).
Proof.
  unfold materialize, tdb_value_set_text, value_set_bytes. rewrite Halloc. eexists. f_equal. f_equal. f_equal.
  assert (0 <= strlen z) by apply blen_nonneg. destruct (Z.ltb_spec n 0); [destruct (Z.ltb_spec (strlen z) 0); lia|destruct (Z.ltb_spec n 0); lia].
Qed.
Lemma printed_text v : input_ok_int v -> match v with VInt _ | VReal _ | VComposite _ => True | _ => False end ->
  exists t, tdb_value_as_text alloc_ok v = (VText t, Some t) /\ forall s, printed alloc_ok v s <-> s = cstr t.
Proof.
  intros Hv Hk. destruct v as [|i|r|s|s|s]; try done; cbn [tdb_value_as_text].
  - destruct (materialize_spec alloc_ok _ (fmt_lld_nul_free i Hv)) as [->|[_ H]]; [|by rewrite Halloc in H]. eexists. split; [done|]. intros s. cbn. by rewrite cstr_nul_free by (by apply fmt_lld_nul_free).
  - destruct (materialize_spec alloc_ok _ (fmt_g_nul_free r)) as [->|[_ H]]; [|by rewrite Halloc in H]. eexists. split; [done|]. intros s. cbn. by rewrite cstr_nul_free by apply fmt_g_nul_free.
  - unfold printed. cbn [tdb_value_as_text]. set (z := b_data _). set (n := s32 _). destruct (materialize_full z n) as [t ->]. by exists t.
Qed.
Definition text_type (id : tdb_typeid) : Prop := match id with TDB_T_CHAR | TDB_T_VARCHAR | TDB_T_TEXT | TDB_T_JSON => True | _ => False end.
Lemma text_decided ts v : input_ok ts v -> v <> VNull -> text_type (ty_id ts) -> decided ts v (coerce_text alloc_ok stale ts v).
Proof.
  intros Hv Hn Hid. unfold coerce_text. assert (forall s, (forall t, match v with VText u | VBlob u => t = u | _ => printed alloc_ok v t end <-> t = s) ->
    decided ts v (if (0 <? ty_length ts) && (ty_length ts <? blen s) then reject TDB_CONSTRAINT (VText s) (str "string longer than declared length") else accept (VText s))) as Hs.
  { intros s Hp. apply (tested' _ _ _ (0 < ty_length ts -> blen s <= ty_length ts)); [lia| |by auto]. intros w.
    assert (takes_as alloc_ok ts v w <-> exists t, w = VText t /\ (0 < ty_length ts -> blen t <= ty_length ts) /\ match v with VText u | VBlob u => t = u | _ => printed alloc_ok v t end) as ->
      by (unfold takes_as; by destruct (ty_id ts)).
    split; [by intros (t & -> & H & ->%Hp)|]. intros [-> H]. exists s. by rewrite Hp. }
  destruct v as [|i|r|s|s|s]; [done| | |by apply Hs|by apply Hs|];
    match goal with |- context [tdb_value_as_text alloc_ok ?u] => destruct (printed_text u) as (t & -> & Hp); [done|done|] end; cbn [snd mbind option_bind];
    unfold tdb_strdup, tdb_strndup; rewrite ?Halloc; cbn [default]; rewrite set_text_ok; change (-1 <? 0) with true; cbn iota; unfold id; rewrite cstr_prefix, cstr_idem; by apply Hs.
Qed.
Lemma retext_decided v w : as_text_value alloc_ok owned v = Some w -> v <> VNull -> input_ok_int v -> exists s, (v = VText s /\ w = v) \/ (v = VBlob s /\ w = VText (cstr s)).
Proof.
  unfold as_text_value, retext. intros H Hn Hv. destruct v as [|i|r|s|s|s]; try done; try (by simplify_eq; exists s; auto).
  1,2,4: match goal with H : context [tdb_value_as_text alloc_ok ?u] |- _ => destruct (printed_text u) as (t & E & _); [done|done|]; by rewrite E in H end.
  cbn [tdb_value_as_text] in H. destruct owned; [done|]. rewrite set_text_ok in H. change (-1 <? 0) with true in H. cbn iota in H. rewrite cstr_prefix in H. simplify_eq. exists s. auto.
Qed.
Lemma xml_decided ts v : input_ok ts v -> v <> VNull -> ty_id ts = TDB_T_XML -> decided ts v (coerce_xml alloc_ok owned v).
Proof.
  intros Hv Hn Et. unfold coerce_xml. destruct (as_text_value alloc_ok owned v) as [w|] eqn:Ew; cbn [mbind option_bind]; [|split; [by left|by destruct v]].
  destruct (retext_decided v w Ew Hn) as [s Hs]; [by destruct v|].
  assert (exists z, w = VText z /\ cstr z = cstr s) as (z & -> & Ez) by (destruct Hs as [[-> ->]|[-> ->]]; [by exists s|exists (cstr s); by rewrite cstr_idem]).
  assert (forall w', takes_as alloc_ok ts v w' <-> w' = VText z /\ xml_text (cstr s)) as Ht.
  { intros w'. unfold takes_as. rewrite Et. destruct Hs as [[-> Hw]|[-> Hw]]; by rewrite Hw. }
  rewrite Ez. pose proof (xml_text_iff (cstr s)) as Hx. destruct (skip_space (cstr s)) as [|c t].
  - no. intros w' [_ H]%Ht. apply Hx in H as (t & [=] & _).
  - destruct (Z.eqb_spec c 60) as [->|Hc]; cbn [negb]; [|no; intros w' [_ H]%Ht; apply Hx in H as (t' & [=] & _); congruence].
    destruct (Z.eqb_spec (xml_depth (60 :: t) 0) 0) as [Hd|Hd]; cbn [negb].
    + yes. intros w'. rewrite Ht. split; [tauto|]. intros ->. split; [done|]. apply Hx. by exists t.
    + no. intros w' [_ H]%Ht. apply Hx in H as (t' & [= <-] & H). done.
Qed.
Lemma interval_decided ts v : input_ok ts v -> v <> VNull -> ty_id ts = TDB_T_INTERVAL -> decided ts v (coerce_interval alloc_ok owned v).
Proof.
  intros Hv Hn Et. unfold coerce_interval. assert (value_type v <> TDB_VAL_INT -> decided ts v (v ← as_text_value alloc_ok owned v; match v with
    VText s => if shape_loop interval_chars (cstr s) false then accept v else reject TDB_MISMATCH v (str "malformed INTERVAL") | _ => None end)) as Hs.
  { intros Hi. destruct (as_text_value alloc_ok owned v) as [w|] eqn:Ew; cbn [mbind option_bind]; [|split; [by right|by destruct v]].
    destruct (retext_decided v w Ew Hn) as [s Hs]; [by destruct v|].
    assert (exists z, w = VText z /\ cstr z = cstr s) as (z & -> & Ez) by (destruct Hs as [[-> ->]|[-> ->]]; [by exists s|exists (cstr s); by rewrite cstr_idem]).
    apply (tested _ _ _ _ _ _ _ _ (shape_shaped _ _)); [|by auto]. intros w'. rewrite Ez. unfold takes_as. rewrite Et. destruct Hs as [[-> Hw]|[-> Hw]]; by rewrite Hw. }
  destruct v; try by apply Hs. yes. by_type Et. done.
Qed.
Lemma bit_decided ts v : ty_id ts = TDB_T_BIT \/ ty_id ts = TDB_T_VARBIT -> decided ts v (coerce_bit ts v).
Proof.
  intros Hid. unfold coerce_bit. destruct v as [|i|r|s|s|s]; try (destruct Hid as [Et|Et]; no; by_type Et; tauto).
  - destruct (forallb _ s) eqn:Ef; cbn [negb].
    + apply bits01 in Ef. destruct Hid as [Et|Et]; rewrite Et.
      * apply (tested' _ _ _ (0 < ty_length ts -> blen s = ty_length ts)); [lia|by_type Et; tauto|by auto].
      * apply (tested' _ _ _ (0 < ty_length ts -> blen s <= ty_length ts)); [lia|by_type Et; tauto|by auto].
    + assert (~ Forall (fun c => c = 48 \/ c = 49) s) by (by rewrite <- bits01, Ef). destruct Hid as [Et|Et]; no; by_type Et; tauto.
  - destruct Hid as [Et|Et]; yes; by_type Et; tauto.
Qed.
Lemma uuid_decided ts v : ty_id ts = TDB_T_UUID -> decided ts v (coerce_uuid v).
Proof.
  intros Et. unfold coerce_uuid. destruct v as [|i|r|s|s|s]; try (no; by_type Et; tauto).
  - apply (tested' _ _ _ (blen s = 36)); [lia|by_type Et; done|by auto].
  - apply (tested' _ _ _ (blen s = 16)); [lia|by_type Et; done|by auto].
Qed.
Lemma binary_decided ts v : match ty_id ts with TDB_T_BINARY | TDB_T_VARBINARY | TDB_T_BLOB => True | _ => False end -> decided ts v (coerce_binary ts v).
Proof.
  intros Hid. assert (forall w, takes_as alloc_ok ts v w <-> w = v /\ match v with VBlob s => 0 < ty_length ts -> blen s <= ty_length ts | _ => False end) as Ht
    by (intros w; unfold takes_as; by destruct (ty_id ts)).
  unfold coerce_binary. destruct v as [|i|r|s|s|s]; try (no; intros w; rewrite Ht; tauto). apply (tested' _ _ _ (0 < ty_length ts -> blen s <= ty_length ts)); [lia|done|by auto].
Qed.
Lemma date_decided ts v : match ty_id ts with TDB_T_DATE | TDB_T_TIME | TDB_T_TIMESTAMP => True | _ => False end -> decided ts v (coerce_date v).
Proof.
  intros Hid. assert (forall w, takes_as alloc_ok ts v w <-> w = v /\ match v with VInt _ => True | VText s => shaped (str "-:T.+Z /") (cstr s) | _ => False end) as Ht
    by (intros w; unfold takes_as; by destruct (ty_id ts)).
  unfold coerce_date. destruct v as [|i|r|s|s|s]; try (no; intros w; rewrite Ht; tauto); [yes; intros w; rewrite Ht; tauto|].
  apply (tested _ _ _ _ _ _ _ _ (shape_shaped _ _)); [done|by auto].
Qed.
Lemma type_of_point g : tdb_geom_type_of (encode g) = TDB_GEOM_POINT <-> is_point g.
Proof.
  assert (forall c l, tdb_geom_type_of (c :: l) = c) as H by (intros c l; unfold tdb_geom_type_of; rewrite blen_cons; pose proof (blen_nonneg l); by destruct (Z.leb_spec 1 (1 + blen l)); [|lia]).
  destruct g; cbn [encode is_point]; rewrite H; by split.
Qed.
Lemma geometry_decided ts v : input_ok ts v -> geometric ts = true -> decided ts v (coerce_geometry alloc_ok ts v).
Proof.
  intros Hv Hid. assert (forall w, takes_as alloc_ok ts v w <-> exists g, geom_ok g /\ w = VBlob (encode g) /\ match v with VBlob _ => w = v
    | VText s => (ty_id ts = TDB_T_POINT -> is_point g) /\ exists b, tdb_geom_from_wkt alloc_ok s tdb_buf_init = Some (TDB_OK, b, None) /\ b_data b = encode g | _ => False end) as Ht
    by (intros w; unfold takes_as, geometric in *; by destruct (ty_id ts)).
  unfold coerce_geometry. destruct v as [|i|r|s|s|s]; try (no; intros w (g & _ & _ & [])%Ht; fail).
  - destruct (from_wkt_spec alloc_ok Halloc s tdb_buf_init) as (rc & b & why & Ew & H); [apply buf_init_wf|specialize (Hv Hid); lia|]. rewrite Ew in *. cbn [mbind option_bind].
    destruct H as [(-> & -> & Hl & g & Hg & E)|(-> & _)]; [|no; intros w (g & _ & _ & _ & b' & [=] & _)%Ht].
    assert ((tdb_value_set_blob alloc_ok (b_data b) (s32 (b_len b)) true).2 = VBlob (encode g)) as ->.
    { unfold tdb_value_set_blob, value_set_bytes. rewrite Halloc. cbn [snd]. assert (0 <= b_len b) by apply blen_nonneg. specialize (Hv Hid). rewrite s32_small by lia.
      destruct (Z.ltb_spec (b_len b) 0); [lia|]. rewrite bsub_all by done. by rewrite E. }
    apply (tested' _ _ _ (ty_id ts = TDB_T_POINT -> is_point g)); [| |by auto].
    + rewrite E, <- type_of_point. destruct (ty_id ts); try (by split). rewrite negb_false_iff, Z.eqb_eq. tauto.
    + intros w. rewrite Ht. split.
      * intros (g' & _ & -> & Hp & b' & [= <-] & E'). assert (VBlob (encode g') = VBlob (encode g)) as -> by congruence. split; [done|]. intros Hpt. rewrite <- type_of_point, <- E, E', type_of_point. auto.
      * intros [-> Hp]. exists g. split; [done|]. split; [done|]. split; [done|]. by exists b.
  - cbn [input_ok] in Hv. destruct (tdb_geom_valid s) eqn:E; [yes|no]; intros w; rewrite Ht.
    + split; [by intros (g & _ & _ & ->)|]. intros ->. destruct (valid_encode s Hv E) as (g & Hg & ->). by exists g.
    + intros (g & Hg & -> & [= <-]). by rewrite encode_valid in E.
Qed.
Lemma u32_bytes_ok v : bytes_ok (tdb_put_u32 v).
Proof. repeat constructor; apply u8_range. Qed.
Lemma u64_bytes_ok v : bytes_ok (tdb_put_u64 v).
Proof. apply Forall_app. split; apply u32_bytes_ok. Qed.
Lemma encode_bytes_ok g : bytes_ok (encode g).
Proof.
  assert (forall l, bytes_ok (enc_coords l)) as Hc.
  { intros l. unfold enc_coords. apply Forall_app. split; [apply u32_bytes_ok|]. unfold enc_pts. apply Forall_concat, Forall_map, Forall_true. intros p. apply Forall_app. split; apply u64_bytes_ok. }
  destruct g as [p|ps|rs]; cbn [encode]; (constructor; [unfold is_byte; vm_compute; split; [discriminate|reflexivity]|]); [apply Forall_app; split; apply u64_bytes_ok|apply Hc|].
  apply Forall_app. split; [apply u32_bytes_ok|]. unfold enc_rings. apply Forall_concat, Forall_map, Forall_true, Hc.
Qed.
Lemma coerce_decided ts v : input_ok ts v -> v <> VNull -> decided ts v (coerce v ts).
Proof.
  intros Hv Hn. unfold tdb_typespec_coerce. assert (forall r : outcome, match v with VNull => accept v | _ => r end = r) as -> by (by destruct v).
  destruct (ty_id ts) eqn:Et.
  all: try (rewrite <- Et; apply int_decided; [done|by rewrite Et]).
  all: first [by apply boolean_decided|apply real_decided; by auto|by apply decimal_decided|apply text_decided; [done|done|by rewrite Et]|by apply xml_decided|by apply interval_decided
    |apply bit_decided; by auto|by apply uuid_decided|apply binary_decided; by rewrite Et|apply date_decided; by rewrite Et|apply geometry_decided; [done|unfold geometric; by rewrite Et]|idtac].
  - yes. by_type Et. done.
  - destruct v; try (no; by_type Et; tauto); yes; by_type Et; done.
Qed.
(** What a type took a value as, it takes as it is. *)
Lemma taken_settled ts v w : takes_as alloc_ok ts v w -> input_ok ts v -> v <> VNull -> takes_as alloc_ok ts w w /\ input_ok ts w /\ w <> VNull.
Proof.
  intros Ht Hv Hn. unfold takes_as in Ht |- *. destruct (ty_id ts) eqn:Et.
  all: try (destruct Ht as (i & -> & Hi & _); split; [by exists i|]; split; [cbn in *; lia|done]).
  all: try (destruct Ht as (s & -> & Hs & _); split; [by exists s|]; split; [unfold input_ok, geometric; by rewrite Et|done]).
  all: try (match type of Ht with _ = _ /\ _ => destruct Ht as [-> Ht] end; split; [split; [done|exact Ht]|]; by split).
  - by subst w.
  - destruct v; try done; [destruct Ht as [[_ ->]|[_ ->]]|destruct Ht as [[_ ->]|[_ ->]]]; (split; [auto|]; split; [cbn; lia|done]).
  - destruct Ht as (s & -> & Hs & Hr). split; [exists s; repeat split; [exact Hs|]|split; [unfold input_ok, geometric; by rewrite Et|done]].
    assert (forall t, cstr t = t -> parse_real_exact t <> None -> exists r, real_text (cstr t) r) as Hp.
    { intros t _ H. destruct (parse_real_exact t) as [r|] eqn:E; [|done]. exists r. by apply parse_real_text. }
    destruct v; try done; cbn [printed] in Hr; [subst s; apply Hp; [by apply cstr_nul_free, fmt_lld_nul_free|by apply parse_real_lld]|subst s; apply Hp; [apply cstr_nul_free, fmt_g_nul_free|apply parse_real_g]|by destruct Hr].
  - destruct v; try done; [by subst w|by subst w|destruct Ht as (r & _ & ->); done].
  - destruct v; try done; [by subst w|by subst w|destruct Ht as (r & _ & ->); done].
  - destruct v; try done; destruct Ht as [-> Ht]; rewrite ?cstr_idem; (split; [done|]; split; [unfold input_ok, geometric; by rewrite Et|done]).
  - destruct v; try done; [by subst w|destruct Ht as [-> Ht]; rewrite ?cstr_idem; (split; [done|]; split; [unfold input_ok, geometric; by rewrite Et|done])..].
  - destruct Ht as (g & Hg & -> & _). split; [by exists g|]. split; [apply encode_bytes_ok|done].
  - destruct Ht as (g & Hg & -> & _). split; [by exists g|]. split; [apply encode_bytes_ok|done].
  - destruct Ht as (g & Hg & -> & _). split; [by exists g|]. split; [apply encode_bytes_ok|done].
  - destruct v; try done; [by subst w|by subst w].
Qed.
Lemma coerce_settled ts v w : takes_as alloc_ok ts v w -> input_ok ts v -> v <> VNull -> coerce w ts = Some (TDB_OK, w, None).
Proof.
  intros Ht Hv Hn. destruct (taken_settled ts v w Ht Hv Hn) as (Hw & Hi & Hnw). pose proof (coerce_decided ts w Hi Hnw) as H. unfold CoerceSpec.decided in H.
  destruct (coerce w ts) as [[[rc w'] why]|] eqn:E.
  - destruct rc; try (by destruct (proj2 (proj2 H) w)). destruct H as [-> H]. by rewrite (proj1 (H w) Hw).
  - destruct H as [[Et|Et] Hx]; unfold takes_as in Hw; rewrite Et in Hw; destruct w; try done; first [by apply proj1 in Hw|unfold tdb_typespec_coerce in E; by rewrite Et in E].
Qed.
End Verdict.


(** DECIMAL(5,2) takes 10^100: the digits of the exponent count like others and
    its value does not. *)
Lemma decimal_ignores_exponent :
  tdb_typespec_coerce ok_alloc true 0 (VText (str "1e100")) (mk_typespec TDB_T_DECIMAL 0 5 2) = Some (TDB_OK, VText (str "1e100"), None).
Proof. vm_compute. reflexivity. Qed.
(** A text beyond 64 bits is the largest BIGINT. *)
Lemma bigint_saturates :
  tdb_typespec_coerce ok_alloc true 0 (VText (str "99999999999999999999")) (mk_typespec TDB_T_BIGINT 0 0 0) = Some (TDB_OK, VInt (2 ^ 63 - 1), None).
Proof. vm_compute. reflexivity. Qed.

(** A blob that holds another geometry passes as a POINT: the type of the
    geometry is only compared for text. *)
Lemma point_column_takes_line :
  let line := encode (GLine [(0, 0); (0x3FF0000000000000, 0)]) in
  tdb_typespec_coerce ok_alloc true 0 (VBlob line) (mk_typespec TDB_T_POINT 0 0 0) = Some (TDB_OK, VBlob line, None).
Proof. vm_compute. reflexivity. Qed.
(** A text of white space is the integer 0. *)
Lemma blank_is_integer : tdb_typespec_coerce ok_alloc true 0 (VText (str "  ")) (mk_typespec TDB_T_INTEGER 0 0 0) = Some (TDB_OK, VInt 0, None).
Proof. vm_compute. reflexivity. Qed.
(** Coercing a number to XML or INTERVAL copies the released text. *)
Lemma xml_of_number_reads_freed r : tdb_typespec_coerce ok_alloc true 0 (VReal r) (mk_typespec TDB_T_XML 0 0 0) = None.
Proof.
  unfold tdb_typespec_coerce, coerce_xml, as_text_value, retext. cbn [ty_id tdb_value_as_text].
  by destruct (materialize_spec ok_alloc _ (fmt_g_nul_free r)) as [->|[_ H]].
Qed.
