(* ===== verification/EngineRow.v ===== *)
(** * The row engine (src/src/storage/engine_row.c)

    A table is a B-tree from rowids to row values; a value is a header
    ([xmin], [xmax], [prev_vid]) and the user record.  UPDATE moves the old
    version to the history tree and links it, DELETE sets [xmax]; a reader
    walks the versions and takes the first one visible to it.

    [None] stands for what C leaves undefined (an array overrun, a row value
    shorter than its header) and for the loops a corrupt file could make
    endless: [depth] bounds the walks in a tree, [rounds] the loops over rows
    and versions.  The R-tree is an interface. *)
From S2P Require Import Prelude Util Buf Value Record Mvcc Txn Btree Cursor Schema.

(** ** The R-tree, as the engine uses it *)

Class RtreeOps (P : Type) := {
  bbox : Type;
  geom_bbox : list Z -> option bbox;                                    (* tdb_geom_bbox *)
  rt_create : P -> tdb_status * P * Z;                                  (* tdb_rtree_create *)
  rt_destroy : P -> Z -> tdb_status * P;                                (* tdb_rtree_destroy *)
  rt_insert : P -> Z -> bbox -> Z -> tdb_status * P;                    (* tdb_rtree_insert *)
  rt_delete : P -> Z -> bbox -> Z -> tdb_status * P * bool;             (* tdb_rtree_delete *)
  rt_search : forall S, P -> Z -> bbox -> (S -> Z -> tdb_status * S) -> S -> tdb_status * P * S (* tdb_rtree_search *) }.

(** ** Row header *)

Definition put_rowhdr (xmin xmax prev : Z) : list Z := tdb_put_varint xmin ++ tdb_put_varint xmax ++ tdb_put_varint prev.
(** The header and the record; each varint is read with 10 bytes allowed,
    whatever the length of the value. *)
Definition get_rowhdr (v : list Z) : option (Z * Z * Z * list Z) :=
  match tdb_get_varint v 10 with
  | None => None
  | Some (a, xmin) =>
      match tdb_get_varint (bfrom v a) 10 with
      | None => None
      | Some (b, xmax) =>
          match tdb_get_varint (bfrom v (a + b)) 10 with
          | None => None
          | Some (c, prev) =>
              if blen v <? a + b + c then None else Some (xmin, xmax, prev, bfrom v (a + b + c))
          end
      end
  end.

Section Engine.
Context {P : Type} `{PagerPages P, RtreeOps P} (alloc_ok : Z -> bool) (depth rounds : nat).

Record row_engine := mk_engine { e_pager : P; e_scratch : tdb_buf }.

Definition wrap_row (out : tdb_buf) (xmin xmax prev : Z) (rec : list Z) : tdb_status * tdb_buf :=
  match tdb_buf_append alloc_ok (tdb_buf_reset out) (put_rowhdr xmin xmax prev) with
  | (TDB_OK, out) => tdb_buf_append alloc_ok out rec
  | (rc, out) => (rc, out)
  end.

(** ** Indexes *)

(** The arrays of the caller have 34 places. *)
Definition build_keyinfo (t : tdb_table) (ix : tdb_index) : option tdb_keyinfo :=
  let n := length (ix_col_idx ix) in
  if (33 <? Z.of_nat n) then None
  else
    match mapM (fun ci => if ci <? 0 then None else col_coll <$> tb_cols t !! Z.to_nat ci) (ix_col_idx ix) with
    | None => None
    | Some colls =>
        let desc := match ix_desc ix with Some d => take n d | None => replicate n false end in
        Some (mk_keyinfo (Z.of_nat n + 1) (Some (colls ++ [TDB_COLL_BINARY])) (Some (desc ++ [false])))
    end.

(** The record is decoded into 32 places, the key has 33. *)
Definition build_index_key (ix : tdb_index) (rec : list Z) (rowid : Z) (out : tdb_buf) : option (tdb_status * tdb_buf) :=
  match tdb_record_decode alloc_ok rec 32 with
  | (TDB_OK, vals, nc) =>
      if (32 <? nc) || (32 <? Z.of_nat (length (ix_col_idx ix))) || existsb (fun ci => ci <? 0) (ix_col_idx ix) then None
      else
        let key := map (fun ci => if ci <? nc then (tdb_value_copy alloc_ok (nth (Z.to_nat ci) vals VNull)).2 else VNull)
                     (ix_col_idx ix) in
        Some (tdb_record_encode alloc_ok (key ++ [VInt (s64 rowid)]) (tdb_buf_reset out))
  | _ => Some (TDB_CORRUPT, out)
  end.

Definition open_index (p : P) (t : tdb_table) (ix : tdb_index) : option (tdb_status * option tdb_btree) :=
  match build_keyinfo t ix with
  | None => None
  | Some ki => Some (tdb_btree_open alloc_ok p (ix_root ix) TDB_BT_INDEX (Some ki))
  end.

Definition row_geom_bbox (ix : tdb_index) (rec : list Z) : option (tdb_status * option bbox) :=
  match tdb_record_decode alloc_ok rec 32 with
  | (TDB_OK, vals, nc) =>
      match ix_col_idx ix with
      | [] => None
      | ci :: _ =>
          if (32 <? nc) || (ci <? 0) then None
          else if ci <? nc then
            match nth (Z.to_nat ci) vals VNull with
            | VBlob b => Some (TDB_OK, geom_bbox b)
            | _ => Some (TDB_OK, None)
            end
          else Some (TDB_OK, None)
      end
  | _ => Some (TDB_CORRUPT, None)
  end.
Definition rtree_apply (p : P) (ix : tdb_index) (rec : list Z) (rowid : Z) (insert : bool) : option (tdb_status * P) :=
  match row_geom_bbox ix rec with
  | None => None
  | Some (TDB_OK, Some bb) =>
      if insert then Some (rt_insert p (ix_root ix) bb rowid) else Some (rt_delete p (ix_root ix) bb rowid).1
  | Some (rc, _) => Some (rc, p)
  end.

(** One index of [index_apply]. *)
Definition btree_index_apply (p : P) (t : tdb_table) (ix : tdb_index) (rec : list Z) (rowid : Z) (insert : bool)
  : option (tdb_status * P) :=
  match open_index p t ix with
  | None => None
  | Some (TDB_OK, Some ib) =>
      match build_index_key ix rec rowid tdb_buf_init with
      | None => None
      | Some (TDB_OK, key) =>
          if insert then tdb_index_put alloc_ok depth ib p (b_data key)
          else match tdb_index_del alloc_ok depth ib p (b_data key) with Some (rc, p, _) => Some (rc, p) | None => None end
      | Some (rc, _) => Some (rc, p)
      end
  | Some (rc, _) => Some (rc, p)
  end.
Fixpoint index_apply (p : P) (t : tdb_table) (indexes : list tdb_index) (rec : list Z) (rowid : Z) (insert : bool)
  : option (tdb_status * P) :=
  match indexes with
  | [] => Some (TDB_OK, p)
  | ix :: indexes =>
      match (match ix_kind ix with
             | TDB_IDX_RTREE => rtree_apply p ix rec rowid insert
             | TDB_IDX_BTREE => btree_index_apply p t ix rec rowid insert
             end) with
      | None => None
      | Some (TDB_OK, p) => index_apply p t indexes rec rowid insert
      | Some (rc, p) => Some (rc, p)
      end
  end.

(** ** Tables *)

Definition eng_create_table (e : row_engine) (t : tdb_table) : tdb_status * row_engine * tdb_table :=
  match tdb_btree_create (e_pager e) TDB_BT_TABLE with
  | (TDB_OK, p, root) =>
      match tdb_btree_create p TDB_BT_TABLE with
      | (TDB_OK, p, h) => (TDB_OK, mk_engine p (e_scratch e), tset_roots t root h)
      | (rc, p, _) => (rc, mk_engine p (e_scratch e), tset_roots t root (tb_history_root t))
      end
  | (rc, p, _) => (rc, mk_engine p (e_scratch e), t)
  end.

(** The tree of an index. *)
Definition destroy_index (p : P) (ix : tdb_index) : option (tdb_status * P) :=
  match ix_kind ix with
  | TDB_IDX_RTREE => Some (rt_destroy p (ix_root ix))
  | TDB_IDX_BTREE => tdb_btree_destroy alloc_ok depth p (ix_root ix) TDB_BT_INDEX
  end.
Fixpoint destroy_indexes (p : P) (indexes : list tdb_index) : option (tdb_status * P) :=
  match indexes with
  | [] => Some (TDB_OK, p)
  | ix :: indexes =>
      match destroy_index p ix with
      | Some (TDB_OK, p) => destroy_indexes p indexes
      | r => r
      end
  end.
Definition eng_drop_table (e : row_engine) (t : tdb_table) : option (tdb_status * row_engine) :=
  let r := match tdb_btree_destroy alloc_ok depth (e_pager e) (tb_root t) TDB_BT_TABLE with
           | Some (TDB_OK, p) =>
               match (if negb (tb_history_root t =? 0)
                      then tdb_btree_destroy alloc_ok depth p (tb_history_root t) TDB_BT_TABLE else Some (TDB_OK, p)) with
               | Some (TDB_OK, p) => destroy_indexes p (tb_indexes t)
               | r => r
               end
           | r => r
           end in
  match r with Some (rc, p) => Some (rc, mk_engine p (e_scratch e)) | None => None end.
Definition eng_drop_index (e : row_engine) (ix : tdb_index) : option (tdb_status * row_engine) :=
  match destroy_index (e_pager e) ix with Some (rc, p) => Some (rc, mk_engine p (e_scratch e)) | None => None end.

Definition eng_next_rowid (e : row_engine) (t : tdb_table) : option (tdb_status * row_engine * Z) :=
  match tdb_btree_open alloc_ok (e_pager e) (tb_root t) TDB_BT_TABLE None with
  | (TDB_OK, Some bt) =>
      match tdb_btree_max_rowid alloc_ok depth bt (e_pager e) with
      | None => None
      | Some (TDB_OK, p, mx) => Some (TDB_OK, mk_engine p (e_scratch e), u64 (mx + 1))
      | Some (rc, p, _) => Some (rc, mk_engine p (e_scratch e), 0)
      end
  | (rc, _) => Some (rc, e, 0)
  end.

(** ** Writing rows *)

(** [wrap_row] into the scratch buffer and [tdb_btree_put]. *)
Definition put_version (e : row_engine) (bt : tdb_btree) (rowid xmin xmax prev : Z) (rec : list Z)
  : option (tdb_status * row_engine) :=
  match wrap_row (e_scratch e) xmin xmax prev rec with
  | (TDB_OK, b) =>
      match tdb_btree_put alloc_ok depth bt (e_pager e) rowid (b_data b) with
      | Some (rc, p) => Some (rc, mk_engine p b)
      | None => None
      end
  | (rc, b) => Some (rc, mk_engine (e_pager e) b)
  end.
(** The same with a buffer of the caller. *)
Definition put_wrapped (p : P) (bt : tdb_btree) (rowid xmin xmax prev : Z) (rec : list Z) : option (tdb_status * P) :=
  match wrap_row tdb_buf_init xmin xmax prev rec with
  | (TDB_OK, b) => tdb_btree_put alloc_ok depth bt p rowid (b_data b)
  | (rc, b) => Some (rc, p)
  end.
(** The index maintenance that ends INSERT and UPDATE. *)
Definition then_index (r : option (tdb_status * row_engine)) (t : tdb_table) (rowid : Z) (rec : list Z)
  : option (tdb_status * row_engine) :=
  match r with
  | Some (TDB_OK, e) =>
      match index_apply (e_pager e) t (tb_indexes t) rec rowid true with
      | Some (rc, p) => Some (rc, mk_engine p (e_scratch e))
      | None => None
      end
  | r => r
  end.
Definition eng_insert (txn : tdb_txn) (e : row_engine) (t : tdb_table) (rowid : Z) (rec : list Z)
  : option (tdb_status * row_engine) :=
  match tdb_btree_open alloc_ok (e_pager e) (tb_root t) TDB_BT_TABLE None with
  | (TDB_OK, Some bt) => then_index (put_version e bt rowid (t_id txn) 0 0 rec) t rowid rec
  | (rc, _) => Some (rc, e)
  end.

Definition fetch_main (p : P) (bt : tdb_btree) (rowid : Z) (into : tdb_buf)
  : option (tdb_status * P * tdb_buf * bool) :=
  match tdb_cursor_open alloc_ok with
  | (TDB_OK, Some c) =>
      match tdb_cursor_seek_rowid alloc_ok depth bt p c rowid with
      | None => None
      | Some (TDB_OK, p, c, true) =>
          match tdb_cursor_data alloc_ok bt p c with
          | (TDB_OK, p, c, v) =>
              let '(rc, into) := tdb_buf_append alloc_ok (tdb_buf_reset into) v in
              Some (rc, tdb_cursor_close p c, into, true)
          | (rc, p, c, _) => Some (rc, tdb_cursor_close p c, into, true)
          end
      | Some (rc, p, c, f) => Some (rc, tdb_cursor_close p c, into, f)
      end
  | (rc, _) => Some (rc, p, into, false)
  end.

(** The old version goes to the history tree under the next version id. *)
Definition push_history (p : P) (hist : tdb_btree) (txn : tdb_txn) (oxmin oprev : Z) (orec : list Z)
  : option (tdb_status * P * Z) :=
  match tdb_btree_max_rowid alloc_ok depth hist p with
  | None => None
  | Some (TDB_OK, p, mx) =>
      let vid := u64 (mx + 1) in
      match put_wrapped p hist vid oxmin (t_id txn) oprev orec with
      | Some (rc, p) => Some (rc, p, vid)
      | None => None
      end
  | Some (rc, p, mx) => Some (rc, p, mx)
  end.
Definition eng_update (txn : tdb_txn) (e : row_engine) (t : tdb_table) (rowid : Z) (rec : list Z)
  : option (tdb_status * row_engine) :=
  match tdb_btree_open alloc_ok (e_pager e) (tb_root t) TDB_BT_TABLE None,
        tdb_btree_open alloc_ok (e_pager e) (tb_history_root t) TDB_BT_TABLE None with
  | (TDB_OK, Some bt), (TDB_OK, Some hist) =>
      match fetch_main (e_pager e) bt rowid tdb_buf_init with
      | None => None
      | Some (TDB_OK, p, old, true) =>
          match get_rowhdr (b_data old) with
          | None => None
          | Some (oxmin, oxmax, oprev, orec) =>
              match push_history p hist txn oxmin oprev orec with
              | None => None
              | Some (TDB_OK, p, vid) =>
                  then_index (put_version (mk_engine p (e_scratch e)) bt rowid (t_id txn) 0 vid rec) t rowid rec
              | Some (rc, p, _) => Some (rc, mk_engine p (e_scratch e))
              end
          end
      | Some (TDB_OK, p, _, false) => Some (TDB_NOTFOUND, mk_engine p (e_scratch e))
      | Some (rc, p, _, _) => Some (rc, mk_engine p (e_scratch e))
      end
  | (TDB_OK, _), (rc, _) => Some (rc, e)
  | (rc, _), _ => Some (rc, e)
  end.

Definition eng_remove (txn : tdb_txn) (e : row_engine) (t : tdb_table) (rowid : Z) : option (tdb_status * row_engine) :=
  match tdb_btree_open alloc_ok (e_pager e) (tb_root t) TDB_BT_TABLE None with
  | (TDB_OK, Some bt) =>
      match fetch_main (e_pager e) bt rowid tdb_buf_init with
      | None => None
      | Some (TDB_OK, p, old, true) =>
          match get_rowhdr (b_data old) with
          | None => None
          | Some (oxmin, oxmax, oprev, orec) =>
              match put_wrapped p bt rowid oxmin (t_id txn) oprev orec with
              | Some (rc, p) => Some (rc, mk_engine p (e_scratch e))
              | None => None
              end
          end
      | Some (TDB_OK, p, _, false) => Some (TDB_NOTFOUND, mk_engine p (e_scratch e))
      | Some (rc, p, _, _) => Some (rc, mk_engine p (e_scratch e))
      end
  | (rc, _) => Some (rc, e)
  end.

(** ** Reading rows *)

Section Read.
Context {M : Type} (m : tdb_txnmgr M) (txn : tdb_txn).

(** The first visible version of the chain that starts with [work]; the
    results are the buffers [work] and [out] and [*found]. *)
Fixpoint resolve_loop (n : nat) (p : P) (hist : tdb_btree) (work out : tdb_buf) (as_of : Z)
  : option (tdb_status * P * tdb_buf * tdb_buf * bool) :=
  match n with
  | O => None
  | S n =>
      match get_rowhdr (b_data work) with
      | None => None
      | Some (xmin, xmax, prev, rec) =>
          if (if negb (as_of =? 0) then tdb_txn_visible_asof m txn xmin xmax as_of else tdb_txn_visible m txn xmin xmax)
          then
            match tdb_buf_append alloc_ok (tdb_buf_reset out) rec with
            | (TDB_OK, out) => Some (TDB_OK, p, work, out, true)
            | (rc, out) => Some (rc, p, work, out, false)
            end
          else if prev =? 0 then Some (TDB_OK, p, work, out, false)
          else
            match tdb_cursor_open alloc_ok with
            | (TDB_OK, Some hc) =>
                match tdb_cursor_seek_rowid alloc_ok depth hist p hc prev with
                | None => None
                | Some (TDB_OK, p, hc, true) =>
                    match tdb_cursor_data alloc_ok hist p hc with
                    | (TDB_OK, p, hc, v) =>
                        match tdb_buf_append alloc_ok (tdb_buf_reset work) v with
                        | (TDB_OK, work) => resolve_loop n (tdb_cursor_close p hc) hist work out as_of
                        | (rc, work) => Some (rc, tdb_cursor_close p hc, work, out, false)
                        end
                    | (rc, p, hc, _) => Some (rc, tdb_cursor_close p hc, work, out, false)
                    end
                | Some (_, p, hc, _) => Some (TDB_OK, tdb_cursor_close p hc, work, out, false)
                end
            | (rc, _) => Some (rc, p, work, out, false)
            end
      end
  end.
Definition resolve_visible (p : P) (hist : tdb_btree) (mainval : list Z) (work out : tdb_buf) (as_of : Z)
  : option (tdb_status * P * tdb_buf * tdb_buf * bool) :=
  match tdb_buf_append alloc_ok (tdb_buf_reset work) mainval with
  | (TDB_OK, work) => resolve_loop rounds p hist work out as_of
  | (rc, work) => Some (rc, p, work, out, false)
  end.

(** [Some rec] when [*found] is set. *)
Definition eng_seek_rowid (e : row_engine) (t : tdb_table) (rowid : Z)
  : option (tdb_status * row_engine * option (list Z)) :=
  match tdb_btree_open alloc_ok (e_pager e) (tb_root t) TDB_BT_TABLE None,
        tdb_btree_open alloc_ok (e_pager e) (tb_history_root t) TDB_BT_TABLE None with
  | (TDB_OK, Some bt), (TDB_OK, Some hist) =>
      match fetch_main (e_pager e) bt rowid tdb_buf_init with
      | None => None
      | Some (TDB_OK, p, mainv, true) =>
          match resolve_visible p hist (b_data mainv) tdb_buf_init (e_scratch e) 0 with
          | None => None
          | Some (rc, p, _, out, found) =>
              Some (rc, mk_engine p out, if bool_decide (rc = TDB_OK) && found then Some (b_data out) else None)
          end
      | Some (rc, p, _, _) => Some (rc, mk_engine p (e_scratch e), None)
      end
  | (TDB_OK, _), (rc, _) => Some (rc, e, None)
  | (rc, _), _ => Some (rc, e, None)
  end.

(** ** Scans *)

Record tdb_keyrange := mk_keyrange {
  kr_lo : option (tdb_value * bool);     (* [has_lo], [lo], [lo_incl] *)
  kr_hi : option (tdb_value * bool);
  kr_bbox : option bbox }.
(** [sc_range] is set when [has_range] is; the B-tree cursor is [sc_cur]. *)
Record tdb_scan := mk_scan {
  sc_t : tdb_table;
  sc_tbl : tdb_btree;
  sc_hist : tdb_btree;
  sc_cur : option tdb_cursor;
  sc_rec : tdb_buf;
  sc_work : tdb_buf;
  sc_idx : option tdb_index;
  sc_ixbt : option tdb_btree;
  sc_range : option tdb_keyrange;
  sc_as_of : Z;
  sc_spatial : bool;
  sc_cand : list Z;
  sc_candcap : Z;
  sc_candi : Z }.
Definition sset_cur (sc : tdb_scan) (c : tdb_cursor) : tdb_scan :=
  mk_scan (sc_t sc) (sc_tbl sc) (sc_hist sc) (Some c) (sc_rec sc) (sc_work sc) (sc_idx sc) (sc_ixbt sc) (sc_range sc)
    (sc_as_of sc) (sc_spatial sc) (sc_cand sc) (sc_candcap sc) (sc_candi sc).
Definition sset_bufs (sc : tdb_scan) (work rec : tdb_buf) : tdb_scan :=
  mk_scan (sc_t sc) (sc_tbl sc) (sc_hist sc) (sc_cur sc) rec work (sc_idx sc) (sc_ixbt sc) (sc_range sc)
    (sc_as_of sc) (sc_spatial sc) (sc_cand sc) (sc_candcap sc) (sc_candi sc).
Definition sset_cand (sc : tdb_scan) (cand : list Z) (cap i : Z) : tdb_scan :=
  mk_scan (sc_t sc) (sc_tbl sc) (sc_hist sc) (sc_cur sc) (sc_rec sc) (sc_work sc) (sc_idx sc) (sc_ixbt sc) (sc_range sc)
    (sc_as_of sc) (sc_spatial sc) cand cap i.

Definition rtree_collect (sc : tdb_scan) (rowid : Z) : tdb_status * tdb_scan :=
  let n := Z.of_nat (length (sc_cand sc)) in
  if n =? sc_candcap sc then
    let cap := if sc_candcap sc =? 0 then 32 else sc_candcap sc * 2 in
    if negb (alloc_ok (8 * cap)) then (TDB_NOMEM, sc)
    else (TDB_OK, sset_cand sc (sc_cand sc ++ [rowid]) cap (sc_candi sc))
  else (TDB_OK, sset_cand sc (sc_cand sc ++ [rowid]) (sc_candcap sc) (sc_candi sc)).

Definition eng_scan_close (p : P) (sc : tdb_scan) : P :=
  match sc_cur sc with Some c => tdb_cursor_close p c | None => p end.

(** The three kinds of scan; [sizeof(tdb_scan)] is 464.  The results of
    positioning an index cursor are not looked at. *)
Definition scan_open_spatial (p : P) (sc : tdb_scan) (ix : tdb_index) (range : option tdb_keyrange)
  : tdb_status * P * option tdb_scan :=
  match (match range with Some r => kr_bbox r | None => None end) with
  | Some bb =>
      match rt_search _ p (ix_root ix) bb rtree_collect sc with
      | (TDB_OK, p, sc) => (TDB_OK, p, Some (sset_cand sc (sc_cand sc) (sc_candcap sc) 0))
      | (rc, p, sc) => (rc, eng_scan_close p sc, None)
      end
  | None => (TDB_OK, p, Some sc)
  end.
Definition scan_open_index (p : P) (sc : tdb_scan) (t : tdb_table) (ix : tdb_index) (range : option tdb_keyrange)
  : option (tdb_status * P * option tdb_scan) :=
  match open_index p t ix with
  | None => None
  | Some (TDB_OK, Some ib) =>
      match tdb_cursor_open alloc_ok with
      | (TDB_OK, Some c) =>
          let lo := match range with Some r => kr_lo r | None => None end in
          match
            (match lo with
             | Some (lo, _) =>
                 let '(_, kb) := tdb_record_encode alloc_ok [lo] tdb_buf_init in
                 match tdb_cursor_seek alloc_ok depth ib p c (b_data kb) with
                 | Some (_, p, c, _) => Some (p, c)
                 | None => None
                 end
             | None => match tdb_cursor_first depth ib p c with Some (_, p, c) => Some (p, c) | None => None end
             end)
          with
          | None => None
          | Some (p, c) =>
              Some (TDB_OK, p, Some (mk_scan (sc_t sc) (sc_tbl sc) (sc_hist sc) (Some c) (sc_rec sc) (sc_work sc)
                                       (Some ix) (Some ib) range (sc_as_of sc) false [] 0 0))
          end
      | (rc, _) => Some (rc, p, None)
      end
  | Some (rc, _) => Some (rc, p, None)
  end.
Definition scan_open_full (p : P) (sc : tdb_scan) : option (tdb_status * P * option tdb_scan) :=
  match tdb_cursor_open alloc_ok with
  | (TDB_OK, Some c) =>
      match tdb_cursor_first depth (sc_tbl sc) p c with
      | None => None
      | Some (TDB_OK, p, c) => Some (TDB_OK, p, Some (sset_cur sc c))
      | Some (rc, p, c) => Some (rc, tdb_cursor_close p c, None)
      end
  | (rc, _) => Some (rc, p, None)
  end.
Definition eng_scan_open (p : P) (t : tdb_table) (use_idx : option tdb_index) (range : option tdb_keyrange) (as_of : Z)
  : option (tdb_status * P * option tdb_scan) :=
  if negb (alloc_ok 464) then Some (TDB_NOMEM, p, None)
  else
    match tdb_btree_open alloc_ok p (tb_root t) TDB_BT_TABLE None,
          tdb_btree_open alloc_ok p (tb_history_root t) TDB_BT_TABLE None with
    | (TDB_OK, Some tbl), (TDB_OK, Some hist) =>
        let sc := mk_scan t tbl hist None tdb_buf_init tdb_buf_init None None None as_of false [] 0 0 in
        match use_idx with
        | Some ix =>
            match ix_kind ix with
            | TDB_IDX_RTREE =>
                Some (scan_open_spatial p (mk_scan t tbl hist None tdb_buf_init tdb_buf_init (Some ix) None None as_of true [] 0 0) ix range)
            | TDB_IDX_BTREE => scan_open_index p sc t ix range
            end
        | None => scan_open_full p sc
        end
    | (TDB_OK, _), (rc, _) => Some (rc, p, None)
    | (rc, _), _ => Some (rc, p, None)
    end.

(** The result of a step of a scan: [Some (rowid, rec)] with [TDB_ROW]. *)
Definition scan_result : Type := option (tdb_status * P * tdb_scan * option (Z * list Z)).

(** Fetch the row of a candidate and take its visible version; [None] inside
    when the row is skipped. *)
Definition scan_fetch (p : P) (sc : tdb_scan) (rid : Z)
  : option (tdb_status * P * tdb_scan * option (Z * list Z)) :=
  match fetch_main p (sc_tbl sc) rid tdb_buf_init with
  | None => None
  | Some (TDB_OK, p, mainv, true) =>
      match resolve_visible p (sc_hist sc) (b_data mainv) (sc_work sc) (sc_rec sc) (sc_as_of sc) with
      | None => None
      | Some (rc, p, work, rec, found) =>
          Some (rc, p, sset_bufs sc work rec, if bool_decide (rc = TDB_OK) && found then Some (rid, b_data rec) else None)
      end
  | Some (rc, p, _, _) => Some (rc, p, sc, None)
  end.

(** The bounds of the scan on the leading column: [stop] and [skip]. *)
Definition range_stop (r : option tdb_keyrange) (v : tdb_value) : bool :=
  match r with
  | Some r => match kr_hi r with
              | Some (hi, incl) => let c := tdb_value_compare v hi TDB_COLL_BINARY in (0 <? c) || ((c =? 0) && negb incl)
              | None => false
              end
  | None => false
  end.
Definition range_skip (r : option tdb_keyrange) (v : tdb_value) : bool :=
  match r with
  | Some r => match kr_lo r with
              | Some (lo, incl) => let c := tdb_value_compare v lo TDB_COLL_BINARY in (c <? 0) || ((c =? 0) && negb incl)
              | None => false
              end
  | None => false
  end.

Fixpoint scan_next_index (n : nat) (p : P) (sc : tdb_scan) (ib : tdb_btree) (c : tdb_cursor) : scan_result :=
  match n with
  | O => None
  | S n =>
      if tdb_cursor_eof c then Some (TDB_DONE, p, sset_cur sc c, None)
      else
        match tdb_cursor_key ib p c with
        | (TDB_OK, k) =>
            match tdb_record_decode alloc_ok k 34 with
            | (TDB_OK, cols, nc) =>
                if nc <? 1 then
                  match tdb_cursor_next depth p c with
                  | Some (_, p, c) => scan_next_index n p sc ib c
                  | None => None
                  end
                else if 34 <? nc then None
                else
                  let v := nth 0 cols VNull in
                  if range_stop (sc_range sc) v then Some (TDB_DONE, p, sset_cur sc c, None)
                  else
                    let rid := u64 (tdb_value_as_int (nth (Z.to_nat (nc - 1)) cols VNull)) in
                    let skip := range_skip (sc_range sc) v in
                    match tdb_cursor_next depth p c with
                    | None => None
                    | Some (_, p, c) =>
                        if skip then scan_next_index n p sc ib c
                        else
                          match scan_fetch p sc rid with
                          | None => None
                          | Some (TDB_OK, p, sc, Some row) => Some (TDB_ROW, p, sset_cur sc c, Some row)
                          | Some (TDB_OK, p, sc, None) => scan_next_index n p sc ib c
                          | Some (rc, p, sc, _) => Some (rc, p, sset_cur sc c, None)
                          end
                    end
            | _ =>
                match tdb_cursor_next depth p c with
                | Some (_, p, c) => scan_next_index n p sc ib c
                | None => None
                end
            end
        | _ => Some (TDB_DONE, p, sset_cur sc c, None)
        end
  end.
Fixpoint scan_next_spatial (n : nat) (p : P) (sc : tdb_scan) : scan_result :=
  match n with
  | O => None
  | S n =>
      match sc_cand sc !! Z.to_nat (sc_candi sc) with
      | None => Some (TDB_DONE, p, sc, None)
      | Some rid =>
          let sc := sset_cand sc (sc_cand sc) (sc_candcap sc) (sc_candi sc + 1) in
          match scan_fetch p sc rid with
          | None => None
          | Some (TDB_OK, p, sc, Some row) => Some (TDB_ROW, p, sc, Some row)
          | Some (TDB_OK, p, sc, None) => scan_next_spatial n p sc
          | Some (rc, p, sc, _) => Some (rc, p, sc, None)
          end
      end
  end.
Fixpoint scan_next_full (n : nat) (p : P) (sc : tdb_scan) (c : tdb_cursor) : scan_result :=
  match n with
  | O => None
  | S n =>
      if tdb_cursor_eof c then Some (TDB_DONE, p, sset_cur sc c, None)
      else
        match tdb_cursor_data alloc_ok (sc_tbl sc) p c with
        | (TDB_OK, p, c, v) =>
            let rid := (tdb_cursor_rowid (sc_tbl sc) p c).2 in
            match resolve_visible p (sc_hist sc) v (sc_work sc) (sc_rec sc) (sc_as_of sc) with
            | None => None
            | Some (TDB_OK, p, work, rec, found) =>
                let sc := sset_bufs sc work rec in
                match tdb_cursor_next depth p c with
                | None => None
                | Some (_, p, c) =>
                    if found then Some (TDB_ROW, p, sset_cur sc c, Some (rid, b_data rec)) else scan_next_full n p sc c
                end
            | Some (rc, p, work, rec, _) => Some (rc, p, sset_cur (sset_bufs sc work rec) c, None)
            end
        | (rc, p, c, _) => Some (rc, p, sset_cur sc c, None)
        end
  end.
Definition eng_scan_next (p : P) (sc : tdb_scan) : scan_result :=
  if sc_spatial sc then scan_next_spatial rounds p sc
  else
    match sc_cur sc with
    | None => None
    | Some c =>
        match sc_ixbt sc with
        | Some ib => scan_next_index rounds p sc ib c
        | None => scan_next_full rounds p sc c
        end
    end.

(** ** CREATE INDEX *)

(** The rows of the scan are added to the new index; failures are not looked
    at. *)
Definition index_row (p : P) (t : tdb_table) (ix : tdb_index) (rid : Z) (rec : list Z) : option P :=
  match ix_kind ix with
  | TDB_IDX_RTREE => match rtree_apply p ix rec rid true with Some (_, p) => Some p | None => None end
  | TDB_IDX_BTREE => match btree_index_apply p t ix rec rid true with Some (_, p) => Some p | None => None end
  end.
Fixpoint populate_index (n : nat) (p : P) (sc : tdb_scan) (t : tdb_table) (ix : tdb_index) : option (tdb_status * P * tdb_scan) :=
  match n with
  | O => None
  | S n =>
      match eng_scan_next p sc with
      | None => None
      | Some (TDB_ROW, p, sc, Some (rid, rec)) =>
          match index_row p t ix rid rec with
          | Some p => populate_index n p sc t ix
          | None => None
          end
      | Some (rc, p, sc, _) => Some (rc, p, sc)
      end
  end.
Definition eng_create_index (e : row_engine) (t : tdb_table) (ix : tdb_index) : option (tdb_status * row_engine * tdb_index) :=
  match (match ix_kind ix with
         | TDB_IDX_RTREE => rt_create (e_pager e)
         | TDB_IDX_BTREE => tdb_btree_create (e_pager e) TDB_BT_INDEX
         end) with
  | (TDB_OK, p, root) =>
      let ix := iset_root ix root in
      match eng_scan_open p t None None 0 with
      | None => None
      | Some (TDB_OK, p, Some sc) =>
          match populate_index rounds p sc t ix with
          | None => None
          | Some (rc, p, sc) =>
              Some (if bool_decide (rc = TDB_DONE) then TDB_OK else rc, mk_engine (eng_scan_close p sc) (e_scratch e), ix)
          end
      | Some (rc, p, _) => Some (rc, mk_engine p (e_scratch e), ix)
      end
  | (rc, p, _) => Some (rc, mk_engine p (e_scratch e), ix)
  end.
End Read.

(** ** DROP COLUMN *)

(** The rowids of a tree; the array starts with 64 places and doubles, and
    the result of [realloc] is not checked. *)
Fixpoint collect_ids (n : nat) (p : P) (bt : tdb_btree) (c : tdb_cursor) (ids : list Z) (cap : Z)
  : option (P * tdb_cursor * list Z) :=
  match n with
  | O => None
  | S n =>
      if tdb_cursor_eof c then Some (p, c, ids)
      else
        match
          (match tdb_cursor_rowid bt p c with
           | (TDB_OK, id) =>
               if Z.of_nat (length ids) =? cap then
                 let cap := if cap =? 0 then 64 else cap * 2 in
                 if alloc_ok (8 * cap) then Some (ids ++ [id], cap) else None
               else Some (ids ++ [id], cap)
           | _ => Some (ids, cap)
           end)
        with
        | None => None
        | Some (ids, cap) =>
            match tdb_cursor_next depth p c with
            | Some (_, p, c) => collect_ids n p bt c ids cap
            | None => None
            end
        end
  end.
(** The record without column [ci]; 64 values are decoded. *)
Definition drop_field (rec : list Z) (ci : Z) (recbuf : tdb_buf) : option (tdb_status * tdb_buf) :=
  match tdb_record_decode alloc_ok rec 64 with
  | (TDB_OK, vals, nc) =>
      if (64 <? nc) || (ci <? 0) then None
      else
        let vals := if ci <? nc then delete (Z.to_nat ci) vals else vals in
        Some (tdb_record_encode alloc_ok vals (tdb_buf_reset recbuf))
  | _ => Some (TDB_CORRUPT, recbuf)
  end.
Fixpoint rewrite_rows (p : P) (bt : tdb_btree) (ids : list Z) (ci : Z) (cur_row recbuf wrapped : tdb_buf)
  : option (tdb_status * P) :=
  match ids with
  | [] => Some (TDB_OK, p)
  | id :: ids =>
      match fetch_main p bt id cur_row with
      | None => None
      | Some (TDB_OK, p, cur_row, false) => rewrite_rows p bt ids ci cur_row recbuf wrapped
      | Some (TDB_OK, p, cur_row, true) =>
          match get_rowhdr (b_data cur_row) with
          | None => None
          | Some (xmin, xmax, prev, rec) =>
              match drop_field rec ci recbuf with
              | None => None
              | Some (TDB_OK, recbuf) =>
                  match wrap_row wrapped xmin xmax prev (b_data recbuf) with
                  | (TDB_OK, wrapped) =>
                      match tdb_btree_put alloc_ok depth bt p id (b_data wrapped) with
                      | Some (TDB_OK, p) => rewrite_rows p bt ids ci cur_row recbuf wrapped
                      | r => r
                      end
                  | (rc, _) => Some (rc, p)
                  end
              | Some (rc, _) => Some (rc, p)
              end
          end
      | Some (rc, p, _, _) => Some (rc, p)
      end
  end.
Definition rewrite_drop_col_bt (p : P) (root ci : Z) : option (tdb_status * P) :=
  match tdb_btree_open alloc_ok p root TDB_BT_TABLE None with
  | (TDB_OK, Some bt) =>
      match tdb_cursor_open alloc_ok with
      | (TDB_OK, Some c) =>
          match tdb_cursor_first depth bt p c with
          | None => None
          | Some (_, p, c) =>
              match collect_ids rounds p bt c [] 0 with
              | None => None
              | Some (p, c, ids) => rewrite_rows (tdb_cursor_close p c) bt ids ci tdb_buf_init tdb_buf_init tdb_buf_init
              end
          end
      | (rc, _) => Some (rc, p)
      end
  | (rc, _) => Some (rc, p)
  end.
Definition eng_drop_column (e : row_engine) (t : tdb_table) (ci : Z) : option (tdb_status * row_engine) :=
  match (match rewrite_drop_col_bt (e_pager e) (tb_root t) ci with
         | Some (TDB_OK, p) =>
             if negb (tb_history_root t =? 0) then rewrite_drop_col_bt p (tb_history_root t) ci else Some (TDB_OK, p)
         | r => r
         end) with
  | Some (rc, p) => Some (rc, mk_engine p (e_scratch e))
  | None => None
  end.
Definition eng_add_column (t : tdb_table) : tdb_status := TDB_OK.

(** [sizeof(row_engine)] is 32, [sizeof(tdb_storage)] is 16. *)
Definition tdb_engine_row_open (p : P) : tdb_status * option row_engine :=
  if negb (alloc_ok 32 && alloc_ok 16) then (TDB_NOMEM, None) else (TDB_OK, Some (mk_engine p tdb_buf_init)).
End Engine.
