(* ===== verification/EngineSpec.v ===== *)
(** * The row engine as a store of versions

    A table is a map from rowids to lists of versions, newest first.  The
    engine's INSERT, UPDATE, DELETE and point lookup implement the operations
    on this map, for any implementation of the interface [TableStore]; and
    what a transaction reads does not change by the writes of transactions it
    does not see. *)
From stdpp Require Import gmap relations.
From S2P Require Import Prelude Util Buf Value Record Mvcc Txn Btree Cursor BtreePage BtreeStore BtreeLeaf Schema EngineRow.

Record version := mk_version { v_xmin : Z; v_xmax : Z; v_rec : list Z }.

Definition u64_ok (z : Z) : Prop := 0 <= z < 2 ^ 64.

(** The row value [v] starts the list of versions; older ones are in the
    history [h]. *)
Fixpoint versions (h : gmap Z (list Z)) (v : list Z) (l : list version) : Prop :=
  match l with
  | [] => False
  | x :: l =>
      exists prev, v = put_rowhdr (v_xmin x) (v_xmax x) prev ++ v_rec x
        /\ u64_ok (v_xmin x) /\ u64_ok (v_xmax x) /\ u64_ok prev
        /\ match l with
           | [] => prev = 0
           | _ => prev <> 0 /\ exists v', h !! prev = Some v' /\ versions h v' l
           end
  end.
(** The versions before the one whose header holds [prev]. *)
Definition older (h : gmap Z (list Z)) (prev : Z) (l : list version) : Prop :=
  match l with
  | [] => prev = 0
  | _ => prev <> 0 /\ exists v', h !! prev = Some v' /\ versions h v' l
  end.
Lemma versions_cons h v x l :
  versions h v (x :: l) <-> exists prev, v = put_rowhdr (v_xmin x) (v_xmax x) prev ++ v_rec x
    /\ u64_ok (v_xmin x) /\ u64_ok (v_xmax x) /\ u64_ok prev /\ older h prev l.
Proof. by destruct l. Qed.
Lemma versions_mono h h' v l : h ⊆ h' -> versions h v l -> versions h' v l.
Proof.
  intros Hs. revert v. induction l as [|x l IH]; intros v; [done|]. rewrite !versions_cons.
  intros (prev & Ev & H1 & H2 & H3 & Ho). exists prev. do 4 (split; [done|]). destruct l as [|y l]; [done|].
  destruct Ho as (Hn & v' & Hv' & Ho). split; [done|]. exists v'. split; [|by apply IH]. by eapply lookup_weaken.
Qed.
Lemma older_mono h h' prev l : h ⊆ h' -> older h prev l -> older h' prev l.
Proof.
  intros Hs. destruct l as [|x l]; [done|]. intros (Hn & v' & Hv & Ho). split; [done|]. exists v'.
  split; [by eapply lookup_weaken|by eapply versions_mono].
Qed.

(** ** The header codec *)

Lemma get_put_rowhdr xmin xmax prev rec :
  u64_ok xmin -> u64_ok xmax -> u64_ok prev ->
  get_rowhdr (put_rowhdr xmin xmax prev ++ rec) = Some (xmin, xmax, prev, rec).
Proof.
  unfold u64_ok. intros H1 H2 H3. unfold get_rowhdr, put_rowhdr. rewrite <- !app_assoc.
  pose proof (put_varint_len xmin H1). pose proof (put_varint_len xmax H2). pose proof (put_varint_len prev H3).
  rewrite get_put_varint by lia. rewrite bfrom_app, get_put_varint by (done || lia).
  rewrite <- bfrom_bfrom, bfrom_app, bfrom_app, get_put_varint by (done || lia).
  rewrite <- !bfrom_bfrom, !bfrom_app by (done || lia). rewrite !blen_app. pose proof (blen_nonneg rec).
  destruct (Z.ltb_spec (blen (tdb_put_varint xmin) + (blen (tdb_put_varint xmax) + (blen (tdb_put_varint prev) + blen rec)))
    (blen (tdb_put_varint xmin) + blen (tdb_put_varint xmax) + blen (tdb_put_varint prev))); [lia|done].
Qed.
Lemma append_data alloc_ok b v :
  (forall n, alloc_ok n = true) ->
  exists b', tdb_buf_append alloc_ok (tdb_buf_reset b) v = (TDB_OK, b') /\ b_data b' = v.
Proof.
  intros Ha. unfold tdb_buf_append, tdb_buf_reserve. rewrite Ha.
  destruct (_ <=? _); eexists; (split; [reflexivity|done]).
Qed.
Lemma wrap_row_data alloc_ok b xmin xmax prev rec :
  (forall n, alloc_ok n = true) ->
  exists b', wrap_row alloc_ok b xmin xmax prev rec = (TDB_OK, b') /\ b_data b' = put_rowhdr xmin xmax prev ++ rec.
Proof.
  intros Ha. unfold wrap_row. destruct (append_data alloc_ok b (put_rowhdr xmin xmax prev) Ha) as (b1 & -> & E1).
  unfold tdb_buf_append, tdb_buf_reserve. rewrite Ha. destruct (_ <=? _); eexists; (split; [reflexivity|cbn; by rewrite E1]).
Qed.

(** ** Reading *)

Definition first_visible (vis : Z -> Z -> bool) (l : list version) : option (list Z) :=
  v_rec <$> List.find (fun x => vis (v_xmin x) (v_xmax x)) l.
Lemma first_visible_ext vis vis' l : (forall x y, vis x y = vis' x y) -> first_visible vis l = first_visible vis' l.
Proof. intros Hv. unfold first_visible. f_equal. induction l as [|x l IH]; [done|]. cbn [List.find]. by rewrite Hv, IH. Qed.
Lemma first_visible_spec vis l rec :
  first_visible vis l = Some rec <-> exists l1 x l2, l = l1 ++ x :: l2 /\ v_rec x = rec
    /\ vis (v_xmin x) (v_xmax x) = true /\ Forall (fun y => vis (v_xmin y) (v_xmax y) = false) l1.
Proof.
  unfold first_visible. induction l as [|y l IH]; cbn [List.find].
  { split; [done|]. by intros ([|? ?] & x & l2 & E & _). }
  destruct (vis (v_xmin y) (v_xmax y)) eqn:Ey.
  - cbn. split.
    + intros [= <-]. exists [], y, l. repeat split; try done; try constructor.
    + intros ([|z l1] & x & l2 & E & <- & Hx & Hf); injection E as -> ->; [done|].
      apply Forall_cons in Hf as [Hf _]. congruence.
  - rewrite IH. split.
    + intros (l1 & x & l2 & -> & Hr & Hx & Hf). exists (y :: l1), x, l2. repeat split; try done. by constructor.
    + intros ([|z l1] & x & l2 & E & Hr & Hx & Hf); injection E as -> ->; [congruence|].
      apply Forall_cons in Hf as [_ Hf]. by exists l1, x, l2.
Qed.

Section Spec.
Context {P : Type} `{PagerPages P, TableView P, RtreeOps P} (alloc_ok : Z -> bool) (Halloc : forall n, alloc_ok n = true).
Context (depth rounds : nat) `{!TableStore P alloc_ok depth}.

Lemma open_table p ts bt :
  tv_ok p ts -> bt ∈ ts -> tdb_btree_open alloc_ok p (bt_root bt) TDB_BT_TABLE None = (TDB_OK, Some bt).
Proof using All. by apply table_opens. Qed.
Lemma fetch_ok p ts bt r into :
  tv_ok p ts -> bt ∈ ts -> u64_ok r ->
  match tv_rows p bt !! r with
  | Some v => exists q b, fetch_main alloc_ok depth p bt r into = Some (TDB_OK, q, b, true) /\ b_data b = v /\ same_tables p q ts
  | None => exists q, fetch_main alloc_ok depth p bt r into = Some (TDB_OK, q, into, false) /\ same_tables p q ts
  end.
Proof using All.
  intros Hp Hbt Hr. destruct (tv_get p ts bt r Hp Hbt Hr) as (q & c & E & Hc). unfold fetch_main.
  rewrite cursor_open_fresh, E by apply Halloc. destruct (tv_rows p bt !! r) as [v|]; [|by eexists].
  destruct Hc as (q' & c' & E' & Hs). rewrite E'. destruct (append_data alloc_ok into v Halloc) as (b & Eb & Hb). rewrite Eb.
  by eexists _, b.
Qed.

Section Resolve.
Context {M : Type} (m : tdb_txnmgr M) (txn : tdb_txn) (as_of : Z).
(** The visibility test of the loop. *)
Definition row_visible (xmin xmax : Z) : bool :=
  if negb (as_of =? 0) then tdb_txn_visible_asof m txn xmin xmax as_of else tdb_txn_visible m txn xmin xmax.

Lemma resolve_loop_ok n p ts hist work out l :
  tv_ok p ts -> hist ∈ ts -> versions (tv_rows p hist) (b_data work) l -> (length l <= n)%nat ->
  exists q work' out', resolve_loop alloc_ok depth m txn n p hist work out as_of
      = Some (TDB_OK, q, work', out', match first_visible row_visible l with Some _ => true | None => false end)
    /\ same_tables p q ts /\ (forall rec, first_visible row_visible l = Some rec -> b_data out' = rec).
Proof using All.
  revert n p work. induction l as [|x l IH]; intros n p work Hp Hh Hv Hn; [done|].
  destruct n as [|n]; [cbn in Hn; lia|]. apply versions_cons in Hv as (prev & Ew & H1' & H2' & H3' & Ho).
  cbn [resolve_loop]. rewrite Ew, get_put_rowhdr by done. fold (row_visible (v_xmin x) (v_xmax x)).
  unfold first_visible. cbn [List.find]. destruct (row_visible (v_xmin x) (v_xmax x)).
  - destruct (append_data alloc_ok out (v_rec x) Halloc) as (b & Eb & Hb). rewrite Eb.
    eexists _, _, b. split; [reflexivity|]. split; [by apply tables_refl|]. cbn. intros rec [= <-]. done.
  - fold (first_visible row_visible l). destruct l as [|y l].
    + cbn in Ho. subst prev. cbn. eexists _, _, _. split; [reflexivity|]. split; [by apply tables_refl|done].
    + destruct Ho as (Hpn & v & Hpv & Ho). destruct (Z.eqb_spec prev 0); [done|]. rewrite cursor_open_fresh by done.
      destruct (tv_get p ts hist prev Hp Hh H3') as (q & c & E & Hc). rewrite Hpv in E, Hc. rewrite E.
      destruct Hc as (q' & c' & E' & Hs). rewrite E'.
      destruct (append_data alloc_ok work v Halloc) as (b & Eb & Hb). rewrite Eb.
      pose proof Hs as (Hq & Hrows & _). destruct (IH n (tdb_cursor_close q' c') b) as (q2 & w2 & o2 & Er & Hs2 & Hrec); try done.
      * by rewrite Hrows, Hb.
      * cbn in Hn |- *. lia.
      * exists q2, w2, o2. split; [exact Er|]. split; [by eapply tables_trans|done].
Qed.
Lemma resolve_ok p ts hist v work out l :
  tv_ok p ts -> hist ∈ ts -> versions (tv_rows p hist) v l -> (length l <= rounds)%nat ->
  exists q work' out', resolve_visible alloc_ok depth rounds m txn p hist v work out as_of
      = Some (TDB_OK, q, work', out', match first_visible row_visible l with Some _ => true | None => false end)
    /\ same_tables p q ts /\ (forall rec, first_visible row_visible l = Some rec -> b_data out' = rec).
Proof using All.
  intros Hp Hh Hv Hn. unfold resolve_visible. destruct (append_data alloc_ok work v Halloc) as (b & Eb & Hb). rewrite Eb.
  apply resolve_loop_ok; try done. by rewrite Hb.
Qed.
End Resolve.

(** ** The operations on lists of versions *)

Abbreviation vtable := (gmap Z (list version)).
Inductive row_op :=
| RInsert (txn : tdb_txn) (r : Z) (rec : list Z)
| RUpdate (txn : tdb_txn) (r : Z) (rec : list Z)
| RDelete (txn : tdb_txn) (r : Z).
Definition spec_op (tab : vtable) (op : row_op) : tdb_status * vtable :=
  match op with
  | RInsert txn r rec => (TDB_OK, <[r := [mk_version (t_id txn) 0 rec]]> tab)
  | RUpdate txn r rec =>
      match tab !! r with
      | Some (x :: l) =>
          (TDB_OK, <[r := mk_version (t_id txn) 0 rec :: mk_version (v_xmin x) (t_id txn) (v_rec x) :: l]> tab)
      | _ => (TDB_NOTFOUND, tab)
      end
  | RDelete txn r =>
      match tab !! r with
      | Some (x :: l) => (TDB_OK, <[r := mk_version (v_xmin x) (t_id txn) (v_rec x) :: l]> tab)
      | _ => (TDB_NOTFOUND, tab)
      end
  end.

Section Table.
Context (t : tdb_table) (main hist : tdb_btree).
Context (Hmain : bt_root main = tb_root t) (Hhist : bt_root hist = tb_history_root t) (Hdiff : main <> hist)
        (Hix : tb_indexes t = []).

Definition eng_op (op : row_op) (e : row_engine) : option (tdb_status * row_engine) :=
  match op with
  | RInsert txn r rec => eng_insert alloc_ok depth txn e t r rec
  | RUpdate txn r rec => eng_update alloc_ok depth txn e t r rec
  | RDelete txn r => eng_remove alloc_ok depth txn e t r
  end.

Record table_rep (p : P) (tab : vtable) : Prop := {
  tr_ok : tv_ok p [main; hist];
  tr_rows : forall r, match tv_rows p main !! r, tab !! r with
                      | Some v, Some l => versions (tv_rows p hist) v l
                      | None, None => True
                      | _, _ => False
                      end }.

(** The version id UPDATE takes. *)
Definition next_vid (h : gmap Z (list Z)) (vid : Z) : Prop :=
  (forall r, is_Some (h !! r) -> r < vid) /\ (vid = 1 \/ is_Some (h !! (vid - 1))).
(** The row values the operation writes can be stored. *)
Definition op_fits (p : P) (op : row_op) : Prop :=
  match op with
  | RInsert txn r rec => u64_ok (t_id txn) /\ u64_ok r /\ tv_fits p main r (put_rowhdr (t_id txn) 0 0 ++ rec)
  | RUpdate txn r rec =>
      u64_ok (t_id txn) /\ u64_ok r
      /\ forall vid v xmin xmax prev orec,
           next_vid (tv_rows p hist) vid -> tv_rows p main !! r = Some v -> get_rowhdr v = Some (xmin, xmax, prev, orec) ->
           vid < 2 ^ 64 /\ tv_fits p hist vid (put_rowhdr xmin (t_id txn) prev ++ orec)
           /\ tv_fits p main r (put_rowhdr (t_id txn) 0 vid ++ rec)
  | RDelete txn r =>
      u64_ok (t_id txn) /\ u64_ok r
      /\ forall v xmin xmax prev orec, tv_rows p main !! r = Some v -> get_rowhdr v = Some (xmin, xmax, prev, orec) ->
           tv_fits p main r (put_rowhdr xmin (t_id txn) prev ++ orec)
  end.

Lemma main_in : main ∈ [main; hist].
Proof using Type. apply elem_of_cons. by left. Qed.
Lemma hist_in : hist ∈ [main; hist].
Proof using Type. apply elem_of_cons. right. by apply list_elem_of_singleton. Qed.
Lemma rep_same p q tab : table_rep p tab -> same_tables p q [main; hist] -> table_rep q tab.
Proof using Type.
  intros [R1 R2] (K & R & _). split; [done|]. intros r. rewrite (R main main_in), (R hist hist_in). apply R2.
Qed.
Lemma rep_lookup p tab r :
  table_rep p tab ->
  match tab !! r with
  | Some l => exists x l' prev, l = x :: l' /\ tv_rows p main !! r = Some (put_rowhdr (v_xmin x) (v_xmax x) prev ++ v_rec x)
      /\ u64_ok (v_xmin x) /\ u64_ok (v_xmax x) /\ u64_ok prev /\ older (tv_rows p hist) prev l'
  | None => tv_rows p main !! r = None
  end.
Proof using Type.
  intros [_ R2]. specialize (R2 r). destruct (tv_rows p main !! r) as [v|], (tab !! r) as [l|]; try done.
  destruct l as [|x l]; [done|]. apply versions_cons in R2 as (prev & -> & ? & ? & ? & ?). by exists x, l, prev.
Qed.
(** A write of the main table. *)
Lemma rep_put p tab r v l :
  table_rep p tab -> u64_ok r -> tv_fits p main r v -> versions (tv_rows p hist) v l ->
  exists q, tdb_btree_put alloc_ok depth main p r v = Some (TDB_OK, q) /\ table_rep q (<[r := l]> tab).
Proof using All.
  intros [R1 R2] Hr Hf Hv. destruct (tv_put p _ main r v R1 main_in Hr Hf) as (q & E & Hq & Em & Eo & _).
  exists q. split; [done|]. split; [done|].
  intros r'. rewrite Em, (Eo hist hist_in (not_eq_sym Hdiff)).
  destruct (decide (r' = r)) as [->|Hne]; [by rewrite !lookup_insert_eq|]. rewrite !lookup_insert_ne by done. apply R2.
Qed.

(** INSERT and DELETE. *)
Lemma put_version_ok p b tab r xmin xmax prev rec l :
  table_rep p tab -> u64_ok r -> tv_fits p main r (put_rowhdr xmin xmax prev ++ rec) ->
  versions (tv_rows p hist) (put_rowhdr xmin xmax prev ++ rec) l ->
  exists q b', put_version alloc_ok depth (mk_engine p b) main r xmin xmax prev rec = Some (TDB_OK, mk_engine q b')
    /\ table_rep q (<[r := l]> tab).
Proof using All.
  intros Hrep Hr Hf Hv. unfold put_version. cbn [e_scratch e_pager].
  destruct (wrap_row_data alloc_ok b xmin xmax prev rec Halloc) as (b' & -> & Eb). rewrite Eb.
  destruct (rep_put p tab r _ l Hrep Hr Hf Hv) as (q & -> & Hq). by eexists q, b'.
Qed.
Lemma then_index_none r0 rowid rec : then_index alloc_ok depth r0 t rowid rec = r0.
Proof using Hix.
  destruct r0 as [[[] [p b]]|]; try done. cbn [then_index e_pager e_scratch]. by rewrite Hix.
Qed.
Lemma insert_ok p b tab txn r rec :
  table_rep p tab -> op_fits p (RInsert txn r rec) ->
  exists e', eng_op (RInsert txn r rec) (mk_engine p b) = Some (TDB_OK, e')
    /\ table_rep (e_pager e') (spec_op tab (RInsert txn r rec)).2.
Proof using All.
  intros Hrep (Ht & Hr & Hf). cbn [eng_op]. unfold eng_insert. cbn [e_pager].
  rewrite <- Hmain, (open_table p _ main (tr_ok _ _ Hrep) main_in).
  destruct (put_version_ok p b tab r (t_id txn) 0 0 rec [mk_version (t_id txn) 0 rec] Hrep Hr Hf) as (q & b' & E & Hq).
  { apply versions_cons. exists 0. cbn [v_xmin v_xmax v_rec older]. unfold u64_ok in *. repeat split; (done || lia). }
  rewrite E, then_index_none. by eexists.
Qed.
Lemma remove_ok p b tab txn r :
  table_rep p tab -> op_fits p (RDelete txn r) ->
  exists e', eng_op (RDelete txn r) (mk_engine p b) = Some ((spec_op tab (RDelete txn r)).1, e')
    /\ table_rep (e_pager e') (spec_op tab (RDelete txn r)).2.
Proof using All.
  intros Hrep (Ht & Hr & Hf). cbn [eng_op spec_op]. unfold eng_remove. cbn [e_pager e_scratch].
  rewrite <- Hmain, (open_table p _ main (tr_ok _ _ Hrep) main_in).
  pose proof (rep_lookup p tab r Hrep) as Hl. pose proof (fetch_ok p _ main r tdb_buf_init (tr_ok _ _ Hrep) main_in Hr) as Hfe.
  destruct (tab !! r) as [l|].
  - destruct Hl as (x & l' & prev & -> & Em & H1' & H2' & H3' & Ho). rewrite Em in Hfe. destruct Hfe as (q & old & -> & Eo & Hs).
    rewrite Eo, get_put_rowhdr by done. pose proof Hs as (_ & Hrows & Hfits). unfold put_wrapped.
    destruct (wrap_row_data alloc_ok tdb_buf_init (v_xmin x) (t_id txn) prev (v_rec x) Halloc) as (b' & -> & Eb). rewrite Eb.
    destruct (rep_put q tab r (put_rowhdr (v_xmin x) (t_id txn) prev ++ v_rec x) (mk_version (v_xmin x) (t_id txn) (v_rec x) :: l'))
      as (q' & -> & Hq'); [by eapply rep_same|done| | |].
    + apply Hfits; [apply main_in|]. eapply Hf; [exact Em|by apply get_put_rowhdr].
    + apply versions_cons. exists prev. by rewrite (Hrows hist hist_in).
    + by eexists.
  - rewrite Hl in Hfe. destruct Hfe as (q & -> & Hs). eexists. split; [reflexivity|]. by eapply rep_same.
Qed.

(** UPDATE: the old version goes to the history first. *)
Lemma push_ok p tab txn r x l prev :
  table_rep p tab -> tab !! r = Some (x :: l) -> u64_ok (t_id txn) -> u64_ok (v_xmin x) -> u64_ok prev ->
  older (tv_rows p hist) prev l ->
  (forall vid, next_vid (tv_rows p hist) vid -> vid < 2 ^ 64 /\ tv_fits p hist vid (put_rowhdr (v_xmin x) (t_id txn) prev ++ v_rec x)) ->
  exists q vid, push_history alloc_ok depth p hist txn (v_xmin x) prev (v_rec x) = Some (TDB_OK, q, vid)
    /\ next_vid (tv_rows p hist) vid /\ 0 < vid < 2 ^ 64 /\ table_rep q tab
    /\ older (tv_rows q hist) vid (mk_version (v_xmin x) (t_id txn) (v_rec x) :: l)
    /\ (forall r' v', tv_fits p main r' v' -> tv_fits q main r' v').
Proof using All.
  intros Hrep Hl Ht Hx Hp Ho Hf. pose proof (tr_ok _ _ Hrep) as Hok.
  destruct (tv_max p _ hist Hok hist_in) as (q1 & mx & E1 & Hs1 & Hmax & Hmx). unfold push_history. rewrite E1.
  pose proof Hs1 as (Hok1 & R1 & F1).
  assert (0 <= mx) as Hmx0 by (destruct Hmx as [->|[v Hv]]; [lia|]; apply (tv_range p _ hist mx v Hok hist_in) in Hv; lia).
  assert (next_vid (tv_rows p hist) (mx + 1)) as Hnv.
  { split; [intros k Hk; specialize (Hmax k Hk); lia|]. rewrite Z.add_simpl_r. destruct Hmx as [->|]; [by left|by right]. }
  destruct (Hf _ Hnv) as [Hlt Hfit]. rewrite u64_small by lia. unfold put_wrapped.
  destruct (wrap_row_data alloc_ok tdb_buf_init (v_xmin x) (t_id txn) prev (v_rec x) Halloc) as (b' & -> & Eb). rewrite Eb.
  destruct (tv_put q1 _ hist (mx + 1) (put_rowhdr (v_xmin x) (t_id txn) prev ++ v_rec x) Hok1 hist_in) as (q & -> & Hq & Eh & Em & Fm); [lia|by apply F1; [apply hist_in|]|].
  rewrite (R1 hist hist_in) in Eh.
  assert (tv_rows p hist ⊆ tv_rows q hist) as Hsub.
  { rewrite Eh. apply insert_subseteq. destruct (tv_rows p hist !! (mx + 1)) as [w|] eqn:Ew; [|done].
    assert (mx + 1 <= mx); [|lia]. apply Hmax. by exists w. }
  exists q, (mx + 1). split; [done|]. split; [done|]. split; [lia|]. split; [|split].
  - split; [done|]. intros k. rewrite (Em main) by (done || apply main_in). pose proof (tr_rows _ _ Hrep k) as Hk.
    rewrite (R1 main main_in). destruct (tv_rows p main !! k), (tab !! k); try done. by eapply versions_mono.
  - split; [lia|]. rewrite Eh, lookup_insert_eq. eexists. split; [reflexivity|]. apply versions_cons. exists prev.
    do 4 (split; [done|]). rewrite <- Eh. by eapply older_mono.
  - intros r' v' Hv'. apply Fm; [apply main_in|done|]. by apply F1; [apply main_in|].
Qed.
Lemma update_ok p b tab txn r rec :
  table_rep p tab -> op_fits p (RUpdate txn r rec) ->
  exists e', eng_op (RUpdate txn r rec) (mk_engine p b) = Some ((spec_op tab (RUpdate txn r rec)).1, e')
    /\ table_rep (e_pager e') (spec_op tab (RUpdate txn r rec)).2.
Proof using All.
  intros Hrep (Ht & Hr & Hf). cbn [eng_op spec_op]. unfold eng_update. cbn [e_pager e_scratch].
  rewrite <- Hmain, <- Hhist, (open_table p _ main (tr_ok _ _ Hrep) main_in), (open_table p _ hist (tr_ok _ _ Hrep) hist_in).
  pose proof (rep_lookup p tab r Hrep) as Hl. pose proof (fetch_ok p _ main r tdb_buf_init (tr_ok _ _ Hrep) main_in Hr) as Hfe.
  destruct (tab !! r) as [l|] eqn:Et.
  - destruct Hl as (x & l' & prev & -> & Em & H1' & H2' & H3' & Ho). rewrite Em in Hfe. destruct Hfe as (q & old & -> & Eo & Hs).
    rewrite Eo, get_put_rowhdr by done. pose proof Hs as (_ & Hrows & Hfits).
    destruct (push_ok q tab txn r x l' prev) as (q2 & vid & E2 & Hnv & Hvid & Hrep2 & Hold & Hfm); try done.
    + by eapply rep_same.
    + by rewrite (Hrows hist hist_in).
    + rewrite (Hrows hist hist_in). intros vid Hn. destruct (Hf _ _ _ _ _ _ Hn Em (get_put_rowhdr _ _ _ _ H1' H2' H3')) as (? & ? & _). split; [done|].
      by apply Hfits; [apply hist_in|].
    + rewrite (Hrows hist hist_in) in Hnv. destruct (Hf _ _ _ _ _ _ Hnv Em (get_put_rowhdr _ _ _ _ H1' H2' H3')) as (_ & _ & Hfit).
      rewrite E2.
      destruct (put_version_ok q2 b tab r (t_id txn) 0 vid rec
        (mk_version (t_id txn) 0 rec :: mk_version (v_xmin x) (t_id txn) (v_rec x) :: l') Hrep2 Hr) as (q3 & b3 & E3 & Hq3).
      * apply Hfm, Hfits; [apply main_in|done].
      * apply versions_cons. exists vid. cbn [v_xmin v_xmax v_rec]. unfold u64_ok in *. do 4 (split; [done || lia|]). exact Hold.
      * rewrite E3, then_index_none. by eexists.
  - rewrite Hl in Hfe. destruct Hfe as (q & -> & Hs). eexists. split; [reflexivity|]. by eapply rep_same.
Qed.

Lemma seek_ok {M} (m : tdb_txnmgr M) (txn : tdb_txn) p b tab r :
  table_rep p tab -> u64_ok r -> (forall l, tab !! r = Some l -> (length l <= rounds)%nat) ->
  exists e', eng_seek_rowid alloc_ok depth rounds m txn (mk_engine p b) t r
             = Some (TDB_OK, e', tab !! r ≫= first_visible (tdb_txn_visible m txn))
    /\ table_rep (e_pager e') tab.
Proof using All.
  intros Hrep Hr Hn. unfold eng_seek_rowid. cbn [e_pager e_scratch].
  rewrite <- Hmain, <- Hhist, (open_table p _ main (tr_ok _ _ Hrep) main_in), (open_table p _ hist (tr_ok _ _ Hrep) hist_in).
  pose proof (fetch_ok p _ main r tdb_buf_init (tr_ok _ _ Hrep) main_in Hr) as Hfe. pose proof (tr_rows _ _ Hrep r) as Hv.
  destruct (tv_rows p main !! r) as [v|], (tab !! r) as [l|]; try done.
  - destruct Hfe as (q & old & -> & Eo & Hs). pose proof Hs as (Hq & Hrows & _). rewrite Eo.
    destruct (resolve_ok m txn 0 q _ hist v tdb_buf_init b l Hq hist_in) as (q2 & w2 & o2 & E2 & Hs2 & Hrec);
      [by rewrite (Hrows hist hist_in)|by apply Hn|].
    rewrite E2. change (row_visible m txn 0) with (tdb_txn_visible m txn) in *. cbn [mbind option_bind].
    exists (mk_engine q2 o2). split; [|by eapply rep_same; [|eapply tables_trans]].
    destruct (first_visible (tdb_txn_visible m txn) l) as [rec|]; [|done]. by rewrite (Hrec rec).
  - destruct Hfe as (q & -> & Hs). eexists. split; [reflexivity|]. by eapply rep_same.
Qed.

Lemma op_ok e tab op :
  table_rep (e_pager e) tab -> op_fits (e_pager e) op ->
  exists e', eng_op op e = Some ((spec_op tab op).1, e') /\ table_rep (e_pager e') (spec_op tab op).2.
Proof using All.
  intros Hrep Hf. destruct e as [p b].
  destruct op as [w k rec|w k rec|w k]; [by apply insert_ok|by apply update_ok|by apply remove_ok].
Qed.

(** C5. The row engine implements a map from rowids to lists of versions: for a
    table without indexes, as long as the row values fit, INSERT, UPDATE and
    DELETE answer what the operation on the map answers and leave the engine
    representing the new map, and a point lookup finds the newest version
    visible to the transaction and changes nothing.  On a table with indexes
    the engine stores the row and may then answer an error of the index
    ([EngineDemo.oversize_key_keeps_row]). *)
Theorem row_engine_refines_versions {M} (m : tdb_txnmgr M) (txn : tdb_txn) e tab op r :
  table_rep (e_pager e) tab -> op_fits (e_pager e) op -> u64_ok r -> (forall l, tab !! r = Some l -> (length l <= rounds)%nat) ->
  (exists e', eng_op op e = Some ((spec_op tab op).1, e') /\ table_rep (e_pager e') (spec_op tab op).2)
  /\ (exists e', eng_seek_rowid alloc_ok depth rounds m txn e t r
                 = Some (TDB_OK, e', tab !! r ≫= first_visible (tdb_txn_visible m txn))
        /\ table_rep (e_pager e') tab).
Proof using All.
  intros Hrep Hf Hr Hn. split; [by apply op_ok|]. destruct e as [p b]. by apply seek_ok.
Qed.

(** ** Readers and writers *)

(** A version that a reader of [sees] takes for the row. *)
Definition seen_version (sees : Z -> Prop) (x : version) : Prop := sees (v_xmin x) /\ (v_xmax x = 0 \/ ~ sees (v_xmax x)).
(** A write of a transaction that [sees] does not include: an INSERT at a rowid
    of which the reader sees no version (INSERT drops the versions the rowid
    has), an UPDATE or DELETE of a row whose newest version the reader does not
    see deleted (both replace the deleting transaction in its header).  These
    are the writes that keep what the reader sees; others need not. *)
Definition op_unseen (sees : Z -> Prop) (tab : vtable) (op : row_op) : Prop :=
  match op with
  | RInsert txn r _ => ~ sees (t_id txn) /\ forall l, tab !! r = Some l -> Forall (fun x => ~ seen_version sees x) l
  | RUpdate txn r _ | RDelete txn r =>
      ~ sees (t_id txn) /\ forall x l, tab !! r = Some (x :: l) -> sees (v_xmin x) -> v_xmax x = 0 \/ ~ sees (v_xmax x)
  end.
Inductive eng_write (sees : Z -> Prop) : row_engine * vtable -> row_engine * vtable -> Prop :=
| ew_op e tab op rc e' :
    op_fits (e_pager e) op -> op_unseen sees tab op -> eng_op op e = Some (rc, e') ->
    eng_write sees (e, tab) (e', (spec_op tab op).2).

Lemma unseen_stable sees vis tab op r :
  (forall xmin xmax, vis xmin xmax = true <-> sees xmin /\ (xmax = 0 \/ ~ sees xmax)) -> op_unseen sees tab op ->
  (spec_op tab op).2 !! r ≫= first_visible vis = tab !! r ≫= first_visible vis.
Proof using Type.
  intros Hvis Hun.
  assert (forall T x, ~ sees T -> vis T x = false) as Hnew by (intros T x HT; apply not_true_iff_false; rewrite Hvis; tauto).
  assert (forall T x y, ~ sees T -> (sees x -> y = 0 \/ ~ sees y) -> vis x T = vis x y) as Hold.
  { intros T x y HT Hy. apply eq_true_iff_eq. rewrite !Hvis. tauto. }
  assert (forall l, Forall (fun x => ~ seen_version sees x) l -> first_visible vis l = None) as Hnone.
  { intros l. induction 1 as [|x l Hx _ IH]; [done|]. unfold first_visible in *. cbn [List.find]. destruct (vis (v_xmin x) (v_xmax x)) eqn:E; [|done].
    destruct Hx. by apply Hvis. }
  destruct op as [w k rec|w k rec|w k]; cbn [op_unseen spec_op snd] in *.
  - destruct Hun as [HT Hk]. destruct (decide (r = k)) as [->|]; [|by rewrite lookup_insert_ne].
    rewrite lookup_insert_eq. trans (None (A := list Z)); [|by destruct (tab !! k) as [l|]; [symmetry; apply Hnone, Hk|]].
    cbn [mbind option_bind]. unfold first_visible. cbn [List.find v_xmin v_xmax]. by rewrite Hnew.
  - destruct Hun as (HT & Hx). destruct (tab !! k) as [[|x l]|] eqn:Ek; try done. cbn [snd].
    destruct (decide (r = k)) as [->|]; [|by rewrite lookup_insert_ne]. rewrite lookup_insert_eq, Ek. cbn [mbind option_bind].
    unfold first_visible. cbn [List.find v_xmin v_xmax]. rewrite (Hnew (t_id w)) by done.
    rewrite (Hold (t_id w) (v_xmin x) (v_xmax x)) by (done || by eapply Hx). by destruct (vis (v_xmin x) (v_xmax x)).
  - destruct Hun as (HT & Hx). destruct (tab !! k) as [[|x l]|] eqn:Ek; try done. cbn [snd].
    destruct (decide (r = k)) as [->|]; [|by rewrite lookup_insert_ne]. rewrite lookup_insert_eq, Ek. cbn [mbind option_bind].
    unfold first_visible. cbn [List.find v_xmin v_xmax].
    rewrite (Hold (t_id w) (v_xmin x) (v_xmax x)) by (done || by eapply Hx). by destruct (vis (v_xmin x) (v_xmax x)).
Qed.

Lemma eng_writes_ok sees vis e tab e' tab' r :
  (forall xmin xmax, vis xmin xmax = true <-> sees xmin /\ (xmax = 0 \/ ~ sees xmax)) ->
  rtc (eng_write sees) (e, tab) (e', tab') -> table_rep (e_pager e) tab ->
  table_rep (e_pager e') tab' /\ tab' !! r ≫= first_visible vis = tab !! r ≫= first_visible vis.
Proof using All.
  intros Hvis Hrun. remember (e, tab) as s eqn:Es. remember (e', tab') as s' eqn:Es'. revert e tab Es.
  induction Hrun as [s|s1 s2 s3 Hstep _ IH]; intros e tab -> Hrep; [injection Es' as -> ->; done|].
  inversion Hstep as [e0 tab0 op rc e1 Hf Hun Eop]. subst.
  assert (table_rep (e_pager e1) (spec_op tab op).2) as Hrep1.
  { destruct (op_ok e tab op Hrep Hf) as (e2 & E2 & Hrep2). rewrite Eop in E2. by injection E2 as _ ->. }
  destruct (IH eq_refl e1 _ eq_refl Hrep1) as [H1' H2']. split; [done|]. by rewrite H2', (unseen_stable sees vis tab op r Hvis Hun).
Qed.

(** C3. A transaction keeps reading its snapshot: on a table without indexes,
    however many writes of transactions it does not see (those not committed
    when it began) reach the table, of the kinds [op_unseen] admits, and
    whatever the transactions do meanwhile, a lookup gives what it gave when
    the transaction began, namely the newest version created by the transaction
    or by one committed then and not deleted by one of those.  Admitted is an
    INSERT at a rowid of which the reader sees no version, and an UPDATE or
    DELETE of a row that it does not see deleted; an INSERT at a rowid whose
    row was deleted after the reader began, and an UPDATE or DELETE of a row
    deleted before, are not, and change what the reader sees
    ([EngineDemo.reinsert_hides_row], [EngineDemo.update_revives_row]). *)
Theorem reader_keeps_snapshot {Q} `{PagerTxn Q} ok (m : tdb_txnmgr Q) ts iso wr rc reader m1 w e tab e' tab' r :
  txn_reachable (mk_world m ts) -> tm_next m + 1 < 2 ^ 64 ->
  tdb_txn_begin ok m iso wr = (rc, Some reader, m1) -> rtc txn_step (mk_world m1 (reader :: ts)) w ->
  table_rep (e_pager e) tab -> rtc (eng_write (snapshot_sees m (t_id reader))) (e, tab) (e', tab') -> u64_ok r ->
  (forall l, tab !! r = Some l \/ tab' !! r = Some l -> (length l <= rounds)%nat) ->
  exists e1 e2 ans,
    eng_seek_rowid alloc_ok depth rounds m1 reader e t r = Some (TDB_OK, e1, ans)
    /\ eng_seek_rowid alloc_ok depth rounds (w_mgr w) reader e' t r = Some (TDB_OK, e2, ans)
    /\ (forall rec, ans = Some rec <-> exists l l1 x l2, tab !! r = Some l /\ l = l1 ++ x :: l2 /\ v_rec x = rec
          /\ snapshot_spec m (t_id reader) (v_xmin x) (v_xmax x)
          /\ Forall (fun y => ~ snapshot_spec m (t_id reader) (v_xmin y) (v_xmax y)) l1).
Proof using All.
  intros Hm Hnext Hb Hw Hrep Hrun Hr Hn.
  assert (forall w', rtc txn_step (mk_world m1 (reader :: ts)) w' -> forall xmin xmax,
    tdb_txn_visible (w_mgr w') reader xmin xmax = true <-> snapshot_spec m (t_id reader) xmin xmax) as Hvis
    by (intros w' Hw' xmin xmax; by eapply begin_visible).
  pose proof (Hvis _ (rtc_refl _ _)) as Hvis1. pose proof (Hvis w Hw) as Hvis2. cbn [w_mgr] in Hvis1.
  destruct (eng_writes_ok _ _ e tab e' tab' r Hvis2 Hrun Hrep) as [Hrep' Heq].
  destruct e as [p b], e' as [p' b']. cbn [e_pager] in *.
  destruct (seek_ok m1 reader p b tab r Hrep Hr) as (e1 & E1 & _); [intros l Hl; apply Hn; by left|].
  destruct (seek_ok (w_mgr w) reader p' b' tab' r Hrep' Hr) as (e2 & E2 & _); [intros l Hl; apply Hn; by right|].
  exists e1, e2, (tab !! r ≫= first_visible (tdb_txn_visible m1 reader)). split; [done|]. split.
  - rewrite E2, Heq. do 2 f_equal. destruct (tab !! r) as [l|]; [|done]. cbn [mbind option_bind].
    apply first_visible_ext. intros x y. apply eq_true_iff_eq. by rewrite Hvis1, Hvis2.
  - intros rec. destruct (tab !! r) as [l|]; [|split; [done|by intros (l & _ & _ & _ & ? & _)]]. cbn [mbind option_bind].
    rewrite first_visible_spec. split.
    + intros (l1 & x & l2 & El & Hrec & Hx & Hf). exists l, l1, x, l2. rewrite Hvis1 in Hx. do 4 (split; [done|]).
      eapply Forall_impl; [exact Hf|]. intros y Hy. by rewrite <- Hvis1, Hy.
    + intros (l' & l1 & x & l2 & [= <-] & El & Hrec & Hx & Hf). exists l1, x, l2. rewrite Hvis1. do 3 (split; [done|]).
      eapply Forall_impl; [exact Hf|]. intros y Hy. apply not_true_iff_false. by rewrite Hvis1.
Qed.
End Table.
End Spec.

(** ** CREATE TABLE *)

Section Create.
Context {P : Type} `{PageStore P, RtreeOps P} (alloc_ok : Z -> bool) (Halloc : forall n, alloc_ok n = true).

Definition tree_of (p : P) (root : Z) : tdb_btree := mk_btree root TDB_BT_TABLE None (pp_page_size p).

(** Two empty trees on pages of their own. *)
Lemma create_table_ok p live b t :
  st_ok p live -> 1 < st_room p ->
  exists q root h, eng_create_table (mk_engine p b) t = (TDB_OK, mk_engine q b, tset_roots t root h)
    /\ root <> h /\ st_ok q (h :: root :: live) /\ (forall g, g ∈ live -> st_view q g = st_view p g)
    /\ table_rep (tree_of q root) (tree_of q h) q ∅.
Proof using All.
  intros Hp Hroom. unfold eng_create_table. cbn [e_pager e_scratch].
  destruct (leaf_create alloc_ok Halloc p live Hp) as (p1 & root & E1 & Hn1 & Hp1 & Hr1 & Hs1 & L1 & V1); [lia|]. rewrite E1.
  destruct (leaf_create alloc_ok Halloc p1 _ Hp1) as (q & h & E2 & Hn2 & Hq & Hr2 & Hs2 & L2 & V2); [lia|]. rewrite E2.
  exists q, root, h. split; [done|]. assert (root <> h) as Hne by (intros ->; apply Hn2, elem_of_cons; by left).
  split; [done|]. split; [done|]. split; [intros g Hg; rewrite V2, V1 by (done || (apply elem_of_cons; by right)); done|].
  assert (st_view q root = st_view p1 root) as Ev by (apply V2, elem_of_cons; by left).
  assert (rows_of (pp_page_size q) (st_view q root) = [] /\ rows_of (pp_page_size q) (st_view q h) = []) as [R1 R2].
  { rewrite Ev, Hs2. split; [rewrite Hs1|]; by apply rows_of_leaf. }
  split.
  - exists (h :: root :: live). split; [done|]. split.
    + cbn. apply NoDup_cons. split; [|apply NoDup_singleton]. by rewrite list_elem_of_singleton.
    + intros bt [->|Hbt]%elem_of_cons; [|apply list_elem_of_singleton in Hbt as ->]; cbn [bt_root tree_of].
      * split; [apply elem_of_cons; right; apply elem_of_cons; by left|]. split; [done|].
        cbn [bt_root tree_of]. rewrite R1, Ev, Hs2, Hs1. done.
      * split; [apply elem_of_cons; by left|]. split; [done|]. cbn [bt_root tree_of]. rewrite R2, Hs2. done.
  - intros r. cbn [tv_rows leaf_tables tree_of bt_root]. rewrite R1. done.
Qed.
End Create.
