(* ===== verification/EngineDemo.v ===== *)
(** * The row engine over the pager

    The engine, the B-tree, the pager, the log and the memory files together,
    on a fresh database with 512-byte pages. *)
From stdpp Require Import gmap relations.
From S2P Require Import Prelude Util File Wal WalSpec Buf Value Record Mvcc Txn Pager PagerSpec PagerFree Btree Cursor BtreePage BtreeStore BtreeLeaf BtreePager Schema EngineRow EngineSpec.

#[local] Instance edemo_vfs : Vfs mem_handle := mem_vfs ok_alloc.
#[local] Instance edemo_laws : VfsLaws mem_handle := mem_vfs_laws ok_alloc.
Abbreviation pager := (tdb_pager mem_handle).
#[local] Instance edemo_pages : PagerPages pager := pager_pages None ok_alloc.
#[local] Instance edemo_view : StoreView pager := pager_view None ok_alloc.
#[local] Instance edemo_store : PageStore pager := pager_store_laws None ok_alloc (fun _ => eq_refl).
#[local] Instance edemo_tables : TableStore pager ok_alloc TDB_MAXDEPTH :=
  leaf_table_store ok_alloc (fun _ => eq_refl) TDB_MAXDEPTH (Nat.lt_0_succ 39).
(** Tables without spatial indexes. *)
Definition no_rtree (P : Type) : RtreeOps P := {|
  bbox := unit; geom_bbox := fun _ => None;
  rt_create := fun p => (TDB_UNSUPPORTED, p, 0); rt_destroy := fun p _ => (TDB_UNSUPPORTED, p);
  rt_insert := fun p _ _ _ => (TDB_UNSUPPORTED, p); rt_delete := fun p _ _ _ => (TDB_UNSUPPORTED, p, false);
  rt_search := fun S p _ _ _ s => (TDB_UNSUPPORTED, p, s) |}.
#[local] Instance edemo_rtree : RtreeOps pager := no_rtree _.

(** ** A table with one integer column *)

Definition demo_wal : tdb_wal mem_handle :=
  match (tdb_wal_open None ok_alloc mem_open 512).2 with Some w => w | None => wal_init None mem_open 512 end.
Definition demo_db : pager := demo_fresh demo_wal.
Definition int_col (name : list Z) : tdb_column := tdb_column_init ok_alloc (Some name) (mk_typespec TDB_T_INTEGER 0 0 0).
Definition empty_tab : tdb_table :=
  mk_table None 0 [] [] [] None 0 [] TDB_VERSIONING_NONE (-1) (-1) 0 false [] None None None None None 0 [] 0.
Definition demo_tab : tdb_table := (tdb_table_add_column ok_alloc (default empty_tab (tdb_table_new ok_alloc (Some [116]))) (int_col [97])).2.
Definition demo_rec (i : Z) : list Z := b_data (tdb_record_encode ok_alloc [VInt i] tdb_buf_init).2.

Definition demo_created : tdb_status * row_engine * tdb_table := eng_create_table (mk_engine demo_db tdb_buf_init) demo_tab.
Definition demo_t : tdb_table := demo_created.2.
Definition demo_e0 : row_engine (P := pager) := demo_created.1.2.
Definition demo_main : tdb_btree := mk_btree (tb_root demo_t) TDB_BT_TABLE None 512.
Definition demo_hist : tdb_btree := mk_btree (tb_history_root demo_t) TDB_BT_TABLE None 512.
Lemma demo_db_ok : st_ok demo_db [].
Proof.
  destruct (wal_open_fresh None ok_alloc (fun _ => eq_refl) mem_open 512 mem_good_open eq_refl ltac:(lia))
    as (w & E & Hr & Hps & _ & _ & He).
  assert (demo_wal = w) as Ew by (unfold demo_wal; change edemo_vfs with demo_vfs; by rewrite E). unfold demo_db. rewrite Ew. apply demo_fl_inv.
  unfold demo_fresh. split; [apply fresh_wf| |].
  - split; [by exists []|]. split; [exact mem_good_open|]. split; [exact Hps|]. cbn. lia.
  - intros g pg. by rewrite fresh_lookup.
Qed.
Lemma demo_e0_rep : table_rep demo_main demo_hist (e_pager demo_e0) ∅.
Proof.
  destruct (create_table_ok ok_alloc (fun _ => eq_refl) demo_db [] tdb_buf_init demo_tab demo_db_ok) as (q & root & h & E & _ & _ & _ & Hrep);
    [vm_compute; reflexivity|].
  assert (demo_created = (TDB_OK, mk_engine q tdb_buf_init, tset_roots demo_tab root h)) as Ec by exact E.
  assert (tree_of q root = demo_main /\ tree_of q h = demo_hist) as [<- <-].
  { assert (pp_page_size q = 512) as Eps.
    { change q with (e_pager (mk_engine q tdb_buf_init)). change (mk_engine q tdb_buf_init) with (TDB_OK, mk_engine q tdb_buf_init, tset_roots demo_tab root h).1.2.
      rewrite <- Ec. vm_compute. reflexivity. }
    unfold tree_of, demo_main, demo_hist, demo_t. rewrite Eps, Ec. done. }
  unfold demo_e0. rewrite Ec. exact Hrep.
Qed.

(** ** Two writers and a reader *)

(** Row 1 is inserted by transaction 3, committed before the manager was
    opened, and updated by [t1], which is active when the reader [t2] begins. *)
Definition old_txn : tdb_txn := mk_txn 3 TDB_ISO_SNAPSHOT (mk_snapshot 3 4 []) TDB_XACT_COMMITTED true [].
Definition demo_ins : row_op := RInsert old_txn 1 (demo_rec 1).
Definition demo_upd : row_op := RUpdate CellPager.t1 1 (demo_rec 2).
#[local] Opaque demo_e0.
Abbreviation demo_op := (eng_op ok_alloc TDB_MAXDEPTH demo_t).
Definition demo_e1 : row_engine (P := pager) := match demo_op demo_ins demo_e0 with Some (_, e) => e | None => demo_e0 end.
Definition demo_e2 : row_engine (P := pager) := match demo_op demo_upd demo_e1 with Some (_, e) => e | None => demo_e1 end.
#[local] Opaque demo_e1 demo_e2.
Definition demo_v1 : gmap Z (list version) := <[1 := [mk_version 3 0 (demo_rec 1)]]> ∅.

Lemma demo_u64 z : (0 <=? z) && (z <? 18446744073709551616) = true -> u64_ok z.
Proof. unfold u64_ok. lia. Qed.
(** The size check on concrete pages. *)
Lemma demo_fits (p : pager) bt r v :
  pp_page_size p = 512 ->
  (0 <=? r) && (r <? 18446744073709551616) && (blen v <? 100) && (local_val_len 512 8 (blen v) =? blen v)
  && (page_used 512 8 (row_cells (row_put (rows_of 512 (st_view p (bt_root bt))) r v)) <=? 512) = true ->
  tv_fits p bt r v.
Proof.
  intros Eps Hb. apply andb_true_iff in Hb as [Hb H5]. apply andb_true_iff in Hb as [Hb H4]. apply andb_true_iff in Hb as [Hb H3].
  apply andb_true_iff in Hb as [H1 H2]. apply Z.eqb_eq in H4. apply Z.leb_le in H5. cbn [tv_fits leaf_tables]. rewrite Eps.
  unfold row_local. cbn [fst snd]. split; [lia|done].
Qed.
Lemma demo_ins_fits : op_fits demo_main demo_hist (e_pager demo_e0) demo_ins.
Proof.
  split; [by apply demo_u64; vm_compute|]. split; [by apply demo_u64; vm_compute|]. apply demo_fits; vm_compute; reflexivity.
Qed.
Lemma demo_e1_pages :
  pp_page_size (e_pager demo_e1) = 512 /\ rows_of 512 (st_view (e_pager demo_e1) (bt_root demo_hist)) = []
  /\ rows_of 512 (st_view (e_pager demo_e1) (bt_root demo_main)) = [(1, put_rowhdr 3 0 0 ++ demo_rec 1)]
  /\ get_rowhdr (put_rowhdr 3 0 0 ++ demo_rec 1) = Some (3, 0, 0, demo_rec 1).
Proof. vm_compute. repeat split; reflexivity. Qed.
Lemma demo_upd_fits : op_fits demo_main demo_hist (e_pager demo_e1) demo_upd.
Proof.
  destruct demo_e1_pages as (E1 & E2 & E3 & E4).
  split; [by apply demo_u64; vm_compute|]. split; [by apply demo_u64; vm_compute|]. intros vid v xmin xmax prev orec [_ Hv] Hm Hh.
  cbn [tv_rows leaf_tables] in Hv, Hm. rewrite E1, E2 in Hv. rewrite E1, E3 in Hm.
  assert (vid = 1) as ->.
  { destruct Hv as [Hv|[w Hw]]; [exact Hv|]. apply elem_of_list_to_map_2, not_elem_of_nil in Hw. destruct Hw. }
  apply elem_of_list_to_map_2, list_elem_of_singleton in Hm. apply (f_equal snd) in Hm. cbn [snd] in Hm. rewrite Hm, E4 in Hh.
  apply (inj Some) in Hh. injection Hh as <- <- <- <-.
  split; [lia|]. split; (apply demo_fits; [exact E1|vm_compute; reflexivity]).
Qed.

Lemma demo_roots : tb_root demo_t = 2 /\ tb_history_root demo_t = 3 /\ tb_indexes demo_t = [].
Proof. vm_compute. auto. Qed.
Lemma demo_diff : demo_main <> demo_hist.
Proof. destruct demo_roots as (E1 & E2 & _). unfold demo_main, demo_hist. rewrite E1, E2. done. Qed.

Lemma row_engine_refines_versions_witness :
  exists e, demo_op demo_ins demo_e0 = Some (TDB_OK, e) /\ table_rep demo_main demo_hist (e_pager e) demo_v1.
Proof.
  destruct (row_engine_refines_versions ok_alloc (fun _ => eq_refl) TDB_MAXDEPTH 10 demo_t demo_main demo_hist
    eq_refl eq_refl demo_diff (proj2 (proj2 demo_roots)) CellPager.b2.2 CellPager.t2 demo_e0 ∅ demo_ins 1
    demo_e0_rep demo_ins_fits) as [(e & E & Hrep) _].
  - by apply demo_u64; vm_compute.
  - done.
  - exists e. split; [exact E|exact Hrep].
Defined.

Lemma demo_e1_run : demo_op demo_ins demo_e0 = Some (TDB_OK, demo_e1).
Proof. vm_compute. reflexivity. Qed.
Lemma demo_e2_run : demo_op demo_upd demo_e1 = Some (TDB_OK, demo_e2).
Proof. vm_compute. reflexivity. Qed.
Lemma result_inj {A B} (a a' : A) (b b' : B) : Some (a, b) = Some (a', b') -> b = b'.
Proof. congruence. Qed.
Lemma demo_e1_rep : table_rep demo_main demo_hist (e_pager demo_e1) demo_v1.
Proof.
  destruct (op_ok ok_alloc (fun _ => eq_refl) TDB_MAXDEPTH 10 demo_t demo_main demo_hist eq_refl eq_refl demo_diff
    (proj2 (proj2 demo_roots)) demo_e0 ∅ demo_ins demo_e0_rep demo_ins_fits) as (e & E & Hrep).
  rewrite demo_e1_run in E. apply result_inj in E. rewrite E. exact Hrep.
Qed.
(** The active writer is not seen, and row 1 is not deleted. *)
Lemma demo_upd_unseen : op_unseen (snapshot_sees CellPager.b1.2 (t_id CellPager.t2)) demo_v1 demo_upd.
Proof.
  split.
  - intros [Hx|Hx]; vm_compute in Hx; discriminate.
  - intros x l Hx _. left. unfold demo_v1 in Hx. rewrite lookup_insert_eq in Hx. injection Hx as <- <-. reflexivity.
Qed.
Lemma reader_keeps_snapshot_witness :
  exists e1 e2 ans,
    eng_seek_rowid ok_alloc TDB_MAXDEPTH 10 CellPager.b2.2 CellPager.t2 demo_e1 demo_t 1 = Some (TDB_OK, e1, ans)
    /\ eng_seek_rowid ok_alloc TDB_MAXDEPTH 10 (w_mgr CellPager.w3) CellPager.t2 demo_e2 demo_t 1 = Some (TDB_OK, e2, ans)
    /\ ans = Some (demo_rec 1).
Proof.
  destruct (reader_keeps_snapshot ok_alloc (fun _ => eq_refl) TDB_MAXDEPTH 10 demo_t demo_main demo_hist eq_refl eq_refl demo_diff
    (proj2 (proj2 demo_roots)) CellPager.all_ok CellPager.b1.2 [CellPager.t1] TDB_ISO_SNAPSHOT true TDB_OK CellPager.t2 CellPager.b2.2
    CellPager.w3 demo_e1 demo_v1 demo_e2 (spec_op demo_v1 demo_upd).2 1
    CellPager.b1_reachable eq_refl CellPager.b2_begin CellPager.b2_to_w3 demo_e1_rep) as (e1 & e2 & ans & E1 & E2 & Hans).
  - apply rtc_once. eapply ew_op; [exact demo_upd_fits|exact demo_upd_unseen|exact demo_e2_run].
  - by apply demo_u64; vm_compute.
  - intros l [Hl|Hl]; vm_compute in Hl; injection Hl as <-; cbn; lia.
  - exists e1, e2, ans. split; [exact E1|]. split; [exact E2|]. apply Hans.
    exists [mk_version 3 0 (demo_rec 1)], [], (mk_version 3 0 (demo_rec 1)), []. split; [reflexivity|]. split; [reflexivity|].
    split; [reflexivity|]. split; [|constructor]. split; [right; reflexivity|by left].
Defined.

(** What the reader [t2] finds at row 1. *)
Definition reader_row (e : row_engine (P := pager)) : option (option (list Z)) :=
  match eng_seek_rowid ok_alloc TDB_MAXDEPTH 10 CellPager.b2.2 CellPager.t2 e demo_t 1 with Some (TDB_OK, _, ans) => Some ans | _ => None end.
Definition demo_run (ops : list row_op) : option (row_engine (P := pager)) :=
  foldl (fun e op => e ← e; match demo_op op e with Some (TDB_OK, e) => Some e | _ => None end) (Some demo_e0) ops.
(** A rowid that [t1], which the reader does not see, deletes and inserts again
    loses the version the reader saw: the new row starts a chain of its own. *)
Lemma reinsert_hides_row :
  (demo_run [demo_ins] ≫= reader_row) = Some (Some (demo_rec 1))
  /\ (demo_run [demo_ins; RDelete CellPager.t1 1] ≫= reader_row) = Some (Some (demo_rec 1))
  /\ (demo_run [demo_ins; RDelete CellPager.t1 1; RInsert CellPager.t1 1 (demo_rec 5)] ≫= reader_row) = Some None.
Proof. vm_compute. repeat split; reflexivity. Qed.
(** A row deleted by a transaction the reader sees comes back for it when [t1]
    updates the row: the update replaces the deleting transaction. *)
Lemma update_revives_row :
  (demo_run [demo_ins; RDelete old_txn 1] ≫= reader_row) = Some None
  /\ (demo_run [demo_ins; RDelete old_txn 1; RUpdate CellPager.t1 1 (demo_rec 2)] ≫= reader_row) = Some (Some (demo_rec 1)).
Proof. vm_compute. repeat split; reflexivity. Qed.

(** ** An index on the column *)

Definition demo_ix : tdb_index := mk_index (Some [105]) 0 false [0] None TDB_IDX_BTREE.
(** The table with its index and row 1, which the transaction [t1] inserts. *)
Definition demo_indexed : option (row_engine (P := pager) * tdb_table) :=
  match eng_create_index ok_alloc TDB_MAXDEPTH 100 CellPager.b1.2 CellPager.t1 demo_e0 demo_t demo_ix with
  | Some (TDB_OK, e, ix) =>
      let t := tset_cols demo_t (tb_cols demo_t) [ix] (-1) (-1) in
      match eng_insert ok_alloc TDB_MAXDEPTH CellPager.t1 e t 1 (demo_rec 1) with
      | Some (TDB_OK, e) => Some (e, t)
      | _ => None
      end
  | _ => None
  end.
(** The rows of a scan by [t1], over the table or over an index. *)
Fixpoint scan_all (n : nat) (p : pager) (sc : tdb_scan) : option (list (Z * list Z)) :=
  match n with
  | O => None
  | S n =>
      match eng_scan_next ok_alloc TDB_MAXDEPTH 100 CellPager.b1.2 CellPager.t1 p sc with
      | Some (TDB_ROW, p, sc, Some row) => match scan_all n p sc with Some l => Some (row :: l) | None => None end
      | Some (TDB_DONE, _, _, _) => Some []
      | _ => None
      end
  end.
Definition scan_rows (e : row_engine (P := pager)) (t : tdb_table) (ix : option tdb_index) : option (list (Z * list Z)) :=
  match eng_scan_open ok_alloc TDB_MAXDEPTH (e_pager e) t ix None 0 with
  | Some (TDB_OK, p, Some sc) => scan_all 100 p sc
  | _ => None
  end.

(** A scan over an index can return a row twice: after an UPDATE that
    changes the indexed column, the index holds the old and the new key of the
    row, the scan fetches the row for both and checks only that a version is
    visible, not that it has the key.  A table scan returns the row once. *)
Theorem index_scan_repeats_row :
  match demo_indexed with
  | Some (e, t) =>
      scan_rows e t (head (tb_indexes t)) = Some [(1, demo_rec 1)]
      /\ match eng_update ok_alloc TDB_MAXDEPTH CellPager.t1 e t 1 (demo_rec 2) with
         | Some (TDB_OK, e) =>
             scan_rows e t None = Some [(1, demo_rec 2)]
             /\ scan_rows e t (head (tb_indexes t)) = Some [(1, demo_rec 2); (1, demo_rec 2)]
         | _ => False
         end
  | None => False
  end.
Proof. vm_compute. repeat split; reflexivity. Qed.

(** A row whose key is longer than half a page is stored, and then the INSERT
    answers the error of the index. *)
Definition long_rec : list Z := b_data (tdb_record_encode ok_alloc [VText (replicate 300 97)] tdb_buf_init).2.
Lemma oversize_key_keeps_row :
  match demo_indexed with
  | Some (e, t) =>
      match eng_insert ok_alloc TDB_MAXDEPTH CellPager.t1 e t 2 long_rec with
      | Some (rc, e) => rc = TDB_FULL /\ scan_rows e t None = Some [(1, demo_rec 1); (2, long_rec)]
      | None => False
      end
  | None => False
  end.
Proof. vm_compute. split; reflexivity. Qed.

(** Over a descending index the upper bound of a range ends the scan at once:
    row 1 (value 1) is visible and within the range, and is not returned. *)
Definition desc_scan : option (list (Z * list Z)) :=
  let ix := mk_index (Some [105]) 0 false [0] (Some [true]) TDB_IDX_BTREE in
  match eng_create_index ok_alloc TDB_MAXDEPTH 100 CellPager.b1.2 CellPager.t1 demo_e0 demo_t ix with
  | Some (TDB_OK, e, ix) =>
      let t := tset_cols demo_t (tb_cols demo_t) [ix] (-1) (-1) in
      match eng_insert ok_alloc TDB_MAXDEPTH CellPager.t1 e t 1 (demo_rec 1) with
      | Some (TDB_OK, e) =>
          match eng_insert ok_alloc TDB_MAXDEPTH CellPager.t1 e t 2 (demo_rec 2) with
          | Some (TDB_OK, e) =>
              match eng_scan_open ok_alloc TDB_MAXDEPTH (e_pager e) t (Some ix)
                      (Some (mk_keyrange None (Some (VInt 1, true)) None)) 0 with
              | Some (TDB_OK, p, Some sc) => scan_all 100 p sc
              | _ => None
              end
          | _ => None
          end
      | _ => None
      end
  | _ => None
  end.
Lemma desc_index_scan_misses_row : desc_scan = Some [].
Proof. vm_compute. reflexivity. Qed.

(** The key of a row with 33 columns is built outside its arrays. *)
Lemma index_key_overrun :
  build_index_key ok_alloc demo_ix (b_data (tdb_record_encode ok_alloc (replicate 33 VNull) tdb_buf_init).2) 1 tdb_buf_init = None.
Proof. vm_compute. reflexivity. Qed.
