(* ===== verification/EngineCol.v ===== *)
(** * The column engine (src/src/storage/engine_col.c)

    A columnar table has a tree of row headers, a tree of values for every
    column, and the history of the row engine.  The current version of a row is
    put together from the columns; older ones are records of the history.

    [None] is as in the row engine: what C leaves undefined, and loops that a
    corrupt file could make endless. *)
From S2P Require Import Prelude Util Buf Value Record Mvcc Txn Btree Cursor Schema EngineRow.

Definition put_hdr : Z -> Z -> Z -> list Z := put_rowhdr.
Definition get_hdr : list Z -> option (Z * Z * Z * list Z) := get_rowhdr.
(** The roots of the columns; [ncol_roots] is the length. *)
Definition tset_col_roots (t : tdb_table) (roots : list Z) : tdb_table :=
  mk_table (tb_name t) (tb_root t) (tb_cols t) (tb_indexes t) (tb_fkeys t) (tb_check_sql t) (tb_schema_version t)
    (tb_history t) (tb_versioning t) (tb_row_start_col t) (tb_row_end_col t) (tb_history_root t) (tb_columnar t)
    roots (tb_before_insert_lua t) (tb_before_update_lua t) (tb_before_delete_lua t) (tb_tablespace t)
    (tb_compression t) (tb_partition_kind t) (tb_partition_cols t) (tb_partition_count t).
Definition tset_indexes (t : tdb_table) (indexes : list tdb_index) : tdb_table :=
  tset_cols t (tb_cols t) indexes (tb_row_start_col t) (tb_row_end_col t).

Section Column.
Context {P : Type} `{PagerPages P} (alloc_ok : Z -> bool) (depth rounds : nat).

Record col_engine := mk_cengine { ce_pager : P; ce_scratch : tdb_buf }.

Definition wrap_hist (out : tdb_buf) (xmin xmax prev : Z) (rec : list Z) : tdb_status * tdb_buf := wrap_row alloc_ok out xmin xmax prev rec.

(** ** Columns *)

Definition col_put (p : P) (root rowid : Z) (v : tdb_value) : option (tdb_status * P) :=
  match tdb_btree_open alloc_ok p root TDB_BT_TABLE None with
  | (TDB_OK, Some bt) =>
      match tdb_record_encode alloc_ok [v] tdb_buf_init with
      | (TDB_OK, cell) => tdb_btree_put alloc_ok depth bt p rowid (b_data cell)
      | (rc, _) => Some (rc, p)
      end
  | (rc, _) => Some (rc, p)
  end.
(** The value of the cell, NULL when anything fails; the cell is decoded into one
    place. *)
Definition cell_value (v : list Z) : option tdb_value :=
  match tdb_record_decode alloc_ok v 1 with
  | (TDB_OK, vals, nc) =>
      if 1 <? nc then None else Some (if 1 <=? nc then (tdb_value_copy alloc_ok (nth 0 vals VNull)).2 else VNull)
  | _ => Some VNull
  end.
Definition col_get (p : P) (root rowid : Z) : option (P * tdb_value) :=
  match tdb_btree_open alloc_ok p root TDB_BT_TABLE None with
  | (TDB_OK, Some bt) =>
      match tdb_cursor_open alloc_ok with
      | (TDB_OK, Some c) =>
          match tdb_cursor_seek_rowid alloc_ok depth bt p c rowid with
          | None => None
          | Some (TDB_OK, p, c, true) =>
              match tdb_cursor_data alloc_ok bt p c with
              | (TDB_OK, p, c, v) => x ← cell_value v; Some (tdb_cursor_close p c, x)
              | (_, p, c, _) => Some (tdb_cursor_close p c, VNull)
              end
          | Some (_, p, c, _) => Some (tdb_cursor_close p c, VNull)
          end
      | _ => Some (p, VNull)
      end
  | _ => Some (p, VNull)
  end.
(** The columns from [i] on; a mask leaves the columns it does not mark NULL. *)
Fixpoint read_columns (p : P) (roots : list Z) (i : nat) (rowid : Z) (colmask : option (list bool)) : option (P * list tdb_value) :=
  match roots with
  | [] => Some (p, [])
  | root :: roots =>
      r ← (match colmask with
           | Some mask => if nth i mask false then col_get p root rowid else Some (p, VNull)
           | None => col_get p root rowid
           end);
      let '(p, v) := r in
      r ← read_columns p roots (S i) rowid colmask;
      let '(p, vs) := r in Some (p, v :: vs)
  end.
(** At most 64 columns. *)
Definition reassemble (p : P) (t : tdb_table) (rowid : Z) (colmask : option (list bool)) (out : tdb_buf) : option (tdb_status * P * tdb_buf) :=
  let roots := take 64 (take (length (tb_cols t)) (tb_col_roots t)) in
  r ← read_columns p roots 0 rowid colmask;
  let '(p, vals) := r in
  let '(rc, out) := tdb_record_encode alloc_ok vals (tdb_buf_reset out) in
  Some (rc, p, out).
(** [i < nc ? vals[i] : NULL] into the tree of every column. *)
Fixpoint write_columns (p : P) (roots : list Z) (vals : list tdb_value) (rowid : Z) : option (tdb_status * P) :=
  match roots with
  | [] => Some (TDB_OK, p)
  | root :: roots =>
      match col_put p root rowid (hd VNull vals) with
      | Some (TDB_OK, p) => write_columns p roots (tl vals) rowid
      | r => r
      end
  end.

(** ** Indexes *)

Definition col_build_keyinfo : tdb_table -> tdb_index -> option tdb_keyinfo := build_keyinfo.
Definition col_build_index_key : tdb_index -> list Z -> Z -> tdb_buf -> option (tdb_status * tdb_buf) := build_index_key alloc_ok.
(** Every index of the table gets the key; failures are not looked at. *)
Fixpoint index_insert (p : P) (t : tdb_table) (indexes : list tdb_index) (rec : list Z) (rowid : Z) : option P :=
  match indexes with
  | [] => Some p
  | ix :: indexes =>
      ki ← col_build_keyinfo t ix;
      match tdb_btree_open alloc_ok p (ix_root ix) TDB_BT_INDEX (Some ki) with
      | (TDB_OK, Some ib) =>
          r ← col_build_index_key ix rec rowid tdb_buf_init;
          match r with
          | (TDB_OK, key) => r ← tdb_index_put alloc_ok depth ib p (b_data key); index_insert r.2 t indexes rec rowid
          | _ => index_insert p t indexes rec rowid
          end
      | _ => index_insert p t indexes rec rowid
      end
  end.

(** ** Tables *)

Fixpoint create_columns (p : P) (n : nat) (roots : list Z) : tdb_status * P * list Z :=
  match n with
  | O => (TDB_OK, p, roots)
  | S n =>
      match tdb_btree_create p TDB_BT_TABLE with
      | (TDB_OK, p, root) => create_columns p n (roots ++ [root])
      | (rc, p, _) => (rc, p, roots)
      end
  end.
(** After an error the table has the roots that were made; in the C array the
    places after them are not initialised. *)
Definition ceng_create_table (e : col_engine) (t : tdb_table) : tdb_status * col_engine * tdb_table :=
  match tdb_btree_create (ce_pager e) TDB_BT_TABLE with
  | (TDB_OK, p, root) =>
      match tdb_btree_create p TDB_BT_TABLE with
      | (TDB_OK, p, h) =>
          let t := tset_roots t root h in
          let n := length (tb_cols t) in
          if negb (alloc_ok (4 * Z.of_nat (if n =? 0 then 1 else n)%nat)) then (TDB_NOMEM, mk_cengine p (ce_scratch e), t)
          else
            let '(rc, p, roots) := create_columns p n [] in
            (rc, mk_cengine p (ce_scratch e), tset_col_roots t roots)
      | (rc, p, _) => (rc, mk_cengine p (ce_scratch e), tset_roots t root (tb_history_root t))
      end
  | (rc, p, _) => (rc, mk_cengine p (ce_scratch e), t)
  end.
Fixpoint destroy_trees (p : P) (roots : list Z) (flags : tdb_btree_kind) : option (tdb_status * P) :=
  match roots with
  | [] => Some (TDB_OK, p)
  | root :: roots =>
      match tdb_btree_destroy alloc_ok depth p root flags with
      | Some (TDB_OK, p) => destroy_trees p roots flags
      | r => r
      end
  end.
(** The history is not destroyed. *)
Definition ceng_drop_table (e : col_engine) (t : tdb_table) : option (tdb_status * col_engine) :=
  r ← (match destroy_trees (ce_pager e) (tb_root t :: tb_col_roots t) TDB_BT_TABLE with
       | Some (TDB_OK, p) => destroy_trees p (map ix_root (tb_indexes t)) TDB_BT_INDEX
       | r => r
       end);
  Some (r.1, mk_cengine r.2 (ce_scratch e)).
Definition ceng_next_rowid (e : col_engine) (t : tdb_table) : option (tdb_status * col_engine * Z) :=
  match tdb_btree_open alloc_ok (ce_pager e) (tb_root t) TDB_BT_TABLE None with
  | (TDB_OK, Some bt) =>
      r ← tdb_btree_max_rowid alloc_ok depth bt (ce_pager e);
      let '(rc, p, mx) := r in Some (rc, mk_cengine p (ce_scratch e), u64 (mx + 1))
  | (rc, _) => Some (rc, e, 0)
  end.

(** ** Row headers *)

Definition meta_get (p : P) (t : tdb_table) (rowid : Z) (out : tdb_buf) : option (tdb_status * P * tdb_buf * bool) :=
  match tdb_btree_open alloc_ok p (tb_root t) TDB_BT_TABLE None with
  | (TDB_OK, Some bt) =>
      match tdb_cursor_open alloc_ok with
      | (TDB_OK, Some c) =>
          match tdb_cursor_seek_rowid alloc_ok depth bt p c rowid with
          | None => None
          | Some (TDB_OK, p, c, true) =>
              match tdb_cursor_data alloc_ok bt p c with
              | (TDB_OK, p, c, v) =>
                  let '(rc, out) := tdb_buf_append alloc_ok (tdb_buf_reset out) v in
                  Some (rc, tdb_cursor_close p c, out, true)
              | (rc, p, c, _) => Some (rc, tdb_cursor_close p c, out, false)
              end
          | Some (rc, p, c, _) => Some (rc, tdb_cursor_close p c, out, false)
          end
      | (rc, _) => Some (rc, p, out, false)
      end
  | (rc, _) => Some (rc, p, out, false)
  end.
Definition meta_put (p : P) (t : tdb_table) (rowid xmin xmax prev : Z) : option (tdb_status * P) :=
  match tdb_btree_open alloc_ok p (tb_root t) TDB_BT_TABLE None with
  | (TDB_OK, Some bt) => tdb_btree_put alloc_ok depth bt p rowid (put_hdr xmin xmax prev)
  | (rc, _) => Some (rc, p)
  end.

(** ** Writing *)

(** The columns of the record, then the indexes; 64 values are decoded. *)
Definition store_row (p : P) (t : tdb_table) (rowid : Z) (rec : list Z) : option (tdb_status * P) :=
  match tdb_record_decode alloc_ok rec 64 with
  | (TDB_OK, vals, nc) =>
      if 64 <? nc then None
      else
        match write_columns p (take (length (tb_cols t)) (tb_col_roots t)) vals rowid with
        | Some (TDB_OK, p) => p ← index_insert p t (tb_indexes t) rec rowid; Some (TDB_OK, p)
        | r => r
        end
  | _ => Some (TDB_CORRUPT, p)
  end.
Definition ceng_insert (txn : tdb_txn) (e : col_engine) (t : tdb_table) (rowid : Z) (rec : list Z) : option (tdb_status * col_engine) :=
  r ← (match meta_put (ce_pager e) t rowid (t_id txn) 0 0 with
       | Some (TDB_OK, p) => store_row p t rowid rec
       | r => r
       end);
  Some (r.1, mk_cengine r.2 (ce_scratch e)).
(** The old version goes to the history; the version id. *)
Definition save_version (txn : tdb_txn) (p : P) (t : tdb_table) (rowid oxmin oprev : Z) : option (tdb_status * P * Z) :=
  r ← reassemble p t rowid None tdb_buf_init;
  match r with
  | (TDB_OK, p, old) =>
      match tdb_btree_open alloc_ok p (tb_history_root t) TDB_BT_TABLE None with
      | (TDB_OK, Some hist) =>
          r ← tdb_btree_max_rowid alloc_ok depth hist p;
          let '(rc, p, mx) := r in
          let vid := u64 (mx + 1) in
          match wrap_hist tdb_buf_init oxmin (t_id txn) oprev (b_data old) with
          | (TDB_OK, hbuf) => r ← tdb_btree_put alloc_ok depth hist p vid (b_data hbuf); Some (r.1, r.2, vid)
          | (rc, _) => Some (rc, p, vid)
          end
      | (rc, _) => Some (rc, p, 0)
      end
  | (rc, p, _) => Some (rc, p, 0)
  end.
Definition ceng_update (txn : tdb_txn) (e : col_engine) (t : tdb_table) (rowid : Z) (rec : list Z) : option (tdb_status * col_engine) :=
  r ← meta_get (ce_pager e) t rowid tdb_buf_init;
  match r with
  | (TDB_OK, p, meta, true) =>
      h ← get_hdr (b_data meta);
      let '(oxmin, oxmax, oprev, _) := h in
      r ← save_version txn p t rowid oxmin oprev;
      match r with
      | (TDB_OK, p, vid) =>
          r ← (match meta_put p t rowid (t_id txn) 0 vid with
               | Some (TDB_OK, p) => store_row p t rowid rec
               | r => r
               end);
          Some (r.1, mk_cengine r.2 (ce_scratch e))
      | (rc, p, _) => Some (rc, mk_cengine p (ce_scratch e))
      end
  | (TDB_OK, p, _, false) => Some (TDB_NOTFOUND, mk_cengine p (ce_scratch e))
  | (rc, p, _, _) => Some (rc, mk_cengine p (ce_scratch e))
  end.
Definition ceng_remove (txn : tdb_txn) (e : col_engine) (t : tdb_table) (rowid : Z) : option (tdb_status * col_engine) :=
  r ← meta_get (ce_pager e) t rowid tdb_buf_init;
  match r with
  | (TDB_OK, p, meta, true) =>
      h ← get_hdr (b_data meta);
      let '(oxmin, oxmax, oprev, _) := h in
      r ← meta_put p t rowid oxmin (t_id txn) oprev;
      Some (r.1, mk_cengine r.2 (ce_scratch e))
  | (TDB_OK, p, _, false) => Some (TDB_NOTFOUND, mk_cengine p (ce_scratch e))
  | (rc, p, _, _) => Some (rc, mk_cengine p (ce_scratch e))
  end.

(** ** Reading *)

Section Read.
Context {M : Type} (m : tdb_txnmgr M) (txn : tdb_txn).

Definition col_visible (xmin xmax as_of : Z) : bool :=
  if negb (as_of =? 0) then tdb_txn_visible_asof m txn xmin xmax as_of else tdb_txn_visible m txn xmin xmax.
(** The walk over the history with one cursor; a version that is not found ends
    it. *)
Fixpoint history_loop (n : nat) (p : P) (hist : tdb_btree) (hc : tdb_cursor) (vid : Z) (out : tdb_buf) (as_of : Z)
  : option (tdb_status * P * tdb_cursor * tdb_buf * bool) :=
  match n with
  | O => None
  | S n =>
      if vid =? 0 then Some (TDB_OK, p, hc, out, false)
      else
        match tdb_cursor_seek_rowid alloc_ok depth hist p hc vid with
        | None => None
        | Some (TDB_OK, p, hc, true) =>
            match tdb_cursor_data alloc_ok hist p hc with
            | (TDB_OK, p, hc, v) =>
                h ← get_hdr v;
                let '(hx, hxm, hp, hrec) := h in
                if col_visible hx hxm as_of then
                  let '(rc, out) := tdb_buf_append alloc_ok (tdb_buf_reset out) hrec in
                  Some (rc, p, hc, out, bool_decide (rc = TDB_OK))
                else history_loop n p hist hc hp out as_of
            | (_, p, hc, _) => Some (TDB_OK, p, hc, out, false)
            end
        | Some (_, p, hc, _) => Some (TDB_OK, p, hc, out, false)
        end
  end.
Definition resolve_col (p : P) (t : tdb_table) (rowid : Z) (metaval : list Z) (out : tdb_buf) (as_of : Z) (colmask : option (list bool))
  : option (tdb_status * P * tdb_buf * bool) :=
  h ← get_hdr metaval;
  let '(xmin, xmax, prev, _) := h in
  if col_visible xmin xmax as_of then
    r ← reassemble p t rowid colmask out; let '(rc, p, out) := r in Some (rc, p, out, true)
  else if prev =? 0 then Some (TDB_OK, p, out, false)
  else
    match tdb_btree_open alloc_ok p (tb_history_root t) TDB_BT_TABLE None with
    | (TDB_OK, Some hist) =>
        match tdb_cursor_open alloc_ok with
        | (TDB_OK, Some hc) =>
            r ← history_loop rounds p hist hc prev out as_of;
            let '(rc, p, hc, out, found) := r in Some (rc, tdb_cursor_close p hc, out, found)
        | (rc, _) => Some (rc, p, out, false)
        end
    | (rc, _) => Some (rc, p, out, false)
    end.
Definition ceng_seek_rowid (e : col_engine) (t : tdb_table) (rowid : Z) : option (tdb_status * col_engine * option (list Z)) :=
  r ← meta_get (ce_pager e) t rowid tdb_buf_init;
  match r with
  | (TDB_OK, p, meta, true) =>
      r ← resolve_col p t rowid (b_data meta) (ce_scratch e) 0 None;
      let '(rc, p, out, found) := r in
      Some (rc, mk_cengine p out, if bool_decide (rc = TDB_OK) && found then Some (b_data out) else None)
  | (rc, p, _, _) => Some (rc, mk_cengine p (ce_scratch e), None)
  end.

(** ** Scans *)

Record col_scan := mk_cscan {
  cs_t : tdb_table;
  cs_meta : tdb_btree;
  cs_cur : option tdb_cursor;
  cs_rec : tdb_buf;
  cs_work : tdb_buf;
  cs_as_of : Z;
  cs_colmask : option (list bool) }.
Definition ceng_scan_close (p : P) (sc : col_scan) : P :=
  match cs_cur sc with Some c => tdb_cursor_close p c | None => p end.
(** [sizeof(tdb_scan)] is 104.  Indexes and ranges are not used. *)
Definition ceng_scan_open (p : P) (t : tdb_table) (as_of : Z) (colmask : option (list bool)) : option (tdb_status * P * option col_scan) :=
  if negb (alloc_ok 104) then Some (TDB_NOMEM, p, None)
  else
    match tdb_btree_open alloc_ok p (tb_root t) TDB_BT_TABLE None with
    | (TDB_OK, Some bt) =>
        match tdb_cursor_open alloc_ok with
        | (TDB_OK, Some c) =>
            r ← tdb_cursor_first depth bt p c;
            let '(rc, p, c) := r in
            let sc := mk_cscan t bt (Some c) tdb_buf_init tdb_buf_init as_of colmask in
            Some (match rc with TDB_OK => (TDB_OK, p, Some sc) | rc => (rc, ceng_scan_close p sc, None) end)
        | (rc, _) => Some (rc, p, None)
        end
    | (rc, _) => Some (rc, p, None)
    end.
(** The header is copied before the cursor moves on. *)
Fixpoint col_scan_loop (n : nat) (p : P) (sc : col_scan) (c : tdb_cursor) : option (tdb_status * P * col_scan * option (Z * list Z)) :=
  match n with
  | O => None
  | S n =>
      let set c rec work := mk_cscan (cs_t sc) (cs_meta sc) (Some c) rec work (cs_as_of sc) (cs_colmask sc) in
      if tdb_cursor_eof c then Some (TDB_DONE, p, set c (cs_rec sc) (cs_work sc), None)
      else
        match tdb_cursor_data alloc_ok (cs_meta sc) p c with
        | (TDB_OK, p, c, mv) =>
            let rid := (tdb_cursor_rowid (cs_meta sc) p c).2 in
            let '(_, work) := tdb_buf_append alloc_ok (tdb_buf_reset (cs_work sc)) mv in
            r ← tdb_cursor_next depth p c;
            let '(_, p, c) := r in
            r ← resolve_col p (cs_t sc) rid (b_data work) (cs_rec sc) (cs_as_of sc) (cs_colmask sc);
            match r with
            | (TDB_OK, p, rec, true) => Some (TDB_ROW, p, set c rec work, Some (rid, b_data rec))
            | (TDB_OK, p, rec, false) => col_scan_loop n p (set c rec work) c
            | (rc, p, rec, _) => Some (rc, p, set c rec work, None)
            end
        | (_, p, c, _) => Some (TDB_ERROR, p, set c (cs_rec sc) (cs_work sc), None)
        end
  end.
Definition ceng_scan_next (p : P) (sc : col_scan) : option (tdb_status * P * col_scan * option (Z * list Z)) :=
  match cs_cur sc with None => None | Some c => col_scan_loop rounds p sc c end.

(** ** CREATE INDEX *)

(** The rows of the scan go to every index of the table. *)
Fixpoint populate_indexes (n : nat) (p : P) (sc : col_scan) (t : tdb_table) : option (tdb_status * P * col_scan) :=
  match n with
  | O => None
  | S n =>
      r ← ceng_scan_next p sc;
      match r with
      | (TDB_ROW, p, sc, Some (rid, rec)) => p ← index_insert p t (tb_indexes t) rec rid; populate_indexes n p sc t
      | (rc, p, sc, _) => Some (rc, p, sc)
      end
  end.
(** The index is the [k]th of the table, as the caller passes it. *)
Definition ceng_create_index (e : col_engine) (t : tdb_table) (k : nat) : option (tdb_status * col_engine * tdb_table) :=
  ix ← tb_indexes t !! k;
  match tdb_btree_create (ce_pager e) TDB_BT_INDEX with
  | (TDB_OK, p, root) =>
      let t := tset_indexes t (<[k := iset_root ix root]> (tb_indexes t)) in
      r ← ceng_scan_open p t 0 None;
      match r with
      | (TDB_OK, p, Some sc) =>
          r ← populate_indexes rounds p sc t;
          let '(rc, p, sc) := r in
          Some (if bool_decide (rc = TDB_DONE) then TDB_OK else rc, mk_cengine (ceng_scan_close p sc) (ce_scratch e), t)
      | (rc, p, _) => Some (rc, mk_cengine p (ce_scratch e), t)
      end
  | (rc, p, _) => Some (rc, mk_cengine p (ce_scratch e), t)
  end.
End Read.

(** ** Columns of the schema *)

(** The new column is the last one; places between the old roots and it would
    hold no value. *)
Definition ceng_add_column (e : col_engine) (t : tdb_table) : option (tdb_status * col_engine * tdb_table) :=
  let n := length (tb_cols t) in
  if negb (alloc_ok (4 * Z.of_nat n)) then Some (TDB_NOMEM, e, t)
  else if (n =? 0)%nat then None
  else
    match tdb_btree_create (ce_pager e) TDB_BT_TABLE with
    | (TDB_OK, p, root) =>
        if (length (tb_col_roots t) <? n - 1)%nat then None
        else Some (TDB_OK, mk_cengine p (ce_scratch e), tset_col_roots t (take (n - 1) (tb_col_roots t) ++ [root]))
    | (rc, p, _) => Some (rc, mk_cengine p (ce_scratch e), t)
    end.
Definition ceng_drop_column (e : col_engine) (t : tdb_table) (ci : Z) : option (tdb_status * col_engine * tdb_table) :=
  let roots := tb_col_roots t in
  match (if ci <? 0 then None else roots !! Z.to_nat ci) with
  | None => Some (TDB_OK, e, tset_col_roots t (take (length roots - 1) roots))
  | Some root =>
      r ← tdb_btree_destroy alloc_ok depth (ce_pager e) root TDB_BT_TABLE;
      Some (r.1, mk_cengine r.2 (ce_scratch e), tset_col_roots t (delete (Z.to_nat ci) roots))
  end.
Definition ceng_drop_index (e : col_engine) (ix : tdb_index) : option (tdb_status * col_engine) :=
  r ← tdb_btree_destroy alloc_ok depth (ce_pager e) (ix_root ix) TDB_BT_INDEX; Some (r.1, mk_cengine r.2 (ce_scratch e)).
(** [sizeof(col_engine)] is 32, [sizeof(tdb_storage)] is 16. *)
Definition tdb_engine_columnar_open (p : P) : tdb_status * option col_engine :=
  if negb (alloc_ok 32 && alloc_ok 16) then (TDB_NOMEM, None) else (TDB_OK, Some (mk_cengine p tdb_buf_init)).
End Column.
