(* ===== verification/Engine.v ===== *)
(** * The storage engine of a connection (src/src/storage/tdb_engine.c)

    One row engine and one column engine over one pager; the flag of the table
    decides which of them an operation goes to. *)
From S2P Require Import Prelude Util Buf Value Record Mvcc Txn Btree Cursor Schema EngineRow EngineCol.

Section Engine.
Context {P : Type} `{PagerPages P, RtreeOps P} (alloc_ok : Z -> bool) (depth rounds : nat).

(** The engines share the pager. *)
Record disp_impl := mk_disp { d_pager : P; d_row : tdb_buf; d_col : tdb_buf }.
Definition pick (d : disp_impl) (t : option tdb_table) : row_engine + col_engine :=
  if (match t with Some t => tb_columnar t | None => false end) then inr (mk_cengine (d_pager d) (d_col d)) else inl (mk_engine (d_pager d) (d_row d)).
Definition put_row_engine (d : disp_impl) (e : row_engine) : disp_impl := mk_disp (e_pager e) (e_scratch e) (d_col d).
Definition put_col_engine (d : disp_impl) (e : col_engine) : disp_impl := mk_disp (ce_pager e) (d_row d) (ce_scratch e).

Definition d_create_table (d : disp_impl) (t : tdb_table) : tdb_status * disp_impl * tdb_table :=
  match pick d (Some t) with
  | inl e => let '(rc, e, t) := eng_create_table e t in (rc, put_row_engine d e, t)
  | inr e => let '(rc, e, t) := ceng_create_table alloc_ok e t in (rc, put_col_engine d e, t)
  end.
Definition d_drop_table (d : disp_impl) (t : tdb_table) : option (tdb_status * disp_impl) :=
  match pick d (Some t) with
  | inl e => r ← eng_drop_table alloc_ok depth e t; Some (r.1, put_row_engine d r.2)
  | inr e => r ← ceng_drop_table alloc_ok depth e t; Some (r.1, put_col_engine d r.2)
  end.
Definition d_insert (txn : tdb_txn) (d : disp_impl) (t : tdb_table) (rowid : Z) (rec : list Z) : option (tdb_status * disp_impl) :=
  match pick d (Some t) with
  | inl e => r ← eng_insert alloc_ok depth txn e t rowid rec; Some (r.1, put_row_engine d r.2)
  | inr e => r ← ceng_insert alloc_ok depth txn e t rowid rec; Some (r.1, put_col_engine d r.2)
  end.
Definition d_update (txn : tdb_txn) (d : disp_impl) (t : tdb_table) (rowid : Z) (rec : list Z) : option (tdb_status * disp_impl) :=
  match pick d (Some t) with
  | inl e => r ← eng_update alloc_ok depth txn e t rowid rec; Some (r.1, put_row_engine d r.2)
  | inr e => r ← ceng_update alloc_ok depth txn e t rowid rec; Some (r.1, put_col_engine d r.2)
  end.
Definition d_remove (txn : tdb_txn) (d : disp_impl) (t : tdb_table) (rowid : Z) : option (tdb_status * disp_impl) :=
  match pick d (Some t) with
  | inl e => r ← eng_remove alloc_ok depth txn e t rowid; Some (r.1, put_row_engine d r.2)
  | inr e => r ← ceng_remove alloc_ok depth txn e t rowid; Some (r.1, put_col_engine d r.2)
  end.
Definition d_next_rowid (d : disp_impl) (t : tdb_table) : option (tdb_status * disp_impl * Z) :=
  match pick d (Some t) with
  | inl e => r ← eng_next_rowid alloc_ok depth e t; let '(rc, e, n) := r in Some (rc, put_row_engine d e, n)
  | inr e => r ← ceng_next_rowid alloc_ok depth e t; let '(rc, e, n) := r in Some (rc, put_col_engine d e, n)
  end.
Definition d_add_column (d : disp_impl) (t : tdb_table) : option (tdb_status * disp_impl * tdb_table) :=
  match pick d (Some t) with
  | inl e => Some (eng_add_column t, d, t)
  | inr e => r ← ceng_add_column alloc_ok e t; let '(rc, e, t) := r in Some (rc, put_col_engine d e, t)
  end.
Definition d_drop_column (d : disp_impl) (t : tdb_table) (ci : Z) : option (tdb_status * disp_impl * tdb_table) :=
  match pick d (Some t) with
  | inl e => r ← eng_drop_column alloc_ok depth rounds e t ci; Some (r.1, put_row_engine d r.2, t)
  | inr e => r ← ceng_drop_column alloc_ok depth e t ci; let '(rc, e, t) := r in Some (rc, put_col_engine d e, t)
  end.
Definition d_drop_index (d : disp_impl) (t : tdb_table) (ix : tdb_index) : option (tdb_status * disp_impl) :=
  match pick d (Some t) with
  | inl e => r ← eng_drop_index alloc_ok depth e ix; Some (r.1, put_row_engine d r.2)
  | inr e => r ← ceng_drop_index alloc_ok depth e ix; Some (r.1, put_col_engine d r.2)
  end.

Section Read.
Context {M : Type} (m : tdb_txnmgr M) (txn : tdb_txn).

Definition d_create_index (d : disp_impl) (t : tdb_table) (k : nat) : option (tdb_status * disp_impl * tdb_table) :=
  match pick d (Some t) with
  | inl e =>
      ix ← tb_indexes t !! k;
      r ← eng_create_index alloc_ok depth rounds m txn e t ix;
      let '(rc, e, ix) := r in Some (rc, put_row_engine d e, tset_indexes t (<[k := ix]> (tb_indexes t)))
  | inr e => r ← ceng_create_index alloc_ok depth rounds m txn e t k; let '(rc, e, t) := r in Some (rc, put_col_engine d e, t)
  end.
Definition d_seek_rowid (d : disp_impl) (t : tdb_table) (rowid : Z) : option (tdb_status * disp_impl * option (list Z)) :=
  match pick d (Some t) with
  | inl e => r ← eng_seek_rowid alloc_ok depth rounds m txn e t rowid; let '(rc, e, rec) := r in Some (rc, put_row_engine d e, rec)
  | inr e => r ← ceng_seek_rowid alloc_ok depth rounds m txn e t rowid; let '(rc, e, rec) := r in Some (rc, put_col_engine d e, rec)
  end.

(** A scan is one of the two; [sizeof(tdb_scan)] is 16. *)
Definition disp_scan : Type := tdb_scan (P := P) + col_scan.
Definition d_scan_close (p : P) (sc : disp_scan) : P :=
  match sc with inl sc => eng_scan_close p sc | inr sc => ceng_scan_close p sc end.
Definition d_scan_open (d : disp_impl) (t : tdb_table) (use_idx : option tdb_index) (range : option (tdb_keyrange (P := P))) (as_of : Z) (colmask : option (list bool))
  : option (tdb_status * disp_impl * option disp_scan) :=
  let set p := mk_disp p (d_row d) (d_col d) in
  let opened : option (tdb_status * P * option disp_scan) :=
    match pick d (Some t) with
    | inl e =>
        match eng_scan_open alloc_ok depth (e_pager e) t use_idx range as_of with
        | Some (rc, p, Some sc) => Some (rc, p, Some (inl sc))
        | Some (rc, p, None) => Some (rc, p, None)
        | None => None
        end
    | inr e =>
        match ceng_scan_open alloc_ok depth (ce_pager e) t as_of colmask with
        | Some (rc, p, Some sc) => Some (rc, p, Some (inr sc))
        | Some (rc, p, None) => Some (rc, p, None)
        | None => None
        end
    end in
  match opened with
  | Some (TDB_OK, p, Some sc) => if negb (alloc_ok 16) then Some (TDB_NOMEM, set (d_scan_close p sc), None) else Some (TDB_OK, set p, Some sc)
  | Some (rc, p, _) => Some (rc, set p, None)
  | None => None
  end.
Definition d_scan_next (d : disp_impl) (sc : disp_scan) : option (tdb_status * disp_impl * disp_scan * option (Z * list Z)) :=
  let set p := mk_disp p (d_row d) (d_col d) in
  match sc with
  | inl sc => r ← eng_scan_next alloc_ok depth rounds m txn (d_pager d) sc; let '(rc, p, sc, row) := r in Some (rc, set p, inl sc, row)
  | inr sc => r ← ceng_scan_next alloc_ok depth rounds m txn (d_pager d) sc; let '(rc, p, sc, row) := r in Some (rc, set p, inr sc, row)
  end.
End Read.

(** [sizeof(disp_impl)] and [sizeof(tdb_storage)] are 16. *)
Definition tdb_engine_open (p : P) : tdb_status * option disp_impl :=
  if negb (alloc_ok 16) then (TDB_NOMEM, None)
  else
    match tdb_engine_row_open alloc_ok p with
    | (TDB_OK, Some r) =>
        match tdb_engine_columnar_open alloc_ok (e_pager r) with
        | (TDB_OK, Some c) => (TDB_OK, Some (mk_disp (ce_pager c) (e_scratch r) (ce_scratch c)))
        | (rc, _) => (rc, None)
        end
    | (rc, _) => (rc, None)
    end.
End Engine.
