(* ===== verification/EngineColSpec.v ===== *)
(** * The column engine as a store of versions

    A columnar table implements the same map from rowids to lists of versions as
    a table of the row engine: the current version of a row is the record put
    together from its columns, older ones are in the history. *)
From stdpp Require Import gmap relations.
From S2P Require Import Prelude Util Buf Value Record Mvcc Txn Btree Cursor BtreePage BtreeStore BtreeLeaf Schema EngineRow EngineSpec EngineCol.

(** ** Records of at most 64 columns *)

(** Values as they are read back: a composite is stored as a blob. *)
Definition plain_values (vals : list tdb_value) : Prop :=
  (length vals <= 64)%nat /\ Forall value_ok vals /\ map stored_value vals = vals.

Lemma serials_len vals : Forall value_ok vals -> blen (serials_bytes vals) <= 10 * Z.of_nat (length vals).
Proof.
  induction 1 as [|v vals Hv _ IH]; [done|]. unfold serials_bytes in *. cbn [flat_map length]. rewrite blen_app.
  destruct (value_serial_spec v Hv) as (Hs & _). pose proof (put_varint_len _ Hs). lia.
Qed.
Lemma bodies_len vals : Forall value_ok vals -> blen (bodies_bytes vals) <= bodies_room vals <= (2 ^ 31 + 8) * Z.of_nat (length vals).
Proof.
  induction 1 as [|v vals Hv _ IH]; [done|]. unfold bodies_bytes, bodies_room in *. cbn [flat_map foldr length]. rewrite blen_app.
  destruct (value_serial_spec v Hv) as (_ & Hb & _ & -> & _). lia.
Qed.
Lemma record_len vals : plain_values vals -> blen (record_bytes vals) <= 2 ^ 62.
Proof.
  intros (Hn & Hv & _). unfold record_bytes. rewrite !blen_app. pose proof (serials_len vals Hv). pose proof (bodies_len vals Hv).
  pose proof (put_varint_len (Z.of_nat (length vals)) ltac:(lia)). lia.
Qed.

Section Values.
Context (alloc_ok : Z -> bool) (Halloc : forall n, alloc_ok n = true).

Lemma copy_value v : value_ok v -> (tdb_value_copy alloc_ok v).2 = v.
Proof using Halloc.
  intros Hv. destruct v as [|i|b|s|s|s]; try done; cbn [tdb_value_copy]; unfold tdb_value_set_text, tdb_value_set_blob, tdb_value_set_composite, value_set_bytes;
    pose proof (blen_nonneg s); rewrite !(proj2 (Z.ltb_ge (blen s) 0)) by lia; rewrite Halloc; cbn [snd]; by rewrite bsub_all.
Qed.
Lemma encode_plain vals out : plain_values vals -> buf_wf out ->
  exists b, tdb_record_encode alloc_ok vals (tdb_buf_reset out) = (TDB_OK, b) /\ b_data b = record_bytes vals /\ buf_wf b.
Proof using Halloc.
  intros (Hn & Hv & _) Hw. pose proof (bodies_len vals Hv) as Hb.
  destruct (record_encode_spec alloc_ok vals (tdb_buf_reset out) Hv (buf_reset_wf _ Hw)) as [W [[E D]|(_ & _ & n & En)]].
  - change (b_len (tdb_buf_reset out)) with 0. lia.
  - destruct (tdb_record_encode alloc_ok vals (tdb_buf_reset out)) as [rc b]. cbn in *. subst rc. by exists b.
  - by rewrite Halloc in En.
Qed.
Lemma decode_plain vals max : plain_values vals -> Z.of_nat (length vals) <= max ->
  tdb_record_decode alloc_ok (record_bytes vals) max = (TDB_OK, vals, Z.of_nat (length vals)).
Proof using Halloc.
  intros (Hn & Hv & Hs) Hm. rewrite <- (app_nil_r (record_bytes vals)), record_decode_layout by (done || lia || auto).
  rewrite take_ge by lia. by rewrite Hs.
Qed.
Lemma plain_one vals v : plain_values vals -> v ∈ vals -> plain_values [v].
Proof.
  intros (_ & Hv & Hs) Hin. rewrite Forall_forall in Hv. split; [cbn; lia|]. split; [by constructor; [apply Hv|]|]. cbn.
  apply list_elem_of_lookup in Hin as [i Hi]. pose proof (f_equal (fun l => l !! i) Hs) as E. cbn in E. rewrite list_lookup_fmap, Hi in E. cbn in E. congruence.
Qed.
Lemma cell_plain v : plain_values [v] -> cell_value alloc_ok (record_bytes [v]) = Some v.
Proof using Halloc.
  intros Hv. unfold cell_value. rewrite (decode_plain [v] 1 Hv) by (cbn; lia). cbn. f_equal. apply copy_value. destruct Hv as (_ & Hv & _). by apply Forall_cons in Hv as [? _].
Qed.
Lemma append_wf b v : buf_wf b -> blen v <= 2 ^ 62 -> exists b', tdb_buf_append alloc_ok (tdb_buf_reset b) v = (TDB_OK, b') /\ b_data b' = v /\ buf_wf b'.
Proof using Halloc.
  intros Hw Hv. destruct (buf_append_adds alloc_ok (tdb_buf_reset b) v (buf_reset_wf _ Hw)) as [(E & D & W)|(_ & _ & n & En)].
  - change (b_len (tdb_buf_reset b)) with 0. lia.
  - destruct (tdb_buf_append _ _ _) as [rc b']. cbn in *. subst. by exists b'.
  - by rewrite Halloc in En.
Qed.
End Values.

Lemma Forall2_impl_in {A B} (R S : A -> B -> Prop) l k : (forall a b, a ∈ l -> R a b -> S a b) -> Forall2 R l k -> Forall2 S l k.
Proof. intros Hi HF. induction HF as [|a b l k HR HF IH]; constructor; [apply Hi; [by left|done]|]. apply IH. intros a' b' Ha. apply Hi. by right. Qed.

Lemma Forall2_elem_l {A B} (R : A -> B -> Prop) l k a : Forall2 R l k -> a ∈ l -> exists b, R a b.
Proof. intros HF [i Hi]%list_elem_of_lookup. destruct (Forall2_lookup_l _ _ _ _ _ HF Hi) as (b & _ & HR). by exists b. Qed.

Section Columns.
Context {P : Type} `{PagerPages P, TableView P} (alloc_ok : Z -> bool) (Halloc : forall n, alloc_ok n = true).
Context (depth rounds : nat) `{TS : !TableStore P alloc_ok depth}.

(** The trees [cols] hold the values of row [r]. *)
Definition cells (p : P) (r : Z) : list tdb_btree -> list tdb_value -> Prop := Forall2 (fun bt v => tv_rows p bt !! r = Some (record_bytes [v])).

Lemma col_get_ok p ts bt r v : tv_ok p ts -> bt ∈ ts -> u64_ok r -> plain_values [v] -> tv_rows p bt !! r = Some (record_bytes [v]) ->
  exists q, col_get alloc_ok depth p (bt_root bt) r = Some (q, v) /\ same_tables p q ts.
Proof using All.
  intros Hp Hbt Hr Hv Hrow. unfold col_get. rewrite (table_opens Halloc p ts bt Hp Hbt), cursor_open_fresh by apply Halloc.
  destruct (tv_get p ts bt r Hp Hbt Hr) as (q & c & E & Hc). rewrite Hrow in E, Hc. destruct Hc as (q' & c' & E' & Hs). rewrite E, E'.
  rewrite (cell_plain alloc_ok Halloc v Hv). by eexists.
Qed.
Lemma cells_same p q r cols vals ts : same_tables p q ts -> (forall bt, bt ∈ cols -> bt ∈ ts) -> cells p r cols vals -> cells q r cols vals.
Proof using Type.
  intros (_ & Hr & _) Hsub. apply Forall2_impl_in. intros bt v Hbt E. rewrite Hr by (by apply Hsub). done.
Qed.
Lemma read_columns_ok p ts cols vals i r : tv_ok p ts -> (forall bt, bt ∈ cols -> bt ∈ ts) -> u64_ok r -> Forall (fun v => plain_values [v]) vals -> cells p r cols vals ->
  exists q, read_columns alloc_ok depth p (map bt_root cols) i r None = Some (q, vals) /\ same_tables p q ts.
Proof using All.
  intros Hp Hsub Hr Hv Hc. revert p i Hp Hc. revert vals Hv. induction cols as [|bt cols IH]; intros vals Hv p i Hp Hc; inversion Hc; subst; cbn [map read_columns].
  { exists p. split; [done|]. by apply tables_refl. }
  apply Forall_cons in Hv as [Hv1 Hv]. destruct (col_get_ok p ts bt r y Hp ltac:(apply Hsub; by left) Hr Hv1) as (q & -> & Hs); [done|]. cbn [mbind option_bind].
  destruct (IH ltac:(intros bt' Hbt'; apply Hsub; by right) l' Hv q (S i) (proj1 Hs)) as (q2 & -> & Hs2).
  { eapply cells_same; [exact Hs| |done]. intros bt' Hbt'. apply Hsub. by right. }
  exists q2. split; [done|]. by eapply tables_trans.
Qed.
Lemma col_put_ok p ts bt r v : tv_ok p ts -> bt ∈ ts -> u64_ok r -> plain_values [v] -> tv_fits p bt r (record_bytes [v]) ->
  exists q, col_put alloc_ok depth p (bt_root bt) r v = Some (TDB_OK, q) /\ tv_ok q ts /\ tv_rows q bt = <[r := record_bytes [v]]> (tv_rows p bt)
    /\ (forall bt', bt' ∈ ts -> bt' <> bt -> tv_rows q bt' = tv_rows p bt')
    /\ (forall bt' r' v', bt' ∈ ts -> bt' <> bt -> tv_fits p bt' r' v' -> tv_fits q bt' r' v').
Proof using All.
  intros Hp Hbt Hr Hv Hf. unfold col_put. rewrite (table_opens Halloc p ts bt Hp Hbt).
  destruct (encode_plain alloc_ok Halloc [v] tdb_buf_init Hv buf_init_wf) as (b & E & Eb & _). change (tdb_buf_reset tdb_buf_init) with tdb_buf_init in E.
  rewrite E, Eb. by apply tv_put.
Qed.
Lemma write_columns_ok p ts cols vals r : tv_ok p ts -> (forall bt, bt ∈ cols -> bt ∈ ts) -> NoDup cols -> u64_ok r -> Forall (fun v => plain_values [v]) vals ->
  Forall2 (fun bt v => tv_fits p bt r (record_bytes [v])) cols vals ->
  exists q, write_columns alloc_ok depth p (map bt_root cols) vals r = Some (TDB_OK, q) /\ tv_ok q ts
    /\ Forall2 (fun bt v => tv_rows q bt = <[r := record_bytes [v]]> (tv_rows p bt)) cols vals
    /\ (forall bt', bt' ∈ ts -> bt' ∉ cols -> tv_rows q bt' = tv_rows p bt').
Proof using All.
  intros Hp Hsub Hnd Hr Hv Hf. revert p Hp Hf. revert vals Hv. induction Hnd as [|bt cols Hn Hnd IH]; intros vals Hv p Hp Hf; inversion Hf as [|? v ? vals' Hf1 Hf2]; subst; cbn [map write_columns hd tl].
  { exists p. by repeat split. }
  apply Forall_cons in Hv as [Hv1 Hv]. destruct (col_put_ok p ts bt r v Hp ltac:(apply Hsub; by left) Hr Hv1 Hf1) as (q & -> & Hq & Eq & Oq & Fq).
  assert (forall bt', bt' ∈ cols -> bt' ∈ ts /\ bt' <> bt) as Hc by (intros bt' Hbt'; split; [apply Hsub; by right|by intros ->]).
  destruct (IH ltac:(intros bt' Hbt'; by apply Hc) vals' Hv q Hq) as (q2 & -> & Hq2 & E2 & O2).
  { eapply Forall2_impl_in; [|exact Hf2]. intros bt' v' Hbt' Hf'. by apply Fq; [apply Hc|apply Hc|]. }
  exists q2. split; [done|]. split; [done|]. split.
  - constructor; [rewrite O2 by (done || (apply Hsub; by left)); done|]. eapply Forall2_impl_in; [|exact E2]. intros bt' v' Hbt' ->. by rewrite Oq by apply Hc, Hbt'.
  - intros bt' Hbt' Hnot. apply not_elem_of_cons in Hnot as [Hne Hnot]. by rewrite O2, Oq.
Qed.
Lemma reassemble_ok p ts t cols vals r out : tv_ok p ts -> (forall bt, bt ∈ cols -> bt ∈ ts) -> u64_ok r -> plain_values vals -> cells p r cols vals ->
  map bt_root cols = tb_col_roots t -> length cols = length (tb_cols t) -> buf_wf out ->
  exists q b, reassemble alloc_ok depth p t r None out = Some (TDB_OK, q, b) /\ b_data b = record_bytes vals /\ buf_wf b /\ same_tables p q ts.
Proof using All.
  intros Hp Hsub Hr Hv Hc Hroots Hlen Hw. unfold reassemble. pose proof (Forall2_length _ _ _ Hc) as Hl. pose proof Hv as (Hn & _).
  rewrite <- Hroots, !take_ge by (rewrite ?length_map, ?length_take; lia).
  destruct (read_columns_ok p ts cols vals 0 r Hp Hsub Hr) as (q & -> & Hs); [|done|].
  { apply Forall_forall. intros v Hin. by eapply plain_one. }
  cbn [mbind option_bind]. destruct (encode_plain alloc_ok Halloc vals out Hv Hw) as (b & -> & Eb & Wb). by exists q, b.
Qed.

(** The walk over the history with one cursor. *)
Section History.
Context {M : Type} (m : tdb_txnmgr M) (txn : tdb_txn) (as_of : Z).
Lemma history_loop_ok n p ts hist hc vid out l :
  cursor_wf hc -> tv_ok (tdb_cursor_close p hc) ts -> hist ∈ ts -> u64_ok vid -> older (tv_rows (tdb_cursor_close p hc) hist) vid l -> (length l < n)%nat ->
  Forall (fun x => blen (v_rec x) <= 2 ^ 62) l -> buf_wf out ->
  exists q hc' out', history_loop alloc_ok depth m txn n p hist hc vid out as_of
      = Some (TDB_OK, q, hc', out', match first_visible (row_visible m txn as_of) l with Some _ => true | None => false end)
    /\ same_tables (tdb_cursor_close p hc) (tdb_cursor_close q hc') ts /\ buf_wf out'
    /\ (forall rec, first_visible (row_visible m txn as_of) l = Some rec -> b_data out' = rec).
Proof using All.
  revert n p hc vid. induction l as [|x l IH]; intros n p hc vid Hc Hp Hh Hvid Ho Hn Hlen Hw; (destruct n as [|n]; [cbn in Hn; lia|]); cbn [history_loop].
  { cbn in Ho. subst vid. exists p, hc, out. split; [done|]. split; [by apply tables_refl|done]. }
  destruct Ho as (Hne & v & Hv & Ho). destruct (Z.eqb_spec vid 0); [done|]. apply Forall_cons in Hlen as [Hx Hlen].
  destruct (tv_seek p ts hist vid hc Hc Hp Hh Hvid) as (q & c & E & Hd). rewrite Hv in E, Hd. destruct Hd as (q' & c' & E' & Hc' & Hs). rewrite E, E'.
  apply versions_cons in Ho as (prev & -> & H1' & H2' & H3' & Ho). unfold get_hdr. rewrite get_put_rowhdr by done. cbn [mbind option_bind].
  fold (row_visible m txn as_of (v_xmin x) (v_xmax x)). unfold first_visible. cbn [List.find]. unfold col_visible. fold (row_visible m txn as_of (v_xmin x) (v_xmax x)).
  destruct (row_visible m txn as_of (v_xmin x) (v_xmax x)).
  - destruct (append_wf alloc_ok Halloc out (v_rec x) Hw Hx) as (b & -> & Eb & Wb). exists q', c', b. split; [done|]. split; [done|]. split; [done|]. cbn. by intros rec [= <-].
  - pose proof Hs as (Hq & Hrows & _). destruct (IH n q' c' prev Hc' Hq Hh H3') as (q2 & hc2 & o2 & E2 & Hs2 & W2 & R2); [by rewrite Hrows|cbn in Hn; lia|done|done|].
    exists q2, hc2, o2. split; [exact E2|]. split; [by eapply tables_trans|done].
Qed.
End History.
End Columns.

(** ** The table *)

Section Table.
Context {P : Type} `{PagerPages P, TableView P} (alloc_ok : Z -> bool) (Halloc : forall n, alloc_ok n = true).
Context (depth rounds : nat) `{TS : !TableStore P alloc_ok depth}.
Context (t : tdb_table) (meta hist : tdb_btree) (cols : list tdb_btree).
Context (Hmeta : bt_root meta = tb_root t) (Hhist : bt_root hist = tb_history_root t) (Hcols : map bt_root cols = tb_col_roots t)
        (Hncol : length cols = length (tb_cols t)) (Hdiff : NoDup (meta :: hist :: cols)) (Hix : tb_indexes t = []).
Abbreviation trees := (meta :: hist :: cols).

(** A version the table can hold. *)
Definition rec_ok (rec : list Z) : Prop := exists vals, plain_values vals /\ length vals = length cols /\ rec = record_bytes vals.
(** Row [r] has the versions [l]. *)
Definition row_rep (p : P) (r : Z) (v : list Z) (l : list version) : Prop :=
  match l with
  | [] => False
  | x :: l => exists prev vals, v = put_hdr (v_xmin x) (v_xmax x) prev /\ u64_ok (v_xmin x) /\ u64_ok (v_xmax x) /\ u64_ok prev
      /\ older (tv_rows p hist) prev l /\ plain_values vals /\ v_rec x = record_bytes vals /\ cells p r cols vals
  end.
Record col_rep (p : P) (tab : gmap Z (list version)) : Prop := {
  cr_ok : tv_ok p trees;
  cr_rows : forall r, match tv_rows p meta !! r, tab !! r with
                      | Some v, Some l => row_rep p r v l /\ Forall (fun x => rec_ok (v_rec x)) l
                      | None, None => True
                      | _, _ => False
                      end }.

Definition ceng_op (op : row_op) (e : col_engine) : option (tdb_status * col_engine) :=
  match op with
  | RInsert txn r rec => ceng_insert alloc_ok depth txn e t r rec
  | RUpdate txn r rec => ceng_update alloc_ok depth txn e t r rec
  | RDelete txn r => ceng_remove alloc_ok depth txn e t r
  end.
Definition cols_fit (p : P) (r : Z) (rec : list Z) : Prop :=
  exists vals, plain_values vals /\ rec = record_bytes vals /\ Forall2 (fun bt v => tv_fits p bt r (record_bytes [v])) cols vals.
(** What the operation writes can be stored. *)
Definition col_fits (p : P) (tab : gmap Z (list version)) (op : row_op) : Prop :=
  match op with
  | RInsert txn r rec => u64_ok (t_id txn) /\ u64_ok r /\ tv_fits p meta r (put_hdr (t_id txn) 0 0) /\ cols_fit p r rec
  | RUpdate txn r rec => u64_ok (t_id txn) /\ u64_ok r /\ cols_fit p r rec
      /\ forall vid x l prev, next_vid (tv_rows p hist) vid -> tab !! r = Some (x :: l) -> tv_rows p meta !! r = Some (put_hdr (v_xmin x) (v_xmax x) prev) -> u64_ok prev ->
           vid < 2 ^ 64 /\ tv_fits p hist vid (put_rowhdr (v_xmin x) (t_id txn) prev ++ v_rec x) /\ tv_fits p meta r (put_hdr (t_id txn) 0 vid)
  | RDelete txn r => u64_ok (t_id txn) /\ u64_ok r
      /\ forall x l prev, tab !! r = Some (x :: l) -> tv_rows p meta !! r = Some (put_hdr (v_xmin x) (v_xmax x) prev) -> u64_ok prev ->
           tv_fits p meta r (put_hdr (v_xmin x) (t_id txn) prev)
  end.

Lemma meta_in : meta ∈ trees.
Proof using Type. by left. Qed.
Lemma hist_in_trees : hist ∈ trees.
Proof using Type. right. by left. Qed.
Lemma cols_in bt : bt ∈ cols -> bt ∈ trees.
Proof using Type. intros Hb. right. by right. Qed.
Lemma trees_differ : meta <> hist /\ (meta ∉ cols) /\ (hist ∉ cols) /\ NoDup cols.
Proof using Hdiff. apply NoDup_cons in Hdiff as [Hm [Hh Hc]%NoDup_cons]. apply not_elem_of_cons in Hm as [? ?]. done. Qed.
Lemma row_rep_ext p q r v l : tv_rows p hist ⊆ tv_rows q hist -> (forall bt, bt ∈ cols -> tv_rows q bt !! r = tv_rows p bt !! r) -> row_rep p r v l -> row_rep q r v l.
Proof using Type.
  intros Hh Hc. destruct l as [|x l]; [done|]. intros (prev & vals & Ev & H1' & H2' & H3' & Ho & Hv & Er & Hcell). exists prev, vals.
  do 4 (split; [done|]). split; [by eapply older_mono|]. split; [done|]. split; [done|]. eapply Forall2_impl_in; [|exact Hcell]. intros bt y Hbt E. by rewrite Hc.
Qed.
Lemma col_rep_same p q tab : col_rep p tab -> same_tables p q trees -> col_rep q tab.
Proof using Type.
  intros [R1 R2] (K & R & _). split; [done|]. intros r. specialize (R2 r). rewrite (R meta meta_in). destruct (tv_rows p meta !! r), (tab !! r); try done.
  destruct R2 as [R2 R3]. split; [|done]. eapply row_rep_ext; [| |exact R2]; [by rewrite (R hist hist_in_trees)|]. intros bt Hbt. by rewrite R by apply cols_in, Hbt.
Qed.
Lemma col_lookup p tab r : col_rep p tab ->
  match tab !! r with
  | Some l => exists x l' prev vals, l = x :: l' /\ tv_rows p meta !! r = Some (put_hdr (v_xmin x) (v_xmax x) prev) /\ u64_ok (v_xmin x) /\ u64_ok (v_xmax x) /\ u64_ok prev
      /\ older (tv_rows p hist) prev l' /\ plain_values vals /\ v_rec x = record_bytes vals /\ cells p r cols vals /\ Forall (fun x => rec_ok (v_rec x)) l
  | None => tv_rows p meta !! r = None
  end.
Proof using Type.
  intros [_ R2]. specialize (R2 r). destruct (tv_rows p meta !! r) as [v|], (tab !! r) as [l|]; try done. destruct R2 as [R2 R3].
  destruct l as [|x l]; [done|]. destruct R2 as (prev & vals & -> & ? & ? & ? & ? & ? & ? & ?). by exists x, l, prev, vals.
Qed.
(** Fetching and storing the header. *)
Lemma meta_get_ok p tab r : col_rep p tab -> u64_ok r ->
  match tv_rows p meta !! r with
  | Some v => exists q b, meta_get alloc_ok depth p t r tdb_buf_init = Some (TDB_OK, q, b, true) /\ b_data b = v /\ same_tables p q trees
  | None => exists q, meta_get alloc_ok depth p t r tdb_buf_init = Some (TDB_OK, q, tdb_buf_init, false) /\ same_tables p q trees
  end.
Proof using All.
  intros [Hp _] Hr. unfold meta_get. rewrite <- Hmeta, (table_opens Halloc p trees meta Hp meta_in), cursor_open_fresh by apply Halloc.
  destruct (tv_get p trees meta r Hp meta_in Hr) as (q & c & E & Hc). rewrite E. destruct (tv_rows p meta !! r) as [v|]; [|by eexists].
  destruct Hc as (q' & c' & E' & Hs). rewrite E'. destruct (append_data alloc_ok tdb_buf_init v Halloc) as (b & -> & Eb). by eexists _, b.
Qed.
Lemma meta_put_ok p tab r xmin xmax prev : col_rep p tab -> u64_ok r -> tv_fits p meta r (put_hdr xmin xmax prev) ->
  exists q, meta_put alloc_ok depth p t r xmin xmax prev = Some (TDB_OK, q) /\ tv_ok q trees /\ tv_rows q meta = <[r := put_hdr xmin xmax prev]> (tv_rows p meta)
    /\ (forall bt, bt ∈ hist :: cols -> tv_rows q bt = tv_rows p bt) /\ (forall bt r' v', bt ∈ hist :: cols -> tv_fits p bt r' v' -> tv_fits q bt r' v').
Proof using All.
  intros [Hp _] Hr Hf. unfold meta_put. rewrite <- Hmeta, (table_opens Halloc p trees meta Hp meta_in).
  destruct (tv_put p trees meta r (put_hdr xmin xmax prev) Hp meta_in Hr Hf) as (q & E & Hq & Em & Eo & Fo). exists q. split; [done|]. split; [done|]. split; [done|].
  assert (forall bt, bt ∈ hist :: cols -> bt ∈ trees /\ bt <> meta) as Hne.
  { intros bt Hbt. split; [by right|]. intros ->. apply NoDup_cons in Hdiff as [Hn _]. done. }
  split; [intros bt Hbt; by apply Eo; apply Hne|intros bt r' v' Hbt Hv; by apply Fo; try apply Hne].
Qed.
(** A new current version with given older ones. *)
Lemma put_row_ok p tab r xmin prev rec l : col_rep p tab -> u64_ok r -> u64_ok xmin -> u64_ok prev -> tv_fits p meta r (put_hdr xmin 0 prev) -> cols_fit p r rec ->
  older (tv_rows p hist) prev l -> Forall (fun x => rec_ok (v_rec x)) l ->
  exists q, (match meta_put alloc_ok depth p t r xmin 0 prev with Some (TDB_OK, p) => store_row alloc_ok depth p t r rec | r => r end) = Some (TDB_OK, q)
    /\ col_rep q (<[r := mk_version xmin 0 rec :: l]> tab).
Proof using All.
  intros Hrep Hr Hx Hprev Hf (vals & Hv & -> & Hfits) Ho Hl. destruct (meta_put_ok p tab r xmin 0 prev Hrep Hr Hf) as (q & -> & Hq & Em & Eo & Fo).
  destruct trees_differ as (D1 & D2 & D3 & D4). pose proof (Forall2_length _ _ _ Hfits) as Hlen. unfold store_row. rewrite (decode_plain alloc_ok Halloc vals 64 Hv) by (destruct Hv; lia).
  destruct (Z.ltb_spec 64 (Z.of_nat (length vals))); [destruct Hv; lia|]. rewrite <- Hcols, take_ge by (rewrite length_map; lia).
  destruct (write_columns_ok alloc_ok Halloc depth rounds q trees cols vals r Hq cols_in D4 Hr) as (q2 & -> & Hq2 & E2 & O2).
  { apply Forall_forall. intros v Hin. by eapply plain_one. }
  { eapply Forall2_impl_in; [|exact Hfits]. intros bt v Hbt Hfv. apply Fo; [by right|done]. }
  rewrite Hix. cbn [index_insert mbind option_bind]. exists q2. split; [done|].
  assert (tv_rows q2 hist = tv_rows p hist) as Eh by (rewrite O2 by (apply hist_in_trees || done); apply Eo; by left).
  split; [done|]. intros r'. rewrite (O2 meta meta_in D2), Em. destruct (decide (r' = r)) as [->|Hne].
  - rewrite !lookup_insert_eq. split; [|constructor; [by exists vals|done]]. exists prev, vals. do 4 (split; [done || (unfold u64_ok in *; lia)|]). rewrite Eh. split; [done|]. split; [done|]. split; [done|].
    eapply Forall2_impl_in; [|exact E2]. intros bt v _ ->. apply lookup_insert_eq.
  - rewrite !lookup_insert_ne by done. pose proof (cr_rows _ _ Hrep r') as R. destruct (tv_rows p meta !! r'), (tab !! r'); try done. destruct R as [R R3]. split; [|done].
    eapply row_rep_ext; [| |exact R]; [by rewrite Eh|]. intros bt Hbt. destruct (Forall2_elem_l _ _ _ bt E2 Hbt) as (v & ->).
    by rewrite lookup_insert_ne, Eo by (done || by right).
Qed.
Lemma col_insert_ok p b tab txn r rec : col_rep p tab -> col_fits p tab (RInsert txn r rec) ->
  exists e', ceng_op (RInsert txn r rec) (mk_cengine p b) = Some (TDB_OK, e') /\ col_rep (ce_pager e') (spec_op tab (RInsert txn r rec)).2.
Proof using All.
  intros Hrep (Ht & Hr & Hf & Hfit). cbn [ceng_op]. unfold ceng_insert. cbn [ce_pager ce_scratch].
  destruct (put_row_ok p tab r (t_id txn) 0 rec [] Hrep Hr Ht) as (q & -> & Hq); [done..|]. by eexists.
Qed.
Lemma hdr_read xmin xmax prev : u64_ok xmin -> u64_ok xmax -> u64_ok prev -> get_hdr (put_hdr xmin xmax prev) = Some (xmin, xmax, prev, []).
Proof using Type. intros H1' H2' H3'. unfold get_hdr, put_hdr. rewrite <- (app_nil_r (put_rowhdr _ _ _)). by apply get_put_rowhdr. Qed.
Lemma col_remove_ok p b tab txn r : col_rep p tab -> col_fits p tab (RDelete txn r) ->
  exists e', ceng_op (RDelete txn r) (mk_cengine p b) = Some ((spec_op tab (RDelete txn r)).1, e') /\ col_rep (ce_pager e') (spec_op tab (RDelete txn r)).2.
Proof using All.
  intros Hrep (Ht & Hr & Hf). cbn [ceng_op spec_op]. unfold ceng_remove. cbn [ce_pager ce_scratch].
  pose proof (col_lookup p tab r Hrep) as Hl. pose proof (meta_get_ok p tab r Hrep Hr) as Hg. destruct (tab !! r) as [l|] eqn:Et.
  - destruct Hl as (x & l' & prev & vals & -> & Em & H1' & H2' & H3' & Ho & Hv & Er & Hc & Hall). rewrite Em in Hg. destruct Hg as (q & old & -> & Eold & Hs). cbn [mbind option_bind].
    rewrite Eold, hdr_read by done. cbn [mbind option_bind]. pose proof Hs as (_ & Rs & Fs). pose proof (col_rep_same p q tab Hrep Hs) as Hrep'.
    destruct (meta_put_ok q tab r (v_xmin x) (t_id txn) prev Hrep' Hr) as (q2 & -> & Hq2 & Em2 & Eo & _).
    { apply Fs; [apply meta_in|]. by eapply Hf. }
    eexists. split; [done|]. cbn [ce_pager snd]. split; [done|]. intros r'. rewrite Em2.
    assert (tv_rows q2 hist = tv_rows q hist) as Eh by (apply Eo; by left).
    destruct (decide (r' = r)) as [->|Hne].
    + rewrite !lookup_insert_eq. split; [|apply Forall_cons in Hall as [? ?]; by constructor]. exists prev, vals. do 4 (split; [done|]).
      rewrite Eh, (Rs hist hist_in_trees). do 3 (split; [done|]). eapply Forall2_impl_in; [|exact Hc]. intros bt v Hbt E. rewrite Eo by (by right). by rewrite Rs by apply cols_in, Hbt.
    + rewrite !lookup_insert_ne by done. pose proof (cr_rows _ _ Hrep' r') as R. destruct (tv_rows q meta !! r'), (tab !! r'); try done. destruct R as [R R3]. split; [|done].
      eapply row_rep_ext; [| |exact R]; [by rewrite Eh|]. intros bt Hbt. by rewrite Eo by (by right).
  - rewrite Hl in Hg. destruct Hg as (q & -> & Hs). eexists. split; [done|]. by eapply col_rep_same.
Qed.
(** The old version in the history. *)
Lemma save_version_ok p tab txn r x l prev vals : col_rep p tab -> u64_ok r -> tab !! r = Some (x :: l) -> u64_ok (t_id txn) -> u64_ok (v_xmin x) -> u64_ok prev ->
  older (tv_rows p hist) prev l -> plain_values vals -> v_rec x = record_bytes vals -> cells p r cols vals ->
  (forall vid, next_vid (tv_rows p hist) vid -> vid < 2 ^ 64 /\ tv_fits p hist vid (put_rowhdr (v_xmin x) (t_id txn) prev ++ v_rec x)) ->
  exists q vid, save_version alloc_ok depth txn p t r (v_xmin x) prev = Some (TDB_OK, q, vid)
    /\ next_vid (tv_rows p hist) vid /\ 0 < vid < 2 ^ 64 /\ col_rep q tab
    /\ older (tv_rows q hist) vid (mk_version (v_xmin x) (t_id txn) (v_rec x) :: l)
    /\ (forall bt r' v', bt ∈ meta :: cols -> tv_fits p bt r' v' -> tv_fits q bt r' v').
Proof using All.
  intros Hrep Hr Hl Ht Hx Hp Ho Hv Er Hc Hf. pose proof (cr_ok _ _ Hrep) as Hok. unfold save_version.
  destruct (reassemble_ok alloc_ok Halloc depth rounds p trees t cols vals r tdb_buf_init Hok cols_in Hr Hv Hc Hcols Hncol buf_init_wf) as (q0 & old & -> & Eold & _ & Hs0).
  cbn [mbind option_bind]. pose proof Hs0 as (Hok0 & R0 & F0). rewrite <- Hhist, (table_opens Halloc q0 trees hist Hok0 hist_in_trees).
  destruct (tv_max q0 _ hist Hok0 hist_in_trees) as (q1 & mx & E1 & Hs1 & Hmax & Hmx). rewrite E1. cbn [mbind option_bind].
  rewrite (R0 hist hist_in_trees) in Hmax, Hmx. pose proof (tables_trans _ _ _ _ Hs0 Hs1) as (Hok1 & R1 & F1).
  assert (0 <= mx) as Hmx0 by (destruct Hmx as [->|[v Hv']]; [lia|]; apply (tv_range p _ hist mx v Hok hist_in_trees) in Hv'; lia).
  assert (next_vid (tv_rows p hist) (mx + 1)) as Hnv.
  { split; [intros k Hk; specialize (Hmax k Hk); lia|]. rewrite Z.add_simpl_r. destruct Hmx as [->|]; [by left|by right]. }
  destruct (Hf _ Hnv) as [Hlt Hfit]. rewrite u64_small by lia. unfold wrap_hist. rewrite Eold, <- Er.
  destruct (wrap_row_data alloc_ok tdb_buf_init (v_xmin x) (t_id txn) prev (v_rec x) Halloc) as (b' & -> & Eb). rewrite Eb.
  destruct (tv_put q1 _ hist (mx + 1) (put_rowhdr (v_xmin x) (t_id txn) prev ++ v_rec x) Hok1 hist_in_trees) as (q & -> & Hq & Eh & Em & Fm); [lia|by apply F1; [apply hist_in_trees|]|].
  rewrite (R1 hist hist_in_trees) in Eh. destruct trees_differ as (D1 & D2 & D3 & D4).
  assert (tv_rows p hist ⊆ tv_rows q hist) as Hsub.
  { rewrite Eh. apply insert_subseteq. destruct (tv_rows p hist !! (mx + 1)) as [w|] eqn:Ew; [|done]. assert (mx + 1 <= mx); [|lia]. apply Hmax. by exists w. }
  assert (forall bt, bt ∈ meta :: cols -> bt ∈ trees /\ bt <> hist) as Hne.
  { intros bt [->|Hbt]%elem_of_cons; [by split; [apply meta_in|]|]. split; [by apply cols_in|]. by intros ->. }
  assert (forall bt, bt ∈ meta :: cols -> tv_rows q bt = tv_rows p bt) as Eq by (intros bt Hbt; rewrite Em by apply Hne, Hbt; by apply R1, Hne).
  exists q, (mx + 1). split; [done|]. split; [done|]. split; [lia|]. split; [|split].
  - split; [done|]. intros k. rewrite (Eq meta) by (by left). pose proof (cr_rows _ _ Hrep k) as Hk. destruct (tv_rows p meta !! k), (tab !! k); try done. destruct Hk as [Hk Hk3].
    split; [|done]. eapply row_rep_ext; [exact Hsub| |exact Hk]. intros bt Hbt. by rewrite Eq by (by right).
  - split; [lia|]. rewrite Eh, lookup_insert_eq. eexists. split; [reflexivity|]. apply versions_cons. exists prev. do 4 (split; [done|]). rewrite <- Eh. by eapply older_mono.
  - intros bt r' v' Hbt Hv'. apply Fm; [by apply Hne|by apply Hne|]. by apply F1; [apply Hne|].
Qed.
Lemma col_update_ok p b tab txn r rec : col_rep p tab -> col_fits p tab (RUpdate txn r rec) ->
  exists e', ceng_op (RUpdate txn r rec) (mk_cengine p b) = Some ((spec_op tab (RUpdate txn r rec)).1, e') /\ col_rep (ce_pager e') (spec_op tab (RUpdate txn r rec)).2.
Proof using All.
  intros Hrep (Ht & Hr & (nvals & Hnv & -> & Hnf) & Hf). cbn [ceng_op spec_op]. unfold ceng_update. cbn [ce_pager ce_scratch].
  pose proof (col_lookup p tab r Hrep) as Hl. pose proof (meta_get_ok p tab r Hrep Hr) as Hg. destruct (tab !! r) as [l|] eqn:Et.
  - destruct Hl as (x & l' & prev & vals & -> & Em & H1' & H2' & H3' & Ho & Hv & Er & Hc & Hall). rewrite Em in Hg. destruct Hg as (q & old & -> & Eold & Hs). cbn [mbind option_bind].
    rewrite Eold, hdr_read by done. cbn [mbind option_bind]. pose proof Hs as (_ & Rs & Fs). pose proof (col_rep_same p q tab Hrep Hs) as Hrep'. pose proof (Rs hist hist_in_trees) as Eh.
    destruct (save_version_ok q tab txn r x l' prev vals Hrep' Hr Et Ht H1' H3') as (q2 & vid & -> & Hvid & Hrange & Hrep2 & Hold & Hfm).
    { by rewrite Eh. } { done. } { done. } { eapply cells_same; [exact Hs|apply cols_in|done]. }
    { intros vid Hvid. rewrite Eh in Hvid. destruct (Hf vid x l' prev Hvid eq_refl Em H3') as (? & ? & _). split; [done|]. apply Fs; [apply hist_in_trees|done]. }
    rewrite Eh in Hvid. destruct (Hf vid x l' prev Hvid eq_refl Em H3') as (_ & _ & Hfit). cbn [mbind option_bind].
    destruct (put_row_ok q2 tab r (t_id txn) vid (record_bytes nvals) (mk_version (v_xmin x) (t_id txn) (v_rec x) :: l') Hrep2 Hr Ht) as (q3 & -> & Hq3).
    { unfold u64_ok. lia. } { apply Hfm; [by left|]. apply Fs; [apply meta_in|done]. }
    { exists nvals. split; [done|]. split; [done|]. eapply Forall2_impl_in; [|exact Hnf]. intros bt v Hbt Hfv. apply Hfm; [by right|]. apply Fs; [by apply cols_in|done]. }
    { done. } { apply Forall_cons in Hall as [? ?]. by constructor. }
    by eexists.
  - rewrite Hl in Hg. destruct Hg as (q & -> & Hs). eexists. split; [done|]. by eapply col_rep_same.
Qed.
Section Seek.
Context {M : Type} (m : tdb_txnmgr M) (txn : tdb_txn).
Lemma resolve_col_ok p tab r x l prev vals out : col_rep p tab -> u64_ok r -> tab !! r = Some (x :: l) -> u64_ok (v_xmin x) -> u64_ok (v_xmax x) -> u64_ok prev ->
  older (tv_rows p hist) prev l -> plain_values vals -> v_rec x = record_bytes vals -> cells p r cols vals -> Forall (fun x => rec_ok (v_rec x)) l ->
  (length l < rounds)%nat -> buf_wf out ->
  exists q out', resolve_col alloc_ok depth rounds m txn p t r (put_hdr (v_xmin x) (v_xmax x) prev) out 0 None
      = Some (TDB_OK, q, out', match first_visible (tdb_txn_visible m txn) (x :: l) with Some _ => true | None => false end)
    /\ same_tables p q trees /\ buf_wf out' /\ (forall rec, first_visible (tdb_txn_visible m txn) (x :: l) = Some rec -> b_data out' = rec).
Proof using All.
  intros Hrep Hr Hl H1' H2' H3' Ho Hv Er Hc Hall Hn Hw. pose proof (cr_ok _ _ Hrep) as Hok. unfold resolve_col. rewrite hdr_read by done. cbn [mbind option_bind].
  change (col_visible m txn (v_xmin x) (v_xmax x) 0) with (tdb_txn_visible m txn (v_xmin x) (v_xmax x)). unfold first_visible. cbn [List.find].
  destruct (tdb_txn_visible m txn (v_xmin x) (v_xmax x)).
  - destruct (reassemble_ok alloc_ok Halloc depth rounds p trees t cols vals r out Hok cols_in Hr Hv Hc Hcols Hncol Hw) as (q & b & -> & Eb & Wb & Hs).
    exists q, b. split; [done|]. split; [done|]. split; [done|]. cbn. intros rec [= <-]. by rewrite Eb.
  - fold (first_visible (tdb_txn_visible m txn) l). destruct (Z.eqb_spec prev 0) as [->|Hne].
    { destruct l as [|y l]; [|by destruct Ho]. exists p, out. split; [done|]. split; [by apply tables_refl|done]. }
    rewrite <- Hhist, (table_opens Halloc p trees hist Hok hist_in_trees), cursor_open_fresh by apply Halloc.
    destruct (history_loop_ok alloc_ok Halloc depth rounds m txn 0 rounds p trees hist fresh_cursor prev out l fresh_wf_cursor Hok hist_in_trees H3' Ho Hn) as (q & hc & o & -> & Hs & Wo & Hrec).
    { eapply Forall_impl; [exact Hall|]. intros y (ys & Hy & _ & ->). by apply record_len. } { done. }
    change (row_visible m txn 0) with (tdb_txn_visible m txn) in *. cbn [mbind option_bind]. eexists _, o. split; [reflexivity|]. by split.
Qed.
Lemma col_seek_ok p b tab r : col_rep p tab -> u64_ok r -> buf_wf b -> (forall l, tab !! r = Some l -> (length l <= rounds)%nat) ->
  exists e', ceng_seek_rowid alloc_ok depth rounds m txn (mk_cengine p b) t r = Some (TDB_OK, e', tab !! r ≫= first_visible (tdb_txn_visible m txn))
    /\ col_rep (ce_pager e') tab /\ buf_wf (ce_scratch e').
Proof using All.
  intros Hrep Hr Hw Hn. unfold ceng_seek_rowid. cbn [ce_pager ce_scratch].
  pose proof (col_lookup p tab r Hrep) as Hl. pose proof (meta_get_ok p tab r Hrep Hr) as Hg. destruct (tab !! r) as [l|] eqn:Et.
  - destruct Hl as (x & l' & prev & vals & -> & Em & H1' & H2' & H3' & Ho & Hv & Er & Hc & Hall). rewrite Em in Hg. destruct Hg as (q & old & -> & Eold & Hs). cbn [mbind option_bind].
    rewrite Eold. pose proof Hs as (_ & Rs & _). specialize (Hn _ eq_refl). apply Forall_cons in Hall as [_ Hall].
    destruct (resolve_col_ok q tab r x l' prev vals b) as (q2 & o & E2 & Hs2 & Wo & Hrec); try done.
    { by eapply col_rep_same. } { by rewrite (Rs hist hist_in_trees). } { eapply cells_same; [exact Hs|apply cols_in|done]. }
    rewrite E2. cbn [mbind option_bind]. exists (mk_cengine q2 o). split; [|split; [by eapply col_rep_same; [|eapply tables_trans]|done]].
    destruct (first_visible (tdb_txn_visible m txn) (x :: l')) as [rec|]; [|done]. by rewrite (Hrec rec).
  - rewrite Hl in Hg. destruct Hg as (q & -> & Hs). eexists. split; [reflexivity|]. split; [by eapply col_rep_same|done].
Qed.
End Seek.
Lemma col_op_ok e tab op : col_rep (ce_pager e) tab -> col_fits (ce_pager e) tab op ->
  exists e', ceng_op op e = Some ((spec_op tab op).1, e') /\ col_rep (ce_pager e') (spec_op tab op).2.
Proof using All.
  intros Hrep Hf. destruct e as [p b]. destruct op as [w k rec|w k rec|w k]; [by apply col_insert_ok|by apply col_update_ok|by apply col_remove_ok].
Qed.

(** C6. The column engine implements the map of the row engine, from rowids to
    lists of versions, though it keeps the newest version of a row as one cell per
    column and older ones as records of the history: for a table without
    indexes, while the cells fit,
    INSERT, UPDATE and DELETE answer what the operation on the map answers and
    leave the engine representing the new map, and a point lookup puts the newest
    version visible to the transaction together again, to the bytes that were
    written, and changes nothing. *)
Theorem column_engine_refines_versions {M} (m : tdb_txnmgr M) (txn : tdb_txn) e tab op r :
  col_rep (ce_pager e) tab -> buf_wf (ce_scratch e) -> col_fits (ce_pager e) tab op -> u64_ok r -> (forall l, tab !! r = Some l -> (length l <= rounds)%nat) ->
  (exists e', ceng_op op e = Some ((spec_op tab op).1, e') /\ col_rep (ce_pager e') (spec_op tab op).2)
  /\ (exists e', ceng_seek_rowid alloc_ok depth rounds m txn e t r = Some (TDB_OK, e', tab !! r ≫= first_visible (tdb_txn_visible m txn))
        /\ col_rep (ce_pager e') tab /\ buf_wf (ce_scratch e')).
Proof using All. intros Hrep Hw Hf Hr Hn. split; [by apply col_op_ok|]. destruct e as [p b]. by apply col_seek_ok. Qed.
End Table.

(** ** CREATE TABLE *)

Section Create.
Context {P : Type} `{PageStore P} (alloc_ok : Z -> bool) (Halloc : forall n, alloc_ok n = true).

(** [roots] are empty trees of [q] that [p], with the pages [live], had not. *)
Record new_trees (p q : P) (live live' roots : list Z) : Prop := {
  nt_ok : st_ok q live';
  nt_size : pp_page_size q = pp_page_size p;
  nt_live : forall g, g ∈ live' <-> g ∈ roots \/ g ∈ live;
  nt_new : NoDup roots /\ forall g, g ∈ roots -> g ∉ live;
  nt_empty : forall g, g ∈ roots -> leaf_rows (pp_page_size p) (st_view q g) [];
  nt_kept : forall g, g ∈ live -> st_view q g = st_view p g }.

Lemma new_trees_nil p live : st_ok p live -> new_trees p p live live [].
Proof using All. intros Hp. split; try done; [set_solver| |]; [split; [constructor|]|]; intros g Hg; by apply not_elem_of_nil in Hg. Qed.
Lemma new_trees_cons p live : st_ok p live -> 0 < st_room p ->
  exists q root, tdb_btree_create p TDB_BT_TABLE = (TDB_OK, q, root) /\ st_room p - 1 <= st_room q /\ new_trees p q live (root :: live) [root].
Proof using All.
  intros Hp Hroom. destruct (leaf_create alloc_ok Halloc p live Hp Hroom) as (q & root & E & Hn & Hq & Hr & Hs & L & V). exists q, root. do 2 (split; [done|]).
  split; try done; [set_solver| |].
  - split; [apply NoDup_singleton|]. by intros g ->%list_elem_of_singleton.
  - by intros g ->%list_elem_of_singleton.
Qed.
Lemma new_trees_app p q r l1 l2 l3 a b : new_trees p q l1 l2 a -> new_trees q r l2 l3 b -> new_trees p r l1 l3 (a ++ b).
Proof using All.
  intros [A1 A2 A3 [A4 A5] A6 A7] [B1 B2 B3 [B4 B5] B6 B7]. split; [done|congruence|set_solver| | |].
  - split; [apply NoDup_app; set_solver|set_solver].
  - intros g [Hg|Hg]%elem_of_app; [rewrite B7 by set_solver; by apply A6|rewrite <- A2; by apply B6].
  - intros g Hg. rewrite B7 by set_solver. by apply A7.
Qed.
Lemma create_columns_ok n p live acc : st_ok p live -> Z.of_nat n <= st_room p ->
  exists q roots live', create_columns p n acc = (TDB_OK, q, acc ++ roots) /\ length roots = n /\ new_trees p q live live' roots.
Proof using All.
  revert p live acc. induction n as [|n IH]; intros p live acc Hp Hroom; cbn [create_columns].
  { exists p, [], live. rewrite app_nil_r. split; [done|]. split; [done|by apply new_trees_nil]. }
  destruct (new_trees_cons p live Hp ltac:(lia)) as (p1 & root & -> & Hr & N1).
  destruct (IH p1 _ (acc ++ [root]) (nt_ok _ _ _ _ _ N1) ltac:(lia)) as (q & roots & live' & -> & Hl & N2).
  exists q, (root :: roots), live'. split; [by rewrite <- app_assoc|]. split; [cbn; lia|]. by apply (new_trees_app _ _ _ _ _ _ _ _ N1 N2).
Qed.
Lemma new_tables p q live live' roots : new_trees p q live live' roots ->
  tv_ok q (map (tree_of q) roots) /\ forall bt, bt ∈ map (tree_of q) roots -> tv_rows q bt = ∅.
Proof using All.
  intros [N1 N2 N3 [N4 N5] N6 N7].
  assert (forall g, g ∈ roots -> rows_of (pp_page_size q) (st_view q g) = []) as Hrows by (intros g Hg; apply rows_of_leaf; rewrite N2; by apply N6).
  split.
  - exists live'. split; [done|]. split; [by rewrite <- list_fmap_compose, list_fmap_id|]. intros bt (g & -> & Hg)%list_elem_of_fmap. cbn [bt_root tree_of].
    split; [apply N3; by left|]. split; [done|]. cbn [bt_root tree_of]. rewrite Hrows, N2 by done. by apply N6.
  - intros bt (g & -> & Hg)%list_elem_of_fmap. cbn [tv_rows leaf_tables tree_of bt_root]. by rewrite Hrows.
Qed.
(** A tree of headers, a history and a tree for every column, all empty. *)
Lemma col_create_ok p live b t : st_ok p live -> Z.of_nat (length (tb_cols t)) + 1 < st_room p ->
  exists q root h roots live', ceng_create_table alloc_ok (mk_cengine p b) t = (TDB_OK, mk_cengine q b, tset_col_roots (tset_roots t root h) roots)
    /\ length roots = length (tb_cols t) /\ new_trees p q live live' (root :: h :: roots)
    /\ NoDup (tree_of q root :: tree_of q h :: map (tree_of q) roots) /\ col_rep (tree_of q root) (tree_of q h) (map (tree_of q) roots) q ∅.
Proof using All.
  intros Hp Hroom. unfold ceng_create_table. cbn [ce_pager ce_scratch].
  destruct (new_trees_cons p live Hp ltac:(lia)) as (p1 & root & -> & Hr1 & N1). destruct (new_trees_cons p1 _ (nt_ok _ _ _ _ _ N1) ltac:(lia)) as (p2 & h & -> & Hr2 & N2).
  rewrite Halloc. cbn [negb]. change (tb_cols (tset_roots t root h)) with (tb_cols t).
  destruct (create_columns_ok (length (tb_cols t)) p2 _ [] (nt_ok _ _ _ _ _ N2) ltac:(lia)) as (q & roots & live' & -> & Hl & N3).
  pose proof (new_trees_app _ _ _ _ _ _ _ _ (new_trees_app _ _ _ _ _ _ _ _ N1 N2) N3) as N. cbn [app] in N.
  exists q, root, h, roots, live'. split; [done|]. split; [done|]. split; [done|]. destruct (new_tables _ _ _ _ _ N) as [Hok Hrows]. split.
  - change (NoDup (map (tree_of q) (root :: h :: roots))). apply NoDup_fmap_2; [|by apply (nt_new _ _ _ _ _ N)]. intros g g' E. by injection E.
  - split; [exact Hok|]. intros r. rewrite Hrows by (by left). by rewrite !lookup_empty.
Qed.
End Create.
