(* ===== verification/EngineAgree.v ===== *)
(** * The dispatcher: the two engines are one store

    Behind the dispatcher a table answers the same whether it is columnar or
    not. *)
From stdpp Require Import gmap relations.
From S2P Require Import Prelude Util Buf Value Record Mvcc Txn Btree Cursor BtreePage BtreeStore BtreeLeaf Schema EngineRow EngineSpec EngineCol EngineColSpec Engine.

(** A table and the trees that hold it. *)
Record placed := mk_placed { pl_table : tdb_table; pl_main : tdb_btree; pl_hist : tdb_btree; pl_cols : list tdb_btree }.
(** The trees are those of the table's roots; an index has no part in this. *)
Record placed_ok (x : placed) : Prop := {
  po_main : bt_root (pl_main x) = tb_root (pl_table x);
  po_hist : bt_root (pl_hist x) = tb_history_root (pl_table x);
  po_cols : map bt_root (pl_cols x) = tb_col_roots (pl_table x);
  po_ncol : tb_columnar (pl_table x) = true -> length (pl_cols x) = length (tb_cols (pl_table x));
  po_diff : NoDup (pl_main x :: pl_hist x :: pl_cols x);
  po_noix : tb_indexes (pl_table x) = [] }.

Section Agree.
Context {P : Type} `{PagerPages P, TableView P, RtreeOps P} (alloc_ok : Z -> bool) (Halloc : forall n, alloc_ok n = true).
Context (depth rounds : nat) `{TS : !TableStore P alloc_ok depth}.

Definition d_op (t : tdb_table) (op : row_op) (d : disp_impl) : option (tdb_status * disp_impl) :=
  match op with
  | RInsert txn r rec => d_insert alloc_ok depth txn d t r rec
  | RUpdate txn r rec => d_update alloc_ok depth txn d t r rec
  | RDelete txn r => d_remove alloc_ok depth txn d t r
  end.
(** The statuses of the operations in turn. *)
Fixpoint d_run (t : tdb_table) (ops : list row_op) (d : disp_impl) : option (list tdb_status * disp_impl) :=
  match ops with
  | [] => Some ([], d)
  | op :: ops => r ← d_op t op d; r2 ← d_run t ops r.2; Some (r.1 :: r2.1, r2.2)
  end.
Fixpoint spec_run (tab : gmap Z (list version)) (ops : list row_op) : list tdb_status * gmap Z (list version) :=
  match ops with
  | [] => ([], tab)
  | op :: ops => let '(rc, tab) := spec_op tab op in let '(rcs, tab) := spec_run tab ops in (rc :: rcs, tab)
  end.

Definition d_rep (x : placed) (d : disp_impl) (tab : gmap Z (list version)) : Prop :=
  buf_wf (d_col d) /\ if tb_columnar (pl_table x) then col_rep (pl_main x) (pl_hist x) (pl_cols x) (d_pager d) tab else table_rep (pl_main x) (pl_hist x) (d_pager d) tab.
Definition d_fits (x : placed) (d : disp_impl) (tab : gmap Z (list version)) (op : row_op) : Prop :=
  if tb_columnar (pl_table x) then col_fits (pl_main x) (pl_hist x) (pl_cols x) (d_pager d) tab op else op_fits (pl_main x) (pl_hist x) (d_pager d) op.
(** Whatever is written on the way can be stored. *)
Fixpoint run_fits (x : placed) (d : disp_impl) (tab : gmap Z (list version)) (ops : list row_op) : Prop :=
  match ops with
  | [] => True
  | op :: ops => d_fits x d tab op /\ forall rc d', d_op (pl_table x) op d = Some (rc, d') -> run_fits x d' (spec_op tab op).2 ops
  end.

(** The dispatcher calls the engine of the table. *)
Lemma d_op_pick t op d :
  d_op t op d = if tb_columnar t then r ← ceng_op alloc_ok depth t op (mk_cengine (d_pager d) (d_col d)); Some (r.1, put_col_engine d r.2)
                else r ← eng_op alloc_ok depth t op (mk_engine (d_pager d) (d_row d)); Some (r.1, put_row_engine d r.2).
Proof using Type. destruct op; cbn [d_op ceng_op eng_op]; unfold d_insert, d_update, d_remove, pick; by destruct (tb_columnar t). Qed.
Lemma ceng_op_scratch t op e rc e' : ceng_op alloc_ok depth t op e = Some (rc, e') -> ce_scratch e' = ce_scratch e.
Proof using Type.
  destruct op; cbn [ceng_op]; unfold ceng_insert, ceng_update, ceng_remove; intros E; repeat (case_match || simplify_option_eq || (apply bind_Some in E as (? & ? & E))); done.
Qed.
Lemma main_hist x : placed_ok x -> pl_main x <> pl_hist x.
Proof using Type. intros [_ _ _ _ Hd _] E. apply NoDup_cons in Hd as [Hn _]. rewrite E in Hn. apply Hn. by left. Qed.
Lemma d_op_ok x op d tab : placed_ok x -> d_rep x d tab -> d_fits x d tab op ->
  exists d', d_op (pl_table x) op d = Some ((spec_op tab op).1, d') /\ d_rep x d' (spec_op tab op).2.
Proof using All.
  intros Hx [Hw Hrep] Hf. pose proof (main_hist x Hx) as Hne. destruct Hx as [X1 X2 X3 X4 X5 X6]. rewrite d_op_pick. unfold d_rep, d_fits in *. destruct (tb_columnar (pl_table x)).
  - destruct (col_op_ok alloc_ok Halloc depth rounds (pl_table x) _ _ _ X1 X2 X3 (X4 eq_refl) X5 X6 (mk_cengine (d_pager d) (d_col d)) tab op Hrep Hf) as (e & E & He).
    rewrite E. pose proof (ceng_op_scratch _ _ _ _ _ E) as Es. eexists. split; [done|]. cbn [put_col_engine d_col d_pager snd]. by rewrite Es.
  - destruct (op_ok alloc_ok Halloc depth rounds (pl_table x) _ _ X1 X2 Hne X6 (mk_engine (d_pager d) (d_row d)) tab op Hrep Hf) as (e & -> & He).
    eexists. split; [done|]. done.
Qed.
Lemma d_run_ok x ops d tab : placed_ok x -> d_rep x d tab -> run_fits x d tab ops ->
  exists d', d_run (pl_table x) ops d = Some ((spec_run tab ops).1, d') /\ d_rep x d' (spec_run tab ops).2.
Proof using All.
  intros Hx. revert d tab. induction ops as [|op ops IH]; intros d tab Hrep Hf; cbn [d_run spec_run]; [by exists d|]. destruct Hf as [Hf Hrest].
  destruct (d_op_ok x op d tab Hx Hrep Hf) as (d1 & E & Hrep1). rewrite E. destruct (IH d1 _ Hrep1 (Hrest _ _ E)) as (d2 & E2 & Hrep2). cbn [mbind option_bind snd fst]. rewrite E2. cbn.
  destruct (spec_op tab op) as [rc tab']. cbn in *. destruct (spec_run tab' ops) as [rcs tab'']. by exists d2.
Qed.
Lemma d_seek_ok {M} (m : tdb_txnmgr M) (txn : tdb_txn) x d tab r : placed_ok x -> d_rep x d tab -> u64_ok r -> (forall l, tab !! r = Some l -> (length l <= rounds)%nat) ->
  exists d', d_seek_rowid alloc_ok depth rounds m txn d (pl_table x) r = Some (TDB_OK, d', tab !! r ≫= first_visible (tdb_txn_visible m txn)) /\ d_rep x d' tab.
Proof using All.
  intros Hx [Hw Hrep] Hr Hn. pose proof (main_hist x Hx) as Hne. destruct Hx as [X1 X2 X3 X4 X5 X6]. unfold d_seek_rowid, pick, d_rep in *. destruct (tb_columnar (pl_table x)).
  - destruct (col_seek_ok alloc_ok Halloc depth rounds (pl_table x) _ _ _ X1 X2 X3 (X4 eq_refl) X5 X6 m txn (d_pager d) (d_col d) tab r Hrep Hr Hw Hn) as (e & -> & He & Hw').
    eexists. by split.
  - destruct (seek_ok alloc_ok Halloc depth rounds (pl_table x) _ _ X1 X2 Hne X6 m txn (d_pager d) (d_row d) tab r Hrep Hr Hn) as (e & -> & He). eexists. by split.
Qed.

End Agree.
