(* ===== verification/EngineColDemo.v ===== *)
(** * The column engine over the pager

    A columnar table with an integer and a text column, on the fresh database
    with 512-byte pages on which the row engine is run. *)
From stdpp Require Import gmap relations.
From S2P Require Import Prelude Util File Wal WalSpec Buf Value Record Mvcc Txn Pager PagerSpec PagerFree Btree Cursor BtreePage BtreeStore BtreeLeaf BtreePager Schema EngineRow EngineSpec EngineDemo EngineCol EngineColSpec Engine EngineAgree.

#[local] Existing Instances edemo_vfs edemo_laws edemo_pages edemo_view edemo_store edemo_tables edemo_rtree.

Definition text_col (name : list Z) : tdb_column := tdb_column_init ok_alloc (Some name) (mk_typespec TDB_T_TEXT 0 0 0).
Definition tset_columnar (t : tdb_table) : tdb_table :=
  mk_table (tb_name t) (tb_root t) (tb_cols t) (tb_indexes t) (tb_fkeys t) (tb_check_sql t) (tb_schema_version t)
    (tb_history t) (tb_versioning t) (tb_row_start_col t) (tb_row_end_col t) (tb_history_root t) true
    (tb_col_roots t) (tb_before_insert_lua t) (tb_before_update_lua t) (tb_before_delete_lua t) (tb_tablespace t)
    (tb_compression t) (tb_partition_kind t) (tb_partition_cols t) (tb_partition_count t).
Definition cdemo_tab : tdb_table :=
  tset_columnar (tdb_table_add_column ok_alloc (tdb_table_add_column ok_alloc (default empty_tab (tdb_table_new ok_alloc (Some [116]))) (int_col [97])).2 (text_col [98])).2.
Definition cdemo_vals (i : Z) : list tdb_value := [VInt i; VText [104; 105]].
Definition cdemo_rec (i : Z) : list Z := record_bytes (cdemo_vals i).

Definition cdemo_created : tdb_status * col_engine * tdb_table := ceng_create_table ok_alloc (mk_cengine demo_db tdb_buf_init) cdemo_tab.
Abbreviation cdemo_t := (cdemo_created.2).
Abbreviation cdemo_e0 := (cdemo_created.1.2).
Definition cdemo_tree (root : Z) : tdb_btree := mk_btree root TDB_BT_TABLE None 512.
Abbreviation cdemo_meta := (cdemo_tree 2).
Abbreviation cdemo_hist := (cdemo_tree 3).
Abbreviation cdemo_cols := [cdemo_tree 4; cdemo_tree 5].
Abbreviation crep := (col_rep cdemo_meta cdemo_hist cdemo_cols).

Lemma cdemo_shape : cdemo_created.1.1 = TDB_OK /\ tb_root cdemo_t = 2 /\ tb_history_root cdemo_t = 3 /\ tb_col_roots cdemo_t = [4; 5] /\ length (tb_cols cdemo_t) = 2%nat /\ tb_indexes cdemo_t = []
  /\ pp_page_size (ce_pager cdemo_e0) = 512 /\ ce_scratch cdemo_e0 = tdb_buf_init.
Proof. vm_compute. auto 10. Qed.
Lemma cdemo_diff : NoDup (cdemo_meta :: cdemo_hist :: cdemo_cols).
Proof. change (NoDup (map cdemo_tree [2; 3; 4; 5])). apply NoDup_fmap_2; [intros g g' E; by injection E|]. by apply (bool_decide_unpack _). Qed.
Lemma created_rep (created : tdb_status * col_engine (P := pager) * tdb_table) q t root h roots :
  created = (TDB_OK, mk_cengine q tdb_buf_init, tset_col_roots (tset_roots t root h) roots) ->
  tb_root created.2 = 2 -> tb_history_root created.2 = 3 -> tb_col_roots created.2 = [4; 5] -> pp_page_size (ce_pager created.1.2) = 512 ->
  col_rep (tree_of q root) (tree_of q h) (map (tree_of q) roots) q ∅ -> crep (ce_pager created.1.2) ∅.
Proof.
  intros -> E1 E2 E3 E4. cbn [fst snd tb_root tb_history_root tb_col_roots tset_col_roots tset_roots ce_pager] in *. subst root h roots.
  unfold tree_of. by rewrite E4.
Qed.
Lemma cdemo_e0_rep : crep (ce_pager cdemo_e0) ∅.
Proof.
  destruct (col_create_ok ok_alloc (fun _ => eq_refl) demo_db [] tdb_buf_init cdemo_tab demo_db_ok) as (q & root & h & roots & live & E & _ & _ & _ & Hrep);
    [vm_compute; reflexivity|].
  destruct cdemo_shape as (_ & E1 & E2 & E3 & _ & _ & E4 & _). exact (created_rep cdemo_created q cdemo_tab root h roots E E1 E2 E3 E4 Hrep).
Qed.
#[local] Opaque cdemo_created.

Definition cdemo_ins : row_op := RInsert old_txn 1 (cdemo_rec 1).
Definition cdemo_upd : row_op := RUpdate CellPager.t1 1 (cdemo_rec 2).
Abbreviation cdemo_op := (ceng_op ok_alloc TDB_MAXDEPTH cdemo_t).
Definition cdemo_e1 : col_engine (P := pager) := match cdemo_op cdemo_ins cdemo_e0 with Some (_, e) => e | None => cdemo_e0 end.
Definition cdemo_v1 : gmap Z (list version) := <[1 := [mk_version 3 0 (cdemo_rec 1)]]> ∅.
Definition cdemo_v2 : gmap Z (list version) := <[1 := [mk_version (t_id CellPager.t1) 0 (cdemo_rec 2); mk_version 3 (t_id CellPager.t1) (cdemo_rec 1)]]> cdemo_v1.

Lemma cdemo_plain i : -(2 ^ 63) <= i < 2 ^ 63 -> plain_values (cdemo_vals i).
Proof. intros Hi. split; [cbn; lia|]. split; [|done]. repeat constructor; cbn; try lia. Qed.
Lemma cdemo_cells (p : pager) i : -(2 ^ 63) <= i < 2 ^ 63 -> tv_fits p (cdemo_tree 4) 1 (record_bytes [VInt i]) -> tv_fits p (cdemo_tree 5) 1 (record_bytes [VText [104; 105]]) -> cols_fit cdemo_cols p 1 (cdemo_rec i).
Proof. intros Hi H1 H2. exists (cdemo_vals i). split; [by apply cdemo_plain|]. split; [done|]. constructor; [done|]. constructor; [done|constructor]. Qed.

Lemma cdemo_ins_fits : col_fits cdemo_meta cdemo_hist cdemo_cols (ce_pager cdemo_e0) ∅ cdemo_ins.
Proof.
  split; [by apply demo_u64; vm_compute|]. split; [by apply demo_u64; vm_compute|]. split; [apply demo_fits; vm_compute; reflexivity|].
  apply cdemo_cells; [lia| |]; apply demo_fits; vm_compute; reflexivity.
Qed.
Lemma cdemo_e1_run : cdemo_op cdemo_ins cdemo_e0 = Some (TDB_OK, cdemo_e1).
Proof. vm_compute. reflexivity. Qed.
Lemma cdemo_e1_rep : crep (ce_pager cdemo_e1) cdemo_v1.
Proof.
  destruct (col_op_ok ok_alloc (fun _ => eq_refl) TDB_MAXDEPTH 10 cdemo_t cdemo_meta cdemo_hist cdemo_cols eq_refl eq_refl eq_refl eq_refl cdemo_diff eq_refl
    cdemo_e0 ∅ cdemo_ins cdemo_e0_rep cdemo_ins_fits) as (e & E & Hrep).
  rewrite cdemo_e1_run in E. apply result_inj in E. rewrite E. exact Hrep.
Qed.
#[local] Opaque cdemo_e1.
Lemma cdemo_e1_pages :
  pp_page_size (ce_pager cdemo_e1) = 512 /\ rows_of 512 (st_view (ce_pager cdemo_e1) (bt_root cdemo_hist)) = []
  /\ rows_of 512 (st_view (ce_pager cdemo_e1) (bt_root cdemo_meta)) = [(1, put_hdr 3 0 0)] /\ ce_scratch cdemo_e1 = tdb_buf_init.
Proof. vm_compute. repeat split; reflexivity. Qed.
Lemma hdr_prev prev : u64_ok prev -> put_hdr 3 0 prev = put_hdr 3 0 0 -> prev = 0.
Proof. intros Hp E. apply (f_equal get_hdr) in E. rewrite !hdr_read in E by (done || unfold u64_ok; lia). by injection E. Qed.
Lemma cdemo_upd_fits : col_fits cdemo_meta cdemo_hist cdemo_cols (ce_pager cdemo_e1) cdemo_v1 cdemo_upd.
Proof.
  destruct cdemo_e1_pages as (E1 & E2 & E3 & _). split; [by apply demo_u64; vm_compute|]. split; [by apply demo_u64; vm_compute|].
  split; [apply cdemo_cells; [lia| |]; (apply demo_fits; [exact E1|vm_compute; reflexivity])|].
  intros vid x l prev [_ Hv] Hx Hm Hp. cbn [tv_rows leaf_tables] in Hv, Hm. rewrite E1, E2 in Hv. rewrite E1, E3 in Hm.
  assert (vid = 1) as ->.
  { destruct Hv as [Hv|[w Hw]]; [exact Hv|]. apply elem_of_list_to_map_2, not_elem_of_nil in Hw. destruct Hw. }
  unfold cdemo_v1 in Hx. rewrite lookup_insert_eq in Hx. injection Hx as <- <-. cbn [v_xmin v_xmax v_rec] in *.
  apply elem_of_list_to_map_2, list_elem_of_singleton in Hm. apply (f_equal snd) in Hm. cbn [snd] in Hm.
  apply hdr_prev in Hm; [|exact Hp]. subst prev.
  split; [lia|]. split; (apply demo_fits; [exact E1|vm_compute; reflexivity]).
Qed.

Lemma cdemo_v2_eq : (spec_op cdemo_v1 cdemo_upd).2 = cdemo_v2.
Proof. unfold cdemo_upd, spec_op, cdemo_v1. by rewrite lookup_insert_eq. Qed.
Lemma cdemo_v1_seen : cdemo_v1 !! 1 ≫= first_visible (tdb_txn_visible CellPager.b2.2 CellPager.t2) = Some (cdemo_rec 1).
Proof. vm_compute. reflexivity. Qed.
Lemma column_engine_refines_versions_witness :
  (exists e, cdemo_op cdemo_upd cdemo_e1 = Some (TDB_OK, e) /\ crep (ce_pager e) cdemo_v2)
  /\ exists e, ceng_seek_rowid ok_alloc TDB_MAXDEPTH 10 CellPager.b2.2 CellPager.t2 cdemo_e1 cdemo_t 1 = Some (TDB_OK, e, Some (cdemo_rec 1)).
Proof.
  destruct (column_engine_refines_versions ok_alloc (fun _ => eq_refl) TDB_MAXDEPTH 10 cdemo_t cdemo_meta cdemo_hist cdemo_cols eq_refl eq_refl eq_refl eq_refl cdemo_diff eq_refl
    CellPager.b2.2 CellPager.t2 cdemo_e1 cdemo_v1 cdemo_upd 1 cdemo_e1_rep) as [(e & E & Hrep) (e' & E' & _)].
  - destruct cdemo_e1_pages as (_ & _ & _ & ->). exact buf_init_wf.
  - exact cdemo_upd_fits.
  - by apply demo_u64; vm_compute.
  - intros l Hl. unfold cdemo_v1 in Hl. rewrite lookup_insert_eq in Hl. injection Hl as <-. cbn. lia.
  - rewrite cdemo_v2_eq in Hrep. split; [exists e; split; [exact E|exact Hrep]|]. exists e'. rewrite E', cdemo_v1_seen. reflexivity.
Defined.

(** ** The same rows in a table of each kind *)

Definition row_placed : placed := mk_placed demo_t demo_main demo_hist [].
Definition col_placed : placed := mk_placed cdemo_t cdemo_meta cdemo_hist cdemo_cols.
Lemma row_placed_ok : placed_ok row_placed.
Proof.
  destruct demo_roots as (_ & _ & Hix). split; [reflexivity|reflexivity|vm_compute; reflexivity|vm_compute; discriminate| |exact Hix].
  apply NoDup_cons. split; [|apply NoDup_singleton]. rewrite list_elem_of_singleton. exact demo_diff.
Qed.
Lemma col_placed_ok : placed_ok col_placed.
Proof. destruct cdemo_shape as (_ & E1 & E2 & E3 & E4 & E5 & _). split; [exact (eq_sym E1)|exact (eq_sym E2)|exact (eq_sym E3)|intros _; exact (eq_sym E4)|exact cdemo_diff|exact E5]. Qed.
Definition row_disp : disp_impl (P := pager) := mk_disp (e_pager demo_e0) tdb_buf_init tdb_buf_init.
Definition col_disp : disp_impl (P := pager) := mk_disp (ce_pager cdemo_e0) tdb_buf_init tdb_buf_init.
Lemma kinds : tb_columnar demo_t = false /\ tb_columnar cdemo_t = true.
Proof. vm_compute. auto. Qed.
Lemma row_ins_fits : op_fits demo_main demo_hist (e_pager demo_e0) cdemo_ins.
Proof. split; [by apply demo_u64; vm_compute|]. split; [by apply demo_u64; vm_compute|]. apply demo_fits; vm_compute; reflexivity. Qed.
Lemma row_disp_rep : d_rep row_placed row_disp ∅.
Proof. destruct kinds as [E _]. unfold d_rep. cbn [pl_table row_placed]. rewrite E. split; [exact buf_init_wf|exact demo_e0_rep]. Qed.
Lemma col_disp_rep : d_rep col_placed col_disp ∅.
Proof. destruct kinds as [_ E]. unfold d_rep. cbn [pl_table col_placed]. rewrite E. split; [exact buf_init_wf|exact cdemo_e0_rep]. Qed.
Lemma row_run_fits : run_fits ok_alloc TDB_MAXDEPTH row_placed row_disp ∅ [cdemo_ins].
Proof. destruct kinds as [E _]. split; [|intros rc d' _; exact I]. unfold d_fits. cbn [pl_table row_placed]. rewrite E. exact row_ins_fits. Qed.
Lemma col_run_fits : run_fits ok_alloc TDB_MAXDEPTH col_placed col_disp ∅ [cdemo_ins].
Proof. destruct kinds as [_ E]. split; [|intros rc d' _; exact I]. unfold d_fits. cbn [pl_table col_placed]. rewrite E. exact cdemo_ins_fits. Qed.
Lemma cdemo_ran : (spec_run ∅ [cdemo_ins]).2 !! 1 = Some [mk_version 3 0 (cdemo_rec 1)].
Proof. reflexivity. Qed.


(** With an index the kinds can be told apart: a row whose key is longer than
    half a page is refused in a row table (after it was stored), and taken in a
    columnar one, which drops the status of its indexes. *)
Definition long_insert (t : tdb_table) : option tdb_status :=
  let '(_, d, t) := d_create_table ok_alloc (mk_disp demo_db tdb_buf_init tdb_buf_init) (tset_indexes t [demo_ix]) in
  match d_create_index ok_alloc TDB_MAXDEPTH 100 CellPager.b1.2 CellPager.t1 d t 0 with
  | Some (TDB_OK, d, t) => fst <$> d_insert ok_alloc TDB_MAXDEPTH CellPager.t1 d t 1 long_rec
  | _ => None
  end.
Lemma indexed_kinds_differ : tb_columnar (tset_columnar demo_tab) = true /\ long_insert demo_tab = Some TDB_FULL /\ long_insert (tset_columnar demo_tab) = Some TDB_OK.
Proof. vm_compute. repeat split; reflexivity. Qed.

(** DROP TABLE of a columnar table leaves the tree of its history allocated: of
    its four pages three are freed; the row engine frees both pages of a table. *)
Theorem column_drop_keeps_history :
  match ceng_drop_table ok_alloc TDB_MAXDEPTH cdemo_e0 cdemo_t, eng_drop_table ok_alloc TDB_MAXDEPTH demo_e0 demo_t with
  | Some (TDB_OK, e), Some (TDB_OK, e') =>
      length (tb_root cdemo_t :: tb_history_root cdemo_t :: tb_col_roots cdemo_t) = 4%nat
      /\ tdb_pager_freelist_count (ce_pager e) = 3 /\ tdb_pager_freelist_count (e_pager e') = 2
  | _, _ => False
  end.
Proof. vm_compute. repeat split; reflexivity. Qed.
