(* ===== verification/Acl.v ===== *)
(** * Access control (src/src/catalog/tdb_acl.c)

    GRANT and REVOKE on a linked list of entries, the privilege check, and the
    form in which entries are stored in the catalog.  Strings are byte lists
    without NUL; [None] is the NULL pointer. *)
From S2P Require Import Prelude Util Buf Value.

Definition TDB_ACL_TABLE : Z := 1.
Definition TDB_ACL_INDEX : Z := 2.
Definition TDB_ACL_VIEW : Z := 3.
Definition TDB_ACL_FUNCTION : Z := 4.
Definition TDB_ACL_PROCEDURE : Z := 5.
Definition TDB_ACL_TABLESPACE : Z := 6.
Definition TDB_ACL_DATABASE : Z := 7.
Definition TDB_ACL_SEQUENCE : Z := 8.
Definition k_kinds : list (list Z * Z) :=
  [(str "TABLE", TDB_ACL_TABLE); (str "INDEX", TDB_ACL_INDEX); (str "VIEW", TDB_ACL_VIEW);
   (str "FUNCTION", TDB_ACL_FUNCTION); (str "PROCEDURE", TDB_ACL_PROCEDURE);
   (str "TABLESPACE", TDB_ACL_TABLESPACE); (str "DATABASE", TDB_ACL_DATABASE); (str "SEQUENCE", TDB_ACL_SEQUENCE)].

Definition tdb_acl_kind_of (s : cstring) : Z :=
  match s with
  | None => 0
  | Some s =>
      let s := skip_space s in
      match List.find (fun k => strncasecmp s k.1 (length k.1) =? 0) k_kinds with
      | Some k => k.2
      | None => 0
      end
  end.
Definition tdb_acl_kind_name (kind : Z) : list Z :=
  match List.find (fun k => k.2 =? kind) k_kinds with Some k => k.1 | None => str "UNKNOWN" end.

(** ** Entries *)

Record tdb_acl_entry := mk_entry { e_grantee : cstring; e_priv : cstring; e_kind : Z; e_object : cstring }.
(** [acl_entries] is the chain from [head]. *)
Record tdb_acl := mk_acl { acl_entries : list tdb_acl_entry; acl_count : Z }.

Definition tdb_acl_init : tdb_acl := mk_acl [] 0.
Definition tdb_acl_free (a : tdb_acl) : tdb_acl := mk_acl [] 0.

Definition ieq (a b : list Z) : bool := strcasecmp a b =? 0.
Definition match_grantee (want user : cstring) : bool :=
  match want with
  | None | Some [] => true
  | Some w => ieq w (str "PUBLIC") || match user with Some u => ieq w u | None => false end
  end.
Definition match_priv (want priv : cstring) : bool :=
  match want with
  | None | Some [] => true
  | Some w => ieq w (str "ALL") || match priv with Some p => ieq w p | None => false end
  end.
Definition match_kind (want kind : Z) : bool := (want =? 0) || (want =? kind).
Definition match_object (want object : cstring) : bool :=
  match want with
  | None | Some [] => true
  | Some w => match object with Some o => ieq w o | None => false end
  end.

Definition covers (e : tdb_acl_entry) (user priv : cstring) (kind : Z) (object : cstring) : bool :=
  match_grantee (e_grantee e) user && match_priv (e_priv e) priv && match_kind (e_kind e) kind
  && match_object (e_object e) object.
Definition tdb_acl_check (a : tdb_acl) (user priv : cstring) (kind : Z) (object : cstring) : bool :=
  match user with
  | None => true
  | Some _ => existsb (fun e => covers e user priv kind object) (acl_entries a)
  end.

Definition ieq_opt (a b : cstring) : bool :=
  match a, b with Some a, Some b => ieq a b | _, _ => false end.
Definition entry_equal (a b : tdb_acl_entry) : bool :=
  (e_kind a =? e_kind b) && ieq_opt (e_grantee a) (e_grantee b) && ieq_opt (e_priv a) (e_priv b)
  && match e_object a, e_object b with None, None => true | x, y => ieq_opt x y end.

Section Alloc.
Context (alloc_ok : Z -> bool).

Definition up_strdup (s : cstring) : cstring :=
  match s with
  | None => None
  | Some s => match tdb_strndup alloc_ok s with Some d => Some (map toupper d) | None => None end
  end.

(** [sizeof(tdb_acl_entry)] is 40. *)
Definition tdb_acl_grant (a : tdb_acl) (grantee priv : cstring) (kind : Z) (object : cstring) : tdb_status * tdb_acl :=
  match grantee, priv with
  | Some g, Some _ =>
      if kind =? 0 then (TDB_MISUSE, a)
      else
        let probe := mk_entry grantee (up_strdup priv) kind object in
        if existsb (fun e => entry_equal e probe) (acl_entries a) then (TDB_OK, a)
        else if negb (alloc_ok 40) then (TDB_NOMEM, a)
        else
          let ne := mk_entry (tdb_strndup alloc_ok g) (e_priv probe) kind
                      (match object with Some o => tdb_strndup alloc_ok o | None => None end) in
          (TDB_OK, mk_acl (ne :: acl_entries a) (acl_count a + 1))
  | _, _ => (TDB_MISUSE, a)
  end.

Definition revoke_hit (grantee priv : cstring) (kind : Z) (object : cstring) (e : tdb_acl_entry) : bool :=
  match_grantee grantee (e_grantee e) && match_priv priv (e_priv e) && match_kind kind (e_kind e)
  && match_object object (e_object e).
(** The number of entries removed, and the list without them. *)
Fixpoint revoke_loop (hit : tdb_acl_entry -> bool) (l : list tdb_acl_entry) (removed count : Z)
  : Z * Z * list tdb_acl_entry :=
  match l with
  | [] => (removed, count, [])
  | e :: l =>
      if hit e then revoke_loop hit l (removed + 1) (count - 1)
      else let '(r, c, l) := revoke_loop hit l removed count in (r, c, e :: l)
  end.
Definition tdb_acl_revoke (a : tdb_acl) (grantee priv : cstring) (kind : Z) (object : cstring) : Z * tdb_acl :=
  let '(removed, count, l) := revoke_loop (revoke_hit grantee priv kind object) (acl_entries a) 0 (acl_count a) in
  (removed, mk_acl l count).

(** ** Storage form; the buffer routines' results are ignored *)

Definition w_str (b : tdb_buf) (s : cstring) : tdb_buf :=
  match s with
  | None => (tdb_buf_put_varint alloc_ok b 0).2
  | Some s => (tdb_buf_append alloc_ok (tdb_buf_put_varint alloc_ok b (blen s + 1)).2 s).2
  end.
Definition tdb_acl_entry_serialize (e : tdb_acl_entry) (b : tdb_buf) : tdb_buf :=
  let b := (tdb_buf_putc alloc_ok b 71).2 in
  let b := (tdb_buf_append alloc_ok b [u8 (e_kind e)]).2 in
  w_str (w_str (w_str b (e_grantee e)) (e_priv e)) (e_object e).

(** One string at [pos]; [None]: the copy or the next read leaves the [n]
    bytes at [p].  A length is cut to 32 bits and may come out negative. *)
Definition r_str (p : list Z) (n pos : Z) : option (tdb_status * Z * cstring) :=
  match tdb_get_varint (bfrom p pos) (n - pos) with
  | None => Some (TDB_CORRUPT, pos, None)
  | Some (a, L) =>
      let pos := pos + a in
      if 0 <? L then
        let slen := s32 (L - 1) in
        if n <? pos + slen then Some (TDB_CORRUPT, pos, None)
        else if slen <? 0 then
          if alloc_ok (u64 (u64 slen + 1)) then None
          else if pos + slen <? 0 then None else Some (TDB_OK, pos + slen, None)
        else Some (TDB_OK, pos + slen, match tdb_strndup alloc_ok (bsub p pos slen) with Some s => Some (cstr s) | None => None end)
      else Some (TDB_OK, pos, None)
  end.
Definition set_field (e : tdb_acl_entry) (i : nat) (s : cstring) : tdb_acl_entry :=
  match i with
  | O => mk_entry s (e_priv e) (e_kind e) (e_object e)
  | S O => mk_entry (e_grantee e) s (e_kind e) (e_object e)
  | _ => mk_entry (e_grantee e) (e_priv e) (e_kind e) s
  end.
(** [for (i = 0; i < 3 && pos < n; i++)]: [k] rounds are left, [i] is done. *)
Fixpoint read_fields (k i : nat) (p : list Z) (n pos : Z) (e : tdb_acl_entry) : option (tdb_status * tdb_acl_entry) :=
  match k with
  | O => Some (TDB_OK, e)
  | S k =>
      if pos <? n then
        match r_str p n pos with
        | None => None
        | Some (TDB_OK, pos, s) => read_fields k (S i) p n pos (set_field e i s)
        | Some (rc, _, _) => Some (rc, e)
        end
      else Some (TDB_OK, e)
  end.
Definition tdb_acl_entry_deserialize (p : list Z) (n : Z) (out : tdb_acl_entry) : option (tdb_status * tdb_acl_entry) :=
  if (n <? 2) || negb (bget p 0 =? 71) then Some (TDB_CORRUPT, out)
  else read_fields 3 0 p n 2 (mk_entry None None (bget p 1) None).
End Alloc.

(** ** Case-insensitive equality *)

Definition ci (a b : list Z) : Prop := map tolower a = map tolower b.
Definition ci_opt (a b : cstring) : Prop :=
  match a, b with Some a, Some b => ci a b | None, None => True | _, _ => False end.
Definition str_ok (s : cstring) : Prop := match s with Some s => nul_free s | None => True end.

#[export] Instance ci_equiv : Equivalence ci.
Proof. unfold ci. split; [intros ?; reflexivity|intros ? ? H; by symmetry|intros ? ? ? H1 H2; by rewrite H1]. Qed.
#[export] Instance ci_opt_equiv : Equivalence ci_opt.
Proof.
  split.
  - intros [a|]; cbn; reflexivity.
  - intros [a|] [b|]; cbn; done.
  - intros [a|] [b|] [c|]; cbn; try done. apply transitivity.
Qed.

Lemma strncasecmp_ci a b n :
  nul_free a -> nul_free b -> (length a < n)%nat -> (length b < n)%nat -> strncasecmp a b n = 0 <-> ci a b.
Proof.
  unfold ci. intros Ha. revert b n. induction Ha as [|x a Hx Ha IH]; intros b n Hb Hla Hlb; (destruct n as [|n]; [lia|]);
    destruct Hb as [|y b Hy Hb]; cbn [strncasecmp map hd tl].
  - done.
  - change (tolower 0) with 0. assert (0 < tolower y) by (unfold tolower; destruct (_ && _); lia).
    split; [|done]. bdec; done.
  - change (tolower 0) with 0. assert (0 < tolower x) by (unfold tolower; destruct (_ && _); lia).
    split; [|done]. bdec; done.
  - cbn [length] in *. pose proof (tolower_pos x ltac:(lia)). specialize (IH b n Hb ltac:(lia) ltac:(lia)).
    destruct (Z.ltb_spec (tolower x) (tolower y)); [split; [lia|intros [=]; lia]|].
    destruct (Z.ltb_spec (tolower y) (tolower x)); [split; [lia|intros [=]; lia]|].
    destruct (Z.eqb_spec (tolower x) 0); [lia|]. rewrite IH. split; [intros ->; f_equal; lia|by intros [= _ ->]].
Qed.
Lemma ieq_ci a b : nul_free a -> nul_free b -> ieq a b = true <-> ci a b.
Proof. intros Ha Hb. unfold ieq, strcasecmp. rewrite Z.eqb_eq. apply strncasecmp_ci; (done || lia). Qed.
Lemma ieq_congr a a' b b' :
  nul_free a -> nul_free a' -> nul_free b -> nul_free b' -> ci a a' -> ci b b' -> ieq a b = ieq a' b'.
Proof.
  intros. apply eq_true_iff_eq. rewrite !ieq_ci by done. split; intros E.
  - by rewrite <- H3, E, H4.
  - by rewrite H3, E, H4.
Qed.
Lemma ci_nil a : ci [] a -> a = [].
Proof. by destruct a. Qed.
Lemma toupper_ci s : ci (map toupper s) s.
Proof.
  unfold ci. rewrite map_map. apply map_ext. intros c. unfold toupper, tolower.
  repeat match goal with |- context [if ?b then _ else _] => destruct b eqn:? end; lia.
Qed.
Lemma toupper_nul_free s : nul_free s -> nul_free (map toupper s).
Proof.
  intros H. apply Forall_map. eapply Forall_impl; [exact H|]. intros c Hc. cbn beta in *. unfold toupper.
  destruct (Z.leb_spec 97 c), (Z.leb_spec c 122); cbn [andb]; lia.
Qed.
Lemma str_public_ok : nul_free (str "PUBLIC") /\ nul_free (str "ALL").
Proof. split; (repeat constructor; cbn; lia). Qed.

(** The matching predicates do not see letter case. *)
Lemma match_gen_congr (k : list Z) w w' u u' :
  nul_free k -> str_ok w -> str_ok w' -> str_ok u -> str_ok u' -> ci_opt w w' -> ci_opt u u' ->
  (match w with None | Some [] => true | Some w => ieq w k || match u with Some u => ieq w u | None => false end end)
  = (match w' with None | Some [] => true | Some w => ieq w k || match u' with Some u => ieq w u | None => false end end).
Proof.
  intros Hk Hw Hw' Hu Hu' E1 E2. destruct w as [w|], w' as [w'|]; try done. cbn in Hw, Hw', E1.
  destruct w as [|x w], w' as [|x' w']; try done.
  rewrite (ieq_congr (x :: w) (x' :: w') k k) by done. f_equal.
  destruct u as [u|], u' as [u'|]; try done. by apply ieq_congr.
Qed.
Lemma match_object_congr w w' u u' :
  str_ok w -> str_ok w' -> str_ok u -> str_ok u' -> ci_opt w w' -> ci_opt u u' -> match_object w u = match_object w' u'.
Proof.
  intros Hw Hw' Hu Hu' E1 E2. destruct w as [w|], w' as [w'|]; try done. cbn in Hw, Hw', E1.
  destruct w as [|x w], w' as [|x' w']; try done. cbn [match_object].
  destruct u as [u|], u' as [u'|]; try done. by apply ieq_congr.
Qed.

(** ** Entries up to letter case *)

Definition entry_ok (e : tdb_acl_entry) : Prop :=
  is_Some (e_grantee e) /\ is_Some (e_priv e) /\ str_ok (e_grantee e) /\ str_ok (e_priv e) /\ str_ok (e_object e).
Definition entry_ci (a b : tdb_acl_entry) : Prop :=
  ci_opt (e_grantee a) (e_grantee b) /\ ci_opt (e_priv a) (e_priv b) /\ e_kind a = e_kind b /\ ci_opt (e_object a) (e_object b).
#[export] Instance entry_ci_equiv : Equivalence entry_ci.
Proof.
  unfold entry_ci. split.
  - intros e. repeat split; reflexivity.
  - intros a b (H1 & H2 & H3 & H4). repeat split; by symmetry.
  - intros a b c (H1 & H2 & H3 & H4) (G1 & G2 & G3 & G4).
    repeat split; [by rewrite H1|by rewrite H2|congruence|by rewrite H4].
Qed.

Lemma covers_ci a b user priv kind object :
  entry_ok a -> entry_ok b -> str_ok user -> str_ok priv -> str_ok object -> entry_ci a b ->
  covers a user priv kind object = covers b user priv kind object.
Proof.
  intros (_ & _ & A1 & A2 & A3) (_ & _ & B1 & B2 & B3) Hu Hp Ho (E1 & E2 & E3 & E4). unfold covers.
  destruct str_public_ok as [P1 P2]. f_equal; [f_equal; [f_equal|]|].
  - by apply match_gen_congr.
  - by apply match_gen_congr.
  - by rewrite E3.
  - by apply match_object_congr.
Qed.
Lemma revoke_hit_ci a b g p k o :
  entry_ok a -> entry_ok b -> str_ok g -> str_ok p -> str_ok o -> entry_ci a b ->
  revoke_hit g p k o a = revoke_hit g p k o b.
Proof.
  intros (_ & _ & A1 & A2 & A3) (_ & _ & B1 & B2 & B3) Hu Hp Ho (E1 & E2 & E3 & E4). unfold revoke_hit.
  destruct str_public_ok as [P1 P2]. f_equal; [f_equal; [f_equal|]|].
  - by apply match_gen_congr.
  - by apply match_gen_congr.
  - by rewrite E3.
  - by apply match_object_congr.
Qed.
Lemma entry_equal_ci a b : entry_ok a -> entry_ok b -> entry_equal a b = true <-> entry_ci a b.
Proof.
  intros ([ga Ga] & [pa Pa] & A1 & A2 & A3) ([gb Gb] & [pb Pb] & B1 & B2 & B3). destruct a as [g p k o], b as [g' p' k' o'].
  cbn in *. subst. unfold entry_equal, entry_ci. cbn. rewrite !andb_true_iff, Z.eqb_eq, !ieq_ci by done.
  destruct o as [o|], o' as [o'|]; cbn; rewrite ?ieq_ci by done; intuition congruence.
Qed.

(** ** Histories *)

Inductive acl_op :=
  | Grant (g p : list Z) (k : Z) (o : cstring)
  | Revoke (g p : cstring) (k : Z) (o : cstring).
Definition op_ok (op : acl_op) : Prop :=
  match op with
  | Grant g p k o => nul_free g /\ nul_free p /\ k <> 0 /\ str_ok o
  | Revoke g p k o => str_ok g /\ str_ok p /\ str_ok o
  end.
Definition acl_step (a : tdb_acl) (op : acl_op) : tdb_acl :=
  match op with
  | Grant g p k o => (tdb_acl_grant ok_alloc a (Some g) (Some p) k o).2
  | Revoke g p k o => (tdb_acl_revoke a g p k o).2
  end.
Definition acl_run (ops : list acl_op) : tdb_acl := foldl acl_step tdb_acl_init ops.

(** A grant of the history that no later REVOKE matches. *)
Definition op_entry (op : acl_op) : option tdb_acl_entry :=
  match op with Grant g p k o => Some (mk_entry (Some g) (Some p) k o) | Revoke _ _ _ _ => None end.
Definition revokes (e : tdb_acl_entry) (op : acl_op) : bool :=
  match op with Revoke g p k o => revoke_hit g p k o e | Grant _ _ _ _ => false end.
Definition alive (ops : list acl_op) (e : tdb_acl_entry) : Prop :=
  exists pre op post, ops = pre ++ op :: post /\ op_entry op = Some e /\ Forall (fun op => revokes e op = false) post.

Lemma alive_snoc ops op e :
  alive (ops ++ [op]) e <-> op_entry op = Some e \/ (alive ops e /\ revokes e op = false).
Proof.
  split.
  - intros (pre & x & post & E & Hx & Hp). destruct post as [|y post _] using rev_ind.
    + apply app_inj_tail in E as [-> ->]. by left.
    + right. rewrite app_comm_cons, app_assoc in E. apply app_inj_tail in E as [-> ->].
      apply Forall_app in Hp as [Hp Hy]. apply Forall_cons in Hy as [Hy _]. split; [|exact Hy]. by exists pre, x, post.
  - intros [Hx|[(pre & x & post & -> & Hx & Hp) Hr]].
    + exists ops, op, []. done.
    + exists pre, x, (post ++ [op]). rewrite <- app_assoc. split; [done|]. split; [done|].
      apply Forall_app. split; [done|]. by apply Forall_singleton.
Qed.
Lemma alive_ok ops e : Forall op_ok ops -> alive ops e -> entry_ok e.
Proof.
  intros Hall (pre & op & post & -> & Hop & _). apply Forall_app in Hall as [_ Hall]. apply Forall_cons in Hall as [Ho _].
  destruct op as [g p k o|]; [|done]. cbn in Hop, Ho. injection Hop as <-. destruct Ho as (H1 & H2 & H3 & H4).
  repeat split; (done || by eexists).
Qed.

(** The list holds, up to letter case, exactly the grants still alive, each
    once, and the count is right. *)
Record acl_inv (ops : list acl_op) (a : tdb_acl) : Prop := {
  ai_ok : Forall entry_ok (acl_entries a);
  ai_count : acl_count a = Z.of_nat (length (acl_entries a));
  ai_alive : forall e, e ∈ acl_entries a -> exists e', alive ops e' /\ entry_ci e e';
  ai_listed : forall e', alive ops e' -> exists e, e ∈ acl_entries a /\ entry_ci e e';
  ai_nodup : ForallOrdPairs (fun x y => ~ entry_ci x y) (acl_entries a) }.

Lemma revoke_loop_eq hit l removed count :
  revoke_loop hit l removed count =
  (removed + Z.of_nat (length (base.filter (fun e => hit e = true) l)),
   count - Z.of_nat (length (base.filter (fun e => hit e = true) l)), base.filter (fun e => hit e = false) l).
Proof.
  revert removed count. induction l as [|e l IH]; intros removed count; cbn [revoke_loop].
  { rewrite !filter_nil. cbn [length]. by rewrite Z.add_0_r, Z.sub_0_r. }
  rewrite !filter_cons. destruct (hit e); cbn [length].
  - destruct (decide (true = true)); [|done]. destruct (decide (true = false)); [done|]. rewrite IH. cbn [length]. f_equal. f_equal; lia.
  - destruct (decide (false = true)); [done|]. destruct (decide (false = false)); [|done]. by rewrite IH.
Qed.
Lemma filter_split_length {A} (f : A -> bool) l :
  (length (base.filter (fun e => f e = true) l) + length (base.filter (fun e => f e = false) l))%nat = length l.
Proof.
  induction l as [|x l IH]; [done|]. rewrite !filter_cons. destruct (f x).
  - destruct (decide (true = true)); [|done]. destruct (decide (true = false)); [done|]. cbn. lia.
  - destruct (decide (false = true)); [done|]. destruct (decide (false = false)); [|done]. cbn. lia.
Qed.
Lemma ForallOrdPairs_filter {A} (R : A -> A -> Prop) (Q : A -> Prop) `{!forall x, Decision (Q x)} l :
  ForallOrdPairs R l -> ForallOrdPairs R (base.filter Q l).
Proof.
  induction 1 as [|x l Hx Hl IH]; [constructor|]. rewrite filter_cons. destruct (decide (Q x)); [|done].
  constructor; [|done]. apply Forall_forall. intros y Hy. apply list_elem_of_filter in Hy as [_ Hy].
  rewrite Forall_forall in Hx. by apply Hx.
Qed.

Lemma acl_grant_inv ops a g p k o :
  Forall op_ok ops -> op_ok (Grant g p k o) -> acl_inv ops a ->
  acl_inv (ops ++ [Grant g p k o]) (acl_step a (Grant g p k o)).
Proof.
  intros Hops (Hg & Hp & Hk & Ho) [I1 I2 I3 I4 I5]. cbn [acl_step]. unfold tdb_acl_grant.
  destruct (Z.eqb_spec k 0); [done|]. cbn [negb ok_alloc up_strdup tdb_strndup]. set (probe := mk_entry (Some g) _ k o).
  assert (entry_ok probe) as Hok.
  { repeat split; cbn; [by eexists|by eexists|done|by apply toupper_nul_free|done]. }
  set (e0 := mk_entry (Some g) (Some p) k o).
  assert (entry_ci probe e0) as Hci by (repeat split; cbn; try reflexivity; apply toupper_ci).
  destruct (existsb (fun e => entry_equal e probe) (acl_entries a)) eqn:Ex; cbn [snd].
  - apply existsb_exists in Ex as (e & He & Heq). apply list_elem_of_In in He.
    pose proof (proj1 (Forall_forall _ _) I1 e He) as Heok.
    apply entry_equal_ci in Heq; [|done..]. split; [done|done| | |done].
    + intros x Hx. destruct (I3 x Hx) as (e' & Ha & Hc). exists e'. split; [|done]. apply alive_snoc. by right.
    + intros e' [[= <-]|[Ha _]]%alive_snoc; [|by apply I4]. exists e. split; [done|]. by rewrite Heq.
  - replace (mk_entry (Some g) (e_priv probe) k (match o with Some o => Some o | None => None end)) with probe
      by (unfold probe; cbn; by destruct o).
    split; cbn [acl_entries acl_count].
    + by constructor.
    + rewrite I2. cbn [length]. lia.
    + intros x Hx. apply elem_of_cons in Hx as [->|Hx].
      * exists e0. split; [apply alive_snoc; by left|done].
      * destruct (I3 x Hx) as (e' & Ha & Hc). exists e'. split; [|done]. apply alive_snoc. by right.
    + intros e' [[= <-]|[Ha _]]%alive_snoc.
      * exists probe. split; [apply elem_of_cons; by left|done].
      * destruct (I4 e' Ha) as (e & He & Hc). exists e. split; [apply elem_of_cons; by right|done].
    + constructor; [|done]. apply Forall_forall. intros x Hx Hc.
      assert (existsb (fun e => entry_equal e probe) (acl_entries a) = true) as Ht; [|congruence].
      apply existsb_exists. exists x. split; [by apply list_elem_of_In|]. apply entry_equal_ci; [|done|by symmetry].
      by apply (proj1 (Forall_forall _ _) I1).
Qed.
Lemma acl_revoke_inv ops a g p k o :
  Forall op_ok ops -> op_ok (Revoke g p k o) -> acl_inv ops a ->
  acl_inv (ops ++ [Revoke g p k o]) (acl_step a (Revoke g p k o)).
Proof.
  intros Hops (Hg & Hp & Ho) [I1 I2 I3 I4 I5]. cbn [acl_step]. unfold tdb_acl_revoke. rewrite revoke_loop_eq. cbn [snd].
  assert (forall x, x ∈ acl_entries a -> entry_ok x) as Hok.
  { intros x Hx. by apply (proj1 (Forall_forall _ _) I1). }
  split; cbn [acl_entries acl_count].
  - apply Forall_forall. intros x Hx. apply list_elem_of_filter in Hx as [_ Hx]. by apply Hok.
  - pose proof (filter_split_length (revoke_hit g p k o) (acl_entries a)). lia.
  - intros x Hx. apply list_elem_of_filter in Hx as [Hh Hx]. destruct (I3 x Hx) as (e' & Ha & Hc). exists e'. split; [|done].
    apply alive_snoc. right. split; [done|]. cbn. rewrite <- Hh. symmetry.
    apply revoke_hit_ci; auto. by eapply alive_ok.
  - intros e' [|[Ha Hr]]%alive_snoc; [done|]. destruct (I4 e' Ha) as (e & He & Hc). exists e. split; [|done].
    apply list_elem_of_filter. split; [|done]. cbn in Hr. rewrite <- Hr. apply revoke_hit_ci; auto. by eapply alive_ok.
  - by apply ForallOrdPairs_filter.
Qed.
Lemma acl_run_inv ops : Forall op_ok ops -> acl_inv ops (acl_run ops).
Proof.
  induction ops as [|op ops IH] using rev_ind; intros Hall.
  { split; cbn; [constructor|done|intros e He; by apply not_elem_of_nil in He| |constructor].
    intros e' (pre & op & post & E & _). by destruct pre. }
  apply Forall_app in Hall as [Hall Hop]. apply Forall_cons in Hop as [Hop _]. unfold acl_run. rewrite foldl_app. cbn [foldl].
  fold (acl_run ops). destruct op; [by apply acl_grant_inv; auto|by apply acl_revoke_inv; auto].
Qed.

(** *** What a history grants *)

(** A word of GRANT or REVOKE: no word, the empty one and the word [any] stand for
    everything, another word for itself in any letter case. *)
Definition stands_for (any : list Z) (word x : cstring) : Prop :=
  match word with
  | None => True
  | Some w => w = [] \/ ci w any \/ exists y, x = Some y /\ ci w y
  end.
(** The REVOKE removes the grant. *)
Definition takes (op : acl_op) (g p : list Z) (k : Z) (o : cstring) : Prop :=
  match op with
  | Revoke g' p' k' o' => stands_for (str "PUBLIC") g' (Some g) /\ stands_for (str "ALL") p' (Some p) /\ (k' = 0 \/ k' = k) /\ stands_for [] o' o
  | Grant _ _ _ _ => False
  end.
(** Some GRANT of the history is for the user or PUBLIC, for the privilege or ALL,
    for the kind, and for the object or all objects, and no later REVOKE removes
    it. *)
Inductive granted (ops : list acl_op) (user priv : list Z) (kind : Z) (object : cstring) : Prop :=
| granted_by pre g p k o post :
    ops = pre ++ Grant g p k o :: post ->
    stands_for (str "PUBLIC") (Some g) (Some user) -> stands_for (str "ALL") (Some p) (Some priv) -> k = kind -> stands_for [] o object ->
    Forall (fun op => ~ takes op g p k o) post -> granted ops user priv kind object.

Lemma match_stands any w x : nul_free any -> str_ok w -> str_ok x ->
  (match w with None | Some [] => true | Some w => ieq w any || match x with Some x => ieq w x | None => false end end) = true <-> stands_for any w x.
Proof.
  intros Ha Hw Hx. destruct w as [[|c w]|]; cbn [stands_for]; [split; [by left|done]| |done]. cbn in Hw. rewrite orb_true_iff, ieq_ci by done.
  destruct x as [x|]; cbn in Hx.
  - rewrite ieq_ci by done. split; [intros [?|?]; right; [by left|right; by exists x]|intros [|[?|(y & [= <-] & ?)]]; [done|by left|by right]].
  - split; [intros [?|?]; [by right; left|done]|intros [|[?|(y & ? & _)]]; [done|by left|done]].
Qed.
Lemma match_grantee_stands w x : str_ok w -> str_ok x -> match_grantee w x = true <-> stands_for (str "PUBLIC") w x.
Proof. apply match_stands, str_public_ok. Qed.
Lemma match_priv_stands w x : str_ok w -> str_ok x -> match_priv w x = true <-> stands_for (str "ALL") w x.
Proof. apply match_stands, str_public_ok. Qed.
Lemma match_object_stands w x : str_ok w -> str_ok x -> match_object w x = true <-> stands_for [] w x.
Proof.
  intros Hw Hx. destruct w as [[|c w]|]; cbn [stands_for match_object]; [split; [by left|done]| |done]. cbn in Hw. destruct x as [x|]; cbn in Hx.
  - rewrite ieq_ci by done. split; [intros ?; right; right; by exists x|intros [|[?|(y & [= <-] & ?)]]; done].
  - split; [done|intros [|[?|(y & ? & _)]]; done].
Qed.
Lemma match_kind_stands k kind : match_kind k kind = true <-> k = 0 \/ k = kind.
Proof. unfold match_kind. rewrite orb_true_iff, !Z.eqb_eq. done. Qed.
Lemma hit_takes g' p' k' o' g p k o : op_ok (Revoke g' p' k' o') -> op_ok (Grant g p k o) ->
  revoke_hit g' p' k' o' (mk_entry (Some g) (Some p) k o) = true <-> takes (Revoke g' p' k' o') g p k o.
Proof.
  intros (Hg' & Hp' & Ho') (Hg & Hp & _ & Ho). unfold revoke_hit, takes. cbn [e_grantee e_priv e_kind e_object].
  rewrite !andb_true_iff, match_kind_stands, match_object_stands, match_grantee_stands, match_priv_stands by done. tauto.
Qed.
Lemma covers_granted g p k o user priv kind object : op_ok (Grant g p k o) -> nul_free user -> nul_free priv -> str_ok object ->
  covers (mk_entry (Some g) (Some p) k o) (Some user) (Some priv) kind object = true
  <-> stands_for (str "PUBLIC") (Some g) (Some user) /\ stands_for (str "ALL") (Some p) (Some priv) /\ k = kind /\ stands_for [] o object.
Proof.
  intros (Hg & Hp & Hk & Ho) Hu Hpr Hob. unfold covers. cbn [e_grantee e_priv e_kind e_object].
  rewrite !andb_true_iff, match_kind_stands, match_object_stands, match_grantee_stands, match_priv_stands by done. tauto.
Qed.
Lemma alive_granted ops user priv kind object : Forall op_ok ops -> nul_free user -> nul_free priv -> str_ok object ->
  (exists e, alive ops e /\ covers e (Some user) (Some priv) kind object = true) <-> granted ops user priv kind object.
Proof.
  intros Hall Hu Hp Ho. split.
  - intros (e & (pre & op & post & -> & He & Hpost) & Hc). apply Forall_app in Hall as [_ [Hop Hall]%Forall_cons]. destruct op as [g p k o|]; [|done].
    injection He as <-. apply covers_granted in Hc as (C1 & C2 & C3 & C4); [|done..]. econstructor; try done.
    apply Forall_forall. intros op Hin Ht. rewrite Forall_forall in Hpost, Hall. specialize (Hpost op Hin). destruct op as [|g' p' k' o']; [done|].
    apply (hit_takes g' p' k' o' g p k o) in Ht; [cbn in Hpost; congruence|by apply Hall|done].
  - intros [pre g p k o post -> C1 C2 C3 C4 Hpost]. apply Forall_app in Hall as [_ [Hop Hall]%Forall_cons]. exists (mk_entry (Some g) (Some p) k o).
    split; [|by apply covers_granted]. exists pre, (Grant g p k o), post. split; [done|]. split; [done|]. apply Forall_forall. intros op Hin. rewrite Forall_forall in Hpost, Hall.
    specialize (Hpost op Hin). destruct op as [|g' p' k' o']; [done|]. cbn [revokes]. apply not_true_iff_false. by rewrite hit_takes by (try done; by apply Hall).
Qed.

(** C33. After any history of grants and revokes a request of a user is allowed
    exactly when some GRANT of the history is for the user or PUBLIC, for the
    privilege or ALL, for the kind, and for the object or for all, in any letter
    case, and no later REVOKE matched that grant (where REVOKE ... FROM PUBLIC
    matches the grants of every user, see [revoke_public_takes_all]); the list
    holds no two entries that differ only in letter case, and the entry count is
    the length of the list. *)
Theorem acl_check_is_history ops user priv kind object :
  Forall op_ok ops -> nul_free user -> nul_free priv -> str_ok object ->
  (tdb_acl_check (acl_run ops) (Some user) (Some priv) kind object = true <-> granted ops user priv kind object)
  /\ ForallOrdPairs (fun x y => ~ entry_ci x y) (acl_entries (acl_run ops))
  /\ acl_count (acl_run ops) = Z.of_nat (length (acl_entries (acl_run ops))).
Proof.
  intros Hall Hu Hp Ho. pose proof (acl_run_inv ops Hall) as [I1 I2 I3 I4 I5]. split; [|done]. rewrite <- alive_granted by done.
  assert (forall x, x ∈ acl_entries (acl_run ops) -> entry_ok x) as Hok.
  { intros x Hx. by apply (proj1 (Forall_forall _ _) I1). }
  unfold tdb_acl_check. rewrite existsb_exists. split.
  - intros (e & He%list_elem_of_In & Hc). destruct (I3 e He) as (e' & Ha & Hci). exists e'. split; [done|]. rewrite <- Hc. symmetry.
    apply covers_ci; auto. by eapply alive_ok.
  - intros (e' & Ha & Hc). destruct (I4 e' Ha) as (e & He & Hci). exists e. split; [by apply list_elem_of_In|].
    rewrite <- Hc. apply covers_ci; auto. by eapply alive_ok.
Qed.
(** REVOKE SELECT ON t FROM PUBLIC also takes the grant of alice, whose own name
    the statement does not have. *)
Lemma revoke_public_takes_all :
  let grant := Grant (str "alice") (str "SELECT") 1 (Some (str "t")) in
  let revoke := Revoke (Some (str "PUBLIC")) (Some (str "SELECT")) 1 (Some (str "t")) in
  tdb_acl_check (acl_run [grant]) (Some (str "alice")) (Some (str "SELECT")) 1 (Some (str "t")) = true
  /\ tdb_acl_check (acl_run [grant; revoke]) (Some (str "alice")) (Some (str "SELECT")) 1 (Some (str "t")) = false.
Proof. vm_compute. auto. Qed.

(** ** Storage form *)

Definition str_bytes (s : cstring) : list Z :=
  match s with None => tdb_put_varint 0 | Some s => tdb_put_varint (blen s + 1) ++ s end.
Definition entry_bytes (e : tdb_acl_entry) : list Z :=
  [71; u8 (e_kind e)] ++ str_bytes (e_grantee e) ++ str_bytes (e_priv e) ++ str_bytes (e_object e).
Definition slen (s : cstring) : Z := match s with Some s => blen s | None => 0 end.

Lemma str_bytes_len s : 0 <= slen s < 2 ^ 31 -> slen s < blen (str_bytes s) <= slen s + 10.
Proof.
  destruct s as [s|]; cbn [slen str_bytes]; intros Hs; [|done]. rewrite blen_app. pose proof (put_varint_len (blen s + 1) ltac:(lia)). lia.
Qed.
Lemma slen_nonneg s : 0 <= slen s.
Proof. destruct s; cbn; [apply blen_nonneg|lia]. Qed.
Lemma w_str_ok b s :
  buf_wf b -> b_len b + slen s + 20 <= 2 ^ 62 -> slen s < 2 ^ 31 ->
  b_data (w_str ok_alloc b s) = b_data b ++ str_bytes s /\ buf_wf (w_str ok_alloc b s).
Proof.
  intros Hb Hl Hs. unfold w_str, str_bytes. pose proof (slen_nonneg s). pose proof (blen_nonneg (b_data b)) as H0. fold (b_len b) in H0.
  destruct s as [s|]; cbn [slen] in *.
  - pose proof (buf_put_varint_adds ok_alloc b (blen s + 1) Hb ltac:(lia) ltac:(lia)) as [[H1 [H2 H3]]|(_ & _ & n & Hn)]; [|done].
    pose proof (put_varint_len (blen s + 1) ltac:(lia)).
    assert (b_len (tdb_buf_put_varint ok_alloc b (blen s + 1)).2 <= b_len b + 10) by (unfold b_len; rewrite H2, blen_app; lia).
    pose proof (buf_append_adds ok_alloc _ s H3 ltac:(lia)) as [[G1 [G2 G3]]|(_ & _ & n & Hn)]; [|done].
    split; [|done]. rewrite G2, H2. by rewrite <- app_assoc.
  - pose proof (buf_put_varint_adds ok_alloc b 0 Hb ltac:(lia) ltac:(lia)) as [[H1 [H2 H3]]|(_ & _ & n & Hn)]; [|done]. done.
Qed.
Lemma serialize_ok e :
  slen (e_grantee e) < 2 ^ 31 -> slen (e_priv e) < 2 ^ 31 -> slen (e_object e) < 2 ^ 31 ->
  b_data (tdb_acl_entry_serialize ok_alloc e tdb_buf_init) = entry_bytes e.
Proof.
  intros H1 H2 H3. pose proof (slen_nonneg (e_grantee e)). pose proof (slen_nonneg (e_priv e)). pose proof (slen_nonneg (e_object e)).
  unfold tdb_acl_entry_serialize.
  change (tdb_buf_putc ok_alloc tdb_buf_init 71).2 with (mk_buf [71] 64).
  change (tdb_buf_append ok_alloc (mk_buf [71] 64) [u8 (e_kind e)]).2 with (mk_buf [71; u8 (e_kind e)] 64).
  assert (buf_wf (mk_buf [71; u8 (e_kind e)] 64)) as Hb by (split; [done|]; cbn; lia).
  assert (b_len (mk_buf [71; u8 (e_kind e)] 64) = 2) as L0 by done.
  destruct (w_str_ok _ (e_grantee e) Hb ltac:(lia) H1) as [E1 Hb1]. set (b1 := w_str _ _ (e_grantee e)) in *.
  pose proof (str_bytes_len (e_grantee e) ltac:(lia)).
  assert (b_len b1 <= 2 + slen (e_grantee e) + 10) as L1 by (unfold b_len in *; rewrite E1, blen_app; lia).
  destruct (w_str_ok _ (e_priv e) Hb1 ltac:(lia) H2) as [E2 Hb2]. set (b2 := w_str _ _ (e_priv e)) in *.
  pose proof (str_bytes_len (e_priv e) ltac:(lia)).
  assert (b_len b2 <= 2 + slen (e_grantee e) + slen (e_priv e) + 20) as L2 by (unfold b_len in *; rewrite E2, blen_app; lia).
  destruct (w_str_ok _ (e_object e) Hb2 ltac:(lia) H3) as [E3 _]. rewrite E3, E2, E1. cbn [b_data].
  unfold entry_bytes. by rewrite <- !app_assoc.
Qed.
(** One string of the storage form is read back. *)
Lemma r_str_ok p n pos s rest :
  0 <= pos -> bfrom p pos = str_bytes s ++ rest -> str_ok s -> blen p = n -> n < 2 ^ 31 -> pos <= n ->
  r_str ok_alloc p n pos = Some (TDB_OK, pos + blen (str_bytes s), s)
  /\ bfrom p (pos + blen (str_bytes s)) = rest /\ pos + blen (str_bytes s) <= n.
Proof.
  intros Hp E Hs Hn Hlt Hle. pose proof (blen_nonneg rest). pose proof (blen_nonneg (str_bytes s)).
  assert (blen (str_bytes s) + blen rest = n - pos) as Hl by (rewrite <- blen_app, <- E, blen_bfrom; lia).
  split; [|split; [|lia]].
  - unfold r_str. rewrite E. destruct s as [s|]; cbn [str_bytes str_ok] in *.
    + pose proof (blen_nonneg s). rewrite blen_app in *. rewrite <- app_assoc.
      pose proof (blen_nonneg (tdb_put_varint (blen s + 1))). rewrite get_put_varint by lia.
      destruct (Z.ltb_spec 0 (blen s + 1)); [|lia]. replace (blen s + 1 - 1) with (blen s) by lia. rewrite s32_small by lia.
      bdec. cbn [tdb_strndup ok_alloc]. rewrite <- app_assoc in E.
      assert (bsub p (pos + blen (tdb_put_varint (blen s + 1))) (blen s) = s) as ->.
      { pose proof (put_varint_len (blen s + 1) ltac:(lia)).
        assert (bfrom p (pos + blen (tdb_put_varint (blen s + 1))) = s ++ rest) as E2.
        { rewrite <- bfrom_bfrom by lia. rewrite E. by apply bfrom_app. }
        unfold bsub. unfold bfrom in E2. rewrite E2. unfold blen. rewrite Nat2Z.id. apply take_app_length. }
      rewrite cstr_nul_free by done. by rewrite Z.add_assoc.
    + rewrite get_put_varint by (lia || (cbn in *; lia)). done.
  - rewrite <- bfrom_bfrom by lia. rewrite E. by apply bfrom_app.
Qed.

Lemma entry_read e out :
  0 <= e_kind e < 256 -> str_ok (e_grantee e) -> str_ok (e_priv e) -> str_ok (e_object e) ->
  slen (e_grantee e) < 2 ^ 31 -> slen (e_priv e) < 2 ^ 31 -> slen (e_object e) < 2 ^ 31 -> blen (entry_bytes e) < 2 ^ 31 ->
  tdb_acl_entry_deserialize ok_alloc (entry_bytes e) (blen (entry_bytes e)) out = Some (TDB_OK, e).
Proof.
  intros Hk Hg Hp Ho Hl1 Hl2 Hl3 Hl. pose proof (slen_nonneg (e_grantee e)). pose proof (slen_nonneg (e_priv e)). pose proof (slen_nonneg (e_object e)).
  set (p := entry_bytes e) in *. set (n := blen p) in *.
  pose proof (str_bytes_len (e_grantee e) ltac:(lia)) as B1. pose proof (str_bytes_len (e_priv e) ltac:(lia)) as B2.
  pose proof (str_bytes_len (e_object e) ltac:(lia)) as B3.
  assert (n = 2 + (blen (str_bytes (e_grantee e)) + (blen (str_bytes (e_priv e)) + blen (str_bytes (e_object e))))) as En
    by (unfold n, p, entry_bytes; by rewrite !blen_app).
  unfold tdb_acl_entry_deserialize. destruct (Z.ltb_spec n 2); [lia|]. cbn [orb].
  change (bget p 0) with 71. change (bget p 1) with (u8 (e_kind e)). rewrite u8_small by lia. cbn [negb Z.eqb Pos.eqb].
  assert (bfrom p 2 = str_bytes (e_grantee e) ++ str_bytes (e_priv e) ++ str_bytes (e_object e)) as E0 by done.
  destruct (r_str_ok p n 2 _ _ ltac:(lia) E0 Hg eq_refl ltac:(lia) ltac:(lia)) as (R1 & E1 & L1).
  set (pos1 := 2 + blen (str_bytes (e_grantee e))) in *.
  destruct (r_str_ok p n pos1 _ _ ltac:(lia) E1 Hp eq_refl ltac:(lia) ltac:(lia)) as (R2 & E2 & L2). set (pos2 := pos1 + blen (str_bytes (e_priv e))) in *.
  rewrite <- (app_nil_r (str_bytes (e_object e))) in E2.
  destruct (r_str_ok p n pos2 _ _ ltac:(lia) E2 Ho eq_refl ltac:(lia) ltac:(lia)) as (R3 & _ & _).
  cbn [read_fields]. destruct (Z.ltb_spec 2 n); [|lia]. rewrite R1.
  destruct (Z.ltb_spec pos1 n); [|lia]. rewrite R2. destruct (Z.ltb_spec pos2 n); [|lia]. rewrite R3. by destruct e.
Qed.
(** An entry written to the catalog form is read back: grantee, privilege,
    kind and object, absent object included. *)
Theorem acl_entry_roundtrip e out :
  0 <= e_kind e < 256 -> str_ok (e_grantee e) -> str_ok (e_priv e) -> str_ok (e_object e) ->
  slen (e_grantee e) + slen (e_priv e) + slen (e_object e) < 2 ^ 31 - 40 ->
  let p := b_data (tdb_acl_entry_serialize ok_alloc e tdb_buf_init) in
  tdb_acl_entry_deserialize ok_alloc p (blen p) out = Some (TDB_OK, e).
Proof.
  intros Hk Hg Hp Ho Hl p. pose proof (slen_nonneg (e_grantee e)). pose proof (slen_nonneg (e_priv e)). pose proof (slen_nonneg (e_object e)).
  assert (p = entry_bytes e) as -> by (apply serialize_ok; lia). apply entry_read; try done; try lia.
  pose proof (str_bytes_len (e_grantee e) ltac:(lia)). pose proof (str_bytes_len (e_priv e) ltac:(lia)). pose proof (str_bytes_len (e_object e) ltac:(lia)).
  unfold entry_bytes. rewrite !blen_app. change (blen [71; u8 (e_kind e)]) with 2. lia.
Qed.

(** ** What the checks do not stop *)

(** A grant while memory runs out: the copy of the privilege fails, and the
    entry stored without one covers every privilege. *)
Lemma acl_grant_oom_escalates :
  let alloc_ok n := negb (n =? 7) in
  let '(rc, a) := tdb_acl_grant alloc_ok tdb_acl_init (Some (str "bob")) (Some (str "select")) TDB_ACL_TABLE None in
  rc = TDB_OK /\ tdb_acl_check a (Some (str "bob")) (Some (str "DELETE")) TDB_ACL_TABLE (Some (str "t")) = true.
Proof. vm_compute. done. Qed.
(** REVOKE ... FROM PUBLIC removes the grants of every user. *)
Lemma acl_revoke_public_removes_all :
  let a := acl_run [Grant (str "alice") (str "SELECT") TDB_ACL_TABLE (Some (str "t"))] in
  tdb_acl_check a (Some (str "alice")) (Some (str "SELECT")) TDB_ACL_TABLE (Some (str "t")) = true
  /\ let a := acl_step a (Revoke (Some (str "PUBLIC")) (Some (str "SELECT")) TDB_ACL_TABLE (Some (str "t"))) in
     tdb_acl_check a (Some (str "alice")) (Some (str "SELECT")) TDB_ACL_TABLE (Some (str "t")) = false.
Proof. vm_compute. done. Qed.
(** A stored length of 2^32 comes out as -1 and passes the bounds check. *)
Lemma acl_deserialize_overrun :
  let p := [71; 1] ++ tdb_put_varint (2 ^ 32) ++ [65; 65] in
  tdb_acl_entry_deserialize ok_alloc p (blen p) (mk_entry None None 0 None) = None.
Proof. vm_compute. done. Qed.
(** "TABLESPACE" is taken for "TABLE". *)
Lemma acl_kind_of_tablespace : tdb_acl_kind_of (Some (str "TABLESPACE")) = TDB_ACL_TABLE.
Proof. vm_compute. done. Qed.

(** ** Examples *)

Definition demo_acl : list acl_op :=
  [Grant (str "alice") (str "select") TDB_ACL_TABLE (Some (str "Orders"));
   Grant (str "PUBLIC") (str "SELECT") TDB_ACL_TABLE (Some (str "news"));
   Grant (str "ALICE") (str "SELECT") TDB_ACL_TABLE (Some (str "orders"));
   Revoke (Some (str "bob")) None 0 None].
Lemma nul_free_check s : forallb (fun c => (0 <? c) && (c <? 256)) s = true -> nul_free s.
Proof.
  intros H. apply Forall_forall. intros c Hc. rewrite forallb_forall in H. apply list_elem_of_In, H, andb_true_iff in Hc. lia.
Qed.
Ltac nul_ok := cbn [str_ok e_grantee e_priv e_object]; first [exact I | apply nul_free_check; vm_compute; reflexivity].
Lemma demo_acl_ok : Forall op_ok demo_acl.
Proof.
  repeat (apply Forall_cons; split; [cbn [op_ok]; repeat split; first [nul_ok | done]|]). apply Forall_nil_2.
Qed.
Lemma acl_check_is_history_witness :
  granted demo_acl (str "Alice") (str "SELECT") TDB_ACL_TABLE (Some (str "ORDERS"))
  /\ ~ granted demo_acl (str "Alice") (str "SELECT") TDB_ACL_VIEW (Some (str "ORDERS"))
  /\ length (acl_entries (acl_run demo_acl)) = 2%nat.
Proof.
  destruct (acl_check_is_history demo_acl (str "Alice") (str "SELECT") TDB_ACL_TABLE (Some (str "ORDERS")) demo_acl_ok) as [H1 _]; [nul_ok..|].
  destruct (acl_check_is_history demo_acl (str "Alice") (str "SELECT") TDB_ACL_VIEW (Some (str "ORDERS")) demo_acl_ok) as [H2 _]; [nul_ok..|].
  split; [apply H1; vm_compute; reflexivity|]. split; [|reflexivity]. intros Hg%H2. vm_compute in Hg. discriminate.
Defined.
Lemma acl_entry_roundtrip_witness :
  let e := mk_entry (Some (str "alice")) (Some (str "SELECT")) TDB_ACL_VIEW None in
  let p := b_data (tdb_acl_entry_serialize ok_alloc e tdb_buf_init) in
  tdb_acl_entry_deserialize ok_alloc p (blen p) (mk_entry None None 0 None) = Some (TDB_OK, e).
Proof.
  apply (acl_entry_roundtrip (mk_entry (Some (str "alice")) (Some (str "SELECT")) TDB_ACL_VIEW None));
    first [nul_ok | vm_compute; (reflexivity || (split; [discriminate|reflexivity]))].
Defined.
