(* ===== verification/Catalog.v ===== *)
(** * The catalog (src/src/catalog/tdb_catalog.c)

    Tables, views, routines, grants, comments and tablespaces are rows of one
    B-tree, each a type byte and the fields of the object; the catalog loads
    them into memory when it is opened and writes through afterwards.

    Allocations, which the file does not check, succeed.  A reader answers
    [None] where the C code leaves the buffer (a string whose stored length
    is negative as an [int]) or stores a number that is no value of an
    enumeration. *)
From S2P Require Import Prelude Util Buf Value Record Schema Acl Btree Cursor Txn.

Definition CAT_TABLE : Z := 84.
Definition CAT_VIEW : Z := 86.
Definition CAT_ROUTINE : Z := 82.
Definition CAT_GRANT : Z := 71.
Definition CAT_COMMENT : Z := 67.
Definition CAT_TABLESPACE : Z := 83.

Record tdb_view := mk_view { vw_name : cstring; vw_select_sql : cstring; vw_materialized : bool; vw_root : Z; vw_stale : bool }.
Record tdb_routine := mk_routine { rt_name : cstring; rt_lua_src : cstring; rt_is_function : bool; rt_nargs : Z }.
Record tdb_tablespace := mk_tablespace { ts_name : cstring; ts_location : cstring }.

(** ** Enumerations as numbers *)

Definition typeids : list tdb_typeid :=
  [TDB_T_UNKNOWN; TDB_T_BOOLEAN; TDB_T_TINYINT; TDB_T_SMALLINT; TDB_T_INTEGER; TDB_T_BIGINT; TDB_T_DECIMAL;
   TDB_T_REAL; TDB_T_DOUBLE; TDB_T_CHAR; TDB_T_VARCHAR; TDB_T_TEXT; TDB_T_BINARY; TDB_T_VARBINARY; TDB_T_BLOB;
   TDB_T_DATE; TDB_T_TIME; TDB_T_TIMESTAMP; TDB_T_BIT; TDB_T_VARBIT; TDB_T_JSON; TDB_T_XML; TDB_T_UUID;
   TDB_T_INTERVAL; TDB_T_GEOMETRY; TDB_T_POINT; TDB_T_GEOGRAPHY; TDB_T_COMPOSITE].
#[global] Instance tdb_typeid_eq_dec : EqDecision tdb_typeid.
Proof. solve_decision. Defined.
Definition collations : list tdb_collation := [TDB_COLL_BINARY; TDB_COLL_NOCASE].
Definition generated_kinds : list tdb_generated_kind := [TDB_GEN_NONE; TDB_GEN_VIRTUAL; TDB_GEN_STORED].
#[global] Instance tdb_generated_kind_eq_dec : EqDecision tdb_generated_kind.
Proof. solve_decision. Defined.
Definition index_kinds : list tdb_index_kind := [TDB_IDX_BTREE; TDB_IDX_RTREE].
#[global] Instance tdb_index_kind_eq_dec : EqDecision tdb_index_kind.
Proof. solve_decision. Defined.
Definition versionings : list tdb_versioning := [TDB_VERSIONING_NONE; TDB_VERSIONING_SYSTEM].
#[global] Instance tdb_versioning_eq_dec : EqDecision tdb_versioning.
Proof. solve_decision. Defined.

(** The number of a constant is its place among the constants. *)
Fixpoint code {A} `{EqDecision A} (l : list A) (x : A) : Z :=
  match l with [] => 0 | y :: l => if decide (x = y) then 0 else 1 + code l x end.
Definition of_code {A} (l : list A) (v : Z) : option A := if v <? 0 then None else l !! Z.to_nat v.

Definition of_bool (b : bool) : Z := if b then 1 else 0.
Definition to_bool (v : Z) : bool := negb (v =? 0).

(** ** Writer *)

Definition w_u8 (v : Z) (b : tdb_buf) : tdb_buf := (tdb_buf_putc ok_alloc b (u8 v)).2.
Definition w_u32 (v : Z) (b : tdb_buf) : tdb_buf := (tdb_buf_append ok_alloc b (tdb_put_u32 v)).2.
Definition w_var (v : Z) (b : tdb_buf) : tdb_buf := (tdb_buf_put_varint ok_alloc b (u64 v)).2.
Definition w_str (s : cstring) (b : tdb_buf) : tdb_buf :=
  match s with
  | None => w_var 0 b
  | Some s => (tdb_buf_append ok_alloc (w_var (strlen s + 1) b) (cstr s)).2
  end.
(** [for (i = 0; i < n; i++)] over an array. *)
Definition w_list {A} (w : A -> tdb_buf -> tdb_buf) (l : list A) (b : tdb_buf) : tdb_buf := fold_left (fun b x => w x b) l b.

(** ** Reader *)

Record rd := mk_rd { rd_p : list Z; rd_len : Z; rd_pos : Z; rd_err : bool }.
Definition rd_fail (r : rd) : rd := mk_rd (rd_p r) (rd_len r) (rd_pos r) true.
Definition rd_move (r : rd) (pos : Z) : rd := mk_rd (rd_p r) (rd_len r) pos (rd_err r).
Definition R (A : Type) : Type := rd -> option (rd * A).
#[global] Instance R_ret : MRet R := fun A x r => Some (r, x).
#[global] Instance R_bind : MBind R := fun A B k m r => match m r with Some (r, x) => k x r | None => None end.
Definition r_undefined {A} : R A := fun _ => None.
Definition r_err : R bool := fun r => Some (r, rd_err r).
Definition r_more : R bool := fun r => Some (r, (rd_pos r <? rd_len r) && negb (rd_err r)).

Definition r_var : R Z := fun r =>
  match tdb_get_varint (bfrom (rd_p r) (rd_pos r)) (rd_len r - rd_pos r) with
  | None => Some (rd_fail r, 0)
  | Some (a, v) => Some (rd_move r (rd_pos r + a), v)
  end.
Definition r_u32 : R Z := fun r =>
  if rd_len r <? rd_pos r + 4 then Some (rd_fail r, 0)
  else Some (rd_move r (rd_pos r + 4), tdb_get_u32 (bfrom (rd_p r) (rd_pos r))).
Definition r_u8 : R Z := fun r =>
  if rd_len r <=? rd_pos r then Some (rd_fail r, 0)
  else Some (rd_move r (rd_pos r + 1), bget (rd_p r) (rd_pos r)).
Definition r_bytes (n : Z) : R cstring := fun r =>
  if rd_len r <? rd_pos r + n then Some (rd_fail r, None)
  else if n <? 0 then None
  else Some (rd_move r (rd_pos r + n), Some (cstr (bsub (rd_p r) (rd_pos r) n))).
Definition r_str : R cstring :=
  L ← r_var;
  if L =? 0 then mret None else r_bytes (s32 (L - 1)).
(** [(int)r_var(r)] *)
Definition r_int : R Z := v ← r_var; mret (s32 v).
Definition r_enum {A} (l : list A) : R A := v ← r_u8; match of_code l v with Some x => mret x | None => r_undefined end.
Definition r_bool : R bool := v ← r_u8; mret (to_bool v).

(** [for (i = 0; i < n; i++)], and with [&& !r->err] *)
Fixpoint r_times {A} (n : nat) (item : R A) : R (list A) :=
  match n with O => mret [] | S n => x ← item; l ← r_times n item; mret (x :: l) end.
Fixpoint r_times_ok {A} (n : nat) (item : R A) : R (list A) :=
  match n with
  | O => mret []
  | S n => e ← r_err; if e : bool then mret [] else x ← item; l ← r_times_ok n item; mret (x :: l)
  end.

(** ** Tables *)

Definition col_flags (c : tdb_column) : Z :=
  Z.lor (Z.lor (Z.lor (if col_notnull c then 1 else 0) (if col_pk c then 2 else 0)) (if col_unique c then 4 else 0))
    (if col_hidden c then 8 else 0).
Definition ser_column (c : tdb_column) (b : tdb_buf) : tdb_buf :=
  let b := w_str (col_name c) b in
  let b := w_u8 (code typeids (ty_id (col_type c))) b in
  let b := w_var (ty_length (col_type c)) b in
  let b := w_var (ty_precision (col_type c)) b in
  let b := w_var (ty_scale (col_type c)) b in
  let b := w_u8 (code collations (col_coll c)) b in
  let b := w_u8 (col_flags c) b in
  let b := w_u8 (code generated_kinds (col_generated c)) b in
  let b := w_str (col_default_sql c) b in
  let b := w_str (col_check_sql c) b in
  let b := w_str (col_generated_sql c) b in
  w_str (col_lua_compute c) b.
(** The column numbers of an index with their directions; without an array of
    directions they are ascending. *)
Definition ix_keys (ix : tdb_index) : list (Z * bool) :=
  zip (ix_col_idx ix) (default (replicate (length (ix_col_idx ix)) false) (ix_desc ix)).
Definition ser_index (ix : tdb_index) (b : tdb_buf) : tdb_buf :=
  let b := w_str (ix_name ix) b in
  let b := w_u32 (ix_root ix) b in
  let b := w_u8 (of_bool (ix_unique ix)) b in
  let b := w_u8 (code index_kinds (ix_kind ix)) b in
  let b := w_var (Z.of_nat (length (ix_col_idx ix))) b in
  w_list (fun k b => w_u8 (of_bool k.2) (w_var k.1 b)) (ix_keys ix) b.
Definition ser_table (t : tdb_table) (b : tdb_buf) : tdb_buf :=
  let b := w_u8 CAT_TABLE b in
  let b := w_str (tb_name t) b in
  let b := w_u32 (tb_root t) b in
  let b := w_u32 (tb_history_root t) b in
  let b := w_u32 (tb_schema_version t) b in
  let b := w_u8 (code versionings (tb_versioning t)) b in
  let b := w_var (tb_row_start_col t + 1) b in
  let b := w_var (tb_row_end_col t + 1) b in
  let b := w_str (tb_check_sql t) b in
  let b := w_str (tb_before_insert_lua t) b in
  let b := w_str (tb_before_update_lua t) b in
  let b := w_str (tb_before_delete_lua t) b in
  let b := w_var (Z.of_nat (length (tb_cols t))) b in
  let b := w_list ser_column (tb_cols t) b in
  let b := w_var (Z.of_nat (length (tb_indexes t))) b in
  let b := w_list ser_index (tb_indexes t) b in
  let b := w_u8 (of_bool (tb_columnar t)) b in
  let b := w_var (Z.of_nat (length (tb_col_roots t))) b in
  let b := w_list w_u32 (tb_col_roots t) b in
  let b := w_str (tb_tablespace t) b in
  let b := w_str (tb_compression t) b in
  let b := w_u8 (tb_partition_kind t) b in
  let b := w_var (Z.of_nat (length (tb_partition_cols t))) b in
  let b := w_list w_str (tb_partition_cols t) b in
  w_var (tb_partition_count t) b.

Definition deser_column : R tdb_column :=
  cn ← r_str;
  id ← r_enum typeids;
  length ← r_int;
  precision ← r_int;
  scale ← r_int;
  coll ← r_enum collations;
  flags ← r_u8;
  generated ← r_enum generated_kinds;
  default_sql ← r_str;
  check_sql ← r_str;
  generated_sql ← r_str;
  lua_compute ← r_str;
  mret (mk_column (Some (default [] cn)) (mk_typespec id length precision scale) coll
          (Z.testbit flags 0) (Z.testbit flags 1) (Z.testbit flags 2) (Z.testbit flags 3)
          default_sql check_sql generated generated_sql lua_compute []).
Definition deser_index : R tdb_index :=
  n ← r_str;
  root ← r_u32;
  unique ← r_bool;
  kind ← r_enum index_kinds;
  ncol ← r_int;
  keys ← r_times (Z.to_nat ncol) (i ← r_int; d ← r_bool; mret (i, d));
  mret (mk_index n root unique keys.*1 (if 0 <? ncol then Some keys.*2 else None) kind).
(** The trailer, absent in older records. *)
Definition deser_trailer : R (cstring * cstring * Z * list cstring * Z) :=
  more ← r_more;
  if more : bool then
    tablespace ← r_str;
    compression ← r_str;
    kind ← r_u8;
    npc ← r_int;
    e ← r_err;
    cols ← (if (0 <? npc) && negb e then
              l ← r_times_ok (Z.to_nat npc) r_str;
              mret (l ++ replicate (Z.to_nat npc - length l) None)
            else mret []);
    more ← r_more;
    count ← (if more : bool then r_int else mret 0);
    mret (tablespace, compression, kind, cols, count)
  else mret (None, None, 0, [], 0).
(** The fields that are not stored are those of [tdb_table_new]. *)
Definition deser_table : R tdb_table :=
  n ← r_str;
  root ← r_u32;
  history_root ← r_u32;
  schema_version ← r_u32;
  versioning ← r_enum versionings;
  row_start ← r_int;
  row_end ← r_int;
  check_sql ← r_str;
  ins ← r_str;
  upd ← r_str;
  del ← r_str;
  ncol ← r_int;
  cols ← r_times_ok (Z.to_nat ncol) deser_column;
  nindex ← r_int;
  indexes ← r_times_ok (Z.to_nat nindex) deser_index;
  columnar ← r_bool;
  nroots ← r_int;
  roots ← r_times (Z.to_nat nroots) r_u32;
  tr ← deser_trailer;
  let '(tablespace, compression, kind, pcols, count) := tr in
  mret (mk_table (Some (default [] n)) root cols indexes [] check_sql schema_version [] versioning
          (s32 (row_start - 1)) (s32 (row_end - 1)) history_root columnar roots ins upd del tablespace compression kind pcols count).

(** ** Views, routines, comments and tablespaces *)

Definition ser_view (v : tdb_view) (b : tdb_buf) : tdb_buf :=
  let b := w_u8 CAT_VIEW b in
  let b := w_str (vw_name v) b in
  let b := w_str (vw_select_sql v) b in
  let b := w_u8 (of_bool (vw_materialized v)) b in
  w_u32 (vw_root v) b.
Definition deser_view : R tdb_view :=
  n ← r_str;
  s ← r_str;
  m ← r_bool;
  root ← r_u32;
  mret (mk_view n s m root false).
Definition ser_routine (r : tdb_routine) (b : tdb_buf) : tdb_buf :=
  let b := w_u8 CAT_ROUTINE b in
  let b := w_str (rt_name r) b in
  let b := w_str (rt_lua_src r) b in
  let b := w_u8 (of_bool (rt_is_function r)) b in
  w_var (rt_nargs r + 1) b.
Definition deser_routine : R tdb_routine :=
  n ← r_str;
  s ← r_str;
  f ← r_bool;
  nargs ← r_int;
  mret (mk_routine n s f (s32 (nargs - 1))).
Definition ser_comment (kind : Z) (target body : cstring) (b : tdb_buf) : tdb_buf :=
  w_str body (w_str target (w_u8 kind (w_u8 CAT_COMMENT b))).
Definition ser_tablespace (n location : cstring) (b : tdb_buf) : tdb_buf :=
  w_str location (w_str n (w_u8 CAT_TABLESPACE b)).
Definition deser_tablespace : R tdb_tablespace := n ← r_str; l ← r_str; mret (mk_tablespace n l).

(** ** The catalog in memory *)

Record tdb_catalog := mk_catalog {
  c_root : Z;
  c_tables : list tdb_table;
  c_views : list tdb_view;
  c_routines : list tdb_routine;
  c_tspaces : list tdb_tablespace;
  c_acl : tdb_acl }.

Definition cache_add_table (c : tdb_catalog) (t : tdb_table) : tdb_catalog :=
  mk_catalog (c_root c) (c_tables c ++ [t]) (c_views c) (c_routines c) (c_tspaces c) (c_acl c).
Definition cache_add_view (c : tdb_catalog) (v : tdb_view) : tdb_catalog :=
  mk_catalog (c_root c) (c_tables c) (c_views c ++ [v]) (c_routines c) (c_tspaces c) (c_acl c).
Definition cache_add_routine (c : tdb_catalog) (r : tdb_routine) : tdb_catalog :=
  mk_catalog (c_root c) (c_tables c) (c_views c) (c_routines c ++ [r]) (c_tspaces c) (c_acl c).
Definition cache_add_tablespace (c : tdb_catalog) (s : tdb_tablespace) : tdb_catalog :=
  mk_catalog (c_root c) (c_tables c) (c_views c) (c_routines c) (c_tspaces c ++ [s]) (c_acl c).
Definition cset_acl (c : tdb_catalog) (a : tdb_acl) : tdb_catalog :=
  mk_catalog (c_root c) (c_tables c) (c_views c) (c_routines c) (c_tspaces c) a.

(** [strcasecmp] of a name of an object, which is not NULL. *)
Definition named (n : cstring) (name : list Z) : bool := strcasecmp (default [] n) name =? 0.
Definition tdb_catalog_find_table (c : tdb_catalog) (name : list Z) : option tdb_table :=
  List.find (fun t => named (tb_name t) name) (c_tables c).
Definition tdb_catalog_find_view (c : tdb_catalog) (name : list Z) : option tdb_view :=
  List.find (fun v => named (vw_name v) name) (c_views c).
Definition tdb_catalog_find_routine (c : tdb_catalog) (name : list Z) : option tdb_routine :=
  List.find (fun r => named (rt_name r) name) (c_routines c).
Definition tdb_catalog_table_count (c : tdb_catalog) : Z := Z.of_nat (length (c_tables c)).
Definition tdb_catalog_table_at (c : tdb_catalog) (i : Z) : option tdb_table := c_tables c !! Z.to_nat i.
Definition tdb_catalog_routine_count (c : tdb_catalog) : Z := Z.of_nat (length (c_routines c)).
Definition tdb_catalog_routine_at (c : tdb_catalog) (i : Z) : option tdb_routine := c_routines c !! Z.to_nat i.
Definition tdb_catalog_acl (c : tdb_catalog) : tdb_acl := c_acl c.
Definition tdb_catalog_tablespace_exists (c : tdb_catalog) (name : cstring) : bool :=
  match name with None => false | Some n => existsb (fun s => named (ts_name s) n) (c_tspaces c) end.
Definition tdb_catalog_tablespace_count (c : tdb_catalog) : Z := Z.of_nat (length (c_tspaces c)).
Definition tdb_catalog_tablespace_name_at (c : tdb_catalog) (i : Z) : cstring :=
  if (0 <=? i) && (i <? tdb_catalog_tablespace_count c)
  then match c_tspaces c !! Z.to_nat i with Some s => ts_name s | None => None end else None.
Definition tdb_catalog_tablespace_location_at (c : tdb_catalog) (i : Z) : cstring :=
  if (0 <=? i) && (i <? tdb_catalog_tablespace_count c)
  then match c_tspaces c !! Z.to_nat i with Some s => ts_location s | None => None end else None.

(** The array without its first element that satisfies [f]. *)
Fixpoint remove_first {A} (f : A -> bool) (l : list A) : list A :=
  match l with [] => [] | x :: l => if f x then l else x :: remove_first f l end.

(** One row of the catalog, as [catalog_load] adds it to the cache; [None]:
    undefined. *)
Definition load_object {A} (r : rd) (m : R A) (add : tdb_catalog -> A -> tdb_catalog) (c : tdb_catalog) : option tdb_catalog :=
  match m r with
  | None => None
  | Some (r, x) => Some (if rd_err r then c else add c x)
  end.
Definition load_grant (v : list Z) (c : tdb_catalog) : option tdb_catalog :=
  match tdb_acl_entry_deserialize ok_alloc v (blen v) (mk_entry None None 0 None) with
  | None => None
  | Some (TDB_OK, e) =>
      Some (cset_acl c (tdb_acl_grant ok_alloc (c_acl c) (e_grantee e) (e_priv e) (e_kind e) (e_object e)).2)
  | Some _ => Some c
  end.
Definition load_row (c : tdb_catalog) (v : list Z) : option tdb_catalog :=
  match r_u8 (mk_rd v (blen v) 0 false) with
  | None => None
  | Some (r, type) =>
      if type =? CAT_TABLE then load_object r deser_table cache_add_table c
      else if type =? CAT_VIEW then load_object r deser_view cache_add_view c
      else if type =? CAT_ROUTINE then load_object r deser_routine cache_add_routine c
      else if type =? CAT_GRANT then load_grant v c
      else if type =? CAT_TABLESPACE then
        load_object r deser_tablespace
          (fun c s => match ts_name s with Some _ => cache_add_tablespace c s | None => c end) c
      else Some c
  end.

(** The type of a row and its first string, read as [del_row] reads them;
    [None]: undefined. *)
Definition row_type (v : list Z) : Z := bget v 0.
Definition row_name (v : list Z) : option (rd * cstring) := (r_u8;; r_str) (mk_rd v (blen v) 0 false).

(** ** Operations *)

(** What the catalog calls of the pager besides pages and transactions. *)
Class CatalogRoot (P : Type) := {
  pager_catalog_root : P -> Z;
  pager_set_catalog_root : P -> Z -> P }.

Section Ops.
Context {P : Type} `{PagerPages P, PagerTxn P, CatalogRoot P} (depth rounds : nat).

(** [for (first; !eof; next) { if (data) break; body }]: [body] gets the
    rowid and the bytes of a row and says whether to break. *)
Fixpoint scan_loop {S} (n : nat) (bt : tdb_btree) (p : P) (cur : tdb_cursor) (body : S -> Z -> list Z -> S * bool) (s : S)
  : option (P * tdb_cursor * S) :=
  match n with
  | O => None
  | S n =>
      if tdb_cursor_eof cur then Some (p, cur, s)
      else
        match tdb_cursor_data ok_alloc bt p cur with
        | (TDB_OK, p, cur, v) =>
            let '(s, stop) := body s (tdb_cursor_rowid bt p cur).2 v in
            if stop then Some (p, cur, s)
            else match tdb_cursor_next depth p cur with
                 | None => None
                 | Some (_, p, cur) => scan_loop n bt p cur body s
                 end
        | (_, p, cur, _) => Some (p, cur, s)
        end
  end.
(** A scan of the tree with a cursor of its own. *)
Definition scan {S} (bt : tdb_btree) (p : P) (body : S -> Z -> list Z -> S * bool) (s : S) : option (P * S) :=
  match tdb_cursor_open ok_alloc with
  | (TDB_OK, Some cur) =>
      match tdb_cursor_first depth bt p cur with
      | None => None
      | Some (_, p, cur) =>
          match scan_loop rounds bt p cur body s with
          | None => None
          | Some (p, cur, s) => Some (tdb_cursor_close p cur, s)
          end
      end
  | _ => None
  end.
(** [tdb_btree_open] of the catalog tree. *)
Definition cat_tree (c : tdb_catalog) (p : P) : tdb_btree := mk_btree (c_root c) TDB_BT_TABLE None (pp_page_size p).

Definition catalog_put (c : tdb_catalog) (p : P) (blob : tdb_buf) : option (tdb_status * P) :=
  let bt := cat_tree c p in
  match tdb_btree_max_rowid ok_alloc depth bt p with
  | None => None
  | Some (TDB_OK, p, mx) => tdb_btree_put ok_alloc depth bt p (mx + 1) (b_data blob)
  | Some (rc, p, _) => Some (rc, p)
  end.
(** A record is stored and, when that succeeds, the cache is changed. *)
Definition put_and_add (c : tdb_catalog) (p : P) (blob : tdb_buf) (c' : tdb_catalog) : option (tdb_status * P * tdb_catalog) :=
  match catalog_put c p blob with
  | None => None
  | Some (TDB_OK, p) => Some (TDB_OK, p, c')
  | Some (rc, p) => Some (rc, p, c)
  end.
Definition tdb_catalog_add_table (c : tdb_catalog) (p : P) (t : tdb_table) : option (tdb_status * P * tdb_catalog) :=
  put_and_add c p (ser_table t tdb_buf_init) (cache_add_table c t).
Definition tdb_catalog_add_view (c : tdb_catalog) (p : P) (v : tdb_view) : option (tdb_status * P * tdb_catalog) :=
  put_and_add c p (ser_view v tdb_buf_init) (cache_add_view c v).
Definition tdb_catalog_add_routine (c : tdb_catalog) (p : P) (r : tdb_routine) : option (tdb_status * P * tdb_catalog) :=
  put_and_add c p (ser_routine r tdb_buf_init) (cache_add_routine c r).

Definition catalog_load (c : tdb_catalog) (p : P) : option (tdb_status * P * tdb_catalog) :=
  match scan (cat_tree c p) p (fun s _ v => match s with
                                            | None => (None, true)
                                            | Some c => match load_row c v with Some c => (Some c, false) | None => (None, true) end
                                            end) (Some c) with
  | Some (p, Some c) => Some (TDB_OK, p, c)
  | _ => None
  end.
Definition tdb_catalog_open (p : P) : option (tdb_status * P * option tdb_catalog) :=
  let empty root := mk_catalog root [] [] [] [] tdb_acl_init in
  let load p root :=
    match catalog_load (empty root) p with
    | None => None
    | Some (TDB_OK, p, c) => Some (TDB_OK, p, Some c)
    | Some (rc, p, _) => Some (rc, p, None)
    end in
  let root := pager_catalog_root p in
  if root =? 0 then
    match pager_begin p with
    | (TDB_OK, p) =>
        match tdb_btree_create p TDB_BT_TABLE with
        | (TDB_OK, p, root) =>
            match pager_commit (pager_set_catalog_root p root) with
            | (TDB_OK, p) => load p root
            | (rc, p) => Some (rc, p, None)
            end
        | (rc, p, _) => Some (rc, p, None)
        end
    | (rc, p) => Some (rc, p, None)
    end
  else load p root.

Definition tdb_catalog_acl_persist (c : tdb_catalog) (p : P) (e : tdb_acl_entry) : option (tdb_status * P) :=
  catalog_put c p (tdb_acl_entry_serialize ok_alloc e tdb_buf_init).

(** The rowids of the rows a predicate selects; a predicate that is undefined
    on a row makes the scan undefined. *)
Definition collect (hit : list Z -> option bool) (s : option (list Z)) (rowid : Z) (v : list Z) : option (list Z) * bool :=
  match s with
  | None => (None, true)
  | Some ids => match hit v with
                | None => (None, true)
                | Some true => (Some (ids ++ [rowid]), false)
                | Some false => (Some ids, false)
                end
  end.
(** The rowid of the first row a predicate selects. *)
Definition first_hit (hit : list Z -> option bool) (s : option (option Z)) (rowid : Z) (v : list Z) : option (option Z) * bool :=
  match hit v with
  | None => (None, true)
  | Some true => (Some (Some rowid), true)
  | Some false => (s, false)
  end.
Fixpoint del_rows (bt : tdb_btree) (p : P) (ids : list Z) (n : Z) : option (tdb_status * P * Z) :=
  match ids with
  | [] => Some (TDB_OK, p, n)
  | r :: ids =>
      match tdb_btree_del ok_alloc depth bt p r with
      | None => None
      | Some (TDB_OK, p, found) => del_rows bt p ids (if found then n + 1 else n)
      | Some (rc, p, _) => Some (rc, p, n)
      end
  end.

Definition acl_match (e : tdb_acl_entry) (grantee priv : cstring) (kind : Z) (object : cstring) : bool :=
  let agrees (want have : cstring) (any : option (list Z)) :=
    match want with
    | None | Some [] => true
    | Some w => match any with Some a => ieq w a | None => false end || match have with Some h => ieq w h | None => false end
    end in
  agrees grantee (e_grantee e) (Some (str "PUBLIC")) && agrees priv (e_priv e) (Some (str "ALL"))
  && ((kind =? 0) || (kind =? e_kind e)) && agrees object (e_object e) None.
Definition grant_hit (grantee priv : cstring) (kind : Z) (object : cstring) (v : list Z) : option bool :=
  if (blen v <? 1) || negb (row_type v =? CAT_GRANT) then Some false
  else match tdb_acl_entry_deserialize ok_alloc v (blen v) (mk_entry None None 0 None) with
       | None => None
       | Some (TDB_OK, e) => Some (acl_match e grantee priv kind object)
       | Some _ => Some false
       end.
(** The last component is [*removed]. *)
Definition tdb_catalog_acl_unpersist (c : tdb_catalog) (p : P) (grantee priv : cstring) (kind : Z) (object : cstring)
  : option (tdb_status * P * Z) :=
  let bt := cat_tree c p in
  match scan bt p (collect (grant_hit grantee priv kind object)) (Some []) with
  | Some (p, Some ids) => del_rows bt p ids 0
  | _ => None
  end.

Definition table_hit (find_name : list Z) (v : list Z) : option bool :=
  if (1 <=? blen v) && (row_type v =? CAT_TABLE) then
    match row_name v with
    | None => None
    | Some (_, n) => Some match n with Some n => strcasecmp n find_name =? 0 | None => false end
    end
  else Some false.
Definition tdb_catalog_update_table_as (c : tdb_catalog) (p : P) (find_name : list Z) (t : tdb_table) : option (tdb_status * P) :=
  let bt := cat_tree c p in
  match scan bt p (first_hit (table_hit find_name)) (Some None) with
  | Some (p, Some (Some target)) => tdb_btree_put ok_alloc depth bt p target (b_data (ser_table t tdb_buf_init))
  | Some (p, Some None) => Some (TDB_NOTFOUND, p)
  | _ => None
  end.
Definition tdb_catalog_update_table (c : tdb_catalog) (p : P) (t : tdb_table) : option (tdb_status * P) :=
  tdb_catalog_update_table_as c p (default [] (tb_name t)) t.

(** *** Comments *)

(** The kind and the target of a comment row, and the reader behind them. *)
Definition comment_head (v : list Z) : option (rd * (Z * cstring)) :=
  (r_u8;; k ← r_u8; t ← r_str; mret (k, t)) (mk_rd v (blen v) 0 false).
Definition comment_hit (kind : Z) (target : list Z) (v : list Z) : option bool :=
  if (blen v <? 2) || negb (row_type v =? CAT_COMMENT) then Some false
  else match comment_head v with
       | None => None
       | Some (r, (k, t)) =>
           Some (negb (rd_err r) && (k =? kind) && match t with Some t => strcasecmp t target =? 0 | None => false end)
       end.
Definition find_comment_rows (c : tdb_catalog) (p : P) (kind : Z) (target : list Z) : option (P * list Z) :=
  match scan (cat_tree c p) p (collect (comment_hit kind target)) (Some []) with
  | Some (p, Some ids) => Some (p, ids)
  | _ => None
  end.
Definition tdb_catalog_set_comment (c : tdb_catalog) (p : P) (kind : Z) (target body : cstring) : option (tdb_status * P) :=
  match target with
  | None => Some (TDB_MISUSE, p)
  | Some t =>
      match find_comment_rows c p kind t with
      | None => None
      | Some (p, ids) =>
          match del_rows (cat_tree c p) p ids 0 with
          | None => None
          | Some (TDB_OK, p, _) =>
              match body with
              | None => Some (TDB_OK, p)
              | Some _ => catalog_put c p (ser_comment kind target body tdb_buf_init)
              end
          | Some (rc, p, _) => Some (rc, p)
          end
      end
  end.
Definition comment_body (kind : Z) (target : list Z) (s : option cstring) (_ : Z) (v : list Z) : option cstring * bool :=
  match comment_hit kind target v with
  | None => (None, true)
  | Some false => (s, false)
  | Some true =>
      match comment_head v with
      | None => (None, true)
      | Some (r, _) => match r_str r with Some (_, b) => (Some b, true) | None => (None, true) end
      end
  end.
Definition tdb_catalog_get_comment (c : tdb_catalog) (p : P) (kind : Z) (target : cstring) : option (P * cstring) :=
  match target with
  | None => Some (p, None)
  | Some t =>
      match scan (cat_tree c p) p (comment_body kind t) (Some None) with
      | Some (p, Some b) => Some (p, b)
      | _ => None
      end
  end.

(** *** Tablespaces *)

Definition tdb_catalog_tablespace_create (c : tdb_catalog) (p : P) (name location : cstring) (if_not_exists : bool)
  : option (tdb_status * P * tdb_catalog) :=
  match name with
  | None | Some [] => Some (TDB_MISUSE, p, c)
  | Some _ =>
      if tdb_catalog_tablespace_exists c name then Some (if if_not_exists then TDB_OK else TDB_ERROR, p, c)
      else put_and_add c p (ser_tablespace name location tdb_buf_init) (cache_add_tablespace c (mk_tablespace name location))
  end.
Definition tablespace_hit (name : list Z) (v : list Z) : option bool :=
  if (blen v <? 2) || negb (row_type v =? CAT_TABLESPACE) then Some false
  else match row_name v with
       | None => None
       | Some (_, n) => Some match n with Some n => strcasecmp n name =? 0 | None => false end
       end.
(** [if (rid) rc = tdb_btree_del(bt, rid, &f)] for the first row selected. *)
Definition del_first (c : tdb_catalog) (p : P) (hit : list Z -> option bool) : option (tdb_status * P) :=
  let bt := cat_tree c p in
  match scan bt p (first_hit hit) (Some None) with
  | Some (p, Some (Some rid)) =>
      if rid =? 0 then Some (TDB_OK, p)
      else match tdb_btree_del ok_alloc depth bt p rid with Some (rc, p, _) => Some (rc, p) | None => None end
  | Some (p, Some None) => Some (TDB_OK, p)
  | _ => None
  end.
Definition tdb_catalog_tablespace_drop (c : tdb_catalog) (p : P) (name : cstring) (if_exists : bool)
  : option (tdb_status * P * tdb_catalog) :=
  match name with
  | None => Some (TDB_MISUSE, p, c)
  | Some n =>
      if existsb (fun s => named (ts_name s) n) (c_tspaces c) then
        match del_first c p (tablespace_hit n) with
        | None => None
        | Some (TDB_OK, p) =>
            Some (TDB_OK, p, mk_catalog (c_root c) (c_tables c) (c_views c) (c_routines c)
                               (remove_first (fun s => named (ts_name s) n) (c_tspaces c)) (c_acl c))
        | Some (rc, p) => Some (rc, p, c)
        end
      else Some (if if_exists then TDB_OK else TDB_ERROR, p, c)
  end.

(** *** Drop *)

(** A row of any type is selected by the string behind its type byte. *)
Definition any_hit (name : list Z) (v : list Z) : option bool :=
  match row_name v with
  | None => None
  | Some (_, n) => Some match n with Some n => strcasecmp n name =? 0 | None => false end
  end.
Definition del_row (c : tdb_catalog) (p : P) (name : list Z) : option (tdb_status * P) := del_first c p (any_hit name).
Definition tdb_catalog_drop_table (c : tdb_catalog) (p : P) (name : list Z) : option (P * tdb_catalog) :=
  match del_row c p name with
  | None => None
  | Some (_, p) =>
      Some (p, mk_catalog (c_root c) (remove_first (fun t => named (tb_name t) name) (c_tables c)) (c_views c) (c_routines c)
                 (c_tspaces c) (c_acl c))
  end.
Definition tdb_catalog_drop_view (c : tdb_catalog) (p : P) (name : list Z) : option (P * tdb_catalog) :=
  match del_row c p name with
  | None => None
  | Some (_, p) =>
      Some (p, mk_catalog (c_root c) (c_tables c) (remove_first (fun v => named (vw_name v) name) (c_views c)) (c_routines c)
                 (c_tspaces c) (c_acl c))
  end.
Definition tdb_catalog_drop_routine (c : tdb_catalog) (p : P) (name : list Z) : option (P * tdb_catalog) :=
  match del_row c p name with
  | None => None
  | Some (_, p) =>
      Some (p, mk_catalog (c_root c) (c_tables c) (c_views c) (remove_first (fun r => named (rt_name r) name) (c_routines c))
                 (c_tspaces c) (c_acl c))
  end.
End Ops.
