(* ===== verification/CatalogScan.v ===== *)
(** * Scans and removals of a table

    What the cursor loops of the catalog and [tdb_btree_del] promise of a
    table that is a map from rowids to values, as an interface, and the proof
    that tables of one leaf page implement it. *)
From stdpp Require Import gmap sorting.
From S2P Require Import Prelude Util Buf Value Record Schema Acl Btree Cursor Txn Catalog BtreePage BtreeStore BtreeLeaf.

(** The body of a scan over rows in order, until it breaks. *)
Fixpoint visit {S} (body : S -> Z -> list Z -> S * bool) (s : S) (rows : list (Z * list Z)) : S :=
  match rows with
  | [] => s
  | (r, v) :: rows => let '(s, stop) := body s r v in if stop then s else visit body s rows
  end.

(** Rows in the order of their rowids. *)
Definition by_rowid (a b : Z * list Z) : Prop := a.1 <= b.1.
#[global] Instance by_rowid_dec a b : Decision (by_rowid a b).
Proof. unfold by_rowid. apply _. Defined.
Definition sorted_rows (m : gmap Z (list Z)) : list (Z * list Z) := merge_sort by_rowid (map_to_list m).

(** [same_tables] up to what may change when a row goes away. *)
Class TableScan (P : Type) `{PagerPages P, TableView P} (depth rounds : nat) : Prop := {
  tv_scan : forall p ts bt S (body : S -> Z -> list Z -> S * bool) s,
    tv_ok p ts -> bt ∈ ts -> (size (tv_rows p bt) < rounds)%nat ->
    exists q, scan depth rounds bt p body s = Some (q, visit body s (sorted_rows (tv_rows p bt))) /\ same_tables p q ts;
  tv_del : forall p ts bt r, tv_ok p ts -> bt ∈ ts -> 0 <= r < 2 ^ 64 ->
    exists q, tdb_btree_del ok_alloc depth bt p r = Some (TDB_OK, q, bool_decide (is_Some (tv_rows p bt !! r))) /\ tv_ok q ts
      /\ tv_rows q bt = delete r (tv_rows p bt)
      /\ (forall bt', bt' ∈ ts -> bt' <> bt -> tv_rows q bt' = tv_rows p bt')
      /\ (forall bt' r' v', bt' ∈ ts -> bt' <> bt -> tv_fits p bt' r' v' -> tv_fits q bt' r' v') }.

(** ** Sorted lists of rows *)

Definition rows_lt (rows : list (Z * list Z)) : Prop := StronglySorted Z.lt rows.*1.
Lemma rows_lt_sorted rows : rows_lt rows -> Sorted by_rowid rows.
Proof.
  unfold rows_lt. intros H. apply StronglySorted_Sorted. induction rows as [|x rows IH]; [constructor|]. cbn in H. apply StronglySorted_inv in H as [H1 H2].
  constructor; [by apply IH|]. apply Forall_forall. intros y Hy. rewrite Forall_forall in H2. unfold by_rowid.
  assert (x.1 < y.1); [|lia]. apply H2, list_elem_of_fmap. by exists y.
Qed.
Lemma rows_lt_nodup rows : rows_lt rows -> NoDup rows.*1.
Proof. apply sorted_nodup. Qed.
(** The order of rows is antisymmetric on the rows of a map. *)
Lemma sorted_rows_of rows : rows_lt rows -> sorted_rows (list_to_map rows) = rows.
Proof.
  intros Hr. unfold sorted_rows. pose proof (rows_lt_nodup rows Hr) as Hnd.
  assert (map_to_list (list_to_map rows : gmap Z (list Z)) ≡ₚ rows) as Hp by (by apply map_to_list_to_map).
  assert (merge_sort by_rowid (map_to_list (list_to_map rows : gmap Z (list Z))) ≡ₚ rows) as Hp2 by (by rewrite merge_sort_Permutation).
  assert (StronglySorted by_rowid (merge_sort by_rowid (map_to_list (list_to_map rows : gmap Z (list Z))))) as Hs
    by (apply StronglySorted_merge_sort; [intros a b c; unfold by_rowid; lia|intros a b; unfold by_rowid; lia]).
  revert Hp2 Hs. generalize (merge_sort by_rowid (map_to_list (list_to_map rows : gmap Z (list Z)))). clear Hp.
  intros l Hp Hs. revert l Hp Hs. induction rows as [|x rows IH]; intros l Hp Hs.
  - by apply Permutation_nil_r in Hp.
  - destruct l as [|y l]; [by apply Permutation_nil_cons in Hp|]. unfold rows_lt in Hr. cbn in Hr, Hnd. apply StronglySorted_inv in Hr as [H1 H2].
    apply NoDup_cons in Hnd as [Hn Hnd]. apply StronglySorted_inv in Hs as [H3 H4]. rewrite Forall_forall in H2. rewrite Forall_forall in H4.
    assert (y = x) as ->.
    { assert (y ∈ x :: rows) as Hy by (rewrite <- Hp; apply elem_of_cons; by left). apply elem_of_cons in Hy as [->|Hy]; [done|].
      assert (x ∈ y :: l) as Hx by (rewrite Hp; apply elem_of_cons; by left). apply elem_of_cons in Hx as [->|Hx]; [done|].
      assert (x.1 < y.1) by (apply H2, list_elem_of_fmap; by exists y). specialize (H4 x Hx). unfold by_rowid in H4. lia. }
    f_equal. apply IH; [done|done|by apply Permutation_cons_inv in Hp|done].
Qed.

(** ** Tables of one leaf implement it *)

Section Leaf.
Context {P : Type} `{PageStore P}.
#[local] Abbreviation rows_at p bt := (rows_of (pp_page_size p) (st_view p (bt_root bt))).

(** A cursor on row [i] of the leaf [g], which is pinned. *)
Record cur_on (c : tdb_cursor) (g : Z) (i : nat) : Prop := {
  co_eof : cur_eof c = false;
  co_leaf : cur_leaf c = Some g;
  co_depth : cur_depth c = 0;
  co_idx : cidx_at c 0 = Z.of_nat i;
  co_room : (0 < length (cur_cidx c))%nat }.

Lemma cur_on_row p q live bt c i r v :
  st_ok q live -> same_store p q live -> one_leaf p bt -> cur_on c (bt_root bt) i -> st_pinned q (bt_root bt) ->
  rows_at p bt !! i = Some (r, v) ->
  tdb_cursor_data ok_alloc bt q c = (TDB_OK, q, c, v) /\ (tdb_cursor_rowid bt q c).2 = r.
Proof using All.
  intros Hq (_ & Hv & _ & Hs) [Ebt Hl] [C1 C2 C3 C4 C5] Hpin Hi.
  assert (pp_data q (bt_root bt) = st_view p (bt_root bt)) as Ed by (by rewrite (st_data q live _ Hq Hpin), Hv).
  destruct (leaf_read _ _ _ _ _ _ Hl Hi) as (off & Er & Hb).
  assert (cur_cell bt q c = Some (st_view p (bt_root bt), mk_leafcell (rowid_to_key r) 8 off (blen v) (blen v) 0)) as Ec.
  { unfold cur_cell. rewrite C1, C2, Ed, C3, C4. replace (bt_ps bt) with (pp_page_size p) by (by rewrite Ebt). by rewrite Er. }
  unfold tdb_cursor_data, tdb_cursor_rowid, tdb_cursor_key. rewrite Ec. cbn [lc_ovfl lc_lval_off lc_vlen lc_key Z.eqb]. rewrite Hb.
  split; [done|]. cbn [snd]. apply key_of_rowid. by apply (proj1 (Forall_lookup _ _) (lr_local _ _ _ Hl) _ _ Hi).
Qed.
Lemma cur_on_ncell p q live bt c i :
  st_ok q live -> same_store p q live -> one_leaf p bt -> cur_on c (bt_root bt) i -> st_pinned q (bt_root bt) ->
  leaf_ncell q c = Z.of_nat (length (rows_at p bt)).
Proof using All.
  intros Hq (_ & Hv & _ & Hs) [Ebt Hl] [C1 C2 C3 C4 C5] Hpin. unfold leaf_ncell. rewrite C2, (st_data q live _ Hq Hpin), Hv.
  rewrite (pr_n _ _ _ (lr_page _ _ _ Hl)). unfold row_cells. by rewrite length_fmap.
Qed.
Lemma close_same p q c live : same_store p q live -> same_store p (tdb_cursor_close q c) live.
Proof using All.
  intros Hs. unfold tdb_cursor_close, unpin. destruct (cur_leaf c); [|done]. eapply same_store_trans; [exact Hs|]. apply st_unref, Hs.
Qed.
(** Past the last row of the only leaf. *)
Lemma leaf_end depth q c g live p :
  same_store p q live -> cur_leaf c = Some g -> cur_depth c = 0 ->
  exists q' c', next_leaf depth q c = Some (TDB_OK, q', c') /\ same_store p q' live /\ cur_eof c' = true.
Proof using All.
  intros Hs Hl Hd. unfold next_leaf, unpin. rewrite Hl. cbn [cset_leaf cur_depth]. rewrite Hd. cbn [Z.to_nat climb_next].
  eexists _, _. split; [done|]. split; [|done]. eapply same_store_trans; [exact Hs|]. apply st_unref, Hs.
Qed.
Lemma skip_empty_eof n step q c : (0 < n)%nat -> cur_eof c = true -> skip_empty n step q c = Some (TDB_OK, q, c).
Proof using Type. destruct n as [|n]; [lia|]. intros _ He. cbn [skip_empty]. by rewrite He. Qed.

Lemma leaf_scan_loop {A} depth p live bt (body : A -> Z -> list Z -> A * bool) :
  (0 < depth)%nat -> one_leaf p bt -> forall n q c i s,
  same_store p q live -> cur_on c (bt_root bt) i -> st_pinned q (bt_root bt) -> (i < length (rows_at p bt))%nat ->
  (length (rows_at p bt) - i < n)%nat ->
  exists q' c', scan_loop depth n bt q c body s = Some (q', c', visit body s (drop i (rows_at p bt)))
    /\ same_store p (tdb_cursor_close q' c') live.
Proof using All.
  intros Hd Ho n. induction n as [|n IH]; intros q c i s Hs Hc Hpin Hi Hn; [lia|].
  destruct (lookup_lt_is_Some_2 (rows_at p bt) i Hi) as [[r v] Hrow]. pose proof Hs as (Hq & _).
  destruct (cur_on_row p q live bt c i r v Hq Hs Ho Hc Hpin Hrow) as [Ed Er]. cbn [scan_loop]. unfold tdb_cursor_eof. rewrite (co_eof _ _ _ Hc), Ed, Er.
  rewrite (drop_S _ _ _ Hrow). cbn [visit]. destruct (body s r v) as [s' [|]].
  { eexists _, _. split; [done|]. by apply close_same. }
  pose proof (cur_on_ncell p q live bt c i Hq Hs Ho Hc Hpin) as En. destruct Hc as [C1 C2 C3 C4 C5].
  unfold tdb_cursor_next. rewrite C1, C2, C3. cbn [orb]. set (c' := cset_cidx c 0 (cidx_at c 0 + 1)).
  assert (cidx_at c' 0 = Z.of_nat (S i)) as Ei.
  { unfold c', cidx_at, cset_cidx. cbn [cur_cidx]. destruct (cur_cidx c) as [|x l] eqn:El; [cbn in C5; lia|]. unfold cidx_at in C4. rewrite El in C4.
    change (x = Z.of_nat i) in C4. change (x + 1 = Z.of_nat (S i)). lia. }
  assert (leaf_ncell q c' = Z.of_nat (length (rows_at p bt))) as En' by exact En.
  change (cur_depth c') with (cur_depth c). rewrite C3, Ei, En'. destruct (Z.ltb_spec (Z.of_nat (S i)) (Z.of_nat (length (rows_at p bt)))) as [Hlt|Hge].
  - apply IH; [done| |done|lia|lia]. split; try done. unfold c', cset_cidx. cbn [cur_cidx]. rewrite length_insert. lia.
  - destruct (leaf_end depth q c' (bt_root bt) live p Hs C2 C3) as (q' & c2 & -> & Hs' & He). rewrite skip_empty_eof by done.
    destruct n as [|n]; [lia|]. cbn [scan_loop]. unfold tdb_cursor_eof. rewrite He. eexists _, _. split; [|by apply close_same].
    rewrite drop_ge by lia. done.
Qed.
Lemma leaf_scan {A} depth rounds p live bt (body : A -> Z -> list Z -> A * bool) s :
  (1 < depth)%nat -> st_ok p live -> bt_root bt ∈ live -> one_leaf p bt -> (length (rows_at p bt) < rounds)%nat ->
  exists q, scan depth rounds bt p body s = Some (q, visit body s (rows_at p bt)) /\ same_store p q live.
Proof using All.
  intros Hd Hp Hin Ho Hr. pose proof Ho as [Ebt Hl].
  destruct depth as [|depth]; [lia|]. destruct (st_get p live (bt_root bt) Hp Hin) as (p1 & E1 & Hs1 & Hpin).
  pose proof Hs1 as (Hp1 & Hv1 & _ & Ps1). destruct (lr_leaf _ _ _ Hl) as [El _].
  assert (pp_data p1 (bt_root bt) = st_view p (bt_root bt)) as Ed by (by rewrite (st_data p1 live (bt_root bt) Hp1 Hpin)).
  unfold scan. rewrite cursor_open_fresh by done. unfold tdb_cursor_first. change (unpin p fresh_cursor) with (p, fresh_cursor). cbn iota beta.
  cbn [descend_leftmost]. rewrite E1, Ed, El. set (c := cset_leaf (cset_level fresh_cursor 0 (bt_root bt) 0) 0 (Some (bt_root bt)) false).
  assert (cur_on c (bt_root bt) 0) as Hc by (split; first [reflexivity|apply Nat.ltb_lt; reflexivity]).
  pose proof (cur_on_ncell p p1 live bt c 0 Hp1 Hs1 Ho Hc Hpin) as En. cbn [skip_empty]. change (cur_eof c) with false. cbn [negb andb]. rewrite En.
  destruct (rows_at p bt) as [|x rows] eqn:Er.
  - change (Z.of_nat (length (@nil row)) =? 0) with true. cbn iota.
    destruct (leaf_end (S depth) p1 c (bt_root bt) live p Hs1 eq_refl eq_refl) as (q & c2 & -> & Hs & He). destruct depth as [|depth]; [lia|].
    rewrite skip_empty_eof by (done || lia). rewrite He. cbn [negb andb]. destruct rounds as [|rounds]; [cbn in Hr; lia|]. cbn [scan_loop].
    unfold tdb_cursor_eof. rewrite He. eexists. split; [done|]. by apply close_same.
  - destruct (Z.eqb_spec (Z.of_nat (length (x :: rows))) 0) as [He|_]; [cbn in He; lia|]. cbn iota. rewrite En. change (cur_eof c) with false.
    change (cidx_at c (cur_depth c)) with 0. destruct (Z.leb_spec (Z.of_nat (length (x :: rows))) 0) as [He|_]; [cbn in He; lia|]. cbn [negb andb].
    destruct (leaf_scan_loop (S depth) p live bt body ltac:(lia) Ho rounds p1 c 0 s) as (q & c' & -> & Hs); try done.
    { rewrite Er. cbn. lia. }
    { rewrite Er. lia. }
    eexists. split; [rewrite Er; done|done].
Qed.

(** *** Removal *)

Lemma rows_lt_delete rows i : rows_lt rows -> rows_lt (delete i rows).
Proof using Type.
  unfold rows_lt. rewrite list_fmap_delete. generalize rows.*1. clear rows. intros l Hs. revert i. induction Hs as [|x l Hs IH Hx]; intros [|i]; cbn; try constructor; try done.
  rewrite Forall_forall in *. intros y Hy. apply Hx. by eapply list_elem_of_delete_inv.
Qed.
Lemma rows_delete_map rows i r v :
  rows_lt rows -> rows !! i = Some (r, v) -> (list_to_map (delete i rows) : gmap Z (list Z)) = delete r (list_to_map rows).
Proof using Type.
  intros Hs. pose proof (rows_lt_nodup rows Hs) as Hnd. clear Hs. revert i. induction rows as [|[x w] rows IH]; intros [|i] Hi; try done;
    cbn [fmap list_fmap fst] in Hnd; apply NoDup_cons in Hnd as [Hn Hnd].
  - injection Hi as -> ->. rewrite list_to_map_cons, delete_insert_id; [done|]. by apply not_elem_of_list_to_map_1.
  - change (delete (S i) ((x, w) :: rows)) with ((x, w) :: delete i rows). rewrite !list_to_map_cons, (IH Hnd i Hi), delete_insert_ne; [done|].
    intros ->. apply Hn, list_elem_of_fmap. exists (x, v). split; [done|]. by eapply list_elem_of_lookup_2.
Qed.
Lemma leaf_del_tree depth p live bt r :
  (0 < depth)%nat -> st_ok p live -> bt_root bt ∈ live -> one_leaf p bt -> 0 <= r < 2 ^ 64 ->
  exists q d, tdb_btree_del ok_alloc depth bt p r = Some (TDB_OK, q, bool_decide (is_Some (tv_rows p bt !! r))) /\ st_ok q live
    /\ pp_page_size q = pp_page_size p
    /\ leaf_rows (pp_page_size p) d (rows_of (pp_page_size p) d)
    /\ (list_to_map (rows_of (pp_page_size p) d) : gmap Z (list Z)) = delete r (tv_rows p bt)
    /\ forall g, st_view q g = if g =? bt_root bt then d else st_view p g.
Proof using All.
  intros Hd Hp Hin [Ebt Hl] Hr. cbn [tv_rows leaf_tables] in *. pose proof (st_ps p live Hp) as Hps. destruct depth as [|depth]; [lia|].
  assert (bt_ps bt = pp_page_size p) as Eps by (by rewrite Ebt). assert (bt_kind bt = TDB_BT_TABLE) as Ek by (by rewrite Ebt).
  destruct (st_get p live (bt_root bt) Hp Hin) as (p1 & E1 & (Hp1 & Hv1 & _ & Ps1) & Hpin). destruct (lr_leaf _ _ _ Hl) as [El _].
  assert (pp_data p1 (bt_root bt) = st_view p (bt_root bt)) as Ed by (by rewrite (st_data p1 live _ Hp1 Hpin)).
  assert (pg_find ok_alloc bt (st_view p (bt_root bt)) (rowid_to_key r) = (Z.of_nat (pos (rows_at p bt) r), bool_decide (r ∈ (rows_at p bt).*1))) as Ef
    by (apply leaf_find; rewrite ?Eps; done).
  pose proof (rows_find _ r (lr_sorted _ _ _ Hl)) as Hf. unfold tdb_btree_del, tdb_btree_remove. cbn [remove_loop]. rewrite E1, Ed, Ef, El.
  destruct (bool_decide (r ∈ (rows_at p bt).*1)).
  - destruct Hf as (v & Hv & Em). destruct (leaf_read _ _ _ _ _ _ Hl Hv) as (off & Er & _). rewrite Eps, Er. cbn [lc_ovfl Z.eqb negb]. rewrite Ed.
    destruct (delete_cell_ok _ _ (row_cells (rows_at p bt)) (pos (rows_at p bt) r) (row_cell r v) (lr_page _ _ _ Hl)) as [D1 D2].
    { unfold row_cells. by rewrite list_lookup_fmap, Hv. }
    set (d := delete_cell _ _) in *. assert (leaf_rows (pp_page_size p) d (delete (pos (rows_at p bt) r) (rows_at p bt))) as Hd'.
    { split.
      - unfold row_cells in *. by rewrite list_fmap_delete.
      - unfold pg_type. rewrite <- (lr_type _ _ _ Hl). destruct D2 as [[_ Hk] _]. rewrite Hk by (unfold TDB_BT_TYPE; lia). done.
      - apply rows_lt_delete, (lr_sorted _ _ _ Hl).
      - rewrite Forall_forall. intros x Hx. pose proof (lr_local _ _ _ Hl) as Hfa. rewrite Forall_forall in Hfa. apply Hfa. by eapply list_elem_of_delete_inv. }
    destruct (st_write p1 live (bt_root bt) d Hp1 Hin Hpin) as (rc & q & Ew & Hq & _ & Hsq & Hvq); [rewrite Ps1; apply (pr_len _ _ _ (lr_page _ _ _ Hd'))|].
    destruct (st_unref q live (bt_root bt) Hq) as (Hq' & Hv' & _ & Hs'). rewrite Ew. exists (pp_unref q (bt_root bt)), d. rewrite Em. split; [done|].
    split; [done|]. split; [congruence|]. rewrite (rows_of_leaf _ _ _ Hd'). split; [done|].
    split; [by apply (rows_delete_map _ _ r v); [apply (lr_sorted _ _ _ Hl)|]|].
    intros g'. rewrite Hv', Hvq. destruct (g' =? bt_root bt); [done|apply Hv1].
  - destruct Hf as [Em _]. destruct (st_unref p1 live (bt_root bt) Hp1) as (Hq' & Hv' & _ & Hs'). exists (pp_unref p1 (bt_root bt)), (st_view p (bt_root bt)).
    rewrite Em. split; [done|]. split; [done|]. split; [congruence|]. split; [done|]. split; [by rewrite delete_id|].
    intros g'. rewrite Hv', Hv1. by destruct (Z.eqb_spec g' (bt_root bt)) as [->|].
Qed.

Lemma leaf_table_scan depth rounds : (1 < depth)%nat -> TableScan P depth rounds.
Proof using All.
  intros Hd. split.
  - intros p ts bt S body s (live & Hp & Hnd & Hts) Hbt Hsz. destruct (Hts bt Hbt) as [Hin Ho]. pose proof Ho as [Ebt Hl].
    pose proof (lr_sorted _ _ _ Hl : rows_lt _) as Hlt. cbn [tv_rows leaf_tables] in *. rewrite sorted_rows_of by done.
    assert (size (list_to_map (rows_at p bt) : gmap Z (list Z)) = length (rows_at p bt)) as Es
      by (rewrite <- length_map_to_list; apply Permutation_length, map_to_list_to_map, rows_lt_nodup, Hlt).
    destruct (leaf_scan depth rounds p live bt body s Hd Hp Hin Ho) as (q & E & Hs); [lia|]. exists q. split; [done|]. by eapply same_store_tables.
  - intros p ts bt r (live & Hp & Hnd & Hts) Hbt Hr. destruct (Hts bt Hbt) as [Hin Ho].
    destruct (leaf_del_tree depth p live bt r ltac:(lia) Hp Hin Ho Hr) as (q & d & E & Hq & Hs & Hl & Hm & Hv).
    assert (forall bt', bt' ∈ ts -> bt_root bt' = bt_root bt -> bt' = bt) as Hroot.
    { intros bt' Hbt' Er. destruct (Hts bt' Hbt') as (_ & -> & _), Ho as [-> _]. cbn in Er. by rewrite Er. }
    assert (forall bt', bt' ∈ ts -> bt' <> bt -> st_view q (bt_root bt') = st_view p (bt_root bt')) as Hother.
    { intros bt' Hbt' Hne. rewrite Hv. destruct (Z.eqb_spec (bt_root bt') (bt_root bt)); [|done]. exfalso. by apply Hne, Hroot. }
    exists q. split; [done|]. split; [|split; [|split]].
    + exists live. split; [done|]. split; [done|]. intros bt' Hbt'. destruct (Hts bt' Hbt') as [Hin' Ho']. split; [done|].
      destruct (Z.eq_dec (bt_root bt') (bt_root bt)) as [Eq|Hne]; [apply Hroot in Eq as ->; [|done]|].
      * split; [rewrite Hs; apply Ho|]. by rewrite Hs, Hv, Z.eqb_refl.
      * unfold one_leaf. rewrite Hother, Hs by (done || by intros ->). done.
    + cbn. by rewrite Hs, Hv, Z.eqb_refl.
    + intros bt' Hbt' Hne. cbn. by rewrite Hother, Hs.
    + intros bt' r' v' Hbt' Hne. cbn. by rewrite Hother, Hs.
Qed.
End Leaf.
