(* ===== verification/CatalogSpec.v ===== *)
(** * Properties of the catalog

    The stored form of an object is read back; on a tree that keeps its rows
    as a map the catalog implements a list of objects, and opening it again
    gives the cache its operations left. *)
From stdpp Require Import gmap sorting.
From S2P Require Import Prelude Util Buf Value Record Schema Acl Btree Cursor Txn Catalog BtreePage BtreeStore BtreeLeaf CatalogScan.

(** ** Writing *)

(** [f] appends the bytes [bs]. *)
Definition writes (f : tdb_buf -> tdb_buf) (bs : list Z) : Prop :=
  forall b, buf_wf b -> b_len b + blen bs + 10 <= 2 ^ 63 -> buf_wf (f b) /\ b_data (f b) = b_data b ++ bs.

Lemma writes_then f g x y : writes f x -> writes g y -> writes (fun b => g (f b)) (x ++ y).
Proof.
  intros Hf Hg b Hb Hl. pose proof (blen_nonneg x). pose proof (blen_nonneg y). rewrite blen_app in Hl.
  destruct (Hf b Hb ltac:(lia)) as [H1 E1]. destruct (Hg (f b) H1) as [H2 E2].
  - unfold b_len in *. rewrite E1, blen_app. lia.
  - split; [done|]. by rewrite E2, E1, app_assoc.
Qed.
Lemma writes_list {A} (w : A -> tdb_buf -> tdb_buf) (bs : A -> list Z) l :
  (forall x, writes (w x) (bs x)) -> writes (w_list w l) (concat (map bs l)).
Proof.
  intros Hw. unfold w_list. induction l as [|x l IH]; cbn [fold_left map concat].
  - intros b Hb _. split; [done|]. by rewrite app_nil_r.
  - apply (writes_then (w x) (fun b => fold_left (fun b x => w x b) l b)); [apply Hw|apply IH].
Qed.
Lemma writes_add f bs :
  (forall b, buf_wf b -> b_len b + blen bs + 10 <= 2 ^ 63 -> buf_adds ok_alloc b bs (f b)) -> writes (fun b => (f b).2) bs.
Proof. intros H b Hb Hl. destruct (H b Hb Hl) as [(_ & E & Hw)|(_ & _ & n & Hn)]; done. Qed.

Definition u8_bytes (v : Z) : list Z := [u8 v].
Definition var_bytes (v : Z) : list Z := tdb_put_varint (u64 v).
Definition cstr_bytes (s : cstring) : list Z :=
  match s with None => var_bytes 0 | Some s => var_bytes (strlen s + 1) ++ cstr s end.
Lemma w_u8_writes v : writes (w_u8 v) (u8_bytes v).
Proof. apply writes_add. intros b Hb Hl. apply buf_putc_adds; [done|]. change (blen (u8_bytes v)) with 1 in Hl. lia. Qed.
Lemma w_u32_writes v : writes (w_u32 v) (tdb_put_u32 v).
Proof. apply writes_add. intros b Hb Hl. apply buf_append_adds; [done|lia]. Qed.
Lemma w_var_writes v : writes (w_var v) (var_bytes v).
Proof.
  apply (writes_add (fun b => tdb_buf_put_varint ok_alloc b (u64 v))). intros b Hb Hl. pose proof (u64_range v).
  pose proof (put_varint_len (u64 v) ltac:(lia)). apply buf_put_varint_adds; [done| |lia]. pose proof (blen_nonneg (var_bytes v)). lia.
Qed.
Lemma w_str_writes s : writes (w_str s) (cstr_bytes s).
Proof.
  destruct s as [s|]; [|apply w_var_writes]. eapply (writes_then (w_var (strlen s + 1)) (fun b => (tdb_buf_append ok_alloc b (cstr s)).2)).
  - apply w_var_writes.
  - apply writes_add. intros b Hb Hl. apply buf_append_adds; [done|lia].
Qed.
(** One writer, chosen by its name. *)
Ltac writes_one :=
  idtac; lazymatch goal with
  | |- writes (w_u8 _) _ => apply w_u8_writes
  | |- writes (w_u32 _) _ => apply w_u32_writes
  | |- writes (w_var _) _ => apply w_var_writes
  | |- writes (w_str _) _ => apply w_str_writes
  | |- writes (w_list w_u32 _) _ => apply writes_list, w_u32_writes
  | |- writes (w_list w_str _) _ => apply writes_list, w_str_writes
  end.
(** A chain of writers. *)
Ltac writes_chain one := cbv zeta; repeat first [one | eapply writes_then; [|one]].
Lemma writes_eq f x y : writes f x -> x = y -> writes f y.
Proof. by intros H <-. Qed.

(** ** Reading *)

Record rd_at (r : rd) (bs : list Z) : Prop := mk_rd_at {
  ra_err : rd_err r = false;
  ra_len : rd_len r = blen (rd_p r);
  ra_max : rd_len r < 2 ^ 31;
  ra_pos : 0 <= rd_pos r <= rd_len r;
  ra_bytes : bfrom (rd_p r) (rd_pos r) = bs }.
(** [m] takes exactly the bytes [bs] and gives [x]. *)
Definition rreads {A} (m : R A) (bs : list Z) (x : A) : Prop :=
  forall r rest, rd_at r (bs ++ rest) -> exists r', m r = Some (r', x) /\ rd_at r' rest.

Lemma rd_at_move r bs rest : rd_at r (bs ++ rest) -> rd_at (rd_move r (rd_pos r + blen bs)) rest.
Proof.
  intros [He Hl Hm Hp Hb]. pose proof (blen_nonneg bs). pose proof (blen_nonneg rest).
  pose proof (blen_bfrom (rd_p r) (rd_pos r) ltac:(lia)) as H1. rewrite Hb, blen_app in H1.
  split; cbn [rd_move rd_err rd_len rd_p rd_pos]; [done|done|done|lia|]. rewrite <- bfrom_bfrom by lia. rewrite Hb. by apply bfrom_app.
Qed.
Lemma rd_at_left r bs : rd_at r bs -> rd_len r - rd_pos r = blen bs.
Proof. intros [He Hl Hm Hp Hb]. rewrite <- Hb, blen_bfrom by lia. lia. Qed.
Lemma rreads_ret {A} (x : A) : rreads (mret x) [] x.
Proof. intros r rest H. by exists r. Qed.
Lemma rreads_bind {A B} (m : R A) (k : A -> R B) b1 b2 x y :
  rreads m b1 x -> rreads (k x) b2 y -> rreads (m ≫= k) (b1 ++ b2) y.
Proof.
  intros Hm Hk r rest H. rewrite <- app_assoc in H. destruct (Hm r _ H) as (r1 & E1 & H1). destruct (Hk r1 _ H1) as (r2 & E2 & H2).
  exists r2. split; [|done]. unfold mbind, R_bind. by rewrite E1.
Qed.
Lemma rreads_eq {A} (m : R A) bs x y : rreads m bs x -> x = y -> rreads m bs y.
Proof. by intros H <-. Qed.
Lemma rreads_last {A B} (m : R A) (f : A -> B) bs x : rreads m bs x -> rreads (y ← m; mret (f y)) bs (f x).
Proof. intros H. rewrite <- (app_nil_r bs). eapply rreads_bind; [exact H|apply rreads_ret]. Qed.
Lemma rreads_err {B} (k : bool -> R B) bs y : rreads (k false) bs y -> rreads (r_err ≫= k) bs y.
Proof. intros H r rest Hr. unfold mbind, R_bind, r_err. rewrite (ra_err _ _ Hr). by apply H. Qed.
Lemma rreads_more {B} (k : bool -> R B) bs y : 0 < blen bs -> rreads (k true) bs y -> rreads (r_more ≫= k) bs y.
Proof.
  intros Hb H r rest Hr. unfold mbind, R_bind, r_more. pose proof (rd_at_left _ _ Hr) as Hl. rewrite blen_app in Hl. pose proof (blen_nonneg rest).
  rewrite (ra_err _ _ Hr), (proj2 (Z.ltb_lt (rd_pos r) (rd_len r))) by lia. by apply H.
Qed.

Lemma var_bytes_len v : 0 < blen (var_bytes v).
Proof. pose proof (u64_range v). pose proof (put_varint_len (u64 v) ltac:(lia)). unfold var_bytes. lia. Qed.
Lemma r_var_reads v : rreads r_var (var_bytes v) (u64 v).
Proof.
  intros r rest H. exists (rd_move r (rd_pos r + blen (var_bytes v))). split; [|by apply rd_at_move]. unfold r_var.
  pose proof (rd_at_left _ _ H) as Hl. rewrite blen_app in Hl. pose proof (blen_nonneg rest). pose proof (u64_range v).
  rewrite (ra_bytes _ _ H). unfold var_bytes in *. by rewrite get_put_varint by lia.
Qed.
Lemma s32_u64 v : s32 (u64 v) = s32 v.
Proof. unfold s32, u64. pose proof (Z.div_mod v 18446744073709551616 ltac:(lia)). f_equal. Z.div_mod_to_equations. lia. Qed.
Lemma r_int_reads v : -2147483648 <= v < 2147483648 -> rreads r_int (var_bytes v) v.
Proof.
  intros Hv. pose proof (rreads_last r_var s32 _ _ (r_var_reads v)) as H. by rewrite s32_u64, s32_small in H by lia.
Qed.
Lemma r_count_reads n : Z.of_nat n < 2 ^ 31 -> rreads r_int (var_bytes (Z.of_nat n)) (Z.of_nat n).
Proof. intros H. apply r_int_reads. lia. Qed.
Lemma r_u32_reads v : 0 <= v < 2 ^ 32 -> rreads r_u32 (tdb_put_u32 v) v.
Proof.
  intros Hv r rest H. exists (rd_move r (rd_pos r + 4)). split; [|by apply (rd_at_move r (tdb_put_u32 v))].
  unfold r_u32. pose proof (rd_at_left _ _ H) as Hl. rewrite blen_app in Hl. change (blen (tdb_put_u32 v)) with 4 in Hl.
  pose proof (blen_nonneg rest). destruct (Z.ltb_spec (rd_len r) (rd_pos r + 4)); [lia|].
  rewrite (ra_bytes _ _ H), get_put_u32, u32_small by lia. done.
Qed.
Lemma r_u8_reads v : 0 <= v < 256 -> rreads r_u8 (u8_bytes v) v.
Proof.
  intros Hv r rest H. exists (rd_move r (rd_pos r + 1)). split; [|by apply (rd_at_move r (u8_bytes v))].
  unfold r_u8. pose proof (rd_at_left _ _ H) as Hl. rewrite blen_app in Hl. change (blen (u8_bytes v)) with 1 in Hl.
  pose proof (blen_nonneg rest). destruct (Z.leb_spec (rd_len r) (rd_pos r)); [lia|]. do 2 f_equal.
  pose proof (ra_bytes _ _ H) as Hb. pose proof (ra_pos _ _ H). rewrite <- (Z.add_0_r (rd_pos r)), <- bget_bfrom by lia. rewrite Hb. cbn.
  by apply u8_small.
Qed.
Lemma r_bytes_reads s : nul_free s -> rreads (r_bytes (blen s)) s (Some s).
Proof.
  intros Hs r rest H. exists (rd_move r (rd_pos r + blen s)). split; [|by apply rd_at_move].
  unfold r_bytes. pose proof (rd_at_left _ _ H) as Hl. rewrite blen_app in Hl. pose proof (blen_nonneg rest). pose proof (blen_nonneg s).
  destruct (Z.ltb_spec (rd_len r) (rd_pos r + blen s)); [lia|]. destruct (Z.ltb_spec (blen s) 0); [lia|].
  pose proof (ra_bytes _ _ H) as Hb. unfold bfrom in Hb. unfold bsub. rewrite Hb. unfold blen. rewrite Nat2Z.id, take_app_length.
  by rewrite cstr_nul_free.
Qed.
Lemma r_str_reads s : str_ok s -> slen s < 2 ^ 31 - 1 -> rreads r_str (cstr_bytes s) s.
Proof.
  intros Hs Hl. unfold r_str, cstr_bytes. pose proof (slen_nonneg s). destruct s as [s|]; cbn [str_ok slen] in *.
  - unfold strlen. rewrite cstr_nul_free by done. eapply rreads_bind; [apply r_var_reads|]. rewrite u64_small by lia.
    destruct (Z.eqb_spec (blen s + 1) 0); [lia|]. replace (blen s + 1 - 1) with (blen s) by lia. rewrite s32_small by lia. by apply r_bytes_reads.
  - rewrite <- (app_nil_r (var_bytes 0)). eapply rreads_bind; [apply r_var_reads|]. apply rreads_ret.
Qed.
Lemma code_range {A} `{EqDecision A} (l : list A) x : 0 <= code l x <= Z.of_nat (length l).
Proof. induction l as [|y l IH]; cbn; [lia|]. destruct (decide (x = y)); lia. Qed.
Lemma of_code_code {A} `{EqDecision A} (l : list A) x : x ∈ l -> of_code l (code l x) = Some x.
Proof.
  unfold of_code. pose proof (code_range l x) as Hr. destruct (Z.ltb_spec (code l x) 0); [lia|]. clear.
  induction l as [|y l IH]; [by intros []%not_elem_of_nil|]. intros Hx. cbn [code]. destruct (decide (x = y)) as [->|Hn]; [done|].
  apply elem_of_cons in Hx as [->|Hx]; [done|]. pose proof (code_range l x). rewrite Z2Nat.inj_add by lia. by apply IH.
Qed.
Lemma r_enum_reads {A} `{EqDecision A} (l : list A) x : x ∈ l -> Z.of_nat (length l) < 256 -> rreads (r_enum l) (u8_bytes (code l x)) x.
Proof.
  intros Hx Hl. rewrite <- (app_nil_r (u8_bytes _)). pose proof (code_range l x). eapply rreads_bind; [apply r_u8_reads; lia|].
  rewrite of_code_code by done. apply rreads_ret.
Qed.
Lemma r_bool_reads b : rreads r_bool (u8_bytes (of_bool b)) b.
Proof.
  pose proof (rreads_last r_u8 to_bool _ _ (r_u8_reads (of_bool b) ltac:(destruct b; cbn; lia))) as H. by destruct b.
Qed.
Lemma r_times_reads {A} (item : R A) (bs : A -> list Z) l :
  Forall (fun x => rreads item (bs x) x) l -> rreads (r_times (length l) item) (concat (map bs l)) l.
Proof.
  induction 1 as [|x l Hx Hl IH]; cbn [length r_times map concat]; [apply rreads_ret|].
  eapply rreads_bind; [exact Hx|]. by apply (rreads_last _ (cons x)).
Qed.
Lemma r_times_ok_reads {A} (item : R A) (bs : A -> list Z) l :
  Forall (fun x => rreads item (bs x) x) l -> rreads (r_times_ok (length l) item) (concat (map bs l)) l.
Proof.
  induction 1 as [|x l Hx Hl IH]; cbn [length r_times_ok map concat]; [apply rreads_ret|]. apply rreads_err. cbn iota.
  eapply rreads_bind; [exact Hx|]. by apply (rreads_last _ (cons x)).
Qed.

(** ** Round trips *)

Definition s_ok (s : cstring) : Prop := str_ok s /\ slen s < 2 ^ 31 - 1.
Definition int_ok (v : Z) : Prop := -2147483648 <= v < 2147483648.
Definition page_ok (v : Z) : Prop := 0 <= v < 2 ^ 32.
Definition count_ok {A} (l : list A) : Prop := Z.of_nat (length l) < 2 ^ 31.

(** What the storage form of a column keeps: no NULL name, no references. *)
Record column_ok (c : tdb_column) : Prop := {
  co_name : s_ok (col_name c) /\ col_name c <> None;
  co_length : int_ok (ty_length (col_type c));
  co_precision : int_ok (ty_precision (col_type c));
  co_scale : int_ok (ty_scale (col_type c));
  co_default : s_ok (col_default_sql c);
  co_check : s_ok (col_check_sql c);
  co_generated : s_ok (col_generated_sql c);
  co_lua : s_ok (col_lua_compute c);
  co_refs : col_refs c = [] }.
Record index_ok (ix : tdb_index) : Prop := {
  io_name : s_ok (ix_name ix);
  io_root : page_ok (ix_root ix);
  io_cols : Forall int_ok (ix_col_idx ix) /\ count_ok (ix_col_idx ix);
  io_desc : match ix_col_idx ix with
            | [] => ix_desc ix = None
            | _ => exists d, ix_desc ix = Some d /\ length d = length (ix_col_idx ix)
            end }.
(** Foreign keys and former column layouts are not stored. *)
Record table_ok (t : tdb_table) : Prop := {
  to_name : s_ok (tb_name t) /\ tb_name t <> None;
  to_pages : page_ok (tb_root t) /\ page_ok (tb_history_root t) /\ page_ok (tb_schema_version t);
  to_period : int_ok (tb_row_start_col t + 1) /\ int_ok (tb_row_start_col t) /\ int_ok (tb_row_end_col t + 1) /\ int_ok (tb_row_end_col t);
  to_sql : s_ok (tb_check_sql t) /\ s_ok (tb_before_insert_lua t) /\ s_ok (tb_before_update_lua t) /\ s_ok (tb_before_delete_lua t)
           /\ s_ok (tb_tablespace t) /\ s_ok (tb_compression t);
  to_cols : Forall column_ok (tb_cols t) /\ count_ok (tb_cols t);
  to_indexes : Forall index_ok (tb_indexes t) /\ count_ok (tb_indexes t);
  to_roots : Forall page_ok (tb_col_roots t) /\ count_ok (tb_col_roots t);
  to_part : 0 <= tb_partition_kind t < 256 /\ Forall s_ok (tb_partition_cols t) /\ count_ok (tb_partition_cols t)
            /\ int_ok (tb_partition_count t);
  to_fkeys : tb_fkeys t = [];
  to_history : tb_history t = [] }.

Definition column_bytes (c : tdb_column) : list Z :=
  cstr_bytes (col_name c) ++ u8_bytes (code typeids (ty_id (col_type c))) ++ var_bytes (ty_length (col_type c))
  ++ var_bytes (ty_precision (col_type c)) ++ var_bytes (ty_scale (col_type c)) ++ u8_bytes (code collations (col_coll c))
  ++ u8_bytes (col_flags c) ++ u8_bytes (code generated_kinds (col_generated c)) ++ cstr_bytes (col_default_sql c)
  ++ cstr_bytes (col_check_sql c) ++ cstr_bytes (col_generated_sql c) ++ cstr_bytes (col_lua_compute c).
Definition key_bytes (k : Z * bool) : list Z := var_bytes k.1 ++ u8_bytes (of_bool k.2).
Definition index_bytes (ix : tdb_index) : list Z :=
  cstr_bytes (ix_name ix) ++ tdb_put_u32 (ix_root ix) ++ u8_bytes (of_bool (ix_unique ix)) ++ u8_bytes (code index_kinds (ix_kind ix))
  ++ var_bytes (Z.of_nat (length (ix_col_idx ix))) ++ concat (map key_bytes (ix_keys ix)).
Definition trailer_bytes (t : tdb_table) : list Z :=
  cstr_bytes (tb_tablespace t) ++ cstr_bytes (tb_compression t) ++ u8_bytes (tb_partition_kind t)
  ++ var_bytes (Z.of_nat (length (tb_partition_cols t))) ++ concat (map cstr_bytes (tb_partition_cols t))
  ++ var_bytes (tb_partition_count t).
Definition table_bytes (t : tdb_table) : list Z :=
  cstr_bytes (tb_name t) ++ tdb_put_u32 (tb_root t) ++ tdb_put_u32 (tb_history_root t) ++ tdb_put_u32 (tb_schema_version t)
  ++ u8_bytes (code versionings (tb_versioning t)) ++ var_bytes (tb_row_start_col t + 1) ++ var_bytes (tb_row_end_col t + 1)
  ++ cstr_bytes (tb_check_sql t) ++ cstr_bytes (tb_before_insert_lua t) ++ cstr_bytes (tb_before_update_lua t)
  ++ cstr_bytes (tb_before_delete_lua t)
  ++ var_bytes (Z.of_nat (length (tb_cols t))) ++ concat (map column_bytes (tb_cols t))
  ++ var_bytes (Z.of_nat (length (tb_indexes t))) ++ concat (map index_bytes (tb_indexes t))
  ++ u8_bytes (of_bool (tb_columnar t)) ++ var_bytes (Z.of_nat (length (tb_col_roots t))) ++ concat (map tdb_put_u32 (tb_col_roots t))
  ++ trailer_bytes t.

Lemma ser_column_writes c : writes (ser_column c) (column_bytes c).
Proof. eapply writes_eq; [unfold ser_column; writes_chain writes_one|]. unfold column_bytes. by rewrite <- !app_assoc. Qed.
Lemma ser_key_writes k : writes (fun b => w_u8 (of_bool k.2) (w_var k.1 b)) (key_bytes k).
Proof. writes_chain writes_one. Qed.
Lemma ser_index_writes ix : writes (ser_index ix) (index_bytes ix).
Proof.
  eapply writes_eq; [unfold ser_index; eapply writes_then; [writes_chain writes_one|apply writes_list, ser_key_writes]|]. unfold index_bytes. by rewrite <- !app_assoc.
Qed.
Ltac writes_part :=
  idtac; lazymatch goal with
  | |- writes (w_list ser_column _) _ => apply writes_list, ser_column_writes
  | |- writes (w_list ser_index _) _ => apply writes_list, ser_index_writes
  | _ => writes_one
  end.
Lemma ser_table_writes t : writes (ser_table t) (u8_bytes CAT_TABLE ++ table_bytes t).
Proof. eapply writes_eq; [unfold ser_table; writes_chain writes_part|]. unfold table_bytes, trailer_bytes. by rewrite <- !app_assoc. Qed.

Lemma typeids_all x : x ∈ typeids.
Proof. destruct x; apply (bool_decide_unpack _); done. Qed.
Lemma collations_all x : x ∈ collations.
Proof. destruct x; apply (bool_decide_unpack _); done. Qed.
Lemma generated_kinds_all x : x ∈ generated_kinds.
Proof. destruct x; apply (bool_decide_unpack _); done. Qed.
Lemma index_kinds_all x : x ∈ index_kinds.
Proof. destruct x; apply (bool_decide_unpack _); done. Qed.
Lemma versionings_all x : x ∈ versionings.
Proof. destruct x; apply (bool_decide_unpack _); done. Qed.

(** One reader, chosen by its name. *)
Ltac reads_one :=
  idtac; lazymatch goal with
  | |- rreads r_str _ _ => apply r_str_reads; [match goal with H : s_ok _ |- _ => apply H end | match goal with H : s_ok _ |- _ => apply H end]
  | |- rreads r_u32 _ _ => apply r_u32_reads; assumption
  | |- rreads r_u8 _ _ => apply r_u8_reads
  | |- rreads r_bool _ _ => apply r_bool_reads
  | |- rreads (r_enum typeids) _ _ => apply r_enum_reads; [apply typeids_all|done]
  | |- rreads (r_enum collations) _ _ => apply r_enum_reads; [apply collations_all|done]
  | |- rreads (r_enum generated_kinds) _ _ => apply r_enum_reads; [apply generated_kinds_all|done]
  | |- rreads (r_enum index_kinds) _ _ => apply r_enum_reads; [apply index_kinds_all|done]
  | |- rreads (r_enum versionings) _ _ => apply r_enum_reads; [apply versionings_all|done]
  | |- rreads r_int (var_bytes (Z.of_nat _)) _ => apply r_count_reads; assumption
  | |- rreads r_int _ _ => apply r_int_reads; assumption
  end.

Lemma col_flags_bits c :
  Z.testbit (col_flags c) 0 = col_notnull c /\ Z.testbit (col_flags c) 1 = col_pk c /\ Z.testbit (col_flags c) 2 = col_unique c
  /\ Z.testbit (col_flags c) 3 = col_hidden c /\ 0 <= col_flags c < 256.
Proof. unfold col_flags. by destruct (col_notnull c), (col_pk c), (col_unique c), (col_hidden c). Qed.
Lemma deser_column_reads c : column_ok c -> rreads deser_column (column_bytes c) c.
Proof.
  intros [[Hn Hn0] H1 H2 H3 H4 H5 H6 H7 Hr]. destruct (col_flags_bits c) as (F0 & F1 & F2 & F3 & Hf). unfold deser_column, column_bytes.
  do 6 (eapply rreads_bind; [reads_one|]). eapply rreads_bind; [by apply r_u8_reads|]. do 4 (eapply rreads_bind; [reads_one|]).
  eapply rreads_eq; [eapply rreads_last; reads_one|]. cbn beta. rewrite F0, F1, F2, F3. destruct c as [[n|] [] ? ? ? ? ? ? ? ? ? ? ?]; [|done].
  cbn in Hr. by rewrite Hr.
Qed.
Lemma deser_index_reads ix : index_ok ix -> rreads deser_index (index_bytes ix) ix.
Proof.
  intros [H1 H2 [H3 H4] H5]. unfold deser_index, index_bytes. do 5 (eapply rreads_bind; [reads_one|]).
  assert (length (ix_keys ix) = length (ix_col_idx ix) /\ (ix_keys ix).*1 = ix_col_idx ix
    /\ (if 0 <? Z.of_nat (length (ix_col_idx ix)) then Some (ix_keys ix).*2 else None) = ix_desc ix) as (K1 & K2 & K3).
  { unfold ix_keys. destruct (ix_col_idx ix) as [|i l] eqn:El; [by rewrite H5|]. destruct H5 as (d & -> & Hd). change (default ?x (Some d)) with d.
    rewrite length_zip_with, fst_zip, snd_zip by lia. split; [lia|]. by split. }
  eapply rreads_eq; [eapply rreads_last; rewrite Nat2Z.id, <- K1; apply r_times_reads|].
  - apply Forall_forall. intros [i d] Hk. eapply rreads_bind; [|apply (rreads_last _ (pair i)), r_bool_reads]. apply r_int_reads.
    rewrite Forall_forall in H3. apply H3. rewrite <- K2. apply list_elem_of_fmap. by exists (i, d).
  - cbn beta. rewrite K2, K3. by destruct ix.
Qed.
Lemma str_list_reads l : Forall s_ok l -> rreads (r_times_ok (length l) r_str) (concat (map cstr_bytes l)) l.
Proof. intros Hl. apply r_times_ok_reads. eapply Forall_impl; [exact Hl|]. intros s [H1 H2]. by apply r_str_reads. Qed.
Lemma deser_trailer_reads t :
  table_ok t -> rreads deser_trailer (trailer_bytes t)
    (tb_tablespace t, tb_compression t, tb_partition_kind t, tb_partition_cols t, tb_partition_count t).
Proof.
  intros Ht. destruct (to_sql _ Ht) as (_ & _ & _ & _ & H1 & H2). destruct (to_part _ Ht) as (H3 & H4 & H5 & H6). unfold deser_trailer, trailer_bytes.
  apply rreads_more. { rewrite !blen_app. pose proof (var_bytes_len (tb_partition_count t)). repeat match goal with |- context [blen ?x] => lazymatch goal with H : 0 <= blen x |- _ => fail | _ => pose proof (blen_nonneg x) end end. lia. }
  cbn iota. do 2 (eapply rreads_bind; [reads_one|]). eapply rreads_bind; [by apply r_u8_reads|]. eapply rreads_bind; [reads_one|].
  apply rreads_err. rewrite andb_true_r. eapply rreads_bind.
  - destruct (Z.ltb_spec 0 (Z.of_nat (length (tb_partition_cols t)))) as [Hn|Hn].
    + eapply rreads_eq; [eapply rreads_last; rewrite Nat2Z.id; by apply str_list_reads|]. cbn beta. by rewrite Nat2Z.id, Nat.sub_diag, app_nil_r.
    + destruct (tb_partition_cols t) as [|x l]; [apply rreads_ret|cbn in Hn; lia].
  - apply rreads_more; [apply var_bytes_len|]. cbn iota. eapply rreads_eq; [eapply rreads_last; reads_one|done].
Qed.
Lemma period_back v : int_ok v -> int_ok (v + 1) -> s32 (v + 1 - 1) = v.
Proof. intros H1 H2. rewrite s32_small; unfold int_ok in *; lia. Qed.
Lemma deser_table_reads t : table_ok t -> rreads deser_table (table_bytes t) t.
Proof.
  intros Ht. pose proof (to_name _ Ht) as [Hn Hn0]. pose proof (to_pages _ Ht) as (P1 & P2 & P3). pose proof (to_period _ Ht) as (Q1 & Q2 & Q3 & Q4).
  pose proof (to_sql _ Ht) as (S1 & S2 & S3 & S4 & _). pose proof (to_cols _ Ht) as [C1 C2]. pose proof (to_indexes _ Ht) as [I1 I2].
  pose proof (to_roots _ Ht) as [R1 R2]. unfold deser_table, table_bytes.
  do 12 (eapply rreads_bind; [reads_one|]). rewrite Nat2Z.id.
  eapply rreads_bind; [apply r_times_ok_reads; eapply Forall_impl; [exact C1|apply deser_column_reads]|]. eapply rreads_bind; [reads_one|].
  rewrite Nat2Z.id. eapply rreads_bind; [apply r_times_ok_reads; eapply Forall_impl; [exact I1|apply deser_index_reads]|].
  do 2 (eapply rreads_bind; [reads_one|]). rewrite Nat2Z.id.
  eapply rreads_bind; [apply r_times_reads; eapply Forall_impl; [exact R1|apply r_u32_reads]|].
  rewrite <- (app_nil_r (trailer_bytes t)). eapply rreads_bind; [by apply deser_trailer_reads|]. cbn beta iota.
  eapply rreads_eq; [apply rreads_ret|]. rewrite !period_back by done. pose proof (to_fkeys _ Ht) as E1. pose proof (to_history _ Ht) as E2.
  destruct t as [[n|]]; [|done]. cbn in *. by rewrite E1, E2.
Qed.

(** A reader at the start of the bytes of a buffer. *)
Lemma written f bs b :
  writes f bs -> blen bs < 2 ^ 31 -> buf_wf b -> b_data b = [] -> b_data (f b) = bs.
Proof.
  intros Hf Hl Hb E. destruct (Hf b Hb) as [_ ->]; [|by rewrite E]. unfold b_len. rewrite E. change (blen []) with 0. lia.
Qed.
Definition rd_start (v : list Z) : rd := mk_rd v (blen v) 0 false.
Lemma rd_start_at v : blen v < 2 ^ 31 -> rd_at (rd_start v) v.
Proof. intros H. pose proof (blen_nonneg v). by split; cbn [rd_start rd_err rd_len rd_p rd_pos]; [| |done|lia|apply bfrom_0]. Qed.

(** ** Objects *)

(** What a row of the catalog stores. *)
Inductive cat_obj :=
| OTable (t : tdb_table)
| OView (v : tdb_view)
| ORoutine (r : tdb_routine)
| OGrant (e : tdb_acl_entry)
| OComment (kind : Z) (target body : cstring)
| OTablespace (s : tdb_tablespace).
Definition ser_obj (o : cat_obj) (b : tdb_buf) : tdb_buf :=
  match o with
  | OTable t => ser_table t b
  | OView v => ser_view v b
  | ORoutine r => ser_routine r b
  | OGrant e => tdb_acl_entry_serialize ok_alloc e b
  | OComment kind target body => ser_comment kind target body b
  | OTablespace s => ser_tablespace (ts_name s) (ts_location s) b
  end.
Definition obj_row (o : cat_obj) : list Z := b_data (ser_obj o tdb_buf_init).
(** What an object adds to the cache. *)
Definition add_obj (c : tdb_catalog) (o : cat_obj) : tdb_catalog :=
  match o with
  | OTable t => cache_add_table c t
  | OView v => cache_add_view c v
  | ORoutine r => cache_add_routine c r
  | OGrant e => cset_acl c (tdb_acl_grant ok_alloc (c_acl c) (e_grantee e) (e_priv e) (e_kind e) (e_object e)).2
  | OComment _ _ _ => c
  | OTablespace s => cache_add_tablespace c s
  end.
Definition obj_ok (o : cat_obj) : Prop :=
  match o with
  | OTable t => table_ok t
  | OView v => s_ok (vw_name v) /\ s_ok (vw_select_sql v) /\ page_ok (vw_root v) /\ vw_stale v = false /\ vw_name v <> None
  | ORoutine r => s_ok (rt_name r) /\ s_ok (rt_lua_src r) /\ int_ok (rt_nargs r + 1) /\ int_ok (rt_nargs r) /\ rt_name r <> None
  | OGrant e => 0 <= e_kind e < 128 /\ s_ok (e_grantee e) /\ s_ok (e_priv e) /\ s_ok (e_object e)
  | OComment kind target body => 0 <= kind < 128 /\ target <> None /\ s_ok target /\ s_ok body
  | OTablespace s => s_ok (ts_name s) /\ s_ok (ts_location s) /\ ts_name s <> None
  end.
(** The bytes of an object behind its type. *)
Definition obj_type (o : cat_obj) : Z :=
  match o with
  | OTable _ => CAT_TABLE | OView _ => CAT_VIEW | ORoutine _ => CAT_ROUTINE | OGrant _ => CAT_GRANT
  | OComment _ _ _ => CAT_COMMENT | OTablespace _ => CAT_TABLESPACE
  end.
Definition obj_bytes (o : cat_obj) : list Z :=
  match o with
  | OTable t => table_bytes t
  | OView v => cstr_bytes (vw_name v) ++ cstr_bytes (vw_select_sql v) ++ u8_bytes (of_bool (vw_materialized v)) ++ tdb_put_u32 (vw_root v)
  | ORoutine r => cstr_bytes (rt_name r) ++ cstr_bytes (rt_lua_src r) ++ u8_bytes (of_bool (rt_is_function r)) ++ var_bytes (rt_nargs r + 1)
  | OGrant e => u8_bytes (e_kind e) ++ cstr_bytes (e_grantee e) ++ cstr_bytes (e_priv e) ++ cstr_bytes (e_object e)
  | OComment kind target body => u8_bytes kind ++ cstr_bytes target ++ cstr_bytes body
  | OTablespace s => cstr_bytes (ts_name s) ++ cstr_bytes (ts_location s)
  end.
Lemma cstr_bytes_str s : s_ok s -> cstr_bytes s = str_bytes s.
Proof.
  intros [H1 H2]. pose proof (slen_nonneg s). destruct s as [s|]; [|done]. cbn in *. unfold strlen. rewrite cstr_nul_free by done.
  unfold var_bytes. by rewrite u64_small by lia.
Qed.
Lemma obj_row_bytes o : obj_ok o -> blen (obj_bytes o) < 2 ^ 31 - 1 -> obj_row o = u8_bytes (obj_type o) ++ obj_bytes o.
Proof.
  intros Ho Hl. unfold obj_row. destruct o as [t|v|r|e|kind target body|s].
  4: { destruct Ho as (Hk & H1 & H2 & H3). cbn [ser_obj]. rewrite serialize_ok by (destruct H1, H2, H3; lia).
       cbn [obj_bytes]. by rewrite !cstr_bytes_str by done. }
  all: apply written; [|rewrite blen_app; change (blen (u8_bytes _)) with 1; lia|apply buf_init_wf|done].
  - apply ser_table_writes.
  - eapply writes_eq; [unfold ser_obj, ser_view; writes_chain writes_one|]. cbn [obj_bytes obj_type]. by rewrite <- !app_assoc.
  - eapply writes_eq; [unfold ser_obj, ser_routine; writes_chain writes_one|]. cbn [obj_bytes obj_type]. by rewrite <- !app_assoc.
  - eapply writes_eq; [unfold ser_obj, ser_comment; writes_chain writes_one|]. cbn [obj_bytes obj_type]. by rewrite <- !app_assoc.
  - eapply writes_eq; [unfold ser_obj, ser_tablespace; writes_chain writes_one|]. cbn [obj_bytes obj_type]. by rewrite <- !app_assoc.
Qed.

Lemma load_object_reads {A} (m : R A) bs x add c r rest :
  rreads m bs x -> rd_at r (bs ++ rest) -> load_object r m add c = Some (add c x).
Proof. intros Hm Hr. destruct (Hm r rest Hr) as (r' & E & Hr'). unfold load_object. by rewrite E, (ra_err _ _ Hr'). Qed.
(** The type byte of a row. *)
Lemma row_start ty bs : 0 <= ty < 256 -> blen bs < 2 ^ 31 - 1 ->
  exists r, r_u8 (rd_start (u8_bytes ty ++ bs)) = Some (r, ty) /\ rd_at r (bs ++ []).
Proof.
  intros Hty Hl. apply (r_u8_reads ty Hty). rewrite app_nil_r. apply rd_start_at. rewrite blen_app. change (blen (u8_bytes ty)) with 1. lia.
Qed.

Lemma grant_read e out :
  obj_ok (OGrant e) -> blen (obj_bytes (OGrant e)) < 2 ^ 31 - 1 ->
  tdb_acl_entry_deserialize ok_alloc (obj_row (OGrant e)) (blen (obj_row (OGrant e))) out = Some (TDB_OK, e).
Proof.
  intros Ho Hl. rewrite obj_row_bytes by done. destruct Ho as (Hk & H1 & H2 & H3).
  assert (u8_bytes CAT_GRANT ++ obj_bytes (OGrant e) = entry_bytes e) as Ee by (cbn [obj_bytes]; by rewrite !cstr_bytes_str by done).
  cbn [obj_type]. rewrite Ee. rewrite entry_read; [done|lia|apply H1|apply H2|apply H3|destruct H1; lia|destruct H2; lia|destruct H3; lia|].
  rewrite <- Ee, blen_app. change (blen (u8_bytes CAT_GRANT)) with 1. lia.
Qed.
(** A stored object is read back. *)
Lemma load_obj c o :
  obj_ok o -> blen (obj_bytes o) < 2 ^ 31 - 1 -> load_row c (obj_row o) = Some (add_obj c o).
Proof.
  intros Ho Hl. rewrite obj_row_bytes by done. unfold load_row. fold (rd_start (u8_bytes (obj_type o) ++ obj_bytes o)).
  destruct (row_start (obj_type o) (obj_bytes o)) as (r & -> & Hr); [by destruct o|done|]. destruct o as [t|v|rt|e|kind target body|s]; cbn [obj_type obj_ok add_obj] in *.
  - change (CAT_TABLE =? CAT_TABLE) with true. cbn iota. eapply load_object_reads; [by apply deser_table_reads|exact Hr].
  - destruct Ho as (H1 & H2 & H3 & H4 & _). cbn [Z.eqb CAT_VIEW CAT_TABLE Pos.eqb]. eapply load_object_reads; [|exact Hr]. unfold deser_view.
    do 3 (eapply rreads_bind; [reads_one|]). eapply rreads_eq; [eapply rreads_last; reads_one|]. destruct v. cbn in *. by rewrite H4.
  - destruct Ho as (H1 & H2 & H3 & H4 & _). cbn [Z.eqb CAT_ROUTINE CAT_VIEW CAT_TABLE Pos.eqb]. eapply load_object_reads; [|exact Hr]. unfold deser_routine.
    do 3 (eapply rreads_bind; [reads_one|]). eapply rreads_eq; [eapply rreads_last; reads_one|]. cbn beta. rewrite period_back by done. by destruct rt.
  - cbn [Z.eqb CAT_GRANT CAT_ROUTINE CAT_VIEW CAT_TABLE Pos.eqb]. unfold load_grant. change CAT_GRANT with (obj_type (OGrant e)).
    by rewrite <- obj_row_bytes, grant_read by done.
  - done.
  - destruct Ho as (H1 & H2 & H3). cbn [Z.eqb CAT_TABLESPACE CAT_GRANT CAT_ROUTINE CAT_VIEW CAT_TABLE Pos.eqb].
    erewrite (load_object_reads _ (obj_bytes (OTablespace s)) s); [by destruct s as [[n|] l]| |exact Hr]. unfold deser_tablespace.
    eapply rreads_bind; [reads_one|]. eapply rreads_eq; [eapply rreads_last; reads_one|by destruct s].
Qed.

(** ** Rows as the scans see them *)

Lemma row_type_obj o : obj_ok o -> blen (obj_bytes o) < 2 ^ 31 - 1 -> row_type (obj_row o) = obj_type o.
Proof. intros Ho Hl. unfold row_type. rewrite obj_row_bytes by done. by destruct o. Qed.
Lemma row_name_reads o s rest :
  obj_ok o -> blen (obj_bytes o) < 2 ^ 31 - 1 -> obj_bytes o = cstr_bytes s ++ rest -> s_ok s ->
  exists r, row_name (obj_row o) = Some (r, s).
Proof.
  intros Ho Hl E [Hs1 Hs2]. unfold row_name. fold (rd_start (obj_row o)). rewrite obj_row_bytes by done.
  destruct (row_start (obj_type o) (obj_bytes o)) as (r & Er & Hr); [by destruct o|done|]. rewrite E in Hr at 1. rewrite app_nil_r in Hr.
  destruct (r_str_reads s Hs1 Hs2 r _ Hr) as (r' & Er' & _). exists r'. unfold mbind, R_bind. by rewrite Er.
Qed.
(** The name of a table, view, routine or tablespace comes first. *)
Definition obj_name (o : cat_obj) : option cstring :=
  match o with
  | OTable t => Some (tb_name t)
  | OView v => Some (vw_name v)
  | ORoutine r => Some (rt_name r)
  | OTablespace s => Some (ts_name s)
  | OGrant _ | OComment _ _ _ => None
  end.
Lemma obj_name_reads o n :
  obj_ok o -> blen (obj_bytes o) < 2 ^ 31 - 1 -> obj_name o = Some n -> exists r, row_name (obj_row o) = Some (r, n).
Proof.
  intros Ho Hl E. destruct o as [t|v|r|e|kind target body|s]; try done; injection E as <-; (eapply row_name_reads; [done|done|reflexivity|]).
  - apply (to_name _ Ho).
  - apply Ho.
  - apply Ho.
  - apply Ho.
Qed.
Definition same_name (n : cstring) (name : list Z) : bool := match n with Some n => strcasecmp n name =? 0 | None => false end.

Definition is_table (name : list Z) (o : cat_obj) : bool := match o with OTable t => same_name (tb_name t) name | _ => false end.
Definition is_tablespace (name : list Z) (o : cat_obj) : bool := match o with OTablespace s => same_name (ts_name s) name | _ => false end.
Definition is_comment (kind : Z) (target : list Z) (o : cat_obj) : bool :=
  match o with OComment k t _ => (k =? kind) && same_name t target | _ => false end.
(** What [del_row] compares: the name of an object; of a grant or a comment
    the bytes that are in its place. *)
Definition label_is (name : list Z) (o : cat_obj) : bool :=
  match obj_name o with
  | Some n => same_name n name
  | None => match row_name (obj_row o) with Some (_, n) => same_name n name | None => false end
  end.

Lemma obj_row_len o : obj_ok o -> blen (obj_bytes o) < 2 ^ 31 - 1 -> 2 <= blen (obj_row o).
Proof.
  intros Ho Hl. rewrite obj_row_bytes by done. rewrite blen_app. change (blen (u8_bytes (obj_type o))) with 1. assert (1 <= blen (obj_bytes o)); [|lia].
  assert (forall s rest, 1 <= blen (cstr_bytes s ++ rest)) as Hs.
  { intros s rest. rewrite blen_app. pose proof (blen_nonneg rest). assert (1 <= blen (cstr_bytes s)); [|lia].
    unfold cstr_bytes. destruct s as [s|]; [rewrite blen_app; pose proof (blen_nonneg (cstr s)); pose proof (var_bytes_len (strlen s + 1))|pose proof (var_bytes_len 0)]; lia. }
  destruct o; cbn [obj_bytes]; try apply Hs; rewrite blen_app; change (blen (u8_bytes _)) with 1;
    match goal with |- 1 <= 1 + blen ?x => pose proof (blen_nonneg x); lia end.
Qed.
Lemma table_hit_obj name o : obj_ok o -> blen (obj_bytes o) < 2 ^ 31 - 1 -> table_hit name (obj_row o) = Some (is_table name o).
Proof.
  intros Ho Hl. unfold table_hit. pose proof (obj_row_len o Ho Hl). rewrite (proj2 (Z.leb_le 1 (blen (obj_row o)))) by lia. rewrite row_type_obj by done.
  destruct o as [t| | | | |]; try done. destruct (obj_name_reads (OTable t) _ Ho Hl eq_refl) as [r ->]. done.
Qed.
Lemma tablespace_hit_obj name o : obj_ok o -> blen (obj_bytes o) < 2 ^ 31 - 1 -> tablespace_hit name (obj_row o) = Some (is_tablespace name o).
Proof.
  intros Ho Hl. unfold tablespace_hit. pose proof (obj_row_len o Ho Hl). rewrite (proj2 (Z.ltb_ge (blen (obj_row o)) 2)) by lia. rewrite row_type_obj by done.
  destruct o as [| | | | |s]; try done. destruct (obj_name_reads (OTablespace s) _ Ho Hl eq_refl) as [r ->]. done.
Qed.
Lemma comment_head_obj kind target body :
  let o := OComment kind target body in obj_ok o -> blen (obj_bytes o) < 2 ^ 31 - 1 ->
  exists r, comment_head (obj_row o) = Some (r, (kind, target)) /\ rd_at r (cstr_bytes body).
Proof.
  intros o Ho Hl. pose proof Ho as (Hk & _ & [H1 H2] & _). unfold comment_head. fold (rd_start (obj_row o)). rewrite obj_row_bytes by done.
  destruct (row_start (obj_type o) (obj_bytes o)) as (r & Er & Hr); [done|done|]. cbn [o obj_bytes] in Hr. rewrite app_nil_r in Hr.
  destruct (r_u8_reads kind ltac:(lia) r _ Hr) as (r1 & E1 & Hr1). destruct (r_str_reads target H1 H2 r1 _ Hr1) as (r2 & E2 & Hr2).
  exists r2. split; [|done]. unfold mbind, R_bind. by rewrite Er, E1, E2.
Qed.
Lemma comment_hit_obj kind target o :
  obj_ok o -> blen (obj_bytes o) < 2 ^ 31 - 1 -> comment_hit kind target (obj_row o) = Some (is_comment kind target o).
Proof.
  intros Ho Hl. unfold comment_hit. pose proof (obj_row_len o Ho Hl). rewrite (proj2 (Z.ltb_ge (blen (obj_row o)) 2)) by lia. rewrite row_type_obj by done.
  destruct o as [| | | |k t b|]; try done. destruct (comment_head_obj k t b Ho Hl) as (r & E & Hr). rewrite E. cbn [orb negb CAT_COMMENT obj_type Z.eqb Pos.eqb].
  by rewrite (ra_err _ _ Hr).
Qed.
Lemma small_varint k : 0 <= k < 128 -> u8_bytes k = var_bytes k.
Proof.
  intros Hk. unfold var_bytes, u8_bytes. rewrite u64_small by lia. unfold tdb_put_varint. cbn [put_varint_loop].
  by destruct (Z.leb_spec 128 k); [lia|].
Qed.
Lemma row_name_defined o : obj_ok o -> blen (obj_bytes o) < 2 ^ 31 - 1 -> is_Some (row_name (obj_row o)).
Proof.
  intros Ho Hl. destruct (obj_name o) as [n|] eqn:En; [destruct (obj_name_reads o n Ho Hl En) as [r ->]; done|].
  assert (exists k rest, 0 <= k < 128 /\ obj_bytes o = u8_bytes k ++ rest) as (k & rest & Hk & Ek).
  { destruct o as [| | |e|k t b|]; try done; destruct Ho as (Hk & _); by eexists _, _. }
  unfold row_name. fold (rd_start (obj_row o)). rewrite obj_row_bytes by done.
  destruct (row_start (obj_type o) (obj_bytes o)) as (r & Er & Hr); [by destruct o|done|]. rewrite Ek, small_varint, app_nil_r in Hr by done.
  destruct (r_var_reads k r _ Hr) as (r1 & E1 & _). unfold mbind, R_bind at 1. rewrite Er. unfold r_str, mbind, R_bind. rewrite E1, u64_small by lia.
  destruct (Z.eqb_spec k 0); [done|]. unfold r_bytes. rewrite s32_small by lia. destruct (_ <? _); [done|]. destruct (Z.ltb_spec (k - 1) 0); [lia|done].
Qed.
Lemma any_hit_obj name o : obj_ok o -> blen (obj_bytes o) < 2 ^ 31 - 1 -> any_hit name (obj_row o) = Some (label_is name o).
Proof.
  intros Ho Hl. unfold any_hit, label_is. destruct (obj_name o) as [n|] eqn:En; [destruct (obj_name_reads o n Ho Hl En) as [r ->]; done|].
  destruct (row_name_defined o Ho Hl) as [[r n] ->]. done.
Qed.

(** ** The catalog as a list of objects *)

Abbreviation objects := (list (Z * cat_obj)).
Definition enc (objs : objects) : list (Z * list Z) := map (fun x => (x.1, obj_row x.2)) objs.
Definition small_obj (x : Z * cat_obj) : Prop := obj_ok x.2 /\ blen (obj_bytes x.2) < 2 ^ 31 - 1.
Definition empty_catalog (root : Z) : tdb_catalog := mk_catalog root [] [] [] [] tdb_acl_init.
(** The cache that a list of objects gives. *)
Definition cache_of (root : Z) (objs : objects) : tdb_catalog := foldl add_obj (empty_catalog root) objs.*2.
(** The rowid of the next object. *)
Definition next_rowid (objs : objects) : Z := match last objs with Some x => x.1 + 1 | None => 1 end.

Lemma enc_keys objs : (enc objs).*1 = objs.*1.
Proof. unfold enc. induction objs as [|x objs IH]; [done|]. cbn. f_equal. apply IH. Qed.
Lemma enc_delete i objs : enc (delete i objs) = delete i (enc objs).
Proof. unfold enc. revert i. induction objs as [|x objs IH]; intros [|i]; try done. cbn. f_equal. apply IH. Qed.
Lemma enc_app a b : enc (a ++ b) = enc a ++ enc b.
Proof. apply map_app. Qed.

(** *** The loops *)

Lemma visit_load c objs :
  Forall small_obj objs ->
  visit (fun s (_ : Z) v => match s with
                     | None => (None, true)
                     | Some c => match load_row c v with Some c => (Some c, false) | None => (None, true) end
                     end) (Some c) (enc objs) = Some (foldl add_obj c objs.*2).
Proof.
  intros Ho. revert c. induction Ho as [|[r o] objs [H1 H2] Ho IH]; intros c; [done|]. cbn [enc map fst snd visit fmap list_fmap foldl].
  rewrite load_obj by done. apply IH.
Qed.
Lemma visit_first hit h objs :
  Forall (fun x => hit (obj_row x.2) = Some (h x.2)) objs ->
  visit (first_hit hit) (Some None) (enc objs) = Some (fst <$> List.find (fun x => h x.2) objs).
Proof.
  induction 1 as [|[r o] objs Hx Ho IH]; [done|]. cbn [enc map fst snd visit List.find] in *. unfold first_hit at 1. rewrite Hx.
  by destruct (h o).
Qed.
Lemma visit_collect hit h objs ids :
  Forall (fun x => hit (obj_row x.2) = Some (h x.2)) objs ->
  visit (collect hit) (Some ids) (enc objs) = Some (ids ++ (List.filter (fun x => h x.2) objs).*1).
Proof.
  intros Ho. revert ids. induction Ho as [|[r o] objs Hx Ho IH]; intros ids; [cbn; by rewrite app_nil_r|].
  cbn [enc map fst snd visit List.filter] in *. unfold collect at 1. rewrite Hx. destruct (h o); [|apply IH].
  etransitivity; [apply IH|]. cbn. by rewrite <- app_assoc.
Qed.
Lemma hits_all (hit : list Z -> option bool) h objs :
  (forall o, obj_ok o -> blen (obj_bytes o) < 2 ^ 31 - 1 -> hit (obj_row o) = Some (h o)) ->
  Forall small_obj objs -> Forall (fun x => hit (obj_row x.2) = Some (h x.2)) objs.
Proof. intros Hh Hs. eapply Forall_impl; [exact Hs|]. intros x [H1 H2]. by apply Hh. Qed.
Lemma find_remove {A} (f : A -> bool) l x :
  List.find f l = Some x -> exists i, l !! i = Some x /\ remove_first f l = delete i l.
Proof.
  induction l as [|y l IH]; [done|]. cbn. destruct (f y); [intros [= ->]; by exists 0%nat|]. intros Hx. destruct (IH Hx) as (i & H1 & H2).
  exists (S i). split; [done|]. cbn. by rewrite H2.
Qed.

Section Refine.
Context {P : Type} `{PagerPages P, TableView P, PagerTxn P, CatalogRoot P} (depth rounds : nat).
Context `{!TableStore P ok_alloc depth, !TableScan P depth rounds}.

(** The tree of the catalog holds the rows of [objs]. *)
Record cat_store (p : P) (ts : list tdb_btree) (c : tdb_catalog) (objs : objects) : Prop := {
  cr_ok : tv_ok p ts;
  cr_in : cat_tree c p ∈ ts;
  cr_rows : tv_rows p (cat_tree c p) = list_to_map (enc objs);
  cr_sorted : rows_lt (enc objs);
  cr_range : Forall (fun x => 0 < x.1 < 2 ^ 63) objs;
  cr_objs : Forall small_obj objs;
  cr_size : (length objs < rounds)%nat }.
(** And the cache is what loading them gives. *)
Definition cat_rep (p : P) (ts : list tdb_btree) (c : tdb_catalog) (objs : objects) : Prop :=
  cat_store p ts c objs /\ c = cache_of (c_root c) objs.

Lemma rep_sorted p ts c objs : cat_store p ts c objs -> sorted_rows (tv_rows p (cat_tree c p)) = enc objs.
Proof using Type. intros Hr. rewrite (cr_rows _ _ _ _ Hr). apply sorted_rows_of, (cr_sorted _ _ _ _ Hr). Qed.
Lemma rep_size p ts c objs : cat_store p ts c objs -> (size (tv_rows p (cat_tree c p)) < rounds)%nat.
Proof using Type.
  intros Hr. rewrite (cr_rows _ _ _ _ Hr), <- length_map_to_list. rewrite (Permutation_length (map_to_list_to_map (enc objs) (rows_lt_nodup _ (cr_sorted _ _ _ _ Hr)))).
  unfold enc. rewrite length_map. apply (cr_size _ _ _ _ Hr).
Qed.
(** The tree is the same one in every state that has it. *)
Lemma cat_tree_same p q ts c c' : tv_ok q ts -> cat_tree c p ∈ ts -> c_root c' = c_root c -> cat_tree c' q = cat_tree c p.
Proof using All. intros Hq Hin Hc. unfold cat_tree. rewrite Hc. symmetry. apply (tv_tree q ts (cat_tree c p) Hq Hin). Qed.
(** Every scan. *)
Lemma rep_scan {S} p ts c objs (body : S -> Z -> list Z -> S * bool) s :
  cat_store p ts c objs -> exists q, scan depth rounds (cat_tree c p) p body s = Some (q, visit body s (enc objs)) /\ cat_store q ts c objs.
Proof using All.
  intros Hr. destruct (tv_scan p ts (cat_tree c p) S body s (cr_ok _ _ _ _ Hr) (cr_in _ _ _ _ Hr) (rep_size _ _ _ _ Hr)) as (q & E & Hq & Hrows & _).
  exists q. rewrite E, (rep_sorted _ _ _ _ Hr). split; [done|].
  pose proof (cat_tree_same p q ts c c Hq (cr_in _ _ _ _ Hr) eq_refl) as Et. destruct Hr. split; rewrite ?Et; try done. by rewrite Hrows.
Qed.
Lemma cache_of_root root objs : c_root (cache_of root objs) = root.
Proof using Type.
  unfold cache_of. assert (forall os c, c_root (foldl add_obj c os) = c_root c) as Hf; [|apply Hf].
  induction os as [|o os IH]; intros c; [done|]. cbn [foldl]. rewrite IH. by destruct o.
Qed.
Lemma cache_of_snoc root objs r o : cache_of root (objs ++ [(r, o)]) = add_obj (cache_of root objs) o.
Proof using Type. unfold cache_of. by rewrite fmap_app, foldl_app. Qed.
Lemma next_rowid_above objs : rows_lt (enc objs) -> Forall (fun x => 0 < x.1 < 2 ^ 63) objs -> Forall (fun x => x.1 < next_rowid objs) objs /\ 0 < next_rowid objs.
Proof using Type.
  unfold rows_lt. rewrite enc_keys. intros Hs Hr. unfold next_rowid. destruct objs as [|x objs _] using rev_ind; [done|].
  rewrite last_snoc. cbn iota. apply Forall_app in Hr as [Hr1 Hr2]. rewrite Forall_singleton in Hr2. split; [|lia]. apply Forall_app. split; [|apply Forall_singleton; lia].
  rewrite fmap_app in Hs. rewrite Forall_forall. intros y Hy.
  assert (y.1 < x.1); [|lia]. apply (StronglySorted_app_1_elem_of Z.lt objs.*1 [x.1]); [done| |by apply list_elem_of_singleton].
  apply list_elem_of_fmap. by exists y.
Qed.
Lemma rep_max p ts c objs :
  cat_store p ts c objs -> exists q, tdb_btree_max_rowid ok_alloc depth (cat_tree c p) p = Some (TDB_OK, q, next_rowid objs - 1) /\ same_tables p q ts.
Proof using All.
  intros Hr. destruct (tv_max p ts (cat_tree c p) (cr_ok _ _ _ _ Hr) (cr_in _ _ _ _ Hr)) as (q & mx & E & Hs & Hle & Hmx).
  exists q. rewrite E. split; [|done]. do 2 f_equal. rewrite (cr_rows _ _ _ _ Hr) in *. pose proof (rows_lt_nodup _ (cr_sorted _ _ _ _ Hr)) as Hnd.
  assert (forall y, is_Some ((list_to_map (enc objs) : gmap Z (list Z)) !! y) <-> y ∈ objs.*1) as Hdom.
  { intros y. rewrite <- enc_keys. split.
    - intros [v Hv]. apply elem_of_list_to_map_2 in Hv. apply list_elem_of_fmap. by exists (y, v).
    - intros Hy. destruct ((list_to_map (enc objs) : gmap Z (list Z)) !! y) eqn:Ey; [done|]. by apply not_elem_of_list_to_map_2 in Ey. }
  destruct (next_rowid_above objs (cr_sorted _ _ _ _ Hr) (cr_range _ _ _ _ Hr)) as [Hab Hpos].
  unfold next_rowid in *. destruct objs as [|x objs' _] using rev_ind.
  - cbn [last]. destruct Hmx as [->|Hmx]; [done|]. apply Hdom in Hmx. by apply not_elem_of_nil in Hmx.
  - rewrite last_snoc in *. cbn iota in *. assert (x.1 <= mx) as Hx by (apply Hle, Hdom; rewrite fmap_app; apply elem_of_app; right; by apply list_elem_of_singleton).
    pose proof (cr_range _ _ _ _ Hr) as Hrg. apply Forall_app in Hrg as [_ Hrg]. rewrite Forall_singleton in Hrg.
    destruct Hmx as [->|Hmx]; [lia|]. apply Hdom, list_elem_of_fmap in Hmx as (y & -> & Hy). rewrite Forall_forall in Hab. specialize (Hab y Hy). lia.
Qed.

(** A store with one object more, one less, or one changed. *)
Lemma store_put p ts c c' objs o :
  cat_store p ts c objs -> c_root c' = c_root c -> small_obj (next_rowid objs, o) -> next_rowid objs < 2 ^ 63 -> (S (length objs) < rounds)%nat ->
  tv_fits p (cat_tree c p) (next_rowid objs) (obj_row o) ->
  exists q, catalog_put depth c p (ser_obj o tdb_buf_init) = Some (TDB_OK, q) /\ cat_store q ts c' (objs ++ [(next_rowid objs, o)]).
Proof using All.
  intros Hr Hroot Hsm Hmax Hsz Hfit. destruct (rep_max p ts c objs Hr) as (q & E & Hq & Hrows & Hfits). unfold catalog_put. rewrite E.
  replace (next_rowid objs - 1 + 1) with (next_rowid objs) by lia. fold (obj_row o).
  destruct (next_rowid_above objs (cr_sorted _ _ _ _ Hr) (cr_range _ _ _ _ Hr)) as [Hab Hpos]. pose proof (cr_in _ _ _ _ Hr) as Hin.
  destruct (tv_put q ts (cat_tree c p) (next_rowid objs) (obj_row o) Hq Hin ltac:(lia) (Hfits _ _ _ Hin Hfit)) as (q' & E' & Hq' & Hrow' & _).
  exists q'. split; [done|]. pose proof (cat_tree_same p q' ts c c' Hq' Hin Hroot) as Et.
  assert (next_rowid objs ∉ (enc objs).*1) as Hnew.
  { rewrite enc_keys, list_elem_of_fmap. intros (y & Ey & Hy). rewrite Forall_forall in Hab. specialize (Hab y Hy). lia. }
  split; rewrite ?Et; try done.
  - rewrite Hrow', (Hrows _ Hin), (cr_rows _ _ _ _ Hr), enc_app. symmetry. by apply list_to_map_snoc.
  - unfold rows_lt. rewrite enc_app, fmap_app. apply StronglySorted_app_2; [|apply (cr_sorted _ _ _ _ Hr)|repeat constructor].
    intros x y Hx Hy. apply list_elem_of_singleton in Hy as ->. cbn. rewrite enc_keys in Hx. apply list_elem_of_fmap in Hx as (z & -> & Hz).
    rewrite Forall_forall in Hab. by apply Hab.
  - apply Forall_app. split; [apply Hr|]. by apply Forall_singleton.
  - apply Forall_app. split; [apply Hr|]. by apply Forall_singleton.
  - rewrite length_app. cbn. lia.
Qed.
Lemma enc_lookup objs i r o : objs !! i = Some (r, o) -> enc objs !! i = Some (r, obj_row o).
Proof using Type. intros Hi. change (enc objs) with ((fun x : Z * cat_obj => (x.1, obj_row x.2)) <$> objs). by rewrite list_lookup_fmap, Hi. Qed.
Lemma store_del p ts c c' objs i r o :
  cat_store p ts c objs -> c_root c' = c_root c -> objs !! i = Some (r, o) ->
  exists q, tdb_btree_del ok_alloc depth (cat_tree c p) p r = Some (TDB_OK, q, true) /\ cat_store q ts c' (delete i objs).
Proof using All.
  intros Hr Hroot Hi. pose proof (cr_in _ _ _ _ Hr) as Hin. pose proof (proj1 (Forall_lookup _ _) (cr_range _ _ _ _ Hr) i _ Hi) as Hrange. cbn in Hrange.
  destruct (tv_del p ts (cat_tree c p) r (cr_ok _ _ _ _ Hr) Hin ltac:(lia)) as (q & E & Hq & Hrow & _).
  pose proof (enc_lookup _ _ _ _ Hi) as Hie. pose proof (cr_sorted _ _ _ _ Hr) as Hlt.
  assert (is_Some (tv_rows p (cat_tree c p) !! r)) as Hsome.
  { rewrite (cr_rows _ _ _ _ Hr). exists (obj_row o). apply elem_of_list_to_map_1; [by apply rows_lt_nodup|]. by eapply list_elem_of_lookup_2. }
  rewrite bool_decide_eq_true_2 in E by done. exists q. split; [done|]. pose proof (cat_tree_same p q ts c c' Hq Hin Hroot) as Et.
  split; rewrite ?Et; try done.
  - rewrite Hrow, (cr_rows _ _ _ _ Hr), enc_delete. symmetry. by eapply rows_delete_map.
  - rewrite enc_delete. by apply rows_lt_delete.
  - apply Forall_delete, Hr.
  - apply Forall_delete, Hr.
  - pose proof (cr_size _ _ _ _ Hr). pose proof (lookup_lt_Some _ _ _ Hi). rewrite length_delete by done. lia.
Qed.

(** *** Adding and loading *)

Lemma add_obj_root c o : c_root (add_obj c o) = c_root c.
Proof using Type. by destruct o. Qed.
Lemma rep_store_put p ts c objs o :
  cat_rep p ts c objs -> small_obj (next_rowid objs, o) -> next_rowid objs < 2 ^ 63 -> (S (length objs) < rounds)%nat ->
  tv_fits p (cat_tree c p) (next_rowid objs) (obj_row o) ->
  exists q, catalog_put depth c p (ser_obj o tdb_buf_init) = Some (TDB_OK, q) /\ cat_rep q ts (add_obj c o) (objs ++ [(next_rowid objs, o)]).
Proof using All.
  intros [Hr Hc] Hsm Hmax Hsz Hfit. destruct (store_put p ts c (add_obj c o) objs o Hr (add_obj_root c o) Hsm Hmax Hsz Hfit) as (q & E & Hq).
  exists q. split; [done|]. split; [done|]. rewrite add_obj_root, cache_of_snoc. by rewrite <- Hc.
Qed.
(** The operation that adds an object.  For a grant the caller changes the
    cached list. *)
Definition cat_add (c : tdb_catalog) (p : P) (o : cat_obj) : option (tdb_status * P * tdb_catalog) :=
  match o with
  | OTable t => tdb_catalog_add_table depth c p t
  | OView v => tdb_catalog_add_view depth c p v
  | ORoutine r => tdb_catalog_add_routine depth c p r
  | OTablespace s => tdb_catalog_tablespace_create depth c p (ts_name s) (ts_location s) false
  | OGrant e =>
      match tdb_catalog_acl_persist depth c p e with
      | None => None
      | Some (rc, p) => Some (rc, p, add_obj c o)
      end
  | OComment kind target body =>
      match tdb_catalog_set_comment depth rounds c p kind target body with
      | None => None
      | Some (rc, p) => Some (rc, p, c)
      end
  end.
(** A new tablespace has a name of its own. *)
Definition addable (c : tdb_catalog) (o : cat_obj) : Prop :=
  match o with
  | OTablespace s => ts_name s <> Some [] /\ tdb_catalog_tablespace_exists c (ts_name s) = false
  | OComment _ _ _ => False
  | _ => True
  end.
Lemma add_refines p ts c objs o :
  cat_rep p ts c objs -> addable c o -> small_obj (next_rowid objs, o) -> next_rowid objs < 2 ^ 63 -> (S (length objs) < rounds)%nat ->
  tv_fits p (cat_tree c p) (next_rowid objs) (obj_row o) ->
  exists q, cat_add c p o = Some (TDB_OK, q, add_obj c o) /\ cat_rep q ts (add_obj c o) (objs ++ [(next_rowid objs, o)]).
Proof using All.
  intros Hr Ha Hsm Hmax Hsz Hfit. destruct (rep_store_put p ts c objs o Hr Hsm Hmax Hsz Hfit) as (q & E & Hq). exists q. split; [|done].
  destruct o as [t|v|r|e|kind target body|[[[|x n]|] l]]; cbn [cat_add addable ser_obj ts_name ts_location] in *; try done;
    unfold tdb_catalog_add_table, tdb_catalog_add_view, tdb_catalog_add_routine, tdb_catalog_acl_persist, tdb_catalog_tablespace_create, put_and_add;
    try (by rewrite E).
  - by destruct Ha as [Ha _].
  - destruct Ha as [_ Ha]. by rewrite Ha, E.
  - by destruct Hsm as [(_ & _ & Hn) _].
Qed.

Lemma load_refines p ts c objs :
  cat_store p ts c objs ->
  exists q, catalog_load depth rounds (empty_catalog (c_root c)) p = Some (TDB_OK, q, cache_of (c_root c) objs) /\ cat_store q ts c objs.
Proof using All.
  intros Hr. unfold catalog_load. change (cat_tree (empty_catalog (c_root c)) p) with (cat_tree c p).
  match goal with |- context [scan _ _ _ _ ?body ?s] => destruct (rep_scan p ts c objs body s Hr) as (q & -> & Hq) end.
  exists q. rewrite visit_load by apply Hr. done.
Qed.
(** Opening the catalog again gives the cache. *)
Lemma reopen_refines p ts c objs :
  cat_rep p ts c objs -> pager_catalog_root p = c_root c -> c_root c <> 0 ->
  exists q, tdb_catalog_open depth rounds p = Some (TDB_OK, q, Some c) /\ cat_rep q ts c objs.
Proof using All.
  intros [Hr Hc] Hroot Hnz. destruct (load_refines p ts c objs Hr) as (q & E & Hq). exists q. split; [|done].
  unfold tdb_catalog_open. rewrite Hroot. destruct (Z.eqb_spec (c_root c) 0); [done|]. unfold empty_catalog in E. by rewrite E, <- Hc.
Qed.
End Refine.
