(* ===== verification/CatalogOps.v ===== *)
(** * The catalog's operations on a list of objects

    Every operation that changes the catalog, on disk and in the cache, as a
    step on the list of the objects it stores. *)
From stdpp Require Import gmap sorting.
From S2P Require Import Prelude Util Buf Value Record Schema Acl Btree Cursor Txn Catalog BtreePage BtreeStore BtreeLeaf CatalogScan CatalogSpec.

(** ** Lists *)

Section Lists.
Context {A B : Type}.
Implicit Types (f : A -> bool) (g : A -> option B) (h : B -> bool).
(** The array with its first element that satisfies [f] changed. *)
Fixpoint set_first f (k : A -> A) (l : list A) : list A :=
  match l with [] => [] | x :: l => if f x then k x :: l else x :: set_first f k l end.
Lemma find_set f k l x : List.find f l = Some x -> exists i, l !! i = Some x /\ set_first f k l = <[i := k x]> l.
Proof.
  induction l as [|y l IH]; [done|]. cbn. destruct (f y); [intros [= ->]; by exists 0%nat|]. intros Hx. destruct (IH Hx) as (i & H1 & H2).
  exists (S i). split; [done|]. cbn. by rewrite H2.
Qed.
Lemma lfind_app f l1 l2 : List.find f (l1 ++ l2) = match List.find f l1 with Some x => Some x | None => List.find f l2 end.
Proof. induction l1 as [|x l1 IH]; [done|]. cbn. by destruct (f x). Qed.
Lemma find_none_remove f l : List.find f l = None -> remove_first f l = l.
Proof. induction l as [|y l IH]; [done|]. cbn. destruct (f y); [done|]. intros Hx. by rewrite IH. Qed.
Lemma find_same_remove (f f' : A -> bool) l : List.find f l = List.find f' l -> remove_first f l = remove_first f' l.
Proof.
  induction l as [|y l IH]; [done|]. cbn. destruct (f y) eqn:E1, (f' y) eqn:E2; intros E; [done| | |].
  - apply eq_sym, List.find_some in E as [_ E]. congruence.
  - apply List.find_some in E as [_ E]. congruence.
  - by rewrite IH.
Qed.

(** What a selection [g] of the elements sees of a change. *)
Lemma omap_remove f g h l :
  Forall (fun x => f x = match g x with Some y => h y | None => false end) l -> omap g (remove_first f l) = remove_first h (omap g l).
Proof.
  induction 1 as [|x l Hx Hl IH]; [done|]. cbn. rewrite Hx. destruct (g x) as [y|] eqn:E; cbn; [|by rewrite E].
  destruct (h y); [done|]. cbn. by rewrite E, IH.
Qed.
Lemma omap_remove_other f g l : Forall (fun x => f x = true -> g x = None) l -> omap g (remove_first f l) = omap g l.
Proof.
  induction 1 as [|x l Hx Hl IH]; [done|]. cbn. destruct (f x); [by rewrite Hx|]. cbn. by rewrite IH.
Qed.
Lemma omap_filter_other f g l : (forall x, f x = false -> g x = None) -> omap g (List.filter f l) = omap g l.
Proof.
  intros Hf. induction l as [|x l IH]; [done|]. cbn. destruct (f x) eqn:E; cbn; [by rewrite IH|]. by rewrite (Hf x E).
Qed.
Lemma omap_filter f g h l :
  Forall (fun x => match g x with Some y => f x = h y | None => True end) l -> omap g (List.filter f l) = List.filter h (omap g l).
Proof.
  induction 1 as [|x l Hx Hl IH]; [done|]. cbn. destruct (g x) as [y|] eqn:E; cbn; [rewrite <- Hx|]; destruct (f x); cbn; rewrite ?E, ?IH; done.
Qed.
Lemma omap_set_other f g k l : (forall x, f x = true -> g x = None /\ g (k x) = None) -> omap g (set_first f k l) = omap g l.
Proof.
  intros Hf. induction l as [|x l IH]; [done|]. cbn. destruct (f x) eqn:E; cbn; [by destruct (Hf x E) as [-> ->]|]. by rewrite IH.
Qed.
Lemma Forall_lfilter (Q : A -> Prop) f l : Forall Q l -> Forall Q (List.filter f l).
Proof. induction 1 as [|x l Hx Hl IH]; [done|]. cbn. destruct (f x); [by constructor|done]. Qed.
Lemma filter_none f l : Forall (fun x => f x = true) l -> List.filter f l = l.
Proof. induction 1 as [|x l Hx Hl IH]; [done|]. cbn. by rewrite Hx, IH. Qed.
End Lists.
Lemma omap_set {A B} (f : A -> bool) (g : A -> option B) (h : B -> bool) k k' l :
  Forall (fun x => f x = match g x with Some y => h y | None => false end) l ->
  (forall x y, g x = Some y -> g (k x) = Some (k' y)) -> omap g (set_first f k l) = set_first h k' (omap g l).
Proof.
  intros Hl Hk. induction Hl as [|x l Hx Hl IH]; [done|]. cbn. rewrite Hx. destruct (g x) as [y|] eqn:E; cbn; [|by rewrite E].
  destruct (h y); cbn; [by rewrite (Hk x y E)|]. by rewrite E, IH.
Qed.

(** ** The cache by its lists *)

Definition get_table (x : Z * cat_obj) : option tdb_table := match x.2 with OTable t => Some t | _ => None end.
Definition get_view (x : Z * cat_obj) : option tdb_view := match x.2 with OView v => Some v | _ => None end.
Definition get_routine (x : Z * cat_obj) : option tdb_routine := match x.2 with ORoutine r => Some r | _ => None end.
Definition get_space (x : Z * cat_obj) : option tdb_tablespace := match x.2 with OTablespace s => Some s | _ => None end.
Definition get_grant (x : Z * cat_obj) : option tdb_acl_entry := match x.2 with OGrant e => Some e | _ => None end.
Definition grant_of (a : tdb_acl) (e : tdb_acl_entry) : tdb_acl := (tdb_acl_grant ok_alloc a (e_grantee e) (e_priv e) (e_kind e) (e_object e)).2.
Lemma cache_lists root objs :
  cache_of root objs = mk_catalog root (omap get_table objs) (omap get_view objs) (omap get_routine objs) (omap get_space objs)
                         (foldl grant_of tdb_acl_init (omap get_grant objs)).
Proof.
  unfold cache_of. assert (forall c, foldl add_obj c objs.*2 = mk_catalog (c_root c) (c_tables c ++ omap get_table objs)
    (c_views c ++ omap get_view objs) (c_routines c ++ omap get_routine objs) (c_tspaces c ++ omap get_space objs)
    (foldl grant_of (c_acl c) (omap get_grant objs))) as Hf; [|by rewrite Hf].
  induction objs as [|[r o] objs IH]; intros c; [cbn; rewrite !app_nil_r; by destruct c|]. cbn [fmap list_fmap foldl]. rewrite IH.
  by destruct o; cbn; rewrite <- ?app_assoc.
Qed.
Lemma named_same n name : n <> None -> named n name = same_name n name.
Proof. by destruct n. Qed.

(** *** Revoking *)

Definition is_revoked (g p : cstring) (k : Z) (ob : cstring) (o : cat_obj) : bool := match o with OGrant e => acl_match e g p k ob | _ => false end.
Lemma grant_hit_obj g p k ob o :
  obj_ok o -> blen (obj_bytes o) < 2 ^ 31 - 1 -> grant_hit g p k ob (obj_row o) = Some (is_revoked g p k ob o).
Proof.
  intros Ho Hl. unfold grant_hit. pose proof (obj_row_len o Ho Hl). rewrite (proj2 (Z.ltb_ge (blen (obj_row o)) 1)) by lia. rewrite row_type_obj by done.
  destruct o as [| | |e| |]; try done. rewrite grant_read by done. done.
Qed.

(** The entry a grant makes. *)
Definition granted (e : tdb_acl_entry) : option tdb_acl_entry :=
  match e_grantee e, e_priv e with
  | Some _, Some _ => if e_kind e =? 0 then None else Some (mk_entry (e_grantee e) (up_strdup ok_alloc (e_priv e)) (e_kind e) (e_object e))
  | _, _ => None
  end.
Lemma grant_entries a e :
  acl_entries (grant_of a e)
  = match granted e with
    | None => acl_entries a
    | Some e' => if existsb (fun x => entry_equal x e') (acl_entries a) then acl_entries a else e' :: acl_entries a
    end.
Proof.
  unfold grant_of, granted, tdb_acl_grant. destruct e as [[g|] [p|] k ob]; cbn [e_grantee e_priv e_kind e_object]; try done.
  destruct (k =? 0); [done|]. destruct (existsb _ _); [done|]. by destruct ob.
Qed.
Definition entry_strs (e : tdb_acl_entry) : Prop := str_ok (e_grantee e) /\ str_ok (e_priv e) /\ str_ok (e_object e).
Lemma granted_ok e e' : entry_strs e -> granted e = Some e' -> entry_ok e /\ entry_ok e' /\ entry_ci e' e.
Proof.
  intros (H1 & H2 & H3). unfold granted, entry_ok, entry_ci. destruct e as [[g|] [p|] k ob]; cbn in *; try done.
  destruct (k =? 0); [done|]. intros [= <-]. cbn. pose proof (toupper_nul_free p H2). pose proof (toupper_ci p). repeat split; try done; by eexists.
Qed.
Lemma grants_ok es : Forall entry_strs es ->
  Forall entry_ok (acl_entries (foldl grant_of tdb_acl_init es))
  /\ acl_count (foldl grant_of tdb_acl_init es) = Z.of_nat (length (acl_entries (foldl grant_of tdb_acl_init es))).
Proof.
  induction es as [|e es IH] using rev_ind; [done|]. intros [H1 H2]%Forall_app. rewrite Forall_singleton in H2. destruct (IH H1) as [I1 I2].
  rewrite foldl_app. cbn [foldl]. split.
  - rewrite grant_entries. destruct (granted e) as [e'|] eqn:E; [|done]. destruct (granted_ok e e' H2 E) as (_ & He' & _).
    destruct (existsb _ _); [done|]. by constructor.
  - rewrite grant_entries. revert I2. set (a := foldl _ _ _). intros I2. unfold grant_of, granted, tdb_acl_grant.
    destruct e as [[gr|] [pr|] k ob]; cbn [e_grantee e_priv e_kind e_object]; try done. destruct (k =? 0); [done|]. destruct (existsb _ _); [done|].
    cbn. lia.
Qed.
Section Revoke.
Context (g p : cstring) (k : Z) (ob : cstring) (Hg : str_ok g) (Hp : str_ok p) (Hob : str_ok ob).
Abbreviation kept := (fun e => negb (revoke_hit g p k ob e)).

Lemma existsb_kept e' l :
  entry_ok e' -> Forall entry_ok l -> kept e' = true ->
  existsb (fun x => entry_equal x e') (List.filter kept l) = existsb (fun x => entry_equal x e') l.
Proof using All.
  intros He' Hl Hk. induction Hl as [|x l Hx Hl IH]; [done|]. cbn. destruct (kept x) eqn:Ex; cbn [existsb]; rewrite IH; [done|].
  destruct (entry_equal x e') eqn:Ee; [|done]. apply entry_equal_ci in Ee; [|done|done]. rewrite (revoke_hit_ci x e') in Ex by done. congruence.
Qed.
Lemma grants_kept es : Forall entry_strs es ->
  acl_entries (foldl grant_of tdb_acl_init (List.filter kept es)) = List.filter kept (acl_entries (foldl grant_of tdb_acl_init es)).
Proof using All.
  induction es as [|e es IH] using rev_ind; [done|]. intros [H1 H2]%Forall_app. rewrite Forall_singleton in H2. destruct (grants_ok es H1) as [Hok _].
  specialize (IH H1). rewrite List.filter_app, !foldl_app. cbn [List.filter foldl]. rewrite grant_entries. destruct (granted e) as [e'|] eqn:E.
  - destruct (granted_ok e e' H2 E) as (He & He' & Hci). pose proof (revoke_hit_ci e' e g p k ob He' He Hg Hp Hob Hci) as Eh.
    destruct (kept e) eqn:Ek; cbn [foldl].
    + rewrite grant_entries, E, IH, existsb_kept by (done || by rewrite Eh). destruct (existsb _ _); [done|]. cbn. by rewrite Eh, Ek.
    + rewrite IH. destruct (existsb _ _); [done|]. cbn. by rewrite Eh, Ek.
  - destruct (kept e); cbn [foldl]; [rewrite grant_entries, E|]; exact IH.
Qed.
(** Revoking from the list is granting without what is revoked. *)
Lemma revoke_grants es : Forall entry_strs es ->
  (tdb_acl_revoke (foldl grant_of tdb_acl_init es) g p k ob).2 = foldl grant_of tdb_acl_init (List.filter kept es).
Proof using All.
  intros Hs. pose proof (grants_kept es Hs) as Hk. destruct (grants_ok es Hs) as [_ Hc].
  destruct (grants_ok (List.filter kept es)) as [_ Hc']; [by apply Forall_lfilter|]. unfold tdb_acl_revoke. rewrite revoke_loop_eq. cbn [snd].
  destruct (foldl grant_of tdb_acl_init (List.filter kept es)) as [l' n']. cbn [acl_entries acl_count] in *. subst n' l'.
  set (l := acl_entries (foldl grant_of tdb_acl_init es)) in *.
  assert (List.filter kept l = base.filter (fun e => revoke_hit g p k ob e = false) l) as ->.
  { clear. induction l as [|x l IH]; [done|]. cbn [List.filter]. rewrite filter_cons, IH. destruct (revoke_hit g p k ob x); cbn [negb].
    - destruct (decide (true = false)); done.
    - destruct (decide (false = false)); done. }
  f_equal. rewrite Hc. pose proof (filter_split_length (revoke_hit g p k ob) l). lia.
Qed.
End Revoke.

(** ** The operations *)

Inductive cat_op :=
| CAdd (o : cat_obj)
| CComment (kind : Z) (target : list Z) (body : cstring)
| CUpdate (name : list Z) (t : tdb_table)
| CDropTable (name : list Z)
| CDropView (name : list Z)
| CDropRoutine (name : list Z)
| CDropSpace (name : list Z)
| CRevoke (g p : cstring) (k : Z) (ob : cstring).

(** What each does to the list of objects. *)
Definition without (h : cat_obj -> bool) (objs : objects) : objects := List.filter (fun x => negb (h x.2)) objs.
Definition remove_obj (h : cat_obj -> bool) (objs : objects) : objects := remove_first (fun x => h x.2) objs.
Definition is_view (name : list Z) (o : cat_obj) : bool := match o with OView v => same_name (vw_name v) name | _ => false end.
Definition is_routine (name : list Z) (o : cat_obj) : bool := match o with ORoutine r => same_name (rt_name r) name | _ => false end.
Definition snoc_obj (objs : objects) (o : cat_obj) : objects := objs ++ [(next_rowid objs, o)].
Definition spec_op (objs : objects) (op : cat_op) : objects :=
  match op with
  | CAdd o => snoc_obj objs o
  | CComment kind target body =>
      let rest := without (is_comment kind target) objs in
      match body with None => rest | Some _ => snoc_obj rest (OComment kind (Some target) body) end
  | CUpdate name t => set_first (fun x => is_table name x.2) (fun x => (x.1, OTable t)) objs
  | CDropTable name => remove_obj (is_table name) objs
  | CDropView name => remove_obj (is_view name) objs
  | CDropRoutine name => remove_obj (is_routine name) objs
  | CDropSpace name => remove_obj (is_tablespace name) objs
  | CRevoke g p k ob => without (is_revoked g p k ob) objs
  end.

Section Refine.
Context {P : Type} `{PagerPages P, TableView P, PagerTxn P, CatalogRoot P} (depth rounds : nat).
Context `{!TableStore P ok_alloc depth, !TableScan P depth rounds}.
Abbreviation store := (cat_store rounds).
Abbreviation rep := (cat_rep rounds).

(** The operation of the catalog and the change its caller makes to the
    cached table or list of grants. *)
Definition run_op (c : tdb_catalog) (p : P) (op : cat_op) : option (tdb_status * P * tdb_catalog) :=
  match op with
  | CAdd o => cat_add depth rounds c p o
  | CComment kind target body =>
      match tdb_catalog_set_comment depth rounds c p kind (Some target) body with
      | Some (rc, p) => Some (rc, p, c)
      | None => None
      end
  | CUpdate name t =>
      let c' := mk_catalog (c_root c) (set_first (fun t => named (tb_name t) name) (fun _ => t) (c_tables c)) (c_views c) (c_routines c)
                  (c_tspaces c) (c_acl c) in
      match tdb_catalog_update_table_as depth rounds c p name t with
      | Some (rc, p) => Some (rc, p, c')
      | None => None
      end
  | CDropTable name => match tdb_catalog_drop_table depth rounds c p name with Some (p, c) => Some (TDB_OK, p, c) | None => None end
  | CDropView name => match tdb_catalog_drop_view depth rounds c p name with Some (p, c) => Some (TDB_OK, p, c) | None => None end
  | CDropRoutine name => match tdb_catalog_drop_routine depth rounds c p name with Some (p, c) => Some (TDB_OK, p, c) | None => None end
  | CDropSpace name => tdb_catalog_tablespace_drop depth rounds c p (Some name) true
  | CRevoke g pr k ob =>
      match tdb_catalog_acl_unpersist depth rounds c p g pr k ob with
      | Some (rc, p, _) => Some (rc, p, cset_acl c (tdb_acl_revoke (c_acl c) g pr k ob).2)
      | None => None
      end
  end.

(** The record of [o] fits under the rowid [r] beside [objs]. *)
Definition room (ts : list tdb_btree) (root : Z) (objs : objects) (r : Z) (o : cat_obj) : Prop :=
  forall p c, c_root c = root -> store p ts c objs -> tv_fits p (cat_tree c p) r (obj_row o).
Record putable (ts : list tdb_btree) (root : Z) (objs : objects) (o : cat_obj) : Prop := {
  pt_ok : obj_ok o;
  pt_size : blen (obj_bytes o) < 2 ^ 31 - 1;
  pt_rowid : next_rowid objs < 2 ^ 63;
  pt_rounds : (S (length objs) < rounds)%nat;
  pt_room : room ts root objs (next_rowid objs) o }.
(** The first row that carries the name is the object. *)
Definition first_is (h : list Z -> cat_obj -> bool) (name : list Z) (objs : objects) : Prop :=
  List.find (fun x => label_is name x.2) objs = List.find (fun x => h name x.2) objs.
Definition allowed (ts : list tdb_btree) (root : Z) (objs : objects) (op : cat_op) : Prop :=
  match op with
  | CAdd o => addable (cache_of root objs) o /\ putable ts root objs o
  | CComment kind target body =>
      body = None \/ putable ts root (without (is_comment kind target) objs) (OComment kind (Some target) body)
  | CUpdate name t =>
      obj_ok (OTable t) /\ blen (obj_bytes (OTable t)) < 2 ^ 31 - 1
      /\ exists x, List.find (fun x => is_table name x.2) objs = Some x /\ room ts root objs x.1 (OTable t)
  | CDropTable name => first_is is_table name objs
  | CDropView name => first_is is_view name objs
  | CDropRoutine name => first_is is_routine name objs
  | CDropSpace name => True
  | CRevoke g p k ob => str_ok g /\ str_ok p /\ str_ok ob
  end.

(** *** Rows *)

Lemma enc_nodup p ts c objs : store p ts c objs -> NoDup objs.*1.
Proof using Type. intros Hr. rewrite <- enc_keys. apply rows_lt_nodup, (cr_sorted _ _ _ _ _ Hr). Qed.
Lemma delete_filter (objs : objects) i r o :
  NoDup objs.*1 -> objs !! i = Some (r, o) -> delete i objs = List.filter (fun x => negb (x.1 =? r)) objs.
Proof using Type.
  revert i. induction objs as [|y objs IH]; intros i Hnd Hi; [done|]. cbn in Hnd. apply NoDup_cons in Hnd as [Hy Hnd]. destruct i as [|i]; cbn in Hi |- *.
  - injection Hi as ->. cbn. rewrite Z.eqb_refl. cbn. symmetry. apply filter_none. apply Forall_forall. intros x Hx.
    apply negb_true_iff, Z.eqb_neq. intros E. apply Hy, list_elem_of_fmap. by exists x.
  - destruct (Z.eqb_spec y.1 r) as [E|_]; cbn; [|f_equal; by apply IH]. exfalso. apply Hy, list_elem_of_fmap. exists (r, o).
    split; [done|]. by eapply list_elem_of_lookup_2.
Qed.
Lemma del_rows_store p ts c objs ids n :
  store p ts c objs -> NoDup ids -> Forall (fun r => r ∈ objs.*1) ids ->
  exists q, del_rows depth (cat_tree c p) p ids n = Some (TDB_OK, q, n + Z.of_nat (length ids))
            /\ store q ts c (List.filter (fun x => negb (bool_decide (x.1 ∈ ids))) objs).
Proof using All.
  intros Hr Hnd. revert p objs n Hr. induction Hnd as [|r ids Hr0 Hnd IH]; intros p objs n Hr Hin; cbn [del_rows].
  - exists p. rewrite filter_none; [split; [do 2 f_equal; cbn; lia|done]|]. apply Forall_forall. intros x _. by rewrite bool_decide_eq_false_2 by apply not_elem_of_nil.
  - apply Forall_cons in Hin as [Hr1 Hin]. apply list_elem_of_fmap in Hr1 as ([r' o] & -> & Hx). cbn [fst] in *. apply list_elem_of_lookup_1 in Hx as [i Hi].
    destruct (store_del depth rounds p ts c c objs i r' o Hr eq_refl Hi) as (q & -> & Hq). rewrite (delete_filter objs i r' o) in Hq by (done || by eapply enc_nodup).
    pose proof (cat_tree_same depth rounds p q ts c c (cr_ok _ _ _ _ _ Hq) (cr_in _ _ _ _ _ Hr) eq_refl) as Et. rewrite <- Et.
    destruct (IH q _ (n + 1) Hq) as (q' & -> & Hq').
    + rewrite Forall_forall in Hin |- *. intros r Hrr. specialize (Hin r Hrr). apply list_elem_of_fmap in Hin as (x & -> & Hx). apply list_elem_of_fmap.
      exists x. split; [done|]. apply list_elem_of_In, List.filter_In. split; [by apply list_elem_of_In|]. apply negb_true_iff, Z.eqb_neq. by intros <-.
    + exists q'. split; [do 2 f_equal; cbn; lia|].
      assert (forall l : objects, List.filter (fun x => negb (bool_decide (x.1 ∈ ids))) (List.filter (fun x => negb (x.1 =? r')) l)
              = List.filter (fun x => negb (bool_decide (x.1 ∈ r' :: ids))) l) as Ef; [|by rewrite Ef in Hq'].
      induction l as [|x l IHl]; [done|]. cbn. destruct (Z.eqb_spec x.1 r') as [E|E]; cbn; rewrite IHl.
      * by rewrite bool_decide_eq_true_2 by (rewrite E; apply elem_of_cons; by left).
      * erewrite (bool_decide_ext (x.1 ∈ r' :: ids)); [done|]. rewrite elem_of_cons. naive_solver.
Qed.
Abbreviation row_agrees hit h := (forall o, obj_ok o -> blen (obj_bytes o) < 2 ^ 31 - 1 -> hit (obj_row o) = Some (h o)).
Lemma tree_kept p q ts c objs objs' : store p ts c objs -> store q ts c objs' -> cat_tree c q = cat_tree c p.
Proof using All. intros Hp Hq. apply (cat_tree_same depth rounds p q ts c c (cr_ok _ _ _ _ _ Hq) (cr_in _ _ _ _ _ Hp) eq_refl). Qed.
(** A scan that collects rows, and their deletion. *)
Lemma scan_del p ts c objs hit h :
  store p ts c objs -> row_agrees hit h ->
  exists q ids q', scan depth rounds (cat_tree c p) p (collect hit) (Some []) = Some (q, Some ids) /\ cat_tree c q = cat_tree c p
    /\ del_rows depth (cat_tree c q) q ids 0 = Some (TDB_OK, q', Z.of_nat (length ids)) /\ store q' ts c (without h objs)
    /\ ids = (List.filter (fun x => h x.2) objs).*1.
Proof using All.
  intros Hr Hh. destruct (rep_scan depth rounds p ts c objs (collect hit) (Some []) Hr) as (q & E & Hq). pose proof (enc_nodup _ _ _ _ Hr) as Hnd.
  rewrite (visit_collect hit h objs []) in E by (apply hits_all; [done|apply Hr]). cbn [app] in E. set (ids := (List.filter (fun x => h x.2) objs).*1) in *.
  assert (forall x, x ∈ objs -> x.1 ∈ ids <-> h x.2 = true) as Hids.
  { intros x Hx. unfold ids. rewrite list_elem_of_fmap. split.
    - intros (y & Ey & Hy). apply list_elem_of_In, List.filter_In in Hy as [Hy Hhy]. apply list_elem_of_In in Hy.
      apply list_elem_of_lookup_1 in Hx as [i Hi], Hy as [j Hj]. assert (i = j) as ->.
      { eapply (NoDup_lookup objs.*1); [done|rewrite list_lookup_fmap, Hi; done|rewrite list_lookup_fmap, Hj; cbn; by rewrite Ey]. }
      by rewrite Hi in Hj; injection Hj as ->.
    - intros Hhx. exists x. split; [done|]. apply list_elem_of_In, List.filter_In. split; [by apply list_elem_of_In|done]. }
  destruct (del_rows_store q ts c objs ids 0 Hq) as (q' & Ed & Hq').
  - unfold ids. clear -Hnd. induction objs as [|x objs IH]; [constructor|]. cbn in *. apply NoDup_cons in Hnd as [Hx Hnd]. destruct (h x.2); [|by apply IH].
    cbn. apply NoDup_cons. split; [|by apply IH]. intros Hin. apply Hx. apply list_elem_of_fmap in Hin as (y & -> & Hy).
    apply list_elem_of_In, List.filter_In in Hy as [Hy _]. apply list_elem_of_In in Hy. apply list_elem_of_fmap. by exists y.
  - apply Forall_forall. intros r Hrr. apply list_elem_of_fmap in Hrr as (y & -> & Hy). apply list_elem_of_In, List.filter_In in Hy as [Hy _].
    apply list_elem_of_fmap. exists y. split; [done|]. by apply list_elem_of_In.
  - exists q, ids, q'. split; [done|]. split; [by eapply tree_kept|]. split; [done|]. split; [|done].
    assert (List.filter (fun x => negb (bool_decide (x.1 ∈ ids))) objs = without h objs) as <-; [|done].
    unfold without. apply List.filter_ext_in. intros x Hx%list_elem_of_In. f_equal. specialize (Hids x Hx).
    destruct (h x.2); [apply bool_decide_eq_true_2; naive_solver|apply bool_decide_eq_false_2; naive_solver].
Qed.
(** The deletion of the first row. *)
Lemma del_first_store p ts c objs hit h :
  store p ts c objs -> row_agrees hit h ->
  exists q, del_first depth rounds c p hit = Some (TDB_OK, q) /\ store q ts c (remove_obj h objs).
Proof using All.
  intros Hr Hh. unfold del_first. destruct (rep_scan depth rounds p ts c objs (first_hit hit) (Some None) Hr) as (q & -> & Hq).
  rewrite (visit_first hit h) by (apply hits_all; [done|apply Hr]). unfold remove_obj. rewrite <- (tree_kept _ _ _ _ _ _ Hr Hq).
  destruct (List.find _ objs) as [[r o]|] eqn:Ef; cbn [fmap option_fmap option_map fst].
  - apply find_remove in Ef as (i & Hi & ->). destruct (store_del depth rounds q ts c c objs i r o Hq eq_refl Hi) as (q' & -> & Hq').
    pose proof (proj1 (Forall_lookup _ _) (cr_range _ _ _ _ _ Hr) i _ Hi) as Hpos. cbn in Hpos. destruct (Z.eqb_spec r 0); [lia|]. by exists q'.
  - rewrite find_none_remove by done. by exists q.
Qed.
Lemma store_root p ts c c' objs : c_root c' = c_root c -> store p ts c objs -> store p ts c' objs.
Proof using Type. intros Er [H3 H4 H5 H6 H7 H8 H9]. assert (cat_tree c' p = cat_tree c p) as Et by (unfold cat_tree; by rewrite Er). by split; rewrite ?Et. Qed.
Lemma insert_split {A} (l : list A) i x y : l !! i = Some x -> exists l1 l2, l = l1 ++ x :: l2 /\ <[i := y]> l = l1 ++ y :: l2.
Proof using Type.
  intros Hi. exists (take i l), (drop (S i) l). pose proof (lookup_lt_Some _ _ _ Hi). split; [by rewrite take_drop_middle|].
  by rewrite insert_take_drop by done.
Qed.
(** A row replaced. *)
Lemma store_set p ts c objs i r o o' :
  store p ts c objs -> objs !! i = Some (r, o) -> small_obj (r, o') -> tv_fits p (cat_tree c p) r (obj_row o') ->
  exists q, tdb_btree_put ok_alloc depth (cat_tree c p) p r (obj_row o') = Some (TDB_OK, q) /\ store q ts c (<[i := (r, o')]> objs).
Proof using All.
  intros Hr Hi Hsm Hfit. pose proof (proj1 (Forall_lookup _ _) (cr_range _ _ _ _ _ Hr) i _ Hi) as Hrange. cbn in Hrange. pose proof (cr_in _ _ _ _ _ Hr) as Hin.
  destruct (tv_put p ts (cat_tree c p) r (obj_row o') (cr_ok _ _ _ _ _ Hr) Hin ltac:(lia) Hfit) as (q & E & Hq & Hrow & _).
  exists q. split; [done|]. pose proof (cat_tree_same depth rounds p q ts c c Hq Hin eq_refl) as Et.
  destruct (insert_split objs i (r, o) (r, o') Hi) as (l1 & l2 & E1 & E2). pose proof (enc_nodup _ _ _ _ Hr) as Hnd. rewrite E2, E1 in *.
  pose proof (cr_sorted _ _ _ _ _ Hr) as Hs. pose proof (cr_rows _ _ _ _ _ Hr) as Hrows. pose proof (cr_range _ _ _ _ _ Hr) as Hrg.
  pose proof (cr_objs _ _ _ _ _ Hr) as Ho. pose proof (cr_size _ _ _ _ _ Hr) as Hsz. split; rewrite ?Et; try done.
  - rewrite Hrow, Hrows, !enc_app. cbn [enc map fst snd]. rewrite !list_to_map_app, !list_to_map_cons. rewrite insert_union_r, insert_insert_eq; [done|].
    apply not_elem_of_list_to_map_1. rewrite enc_keys. intros Hl. rewrite fmap_app in Hnd. apply NoDup_app in Hnd as (_ & Hd & _).
    apply (Hd r Hl). apply elem_of_cons. by left.
  - unfold rows_lt in *. rewrite enc_keys, fmap_app in *. exact Hs.
  - apply Forall_app in Hrg as [G1 G2]. apply Forall_cons in G2 as [_ G2]. apply Forall_app. split; [done|]. by apply Forall_cons.
  - apply Forall_app in Ho as [G1 G2]. apply Forall_cons in G2 as [_ G2]. apply Forall_app. split; [done|]. by apply Forall_cons.
  - rewrite !length_app in *. exact Hsz.
Qed.

(** *** The cache *)

Lemma tables_named name objs :
  Forall small_obj objs -> Forall (fun x => is_table name x.2 = match get_table x with Some t => named (tb_name t) name | None => false end) objs.
Proof using Type.
  intros Ho. eapply Forall_impl; [exact Ho|]. intros [r o] [Hok _]. destruct o; try done. cbn. rewrite named_same; [done|]. apply (to_name _ Hok).
Qed.
Lemma views_named name objs :
  Forall small_obj objs -> Forall (fun x => is_view name x.2 = match get_view x with Some v => named (vw_name v) name | None => false end) objs.
Proof using Type. intros Ho. eapply Forall_impl; [exact Ho|]. intros [r o] [Hok _]. destruct o; try done. cbn. by rewrite named_same; [|apply Hok]. Qed.
Lemma routines_named name objs :
  Forall small_obj objs -> Forall (fun x => is_routine name x.2 = match get_routine x with Some r => named (rt_name r) name | None => false end) objs.
Proof using Type. intros Ho. eapply Forall_impl; [exact Ho|]. intros [r o] [Hok _]. destruct o; try done. cbn. by rewrite named_same; [|apply Hok]. Qed.
Lemma spaces_named name objs :
  Forall small_obj objs -> Forall (fun x => is_tablespace name x.2 = match get_space x with Some s => named (ts_name s) name | None => false end) objs.
Proof using Type. intros Ho. eapply Forall_impl; [exact Ho|]. intros [r o] [Hok _]. destruct o; try done. cbn. by rewrite named_same; [|apply Hok]. Qed.
(** Of an object of one type the other lists see nothing. *)
Ltac others := apply Forall_forall; intros [? []] _; done.
Lemma cache_remove_table name root objs :
  Forall small_obj objs ->
  let c := cache_of root objs in
  cache_of root (remove_obj (is_table name) objs)
  = mk_catalog (c_root c) (remove_first (fun t => named (tb_name t) name) (c_tables c)) (c_views c) (c_routines c) (c_tspaces c) (c_acl c).
Proof using Type.
  intros Ho. cbn. rewrite !cache_lists. cbn. unfold remove_obj. rewrite (omap_remove _ _ _ _ (tables_named name objs Ho)). by rewrite !omap_remove_other by others.
Qed.
Lemma cache_remove_view name root objs :
  Forall small_obj objs ->
  let c := cache_of root objs in
  cache_of root (remove_obj (is_view name) objs)
  = mk_catalog (c_root c) (c_tables c) (remove_first (fun v => named (vw_name v) name) (c_views c)) (c_routines c) (c_tspaces c) (c_acl c).
Proof using Type.
  intros Ho. cbn. rewrite !cache_lists. cbn. unfold remove_obj. rewrite (omap_remove _ _ _ _ (views_named name objs Ho)). by rewrite !omap_remove_other by others.
Qed.
Lemma cache_remove_routine name root objs :
  Forall small_obj objs ->
  let c := cache_of root objs in
  cache_of root (remove_obj (is_routine name) objs)
  = mk_catalog (c_root c) (c_tables c) (c_views c) (remove_first (fun r => named (rt_name r) name) (c_routines c)) (c_tspaces c) (c_acl c).
Proof using Type.
  intros Ho. cbn. rewrite !cache_lists. cbn. unfold remove_obj. rewrite (omap_remove _ _ _ _ (routines_named name objs Ho)). by rewrite !omap_remove_other by others.
Qed.
Lemma cache_remove_space name root objs :
  Forall small_obj objs ->
  let c := cache_of root objs in
  cache_of root (remove_obj (is_tablespace name) objs)
  = mk_catalog (c_root c) (c_tables c) (c_views c) (c_routines c) (remove_first (fun s => named (ts_name s) name) (c_tspaces c)) (c_acl c).
Proof using Type.
  intros Ho. cbn. rewrite !cache_lists. cbn. unfold remove_obj. rewrite (omap_remove _ _ _ _ (spaces_named name objs Ho)). by rewrite !omap_remove_other by others.
Qed.
Lemma cache_set_table name t root objs :
  Forall small_obj objs ->
  let c := cache_of root objs in
  cache_of root (set_first (fun x => is_table name x.2) (fun x => (x.1, OTable t)) objs)
  = mk_catalog (c_root c) (set_first (fun t => named (tb_name t) name) (fun _ => t) (c_tables c)) (c_views c) (c_routines c) (c_tspaces c) (c_acl c).
Proof using Type.
  intros Ho. cbn. rewrite !cache_lists. cbn. rewrite (omap_set _ _ _ _ (fun _ => t) _ (tables_named name objs Ho)) by done.
  by rewrite !omap_set_other by (by intros [? []]).
Qed.
Lemma cache_without_comments kind target root objs : cache_of root (without (is_comment kind target) objs) = cache_of root objs.
Proof using Type. rewrite !cache_lists. unfold without. by rewrite !omap_filter_other by (by intros [? []]). Qed.
Lemma cache_revoke g p k ob root objs :
  str_ok g -> str_ok p -> str_ok ob -> Forall small_obj objs ->
  let c := cache_of root objs in
  cache_of root (without (is_revoked g p k ob) objs) = cset_acl c (tdb_acl_revoke (c_acl c) g p k ob).2.
Proof using Type.
  intros Hg Hp Hob Ho. cbn. rewrite !cache_lists. cbn. unfold without, cset_acl. cbn [c_root c_tables c_views c_routines c_tspaces].
  rewrite revoke_grants; [|done..|].
  - rewrite !(omap_filter_other _ _ objs) by (by intros [? []]). do 2 f_equal.
    apply omap_filter. apply Forall_forall. intros [? []] _; done.
  - clear -Ho. induction Ho as [|[r o] objs [Hok _] Ho IH]; [constructor|]. destruct o as [| | |e| |]; try exact IH. cbn. constructor; [|exact IH].
    destruct Hok as (_ & [H1 _] & [H2 _] & [H3 _]). done.
Qed.
Lemma existsb_named_space name objs :
  Forall small_obj objs -> existsb (fun s => named (ts_name s) name) (omap get_space objs) = existsb (fun x => is_tablespace name x.2) objs.
Proof using Type.
  intros Ho. pose proof (spaces_named name objs Ho) as Hn. clear Ho. induction Hn as [|x objs Hx Hn IH]; [done|]. cbn. rewrite Hx.
  by destruct (get_space x); cbn; rewrite IH.
Qed.

(** *** Each operation *)

Lemma drop_refines p ts c objs h name :
  store p ts c objs -> first_is h name objs -> exists q, del_row depth rounds c p name = Some (TDB_OK, q) /\ store q ts c (remove_obj (h name) objs).
Proof using All.
  intros Hr Hf. destruct (del_first_store p ts c objs (any_hit name) (label_is name) Hr (any_hit_obj name)) as (q & E & Hq). exists q. split; [exact E|].
  unfold remove_obj in *. by rewrite (find_same_remove _ _ _ Hf) in Hq.
Qed.
Lemma comment_refines p ts c objs kind target body :
  rep p ts c objs -> allowed ts (c_root c) objs (CComment kind target body) ->
  exists q, tdb_catalog_set_comment depth rounds c p kind (Some target) body = Some (TDB_OK, q)
            /\ rep q ts c (spec_op objs (CComment kind target body)).
Proof using All.
  intros [Hr Hc] Ha. unfold tdb_catalog_set_comment, find_comment_rows.
  destruct (scan_del p ts c objs (comment_hit kind target) (is_comment kind target) Hr (comment_hit_obj kind target)) as (q & ids & q' & E1 & Et & E2 & Hq & _).
  rewrite E1, E2. cbn [spec_op allowed] in *. assert (c = cache_of (c_root c) (without (is_comment kind target) objs)) as Hc' by (by rewrite cache_without_comments).
  destruct body as [body|]; [|by exists q']. destruct Ha as [Ha|[Ho Hsz Hid Hrd Hroom]]; [done|].
  destruct (rep_store_put depth rounds q' ts c _ (OComment kind (Some target) (Some body)) (conj Hq Hc') (conj Ho Hsz) Hid Hrd (Hroom q' c eq_refl Hq)) as (q2 & E3 & Hr2).
  by exists q2.
Qed.
Lemma update_refines p ts c objs name t :
  store p ts c objs -> allowed ts (c_root c) objs (CUpdate name t) ->
  exists q, tdb_catalog_update_table_as depth rounds c p name t = Some (TDB_OK, q) /\ store q ts c (spec_op objs (CUpdate name t)).
Proof using All.
  intros Hr (Ho & Hsz & x & Hx & Hroom). unfold tdb_catalog_update_table_as.
  destruct (rep_scan depth rounds p ts c objs (first_hit (table_hit name)) (Some None) Hr) as (q & -> & Hq).
  rewrite (visit_first (table_hit name) (is_table name)) by (apply hits_all; [apply table_hit_obj|apply Hr]). rewrite <- (tree_kept _ _ _ _ _ _ Hr Hq), Hx.
  cbn [fmap option_fmap option_map spec_op]. destruct (find_set _ (fun x => (x.1, OTable t)) objs x Hx) as (i & Hi & ->). destruct x as [r o]. cbn [fst].
  apply (store_set q ts c objs i r o (OTable t) Hq Hi (conj Ho Hsz)). by apply Hroom.
Qed.
Lemma rep_cache q ts c c' objs :
  store q ts c objs -> cache_of (c_root c) objs = c' -> rep q ts c' objs /\ c_root c' = c_root c.
Proof using Type.
  intros Hq <-. rewrite cache_of_root. split; [|done]. split; [|by rewrite cache_of_root]. by apply (store_root q ts c); [apply cache_of_root|].
Qed.
Lemma space_refines p ts c objs name :
  rep p ts c objs ->
  exists q c', run_op c p (CDropSpace name) = Some (TDB_OK, q, c') /\ rep q ts c' (spec_op objs (CDropSpace name)) /\ c_root c' = c_root c.
Proof using All.
  intros [Hr Hc]. pose proof (cr_objs _ _ _ _ _ Hr) as Ho. cbn [run_op spec_op]. unfold tdb_catalog_tablespace_drop.
  assert (c_tspaces c = omap get_space objs) as Es by (rewrite Hc, cache_lists; done).
  rewrite Es, existsb_named_space by done. destruct (existsb _ _) eqn:Ex.
  - destruct (del_first_store p ts c objs (tablespace_hit name) (is_tablespace name) Hr (tablespace_hit_obj name)) as (q & -> & Hq).
    exists q. eexists. split; [done|]. apply rep_cache; [done|]. rewrite cache_remove_space by done. by rewrite <- Hc, Es.
  - exists p, c. split; [done|]. unfold remove_obj. rewrite find_none_remove; [done|]. destruct (List.find _ objs) as [x|] eqn:Ef; [|done].
    apply List.find_some in Ef as [Hin Hx]. assert (existsb (fun x => is_tablespace name x.2) objs = true) as Ht; [|congruence].
    apply List.existsb_exists. by exists x.
Qed.
(** A step of the catalog is the step on the objects. *)
Lemma op_refines p ts c objs op :
  rep p ts c objs -> allowed ts (c_root c) objs op ->
  exists q c', run_op c p op = Some (TDB_OK, q, c') /\ rep q ts c' (spec_op objs op) /\ c_root c' = c_root c.
Proof using All.
  intros Hrep Ha. pose proof Hrep as [Hr Hc]. pose proof (cr_objs _ _ _ _ _ Hr) as Ho. destruct op as [o|kind target body|name t|name|name|name|name|g pr k ob].
  - destruct Ha as [Ha [G1 G2 G3 G4 G5]]. rewrite <- Hc in Ha.
    destruct (add_refines depth rounds p ts c objs o Hrep Ha (conj G1 G2) G3 G4 (G5 p c eq_refl Hr)) as (q & E & Hq).
    exists q, (add_obj c o). split; [exact E|]. split; [exact Hq|apply add_obj_root].
  - destruct (comment_refines p ts c objs kind target body Hrep Ha) as (q & E & Hq). exists q, c. cbn [run_op]. by rewrite E.
  - destruct (update_refines p ts c objs name t Hr Ha) as (q & E & Hq). exists q. eexists. cbn [run_op]. rewrite E. split; [done|].
    apply rep_cache; [done|]. cbn [spec_op]. rewrite cache_set_table by done. by rewrite <- Hc.
  - destruct (drop_refines p ts c objs is_table name Hr Ha) as (q & E & Hq). exists q. eexists. cbn [run_op]. unfold tdb_catalog_drop_table. rewrite E.
    split; [done|]. apply rep_cache; [done|]. cbn [spec_op]. rewrite cache_remove_table by done. by rewrite <- Hc.
  - destruct (drop_refines p ts c objs is_view name Hr Ha) as (q & E & Hq). exists q. eexists. cbn [run_op]. unfold tdb_catalog_drop_view. rewrite E.
    split; [done|]. apply rep_cache; [done|]. cbn [spec_op]. rewrite cache_remove_view by done. by rewrite <- Hc.
  - destruct (drop_refines p ts c objs is_routine name Hr Ha) as (q & E & Hq). exists q. eexists. cbn [run_op]. unfold tdb_catalog_drop_routine. rewrite E.
    split; [done|]. apply rep_cache; [done|]. cbn [spec_op]. rewrite cache_remove_routine by done. by rewrite <- Hc.
  - by apply space_refines.
  - destruct Ha as (Hg & Hp & Hob). destruct (scan_del p ts c objs (grant_hit g pr k ob) (is_revoked g pr k ob) Hr (grant_hit_obj g pr k ob))
      as (q & ids & q' & E1 & Et & E2 & Hq & _). exists q'. eexists. cbn [run_op]. unfold tdb_catalog_acl_unpersist. rewrite E1, <- Et, E2. split; [done|].
    apply rep_cache; [done|]. cbn [spec_op]. rewrite cache_revoke by done. by rewrite <- Hc.
Qed.

(** ** Sequences of operations *)

Fixpoint run_ops (c : tdb_catalog) (p : P) (ops : list cat_op) : option (P * tdb_catalog) :=
  match ops with
  | [] => Some (p, c)
  | op :: ops => match run_op c p op with Some (TDB_OK, p, c) => run_ops c p ops | _ => None end
  end.
Fixpoint all_allowed (ts : list tdb_btree) (root : Z) (objs : objects) (ops : list cat_op) : Prop :=
  match ops with [] => True | op :: ops => allowed ts root objs op /\ all_allowed ts root (spec_op objs op) ops end.

(** C22. The catalog implements a list of objects: any sequence of the
    operations that add, comment, update, drop and revoke, each one allowed on
    the objects it meets, succeeds and takes the tree and the cache to what
    the list operations give; and when the header names the tree, opening the
    database then rebuilds exactly the cache the operations left. *)
Theorem catalog_refines_objects p ts c objs ops :
  rep p ts c objs -> all_allowed ts (c_root c) objs ops ->
  exists q c', run_ops c p ops = Some (q, c') /\ rep q ts c' (foldl spec_op objs ops)
    /\ (pager_catalog_root q = c_root c -> c_root c <> 0 -> exists q', tdb_catalog_open depth rounds q = Some (TDB_OK, q', Some c')).
Proof using All.
  intros Hrep Ha. cut (exists q c', run_ops c p ops = Some (q, c') /\ rep q ts c' (foldl spec_op objs ops) /\ c_root c' = c_root c).
  { intros (q & c' & E & Hq & Hroot). exists q, c'. split; [done|]. split; [done|]. intros H3 H4. rewrite <- Hroot in *.
    destruct (reopen_refines depth rounds q ts c' _ Hq H3 H4) as (q' & E' & _). by exists q'. }
  revert p c objs Hrep Ha. induction ops as [|op ops IH]; intros p c objs Hrep Ha; [by exists p, c|]. destruct Ha as [Ha Has].
  destruct (op_refines p ts c objs op Hrep Ha) as (q & c' & E & Hq & Hroot). rewrite <- Hroot in Has.
  destruct (IH q c' _ Hq Has) as (q' & c2 & E' & Hq' & Hroot'). exists q', c2. cbn [run_ops]. rewrite E. split; [done|]. split; [done|congruence].
Qed.

(** ** Comments *)

(** The comment on a target, letter case aside. *)
Definition comment_of (objs : objects) (kind : Z) (target : list Z) : cstring :=
  match List.find (fun x => is_comment kind target x.2) objs with Some (_, OComment _ _ body) => body | _ => None end.
Lemma visit_comment kind target objs :
  Forall small_obj objs -> visit (comment_body kind target) (Some None) (enc objs) = Some (comment_of objs kind target).
Proof using Type.
  unfold comment_of. induction 1 as [|[r o] objs [Hok Hsz] Ho IH]; [done|]. cbn [enc map fst snd visit List.find] in *. unfold comment_body at 1.
  rewrite comment_hit_obj by done. destruct (is_comment kind target o) eqn:Ei; [|exact IH]. destruct o as [| | | |k t b|]; try done.
  destruct (comment_head_obj k t b Hok Hsz) as (rd' & -> & Hrd). destruct Hok as (_ & _ & _ & [H3 H4]). rewrite <- (app_nil_r (cstr_bytes b)) in Hrd.
  by destruct (r_str_reads b H3 H4 rd' _ Hrd) as (r' & -> & _).
Qed.
Lemma get_comment_of p ts c objs kind target :
  store p ts c objs -> exists q, tdb_catalog_get_comment depth rounds c p kind (Some target) = Some (q, comment_of objs kind target) /\ store q ts c objs.
Proof using All.
  intros Hr. unfold tdb_catalog_get_comment. destruct (rep_scan depth rounds p ts c objs (comment_body kind target) (Some None) Hr) as (q & -> & Hq).
  exists q. by rewrite visit_comment by apply Hr.
Qed.
Lemma is_comment_ci kind target target' o :
  nul_free target -> nul_free target' -> obj_ok o -> is_comment kind target o = true -> is_comment kind target' o = ieq target target'.
Proof using Type.
  intros Ht Ht' Hok. destruct o as [| | | |k [t|] b|]; try done; cbn; [|by rewrite andb_false_r]. destruct (k =? kind); [|done]. cbn.
  destruct Hok as (_ & _ & [Hs _] & _). cbn in Hs. fold (ieq t target) (ieq t target'). intros E. apply ieq_ci in E; [|done|done].
  by apply ieq_congr.
Qed.
Lemma comment_of_set objs kind target body kind' target' :
  Forall small_obj objs -> nul_free target -> nul_free target' ->
  comment_of (spec_op objs (CComment kind target body)) kind' target'
  = if (kind =? kind') && ieq target target' then body else comment_of objs kind' target'.
Proof using Type.
  intros Ho Ht Ht'. cbn [spec_op]. set (rest := without (is_comment kind target) objs).
  assert (comment_of rest kind' target' = if (kind =? kind') && ieq target target' then None else comment_of objs kind' target') as Hrest.
  { unfold rest, without, comment_of. induction Ho as [|[r o] objs [Hok _] Ho IH]; [by destruct (_ && _)|]. cbn [List.filter List.find snd].
    destruct (is_comment kind target o) eqn:E; cbn [negb snd].
    - rewrite IH. destruct (Z.eqb_spec kind kind') as [<-|Hk]; cbn [andb].
      + rewrite (is_comment_ci kind target target' o) by done. by destruct (ieq target target').
      + assert (is_comment kind' target' o = false) as ->; [|done]. destruct o; try done. cbn in *. apply andb_prop in E as [E _].
        apply Z.eqb_eq in E as ->. by destruct (Z.eqb_spec kind kind').
    - cbn [List.find snd]. destruct (is_comment kind' target' o) eqn:E'; [|exact IH]. destruct (Z.eqb_spec kind kind') as [<-|Hk]; [|done]. cbn [andb].
      pose proof (is_comment_ci kind target' target o Ht' Ht Hok E') as E2. rewrite E in E2.
      destruct (ieq target target') eqn:E3; [|done]. apply ieq_ci in E3; [|done|done]. symmetry in E3. apply ieq_ci in E3; [|done|done]. congruence. }
  destruct body as [body|]; [|exact Hrest]. unfold snoc_obj, comment_of in *. rewrite lfind_app.
  destruct (List.find _ rest) as [[r o]|] eqn:Ef.
  - destruct ((kind =? kind') && ieq target target') eqn:Eb; [|exact Hrest]. exfalso. apply andb_prop in Eb as [<-%Z.eqb_eq Eq]. apply List.find_some in Ef as [Hin Hx].
    unfold rest, without in Hin. apply List.filter_In in Hin as [Hin Hneg]. apply list_elem_of_In in Hin. rewrite Forall_forall in Ho.
    destruct (Ho _ Hin) as [Hok _]. cbn [snd] in *. pose proof (is_comment_ci kind target' target o Ht' Ht Hok Hx) as E2.
    apply ieq_ci in Eq; [|done|done]. symmetry in Eq. apply ieq_ci in Eq; [|done|done]. rewrite E2, Eq in Hneg. done.
  - cbn [List.find is_comment same_name snd]. fold (ieq target target'). by destruct (kind =? kind'), (ieq target target').
Qed.
(** Comments: [tdb_catalog_set_comment] on a target, then
    [tdb_catalog_get_comment], gives the new text on this kind and name,
    whatever the letter case, with NULL for a removed comment; on every
    other kind or name the comment it had; and the cache is unchanged. *)
Theorem comment_set_get p ts c objs kind target body kind' target' :
  rep p ts c objs -> allowed ts (c_root c) objs (CComment kind target body) -> nul_free target -> nul_free target' ->
  exists q q' p' old, tdb_catalog_set_comment depth rounds c p kind (Some target) body = Some (TDB_OK, q)
    /\ tdb_catalog_get_comment depth rounds c p kind' (Some target') = Some (p', old)
    /\ tdb_catalog_get_comment depth rounds c q kind' (Some target')
       = Some (q', if (kind =? kind') && ieq target target' then body else old)
    /\ rep q' ts c (spec_op objs (CComment kind target body)).
Proof using All.
  intros Hrep Ha Ht Ht'. destruct (comment_refines p ts c objs kind target body Hrep Ha) as (q & E & Hq).
  destruct (get_comment_of p ts c objs kind' target' (proj1 Hrep)) as (p' & E1 & _). destruct (get_comment_of q ts c _ kind' target' (proj1 Hq)) as (q' & E2 & Hq').
  exists q, q', p'. eexists. split; [done|]. split; [done|]. rewrite E2, comment_of_set by (done || apply (cr_objs _ _ _ _ _ (proj1 Hrep))).
  split; [done|]. split; [done|apply Hq].
Qed.

(** ** A name that two objects share *)

Lemma find_after_remove {A} (f f' : A -> bool) l x y :
  List.find f l = Some x -> f' x = false -> List.find f' l = Some y -> List.find f' (remove_first f l) = Some y.
Proof using Type.
  induction l as [|z l IH]; [done|]. cbn. destruct (f z); [intros [= ->] ->; done|]. cbn. destruct (f' z); [done|]. apply IH.
Qed.
Lemma find_omap {A B} (f : A -> bool) (g : A -> option B) (h : B -> bool) l x y :
  Forall (fun x => f x = match g x with Some y => h y | None => false end) l -> List.find f l = Some x -> g x = Some y ->
  List.find h (omap g l) = Some y.
Proof using Type.
  induction 1 as [|z l Hz Hl IH]; [done|]. cbn. rewrite Hz. destruct (g z) as [w|] eqn:Ew; [|exact IH]. cbn. destruct (h w); [|exact IH].
  intros [= ->]. congruence.
Qed.
(** [tdb_catalog_drop_table] deletes the first row that carries the name,
    of whatever type: when that is another object, stored before the table,
    the table leaves the cache but its row stays, so that the database opened
    again has the table back, while the other object is lost. *)
Theorem drop_table_takes_other_row p ts c objs name r o r' t :
  rep p ts c objs -> List.find (fun x => label_is name x.2) objs = Some (r, o) -> is_table name o = false ->
  List.find (fun x => is_table name x.2) objs = Some (r', OTable t) ->
  exists q c', tdb_catalog_drop_table depth rounds c p name = Some (q, c')
    /\ c_tables c' = remove_first (fun t => named (tb_name t) name) (c_tables c)
    /\ store q ts c' (remove_obj (label_is name) objs)
    /\ (pager_catalog_root q = c_root c -> c_root c <> 0 ->
        exists q' c2, tdb_catalog_open depth rounds q = Some (TDB_OK, q', Some c2) /\ tdb_catalog_find_table c2 name = Some t).
Proof using All.
  intros [Hr Hc] Hf Ho Ht. destruct (del_first_store p ts c objs (any_hit name) (label_is name) Hr (any_hit_obj name)) as (q & E & Hq).
  exists q. eexists. unfold tdb_catalog_drop_table, del_row. rewrite E. split; [reflexivity|]. split; [done|]. split; [by eapply store_root; [|exact Hq]|].
  intros Hroot Hnz. destruct (load_refines depth rounds q ts c _ Hq) as (q' & E' & _). exists q', (cache_of (c_root c) (remove_obj (label_is name) objs)).
  split; [unfold tdb_catalog_open; rewrite Hroot; destruct (Z.eqb_spec (c_root c) 0); [done|]; unfold empty_catalog in E'; by rewrite E'|].
  unfold tdb_catalog_find_table. rewrite cache_lists. cbn [c_tables].
  eapply (find_omap (fun x => is_table name x.2)); [apply tables_named, (cr_objs _ _ _ _ _ Hq)|by eapply find_after_remove|done].
Qed.
End Refine.
