(* ===== verification/CatalogDemo.v ===== *)
(** * The catalog over the pager

    The catalog, the B-tree, the pager, the log and the memory files together,
    on a fresh database with 512-byte pages. *)
From stdpp Require Import gmap.
From S2P Require Import Prelude Util File Wal WalSpec Buf Value Record Schema Acl Txn Pager PagerSpec PagerFree PagerCommit Btree Cursor Catalog BtreePage BtreeStore BtreeLeaf BtreePager EngineRow EngineSpec EngineDemo CatalogScan CatalogSpec CatalogOps.

#[local] Existing Instances edemo_vfs edemo_laws edemo_pages edemo_view edemo_store edemo_tables.
#[local] Instance cdemo_txn : PagerTxn pager := pager_txn_ops None ok_alloc.
#[local] Instance cdemo_root : CatalogRoot pager := {|
  pager_catalog_root := tdb_pager_catalog_root; pager_set_catalog_root := tdb_pager_set_catalog_root |}.
#[local] Instance cdemo_scan : TableScan pager TDB_MAXDEPTH 10 := leaf_table_scan TDB_MAXDEPTH 10 (le_n_S _ _ (Nat.lt_0_succ 38)).

(** ** An empty catalog *)

Definition cat_created : tdb_status * pager * Z := tdb_btree_create demo_db TDB_BT_TABLE.
Definition cat_root : Z := cat_created.2.
Definition cat_p0 : pager := tdb_pager_set_catalog_root cat_created.1.2 cat_root.
Definition cat_c0 : tdb_catalog := empty_catalog cat_root.
Definition cat_bt : tdb_btree := mk_btree cat_root TDB_BT_TABLE None 512.
Lemma fl_inv_root (p : pager) live r : fl_inv None ok_alloc (p, live) -> fl_inv None ok_alloc (tdb_pager_set_catalog_root p r, live).
Proof.
  intros (Hp & Hro & chain & Hf & Hpart). split; [|split; [exact Hro|exists chain; split; [|exact Hpart]]].
  - destruct Hp as [[] Hs Hpg]. split; [by split|exact Hs|exact Hpg].
  - destruct Hf. by split.
Qed.
#[local] Opaque demo_db.
Lemma cat_rep0 : cat_rep 10 cat_p0 [cat_bt] cat_c0 [].
Proof.
  destruct (leaf_create ok_alloc (fun _ => eq_refl) demo_db [] demo_db_ok) as (q & g & E & _ & Hq & _ & Hps & Hl & _); [vm_compute; reflexivity|].
  assert (cat_created = (TDB_OK, q, g)) as Ec by exact E. assert (pp_page_size q = 512) as Eps by (rewrite Hps; vm_compute; reflexivity).
  unfold cat_c0, cat_bt, cat_p0, cat_root. rewrite Ec. cbn [fst snd]. rewrite Hps in Eps. rewrite Eps in Hl.
  assert (pp_page_size (tdb_pager_set_catalog_root q g) = 512) as Es by (change (pp_page_size q = 512); by rewrite Hps).
  assert (rows_of 512 (st_view (tdb_pager_set_catalog_root q g) g) = []) as Er by (exact (rows_of_leaf _ _ _ Hl)).
  assert (cat_tree (empty_catalog g) (tdb_pager_set_catalog_root q g) = mk_btree g TDB_BT_TABLE None 512) as Et by (unfold cat_tree; by rewrite Es).
  split; [|done]. split; rewrite ?Et; try done.
  - exists [g]. split; [by apply fl_inv_root|]. split; [apply NoDup_singleton|]. intros bt Hbt. apply list_elem_of_singleton in Hbt as ->. split; [by apply list_elem_of_singleton|].
    split; cbn [bt_root]; rewrite Es; [done|]. rewrite Er. exact Hl.
  - by apply list_elem_of_singleton.
  - cbn [tv_rows leaf_tables bt_root]. by rewrite Es, Er.
  - constructor.
  - cbn. lia.
Qed.

(** The size check on the bytes of the objects. *)
Lemma cat_room objs r o :
  (0 <=? r) && (r <? 18446744073709551616) && (blen (obj_row o) <? 100) && (local_val_len 512 8 (blen (obj_row o)) =? blen (obj_row o))
  && (page_used 512 8 (row_cells (row_put (enc objs) r (obj_row o))) <=? 512) = true ->
  room 10 [cat_bt] cat_root objs r o.
Proof.
  intros Hb p c Hroot Hs. pose proof (cr_in _ _ _ _ _ Hs) as Hin. apply list_elem_of_singleton in Hin.
  assert (pp_page_size p = 512) as Eps by (by apply (f_equal bt_ps) in Hin). rewrite Hin. apply demo_fits; [done|].
  assert (rows_of 512 (st_view p (bt_root cat_bt)) = enc objs) as ->; [|done].
  pose proof (cr_rows _ _ _ _ _ Hs) as Hr. rewrite Hin in Hr. cbn [tv_rows leaf_tables] in Hr. rewrite Eps in Hr.
  rewrite <- (sorted_rows_of (enc objs)) by apply Hs. rewrite <- Hr. symmetry. apply sorted_rows_of.
  destruct (cr_ok _ _ _ _ _ Hs) as (live & _ & _ & Hts). destruct (Hts cat_bt ltac:(by apply list_elem_of_singleton)) as [_ [_ Hl]].
  rewrite Eps in Hl. exact (lr_sorted _ _ _ Hl).
Qed.

(** ** Objects *)

Definition demo_space : cat_obj := OTablespace (mk_tablespace (Some (str "fast")) (Some (str "/ssd"))).
Definition demo_table : cat_obj := OTable (tset_roots demo_tab 5 6).
Definition demo_twin : cat_obj := OTablespace (mk_tablespace (Some (str "T")) None).
Lemma s_ok_check s :
  match s with None => true | Some s => forallb (fun c => (0 <? c) && (c <? 256)) s && (blen s <? 1000) end = true -> s_ok s.
Proof.
  unfold s_ok. destruct s as [s|]; cbn; [|lia]. intros [H1 H2]%andb_prop. split; [by apply nul_free_check|lia].
Qed.
Ltac s_ok_tac := apply s_ok_check; vm_compute; reflexivity.
Lemma demo_table_ok : obj_ok demo_table.
Proof.
  split; cbn; try done.
  - split; [s_ok_tac|done].
  - split; [|done]. apply Forall_singleton. split; cbn; try (unfold int_ok; lia); try s_ok_tac; try done. split; [s_ok_tac|done].
Qed.
Definition demo_ops : list cat_op :=
  [CAdd demo_space; CAdd demo_table; CComment 1 (str "T") (Some (str "rows")); CDropSpace (str "FAST"); CDropTable (str "T")].
Lemma demo_putable objs o :
  obj_ok o -> (blen (obj_bytes o) <? 1000) && (next_rowid objs <? 1000) && (length objs <? 5)%nat = true ->
  room 10 [cat_bt] cat_root objs (next_rowid objs) o -> putable 10 [cat_bt] cat_root objs o.
Proof. intros Ho Hb Hr. apply andb_true_iff in Hb as [Hb H3]. apply andb_true_iff in Hb as [H1 H2]. apply Nat.ltb_lt in H3. split; try done; lia. Qed.
Lemma demo_ops_allowed : all_allowed 10 [cat_bt] (c_root cat_c0) [] demo_ops.
Proof.
  split; [|split; [|split; [|split; [|split; [|done]]]]].
  - split; [split; [done|vm_compute; reflexivity]|]. apply demo_putable; [|vm_compute; reflexivity|apply cat_room; vm_compute; reflexivity].
    split; [s_ok_tac|]. split; [s_ok_tac|done].
  - split; [done|]. apply demo_putable; [apply demo_table_ok|vm_compute; reflexivity|apply cat_room; vm_compute; reflexivity].
  - right. apply demo_putable; [|vm_compute; reflexivity|apply cat_room; vm_compute; reflexivity].
    split; [lia|]. split; [done|]. split; s_ok_tac.
  - done.
  - vm_compute. reflexivity.
Qed.
Lemma catalog_refines_objects_witness :
  exists q c', run_ops TDB_MAXDEPTH 10 cat_c0 cat_p0 demo_ops = Some (q, c')
    /\ cat_rep 10 q [cat_bt] c' [(3, OComment 1 (Some (str "T")) (Some (str "rows")))].
Proof.
  destruct (catalog_refines_objects TDB_MAXDEPTH 10 cat_p0 [cat_bt] cat_c0 [] demo_ops cat_rep0 demo_ops_allowed) as (q & c' & E & Hr & _).
  exists q, c'. split; [exact E|]. exact Hr.
Defined.
Lemma comment_set_get_witness :
  exists q q' p' old, tdb_catalog_set_comment TDB_MAXDEPTH 10 cat_c0 cat_p0 1 (Some (str "T")) (Some (str "rows")) = Some (TDB_OK, q)
    /\ tdb_catalog_get_comment TDB_MAXDEPTH 10 cat_c0 cat_p0 1 (Some (str "t")) = Some (p', old)
    /\ tdb_catalog_get_comment TDB_MAXDEPTH 10 cat_c0 q 1 (Some (str "t")) = Some (q', Some (str "rows")).
Proof.
  destruct (comment_set_get TDB_MAXDEPTH 10 cat_p0 [cat_bt] cat_c0 [] 1 (str "T") (Some (str "rows")) 1 (str "t") cat_rep0)
    as (q & q' & p' & old & E1 & E2 & E3 & _).
  - right. apply demo_putable; [|vm_compute; reflexivity|apply cat_room; vm_compute; reflexivity].
    split; [lia|]. split; [done|]. split; s_ok_tac.
  - apply nul_free_check; vm_compute; reflexivity.
  - apply nul_free_check; vm_compute; reflexivity.
  - exists q, q', p', old. split; [exact E1|]. split; [exact E2|exact E3].
Defined.

(** A tablespace and, after it, a table of the same name. *)
Definition twin_objs : objects := [(1, demo_twin); (2, demo_table)].
Lemma twin_rep : exists p c, cat_rep 10 p [cat_bt] c twin_objs /\ c_root c = cat_root.
Proof.
  destruct (op_refines TDB_MAXDEPTH 10 cat_p0 [cat_bt] cat_c0 [] (CAdd demo_twin) cat_rep0) as (p & c & _ & Hr & Hroot).
  - split; [split; [done|vm_compute; reflexivity]|]. apply demo_putable; [|vm_compute; reflexivity|apply cat_room; vm_compute; reflexivity].
    split; [s_ok_tac|]. split; [s_ok_tac|done].
  - destruct (op_refines TDB_MAXDEPTH 10 p [cat_bt] c _ (CAdd demo_table) Hr) as (p' & c' & _ & Hr' & Hroot').
    + rewrite Hroot. split; [done|]. apply demo_putable; [apply demo_table_ok|vm_compute; reflexivity|apply cat_room; vm_compute; reflexivity].
    + exists p', c'. split; [exact Hr'|]. by rewrite Hroot', Hroot.
Qed.
Lemma drop_table_takes_other_row_witness :
  exists p c q c', cat_rep 10 p [cat_bt] c twin_objs /\ tdb_catalog_drop_table TDB_MAXDEPTH 10 c p (str "t") = Some (q, c')
    /\ cat_store 10 q [cat_bt] c' [(2, demo_table)] /\ c_tables c' = [].
Proof.
  destruct twin_rep as (p & c & Hr & _).
  destruct (drop_table_takes_other_row TDB_MAXDEPTH 10 p [cat_bt] c twin_objs (str "t") 1 demo_twin 2 (tset_roots demo_tab 5 6) Hr)
    as (q & c' & E & Et & Hs & _); [vm_compute; reflexivity..|].
  exists p, c, q, c'. split; [exact Hr|]. split; [exact E|]. split; [exact Hs|]. rewrite Et, (proj2 Hr), cache_lists. vm_compute. reflexivity.
Defined.
(** A fresh database gets a catalog, and opening it again finds it. *)
Lemma open_fresh :
  match tdb_catalog_open TDB_MAXDEPTH 10 demo_db with
  | Some (TDB_OK, p, Some c) =>
      pager_catalog_root p = c_root c /\ c = empty_catalog 2
      /\ match tdb_catalog_open TDB_MAXDEPTH 10 p with Some (TDB_OK, _, Some c') => c' = c | _ => False end
  | _ => False
  end.
Proof. vm_compute. repeat split; reflexivity. Qed.
(** A stored length of 2^32 comes out as -1 and passes the bounds check. *)
Lemma catalog_str_overrun : load_row cat_c0 ([CAT_TABLE] ++ tdb_put_varint (2 ^ 32) ++ [65; 65]) = None.
Proof. vm_compute. reflexivity. Qed.
