(* ===== verification/Lexer.v ===== *)
(** * SQL lexer (src/src/sql/tdb_token.h, src/src/sql/tdb_lexer.[ch])

    The source is a byte buffer [lx_z] of which the lexer owns the first
    [lx_len] bytes; beyond the buffer a read gives NUL.  Token text is an
    offset and a length in the source.  The loops take as fuel the bytes that
    are left, which is enough ([lex_next_ok]). *)
From Stdlib Require Import SpecFloat.
From S2P Require Import Prelude Util Value Cnum.

Inductive tdb_token_kind :=
  | TK_EOF | TK_ILLEGAL | TK_ID | TK_STRING | TK_INTEGER | TK_FLOAT | TK_BLOB | TK_PARAM | TK_LP | TK_RP
  | TK_COMMA | TK_SEMI | TK_DOT | TK_STAR | TK_PLUS | TK_MINUS | TK_SLASH | TK_PERCENT | TK_EQ | TK_NE
  | TK_LT | TK_LE | TK_GT | TK_GE | TK_CONCAT | TK_BITAND | TK_BITOR | TK_BITNOT | TK_SHL | TK_SHR
  | TK_SELECT | TK_FROM | TK_WHERE | TK_GROUP | TK_BY | TK_HAVING | TK_ORDER | TK_ASC | TK_DESC | TK_LIMIT
  | TK_OFFSET | TK_DISTINCT | TK_ALL | TK_AS | TK_JOIN | TK_INNER | TK_LEFT | TK_RIGHT | TK_FULL | TK_OUTER
  | TK_CROSS | TK_ON | TK_USING | TK_AND | TK_OR | TK_NOT | TK_NULL | TK_IS | TK_IN | TK_LIKE | TK_BETWEEN
  | TK_EXISTS | TK_CASE | TK_WHEN | TK_THEN | TK_ELSE | TK_END | TK_CAST | TK_TRUE | TK_FALSE | TK_INSERT
  | TK_INTO | TK_VALUES | TK_UPDATE | TK_SET | TK_DELETE | TK_CREATE | TK_TABLE | TK_INDEX | TK_UNIQUE
  | TK_VIEW | TK_MATERIALIZED | TK_DROP | TK_IF | TK_TEMP | TK_PRIMARY | TK_KEY | TK_FOREIGN | TK_REFERENCES
  | TK_DEFAULT | TK_CHECK | TK_COLLATE | TK_CONSTRAINT | TK_AUTOINCREMENT | TK_GENERATED | TK_ALWAYS
  | TK_STORED | TK_VIRTUAL | TK_WITH | TK_SYSTEM | TK_VERSIONING | TK_PERIOD | TK_FOR | TK_BEGIN | TK_COMMIT
  | TK_ROLLBACK | TK_TRANSACTION | TK_SAVEPOINT | TK_RELEASE | TK_TO | TK_FUNCTION | TK_PROCEDURE
  | TK_LANGUAGE | TK_RETURNS | TK_CALL | TK_PREPARE | TK_ALTER | TK_ADD | TK_COLUMN | TK_RENAME | TK_UNION
  | TK_EXCEPT | TK_INTERSECT | TK_EXPLAIN | TK_VACUUM | TK_RETURNING | TK_GLOB | TK_ESCAPE | TK_TABLESPACE
  | TK_PARTITION | TK_RANGE | TK_LIST | TK_HASH | TK_TRUNCATE | TK_ANALYZE | TK_REINDEX | TK_COMMENT
  | TK_COMPRESSION | TK_GRANT | TK_REVOKE | TK_PRIVILEGES | TK_ROLE | TK_USER | TK_OWNED | TK_ATTACH
  | TK_DETACH | TK_DATABASE | TK_LOCK | TK_TYPE | TK_LOCATION | TK_MAX.

Record tdb_token := mk_token {
  t_kind : tdb_token_kind; t_z : Z; t_n : Z; t_ival : Z; t_rval : spec_float }.
Record tdb_lexer := mk_lexer { lx_z : list Z; lx_len : Z; lx_pos : Z }.

Definition tdb_lex_init (sql : option (list Z)) (len : Z) : tdb_lexer :=
  mk_lexer (default [] sql)
    (if negb (len =? 0) then len else match sql with Some s => strlen s | None => 0 end) 0.

(** ** Keywords *)

Definition k_keywords : list (list Z * tdb_token_kind) :=
  map (fun k : string * tdb_token_kind => (str k.1, k.2))
  [("SELECT", TK_SELECT); ("FROM", TK_FROM); ("WHERE", TK_WHERE); ("GROUP", TK_GROUP); ("BY", TK_BY);
   ("HAVING", TK_HAVING); ("ORDER", TK_ORDER); ("ASC", TK_ASC); ("DESC", TK_DESC); ("LIMIT", TK_LIMIT);
   ("OFFSET", TK_OFFSET); ("DISTINCT", TK_DISTINCT); ("ALL", TK_ALL); ("AS", TK_AS); ("JOIN", TK_JOIN);
   ("INNER", TK_INNER); ("LEFT", TK_LEFT); ("RIGHT", TK_RIGHT); ("FULL", TK_FULL); ("OUTER", TK_OUTER);
   ("CROSS", TK_CROSS); ("ON", TK_ON); ("USING", TK_USING); ("AND", TK_AND); ("OR", TK_OR); ("NOT", TK_NOT);
   ("NULL", TK_NULL); ("IS", TK_IS); ("IN", TK_IN); ("LIKE", TK_LIKE); ("BETWEEN", TK_BETWEEN);
   ("EXISTS", TK_EXISTS); ("CASE", TK_CASE); ("WHEN", TK_WHEN); ("THEN", TK_THEN); ("ELSE", TK_ELSE);
   ("END", TK_END); ("CAST", TK_CAST); ("TRUE", TK_TRUE); ("FALSE", TK_FALSE); ("INSERT", TK_INSERT);
   ("INTO", TK_INTO); ("VALUES", TK_VALUES); ("UPDATE", TK_UPDATE); ("SET", TK_SET); ("DELETE", TK_DELETE);
   ("CREATE", TK_CREATE); ("TABLE", TK_TABLE); ("INDEX", TK_INDEX); ("UNIQUE", TK_UNIQUE); ("VIEW", TK_VIEW);
   ("MATERIALIZED", TK_MATERIALIZED); ("DROP", TK_DROP); ("IF", TK_IF); ("TEMP", TK_TEMP);
   ("TEMPORARY", TK_TEMP); ("PRIMARY", TK_PRIMARY); ("KEY", TK_KEY); ("FOREIGN", TK_FOREIGN);
   ("REFERENCES", TK_REFERENCES); ("DEFAULT", TK_DEFAULT); ("CHECK", TK_CHECK); ("COLLATE", TK_COLLATE);
   ("CONSTRAINT", TK_CONSTRAINT); ("AUTOINCREMENT", TK_AUTOINCREMENT); ("GENERATED", TK_GENERATED);
   ("ALWAYS", TK_ALWAYS); ("STORED", TK_STORED); ("VIRTUAL", TK_VIRTUAL); ("WITH", TK_WITH);
   ("SYSTEM", TK_SYSTEM); ("VERSIONING", TK_VERSIONING); ("PERIOD", TK_PERIOD); ("FOR", TK_FOR);
   ("BEGIN", TK_BEGIN); ("COMMIT", TK_COMMIT); ("ROLLBACK", TK_ROLLBACK); ("TRANSACTION", TK_TRANSACTION);
   ("SAVEPOINT", TK_SAVEPOINT); ("RELEASE", TK_RELEASE); ("TO", TK_TO); ("FUNCTION", TK_FUNCTION);
   ("PROCEDURE", TK_PROCEDURE); ("LANGUAGE", TK_LANGUAGE); ("RETURNS", TK_RETURNS); ("CALL", TK_CALL);
   ("PREPARE", TK_PREPARE); ("ALTER", TK_ALTER); ("ADD", TK_ADD); ("COLUMN", TK_COLUMN);
   ("RENAME", TK_RENAME); ("UNION", TK_UNION); ("EXCEPT", TK_EXCEPT); ("INTERSECT", TK_INTERSECT);
   ("EXPLAIN", TK_EXPLAIN); ("VACUUM", TK_VACUUM); ("RETURNING", TK_RETURNING); ("GLOB", TK_GLOB);
   ("ESCAPE", TK_ESCAPE); ("TABLESPACE", TK_TABLESPACE); ("PARTITION", TK_PARTITION);
   ("TRUNCATE", TK_TRUNCATE); ("ANALYZE", TK_ANALYZE); ("REINDEX", TK_REINDEX); ("COMMENT", TK_COMMENT);
   ("COMPRESSION", TK_COMPRESSION); ("GRANT", TK_GRANT); ("REVOKE", TK_REVOKE); ("ATTACH", TK_ATTACH);
   ("DETACH", TK_DETACH); ("DATABASE", TK_DATABASE); ("LOCK", TK_LOCK); ("LOCATION", TK_LOCATION)].

Definition tdb_keyword_lookup (z : list Z) (n : Z) : tdb_token_kind :=
  match List.find (fun k => (blen k.1 =? n) && (strncasecmp z k.1 (Z.to_nat n) =? 0)) k_keywords with
  | Some k => k.2
  | None => TK_ID
  end.

Open Scope string_scope.
Definition k_all_keywords : list (list Z) :=
  map str
  ["ABORT"; "ACTION"; "ADD"; "AFTER"; "ALL"; "ALTER"; "ALWAYS"; "ANALYZE"; "AND"; "AS"; "ASC"; "ATTACH";
   "AUTOINCREMENT"; "BEFORE"; "BEGIN"; "BETWEEN"; "BIT"; "BY"; "CALL"; "CASCADE"; "CASE"; "CAST"; "CHECK";
   "COLLATE"; "COLUMN"; "COMMENT"; "COMMIT"; "COMPRESSION"; "CONFLICT"; "CONSTRAINT"; "CREATE"; "CROSS";
   "CURRENT"; "CURRENT_DATE"; "CURRENT_TIME"; "CURRENT_TIMESTAMP"; "DATABASE"; "DEFAULT"; "DEFERRABLE";
   "DEFERRED"; "DELETE"; "DESC"; "DETACH"; "DISTINCT"; "DO"; "DROP"; "EACH"; "ELSE"; "ELSIF"; "END";
   "ESCAPE"; "EXCEPT"; "EXCLUDE"; "EXCLUSIVE"; "EXISTS"; "EXPLAIN"; "FAIL"; "FILTER"; "FIRST"; "FOLLOWING";
   "FOR"; "FOREIGN"; "FROM"; "FULL"; "FUNCTION"; "GENERATED"; "GLOB"; "GRANT"; "GROUP"; "GROUPS"; "HASH";
   "HAVING"; "IF"; "IGNORE"; "IMMEDIATE"; "IN"; "INDEX"; "INDEXED"; "INITIALLY"; "INNER"; "INSERT";
   "INSTEAD"; "INTERSECT"; "INTERVAL"; "INTO"; "IS"; "ISNULL"; "JOIN"; "KEY"; "LANGUAGE"; "LAST"; "LEFT";
   "LIKE"; "LIMIT"; "LIST"; "LOCATION"; "LOCK"; "LOOP"; "MATCH"; "MATERIALIZED"; "NATURAL"; "NO"; "NOT";
   "NOTHING"; "NOTNULL"; "NULL"; "NULLS"; "OF"; "OFFSET"; "ON"; "OR"; "ORDER"; "OTHERS"; "OUTER"; "OVER";
   "OWNED"; "PARTITION"; "PERIOD"; "PLAN"; "PRAGMA"; "PRECEDING"; "PREPARE"; "PRIMARY"; "PRIVILEGES";
   "PROCEDURE"; "QUERY"; "RAISE"; "RANGE"; "RECURSIVE"; "REFERENCES"; "REGEXP"; "REINDEX"; "RELEASE";
   "RENAME"; "REPLACE"; "RESTRICT"; "RETURNING"; "RETURNS"; "REVOKE"; "RIGHT"; "ROLE"; "ROLLBACK"; "ROW";
   "ROWS"; "SAVEPOINT"; "SELECT"; "SEQUENCE"; "SET"; "STORED"; "SYSTEM"; "TABLE"; "TABLESPACE"; "TEMP";
   "TEMPORARY"; "THEN"; "TIES"; "TO"; "TRANSACTION"; "TRIGGER"; "TRUNCATE"; "TYPE"; "UNBOUNDED"; "UNION";
   "UNIQUE"; "UPDATE"; "USER"; "USING"; "VACUUM"; "VALUES"; "VARBIT"; "VERSIONING"; "VIEW"; "VIRTUAL";
   "WHEN"; "WHERE"; "WHILE"; "WINDOW"; "WITH"; "WITHOUT"; "XML"].
Close Scope string_scope.

Definition tdb_keyword_count : Z := Z.of_nat (length k_all_keywords).
Definition tdb_keyword_name (i : Z) : tdb_status * list Z :=
  if (i <? 0) || (tdb_keyword_count <=? i) then (TDB_RANGE, [])
  else (TDB_OK, nth (Z.to_nat i) k_all_keywords []).
Definition tdb_keyword_check (z : option (list Z)) (n : Z) : bool :=
  match z with
  | None => false
  | Some z =>
      let n := if n <? 0 then strlen z else n in
      existsb (fun k => (blen k =? n) && (strncasecmp z k (Z.to_nat n) =? 0)) k_all_keywords
  end.

(** ** Characters *)

Definition isalpha (c : Z) : bool := ((65 <=? c) && (c <=? 90)) || ((97 <=? c) && (c <=? 122)).
Definition isalnum (c : Z) : bool := isalpha c || isdigit c.
Definition is_id_start (c : Z) : bool := isalpha c || (c =? 95).
Definition is_id_char (c : Z) : bool := isalnum c || (c =? 95) || (c =? 36).

(** [while (pos < len && f(z[pos])) pos++] *)
Fixpoint scan_while (fuel : nat) (f : Z -> bool) (z : list Z) (len pos : Z) : Z :=
  match fuel with
  | O => pos
  | S fuel => if (pos <? len) && f (bget z pos) then scan_while fuel f z len (pos + 1) else pos
  end.
Definition run_while (f : Z -> bool) (z : list Z) (len pos : Z) : Z := scan_while (Z.to_nat (len - pos)) f z len pos.

(** The end of a block comment: [pos] at its first character. *)
Fixpoint scan_comment (fuel : nat) (z : list Z) (len pos : Z) : Z :=
  match fuel with
  | O => pos
  | S fuel =>
      if (pos + 1 <? len) && negb ((bget z pos =? 42) && (bget z (pos + 1) =? 47))
      then scan_comment fuel z len (pos + 1) else pos
  end.
Fixpoint trivia_loop (fuel : nat) (z : list Z) (len pos : Z) : Z :=
  match fuel with
  | O => pos
  | S fuel =>
      let pos := run_while isspace z len pos in
      if (pos + 1 <? len) && (bget z pos =? 45) && (bget z (pos + 1) =? 45) then
        trivia_loop fuel z len (run_while (fun c => negb (c =? 10)) z len (pos + 2))
      else if (pos + 1 <? len) && (bget z pos =? 47) && (bget z (pos + 1) =? 42) then
        let pos := scan_comment (Z.to_nat (len - (pos + 2))) z len (pos + 2) in
        trivia_loop fuel z len (if pos + 1 <? len then pos + 2 else len)
      else pos
  end.
Definition skip_trivia (lx : tdb_lexer) : tdb_lexer :=
  mk_lexer (lx_z lx) (lx_len lx)
    (trivia_loop (S (Z.to_nat (lx_len lx - lx_pos lx))) (lx_z lx) (lx_len lx) (lx_pos lx)).

Definition at_ (lx : tdb_lexer) (off : Z) : Z :=
  if lx_pos lx + off <? lx_len lx then bget (lx_z lx) (lx_pos lx + off) else 0.
Definition move (lx : tdb_lexer) (pos : Z) : tdb_lexer := mk_lexer (lx_z lx) (lx_len lx) pos.
Definition run_to (f : Z -> bool) (lx : tdb_lexer) (pos : Z) : Z := run_while f (lx_z lx) (lx_len lx) pos.

(** A token without a numeric value. *)
Definition token (k : tdb_token_kind) (z n : Z) : tdb_token := mk_token k z (s32 n) 0 (S754_zero false).
(** [if (lx->pos < lx->len) lx->pos++] *)
Definition close_delim (lx : tdb_lexer) (pos : Z) : Z := if pos <? lx_len lx then pos + 1 else pos.

(** The end of a quoted string: a doubled delimiter does not end it. *)
Fixpoint quoted_end (fuel : nat) (z : list Z) (len delim pos : Z) : Z :=
  match fuel with
  | O => pos
  | S fuel =>
      if len <=? pos then pos
      else if bget z pos =? delim then
        if (pos + 1 <? len) && (bget z (pos + 1) =? delim) then quoted_end fuel z len delim (pos + 2) else pos
      else quoted_end fuel z len delim (pos + 1)
  end.
Definition scan_quoted (lx : tdb_lexer) (delim : Z) (k : tdb_token_kind) : tdb_lexer * tdb_token :=
  let start := lx_pos lx + 1 in
  let e := quoted_end (Z.to_nat (lx_len lx - start)) (lx_z lx) (lx_len lx) delim start in
  (move lx (close_delim lx e), token k start (e - start)).

(** ** Numbers *)

(** [strtoll(s, NULL, 0)]: a sign, then hexadecimal after 0x, octal after 0,
    else decimal; saturating. *)
Fixpoint scan_base (base : Z) (s : list Z) (acc : Z) : Z :=
  match s with
  | c :: t => if isxdigit c && (xdigit c <? base) then scan_base base t (acc * base + xdigit c) else acc
  | [] => acc
  end.
Definition strtoull0 (s : list Z) : Z :=
  match s with
  | 48 :: (120 | 88) :: c :: t => if isxdigit c then scan_base 16 (c :: t) 0 else 0
  | 48 :: t => scan_base 8 t 0
  | _ => scan_base 10 s 0
  end.
Definition strtoll0 (s : list Z) : Z :=
  match skip_space (cstr s) with
  | 45 :: t => clamp64 (- strtoull0 t)
  | 43 :: t => clamp64 (strtoull0 t)
  | s => clamp64 (strtoull0 s)
  end.

(** The text is cut to the 79 bytes of the buffer. *)
Definition parse_number (text : list Z) (k : tdb_token_kind) (z n : Z) : tdb_token :=
  let buf := bsub text 0 (if n <? 79 then n else 79) in
  match k with
  | TK_INTEGER => let v := strtoll0 buf in mk_token k z n v (f64_of_int v)
  | _ => let r := strtod buf in mk_token k z n (f64_trunc r) r
  end.

(** The end of a number and whether it is a float. *)
Definition number_end (lx : tdb_lexer) : Z * bool :=
  let z := lx_z lx in
  let len := lx_len lx in
  let p := lx_pos lx in
  if (at_ lx 0 =? 48) && ((at_ lx 1 =? 120) || (at_ lx 1 =? 88)) then (run_while isxdigit z len (p + 2), false)
  else
    let p := run_while isdigit z len p in
    let '(p, fl) := if (p <? len) && (bget z p =? 46) then (run_while isdigit z len (p + 1), true) else (p, false) in
    if (p <? len) && ((bget z p =? 101) || (bget z p =? 69)) then
      let p := p + 1 in
      let p := if (p <? len) && ((bget z p =? 43) || (bget z p =? 45)) then p + 1 else p in
      (run_while isdigit z len p, true)
    else (p, fl).

(** ** Dollar quotes *)

(** [strncmp(a, b, n)], the end of a list reading as the terminator. *)
Fixpoint strncmp (a b : list Z) (n : nat) : Z :=
  match n with
  | O => 0
  | S n =>
      let x := hd 0 a in
      let y := hd 0 b in
      if x <? y then -1 else if y <? x then 1 else if x =? 0 then 0 else strncmp (tl a) (tl b) n
  end.

Fixpoint dollar_end (fuel : nat) (z : list Z) (len : Z) (tag : list Z) (pos : Z) : Z :=
  match fuel with
  | O => pos
  | S fuel =>
      if pos <? len then
        if (bget z pos =? 36) && (pos + blen tag + 1 <=? len)
           && (strncmp (bfrom z (pos + 1)) tag (length tag) =? 0) && (bget z (pos + 1 + blen tag) =? 36)
        then pos else dollar_end fuel z len tag (pos + 1)
      else pos
  end.
Definition lex_param (lx : tdb_lexer) : tdb_lexer * tdb_token :=
  let start := lx_pos lx in
  let e := run_to is_id_char lx (start + 1) in
  (move lx e, token TK_PARAM start (e - start)).
Definition lex_dollar (lx : tdb_lexer) : tdb_lexer * tdb_token :=
  let z := lx_z lx in
  let len := lx_len lx in
  let t := run_to (fun c => is_id_char c && negb (c =? 36)) lx (lx_pos lx + 1) in
  if (t <? len) && (bget z t =? 36) then
    let tag := bsub z (lx_pos lx + 1) (t - (lx_pos lx + 1)) in
    let s := t + 1 in
    let e := dollar_end (Z.to_nat (len - s)) z len tag s in
    (move lx (if e <? len then e + blen tag + 2 else e), token TK_STRING s (e - s))
  else lex_param lx.

(** ** Operators *)

(** [two k] takes a second character. *)
Definition lex_op (lx : tdb_lexer) (c : Z) : tdb_lexer * tdb_token :=
  let start := lx_pos lx in
  let lx := move lx (start + 1) in
  let one k := (lx, token k start 1) in
  let two k := (move lx (start + 2), token k start 2) in
  let nx := at_ lx 0 in
  match c with
  | 40 => one TK_LP | 41 => one TK_RP | 44 => one TK_COMMA | 59 => one TK_SEMI | 46 => one TK_DOT
  | 42 => one TK_STAR | 43 => one TK_PLUS | 45 => one TK_MINUS | 47 => one TK_SLASH | 37 => one TK_PERCENT
  | 61 => if nx =? 61 then two TK_EQ else one TK_EQ
  | 60 => if nx =? 61 then two TK_LE else if nx =? 62 then two TK_NE else if nx =? 60 then two TK_SHL else one TK_LT
  | 62 => if nx =? 61 then two TK_GE else if nx =? 62 then two TK_SHR else one TK_GT
  | 33 => if nx =? 61 then two TK_NE else one TK_ILLEGAL
  | 124 => if nx =? 124 then two TK_CONCAT else one TK_BITOR
  | 38 => one TK_BITAND
  | 126 => one TK_BITNOT
  | _ => one TK_ILLEGAL
  end.

(** ** The next token *)

(** Text up to [delim], from [start]: blob literals and bracketed names. *)
Definition lex_until (lx : tdb_lexer) (delim : Z) (k : tdb_token_kind) (start : Z) : tdb_lexer * tdb_token :=
  let e := run_to (fun c => negb (c =? delim)) lx start in
  (move lx (close_delim lx e), token k start (e - start)).
Definition lex_word (lx : tdb_lexer) : tdb_lexer * tdb_token :=
  let start := lx_pos lx in
  let e := run_to is_id_char lx start in
  (move lx e, token (tdb_keyword_lookup (bfrom (lx_z lx) start) (s32 (e - start))) start (e - start)).
Definition lex_number (lx : tdb_lexer) : tdb_lexer * tdb_token :=
  let start := lx_pos lx in
  let '(e, fl) := number_end lx in
  (move lx e, parse_number (bfrom (lx_z lx) start) (if fl then TK_FLOAT else TK_INTEGER) start (s32 (e - start))).

Definition tdb_lex_next (lx : tdb_lexer) : tdb_lexer * tdb_token :=
  let lx := skip_trivia lx in
  if lx_len lx <=? lx_pos lx then (lx, token TK_EOF (lx_pos lx) 0)
  else
    let c := at_ lx 0 in
    if ((c =? 120) || (c =? 88)) && (at_ lx 1 =? 39) then lex_until lx 39 TK_BLOB (lx_pos lx + 2)
    else if is_id_start c then lex_word lx
    else if isdigit c || ((c =? 46) && isdigit (at_ lx 1)) then lex_number lx
    else if c =? 39 then scan_quoted lx 39 TK_STRING
    else if c =? 34 then scan_quoted lx 34 TK_ID
    else if c =? 96 then scan_quoted lx 96 TK_ID
    else if c =? 91 then lex_until lx 93 TK_ID (lx_pos lx + 1)
    else if c =? 36 then lex_dollar lx
    else if (c =? 63) || (c =? 58) || (c =? 64) then lex_param lx
    else lex_op lx c.

Definition is_eof (k : tdb_token_kind) : bool := match k with TK_EOF => true | _ => false end.
(** All tokens up to the end; [None] when the fuel is used up. *)
Fixpoint lex_all (fuel : nat) (lx : tdb_lexer) : option (list tdb_token) :=
  match fuel with
  | O => None
  | S fuel =>
      let '(lx, t) := tdb_lex_next lx in
      if is_eof (t_kind t) then Some [t]
      else match lex_all fuel lx with Some l => Some (t :: l) | None => None end
  end.

(** ** String literals (src/src/sql/tdb_parser.c)

    [decode_string] copies the text of a token and drops one of two quotes in
    a row. *)
Fixpoint decode_string (text : list Z) : list Z :=
  match text with
  | 39 :: 39 :: t => 39 :: decode_string t
  | c :: t => c :: decode_string t
  | [] => []
  end.

(** ** Token names *)

Definition tdb_token_name (k : tdb_token_kind) : list Z :=
  str (match k with
      | TK_EOF => "EOF" | TK_ID => "ID" | TK_STRING => "STRING" | TK_INTEGER => "INTEGER"
      | TK_FLOAT => "FLOAT" | TK_BLOB => "BLOB" | TK_PARAM => "PARAM" | TK_LP => "(" | TK_RP => ")"
      | TK_COMMA => "," | TK_SEMI => ";" | TK_DOT => "." | TK_STAR => "*" | TK_PLUS => "+" | TK_MINUS => "-"
      | TK_SLASH => "/" | TK_PERCENT => "%" | TK_EQ => "=" | TK_NE => "!=" | TK_LT => "<" | TK_LE => "<="
      | TK_GT => ">" | TK_GE => ">=" | TK_CONCAT => "||" | TK_BITAND => "&" | TK_BITOR => "|"
      | TK_BITNOT => "~" | TK_SHL => "<<" | TK_SHR => ">>" | TK_AND => "AND" | TK_OR => "OR"
      | TK_NOT => "NOT" | TK_IS => "IS" | TK_IN => "IN" | TK_LIKE => "LIKE" | TK_BETWEEN => "BETWEEN"
      | TK_ILLEGAL => "ILLEGAL"
      | _ => "KEYWORD"
      end).
