(* ===== verification/LexerSpec.v ===== *)
(** * The lexer: bounds, progress, round trip

    Every token lies inside the input and moves the position; printed lexemes
    are read back; keywords are recognised in any letter case. *)
From Stdlib Require Import SpecFloat.
From S2P Require Import Prelude Util Value Cnum Lexer.

(** ** Loops *)

Lemma scan_while_ok fuel f z len pos :
  0 <= pos <= len -> len - pos <= Z.of_nat fuel ->
  pos <= scan_while fuel f z len pos <= len
  /\ (forall i, pos <= i < scan_while fuel f z len pos -> f (bget z i) = true)
  /\ (scan_while fuel f z len pos = len \/ f (bget z (scan_while fuel f z len pos)) = false).
Proof.
  revert pos. induction fuel as [|fuel IH]; intros pos Hp Hf; cbn [scan_while].
  { split; [lia|]. split; [intros i Hi; lia|left; lia]. }
  destruct (Z.ltb_spec pos len); cbn [andb]; [|split; [lia|]; split; [intros i Hi; lia|left; lia]].
  destruct (f (bget z pos)) eqn:E; [|split; [lia|]; split; [intros i Hi; lia|by right]].
  destruct (IH (pos + 1) ltac:(lia) ltac:(lia)) as (H1 & H2 & H3). split; [lia|]. split; [|done].
  intros i Hi. destruct (decide (i = pos)) as [->|]; [done|apply H2; lia].
Qed.
Lemma run_while_ok f z len pos :
  0 <= pos <= len ->
  pos <= run_while f z len pos <= len
  /\ (forall i, pos <= i < run_while f z len pos -> f (bget z i) = true)
  /\ (run_while f z len pos = len \/ f (bget z (run_while f z len pos)) = false).
Proof. intros Hp. apply scan_while_ok; lia. Qed.
Lemma scan_comment_ok fuel z len pos :
  0 <= pos <= len -> pos <= scan_comment fuel z len pos <= len.
Proof.
  revert pos. induction fuel as [|fuel IH]; intros pos Hp; cbn [scan_comment]; [lia|].
  destruct (Z.ltb_spec (pos + 1) len); cbn [andb]; [|lia]. destruct (negb _); [|lia]. specialize (IH (pos + 1) ltac:(lia)). lia.
Qed.
(** Where [skip_trivia] stops: at the end, or at a character that starts
    neither white space nor a comment. *)
Definition token_start (z : list Z) (len r : Z) : Prop :=
  r = len \/ (r < len /\ isspace (bget z r) = false
              /\ (r + 1 < len -> ~ (bget z r = 45 /\ bget z (r + 1) = 45) /\ ~ (bget z r = 47 /\ bget z (r + 1) = 42))).
Lemma trivia_loop_ok fuel z len pos :
  0 <= pos <= len -> len - pos < Z.of_nat fuel ->
  pos <= trivia_loop fuel z len pos <= len /\ token_start z len (trivia_loop fuel z len pos).
Proof.
  revert pos. induction fuel as [|fuel IH]; intros pos Hp Hf; [lia|]. cbn [trivia_loop].
  destruct (run_while_ok isspace z len pos Hp) as (H1 & _ & H3). set (p := run_while isspace z len pos) in *.
  destruct (Z.ltb_spec (p + 1) len) as [Hl|Hl]; cbn [andb].
  2: { split; [lia|]. destruct H3 as [->|H3]; [by left|]. destruct (decide (p = len)); [by left|]. right. split; [lia|]. split; [done|lia]. }
  assert (isspace (bget z p) = false) as Hsp by (destruct H3; [lia|done]).
  destruct (Z.eqb_spec (bget z p) 45) as [E1|E1], (Z.eqb_spec (bget z (p + 1)) 45) as [E2|E2]; cbn [andb].
  1: { destruct (run_while_ok (fun c => negb (c =? 10)) z len (p + 2) ltac:(lia)) as (G1 & _).
       destruct (IH (run_while (fun c => negb (c =? 10)) z len (p + 2)) ltac:(lia) ltac:(lia)). split; [lia|done]. }
  all: destruct (Z.eqb_spec (bget z p) 47) as [E3|E3], (Z.eqb_spec (bget z (p + 1)) 42) as [E4|E4]; cbn [andb]; try lia;
    try (split; [lia|]; right; split; [lia|]; split; [done|]; intros _; split; intros [? ?]; congruence).
  all: pose proof (scan_comment_ok (Z.to_nat (len - (p + 2))) z len (p + 2) ltac:(lia)) as G;
    set (q := scan_comment _ z len (p + 2)) in *; destruct (Z.ltb_spec (q + 1) len);
    match goal with |- context [trivia_loop _ _ _ ?x] => destruct (IH x ltac:(lia) ltac:(lia)); split; [lia|done] end.
Qed.
Lemma quoted_end_ok fuel z len delim pos :
  0 <= pos <= len -> len - pos <= Z.of_nat fuel ->
  pos <= quoted_end fuel z len delim pos <= len.
Proof.
  revert pos. induction fuel as [|fuel IH]; intros pos Hp Hf; cbn [quoted_end]; [lia|].
  destruct (Z.leb_spec len pos); [lia|]. destruct (_ =? delim).
  - destruct (Z.ltb_spec (pos + 1) len); cbn [andb]; [|lia]. destruct (_ =? delim); [|lia]. specialize (IH (pos + 2) ltac:(lia) ltac:(lia)). lia.
  - specialize (IH (pos + 1) ltac:(lia) ltac:(lia)). lia.
Qed.
(** The closing quote of a dollar-quoted string is inside the input when the
    byte after the input is not a dollar sign. *)
Lemma dollar_end_ok fuel z len tag pos :
  bget z len <> 36 -> 0 <= pos <= len -> len - pos <= Z.of_nat fuel ->
  pos <= dollar_end fuel z len tag pos <= len
  /\ (dollar_end fuel z len tag pos < len -> dollar_end fuel z len tag pos + blen tag + 2 <= len).
Proof.
  intros Hz. revert pos. induction fuel as [|fuel IH]; intros pos Hp Hf; cbn [dollar_end]; [lia|].
  destruct (Z.ltb_spec pos len); [|lia]. destruct (_ && _ && _ && _) eqn:E.
  - rewrite !andb_true_iff in E. destruct E as [[[_ E1] _] E2]. split; [lia|]. intros _.
    destruct (decide (pos + 1 + blen tag = len)) as [Eq|]; [rewrite Eq in E2; lia|lia].
  - specialize (IH (pos + 1) ltac:(lia) ltac:(lia)). lia.
Qed.
Lemma number_end_ok lx :
  0 <= lx_pos lx < lx_len lx -> isdigit (at_ lx 0) || ((at_ lx 0 =? 46) && isdigit (at_ lx 1)) = true ->
  lx_pos lx < (number_end lx).1 <= lx_len lx.
Proof.
  intros Hp Hd. unfold number_end. set (z := lx_z lx). set (len := lx_len lx) in *. set (p0 := lx_pos lx) in *.
  destruct (_ && (_ || _)) eqn:Ex.
  { assert (p0 + 1 < len) as Hl.
    { apply andb_true_iff in Ex as [_ Ex]. unfold at_ in Ex. fold p0 len in Ex. destruct (Z.ltb_spec (p0 + 1) len); [done|].
      cbn in Ex. done. }
    cbn [fst]. destruct (run_while_ok isxdigit z len (p0 + 2) ltac:(lia)) as (H1 & _). lia. }
  destruct (run_while_ok isdigit z len p0 ltac:(lia)) as (H1 & _ & H3). set (p1 := run_while isdigit z len p0) in *.
  assert (exists p2 fl, (if (p1 <? len) && (bget z p1 =? 46) then (run_while isdigit z len (p1 + 1), true) else (p1, false)) = (p2, fl)
            /\ p1 <= p2 <= len /\ p0 < p2) as (p2 & fl & -> & H2 & H4).
  { destruct (Z.ltb_spec p1 len) as [Hl|Hl]; cbn [andb]; [|by exists p1, false; split; [done|]; lia].
    destruct (Z.eqb_spec (bget z p1) 46).
    - destruct (run_while_ok isdigit z len (p1 + 1) ltac:(lia)) as (G1 & _). eexists _, true. split; [done|]. lia.
    - exists p1, false. split; [done|]. split; [lia|]. destruct (decide (p1 = p0)) as [E|]; [|lia]. exfalso.
      destruct H3 as [|H3]; [lia|]. rewrite E in *. unfold at_ in Hd. fold p0 len z in Hd. rewrite Z.add_0_r in Hd.
      destruct (Z.ltb_spec p0 len); [|lia]. rewrite H3 in Hd. cbn [orb] in Hd. apply andb_true_iff in Hd as [Hd _]. lia. }
  destruct (Z.ltb_spec p2 len) as [Hl|Hl]; cbn [andb]; [|cbn [fst]; lia].
  destruct ((bget z p2 =? 101) || (bget z p2 =? 69)); cbn [fst]; [|lia].
  set (x := if (p2 + 1 <? len) && ((bget z (p2 + 1) =? 43) || (bget z (p2 + 1) =? 45)) then p2 + 1 + 1 else p2 + 1). assert (p2 < x <= len) as Hx.
  { unfold x. destruct (Z.ltb_spec (p2 + 1) len); cbn [andb]; [|lia].
    destruct ((bget z (p2 + 1) =? 43) || (bget z (p2 + 1) =? 45)); lia. }
  destruct (run_while_ok isdigit z len x ltac:(lia)) as (G1 & _). lia.
Qed.

(** ** One token *)

(** The input of the lexer is bounded by [lx_len]; the byte after it is not a
    dollar sign (it is the terminator of a C string). *)
Record lexer_wf (lx : tdb_lexer) : Prop := mk_lexer_wf {
  lw_pos : 0 <= lx_pos lx <= lx_len lx;
  lw_len : lx_len lx < 2 ^ 31;
  lw_end : bget (lx_z lx) (lx_len lx) <> 36 }.
(** The token [t] was found between [pos] and the new position. *)
Definition token_in (lx lx' : tdb_lexer) (t : tdb_token) : Prop :=
  lx_z lx' = lx_z lx /\ lx_len lx' = lx_len lx
  /\ lx_pos lx <= t_z t /\ 0 <= t_n t /\ t_z t + t_n t <= lx_pos lx' <= lx_len lx
  /\ lx_pos lx < lx_pos lx' /\ t_kind t <> TK_EOF.

Lemma keyword_not_eof z n : tdb_keyword_lookup z n <> TK_EOF.
Proof.
  unfold tdb_keyword_lookup. destruct (List.find _ k_keywords) as [k|] eqn:E; [|done]. apply find_some in E as [E _].
  assert (forallb (fun k : list Z * tdb_token_kind => match k.2 with TK_EOF => false | _ => true end) k_keywords = true) as H
    by (vm_compute; done).
  rewrite forallb_forall in H. specialize (H k E). by destruct (k.2).
Qed.
Lemma token_in_move lx k z n pos :
  lexer_wf lx -> lx_pos lx <= z -> 0 <= n -> z + n <= pos <= lx_len lx -> lx_pos lx < pos -> k <> TK_EOF ->
  token_in lx (move lx pos) (token k z n).
Proof.
  intros [Hp Hl _] H1 H2 H3 H4 Hk. unfold token_in, token. cbn [move lx_z lx_len lx_pos t_z t_n t_kind].
  rewrite s32_small by lia. repeat (split; [done || lia|]). done.
Qed.
Lemma close_delim_ok lx e : e <= lx_len lx -> e <= close_delim lx e <= lx_len lx.
Proof. unfold close_delim. intros. bdec; lia. Qed.

Section OneToken.
Context (lx : tdb_lexer) (Hwf : lexer_wf lx) (Hlt : lx_pos lx < lx_len lx).

Lemma scan_quoted_in delim k : k <> TK_EOF -> token_in lx (scan_quoted lx delim k).1 (scan_quoted lx delim k).2.
Proof using Hwf Hlt.
  intros Hk. pose proof (lw_pos _ Hwf). unfold scan_quoted. cbn [fst snd].
  pose proof (quoted_end_ok (Z.to_nat (lx_len lx - (lx_pos lx + 1))) (lx_z lx) (lx_len lx) delim (lx_pos lx + 1) ltac:(lia) ltac:(lia)) as He.
  set (e := quoted_end _ _ _ _ _) in *. pose proof (close_delim_ok lx e ltac:(lia)). apply token_in_move; (done || lia).
Qed.
Lemma lex_until_in delim k start :
  lx_pos lx < start <= lx_len lx -> k <> TK_EOF -> token_in lx (lex_until lx delim k start).1 (lex_until lx delim k start).2.
Proof using Hwf.
  intros Hs Hk. pose proof (lw_pos _ Hwf). unfold lex_until, run_to. cbn [fst snd].
  destruct (run_while_ok (fun c => negb (c =? delim)) (lx_z lx) (lx_len lx) start ltac:(lia)) as (He & _).
  set (e := run_while _ _ _ _) in *. pose proof (close_delim_ok lx e ltac:(lia)). apply token_in_move; (done || lia).
Qed.
Lemma lex_word_in : is_id_start (at_ lx 0) = true -> token_in lx (lex_word lx).1 (lex_word lx).2.
Proof using Hwf Hlt.
  intros Hs. pose proof (lw_pos _ Hwf). unfold lex_word, run_to. cbn [fst snd].
  destruct (run_while_ok is_id_char (lx_z lx) (lx_len lx) (lx_pos lx) ltac:(lia)) as (He & _ & Hstop).
  set (e := run_while _ _ _ _) in *. assert (lx_pos lx < e) as Hlt'.
  { destruct (decide (e = lx_pos lx)) as [E|]; [|lia]. destruct Hstop as [|Hstop]; [lia|]. rewrite E in Hstop.
    unfold at_ in Hs. rewrite Z.add_0_r in Hs. destruct (Z.ltb_spec (lx_pos lx) (lx_len lx)); [|lia].
    unfold is_id_start in Hs. unfold is_id_char, isalnum in Hstop. destruct (isalpha _); [done|]. cbn in Hs. rewrite Hs in Hstop.
    by rewrite orb_true_r in Hstop. }
  apply token_in_move; (done || lia || apply keyword_not_eof).
Qed.
Lemma lex_number_in :
  isdigit (at_ lx 0) || ((at_ lx 0 =? 46) && isdigit (at_ lx 1)) = true -> token_in lx (lex_number lx).1 (lex_number lx).2.
Proof using Hwf Hlt.
  intros Hd. pose proof (lw_pos _ Hwf) as Hp. pose proof (lw_len _ Hwf). pose proof (number_end_ok lx ltac:(lia) Hd) as He. unfold lex_number.
  destruct (number_end lx) as [e fl]. cbn [fst snd] in *. rewrite s32_small by lia. unfold token_in, parse_number.
  destruct fl; cbn [move lx_z lx_len lx_pos t_z t_n t_kind]; repeat (split; [done || lia|]); done.
Qed.
Lemma lex_param_in : token_in lx (lex_param lx).1 (lex_param lx).2.
Proof using Hwf Hlt.
  pose proof (lw_pos _ Hwf). unfold lex_param, run_to. cbn [fst snd].
  destruct (run_while_ok is_id_char (lx_z lx) (lx_len lx) (lx_pos lx + 1) ltac:(lia)) as (He & _).
  apply token_in_move; (done || lia).
Qed.
Lemma lex_dollar_in : token_in lx (lex_dollar lx).1 (lex_dollar lx).2.
Proof using Hwf Hlt.
  pose proof (lw_pos _ Hwf). unfold lex_dollar, run_to.
  destruct (run_while_ok (fun c => is_id_char c && negb (c =? 36)) (lx_z lx) (lx_len lx) (lx_pos lx + 1) ltac:(lia)) as (Ht & _).
  set (t := run_while _ _ _ _) in *. destruct (Z.ltb_spec t (lx_len lx)) as [Hl|]; cbn [andb]; [|apply lex_param_in].
  destruct (_ =? 36); [|apply lex_param_in]. cbn [fst snd]. set (tag := bsub _ _ _).
  pose proof (dollar_end_ok (Z.to_nat (lx_len lx - (t + 1))) (lx_z lx) (lx_len lx) tag (t + 1) (lw_end _ Hwf) ltac:(lia) ltac:(lia)) as [He1 He2].
  set (e := dollar_end _ _ _ _ _) in *. pose proof (blen_nonneg tag).
  destruct (Z.ltb_spec e (lx_len lx)); apply token_in_move; (done || lia).
Qed.
Lemma lex_op_in c : token_in lx (lex_op lx c).1 (lex_op lx c).2.
Proof using Hwf Hlt.
  assert (forall k, k <> TK_EOF -> token_in lx (move lx (lx_pos lx + 1)) (token k (lx_pos lx) 1)) as H1.
  { intros k Hk. apply token_in_move; (done || lia). }
  assert (forall k nx, nx <> 0 -> k <> TK_EOF -> (at_ (move lx (lx_pos lx + 1)) 0 =? nx) = true ->
            token_in lx (move (move lx (lx_pos lx + 1)) (lx_pos lx + 2)) (token k (lx_pos lx) 2)) as H2.
  { intros k nx Hnx Hk E. assert (lx_pos lx + 1 < lx_len lx).
    { unfold at_ in E. cbn [move lx_pos lx_len] in E. rewrite Z.add_0_r in E. destruct (Z.ltb_spec (lx_pos lx + 1) (lx_len lx)); [done|lia]. }
    change (move (move lx (lx_pos lx + 1)) (lx_pos lx + 2)) with (move lx (lx_pos lx + 2)). apply token_in_move; (done || lia). }
  unfold lex_op. cbv zeta.
  repeat match goal with
  | |- context [match ?x with Z0 => _ | Zpos _ => _ | Zneg _ => _ end] => destruct x; try (apply H1; discriminate)
  | |- context [match ?x with xI _ => _ | xO _ => _ | xH => _ end] => destruct x; try (apply H1; discriminate)
  | |- context [if (at_ ?l 0 =? ?n) then _ else _] => destruct (at_ l 0 =? n) eqn:?; try (apply H1; discriminate); try (eapply H2; [|discriminate|eassumption]; discriminate)
  end.
Qed.
End OneToken.

Lemma skip_trivia_ok lx :
  lexer_wf lx ->
  lexer_wf (skip_trivia lx) /\ lx_pos lx <= lx_pos (skip_trivia lx)
  /\ token_start (lx_z lx) (lx_len lx) (lx_pos (skip_trivia lx)).
Proof.
  intros [Hp Hl He]. destruct (trivia_loop_ok (S (Z.to_nat (lx_len lx - lx_pos lx))) (lx_z lx) (lx_len lx) (lx_pos lx)) as [H1 H2]; [lia..|].
  split; [split; cbn [skip_trivia lx_z lx_len lx_pos]; (lia || done)|]. split; [exact (proj1 H1)|exact H2].
Qed.
Lemma lex_next_ok lx :
  lexer_wf lx ->
  let '(lx', t) := tdb_lex_next lx in
  lexer_wf lx'
  /\ ((t_kind t = TK_EOF /\ lx_pos lx' = lx_len lx /\ lx_z lx' = lx_z lx /\ lx_len lx' = lx_len lx)
      \/ token_in lx lx' t).
Proof.
  intros Hwf. destruct (skip_trivia_ok lx Hwf) as (Hs & Hle & _). unfold tdb_lex_next. set (s := skip_trivia lx) in *.
  change (lx_len s) with (lx_len lx). destruct (Z.leb_spec (lx_len lx) (lx_pos s)) as [Hge|Hlt].
  { split; [done|]. left. pose proof (lw_pos _ Hs) as Hp. change (lx_len s) with (lx_len lx) in Hp. split; [done|]. split; [lia|done]. }
  assert (forall r : tdb_lexer * tdb_token, token_in s r.1 r.2 -> let '(lx', t) := r in
    lexer_wf lx' /\ ((t_kind t = TK_EOF /\ lx_pos lx' = lx_len lx /\ lx_z lx' = lx_z lx /\ lx_len lx' = lx_len lx) \/ token_in lx lx' t)) as K.
  { intros [lx' t] (E1 & E2 & E3 & E4 & E5 & E6 & E7). cbn [fst snd] in *. change (lx_z s) with (lx_z lx) in E1. change (lx_len s) with (lx_len lx) in *.
    split; [split; [|rewrite E2; apply Hwf|rewrite E1, E2; apply Hwf]|].
    - pose proof (lw_pos _ Hwf). lia.
    - right. unfold token_in. repeat (split; [done || lia|]). done. }
  destruct ((at_ s 0 =? 120) || _) eqn:Ex; cbn [andb].
  1: destruct (Z.eqb_spec (at_ s 1) 39) as [E1|].
  1: { apply K, lex_until_in; [done| |done]. unfold at_ in E1. change (lx_len s) with (lx_len lx) in *.
       destruct (Z.ltb_spec (lx_pos s + 1) (lx_len lx)); lia. }
  all: destruct (is_id_start (at_ s 0)) eqn:Ei; [by apply K, lex_word_in|].
  all: destruct (isdigit (at_ s 0) || _) eqn:Ed; [by apply K, lex_number_in|].
  all: destruct (at_ s 0 =? 39); [by apply K, scan_quoted_in|].
  all: destruct (at_ s 0 =? 34); [by apply K, scan_quoted_in|].
  all: destruct (at_ s 0 =? 96); [by apply K, scan_quoted_in|].
  all: destruct (at_ s 0 =? 91); [apply K, lex_until_in; [done|change (lx_len s) with (lx_len lx); lia|done]|].
  all: destruct (at_ s 0 =? 36); [by apply K, lex_dollar_in|].
  all: destruct (_ || (at_ s 0 =? 64)); [by apply K, lex_param_in|].
  all: by apply K, lex_op_in.
Qed.

(** Lexing terminates and stays inside the input: with one unit of fuel per
    byte and one more, every input of less than 2^31 bytes is split into
    tokens ending with the end-of-input token; at most one token per byte is
    produced before it, the texts lie inside the input, one after the other,
    and only the last token is an end token. *)
Theorem lex_all_terminates z len :
  0 <= len < 2 ^ 31 -> bget z len <> 36 ->
  exists toks eof,
    lex_all (S (Z.to_nat len)) (mk_lexer z len 0) = Some (toks ++ [eof])
    /\ t_kind eof = TK_EOF /\ Z.of_nat (length toks) <= len
    /\ Forall (fun t => t_kind t <> TK_EOF /\ 0 <= t_z t /\ 0 <= t_n t /\ t_z t + t_n t <= len) toks
    /\ ForallOrdPairs (fun a b => t_z a + t_n a <= t_z b) toks.
Proof.
  intros Hl Hz.
  assert (forall fuel lx, lexer_wf lx -> lx_len lx = len -> len - lx_pos lx < Z.of_nat fuel ->
    exists toks eof, lex_all fuel lx = Some (toks ++ [eof]) /\ t_kind eof = TK_EOF /\ Z.of_nat (length toks) <= len - lx_pos lx
      /\ Forall (fun t => t_kind t <> TK_EOF /\ lx_pos lx <= t_z t /\ 0 <= t_n t /\ t_z t + t_n t <= len) toks
      /\ ForallOrdPairs (fun a b => t_z a + t_n a <= t_z b) toks) as K.
  { induction fuel as [|fuel IH]; intros lx Hwf El Hf; [pose proof (lw_pos _ Hwf); lia|]. cbn [lex_all].
    pose proof (lw_pos _ Hwf) as Hp. pose proof (lex_next_ok lx Hwf) as H. destruct (tdb_lex_next lx) as [lx' t].
    destruct H as [Hwf' [(E & _)|(E1 & E2 & E3 & E4 & E5 & E6 & E7)]].
    { rewrite E. cbn [is_eof]. exists [], t. split; [done|]. split; [done|]. split; [cbn; lia|]. split; constructor. }
    rewrite El in *. destruct (IH lx' Hwf' E2 ltac:(lia)) as (toks & eof & R & R1 & R2 & R3 & R4).
    exists (t :: toks), eof. rewrite R. split; [by destruct (t_kind t)|]. split; [done|]. split; [cbn [length]; lia|]. split.
    - constructor; [split; [done|lia]|]. eapply Forall_impl; [exact R3|]. intros x (H1 & H2 & H3). split; [done|lia].
    - constructor; [|done]. eapply Forall_impl; [exact R3|]. intros x (_ & H2 & _). cbn beta. lia. }
  destruct (K (S (Z.to_nat len)) (mk_lexer z len 0)) as (toks & eof & R & R1 & R2 & R3 & R4); [split; cbn; (done || lia)|done|cbn [lx_pos]; lia|].
  exists toks, eof. cbn [lx_pos] in *. rewrite Z.sub_0_r in R2. done.
Qed.

(** ** Printing and lexing back *)

(** What an SQL text is made of: words, non-negative integers, string
    literals and symbols. *)
Inductive lexeme := LWord (w : list Z) | LInt (v : Z) | LText (s : list Z) | LSym (text : list Z) (k : tdb_token_kind).

Definition symbols : list (list Z * tdb_token_kind) :=
  [(str "(", TK_LP); (str ")", TK_RP); (str ",", TK_COMMA); (str ";", TK_SEMI); (str ".", TK_DOT); (str "*", TK_STAR);
   (str "+", TK_PLUS); (str "-", TK_MINUS); (str "/", TK_SLASH); (str "%", TK_PERCENT); (str "=", TK_EQ); (str "==", TK_EQ);
   (str "<>", TK_NE); (str "!=", TK_NE); (str "<", TK_LT); (str "<=", TK_LE); (str ">", TK_GT); (str ">=", TK_GE);
   (str "||", TK_CONCAT); (str "&", TK_BITAND); (str "|", TK_BITOR); (str "~", TK_BITNOT); (str "<<", TK_SHL); (str ">>", TK_SHR)].
Definition lexeme_ok (l : lexeme) : Prop :=
  match l with
  | LWord w => exists c t, w = c :: t /\ is_id_start c = true /\ forallb is_id_char t = true
  | LInt v => 0 <= v < 2 ^ 63
  | LText s => True
  | LSym text k => In (text, k) symbols
  end.
(** A quote inside a literal is doubled. *)
Fixpoint escape (s : list Z) : list Z :=
  match s with [] => [] | c :: s => if c =? 39 then 39 :: 39 :: escape s else c :: escape s end.
Definition print (l : lexeme) : list Z :=
  match l with
  | LWord w => w
  | LInt v => fmt_lld v
  | LText s => 39 :: escape s ++ [39]
  | LSym text _ => text
  end.
Definition print_all (ls : list lexeme) : list Z := concat (map (fun l => 32 :: print l) ls).
(** Kind, text and integer value of a token. *)
Definition token_view (z : list Z) (t : tdb_token) : tdb_token_kind * list Z * Z := (t_kind t, bsub z (t_z t) (t_n t), t_ival t).
Definition lexeme_view (l : lexeme) : tdb_token_kind * list Z * Z :=
  match l with
  | LWord w => (tdb_keyword_lookup w (blen w), w, 0)
  | LInt v => (TK_INTEGER, fmt_lld v, v)
  | LText s => (TK_STRING, escape s, 0)
  | LSym text k => (k, text, 0)
  end.

Lemma decode_escape s : decode_string (escape s) = s.
Proof.
  induction s as [|c s IH]; [done|]. cbn [escape]. destruct (Z.eqb_spec c 39) as [->|Hc]; [cbn; by rewrite IH|].
  destruct (escape s) as [|x t] eqn:E.
  - cbn. by destruct c as [|p|p]; rewrite <- IH; repeat (destruct p as [p|p|]; try done).
  - rewrite <- IH. destruct c as [|p|p]; try done. repeat (destruct p as [p|p|]; try done).
Qed.

(** After a lexeme comes white space or the end. *)
Definition ends (rest : list Z) : Prop := match rest with [] => True | c :: _ => c = 32 end.
Lemma bfrom_len z p a b : 0 <= p <= blen z -> bfrom z p = a ++ b -> p + blen a + blen b = blen z.
Proof. intros Hp E. pose proof (blen_bfrom z p Hp) as H. rewrite E, blen_app in H. lia. Qed.
Lemma bget_from z p l i : 0 <= p -> 0 <= i -> bfrom z p = l -> bget z (p + i) = bget l i.
Proof. intros Hp Hi <-. by rewrite bget_bfrom. Qed.
Lemma at_from z p l i : 0 <= p <= blen z -> 0 <= i -> bfrom z p = l -> at_ (mk_lexer z (blen z) p) i = bget l i.
Proof.
  intros Hp Hi E. unfold at_. cbn [lx_pos lx_len lx_z]. pose proof (blen_bfrom z p Hp) as Hl. rewrite E in Hl.
  destruct (Z.ltb_spec (p + i) (blen z)); [apply bget_from; (lia || done)|].
  unfold bget. rewrite nth_overflow; [done|]. unfold blen in *. lia.
Qed.
Lemma forallb_bget f w i : forallb f w = true -> 0 <= i < blen w -> f (bget w i) = true.
Proof.
  intros H Hi. rewrite forallb_forall in H. apply H. apply nth_In. unfold blen in Hi. lia.
Qed.
Lemma bget_app_l a b i : 0 <= i < blen a -> bget (a ++ b) i = bget a i.
Proof. intros Hi. unfold bget, blen in *. apply app_nth1. lia. Qed.
Lemma bget_app_hd a b : bget (a ++ b) (blen a) = hd 0 b.
Proof. unfold bget, blen. rewrite Nat2Z.id, app_nth2, Nat.sub_diag by lia. by destruct b. Qed.

Lemma run_while_prefix f z p w rest :
  0 <= p <= blen z -> bfrom z p = w ++ rest -> forallb f w = true -> (rest = [] \/ f (hd 0 rest) = false) ->
  run_while f z (blen z) p = p + blen w.
Proof.
  intros Hp E Hw Hr. pose proof (bfrom_len _ _ _ _ Hp E) as Hl. pose proof (blen_nonneg w). pose proof (blen_nonneg rest).
  destruct (run_while_ok f z (blen z) p Hp) as (H1 & H2 & H3). set (r := run_while f z (blen z) p) in *.
  destruct (Z.lt_trichotomy r (p + blen w)) as [Hlt|[|Hgt]]; [|done|].
  - destruct H3 as [|H3]; [lia|]. replace r with (p + (r - p)) in H3 by lia.
    rewrite (bget_from z p (w ++ rest)) in H3 by (done || lia). rewrite bget_app_l in H3 by lia.
    rewrite forallb_bget in H3 by (done || lia). done.
  - specialize (H2 (p + blen w) ltac:(lia)). rewrite (bget_from z p (w ++ rest)) in H2 by (done || lia).
    rewrite bget_app_hd in H2. destruct Hr as [->|Hr]; [rewrite blen_nil in Hl; lia|congruence].
Qed.
(** White space before a token. *)
Lemma skip_space_before z p c t :
  0 <= p <= blen z -> bfrom z p = 32 :: c :: t -> isspace c = false ->
  ~ (c = 45 /\ hd 0 t = 45) -> ~ (c = 47 /\ hd 0 t = 42) ->
  skip_trivia (mk_lexer z (blen z) p) = mk_lexer z (blen z) (p + 1).
Proof.
  intros Hp E Hc H1 H2. unfold skip_trivia. cbn [lx_z lx_len lx_pos trivia_loop].
  rewrite (run_while_prefix isspace z p [32] (c :: t)) by (done || (by right)). change (blen [32]) with 1.
  assert (bfrom z (p + 1) = c :: t) as E1 by (rewrite <- bfrom_bfrom by lia; by rewrite E).
  pose proof (bfrom_len z p [32] (c :: t) Hp E) as Hl. rewrite blen_cons in Hl. change (blen [32]) with 1 in Hl. pose proof (blen_nonneg t).
  assert (bget z (p + 1) = c) as -> by (replace (p + 1) with (p + 1 + 0) by lia; by rewrite (bget_from z (p + 1) (c :: t)) by (done || lia)).
  assert (bget z (p + 1 + 1) = hd 0 t) as -> by (rewrite (bget_from z (p + 1) (c :: t)) by (done || lia); by destruct t).
  destruct (Z.eqb_spec c 45), (Z.eqb_spec (hd 0 t) 45), (Z.eqb_spec c 47), (Z.eqb_spec (hd 0 t) 42); rewrite ?andb_false_r; cbn [andb]; try done; tauto.
Qed.

Lemma strncasecmp_prefix a b c n : (n <= length a)%nat -> strncasecmp (a ++ b) c n = strncasecmp a c n.
Proof.
  revert a c. induction n as [|n IH]; intros a c Hl; [done|]. destruct a as [|x a]; [cbn in Hl; lia|].
  cbn [strncasecmp app hd tl]. cbn in Hl. by rewrite (IH a (tl c)) by lia.
Qed.
(** The lexer finds [l] at [p]: the token shows it and the rest comes next. *)
Definition finds (z : list Z) (p : Z) (l : lexeme) (rest : list Z) : Prop :=
  exists t p', tdb_lex_next (mk_lexer z (blen z) p) = (mk_lexer z (blen z) p', t)
    /\ token_view z t = lexeme_view l /\ bfrom z p' = rest /\ p < p' <= blen z.

Section Print.
Context (z : list Z) (p : Z) (rest : list Z) (Hp : 0 <= p <= blen z) (Hz : blen z < 2 ^ 31) (Hrest : ends rest).

(** The state after the white space, on the text [c :: w ++ rest]. *)
Lemma next_after_space c w :
  bfrom z p = 32 :: (c :: w) ++ rest -> isspace c = false ->
  ~ (c = 45 /\ hd 0 (w ++ rest) = 45) -> ~ (c = 47 /\ hd 0 (w ++ rest) = 42) ->
  bfrom z (p + 1) = c :: w ++ rest /\ p + 2 + blen w + blen rest = blen z
  /\ skip_trivia (mk_lexer z (blen z) p) = mk_lexer z (blen z) (p + 1)
  /\ (blen z <=? p + 1) = false
  /\ (forall i, 0 <= i -> at_ (mk_lexer z (blen z) (p + 1)) i = bget (c :: w ++ rest) i)
  /\ bfrom z (p + 2 + blen w) = rest /\ bsub z (p + 1) (1 + blen w) = c :: w.
Proof using Hp.
  intros E Hc H1 H2. pose proof (blen_nonneg w). pose proof (blen_nonneg rest).
  pose proof (bfrom_len z p [32] (c :: w ++ rest) Hp E) as Hl. rewrite (blen_cons c), blen_app in Hl. change (blen [32]) with 1 in Hl.
  assert (bfrom z (p + 1) = c :: w ++ rest) as E1 by (rewrite <- bfrom_bfrom by lia; by rewrite E).
  split; [done|]. split; [lia|]. split; [by eapply skip_space_before|]. split; [apply Z.leb_gt; lia|].
  split; [intros i Hi; apply at_from; (done || lia)|]. split.
  - replace (p + 2 + blen w) with (p + 1 + (1 + blen w)) by lia. rewrite <- bfrom_bfrom by lia. rewrite E1.
    change (c :: w ++ rest) with ((c :: w) ++ rest). apply bfrom_app. by rewrite blen_cons.
  - unfold bsub. unfold bfrom in E1. rewrite E1. replace (Z.to_nat (1 + blen w)) with (length (c :: w)) by (unfold blen; cbn; lia).
    change (c :: w ++ rest) with ((c :: w) ++ rest). apply take_app_length.
Qed.
Lemma ends_not f : f 32 = false -> rest = [] \/ f (hd 0 rest) = false.
Proof using Hrest. intros Hf. destruct rest as [|c r]; [by left|right]. cbn in Hrest |- *. by rewrite Hrest. Qed.
Lemma ends_hd : hd 0 rest = 0 \/ hd 0 rest = 32.
Proof using Hrest. destruct rest as [|c r]; [by left|right]. done. Qed.

Lemma keyword_prefix w r : tdb_keyword_lookup (w ++ r) (blen w) = tdb_keyword_lookup w (blen w).
Proof using.
  unfold tdb_keyword_lookup. generalize k_keywords as l. intros l.
  induction l as [|k l IH]; [done|]. cbn [List.find]. rewrite strncasecmp_prefix by (unfold blen; lia). destruct (_ && _); [done|exact IH].
Qed.
Lemma print_word c w :
  bfrom z p = 32 :: (c :: w) ++ rest -> is_id_start c = true -> forallb is_id_char w = true -> finds z p (LWord (c :: w)) rest.
Proof using Hp Hz Hrest.
  intros E Hc Hw. assert (((65 <= c <= 90) \/ (97 <= c <= 122) \/ c = 95)) as Hcr.
  { revert Hc. unfold is_id_start, isalpha. bdec; cbn; lia. }
  destruct (next_after_space c w E) as (E1 & Hl & Es & El & Ea & Er & Et); [unfold isspace; bdec; (done || lia)|lia|lia|].
  pose proof (blen_nonneg w). pose proof (blen_nonneg rest).
  assert (run_while is_id_char z (blen z) (p + 1) = p + 2 + blen w) as Hrun.
  { rewrite (run_while_prefix is_id_char z (p + 1) (c :: w) rest); [rewrite blen_cons; lia|lia|done| |by apply ends_not].
    cbn [forallb]. rewrite Hw, andb_true_r. revert Hc. unfold is_id_start, is_id_char, isalnum. destruct (isalpha c); [done|]. cbn. intros ->. by rewrite orb_true_r. }
  exists (token (tdb_keyword_lookup (c :: w) (blen (c :: w))) (p + 1) (1 + blen w)), (p + 2 + blen w).
  split; [|split; [|split; [done|lia]]].
  - unfold tdb_lex_next. rewrite Es. cbn [lx_len lx_pos]. rewrite El, !Ea by lia. change (bget (c :: w ++ rest) 0) with c.
    assert ((bget (c :: w ++ rest) 1 =? 39) = false) as ->.
    { change (bget (c :: w ++ rest) 1) with (bget (w ++ rest) 0). destruct w as [|x w].
      - pose proof ends_hd. change (bget ([] ++ rest) 0) with (nth 0 rest 0). destruct rest; cbn in *; lia.
      - change (bget ((x :: w) ++ rest) 0) with x. cbn in Hw. apply andb_true_iff in Hw as [Hx _].
        destruct (Z.eqb_spec x 39) as [->|]; done. }
    rewrite andb_false_r, Hc. unfold lex_word, run_to. cbn [lx_pos lx_z lx_len]. rewrite Hrun. cbn [move lx_z lx_len].
    replace (p + 2 + blen w - (p + 1)) with (1 + blen w) by lia. rewrite (s32_small (1 + blen w)) by lia.
    rewrite E1. change (c :: w ++ rest) with ((c :: w) ++ rest). replace (1 + blen w) with (blen (c :: w)) by (by rewrite blen_cons).
    by rewrite keyword_prefix.
  - unfold token_view, token, lexeme_view. cbn [t_kind t_z t_n t_ival]. rewrite s32_small by lia. by rewrite Et.
Qed.

Lemma quoted_end_escape s fuel q :
  0 <= q <= blen z -> bfrom z q = escape s ++ 39 :: rest -> blen z - q <= Z.of_nat fuel ->
  quoted_end fuel z (blen z) 39 q = q + blen (escape s).
Proof using Hrest.
  revert fuel q. induction s as [|c s IH]; intros fuel q Hq E Hf.
  - cbn [escape app] in *. pose proof (bfrom_len z q [39] rest Hq E) as Hl. change (blen [39]) with 1 in Hl. pose proof (blen_nonneg rest).
    destruct fuel as [|fuel]; [lia|]. cbn [quoted_end]. destruct (Z.leb_spec (blen z) q); [lia|].
    assert (bget z q = 39) as -> by (replace q with (q + 0) by lia; by rewrite (bget_from z q (39 :: rest)) by (done || lia)).
    assert (bget z (q + 1) = hd 0 rest) as -> by (rewrite (bget_from z q (39 :: rest)) by (done || lia); by destruct rest).
    pose proof ends_hd. destruct (Z.eqb_spec (hd 0 rest) 39); [lia|]. rewrite andb_false_r, blen_nil. change (39 =? 39) with true. cbv iota. lia.
  - cbn [escape] in *. destruct (Z.eqb_spec c 39) as [->|Hc].
    + pose proof (bfrom_len z q [39; 39] (escape s ++ 39 :: rest) Hq E) as Hl. change (blen [39; 39]) with 2 in Hl.
      pose proof (blen_nonneg (escape s ++ 39 :: rest)). destruct fuel as [|fuel]; [lia|]. cbn [quoted_end]. destruct (Z.leb_spec (blen z) q); [lia|].
      assert (bget z q = 39) as -> by (replace q with (q + 0) by lia; by rewrite (bget_from z q _ 0 ltac:(lia) ltac:(lia) E)).
      assert (bget z (q + 1) = 39) as -> by (by rewrite (bget_from z q _ 1 ltac:(lia) ltac:(lia) E)).
      destruct (Z.ltb_spec (q + 1) (blen z)); [|lia]. cbn [andb Z.eqb Pos.eqb]. rewrite (IH fuel (q + 2)); [|lia| |lia].
      * rewrite !blen_cons. lia.
      * rewrite <- bfrom_bfrom by lia. by rewrite E.
    + pose proof (bfrom_len z q [c] (escape s ++ 39 :: rest) Hq E) as Hl. change (blen [c]) with 1 in Hl.
      pose proof (blen_nonneg (escape s ++ 39 :: rest)). destruct fuel as [|fuel]; [lia|]. cbn [quoted_end]. destruct (Z.leb_spec (blen z) q); [lia|].
      assert (bget z q = c) as -> by (replace q with (q + 0) by lia; by rewrite (bget_from z q _ 0 ltac:(lia) ltac:(lia) E)).
      destruct (Z.eqb_spec c 39); [done|]. rewrite (IH fuel (q + 1)); [|lia| |lia].
      * rewrite blen_cons. lia.
      * rewrite <- bfrom_bfrom by lia. by rewrite E.
Qed.
Lemma print_text s : bfrom z p = 32 :: print (LText s) ++ rest -> finds z p (LText s) rest.
Proof using Hp Hz Hrest.
  intros E. destruct (next_after_space 39 (escape s ++ [39]) E) as (E1 & Hl & Es & El & Ea & Er & Et); [done|lia|lia|].
  pose proof (blen_nonneg (escape s)). pose proof (blen_nonneg rest). rewrite blen_app in *. change (blen [39]) with 1 in *.
  assert (bfrom z (p + 2) = escape s ++ 39 :: rest) as E2.
  { replace (p + 2) with (p + 1 + 1) by lia. rewrite <- bfrom_bfrom by lia. rewrite E1.
    change (39 :: (escape s ++ [39]) ++ rest) with ([39] ++ (escape s ++ [39]) ++ rest). rewrite bfrom_app by done. by rewrite <- app_assoc. }
  exists (token TK_STRING (p + 2) (blen (escape s))), (p + 2 + (blen (escape s) + 1)).
  split; [|split; [|split; [done|lia]]].
  - unfold tdb_lex_next. rewrite Es. cbn [lx_len lx_pos]. rewrite El, !Ea by lia. change (bget (39 :: (escape s ++ [39]) ++ rest) 0) with 39.
    cbn [Z.eqb Pos.eqb orb andb]. change (is_id_start 39) with false. change (isdigit 39) with false. cbn [orb andb].
    unfold scan_quoted. cbn [lx_pos lx_len lx_z]. replace (p + 1 + 1) with (p + 2) by lia.
    rewrite (quoted_end_escape s) by (done || lia). unfold close_delim. cbn [lx_len].
    destruct (Z.ltb_spec (p + 2 + blen (escape s)) (blen z)); [|lia]. cbn [move lx_z lx_len]. f_equal; f_equal; lia.
  - unfold token_view, token, lexeme_view. cbn [t_kind t_z t_n t_ival]. rewrite s32_small by lia. f_equal. f_equal.
    unfold bsub. unfold bfrom in E2. rewrite E2. unfold blen. rewrite Nat2Z.id. apply take_app_length.
Qed.

Lemma dec_digits_len f n acc : (length (dec_digits f n acc) <= f + length acc)%nat.
Proof using.
  revert n acc. induction f as [|f IH]; intros n acc; cbn [dec_digits]; [lia|]. destruct (n <? 10); [cbn; lia|].
  specialize (IH (n / 10) ((48 + n mod 10) :: acc)). cbn [length] in IH. lia.
Qed.
Lemma dec_digits_lead f n acc :
  0 < n < 10 ^ Z.of_nat f -> exists d l, dec_digits f n acc = d :: l /\ 49 <= d <= 57.
Proof using.
  revert n acc. induction f as [|f IH]; intros n acc Hn; [simpl in Hn; lia|]. cbn [dec_digits].
  rewrite Nat2Z.inj_succ, Z.pow_succ_r in Hn by lia. destruct (Z.ltb_spec n 10).
  - rewrite Z.mod_small by lia. eexists _, _. split; [done|lia].
  - apply IH. split; [apply Z.div_str_pos; lia|apply Z.div_lt_upper_bound; lia].
Qed.
Lemma scan_base_10 l acc : Forall (fun c => 48 <= c <= 57) l -> scan_base 10 l acc = (scan_digits l acc).1.
Proof using.
  intros Hl. revert acc. induction Hl as [|c l Hc Hl IH]; intros acc; [done|]. cbn [scan_base scan_digits].
  assert (isdigit c = true) as Hd by (unfold isdigit; lia). unfold isxdigit, xdigit. rewrite Hd. cbn [orb].
  destruct (Z.ltb_spec (c - 48) 10); [|lia]. apply IH.
Qed.
(** [strtoll] with base 0 on a printed integer. *)
Lemma strtoll0_dec v : 0 <= v < 2 ^ 63 -> strtoll0 (dec_digits 20 v []) = v.
Proof using.
  intros Hv. destruct (decide (v = 0)) as [->|Hv0]; [done|].
  destruct (dec_digits_lead 20 v []) as (d & l & E & Hd); [cbn; lia|].
  destruct (dec_digits_spec 20 v []) as (F & _ & _ & _); [cbn; lia|constructor|].
  unfold strtoll0. rewrite dec_digits_cstr by (cbn; first [lia|constructor]). rewrite E in *.
  assert (skip_space (d :: l) = d :: l) as -> by (cbn; unfold isspace; bdec; (done || lia)).
  assert (strtoull0 (d :: l) = v) as Hs.
  { transitivity (scan_base 10 (d :: l) 0).
    - destruct d as [|q|q]; try lia. repeat (destruct q as [q|q|]; try lia; try done).
    - rewrite scan_base_10 by done. rewrite <- E. apply scan_dec_digits. lia. }
  transitivity (clamp64 (strtoull0 (d :: l))); [|rewrite Hs; unfold clamp64; lia].
  destruct d as [|q|q]; try lia. repeat (destruct q as [q|q|]; try lia; try done).
Qed.

Lemma print_int v : 0 <= v < 2 ^ 63 -> bfrom z p = 32 :: print (LInt v) ++ rest -> finds z p (LInt v) rest.
Proof using Hp Hz Hrest.
  intros Hv E. cbn [print] in E. assert (fmt_lld v = dec_digits 20 v []) as Ef by (unfold fmt_lld; destruct (Z.ltb_spec v 0); [lia|done]).
  destruct (dec_digits_spec 20 v []) as (F & _ & _ & D); [cbn; lia|constructor|]. destruct (D ltac:(done)) as (c & w & Ed).
  pose proof (dec_digits_len 20 v []) as Hlen. pose proof (strtoll0_dec v Hv) as Hval. rewrite Ef, Ed in *.
  apply Forall_cons in F as [Hc Fw]. cbn [length] in Hlen.
  destruct (next_after_space c w E) as (E1 & Hl & Es & El & Ea & Er & Et); [unfold isspace; bdec; (done || lia)|lia|lia|].
  pose proof (blen_nonneg w). pose proof (blen_nonneg rest). pose proof ends_hd as Hhd.
  assert (forallb isdigit (c :: w) = true) as Hdig.
  { apply forallb_forall. intros x Hx. assert (48 <= x <= 57); [|unfold isdigit; lia]. destruct Hx as [->|Hx]; [done|].
    rewrite Forall_forall in Fw. apply Fw. by apply list_elem_of_In. }
  assert (run_while isdigit z (blen z) (p + 1) = p + 2 + blen w) as Hrun.
  { rewrite (run_while_prefix isdigit z (p + 1) (c :: w) rest); [rewrite blen_cons; lia|lia|done|done|by apply ends_not]. }
  assert (p + 2 + blen w = blen z \/ bget z (p + 2 + blen w) = 32) as Hstop.
  { destruct rest as [|x r]; [left; rewrite blen_nil in Hl; lia|right].
    pose proof (bget_from z (p + 2 + blen w) (x :: r) 0 ltac:(lia) ltac:(lia) Er) as Eb. rewrite Z.add_0_r in Eb. by rewrite Eb. }
  assert (number_end (mk_lexer z (blen z) (p + 1)) = (p + 2 + blen w, false)) as Hnum.
  { unfold number_end. cbn [lx_z lx_len lx_pos]. rewrite !Ea by lia.
    assert ((bget (c :: w ++ rest) 1 =? 120) || (bget (c :: w ++ rest) 1 =? 88) = false) as ->.
    { change (bget (c :: w ++ rest) 1) with (bget (w ++ rest) 0). destruct w as [|x w].
      - change (bget ([] ++ rest) 0) with (nth 0 rest 0). destruct rest; cbn in Hhd |- *; bdec; lia.
      - change (bget ((x :: w) ++ rest) 0) with x. apply Forall_cons in Fw as [Hx _]. bdec; lia. }
    rewrite andb_false_r, Hrun. set (q := p + 2 + blen w) in *.
    destruct (Z.ltb_spec q (blen z)) as [Hq|Hq]; cbn [andb].
    - destruct Hstop as [|Hs]; [lia|]. rewrite Hs. cbn [Z.eqb Pos.eqb]. destruct (Z.ltb_spec q (blen z)); [|lia]. by rewrite Hs.
    - destruct (Z.ltb_spec q (blen z)); [lia|done]. }
  exists (parse_number (c :: w ++ rest) TK_INTEGER (p + 1) (1 + blen w)), (p + 2 + blen w).
  split; [|split; [|split; [done|lia]]].
  - unfold tdb_lex_next. rewrite Es. cbn [lx_len lx_pos]. rewrite El, !Ea by lia. change (bget (c :: w ++ rest) 0) with c.
    destruct (Z.eqb_spec c 120), (Z.eqb_spec c 88); try lia. cbn [orb andb].
    assert (is_id_start c = false) as -> by (unfold is_id_start, isalpha; bdec; (done || lia)).
    assert (isdigit c = true) as -> by (unfold isdigit; lia). cbn [orb]. unfold lex_number. rewrite Hnum. cbn [lx_pos lx_z move lx_len].
    replace (p + 2 + blen w - (p + 1)) with (1 + blen w) by lia. rewrite s32_small by lia. by rewrite E1.
  - unfold token_view, parse_number, lexeme_view. assert (blen w <= 19) by (unfold blen; lia).
    destruct (Z.ltb_spec (1 + blen w) 79); [|lia]. cbn [t_kind t_z t_n t_ival]. rewrite Et, Ef. f_equal.
    change (c :: w ++ rest) with ((c :: w) ++ rest). rewrite bsub_app_l by (rewrite ?blen_cons; lia).
    rewrite bsub_all by (by rewrite blen_cons). done.
Qed.
Lemma print_sym text k : In (text, k) symbols -> bfrom z p = 32 :: text ++ rest -> finds z p (LSym text k) rest.
Proof using Hp Hz Hrest.
  intros Hin E. pose proof ends_hd as Hhd.
  assert (exists c w, text = c :: w /\ isspace c = false /\ (w = [] \/ (exists x, w = [x] /\ x <> 42 /\ x <> 45))
          /\ forall lx, at_ (move lx (lx_pos lx + 1)) 0 = hd 0 (w ++ rest) ->
               lex_op lx c = (move lx (lx_pos lx + blen text), token k (lx_pos lx) (blen text))
               /\ (is_id_start c || isdigit c || ((c =? 46) && isdigit (hd 0 (w ++ rest))) || existsb (Z.eqb c) [120; 88; 39; 34; 96; 91; 36; 63; 58; 64]) = false)
    as (c & w & -> & Hsp & Hw & Hop).
  { let t := eval vm_compute in symbols in change symbols with t in Hin. repeat (destruct Hin as [[= <- <-]|Hin]); [..|done];
      (eexists _, _; split; [reflexivity|]; split; [reflexivity|]; split; [first [by left|right; eexists; split; [reflexivity|lia]]|];
       intros lx Hnx; destruct Hhd as [Hh|Hh]; cbn [app hd] in Hnx |- *; rewrite ?Hh in Hnx |- *;
       (split; [cbv beta iota zeta delta [lex_op]; rewrite ?Hnx|]; reflexivity)). }
  assert (hd 0 (w ++ rest) <> 45 /\ hd 0 (w ++ rest) <> 42) as [Hn1 Hn2] by (destruct Hw as [->|(x & -> & ? & ?)]; cbn [app hd]; lia).
  destruct (next_after_space c w E) as (E1 & Hl & Es & El & Ea & Er & Et); [done|tauto|tauto|].
  pose proof (blen_nonneg w). pose proof (blen_nonneg rest).
  assert (bget (c :: w ++ rest) 1 = hd 0 (w ++ rest)) as Eb by (change (bget (c :: w ++ rest) 1) with (nth 0 (w ++ rest) 0); by destruct (w ++ rest)).
  destruct (Hop (mk_lexer z (blen z) (p + 1))) as [Ho Hne].
  { cbn [lx_pos move lx_z lx_len]. rewrite <- Eb. rewrite <- (Ea 1 ltac:(lia)). unfold at_. cbn [lx_pos lx_z lx_len]. by rewrite Z.add_0_r. }
  rewrite !orb_false_iff in Hne. destruct Hne as (((Hi & Hd) & Hdot) & Hex).
  exists (token k (p + 1) (1 + blen w)), (p + 2 + blen w). split; [|split; [|split; [done|lia]]].
  - unfold tdb_lex_next. rewrite Es. cbn [lx_len lx_pos]. rewrite El, !Ea, Eb by lia. change (bget (c :: w ++ rest) 0) with c.
    cbn [existsb] in Hex. rewrite !orb_false_iff in Hex. destruct Hex as (-> & -> & -> & -> & -> & -> & -> & -> & -> & -> & _).
    rewrite Hi, Hd, Hdot. cbn [orb andb]. rewrite Ho. cbn [lx_pos move lx_z lx_len]. rewrite blen_cons. do 2 f_equal; lia.
  - unfold token_view, token, lexeme_view. cbn [t_kind t_z t_n t_ival]. rewrite s32_small by lia. by rewrite Et.
Qed.
End Print.

Lemma print_one z p l rest :
  0 <= p <= blen z -> blen z < 2 ^ 31 -> ends rest -> lexeme_ok l -> bfrom z p = 32 :: print l ++ rest -> finds z p l rest.
Proof.
  intros Hp Hz Hr Hl E. destruct l as [w|v|s|text k]; cbn [lexeme_ok] in Hl.
  - destruct Hl as (c & t & -> & Hc & Ht). by apply print_word.
  - by apply print_int.
  - by apply print_text.
  - by apply print_sym.
Qed.
Lemma print_all_ends ls : ends (print_all ls).
Proof. by destruct ls. Qed.
Lemma lexeme_not_eof l : lexeme_ok l -> (lexeme_view l).1.1 <> TK_EOF.
Proof.
  destruct l as [w|v|s|text k]; cbn [lexeme_ok lexeme_view fst]; intros Hl; [apply keyword_not_eof|done|done|].
  assert (forallb (fun k : list Z * tdb_token_kind => match k.2 with TK_EOF => false | _ => true end) symbols = true) as H by (vm_compute; done).
  rewrite forallb_forall in H. specialize (H _ Hl). by destruct k.
Qed.

Lemma not_eof k : k <> TK_EOF -> is_eof k = false.
Proof. by destruct k. Qed.
Lemma lex_all_S fuel lx :
  lex_all (S fuel) lx = let '(lx, t) := tdb_lex_next lx in
    if is_eof (t_kind t) then Some [t] else match lex_all fuel lx with Some l => Some (t :: l) | None => None end.
Proof. done. Qed.
Lemma lex_at_end z : tdb_lex_next (mk_lexer z (blen z) (blen z)) = (mk_lexer z (blen z) (blen z), token TK_EOF (blen z) 0).
Proof.
  unfold tdb_lex_next. assert (skip_trivia (mk_lexer z (blen z) (blen z)) = mk_lexer z (blen z) (blen z)) as ->.
  { unfold skip_trivia. cbn [lx_z lx_len lx_pos trivia_loop]. 
    destruct (run_while_ok isspace z (blen z) (blen z)) as (Hr & _); [pose proof (blen_nonneg z); lia|].
    replace (run_while isspace z (blen z) (blen z)) with (blen z) by lia.
    destruct (Z.ltb_spec (blen z + 1) (blen z)); [lia|]. cbn [andb]. done. }
  cbn [lx_len lx_pos]. by rewrite Z.leb_refl.
Qed.
Lemma lex_print z ls p :
  blen z < 2 ^ 31 -> Forall lexeme_ok ls -> 0 <= p <= blen z -> bfrom z p = print_all ls ->
  exists toks eof, lex_all (S (length ls)) (mk_lexer z (blen z) p) = Some (toks ++ [eof])
    /\ map (token_view z) toks = map lexeme_view ls /\ t_kind eof = TK_EOF.
Proof.
  intros Hz Hall. revert p. induction Hall as [|l ls Hl Hall IH]; intros p Hp E.
  - assert (p = blen z) as -> by (pose proof (blen_bfrom z p Hp) as H; rewrite E in H; change (blen (print_all [])) with 0 in H; lia).
    exists [], (token TK_EOF (blen z) 0). cbn [length lex_all].
    by rewrite lex_at_end.
  - destruct (print_one z p l (print_all ls) Hp Hz (print_all_ends ls) Hl) as (t & p' & En & Ev & Er & Hp'); [by rewrite E|].
    destruct (IH p' ltac:(lia) Er) as (toks & eof & R & R1 & R2). exists (t :: toks), eof.
    pose proof (lexeme_not_eof l Hl) as Hk. rewrite <- Ev in Hk.
    cbn [length]. rewrite lex_all_S, En, (not_eof (t_kind t) Hk), R. split; [done|]. split; [cbn [map]; by rewrite Ev, R1|done].
Qed.

(** C32. Printing and lexing are inverse: the text of any sequence of words,
    integers, string literals and symbols is split again into exactly these,
    with their kinds, texts and integer values, and the text of a string
    literal is decoded to the string. *)
Theorem lex_print_roundtrip ls :
  Forall lexeme_ok ls -> blen (print_all ls) < 2 ^ 31 ->
  exists toks eof,
    lex_all (S (length ls)) (mk_lexer (print_all ls) (blen (print_all ls)) 0) = Some (toks ++ [eof])
    /\ map (token_view (print_all ls)) toks = map lexeme_view ls /\ t_kind eof = TK_EOF
    /\ (forall s, LText s ∈ ls -> decode_string (lexeme_view (LText s)).1.2 = s).
Proof.
  intros Hall Hz. destruct (lex_print (print_all ls) ls 0 Hz Hall) as (toks & eof & R & R1 & R2);
    [pose proof (blen_nonneg (print_all ls)); lia|done|].
  exists toks, eof. repeat (split; [done|]). intros s _. apply decode_escape.
Qed.

(** Keywords. *)
Lemma find_first {A} (f : A -> bool) l x : List.find f l = Some x -> In x l /\ f x = true.
Proof. apply find_some. Qed.
Lemma ci_eq_len a b : map tolower a = map tolower b -> length a = length b.
Proof. intros H. by rewrite <- (length_map tolower a), H, length_map. Qed.
Lemma strncasecmp_full a b :
  nul_free a -> nul_free b -> length a = length b -> strncasecmp a b (length a) = 0 <-> map tolower a = map tolower b.
Proof.
  intros Ha Hb Hl. rewrite strncasecmp_memcmp by (done || lia). rewrite <- (length_map tolower a), memcmp_exact by (by rewrite !length_map).
  split; [apply lex_cmp_eq|intros ->; apply lex_cmp_refl].
Qed.
Definition lower_names : list (list Z) := map (fun k => map tolower k.1) k_keywords.
Lemma keywords_table_ok : NoDup lower_names /\ Forall (fun k => nul_free k.1) k_keywords.
Proof.
  split.
  - apply (bool_decide_unpack _). vm_compute. exact I.
  - apply Forall_forall. intros k Hk. apply list_elem_of_In in Hk.
    assert (forallb (fun k : list Z * tdb_token_kind => forallb (fun c => (0 <? c) && (c <? 256)) k.1) k_keywords = true) as H by (vm_compute; done).
    rewrite forallb_forall in H. specialize (H k Hk). apply Forall_forall. intros c Hc. apply list_elem_of_In in Hc.
    rewrite forallb_forall in H. specialize (H c Hc). apply andb_true_iff in H. lia.
Qed.

(** Keywords are recognised in any letter case: a word is given the kind
    of the keyword it equals up to case, and every other word is an
    identifier. *)
Theorem keyword_lookup_correct w :
  nul_free w ->
  (forall name k, In (name, k) k_keywords -> map tolower w = map tolower name -> tdb_keyword_lookup w (blen w) = k)
  /\ ((forall name k, In (name, k) k_keywords -> map tolower w <> map tolower name) -> tdb_keyword_lookup w (blen w) = TK_ID).
Proof.
  intros Hw. destruct keywords_table_ok as [Hnd Hnf]. unfold lower_names in Hnd. revert Hnd Hnf. unfold tdb_keyword_lookup.
  generalize k_keywords as l. intros l Hnd Hnf.
  assert (forall k, In k l -> (blen k.1 =? blen w) && (strncasecmp w k.1 (Z.to_nat (blen w)) =? 0) = true <-> map tolower w = map tolower k.1) as Hm.
  { intros k Hk. rewrite Forall_forall in Hnf. specialize (Hnf k (proj2 (list_elem_of_In _ _) Hk)). unfold blen. rewrite Nat2Z.id.
    rewrite andb_true_iff, !Z.eqb_eq. split.
    - intros [Hl Hc]. apply strncasecmp_full in Hc; (done || lia).
    - intros Hc. pose proof (ci_eq_len _ _ Hc). split; [lia|]. by apply strncasecmp_full. }
  split.
  - intros name k Hin Hc. clear Hnf Hw. induction l as [|x l IH]; [done|]. cbn [List.find map] in *. apply NoDup_cons in Hnd as [Hx Hnd].
    destruct (_ && _) eqn:E.
    + apply Hm in E; [|by left]. destruct Hin as [->|Hin]; [done|]. exfalso. apply Hx. apply list_elem_of_In, in_map_iff.
      exists (name, k). split; [|done]. cbn. by rewrite <- Hc, <- E.
    + destruct Hin as [->|Hin].
      * rewrite (proj2 (Hm (name, k) (or_introl eq_refl)) Hc) in E. done.
      * apply IH; [done| |done]. intros y Hy. apply Hm. by right.
  - intros Hno. destruct (List.find _ l) as [[name k]|] eqn:E; [|done]. apply find_some in E as [Hin E].
    apply Hm in E; [|done]. exfalso. by eapply Hno.
Qed.

(** ** Examples *)

Definition demo_sql : list lexeme :=
  [LWord (str "Select"); LSym (str "*") TK_STAR; LWord (str "FROM"); LWord (str "orders"); LWord (str "where"); LWord (str "id");
   LSym (str ">=") TK_GE; LInt 9223372036854775807; LWord (str "and"); LWord (str "note"); LSym (str "=") TK_EQ;
   LText (str "it's"); LSym (str ";") TK_SEMI].
Lemma demo_sql_ok : Forall lexeme_ok demo_sql.
Proof.
  repeat (apply Forall_cons; split;
    [cbn [lexeme_ok]; first [exact I | lia | eexists _, _; split; [reflexivity|split; reflexivity] | vm_compute; tauto]|]).
  apply Forall_nil_2.
Qed.
Lemma lex_print_roundtrip_witness :
  exists toks eof,
    lex_all 14 (mk_lexer (print_all demo_sql) (blen (print_all demo_sql)) 0) = Some (toks ++ [eof])
    /\ map (fun t => (t_kind t, t_ival t)) toks
       = [(TK_SELECT, 0); (TK_STAR, 0); (TK_FROM, 0); (TK_ID, 0); (TK_WHERE, 0); (TK_ID, 0); (TK_GE, 0);
          (TK_INTEGER, 9223372036854775807); (TK_AND, 0); (TK_ID, 0); (TK_EQ, 0); (TK_STRING, 0); (TK_SEMI, 0)].
Proof.
  destruct (lex_print_roundtrip demo_sql demo_sql_ok) as (toks & eof & H1 & H2 & _); [vm_compute; reflexivity|].
  exists toks, eof. split; [exact H1|].
  transitivity (map (fun v : tdb_token_kind * list Z * Z => (v.1.1, v.2)) (map (token_view (print_all demo_sql)) toks)).
  - rewrite map_map. reflexivity.
  - rewrite H2. vm_compute. reflexivity.
Defined.
Lemma lex_all_terminates_witness :
  exists toks eof, lex_all 10 (mk_lexer (str "a<=b --x$") 9 0) = Some (toks ++ [eof]) /\ t_kind eof = TK_EOF /\ Z.of_nat (length toks) <= 9.
Proof.
  destruct (lex_all_terminates (str "a<=b --x$") 9) as (toks & eof & H1 & H2 & H3 & _); [lia|vm_compute; discriminate|].
  exists toks, eof. split; [exact H1|]. split; [exact H2|exact H3].
Defined.
Lemma keyword_lookup_correct_witness : tdb_keyword_lookup (str "sElEcT") 6 = TK_SELECT.
Proof.
  apply (proj1 (keyword_lookup_correct (str "sElEcT") ltac:(repeat (apply Forall_cons; split; [vm_compute; split; reflexivity|]); apply Forall_nil_2))
    (str "SELECT") TK_SELECT); [left; reflexivity|reflexivity].
Defined.

(** ** What the lexer accepts *)

(** An integer literal with a leading zero is read in octal. *)
Lemma lex_leading_zero_octal : t_ival (tdb_lex_next (tdb_lex_init (Some (str "010")) 0)).2 = 8.
Proof. vm_compute. done. Qed.
(** On a length-bounded input the test for the closing dollar quote reads the
    byte after the bound, and the position ends beyond it. *)
Lemma lex_dollar_past_bound :
  let lx := (tdb_lex_next (tdb_lex_init (Some (str "$t$abc$t$")) 8)).1 in lx_len lx = 8 /\ lx_pos lx = 9.
Proof. vm_compute. done. Qed.
(** A doubled quote inside a dollar-quoted string is decoded to one. *)
Lemma lex_dollar_quotes_collapse :
  let t := (tdb_lex_next (tdb_lex_init (Some (str "$$it''s$$")) 0)).2 in
  t_kind t = TK_STRING /\ decode_string (bsub (str "$$it''s$$") (t_z t) (t_n t)) = str "it's".
Proof. vm_compute. done. Qed.
(** TRUE and FALSE are keywords of the lexer but not of the introspection
    list. *)
Lemma keyword_check_misses_true :
  tdb_keyword_lookup (str "TRUE") 4 = TK_TRUE /\ tdb_keyword_check (Some (str "TRUE")) (-1) = false.
Proof. vm_compute. done. Qed.
