(* ===== verification/Ast.v ===== *)
(** * The abstract syntax tree (src/src/sql/tdb_ast.h)

    One constructor per node kind, with the fields of the C struct that the
    parser sets for that kind.  A growable array and its count are a list, a
    linked list of sources is a list.  The fields the executor fills in later
    (resolved columns, aggregate slots) are not part of the tree. *)
From S2P Require Import Prelude Util Value Schema Sqltype Lexer.

(** ** Token kinds as numbers *)

Definition all_kinds : list tdb_token_kind :=
  [TK_EOF; TK_ILLEGAL; TK_ID; TK_STRING; TK_INTEGER; TK_FLOAT; TK_BLOB; TK_PARAM; TK_LP; TK_RP;
   TK_COMMA; TK_SEMI; TK_DOT; TK_STAR; TK_PLUS; TK_MINUS; TK_SLASH; TK_PERCENT; TK_EQ; TK_NE;
   TK_LT; TK_LE; TK_GT; TK_GE; TK_CONCAT; TK_BITAND; TK_BITOR; TK_BITNOT; TK_SHL; TK_SHR;
   TK_SELECT; TK_FROM; TK_WHERE; TK_GROUP; TK_BY; TK_HAVING; TK_ORDER; TK_ASC; TK_DESC; TK_LIMIT;
   TK_OFFSET; TK_DISTINCT; TK_ALL; TK_AS; TK_JOIN; TK_INNER; TK_LEFT; TK_RIGHT; TK_FULL; TK_OUTER;
   TK_CROSS; TK_ON; TK_USING; TK_AND; TK_OR; TK_NOT; TK_NULL; TK_IS; TK_IN; TK_LIKE; TK_BETWEEN;
   TK_EXISTS; TK_CASE; TK_WHEN; TK_THEN; TK_ELSE; TK_END; TK_CAST; TK_TRUE; TK_FALSE; TK_INSERT;
   TK_INTO; TK_VALUES; TK_UPDATE; TK_SET; TK_DELETE; TK_CREATE; TK_TABLE; TK_INDEX; TK_UNIQUE;
   TK_VIEW; TK_MATERIALIZED; TK_DROP; TK_IF; TK_TEMP; TK_PRIMARY; TK_KEY; TK_FOREIGN; TK_REFERENCES;
   TK_DEFAULT; TK_CHECK; TK_COLLATE; TK_CONSTRAINT; TK_AUTOINCREMENT; TK_GENERATED; TK_ALWAYS;
   TK_STORED; TK_VIRTUAL; TK_WITH; TK_SYSTEM; TK_VERSIONING; TK_PERIOD; TK_FOR; TK_BEGIN; TK_COMMIT;
   TK_ROLLBACK; TK_TRANSACTION; TK_SAVEPOINT; TK_RELEASE; TK_TO; TK_FUNCTION; TK_PROCEDURE;
   TK_LANGUAGE; TK_RETURNS; TK_CALL; TK_PREPARE; TK_ALTER; TK_ADD; TK_COLUMN; TK_RENAME; TK_UNION;
   TK_EXCEPT; TK_INTERSECT; TK_EXPLAIN; TK_VACUUM; TK_RETURNING; TK_GLOB; TK_ESCAPE; TK_TABLESPACE;
   TK_PARTITION; TK_RANGE; TK_LIST; TK_HASH; TK_TRUNCATE; TK_ANALYZE; TK_REINDEX; TK_COMMENT;
   TK_COMPRESSION; TK_GRANT; TK_REVOKE; TK_PRIVILEGES; TK_ROLE; TK_USER; TK_OWNED; TK_ATTACH;
   TK_DETACH; TK_DATABASE; TK_LOCK; TK_TYPE; TK_LOCATION; TK_MAX].
(** The value of an enumerator. *)
Definition tk_code (k : tdb_token_kind) : Z :=
  match k with
  | TK_EOF => 0 | TK_ILLEGAL => 1 | TK_ID => 2 | TK_STRING => 3 | TK_INTEGER => 4 | TK_FLOAT => 5
  | TK_BLOB => 6 | TK_PARAM => 7 | TK_LP => 8 | TK_RP => 9 | TK_COMMA => 10 | TK_SEMI => 11 | TK_DOT => 12
  | TK_STAR => 13 | TK_PLUS => 14 | TK_MINUS => 15 | TK_SLASH => 16 | TK_PERCENT => 17 | TK_EQ => 18
  | TK_NE => 19 | TK_LT => 20 | TK_LE => 21 | TK_GT => 22 | TK_GE => 23 | TK_CONCAT => 24 | TK_BITAND => 25
  | TK_BITOR => 26 | TK_BITNOT => 27 | TK_SHL => 28 | TK_SHR => 29 | TK_SELECT => 30 | TK_FROM => 31
  | TK_WHERE => 32 | TK_GROUP => 33 | TK_BY => 34 | TK_HAVING => 35 | TK_ORDER => 36 | TK_ASC => 37
  | TK_DESC => 38 | TK_LIMIT => 39 | TK_OFFSET => 40 | TK_DISTINCT => 41 | TK_ALL => 42 | TK_AS => 43
  | TK_JOIN => 44 | TK_INNER => 45 | TK_LEFT => 46 | TK_RIGHT => 47 | TK_FULL => 48 | TK_OUTER => 49
  | TK_CROSS => 50 | TK_ON => 51 | TK_USING => 52 | TK_AND => 53 | TK_OR => 54 | TK_NOT => 55 | TK_NULL => 56
  | TK_IS => 57 | TK_IN => 58 | TK_LIKE => 59 | TK_BETWEEN => 60 | TK_EXISTS => 61 | TK_CASE => 62
  | TK_WHEN => 63 | TK_THEN => 64 | TK_ELSE => 65 | TK_END => 66 | TK_CAST => 67 | TK_TRUE => 68
  | TK_FALSE => 69 | TK_INSERT => 70 | TK_INTO => 71 | TK_VALUES => 72 | TK_UPDATE => 73 | TK_SET => 74
  | TK_DELETE => 75 | TK_CREATE => 76 | TK_TABLE => 77 | TK_INDEX => 78 | TK_UNIQUE => 79 | TK_VIEW => 80
  | TK_MATERIALIZED => 81 | TK_DROP => 82 | TK_IF => 83 | TK_TEMP => 84 | TK_PRIMARY => 85 | TK_KEY => 86
  | TK_FOREIGN => 87 | TK_REFERENCES => 88 | TK_DEFAULT => 89 | TK_CHECK => 90 | TK_COLLATE => 91
  | TK_CONSTRAINT => 92 | TK_AUTOINCREMENT => 93 | TK_GENERATED => 94 | TK_ALWAYS => 95 | TK_STORED => 96
  | TK_VIRTUAL => 97 | TK_WITH => 98 | TK_SYSTEM => 99 | TK_VERSIONING => 100 | TK_PERIOD => 101
  | TK_FOR => 102 | TK_BEGIN => 103 | TK_COMMIT => 104 | TK_ROLLBACK => 105 | TK_TRANSACTION => 106
  | TK_SAVEPOINT => 107 | TK_RELEASE => 108 | TK_TO => 109 | TK_FUNCTION => 110 | TK_PROCEDURE => 111
  | TK_LANGUAGE => 112 | TK_RETURNS => 113 | TK_CALL => 114 | TK_PREPARE => 115 | TK_ALTER => 116
  | TK_ADD => 117 | TK_COLUMN => 118 | TK_RENAME => 119 | TK_UNION => 120 | TK_EXCEPT => 121
  | TK_INTERSECT => 122 | TK_EXPLAIN => 123 | TK_VACUUM => 124 | TK_RETURNING => 125 | TK_GLOB => 126
  | TK_ESCAPE => 127 | TK_TABLESPACE => 128 | TK_PARTITION => 129 | TK_RANGE => 130 | TK_LIST => 131
  | TK_HASH => 132 | TK_TRUNCATE => 133 | TK_ANALYZE => 134 | TK_REINDEX => 135 | TK_COMMENT => 136
  | TK_COMPRESSION => 137 | TK_GRANT => 138 | TK_REVOKE => 139 | TK_PRIVILEGES => 140 | TK_ROLE => 141
  | TK_USER => 142 | TK_OWNED => 143 | TK_ATTACH => 144 | TK_DETACH => 145 | TK_DATABASE => 146
  | TK_LOCK => 147 | TK_TYPE => 148 | TK_LOCATION => 149 | TK_MAX => 150
  end.
Lemma tk_code_nth k : nth (Z.to_nat (tk_code k)) all_kinds TK_EOF = k.
Proof. by destruct k. Qed.
#[global] Instance tdb_token_kind_eq_dec : EqDecision tdb_token_kind.
Proof.
  intros a b. destruct (decide (tk_code a = tk_code b)) as [E|E]; [left|right].
  - by rewrite <- (tk_code_nth a), <- (tk_code_nth b), E.
  - intros ->. done.
Defined.
Definition tk_eqb (a b : tdb_token_kind) : bool := tk_code a =? tk_code b.
Lemma tk_eqb_spec a b : tk_eqb a b = true <-> a = b.
Proof.
  unfold tk_eqb. rewrite Z.eqb_eq. split; [|by intros ->]. intros E.
  by rewrite <- (tk_code_nth a), <- (tk_code_nth b), E.
Qed.
Lemma tk_eqb_refl a : tk_eqb a a = true.
Proof. by apply tk_eqb_spec. Qed.

(** ** Expressions and SELECT *)

(** A name is its bytes. *)
Abbreviation name := (list Z).

Inductive tdb_join_kind := JOIN_NONE | JOIN_INNER | JOIN_LEFT | JOIN_RIGHT | JOIN_FULL | JOIN_CROSS.

(** [EX_BINARY] keeps the operator, the NOT of NOT LIKE and IS NOT, the
    operands, and the operand of ESCAPE; [EX_IN_LIST] and [EX_IN_SELECT] are
    the two forms of [EX_IN]; [EX_CASE] keeps the base, the WHEN-THEN pairs in
    one list as the code does, and the ELSE branch. *)
#[warnings="-register-all"]
Inductive tdb_expr :=
| EX_LITERAL (lit : tdb_value)
| EX_NULL
| EX_COLUMN (table : option name) (col : name)
| EX_PARAM (param : name)
| EX_UNARY (op : tdb_token_kind) (e : tdb_expr)
| EX_BINARY (op : tdb_token_kind) (negated : bool) (l r : tdb_expr) (esc : option tdb_expr)
| EX_FUNC (fn : name) (distinct : bool) (args : list tdb_expr)
| EX_AGG (fn : name) (distinct : bool) (args : list tdb_expr)
| EX_CASE (base : option tdb_expr) (whens : list tdb_expr) (els : option tdb_expr)
| EX_CAST (e : tdb_expr) (ty : tdb_typespec)
| EX_IN_LIST (negated : bool) (e : tdb_expr) (args : list tdb_expr)
| EX_IN_SELECT (negated : bool) (e : tdb_expr) (q : tdb_select)
| EX_BETWEEN (negated : bool) (e lo hi : tdb_expr)
| EX_EXISTS (q : tdb_select)
| EX_SUBQUERY (q : tdb_select)
| EX_STAR
| EX_WINDOW (fn : name) (distinct : bool) (args partition : list tdb_expr) (order : list (tdb_expr * bool))
with tdb_select :=
| mk_select (with_ : option (bool * list tdb_cte)) (distinct : bool) (cols : list (tdb_expr * option name))
    (from : list tdb_src) (where_ : option tdb_expr) (group : list tdb_expr) (having : option tdb_expr)
    (order : list (tdb_expr * bool)) (limit offset : option tdb_expr)
    (setop : option (tdb_token_kind * bool * tdb_select))
with tdb_src :=
| mk_src (table alias : option name) (subquery : option tdb_select) (join : tdb_join_kind) (on as_of : option tdb_expr)
    (using_cols : list name) (natural : bool)
with tdb_cte :=
| mk_cte (cname : name) (colnames : list name) (body : tdb_select).

Definition src_table (s : tdb_src) : option name := match s with mk_src t _ _ _ _ _ _ _ => t end.
Definition src_alias (s : tdb_src) : option name := match s with mk_src _ a _ _ _ _ _ _ => a end.

(** ** DDL *)

Record tdb_coldef := mk_coldef {
  cd_name : name; cd_type : tdb_typespec; cd_notnull : bool; cd_pk : bool; cd_unique : bool; cd_autoinc : bool;
  cd_hidden : bool; cd_coll : tdb_collation; cd_default_sql : cstring; cd_check_sql : cstring;
  cd_generated : tdb_generated_kind; cd_generated_sql : cstring }.
Inductive tdb_partition_kind := TDB_PART_NONE | TDB_PART_RANGE | TDB_PART_LIST | TDB_PART_HASH.
Record tdb_create_table := mk_create_table {
  ct_name : name; ct_if_not_exists : bool; ct_temp : bool; ct_cols : list tdb_coldef; ct_pk_cols : list name;
  ct_check_sql : cstring; ct_system_versioning : bool; ct_columnar : bool; ct_period_start : cstring;
  ct_period_end : cstring; ct_tablespace : cstring; ct_compression : cstring; ct_partition_kind : tdb_partition_kind;
  ct_partition_cols : list name; ct_partition_count : Z; ct_as_select : option tdb_select }.
Record tdb_create_index := mk_create_index {
  ci_name : name; ci_table : name; ci_unique : bool; ci_if_not_exists : bool; ci_cols : list (name * bool);
  ci_kind : tdb_index_kind }.

(** ** Statements *)

Inductive tdb_or_action := TDB_OR_ABORT | TDB_OR_IGNORE | TDB_OR_REPLACE.
Inductive tdb_upsert := UP_NOTHING | UP_UPDATE (sets : list (name * tdb_expr)) (where_ : option tdb_expr).
Inductive tdb_alter := TDB_ALTER_ADD_COLUMN (cd : tdb_coldef) | TDB_ALTER_DROP_COLUMN (col : name)
  | TDB_ALTER_RENAME_COLUMN (col newname : name) | TDB_ALTER_RENAME_TABLE (newname : name).
(** INSERT, UPDATE and DELETE carry their RETURNING list. *)
#[warnings="-register-all"]
Inductive tdb_ast_stmt :=
| ST_SELECT (q : tdb_select)
| ST_INSERT (table : name) (cols : list name) (source : list (list tdb_expr) + tdb_select) (or_action : tdb_or_action)
    (upsert : option tdb_upsert) (returning : list (tdb_expr * option name))
| ST_UPDATE (table : name) (sets : list (name * tdb_expr)) (where_ : option tdb_expr)
    (returning : list (tdb_expr * option name))
| ST_DELETE (table : name) (where_ : option tdb_expr) (returning : list (tdb_expr * option name))
| ST_CREATE_TABLE (ct : tdb_create_table)
| ST_DROP_TABLE (n : name) (if_exists : bool)
| ST_CREATE_INDEX (ci : tdb_create_index)
| ST_DROP_INDEX (n : name) (if_exists : bool)
| ST_CREATE_VIEW (n : name) (materialized if_not_exists : bool) (select_sql : name)
| ST_DROP_VIEW (n : name) (if_exists : bool)
| ST_CREATE_ROUTINE (n : name) (is_function or_replace : bool) (params : list name) (lua_src : cstring) (lang : cstring)
| ST_CALL (n : name) (args : list tdb_expr)
| ST_BEGIN | ST_COMMIT | ST_ROLLBACK
| ST_SAVEPOINT (n : name) | ST_RELEASE (n : name) | ST_ROLLBACK_TO (n : name)
| ST_PREPARE (n sql : name)
| ST_ALTER_TABLE (table : name) (action : option tdb_alter)
| ST_EXPLAIN (inner : option tdb_ast_stmt)
| ST_VACUUM
| ST_TRUNCATE (n : name) (restart cascade : bool)
| ST_ANALYZE (n : cstring)
| ST_REINDEX (n : cstring) (is_index : bool)
| ST_COMMENT (on_kind : Z) (target body : cstring)
| ST_CREATE_TABLESPACE (n : name) (location : cstring) (if_not_exists : bool)
| ST_DROP_TABLESPACE (n : name) (if_exists : bool)
| ST_GRANT (privs object grantee : name)
| ST_REVOKE (privs object grantee : name)
| ST_ATTACH (path : cstring) (n : name)
| ST_DETACH (n : name)
| ST_LOCK_TABLE (table : name) (exclusive : bool).
