(* ===== verification/Parser.v ===== *)
(** * The SQL parser (src/src/sql/tdb_parser.c)

    The parser state [P] holds the lexer, the current token and the first
    error.  A parsing function is a computation [M] on that state.  The
    functions are mutually recursive through [parse_expr], [parse_unary] and
    [parse_select]; these take the depth of the calls as fuel, the loops take
    the bytes that are left, and a computation answers [None] when its fuel is
    used up.  [tdb_parse] gives enough of it.  Allocations from the arena,
    whose failure the code does not check, succeed. *)
From S2P Require Import Prelude Util Buf Value Schema Sqltype Lexer Ast.

Record P := mk_P { p_sql : list Z; p_lx : tdb_lexer; p_cur : tdb_token; p_err : bool; p_errmsg : cstring }.

Definition M (A : Type) : Type := P -> option (P * A).
#[global] Instance M_ret : MRet M := fun A x p => Some (p, x).
#[global] Instance M_bind : MBind M :=
  fun A B k m p => match m p with Some (p, x) => k x p | None => None end.
Definition out_of_fuel {A} : M A := fun _ => None.

(** ** Utilities *)

(** The bytes of a token in the source. *)
Definition tok_text (p : P) (t : tdb_token) : list Z := bsub (p_sql p) (t_z t) (t_n t).
(** The current token, its kind, its text and its offset. *)
Definition cur : M tdb_token := fun p => Some (p, p_cur p).
Definition kind : M tdb_token_kind := fun p => Some (p, t_kind (p_cur p)).
Definition dup_tok : M name := fun p => Some (p, tok_text p (p_cur p)).
Definition off : M Z := fun p => Some (p, t_z (p_cur p)).
Definition get_err : M bool := fun p => Some (p, p_err p).

Definition advance : M unit := fun p =>
  let '(lx, t) := tdb_lex_next (p_lx p) in Some (mk_P (p_sql p) lx t (p_err p) (p_errmsg p), tt).

(** The message is formatted into a buffer of 160 bytes. *)
Definition set_err (msg : String.string) : M unit := fun p =>
  if p_err p then Some (p, tt)
  else
    let c := p_cur p in
    let near := cstr (bsub (p_sql p) (t_z c) (if t_n c =? 0 then 1 else t_n c)) in
    Some (mk_P (p_sql p) (p_lx p) c true
            (Some (take 159 (str "near " ++ [34] ++ near ++ [34] ++ str ": " ++ str msg))), tt).

Definition accept (k : tdb_token_kind) : M bool :=
  c ← kind; if tk_eqb c k then advance;; mret true else mret false.
Definition expect (k : tdb_token_kind) (what : String.string) : M bool :=
  c ← kind; if tk_eqb c k then advance;; mret true else set_err what;; mret false.

Definition id_is_tok (p : P) (t : tdb_token) (kw : String.string) : bool :=
  match t_kind t with
  | TK_ID => (blen (str kw) =? t_n t) && (strncasecmp (bfrom (p_sql p) (t_z t)) (str kw) (Z.to_nat (t_n t)) =? 0)
  | _ => false
  end.
Definition id_is (kw : String.string) : M bool := fun p => Some (p, id_is_tok p (p_cur p) kw).

(** The source from [start] to [e] without the white space around it. *)
Definition trim (s : list Z) : list Z := rev (skip_space (rev (skip_space s))).
Definition span (start e : Z) : M name := fun p => Some (p, trim (bsub (p_sql p) start (e - start))).

(** The bytes of the source that are left, the fuel of the loops. *)
Definition bytes_left (p : P) : nat := S (Z.to_nat (lx_len (p_lx p) - lx_pos (p_lx p))).

Definition with_fuel {A} (loop : nat -> M A) : M A := fun p => loop (S (bytes_left p)) p.

(** [while (cur.kind == TK_ID) advance(p)] *)
Fixpoint skip_ids_loop (fuel : nat) : M unit :=
  match fuel with
  | O => out_of_fuel
  | S fuel => k ← kind; if tk_eqb k TK_ID then advance;; skip_ids_loop fuel else mret tt
  end.
Definition skip_ids : M unit := with_fuel skip_ids_loop.

(** [do item while (accept(p, TK_COMMA))]; with [chk] the loop also ends at
    an error. *)
Fixpoint comma_loop {A} (fuel : nat) (chk : bool) (item : M A) : M (list A) :=
  match fuel with
  | O => out_of_fuel
  | S fuel =>
      x ← item;
      more ← accept TK_COMMA;
      err ← get_err;
      if more && negb (chk && err) then l ← comma_loop fuel chk item; mret (x :: l) else mret [x]
  end.
Definition comma_list {A} (chk : bool) (item : M A) : M (list A) := with_fuel (fun fuel => comma_loop fuel chk item).

Definition parse_name_list : M (list name) :=
  comma_list false (n ← dup_tok; expect TK_ID "expected name";; mret n).

(** ** Expressions *)

Definition is_agg_name (n : name) : bool :=
  existsb (fun a => strcasecmp n (str a) =? 0)
    ["count"%string; "sum"%string; "avg"%string; "min"%string; "max"%string; "total"%string; "group_concat"%string].

Definition binprec (op : tdb_token_kind) : Z :=
  match op with
  | TK_OR => 1
  | TK_AND => 2
  | TK_EQ | TK_NE | TK_LT | TK_LE | TK_GT | TK_GE | TK_IS | TK_IN | TK_LIKE | TK_GLOB | TK_BETWEEN => 4
  | TK_BITAND | TK_BITOR | TK_SHL | TK_SHR => 5
  | TK_PLUS | TK_MINUS => 6
  | TK_STAR | TK_SLASH | TK_PERCENT => 7
  | TK_CONCAT => 8
  | _ => 0
  end.

(** Hexadecimal digits of a blob literal; [-1] for another character. *)
Definition hex_digit (c : Z) : Z :=
  if (48 <=? c) && (c <=? 57) then c - 48
  else if (97 <=? c) && (c <=? 102) then c - 97 + 10
  else if (65 <=? c) && (c <=? 70) then c - 65 + 10 else -1.
Fixpoint hex_bytes (z : list Z) : option (list Z) :=
  match z with
  | hi :: lo :: z =>
      if (hex_digit hi <? 0) || (hex_digit lo <? 0) then None
      else match hex_bytes z with
           | Some b => Some (Z.lor (Z.shiftl (hex_digit hi) 4) (hex_digit lo) :: b)
           | None => None
           end
  | _ => Some []
  end.
(** A copied value; the setters keep it whole. *)
Definition text_value (s : list Z) : tdb_value := (tdb_value_set_text ok_alloc s (-1) false).2.
Definition blob_value (s : list Z) : tdb_value := (tdb_value_set_blob ok_alloc s (blen s) true).2.
Definition parse_blob : M tdb_expr :=
  z ← dup_tok;
  if negb (Z.land (blen z) 1 =? 0) then set_err "odd-length blob literal";; advance;; mret (EX_LITERAL VNull)
  else match hex_bytes z with
       | None => set_err "invalid hex digit in blob literal";; advance;; mret (EX_LITERAL VNull)
       | Some b => advance;; mret (EX_LITERAL (blob_value b))
       end.

(** ASC or DESC after an ORDER BY expression. *)
Definition opt_desc : M bool :=
  asc ← accept TK_ASC;
  if asc : bool then mret false else desc ← accept TK_DESC; if desc : bool then mret true else mret false.

Section Expr.
Context (parse_expr : Z -> M tdb_expr) (parse_unary : M tdb_expr) (parse_select : M tdb_select).

Definition expr_list : M (list tdb_expr) := comma_list false (parse_expr 0).
Definition order_list : M (list (tdb_expr * bool)) :=
  comma_list false (e ← parse_expr 0; d ← opt_desc; mret (e, d)).

(** [if (accept(p, k)) x = parse_expr(p, 0)] *)
Definition opt_expr (k : tdb_token_kind) : M (option tdb_expr) :=
  b ← accept k; if b : bool then e ← parse_expr 0; mret (Some e) else mret None.

(** The WHEN-THEN pairs of CASE. *)
Fixpoint when_loop (fuel : nat) : M (list tdb_expr) :=
  match fuel with
  | O => out_of_fuel
  | S fuel =>
      b ← accept TK_WHEN;
      if b : bool then
        w ← parse_expr 0;
        expect TK_THEN "expected THEN";;
        t ← parse_expr 0;
        l ← when_loop fuel;
        mret (w :: t :: l)
      else mret []
  end.
Definition parse_case : M tdb_expr :=
  advance;;
  k ← kind;
  base ← (if tk_eqb k TK_WHEN then mret None else e ← parse_expr 0; mret (Some e));
  whens ← with_fuel when_loop;
  els ← opt_expr TK_ELSE;
  expect TK_END "expected END";;
  mret (EX_CASE base whens els).

(** OVER (PARTITION BY ... ORDER BY ...) after the arguments of a call. *)
Definition parse_over (fn : name) (distinct : bool) (args : list tdb_expr) : M tdb_expr :=
  advance;;
  expect TK_LP "expected ( after OVER";;
  b ← accept TK_PARTITION;
  part ← (if b : bool then expect TK_BY "expected BY after PARTITION";; expr_list else mret []);
  o ← accept TK_ORDER;
  order ← (if o : bool then expect TK_BY "expected BY after ORDER";; order_list else mret []);
  expect TK_RP "expected ) after OVER";;
  mret (EX_WINDOW fn distinct args part order).
(** A call: the current token is the opening parenthesis. *)
Definition parse_call_args (fn : name) : M tdb_expr :=
  advance;;
  distinct ← accept TK_DISTINCT;
  k ← kind;
  args ← (if tk_eqb k TK_RP then mret [] else expr_list);
  expect TK_RP "expected ) after arguments";;
  over ← id_is "OVER";
  if over : bool then parse_over fn distinct args
  else mret (if is_agg_name fn then EX_AGG fn distinct args else EX_FUNC fn distinct args).
Definition parse_id : M tdb_expr :=
  n ← dup_tok;
  advance;;
  k ← kind;
  if tk_eqb k TK_DOT then
    advance;;
    k ← kind;
    if tk_eqb k TK_STAR then advance;; mret EX_STAR
    else c ← dup_tok; advance;; mret (EX_COLUMN (Some n) c)
  else if tk_eqb k TK_LP then parse_call_args n
  else mret (EX_COLUMN None n).
Definition parse_cast : M tdb_expr :=
  advance;;
  expect TK_LP "expected ( after CAST";;
  e ← parse_expr 0;
  expect TK_AS "expected AS in CAST";;
  ts ← off;
  skip_ids;;
  te ← off;
  s ← span ts te;
  expect TK_RP "expected ) after CAST";;
  mret (EX_CAST e (tdb_typespec_parse (Some s))).
Definition parse_paren : M tdb_expr :=
  advance;;
  k ← kind;
  if tk_eqb k TK_SELECT then q ← parse_select; expect TK_RP "expected )";; mret (EX_SUBQUERY q)
  else e ← parse_expr 0; expect TK_RP "expected )";; mret e.
Definition parse_exists : M tdb_expr :=
  advance;;
  expect TK_LP "expected ( after EXISTS";;
  q ← parse_select;
  expect TK_RP "expected )";;
  mret (EX_EXISTS q).

Definition parse_primary : M tdb_expr :=
  t ← cur;
  match t_kind t with
  | TK_INTEGER => advance;; mret (EX_LITERAL (VInt (t_ival t)))
  | TK_FLOAT => advance;; mret (EX_LITERAL (VReal (bits_of_f64 (t_rval t))))
  | TK_STRING => s ← dup_tok; advance;; mret (EX_LITERAL (text_value (decode_string s)))
  | TK_BLOB => parse_blob
  | TK_NULL => advance;; mret EX_NULL
  | TK_TRUE => advance;; mret (EX_LITERAL (VInt 1))
  | TK_FALSE => advance;; mret (EX_LITERAL (VInt 0))
  | TK_PARAM => s ← dup_tok; advance;; mret (EX_PARAM s)
  | TK_STAR => advance;; mret EX_STAR
  | TK_LP => parse_paren
  | TK_CAST => parse_cast
  | TK_EXISTS => parse_exists
  | TK_CASE => parse_case
  | TK_ID => parse_id
  | _ => set_err "expected an expression";; mret EX_NULL
  end.

Definition unary_body : M tdb_expr :=
  k ← kind;
  if tk_eqb k TK_MINUS || tk_eqb k TK_PLUS || tk_eqb k TK_BITNOT then advance;; e ← parse_unary; mret (EX_UNARY k e)
  else if tk_eqb k TK_NOT then advance;; e ← parse_expr 3; mret (EX_UNARY TK_NOT e)
  else parse_primary.

(** The operator at the current token: NOT is skipped before IN, LIKE, GLOB
    and BETWEEN; before anything else it ends the expression. *)
Definition next_op : M (option (tdb_token_kind * bool)) := fun p =>
  if tk_eqb (t_kind (p_cur p)) TK_NOT then
    match advance p with
    | None => None
    | Some (p', _) =>
        let k := t_kind (p_cur p') in
        if tk_eqb k TK_IN || tk_eqb k TK_LIKE || tk_eqb k TK_GLOB || tk_eqb k TK_BETWEEN
        then Some (p', Some (k, true)) else Some (p, None)
    end
  else Some (p, Some (t_kind (p_cur p), false)).

(** The right operand of [op] and the node that is built. *)
Definition parse_in (negated : bool) (left : tdb_expr) : M tdb_expr :=
  advance;;
  expect TK_LP "expected ( after IN";;
  k ← kind;
  e ← (if tk_eqb k TK_SELECT then q ← parse_select; mret (EX_IN_SELECT negated left q)
       else if tk_eqb k TK_RP then mret (EX_IN_LIST negated left [])
       else l ← expr_list; mret (EX_IN_LIST negated left l));
  expect TK_RP "expected ) after IN list";;
  mret e.
Definition parse_between (prec : Z) (negated : bool) (left : tdb_expr) : M tdb_expr :=
  advance;;
  lo ← parse_expr (prec + 1);
  expect TK_AND "expected AND in BETWEEN";;
  hi ← parse_expr (prec + 1);
  mret (EX_BETWEEN negated left lo hi).
Definition parse_is (left : tdb_expr) : M tdb_expr :=
  advance;;
  isnot ← accept TK_NOT;
  r ← parse_unary;
  mret (EX_BINARY TK_IS isnot left r None).
Definition parse_like (op : tdb_token_kind) (prec : Z) (negated : bool) (left : tdb_expr) : M tdb_expr :=
  advance;;
  r ← parse_expr (prec + 1);
  b ← accept TK_ESCAPE;
  esc ← (if b : bool then e ← parse_expr (prec + 1); mret (Some e) else mret None);
  mret (EX_BINARY op negated left r esc).
Definition parse_binary (op : tdb_token_kind) (prec : Z) (negated : bool) (left : tdb_expr) : M tdb_expr :=
  advance;; r ← parse_expr (prec + 1); mret (EX_BINARY op negated left r None).
Definition parse_rest (op : tdb_token_kind) (prec : Z) (negated : bool) (left : tdb_expr) : M tdb_expr :=
  if tk_eqb op TK_BETWEEN then parse_between prec negated left
  else if tk_eqb op TK_IN then parse_in negated left
  else if tk_eqb op TK_IS then parse_is left
  else if tk_eqb op TK_LIKE || tk_eqb op TK_GLOB then parse_like op prec negated left
  else parse_binary op prec negated left.
Fixpoint expr_loop (fuel : nat) (minprec : Z) (left : tdb_expr) : M tdb_expr :=
  match fuel with
  | O => out_of_fuel
  | S fuel =>
      err ← get_err;
      if err : bool then mret left
      else
        o ← next_op;
        match o with
        | None => mret left
        | Some (op, negated) =>
            let prec := binprec op in
            if (prec <? minprec) || (prec =? 0) then mret left
            else left ← parse_rest op prec negated left; expr_loop fuel minprec left
        end
  end.
Definition expr_body (minprec : Z) : M tdb_expr :=
  left ← parse_unary; with_fuel (fun fuel => expr_loop fuel minprec left).

(** ** SELECT *)

Definition opt_alias : M (option name) :=
  b ← accept TK_AS;
  if b : bool then a ← dup_tok; expect TK_ID "expected alias";; mret (Some a)
  else
    k ← kind;
    nat_ ← id_is "NATURAL";
    if tk_eqb k TK_ID && negb nat_ then a ← dup_tok; advance;; mret (Some a) else mret None.

Definition parse_src_item : M (tdb_join_kind -> option tdb_expr -> list name -> bool -> tdb_src) :=
  k ← kind;
  if tk_eqb k TK_LP then
    advance;;
    q ← parse_select;
    expect TK_RP "expected ) after subquery";;
    a ← opt_alias;
    mret (fun join on using_cols natural => mk_src None a (Some q) join on None using_cols natural)
  else
    t ← dup_tok;
    expect TK_ID "expected table name";;
    k ← kind;
    if tk_eqb k TK_FOR then
      advance;;
      expect TK_ID "expected SYSTEM_TIME";;
      accept TK_AS;;
      k ← kind;
      (if tk_eqb k TK_ID then advance else mret tt);;
      e ← parse_expr 0;
      mret (fun join on using_cols natural => mk_src (Some t) None None join on (Some e) using_cols natural)
    else
      a ← opt_alias;
      mret (fun join on using_cols natural => mk_src (Some t) a None join on None using_cols natural).

Definition parser_eq (lq rq : option name) (col : name) : tdb_expr :=
  EX_BINARY TK_EQ false (EX_COLUMN (Some (default [] lq)) col) (EX_COLUMN (Some (default [] rq)) col) None.
Definition parser_and (a b : option tdb_expr) : option tdb_expr :=
  match a, b with
  | None, _ => b
  | _, None => a
  | Some a, Some b => Some (EX_BINARY TK_AND false a b None)
  end.
(** The ON condition of USING: the named columns of both sides are equal. *)
Definition using_cond (lq rq : option name) (cols : list name) : option tdb_expr :=
  foldl (fun cond c => parser_and cond (Some (parser_eq lq rq c))) None cols.
Definition src_ref (s : tdb_src) : option name := match src_alias s with Some a => Some a | None => src_table s end.

(** The join operator at the current token; [None] when there is none. *)
Definition parse_join : M (option tdb_join_kind) :=
  c ← accept TK_COMMA;
  if c : bool then mret (Some JOIN_CROSS)
  else
    k ← kind;
    if tk_eqb k TK_JOIN then advance;; mret (Some JOIN_INNER)
    else if tk_eqb k TK_INNER then advance;; accept TK_JOIN;; mret (Some JOIN_INNER)
    else if tk_eqb k TK_CROSS then advance;; accept TK_JOIN;; mret (Some JOIN_CROSS)
    else if tk_eqb k TK_LEFT then advance;; accept TK_OUTER;; accept TK_JOIN;; mret (Some JOIN_LEFT)
    else if tk_eqb k TK_RIGHT then advance;; accept TK_OUTER;; accept TK_JOIN;; mret (Some JOIN_RIGHT)
    else if tk_eqb k TK_FULL then advance;; accept TK_OUTER;; accept TK_JOIN;; mret (Some JOIN_FULL)
    else mret None.
(** The ON or USING condition of the source [mk], which follows [prev]. *)
Definition parse_join_cond (prev : tdb_src) (jk : tdb_join_kind) (natural : bool)
    (mk : tdb_join_kind -> option tdb_expr -> list name -> bool -> tdb_src) : M tdb_src :=
  b ← accept TK_ON;
  if b : bool then e ← parse_expr 0; mret (mk jk (Some e) [] natural)
  else
    u ← accept TK_USING;
    if u : bool then
      expect TK_LP "expected ( after USING";;
      cols ← parse_name_list;
      expect TK_RP "expected ) after USING column list";;
      mret (mk jk (using_cond (src_ref prev) (src_ref (mk jk None [] natural)) cols) cols natural)
    else mret (mk jk None [] natural).
Fixpoint from_loop (fuel : nat) (prev : tdb_src) : M (list tdb_src) :=
  match fuel with
  | O => out_of_fuel
  | S fuel =>
      natural ← id_is "NATURAL";
      (if natural : bool then advance else mret tt);;
      j ← parse_join;
      match j with
      | None => (if natural : bool then set_err "NATURAL must be followed by JOIN" else mret tt);; mret []
      | Some jk =>
          mk ← parse_src_item;
          s ← parse_join_cond prev jk natural mk;
          err ← get_err;
          if err : bool then mret [s] else l ← from_loop fuel s; mret (s :: l)
      end
  end.
Definition parse_from : M (list tdb_src) :=
  mk ← parse_src_item;
  let head := mk JOIN_NONE None [] false in
  l ← with_fuel (fun fuel => from_loop fuel head);
  mret (head :: l).

Definition parse_cte : M tdb_cte :=
  n ← dup_tok;
  expect TK_ID "expected CTE name";;
  b ← accept TK_LP;
  cols ← (if b : bool then l ← parse_name_list; expect TK_RP "expected ) after CTE column list";; mret l else mret []);
  expect TK_AS "expected AS in WITH";;
  expect TK_LP "expected ( before CTE body";;
  q ← parse_select;
  expect TK_RP "expected ) after CTE body";;
  mret (mk_cte n cols q).
Definition parse_with : M (option (bool * list tdb_cte)) :=
  b ← accept TK_WITH;
  if b : bool then
    r ← id_is "RECURSIVE";
    (if r : bool then advance else mret tt);;
    l ← comma_list true parse_cte;
    mret (Some (r, l))
  else mret None.

(** An item of a projection with its alias. *)
Definition parse_result_col : M (tdb_expr * option name) :=
  e ← parse_expr 0;
  b ← accept TK_AS;
  if b : bool then a ← dup_tok; expect TK_ID "expected alias";; mret (e, Some a)
  else
    k ← kind;
    if tk_eqb k TK_ID then a ← dup_tok; advance;; mret (e, Some a) else mret (e, None).
Definition parse_group : M (list tdb_expr * option tdb_expr) :=
  b ← accept TK_GROUP;
  if b : bool then
    expect TK_BY "expected BY after GROUP";;
    l ← expr_list;
    h ← opt_expr TK_HAVING;
    mret (l, h)
  else mret ([], None).
Definition parse_order : M (list (tdb_expr * bool)) :=
  b ← accept TK_ORDER;
  if b : bool then expect TK_BY "expected BY after ORDER";; order_list else mret [].
Definition parse_limit : M (option tdb_expr * option tdb_expr) :=
  b ← accept TK_LIMIT;
  if b : bool then
    l ← parse_expr 0;
    o ← accept TK_OFFSET;
    if o : bool then e ← parse_expr 0; mret (Some l, Some e)
    else
      c ← accept TK_COMMA;
      if c : bool then e ← parse_expr 0; mret (Some e, Some l) else mret (Some l, None)
  else mret (None, None).
Definition parse_setop : M (option (tdb_token_kind * bool * tdb_select)) :=
  k ← kind;
  if tk_eqb k TK_UNION || tk_eqb k TK_EXCEPT || tk_eqb k TK_INTERSECT then
    advance;;
    all ← (if tk_eqb k TK_UNION then
             all ← accept TK_ALL;
             if all : bool then mret true else accept TK_DISTINCT;; mret false
           else mret false);
    q ← parse_select;
    mret (Some (k, all, q))
  else mret None.
Definition select_body : M tdb_select :=
  w ← parse_with;
  expect TK_SELECT "expected SELECT";;
  distinct ← accept TK_DISTINCT;
  (if distinct : bool then mret false else accept TK_ALL);;
  cols ← comma_list true parse_result_col;
  f ← accept TK_FROM;
  from ← (if f : bool then parse_from else mret []);
  where_ ← opt_expr TK_WHERE;
  g ← parse_group;
  order ← parse_order;
  lim ← parse_limit;
  setop ← parse_setop;
  mret (mk_select w distinct cols from where_ g.1 g.2 order lim.1 lim.2 setop).
End Expr.

Fixpoint parse_expr (fuel : nat) (minprec : Z) : M tdb_expr :=
  match fuel with
  | O => out_of_fuel
  | S fuel => expr_body (parse_expr fuel) (parse_unary fuel) (parse_select fuel) minprec
  end
with parse_unary (fuel : nat) : M tdb_expr :=
  match fuel with
  | O => out_of_fuel
  | S fuel => unary_body (parse_expr fuel) (parse_unary fuel) (parse_select fuel)
  end
with parse_select (fuel : nat) : M tdb_select :=
  match fuel with
  | O => out_of_fuel
  | S fuel => select_body (parse_expr fuel) (parse_select fuel)
  end.
