(* ===== verification/ParserStmt.v ===== *)
(** * Statements of the SQL parser (src/src/sql/tdb_parser.c)

    DML, DDL and the other statements, and the entry points [tdb_parse] and
    [tdb_parse_expression].  The fuel of [parse_expr] and [parse_select] is
    shared by the functions of a statement. *)
From S2P Require Import Prelude Util Buf Value Schema Sqltype Lexer Ast Parser.

(** IF NOT EXISTS and IF EXISTS. *)
Definition if_not_exists : M bool :=
  k ← kind;
  if tk_eqb k TK_IF then
    advance;; expect TK_NOT "expected NOT";; expect TK_EXISTS "expected EXISTS";; mret true
  else mret false.
Definition if_exists : M bool :=
  k ← kind;
  if tk_eqb k TK_IF then advance;; expect TK_EXISTS "expected EXISTS";; mret true else mret false.
(** [x = dup_tok(p, &p->cur); expect(p, TK_ID, what)] *)
Definition parse_name (what : String.string) : M name := n ← dup_tok; expect TK_ID what;; mret n.
(** [if (id_is(&p->cur, kw)) advance(p)] *)
Definition skip_word (kw : String.string) : M unit := b ← id_is kw; if b : bool then advance else mret tt.
(** [if (p->cur.kind == k) advance(p)] *)
Definition skip_kind (k : tdb_token_kind) : M unit := c ← kind; if tk_eqb c k then advance else mret tt.

Section Stmt.
Context (parse_expr : Z -> M tdb_expr) (parse_select : M tdb_select).

(** ** DML *)

Definition parse_returning : M (list (tdb_expr * option name)) :=
  b ← accept TK_RETURNING;
  if b : bool then comma_list true (parse_result_col parse_expr) else mret [].
(** The assignments after SET. *)
Definition set_list : M (list (name * tdb_expr)) :=
  comma_list true (c ← parse_name "expected column name"; expect TK_EQ "expected = in SET";; e ← parse_expr 0; mret (c, e)).
Definition values_row : M (list tdb_expr) :=
  expect TK_LP "expected ( in VALUES";;
  k ← kind;
  row ← (if tk_eqb k TK_RP then mret [] else expr_list parse_expr);
  expect TK_RP "expected ) in VALUES";;
  mret row.
Definition parse_or_action : M tdb_or_action :=
  b ← accept TK_OR;
  if b : bool then
    r ← id_is "REPLACE";
    i ← id_is "IGNORE";
    advance;;
    mret (if r : bool then TDB_OR_REPLACE else if i : bool then TDB_OR_IGNORE else TDB_OR_ABORT)
  else mret TDB_OR_ABORT.
(** ON CONFLICT [(cols)] DO NOTHING | DO UPDATE SET ... [WHERE ...] *)
Definition parse_upsert : M (option tdb_upsert) :=
  b ← accept TK_ON;
  if b : bool then
    c ← id_is "CONFLICT";
    (if c : bool then advance else set_err "expected CONFLICT");;
    l ← accept TK_LP;
    (if l : bool then parse_name_list;; expect TK_RP "expected )" else mret false);;
    d ← id_is "DO";
    (if d : bool then advance else set_err "expected DO");;
    n ← id_is "NOTHING";
    if n : bool then advance;; mret (Some UP_NOTHING)
    else
      u ← accept TK_UPDATE;
      if u : bool then
        expect TK_SET "expected SET";;
        sets ← set_list;
        w ← opt_expr parse_expr TK_WHERE;
        mret (Some (UP_UPDATE sets w))
      else set_err "expected NOTHING or UPDATE";; mret (Some (UP_UPDATE [] None))
  else mret None.
Definition parse_insert : M tdb_ast_stmt :=
  advance;;
  act ← parse_or_action;
  expect TK_INTO "expected INTO";;
  t ← parse_name "expected table name";
  l ← accept TK_LP;
  cols ← (if l : bool then c ← parse_name_list; expect TK_RP "expected )";; mret c else mret []);
  k ← kind;
  src ← (if tk_eqb k TK_SELECT then q ← parse_select; mret (inr q)
         else
           expect TK_VALUES "expected VALUES or SELECT";;
           rows ← comma_list true values_row;
           mret (inl rows));
  up ← parse_upsert;
  ret ← parse_returning;
  mret (ST_INSERT t cols src act up ret).
Definition parse_update : M tdb_ast_stmt :=
  advance;;
  t ← parse_name "expected table name";
  expect TK_SET "expected SET";;
  sets ← set_list;
  w ← opt_expr parse_expr TK_WHERE;
  ret ← parse_returning;
  mret (ST_UPDATE t sets w ret).
Definition parse_delete : M tdb_ast_stmt :=
  advance;;
  expect TK_FROM "expected FROM";;
  t ← parse_name "expected table name";
  w ← opt_expr parse_expr TK_WHERE;
  ret ← parse_returning;
  mret (ST_DELETE t w ret).

(** ** DDL *)

(** The parenthesised part of a type. *)
Fixpoint paren_loop (fuel : nat) (depth : Z) : M unit :=
  match fuel with
  | O => out_of_fuel
  | S fuel =>
      k ← kind;
      let depth := if tk_eqb k TK_LP then depth + 1 else if tk_eqb k TK_RP then depth - 1 else depth in
      advance;;
      k ← kind;
      if (0 <? depth) && negb (tk_eqb k TK_EOF) then paren_loop fuel depth else mret tt
  end.
Definition parse_type : M tdb_typespec :=
  ts ← off;
  skip_ids;;
  k ← kind;
  (if tk_eqb k TK_LP then with_fuel (fun fuel => paren_loop fuel 0) else mret tt);;
  te ← off;
  s ← span ts te;
  mret (tdb_typespec_parse (Some s)).
(** The source text of an expression. *)
Definition expr_source : M name :=
  s0 ← off;
  parse_expr 0;;
  s1 ← off;
  span s0 s1.

Definition new_coldef (n : name) (ty : tdb_typespec) : tdb_coldef :=
  mk_coldef n ty false false false false false TDB_COLL_BINARY None None TDB_GEN_NONE None.
Definition cd_set_notnull (c : tdb_coldef) : tdb_coldef :=
  mk_coldef (cd_name c) (cd_type c) true (cd_pk c) (cd_unique c) (cd_autoinc c) (cd_hidden c) (cd_coll c)
    (cd_default_sql c) (cd_check_sql c) (cd_generated c) (cd_generated_sql c).
Definition cd_set_pk (c : tdb_coldef) (autoinc : bool) : tdb_coldef :=
  mk_coldef (cd_name c) (cd_type c) (cd_notnull c) true (cd_unique c) (if autoinc then true else cd_autoinc c) (cd_hidden c)
    (cd_coll c) (cd_default_sql c) (cd_check_sql c) (cd_generated c) (cd_generated_sql c).
Definition cd_set_unique (c : tdb_coldef) : tdb_coldef :=
  mk_coldef (cd_name c) (cd_type c) (cd_notnull c) (cd_pk c) true (cd_autoinc c) (cd_hidden c) (cd_coll c)
    (cd_default_sql c) (cd_check_sql c) (cd_generated c) (cd_generated_sql c).
Definition cd_set_default (c : tdb_coldef) (s : name) : tdb_coldef :=
  mk_coldef (cd_name c) (cd_type c) (cd_notnull c) (cd_pk c) (cd_unique c) (cd_autoinc c) (cd_hidden c) (cd_coll c)
    (Some s) (cd_check_sql c) (cd_generated c) (cd_generated_sql c).
Definition cd_set_check (c : tdb_coldef) (s : name) : tdb_coldef :=
  mk_coldef (cd_name c) (cd_type c) (cd_notnull c) (cd_pk c) (cd_unique c) (cd_autoinc c) (cd_hidden c) (cd_coll c)
    (cd_default_sql c) (Some s) (cd_generated c) (cd_generated_sql c).
Definition cd_set_nocase (c : tdb_coldef) : tdb_coldef :=
  mk_coldef (cd_name c) (cd_type c) (cd_notnull c) (cd_pk c) (cd_unique c) (cd_autoinc c) (cd_hidden c) TDB_COLL_NOCASE
    (cd_default_sql c) (cd_check_sql c) (cd_generated c) (cd_generated_sql c).
Definition cd_set_generated (c : tdb_coldef) (g : tdb_generated_kind) (s : name) : tdb_coldef :=
  mk_coldef (cd_name c) (cd_type c) (cd_notnull c) (cd_pk c) (cd_unique c) (cd_autoinc c) (cd_hidden c) (cd_coll c)
    (cd_default_sql c) (cd_check_sql c) g (Some s).

(** One constraint; [None] when the current token starts none. *)
Definition con_generated (k : tdb_token_kind) (c : tdb_coldef) : M tdb_coldef :=
  (if tk_eqb k TK_GENERATED then advance;; accept TK_ALWAYS;; expect TK_AS "expected AS" else advance;; mret true);;
  expect TK_LP "expected ( after AS";;
  s ← expr_source;
  expect TK_RP "expected ) after generated expression";;
  st ← accept TK_STORED;
  (if st : bool then mret false else accept TK_VIRTUAL);;
  mret (cd_set_generated c (if st : bool then TDB_GEN_STORED else TDB_GEN_VIRTUAL) s).
Definition column_constraint (c : tdb_coldef) : M (option tdb_coldef) :=
  k ← kind;
  if tk_eqb k TK_NOT then advance;; expect TK_NULL "expected NULL";; mret (Some (cd_set_notnull c))
  else if tk_eqb k TK_NULL then advance;; mret (Some c)
  else if tk_eqb k TK_PRIMARY then
    advance;; expect TK_KEY "expected KEY";;
    a ← accept TK_ASC;
    (if a : bool then mret true else accept TK_DESC);;
    ai ← accept TK_AUTOINCREMENT;
    mret (Some (cd_set_pk c ai))
  else if tk_eqb k TK_UNIQUE then advance;; mret (Some (cd_set_unique c))
  else if tk_eqb k TK_DEFAULT then advance;; s ← expr_source; mret (Some (cd_set_default c s))
  else if tk_eqb k TK_CHECK then
    advance;; expect TK_LP "expected ( after CHECK";;
    s ← expr_source;
    expect TK_RP "expected ) after CHECK";;
    mret (Some (cd_set_check c s))
  else if tk_eqb k TK_COLLATE then
    advance;;
    n ← id_is "NOCASE";
    expect TK_ID "expected collation name";;
    mret (Some (if n : bool then cd_set_nocase c else c))
  else if tk_eqb k TK_GENERATED || tk_eqb k TK_AS then c ← con_generated k c; mret (Some c)
  else if tk_eqb k TK_REFERENCES then
    advance;; expect TK_ID "expected referenced table";;
    l ← accept TK_LP;
    (if l : bool then parse_name_list;; expect TK_RP "expected )" else mret false);;
    mret (Some c)
  else mret None.
Fixpoint constraint_loop (fuel : nat) (c : tdb_coldef) : M tdb_coldef :=
  match fuel with
  | O => out_of_fuel
  | S fuel =>
      o ← column_constraint c;
      match o with
      | None => mret c
      | Some c => err ← get_err; if err : bool then mret c else constraint_loop fuel c
      end
  end.
Definition parse_column_constraints (c : tdb_coldef) : M tdb_coldef := with_fuel (fun fuel => constraint_loop fuel c).
Definition parse_coldef : M tdb_coldef :=
  n ← parse_name "expected column name";
  ty ← parse_type;
  parse_column_constraints (new_coldef n ty).

(** Table-level constraints other than PRIMARY KEY are skipped. *)
Fixpoint skip_constraint_loop (fuel : nat) (depth : Z) : M unit :=
  match fuel with
  | O => out_of_fuel
  | S fuel =>
      k ← kind;
      if tk_eqb k TK_EOF then mret tt
      else if tk_eqb k TK_LP then advance;; skip_constraint_loop fuel (depth + 1)
      else if tk_eqb k TK_RP then
        if depth =? 0 then mret tt else advance;; skip_constraint_loop fuel (depth - 1)
      else if tk_eqb k TK_COMMA && (depth =? 0) then mret tt
      else advance;; skip_constraint_loop fuel depth
  end.
Inductive table_item := TI_PK (cols : list name) | TI_SKIPPED | TI_COLUMN (c : tdb_coldef).
Definition parse_table_item : M table_item :=
  k ← kind;
  if tk_eqb k TK_PRIMARY then
    advance;; expect TK_KEY "expected KEY";; expect TK_LP "expected (";;
    l ← parse_name_list;
    expect TK_RP "expected )";;
    mret (TI_PK l)
  else if tk_eqb k TK_UNIQUE || tk_eqb k TK_FOREIGN || tk_eqb k TK_CONSTRAINT || tk_eqb k TK_CHECK || tk_eqb k TK_PERIOD
  then with_fuel (fun fuel => skip_constraint_loop fuel 0);; mret TI_SKIPPED
  else c ← parse_coldef; mret (TI_COLUMN c).
(** The last PRIMARY KEY clause counts. *)
Definition items_pk (l : list table_item) : list name :=
  foldl (fun pk i => match i with TI_PK cols => cols | _ => pk end) [] l.
Definition items_cols (l : list table_item) : list tdb_coldef :=
  concat (map (fun i => match i with TI_COLUMN c => [c] | _ => [] end) l).

Record table_opts := mk_opts {
  o_versioning : bool; o_columnar : bool; o_compression : cstring; o_tablespace : cstring;
  o_kind : tdb_partition_kind; o_cols : list name; o_count : Z }.
Definition no_opts : table_opts := mk_opts false false None None TDB_PART_NONE [] 0.
(** One table option: [None] ends the list. *)
Definition with_option (o : table_opts) : M (option table_opts) :=
  k ← kind;
  col ← id_is "COLUMNAR";
  if tk_eqb k TK_SYSTEM then
    advance;; expect TK_VERSIONING "expected VERSIONING";;
    mret (Some (mk_opts true (o_columnar o) (o_compression o) (o_tablespace o) (o_kind o) (o_cols o) (o_count o)))
  else if col : bool then
    advance;; mret (Some (mk_opts (o_versioning o) true (o_compression o) (o_tablespace o) (o_kind o) (o_cols o) (o_count o)))
  else if tk_eqb k TK_COMPRESSION then
    advance;;
    accept TK_EQ;;
    c ← dup_tok;
    k ← kind;
    (if tk_eqb k TK_ID || tk_eqb k TK_STRING then advance else set_err "expected compression name");;
    mret (Some (mk_opts (o_versioning o) (o_columnar o) (Some c) (o_tablespace o) (o_kind o) (o_cols o) (o_count o)))
  else set_err "expected SYSTEM VERSIONING, COLUMNAR, or COMPRESSION";; mret None.
Definition partition_option (o : table_opts) : M (option table_opts) :=
  expect TK_BY "expected BY after PARTITION";;
  r ← id_is "RANGE";
  l ← id_is "LIST";
  h ← id_is "HASH";
  if r || l || h then
    advance;;
    expect TK_LP "expected ( after partition kind";;
    cols ← parse_name_list;
    expect TK_RP "expected ) after partition columns";;
    n ← id_is "PARTITIONS";
    count ← (if n : bool then
               advance;;
               t ← cur;
               if tk_eqb (t_kind t) TK_INTEGER then advance;; mret (s32 (t_ival t))
               else set_err "expected integer after PARTITIONS";; mret (o_count o)
             else mret (o_count o));
    mret (Some (mk_opts (o_versioning o) (o_columnar o) (o_compression o) (o_tablespace o)
                 (if r : bool then TDB_PART_RANGE else if l : bool then TDB_PART_LIST else TDB_PART_HASH) cols count))
  else set_err "expected RANGE, LIST or HASH";; mret None.
Definition table_option (o : table_opts) : M (option table_opts) :=
  w ← accept TK_WITH;
  if w : bool then with_option o
  else
    t ← accept TK_TABLESPACE;
    if t : bool then
      n ← parse_name "expected tablespace name";
      mret (Some (mk_opts (o_versioning o) (o_columnar o) (o_compression o) (Some n) (o_kind o) (o_cols o) (o_count o)))
    else
      pt ← accept TK_PARTITION;
      if pt : bool then partition_option o else mret None.
Fixpoint option_loop (fuel : nat) (o : table_opts) : M table_opts :=
  match fuel with
  | O => out_of_fuel
  | S fuel =>
      r ← table_option o;
      match r with None => mret o | Some o => option_loop fuel o end
  end.
Definition parse_create_table : M tdb_ast_stmt :=
  temp ← accept TK_TEMP;
  expect TK_TABLE "expected TABLE";;
  ine ← if_not_exists;
  n ← parse_name "expected table name";
  a ← accept TK_AS;
  if a : bool then
    q ← parse_select;
    mret (ST_CREATE_TABLE (mk_create_table n ine temp [] [] None false false None None None None TDB_PART_NONE [] 0 (Some q)))
  else
    expect TK_LP "expected (";;
    items ← comma_list true parse_table_item;
    expect TK_RP "expected )";;
    o ← with_fuel (fun fuel => option_loop fuel no_opts);
    mret (ST_CREATE_TABLE (mk_create_table n ine temp (items_cols items) (items_pk items) None (o_versioning o) (o_columnar o)
            None None (o_tablespace o) (o_compression o) (o_kind o) (o_cols o) (o_count o) None)).

Definition index_col : M (name * bool) :=
  c ← parse_name "expected column name";
  d ← accept TK_DESC;
  (if d : bool then mret false else accept TK_ASC);;
  mret (c, d).
Definition index_method : M tdb_index_kind :=
  u ← accept TK_USING;
  if u : bool then
    m ← parse_name "expected index method";
    if (strcasecmp m (str "RTREE") =? 0) || (strcasecmp m (str "GIST") =? 0) || (strcasecmp m (str "SPATIAL") =? 0)
    then mret TDB_IDX_RTREE
    else if strcasecmp m (str "BTREE") =? 0 then mret TDB_IDX_BTREE
    else set_err "unknown index method";; mret TDB_IDX_BTREE
  else mret TDB_IDX_BTREE.
Definition parse_create_index (unique : bool) : M tdb_ast_stmt :=
  expect TK_INDEX "expected INDEX";;
  ine ← if_not_exists;
  n ← parse_name "expected index name";
  expect TK_ON "expected ON";;
  t ← parse_name "expected table name";
  m ← index_method;
  expect TK_LP "expected (";;
  cols ← comma_list true index_col;
  expect TK_RP "expected )";;
  mret (ST_CREATE_INDEX (mk_create_index n t unique ine cols m)).

Definition parse_create_view (materialized : bool) : M tdb_ast_stmt :=
  expect TK_VIEW "expected VIEW";;
  ine ← if_not_exists;
  n ← parse_name "expected view name";
  expect TK_AS "expected AS";;
  s0 ← off;
  parse_select;;
  s1 ← off;
  s ← span s0 s1;
  mret (ST_CREATE_VIEW n materialized ine s).

Definition routine_params : M (list name) :=
  l ← accept TK_LP;
  if l : bool then
    k ← kind;
    ps ← (if tk_eqb k TK_RP then mret []
          else comma_list true (n ← parse_name "expected parameter name"; parse_type;; mret n));
    expect TK_RP "expected )";;
    mret ps
  else mret [].
Definition parse_create_routine (is_function or_replace : bool) : M tdb_ast_stmt :=
  advance;;
  n ← parse_name "expected routine name";
  ps ← routine_params;
  r ← accept TK_RETURNS;
  (if r : bool then parse_type;; mret tt else mret tt);;
  expect TK_LANGUAGE "expected LANGUAGE";;
  lang ← parse_name "expected language name (LUA / PLSQL)";
  expect TK_AS "expected AS";;
  k ← kind;
  if tk_eqb k TK_STRING then
    s ← dup_tok; advance;; mret (ST_CREATE_ROUTINE n is_function or_replace ps (Some s) (Some lang))
  else set_err "expected $$...$$ body";; mret (ST_CREATE_ROUTINE n is_function or_replace ps None (Some lang)).

Definition opt_string (k : tdb_token_kind) (what : String.string) : M cstring :=
  b ← accept k;
  if b : bool then
    c ← kind;
    if tk_eqb c TK_STRING then s ← dup_tok; advance;; mret (Some (decode_string s)) else set_err what;; mret None
  else mret None.
Definition parse_create_tablespace : M tdb_ast_stmt :=
  advance;;
  ine ← if_not_exists;
  n ← parse_name "expected tablespace name";
  l ← opt_string TK_LOCATION "expected LOCATION string literal";
  mret (ST_CREATE_TABLESPACE n l ine).
Definition parse_drop_tablespace : M tdb_ast_stmt :=
  advance;;
  ie ← if_exists;
  n ← parse_name "expected tablespace name";
  mret (ST_DROP_TABLESPACE n ie).

(** The statement a failed CREATE answers with. *)
Definition bad_create : tdb_ast_stmt :=
  ST_CREATE_TABLE (mk_create_table [] false false [] [] None false false None None None None TDB_PART_NONE [] 0 None).
Definition create_body (or_replace : bool) : M tdb_ast_stmt :=
  u ← accept TK_UNIQUE;
  if u : bool then parse_create_index true
  else
    k ← kind;
    if tk_eqb k TK_INDEX then parse_create_index false
    else if tk_eqb k TK_MATERIALIZED then advance;; parse_create_view true
    else if tk_eqb k TK_VIEW then parse_create_view false
    else if tk_eqb k TK_FUNCTION then parse_create_routine true or_replace
    else if tk_eqb k TK_PROCEDURE then parse_create_routine false or_replace
    else if tk_eqb k TK_TABLESPACE then parse_create_tablespace
    else if or_replace then set_err "OR REPLACE is only valid for FUNCTION / PROCEDURE";; mret bad_create
    else parse_create_table.
Definition parse_create : M tdb_ast_stmt :=
  advance;;
  o ← accept TK_OR;
  if o : bool then
    r ← id_is "REPLACE";
    if r : bool then advance;; create_body true else set_err "expected REPLACE after OR";; mret bad_create
  else create_body false.

Definition parse_drop : M tdb_ast_stmt :=
  advance;;
  k ← kind;
  if tk_eqb k TK_TABLESPACE then parse_drop_tablespace
  else
    advance;;
    ie ← if_exists;
    n ← parse_name "expected name";
    mret (if tk_eqb k TK_INDEX then ST_DROP_INDEX n ie else if tk_eqb k TK_VIEW then ST_DROP_VIEW n ie else ST_DROP_TABLE n ie).

Definition alter_rename : M tdb_alter :=
  t ← accept TK_TO;
  if t : bool then n ← parse_name "expected name"; mret (TDB_ALTER_RENAME_TABLE n)
  else
    accept TK_COLUMN;;
    c ← parse_name "expected column";
    expect TK_TO "expected TO";;
    n ← parse_name "expected new name";
    mret (TDB_ALTER_RENAME_COLUMN c n).
Definition alter_action : M (option tdb_alter) :=
  a ← accept TK_ADD;
  if a : bool then accept TK_COLUMN;; c ← parse_coldef; mret (Some (TDB_ALTER_ADD_COLUMN c))
  else
    d ← accept TK_DROP;
    if d : bool then accept TK_COLUMN;; n ← parse_name "expected column name"; mret (Some (TDB_ALTER_DROP_COLUMN n))
    else
      r ← accept TK_RENAME;
      if r : bool then x ← alter_rename; mret (Some x)
      else set_err "expected ADD/DROP/RENAME";; mret None.
Definition parse_alter : M tdb_ast_stmt :=
  advance;;
  expect TK_TABLE "expected TABLE";;
  t ← parse_name "expected table name";
  a ← alter_action;
  mret (ST_ALTER_TABLE t a).

(** ** Transactions and the other statements *)

Definition parse_txn : M tdb_ast_stmt :=
  k ← kind;
  advance;;
  match k with
  | TK_BEGIN => accept TK_TRANSACTION;; mret ST_BEGIN
  | TK_COMMIT => accept TK_TRANSACTION;; mret ST_COMMIT
  | TK_ROLLBACK =>
      accept TK_TRANSACTION;;
      t ← accept TK_TO;
      if t : bool then accept TK_SAVEPOINT;; n ← parse_name "expected savepoint name"; mret (ST_ROLLBACK_TO n)
      else mret ST_ROLLBACK
  | TK_SAVEPOINT => n ← parse_name "expected savepoint name"; mret (ST_SAVEPOINT n)
  | TK_RELEASE => accept TK_SAVEPOINT;; n ← parse_name "expected savepoint name"; mret (ST_RELEASE n)
  | _ => set_err "bad transaction statement";; mret ST_BEGIN
  end.
Definition parse_call : M tdb_ast_stmt :=
  advance;;
  n ← parse_name "expected routine name";
  expect TK_LP "expected (";;
  k ← kind;
  args ← (if tk_eqb k TK_RP then mret [] else expr_list parse_expr);
  expect TK_RP "expected )";;
  mret (ST_CALL n args).
(** Tokens up to one of the given kinds or the end. *)
Fixpoint skip_until (fuel : nat) (stop : list tdb_token_kind) : M unit :=
  match fuel with
  | O => out_of_fuel
  | S fuel => k ← kind; if existsb (tk_eqb k) stop then mret tt else advance;; skip_until fuel stop
  end.
(** [s0 = off(p); ...; span(p, s0, off(p))] *)
Definition source_of (m : M unit) : M name :=
  s0 ← off;
  m;;
  s1 ← off;
  span s0 s1.
Definition parse_prepare : M tdb_ast_stmt :=
  advance;;
  n ← parse_name "expected name";
  expect TK_AS "expected AS";;
  s ← source_of (with_fuel (fun fuel => skip_until fuel [TK_SEMI; TK_EOF]));
  mret (ST_PREPARE n s).
Fixpoint truncate_loop (fuel : nat) (restart cascade : bool) : M (bool * bool) :=
  match fuel with
  | O => out_of_fuel
  | S fuel =>
      a ← id_is "RESTART";
      b ← id_is "CONTINUE";
      c ← id_is "CASCADE";
      d ← id_is "RESTRICT";
      if a : bool then advance;; accept TK_ID;; truncate_loop fuel true cascade
      else if b : bool then advance;; accept TK_ID;; truncate_loop fuel restart cascade
      else if c : bool then advance;; truncate_loop fuel restart true
      else if d : bool then advance;; truncate_loop fuel restart cascade
      else mret (restart, cascade)
  end.
Definition parse_truncate : M tdb_ast_stmt :=
  advance;;
  accept TK_TABLE;;
  n ← parse_name "expected table name";
  o ← with_fuel (fun fuel => truncate_loop fuel false false);
  mret (ST_TRUNCATE n o.1 o.2).
Definition opt_name : M cstring :=
  k ← kind; if tk_eqb k TK_ID then n ← dup_tok; advance;; mret (Some n) else mret None.
Definition parse_analyze : M tdb_ast_stmt := advance;; n ← opt_name; mret (ST_ANALYZE n).
Definition parse_reindex : M tdb_ast_stmt :=
  advance;;
  t ← accept TK_TABLE;
  i ← (if t : bool then mret false else accept TK_INDEX);
  n ← opt_name;
  mret (ST_REINDEX n i).
(** The rest of a dotted name. *)
Definition opt_dot_name : M unit :=
  k ← kind;
  if tk_eqb k TK_DOT then advance;; expect TK_ID "expected name";; mret tt else mret tt.
Definition comment_kind : M (option Z) :=
  a ← accept TK_TABLE;
  if a : bool then mret (Some 1) else
  b ← accept TK_COLUMN;
  if b : bool then mret (Some 2) else
  c ← accept TK_INDEX;
  if c : bool then mret (Some 3) else
  d ← accept TK_VIEW;
  if d : bool then mret (Some 4) else
  e ← accept TK_DATABASE;
  if e : bool then mret (Some 5) else mret None.
Definition parse_comment : M tdb_ast_stmt :=
  advance;;
  expect TK_ON "expected ON after COMMENT";;
  o ← comment_kind;
  match o with
  | None => set_err "expected TABLE/COLUMN/INDEX/VIEW/DATABASE";; mret (ST_COMMENT 0 None None)
  | Some on_kind =>
      target ← source_of (skip_kind TK_ID;; opt_dot_name);
      expect TK_IS "expected IS after target";;
      k ← kind;
      body ← (if tk_eqb k TK_STRING then s ← dup_tok; advance;; mret (Some (decode_string s))
              else if tk_eqb k TK_NULL then advance;; mret None
              else set_err "expected comment string";; mret None);
      mret (ST_COMMENT on_kind (Some target) body)
  end.
Definition parse_grant_or_revoke (is_revoke : bool) : M tdb_ast_stmt :=
  advance;;
  privs ← source_of (with_fuel (fun fuel => skip_until fuel [TK_ON; TK_EOF; TK_SEMI]));
  expect TK_ON "expected ON";;
  object ← source_of (
    k ← kind;
    (if tk_eqb k TK_TABLE || tk_eqb k TK_VIEW || tk_eqb k TK_DATABASE || tk_eqb k TK_ID then advance else mret tt);;
    skip_kind TK_ID;;
    opt_dot_name);
  (if is_revoke then accept TK_FROM else accept TK_TO);;
  g ← dup_tok;
  skip_kind TK_ID;;
  mret (if is_revoke then ST_REVOKE privs object g else ST_GRANT privs object g).
Definition parse_attach : M tdb_ast_stmt :=
  advance;;
  accept TK_DATABASE;;
  k ← kind;
  path ← (if tk_eqb k TK_STRING then s ← dup_tok; advance;; mret (Some (decode_string s))
          else if tk_eqb k TK_ID then s ← dup_tok; advance;; mret (Some s)
          else mret None);
  expect TK_AS "expected AS";;
  n ← parse_name "expected attach name";
  mret (ST_ATTACH path n).
Definition parse_detach : M tdb_ast_stmt :=
  advance;; accept TK_DATABASE;; n ← parse_name "expected detach name"; mret (ST_DETACH n).
Definition parse_lock : M tdb_ast_stmt :=
  advance;;
  accept TK_TABLE;;
  t ← parse_name "expected table name";
  i ← accept TK_IN;
  if i : bool then
    x ← id_is "EXCLUSIVE";
    skip_kind TK_ID;;
    skip_word "MODE";;
    mret (ST_LOCK_TABLE t x)
  else mret (ST_LOCK_TABLE t false).

(** EXPLAIN nests statements, each behind its own keyword. *)
Fixpoint parse_stmt (fuel : nat) : M (option tdb_ast_stmt) :=
  match fuel with
  | O => out_of_fuel
  | S fuel =>
      let some (m : M tdb_ast_stmt) : M (option tdb_ast_stmt) := s ← m; mret (Some s) in
      k ← kind;
      match k with
      | TK_WITH | TK_SELECT => q ← parse_select; mret (Some (ST_SELECT q))
      | TK_INSERT => some parse_insert
      | TK_UPDATE => some parse_update
      | TK_DELETE => some parse_delete
      | TK_CREATE => some parse_create
      | TK_DROP => some parse_drop
      | TK_ALTER => some parse_alter
      | TK_CALL => some parse_call
      | TK_PREPARE => some parse_prepare
      | TK_BEGIN | TK_COMMIT | TK_ROLLBACK | TK_SAVEPOINT | TK_RELEASE => some parse_txn
      | TK_VACUUM => advance;; mret (Some ST_VACUUM)
      | TK_TRUNCATE => some parse_truncate
      | TK_ANALYZE => some parse_analyze
      | TK_REINDEX => some parse_reindex
      | TK_COMMENT => some parse_comment
      | TK_GRANT => some (parse_grant_or_revoke false)
      | TK_REVOKE => some (parse_grant_or_revoke true)
      | TK_ATTACH => some parse_attach
      | TK_DETACH => some parse_detach
      | TK_LOCK => some parse_lock
      | TK_EXPLAIN =>
          advance;;
          q ← id_is "QUERY";
          (if q : bool then advance;; skip_word "PLAN" else mret tt);;
          inner ← parse_stmt fuel;
          mret (Some (ST_EXPLAIN inner))
      | _ => set_err "unrecognized statement";; mret None
      end
  end.
End Stmt.

(** ** Entry points *)

(** The state on the first token. *)
Definition parser_start (sql : list Z) : P :=
  let '(lx, t) := tdb_lex_next (tdb_lex_init (Some sql) 0) in mk_P sql lx t false None.
(** Depth of calls: three for each byte of the source, and three more. *)
Definition parse_fuel (sql : list Z) : nat := 3 * Z.to_nat (strlen sql) + 6.

(** What [tdb_parse] hands back: the status, [*out], [*errmsg] and the offset
    of [*tail]. *)
Record parse_result (A : Type) := mk_result { r_rc : tdb_status; r_out : option A; r_errmsg : cstring; r_tail : Z }.
Arguments mk_result {A}.
Arguments r_rc {A}. Arguments r_out {A}. Arguments r_errmsg {A}. Arguments r_tail {A}.

Fixpoint skip_semis (fuel : nat) : M unit :=
  match fuel with
  | O => out_of_fuel
  | S fuel => k ← kind; if tk_eqb k TK_SEMI then advance;; skip_semis fuel else mret tt
  end.
Definition tdb_parse (sql : list Z) : option (parse_result (option tdb_ast_stmt)) :=
  let p := parser_start sql in
  let fuel := parse_fuel sql in
  if tk_eqb (t_kind (p_cur p)) TK_EOF then Some (mk_result TDB_DONE (Some None) None (t_z (p_cur p)))
  else
    match parse_stmt (parse_expr fuel) (parse_select fuel) fuel p with
    | None => None
    | Some (p, st) =>
        let k := t_kind (p_cur p) in
        if p_err p then Some (mk_result TDB_ERROR None (p_errmsg p) (t_z (p_cur p)))
        else if negb (tk_eqb k TK_SEMI) && negb (tk_eqb k TK_EOF) then
          match set_err "unexpected trailing tokens" p with
          | Some (p, _) => Some (mk_result TDB_ERROR None (p_errmsg p) (t_z (p_cur p)))
          | None => None
          end
        else
          match with_fuel skip_semis p with
          | Some (p, _) => Some (mk_result TDB_OK (Some st) None (t_z (p_cur p)))
          | None => None
          end
    end.

Definition tdb_parse_expression (sql : list Z) : option (parse_result tdb_expr) :=
  let p := parser_start sql in
  match parse_expr (parse_fuel sql) 0 p with
  | None => None
  | Some (p, e) =>
      if p_err p then Some (mk_result TDB_ERROR None (p_errmsg p) (t_z (p_cur p)))
      else if negb (tk_eqb (t_kind (p_cur p)) TK_EOF) then
        match set_err "trailing tokens in expression" p with
        | Some (p, _) => Some (mk_result TDB_ERROR None (p_errmsg p) (t_z (p_cur p)))
        | None => None
        end
      else Some (mk_result TDB_OK (Some e) None (t_z (p_cur p)))
  end.
