(* ===== verification/ParserTerm.v ===== *)
(** * Termination of the parser

    Every call consumes a token before it calls itself again, so the nesting
    is bounded by the tokens that are left: the fuel of [tdb_parse] is enough
    on every input.  [runs] is the total-correctness judgement the proof is
    written in. *)
From S2P Require Import Prelude Util Buf Value Schema Sqltype Lexer LexerSpec Ast Parser ParserStmt.

(** ** The measure *)

(** After the end token the lexer stays at the end. *)
Record parser_wf (p : P) : Prop := mk_parser_wf {
  pw_lx : lexer_wf (p_lx p);
  pw_end : t_kind (p_cur p) = TK_EOF -> lx_pos (p_lx p) = lx_len (p_lx p) }.
(** Zero at the end of the input; a token takes at least one byte. *)
Definition meas (p : P) : nat :=
  if tk_eqb (t_kind (p_cur p)) TK_EOF then 0%nat else S (Z.to_nat (lx_len (p_lx p) - lx_pos (p_lx p))).
Lemma meas_fuel p : (meas p <= bytes_left p)%nat.
Proof. unfold meas, bytes_left. destruct (tk_eqb _ _); lia. Qed.
Lemma tk_eqb_neq a b : a <> b -> tk_eqb a b = false.
Proof. intros H. destruct (tk_eqb a b) eqn:E; [|done]. by apply tk_eqb_spec in E. Qed.

Lemma advance_ok p :
  parser_wf p ->
  exists p', advance p = Some (p', tt) /\ parser_wf p' /\ (meas p' <= meas p)%nat
    /\ (t_kind (p_cur p) <> TK_EOF -> (meas p' < meas p)%nat).
Proof.
  intros [Hwf Hend]. unfold advance. pose proof (lex_next_ok (p_lx p) Hwf) as H. pose proof (lw_pos _ Hwf) as Hp.
  destruct (tdb_lex_next (p_lx p)) as [lx t] eqn:En. destruct H as [Hwf' Ht].
  exists (mk_P (p_sql p) lx t (p_err p) (p_errmsg p)). split; [done|]. split.
  { split; [done|]. cbn [p_cur p_lx]. intros E. destruct Ht as [(_ & E1 & _ & E2)|(_ & _ & _ & _ & _ & _ & E')]; [lia|done]. }
  unfold meas. cbn [p_cur p_lx]. destruct Ht as [(E & _)|(_ & E2 & _ & _ & E5 & E6 & E7)].
  - rewrite E. cbn. split; [lia|]. intros Hne. rewrite (tk_eqb_neq _ _ Hne). lia.
  - rewrite (tk_eqb_neq _ _ E7). destruct (tk_eqb (t_kind (p_cur p)) TK_EOF) eqn:Ec; [|lia].
    apply tk_eqb_spec in Ec. specialize (Hend Ec). lia.
Qed.

(** ** The judgement *)

(** From a state with at most [n] left that satisfies [pre], [m] answers and
    leaves no more than it found; less, when its result satisfies [s]. *)
Definition runs {A} (n : nat) (pre : P -> Prop) (m : M A) (s : A -> bool) : Prop :=
  forall p, parser_wf p -> (meas p <= n)%nat -> pre p ->
  exists p' a, m p = Some (p', a) /\ parser_wf p' /\ (meas p' <= meas p)%nat /\ (s a = true -> (meas p' < meas p)%nat).
Definition anyp (p : P) : Prop := True.
Definition never {A} (a : A) : bool := false.
Abbreviation total n m := (runs n anyp m never).

Lemma runs_mono {A} n n' pre pre' (m : M A) s s' :
  runs n pre m s -> (n' <= n)%nat -> (forall p, pre' p -> pre p) -> (forall a, s' a = true -> s a = true) -> runs n' pre' m s'.
Proof.
  intros H Hn Hpre Hs p Hwf Hm Hp. destruct (H p Hwf ltac:(lia) (Hpre p Hp)) as (p' & a & E & W & L & S).
  exists p', a. repeat (split; [done|]). auto.
Qed.
Lemma total_mono {A} n n' pre (m : M A) : total n m -> (n' <= n)%nat -> runs n' pre m never.
Proof. intros H Hn. by eapply runs_mono. Qed.
Lemma runs_ret {A} n pre (x : A) s : s x = false -> runs n pre (mret x) s.
Proof. intros Hs p Hwf _ _. exists p, x. repeat (split; [done|]). by rewrite Hs. Qed.
Lemma runs_bind {A B} n pre (m : M A) (f : A -> M B) s t :
  runs n pre m s ->
  (forall a, s a = false -> runs n anyp (f a) t) ->
  (forall a n', s a = true -> n = S n' -> total n' (f a)) ->
  runs n pre (m ≫= f) t.
Proof.
  intros Hm Hf Hs p Hwf Hn Hp. destruct (Hm p Hwf Hn Hp) as (p1 & a & E1 & W1 & L1 & S1).
  unfold mbind, M_bind. rewrite E1. destruct (s a) eqn:Es.
  - specialize (S1 eq_refl). destruct n as [|n']; [lia|].
    destruct (Hs a n' Es eq_refl p1 W1 ltac:(lia) I) as (p2 & b & E2 & W2 & L2 & _).
    exists p2, b. split; [done|]. split; [done|]. split; [lia|]. intros _. lia.
  - destruct (Hf a Es p1 W1 ltac:(lia) I) as (p2 & b & E2 & W2 & L2 & S2).
    exists p2, b. split; [done|]. split; [done|]. split; [lia|]. intros Hb. specialize (S2 Hb). lia.
Qed.
(** After a computation that makes no progress promise. *)
Lemma runs_seq {A B} n pre (m : M A) (f : A -> M B) t :
  runs n pre m never -> (forall a, runs n anyp (f a) t) -> runs n pre (m ≫= f) t.
Proof. intros Hm Hf. eapply runs_bind; [exact Hm|auto|done]. Qed.
(** Looking at the state changes nothing. *)
Lemma runs_kind {B} n pre (f : tdb_token_kind -> M B) t :
  (forall k, runs n (fun p => pre p /\ t_kind (p_cur p) = k) (f k) t) -> runs n pre (kind ≫= f) t.
Proof. intros H p Hwf Hn Hp. by apply (H (t_kind (p_cur p)) p). Qed.
Lemma runs_cur {B} n pre (f : tdb_token -> M B) t :
  (forall c, runs n (fun p => pre p /\ t_kind (p_cur p) = t_kind c) (f c) t) -> runs n pre (cur ≫= f) t.
Proof. intros H p Hwf Hn Hp. by apply (H (p_cur p) p). Qed.
Lemma runs_id_is {B} n pre kw (f : bool -> M B) t :
  (forall b : bool, runs n (fun p => pre p /\ (b = true -> t_kind (p_cur p) = TK_ID)) (f b) t) -> runs n pre (id_is kw ≫= f) t.
Proof.
  intros H p Hwf Hn Hp. apply (H (id_is_tok p (p_cur p) kw) p Hwf Hn). split; [done|].
  unfold id_is_tok. by destruct (t_kind (p_cur p)).
Qed.
Definition reads {A} (m : M A) : Prop := forall p, exists a, m p = Some (p, a).
Lemma runs_reads {A B} n pre (m : M A) (f : A -> M B) t :
  reads m -> (forall a, runs n pre (f a) t) -> runs n pre (m ≫= f) t.
Proof. intros Hr H p Hwf Hn Hp. destruct (Hr p) as [a E]. unfold mbind, M_bind. rewrite E. by apply H. Qed.
Lemma takes_dup_tok : reads dup_tok. Proof. intros p. by eexists. Qed.
Lemma reads_off : reads off. Proof. intros p. by eexists. Qed.
Lemma takes_get_err : reads get_err. Proof. intros p. by eexists. Qed.
Lemma reads_span a b : reads (span a b). Proof. intros p. by eexists. Qed.
Lemma reads_runs {A} n pre (m : M A) : reads m -> runs n pre m never.
Proof. intros Hr p Hwf _ _. destruct (Hr p) as [a E]. by exists p, a. Qed.

(** Taking a token makes progress when it is not the end token. *)
Definition at_token (p : P) : Prop := t_kind (p_cur p) <> TK_EOF.
Lemma runs_advance n pre : runs n pre advance never.
Proof. intros p Hwf _ _. destruct (advance_ok p Hwf) as (p' & E & W & L & _). by exists p', tt. Qed.
Lemma runs_eat {B} n pre (f : unit -> M B) t :
  (forall p, pre p -> at_token p) -> (forall n', n = S n' -> total n' (f tt)) -> runs n pre (advance ≫= f) t.
Proof.
  intros Hp Hf. apply (runs_bind n pre advance f (fun _ => true)); [|done|intros [] n' _; apply Hf].
  intros p Hwf Hn Hpre. destruct (advance_ok p Hwf) as (p' & E & W & L & S). exists p', tt. repeat (split; [done|]). intros _. by apply S, Hp.
Qed.
Lemma runs_accept n pre k : k <> TK_EOF -> runs n pre (accept k) (fun b => b).
Proof.
  intros Hk p Hwf Hn Hp. unfold accept, mbind, M_bind, kind. destruct (tk_eqb (t_kind (p_cur p)) k) eqn:E.
  - apply tk_eqb_spec in E. destruct (advance_ok p Hwf) as (p' & Ea & W & L & S). rewrite Ea. exists p', true.
    split; [done|]. split; [done|]. split; [done|]. intros _. apply S. by rewrite E.
  - by exists p, false.
Qed.
Lemma set_err_ok msg p : parser_wf p -> exists p', set_err msg p = Some (p', tt) /\ parser_wf p' /\ meas p' = meas p.
Proof. intros [H1 H2]. unfold set_err. destruct (p_err p); (eexists; split; [reflexivity|]; split; [by split|reflexivity]). Qed.
Lemma runs_set_err n pre msg : runs n pre (set_err msg) never.
Proof. intros p Hwf _ _. destruct (set_err_ok msg p Hwf) as (p' & E & W & L). exists p', tt. rewrite L. done. Qed.
Lemma runs_expect n pre k what : runs n pre (expect k what) never.
Proof.
  intros p Hwf _ _. unfold expect, mbind, M_bind, kind. destruct (tk_eqb (t_kind (p_cur p)) k).
  - destruct (advance_ok p Hwf) as (p' & -> & W & L & _). by exists p', true.
  - destruct (set_err_ok what p Hwf) as (p' & -> & W & L). exists p', false. rewrite L. done.
Qed.
Lemma total_with_fuel {A} n pre (loop : nat -> M A) :
  (forall n' fuel, (n' <= n)%nat -> (n' < fuel)%nat -> total n' (loop fuel)) -> runs n pre (with_fuel loop) never.
Proof.
  intros H p Hwf Hn _. unfold with_fuel. pose proof (meas_fuel p).
  apply (H (meas p) (S (bytes_left p)) Hn ltac:(lia) p Hwf); [lia|exact I].
Qed.

Create HintDb reads.
#[local] Hint Resolve takes_dup_tok reads_off takes_get_err reads_span : reads.

Lemma tk_neq a b : tk_eqb a b = false -> a <> b.
Proof. intros H ->. by rewrite tk_eqb_refl in H. Qed.
(** The token is known not to be the end token. *)
Ltac token_known :=
  intros ? ?; unfold at_token;
  repeat match goal with
  | H : _ /\ _ |- _ => destruct H
  | H : tk_eqb _ _ = true |- _ => apply tk_eqb_spec in H
  | H : tk_eqb _ TK_EOF = false |- _ => apply tk_neq in H
  | H : _ || _ = true |- _ => apply orb_true_iff in H; destruct H
  | H : _ && _ = true |- _ => apply andb_true_iff in H; destruct H
  end; simplify_eq; solve [congruence | intuition congruence].
(** One rule for each shape of computation. *)
Ltac rstep :=
  lazymatch goal with
  | |- runs _ _ (mbind _ kind) _ => apply runs_kind; intros ?
  | |- runs _ _ (mbind _ cur) _ => apply runs_cur; intros ?
  | |- runs _ _ (mbind _ (id_is _)) _ => apply runs_id_is; intros ?
  | |- runs _ _ (mbind _ advance) _ =>
      first [apply runs_eat; [token_known|intros ? ->] | apply runs_seq; [apply runs_advance|intros []]]
  | |- runs _ _ (mbind _ (accept _)) _ =>
      eapply runs_bind; [apply runs_accept; discriminate|intros [] ?; [discriminate|]|intros [] ? ?; [intros ->|discriminate]]
  | |- runs _ _ (mbind _ ?m) _ =>
      first [apply (runs_reads _ _ m); [solve [auto with reads]|intros ?] | apply (runs_seq _ _ m); [|intros ?]]
  | |- runs _ _ (if ?b then _ else _) _ => destruct b eqn:?
  | |- runs _ _ (mret _) _ => apply runs_ret; reflexivity
  | |- runs _ _ advance _ => apply runs_advance
  | |- runs _ _ (accept _) _ => eapply runs_mono; [apply runs_accept; discriminate|reflexivity|done|done]
  | |- runs _ _ (expect _ _) _ => apply runs_expect
  | |- runs _ _ (set_err _) _ => apply runs_set_err
  | |- runs _ _ (span _ _) _ => apply reads_runs; auto with reads
  | |- runs _ _ (match ?x with _ => _ end) _ => destruct x
  end.
Create HintDb runs.
Ltac rauto := cbn beta iota zeta; repeat (rstep; cbn beta iota zeta); try (eauto 3 with runs; fail).

(** ** Loops and lists *)

Lemma skip_ids_total n : total n skip_ids.
Proof.
  apply total_with_fuel. intros n' fuel _. clear n. revert n'. induction fuel as [|fuel IH]; intros n Hf; [lia|].
  cbn [skip_ids_loop]. rauto. apply IH. lia.
Qed.
Lemma comma_list_total {A} n chk (item : M A) : total n item -> total n (comma_list chk item).
Proof.
  intros Hi. apply total_with_fuel. intros n' fuel Hn.
  assert (total n' item) as Hi' by (by eapply total_mono). clear Hi Hn n.
  revert n' Hi'. induction fuel as [|fuel IH]; intros n Hi Hf; [lia|].
  cbn [comma_loop]. apply runs_seq; [done|intros x]. rstep.
  - rstep. cbn [andb]. rauto.
  - rstep. destruct (true && _); [|rauto]. rstep; [apply IH; [eapply total_mono; [exact Hi|lia]|lia]|rauto].
Qed.
Lemma parse_name_list_total n : total n parse_name_list.
Proof. apply comma_list_total. rauto. Qed.
#[local] Hint Resolve skip_ids_total parse_name_list_total : runs.
Lemma runs_weaken {A} n pre (m : M A) : total n m -> runs n pre m never.
Proof. intros H. by eapply total_mono. Qed.
#[local] Hint Resolve runs_weaken : runs.
Lemma runs_pre {A} n (pre pre' : P -> Prop) (m : M A) s : runs n pre m s -> (forall p, pre' p -> pre p) -> runs n pre' m s.
Proof. intros H Hp. by eapply runs_mono. Qed.
Lemma opt_desc_total n : total n opt_desc.
Proof. unfold opt_desc. rauto. Qed.
Lemma parse_blob_total n : total n parse_blob.
Proof. unfold parse_blob. rauto. Qed.
Lemma opt_alias_total n : total n opt_alias.
Proof. unfold opt_alias. rauto. Qed.
#[local] Hint Resolve opt_desc_total parse_blob_total opt_alias_total : runs.

(** ** Expressions and SELECT *)

Section Bodies.
Context (parse_expr : Z -> M tdb_expr) (parse_unary : M tdb_expr) (parse_select : M tdb_select).
Context (ne nu ns : nat).
Hypothesis He : forall m n, (n < ne)%nat -> total n (parse_expr m).
Hypothesis Hu : forall n, (n < nu)%nat -> total n parse_unary.
Hypothesis Hs : forall n, (n < ns)%nat -> total n parse_select.

Ltac sub := solve [apply He; lia | apply Hu; lia | apply Hs; lia | apply runs_weaken; (apply He || apply Hu || apply Hs); lia].
Ltac rgo := repeat (rauto; try sub).

Lemma expr_list_total n : (n < ne)%nat -> total n (expr_list parse_expr).
Proof using He. intros Hn. unfold expr_list. apply comma_list_total. sub. Qed.
Lemma order_list_total n : (n < ne)%nat -> total n (order_list parse_expr).
Proof using He. intros Hn. unfold order_list. apply comma_list_total. rgo. Qed.
Lemma opt_expr_total k n : k <> TK_EOF -> (n <= ne)%nat -> total n (opt_expr parse_expr k).
Proof using He.
  intros Hk Hn. unfold opt_expr. eapply runs_bind; [by apply runs_accept|intros [] ?; [done|]|intros [] ? ?; [intros ->|done]]; rgo.
Qed.
Lemma when_loop_total n : (n <= ne)%nat -> total n (with_fuel (when_loop parse_expr)).
Proof using He.
  intros Hn. apply total_with_fuel. intros n' fuel Hn'. assert (n' <= ne)%nat as Hle by lia. clear n Hn Hn'. revert n' Hle.
  induction fuel as [|fuel IH]; intros n Hle Hf; [lia|]. cbn [when_loop]. rgo. apply IH; lia.
Qed.
Ltac leaf :=
  first [sub | apply runs_weaken;
    first [apply expr_list_total | apply order_list_total | apply opt_expr_total; [discriminate|] | apply when_loop_total]; lia].
Ltac rall := repeat (rauto; try leaf).
Lemma parse_case_total n : (n <= ne)%nat -> runs n at_token (parse_case parse_expr) never.
Proof using He. intros Hn. unfold parse_case. apply runs_eat; [done|intros n' ->]. rall. Qed.
Lemma parse_over_total n fn d args : (n < ne)%nat -> total n (parse_over parse_expr fn d args).
Proof using He. intros Hn. unfold parse_over. rall. Qed.
Lemma parse_call_args_total n fn : (n <= ne)%nat -> runs n at_token (parse_call_args parse_expr fn) never.
Proof using He.
  intros Hn. unfold parse_call_args. apply runs_eat; [done|intros n' ->].
  assert (forall m args d, (m <= n')%nat -> runs m anyp (expect TK_RP "expected ) after arguments";; over ← id_is "OVER";
    if over : bool then parse_over parse_expr fn d args else mret (if is_agg_name fn then EX_AGG fn d args else EX_FUNC fn d args)) never) as K.
  { intros m args d Hm. rauto. apply runs_weaken, parse_over_total. lia. }
  rstep; rstep; (rstep; [rall|apply K; lia]).
Qed.
Lemma parse_primary_total n : (n <= ne)%nat -> (n <= ns)%nat -> total n (parse_primary parse_expr parse_select).
Proof using He Hs.
  intros Hn Hn2. unfold parse_primary. apply runs_cur. intros c. destruct (t_kind c) eqn:Ec; try (solve [rauto]).
  - unfold parse_id. rauto. eapply runs_pre; [apply parse_call_args_total; lia|token_known].
  - unfold parse_paren. apply runs_eat; [token_known|intros n' ->]. rall.
  - unfold parse_exists. apply runs_eat; [token_known|intros n' ->]. rall.
  - eapply runs_pre; [apply parse_case_total; lia|token_known].
  - unfold parse_cast. apply runs_eat; [token_known|intros n' ->]. rall.
Qed.
Lemma unary_body_total n :
  (n <= ne)%nat -> (n <= nu)%nat -> (n <= ns)%nat -> total n (unary_body parse_expr parse_unary parse_select).
Proof using He Hu Hs.
  intros H1 H2 H3. unfold unary_body. rall. apply runs_weaken, parse_primary_total; lia.
Qed.

(** What follows an operator starts by taking it. *)
Lemma parse_rest_total n op prec neg left :
  (n <= ne)%nat -> (n <= nu)%nat -> (n <= ns)%nat ->
  runs n at_token (parse_rest parse_expr parse_unary parse_select op prec neg left) (fun _ => true).
Proof using He Hu Hs.
  intros H1 H2 H3. unfold parse_rest.
  repeat match goal with |- runs _ _ (if ?b then _ else _) _ => destruct b end;
  unfold parse_between, parse_in, parse_is, parse_like, parse_binary; apply runs_eat; try done; intros n' ->; rall.
Qed.
Lemma next_op_ok p :
  parser_wf p -> exists p' o, next_op p = Some (p', o) /\ parser_wf p' /\ (meas p' <= meas p)%nat
    /\ (forall op neg, o = Some (op, neg) -> t_kind (p_cur p') = op).
Proof using.
  intros Hwf. unfold next_op. destruct (tk_eqb _ TK_NOT).
  - destruct (advance_ok p Hwf) as (p' & E & W & L & _). rewrite E. cbv zeta. destruct (_ || _).
    + eexists p', _. repeat (split; [done|]). by intros op neg [= <- <-].
    + by eexists p, _.
  - eexists p, _. repeat (split; [done|]). by intros op neg [= <- <-].
Qed.
Lemma expr_loop_total fuel n minprec left :
  (n <= ne)%nat -> (n <= nu)%nat -> (n <= ns)%nat -> (n < fuel)%nat ->
  total n (expr_loop parse_expr parse_unary parse_select fuel minprec left).
Proof using He Hu Hs.
  revert n left. induction fuel as [|fuel IH]; intros n left H1 H2 H3 Hf; [lia|]. cbn [expr_loop]. rstep. rstep; [rauto|].
  intros p Hwf Hn _. destruct (next_op_ok p Hwf) as (p1 & o & E1 & W1 & L1 & Ho). unfold mbind at 1, M_bind at 1. rewrite E1.
  destruct o as [[op neg]|]; [|by exists p1, left]. cbv zeta. destruct (_ || (binprec op =? 0)) eqn:Eb; [by exists p1, left|].
  apply orb_false_iff in Eb as [_ Eb].
  assert (at_token p1) as Ht by (unfold at_token; rewrite (Ho op neg eq_refl); intros ->; done).
  destruct (parse_rest_total n op (binprec op) neg left H1 H2 H3 p1 W1 ltac:(lia) Ht) as (p2 & e & E2 & W2 & L2 & S2).
  specialize (S2 eq_refl). unfold mbind, M_bind. rewrite E2.
  destruct (IH (meas p2) e ltac:(lia) ltac:(lia) ltac:(lia) ltac:(lia) p2 W2 ltac:(lia) I) as (p3 & e' & E3 & W3 & L3 & _).
  exists p3, e'. split; [done|]. split; [done|]. split; [lia|done].
Qed.
Lemma expr_body_total n minprec :
  (n <= ne)%nat -> (n < nu)%nat -> (n <= ns)%nat -> total n (expr_body parse_expr parse_unary parse_select minprec).
Proof using He Hu Hs.
  intros H1 H2 H3. unfold expr_body. rstep; [sub|]. apply total_with_fuel. intros n' fuel Hn Hf. apply expr_loop_total; lia.
Qed.

Lemma parse_src_item_total n : (n < ne)%nat -> (n <= ns)%nat -> total n (parse_src_item parse_expr parse_select).
Proof using He Hs. intros H1 H2. unfold parse_src_item. rall. Qed.
Definition is_some {A} (o : option A) : bool := match o with Some _ => true | None => false end.
Lemma parse_join_runs n : runs n anyp parse_join is_some.
Proof using. unfold parse_join. rauto. Qed.
Lemma parse_join_cond_total n prev jk nat_ mk : (n <= ne)%nat -> total n (parse_join_cond parse_expr prev jk nat_ mk).
Proof using He. intros H1. unfold parse_join_cond. rall. Qed.
Lemma from_loop_total fuel n prev :
  (n <= ne)%nat -> (n <= ns)%nat -> (n < fuel)%nat -> total n (from_loop parse_expr parse_select fuel prev).
Proof using He Hs.
  revert n prev. induction fuel as [|fuel IH]; intros n prev H1 H2 Hf; [lia|]. cbn [from_loop]. rstep. rstep; [rauto|].
  eapply runs_bind; [apply parse_join_runs|intros [] ?; [done|]|intros [] n' ?; [intros ->|done]]; [rauto|].
  rstep; [apply parse_src_item_total; lia|]. rstep; [apply parse_join_cond_total; lia|]. rauto. apply IH; lia.
Qed.
Lemma parse_from_total n : (n < ne)%nat -> (n <= ns)%nat -> total n (parse_from parse_expr parse_select).
Proof using He Hs.
  intros H1 H2. unfold parse_from. rstep; [by apply parse_src_item_total|]. cbv zeta. rstep; [|rauto].
  apply total_with_fuel. intros n' fuel Hn Hf. apply from_loop_total; lia.
Qed.
Lemma parse_with_total n : (n <= ns)%nat -> total n (parse_with parse_select).
Proof using Hs.
  intros Hn. unfold parse_with. rauto. apply comma_list_total. unfold parse_cte. rall.
Qed.
Lemma parse_result_col_total n : (n < ne)%nat -> total n (parse_result_col parse_expr).
Proof using He. intros Hn. unfold parse_result_col. rall. Qed.
Lemma parse_group_total n : (n <= ne)%nat -> total n (parse_group parse_expr).
Proof using He. intros Hn. unfold parse_group. rall. Qed.
Lemma parse_order_total n : (n <= ne)%nat -> total n (parse_order parse_expr).
Proof using He. intros Hn. unfold parse_order. rall. Qed.
Lemma parse_limit_total n : (n <= ne)%nat -> total n (parse_limit parse_expr).
Proof using He. intros Hn. unfold parse_limit. rall. Qed.
Lemma parse_setop_total n : (n <= ns)%nat -> total n (parse_setop parse_select).
Proof using Hs. intros Hn. unfold parse_setop. rall. Qed.
Lemma select_body_total n : (n < ne)%nat -> (n <= ns)%nat -> total n (select_body parse_expr parse_select).
Proof using He Hs.
  intros H1 H2. unfold select_body. rstep; [by apply parse_with_total|]. rstep; [rauto|].
  assert (forall m b, (m <= n)%nat -> total m ((if b : bool then mret false else accept TK_ALL);;
    cols ← comma_list true (parse_result_col parse_expr);
    f ← accept TK_FROM;
    from ← (if f : bool then parse_from parse_expr parse_select else mret []);
    where_ ← opt_expr parse_expr TK_WHERE;
    g ← parse_group parse_expr;
    order ← parse_order parse_expr;
    lim ← parse_limit parse_expr;
    setop ← parse_setop parse_select;
    mret (mk_select a b cols from where_ g.1 g.2 order lim.1 lim.2 setop))) as K.
  { intros m b Hm. rstep; [rauto|]. rstep; [apply comma_list_total, parse_result_col_total; lia|].
    rstep; (rstep; [first [apply parse_from_total; lia|rauto]|]);
    (rstep; [apply opt_expr_total; [done|lia]|]); (rstep; [apply parse_group_total; lia|]); (rstep; [apply parse_order_total; lia|]);
    (rstep; [apply parse_limit_total; lia|]); (rstep; [apply parse_setop_total; lia|rauto]). }
  rstep; apply K; lia.
Qed.
End Bodies.

(** With three units of fuel for each byte left the calls come to an end. *)
Lemma parse_total n :
  (forall fuel, (3 * n + 1 <= fuel)%nat -> total n (parse_unary fuel))
  /\ (forall fuel m, (3 * n + 2 <= fuel)%nat -> total n (parse_expr fuel m))
  /\ (forall fuel, (3 * n + 3 <= fuel)%nat -> total n (parse_select fuel)).
Proof.
  induction n as [n IH] using (well_founded_induction lt_wf).
  assert (forall n' fuel m, (n' < n)%nat -> (3 * n <= fuel)%nat -> total n' (parse_expr fuel m)) as IE by (intros; apply IH; lia).
  assert (forall n' fuel, (n' < n)%nat -> (3 * n <= fuel)%nat -> total n' (parse_unary fuel)) as IU by (intros; apply IH; lia).
  assert (forall n' fuel, (n' < n)%nat -> (3 * n <= fuel)%nat -> total n' (parse_select fuel)) as IS by (intros; apply IH; lia).
  assert (forall fuel, (3 * n + 1 <= fuel)%nat -> total n (parse_unary fuel)) as HU.
  { intros [|fuel] Hf; [lia|]. cbn [parse_unary]. apply (unary_body_total _ _ _ n n n); intros; first [lia|apply IE; lia|apply IU; lia|apply IS; lia]. }
  assert (forall fuel m, (3 * n + 2 <= fuel)%nat -> total n (parse_expr fuel m)) as HE.
  { intros [|fuel] m Hf; [lia|]. cbn [parse_expr]. apply (expr_body_total _ _ _ n (S n) n); intros; first [lia|apply IE; lia|apply IS; lia|idtac].
    eapply total_mono; [apply (HU fuel); lia|lia]. }
  split; [done|]. split; [done|]. intros [|fuel] Hf; [lia|]. cbn [parse_select].
  apply (select_body_total _ _ (S n) n); intros; first [lia|apply IS; lia|idtac].
  eapply total_mono; [apply (HE fuel); lia|lia].
Qed.

(** ** Statements *)

Section Stmts.
Context (parse_expr : Z -> M tdb_expr) (parse_select : M tdb_select) (N : nat).
Hypothesis He : forall m n, (n < N)%nat -> total n (parse_expr m).
Hypothesis Hs : forall n, (n < N)%nat -> total n parse_select.

Lemma if_not_exists_total n : total n if_not_exists.
Proof using. unfold if_not_exists. rauto. Qed.
Lemma if_exists_total n : total n if_exists.
Proof using. unfold if_exists. rauto. Qed.
Lemma parse_name_total n pre what : runs n pre (parse_name what) never.
Proof using. unfold parse_name. rauto. Qed.
Lemma skip_word_total n kw : total n (skip_word kw).
Proof using. unfold skip_word. rauto. Qed.
Lemma skip_kind_total n k : total n (skip_kind k).
Proof using. unfold skip_kind. rauto. Qed.
#[local] Hint Resolve if_not_exists_total if_exists_total parse_name_total skip_word_total skip_kind_total : runs.

Lemma parse_type_total n : total n parse_type.
Proof using.
  unfold parse_type. rauto. apply total_with_fuel. intros n' fuel _. revert n'. generalize 0.
  induction fuel as [|fuel IH]; intros d n' Hf; [lia|]. cbn [paren_loop]. apply runs_kind. intros c. cbv zeta.
  destruct (tk_eqb c TK_EOF) eqn:Ek.
  - (* at the end the loop stops *)
    intros p Hwf Hn [_ E]. apply tk_eqb_spec in Ek as ->. destruct (advance_ok p Hwf) as (p' & Ea & W & L & _).
    assert (t_kind (p_cur p') = TK_EOF) as E'.
    { unfold meas in L. rewrite E in L. cbn in L. destruct (tk_eqb (t_kind (p_cur p')) TK_EOF) eqn:K; [by apply tk_eqb_spec|lia]. }
    exists p', tt. unfold mbind, M_bind. rewrite Ea. unfold kind. rewrite E'. cbn. rewrite andb_false_r. done.
  - apply runs_eat.
    + token_known.
    + intros m ->. rauto. apply runs_weaken, IH. lia.
Qed.
#[local] Hint Resolve parse_type_total : runs.

Ltac sleaf := solve [apply He; lia | apply Hs; lia | apply runs_weaken; (apply He || apply Hs); lia
  | apply (expr_list_total parse_expr N He); lia | apply runs_weaken, (expr_list_total parse_expr N He); lia
  | apply (opt_expr_total parse_expr N He); [discriminate|lia] ].
Ltac sall := repeat (rauto; try sleaf).

Lemma expr_source_total n : (n < N)%nat -> total n (expr_source parse_expr).
Proof using He. intros Hn. unfold expr_source. sall. Qed.
Lemma con_generated_runs n k c : (n <= N)%nat ->
  runs n at_token (con_generated parse_expr k c) (fun _ => true).
Proof using He.
  intros Hn. unfold con_generated. apply (runs_bind n at_token _ _ (fun _ => true)); [|done|].
  - destruct (tk_eqb k TK_GENERATED); apply runs_eat; try done; intros n' ->; rauto.
  - intros a n' _ ->. sall. apply expr_source_total. lia.
Qed.
Lemma column_constraint_runs n c : (n <= N)%nat -> runs n anyp (column_constraint parse_expr c) is_some.
Proof using He.
  intros Hn. unfold column_constraint. apply runs_kind. intros k.
  repeat match goal with |- runs _ _ (if _ then _ else _) _ => rstep end;
    try (rstep; sall; apply expr_source_total; lia).
  eapply runs_bind; [eapply runs_pre; [by apply con_generated_runs|token_known]|done|]. intros a n' _ ->. rauto.
Qed.
Lemma parse_column_constraints_total n c : (n <= N)%nat -> total n (parse_column_constraints parse_expr c).
Proof using He.
  intros Hn. apply total_with_fuel. intros n' fuel Hn'. assert (n' <= N)%nat as Hle by lia. clear n Hn Hn'. revert n' c Hle.
  induction fuel as [|fuel IH]; intros n c Hle Hf; [lia|]. cbn [constraint_loop].
  eapply runs_bind; [by apply column_constraint_runs|intros [] ?; [done|rauto]|intros [c'|] n' ? ->; [|done]].
  rauto. apply IH; lia.
Qed.
Lemma parse_coldef_total n : (n <= N)%nat -> total n (parse_coldef parse_expr).
Proof using He. intros Hn. unfold parse_coldef. rauto. by apply parse_column_constraints_total. Qed.

Lemma skip_constraint_total fuel n d : (n < fuel)%nat -> total n (skip_constraint_loop fuel d).
Proof using.
  revert n d. induction fuel as [|fuel IH]; intros n d Hf; [lia|]. cbn [skip_constraint_loop]. apply runs_kind. intros k.
  destruct (tk_eqb k TK_EOF) eqn:Ek; [rauto|].
  repeat match goal with |- runs _ _ (if _ then _ else _) _ => rstep end;
    try (apply runs_eat; [token_known|intros n' ->; apply IH; lia]); rauto.
Qed.
Lemma parse_table_item_total n : (n <= N)%nat -> total n (parse_table_item parse_expr).
Proof using He.
  intros Hn. unfold parse_table_item. rauto.
  - apply total_with_fuel. intros. by apply skip_constraint_total.
  - by apply runs_weaken, parse_coldef_total.
Qed.
Lemma with_option_total n o : total n (with_option o).
Proof using. unfold with_option. rauto. Qed.
Lemma partition_option_total n o : total n (partition_option o).
Proof using. unfold partition_option. rauto. Qed.
#[local] Hint Resolve with_option_total partition_option_total : runs.
Lemma table_option_runs n o : runs n anyp (table_option o) is_some.
Proof using. unfold table_option. rauto. Qed.
Lemma option_loop_total fuel n o : (n < fuel)%nat -> total n (option_loop fuel o).
Proof using.
  revert n o. induction fuel as [|fuel IH]; intros n o Hf; [lia|]. cbn [option_loop].
  eapply runs_bind; [apply table_option_runs|intros [] ?; [done|rauto]|intros [o'|] n' ? ->; [|done]]. apply IH; lia.
Qed.
Lemma parse_create_table_total n : (n < N)%nat -> total n (parse_create_table parse_expr parse_select).
Proof using He Hs.
  intros Hn. unfold parse_create_table.
  assert (forall m temp, (m <= n)%nat -> total m (expect TK_TABLE "expected TABLE";;
     ine ← if_not_exists;
     n ← parse_name "expected table name";
     a ← accept TK_AS;
     if a : bool then
       q ← parse_select;
       mret (ST_CREATE_TABLE (mk_create_table n ine temp [] [] None false false None None None None TDB_PART_NONE [] 0 (Some q)))
     else
       expect TK_LP "expected (";;
       items ← comma_list true (parse_table_item parse_expr);
       expect TK_RP "expected )";;
       o ← with_fuel (fun fuel => option_loop fuel no_opts);
       mret (ST_CREATE_TABLE (mk_create_table n ine temp (items_cols items) (items_pk items) None (o_versioning o) (o_columnar o)
               None None (o_tablespace o) (o_compression o) (o_kind o) (o_cols o) (o_count o) None)))) as K.
  { intros m temp Hm. sall; [apply comma_list_total, parse_table_item_total; lia|].
    apply total_with_fuel. intros. by apply option_loop_total. }
  rstep; apply K; lia.
Qed.
Lemma index_method_total n : total n index_method.
Proof using. unfold index_method. rauto. Qed.
Lemma index_cols_total n : total n (comma_list true index_col).
Proof using. apply comma_list_total. unfold index_col. rauto. Qed.
#[local] Hint Resolve index_method_total index_cols_total : runs.
Lemma parse_create_index_total n u : total n (parse_create_index u).
Proof using. unfold parse_create_index. rauto. Qed.
Lemma parse_create_view_total n m : (n < N)%nat -> total n (parse_create_view parse_select m).
Proof using Hs. intros Hn. unfold parse_create_view. sall. Qed.
Lemma routine_params_total n : total n routine_params.
Proof using. unfold routine_params. rauto. apply runs_weaken, comma_list_total. rauto. Qed.
#[local] Hint Resolve routine_params_total : runs.
Lemma parse_create_routine_total n f r : total n (parse_create_routine f r).
Proof using. unfold parse_create_routine. rauto. Qed.
Lemma opt_string_total n k w : k <> TK_EOF -> total n (opt_string k w).
Proof using.
  intros Hk. unfold opt_string. eapply runs_bind; [by apply runs_accept|intros [] ?; [done|]|intros [] ? ?; [intros ->|done]]; rauto.
Qed.
Lemma parse_create_tablespace_total n : total n parse_create_tablespace.
Proof using. unfold parse_create_tablespace. rauto. by apply opt_string_total. Qed.
Lemma parse_drop_tablespace_total n : total n parse_drop_tablespace.
Proof using. unfold parse_drop_tablespace. rauto. Qed.
#[local] Hint Resolve parse_create_index_total parse_create_routine_total parse_create_tablespace_total parse_drop_tablespace_total : runs.
Lemma create_body_total n r : (n < N)%nat -> total n (create_body parse_expr parse_select r).
Proof using He Hs.
  intros Hn. unfold create_body. rauto.
  all: try (apply parse_create_view_total; lia).
  all: try (apply runs_weaken, parse_create_view_total; lia).
  all: apply runs_weaken, parse_create_table_total; lia.
Qed.
Lemma parse_create_total n : (n < N)%nat -> total n (parse_create parse_expr parse_select).
Proof using He Hs. intros Hn. unfold parse_create. rauto; apply create_body_total; lia. Qed.
Lemma parse_drop_total n : total n parse_drop.
Proof using. unfold parse_drop. rauto. Qed.
Lemma alter_rename_total n : total n alter_rename.
Proof using. unfold alter_rename. rauto. Qed.
#[local] Hint Resolve alter_rename_total : runs.
Lemma parse_alter_total n : (n < N)%nat -> total n (parse_alter parse_expr).
Proof using He.
  intros Hn. unfold parse_alter. rstep. rstep; [rauto|]. rstep; [rauto|]. rstep; [|rauto]. unfold alter_action.
  rauto; apply parse_coldef_total; lia.
Qed.
Lemma parse_txn_total n : total n parse_txn.
Proof using. unfold parse_txn. apply runs_kind. intros k. apply runs_seq; [apply runs_advance|intros _]. destruct k; rauto. Qed.
Lemma parse_call_total n : (n < N)%nat -> total n (parse_call parse_expr).
Proof using He. intros Hn. unfold parse_call. sall. Qed.
Lemma skip_until_total n stop : existsb (tk_eqb TK_EOF) stop = true -> total n (with_fuel (fun fuel => skip_until fuel stop)).
Proof using.
  intros Hst. apply total_with_fuel. intros n' fuel _. clear n. revert n'. induction fuel as [|fuel IH]; intros n Hf; [lia|].
  cbn [skip_until]. apply runs_kind. intros k. destruct (existsb (tk_eqb k) stop) eqn:E; [rauto|].
  apply runs_eat; [|intros n' ->; apply IH; lia]. intros p [_ Ek] H. simplify_eq. rewrite H, Hst in E. done.
Qed.
Lemma source_of_total n m : total n m -> total n (source_of m).
Proof using. intros Hm. unfold source_of. rauto. Qed.
Lemma parse_prepare_total n : total n parse_prepare.
Proof using. unfold parse_prepare. rauto. by apply source_of_total, skip_until_total. Qed.
Lemma parse_truncate_total n : total n parse_truncate.
Proof using.
  unfold parse_truncate. rauto. all: apply total_with_fuel; intros n2 fuel _; revert n2; generalize false at 1; generalize false.
  all: induction fuel as [|fuel IH]; intros b1 b2 n2 Hf; [lia|]; cbn [truncate_loop]; repeat rstep; apply IH; lia.
Qed.
Lemma opt_name_total n : total n opt_name.
Proof using. unfold opt_name. rauto. Qed.
Lemma opt_dot_name_total n : total n opt_dot_name.
Proof using. unfold opt_dot_name. rauto. Qed.
#[local] Hint Resolve opt_name_total opt_dot_name_total : runs.
Lemma parse_analyze_total n : total n parse_analyze.
Proof using. unfold parse_analyze. rauto. Qed.
Lemma parse_reindex_total n : total n parse_reindex.
Proof using. unfold parse_reindex. rauto. Qed.
Lemma parse_comment_total n : total n parse_comment.
Proof using.
  unfold parse_comment. rauto; [unfold comment_kind; rauto|]. apply source_of_total. rauto.
Qed.
Lemma parse_grant_total n r : total n (parse_grant_or_revoke r).
Proof using.
  unfold parse_grant_or_revoke. rauto; [by apply source_of_total, skip_until_total|]. apply source_of_total. rauto.
Qed.
Lemma parse_attach_total n : total n parse_attach.
Proof using. unfold parse_attach. rauto. Qed.
Lemma parse_detach_total n : total n parse_detach.
Proof using. unfold parse_detach. rauto. Qed.
Lemma parse_lock_total n : total n parse_lock.
Proof using. unfold parse_lock. rauto. Qed.

Lemma parse_returning_total n : (n < N)%nat -> total n (parse_returning parse_expr).
Proof using He.
  intros Hn. unfold parse_returning. rauto. apply comma_list_total, (parse_result_col_total parse_expr N He). lia.
Qed.
Lemma set_list_total n : (n < N)%nat -> total n (set_list parse_expr).
Proof using He. intros Hn. unfold set_list. apply comma_list_total. sall. Qed.
Lemma parse_or_action_total n : total n parse_or_action.
Proof using. unfold parse_or_action. rauto. Qed.
Lemma parse_upsert_total n : (n < N)%nat -> total n (parse_upsert parse_expr).
Proof using He. intros Hn. unfold parse_upsert. sall; apply set_list_total; lia. Qed.
#[local] Hint Resolve parse_or_action_total : runs.
Ltac dml := solve [apply parse_returning_total; lia | apply set_list_total; lia | apply parse_upsert_total; lia].
Lemma parse_insert_total n : (n < N)%nat -> total n (parse_insert parse_expr parse_select).
Proof using He Hs.
  intros Hn. unfold parse_insert. repeat (rauto; try sleaf; try dml).
  all: apply comma_list_total; unfold values_row; sall.
Qed.
Lemma parse_update_total n : (n < N)%nat -> total n (parse_update parse_expr).
Proof using He. intros Hn. unfold parse_update. repeat (rauto; try sleaf; try dml). Qed.
Lemma parse_delete_total n : (n < N)%nat -> total n (parse_delete parse_expr).
Proof using He. intros Hn. unfold parse_delete. repeat (rauto; try sleaf; try dml). Qed.

Lemma parse_stmt_total fuel n : (n < N)%nat -> (n < fuel)%nat -> total n (parse_stmt parse_expr parse_select fuel).
Proof using He Hs.
  revert n. induction fuel as [|fuel IH]; intros n Hn Hf; [lia|]. cbn [parse_stmt]. cbv zeta. apply runs_kind. intros k.
  destruct k eqn:Ek; try (solve [rauto]);
    try (apply runs_seq; [apply runs_weaken|intros ?; apply runs_ret; reflexivity];
         first [apply Hs; lia | by apply parse_insert_total | by apply parse_update_total | by apply parse_delete_total
               | by apply parse_create_total | apply parse_drop_total | by apply parse_alter_total | by apply parse_call_total
               | apply parse_prepare_total | apply parse_txn_total | apply parse_truncate_total | apply parse_analyze_total
               | apply parse_reindex_total | apply parse_comment_total | apply parse_grant_total | apply parse_attach_total
               | apply parse_detach_total | apply parse_lock_total]).
  apply runs_eat; [token_known|intros n' ->]. rauto; apply IH; lia.
Qed.
End Stmts.

(** ** The entry points *)

Lemma parser_start_ok sql :
  strlen sql < 2 ^ 31 -> parser_wf (parser_start sql) /\ (meas (parser_start sql) <= S (Z.to_nat (strlen sql)))%nat.
Proof.
  intros Hl. unfold parser_start, tdb_lex_init. cbn [negb Z.eqb default].
  assert (lexer_wf (mk_lexer sql (strlen sql) 0)) as Hwf.
  { split; cbn [lx_pos lx_len lx_z]; [unfold strlen; pose proof (blen_nonneg (cstr sql)); lia|done|].
    assert (bget sql (strlen sql) = 0) as ->; [|done]. clear. unfold strlen, bget, blen. rewrite Nat2Z.id.
    induction sql as [|c s IH]; [done|]. cbn [cstr]. destruct (Z.eqb_spec c 0) as [->|]; [done|]. exact IH. }
  pose proof (lex_next_ok _ Hwf) as H. destruct (tdb_lex_next _) as [lx t]. destruct H as [Hwf' Ht].
  assert (lx_len lx = strlen sql /\ 0 <= lx_pos lx) as [El Ep].
  { pose proof (lw_pos _ Hwf'). destruct Ht as [(_ & _ & _ & E)|(_ & E & _)]; split; (done || lia). }
  split; [split; [done|]|].
  - cbn [p_cur p_lx]. intros E. destruct Ht as [(_ & E1 & _ & E2)|(_ & _ & _ & _ & _ & _ & E')]; [cbn in *; lia|done].
  - unfold meas. cbn [p_cur p_lx]. destruct (tk_eqb _ _); lia.
Qed.

(** C21. The parser terminates: on every input of less than 2^31 bytes, whatever
    it contains, [tdb_parse] and [tdb_parse_expression] give an answer.  The
    depth of recursive calls is at most three for each byte of the source. *)
Theorem parser_terminates sql :
  strlen sql < 2 ^ 31 -> is_Some (tdb_parse sql) /\ is_Some (tdb_parse_expression sql).
Proof.
  intros Hl. destruct (parser_start_ok sql Hl) as [Hwf Hm]. set (n := S (Z.to_nat (strlen sql))) in *.
  assert (parse_fuel sql = 3 * n + 3)%nat as Hf by (unfold parse_fuel, n; lia).
  assert (forall m n', (n' < S n)%nat -> total n' (parse_expr (parse_fuel sql) m)) as He
    by (intros m n' Hn; rewrite Hf; apply (parse_total n'); lia).
  assert (forall n', (n' < S n)%nat -> total n' (parse_select (parse_fuel sql))) as Hs
    by (intros n' Hn; rewrite Hf; apply (parse_total n'); lia).
  split.
  - unfold tdb_parse. cbv zeta. destruct (tk_eqb (t_kind (p_cur (parser_start sql))) TK_EOF); [done|].
    destruct (parse_stmt_total _ _ (S n) He Hs (parse_fuel sql) n ltac:(lia) ltac:(lia) _ Hwf Hm I) as (p' & st & -> & W & _).
    destruct (p_err p'); [done|]. destruct (_ && _); [unfold set_err; by destruct (p_err p')|].
    assert (total (meas p') (with_fuel skip_semis)) as Hss.
    { apply total_with_fuel. intros n' fuel _. revert n'. induction fuel as [|fuel IH]; intros n2 Hf2; [lia|].
      cbn [skip_semis]. rauto. apply IH. lia. }
    destruct (Hss p' W ltac:(lia) I) as (p2 & u & -> & _). done.
  - unfold tdb_parse_expression. cbv zeta. destruct (He 0 n ltac:(lia) _ Hwf Hm I) as (p' & e & -> & W & _).
    destruct (p_err p') eqn:Ee; [done|]. destruct (negb _); [unfold set_err; rewrite Ee; done|done].
Qed.
Lemma parser_terminates_witness :
  is_Some (tdb_parse (str "SELECT ((a + , FROM")) /\ is_Some (tdb_parse_expression (str "SELECT ((a + , FROM")).
Proof. apply parser_terminates. vm_compute. reflexivity. Defined.
