(* ===== verification/ParserSpec.v ===== *)
(** * The language of the parser

    A grammar of expressions, SELECT and DML statements over printed lexemes,
    with the precedence of operators as levels, and the proof that the parser
    reads every text of the grammar back to its tree.  [reads] is the
    judgement the proof is written in: a computation takes exactly some
    lexemes and gives a result. *)
From S2P Require Import Prelude Util Buf Value Schema Sqltype Lexer LexerSpec Ast Parser ParserStmt.

(** ** Lexemes *)

Definition kd (l : lexeme) : tdb_token_kind := (lexeme_view l).1.1.
Definition tx (l : lexeme) : name := (lexeme_view l).1.2.
(** Kind of the first lexeme. *)
Definition hkind (ls : list lexeme) : tdb_token_kind := match ls with [] => TK_EOF | l :: _ => kd l end.
(** A lexeme whose text has no NUL. *)
Definition plain (l : lexeme) : Prop := lexeme_ok l /\ nul_free (print l).
(** The first lexeme is the identifier [kw], in any letter case. *)
Definition hid (kw : String.string) (ls : list lexeme) : bool :=
  match ls with
  | l :: _ => tk_eqb (kd l) TK_ID && (blen (str kw) =? blen (tx l)) && (strncasecmp (tx l) (str kw) (length (tx l)) =? 0)
  | [] => false
  end.

Section Reads.
Context (z : list Z) (Hz : blen z < 2 ^ 31).

(** The current token and what the lexer has left are the lexemes [ls]. *)
Record before (p : P) (ls : list lexeme) : Prop := mk_before {
  bf_sql : p_sql p = z;
  bf_err : p_err p = false;
  bf_z : lx_z (p_lx p) = z;
  bf_len : lx_len (p_lx p) = blen z;
  bf_pos : 0 <= lx_pos (p_lx p) <= blen z;
  bf_plain : Forall plain ls;
  bf_cur : match ls with
           | [] => t_kind (p_cur p) = TK_EOF /\ lx_pos (p_lx p) = blen z /\ t_z (p_cur p) = blen z
           | l :: ls => token_view z (p_cur p) = lexeme_view l /\ bfrom z (lx_pos (p_lx p)) = print_all ls
               /\ 0 <= t_z (p_cur p) /\ 0 <= t_n (p_cur p) /\ t_z (p_cur p) + t_n (p_cur p) <= blen z
           end }.

Lemma before_kind p ls : before p ls -> t_kind (p_cur p) = hkind ls.
Proof using. intros [_ _ _ _ _ _ H]. destruct ls as [|l ls]; [apply H|]. destruct H as [H _]. unfold token_view in H. unfold hkind, kd. by rewrite <- H. Qed.
Lemma before_text p l ls : before p (l :: ls) -> tok_text p (p_cur p) = tx l.
Proof using. intros [Hs _ _ _ _ _ [H _]]. unfold tok_text, tx. rewrite Hs, <- H. done. Qed.
Lemma before_ival p l ls : before p (l :: ls) -> t_ival (p_cur p) = (lexeme_view l).2.
Proof using. intros [Hs _ _ _ _ _ [H _]]. by rewrite <- H. Qed.
(** The lexer at the text of [ls] gives the state before [ls]. *)
Lemma lex_before pos ls msg :
  0 <= pos <= blen z -> Forall plain ls -> bfrom z pos = print_all ls ->
  let '(lx, t) := tdb_lex_next (mk_lexer z (blen z) pos) in before (mk_P z lx t false msg) ls.
Proof using Hz.
  intros Hp Hpl Hb. destruct ls as [|l2 ls].
  - assert (pos = blen z) as -> by (pose proof (blen_bfrom z pos Hp) as H; rewrite Hb in H; change (blen (print_all [])) with 0 in H; lia).
    rewrite lex_at_end. split; cbn; try done.
  - destruct (print_one z pos l2 (print_all ls) Hp Hz (print_all_ends ls)) as (t & p' & En & Ev & Er & Hp').
    { by apply Forall_cons in Hpl as [[? _] _]. }
    { exact Hb. }
    assert (lexer_wf (mk_lexer z (blen z) pos)) as Hwf.
    { split; cbn [lx_pos lx_len lx_z]; [lia|done|]. unfold bget, blen. rewrite Nat2Z.id, nth_overflow by lia. done. }
    pose proof (lex_next_ok _ Hwf) as Hok. rewrite En in Hok. destruct Hok as [_ [(Ee & _)|(_ & _ & T1 & T2 & T3 & _)]].
    { exfalso. apply (lexeme_not_eof l2); [by apply Forall_cons in Hpl as [[? _] _]|]. rewrite <- Ev. done. }
    cbn [lx_pos lx_len] in *. rewrite En. split; cbn [p_sql p_err p_lx p_cur lx_z lx_len lx_pos]; try done; [lia|].
    split; [done|]. split; [done|]. lia.
Qed.
Lemma before_advance p l ls : before p (l :: ls) -> exists p', advance p = Some (p', tt) /\ before p' ls.
Proof using Hz.
  intros [Hs He E1 E2 Hp Hpl (_ & Hb & _)]. apply Forall_cons in Hpl as [_ Hpl]. unfold advance. destruct (p_lx p) as [z' len pos] eqn:El. cbn [lx_z lx_len lx_pos] in *. subst z' len.
  pose proof (lex_before pos ls (p_errmsg p) Hp Hpl Hb) as H. destruct (tdb_lex_next _) as [lx t]. rewrite Hs, He. by eexists.
Qed.
(** Every lexeme takes bytes, so the fuel of the loops is enough. *)
Lemma print_all_len ls : Z.of_nat (length ls) <= blen (print_all ls).
Proof using.
  induction ls as [|l ls IH]; [done|]. change (print_all (l :: ls)) with ((32 :: print l) ++ print_all ls).
  rewrite blen_app, blen_cons. pose proof (blen_nonneg (print l)). cbn [length]. lia.
Qed.
Lemma before_fuel p ls : before p ls -> (length ls < S (bytes_left p))%nat.
Proof using.
  intros [_ _ _ E2 Hp _ Hc]. unfold bytes_left. rewrite E2. destruct ls as [|l ls]; [cbn; lia|]. destruct Hc as (_ & Hb & _).
  pose proof (blen_bfrom z (lx_pos (p_lx p)) Hp) as H. rewrite Hb in H. pose proof (print_all_len ls). cbn [length]. lia.
Qed.

(** ** Reading *)

Definition reads {A} (m : M A) (ls rest : list lexeme) (x : A) : Prop :=
  forall p, before p (ls ++ rest) -> exists p', m p = Some (p', x) /\ before p' rest.

Lemma reads_ret {A} (x : A) rest : reads (mret x) [] rest x.
Proof using. intros p H. by exists p. Qed.
Lemma reads_bind {A B} (m : M A) (f : A -> M B) l1 l2 rest x y :
  reads m l1 (l2 ++ rest) x -> reads (f x) l2 rest y -> reads (m ≫= f) (l1 ++ l2) rest y.
Proof using.
  intros H1 H2 p Hp. rewrite <- app_assoc in Hp. destruct (H1 p Hp) as (p1 & E1 & Hp1). destruct (H2 p1 Hp1) as (p2 & E2 & Hp2).
  exists p2. split; [|done]. unfold mbind, M_bind. by rewrite E1.
Qed.
Lemma reads_kind {B} (f : tdb_token_kind -> M B) ls rest y :
  reads (f (hkind (ls ++ rest))) ls rest y -> reads (kind ≫= f) ls rest y.
Proof using. intros H p Hp. unfold mbind, M_bind, kind. rewrite (before_kind _ _ Hp). by apply H. Qed.
Lemma reads_advance {B} (f : unit -> M B) l ls rest y :
  reads (f tt) ls rest y -> reads (advance ≫= f) (l :: ls) rest y.
Proof using Hz. intros H p Hp. destruct (before_advance _ _ _ Hp) as (p1 & E1 & Hp1). unfold mbind, M_bind. rewrite E1. by apply H. Qed.
Lemma reads_dup_tok {B} (f : name -> M B) l ls rest y :
  reads (f (tx l)) (l :: ls) rest y -> reads (dup_tok ≫= f) (l :: ls) rest y.
Proof using. intros H p Hp. unfold mbind, M_bind, dup_tok. rewrite (before_text _ _ _ Hp). by apply H. Qed.
Lemma reads_cur {B} (f : tdb_token -> M B) l ls rest y :
  (forall c, t_kind c = kd l -> t_ival c = (lexeme_view l).2 -> reads (f c) (l :: ls) rest y) -> reads (cur ≫= f) (l :: ls) rest y.
Proof using.
  intros H p Hp. unfold mbind, M_bind, cur. apply H; [by apply (before_kind _ _ Hp)|by eapply before_ival|done].
Qed.
Lemma reads_get_err {B} (f : bool -> M B) ls rest y : reads (f false) ls rest y -> reads (get_err ≫= f) ls rest y.
Proof using. intros H p Hp. unfold mbind, M_bind, get_err. rewrite (bf_err _ _ Hp). by apply H. Qed.
Lemma reads_accept {B} (f : bool -> M B) k l ls rest y :
  kd l = k -> reads (f true) ls rest y -> reads (accept k ≫= f) (l :: ls) rest y.
Proof using Hz.
  intros <- H p Hp. destruct (before_advance _ _ _ Hp) as (p1 & E1 & Hp1). unfold mbind, M_bind, accept, mbind, M_bind, kind.
  rewrite (before_kind _ _ Hp). cbn [app hkind]. rewrite tk_eqb_refl, E1. by apply H.
Qed.
Lemma reads_accept_no {B} (f : bool -> M B) k ls rest y :
  tk_eqb (hkind (ls ++ rest)) k = false -> reads (f false) ls rest y -> reads (accept k ≫= f) ls rest y.
Proof using.
  intros Hk H p Hp. unfold mbind, M_bind, accept, mbind, M_bind, kind. rewrite (before_kind _ _ Hp), Hk. by apply H.
Qed.
Lemma reads_expect {B} (f : bool -> M B) k what l ls rest y :
  kd l = k -> reads (f true) ls rest y -> reads (expect k what ≫= f) (l :: ls) rest y.
Proof using Hz.
  intros <- H p Hp. destruct (before_advance _ _ _ Hp) as (p1 & E1 & Hp1). unfold mbind, M_bind, expect, mbind, M_bind, kind.
  rewrite (before_kind _ _ Hp). cbn [app hkind]. rewrite tk_eqb_refl, E1. by apply H.
Qed.
Lemma id_is_before p ls kw : before p ls -> id_is_tok p (p_cur p) kw = hid kw ls.
Proof using.
  intros Hp. unfold id_is_tok. pose proof (before_kind _ _ Hp) as Hk. destruct ls as [|l ls]; [by rewrite Hk|].
  unfold hid. rewrite Hk. cbn [hkind]. destruct Hp as [Hs _ _ _ _ Hpl (Hv & _ & T1 & T2 & T3)]. unfold token_view in Hv.
  assert (tk_eqb (kd l) TK_ID = match kd l with TK_ID => true | _ => false end) as -> by (by destruct (kd l)).
  destruct (kd l) eqn:Ek; try done. cbn [andb]. unfold tx. rewrite <- Hv. cbn [fst snd]. rewrite Hs.
  set (w := bsub z (t_z (p_cur p)) (t_n (p_cur p))). assert (blen w = t_n (p_cur p)) as Hw by (apply blen_bsub; lia).
  rewrite Hw. f_equal. rewrite (bfrom_split z _ (t_n (p_cur p))) by lia. fold w.
  replace (Z.to_nat (t_n (p_cur p))) with (length w) by (unfold blen in Hw; lia). by rewrite strncasecmp_prefix by lia.
Qed.
Lemma reads_id_is {B} (f : bool -> M B) kw ls rest y : reads (f (hid kw (ls ++ rest))) ls rest y -> reads (id_is kw ≫= f) ls rest y.
Proof using. intros H p Hp. unfold mbind, M_bind, id_is. rewrite (id_is_before _ _ kw Hp). by apply H. Qed.
Lemma reads_with_fuel {A} (loop : nat -> M A) ls rest x :
  (forall fuel, (length (ls ++ rest) < fuel)%nat -> reads (loop fuel) ls rest x) -> reads (with_fuel loop) ls rest x.
Proof using. intros H p Hp. unfold with_fuel. apply H; [by apply before_fuel|done]. Qed.
Lemma reads_nil_r {A} (m : M A) ls rest x : reads m (ls ++ []) rest x -> reads m ls rest x.
Proof using. by rewrite app_nil_r. Qed.
End Reads.

(** ** The grammar

    The relations are indexed by the depth [n] of a derivation, so each rule
    is one case of a relation over the relations of the depth below. *)

(** The levels of the binary operators, from the loosest to the tightest: OR, AND,
    (NOT, 3,) the comparisons, the operators on bits, sums, products,
    concatenation.  The grammar has no other source of precedence; IS, IN, LIKE,
    GLOB and BETWEEN, which have rules of their own, are at the level of the
    comparisons. *)
Inductive op_level : tdb_token_kind -> Z -> Prop :=
| level_or : op_level TK_OR 1
| level_and : op_level TK_AND 2
| level_compare k : k ∈ [TK_EQ; TK_NE; TK_LT; TK_LE; TK_GT; TK_GE] -> op_level k 4
| level_bits k : k ∈ [TK_BITAND; TK_BITOR; TK_SHL; TK_SHR] -> op_level k 5
| level_sum k : k ∈ [TK_PLUS; TK_MINUS] -> op_level k 6
| level_product k : k ∈ [TK_STAR; TK_SLASH; TK_PERCENT] -> op_level k 7
| level_concat : op_level TK_CONCAT 8.
(** [binprec] has these levels. *)
Lemma op_level_prec k lv : op_level k lv -> binprec k = lv /\ 0 < lv /\ existsb (tk_eqb k) [TK_IS; TK_IN; TK_LIKE; TK_GLOB; TK_BETWEEN] = false.
Proof.
  intros [ | |k' Hk|k' Hk|k' Hk|k' Hk| ]; try done; repeat (apply elem_of_cons in Hk as [->|Hk]; [done|]); by apply not_elem_of_nil in Hk.
Qed.
Definition prefix_op (k : tdb_token_kind) : bool := tk_eqb k TK_MINUS || tk_eqb k TK_PLUS || tk_eqb k TK_BITNOT.
Definition like_op (k : tdb_token_kind) : bool := tk_eqb k TK_LIKE || tk_eqb k TK_GLOB.

(** Items separated by commas. *)
Inductive sep {A} (R : A -> list lexeme -> Prop) : list A -> list lexeme -> Prop :=
| sep_one x ls : R x ls -> sep R [x] ls
| sep_cons x ls c l ls' : R x ls -> kd c = TK_COMMA -> sep R l ls' -> sep R (x :: l) (ls ++ c :: ls').
Inductive gname : name -> list lexeme -> Prop :=
| gname_id t : kd t = TK_ID -> gname (tx t) [t].
(** An optional keyword. *)
Inductive gkeyword (k : tdb_token_kind) : bool -> list lexeme -> Prop :=
| gkw_no : gkeyword k false []
| gkw_yes t : kd t = k -> gkeyword k true [t].
Inductive gdir : bool -> list lexeme -> Prop :=
| gdir_none : gdir false []
| gdir_asc t : kd t = TK_ASC -> gdir false [t]
| gdir_desc t : kd t = TK_DESC -> gdir true [t].

Section Grammar.
Context (E : Z -> tdb_expr -> list lexeme -> Prop) (U : tdb_expr -> list lexeme -> Prop)
  (Q : tdb_select -> list lexeme -> Prop).

(** A keyword and an expression, or nothing. *)
Inductive gopt (k : tdb_token_kind) (m : Z) : option tdb_expr -> list lexeme -> Prop :=
| gopt_none : gopt k m None []
| gopt_some t e ls : kd t = k -> E m e ls -> gopt k m (Some e) (t :: ls).
Inductive gargs : list tdb_expr -> list lexeme -> Prop :=
| gargs_nil : gargs [] []
| gargs_some l ls : sep (E 0) l ls -> gargs l ls.
Inductive gordered : tdb_expr * bool -> list lexeme -> Prop :=
| gordered_item e ls d ls' : E 0 e ls -> gdir d ls' -> gordered (e, d) (ls ++ ls').
Inductive gwhens : list tdb_expr -> list lexeme -> Prop :=
| gwhens_nil : gwhens [] []
| gwhens_cons w e1 ls1 t e2 ls2 l ls :
    kd w = TK_WHEN -> E 0 e1 ls1 -> kd t = TK_THEN -> E 0 e2 ls2 -> gwhens l ls ->
    gwhens (e1 :: e2 :: l) (w :: ls1 ++ t :: ls2 ++ ls).
Inductive gbase : option tdb_expr -> list lexeme -> Prop :=
| gbase_none : gbase None []
| gbase_some e ls : E 0 e ls -> gbase (Some e) ls.

Inductive gunaryF : tdb_expr -> list lexeme -> Prop :=
| GU_prefix t e ls : prefix_op (kd t) = true -> U e ls -> gunaryF (EX_UNARY (kd t) e) (t :: ls)
| GU_int v : gunaryF (EX_LITERAL (VInt v)) [LInt v]
| GU_text s : nul_free s -> gunaryF (EX_LITERAL (VText s)) [LText s]
| GU_null t : kd t = TK_NULL -> gunaryF EX_NULL [t]
| GU_true t : kd t = TK_TRUE -> gunaryF (EX_LITERAL (VInt 1)) [t]
| GU_false t : kd t = TK_FALSE -> gunaryF (EX_LITERAL (VInt 0)) [t]
| GU_star t : kd t = TK_STAR -> gunaryF EX_STAR [t]
| GU_col t : kd t = TK_ID -> gunaryF (EX_COLUMN None (tx t)) [t]
| GU_qcol t d c : kd t = TK_ID -> kd d = TK_DOT -> kd c = TK_ID -> gunaryF (EX_COLUMN (Some (tx t)) (tx c)) [t; d; c]
| GU_qstar t d c : kd t = TK_ID -> kd d = TK_DOT -> kd c = TK_STAR -> gunaryF EX_STAR [t; d; c]
| GU_paren a e ls b : kd a = TK_LP -> E 0 e ls -> kd b = TK_RP -> gunaryF e (a :: ls ++ [b])
| GU_sub a q ls b : kd a = TK_LP -> Q q ls -> kd b = TK_RP -> gunaryF (EX_SUBQUERY q) (a :: ls ++ [b])
| GU_exists x a q ls b :
    kd x = TK_EXISTS -> kd a = TK_LP -> Q q ls -> kd b = TK_RP -> gunaryF (EX_EXISTS q) (x :: a :: ls ++ [b])
| GU_call t a d lsd args ls b :
    kd t = TK_ID -> kd a = TK_LP -> gkeyword TK_DISTINCT d lsd -> gargs args ls -> kd b = TK_RP ->
    gunaryF (if is_agg_name (tx t) then EX_AGG (tx t) d args else EX_FUNC (tx t) d args) (t :: a :: lsd ++ ls ++ [b])
| GU_case c base lsb whens lsw els lse e :
    kd c = TK_CASE -> gbase base lsb -> gwhens whens lsw -> whens <> [] -> gopt TK_ELSE 0 els lse -> kd e = TK_END ->
    gunaryF (EX_CASE base whens els) (c :: lsb ++ lsw ++ lse ++ [e]).

(** The left operand of IN, LIKE, GLOB and BETWEEN.  With NOT it is not an
    operator expression: the parser would lose the NOT. *)
Inductive gleft : bool -> tdb_expr -> list lexeme -> Prop :=
| gleft_plain e ls : E 4 e ls -> gleft false e ls
| gleft_not e ls t : U e ls -> kd t = TK_NOT -> gleft true e (ls ++ [t]).

Inductive gexprF (m : Z) : tdb_expr -> list lexeme -> Prop :=
| GE_unary e ls : U e ls -> gexprF m e ls
| GE_not t e ls : m <= 3 -> kd t = TK_NOT -> E 3 e ls -> gexprF m (EX_UNARY TK_NOT e) (t :: ls)
| GE_bin l ls t lv r ls' :
    op_level (kd t) lv -> m <= lv -> E lv l ls -> E (lv + 1) r ls' ->
    gexprF m (EX_BINARY (kd t) false l r None) (ls ++ t :: ls')
| GE_is l ls t neg lsn r ls' :
    m <= 4 -> E 4 l ls -> kd t = TK_IS -> gkeyword TK_NOT neg lsn -> U r ls' ->
    gexprF m (EX_BINARY TK_IS neg l r None) (ls ++ t :: lsn ++ ls')
| GE_like neg l ls t r ls' esc lse :
    m <= 4 -> gleft neg l ls -> like_op (kd t) = true -> E 5 r ls' -> gopt TK_ESCAPE 5 esc lse ->
    gexprF m (EX_BINARY (kd t) neg l r esc) (ls ++ t :: ls' ++ lse)
| GE_between neg l ls t lo ls1 a hi ls2 :
    m <= 4 -> gleft neg l ls -> kd t = TK_BETWEEN -> E 5 lo ls1 -> kd a = TK_AND -> E 5 hi ls2 ->
    gexprF m (EX_BETWEEN neg l lo hi) (ls ++ t :: ls1 ++ a :: ls2)
| GE_in_list neg l ls t a args ls' b :
    m <= 4 -> gleft neg l ls -> kd t = TK_IN -> kd a = TK_LP -> gargs args ls' -> kd b = TK_RP ->
    gexprF m (EX_IN_LIST neg l args) (ls ++ t :: a :: ls' ++ [b])
| GE_in_select neg l ls t a q ls' b :
    m <= 4 -> gleft neg l ls -> kd t = TK_IN -> kd a = TK_LP -> Q q ls' -> kd b = TK_RP ->
    gexprF m (EX_IN_SELECT neg l q) (ls ++ t :: a :: ls' ++ [b]).

(** *** SELECT *)

(** An alias; without AS it must not look like the start of OVER or of
    NATURAL JOIN. *)
Inductive galias : option name -> list lexeme -> Prop :=
| galias_none : galias None []
| galias_as a t : kd a = TK_AS -> kd t = TK_ID -> galias (Some (tx t)) [a; t]
| galias_bare t : kd t = TK_ID -> hid "OVER" [t] = false -> hid "NATURAL" [t] = false -> galias (Some (tx t)) [t].
Inductive gcol : tdb_expr * option name -> list lexeme -> Prop :=
| gcol_item e ls a ls' : E 0 e ls -> galias a ls' -> gcol (e, a) (ls ++ ls').

(** A table or a subquery of FROM, without its join. *)
Abbreviation src_fun := (tdb_join_kind -> option tdb_expr -> list name -> bool -> tdb_src).
Inductive gsource : src_fun -> list lexeme -> Prop :=
| gsource_table t a ls :
    kd t = TK_ID -> galias a ls ->
    gsource (fun join on using_cols natural => mk_src (Some (tx t)) a None join on None using_cols natural) (t :: ls)
| gsource_select l q ls r a ls' :
    kd l = TK_LP -> Q q ls -> kd r = TK_RP -> galias a ls' ->
    gsource (fun join on using_cols natural => mk_src None a (Some q) join on None using_cols natural) (l :: ls ++ r :: ls').
Inductive gjoin : tdb_join_kind -> list lexeme -> Prop :=
| gjoin_comma t : kd t = TK_COMMA -> gjoin JOIN_CROSS [t]
| gjoin_join t : kd t = TK_JOIN -> gjoin JOIN_INNER [t]
| gjoin_inner t j : kd t = TK_INNER -> kd j = TK_JOIN -> gjoin JOIN_INNER [t; j]
| gjoin_cross t j : kd t = TK_CROSS -> kd j = TK_JOIN -> gjoin JOIN_CROSS [t; j]
| gjoin_left t o ls j : kd t = TK_LEFT -> gkeyword TK_OUTER o ls -> kd j = TK_JOIN -> gjoin JOIN_LEFT (t :: ls ++ [j])
| gjoin_right t o ls j : kd t = TK_RIGHT -> gkeyword TK_OUTER o ls -> kd j = TK_JOIN -> gjoin JOIN_RIGHT (t :: ls ++ [j])
| gjoin_full t o ls j : kd t = TK_FULL -> gkeyword TK_OUTER o ls -> kd j = TK_JOIN -> gjoin JOIN_FULL (t :: ls ++ [j]).
(** The condition of a join with the source before it. *)
Inductive gcond (prev : tdb_src) (jk : tdb_join_kind) (mk : src_fun) : tdb_src -> list lexeme -> Prop :=
| gcond_none : gcond prev jk mk (mk jk None [] false) []
| gcond_on t e ls : kd t = TK_ON -> E 0 e ls -> gcond prev jk mk (mk jk (Some e) [] false) (t :: ls)
| gcond_using t a cols ls b :
    kd t = TK_USING -> kd a = TK_LP -> sep gname cols ls -> kd b = TK_RP ->
    gcond prev jk mk (mk jk (using_cond (src_ref prev) (src_ref (mk jk None [] false)) cols) cols false) (t :: a :: ls ++ [b]).
Inductive gjoins : tdb_src -> list tdb_src -> list lexeme -> Prop :=
| gjoins_nil prev : gjoins prev [] []
| gjoins_cons prev jk ls1 mk ls2 s ls3 l ls :
    gjoin jk ls1 -> gsource mk ls2 -> gcond prev jk mk s ls3 -> gjoins s l ls ->
    gjoins prev (s :: l) (ls1 ++ ls2 ++ ls3 ++ ls).
Inductive gfrom : list tdb_src -> list lexeme -> Prop :=
| gfrom_none : gfrom [] []
| gfrom_some t mk ls l ls' :
    kd t = TK_FROM -> gsource mk ls -> gjoins (mk JOIN_NONE None [] false) l ls' ->
    gfrom (mk JOIN_NONE None [] false :: l) (t :: ls ++ ls').
Inductive ggroup : list tdb_expr -> option tdb_expr -> list lexeme -> Prop :=
| ggroup_none : ggroup [] None []
| ggroup_some t b l ls h ls' :
    kd t = TK_GROUP -> kd b = TK_BY -> sep (E 0) l ls -> gopt TK_HAVING 0 h ls' -> ggroup l h (t :: b :: ls ++ ls').
Inductive gorder : list (tdb_expr * bool) -> list lexeme -> Prop :=
| gorder_none : gorder [] []
| gorder_some t b l ls : kd t = TK_ORDER -> kd b = TK_BY -> sep gordered l ls -> gorder l (t :: b :: ls).
Inductive glimit : option tdb_expr -> option tdb_expr -> list lexeme -> Prop :=
| glimit_none : glimit None None []
| glimit_some t e ls o ls' : kd t = TK_LIMIT -> E 0 e ls -> gopt TK_OFFSET 0 o ls' -> glimit (Some e) o (t :: ls ++ ls')
| glimit_comma t o ls c e ls' :
    kd t = TK_LIMIT -> E 0 o ls -> kd c = TK_COMMA -> E 0 e ls' -> glimit (Some e) (Some o) (t :: ls ++ c :: ls').
Inductive gsetop : option (tdb_token_kind * bool * tdb_select) -> list lexeme -> Prop :=
| gsetop_none : gsetop None []
| gsetop_union t all lsa q ls :
    kd t = TK_UNION -> gkeyword TK_ALL all lsa -> Q q ls -> gsetop (Some (TK_UNION, all, q)) (t :: lsa ++ ls)
| gsetop_other t q ls :
    kd t = TK_EXCEPT \/ kd t = TK_INTERSECT -> Q q ls -> gsetop (Some (kd t, false, q)) (t :: ls).
Inductive gselectF : tdb_select -> list lexeme -> Prop :=
| GS_select s d lsd cols lsc from lsf w lsw g h lsg o lso l off lsl so lss :
    kd s = TK_SELECT -> gkeyword TK_DISTINCT d lsd -> sep gcol cols lsc -> gfrom from lsf -> gopt TK_WHERE 0 w lsw ->
    ggroup g h lsg -> gorder o lso -> glimit l off lsl -> gsetop so lss ->
    gselectF (mk_select None d cols from w g h o l off so)
      (s :: lsd ++ lsc ++ lsf ++ lsw ++ lsg ++ lso ++ lsl ++ lss).
End Grammar.

Fixpoint gexpr (n : nat) (m : Z) (e : tdb_expr) (ls : list lexeme) : Prop :=
  match n with O => False | S n => gexprF (gexpr n) (gunary n) (gselect n) m e ls end
with gunary (n : nat) (e : tdb_expr) (ls : list lexeme) : Prop :=
  match n with O => False | S n => gunaryF (gexpr n) (gunary n) (gselect n) e ls end
with gselect (n : nat) (q : tdb_select) (ls : list lexeme) : Prop :=
  match n with O => False | S n => gselectF (gexpr n) (gselect n) q ls end.

(** *** Statements *)

(** A parenthesised list of names, or nothing. *)
Inductive gcols : list name -> list lexeme -> Prop :=
| gcols_none : gcols [] []
| gcols_some a l ls b : kd a = TK_LP -> sep gname l ls -> kd b = TK_RP -> gcols l (a :: ls ++ [b]).
Inductive grow (n : nat) : list tdb_expr -> list lexeme -> Prop :=
| grow_row a l ls b : kd a = TK_LP -> gargs (gexpr n) l ls -> kd b = TK_RP -> grow n l (a :: ls ++ [b]).
Inductive gset (n : nat) : name * tdb_expr -> list lexeme -> Prop :=
| gset_item t q e ls : kd t = TK_ID -> kd q = TK_EQ -> gexpr n 0 e ls -> gset n (tx t, e) (t :: q :: ls).
(** INSERT of rows or of a query, UPDATE, DELETE and SELECT. *)
Inductive gstmt (n : nat) : tdb_ast_stmt -> list lexeme -> Prop :=
| GT_select q ls : gselect n q ls -> gstmt n (ST_SELECT q) ls
| GT_insert i o t cols lsc v rows ls :
    kd i = TK_INSERT -> kd o = TK_INTO -> kd t = TK_ID -> gcols cols lsc -> kd v = TK_VALUES -> sep (grow n) rows ls ->
    gstmt n (ST_INSERT (tx t) cols (inl rows) TDB_OR_ABORT None []) (i :: o :: t :: lsc ++ v :: ls)
| GT_insert_select i o t cols lsc q ls :
    kd i = TK_INSERT -> kd o = TK_INTO -> kd t = TK_ID -> gcols cols lsc -> gselect n q ls ->
    gstmt n (ST_INSERT (tx t) cols (inr q) TDB_OR_ABORT None []) (i :: o :: t :: lsc ++ ls)
| GT_update u t s sets ls w lsw :
    kd u = TK_UPDATE -> kd t = TK_ID -> kd s = TK_SET -> sep (gset n) sets ls -> gopt (gexpr n) TK_WHERE 0 w lsw ->
    gstmt n (ST_UPDATE (tx t) sets w []) (u :: t :: s :: ls ++ lsw)
| GT_delete d f t w lsw :
    kd d = TK_DELETE -> kd f = TK_FROM -> kd t = TK_ID -> gopt (gexpr n) TK_WHERE 0 w lsw ->
    gstmt n (ST_DELETE (tx t) w []) (d :: f :: t :: lsw).

(** ** What starts and what ends a phrase *)

Definition ustart (k : tdb_token_kind) : bool :=
  existsb (tk_eqb k) [TK_MINUS; TK_PLUS; TK_BITNOT; TK_INTEGER; TK_STRING; TK_NULL; TK_TRUE; TK_FALSE; TK_STAR; TK_ID; TK_LP;
    TK_EXISTS; TK_CASE].
Definition estart (k : tdb_token_kind) : bool := ustart k || tk_eqb k TK_NOT.
(** An operand is not followed by what would make it a call or a qualified
    name. *)
Definition fol_u (rest : list lexeme) : Prop :=
  tk_eqb (hkind rest) TK_LP = false /\ tk_eqb (hkind rest) TK_DOT = false /\ hid "OVER" rest = false.
Definition follow (m : Z) (rest : list lexeme) : Prop :=
  fol_u rest /\ tk_eqb (hkind rest) TK_NOT = false /\ (m <= 4 -> tk_eqb (hkind rest) TK_ESCAPE = false)
  /\ binprec (hkind rest) <= m.
(** The loop of [parse_expr m] ends here. *)
Definition stops (m : Z) (rest : list lexeme) : Prop :=
  follow m rest /\ (binprec (hkind rest) < m \/ binprec (hkind rest) = 0).
(** Kinds that end any expression. *)
Definition endk (k : tdb_token_kind) : bool :=
  (binprec k =? 0) && negb (existsb (tk_eqb k) [TK_ID; TK_LP; TK_DOT; TK_NOT; TK_ESCAPE]).

Lemma kind_differs (f : tdb_token_kind -> bool) k x : f k = true -> f x = false -> tk_eqb k x = false.
Proof. intros H1 H2. destruct (tk_eqb k x) eqn:E; [|done]. apply tk_eqb_spec in E. congruence. Qed.
Lemma hid_kind kw ls : tk_eqb (hkind ls) TK_ID = false -> hid kw ls = false.
Proof. destruct ls as [|l ls]; [done|]. cbn. by intros ->. Qed.
Lemma endk_stops m rest : 0 <= m -> endk (hkind rest) = true -> stops m rest.
Proof.
  intros Hm H. assert (binprec (hkind rest) = 0) as Hb by (unfold endk in H; apply andb_true_iff in H as [H _]; lia).
  assert (forall x, endk x = false -> tk_eqb (hkind rest) x = false) as Hx by (intros x; by apply kind_differs).
  split; [|by right]. split; [split; [by apply Hx|split; [by apply Hx|apply hid_kind; by apply Hx]]|].
  split; [by apply Hx|]. split; [intros _; by apply Hx|lia].
Qed.
Lemma stops_follow m m' rest : m' <= m -> stops m' rest -> follow m rest.
Proof. intros Hm [(Hu & Hn & He & Hb) _]. split; [done|]. split; [done|]. split; [intros H; apply He; lia|lia]. Qed.

Section Starts.
Context (E : Z -> tdb_expr -> list lexeme -> Prop) (U : tdb_expr -> list lexeme -> Prop) (Q : tdb_select -> list lexeme -> Prop).
Hypothesis HE : forall m e ls, E m e ls -> forall rest, estart (hkind (ls ++ rest)) = true.
Hypothesis HU : forall e ls, U e ls -> forall rest, ustart (hkind (ls ++ rest)) = true.
Lemma gunaryF_start e ls : gunaryF E U Q e ls -> forall rest, ustart (hkind (ls ++ rest)) = true.
Proof using.
  intros H rest. destruct H; cbn [app hkind];
    repeat match goal with H : kd ?l = _ |- context [kd ?l] => rewrite H end; try reflexivity.
  unfold prefix_op in *. unfold ustart. cbn [existsb]. by destruct (tk_eqb (kd t) TK_MINUS), (tk_eqb (kd t) TK_PLUS), (tk_eqb (kd t) TK_BITNOT).
Qed.
Lemma gexprF_start m e ls : gexprF E U Q m e ls -> forall rest, estart (hkind (ls ++ rest)) = true.
Proof using HE HU.
  assert (forall neg e ls, gleft E U neg e ls -> forall rest, estart (hkind (ls ++ rest)) = true) as HL.
  { intros neg e0 ls0 [e1 ls1 He|e1 ls1 t0 He _] rest; [by eapply HE|]. rewrite <- app_assoc. unfold estart. by erewrite HU. }
  intros H rest. destruct H; rewrite <- ?app_assoc; try (by eapply HE); try (by eapply HL).
  - unfold estart. by erewrite HU.
  - cbn [app hkind]. match goal with H : kd _ = _ |- _ => rewrite H end. reflexivity.
Qed.
End Starts.
Lemma gexpr_start n : (forall m e ls, gexpr n m e ls -> forall rest, estart (hkind (ls ++ rest)) = true)
  /\ (forall e ls, gunary n e ls -> forall rest, ustart (hkind (ls ++ rest)) = true).
Proof.
  induction n as [|n [IHE IHU]]; [done|]. cbn [gexpr gunary].
  split; [intros m e ls; by apply gexprF_start|intros e ls; apply gunaryF_start].
Qed.
Lemma gselect_start n q ls : gselect n q ls -> forall rest, hkind (ls ++ rest) = TK_SELECT.
Proof. destruct n as [|n]; [done|]. intros [] rest. done. Qed.

(** ** The parser reads the grammar *)

(** [simp_tk]: the kinds known from the hypotheses, and comparisons of
    constructors. *)
Ltac simp_tk :=
  repeat match goal with
  | H : kd ?l = _ |- context [kd ?l] => rewrite H
  | |- context [tk_eqb ?a ?b] =>
      is_constructor a; is_constructor b;
      let v := eval vm_compute in (tk_eqb a b) in
      change (tk_eqb a b) with v; cbn [orb andb negb]
  end.

(** The clauses of SELECT in their order; what ends a SELECT comes last. *)
Definition crank (k : tdb_token_kind) : Z :=
  match k with
  | TK_FROM => 1 | TK_WHERE => 2 | TK_GROUP => 3 | TK_HAVING => 4 | TK_ORDER => 5 | TK_LIMIT => 6
  | TK_UNION | TK_EXCEPT | TK_INTERSECT => 7
  | TK_RP | TK_EOF | TK_SEMI => 8
  | _ => 0
  end.
Lemma crank_endk k : 0 < crank k -> endk k = true.
Proof. by destruct k. Qed.
Lemma crank_differs k x : crank x < crank k -> tk_eqb k x = false.
Proof. intros H. destruct (tk_eqb k x) eqn:E; [|done]. apply tk_eqb_spec in E as ->. lia. Qed.
(** What may follow a table without an alias. *)
Definition srcend (k : tdb_token_kind) : bool := endk k && negb (tk_eqb k TK_AS) && negb (tk_eqb k TK_FOR).
Lemma crank_srcend k : 0 < crank k -> srcend k = true.
Proof. by destruct k. Qed.

Ltac crk := first [apply crank_differs|apply crank_endk|apply crank_srcend]; cbn [app crank]; lia.

Section Complete.
Context (z : list Z) (Hz : blen z < 2 ^ 31).
Abbreviation reads := (ParserSpec.reads z).
Abbreviation before := (ParserSpec.before z).

Definition reads_unary (n : nat) : Prop := forall e ls, gunary n e ls ->
  forall K rest, (3 * length ls <= K)%nat -> fol_u rest -> reads (parse_unary K) ls rest e.
(** [parse_expr] gets to its loop with the expression as left operand. *)
Definition reads_expr (n : nat) : Prop := forall m e ls, gexpr n m e ls ->
  forall K rest m', (3 * length ls <= K)%nat -> m' <= m -> follow m rest -> forall p, before p (ls ++ rest) ->
  exists p' F, parse_expr (S K) m' p = expr_loop (parse_expr K) (parse_unary K) (parse_select K) F m' e p'
    /\ before p' rest /\ (length rest < F)%nat.
Definition sel_end (k : tdb_token_kind) : bool := existsb (tk_eqb k) [TK_RP; TK_EOF; TK_SEMI].
Definition reads_select (n : nat) : Prop := forall q ls, gselect n q ls ->
  forall K rest, (3 * length ls + 2 <= K)%nat -> sel_end (hkind rest) = true -> reads (parse_select K) ls rest q.

Lemma reads_bind' {A B} (m : M A) (f : A -> M B) l1 l2 rest x y ls :
  ls = l1 ++ l2 -> reads m l1 (l2 ++ rest) x -> reads (f x) l2 rest y -> reads (m ≫= f) ls rest y.
Proof using. intros ->. apply reads_bind. Qed.
Lemma reads_ret_bind {A B} (x : A) (f : A -> M B) ls rest y : reads (f x) ls rest y -> reads (mret x ≫= f) ls rest y.
Proof using. done. Qed.
(** One step of a computation whose next lexeme is known. *)
Ltac step :=
  lazymatch goal with
  | |- ParserSpec.reads _ (mbind _ advance) (_ :: _) _ _ => apply (reads_advance z Hz)
  | |- ParserSpec.reads _ (mbind _ dup_tok) (_ :: _) _ _ => apply reads_dup_tok
  | |- ParserSpec.reads _ (mbind _ get_err) _ _ _ => apply reads_get_err
  | |- ParserSpec.reads _ (mbind _ (id_is _)) _ _ _ => apply reads_id_is
  | |- ParserSpec.reads _ (mbind _ kind) _ _ _ => apply reads_kind
  | |- ParserSpec.reads _ (mbind _ (expect _ _)) (_ :: _) _ _ => apply (reads_expect z Hz); [first [assumption|done]|]
  | |- ParserSpec.reads _ (mbind _ (accept ?k)) (?l :: _) _ _ =>
      first [apply (reads_accept z Hz); [assumption|] | apply reads_accept_no; [cbn [app hkind]; simp_tk; reflexivity|]]
  | |- ParserSpec.reads _ (mbind _ (mret _)) _ _ _ => apply reads_ret_bind
  | |- ParserSpec.reads _ (mret _) [] _ _ => apply reads_ret
  end.
Ltac steps := repeat (step; cbn beta iota zeta; cbn [app hkind]; simp_tk; cbn beta iota).

Lemma expr_loop_stops F E0 U0 Q0 m e p rest :
  before p rest -> stops m rest -> (0 < F)%nat -> expr_loop E0 U0 Q0 F m e p = Some (p, e).
Proof using.
  intros Hp [(_ & Hn & _) Hs] HF. destruct F as [|F]; [lia|]. cbn [expr_loop]. unfold mbind, M_bind, get_err. rewrite (bf_err _ _ _ Hp).
  unfold next_op. rewrite (before_kind _ _ _ Hp), Hn. cbv zeta. cbn beta iota.
  assert ((binprec (hkind rest) <? m) || (binprec (hkind rest) =? 0) = true) as -> by lia. done.
Qed.
Lemma expr_reads n m e ls K rest m' :
  reads_expr n -> gexpr n m e ls -> m' <= m -> stops m' rest -> (3 * length ls + 1 <= K)%nat -> reads (parse_expr K m') ls rest e.
Proof using.
  intros H He Hm Hs HK p Hp. destruct K as [|K]; [lia|].
  destruct (H m e ls He K rest m' ltac:(lia) Hm (stops_follow _ _ _ Hm Hs) p Hp) as (p' & F & Er & Hp' & HF).
  exists p'. split; [|done]. rewrite Er. eapply expr_loop_stops; [done..|lia].
Qed.

Lemma sep_reads {A} (R : A -> list lexeme -> Prop) (item : M A) chk l ls rest :
  sep R l ls ->
  (forall x lsx r, R x lsx -> (length lsx <= length ls)%nat -> (hkind r = TK_COMMA \/ r = rest) -> reads item lsx r x) ->
  tk_eqb (hkind rest) TK_COMMA = false -> reads (comma_list chk item) ls rest l.
Proof using Hz.
  intros Hsep Hitem Hr. apply reads_with_fuel. intros fuel. revert fuel.
  induction Hsep as [x ls Hx|x ls c l ls' Hx Hc Hsep IH]; intros fuel Hf; (destruct fuel as [|fuel]; [lia|]); cbn [comma_loop].
  - apply (reads_bind' _ _ ls [] rest x); [by rewrite app_nil_r|apply Hitem; [done|lia|by right]|].
    apply reads_accept_no; [done|]. step. cbn [andb]. step.
  - eapply reads_bind'; [reflexivity|apply Hitem; [done|rewrite length_app; lia|left; done]|].
    step. step. rewrite andb_false_r. cbn [andb negb].
    eapply (reads_bind' _ _ ls' []); [by rewrite app_nil_r| |step].
    apply IH; [|rewrite <- ?app_assoc in *; rewrite ?length_app in *; cbn [length app] in *; rewrite ?length_app in *; lia].
    intros x' lsx r Hx' Hl. apply Hitem; [done|]. rewrite length_app. cbn [length]. lia.
Qed.
Lemma args_reads n l ls rest K :
  reads_expr n -> sep (gexpr n 0) l ls -> endk (hkind rest) = true -> tk_eqb (hkind rest) TK_COMMA = false ->
  (3 * length ls + 1 <= K)%nat -> reads (expr_list (parse_expr K)) ls rest l.
Proof using Hz.
  intros HE Hsep He Hc HK. unfold expr_list. eapply sep_reads; [exact Hsep| |done].
  intros x lsx r Hx Hl Hr. apply (expr_reads n 0); [done|done|lia| |lia]. apply endk_stops; [lia|].
  destruct Hr as [->| ->]; done.
Qed.
Lemma gname_reads x ls rest what : gname x ls -> reads (parse_name what) ls rest x.
Proof using Hz. intros []. unfold parse_name. repeat step. Qed.
Lemma names_reads l ls rest : sep gname l ls -> tk_eqb (hkind rest) TK_COMMA = false -> reads parse_name_list ls rest l.
Proof using Hz.
  intros Hsep Hc. unfold parse_name_list. eapply sep_reads; [exact Hsep| |done]. intros x lsx r Hx _ _. by apply (gname_reads _ _ _ "expected name").
Qed.
(** Lengths of phrases. *)
Ltac len := repeat (progress (rewrite ?length_app in *; cbn [length] in *)); lia.
Ltac byparts ls1 :=
  eapply (reads_bind' _ _ ls1); [first [reflexivity|symmetry; apply app_nil_r|rewrite <- ?app_assoc; reflexivity]| |].

Section Step.
Context (n : nat) (HE : reads_expr n) (HU : reads_unary n) (HQ : reads_select n).

Lemma expr_at m e ls K rest :
  gexpr n m e ls -> 0 <= m -> endk (hkind rest) = true -> (3 * length ls + 1 <= K)%nat -> reads (parse_expr K m) ls rest e.
Proof using HE. intros He Hm Hr HK. apply (expr_reads n m); [done|done|lia|by apply endk_stops|done]. Qed.
Lemma estart_differs m e ls rest x : gexpr n m e ls -> estart x = false -> tk_eqb (hkind (ls ++ rest)) x = false.
Proof using. intros He Hx. eapply kind_differs; [|exact Hx]. by eapply (proj1 (gexpr_start n)). Qed.
Lemma ustart_differs e ls rest x : gunary n e ls -> ustart x = false -> tk_eqb (hkind (ls ++ rest)) x = false.
Proof using. intros He Hx. eapply kind_differs; [|exact Hx]. by eapply (proj2 (gexpr_start n)). Qed.
Lemma sep_start l ls rest x : sep (gexpr n 0) l ls -> estart x = false -> tk_eqb (hkind (ls ++ rest)) x = false.
Proof using. intros [x0 ls0 He|x0 ls0 c l0 ls' He _ _] Hx; rewrite <- ?app_assoc; by eapply estart_differs. Qed.

Lemma gopt_reads k m o ls rest K :
  gopt (gexpr n) k m o ls -> m = 0 -> tk_eqb (hkind rest) k = false -> endk (hkind rest) = true -> (3 * length ls <= K)%nat ->
  reads (opt_expr (parse_expr K) k) ls rest o.
Proof using HE Hz.
  intros Ho -> Hk Hr HK. unfold opt_expr. destruct Ho as [|t e ls Ht He].
  - apply reads_accept_no; [done|]. step.
  - step. byparts ls; [apply expr_at; [done|lia|done|len]|step].
Qed.
Lemma whens_reads l ls rest K fuel :
  gwhens (gexpr n) l ls -> tk_eqb (hkind rest) TK_WHEN = false -> endk (hkind rest) = true -> (3 * length ls <= K)%nat ->
  (length ls < fuel)%nat -> reads (when_loop (parse_expr K) fuel) ls rest l.
Proof using HE Hz.
  intros Hw Hr Hr2. revert fuel. induction Hw as [|w e1 ls1 t e2 ls2 l ls Hw He1 Ht He2 Hws IH]; intros fuel HK Hf;
    (destruct fuel as [|fuel]; [lia|]); cbn [when_loop].
  - apply reads_accept_no; [done|]. step.
  - step. byparts ls1; [apply expr_at; [done|lia|cbn [app hkind]; by rewrite Ht|len]|]. step.
    byparts ls2; [apply expr_at; [done|lia| |len]|].
    + inversion Hws; subst; [done|]. cbn [app hkind]. simp_tk. done.
    + byparts ls; [apply IH; len|step].
Qed.
Lemma gargs_reads (l : list tdb_expr) ls b rest K :
  gargs (gexpr n) l ls -> kd b = TK_RP -> (3 * length ls + 1 <= K)%nat ->
  reads (k ← kind; if tk_eqb k TK_RP then mret [] else expr_list (parse_expr K)) ls (b :: rest) l.
Proof using HE Hz.
  intros Hl Hb HK. step. destruct Hl as [|l ls Hl].
  - cbn [app hkind]. simp_tk. step.
  - rewrite (sep_start _ _ _ TK_RP Hl eq_refl). apply (args_reads n); try done; cbn [hkind]; by rewrite Hb.
Qed.
Lemma bind_assoc_reads {A B C} (m : M A) (f : A -> M B) (g : B -> M C) ls rest y :
  reads ((m ≫= f) ≫= g) ls rest y -> reads (m ≫= fun x => f x ≫= g) ls rest y.
Proof using.
  intros H p Hp. destruct (H p Hp) as (p' & E & Hp'). exists p'. split; [|done]. revert E. unfold mbind, M_bind. by destruct (m p) as [[]|].
Qed.
Lemma gkeyword_accept {B} k b ls l rest (f : bool -> M B) y :
  gkeyword k b ls -> tk_eqb (hkind (l ++ rest)) k = false -> reads (f b) l rest y -> reads (accept k ≫= f) (ls ++ l) rest y.
Proof using Hz. intros [|t Ht] Hk Hf; cbn [app]; [by apply reads_accept_no|by step]. Qed.

Lemma primary_step e ls K rest :
  gunaryF (gexpr n) (gunary n) (gselect n) e ls -> (3 * length ls <= S K)%nat -> fol_u rest ->
  (forall t e' ls', ls = t :: ls' -> e = EX_UNARY (kd t) e' -> prefix_op (kd t) = true -> False) ->
  reads (parse_primary (parse_expr K) (parse_select K)) ls rest e.
Proof using HE HQ Hz.
  intros H HK (Hf1 & Hf2 & Hf3) Hnp. unfold parse_primary. destruct H as [t e ls Ht He|v|s Hs|t Ht|t Ht|t Ht|t Ht|t Ht|t d c Ht Hd Hc|t d c Ht Hd Hc
    |a e ls b Ha He Hb|a q ls b Ha Hq Hb|x a q ls b Hx Ha Hq Hb|t a d lsd args ls b Ht Ha Hd Hargs Hb
    |c base lsb whens lsw els lse en Hc Hbase Hw Hw0 Hels Hen].
  1: by destruct (Hnp t e ls eq_refl eq_refl Ht).
  all: apply reads_cur; intros tk Ek Ev; rewrite Ek; clear Ek; try (change (kd (LInt v)) with TK_INTEGER); try (change (kd (LText s)) with TK_STRING); simp_tk; cbn beta iota.
  - rewrite Ev. step. step.
  - step. step. unfold tx, text_value. cbn [lexeme_view fst snd]. rewrite decode_escape.
    assert ((tdb_value_set_text ok_alloc s (-1) false).2 = VText s) as ->; [|step].
    unfold tdb_value_set_text, value_set_bytes. cbn. rewrite bsub_all; [done|]. unfold strlen. rewrite cstr_nul_free by done.
    pose proof (blen_nonneg s). by destruct (Z.ltb_spec (blen s) 0); [lia|].
  - repeat step.
  - repeat step.
  - repeat step.
  - repeat step.
  - unfold parse_id. steps. rewrite Hf2, Hf1. step.
  - unfold parse_id. steps.
  - unfold parse_id. steps.
  - unfold parse_paren. step. step. rewrite <- app_assoc, (estart_differs _ _ _ _ TK_SELECT He eq_refl).
    byparts ls; [apply expr_at; [done|lia|cbn [app hkind]; by rewrite Hb|len]|]. steps.
  - unfold parse_paren. step. step. rewrite <- app_assoc, (gselect_start n q ls Hq). simp_tk.
    byparts ls; [apply HQ; [done|len|cbn [app hkind]; by rewrite Hb]|]. steps.
  - unfold parse_exists. step. step. byparts ls; [apply HQ; [done|len|cbn [app hkind]; by rewrite Hb]|]. steps.
  - unfold parse_id. steps. unfold parse_call_args. step.
    apply (gkeyword_accept _ _ _ _ _ _ _ Hd).
    { destruct Hargs as [|l ls Hl]; [cbn [app hkind]; by simp_tk|]. rewrite <- app_assoc. by apply (sep_start _ _ _ TK_DISTINCT Hl). }
    apply bind_assoc_reads. byparts ls; [by apply gargs_reads; [..|len]|]. steps. rewrite Hf3. step.
  - unfold parse_case. step. apply bind_assoc_reads.
    assert (forall r, tk_eqb (hkind (lsw ++ r)) TK_WHEN = true /\ endk (hkind (lsw ++ r)) = true) as Hwh.
    { intros r. inversion Hw; subst; [done|]. cbn [app hkind]. by simp_tk. }
    byparts lsb.
    + destruct Hbase as [|e0 lsb He0]; step; rewrite <- ?app_assoc.
      * cbn [app]. rewrite (proj1 (Hwh _)). step.
      * rewrite (estart_differs _ _ _ _ TK_WHEN He0 eq_refl). byparts lsb; [|step].
        apply expr_at; [done|lia|rewrite <- ?app_assoc; apply Hwh|len].
    + byparts lsw.
      * apply reads_with_fuel. intros fuel Hf. inversion Hels; subst; (apply whens_reads; [done|..|len|len]);
          cbn [app hkind]; by simp_tk.
      * byparts lse; [|steps]. eapply gopt_reads; [done|done|cbn [app hkind]; by simp_tk|cbn [app hkind]; by simp_tk|len].
Qed.

Lemma unary_step : reads_unary (S n).
Proof using HE HU HQ Hz.
  intros e ls H K rest HK Hf. cbn [gunary] in H. destruct K as [|K]; [destruct H; cbn in HK; lia|]. cbn [parse_unary]. unfold unary_body.
  apply reads_kind. pose proof (gunaryF_start _ _ _ _ _ H rest) as Hst. destruct (prefix_op (hkind (ls ++ rest))) eqn:Ep.
  - destruct H as [t e ls Ht He| | | | | | | | | | | | | | ]; cbn [app hkind] in Ep; try (exfalso; revert Ep; first [reflexivity|simp_tk; discriminate|discriminate]).
    cbn [app hkind]. unfold prefix_op in Ht. rewrite Ht. step. byparts ls; [apply HU; [done|len|done]|step].
  - unfold prefix_op in Ep. rewrite Ep. rewrite (kind_differs ustart _ TK_NOT Hst eq_refl). apply primary_step; [done|done|done|].
    intros t e' ls' -> _ Hp. cbn [app hkind] in Ep. unfold prefix_op in Hp. congruence.
Qed.

(** *** Operators *)

Abbreviation loop K := (expr_loop (parse_expr K) (parse_unary K) (parse_select K)).
(** The state of [parse_expr] when it gets to its loop with [e]. *)
Definition gets_to (K : nat) (m' : Z) (p : P) (e : tdb_expr) (rest : list lexeme) : Prop :=
  exists p' F, parse_expr (S K) m' p = loop K F m' e p' /\ before p' rest /\ (length rest < F)%nat.

Lemma via_unary K m' p e ls rest :
  reads (parse_unary K) ls rest e -> before p (ls ++ rest) -> gets_to K m' p e rest.
Proof using.
  intros H Hp. destruct (H p Hp) as (p1 & E1 & Hp1). exists p1, (S (bytes_left p1)). split; [|split; [done|by eapply before_fuel]].
  cbn [parse_expr]. unfold expr_body, mbind, M_bind. by rewrite E1.
Qed.
(** One operator: [rest'] starts with it, behind NOT when [neg]. *)
Lemma via_op K m' p l op neg (rest' : list lexeme) p1 ls rest e F :
  parse_expr (S K) m' p = loop K F m' l p1 -> p_err p1 = false -> (exists p2, next_op p1 = Some (p2, Some (op, neg)) /\ before p2 (ls ++ rest)) ->
  (length rest' < F)%nat -> (length rest < length rest')%nat -> m' <= binprec op -> 0 < binprec op ->
  reads (parse_rest (parse_expr K) (parse_unary K) (parse_select K) op (binprec op) neg l) ls rest e ->
  gets_to K m' p e rest.
Proof using.
  intros E He (p2 & E2 & Hp2) HF Hl Hm Hb H. destruct F as [|F]; [lia|]. destruct (H p2 Hp2) as (p3 & E3 & Hp3).
  exists p3, F. split; [|split; [done|lia]]. rewrite E. cbn [expr_loop]. unfold mbind, M_bind, get_err. rewrite He, E2. cbv zeta. cbn beta iota.
  assert ((binprec op <? m') || (binprec op =? 0) = false) as -> by lia. by rewrite E3.
Qed.
(** A left operand of level [m] and an operator without NOT. *)
Lemma via_left K m m' p l ls t ls2 rest e :
  gexpr n m l ls -> before p (ls ++ t :: ls2 ++ rest) -> (3 * length ls <= K)%nat -> m' <= binprec (kd t) <= m -> 0 < binprec (kd t) -> m' <= m ->
  reads (parse_rest (parse_expr K) (parse_unary K) (parse_select K) (kd t) (binprec (kd t)) false l) (t :: ls2) rest e ->
  gets_to K m' p e rest.
Proof using HE.
  intros Hl Hp HK Hm Hb Hm' H.
  assert (forall x, binprec x = 0 -> tk_eqb (kd t) x = false) as Hx.
  { intros x Hx. destruct (tk_eqb (kd t) x) eqn:Ex; [|done]. apply tk_eqb_spec in Ex. rewrite Ex in Hb. lia. }
  assert (follow m (t :: ls2 ++ rest)) as Hf.
  { split; [split; [by apply Hx|split; [by apply Hx|apply hid_kind; by apply Hx]]|]. split; [by apply Hx|]. split; [intros _; by apply Hx|cbn; lia]. }
  destruct (HE m l ls Hl K _ m' HK Hm' Hf p Hp) as (p1 & F & E1 & Hp1 & HF).
  eapply (via_op K m' p l (kd t) false); [exact E1|apply (bf_err _ _ _ Hp1)| |exact HF|len|lia|lia|exact H].
  exists p1. split; [|done]. unfold next_op. rewrite (before_kind _ _ _ Hp1). cbn [hkind]. by rewrite (Hx TK_NOT eq_refl).
Qed.
Definition neg_op (k : tdb_token_kind) : bool := tk_eqb k TK_IN || tk_eqb k TK_LIKE || tk_eqb k TK_GLOB || tk_eqb k TK_BETWEEN.
Lemma neg_op_prec k : neg_op k = true -> binprec k = 4.
Proof using. by destruct k. Qed.
Lemma via_gleft K m' p neg l ls t ls2 rest e :
  gleft (gexpr n) (gunary n) neg l ls -> before p (ls ++ t :: ls2 ++ rest) -> (3 * length ls <= K)%nat -> m' <= 4 -> neg_op (kd t) = true ->
  reads (parse_rest (parse_expr K) (parse_unary K) (parse_select K) (kd t) 4 neg l) (t :: ls2) rest e ->
  gets_to K m' p e rest.
Proof using HE HU Hz.
  intros Hl Hp HK Hm Ho H. pose proof (neg_op_prec _ Ho) as Hpr. rewrite <- Hpr in H. destruct Hl as [l ls Hl|l ls nt Hl Hnt].
  - eapply via_left; [exact Hl|exact Hp|done|lia|lia|lia|done].
  - rewrite <- app_assoc in Hp. cbn [app] in Hp. pose proof (HU l ls Hl K (nt :: t :: ls2 ++ rest) ltac:(len)) as HU'.
    assert (fol_u (nt :: t :: ls2 ++ rest)) as Hf by (unfold fol_u; cbn [hkind hid]; rewrite Hnt; done).
    destruct (via_unary K m' p l ls _ (HU' Hf) Hp) as (p1 & F & E1 & Hp1 & HF).
    eapply (via_op K m' p l (kd t) true); [exact E1|apply (bf_err _ _ _ Hp1)| |exact HF|len|lia|lia|exact H].
    destruct (before_advance z Hz _ _ _ Hp1) as (p2 & E2 & Hp2). exists p2. split; [|done]. unfold next_op.
    rewrite (before_kind _ _ _ Hp1). cbn [hkind]. rewrite Hnt. change (tk_eqb TK_NOT TK_NOT) with true. cbn iota. rewrite E2. cbv zeta.
    rewrite (before_kind _ _ _ Hp2). cbn [hkind]. unfold neg_op in Ho. by rewrite Ho.
Qed.

Lemma expr_step : reads_expr (S n).
Proof using HE HU HQ Hz.
  intros m e ls H K rest m' HK Hm (Hfu & Hfn & Hfe & Hfb) p Hp. cbn [gexpr] in H. change (gets_to K m' p e rest).
  assert (forall q, m <= q -> q <> 3 -> stops (q + 1) rest) as Hst.
  { intros q Hq _. split; [split; [done|]; split; [done|]; split; [intros; apply Hfe; lia|lia]|left; lia]. }
  destruct H as [e ls He|t e ls Hm3 Ht He|l ls t lv r ls' Ho Hmb Hl Hr|l ls t neg lsn r ls' Hm4 Hl Ht Hn Hr
    |neg l ls t r ls' esc lse Hm4 Hl Ht Hr Hesc|neg l ls t lo ls1 a hi ls2 Hm4 Hl Ht Hlo Ha Hhi
    |neg l ls t a args ls' b Hm4 Hl Ht Ha Hargs Hb|neg l ls t a q ls' b Hm4 Hl Ht Ha Hq Hb].
  - apply (via_unary _ _ _ _ ls); [by apply HU|done].
  - apply (via_unary _ _ _ _ (t :: ls)); [|done]. destruct K as [|K]; [cbn in HK; lia|]. cbn [parse_unary]. unfold unary_body.
    steps. byparts ls; [|step]. apply (expr_reads n 3); [done|done|lia| |len].
    cbn [app]. assert (binprec (hkind rest) <> 3) by (by destruct (hkind rest)).
    split; [split; [done|]; split; [done|]; split; [intros; apply Hfe; lia|lia]|left; lia].
  - rewrite <- app_assoc in Hp. cbn [app] in Hp. apply op_level_prec in Ho as (<- & Ho1 & Ho2).
    eapply via_left; [exact Hl|exact Hp|len|lia|lia|lia|].
    cbn [existsb] in Ho2. rewrite !orb_false_iff in Ho2. destruct Ho2 as (N1 & N2 & N3 & N4 & N5 & _).
    unfold parse_rest. rewrite N1, N2, N3, N4, N5. cbn [orb]. unfold parse_binary. step. byparts ls'; [|step].
    apply (expr_reads n (binprec (kd t) + 1)); [done|done|lia| |len]. apply Hst; [lia|]. by destruct (kd t).
  - rewrite <- app_assoc in Hp. cbn [app] in Hp. rewrite <- app_assoc in Hp.
    eapply (via_left K 4 m' p l ls t (lsn ++ ls')); [exact Hl|by rewrite <- app_assoc|len|rewrite Ht; cbn; lia|rewrite Ht; cbn; lia|lia|].
    rewrite Ht. unfold parse_rest. simp_tk. cbn iota. unfold parse_is. step.
    apply (gkeyword_accept _ _ _ _ _ _ _ Hn); [by eapply ustart_differs|]. byparts ls'; [apply HU; [done|len|done]|step].
  - rewrite <- app_assoc in Hp. cbn [app] in Hp.
    eapply (via_gleft K m' p neg l ls t (ls' ++ lse)); [exact Hl|exact Hp|len|lia| |].
    { unfold neg_op. unfold like_op in Ht. by destruct (tk_eqb (kd t) TK_IN), (tk_eqb (kd t) TK_LIKE), (tk_eqb (kd t) TK_GLOB). }
    assert (tk_eqb (kd t) TK_BETWEEN = false /\ tk_eqb (kd t) TK_IN = false /\ tk_eqb (kd t) TK_IS = false) as (N1 & N2 & N3) by (by destruct (kd t)).
    unfold parse_rest. rewrite N1, N2, N3. unfold like_op in Ht. rewrite Ht. unfold parse_like. step.
    inversion Hesc as [|c ee lsee Hc Hee]; subst.
    + rewrite app_nil_r. byparts ls'; [apply (expr_reads n 5); [done|done|lia|apply (Hst 4); lia|len]|].
      apply reads_accept_no; [apply Hfe; lia|]. step. step.
    + byparts ls'; [apply (expr_reads n 5); [done|done|lia| |len]|].
      * split; [|right; cbn [app hkind]; by rewrite Hc]. split; [unfold fol_u; cbn [app hkind hid]; rewrite Hc; done|]. cbn [app hkind]. rewrite Hc.
        split; [done|]. split; [lia|cbn; lia].
      * step. byparts lsee; [byparts lsee; [apply (expr_reads n 5); [done|done|lia|apply (Hst 4); lia|len]|step]|step].
  - rewrite <- app_assoc in Hp. cbn [app] in Hp.
    eapply (via_gleft K m' p neg l ls t (ls1 ++ a :: ls2)); [exact Hl|exact Hp|len|lia|unfold neg_op; rewrite Ht; done|].
    rewrite Ht. unfold parse_rest. simp_tk. cbn iota. unfold parse_between. step.
    byparts ls1; [apply (expr_reads n 5); [done|done|lia| |len]|].
    + split; [|left; cbn [app hkind]; rewrite Ha; cbn; lia]. split; [unfold fol_u; cbn [app hkind hid]; rewrite Ha; done|]. cbn [app hkind]. rewrite Ha.
      split; [done|]. split; [done|cbn; lia].
    + step. byparts ls2; [apply (expr_reads n 5); [done|done|lia|apply (Hst 4); lia|len]|step].
  - rewrite <- app_assoc in Hp. cbn [app] in Hp.
    eapply (via_gleft K m' p neg l ls t (a :: ls' ++ [b])); [exact Hl|exact Hp|len|lia|unfold neg_op; rewrite Ht; done|].
    rewrite Ht. unfold parse_rest. simp_tk. cbn iota. unfold parse_in. step. step. step. rewrite <- app_assoc.
    destruct Hargs as [|args ls' Hargs].
    + cbn [app hkind]. simp_tk. cbn iota. steps.
    + rewrite (sep_start _ _ _ TK_SELECT Hargs eq_refl), (sep_start _ _ _ TK_RP Hargs eq_refl).
      byparts ls'; [byparts ls'; [apply (args_reads n); try done; try len; cbn [app hkind]; by rewrite Hb|step]|]. steps.
  - rewrite <- app_assoc in Hp. cbn [app] in Hp.
    eapply (via_gleft K m' p neg l ls t (a :: ls' ++ [b])); [exact Hl|exact Hp|len|lia|unfold neg_op; rewrite Ht; done|].
    rewrite Ht. unfold parse_rest. simp_tk. cbn iota. unfold parse_in. step. step. step. rewrite <- app_assoc, (gselect_start n q ls' Hq). simp_tk. cbn iota.
    byparts ls'; [byparts ls'; [apply HQ; [done|len|cbn [app hkind]; by rewrite Hb]|step]|]. steps.
Qed.

(** *** SELECT *)

Lemma alias_reads a ls rest : galias a ls -> srcend (hkind rest) = true -> reads opt_alias ls rest a.
Proof using Hz.
  intros Ha Hr. unfold opt_alias. destruct Ha as [|x t Hx Ht|t Ht Ho Hn].
  - apply reads_accept_no; [by apply (kind_differs srcend)|]. step. cbn [app]. rewrite (kind_differs srcend _ TK_ID Hr eq_refl).
    step. cbn [andb]. step.
  - steps.
  - step. cbn beta iota. step. cbn [app hkind]. simp_tk. step. cbn [app]. unfold hid in *. rewrite Hn. cbn [negb andb]. cbn iota. steps.
Qed.
Lemma col_reads c ls rest K :
  gcol (gexpr n) c ls -> srcend (hkind rest) = true -> (3 * length ls + 1 <= K)%nat -> reads (parse_result_col (parse_expr K)) ls rest c.
Proof using HE Hz.
  intros [e ls1 a ls2 He Ha] Hr HK. unfold parse_result_col. byparts ls1.
  - apply (expr_reads n 0); [done|done|lia| |len]. destruct Ha as [|x t Hx Ht|t Ht Ho Hn].
    + apply endk_stops; [lia|]. cbn [app]. unfold srcend in Hr. by destruct (endk (hkind rest)).
    + apply endk_stops; [lia|]. cbn [app hkind]. by rewrite Hx.
    + cbn [app]. split; [|right; cbn [hkind]; by rewrite Ht]. split; [split; [|split]|]; cbn [hkind]; rewrite ?Ht; done.
  - destruct Ha as [|x t Hx Ht|t Ht Ho Hn].
    + apply reads_accept_no; [by apply (kind_differs srcend)|]. step. cbn [app]. rewrite (kind_differs srcend _ TK_ID Hr eq_refl). step.
    + steps.
    + steps.
Qed.
Lemma source_reads mk ls rest K :
  gsource (gselect n) mk ls -> srcend (hkind rest) = true -> (3 * length ls + 1 <= K)%nat ->
  reads (parse_src_item (parse_expr K) (parse_select K)) ls rest mk.
Proof using HQ Hz.
  intros Hs Hr HK. unfold parse_src_item. destruct Hs as [t a ls Ht Ha|l q ls r a ls' Hl Hq Hrp Ha].
  - steps. assert (tk_eqb (hkind (ls ++ rest)) TK_FOR = false) as ->.
    { destruct Ha as [|x t' Hx Ht'|t' Ht' Ho Hn]; [by apply (kind_differs srcend)|..]; cbn [app hkind]; by simp_tk. }
    byparts ls; [by apply alias_reads|]. step.
  - steps. byparts ls; [apply HQ; [done|len|cbn [app hkind]; by rewrite Hrp]|]. step. byparts ls'; [by apply alias_reads|]. step.
Qed.
Lemma join_reads jk ls rest : gjoin jk ls -> reads parse_join ls rest (Some jk).
Proof using Hz.
  intros [t Ht|t Ht|t j Ht Hj|t j Ht Hj|t o ls' j Ht Ho Hj|t o ls' j Ht Ho Hj|t o ls' j Ht Ho Hj]; unfold parse_join; try (steps; done).
  all: destruct Ho; cbn [app]; steps.
Qed.
Lemma no_join_reads rest : 0 < crank (hkind rest) -> reads parse_join [] rest None.
Proof using.
  intros Hr. assert (forall x, crank x = 0 -> tk_eqb (hkind rest) x = false) as Hx by (intros x Hx; apply crank_differs; lia).
  unfold parse_join. apply reads_accept_no; [by apply Hx|]. step. cbn [app]. rewrite !Hx by done. step.
Qed.
Lemma gjoin_start jk ls rest : gjoin jk ls -> srcend (hkind (ls ++ rest)) = true /\ tk_eqb (hkind (ls ++ rest)) TK_ID = false
  /\ tk_eqb (hkind (ls ++ rest)) TK_ON = false /\ tk_eqb (hkind (ls ++ rest)) TK_USING = false.
Proof using. intros []; cbn [app hkind]; simp_tk; done. Qed.
Lemma cond_reads prev jk mk s ls rest K :
  gcond (gexpr n) prev jk mk s ls -> endk (hkind rest) = true -> tk_eqb (hkind rest) TK_ON = false -> tk_eqb (hkind rest) TK_USING = false ->
  (3 * length ls <= K)%nat -> reads (parse_join_cond (parse_expr K) prev jk false mk) ls rest s.
Proof using HE Hz.
  intros Hc Hr H1 H2 HK. unfold parse_join_cond. destruct Hc as [|t e ls Ht He|t a cols ls b Ht Ha Hcols Hb].
  - apply reads_accept_no; [done|]. apply reads_accept_no; [done|]. step.
  - step. byparts ls; [apply expr_at; [done|lia|done|len]|]. step.
  - step. cbn beta iota. step. step. byparts ls; [apply names_reads; [done|cbn [app hkind]; by rewrite Hb]|]. steps.
Qed.
(** What follows a source: another join or a later clause. *)
Lemma gjoins_start prev l ls rest :
  gjoins (gexpr n) (gselect n) prev l ls -> 1 < crank (hkind rest) ->
  srcend (hkind (ls ++ rest)) = true /\ tk_eqb (hkind (ls ++ rest)) TK_ON = false /\ tk_eqb (hkind (ls ++ rest)) TK_USING = false.
Proof using.
  intros [prev'|prev' jk ls1 mk ls2 s ls3 l' ls' Hj _ _ _] Hr.
  - cbn [app]. split; [crk|]. split; crk.
  - rewrite <- app_assoc. by destruct (gjoin_start _ _ ((ls2 ++ ls3 ++ ls') ++ rest) Hj) as (? & _ & ? & ?).
Qed.
Lemma cond_start prev jk mk s ls rest :
  gcond (gexpr n) prev jk mk s ls -> srcend (hkind rest) = true -> srcend (hkind (ls ++ rest)) = true.
Proof using. intros [] Hr; cbn [app hkind]; simp_tk; done. Qed.
Lemma srcend_endk k : srcend k = true -> endk k = true.
Proof using. unfold srcend. by destruct (endk k). Qed.
Lemma joins_reads prev l ls rest K fuel :
  gjoins (gexpr n) (gselect n) prev l ls -> 1 < crank (hkind rest) -> (3 * length ls + 1 <= K)%nat -> (length ls < fuel)%nat ->
  reads (from_loop (parse_expr K) (parse_select K) fuel prev) ls rest l.
Proof using HE HQ Hz.
  intros Hj Hr. revert fuel. induction Hj as [prev|prev jk ls1 mk ls2 s ls3 l ls Hj Hs Hc Hjs IH]; intros fuel HK Hf;
    (destruct fuel as [|fuel]; [lia|]); cbn [from_loop]; step.
  - cbn [app]. rewrite hid_kind by (crk). cbn iota. step. byparts (@nil lexeme); [apply no_join_reads; cbn [app]; lia|]. cbn iota. step. step.
  - rewrite hid_kind by (rewrite <- app_assoc; by apply (gjoin_start _ _ _ Hj)). cbn iota. step.
    destruct (gjoins_start _ _ _ rest Hjs Hr) as (G1 & G2 & G3).
    byparts ls1; [by apply join_reads|]. cbn iota.
    byparts ls2; [apply source_reads; [done|rewrite <- app_assoc; by eapply cond_start|len]|].
    byparts ls3; [apply cond_reads; [done|by apply srcend_endk|done|done|len]|]. step. cbn iota.
    byparts ls; [assert (0 < length ls1)%nat by (destruct Hj; cbn; lia); apply IH; len|step].
Qed.
Lemma from_reads l ls rest K {B} (f : list tdb_src -> M B) ls' rest' y :
  gfrom (gexpr n) (gselect n) l ls -> rest = ls' ++ rest' -> 1 < crank (hkind rest) -> (3 * length ls <= K)%nat -> reads (f l) ls' rest' y ->
  reads (b ← accept TK_FROM; x ← (if b : bool then parse_from (parse_expr K) (parse_select K) else mret []); f x) (ls ++ ls') rest' y.
Proof using HE HQ Hz.
  intros Hl -> Hr HK Hf. destruct Hl as [|t mk ls l ls2 Ht Hs Hj].
  - apply reads_accept_no; [by apply crank_differs|]. cbn iota. by step.
  - cbn [app]. step. cbn iota. eapply (reads_bind' _ _ (ls ++ ls2)); [done| |exact Hf]. unfold parse_from.
    byparts ls; [apply source_reads; [done|by apply (gjoins_start _ _ _ _ Hj)|len]|]. cbn zeta.
    byparts ls2; [apply reads_with_fuel; intros fuel HF; apply joins_reads; [done|done|len|len]|step].
Qed.
Lemma group_reads l h ls rest K :
  ggroup (gexpr n) l h ls -> 4 < crank (hkind rest) -> (3 * length ls <= K)%nat -> reads (parse_group (parse_expr K)) ls rest (l, h).
Proof using HE Hz.
  intros Hg Hr HK. unfold parse_group. destruct Hg as [|t b l ls h ls' Ht Hb Hl Hh].
  - apply reads_accept_no; [crk|]. step.
  - step. cbn iota. step. assert (0 < crank (hkind (ls' ++ rest)) /\ tk_eqb (hkind (ls' ++ rest)) TK_COMMA = false) as [G1 G2].
    { destruct Hh as [|t' e ls' Ht' He]; cbn [app]; [split; [lia|crk]|]. cbn [hkind]. by simp_tk. }
    byparts ls; [apply (args_reads n); [done|done|by apply crank_endk|done|len]|].
    byparts ls'; [eapply gopt_reads; [done|done|crk|crk|len]|step].
Qed.
Lemma desc_reads d ls rest : gdir d ls -> tk_eqb (hkind rest) TK_ASC = false -> tk_eqb (hkind rest) TK_DESC = false -> reads opt_desc ls rest d.
Proof using Hz.
  intros Hd H1 H2. unfold opt_desc. destruct Hd; [|steps..]. apply reads_accept_no; [done|]. apply reads_accept_no; [done|]. step.
Qed.
Lemma ordered_reads x ls rest K :
  gordered (gexpr n) x ls -> (hkind rest = TK_COMMA \/ 0 < crank (hkind rest)) -> (3 * length ls + 1 <= K)%nat ->
  reads (e ← parse_expr K 0; d ← opt_desc; mret (e, d)) ls rest x.
Proof using HE Hz.
  intros [e ls1 d ls2 He Hd] Hr HK.
  assert (endk (hkind rest) = true /\ tk_eqb (hkind rest) TK_ASC = false /\ tk_eqb (hkind rest) TK_DESC = false) as (G1 & G2 & G3).
  { destruct Hr as [->|Hr]; [done|]. split; [by apply crank_endk|]. split; crk. }
  byparts ls1; [apply expr_at; [done|lia| |len]|byparts ls2; [by apply desc_reads|step]].
  destruct Hd; cbn [app hkind]; simp_tk; done.
Qed.
Lemma order_reads l ls rest K :
  gorder (gexpr n) l ls -> 5 < crank (hkind rest) -> (3 * length ls <= K)%nat -> reads (parse_order (parse_expr K)) ls rest l.
Proof using HE Hz.
  intros Ho Hr HK. unfold parse_order. destruct Ho as [|t b l ls Ht Hb Hl].
  - apply reads_accept_no; [crk|]. step.
  - step. cbn iota. step. unfold order_list. eapply sep_reads; [exact Hl| |crk].
    intros x lsx r Hx Hlx Hrr. apply ordered_reads; [done| |len]. destruct Hrr as [->| ->]; [by left|right; lia].
Qed.
Lemma limit_reads l o ls rest K :
  glimit (gexpr n) l o ls -> 6 < crank (hkind rest) -> (3 * length ls <= K)%nat -> reads (parse_limit (parse_expr K)) ls rest (l, o).
Proof using HE Hz.
  intros Ho Hr HK. unfold parse_limit. destruct Ho as [|t e ls o ls' Ht He Hof|t o ls c e ls' Ht Ho Hc He].
  - apply reads_accept_no; [crk|]. step.
  - step. cbn iota. destruct Hof as [|c e' ls' Hc He'].
    + byparts ls; [apply expr_at; [done|lia|crk|len]|].
      do 2 (apply reads_accept_no; [crk|]; cbn iota). step.
    + byparts ls; [apply expr_at; [done|lia|cbn [app hkind]; by rewrite Hc|len]|]. step. cbn iota.
      byparts ls'; [apply expr_at; [done|lia|crk|len]|step].
  - step. cbn iota. byparts ls; [apply expr_at; [done|lia|cbn [app hkind]; by rewrite Hc|len]|]. step. cbn iota. step. cbn iota.
    byparts ls'; [apply expr_at; [done|lia|crk|len]|step].
Qed.
Lemma setop_reads so ls rest K :
  gsetop (gselect n) so ls -> sel_end (hkind rest) = true -> (3 * length ls <= K)%nat -> reads (parse_setop (parse_select K)) ls rest so.
Proof using HQ Hz.
  intros Hs Hr HK. unfold parse_setop. destruct Hs as [|t all lsa q ls Ht Ha Hq|t q ls Ht Hq].
  - step. cbn [app]. rewrite !(kind_differs sel_end _ _ Hr) by done. cbn [orb]. step.
  - step. cbn [app hkind]. simp_tk. cbn iota. step.
    byparts lsa; [|byparts ls; [apply HQ; [done|len|done]|step]].
    destruct Ha as [|k Hk]; [|steps]. do 2 (apply reads_accept_no; [cbn [app]; by rewrite (gselect_start n q ls Hq)|]; cbn iota). step.
  - step. cbn [app hkind]. assert (tk_eqb (kd t) TK_UNION || tk_eqb (kd t) TK_EXCEPT || tk_eqb (kd t) TK_INTERSECT = true /\ tk_eqb (kd t) TK_UNION = false) as [-> ->]
      by (by destruct Ht as [-> | ->]).
    step. step. byparts ls; [apply HQ; [done|len|done]|step].
Qed.

(** The clauses that are left begin with a clause of a later rank. *)
Lemma gopt_rank k m o ls rest b :
  gopt (gexpr n) k m o ls -> b < crank k -> b < crank (hkind rest) -> b < crank (hkind (ls ++ rest)).
Proof using. intros [|t e ls' Ht _] H1 H2; [done|]. cbn [app hkind]. by rewrite Ht. Qed.
Lemma group_rank g h ls rest b : ggroup (gexpr n) g h ls -> b < 3 -> b < crank (hkind rest) -> b < crank (hkind (ls ++ rest)).
Proof using. intros [|t by_ l ls' h' ls2 Ht _ _ _] H1 H2; [done|]. cbn [app hkind]. by rewrite Ht. Qed.
Lemma order_rank o ls rest b : gorder (gexpr n) o ls -> b < 5 -> b < crank (hkind rest) -> b < crank (hkind (ls ++ rest)).
Proof using. intros [|t by_ l ls' Ht _ _] H1 H2; [done|]. cbn [app hkind]. by rewrite Ht. Qed.
Lemma limit_rank l o ls rest b : glimit (gexpr n) l o ls -> b < 6 -> b < crank (hkind rest) -> b < crank (hkind (ls ++ rest)).
Proof using. intros [|t e ls1 o' ls' Ht _ _|t o' ls1 c e ls' Ht _ _ _] H1 H2; [done|..]; cbn [app hkind]; by rewrite Ht. Qed.
Lemma setop_rank so ls rest : gsetop (gselect n) so ls -> sel_end (hkind rest) = true -> 6 < crank (hkind (ls ++ rest)).
Proof using.
  intros [|t all lsa q ls' Ht _ _|t q ls' Ht _] Hr; cbn [app]; [|cbn [hkind]; by rewrite Ht|cbn [hkind]; by destruct Ht as [-> | ->]].
  by destruct (hkind rest).
Qed.
Lemma from_rank l ls rest : gfrom (gexpr n) (gselect n) l ls -> 1 < crank (hkind rest) -> 0 < crank (hkind (ls ++ rest)).
Proof using. intros [|t mk ls' l' ls2 Ht _ _] Hr; [cbn [app]; lia|]. cbn [app hkind]. by rewrite Ht. Qed.
Lemma accept_no k rest : tk_eqb (hkind rest) k = false -> reads (accept k) [] rest false.
Proof using. intros Hk p Hp. exists p. split; [|done]. unfold accept, mbind, M_bind, kind. rewrite (before_kind _ _ _ Hp). cbn [app]. by rewrite Hk. Qed.
Lemma cols_start cols ls rest x : sep (gcol (gexpr n)) cols ls -> estart x = false -> tk_eqb (hkind (ls ++ rest)) x = false.
Proof using.
  intros [c ls0 [e l1 a l2 He _]|c ls0 cm l0 ls' [e l1 a l2 He _] _ _] Hx; rewrite <- ?app_assoc; by eapply estart_differs.
Qed.

Lemma select_step : reads_select (S n).
Proof using HE HQ Hz.
  intros q ls H K rest HK Hr. cbn [gselect] in H. destruct K as [|K]; [lia|]. cbn [parse_select].
  destruct H as [s d lsd cols lsc from lsf w lsw g h lsg o lso l off lsl so lss Hs Hd Hcols Hfrom Hw Hg Ho Hl Hso].
  assert (6 < crank (hkind (lss ++ rest))) as R6 by (by eapply setop_rank).
  assert (5 < crank (hkind (lsl ++ lss ++ rest))) as R5 by (eapply limit_rank; [done|lia|lia]).
  assert (4 < crank (hkind (lso ++ lsl ++ lss ++ rest))) as R4 by (eapply order_rank; [done|lia|lia]).
  assert (2 < crank (hkind (lsg ++ lso ++ lsl ++ lss ++ rest))) as R3 by (eapply group_rank; [done|lia|lia]).
  assert (1 < crank (hkind (lsw ++ lsg ++ lso ++ lsl ++ lss ++ rest))) as R2 by (eapply gopt_rank; [done|cbn; lia|lia]).
  assert (0 < crank (hkind (lsf ++ lsw ++ lsg ++ lso ++ lsl ++ lss ++ rest))) as R1 by (by eapply from_rank).
  unfold select_body. byparts (@nil lexeme); [unfold parse_with; apply reads_accept_no; [cbn [app hkind]; by simp_tk|]; step|].
  step. apply (gkeyword_accept _ _ _ _ _ _ _ Hd); [rewrite <- app_assoc; by eapply cols_start|].
  byparts (@nil lexeme); [destruct d; [step|]; apply accept_no; cbn [app]; rewrite <- ?app_assoc; by eapply cols_start|].
  byparts lsc.
  { eapply sep_reads; [exact Hcols| |rewrite <- ?app_assoc; crk]. intros c lsx r Hc Hlx Hrr. apply col_reads; [done| |len].
    destruct Hrr as [->| ->]; [done|]. rewrite <- ?app_assoc. crk. }
  eapply from_reads; [exact Hfrom|reflexivity|rewrite <- ?app_assoc; lia|len|].
  byparts lsw; [eapply gopt_reads; [done|done|rewrite <- ?app_assoc; crk|rewrite <- ?app_assoc; crk|len]|].
  byparts lsg; [apply group_reads; [done|rewrite <- ?app_assoc; lia|len]|].
  byparts lso; [apply order_reads; [done|rewrite <- ?app_assoc; lia|len]|].
  byparts lsl; [apply limit_reads; [done|rewrite <- ?app_assoc; lia|len]|].
  byparts lss; [apply setop_reads; [done|done|len]|]. step.
Qed.
End Step.

Lemma parser_reads n : reads_expr n /\ reads_unary n /\ reads_select n.
Proof using Hz.
  induction n as [|n (IE & IU & IQ)]; [by split; [intros ? ? ? []|split; intros ? ? []]|]. split; [by apply expr_step|]. split; [by apply unary_step|by apply select_step].
Qed.

(** *** Statements *)

Section Stmt.
Context (n : nat).
Let HE : reads_expr n := proj1 (parser_reads n).
Let HQ : reads_select n := proj2 (proj2 (parser_reads n)).

(** What ends a statement. *)
Definition stmt_end (k : tdb_token_kind) : bool := tk_eqb k TK_EOF || tk_eqb k TK_SEMI.
Lemma stmt_end_sel k : stmt_end k = true -> sel_end k = true.
Proof using. by destruct k. Qed.
Lemma stmt_end_crank k : stmt_end k = true -> crank k = 8.
Proof using. by destruct k. Qed.
Lemma returning_none rest K : stmt_end (hkind rest) = true -> reads (parse_returning (parse_expr K)) [] rest [].
Proof using. intros Hr. unfold parse_returning. apply reads_accept_no; [by apply (kind_differs stmt_end)|]. step. Qed.
Lemma upsert_none rest K : stmt_end (hkind rest) = true -> reads (parse_upsert (parse_expr K)) [] rest None.
Proof using. intros Hr. unfold parse_upsert. apply reads_accept_no; [by apply (kind_differs stmt_end)|]. step. Qed.
Lemma where_reads w ls rest K :
  gopt (gexpr n) TK_WHERE 0 w ls -> stmt_end (hkind rest) = true -> (3 * length ls <= K)%nat ->
  reads (opt_expr (parse_expr K) TK_WHERE) ls rest w.
Proof using Hz.
  intros Hw Hr HK. pose proof (stmt_end_crank _ Hr) as Hc. eapply gopt_reads; [exact HE|done|done|crk|crk|done].
Qed.
Lemma row_reads l ls rest K : grow n l ls -> (3 * length ls <= K)%nat -> reads (values_row (parse_expr K)) ls rest l.
Proof using Hz.
  intros [a l' ls' b Ha Hl Hb] HK. unfold values_row. step. apply bind_assoc_reads. byparts ls'; [|steps].
  apply (gargs_reads n HE); [done|done|len].
Qed.
Lemma set_reads x ls rest K : gset n x ls -> endk (hkind rest) = true -> (3 * length ls <= K)%nat ->
  reads (c ← parse_name "expected column name"; expect TK_EQ "expected = in SET";; e ← parse_expr K 0; mret (c, e)) ls rest x.
Proof using Hz.
  intros [t q e ls' Ht Hq He] Hr HK. byparts [t]; [by apply gname_reads|]. step. byparts ls'; [apply (expr_at n HE); [done|lia|done|len]|step].
Qed.
Lemma cols_reads {B} cols ls ls' rest (f : list name -> M B) y :
  gcols cols ls -> tk_eqb (hkind (ls' ++ rest)) TK_LP = false -> reads (f cols) ls' rest y ->
  reads (l ← accept TK_LP; c ← (if l : bool then c ← parse_name_list; expect TK_RP "expected )";; mret c else mret []); f c) (ls ++ ls') rest y.
Proof using Hz.
  intros [|a l ls0 b Ha Hl Hb] Hk Hf.
  - apply reads_accept_no; [done|]. cbn iota. by step.
  - cbn [app]. step. cbn iota. eapply (reads_bind' _ _ (ls0 ++ [b])); [done| |exact Hf].
    byparts ls0; [apply names_reads; [done|cbn [app hkind]; by rewrite Hb]|]. steps.
Qed.
Lemma rows_reads rows ls rest K :
  sep (grow n) rows ls -> tk_eqb (hkind rest) TK_COMMA = false -> (3 * length ls <= K)%nat -> reads (comma_list true (values_row (parse_expr K))) ls rest rows.
Proof using Hz. intros Hs Hr HK. eapply sep_reads; [exact Hs| |done]. intros x lsx r Hx Hl _. apply row_reads; [done|len]. Qed.
Lemma or_action_none rest : tk_eqb (hkind rest) TK_OR = false -> reads parse_or_action [] rest TDB_OR_ABORT.
Proof using. intros Hr. unfold parse_or_action. apply reads_accept_no; [done|]. step. Qed.
Lemma insert_ends t cols src rest K :
  stmt_end (hkind rest) = true ->
  reads (up ← parse_upsert (parse_expr K); ret ← parse_returning (parse_expr K); mret (ST_INSERT t cols src TDB_OR_ABORT up ret)) [] rest
    (ST_INSERT t cols src TDB_OR_ABORT None []).
Proof using. intros Hr. byparts (@nil lexeme); [by apply upsert_none|]. byparts (@nil lexeme); [by apply returning_none|]. step. Qed.

Lemma stmt_reads st ls rest K F :
  gstmt n st ls -> stmt_end (hkind rest) = true -> (3 * length ls + 2 <= K)%nat -> (0 < F)%nat ->
  reads (parse_stmt (parse_expr K) (parse_select K) F) ls rest (Some st).
Proof using Hz.
  intros H Hr HK HF. destruct F as [|F]; [lia|]. cbn [parse_stmt]. step. pose proof (stmt_end_crank _ Hr) as Hc. pose proof (stmt_end_sel _ Hr) as Hse.
  destruct H as [q ls Hq|i o t cols lsc v rows ls Hi Ho Ht Hcols Hv Hrows|i o t cols lsc q ls Hi Ho Ht Hcols Hq
    |u t s sets ls w lsw Hu Ht Hs Hsets Hw|d f t w lsw Hd Hf Ht Hw].
  - rewrite (gselect_start n q ls Hq). cbn iota. byparts ls; [by apply HQ|step].
  - cbn [app hkind]. rewrite Hi. cbn iota. byparts (i :: o :: t :: lsc ++ v :: ls); [|step]. unfold parse_insert. step.
    byparts (@nil lexeme); [by apply or_action_none; cbn [app hkind]; simp_tk|]. step. byparts [t]; [by apply gname_reads|].
    eapply cols_reads; [exact Hcols|cbn [app hkind]; by simp_tk|]. step. cbn [app hkind]. simp_tk. cbn iota.
    byparts (v :: ls); [step; byparts ls; [apply (rows_reads rows); [done|by apply (kind_differs stmt_end)|len]|step]|].
    by apply insert_ends.
  - cbn [app hkind]. rewrite Hi. cbn iota. byparts (i :: o :: t :: lsc ++ ls); [|step]. unfold parse_insert. step.
    byparts (@nil lexeme); [by apply or_action_none; cbn [app hkind]; simp_tk|]. step. byparts [t]; [by apply gname_reads|].
    eapply cols_reads; [exact Hcols|rewrite (gselect_start n q ls Hq); done|]. step. rewrite (gselect_start n q ls Hq). simp_tk. cbn iota.
    byparts ls; [byparts ls; [apply HQ; [done|len|done]|step]|]. by apply insert_ends.
  - cbn [app hkind]. rewrite Hu. cbn iota. byparts (u :: t :: s :: ls ++ lsw); [|step]. unfold parse_update. step.
    byparts [t]; [by apply gname_reads|]. step. assert (1 < crank (hkind (lsw ++ rest))) as Hcw by (eapply gopt_rank; [done|cbn; lia|lia]).
    byparts ls.
    { unfold set_list. eapply (sep_reads (gset n)); [exact Hsets| |rewrite ?app_nil_r; crk]. intros x lsx r Hx Hl Hrr. apply set_reads; [done| |len].
      destruct Hrr as [->| ->]; [done|]. rewrite ?app_nil_r. crk. }
    byparts lsw; [apply where_reads; [done|done|len]|]. byparts (@nil lexeme); [by apply returning_none|]. step.
  - cbn [app hkind]. rewrite Hd. cbn iota. byparts (d :: f :: t :: lsw); [|step]. unfold parse_delete. step. step.
    byparts [t]; [by apply gname_reads|]. byparts lsw; [apply where_reads; [done|done|len]|].
    byparts (@nil lexeme); [by apply returning_none|]. step.
Qed.
End Stmt.
End Complete.

(** ** The entry points *)

Lemma print_all_nul_free ls : Forall plain ls -> nul_free (print_all ls).
Proof.
  induction 1 as [|l ls [_ Hl] _ IH]; [apply Forall_nil_2|]. change (print_all (l :: ls)) with ((32 :: print l) ++ print_all ls).
  apply Forall_app. split; [|done]. apply Forall_cons. split; [lia|done].
Qed.
Lemma strlen_print ls : Forall plain ls -> strlen (print_all ls) = blen (print_all ls).
Proof. intros H. unfold strlen. by rewrite cstr_nul_free by (by apply print_all_nul_free). Qed.
Lemma start_before ls : Forall plain ls -> blen (print_all ls) < 2 ^ 31 -> before (print_all ls) (parser_start (print_all ls)) ls.
Proof.
  intros Hpl Hz. unfold parser_start, tdb_lex_init. cbn [default negb Z.eqb]. rewrite strlen_print by done.
  pose proof (blen_nonneg (print_all ls)). pose proof (lex_before (print_all ls) Hz 0 ls None ltac:(lia) Hpl eq_refl) as H0.
  by destruct (tdb_lex_next _).
Qed.
Lemma fuel_enough ls : Forall plain ls -> (3 * length ls + 6 <= parse_fuel (print_all ls))%nat.
Proof. intros H. unfold parse_fuel. rewrite strlen_print by done. pose proof (print_all_len ls). lia. Qed.

Lemma skip_semis_reads z semis : blen z < 2 ^ 31 -> Forall (fun l => kd l = TK_SEMI) semis -> reads z (with_fuel skip_semis) semis [] tt.
Proof.
  intros Hz Hs. apply reads_with_fuel. intros fuel. revert fuel. induction Hs as [|l ls Hl Hs IH]; intros fuel Hf; (destruct fuel as [|fuel]; [lia|]); cbn [skip_semis]; apply reads_kind.
  - apply reads_ret.
  - cbn [app hkind]. rewrite Hl. change (tk_eqb TK_SEMI TK_SEMI) with true. cbn iota. apply (reads_advance z Hz). apply IH.
    cbn [app length] in Hf. lia.
Qed.

(** C15. The parser reads every expression of the grammar: the text of a
    derivation is parsed to its tree, whatever the nesting, with the levels of
    the operators that [op_level] lists (OR loosest, then AND, NOT, comparisons,
    bits, sums, products, concatenation) and grouping to the left.  So the
    grammar gives a text at most one tree. *)
Theorem parse_expression_complete n e ls :
  gexpr n 0 e ls -> Forall plain ls -> blen (print_all ls) < 2 ^ 31 ->
  tdb_parse_expression (print_all ls) = Some (mk_result TDB_OK (Some e) None (blen (print_all ls)))
  /\ (forall n' e', gexpr n' 0 e' ls -> e' = e).
Proof.
  intros He0 Hpl Hz.
  assert (forall n e, gexpr n 0 e ls -> tdb_parse_expression (print_all ls) = Some (mk_result TDB_OK (Some e) None (blen (print_all ls)))) as H;
    [|split; [by eapply H|intros n' e' He'; apply H in He0, He'; congruence]].
  clear n e He0. intros n e He. pose proof (start_before ls Hpl Hz) as Hb. rewrite <- (app_nil_r ls) in Hb at 3.
  destruct (expr_reads (print_all ls) n 0 e ls (parse_fuel (print_all ls)) [] 0 (proj1 (parser_reads _ Hz n)) He ltac:(lia)
    (endk_stops 0 [] ltac:(lia) eq_refl) ltac:(pose proof (fuel_enough ls Hpl); lia) _ Hb) as (p & E & Hp).
  unfold tdb_parse_expression. cbv zeta. rewrite E, (bf_err _ _ _ Hp), (before_kind _ _ _ Hp). cbn [hkind negb]. change (tk_eqb TK_EOF TK_EOF) with true. cbn [negb].
  by destruct (bf_cur _ _ _ Hp) as (_ & _ & ->).
Qed.
(** C16. And every SELECT, INSERT, UPDATE and DELETE of the grammar, with any
    number of semicolons behind it. *)
Theorem parse_statement_complete n st ls semis :
  gstmt n st ls -> Forall (fun l => kd l = TK_SEMI) semis -> Forall plain (ls ++ semis) -> blen (print_all (ls ++ semis)) < 2 ^ 31 ->
  tdb_parse (print_all (ls ++ semis)) = Some (mk_result TDB_OK (Some (Some st)) None (blen (print_all (ls ++ semis)))).
Proof.
  intros Hst Hsemi Hpl Hz. pose proof (start_before _ Hpl Hz) as Hb. pose proof (fuel_enough _ Hpl) as Hf. rewrite length_app in Hf. set (z := print_all (ls ++ semis)) in *.
  assert (stmt_end (hkind semis) = true) as Hend by (destruct Hsemi as [|l semis Hl _]; [done|]; cbn [hkind]; by rewrite Hl).
  unfold tdb_parse. cbv zeta. fold z. assert (tk_eqb (t_kind (p_cur (parser_start z))) TK_EOF = false) as ->.
  { rewrite (before_kind _ _ _ Hb). destruct Hst as [q ls Hq| | | |]; [by rewrite (gselect_start _ _ _ Hq)|..]; cbn [app hkind]; 
      match goal with H : kd ?l = _ |- context [kd ?l] => by rewrite H end. }
  destruct (stmt_reads z Hz n st ls semis (parse_fuel z) (parse_fuel z) Hst Hend ltac:(lia) ltac:(lia) _ Hb) as (p & -> & Hp).
  rewrite (bf_err _ _ _ Hp), (before_kind _ _ _ Hp).
  assert (negb (tk_eqb (hkind semis) TK_SEMI) && negb (tk_eqb (hkind semis) TK_EOF) = false) as ->.
  { unfold stmt_end in Hend. by destruct (tk_eqb (hkind semis) TK_EOF), (tk_eqb (hkind semis) TK_SEMI). }
  rewrite <- (app_nil_r semis) in Hp. destruct (skip_semis_reads z semis Hz Hsemi p Hp) as (p' & -> & Hp').
  by destruct (bf_cur _ _ _ Hp') as (_ & _ & ->).
Qed.

(** ** Examples *)

(** [x + 2 * y < 10 AND s NOT LIKE 'a%'] *)
Definition demo_sum : tdb_expr :=
  EX_BINARY TK_PLUS false (EX_COLUMN None (str "x"))
    (EX_BINARY TK_STAR false (EX_LITERAL (VInt 2)) (EX_COLUMN None (str "y")) None) None.
Definition demo_expr : tdb_expr :=
  EX_BINARY TK_AND false (EX_BINARY TK_LT false demo_sum (EX_LITERAL (VInt 10)) None)
    (EX_BINARY TK_LIKE true (EX_COLUMN None (str "s")) (EX_LITERAL (VText (str "a%"))) None) None.
Definition demo_sum_lexemes : list lexeme :=
  [LWord (str "x"); LSym (str "+") TK_PLUS; LInt 2; LSym (str "*") TK_STAR; LWord (str "y")].
Definition demo_lexemes : list lexeme :=
  demo_sum_lexemes ++ [LSym (str "<") TK_LT; LInt 10; LWord (str "AND"); LWord (str "s"); LWord (str "NOT"); LWord (str "LIKE"); LText (str "a%")].
(** [DELETE FROM t WHERE x + 2 * y ;] *)
Definition demo_delete : list lexeme := [LWord (str "delete"); LWord (str "From"); LWord (str "t"); LWord (str "where")] ++ demo_sum_lexemes.
(** Concrete bytes without a NUL. *)
Ltac nul_free_all :=
  match goal with |- nul_free ?x => let v := eval vm_compute in x in change (nul_free v) end;
  repeat (apply Forall_cons; split; [lia|]); apply Forall_nil_2.
(** Each lexeme of a concrete list is plain. *)
Ltac plain_all :=
  unfold demo_lexemes, demo_delete, demo_sum_lexemes; cbn [app];
  repeat (apply Forall_cons; split;
    [split; [cbn [lexeme_ok]; first [exact I | lia | eexists _, _; split; [reflexivity|split; reflexivity] | vm_compute; tauto]
            |nul_free_all]|]);
  apply Forall_nil_2.
Lemma demo_plain : Forall plain demo_lexemes.
Proof.
  plain_all.
Qed.
Lemma gexpr_intro n m e ls : gexprF (gexpr n) (gunary n) (gselect n) m e ls -> gexpr (S n) m e ls.
Proof. done. Qed.
Lemma gexpr_int n m v : gexpr (S (S n)) m (EX_LITERAL (VInt v)) [LInt v].
Proof. apply gexpr_intro, GE_unary. cbn [gunary]. apply GU_int. Qed.
Lemma gexpr_unary n m e ls : gunary n e ls -> gexpr (S n) m e ls.
Proof. apply GE_unary. Qed.
Lemma gunary_word n w : tdb_keyword_lookup (str w) (blen (str w)) = TK_ID -> gunary (S n) (EX_COLUMN None (str w)) [LWord (str w)].
Proof. intros H. by apply (GU_col _ _ _ (LWord (str w))). Qed.
Lemma demo_sum_derivation m : m <= 6 -> gexpr 4 m demo_sum demo_sum_lexemes.
Proof.
  intros Hm. apply gexpr_intro, (GE_bin _ _ _ m (EX_COLUMN None (str "x")) [LWord (str "x")] (LSym (str "+") TK_PLUS) 6 _ [LInt 2; LSym (str "*") TK_STAR; LWord (str "y")]);
    [by apply level_sum; left|done|by apply gexpr_unary, gunary_word|].
  apply gexpr_intro, (GE_bin _ _ _ _ (EX_LITERAL (VInt 2)) [LInt 2] (LSym (str "*") TK_STAR) 7 _ [LWord (str "y")]);
    [by apply level_product; left|done|apply gexpr_int|by apply gexpr_unary, gunary_word].
Qed.
Lemma demo_derivation : gexpr 6 0 demo_expr demo_lexemes.
Proof.
  apply gexpr_intro, (GE_bin _ _ _ 0 _ (demo_sum_lexemes ++ [LSym (str "<") TK_LT; LInt 10]) (LWord (str "AND")) 2 _
    [LWord (str "s"); LWord (str "NOT"); LWord (str "LIKE"); LText (str "a%")]); [exact level_and|done| |].
  - apply gexpr_intro, (GE_bin _ _ _ _ _ demo_sum_lexemes (LSym (str "<") TK_LT) 4 _ [LInt 10]);
      [apply level_compare; by do 2 right; left|done|apply demo_sum_derivation; vm_compute; discriminate|apply gexpr_int].
  - apply gexpr_intro, (GE_like _ _ _ _ true (EX_COLUMN None (str "s")) [LWord (str "s"); LWord (str "NOT")] (LWord (str "LIKE"))
      (EX_LITERAL (VText (str "a%"))) [LText (str "a%")] None []); [done|by apply (gleft_not _ _ _ [LWord (str "s")]); [apply gunary_word|]|done| |apply gopt_none].
    apply gexpr_unary; cbn [gunary]; apply GU_text. nul_free_all.
Qed.
Lemma parse_expression_complete_witness :
  tdb_parse_expression (print_all demo_lexemes) = Some (mk_result TDB_OK (Some demo_expr) None 35).
Proof.
  apply (parse_expression_complete 6 demo_expr demo_lexemes demo_derivation demo_plain). vm_compute. reflexivity.
Defined.

Lemma parse_statement_complete_witness :
  tdb_parse (print_all (demo_delete ++ [LSym (str ";") TK_SEMI]))
  = Some (mk_result TDB_OK (Some (Some (ST_DELETE (str "t") (Some demo_sum) []))) None 32).
Proof.
  apply (parse_statement_complete 4 (ST_DELETE (str "t") (Some demo_sum) []) demo_delete [LSym (str ";") TK_SEMI]).
  - apply (GT_delete 4 (LWord (str "delete")) (LWord (str "From")) (LWord (str "t"))); [done|done|done|].
    apply (gopt_some _ _ _ (LWord (str "where"))); [done|apply demo_sum_derivation; lia].
  - by apply Forall_cons.
  - plain_all.
  - vm_compute. reflexivity.
Defined.

(** Behind an operator expression NOT IN loses its NOT: the loop of the inner
    operand has already skipped it when it finds that IN binds less. *)
Theorem not_in_loses_negation :
  r_out <$> tdb_parse_expression (str "a + 1 NOT IN (2)")
  = Some (Some (EX_IN_LIST false (EX_BINARY TK_PLUS false (EX_COLUMN None (str "a")) (EX_LITERAL (VInt 1)) None) [EX_LITERAL (VInt 2)]))
  /\ r_out <$> tdb_parse_expression (str "a NOT IN (2)") = Some (Some (EX_IN_LIST true (EX_COLUMN None (str "a")) [EX_LITERAL (VInt 2)])).
Proof. by vm_compute. Qed.
(** DROP with another object than a table, index, view or tablespace drops a
    table. *)
Theorem drop_function_drops_table :
  r_out <$> tdb_parse (str "DROP FUNCTION f") = Some (Some (Some (ST_DROP_TABLE (str "f") false))).
Proof. by vm_compute. Qed.
(** CAST does not accept the parameters of a type. *)
Theorem cast_rejects_parameters : r_rc <$> tdb_parse_expression (str "CAST(x AS DECIMAL(10,2))") = Some TDB_ERROR.
Proof. by vm_compute. Qed.
(** A type name is matched by its prefix. *)
Theorem type_name_prefix : ty_id (tdb_typespec_parse (Some (str "internals"))) = TDB_T_INTEGER.
Proof. by vm_compute. Qed.
