(* ===== verification/Pattern.v ===== *)
(** * LIKE and GLOB (src/src/sql/tdb_exec.c)

    The matchers work on C strings; the lists are the strings up to their NUL.
    [like_match] is compared with the relation it decides. *)
From S2P Require Import Prelude Value.

Definition hd0 (s : list Z) : Z := match s with c :: _ => c | [] => 0 end.
Definition PCT : Z := 37.
Definition UND : Z := 95.

(** The byte after [%] is looked at first: a run of them is one. *)
Fixpoint like_match (pat str_ : list Z) (esc : Z) {struct pat} : bool :=
  match pat with
  | [] => match str_ with [] => true | _ => false end
  | c :: p =>
      if negb (esc =? 0) && (c =? esc) && (match p with [] => false | _ => true end) then
        match p with
        | d :: p' => if tolower d =? tolower (hd0 str_) then like_match p' (drop 1 str_) esc else false
        | [] => false
        end
      else if c =? PCT then
        match p with
        | [] => true
        | d :: _ =>
            if d =? PCT then like_match p str_ esc
            else (fix any (s : list Z) : bool := match s with [] => false | _ :: t => like_match p s esc || any t end) str_
        end
      else if c =? UND then
        match str_ with [] => false | _ :: t => like_match p t esc end
      else if tolower c =? tolower (hd0 str_) then like_match p (drop 1 str_) esc else false
  end.

(** A class after [[] and an optional [^]: whether the byte is in it, and the
    pattern behind the closing bracket; [None] when there is none.  [first]:
    a bracket in the first place is an element. *)
Fixpoint glob_class (fuel : nat) (first : bool) (p : list Z) (c : Z) (matched : bool) : option (bool * list Z) :=
  match fuel, p with
  | S fuel, a :: q =>
      if negb first && (a =? 93) then Some (matched, q)
      else
        match q with
        | 45 :: z :: r =>
            if negb (z =? 93) then glob_class fuel false r c (matched || ((a <=? c) && (c <=? z)))
            else glob_class fuel false q c (matched || (c =? a))
        | _ => glob_class fuel false q c (matched || (c =? a))
        end
  | _, _ => None
  end.
(** Every round takes a byte of the pattern. *)
Fixpoint glob_loop (fuel : nat) (pat str_ : list Z) : bool :=
  match fuel with
  | O => false
  | S fuel =>
      match pat with
      | [] => match str_ with [] => true | _ => false end
      | c :: p =>
          if c =? 42 then
            match p with
            | [] => true
            | d :: _ =>
                if d =? 42 then glob_loop fuel p str_
                else (fix any (s : list Z) : bool := match s with [] => false | _ :: t => glob_loop fuel p s || any t end) str_
            end
          else if c =? 63 then match str_ with [] => false | _ :: t => glob_loop fuel p t end
          else if c =? 91 then
            let '(neg, p) := match p with 94 :: q => (true, q) | _ => (false, p) end in
            match glob_class (S (length p)) true p (hd0 str_) false with
            | None => false
            | Some (matched, p) =>
                match str_ with
                | [] => false
                | _ :: t => if Bool.eqb matched neg then false else glob_loop fuel p t
                end
            end
          else if c =? hd0 str_ then glob_loop fuel p (drop 1 str_) else false
      end
  end.
Definition glob_match (pat str_ : list Z) : bool := glob_loop (S (length pat)) pat str_.
(** ** What LIKE decides *)

(** [c] with [p] behind it is an escape. *)
Definition escapes (esc c : Z) (p : list Z) : Prop := esc <> 0 /\ c = esc /\ p <> [].
Inductive like (esc : Z) : list Z -> list Z -> Prop :=
| like_end : like esc [] []
| like_escaped d p c s : esc <> 0 -> tolower d = tolower c -> like esc p s -> like esc (esc :: d :: p) (c :: s)
| like_run p s t : ~ escapes esc PCT p -> like esc p t -> like esc (PCT :: p) (s ++ t)
| like_one p c s : ~ escapes esc UND p -> like esc p s -> like esc (UND :: p) (c :: s)
| like_char a p c s : ~ escapes esc a p -> a <> PCT -> a <> UND -> tolower a = tolower c -> like esc p s -> like esc (a :: p) (c :: s).

Definition escapesb (esc c : Z) (p : list Z) : bool := negb (esc =? 0) && (c =? esc) && (match p with [] => false | _ => true end).
Lemma escapesb_spec esc c p : escapesb esc c p = true <-> escapes esc c p.
Proof.
  unfold escapesb, escapes. destruct p as [|x p].
  - rewrite andb_false_r. split; [done|]. by intros (_ & _ & H).
  - split; [intros H; split; [lia|]; split; [lia|done]|intros (H1 & H2 & _); lia].
Qed.
(** Some suffix that is not empty satisfies [f]. *)
Definition any_suffix (f : list Z -> bool) : list Z -> bool := fix any s := match s with [] => false | _ :: t => f s || any t end.
Lemma any_suffix_spec f s : any_suffix f s = true <-> exists u t, s = u ++ t /\ t <> [] /\ f t = true.
Proof.
  induction s as [|c s IH]; cbn [any_suffix].
  - split; [done|]. intros (u & t & E & Ht & _). by destruct u, t.
  - rewrite orb_true_iff, IH. split.
    + intros [H|(u & t & -> & Ht & H)]; [by exists [], (c :: s)|by exists (c :: u), t].
    + intros ([|x u] & t & E & Ht & H); [left; by rewrite E|right; exists u, t; by simplify_eq/=].
Qed.
Lemma tolower_char a c : 0 < a -> tolower a = tolower c -> c <> 0.
Proof. intros Ha H ->. pose proof (tolower_pos a Ha). done. Qed.
Lemma like_match_cons c p s esc : like_match (c :: p) s esc =
  if escapesb esc c p then match p with d :: p' => if tolower d =? tolower (hd0 s) then like_match p' (drop 1 s) esc else false | [] => false end
  else if c =? PCT then
    match p with [] => true | d :: _ => if d =? PCT then like_match p s esc else any_suffix (fun s => like_match p s esc) s end
  else if c =? UND then match s with [] => false | _ :: t => like_match p t esc end
  else if tolower c =? tolower (hd0 s) then like_match p (drop 1 s) esc else false.
Proof. reflexivity. Qed.
Lemma like_nonempty esc c p s : like esc (c :: p) s -> c <> PCT -> s <> [].
Proof. intros H Hc. inversion H; subst; done. Qed.
Lemma like_literal (P : list Z -> bool) a s : nul_free s -> 0 < a ->
  (if tolower a =? tolower (hd0 s) then P (drop 1 s) else false) = true <-> exists c t, s = c :: t /\ tolower a = tolower c /\ P t = true.
Proof.
  intros Hs Ha. destruct s as [|c t]; cbn [hd0 drop].
  - pose proof (tolower_pos a Ha). destruct (Z.eqb_spec (tolower a) (tolower 0)) as [E|]; [done|]. split; [done|]. by intros (c & t & E & _).
  - destruct (Z.eqb_spec (tolower a) (tolower c)) as [E|E].
    + rewrite drop_0. split; [intros H; by exists c, t|]. intros (c' & t' & E1 & _ & H). by simplify_eq.
    + split; [done|]. intros (c' & t' & E1 & E2 & _). by simplify_eq.
Qed.
Lemma like_match_spec pat s esc : nul_free pat -> nul_free s -> like_match pat s esc = true <-> like esc pat s.
Proof.
  remember (length pat) as n eqn:Hn. assert (length pat <= n)%nat as Hle by lia. clear Hn. revert pat s Hle.
  induction n as [|n IH]; intros pat s Hle Hp Hs; (destruct pat as [|c p]; [|simpl in Hle]); [|lia| |].
  1, 2: destruct s; cbn [like_match]; split; intros H; try done; [constructor|inversion H].
  assert (forall q t, (length q <= n)%nat -> nul_free q -> nul_free t -> like_match q t esc = true <-> like esc q t) as IH' by (intros; by apply IH). clear IH.
  apply Forall_cons in Hp as [Hc Hp]. rewrite like_match_cons. destruct (escapesb esc c p) eqn:Ee.
  { pose proof Ee as (E0 & -> & Hne)%escapesb_spec. destruct p as [|d p]; [done|]. apply Forall_cons in Hp as [Hd Hp]. simpl in Hle.
    rewrite (like_literal (fun t => like_match p t esc)) by (done || lia). split.
    - intros (x & t & -> & E & H). apply Forall_cons in Hs as [_ Hs]. constructor; [done|done|]. apply IH'; [lia|done|done|exact H].
    - intros H. inversion H as [|d' p' x t Hz Hd' Hl|p' u t Hn|p' x t Hn|a p' x t Hn]; subst; try (exfalso; apply Hn; by apply escapesb_spec).
      exists x, t. split; [done|]. split; [done|]. apply Forall_cons in Hs as [_ Hs]. apply IH'; [lia|done..]. }
  assert (~ escapes esc c p) as Hne by (rewrite <- escapesb_spec, Ee; done). assert (length p <= n)%nat as Hlp by lia.
  destruct (Z.eqb_spec c PCT) as [->|Hpct].
  { assert (like esc (PCT :: p) s <-> exists u t, s = u ++ t /\ like esc p t) as ->.
    { split; [intros H; inversion H; subst; try done; first [by eauto|exfalso; apply Hne; by split]|]. intros (u & t & -> & H). by constructor. }
    destruct p as [|d p]; [split; [intros _; exists s, []; split; [by rewrite app_nil_r|constructor]|done]|].
    destruct (Z.eqb_spec d PCT) as [->|Hd].
    - rewrite IH' by done. split; [intros H; by exists [], s|]. intros (u & t & -> & H). inversion H; subst; try done;
        first [rewrite app_assoc; by constructor|exfalso; apply Hne; by split].
    - rewrite any_suffix_spec. split.
      + intros (u & t & -> & Ht & H). exists u, t. split; [done|]. apply Forall_app in Hs as [_ Hs]. by apply IH'.
      + intros (u & t & -> & H). exists u, t. split; [done|]. apply Forall_app in Hs as [_ Hs]. split; [by eapply like_nonempty|by apply IH']. }
  destruct (Z.eqb_spec c UND) as [->|Hund].
  { destruct s as [|x t]; [split; [done|]; intros H; by inversion H|]. apply Forall_cons in Hs as [_ Hs]. rewrite IH' by done.
    split; [intros H; by constructor|]. intros H. inversion H; subst; try done; exfalso; apply Hne; by split. }
  rewrite (like_literal (fun t => like_match p t esc)) by (done || lia). split.
  - intros (x & t & -> & E & H). apply Forall_cons in Hs as [_ Hs]. constructor; [done..|]. by apply IH'.
  - intros H. inversion H; subst; try done; try (exfalso; apply Hne; by split). eexists _, _. split; [done|]. split; [done|]. apply Forall_cons in Hs as [_ Hs]. by apply IH'.
Qed.

(** ** GLOB needs no more rounds than the pattern has bytes *)

Lemma glob_class_len fuel first p c m m' r : glob_class fuel first p c m = Some (m', r) -> (length r < length p)%nat.
Proof.
  revert first p m. induction fuel as [|fuel IH]; intros first p m; [done|]. cbn [glob_class]. destruct p as [|a q]; [done|].
  assert (forall m2, glob_class fuel false q c m2 = Some (m', r) -> (length r < length (a :: q))%nat) as H1 by (intros m2 H; apply IH in H; simpl; lia).
  destruct (negb first && (a =? 93)); [intros [= <- <-]; simpl; lia|].
  assert (forall z r2 m2, q = 45 :: z :: r2 -> glob_class fuel false r2 c m2 = Some (m', r) -> (length r < length (a :: q))%nat) as H2 by (intros z r2 m2 -> H; apply IH in H; simpl; lia).
  intros H. repeat (case_match; subst); eauto.
Qed.
Lemma glob_any_ext (f g : list Z -> bool) s : (forall t, f t = g t) -> any_suffix f s = any_suffix g s.
Proof. intros H. induction s as [|c s IH]; [done|]. cbn [any_suffix]. by rewrite H, IH. Qed.
Lemma glob_fuel f g pat s : (length pat < f)%nat -> (length pat < g)%nat -> glob_loop f pat s = glob_loop g pat s.
Proof.
  revert g pat s. induction f as [|f IH]; intros g pat s Hf Hg; [lia|]. destruct g as [|g]; [lia|]. cbn [glob_loop]. destruct pat as [|c p]; [done|].
  simpl in Hf, Hg. assert (forall t, glob_loop f p t = glob_loop g p t) as Hp by (intros t; apply IH; lia).
  destruct (c =? 42); [destruct p as [|d q]; [done|]; destruct (d =? 42); [apply Hp|]; by apply (glob_any_ext (glob_loop f (d :: q)))|].
  destruct (c =? 63); [destruct s; [done|apply Hp]|]. destruct (c =? 91); [|by rewrite Hp].
  destruct (match p with [] => _ | _ => _ end) as [neg q] eqn:Eq. assert (length q <= length p)%nat as Hq by (destruct p as [|x p']; [by simplify_eq|]; repeat (case_match; simplify_eq); simpl; lia).
  destruct (glob_class _ _ _ _ _) as [[m r]|] eqn:Ec; [|done]. apply glob_class_len in Ec. destruct s; [done|]. destruct (Bool.eqb m neg); [done|]. apply IH; lia.
Qed.
