(* ===== verification/Eval.v ===== *)
(** * Expressions: resolution and evaluation (src/src/sql/tdb_exec.c)

    [resolve_expr] fills the slots of the nodes (the column, parameter,
    aggregate and window numbers); its result is a tree with those numbers.
    [eval] computes a node on a row, with the connection threaded through it.
    A status that the code ignores is ignored here.  Subqueries, the function
    library of tdb_exec_funcs.inc, stored routines, registered functions and
    Lua are parameters; [None] as an outcome is a step outside the language
    that ends the process.  Allocation succeeds. *)
From Stdlib Require Import SpecFloat.
From S2P Require Import Prelude Util Buf Value Record Cnum CnumSpec ValueText Geom Schema Sqltype Coerce Lexer Ast Pattern.

(** ** The connection *)

Record tdb_sequence := mk_sequence { sq_name : list Z; sq_cur : Z; sq_inc : Z; sq_has_cur : bool }.
(** The sequences and the message of the last error. *)
Record tdb_conn := mk_conn { cn_seqs : list tdb_sequence; cn_err : cstring }.
Definition M (A : Type) : Type := tdb_conn -> option (A * tdb_conn).
#[global] Instance M_ret : MRet M := fun A x db => Some (x, db).
#[global] Instance M_bind : MBind M := fun A B f m db => match m db with Some (x, db) => f x db | None => None end.
Definition crash {A} : M A := fun _ => None.
Definition tdb_db_seterr (m : list Z) : M unit := fun db => Some (tt, mk_conn (cn_seqs db) (Some m)).
Definition lift {A} (x : option A) : M A := match x with Some x => mret x | None => crash end.

Definition name_is (fn : name) (s : list Z) : bool := strcasecmp fn s =? 0.
Fixpoint seq_find (l : list tdb_sequence) (nm : list Z) : option tdb_sequence :=
  match l with
  | [] => None
  | s :: l => if strcasecmp (sq_name s) nm =? 0 then Some s else seq_find l nm
  end.
Fixpoint seq_put (l : list tdb_sequence) (s : tdb_sequence) : list tdb_sequence :=
  match l with
  | [] => []
  | x :: l => if strcasecmp (sq_name x) (sq_name s) =? 0 then s :: l else x :: seq_put l s
  end.
Definition tdb_db_seq_find (nm : list Z) (create : bool) : M (option tdb_sequence) := fun db =>
  match seq_find (cn_seqs db) nm with
  | Some s => Some (Some s, db)
  | None =>
      if create then let s := mk_sequence nm 0 1 false in Some (Some s, mk_conn (s :: cn_seqs db) (cn_err db))
      else Some (None, db)
  end.
(** The write through the pointer to a sequence of the list. *)
Definition seq_store (s : tdb_sequence) : M unit := fun db => Some (tt, mk_conn (seq_put (cn_seqs db) s) (cn_err db)).

(** ** Resolved expressions *)

#[warnings="-register-all"]
Inductive rexpr :=
| RLiteral (lit : tdb_value)
| RNull
| RColumn (col_index : Z) (outer_level : nat)
| RParam (index : Z)
| RUnary (op : tdb_token_kind) (e : rexpr)
| RBinary (op : tdb_token_kind) (negated : bool) (l r : rexpr) (esc : option rexpr)
| RFunc (fn : name) (args : list rexpr)
| RAgg (agg_index : Z)
| RWindow (win_index : Z)
| RCase (base : option rexpr) (whens : list rexpr) (els : option rexpr)
| RCast (e : rexpr) (ty : tdb_typespec)
| RInList (negated : bool) (e : rexpr) (args : list rexpr)
| RInSelect (negated : bool) (e : rexpr) (q : tdb_select)
| RBetween (negated : bool) (e lo hi : rexpr)
| RExists (q : tdb_select)
| RSubquery (q : tdb_select)
| RStar.

(** ** Evaluation *)

(** The rows of the query and of the queries around it, from the inside out
    ([None]: no row), the values of aggregates and windows, the parameters. *)
Record ectx := mk_ectx {
  ec_rows : list (option (list tdb_value)); ec_aggvals : option (list tdb_value);
  ec_winvals : option (list tdb_value); ec_params : list tdb_value }.
(** [i >= 0 && i < n ? copy of l[i] : NULL] *)
Definition slot (l : list tdb_value) (i : Z) : tdb_value := if (0 <=? i) && (i <? Z.of_nat (length l)) then nth (Z.to_nat i) l VNull else VNull.
Definition slot_opt (l : option (list tdb_value)) (i : Z) : tdb_value := match l with Some l => slot l i | None => VNull end.

Definition val_true (v : tdb_value) : bool :=
  match v with
  | VNull => false
  | VInt i => negb (i =? 0)
  | VReal r => negb (SFeqb (f64_of_bits r) (S754_zero false))
  | VText s | VBlob s | VComposite s => negb (blen s =? 0)
  end.
Definition is_null (v : tdb_value) : bool := match v with VNull => true | _ => false end.
Definition truth (b : bool) : tdb_value := VInt (if b then 1 else 0).
(** The C string of a value: [None] is the NULL pointer. *)
Definition text_of (v : tdb_value) : cstring := option_map cstr (tdb_value_as_text ok_alloc v).2.
Definition text_or_empty (v : tdb_value) : list Z := default [] (text_of v).

(** [fmod]: the exact remainder, with the sign of the first operand. *)
Definition c_fmod (a b : spec_float) : spec_float :=
  match a, b with
  | S754_nan, _ | _, S754_nan | S754_infinity _, _ | _, S754_zero _ => S754_nan
  | S754_zero _, _ | _, S754_infinity _ => a
  | S754_finite s m e, S754_finite _ n f =>
      let k := Z.min e f in
      let r := (Zpos m * 2 ^ (e - k)) mod (Zpos n * 2 ^ (f - k)) in
      if r =? 0 then S754_zero s else binary_normalize 53 1024 (if s then - r else r) k s
  end.
Definition real_value (f : spec_float) : tdb_value := VReal (bits_of_f64 f).

Definition bit_op (op : tdb_token_kind) (a b : Z) : Z :=
  match op with
  | TK_BITAND => Z.land a b
  | TK_BITOR => Z.lor a b
  | TK_SHL =>
      if (b <=? -64) || (64 <=? b) then 0
      else if b <? 0 then s64 (Z.shiftr (u64 a) (- b)) else s64 (u64 (Z.shiftl (u64 a) b))
  | TK_SHR =>
      if (b <=? -64) || (64 <=? b) then 0
      else if b <? 0 then s64 (u64 (Z.shiftl (u64 a) (- b))) else s64 (Z.shiftr (u64 a) b)
  | _ => 0
  end.
(** Integer arithmetic: sums and products wrap; the quotient that does not fit,
    [INT64_MIN / -1], is trapped by the processor. *)
Definition int_op (op : tdb_token_kind) (a b : Z) : M tdb_value :=
  match op with
  | TK_PLUS => mret (VInt (s64 (a + b)))
  | TK_MINUS => mret (VInt (s64 (a - b)))
  | TK_STAR => mret (VInt (s64 (a * b)))
  | TK_SLASH => if b =? 0 then mret VNull else if (a =? - 2 ^ 63) && (b =? -1) then crash else mret (VInt (Z.quot a b))
  | TK_PERCENT => if b =? 0 then mret VNull else if (a =? - 2 ^ 63) && (b =? -1) then crash else mret (VInt (Z.rem a b))
  | _ => mret VNull
  end.
Definition is_arith (op : tdb_token_kind) : bool := match op with TK_PLUS | TK_MINUS | TK_STAR | TK_SLASH | TK_PERCENT => true | _ => false end.
Definition is_zero (f : spec_float) : bool := SFeqb f (S754_zero false).
Definition real_op (op : tdb_token_kind) (a b : spec_float) : tdb_status * tdb_value :=
  match op with
  | TK_PLUS => (TDB_OK, real_value (dadd a b))
  | TK_MINUS => (TDB_OK, real_value (dsub a b))
  | TK_STAR => (TDB_OK, real_value (dmul a b))
  | TK_SLASH => if is_zero b then (TDB_OK, VNull) else (TDB_OK, real_value (ddiv a b))
  | TK_PERCENT => if is_zero b then (TDB_OK, VNull) else (TDB_OK, real_value (c_fmod a b))
  | _ => (TDB_ERROR, real_value (S754_zero false))
  end.
Definition cmp_op (op : tdb_token_kind) (cmp : Z) : bool :=
  match op with
  | TK_EQ => cmp =? 0 | TK_NE => negb (cmp =? 0) | TK_LT => cmp <? 0 | TK_LE => cmp <=? 0 | TK_GT => 0 <? cmp | TK_GE => 0 <=? cmp | _ => false
  end.
Definition is_cmp (op : tdb_token_kind) : bool := match op with TK_EQ | TK_NE | TK_LT | TK_LE | TK_GT | TK_GE => true | _ => false end.
Definition is_bit (op : tdb_token_kind) : bool := match op with TK_BITAND | TK_BITOR | TK_SHL | TK_SHR => true | _ => false end.
Definition compare (a b : tdb_value) : Z := tdb_value_compare a b TDB_COLL_BINARY.

(** An operand: its status and value. *)
Definition ev := M (tdb_status * tdb_value).
Definition ok (v : tdb_value) : ev := mret (TDB_OK, v).
(** An operand whose status is ignored. *)
Definition value_of (e : ev) : M tdb_value := r ← e; mret r.2.

Definition eval_logic (conj_ : bool) (left right : ev) : ev :=
  l ← value_of left;
  if conj_ : bool then if negb (val_true l) then ok (VInt 0) else r ← value_of right; ok (truth (val_true r))
  else if val_true l then ok (VInt 1) else r ← value_of right; ok (truth (val_true r)).
Definition eval_concat (l r : tdb_value) : ev :=
  if is_null l || is_null r then ok VNull
  else let s := text_or_empty l ++ text_or_empty r in ok (tdb_value_set_text ok_alloc s (s32 (blen s)) true).2.
Definition eval_match (glob negated : bool) (l r : tdb_value) (esc : option ev) : ev :=
  if is_null l || is_null r then ok VNull
  else
    m ← (if glob : bool then mret (glob_match (text_or_empty r) (text_or_empty l))
         else
           esc ← match esc with Some ee => v ← value_of ee; mret (hd0 (text_or_empty v)) | None => mret 0 end;
           mret (like_match (text_or_empty r) (text_or_empty l) esc));
    ok (truth (xorb negated m)).
Definition eval_is (negated : bool) (l r : tdb_value) : ev :=
  let eq := if is_null l && is_null r then true else if is_null l || is_null r then false else compare l r =? 0 in
  ok (truth (xorb negated eq)).
Definition eval_arith (op : tdb_token_kind) (l r : tdb_value) : ev :=
  match l, r with
  | VInt a, VInt b => if is_arith op then v ← int_op op a b; ok v else mret (real_op op (tdb_value_as_real l) (tdb_value_as_real r))
  | _, _ => mret (real_op op (tdb_value_as_real l) (tdb_value_as_real r))
  end.
Definition eval_binary (op : tdb_token_kind) (negated : bool) (left right : ev) (esc : option ev) : ev :=
  if tk_eqb op TK_AND || tk_eqb op TK_OR then eval_logic (tk_eqb op TK_AND) left right
  else
    l ← value_of left;
    r ← value_of right;
    if tk_eqb op TK_CONCAT then eval_concat l r
    else if tk_eqb op TK_LIKE || tk_eqb op TK_GLOB then eval_match (tk_eqb op TK_GLOB) negated l r esc
    else if tk_eqb op TK_IS then eval_is negated l r
    else if is_cmp op then if is_null l || is_null r then ok VNull else ok (truth (cmp_op op (compare l r)))
    else if is_bit op then if is_null l || is_null r then ok VNull else ok (VInt (bit_op op (tdb_value_as_int l) (tdb_value_as_int r)))
    else if is_null l || is_null r then ok VNull
    else eval_arith op l r.

(** ** Functions *)

Definition text_value (s : list Z) (n : Z) : tdb_value := (tdb_value_set_text ok_alloc s n true).2.
Definition fn_abs (a : tdb_value) : tdb_value :=
  match a with
  | VReal r => VReal (Z.land r (2 ^ 63 - 1))
  | _ => VInt (s64 (Z.abs (tdb_value_as_int a)))
  end.
Definition fn_length (a : tdb_value) : tdb_value := VInt (match text_of a with Some s => blen s | None => 0 end).
Definition fn_case (up : bool) (a : tdb_value) : tdb_value :=
  match text_of a with
  | None => VNull
  | Some s => text_value (map (if up then toupper else tolower) s) (s32 (blen s))
  end.
(** The first argument that is not NULL. *)
Fixpoint coalesce (args : list ev) : M tdb_value :=
  match args with
  | [] => mret VNull
  | a :: args => v ← value_of a; if is_null v then coalesce args else mret v
  end.
Definition fn_nullif (a b : tdb_value) : tdb_value := if negb (is_null a) && negb (is_null b) && (compare a b =? 0) then VNull else a.
Definition fn_typeof (a : tdb_value) : tdb_value :=
  text_value (match a with
              | VNull => str "null" | VInt _ => str "integer" | VReal _ => str "real" | VBlob _ => str "blob"
              | VComposite _ => str "composite" | VText _ => str "text"
              end) (-1).
Fixpoint values (args : list ev) : M (list tdb_value) :=
  match args with
  | [] => mret []
  | a :: args => v ← value_of a; l ← values args; mret (v :: l)
  end.
(** A blob read from storage is a composite again. *)
Definition retag (a : tdb_value) : tdb_value := match a with VBlob s => VComposite s | _ => a end.
Definition fn_composite_extract (a i : tdb_value) : tdb_value :=
  match tdb_value_composite_field ok_alloc (retag a) (s32 (tdb_value_as_int i) - 1) with (TDB_OK, v) => v | _ => VNull end.
Definition fn_substr (a start : tdb_value) (len : option tdb_value) : tdb_value :=
  match text_of a with
  | None => VNull
  | Some s =>
      let slen := s32 (blen s) in
      let start := s32 (tdb_value_as_int start) in
      let len := match len with Some v => s32 (tdb_value_as_int v) | None => slen end in
      let start := if start <? 0 then slen + start + 1 else start in
      let start := if start <? 1 then 1 else start in
      let begin := start - 1 in
      let begin := if slen <? begin then slen else begin in
      let avail := slen - begin in
      let len := if len <? 0 then 0 else len in
      let len := if avail <? len then avail else len in
      text_value (bfrom s begin) len
  end.
Definition prefixb (p s : list Z) : bool := if decide (take (length p) s = p) then true else false.
(** A round takes a byte at least: [from] is not empty. *)
Fixpoint replace_loop (fuel : nat) (p from to : list Z) : list Z :=
  match fuel, p with
  | S fuel, c :: t => if prefixb from p then to ++ replace_loop fuel (drop (length from) p) from to else c :: replace_loop fuel t from to
  | _, _ => []
  end.
Definition fn_replace (a vf vt : tdb_value) : tdb_value :=
  match text_of a, text_of vf with
  | Some s, Some (c :: f) => let r := replace_loop (length s) s (c :: f) (text_or_empty vt) in text_value r (s32 (blen r))
  | Some s, _ => text_value s (-1)
  | None, _ => VNull
  end.
Fixpoint drop_space (s : list Z) : list Z := match s with c :: t => if isspace c then drop_space t else s | [] => [] end.
Definition fn_trim (leading trailing : bool) (a : tdb_value) : tdb_value :=
  match text_of a with
  | None => VNull
  | Some s =>
      let s := if leading then drop_space s else s in
      let s := if trailing then reverse (drop_space (reverse s)) else s in
      text_value s (blen s)
  end.
(** [strstr]: the offset of the first occurrence. *)
Fixpoint strstr (s sub : list Z) (at_ : Z) : option Z :=
  if prefixb sub s then Some at_ else match s with [] => None | _ :: t => strstr t sub (at_ + 1) end.
Definition fn_instr (a b : tdb_value) : tdb_value :=
  VInt (match text_of a, text_of b with
        | Some s, Some sub => match strstr s sub 0 with Some i => i + 1 | None => 0 end
        | _, _ => 0
        end).

(** *** Geometry *)

Definition blob_of (a : tdb_value) : option (list Z) := match a with VBlob s => Some s | _ => None end.
Definition fn_geomfromtext (a : tdb_value) : ev :=
  match text_of a with
  | None => ok VNull
  | Some s =>
      '(rc, b, gw) ← lift (tdb_geom_from_wkt ok_alloc s tdb_buf_init);
      match rc with
      | TDB_OK => ok (tdb_value_set_blob ok_alloc (b_data b) (s32 (b_len b)) true).2
      | _ => tdb_db_seterr (str "ST_GeomFromText: " ++ match gw with Some w => w | None => str "invalid WKT" end);; mret (TDB_ERROR, VNull)
      end
  end.
Definition fn_st_point (x y : tdb_value) : ev :=
  if is_null x || is_null y then ok VNull
  else
    let g (v : tdb_value) := fmt_g 6 (bits_of_f64 (tdb_value_as_real v)) in
    let wkt := bsub (str "POINT(" ++ g x ++ str " " ++ g y ++ str ")") 0 95 in
    '(_, b, _) ← lift (tdb_geom_from_wkt ok_alloc wkt tdb_buf_init);
    ok (tdb_value_set_blob ok_alloc (b_data b) (s32 (b_len b)) true).2.
Definition fn_st_astext (a : tdb_value) : ev :=
  match blob_of a with
  | None => ok VNull
  | Some s =>
      '(rc, b) ← lift (tdb_geom_to_wkt ok_alloc s tdb_buf_init);
      match rc with TDB_OK => ok (text_value (b_data b) (s32 (b_len b))) | _ => ok VNull end
  end.
Definition fn_st_xy (first : bool) (a : tdb_value) : tdb_value :=
  match (s ← blob_of a; tdb_geom_point_xy s) with Some (x, y) => real_value (if first then x else y) | None => VNull end.
Definition fn_st_distance (a b : tdb_value) : option spec_float := s ← blob_of a; t ← blob_of b; tdb_geom_distance s t.
Definition fn_st_contains (poly p : tdb_value) : tdb_value :=
  match (s ← blob_of poly; t ← blob_of p; xy ← rep_point t; Some (s, xy)) with
  | Some (s, (px, py)) => truth (tdb_geom_contains_point s px py)
  | None => VNull
  end.
Definition fn_st_intersects (a b : tdb_value) : tdb_value :=
  match (s ← blob_of a; t ← blob_of b; ba ← tdb_geom_bbox s; bb ← tdb_geom_bbox t; Some (tdb_bbox_intersects ba bb)) with
  | Some r => truth r
  | None => VNull
  end.

(** *** Sequences *)

Definition fn_nextval (a : tdb_value) : ev :=
  s ← match text_of a with Some nm => tdb_db_seq_find nm true | None => mret None end;
  match s with
  | None => tdb_db_seterr (str "nextval: invalid sequence name");; mret (TDB_ERROR, VNull)
  | Some s =>
      let s := if sq_has_cur s then mk_sequence (sq_name s) (s64 (sq_cur s + sq_inc s)) (sq_inc s) true else mk_sequence (sq_name s) 1 (sq_inc s) true in
      seq_store s;; ok (VInt (sq_cur s))
  end.
Definition fn_currval (a : tdb_value) : ev :=
  s ← match text_of a with Some nm => tdb_db_seq_find nm false | None => mret None end;
  let err := tdb_db_seterr (str "currval: nextval has not been called for this sequence");; mret (TDB_ERROR, VNull) in
  match s with
  | Some s => if sq_has_cur s then ok (VInt (sq_cur s)) else err
  | None => err
  end.
Definition fn_setval (a v : tdb_value) : ev :=
  let n := tdb_value_as_int v in
  s ← match text_of a with Some nm => tdb_db_seq_find nm true | None => mret None end;
  match s with
  | None => tdb_db_seterr (str "setval: invalid sequence name");; mret (TDB_ERROR, VNull)
  | Some s => seq_store (mk_sequence (sq_name s) n (sq_inc s) true);; ok (VInt n)
  end.

(** ** The evaluator *)

Section Eval.
(** [extra] is [try_builtin_extra]: 1 when it handled the function, 0 when it
    does not know it, negative on an error.  [find_plsql], [find_function] and
    [find_lua] look up stored routines, registered functions and Lua functions;
    [c_pow] and [c_round] are those of the C library; [max_txnid] is the clock
    of the pager; [subselect] runs a query: its columns and rows, or [None]. *)
Context (extra : ectx -> name -> list ev -> M (Z * tdb_value)).
Context (find_plsql : name -> option (list tdb_value -> M (tdb_status * tdb_value * list Z))).
Context (find_function : name -> Z -> option (list tdb_value -> M (tdb_value * cstring))).
Context (find_lua : name -> option (list tdb_value -> M (tdb_status * tdb_value * cstring))).
Context (c_pow : spec_float -> spec_float -> spec_float) (c_round : spec_float -> spec_float).
Context (max_txnid : M Z) (subselect : ectx -> tdb_select -> M (option (Z * list (list tdb_value)))).

Definition fn_round (a : tdb_value) (nd : option tdb_value) : tdb_value :=
  let x := tdb_value_as_real a in
  let nd := match nd with Some v => s32 (tdb_value_as_int v) | None => 0 end in
  let p := c_pow (f64_of_int 10) (f64_of_int nd) in
  real_value (ddiv (c_round (dmul x p)) p).

(** A call of a routine or function from outside: all arguments are evaluated,
    the first one for the second time. *)
Definition call_plsql (f : list tdb_value -> M (tdb_status * tdb_value * list Z)) (args : list ev) : ev :=
  vs ← values args;
  '(rc, res, perr) ← f vs;
  match rc with TDB_OK => ok res | _ => tdb_db_seterr perr;; mret (TDB_ERROR, VNull) end.
Definition call_function (f : list tdb_value -> M (tdb_value * cstring)) (args : list ev) : ev :=
  vs ← values args;
  '(out, err) ← f vs;
  match err with None => ok out | Some m => tdb_db_seterr m;; mret (TDB_ERROR, out) end.
Definition call_lua (f : list tdb_value -> M (tdb_status * tdb_value * cstring)) (args : list ev) : ev :=
  vs ← values args;
  '(rc, out, lerr) ← f vs;
  match rc with TDB_OK => ok out | _ => tdb_db_seterr (default (str "lua error") lerr);; mret (TDB_ERROR, out) end.
Definition eval_external (fn : name) (args : list ev) : ev :=
  match find_plsql fn with
  | Some f => call_plsql f args
  | None =>
      match find_function fn (Z.of_nat (length args)) with
      | Some f => call_function f args
      | None =>
          match find_lua fn with
          | Some f => call_lua f args
          | None => tdb_db_seterr (str "no such function: " ++ fn);; mret (TDB_ERROR, VNull)
          end
      end
  end.
Definition eval_func (c : ectx) (fn : name) (args : list ev) : ev :=
  '(r, out) ← extra c fn args;
  if r =? 1 then ok out
  else if r <? 0 then mret (TDB_ERROR, out)
  else
    let argc := Z.of_nat (length args) in
    let is_ (s : String.string) (n : Z) := name_is fn (str s) && (argc =? n) in
    let arg (i : nat) := value_of (nth i args (ok VNull)) in
    a0 ← (if 1 <=? argc then arg 0%nat else mret VNull);
    if is_ "abs" 1 then ok (fn_abs a0)
    else if is_ "length" 1 then ok (fn_length a0)
    else if is_ "upper" 1 || is_ "lower" 1 then ok (fn_case (name_is fn (str "upper")) a0)
    else if name_is fn (str "coalesce") then v ← coalesce args; ok v
    else if is_ "ifnull" 2 then if is_null a0 then v ← arg 1%nat; ok v else ok a0
    else if is_ "nullif" 2 then v ← arg 1%nat; ok (fn_nullif a0 v)
    else if is_ "typeof" 1 then ok (fn_typeof a0)
    else if name_is fn (str "row") || name_is fn (str "composite") then vs ← values args; ok (tdb_value_composite_pack ok_alloc vs).2
    else if is_ "composite_extract" 2 then i ← arg 1%nat; ok (fn_composite_extract a0 i)
    else if is_ "composite_count" 1 then ok (VInt (tdb_value_composite_count ok_alloc (retag a0)))
    else if is_ "round" 1 then ok (fn_round a0 None)
    else if is_ "round" 2 then v ← arg 1%nat; ok (fn_round a0 (Some v))
    else if is_ "substr" 2 || is_ "substr" 3 then
      match text_of a0 with
      | None => ok VNull
      | Some _ =>
          v1 ← arg 1%nat;
          if argc =? 3 then v2 ← arg 2%nat; ok (fn_substr a0 v1 (Some v2)) else ok (fn_substr a0 v1 None)
      end
    else if is_ "replace" 3 then vf ← arg 1%nat; vt ← arg 2%nat; ok (fn_replace a0 vf vt)
    else if is_ "trim" 1 || is_ "ltrim" 1 || is_ "rtrim" 1 then
      ok (fn_trim (negb (name_is fn (str "rtrim"))) (negb (name_is fn (str "ltrim"))) a0)
    else if is_ "instr" 2 then v ← arg 1%nat; ok (fn_instr a0 v)
    else if is_ "current_version" 0 then v ← max_txnid; ok (VInt (s64 v))
    else if is_ "st_geomfromtext" 1 || is_ "st_geometryfromtext" 1 || is_ "geomfromtext" 1 then fn_geomfromtext a0
    else if is_ "st_point" 2 then v ← arg 1%nat; fn_st_point a0 v
    else if is_ "st_astext" 1 || is_ "astext" 1 then fn_st_astext a0
    else if is_ "st_x" 1 || is_ "st_y" 1 then ok (fn_st_xy (name_is fn (str "st_x")) a0)
    else if is_ "st_distance" 2 then v ← arg 1%nat; ok (match fn_st_distance a0 v with Some d => real_value d | None => VNull end)
    else if is_ "st_dwithin" 3 then
      v1 ← arg 1%nat; v2 ← arg 2%nat;
      ok (match fn_st_distance a0 v1 with Some d => truth (SFleb d (tdb_value_as_real v2)) | None => VNull end)
    else if is_ "st_contains" 2 then v ← arg 1%nat; ok (fn_st_contains a0 v)
    else if is_ "st_within" 2 then v ← arg 1%nat; ok (fn_st_contains v a0)
    else if is_ "st_intersects" 2 then v ← arg 1%nat; ok (fn_st_intersects a0 v)
    else if is_ "nextval" 1 then fn_nextval a0
    else if is_ "currval" 1 then fn_currval a0
    else if is_ "setval" 2 then v ← arg 1%nat; fn_setval a0 v
    else eval_external fn args.

Definition eval_unary (op : tdb_token_kind) (e : ev) : ev :=
  v ← value_of e;
  if tk_eqb op TK_NOT then ok (truth (negb (val_true v)))
  else if tk_eqb op TK_MINUS then
    ok (match v with VReal r => VReal (Z.lxor r (2 ^ 63)) | VInt i => VInt (s64 (- i)) | _ => VNull end)
  else if tk_eqb op TK_BITNOT then if is_null v then ok VNull else ok (VInt (Z.lnot (tdb_value_as_int v)))
  else ok v.
(** The result of [tdb_typespec_coerce] is ignored, the value is taken as it is
    left. *)
Definition eval_cast (e : ev) (ty : tdb_typespec) : ev :=
  v ← value_of e;
  '(_, v, _) ← lift (tdb_typespec_coerce ok_alloc true 0 v ty);
  ok v.
Definition eval_between (negated : bool) (e lo hi : ev) : ev :=
  x ← value_of e; lo ← value_of lo; hi ← value_of hi;
  ok (truth (xorb negated ((0 <=? compare x lo) && (compare x hi <=? 0)))).
(** [x] equals [v], and neither is NULL. *)
Definition in_hit (x v : tdb_value) : bool := negb (is_null x) && negb (is_null v) && (compare x v =? 0).
Fixpoint in_list (x : tdb_value) (args : list ev) : M bool :=
  match args with
  | [] => mret false
  | a :: args => v ← value_of a; if in_hit x v then mret true else in_list x args
  end.
Definition eval_in_select (negated : bool) (c : ectx) (e : ev) (q : tdb_select) : ev :=
  x ← value_of e;
  r ← subselect c q;
  let res := match r with Some (ncol, rows) => existsb (fun row => (0 <? ncol) && in_hit x (nth 0 row VNull)) rows | None => false end in
  ok (truth (xorb negated res)).
Fixpoint case_loop (base : option tdb_value) (whens : list ev) (els : option ev) : M tdb_value :=
  match whens with
  | w :: t :: whens =>
      v ← value_of w;
      if match base with Some b => compare b v =? 0 | None => val_true v end then value_of t else case_loop base whens els
  | _ => match els with Some e => value_of e | None => mret VNull end
  end.
Definition eval_case (base : option ev) (whens : list ev) (els : option ev) : ev :=
  b ← match base with Some e => v ← value_of e; mret (Some v) | None => mret None end;
  v ← case_loop b whens els; ok v.

Fixpoint eval (c : ectx) (e : rexpr) : ev :=
  match e with
  | RLiteral v => ok v
  | RNull => ok VNull
  | RColumn i up => ok (match nth up (ec_rows c) None with Some row => slot row i | None => VNull end)
  | RParam i => ok (slot (ec_params c) i)
  | RAgg i => ok (slot_opt (ec_aggvals c) i)
  | RWindow i => ok (slot_opt (ec_winvals c) i)
  | RUnary op e => eval_unary op (eval c e)
  | RBinary op negated l r esc => eval_binary op negated (eval c l) (eval c r) (option_map (eval c) esc)
  | RFunc fn args => eval_func c fn (map (eval c) args)
  | RCast e ty => eval_cast (eval c e) ty
  | RBetween negated e lo hi => eval_between negated (eval c e) (eval c lo) (eval c hi)
  | RInList negated e args => x ← value_of (eval c e); res ← in_list x (map (eval c) args); ok (truth (xorb negated res))
  | RInSelect negated e q => eval_in_select negated c (eval c e) q
  | RSubquery q =>
      r ← subselect c q;
      ok (match r with Some (ncol, row :: _) => if 0 <? ncol then nth 0 row VNull else VNull | _ => VNull end)
  | RExists q => r ← subselect c q; ok (truth (match r with Some (_, _ :: _) => true | _ => false end))
  | RCase base whens els => eval_case (option_map (eval c) base) (map (eval c) whens) (option_map (eval c) els)
  | RStar => ok VNull
  end.
End Eval.
