(* ===== verification/Resolve.v ===== *)
(** * Name resolution (src/src/sql/tdb_exec.c)

    [resolve_expr] gives every column its place in the combined row of the
    query, every parameter, aggregate and window call a number.  Here the nodes
    are values, so it returns the tree with the numbers filled in.  A column is
    looked for in the sources of the query and then in those of the queries
    around it. *)
From S2P Require Import Prelude Value Schema Sqltype Lexer Ast Eval.

Record qsrc := mk_qsrc {
  qs_tbl : option tdb_table; qs_alias : cstring; qs_base : Z; qs_ncol : Z; qs_colnames : list cstring;
  qs_join : tdb_join_kind; qs_on : option rexpr }.
(** The state of a query's resolution: the aggregate and window calls found (a
    name, DISTINCT and the arguments; for a window its partition and order), the
    number of parameters, the error of the connection. *)
Record wcall := mk_wcall { wc_args : list rexpr; wc_partition : list rexpr; wc_order : list (rexpr * bool) }.
Record qctx := mk_qctx {
  q_scopes : list (list qsrc); q_aggs : list (list rexpr); q_wins : list wcall; q_paramcount : Z; q_err : bool; q_msg : cstring }.
Definition R (A : Type) : Type := qctx -> option A * qctx.
#[global] Instance R_ret : MRet R := fun A x q => (Some x, q).
#[global] Instance R_bind : MBind R := fun A B f m q => match m q with (Some x, q) => f x q | (None, q) => (None, q) end.

(** The first of the names that equals [nm]. *)
Fixpoint find_colname (l : list cstring) (nm : name) (k : Z) : Z :=
  match l with
  | [] => -1
  | c :: l => if match c with Some c => strcasecmp c nm =? 0 | None => false end then k else find_colname l nm (k + 1)
  end.
(** The column [nm] of the source, or -1. *)
Definition src_column (s : qsrc) (nm : name) : Z :=
  match qs_tbl s with Some t => tdb_table_find_column t nm | None => find_colname (take (Z.to_nat (qs_ncol s)) (qs_colnames s)) nm 0 end.
Definition src_name (s : qsrc) : cstring :=
  match qs_alias s with Some a => Some a | None => match qs_tbl s with Some t => tb_name t | None => None end end.
(** The source is the one the qualifier names; without one every source is. *)
Definition src_qualified (table : option name) (s : qsrc) : bool :=
  match table with
  | None => true
  | Some t => match src_name s with Some nm => strcasecmp nm t =? 0 | None => false end
  end.
Fixpoint find_in_sources (l : list qsrc) (table : option name) (nm : name) : option Z :=
  match l with
  | [] => None
  | s :: l =>
      if src_qualified table s && (0 <=? src_column s nm) then Some (qs_base s + src_column s nm) else find_in_sources l table nm
  end.
Fixpoint find_in_scopes (l : list (list qsrc)) (table : option name) (nm : name) (level : nat) : option (Z * nat) :=
  match l with
  | [] => None
  | scope :: l =>
      match find_in_sources scope table nm with Some ci => Some (ci, level) | None => find_in_scopes l table nm (S level) end
  end.
Definition resolve_fail (nm : name) : R rexpr := fun q =>
  (None, mk_qctx (q_scopes q) (q_aggs q) (q_wins q) (q_paramcount q) true (Some (str "no such column: " ++ nm))).
Definition resolve_column (table : option name) (nm : name) : R rexpr := fun q =>
  match find_in_scopes (q_scopes q) table nm 0 with
  | Some (ci, level) => (Some (RColumn ci level), q)
  | None => resolve_fail nm q
  end.

Definition new_param : R Z := fun q => (Some (q_paramcount q), mk_qctx (q_scopes q) (q_aggs q) (q_wins q) (q_paramcount q + 1) (q_err q) (q_msg q)).
(** A slot for an aggregate call, filled when its arguments are resolved; -1
    when the sixty-four are used up. *)
Definition new_agg : R Z := fun q =>
  if Z.of_nat (length (q_aggs q)) <? 64 then
    (Some (Z.of_nat (length (q_aggs q))), mk_qctx (q_scopes q) (q_aggs q ++ [[]]) (q_wins q) (q_paramcount q) (q_err q) (q_msg q))
  else (Some (-1), q).
Definition set_agg (i : Z) (args : list rexpr) : R unit := fun q =>
  if i <? 0 then (Some tt, q)
  else (Some tt, mk_qctx (q_scopes q) (<[Z.to_nat i := args]> (q_aggs q)) (q_wins q) (q_paramcount q) (q_err q) (q_msg q)).
Definition new_win : R Z := fun q =>
  if Z.of_nat (length (q_wins q)) <? 32 then
    (Some (Z.of_nat (length (q_wins q))), mk_qctx (q_scopes q) (q_aggs q) (q_wins q ++ [mk_wcall [] [] []]) (q_paramcount q) (q_err q) (q_msg q))
  else (Some (-1), q).
Definition set_win (i : Z) (w : wcall) : R unit := fun q =>
  if i <? 0 then (Some tt, q)
  else (Some tt, mk_qctx (q_scopes q) (q_aggs q) (<[Z.to_nat i := w]> (q_wins q)) (q_paramcount q) (q_err q) (q_msg q)).

(** A node that was never visited: the constructor left its numbers at -1. *)
Fixpoint unresolved (e : tdb_expr) : rexpr :=
  match e with
  | EX_LITERAL v => RLiteral v
  | EX_NULL => RNull
  | EX_COLUMN _ _ => RColumn (-1) 0
  | EX_PARAM _ => RParam (-1)
  | EX_UNARY op e => RUnary op (unresolved e)
  | EX_BINARY op negated l r esc => RBinary op negated (unresolved l) (unresolved r) (option_map unresolved esc)
  | EX_FUNC fn _ args => RFunc fn (map unresolved args)
  | EX_AGG _ _ _ => RAgg (-1)
  | EX_CASE base whens els => RCase (option_map unresolved base) (map unresolved whens) (option_map unresolved els)
  | EX_CAST e ty => RCast (unresolved e) ty
  | EX_IN_LIST negated e args => RInList negated (unresolved e) (map unresolved args)
  | EX_IN_SELECT negated e q => RInSelect negated (unresolved e) q
  | EX_BETWEEN negated e lo hi => RBetween negated (unresolved e) (unresolved lo) (unresolved hi)
  | EX_EXISTS q => RExists q
  | EX_SUBQUERY q => RSubquery q
  | EX_STAR => RStar
  | EX_WINDOW _ _ _ _ _ => RWindow (-1)
  end.

Fixpoint resolve_expr (e : tdb_expr) : R rexpr :=
  let resolve_list := fix resolve_list (l : list tdb_expr) : R (list rexpr) :=
    match l with [] => mret [] | x :: l => y ← resolve_expr x; l ← resolve_list l; mret (y :: l) end in
  let resolve_order := fix resolve_order (l : list (tdb_expr * bool)) : R (list (rexpr * bool)) :=
    match l with [] => mret [] | (x, d) :: l => y ← resolve_expr x; l ← resolve_order l; mret ((y, d) :: l) end in
  let resolve_opt (x : option tdb_expr) : R (option rexpr) :=
    match x with Some x => y ← resolve_expr x; mret (Some y) | None => mret None end in
  match e with
  | EX_COLUMN t c => resolve_column t c
  | EX_PARAM _ => i ← new_param; mret (RParam i)
  | EX_AGG fn distinct args => i ← new_agg; args ← resolve_list args; set_agg i args;; mret (RAgg i)
  | EX_WINDOW fn distinct args partition order =>
      i ← new_win;
      args ← resolve_list args;
      partition ← resolve_list partition;
      order ← resolve_order order;
      set_win i (mk_wcall args partition order);; mret (RWindow i)
  (* the ESCAPE operand, kept in args, is not visited *)
  | EX_BINARY op negated l r esc => l ← resolve_expr l; r ← resolve_expr r; mret (RBinary op negated l r (option_map unresolved esc))
  | EX_UNARY op e => e ← resolve_expr e; mret (RUnary op e)
  | EX_FUNC fn _ args => args ← resolve_list args; mret (RFunc fn args)
  | EX_IN_LIST negated e args => e ← resolve_expr e; args ← resolve_list args; mret (RInList negated e args)
  | EX_IN_SELECT negated e q => e ← resolve_expr e; mret (RInSelect negated e q)
  | EX_BETWEEN negated e lo hi => e ← resolve_expr e; lo ← resolve_expr lo; hi ← resolve_expr hi; mret (RBetween negated e lo hi)
  | EX_CASE base whens els =>
      base ← resolve_opt base;
      els ← resolve_opt els;
      whens ← resolve_list whens;
      mret (RCase base whens els)
  | EX_CAST e ty => e ← resolve_expr e; mret (RCast e ty)
  | EX_LITERAL v => mret (RLiteral v)
  | EX_NULL => mret RNull
  | EX_EXISTS q => mret (RExists q)
  | EX_SUBQUERY q => mret (RSubquery q)
  | EX_STAR => mret RStar
  end.
Fixpoint resolve_list (l : list tdb_expr) : R (list rexpr) :=
  match l with [] => mret [] | x :: l => y ← resolve_expr x; l ← resolve_list l; mret (y :: l) end.

(** ** The first column of a name *)

Lemma find_column_colnames cols nm i : find_column cols nm i = find_colname (map col_name cols) nm i.
Proof. revert i. induction cols as [|c cols IH]; intros i; cbn [find_column find_colname map]; [done|]. by destruct (match col_name c with Some _ => _ | None => _ end). Qed.
Lemma find_colname_first l nm i :
  (find_colname l nm i = -1 /\ forall k n, l !! k = Some (Some n) -> ~ same_word n nm)
  \/ exists k n, find_colname l nm i = i + Z.of_nat k /\ l !! k = Some (Some n) /\ same_word n nm /\ forall j n', (j < k)%nat -> l !! j = Some (Some n') -> ~ same_word n' nm.
Proof.
  revert i. induction l as [|c l IH]; intros i; cbn [find_colname]; [left; split; [done|]; intros k n; by rewrite lookup_nil|].
  assert ((exists n, c = Some n /\ same_word n nm) /\ match c with Some c => strcasecmp c nm =? 0 | None => false end = true
    \/ (forall n, c = Some n -> ~ same_word n nm) /\ match c with Some c => strcasecmp c nm =? 0 | None => false end = false) as [[(n & -> & Hn) ->]|[Hc ->]].
  { destruct c as [n|]; [|by right]. destruct (strcasecmp n nm =? 0) eqn:E; [left; split; [exists n; by rewrite <- strcasecmp_same|done]|].
    right. split; [|done]. intros n' [= <-]. rewrite <- strcasecmp_same. congruence. }
  - right. exists 0%nat, n. split; [lia|]. split; [done|]. split; [done|lia].
  - destruct (IH (i + 1)) as [[-> Hno]|(k & n & -> & Hk & Hn & Hfirst)].
    + left. split; [done|]. intros [|k] n; cbn [lookup list_lookup]; [by intros [= ->]; apply Hc|apply Hno].
    + right. exists (S k), n. split; [lia|]. split; [done|]. split; [done|]. intros [|j] n' Hj; cbn [lookup list_lookup]; [by intros [= ->]; apply Hc|apply Hfirst; lia].
Qed.
