(* ===== verification/EvalSpec.v ===== *)
(** * Properties of the evaluator

    Expressions without calls, subqueries, casts and divisions neither fail nor
    touch the connection; what the others do shows in a few runs. *)
From Stdlib Require Import SpecFloat.
From S2P Require Import Prelude Util Buf Value Record Cnum ValueText Geom Schema Sqltype Coerce Lexer Ast Pattern Eval Resolve.

(** ** Induction on resolved expressions *)

Section Induction.
Context (P : rexpr -> Prop).
Definition P_opt (o : option rexpr) : Prop := match o with Some e => P e | None => True end.
Context (Hlit : forall v, P (RLiteral v)) (Hnull : P RNull) (Hcol : forall i up, P (RColumn i up)) (Hparam : forall i, P (RParam i))
  (Hun : forall op e, P e -> P (RUnary op e))
  (Hbin : forall op ng l r esc, P l -> P r -> P_opt esc -> P (RBinary op ng l r esc))
  (Hfn : forall fn args, Forall P args -> P (RFunc fn args)) (Hagg : forall i, P (RAgg i)) (Hwin : forall i, P (RWindow i))
  (Hcase : forall b ws els, P_opt b -> Forall P ws -> P_opt els -> P (RCase b ws els))
  (Hcast : forall e ty, P e -> P (RCast e ty)) (Hin : forall ng e args, P e -> Forall P args -> P (RInList ng e args))
  (Hins : forall ng e q, P e -> P (RInSelect ng e q)) (Hbet : forall ng e lo hi, P e -> P lo -> P hi -> P (RBetween ng e lo hi))
  (Hex : forall q, P (RExists q)) (Hsub : forall q, P (RSubquery q)) (Hstar : P RStar).
Fixpoint rexpr_nested_ind (e : rexpr) : P e :=
  let all := fix all (l : list rexpr) : Forall P l := match l with [] => Forall_nil_2 P | x :: l => Forall_cons_2 P x l (rexpr_nested_ind x) (all l) end in
  let opt (o : option rexpr) : P_opt o := match o with Some e => rexpr_nested_ind e | None => I end in
  match e with
  | RLiteral v => Hlit v | RNull => Hnull | RColumn i up => Hcol i up | RParam i => Hparam i
  | RUnary op e => Hun op e (rexpr_nested_ind e)
  | RBinary op ng l r esc => Hbin op ng l r esc (rexpr_nested_ind l) (rexpr_nested_ind r) (opt esc)
  | RFunc fn args => Hfn fn args (all args) | RAgg i => Hagg i | RWindow i => Hwin i
  | RCase b ws els => Hcase b ws els (opt b) (all ws) (opt els)
  | RCast e ty => Hcast e ty (rexpr_nested_ind e)
  | RInList ng e args => Hin ng e args (rexpr_nested_ind e) (all args)
  | RInSelect ng e q => Hins ng e q (rexpr_nested_ind e)
  | RBetween ng e lo hi => Hbet ng e lo hi (rexpr_nested_ind e) (rexpr_nested_ind lo) (rexpr_nested_ind hi)
  | RExists q => Hex q | RSubquery q => Hsub q | RStar => Hstar
  end.
End Induction.

(** ** Pure expressions *)

(** A run that gives [x] and leaves the connection as it is. *)
Definition pure {A} (m : M A) : Prop := exists x, forall db, m db = Some (x, db).
Lemma pure_ret {A} (x : A) : pure (mret x).
Proof. by exists x. Qed.
Lemma pure_ok v : pure (ok v).
Proof. by eexists. Qed.
Lemma pure_bind {A B} (m : M A) (f : A -> M B) : pure m -> (forall x, pure (f x)) -> pure (m ≫= f).
Proof. intros [x Hx] Hf. destruct (Hf x) as [y Hy]. exists y. intros db. unfold mbind, M_bind. by rewrite Hx. Qed.
Lemma pure_value e : pure e -> pure (value_of e).
Proof. intros H. apply pure_bind; [done|]. intros; apply pure_ret. Qed.
Create HintDb purity.
#[export] Hint Resolve pure_ret pure_ok pure_value : purity.
(** Steps through a run: sequencing, branches, operands. *)
Ltac pure_step :=
  match goal with
  | |- pure (_ ≫= _) => apply pure_bind; [|intros ?]
  | |- pure (if ?b then _ else _) => destruct b
  | |- pure (match ?o with Some _ => _ | None => _ end) => destruct o
  | |- pure (let '(_, _) := ?p in _) => destruct p
  | |- pure (ok _) => apply pure_ok
  | |- pure (mret _) => apply pure_ret
  | |- pure (value_of _) => apply pure_value
  end.
Ltac pure_solve := repeat (pure_step; cbv beta iota); auto with purity.

(** No calls, no subqueries, no casts and no divisions. *)
Definition pure_op (op : tdb_token_kind) : bool := negb (tk_eqb op TK_SLASH || tk_eqb op TK_PERCENT).
Definition forall_opt (f : rexpr -> bool) (o : option rexpr) : bool := match o with Some e => f e | None => true end.
Fixpoint pure_expr (e : rexpr) : bool :=
  match e with
  | RLiteral _ | RNull | RColumn _ _ | RParam _ | RAgg _ | RWindow _ | RStar => true
  | RUnary _ e => pure_expr e
  | RBinary op _ l r esc => pure_op op && pure_expr l && pure_expr r && forall_opt pure_expr esc
  | RCase b ws els => forall_opt pure_expr b && forallb pure_expr ws && forall_opt pure_expr els
  | RInList _ e args => pure_expr e && forallb pure_expr args
  | RBetween _ e lo hi => pure_expr e && pure_expr lo && pure_expr hi
  | _ => false
  end.

Lemma pure_logic b l r : pure l -> pure r -> pure (eval_logic b l r).
Proof. intros Hl Hr. unfold eval_logic. pure_solve. Qed.
Lemma pure_match b ng l r esc : (forall e, esc = Some e -> pure e) -> pure (eval_match b ng l r esc).
Proof. intros He. unfold eval_match. pure_step; [apply pure_ok|]. destruct b; [pure_solve|]. destruct esc as [e|]; [|pure_solve]. specialize (He e eq_refl). pure_solve. Qed.
Lemma pure_int_op op a b : pure_op op = true -> pure (int_op op a b).
Proof. destruct op; intros H; first [discriminate H | apply pure_ret]. Qed.
Lemma pure_arith op l r : pure_op op = true -> pure (eval_arith op l r).
Proof. intros H. unfold eval_arith. destruct l, r; try apply pure_ret. destruct (is_arith op); [|apply pure_ret]. apply pure_bind; [by apply pure_int_op|]. intros; apply pure_ok. Qed.
Lemma pure_binary op ng l r esc : pure_op op = true -> pure l -> pure r -> (forall e, esc = Some e -> pure e) -> pure (eval_binary op ng l r esc).
Proof.
  intros Hop Hl Hr He. unfold eval_binary. destruct (_ || _); [by apply pure_logic|]. repeat (apply pure_bind; [by apply pure_value|intros ?]).
  destruct (tk_eqb op TK_CONCAT); [unfold eval_concat; pure_solve|]. destruct (_ || _); [by apply pure_match|].
  destruct (tk_eqb op TK_IS); [apply pure_ok|]. destruct (is_cmp op); [pure_solve|]. destruct (is_bit op); [pure_solve|].
  destruct (_ || _); [apply pure_ok|]. by apply pure_arith.
Qed.
Lemma pure_in_list x args : Forall pure args -> pure (in_list x args).
Proof. induction 1 as [|a args Ha _ IH]; cbn [in_list]; pure_solve. Qed.
Lemma pure_case_loop b ws els : Forall pure ws -> (forall e, els = Some e -> pure e) -> pure (case_loop b ws els).
Proof.
  intros Hw He. assert (pure (match els with Some e => value_of e | None => mret VNull end)) as Hels by (destruct els; [apply pure_value, He; done|apply pure_ret]).
  remember (length ws) as n eqn:Hn. assert (length ws <= n)%nat as Hl by lia. clear Hn. revert ws Hw Hl. induction n as [|n IH]; intros [|w [|t ws]] Hw Hl; simpl in Hl; try done; try lia.
  apply Forall_cons in Hw as [H1 [H2 Hw]%Forall_cons]. cbn [case_loop]. pure_step; [by apply pure_value|]. destruct (match b with Some _ => _ | None => _ end); [by apply pure_value|]. apply IH; [done|lia].
Qed.

Section Spec.
Context (extra : ectx -> name -> list ev -> M (Z * tdb_value)).
Context (find_plsql : name -> option (list tdb_value -> M (tdb_status * tdb_value * list Z))).
Context (find_function : name -> Z -> option (list tdb_value -> M (tdb_value * cstring))).
Context (find_lua : name -> option (list tdb_value -> M (tdb_status * tdb_value * cstring))).
Context (c_pow : spec_float -> spec_float -> spec_float) (c_round : spec_float -> spec_float).
Context (max_txnid : M Z) (subselect : ectx -> tdb_select -> M (option (Z * list (list tdb_value)))).
Abbreviation eval := (eval extra find_plsql find_function find_lua c_pow c_round max_txnid subselect).

Lemma eval_pure e : pure_expr e = true -> forall c, pure (eval c e).
Proof.
  assert (forall args c, Forall (fun e => pure_expr e = true -> forall c, pure (eval c e)) args -> forallb pure_expr args = true -> Forall pure (map (eval c) args)) as Hall.
  { intros args c Ha Hp. induction Ha as [|a args Ha _ IH]; [constructor|]. cbn [forallb] in Hp. apply andb_true_iff in Hp as [H1 H2]. constructor; [by apply Ha|by apply IH]. }
  assert (forall o c, P_opt (fun e => pure_expr e = true -> forall c, pure (eval c e)) o -> forall_opt pure_expr o = true -> forall m, option_map (eval c) o = Some m -> pure m) as Hopt.
  { intros [e'|] c Ho Hp m; [|done]. intros [= <-]. by apply Ho. }
  induction e using rexpr_nested_ind; cbn [pure_expr]; intros; rewrite ?andb_true_iff in *; destruct_and?; try discriminate; cbn [Eval.eval]; try apply pure_ok.
  - assert (pure (eval c e)) by auto. unfold eval_unary. pure_solve.
  - apply pure_binary; eauto.
  - unfold eval_case. pure_step; [|pure_step; [apply pure_case_loop; eauto|apply pure_ok]]. destruct b as [b|]; cbn [option_map]; [|apply pure_ret].
    assert (pure (eval c b)) by eauto. pure_solve.
  - pure_step; [apply pure_value; auto|]. pure_step; [apply pure_in_list; auto|apply pure_ok].
  - assert (pure (eval c e1)) by auto. assert (pure (eval c e2)) by auto. assert (pure (eval c e3)) by auto. unfold eval_between. pure_solve.
Qed.

(** The value of an expression, read off a run from an empty connection. *)
Definition value_at (c : ectx) (e : rexpr) : tdb_value := match eval c e (mk_conn [] None) with Some ((_, v), _) => v | None => VNull end.
Lemma eval_value_at e c db : pure_expr e = true -> value_of (eval c e) db = Some (value_at c e, db).
Proof. intros H. destruct (eval_pure e H c) as [[rc v] Hv]. unfold value_at, value_of, mbind, M_bind. by rewrite !Hv. Qed.
End Spec.

(** ** LIKE *)

(** C20. LIKE decides its pattern language: on C strings the matcher answers
    true exactly when the relation holds in which [%] stands for any run of
    bytes, [_] for one byte, a byte after the escape byte for itself and every
    other byte for itself up to case. *)
Theorem like_match_decides pat s esc : nul_free pat -> nul_free s -> like_match pat s esc = true <-> like esc pat s.
Proof. apply like_match_spec. Qed.
Lemma like_match_decides_witness :
  nul_free (str "a\%%_c") /\ nul_free (str "A%xxYC") /\ like 92 (str "a\%%_c") (str "A%xxYC").
Proof.
  assert (nul_free (str "a\%%_c")) as H1 by (repeat constructor). assert (nul_free (str "A%xxYC")) as H2 by (repeat constructor).
  split; [exact H1|]. split; [exact H2|]. apply (proj1 (like_match_decides (str "a\%%_c") (str "A%xxYC") 92 H1 H2)). reflexivity.
Defined.

(** ** NULL *)

(** The operators whose result is NULL when an operand is. *)
Definition strict_op (op : tdb_token_kind) : bool := negb (tk_eqb op TK_AND || tk_eqb op TK_OR || tk_eqb op TK_IS).
(** The divisor of a division is zero, as an integer when both operands are
    integers and as a double otherwise. *)
Definition zero_division (op : tdb_token_kind) (l r : tdb_value) : bool :=
  (tk_eqb op TK_SLASH || tk_eqb op TK_PERCENT) && match l, r with VInt _, VInt b => b =? 0 | _, _ => is_zero (tdb_value_as_real r) end.
Lemma int_op_null op a b db v db' : int_op op a b db = Some (v, db') -> is_arith op = true ->
  is_null v = (tk_eqb op TK_SLASH || tk_eqb op TK_PERCENT) && (b =? 0).
Proof. intros H Ha. destruct op; try discriminate Ha; cbn [int_op] in H; try (by injection H as <- _); destruct (b =? 0); try (by injection H as <- _); destruct (_ && _); try discriminate; by injection H as <- _. Qed.
Lemma real_op_null op a b : is_null (real_op op a b).2 = (tk_eqb op TK_SLASH || tk_eqb op TK_PERCENT) && is_zero b.
Proof. destruct op; try reflexivity; cbn [real_op]; by destruct (is_zero b). Qed.
Lemma division_is_arith op : is_arith op = false -> tk_eqb op TK_SLASH || tk_eqb op TK_PERCENT = false.
Proof. destruct op; intros H; first [discriminate H | reflexivity]. Qed.
Lemma eval_arith_null op l r db rc v db' : eval_arith op l r db = Some ((rc, v), db') -> is_null v = zero_division op l r.
Proof.
  intros H. unfold zero_division. assert (forall a b, Some (real_op op a b, db) = Some ((rc, v), db') -> is_null v = (tk_eqb op TK_SLASH || tk_eqb op TK_PERCENT) && is_zero b) as Hr.
  { intros a b E. injection E as E _. rewrite <- real_op_null with (a := a). by rewrite E. }
  destruct l, r; cbn [eval_arith] in H; try (by apply Hr in H).
  destruct (is_arith op) eqn:Ea; [|apply Hr in H; by rewrite (division_is_arith op Ea) in *].
  unfold mbind, M_bind in H. destruct (int_op op _ _ db) as [[x db1]|] eqn:Ei; [|done]. injection H as <- <- _. by eapply int_op_null.
Qed.
Lemma set_text_not_null s n : is_null (tdb_value_set_text ok_alloc s n true).2 = false.
Proof. reflexivity. Qed.
Lemma strict_no_division op l r : tk_eqb op TK_CONCAT || (tk_eqb op TK_LIKE || tk_eqb op TK_GLOB) || is_cmp op || is_bit op = true -> zero_division op l r = false.
Proof. unfold zero_division. destruct op; intros H; first [discriminate H | reflexivity]. Qed.
Lemma truth_not_null b : is_null (truth b) = false.
Proof. done. Qed.

(** C29. NULL operands: the comparisons, the pattern, bit and arithmetic
    operators and the concatenation give NULL exactly when an operand is NULL or
    a division has a zero divisor, whatever the operands do to the connection. *)
Theorem binary_null op negated left right db l db1 r db2 rc v db' :
  strict_op op = true -> value_of left db = Some (l, db1) -> value_of right db1 = Some (r, db2) ->
  eval_binary op negated left right None db = Some ((rc, v), db') ->
  is_null v = is_null l || is_null r || zero_division op l r.
Proof.
  intros Hs Hl Hr H. unfold strict_op in Hs. apply negb_true_iff in Hs. apply orb_false_iff in Hs as [Hlog His].
  unfold eval_binary in H. rewrite Hlog in H. unfold mbind, M_bind in H. rewrite Hl, Hr, His in H.
  destruct (is_null l || is_null r) eqn:En.
  { assert (Some (TDB_OK, VNull, db2) = Some (rc, v, db')) as E; [|by injection E as <- <- _].
    rewrite <- H. unfold eval_concat, eval_match. rewrite En. by repeat (match goal with |- context [if ?b then _ else _] => destruct b end). }
  cbn [orb]. destruct (tk_eqb op TK_CONCAT) eqn:E1.
  { rewrite strict_no_division by (by rewrite E1). unfold eval_concat in H. rewrite En in H. by injection H as <- <- _. }
  destruct (tk_eqb op TK_LIKE || tk_eqb op TK_GLOB) eqn:E2.
  { rewrite strict_no_division by (by rewrite E1, E2). unfold eval_match in H. rewrite En in H. destruct (tk_eqb op TK_GLOB); by injection H as <- <- _. }
  destruct (is_cmp op) eqn:E3.
  { rewrite strict_no_division by (by rewrite E1, E2, E3). by injection H as <- <- _. }
  destruct (is_bit op) eqn:E4.
  { rewrite strict_no_division by (by rewrite E1, E2, E3, E4). by injection H as <- <- _. }
  by eapply eval_arith_null.
Qed.
Lemma binary_null_witness :
  strict_op TK_SLASH = true /\ value_of (ok (VInt 7)) (mk_conn [] None) = Some (VInt 7, mk_conn [] None) /\ eval_binary TK_SLASH false (ok (VInt 7)) (ok (VInt 0)) None (mk_conn [] None) = Some ((TDB_OK, VNull), mk_conn [] None) /\ is_null VNull = is_null (VInt 7) || is_null (VInt 0) || zero_division TK_SLASH (VInt 7) (VInt 0).
Proof.
  repeat (split; [reflexivity|]).
  apply (binary_null TK_SLASH false (ok (VInt 7)) (ok (VInt 0)) (mk_conn [] None) (VInt 7) (mk_conn [] None) (VInt 0) (mk_conn [] None) TDB_OK VNull (mk_conn [] None)); reflexivity.
Defined.

(** ** Runs *)

Section Runs.
Context (extra : ectx -> name -> list ev -> M (Z * tdb_value)).
Context (find_plsql : name -> option (list tdb_value -> M (tdb_status * tdb_value * list Z))).
Context (find_function : name -> Z -> option (list tdb_value -> M (tdb_value * cstring))).
Context (find_lua : name -> option (list tdb_value -> M (tdb_status * tdb_value * cstring))).
Context (c_pow : spec_float -> spec_float -> spec_float) (c_round : spec_float -> spec_float).
Context (max_txnid : M Z) (subselect : ectx -> tdb_select -> M (option (Z * list (list tdb_value)))).
Abbreviation eval := (eval extra find_plsql find_function find_lua c_pow c_round max_txnid subselect).
(** [extra] does not know the function [fn]. *)
Definition unknown_extra (fn : name) : Prop := forall c args db, extra c fn args db = Some ((0, VNull), db).

(** NULL counts as false: [NOT NULL] and [1 NOT IN (NULL)] are true. *)
Lemma not_null_is_true c db :
  eval c (RUnary TK_NOT RNull) db = Some ((TDB_OK, VInt 1), db) /\
  eval c (RInList true (RLiteral (VInt 1)) [RNull]) db = Some ((TDB_OK, VInt 1), db).
Proof. done. Qed.
(** The smallest integer divided by -1 stops the process, and so does the
    remainder. *)
Lemma int_min_quotient_traps c db :
  eval c (RBinary TK_SLASH false (RLiteral (VInt (- 2 ^ 63))) (RLiteral (VInt (-1))) None) db = None /\
  eval c (RBinary TK_PERCENT false (RLiteral (VInt (- 2 ^ 63))) (RLiteral (VInt (-1))) None) db = None.
Proof. done. Qed.
Abbreviation eval_func := (eval_func extra find_plsql find_function find_lua c_pow c_round max_txnid).
Lemma eval_func_coalesce c e db : unknown_extra (str "coalesce") ->
  eval_func c (str "coalesce") [e] db = (value_of e ≫= fun _ => coalesce [e] ≫= fun v => ok v) db.
Proof. intros H. unfold Eval.eval_func. unfold mbind at 1, M_bind at 1. by rewrite H. Qed.
Lemma eval_func_nextval c e db : unknown_extra (str "nextval") -> eval_func c (str "nextval") [e] db = (value_of e ≫= fn_nextval) db.
Proof. intros H. unfold Eval.eval_func. unfold mbind at 1, M_bind at 1. by rewrite H. Qed.
(** The first argument of [coalesce] is evaluated twice, so that a sequence in
    it advances by two. *)
Lemma coalesce_evaluates_twice c : unknown_extra (str "coalesce") -> unknown_extra (str "nextval") ->
  eval c (RFunc (str "coalesce") [RFunc (str "nextval") [RLiteral (VText (str "s"))]]) (mk_conn [] None) =
  Some ((TDB_OK, VInt 2), mk_conn [mk_sequence (str "s") 2 1 true] None).
Proof.
  intros H1 H2. cbn [Eval.eval map]. rewrite eval_func_coalesce by done.
  assert (forall db, eval_func c (str "nextval") [ok (VText (str "s"))] db = fn_nextval (VText (str "s")) db) as Hn by (intros db; by rewrite eval_func_nextval).
  generalize dependent (eval_func c (str "nextval") [ok (VText (str "s"))]). intros e Hn. unfold value_of, coalesce, mbind, M_bind. rewrite Hn.
  assert (fn_nextval (VText (str "s")) (mk_conn [] None) = Some ((TDB_OK, VInt 1), mk_conn [mk_sequence (str "s") 1 1 true] None)) as -> by (by vm_compute).
  cbn [snd]. unfold mret, M_ret. unfold value_of, mbind, M_bind. rewrite Hn. by vm_compute.
Qed.
(** The error of a call inside an expression is lost: [1 + currval('s')] is
    NULL without an error, only the message of the connection tells. *)
Lemma nested_error_is_null c db : unknown_extra (str "currval") -> seq_find (cn_seqs db) (str "s") = None ->
  exists msg, eval c (RBinary TK_PLUS false (RLiteral (VInt 1)) (RFunc (str "currval") [RLiteral (VText (str "s"))]) None) db =
    Some ((TDB_OK, VNull), mk_conn (cn_seqs db) (Some msg)).
Proof.
  intros H1 H2. eexists. cbn [Eval.eval map option_map].
  assert (eval_func c (str "currval") [ok (VText (str "s"))] db = fn_currval (VText (str "s")) db) as Hc.
  { unfold Eval.eval_func. unfold mbind at 1, M_bind at 1. by rewrite H1. }
  generalize dependent (eval_func c (str "currval") [ok (VText (str "s"))]). intros e Hc.
  unfold eval_binary. cbn [tk_eqb]. change (tk_eqb TK_PLUS TK_AND || tk_eqb TK_PLUS TK_OR) with false. cbv iota.
  unfold value_of, ok, mbind, M_bind, mret, M_ret. rewrite Hc. unfold fn_currval. change (text_of (VText (str "s"))) with (Some (str "s")).
  unfold tdb_db_seq_find, mbind, M_bind. by rewrite H2.
Qed.
(** The operand of ESCAPE is not resolved: a parameter there gets no number and
    is NULL. *)
Lemma escape_not_resolved q : resolve_expr (EX_BINARY TK_LIKE false EX_NULL EX_NULL (Some (EX_PARAM (str "?")))) q =
  (Some (RBinary TK_LIKE false RNull RNull (Some (RParam (-1)))), q) /\ forall c db, eval c (RParam (-1)) db = Some ((TDB_OK, VNull), db).
Proof. done. Qed.
End Runs.
