(* ===== verification/Join.v ===== *)
(** * Rows of a query: scans, joins and the order of rows (src/src/sql/tdb_exec.c)

    A row set is a list of rows, a row the values of all sources of the query
    side by side.  [join_build] folds the sources from left to right; the
    candidate row is written in place, column by column, and its columns of the
    right source are NULL again after it. *)
From Stdlib Require Import SpecFloat.
From S2P Require Import Prelude Util Buf Value Record Schema Sqltype Lexer Ast Eval Resolve.

Abbreviation row := (list tdb_value).
Definition row_alloc (ncol : Z) : row := replicate (Z.to_nat ncol) VNull.
(** [for k < n: row[base + k] = src[k]] *)
Fixpoint copy_cols (r : row) (base n : nat) (src : row) : row :=
  match n with O => r | S n => copy_cols (<[base := nth 0 src VNull]> r) (S base) n (drop 1 src) end.
(** [for k < n: row[base + k] = NULL] *)
Fixpoint null_cols (r : row) (base n : nat) : row := match n with O => r | S n => null_cols (<[base := VNull]> r) (S base) n end.

(** ** Scans *)

Section Scan.
(** [scan] are the records a scan of the engine gives and the status it ends
    with; [find_table] looks a name up in the catalog. *)
Context (scan : tdb_table -> bool -> tdb_status * list (list Z) * tdb_status) (find_table : list Z -> option tdb_table).
(** The values of a record, cut or filled up to the columns of the table; the
    array of the decoded values has sixty-four places, and the loop over a longer
    record leaves it. *)
Definition mat_row (ncol : Z) (rec : list Z) : option (tdb_status * row) :=
  match tdb_record_decode ok_alloc rec 64 with
  | (TDB_OK, vs, nc) =>
      if 64 <? nc then None else Some (TDB_OK, copy_cols (row_alloc ncol) 0 (Z.to_nat (Z.min ncol nc)) vs)
  | (_, _, _) => Some (TDB_CORRUPT, [])
  end.
Fixpoint mat_rows (ncol : Z) (recs : list (list Z)) (rc : tdb_status) (rs : list row) : option (tdb_status * list row) :=
  match recs with
  | [] => Some (match rc with TDB_DONE => TDB_OK | rc => rc end, rs)
  | rec :: recs =>
      r ← mat_row ncol rec;
      match r with
      | (TDB_OK, r) => mat_rows ncol recs rc (rs ++ [r])
      | (rc, _) => Some (rc, rs)
      end
  end.
(** [hinted]: the scan uses the index and the range of the query. *)
Definition mat_scan_one (t : tdb_table) (hinted : bool) (rs : list row) : option (tdb_status * list row) :=
  match scan t hinted with
  | (TDB_OK, recs, last) => mat_rows (Z.of_nat (length (tb_cols t))) recs last rs
  | (rc, _, _) => Some (rc, rs)
  end.
(** The partitions of a table partitioned by HASH are tables of their own. *)
Definition partition_name (t : tdb_table) (k : Z) : list Z := bsub (default [] (tb_name t) ++ str "__p" ++ fmt_lld k) 0 255.
Fixpoint mat_partitions (t : tdb_table) (k : Z) (n : nat) (rs : list row) : option (tdb_status * list row) :=
  match n with
  | O => Some (TDB_OK, rs)
  | S n =>
      match find_table (partition_name t k) with
      | None => mat_partitions t (k + 1) n rs
      | Some ct =>
          r ← mat_scan_one ct false rs;
          match r with
          | (TDB_OK, rs) => mat_partitions t (k + 1) n rs
          | r => Some r
          end
      end
  end.
Definition mat_table (t : tdb_table) : option (tdb_status * list row) :=
  if negb (tb_partition_kind t =? 3) || (tb_partition_count t <=? 0) then mat_scan_one t true []
  else mat_partitions t 0 (Z.to_nat (tb_partition_count t)) [].
End Scan.

(** ** Joins *)

Section Join.
Context (extra : ectx -> name -> list ev -> M (Z * tdb_value)).
Context (find_plsql : name -> option (list tdb_value -> M (tdb_status * tdb_value * list Z))).
Context (find_function : name -> Z -> option (list tdb_value -> M (tdb_value * cstring))).
Context (find_lua : name -> option (list tdb_value -> M (tdb_status * tdb_value * cstring))).
Context (c_pow : spec_float -> spec_float -> spec_float) (c_round : spec_float -> spec_float).
Context (max_txnid : M Z) (subselect : ectx -> tdb_select -> M (option (Z * list (list tdb_value)))).
Abbreviation eval := (eval extra find_plsql find_function find_lua c_pow c_round max_txnid subselect).
(** The rows around the query and the parameters of the statement. *)
Context (outer : list (option row)) (params : list tdb_value).

Definition row_ctx (cand : row) : ectx := mk_ectx (Some cand :: outer) None None params.
Definition holds (on : option rexpr) (cand : row) : M bool :=
  match on with None => mret true | Some e => v ← value_of (eval (row_ctx cand) e); mret (val_true v) end.
Definition base_of (s : qsrc) : nat := Z.to_nat (qs_base s).
Definition ncol_of (s : qsrc) : nat := Z.to_nat (qs_ncol s).
(** The rows of the right source against a row of the left side: the rows that
    match, which of the right ones did, and the candidate as it is left. *)
Fixpoint match_right (s : qsrc) (cand : row) (rights : list row) (rmatched : list bool) : M (list row * list bool * row) :=
  match rights, rmatched with
  | r :: rights, m :: rmatched =>
      let cand := copy_cols cand (base_of s) (ncol_of s) r in
      ok_ ← holds (qs_on s) cand;
      '(next, rmatched, last) ← match_right s cand rights rmatched;
      mret (if ok_ : bool then (cand :: next, true :: rmatched, last) else (next, m :: rmatched, last))
  | _, _ => mret ([], rmatched, cand)
  end.
Definition keeps_left (k : tdb_join_kind) : bool := match k with JOIN_LEFT | JOIN_FULL => true | _ => false end.
Definition keeps_right (k : tdb_join_kind) : bool := match k with JOIN_RIGHT | JOIN_FULL => true | _ => false end.
Fixpoint match_left (s : qsrc) (acc rights : list row) (rmatched : list bool) : M (list row * list bool) :=
  match acc with
  | [] => mret ([], rmatched)
  | l :: acc =>
      '(next, rmatched, cand) ← match_right s l rights rmatched;
      let cand := null_cols cand (base_of s) (ncol_of s) in
      let next := match next with [] => if keeps_left (qs_join s) then [cand] else [] | _ => next end in
      '(rest, rmatched) ← match_left s acc rights rmatched;
      mret (next ++ rest, rmatched)
  end.
Fixpoint unmatched (rights : list row) (rmatched : list bool) : list row :=
  match rights, rmatched with
  | r :: rights, m :: rmatched => if m : bool then unmatched rights rmatched else r :: unmatched rights rmatched
  | _, _ => []
  end.
Definition join_step (total : Z) (s : qsrc) (acc rights : list row) : M (list row) :=
  '(next, rmatched) ← match_left s acc rights (replicate (length rights) false);
  mret (next ++ if keeps_right (qs_join s) then map (copy_cols (row_alloc total) (base_of s) (ncol_of s)) (unmatched rights rmatched) else []).
Fixpoint join_sources (total : Z) (srcs : list qsrc) (sets : list (list row)) (acc : list row) : M (list row) :=
  match srcs, sets with
  | s :: srcs, rights :: sets => acc ← join_step total s acc rights; join_sources total srcs sets acc
  | _, _ => mret acc
  end.
Fixpoint where_loop (where_ : option rexpr) (acc : list row) : M (list row) :=
  match acc with
  | [] => mret []
  | r :: acc => ok_ ← holds where_ r; out ← where_loop where_ acc; mret (if ok_ : bool then r :: out else out)
  end.
Definition join_build (total : Z) (srcs : list qsrc) (sets : list (list row)) (where_ : option rexpr) : M (list row) :=
  match srcs, sets with
  | s :: srcs, first :: sets =>
      acc ← join_sources total srcs sets (map (copy_cols (row_alloc total) (base_of s) (ncol_of s)) first);
      where_loop where_ acc
  | _, _ => mret []
  end.
End Join.

(** ** The order of rows *)

(** [sort_cmp]: the keys of two rows, with the descending ones. *)
Fixpoint sort_cmp (a b : row) (desc : list bool) : Z :=
  match a, b, desc with
  | x :: a, y :: b, d :: desc =>
      let c := tdb_value_compare x y TDB_COLL_BINARY in
      let c := if d : bool then - c else c in
      if negb (c =? 0) then c else sort_cmp a b desc
  | _, _, _ => 0
  end.
