(* ===== verification/JoinSpec.v ===== *)
(** * Joins against their relational meaning

    A row of a join is a tuple: a row of each source, or NULLs in its place.
    [join_build] computes the flat rows of the tuples of the relational join,
    in the same order.  A resolved column reads the column it names. *)
From Stdlib Require Import SpecFloat.
From S2P Require Import Prelude Value Schema Sqltype Lexer Ast Eval EvalSpec Resolve Join.

(** ** Rows and tuples *)

Abbreviation tuple := (list row).
Definition flat (total : Z) (t : tuple) : row := concat t ++ replicate (Z.to_nat total - length (concat t)) VNull.
Definition nulls (s : qsrc) : row := replicate (ncol_of s) VNull.
(** The sources are side by side from column [base] on. *)
Fixpoint layout (base : Z) (srcs : list qsrc) : Prop :=
  match srcs with [] => True | s :: srcs => qs_base s = base /\ 0 <= qs_ncol s /\ layout (base + qs_ncol s) srcs end.
Fixpoint width (srcs : list qsrc) : Z := match srcs with [] => 0 | s :: srcs => qs_ncol s + width srcs end.
(** A tuple has a row of the right width for each source. *)
Definition tuple_of (srcs : list qsrc) (t : tuple) : Prop := Forall2 (fun s r => length r = ncol_of s) srcs t.

(** ** The relational join *)

(** [L] against the rows [R]: for every tuple the matching rows in order, or
    NULLs where an outer join keeps it; then the rows without a partner. *)
Definition outer_join (keep_left keep_right : bool) (left_nulls : tuple) (right_nulls : row) (p : tuple -> bool) (L : list tuple) (R : list row) : list tuple :=
  flat_map (fun t => match List.filter (fun r => p (t ++ [r])) R with
                     | [] => if keep_left then [t ++ [right_nulls]] else []
                     | m => map (fun r => t ++ [r]) m
                     end) L
  ++ (if keep_right then map (fun r => left_nulls ++ [r]) (List.filter (fun r => negb (existsb (fun t => p (t ++ [r])) L)) R) else []).
(** The kinds of joins of SQL. *)
Definition rel_join (kind : tdb_join_kind) : tuple -> row -> (tuple -> bool) -> list tuple -> list row -> list tuple :=
  match kind with
  | JOIN_NONE | JOIN_CROSS | JOIN_INNER => outer_join false false
  | JOIN_LEFT => outer_join true false
  | JOIN_RIGHT => outer_join false true
  | JOIN_FULL => outer_join true true
  end.
Fixpoint rel_joins (cond : option rexpr -> tuple -> bool) (before srcs : list qsrc) (sets : list (list row)) (L : list tuple) : list tuple :=
  match srcs, sets with
  | s :: srcs, R :: sets => rel_joins cond (before ++ [s]) srcs sets (rel_join (qs_join s) (map nulls before) (nulls s) (cond (qs_on s)) L R)
  | _, _ => L
  end.
Definition rel_query (cond : option rexpr -> tuple -> bool) (srcs : list qsrc) (sets : list (list row)) (where_ : option rexpr) : list tuple :=
  match srcs, sets with
  | s :: srcs, R :: sets => List.filter (cond where_) (rel_joins cond [s] srcs sets (map (fun r => [r]) R))
  | _, _ => []
  end.

(** Which tuples a join has. *)
Lemma elem_of_outer_join kl kr ln rn p L R x : In x (outer_join kl kr ln rn p L R) <->
  (exists t r, In t L /\ In r R /\ p (t ++ [r]) = true /\ x = t ++ [r]) \/
  (kl = true /\ exists t, In t L /\ (forall r, In r R -> p (t ++ [r]) = false) /\ x = t ++ [rn]) \/
  (kr = true /\ exists r, In r R /\ (forall t, In t L -> p (t ++ [r]) = false) /\ x = ln ++ [r]).
Proof.
  assert (forall (f : row -> bool), List.filter f R = [] <-> forall r, In r R -> f r = false) as Hnil.
  { intros f. split; [intros E r Hr|intros H].
    - destruct (f r) eqn:Ef; [|done]. assert (In r (List.filter f R)) as Hin by (by apply filter_In). by rewrite E in Hin.
    - destruct (List.filter f R) as [|r l] eqn:E; [done|]. assert (In r (List.filter f R)) as [Hr Hf]%filter_In by (rewrite E; by left). rewrite H in Hf; done. }
  unfold outer_join. rewrite in_app_iff, in_flat_map. split.
  - intros [(t & Ht & Hx)|Hx].
    + destruct (List.filter (fun r => p (t ++ [r])) R) as [|r0 m] eqn:Em.
      * destruct kl; [|done]. destruct Hx as [<-|[]]. right; left. split; [done|]. exists t. split; [done|]. split; [by apply Hnil|done].
      * rewrite <- Em in Hx. apply in_map_iff in Hx as (r & <- & [Hr Hp]%filter_In). left. by exists t, r.
    + destruct kr; [|done]. apply in_map_iff in Hx as (r & <- & [Hr Hp]%filter_In). right; right. split; [done|]. exists r. split; [done|].
      split; [|done]. intros t Ht. destruct (p (t ++ [r])) eqn:Ep; [|done]. apply negb_true_iff in Hp. rewrite <- Hp. symmetry. apply existsb_exists. by exists t.
  - intros [(t & r & Ht & Hr & Hp & ->)|[(Hk & t & Ht & Hn & ->)|(Hk & r & Hr & Hn & ->)]].
    + left. exists t. split; [done|]. assert (In r (List.filter (fun r => p (t ++ [r])) R)) as Hf by (by apply filter_In).
      destruct (List.filter _ R) as [|r0 m]; [done|]. by apply in_map_iff; exists r.
    + left. exists t. split; [done|]. apply (Hnil (fun r => p (t ++ [r]))) in Hn. rewrite Hn, Hk. by left.
    + right. rewrite Hk. apply in_map_iff. exists r. split; [done|]. apply filter_In. split; [done|]. apply negb_true_iff.
      destruct (existsb (fun t => p (t ++ [r])) L) eqn:E; [|done]. apply existsb_exists in E as (t & Ht & Hp). by rewrite Hn in Hp.
Qed.

(** The code keeps what the kind of the join says. *)
Lemma rel_join_keeps kind : rel_join kind = outer_join (keeps_left kind) (keeps_right kind).
Proof. by destruct kind. Qed.

(** ** Columns in place *)

Lemma copy_cols_app a b c src : length b = length src -> copy_cols (a ++ b ++ c) (length a) (length src) src = a ++ src ++ c.
Proof.
  revert a b. induction src as [|x src IH]; intros a b Hb; [by destruct b|]. destruct b as [|y b]; [done|]. cbn [length copy_cols nth drop]. injection Hb as Hb.
  rewrite insert_app_r_alt by lia. rewrite Nat.sub_diag. cbn [app insert list_insert]. rewrite drop_0.
  specialize (IH (a ++ [x]) b Hb). rewrite length_app, <- !app_assoc in IH. cbn [length app] in IH. replace (S (length a)) with (length a + 1)%nat by lia. exact IH.
Qed.
Lemma null_cols_app a b c : null_cols (a ++ b ++ c) (length a) (length b) = a ++ replicate (length b) VNull ++ c.
Proof.
  revert a. induction b as [|y b IH]; intros a; [done|]. cbn [length null_cols replicate].
  rewrite insert_app_r_alt by lia. rewrite Nat.sub_diag. cbn [app insert list_insert].
  specialize (IH (a ++ [VNull])). rewrite length_app, <- !app_assoc in IH. cbn [length app] in IH. replace (S (length a)) with (length a + 1)%nat by lia. exact IH.
Qed.

Section Refinement.
Context (extra : ectx -> name -> list ev -> M (Z * tdb_value)).
Context (find_plsql : name -> option (list tdb_value -> M (tdb_status * tdb_value * list Z))).
Context (find_function : name -> Z -> option (list tdb_value -> M (tdb_value * cstring))).
Context (find_lua : name -> option (list tdb_value -> M (tdb_status * tdb_value * cstring))).
Context (c_pow : spec_float -> spec_float -> spec_float) (c_round : spec_float -> spec_float).
Context (max_txnid : M Z) (subselect : ectx -> tdb_select -> M (option (Z * list (list tdb_value)))).
Abbreviation eval := (eval extra find_plsql find_function find_lua c_pow c_round max_txnid subselect).
Abbreviation value_at := (value_at extra find_plsql find_function find_lua c_pow c_round max_txnid subselect).
Context (outer : list (option row)) (params : list tdb_value).
Abbreviation join_build := (join_build extra find_plsql find_function find_lua c_pow c_round max_txnid subselect outer params).
Abbreviation join_sources := (join_sources extra find_plsql find_function find_lua c_pow c_round max_txnid subselect outer params).
Abbreviation join_step := (join_step extra find_plsql find_function find_lua c_pow c_round max_txnid subselect outer params).
Abbreviation match_left := (match_left extra find_plsql find_function find_lua c_pow c_round max_txnid subselect outer params).
Abbreviation match_right := (match_right extra find_plsql find_function find_lua c_pow c_round max_txnid subselect outer params).
Abbreviation where_loop := (where_loop extra find_plsql find_function find_lua c_pow c_round max_txnid subselect outer params).
Abbreviation holds := (holds extra find_plsql find_function find_lua c_pow c_round max_txnid subselect outer params).

(** A condition on a tuple: the value of the expression on its flat row. *)
Definition cond (total : Z) (on : option rexpr) (t : tuple) : bool :=
  match on with None => true | Some e => val_true (value_at (row_ctx outer params (flat total t)) e) end.
Lemma holds_cond total on t db : forall_opt pure_expr on = true -> holds on (flat total t) db = Some (cond total on t, db).
Proof.
  intros H. destruct on as [e|]; [|done]. cbn [Join.holds cond]. unfold mbind, M_bind. by rewrite eval_value_at.
Qed.

Section Step.
Context (total : Z) (s : qsrc) (p : tuple -> bool).
Context (Hp : forall t db, holds (qs_on s) (flat total t) db = Some (p t, db)).
(** The tuples of the left side end where the source begins, and the source fits. *)
Definition fits (t : tuple) : Prop := length (concat t) = base_of s /\ (base_of s + ncol_of s <= Z.to_nat total)%nat.
Definition pad : row := replicate (Z.to_nat total - base_of s - ncol_of s) VNull.
Lemma flat_snoc t r : fits t -> length r = ncol_of s -> flat total (t ++ [r]) = concat t ++ r ++ pad.
Proof.
  intros [Ht Hf] Hr. unfold flat, pad. rewrite concat_app. cbn [concat]. rewrite app_nil_r, length_app, Ht, Hr, <- app_assoc. by rewrite Nat.sub_add_distr.
Qed.
Lemma flat_open t : fits t -> flat total t = concat t ++ nulls s ++ pad.
Proof.
  intros [Ht Hf]. unfold flat, nulls, pad. rewrite <- replicate_add, Ht. do 2 f_equal. lia.
Qed.
Lemma copy_candidate t x r : fits t -> length x = ncol_of s -> length r = ncol_of s ->
  copy_cols (concat t ++ x ++ pad) (base_of s) (ncol_of s) r = flat total (t ++ [r]).
Proof. intros Hf Hx Hr. rewrite flat_snoc by done. destruct Hf as [Ht _]. rewrite <- Ht, <- Hr. apply copy_cols_app. congruence. Qed.
Lemma null_candidate t x : fits t -> length x = ncol_of s -> null_cols (concat t ++ x ++ pad) (base_of s) (ncol_of s) = flat total (t ++ [nulls s]).
Proof. intros Hf Hx. rewrite flat_snoc; [|done|apply length_replicate]. destruct Hf as [Ht _]. unfold nulls. rewrite <- Ht, <- Hx. apply null_cols_app. Qed.

Lemma match_right_ok t x rights rm db : fits t -> length x = ncol_of s -> Forall (fun r => length r = ncol_of s) rights -> length rm = length rights ->
  exists x', length x' = ncol_of s /\ match_right s (concat t ++ x ++ pad) rights rm db =
    Some ((map (fun r => flat total (t ++ [r])) (List.filter (fun r => p (t ++ [r])) rights),
           zip_with orb rm (map (fun r => p (t ++ [r])) rights), concat t ++ x' ++ pad), db).
Proof.
  intros Hf Hx Hr. revert x rm Hx. induction Hr as [|r rights Hr1 Hr IH]; intros x rm Hx Hl; destruct rm as [|m rm]; try done; [by exists x|].
  injection Hl as Hl. cbn [Join.match_right]. rewrite copy_candidate by done. unfold mbind at 1, M_bind at 1. rewrite Hp.
  destruct (IH r rm Hr1 Hl) as (x' & Hx' & E). exists x'. split; [done|]. rewrite <- flat_snoc in E by done. unfold mbind, M_bind. rewrite E.
  cbn [List.filter map zip_with]. by destruct (p (t ++ [r])), m.
Qed.
Lemma zip_or_or (rm : list bool) (f g : row -> bool) rights :
  zip_with orb (zip_with orb rm (map f rights)) (map g rights) = zip_with orb rm (map (fun r => f r || g r) rights).
Proof. revert rm. induction rights as [|r rights IH]; intros [|m rm]; try done. cbn [map zip_with]. by rewrite IH, orb_assoc. Qed.
Lemma zip_or_false (rm : list bool) (rights : list row) : length rm = length rights -> zip_with orb rm (map (fun _ => false) rights) = rm.
Proof. revert rm. induction rights as [|r rights IH]; intros [|m rm] H; try done. cbn [map zip_with]. by rewrite IH, orb_false_r by (simpl in H; lia). Qed.
Lemma match_left_ok T rights rm db : Forall fits T -> Forall (fun r => length r = ncol_of s) rights -> length rm = length rights ->
  match_left s (map (flat total) T) rights rm db =
    Some ((map (flat total) (outer_join (keeps_left (qs_join s)) false [] (nulls s) p T rights),
           zip_with orb rm (map (fun r => existsb (fun t => p (t ++ [r])) T) rights)), db).
Proof.
  intros HT Hr. unfold outer_join.
  setoid_rewrite app_nil_r. revert rm. induction HT as [|t T Ht HT IH]; intros rm Hl; cbn [map Join.match_left flat_map]; [cbn [existsb]; by rewrite zip_or_false|].
  destruct (match_right_ok t (nulls s) rights rm db Ht) as (x' & Hx' & E); [apply length_replicate|done|done|].
  rewrite (flat_open t) by done. unfold mbind, M_bind. rewrite E, null_candidate by done.
  rewrite IH by (rewrite length_zip_with, length_map; lia). rewrite zip_or_or. cbn [existsb]. unfold mret, M_ret. rewrite map_app. do 4 f_equal.
  destruct (List.filter (fun r => p (t ++ [r])) rights) as [|r m]; cbn [map]; [by destruct (keeps_left _)|]. f_equal. by rewrite map_map.
Qed.
Lemma unmatched_filter (f : row -> bool) rights : unmatched rights (map f rights) = List.filter (fun r => negb (f r)) rights.
Proof. induction rights as [|r rights IH]; [done|]. cbn [map unmatched List.filter]. rewrite IH. by destruct (f r). Qed.
Lemma join_step_ok before T rights db : Forall fits T -> fits (map nulls before) -> Forall (fun r => length r = ncol_of s) rights ->
  row_alloc total = flat total (map nulls before) ->
  join_step total s (map (flat total) T) rights db = Some (map (flat total) (rel_join (qs_join s) (map nulls before) (nulls s) p T rights), db).
Proof.
  intros HT Hn Hr Ha. unfold Join.join_step, mbind, M_bind. rewrite match_left_ok by (try done; by rewrite length_replicate). unfold mret, M_ret. do 2 f_equal.
  assert (zip_with orb (replicate (length rights) false) (map (fun r => existsb (fun t => p (t ++ [r])) T) rights) = map (fun r => existsb (fun t => p (t ++ [r])) T) rights) as ->.
  { clear Hr. induction rights as [|r rights IH]; [done|]. cbn [length replicate map zip_with]. by rewrite IH. }
  rewrite unmatched_filter, rel_join_keeps. unfold outer_join.
  rewrite app_nil_r, map_app. f_equal.
  destruct (keeps_right (qs_join s)); [|done]. rewrite map_map. apply map_ext_in. intros r [Hin _]%filter_In.
  rewrite Ha, flat_open by done. apply copy_candidate; [done|apply length_replicate|]. rewrite List.Forall_forall in Hr. by apply Hr.
Qed.
End Step.

(** ** All sources *)

Lemma concat_nulls srcs : concat (map nulls srcs) = replicate (length (concat (map nulls srcs))) VNull.
Proof. induction srcs as [|s srcs IH]; [done|]. cbn [map concat]. rewrite length_app, replicate_add. f_equal; [unfold nulls; by rewrite length_replicate|exact IH]. Qed.
Lemma tuple_of_nulls srcs : tuple_of srcs (map nulls srcs).
Proof. induction srcs as [|s srcs IH]; constructor; [apply length_replicate|done]. Qed.
Lemma layout_fits b before s after t : 0 <= b -> layout b (before ++ s :: after) -> tuple_of before t ->
  Z.of_nat (length (concat t)) = qs_base s - b /\ 0 <= qs_ncol s /\ 0 <= width after.
Proof.
  intros Hb Hl Ht. revert b Hb Hl. induction Ht as [|s0 r before t Hr Ht IH]; intros b Hb; cbn [app layout concat length]; intros (E & Hn & Hl).
  - split; [lia|]. split; [done|]. clear -Hl. revert Hl. generalize (b + qs_ncol s). induction after as [|s1 after IH]; intros b0; cbn [layout width]; [lia|]. intros (_ & H & Hl). apply IH in Hl. lia.
  - apply IH in Hl; [|lia]. rewrite length_app, Hr. unfold ncol_of. lia.
Qed.
Lemma width_app a b : width (a ++ b) = width a + width b.
Proof. induction a as [|s a IH]; cbn [app width]; lia. Qed.
Lemma layout_base b before s after : layout b (before ++ s :: after) -> qs_base s = b + width before.
Proof. revert b. induction before as [|s0 before IH]; intros b; cbn [app layout width]; [lia|]. intros (_ & _ & H). apply IH in H. lia. Qed.
Lemma layout_ok total before s after t : total = width (before ++ s :: after) -> layout 0 (before ++ s :: after) -> tuple_of before t -> fits total s t.
Proof.
  intros Hw Hl Ht. destruct (layout_fits 0 before s after t) as (E & Hn & Ha); [lia|done|done|]. pose proof (layout_base _ _ _ _ Hl) as Hb.
  rewrite width_app in Hw. cbn [width] in Hw. unfold fits, base_of, ncol_of. lia.
Qed.
Lemma row_alloc_flat total s before : fits total s (map nulls before) -> row_alloc total = flat total (map nulls before).
Proof. intros [Hf Ht]. unfold row_alloc, flat. rewrite concat_nulls at 1. rewrite <- replicate_add. f_equal. lia. Qed.
Lemma tuple_of_snoc before s t r : tuple_of before t -> length r = ncol_of s -> tuple_of (before ++ [s]) (t ++ [r]).
Proof. intros Ht Hr. apply Forall2_app; [done|]. by repeat constructor. Qed.
Lemma rel_join_tuples before s p T rights : Forall (tuple_of before) T -> Forall (fun r => length r = ncol_of s) rights ->
  Forall (tuple_of (before ++ [s])) (rel_join (qs_join s) (map nulls before) (nulls s) p T rights).
Proof.
  rewrite !List.Forall_forall. rewrite rel_join_keeps. intros HT Hr x Hx. apply elem_of_outer_join in Hx as [(t & r & Ht & Hin & _ & ->)|[(_ & t & Ht & _ & ->)|(_ & r & Hin & _ & ->)]]; apply tuple_of_snoc; auto.
  - apply length_replicate.
  - apply tuple_of_nulls.
Qed.

Lemma join_sources_ok total before srcs sets T db :
  total = width (before ++ srcs) -> layout 0 (before ++ srcs) -> Forall2 (fun s R => Forall (fun r => length r = ncol_of s) R) srcs sets ->
  Forall (fun s => forall_opt pure_expr (qs_on s) = true) srcs -> Forall (tuple_of before) T ->
  join_sources total srcs sets (map (flat total) T) db = Some (map (flat total) (rel_joins (cond total) before srcs sets T), db) .
Proof.
  intros Hw Hl HR. revert before Hw Hl T db. induction HR as [|s R srcs sets Hs HR IH]; intros before Hw Hl T db Hp HT; [done|].
  apply Forall_cons in Hp as [Hp1 Hp]. cbn [Join.join_sources rel_joins]. unfold mbind, M_bind.
  assert (fits total s (map nulls before)) as Hf by (eapply layout_ok; [done..|apply tuple_of_nulls]).
  rewrite (join_step_ok total s (cond total (qs_on s))) with (before := before); [|intros; by apply holds_cond| |done|done|by eapply row_alloc_flat].
  - apply IH; [by rewrite <- app_assoc|by rewrite <- app_assoc|done|]. by apply rel_join_tuples.
  - eapply Forall_impl; [exact HT|]. intros t Ht. by eapply layout_ok.
Qed.
Lemma where_loop_ok total w T db : forall_opt pure_expr w = true -> where_loop w (map (flat total) T) db = Some (map (flat total) (List.filter (cond total w) T), db).
Proof.
  intros H. induction T as [|t T IH]; [done|]. cbn [map Join.where_loop List.filter]. unfold mbind, M_bind. rewrite holds_cond, IH by done. by destruct (cond total w t).
Qed.

(** What [exec_select] sets up: the sources side by side, the rows as wide as
    their source, conditions without calls. *)
Record query_ok (total : Z) (srcs : list qsrc) (sets : list (list row)) (where_ : option rexpr) : Prop := {
  qo_width : total = width srcs;
  qo_layout : layout 0 srcs;
  qo_rows : Forall2 (fun s R => Forall (fun r => length r = ncol_of s) R) srcs sets;
  qo_on : Forall (fun s => forall_opt pure_expr (qs_on s) = true) srcs;
  qo_where : forall_opt pure_expr where_ = true }.

(** C17. Joins: on sources laid out side by side, with conditions that call
    nothing, [join_build] returns the flat rows of the relational query, in its
    order: inner and cross joins keep the matching pairs, LEFT and FULL joins also
    the left tuples without a partner, RIGHT and FULL joins the right rows without
    one, with NULLs in the other columns, and WHERE filters the result.  The
    connection is as before. *)
Theorem join_build_refines total srcs sets where_ db : query_ok total srcs sets where_ ->
  join_build total srcs sets where_ db = Some (map (flat total) (rel_query (cond total) srcs sets where_), db).
Proof.
  intros [Hw Hl HR Hp Hwh]. destruct HR as [|s R srcs sets Hs HR]; [done|]. cbn [Join.join_build rel_query]. apply Forall_cons in Hp as [_ Hp].
  assert (fits total s []) as Hf by (apply (layout_ok total [] s srcs []); [done|done|constructor]).
  assert (map (copy_cols (row_alloc total) (base_of s) (ncol_of s)) R = map (flat total) (map (fun r => [r]) R)) as ->.
  { rewrite map_map. apply map_ext_in. intros r Hr. rewrite List.Forall_forall in Hs. rewrite (row_alloc_flat total s []) by done. cbn [map].
    rewrite (flat_open total s []) by done. apply (copy_candidate total s []); [done|apply length_replicate|by apply Hs]. }
  unfold mbind, M_bind. rewrite (join_sources_ok total [s]); [by apply where_loop_ok|done..|].
  apply List.Forall_forall. intros t (r & <- & Hr)%in_map_iff. rewrite List.Forall_forall in Hs. repeat constructor. by apply Hs.
Qed.
End Refinement.

(** *** A full join *)

Definition no_extra : ectx -> name -> list ev -> M (Z * tdb_value) := fun _ _ _ => mret (0, VNull).
Definition demo_join := join_build no_extra (fun _ => None) (fun _ _ => None) (fun _ => None) (fun x _ => x) (fun x => x) (mret 0) (fun _ _ => mret None) [] [].
Definition demo_on : rexpr := RBinary TK_EQ false (RColumn 0 0) (RColumn 1 0) None.
Definition demo_srcs : list qsrc :=
  [mk_qsrc None (Some (str "t")) 0 1 [Some (str "a")] JOIN_NONE None; mk_qsrc None (Some (str "u")) 1 1 [Some (str "b")] JOIN_FULL (Some demo_on)].
Definition demo_sets : list (list row) := [[[VInt 1]; [VInt 2]]; [[VInt 2]; [VInt 3]]].
Lemma join_build_refines_witness :
  query_ok 2 demo_srcs demo_sets None /\
  demo_join 2 demo_srcs demo_sets None (mk_conn [] None) = Some ([[VInt 1; VNull]; [VInt 2; VInt 2]; [VNull; VInt 3]], mk_conn [] None).
Proof.
  assert (query_ok 2 demo_srcs demo_sets None) as H.
  { split; [reflexivity|cbn; lia| |by repeat (apply Forall_cons; split)|reflexivity]. repeat apply Forall2_cons_2; try apply Forall2_nil_2; by repeat (apply Forall_cons; split). }
  split; [exact H|]. unfold demo_join. rewrite (join_build_refines no_extra (fun _ => None) (fun _ _ => None) (fun _ => None) (fun x _ => x) (fun x => x) (mret 0) (fun _ _ => mret None) [] [] 2 demo_srcs demo_sets None (mk_conn [] None) H).
  vm_compute. reflexivity.
Defined.

(** ** Columns *)

(** The source has the column numbers its names give. *)
Definition src_ok (s : qsrc) : Prop := match qs_tbl s with Some t => qs_ncol s = Z.of_nat (length (tb_cols t)) | None => True end.
(** *** Names *)

(** The names of the columns of a source, and its own. *)
Definition column_names (s : qsrc) : list cstring :=
  match qs_tbl s with Some t => map col_name (tb_cols t) | None => take (Z.to_nat (qs_ncol s)) (qs_colnames s) end.
Inductive called (s : qsrc) (n : name) : Prop :=
| called_alias : qs_alias s = Some n -> called s n
| called_table t : qs_alias s = None -> qs_tbl s = Some t -> tb_name t = Some n -> called s n.
(** Column [k] of the source has the name, in any letter case. *)
Definition column_at (s : qsrc) (nm : name) (k : nat) : Prop := exists n, column_names s !! k = Some (Some n) /\ same_word n nm.
(** The qualifier of the column, if there is one, is the name of the source. *)
Definition admitted (table : option name) (s : qsrc) : Prop :=
  match table with None => True | Some t => exists n, called s n /\ same_word n t end.
Definition offers (table : option name) (nm : name) (s : qsrc) : Prop := admitted table s /\ exists k, column_at s nm k.

Lemma src_column_names s nm : src_column s nm = find_colname (column_names s) nm 0.
Proof. unfold src_column, column_names. destruct (qs_tbl s) as [t|]; [apply find_column_colnames|done]. Qed.
Lemma src_column_spec s nm : src_ok s -> 0 <= qs_ncol s ->
  (src_column s nm = -1 /\ forall k, ~ column_at s nm k)
  \/ exists k, src_column s nm = Z.of_nat k /\ Z.of_nat k < qs_ncol s /\ column_at s nm k /\ forall j, (j < k)%nat -> ~ column_at s nm j.
Proof.
  intros Hok Hn. rewrite src_column_names. destruct (find_colname_first (column_names s) nm 0) as [[-> Hno]|(k & n & -> & Hk & Hw & Hfirst)].
  - left. split; [done|]. intros k (n & Hk & Hw). by eapply Hno.
  - right. exists k. split; [lia|]. split; [|split; [by exists n|]].
    + apply lookup_lt_Some in Hk. unfold column_names, src_ok in *. destruct (qs_tbl s); [rewrite length_map in Hk; lia|rewrite length_take in Hk; lia].
    + intros j Hj (n' & Hj' & Hw'). by eapply Hfirst.
Qed.
Lemma src_name_called s n : src_name s = Some n <-> called s n.
Proof.
  unfold src_name. split.
  - destruct (qs_alias s) eqn:Ea; [intros [= ->]; by constructor|]. destruct (qs_tbl s) eqn:Et; [|done]. intros. by econstructor.
  - intros [Ha|t Ha Ht Hn]; rewrite Ha; [done|]. by rewrite Ht.
Qed.
Lemma src_qualified_spec table s : src_qualified table s = true <-> admitted table s.
Proof.
  destruct table as [t|]; [|done]. unfold src_qualified, admitted. destruct (src_name s) as [n|] eqn:E.
  - rewrite strcasecmp_same. split; [intros ?; exists n; split; [by apply src_name_called|done]|].
    intros (n' & Hn'%src_name_called & Hw). congruence.
  - split; [done|]. intros (n' & Hn'%src_name_called & _). congruence.
Qed.
(** The source is one the column can be found in. *)
Definition src_has (table : option name) (nm : name) (s : qsrc) : bool := src_qualified table s && (0 <=? src_column s nm).
Lemma src_has_spec table nm s : src_ok s -> 0 <= qs_ncol s -> src_has table nm s = true <-> offers table nm s.
Proof.
  intros Hok Hn. unfold src_has, offers. rewrite andb_true_iff, src_qualified_spec, Z.leb_le.
  destruct (src_column_spec s nm Hok Hn) as [[-> Hno]|(k & -> & _ & Hk & _)].
  - split; [intros [_ ?]; lia|]. by intros [_ [k ?%Hno]].
  - split; [intros [? _]; split; [done|by exists k]|]. intros [? _]. split; [done|lia].
Qed.
Lemma layout_ncol b srcs s : layout b srcs -> s ∈ srcs -> 0 <= qs_ncol s.
Proof. revert b. induction srcs as [|s0 srcs IH]; intros b; cbn [layout]; [by intros _ ?%not_elem_of_nil|]. intros (_ & Hn & Hl) [->|Hs]%elem_of_cons; [done|by eapply IH]. Qed.
Lemma none_offers table nm b srcs l : layout b srcs -> Forall src_ok srcs -> (forall s, s ∈ l -> s ∈ srcs) -> existsb (src_has table nm) l = false ->
  forall s, s ∈ l -> ~ offers table nm s.
Proof.
  intros Hl Hok Hsub He s Hs Hof. rewrite Forall_forall in Hok. apply src_has_spec in Hof; [|by apply Hok, Hsub|by eapply layout_ncol; [|apply Hsub]].
  assert (existsb (src_has table nm) l = true); [|congruence]. apply existsb_exists. exists s. split; [by apply list_elem_of_In|done].
Qed.
Lemma find_in_sources_spec l table nm ci : find_in_sources l table nm = Some ci ->
  exists pre s post, l = pre ++ s :: post /\ src_has table nm s = true /\ existsb (src_has table nm) pre = false /\ ci = qs_base s + src_column s nm.
Proof.
  induction l as [|s l IH]; [done|]. cbn [find_in_sources]. fold (src_has table nm s). destruct (src_has table nm s) eqn:E.
  - intros [= <-]. by exists [], s, l.
  - intros (pre & s' & post & -> & H1 & H2 & ->)%IH. exists (s :: pre), s', post. cbn [existsb]. by rewrite E.
Qed.
Lemma find_in_sources_none l table nm : find_in_sources l table nm = None <-> existsb (src_has table nm) l = false.
Proof. induction l as [|s l IH]; [done|]. cbn [find_in_sources existsb]. fold (src_has table nm s). by destruct (src_has table nm s). Qed.
Lemma find_in_scopes_spec l table nm n ci level : find_in_scopes l table nm n = Some (ci, level) ->
  exists k scope, level = (n + k)%nat /\ l !! k = Some scope /\ find_in_sources scope table nm = Some ci /\
    forall j sc, (j < k)%nat -> l !! j = Some sc -> find_in_sources sc table nm = None.
Proof.
  revert n. induction l as [|scope l IH]; intros n; [done|]. cbn [find_in_scopes]. destruct (find_in_sources scope table nm) eqn:E.
  - intros [= <- <-]. exists 0%nat, scope. split; [lia|]. do 2 (split; [done|]). lia.
  - intros (k & sc & -> & Hk & Hf & Hn)%IH. exists (S k), sc. split; [lia|]. do 2 (split; [done|]). intros [|j] sc' Hj; cbn [lookup list_lookup].
    + by intros [= <-].
    + apply Hn. lia.
Qed.
Lemma layout_slot srcs t pre s post k : layout 0 srcs -> tuple_of srcs t -> srcs = pre ++ s :: post -> 0 <= k < qs_ncol s ->
  exists seg v, t !! length pre = Some seg /\ seg !! Z.to_nat k = Some v /\ slot (concat t) (qs_base s + k) = v.
Proof.
  intros Hl Ht -> Hk. apply Forall2_app_inv_l in Ht as (t1 & t2 & H1 & H2 & ->). inversion H2 as [|s0 seg post0 t3 Hseg H3]; subst.
  destruct (layout_fits 0 pre s post t1 ltac:(lia) Hl H1) as (E & Hn & _). destruct (lookup_lt_is_Some_2 seg (Z.to_nat k)) as [v Hv]; [rewrite Hseg; unfold ncol_of; lia|].
  exists seg, v. rewrite lookup_app_r by (apply Forall2_length in H1; lia). apply Forall2_length in H1 as Hlen. rewrite Hlen, Nat.sub_diag. split; [done|]. split; [done|].
  unfold slot. rewrite concat_app. cbn [concat]. rewrite !length_app, Hseg. unfold ncol_of.
  destruct (Z.leb_spec 0 (qs_base s + k)); [|lia]. destruct (Z.ltb_spec (qs_base s + k) (Z.of_nat (length (concat t1) + (Z.to_nat (qs_ncol s) + length (concat t3))))); [|lia]. cbn [andb].
  rewrite app_nth2 by lia. rewrite app_nth1 by (rewrite Hseg; unfold ncol_of; lia). rewrite nth_lookup. replace (Z.to_nat (qs_base s + k) - length (concat t1))%nat with (Z.to_nat k) by lia. by rewrite Hv.
Qed.

(** C19. Columns: when a column is resolved, the number it gets reads, from the
    rows of the query and of the queries around it, the value of the first column
    whose name is the given one up to letter case, in a source whose alias, or
    else table name, is the qualifier, if there is one; the source is the first
    such one of its query, and no query nearer than that has one. *)
Theorem resolved_column_value extra find_plsql find_function find_lua c_pow c_round max_txnid subselect table nm q e q' c tuples :
  resolve_column table nm q = (Some e, q') ->
  Forall2 (fun scope t => layout 0 scope /\ Forall src_ok scope /\ tuple_of scope t) (q_scopes q) tuples ->
  ec_rows c = map (fun t => Some (concat t)) tuples ->
  exists level scope t pre s post seg k v,
    q_scopes q !! level = Some scope /\ tuples !! level = Some t /\ scope = pre ++ s :: post /\ t !! length pre = Some seg /\
    admitted table s /\ column_at s nm k /\ (forall j, (j < k)%nat -> ~ column_at s nm j) /\ seg !! k = Some v /\
    (forall s', s' ∈ pre -> ~ offers table nm s') /\
    (forall j sc s', (j < level)%nat -> q_scopes q !! j = Some sc -> s' ∈ sc -> ~ offers table nm s') /\
    forall db, eval extra find_plsql find_function find_lua c_pow c_round max_txnid subselect c e db = Some ((TDB_OK, v), db).
Proof.
  unfold resolve_column. intros H Hl Hc. destruct (find_in_scopes _ _ _ _) as [[ci level]|] eqn:E; [|done]. injection H as <- <-.
  apply find_in_scopes_spec in E as (lv & scope & -> & Hk & Hf & Hn). apply find_in_sources_spec in Hf as (pre & s & post & -> & Hs & Hpre & ->).
  pose proof Hs as Hs'. unfold src_has in Hs'. apply andb_true_iff in Hs' as [Hq Hcol].
  destruct (Forall2_lookup_l _ _ _ _ _ Hl Hk) as (t & Ht & Hlay & Hok & Htup). pose proof Hok as Hok0. apply Forall_app in Hok as [_ [Hso _]%Forall_cons].
  destruct (layout_fits 0 pre s post (map nulls pre) ltac:(lia) Hlay (tuple_of_nulls pre)) as (_ & Hnc & _).
  destruct (src_column_spec s nm Hso Hnc) as [[E _]|(k & E & Hlt & Hat & Hfirst)]; [rewrite E in Hcol; done|].
  destruct (layout_slot _ t pre s post (src_column s nm) Hlay Htup eq_refl) as (seg & v & Hseg & Hv & Hslot); [lia|]. rewrite E, Nat2Z.id in Hv.
  exists lv, (pre ++ s :: post), t, pre, s, post, seg, k, v. do 4 (split; [done|]). split; [by apply src_qualified_spec|]. do 3 (split; [done|]).
  split; [apply (none_offers table nm 0 (pre ++ s :: post)); try done; intros s' Hs'; apply elem_of_app; by left|].
  split.
  - intros j sc s' Hj Hsc Hin. destruct (Forall2_lookup_l _ _ _ _ _ Hl Hsc) as (tj & _ & Hlayj & Hokj & _).
    apply (none_offers table nm 0 sc sc Hlayj Hokj (fun _ H => H)); [|done]. apply find_in_sources_none. by eapply Hn.
  - intros db. cbn [Eval.eval Nat.add].
    rewrite Hc, nth_lookup, list_lookup_fmap, Ht. change (ok (slot (concat t) (qs_base s + src_column s nm)) db = Some ((TDB_OK, v), db)). by rewrite Hslot.
Qed.
Definition demo_q : qctx := mk_qctx [[mk_qsrc None (Some (str "i")) 0 1 [Some (str "x")] JOIN_NONE None]; demo_srcs] [] [] 0 false None.
Lemma resolved_column_value_witness :
  resolve_column (Some (str "U")) (str "B") demo_q = (Some (RColumn 1 1), demo_q) /\
  exists v, forall db, eval no_extra (fun _ => None) (fun _ _ => None) (fun _ => None) (fun x _ => x) (fun x => x) (mret 0) (fun _ _ => mret None)
    (mk_ectx [Some [VInt 5]; Some [VInt 7; VInt 8]] None None []) (RColumn 1 1) db = Some ((TDB_OK, v), db).
Proof.
  split; [reflexivity|].
  destruct (resolved_column_value no_extra (fun _ => None) (fun _ _ => None) (fun _ => None) (fun x _ => x) (fun x => x) (mret 0) (fun _ _ => mret None)
    (Some (str "U")) (str "B") demo_q (RColumn 1 1) demo_q (mk_ectx [Some [VInt 5]; Some [VInt 7; VInt 8]] None None []) [[[VInt 5]]; [[VInt 7]; [VInt 8]]])
    as (level & scope & t & pre & s & post & seg & k & v & H); [reflexivity| |reflexivity|].
  - repeat apply Forall2_cons_2; try apply Forall2_nil_2; (split; [cbn; lia|]; split; [by repeat (apply Forall_cons; split)|repeat apply Forall2_cons_2; try apply Forall2_nil_2; reflexivity]).
  - exists v. apply H.
Defined.
