(* ===== verification/Exec.v ===== *)
(** * Statements and transactions (src/src/sql/tdb_exec.c, tdb_exec_dml.inc)

    [stmt_execute_locked] gives every statement its transaction: the open one of
    the connection, or one of its own that is committed or rolled back when the
    statement is done.  Writes claim the writer slot of the environment, which
    connections share with the pager and the transaction manager.  What a
    statement does is a parameter that may change all of it; [None] is a NULL
    transaction passed to its commit or rollback. *)
From S2P Require Import Prelude Mvcc Lock Txn Value Schema Lexer Ast.

(** ** EXPLAIN *)

Section Explain.
(** [find_table] is the catalog's lookup, [pick_index] the index the planner
    would choose for a table and a WHERE clause. *)
Context (find_table : name -> option tdb_table) (pick_index : tdb_table -> option tdb_expr -> option tdb_index).
(** A line of 256 bytes with its NUL. *)
Definition line (s : list Z) : list Z := bsub s 0 255.
Definition scan_line (alone : bool) (where_ : option tdb_expr) (table : cstring) : list Z :=
  let t := match table with Some n => find_table n | None => None end in
  let colmark := match t with Some t => if tb_columnar t then str " (columnar)" else [] | None => [] end in
  let chosen :=
    match t with
    | Some t => if alone && negb (bool_decide (tb_indexes t = [])) then pick_index t where_ else None
    | None => None
    end in
  match chosen with
  | Some idx => line (str "SEARCH " ++ default [] table ++ str " USING INDEX " ++ default [] (ix_name idx) ++ colmark)
  | None => line (str "SCAN " ++ default (str "?") table ++ colmark)
  end.
Fixpoint explain_select (q : tdb_select) : list (list Z) :=
  match q with
  | mk_select _ _ _ from where_ _ _ order _ _ setop =>
      let sources := fix sources (l : list tdb_src) : list (list Z) :=
        match l with
        | [] => []
        | mk_src table _ subquery _ _ _ _ _ :: l =>
            match subquery with
            | Some sub => str "SCAN SUBQUERY" :: explain_select sub
            | None => [scan_line (bool_decide (length from = 1%nat)) where_ table]
            end ++ sources l
        end in
      match setop with
      | Some (op, all, _) =>
          [line (str "COMPOUND " ++ (if tk_eqb op TK_UNION then str "UNION" else if tk_eqb op TK_EXCEPT then str "EXCEPT" else str "INTERSECT")
                 ++ if all : bool then str " ALL" else [])]
      | None => []
      end
      ++ sources from
      ++ match setop with Some (_, _, next) => explain_select next | None => [] end
      ++ match order with [] => [] | _ => [str "USE TEMP B-TREE FOR ORDER BY"] end
  end.
Definition exec_explain (inner : option tdb_ast_stmt) : list (list Z) :=
  match inner with
  | None => [str "(empty)"]
  | Some (ST_SELECT q) => explain_select q
  | Some (ST_INSERT table _ source _ _ _) =>
      line (str "INSERT INTO " ++ table) :: match source with inr q => explain_select q | inl _ => [] end
  | Some (ST_UPDATE table _ _ _) => [line (str "UPDATE " ++ table ++ str " (scan)")]
  | Some (ST_DELETE table _ _) => [line (str "DELETE FROM " ++ table ++ str " (scan)")]
  | Some (ST_CREATE_TABLE _) => [str "CREATE TABLE"]
  | Some (ST_CREATE_INDEX _) => [str "CREATE INDEX (build)"]
  | Some _ => [str "DDL/UTILITY"]
  end.
End Explain.

Section Exec.
Context {P : Type} `{PagerTxn P}.
Abbreviation mgr := (tdb_txnmgr P).
Record tdb_env := mk_env { e_tm : mgr; e_writer : Z }.
Record tdb_db := mk_db { db_txn : option tdb_txn; db_autocommit : bool; db_changes : Z; db_total_changes : Z; db_err : cstring }.
(** [handler]: the [exec_*] functions and [run_select], run on the environment
    and the connection with their transaction, where they may change anything
    (a Lua procedure runs statements of its own on the connection); the result
    has the status and the rows changed.  [setup_stream]: a SELECT that is read
    lazily; [vacuum]: [tdb_pager_vacuum]; [find_table]: the catalog's lookup. *)
Context (alloc_ok : Z -> bool).
Context (handler : tdb_ast_stmt -> tdb_env -> tdb_db -> tdb_status * tdb_env * tdb_db * Z).
Context (setup_stream : tdb_select -> tdb_env -> tdb_db -> option tdb_status * tdb_env * tdb_db).
Context (vacuum : P -> tdb_status * P) (find_table : name -> option tdb_table).

Definition db_with_txn (db : tdb_db) (t : option tdb_txn) : tdb_db := mk_db t (db_autocommit db) (db_changes db) (db_total_changes db) (db_err db).
Definition db_in_txn (db : tdb_db) (t : option tdb_txn) (auto : bool) : tdb_db := mk_db t auto (db_changes db) (db_total_changes db) (db_err db).
Definition db_seterr (db : tdb_db) (m : list Z) : tdb_db := mk_db (db_txn db) (db_autocommit db) (db_changes db) (db_total_changes db) (Some m).

(** ** Transaction control *)

(** The end of a transaction of the connection: its writer slot is released. *)
Definition end_txn (f : mgr -> tdb_txn -> tdb_status * mgr) (e : tdb_env) (db : tdb_db) : tdb_status * tdb_env * tdb_db :=
  match db_txn db with
  | Some t => let '(rc, m) := f (e_tm e) t in (rc, mk_env m (tdb_env_release_writer (e_writer e) (t_id t)), db_in_txn db None true)
  | None => (TDB_OK, e, db_in_txn db None true)
  end.
Definition open_txn (e : tdb_env) (db : tdb_db) : tdb_status * tdb_env * tdb_db :=
  let '(rc, t, m) := tdb_txn_begin alloc_ok (e_tm e) TDB_ISO_SNAPSHOT true in
  (rc, mk_env m (e_writer e), db_in_txn db t false).
Definition no_savepoint (db : tdb_db) (n : list Z) : tdb_db := db_seterr db (str "no such savepoint: " ++ n).
Definition on_savepoint (f : mgr -> tdb_txn -> list Z -> tdb_status * tdb_txn * mgr) (e : tdb_env) (db : tdb_db) (n : list Z)
  : tdb_status * tdb_env * tdb_db :=
  match db_txn db with
  | None => (TDB_ERROR, e, no_savepoint db n)
  | Some t =>
      let '(rc, t, m) := f (e_tm e) t n in
      let db := db_with_txn db (Some t) in
      (rc, mk_env m (e_writer e), match rc with TDB_NOTFOUND => no_savepoint db n | _ => db end)
  end.
Definition exec_txn (e : tdb_env) (db : tdb_db) (a : tdb_ast_stmt) : tdb_status * tdb_env * tdb_db :=
  match a with
  | ST_BEGIN =>
      match db_txn db with
      | Some _ => (TDB_ERROR, e, db_seterr db (str "cannot start a transaction within a transaction"))
      | None => open_txn e db
      end
  | ST_COMMIT => end_txn tdb_txn_commit e db
  | ST_ROLLBACK => end_txn tdb_txn_rollback e db
  | ST_SAVEPOINT n =>
      let '(rc, e, db) := match db_txn db with Some _ => (TDB_OK, e, db) | None => open_txn e db end in
      match rc, db_txn db with
      | TDB_OK, Some t =>
          let '(rc, t, m) := tdb_txn_savepoint (e_tm e) t n in (rc, mk_env m (e_writer e), db_with_txn db (Some t))
      | rc, _ => (rc, e, db)
      end
  | ST_RELEASE n => on_savepoint tdb_txn_release e db n
  | ST_ROLLBACK_TO n => on_savepoint tdb_txn_rollback_to e db n
  | _ => (TDB_OK, e, db)
  end.
Definition is_txn_control (a : tdb_ast_stmt) : bool :=
  match a with ST_BEGIN | ST_COMMIT | ST_ROLLBACK | ST_SAVEPOINT _ | ST_RELEASE _ | ST_ROLLBACK_TO _ => true | _ => false end.

(** ** Statements *)

Definition is_select (a : tdb_ast_stmt) : bool := match a with ST_SELECT _ => true | _ => false end.
Definition is_dml (a : tdb_ast_stmt) : bool := match a with ST_INSERT _ _ _ _ _ _ | ST_UPDATE _ _ _ _ | ST_DELETE _ _ _ => true | _ => false end.
(** The kinds the dispatch has no branch for. *)
Definition unsupported (a : tdb_ast_stmt) : bool := match a with ST_PREPARE _ _ => true | _ => false end.
Definition set_locks (m : mgr) (lm : tdb_lockmgr) : mgr := mk_txnmgr (tm_pager m) (Some lm) (tm_base m) (tm_next m) (tm_recs m) (tm_active m).
Definition exec_lock (table : name) (exclusive : bool) (e : tdb_env) (db : tdb_db) : tdb_status * tdb_env * tdb_db :=
  match find_table table with
  | None => (TDB_ERROR, e, db_seterr db (str "no such table: " ++ table))
  | Some t =>
      match db_txn db, tm_locks (e_tm e) with
      | Some x, Some lm =>
          let '(rc, lm) := tdb_lock_acquire alloc_ok lm (t_id x) (mk_key TDB_RES_TABLE (u64 (tb_root t)) 0) (if exclusive then TDB_LOCK_EXCL else TDB_LOCK_SHARED) in
          (rc, mk_env (set_locks (e_tm e) lm) (e_writer e),
           match rc with
           | TDB_BUSY => db_seterr db (str "LOCK TABLE: resource busy")
           | TDB_ABORT => db_seterr db (str "LOCK TABLE: deadlock prevention aborted")
           | _ => db
           end)
      | _, _ => (TDB_OK, e, db)
      end
  end.
(** The function of a statement's kind. *)
Definition run_body (a : tdb_ast_stmt) (e : tdb_env) (db : tdb_db) : tdb_status * tdb_env * tdb_db * Z :=
  match a with
  | ST_LOCK_TABLE table exclusive => (exec_lock table exclusive e db, 0)
  | _ => if unsupported a then (TDB_UNSUPPORTED, e, db_seterr db (str "statement type not executable (kind=19)"), 0) else handler a e db
  end.
(** The run of a statement in the transaction of the connection: the rows
    changed, and whether a lazy SELECT takes the transaction along. *)
Definition dispatch (a : tdb_ast_stmt) (e : tdb_env) (db : tdb_db) : tdb_status * tdb_env * tdb_db * Z * bool :=
  match a with
  | ST_SELECT q =>
      match setup_stream q e db with
      | (Some rc, e, db) => (rc, e, db, 0, true)
      | (None, e, db) => (run_body a e db, false)
      end
  | _ => (run_body a e db, false)
  end.
(** A transaction opened for the statement ends with it: commit after a write
    that went well, rollback otherwise.  It is the one the connection has now;
    a connection that has none any more is the NULL pointer in the call, which
    is the result [None]. *)
Definition end_auto (a : tdb_ast_stmt) (rc : tdb_status) (e : tdb_env) (db : tdb_db) : option (tdb_status * tdb_env * tdb_db) :=
  t ← db_txn db;
  let '(rc, m) :=
    match rc with
    | TDB_OK =>
        if is_select a then (rc, (tdb_txn_rollback (e_tm e) t).2)
        else tdb_txn_commit (e_tm e) t
    | _ => (rc, (tdb_txn_rollback (e_tm e) t).2)
    end in
  Some (rc, mk_env m (if t_id t =? 0 then e_writer e else tdb_env_release_writer (e_writer e) (t_id t)), db_with_txn db None).
Definition publish (a : tdb_ast_stmt) (rc : tdb_status) (n : Z) (db : tdb_db) : tdb_db :=
  match rc with
  | TDB_OK => if is_dml a then mk_db (db_txn db) (db_autocommit db) n (s64 (db_total_changes db + n)) (db_err db) else db
  | _ => db
  end.
(** The result names the transaction that a lazy SELECT keeps open. *)
Definition run_in (a : tdb_ast_stmt) (started : bool) (e : tdb_env) (db : tdb_db)
  : option (tdb_status * tdb_env * tdb_db * option tdb_txn) :=
  let '(rc, e, db, n, streamed) := dispatch a e db in
  if negb started then Some (rc, e, publish a rc n db, None)
  else if streamed then Some (rc, e, publish a rc n (db_with_txn db None), db_txn db)
  else '(rc, e, db) ← end_auto a rc e db; Some (rc, e, publish a rc n db, None).
Definition stmt_execute_locked (a : option tdb_ast_stmt) (e : tdb_env) (db : tdb_db) : option (tdb_status * tdb_env * tdb_db * option tdb_txn) :=
  match a with
  | None => Some (TDB_OK, e, db, None)
  | Some a =>
      if is_txn_control a then Some (exec_txn e db a, None)
      else
        match a with
        | ST_EXPLAIN inner => Some (TDB_OK, e, db, None)
        | ST_VACUUM =>
            match db_txn db with
            | Some _ => Some (TDB_ERROR, e, db_seterr db (str "cannot VACUUM within a transaction"), None)
            | None => let '(rc, p) := vacuum (tm_pager (e_tm e)) in Some (rc, mk_env (set_pager (e_tm e) p) (e_writer e), db, None)
            end
        | _ =>
            let writable := negb (is_select a) in
            let claim := match db_txn db with Some t => t_id t | None => tdb_txnmgr_peek_next (e_tm e) end in
            let '(wr, writer) := if writable then tdb_env_acquire_writer (e_writer e) claim else (TDB_OK, e_writer e) in
            match wr with
            | TDB_OK =>
                match db_txn db with
                | Some t => run_in a false (mk_env (e_tm e) writer) db
                | None =>
                    let '(rc, t, m) := tdb_txn_begin alloc_ok (e_tm e) TDB_ISO_SNAPSHOT writable in
                    match rc, t with
                    | TDB_OK, Some t => run_in a true (mk_env m (if writable then t_id t else writer)) (db_with_txn db (Some t))
                    | rc, _ => Some (rc, mk_env m (if writable then tdb_env_release_writer writer (tdb_txnmgr_peek_next m) else writer), db, None)
                    end
                end
            | wr => Some (wr, e, db_seterr db (str "database is locked (write conflict)"), None)
            end
        end
  end.
End Exec.
Arguments mk_env {P}. Arguments e_tm {P}. Arguments e_writer {P}.
