(* ===== verification/ExecSpec.v ===== *)
(** * Statements are transactions of their own

    Without an open transaction a write is atomic: it commits or leaves the
    rollback of the pager, and neither a transaction nor the writer slot stays
    behind.  BEGIN does not claim the slot; a run shows what follows. *)
From S2P Require Import Prelude Mvcc Lock Txn Value Schema Lexer Ast Exec.

Section Spec.
Context {P : Type} `{PagerTxn P}.
Context (alloc_ok : Z -> bool).
Context (handler : tdb_ast_stmt -> tdb_env (P := P) -> tdb_db -> tdb_status * tdb_env (P := P) * tdb_db * Z).
Context (setup_stream : tdb_select -> tdb_env (P := P) -> tdb_db -> option tdb_status * tdb_env (P := P) * tdb_db).
Context (vacuum : P -> tdb_status * P) (find_table : name -> option tdb_table).
Abbreviation execute := (stmt_execute_locked alloc_ok handler setup_stream vacuum find_table).

(** The statements that go through the dispatch as writes. *)
Definition is_write (a : tdb_ast_stmt) : bool :=
  match a with
  | ST_SELECT _ | ST_EXPLAIN _ | ST_VACUUM | ST_PREPARE _ _ => false
  | _ => negb (is_txn_control a)
  end.
Lemma execute_write a (e : tdb_env) db : is_write a = true ->
  execute (Some a) e db =
    let claim := match db_txn db with Some t => t_id t | None => tdb_txnmgr_peek_next (e_tm e) end in
    let '(wr, writer) := tdb_env_acquire_writer (e_writer e) claim in
    match wr with
    | TDB_OK =>
        match db_txn db with
        | Some t => run_in alloc_ok handler setup_stream find_table a false (mk_env (e_tm e) writer) db
        | None =>
            let '(rc, t, m) := tdb_txn_begin alloc_ok (e_tm e) TDB_ISO_SNAPSHOT true in
            match rc, t with
            | TDB_OK, Some t => run_in alloc_ok handler setup_stream find_table a true (mk_env m (t_id t)) (db_with_txn db (Some t))
            | rc, _ => Some (rc, mk_env m (tdb_env_release_writer writer (tdb_txnmgr_peek_next m)), db, None)
            end
        end
    | wr => Some (wr, e, db_seterr db (str "database is locked (write conflict)"), None)
    end.
Proof. intros Ha. destruct a; try discriminate Ha; reflexivity. Qed.
Lemma dispatch_write a (e : tdb_env) db : is_write a = true -> dispatch alloc_ok handler setup_stream find_table a e db = (run_body alloc_ok handler find_table a e db, false).
Proof. intros Ha. destruct a; try discriminate Ha; reflexivity. Qed.
Lemma swap_remove_last l x : x ∉ l -> swap_remove (l ++ [x]) x = l.
Proof.
  induction l as [|a l IH]; intros Hx; cbn [app swap_remove]; [by rewrite Z.eqb_refl|]. apply not_elem_of_cons in Hx as [Hne Hx].
  rewrite (proj2 (Z.eqb_neq a x)) by done. by rewrite IH.
Qed.
Lemma commit_parts (m : tdb_txnmgr P) t : t_writable t = true ->
  tdb_txn_commit m t = ((pager_commit (pager_set_max_txnid (tm_pager m) (t_id t))).1, (tdb_txn_commit m t).2) /\
  tm_pager (tdb_txn_commit m t).2 = (pager_commit (pager_set_max_txnid (tm_pager m) (t_id t))).2 /\ tm_active (tdb_txn_commit m t).2 = swap_remove (tm_active m) (t_id t).
Proof.
  intros Hw. unfold tdb_txn_commit. rewrite Hw. destruct (pager_commit _) as [rc p]. unfold release_locks. cbn -[tdb_lock_release_all]. by destruct (tm_locks m).
Qed.
Lemma rollback_parts (m : tdb_txnmgr P) t : t_writable t = true ->
  tm_pager (tdb_txn_rollback m t).2 = (pager_rollback (tm_pager m)).2 /\ tm_active (tdb_txn_rollback m t).2 = swap_remove (tm_active m) (t_id t).
Proof.
  intros Hw. unfold tdb_txn_rollback. rewrite Hw. destruct (pager_rollback _) as [rc p]. unfold release_locks. cbn -[tdb_lock_release_all]. by destruct (tm_locks m).
Qed.

Lemma publish_txn a rc n db : db_txn (publish a rc n db) = db_txn db.
Proof. unfold publish. destruct rc; try done. by destruct (is_dml a). Qed.
Lemma publish_total a rc n db :
  db_total_changes (publish a rc n db) = if is_dml a && bool_decide (rc = TDB_OK) then s64 (db_total_changes db + n) else db_total_changes db.
Proof. unfold publish. by destruct rc, (is_dml a). Qed.
(** What most statements leave alone: the identity of the transaction, the
    total of changes, the writer slot and the active transactions.  A procedure
    that runs statements on the connection need not. *)
Record quiet (e : tdb_env (P := P)) (db : tdb_db) (e' : tdb_env (P := P)) (db' : tdb_db) : Prop := mk_quiet {
  q_txn : (fun t => (t_id t, t_writable t)) <$> db_txn db' = (fun t => (t_id t, t_writable t)) <$> db_txn db;
  q_total : db_total_changes db' = db_total_changes db;
  q_slot : e_writer e' = e_writer e;
  q_active : tm_active (e_tm e') = tm_active (e_tm e) }.
(** LOCK TABLE does. *)
Lemma exec_lock_quiet table x (e : tdb_env) db : let '(_, e', db') := exec_lock alloc_ok find_table table x e db in quiet e db e' db'.
Proof.
  unfold exec_lock. destruct (find_table table) as [tb|]; [|by constructor]. destruct (db_txn db) as [t|] eqn:Et; [|by constructor]. destruct (tm_locks (e_tm e)) as [lm|]; [|by constructor].
  destruct (tdb_lock_acquire _ _ _ _ _) as [rc lm']. by destruct rc; constructor; cbn; rewrite ?Et.
Qed.
(** The environment and the connection in which the body of a write runs. *)
Definition begun_env (e : tdb_env (P := P)) (p : P) : tdb_env := mk_env (set_pager (begun (e_tm e) TDB_ISO_SNAPSHOT true).1 p) (tm_next (e_tm e)).
Definition begun_db (e : tdb_env (P := P)) (db : tdb_db) : tdb_db := db_with_txn db (Some (begun (e_tm e) TDB_ISO_SNAPSHOT true).2).
Lemma execute_begun a (e : tdb_env) db p1 :
  is_write a = true -> db_txn db = None -> e_writer e = 0 -> alloc_ok 96 = true -> pager_begin (tm_pager (e_tm e)) = (TDB_OK, p1) ->
  execute (Some a) e db = run_in alloc_ok handler setup_stream find_table a true (begun_env e p1) (begun_db e db).
Proof.
  intros Ha Hdb Hw Hal Hb. rewrite execute_write, Hdb by done. unfold tdb_env_acquire_writer, tdb_txnmgr_peek_next. rewrite Hw, Z.eqb_refl. cbn [orb].
  unfold tdb_txn_begin. rewrite Hal. cbn [negb]. change (tm_pager (active_add _ _)) with (tm_pager (e_tm e)). rewrite Hb. by rewrite bool_decide_eq_true_2 by done.
Qed.

(** C18. Autocommit: a write without an open transaction runs in a transaction
    of its own, in which its body may change the pages, the locks and the
    message, but (hypothesis [quiet]) neither ends that transaction nor moves
    the counters, as a procedure that runs statements could.  When the body
    succeeds the transaction is committed and the status is that of the commit;
    when it fails the pager is rolled back and the status is the body's.
    Either way the connection has no transaction afterwards, the writer slot is
    free, the manager has the active transactions it had before, and the change
    counters move only on success. *)
Theorem autocommit_write a (e : tdb_env) db p1 rc e2 db2 n :
  is_write a = true -> db_txn db = None -> e_writer e = 0 -> alloc_ok 96 = true ->
  0 < tm_next (e_tm e) -> tm_next (e_tm e) ∉ tm_active (e_tm e) ->
  pager_begin (tm_pager (e_tm e)) = (TDB_OK, p1) ->
  run_body alloc_ok handler find_table a (begun_env e p1) (begun_db e db) = (rc, e2, db2, n) -> quiet (begun_env e p1) (begun_db e db) e2 db2 ->
  exists rc' e' db', execute (Some a) e db = Some (rc', e', db', None) /\
    db_txn db' = None /\ e_writer e' = 0 /\ tm_active (e_tm e') = tm_active (e_tm e) /\
    (rc = TDB_OK -> (rc', tm_pager (e_tm e')) = pager_commit (pager_set_max_txnid (tm_pager (e_tm e2)) (tm_next (e_tm e)))) /\
    (rc <> TDB_OK -> rc' = rc /\ tm_pager (e_tm e') = (pager_rollback (tm_pager (e_tm e2))).2) /\
    db_total_changes db' = (if is_dml a && bool_decide (rc' = TDB_OK) then s64 (db_total_changes db + n) else db_total_changes db).
Proof.
  intros Ha Hdb Hw Hal Hn Hact Hb Hh [Qt Qn Qs Qa]. rewrite (execute_begun a e db p1) by done. unfold run_in. rewrite dispatch_write, Hh by done. cbn [negb].
  cbn in Qt, Qn, Qs, Qa. destruct (db_txn db2) as [t|] eqn:Et; [|done]. injection Qt as Hid Hwr.
  assert (swap_remove (tm_active (e_tm e2)) (t_id t) = tm_active (e_tm e)) as Hsw by (rewrite Qa, Hid; by apply swap_remove_last).
  destruct (commit_parts (e_tm e2) t Hwr) as (Ec & Ecp & Eca). destruct (rollback_parts (e_tm e2) t Hwr) as (Erp & Era).
  assert (is_select a = false) as Hs by (destruct a; try discriminate Ha; reflexivity).
  unfold end_auto. rewrite Et, Hs. cbn [mbind option_bind]. rewrite (proj2 (Z.eqb_neq (t_id t) 0)) by lia. unfold tdb_env_release_writer. rewrite Qs, Hid, Z.eqb_refl in *.
  destruct (decide (rc = TDB_OK)) as [->|Hrc].
  - rewrite Ec. eexists _, _, _. split; [reflexivity|]. cbn [e_tm e_writer]. rewrite Eca, Ecp, publish_txn, publish_total. cbn [db_txn db_total_changes db_with_txn]. rewrite Qn.
    do 3 (split; [done|]). split; [intros _; by destruct (pager_commit _)|done].
  - assert ((match rc with TDB_OK => tdb_txn_commit (e_tm e2) t | _ => (rc, (tdb_txn_rollback (e_tm e2) t).2) end) = (rc, (tdb_txn_rollback (e_tm e2) t).2)) as -> by (by destruct rc).
    eexists _, _, _. split; [reflexivity|]. cbn [e_tm e_writer]. rewrite Era, Erp, publish_txn, publish_total. cbn [db_txn db_total_changes db_with_txn]. by rewrite Qn.
Qed.

(** C30. Write conflicts: a write of a connection whose transaction (or, without
    one, the next transaction id) is not the holder of the writer slot is refused
    and changes nothing but the message: an older transaction is told to wait, a
    younger one to give up. *)
Theorem write_conflict a (e : tdb_env) db :
  is_write a = true -> e_writer e <> 0 ->
  (match db_txn db with Some t => t_id t | None => tm_next (e_tm e) end) <> e_writer e ->
  execute (Some a) e db =
    Some (if (match db_txn db with Some t => t_id t | None => tm_next (e_tm e) end) <? e_writer e then TDB_BUSY else TDB_ABORT,
     e, db_seterr db (str "database is locked (write conflict)"), None).
Proof.
  intros Ha Hw Hc. rewrite execute_write by done. unfold tdb_env_acquire_writer, tdb_txnmgr_peek_next.
  rewrite (proj2 (Z.eqb_neq (e_writer e) 0)), (proj2 (Z.eqb_neq (e_writer e) (match db_txn db with Some t => t_id t | None => tm_next (e_tm e) end))) by done. cbn [orb].
  by destruct (_ <? _).
Qed.
(** A write that cannot begin in the pager leaves the writer slot taken: the
    transaction id was used up, and the slot is released for the next one. *)
Lemma failed_begin_keeps_slot a (e : tdb_env) db rc p1 :
  is_write a = true -> db_txn db = None -> e_writer e = 0 -> alloc_ok 96 = true -> 0 < tm_next (e_tm e) < 2 ^ 64 - 1 ->
  pager_begin (tm_pager (e_tm e)) = (rc, p1) -> rc <> TDB_OK ->
  exists e', execute (Some a) e db = Some (rc, e', db, None) /\ e_writer e' = tm_next (e_tm e) /\ tm_next (e_tm e') = tm_next (e_tm e) + 1.
Proof.
  intros Ha Hdb Hw Hal Hn Hb Hrc. rewrite execute_write, Hdb by done. unfold tdb_env_acquire_writer, tdb_txnmgr_peek_next. rewrite Hw, Z.eqb_refl. cbn [orb].
  unfold tdb_txn_begin. rewrite Hal. cbn [negb]. change (tm_pager (active_add _ _)) with (tm_pager (e_tm e)). rewrite Hb, bool_decide_eq_false_2 by done.
  assert (forall (m : tdb_txnmgr P) t, tm_next (tdb_txn_rollback m t).2 = tm_next m) as Hnx.
  { intros m t. unfold tdb_txn_rollback. destruct (t_writable t); [destruct (pager_rollback _)|]; cbn [snd]; unfold release_locks; cbn; by destruct (tm_locks m). }
  eexists. split; [by destruct rc|]. cbn [e_writer e_tm]. rewrite Hnx. cbn [tm_next set_pager active_add set_state]. rewrite u64_small by lia.
  unfold tdb_env_release_writer. by rewrite (proj2 (Z.eqb_neq _ _)) by lia.
Qed.
End Spec.

(** ** Two connections *)

Section Runs.
Import CellPager.
(** UPDATE writes 20 into the cell. *)
Definition cell_env := tdb_env (P := cell).
Definition set_cell (e : cell_env) (v : Z) : cell_env := let c := tm_pager (e_tm e) in mk_env (set_pager (e_tm e) (mk_cell v (c_durable c) (c_max c) (c_sps c))) (e_writer e).
Definition cell_handler (a : tdb_ast_stmt) (e : cell_env) (db : tdb_db) : tdb_status * cell_env * tdb_db * Z :=
  match a with ST_UPDATE _ _ _ _ => (TDB_OK, set_cell e 20, db, 1) | _ => (TDB_OK, e, db, 0) end.
Definition cell_run (handler : tdb_ast_stmt -> cell_env -> tdb_db -> tdb_status * cell_env * tdb_db * Z) :=
  stmt_execute_locked all_ok handler (fun _ e db => (None, e, db)) (fun c => (TDB_OK, c)) (fun _ => None).
Definition cell_execute := cell_run cell_handler.
Definition update : tdb_ast_stmt := ST_UPDATE (str "t") [] None [].
Definition conn0 : tdb_db := mk_db None true 0 0 None.
Definition env0 : cell_env := mk_env m0 0.
Lemma autocommit_write_witness :
  (exists rc' e' db', cell_execute (Some update) env0 conn0 = Some (rc', e', db', None) /\ db_txn db' = None /\ e_writer e' = 0 /\
    (TDB_OK = TDB_OK -> (rc', tm_pager (e_tm e')) = pager_commit (pager_set_max_txnid (mk_cell 20 10 4 []) 5))) /\
  is_write update = true.
Proof.
  split; [|reflexivity].
  destruct (autocommit_write all_ok cell_handler (fun _ e db => (None, e, db)) (fun c => (TDB_OK, c)) (fun _ => None) update env0 conn0 (mk_cell 10 10 4 [])
    TDB_OK (set_cell (begun_env env0 (mk_cell 10 10 4 [])) 20) (begun_db env0 conn0) 1) as (rc' & e' & db' & H1 & H2 & H3 & _ & H4 & _); try reflexivity.
  - cbn. apply not_elem_of_nil.
  - constructor; reflexivity.
  - exists rc', e', db'. split; [exact H1|]. split; [exact H2|]. split; [exact H3|]. exact H4.
Defined.
Lemma write_conflict_witness :
  cell_execute (Some update) (mk_env m0 3) conn0 = Some (TDB_ABORT, mk_env m0 3, db_seterr conn0 (str "database is locked (write conflict)"), None).
Proof. exact (write_conflict all_ok cell_handler (fun _ e db => (None, e, db)) (fun c => (TDB_OK, c)) (fun _ => None) update (mk_env m0 3) conn0 eq_refl ltac:(discriminate) ltac:(discriminate)). Defined.

(** A procedure that runs one statement of its own on the connection. *)
Definition call_running (s : tdb_ast_stmt) (a : tdb_ast_stmt) (e : cell_env) (db : tdb_db) : tdb_status * cell_env * tdb_db * Z :=
  match a with
  | ST_CALL _ _ => match cell_execute (Some s) e db with Some (rc, e, db, _) => (rc, e, db, 0) | None => (TDB_ERROR, e, db, 0) end
  | _ => cell_handler a e db
  end.
Definition call : tdb_ast_stmt := ST_CALL (str "p") [].
(** A CALL outside a transaction whose procedure commits ends the statement's
    own transaction: the end of the statement commits the NULL transaction. *)
Lemma call_that_commits : cell_run (call_running ST_COMMIT) (Some call) env0 conn0 = None.
Proof. reflexivity. Qed.
(** A CALL whose procedure updates a row moves the total of changes. *)
Lemma call_that_updates :
  match cell_run (call_running update) (Some call) env0 conn0 with Some (rc, e, db, _) => rc = TDB_OK /\ db_total_changes db = 1 /\ c_durable (tm_pager (e_tm e)) = 20 | None => False end.
Proof. by vm_compute. Qed.

(** Two connections of an environment take turns. *)
Fixpoint turns (l : list (bool * tdb_ast_stmt)) (e : cell_env) (a b : tdb_db) : list tdb_status * cell_env :=
  match l with
  | [] => ([], e)
  | (first, s) :: l =>
      match cell_execute (Some s) e (if first : bool then a else b) with
      | Some (rc, e, db, _) => let '(rcs, e) := turns l e (if first then db else a) (if first then b else db) in (rc :: rcs, e)
      | None => ([], e)
      end
  end.
(** BEGIN opens a write transaction of the pager without claiming the writer
    slot.  The ROLLBACK of a second connection, which wrote nothing, discards the
    update of the first one, whose COMMIT then reports success; its COMMIT makes
    that update durable before the first connection decided. *)
Lemma begin_breaks_isolation :
  (let '(rcs, e) := turns [(true, ST_BEGIN); (true, update); (false, ST_BEGIN); (false, ST_ROLLBACK); (true, ST_COMMIT)] env0 conn0 conn0 in
   Forall (eq TDB_OK) rcs /\ c_durable (tm_pager (e_tm e)) = 10) /\
  (let '(rcs, e) := turns [(true, ST_BEGIN); (true, update); (false, ST_BEGIN); (false, ST_COMMIT); (true, ST_ROLLBACK)] env0 conn0 conn0 in
   Forall (eq TDB_OK) rcs /\ c_durable (tm_pager (e_tm e)) = 20).
Proof. split; (split; [by repeat constructor|reflexivity]). Qed.
End Runs.
