(* ===== verification/Analyze.v ===== *)
(** * Tables from CREATE TABLE, and the printer of expressions
    (src/src/sql/tdb_analyze.c, tdb_ast.c)

    [tdb_ast_to_table] builds the schema object of a parsed CREATE TABLE. *)
From S2P Require Import Prelude Buf Value Cnum Schema Sqltype Lexer Ast Resolve.

Section Analyze.
Context (alloc_ok : Z -> bool).
Abbreviation dup := (tdb_strdup alloc_ok).
(** An error message and no table. *)
Definition oom : list Z := str "out of memory".

Definition column_of (cd : tdb_coldef) : tdb_column :=
  let c := tdb_column_init alloc_ok (Some (cd_name cd)) (cd_type cd) in
  mk_column (col_name c) (col_type c) (cd_coll cd) (cd_notnull cd) (cd_pk cd) (cd_unique cd) (cd_hidden cd)
    (dup (cd_default_sql cd)) (dup (cd_check_sql cd)) (cd_generated cd) (dup (cd_generated_sql cd)) (col_lua_compute c) (col_refs c).
Fixpoint add_columns (t : tdb_table) (cols : list tdb_coldef) : list Z + tdb_table :=
  match cols with
  | [] => inr t
  | cd :: cols => match tdb_table_add_column alloc_ok t (column_of cd) with (TDB_OK, t) => add_columns t cols | (_, _) => inl oom end
  end.
Definition set_pk (c : tdb_column) : tdb_column :=
  mk_column (col_name c) (col_type c) (col_coll c) (col_notnull c) true (col_unique c) (col_hidden c) (col_default_sql c)
    (col_check_sql c) (col_generated c) (col_generated_sql c) (col_lua_compute c) (col_refs c).
(** [t->cols[ci].pk = 1] for the named columns. *)
Fixpoint mark_pk (t : tdb_table) (names : list name) : list Z + tdb_table :=
  match names with
  | [] => inr t
  | n :: names =>
      let ci := tdb_table_find_column t n in
      if ci <? 0 then inl (str "PRIMARY KEY names unknown column")
      else mark_pk (tset_cols t (alter set_pk (Z.to_nat ci) (tb_cols t)) (tb_indexes t) (tb_row_start_col t) (tb_row_end_col t)) names
  end.
Definition part_code (k : tdb_partition_kind) : Z := match k with TDB_PART_NONE => 0 | TDB_PART_RANGE => 1 | TDB_PART_LIST => 2 | TDB_PART_HASH => 3 end.
(** The options of the table; a HASH partitioning without a count has four
    partitions. *)
Definition set_options (t : tdb_table) (ct : tdb_create_table) : tdb_table :=
  mk_table (tb_name t) (tb_root t) (tb_cols t) (tb_indexes t) (tb_fkeys t) (dup (ct_check_sql ct)) (tb_schema_version t)
    (tb_history t) (tb_versioning t) (tb_row_start_col t) (tb_row_end_col t) (tb_history_root t) (ct_columnar ct)
    (tb_col_roots t) (tb_before_insert_lua t) (tb_before_update_lua t) (tb_before_delete_lua t) (dup (ct_tablespace ct))
    (dup (ct_compression ct)) (part_code (ct_partition_kind ct)) (map (fun c => dup (Some c)) (ct_partition_cols ct))
    (match ct_partition_kind ct with
     | TDB_PART_HASH => if 0 <? ct_partition_count ct then ct_partition_count ct else 4
     | TDB_PART_NONE => tb_partition_count t
     | _ => ct_partition_count ct
     end).
Definition period_column (n : cstring) (dflt : list Z) : tdb_column :=
  let c := tdb_column_init alloc_ok (Some (default dflt n)) (tdb_typespec_parse (Some (str "TIMESTAMP"))) in
  mk_column (col_name c) (col_type c) (col_coll c) true (col_pk c) (col_unique c) true (col_default_sql c)
    (col_check_sql c) (col_generated c) (col_generated_sql c) (col_lua_compute c) (col_refs c).
Definition set_versioning (t : tdb_table) (start end_ : Z) : tdb_table :=
  mk_table (tb_name t) (tb_root t) (tb_cols t) (tb_indexes t) (tb_fkeys t) (tb_check_sql t) (tb_schema_version t)
    (tb_history t) TDB_VERSIONING_SYSTEM start end_ (tb_history_root t) (tb_columnar t)
    (tb_col_roots t) (tb_before_insert_lua t) (tb_before_update_lua t) (tb_before_delete_lua t) (tb_tablespace t)
    (tb_compression t) (tb_partition_kind t) (tb_partition_cols t) (tb_partition_count t).
(** The status of the two additions is ignored. *)
Definition add_period (t : tdb_table) (ct : tdb_create_table) : tdb_table :=
  let start := Z.of_nat (length (tb_cols t)) in
  let t := (tdb_table_add_column alloc_ok t (period_column (ct_period_start ct) (str "row_start"))).2 in
  let end_ := Z.of_nat (length (tb_cols t)) in
  let t := (tdb_table_add_column alloc_ok t (period_column (ct_period_end ct) (str "row_end"))).2 in
  set_versioning t start end_.
Definition tdb_ast_to_table (ct : tdb_create_table) : list Z + tdb_table :=
  match tdb_table_new alloc_ok (Some (ct_name ct)) with
  | None => inl oom
  | Some t =>
      match add_columns t (ct_cols ct) with
      | inl e => inl e
      | inr t =>
          match mark_pk t (ct_pk_cols ct) with
          | inl e => inl e
          | inr t =>
              if negb (bool_decide (ct_partition_cols ct = [])) && negb (alloc_ok (8 * Z.of_nat (length (ct_partition_cols ct)))) then inl oom
              else
                let t := set_options t ct in
                inr (if ct_system_versioning ct then add_period t ct else t)
          end
      end
  end.
End Analyze.

(** ** The printer of expressions *)

Fixpoint commas (l : list (list Z)) : list Z := match l with [] => [] | [x] => x | x :: l => x ++ str ", " ++ commas l end.
Fixpoint tdb_expr_debug (e : tdb_expr) : list Z :=
  match e with
  | EX_NULL => str "NULL"
  | EX_STAR => str "*"
  | EX_LITERAL (VInt i) => fmt_lld i
  | EX_LITERAL (VReal r) => fmt_g 6 r
  | EX_LITERAL (VText s) => str "'" ++ s ++ str "'"
  | EX_LITERAL _ => str "?lit"
  | EX_PARAM p => p
  | EX_COLUMN t c => match t with Some t => t ++ str "." | None => [] end ++ c
  | EX_UNARY op e => str "(" ++ tdb_token_name op ++ str " " ++ tdb_expr_debug e ++ str ")"
  | EX_BINARY op _ l r _ => str "(" ++ tdb_expr_debug l ++ str " " ++ tdb_token_name op ++ str " " ++ tdb_expr_debug r ++ str ")"
  | EX_FUNC fn distinct args | EX_AGG fn distinct args =>
      fn ++ str "(" ++ (if distinct then str "DISTINCT " else []) ++ commas (map tdb_expr_debug args) ++ str ")"
  | EX_CAST e ty => str "CAST(" ++ tdb_expr_debug e ++ str " AS " ++ tdb_typeid_name (ty_id ty) ++ str ")"
  | EX_IN_LIST negated e args =>
      str "(" ++ tdb_expr_debug e ++ (if negated then str " NOT IN (" else str " IN (") ++ commas (map tdb_expr_debug args) ++ str "))"
  | EX_IN_SELECT negated e _ => str "(" ++ tdb_expr_debug e ++ (if negated then str " NOT IN (" else str " IN (") ++ str "))"
  | EX_BETWEEN negated e lo hi =>
      str "(" ++ tdb_expr_debug e ++ (if negated then str " NOT BETWEEN " else str " BETWEEN ") ++ tdb_expr_debug lo ++ str " AND " ++ tdb_expr_debug hi ++ str ")"
  | EX_CASE _ _ _ => str "CASE" ++ str ")"
  | EX_EXISTS _ => str "EXISTS(...)"
  | EX_SUBQUERY _ => str "(SELECT ...)"
  | EX_WINDOW _ _ _ _ _ => []
  end.

(** ** The schema of a created table *)

(** The printer closes a bracket that CASE never opened. *)
Lemma case_prints_unbalanced b w e : tdb_expr_debug (EX_CASE b w e) = str "CASE)".
Proof. done. Qed.

(** The columns the PRIMARY KEY clause names: each name marks the first column
    it equals. *)
Definition marked (cols : list tdb_column) (names : list name) : list tdb_column :=
  imap (fun k c => if existsb (fun n => find_column cols n 0 =? Z.of_nat k) names then set_pk c else c) cols.
Lemma set_pk_idem c : set_pk (set_pk c) = set_pk c.
Proof. done. Qed.
Lemma find_column_names cols cols' nm i : map col_name cols = map col_name cols' -> find_column cols nm i = find_column cols' nm i.
Proof.
  revert cols' i. induction cols as [|c cols IH]; intros [|c' cols'] i E; try done. cbn [map] in E. injection E as E1 E2. cbn [find_column]. rewrite E1.
  destruct (match col_name c' with Some _ => _ | None => _ end); [done|]. by apply IH.
Qed.
Lemma alter_names k cols : map col_name (alter set_pk k cols) = map col_name cols.
Proof. revert k. induction cols as [|c cols IH]; intros [|k]; cbn; try done. by rewrite IH. Qed.
Lemma alter_imap (f : nat -> tdb_column -> tdb_column) k cols :
  imap f (alter set_pk k cols) = imap (fun j c => f j (if bool_decide (j = k) then set_pk c else c)) cols.
Proof.
  apply list_eq. intros j. rewrite !list_lookup_imap. destruct (decide (j = k)) as [->|Hn].
  - rewrite list_lookup_alter_eq. destruct (cols !! k); [|done]. cbn [fmap option_fmap option_map]. by rewrite bool_decide_eq_true_2.
  - rewrite list_lookup_alter_ne by done. destruct (cols !! j); [|done]. cbn [fmap option_fmap option_map]. by rewrite bool_decide_eq_false_2.
Qed.
Lemma imap_same (cols : list tdb_column) : imap (fun _ c => c) cols = cols.
Proof. apply list_eq. intros j. rewrite list_lookup_imap. by destruct (cols !! j). Qed.
Lemma mark_pk_ok t names : (forall n, In n names -> 0 <= tdb_table_find_column t n) ->
  mark_pk t names = inr (tset_cols t (marked (tb_cols t) names) (tb_indexes t) (tb_row_start_col t) (tb_row_end_col t)).
Proof.
  revert t. induction names as [|n names IH]; intros t Hn; cbn [mark_pk].
  - unfold marked. cbn [existsb]. rewrite imap_same. by destruct t.
  - pose proof (Hn n (or_introl eq_refl)) as H0. destruct (Z.ltb_spec (tdb_table_find_column t n) 0); [lia|]. rewrite IH.
    + f_equal. cbn [tset_cols tb_cols tb_indexes tb_row_start_col tb_row_end_col]. unfold tset_cols. f_equal. unfold marked. rewrite alter_imap. apply imap_ext. intros j c Hj.
      cbn [tset_cols tb_cols existsb]. assert (forall m, find_column (alter set_pk (Z.to_nat (tdb_table_find_column t n)) (tb_cols t)) m 0 = find_column (tb_cols t) m 0) as E
        by (intros m; apply find_column_names, alter_names).
      assert (existsb (fun m => find_column (alter set_pk (Z.to_nat (tdb_table_find_column t n)) (tb_cols t)) m 0 =? Z.of_nat j) names = existsb (fun m => find_column (tb_cols t) m 0 =? Z.of_nat j) names) as ->.
      { clear -E. induction names as [|m names IH]; [done|]. cbn [existsb]. by rewrite E, IH. }
      unfold tdb_table_find_column in *. destruct (Z.eqb_spec (find_column (tb_cols t) n 0) (Z.of_nat j)) as [Ej|Ej].
      * rewrite bool_decide_eq_true_2 by lia. cbn [orb]. by destruct (existsb _ names).
      * rewrite bool_decide_eq_false_2 by lia. done.
    + intros m Hm. unfold tdb_table_find_column. cbn [tset_cols tb_cols]. rewrite (find_column_names _ (tb_cols t)) by apply alter_names. apply Hn. by right.
Qed.
Lemma mark_pk_fails t names n : In n names -> tdb_table_find_column t n < 0 -> mark_pk t names = inl (str "PRIMARY KEY names unknown column").
Proof.
  revert t. induction names as [|m names IH]; intros t Hin Hn; [done|]. cbn [mark_pk]. destruct (Z.ltb_spec (tdb_table_find_column t m) 0); [done|].
  destruct Hin as [->|Hin]; [lia|]. apply IH; [done|]. unfold tdb_table_find_column in *. cbn [tset_cols tb_cols]. by rewrite (find_column_names _ (tb_cols t)) by apply alter_names.
Qed.
Lemma add_columns_ok t cols : add_columns ok_alloc t cols = inr (tset_cols t (tb_cols t ++ map (column_of ok_alloc) cols) (tb_indexes t) (tb_row_start_col t) (tb_row_end_col t)).
Proof.
  revert t. induction cols as [|cd cols IH]; intros t; cbn [add_columns map].
  - rewrite app_nil_r. by destruct t.
  - unfold tdb_table_add_column. cbn [ok_alloc]. rewrite IH. f_equal. unfold tset_cols. cbn [tb_cols tset_cols]. f_equal. by rewrite <- app_assoc.
Qed.

(** *** What a statement declares *)

(** Column [k] is the first of the declared ones with the name, in any letter
    case. *)
Definition names_column (cols : list tdb_coldef) (n : name) (k : nat) : Prop :=
  (exists cd, cols !! k = Some cd /\ same_word (cd_name cd) n) /\ forall j cd, (j < k)%nat -> cols !! j = Some cd -> ~ same_word (cd_name cd) n.
(** The column has everything its definition says; it is part of the key when the
    definition or the PRIMARY KEY clause says so. *)
Record declared (cd : tdb_coldef) (in_clause : Prop) (c : tdb_column) : Prop := {
  de_name : col_name c = Some (cd_name cd);
  de_type : col_type c = cd_type cd;
  de_coll : col_coll c = cd_coll cd;
  de_notnull : col_notnull c = cd_notnull cd;
  de_pk : col_pk c = true <-> cd_pk cd = true \/ in_clause;
  de_unique : col_unique c = cd_unique cd;
  de_hidden : col_hidden c = cd_hidden cd;
  de_default : col_default_sql c = cd_default_sql cd;
  de_check : col_check_sql c = cd_check_sql cd;
  de_generated : col_generated c = cd_generated cd /\ col_generated_sql c = cd_generated_sql cd;
  de_rest : col_lua_compute c = None /\ col_refs c = [] }.
(** A bound of the period of a system-versioned table. *)
Record period_bound (n : cstring) (dflt : list Z) (c : tdb_column) : Prop := {
  pb_name : col_name c = Some (default dflt n);
  pb_type : ty_id (col_type c) = TDB_T_TIMESTAMP;
  pb_flags : col_hidden c = true /\ col_notnull c = true /\ col_pk c = false /\ col_unique c = false }.
Definition partitions (k : tdb_partition_kind) (count : Z) : Z :=
  match k with TDB_PART_NONE => 0 | TDB_PART_HASH => if 0 <? count then count else 4 | _ => count end.

Lemma dup_all (s : cstring) : tdb_strdup ok_alloc s = s.
Proof. by destruct s. Qed.
Lemma declared_names cols : map col_name (map (column_of ok_alloc) cols) = map (fun cd => Some (cd_name cd)) cols.
Proof. by rewrite map_map. Qed.
Lemma names_lookup cols k n : map (fun cd => Some (cd_name cd)) cols !! k = Some (Some n) <-> exists cd, cols !! k = Some cd /\ cd_name cd = n.
Proof.
  rewrite list_lookup_fmap. destruct (cols !! k) as [cd|]; cbn; [|split; [done|by intros (cd & ? & _)]].
  split; [intros [= <-]; by exists cd|]. by intros (cd' & [= <-] & <-).
Qed.
(** A name of the clause is unknown, or [find_column] finds the column it
    names. *)
Lemma find_declared cols n :
  (find_column (map (column_of ok_alloc) cols) n 0 = -1 /\ forall k cd, cols !! k = Some cd -> ~ same_word (cd_name cd) n)
  \/ exists k, find_column (map (column_of ok_alloc) cols) n 0 = Z.of_nat k /\ names_column cols n k.
Proof.
  rewrite find_column_colnames, declared_names. destruct (find_colname_first (map (fun cd => Some (cd_name cd)) cols) n 0) as [[-> Hno]|(k & m & -> & Hk & Hw & Hfirst)].
  - left. split; [done|]. intros k cd Hk. apply (Hno k). apply names_lookup. by exists cd.
  - right. exists k. split; [lia|]. apply names_lookup in Hk as (cd & Hk & <-). split; [by exists cd|]. intros j cd' Hj Hj'. apply (Hfirst j); [done|]. apply names_lookup. by exists cd'.
Qed.
Lemma names_column_unique cols n k k' : names_column cols n k -> names_column cols n k' -> k = k'.
Proof.
  intros [(cd & Hk & Hw) H1] [(cd' & Hk' & Hw') H2]. destruct (Nat.lt_trichotomy k k') as [Hl|[->|Hl]]; [|done|].
  - by destruct (H2 k cd Hl Hk).
  - by destruct (H1 k' cd' Hl Hk').
Qed.
Lemma marked_declared cols names k cd : cols !! k = Some cd ->
  exists c, marked (map (column_of ok_alloc) cols) names !! k = Some c /\ declared cd (exists n, In n names /\ names_column cols n k) c.
Proof.
  intros Hk. unfold marked. rewrite list_lookup_imap, list_lookup_fmap, Hk. cbn [fmap option_fmap option_map]. eexists. split; [reflexivity|].
  destruct (existsb _ names) eqn:E.
  - apply existsb_exists in E as (n & Hin & Hn%Z.eqb_eq). destruct (find_declared cols n) as [[E0 _]|(k' & E0 & Hc)]; rewrite E0 in Hn; [lia|].
    assert (k' = k) as -> by lia. split; try done; cbn -[tdb_strdup]; rewrite ?dup_all; try done. split; [|done]. intros _. right. by exists n.
  - split; try done; cbn -[tdb_strdup]; rewrite ?dup_all; try done. split; [by left|]. intros [?|(n & Hin & Hc)]; [done|].
    assert (existsb (fun n => find_column (map (column_of ok_alloc) cols) n 0 =? Z.of_nat k) names = true); [|congruence].
    apply existsb_exists. exists n. split; [done|]. destruct (find_declared cols n) as [[_ Hno]|(k' & -> & Hc')].
    + destruct Hc as [(cd' & Hcd & Hw) _]. by destruct (Hno k cd' Hcd).
    + apply Z.eqb_eq. f_equal. by eapply names_column_unique.
Qed.

(** C31. CREATE TABLE: when memory suffices, the statement fails exactly when a
    name of the PRIMARY KEY clause is not that of a declared column (in any letter
    case).  Otherwise the table has the declared columns in their order, each with
    the name, type, collation, constraints and texts of its definition, and in the
    key exactly when its definition says so or a name of the clause is first met
    there; a system-versioned table has two more columns, hidden NOT NULL
    timestamps with the given names or row_start and row_end, which the period
    fields number; the options and the partitioning are the declared ones, a HASH
    partitioning without a count having four partitions. *)
Theorem created_table ct :
  let n := length (ct_cols ct) in
  (exists nm, In nm (ct_pk_cols ct) /\ forall k cd, ct_cols ct !! k = Some cd -> ~ same_word (cd_name cd) nm)
    /\ tdb_ast_to_table ok_alloc ct = inl (str "PRIMARY KEY names unknown column")
  \/ (forall nm, In nm (ct_pk_cols ct) -> exists k, names_column (ct_cols ct) nm k)
    /\ exists t, tdb_ast_to_table ok_alloc ct = inr t /\ tb_name t = Some (ct_name ct)
      /\ (forall k cd, ct_cols ct !! k = Some cd ->
           exists c, tb_cols t !! k = Some c /\ declared cd (exists nm, In nm (ct_pk_cols ct) /\ names_column (ct_cols ct) nm k) c)
      /\ (if ct_system_versioning ct
          then tb_versioning t = TDB_VERSIONING_SYSTEM /\ tb_row_start_col t = Z.of_nat n /\ tb_row_end_col t = Z.of_nat n + 1
            /\ exists s e, drop n (tb_cols t) = [s; e] /\ period_bound (ct_period_start ct) (str "row_start") s /\ period_bound (ct_period_end ct) (str "row_end") e
          else tb_versioning t = TDB_VERSIONING_NONE /\ tb_row_start_col t = -1 /\ tb_row_end_col t = -1 /\ drop n (tb_cols t) = [])
      /\ tb_check_sql t = ct_check_sql ct /\ tb_columnar t = ct_columnar ct /\ tb_tablespace t = ct_tablespace ct /\ tb_compression t = ct_compression ct
      /\ tb_partition_cols t = map Some (ct_partition_cols ct) /\ tb_partition_count t = partitions (ct_partition_kind ct) (ct_partition_count ct)
      /\ tb_partition_kind t = (match ct_partition_kind ct with TDB_PART_NONE => 0 | TDB_PART_RANGE => 1 | TDB_PART_LIST => 2 | TDB_PART_HASH => 3 end).
Proof.
  intros n. unfold tdb_ast_to_table, tdb_table_new. cbn [ok_alloc]. rewrite add_columns_ok. cbn [tb_cols app].
  destruct (decide (Forall (fun nm => 0 <= find_column (map (column_of ok_alloc) (ct_cols ct)) nm 0) (ct_pk_cols ct))) as [Hpk|Hpk].
  - right. rewrite List.Forall_forall in Hpk. rewrite mark_pk_ok by exact Hpk. split.
    { intros nm Hin. specialize (Hpk nm Hin). destruct (find_declared (ct_cols ct) nm) as [[E _]|(k & _ & Hk)]; [lia|by exists k]. }
    cbn [negb]. rewrite andb_false_r. eexists. split; [reflexivity|].
    pose proof (marked_declared (ct_cols ct) (ct_pk_cols ct)) as Hm. set (m := marked _ _) in *.
    assert (length m = n) as Hl by (unfold m, marked; rewrite length_imap, length_map; done).
    assert (forall k cd more, ct_cols ct !! k = Some cd -> exists c, (m ++ more) !! k = Some c /\ declared cd (exists nm, In nm (ct_pk_cols ct) /\ names_column (ct_cols ct) nm k) c) as Hcol.
    { intros k cd more Hk. destruct (Hm k cd Hk) as (c & Hc & Hd). exists c. split; [by apply lookup_app_l_Some|done]. }
    destruct (ct_system_versioning ct); cbn -[period_column m tdb_strdup str]; rewrite !dup_all.
    + split; [done|]. split; [intros k cd Hk; rewrite <- app_assoc; by apply Hcol|]. split.
      * split; [done|]. rewrite length_app, Hl. cbn [length]. split; [done|]. split; [lia|]. eexists _, _. rewrite <- app_assoc, drop_app_length' by done.
        split; [reflexivity|]. split; (split; [cbn -[str]; by destruct (ct_period_start ct), (ct_period_end ct)|vm_compute; reflexivity|done]).
      * do 4 (split; [done|]). split; [by apply map_ext|]. by destruct (ct_partition_kind ct).
    + split; [done|]. split; [intros k cd Hk; rewrite <- (app_nil_r m); by apply Hcol|]. split; [do 3 (split; [done|]); by apply drop_ge; lia|].
      do 4 (split; [done|]). split; [by apply map_ext|]. by destruct (ct_partition_kind ct).
  - left. apply not_Forall_Exists in Hpk; [|apply _]. apply List.Exists_exists in Hpk as (nm & Hin & Hn). unfold compose in Hn. split.
    + exists nm. split; [done|]. destruct (find_declared (ct_cols ct) nm) as [[_ Hno]|(k & E & _)]; [done|]. rewrite E in Hn. lia.
    + rewrite (mark_pk_fails _ _ nm); [done|done|]. unfold tdb_table_find_column. cbn [tset_cols tb_cols]. lia.
Qed.

(** CREATE TABLE t (a INTEGER NOT NULL UNIQUE, b TEXT DEFAULT 'x', PRIMARY KEY (B)):
    the second column is the key. *)
Definition demo_coldef (n : list Z) (ty : tdb_typeid) (notnull unique : bool) (dflt : cstring) : tdb_coldef :=
  mk_coldef n (mk_typespec ty 0 0 0) notnull false unique false false TDB_COLL_BINARY dflt None TDB_GEN_NONE None.
Definition demo_create : tdb_create_table :=
  mk_create_table (str "t") false false [demo_coldef (str "a") TDB_T_INTEGER true true None; demo_coldef (str "b") TDB_T_TEXT false false (Some (str "'x'"))]
    [str "B"] None false false None None None None TDB_PART_NONE [] 0 None.
Lemma created_table_witness :
  exists t a b, tdb_ast_to_table ok_alloc demo_create = inr t /\ tb_cols t !! 0%nat = Some a /\ tb_cols t !! 1%nat = Some b
    /\ col_notnull a = true /\ col_unique a = true /\ col_default_sql b = Some (str "'x'") /\ col_pk b = true.
Proof.
  destruct (created_table demo_create) as [[(nm & [<-|[]] & Hno) _]|(_ & t & E & _ & Hcols & _)].
  - exfalso. apply (Hno 1%nat _ eq_refl). reflexivity.
  - destruct (Hcols 0%nat _ eq_refl) as (a & Ha & Da). destruct (Hcols 1%nat _ eq_refl) as (b & Hb & Db). exists t, a, b.
    split; [exact E|]. split; [exact Ha|]. split; [exact Hb|]. split; [exact (de_notnull _ _ _ Da)|]. split; [exact (de_unique _ _ _ Da)|].
    split; [exact (de_default _ _ _ Db)|]. apply (de_pk _ _ _ Db). right. exists (str "B"). split; [by left|]. split; [eexists; split; [reflexivity|reflexivity]|].
    intros [|j] cd Hj Hcd; [|lia]. injection Hcd as <-. vm_compute. discriminate.
Defined.
